(* ===== verification/_CoqProject ===== *)
-Q . S2P
Prelude.v
QueueSpsc.v
QueueConc.v
ByteBuf.v
Buffer.v
BufferPool.v
ListPtr.v
Inet.v
Endpoint.v
Event.v
Channel.v
Service.v
ServiceWrite.v
ServiceRead.v
ServiceRun.v
ServiceSetup.v
Time.v
Connection.v
ConnStream.v
ConnLife.v
AwsMath.v
HashTable.v
HashProbe.v
HashMap.v
HashOps.v
HashRun.v
HashIter.v
TnMap.v
ArrayList.v
ArrayRun.v
ListBlock.v
SplitChar.v
CmdArgs.v
UvHeap.v
UvHeapRun.v
UvTimer.v
UvTimerRun.v
UvStream.v
UvStreamRun.v
UvStreamSpec.v
UvRead.v
UvAccept.v
UvAsync.v
UvPool.v
UvPoolRun.v
UvIo.v
UvIoRun.v
UvLoop.v
ServiceLife.v
LifeRun.v
EchoServ.v
EchoCtl.v
LoadGen.v
LoadRun.v
LoadMain.v
Sniff.v
UnityServ.v
Log.v
Platform.v
Fslog.v
