(* ===== verification/Prelude.v ===== *)
(** * A verification library for tcpeen

    tcpeen is a small TCP networking library in C.  Its centre is the TCP service
    (src/tcp_service.c): a main thread that sends messages and collects events, and an IO
    thread that runs libuv callbacks.  The two share no lock; they hand requests, buffers
    and events to each other through single-producer/single-consumer queues, and every
    object they exchange comes from a pool that was filled at set-up.  A client library
    (src/tcp_connection.c) frames messages, takes streams apart and follows the life of a
    connection; containers (pointer list, block list, map) are built on the vendored
    aws-c-common.

    ** Parts, files and sources

    Paths are relative to the repository; [deps/...] is vendored code the program calls.

    - Prelude: machine integers as [Z] with explicit wrap-around ([u64], [u32], ...), the
      return codes and guard macros of include/tn/error.h, the monad [M S A] of a C
      function ([None]: a failed assertion, a NULL dereference, an access outside an
      object, or a loop out of fuel), shared lemmas and tactics.
    - QueueSpsc: src/queue_spsc.c over src/atomic.c, one call at a time.  QueueConc: the
      same operations cut at each load and store, any number of producers, one consumer.
    - ByteBuf: byte memory, deps/aws-c-common byte_buf.h and byte_order.h.  Buffer:
      src/buffer.c.  BufferPool: src/buffer_pool.c.
    - ListPtr: src/list_ptr.c.  ArrayList, ArrayRun: aws-c-common array_list.inl and
      array_list.c.  ListBlock: src/list_block.c.
    - Inet: deps/libuv inet.c, strscpy.c and the address functions of uv-common.c.
      Endpoint: src/endpoint.c.
    - Event: src/event.c.  Channel: src/tcp_channel.c.
    - Service: src/tcp_service.c and the callbacks of src/tcp_service_internal.c over one
      state [tcp_service_t].  ServiceWrite: the send path.  ServiceRead: the receive path.
      ServiceRun: runs of both threads.  ServiceSetup: set-up, and executed runs.
    - UvLoop: when a libuv loop is alive and when it closes (deps/libuv unix/core.c,
      uv-common.c).  ServiceLife, LifeRun: start, stop and the IO thread, interleaved at
      the loads and stores of the service's state.
    - Time: src/time.c and aws clock.h.  Connection: src/tcp_connection.c and
      src/tcp_context.c.  ConnStream: framing and parsing of streams.  ConnLife: the states
      of a connection.
    - AwsMath: overflow-checked multiplication of aws-c-common math.h.  HashTable,
      HashProbe, HashMap, HashOps, HashRun, HashIter: source/hash_table.c (the code; the
      robin-hood invariant; the association-list specification; the operations; programs
      of operations; iterators).  TnMap: src/map.c.
    - UvHeap, UvHeapRun: the pointer heap of deps/libuv heap-inl.h and its operations.
      UvTimer, UvTimerRun: deps/libuv timer.c over it.
    - UvStream: the writing half of deps/libuv unix/stream.c.  UvStreamRun: its invariant.
      UvStreamSpec: runs of a stream.  UvRead: the reading half.  UvAccept: accepting
      connections and descriptors.  UvAsync: deps/libuv unix/async.c, cut at each access.
      UvPool, UvPoolRun: deps/libuv threadpool.c, cut at the mutexes; its runs.  UvIo, UvIoRun:
      the watchers of deps/libuv unix/core.c and the poll of unix/linux-core.c; its runs.
    - SplitChar: splitting on a character (aws-c-common byte_buf.c).  CmdArgs: the
      arguments of the load generator (include/tcplg/cmdargs.h).  LoadGen, LoadRun: the
      load generator src/tcplg/tcplg.c over the client library.  LoadMain: its main.
    - Sniff: the packet sniffer src/sniff/sniff.c over the answers of libpcap.
    - EchoServ, EchoCtl: the callbacks, and the start, stop and thread, of the stand-alone
      echo server src/tcpserv/tcpserv.c.  UnityServ: the echo
      server on the service (src/tcpserv/tcpserv_unity.c) and the functions that
      src/unity/tcpeen_unity.c exports.
    - Log: src/log.c.  Fslog: src/fslog.c.  Platform: src/thread.c, src/mutex.c,
      src/allocator.c, src/uuid.c and src/system.c over aws-c-common.

    Every C structure is a record with its members, every function one definition of the
    same name, except where a function is cut at its shared accesses (QueueConc,
    ServiceLife, UvAsync, UvPool) or a loop body has a name of its own.  A pointer into an array is the
    index of the element, a pointer to bytes an address, [NULL] is [None] or address 0.
    The answers of the allocator, of libuv, of the clock and of the system are arguments;
    theorems quantify over all of them, under the documented behaviour where one is needed
    (an allocated block is fresh and as large as asked for).

    ** What is shown

    - Queues: one call at a time the ring queue is a FIFO bounded by the rounded capacity
      ([queue_refines_fifo]); interleaved at single loads and stores it still is for one
      producer and one consumer ([spsc_interleaved_fifo]), and not for two producers
      ([two_producers_lose_element]).  Memory is sequentially consistent.
    - Buffers: reads and writes are all-or-nothing on a byte stream
      ([buffer_is_byte_stream]), integers cross hosts of different byte order
      ([wire_round_trip]), pooled buffers are independent streams
      ([pool_refines_streams], [pool_isolation]).
    - Containers: pointer list, block list, array list, hash table and map refine a stack,
      a stack, a sequence, an association list and a finite map; searches and insertions
      end ([probing_terminates]); iteration visits each element once, deletions included
      ([foreach_visits_once]); table equality is decided ([hash_table_eq_decides]).
      [tn_map_setup_fails] and [list_block_overruns] show where set-up goes wrong.
    - Service: from a fresh service ([tcp_service_setup_fresh]), under every interleaving
      of calls and callbacks and every answer of libuv, no call is undefined
      ([service_never_undefined]); messages are sent in order, completely, from the right
      memory ([send_path_exact]); events tell the main thread exactly what happened
      ([receive_path_exact]); requests, buffers, events and channels are in one place each
      ([receive_side_partition], [events_conserved]).  [send_reaches_next_client] is a run
      in which a message reaches the wrong client.
    - Life cycle: states and threads agree under every interleaving ([service_lifecycle]);
      a stop ends when the clients leave ([stop_completes], [stop_waits_for_clients]), and
      never when it comes at the wrong moment ([stop_race_never_returns]).
    - Connection: framing and parsing are inverse however the stream is cut
      ([messages_round_trip]); on any bytes the receiver does what a parser on byte lists
      does ([receive_refines_parser]); its states match its handles ([conn_lifecycle]) and a
      disconnect completes ([disconnect_completes]).
    - Timers: the heap with its pointers is a heap of exactly the active timers under every
      sequence of calls ([timers_refine_map]); a round of the loop fires the due timers once,
      in order, and ends unless a callback starts a timer with timeout 0 ([run_timers_exact],
      [zero_timeout_never_returns]).
    - Streams of libuv: whatever is called and whatever the kernel answers, the bytes leave
      in order and every write is reported once, truthfully ([stream_writes_exact]); a
      stream that sleeps or is destroyed owes no report ([stream_owes_nothing]), but a
      shutdown can be forgotten ([shutdown_while_connecting_stalls]) and a refused write
      keeps the loop alive ([write_enomem_keeps_loop]).  Reading gives each buffer back
      once and delivers the kernel's bytes in order ([stream_reads_exact]); every descriptor
      that arrives is given to one client, closed or kept, in order
      ([descriptors_accounted]).  [eof_restart_spins], [stop_in_alloc_undefined] and
      [failed_accept_stalls] show where programs get stuck.  Sends from other threads wake the
      loop and none is lost ([async_no_lost_wakeup]); the loop can always come to rest
      ([async_settles]).
    - Watchers: only fresh reports that a watcher wants are delivered, and a loop that blocks has
      told epoll all that its watchers want ([watchers_exact]); interruptions make the poll return
      early ([poll_returns_early]).
    - Thread pool: each request is run and reported once, or cancelled and reported once, and slow
      work keeps to half of the threads ([pool_exact]); the pool always finishes what it has, and
      ends when it is told to ([pool_settles]).  [cancel_in_callback_undefined] is a misuse that the
      code does not stop.
    - Programs: the load generator is safe under every interleaving, keeps its counters and
      shuts down ([generator_safe], [generator_shuts_down]); its main gives back all but two
      blocks per connection on every path ([main_accounts_for_blocks]); its arguments are accepted and
      taken apart as stated ([accepted_arguments], [server_argument]); both echo servers give
      each client back its own bytes ([echo_exact], [unity_server_echoes]); the stand-alone
      one stops when its clients leave, and cannot be started again ([echo_stop_completes],
      [echo_restart_refused], [echo_blocks_overrun]).
    - Sniffer: every capture round reports its own packets and the exit code tells errors
      ([sniff_counts_rounds]); without permission it ends undefined
      ([sniff_unactivated_undefined]); the ring of address texts ([iptos_result_stays]).
    - Around the system: the log prints exactly what its settings let through
      ([log_program_exact]), and its clean-up keeps exit from ending
      ([exit_ends_without_cleanup]); threads are neither lost nor joined twice
      ([threads_accounted]); mutexes exclude ([mutex_excludes]); the file log never stops and
      reads its file once ([fslog_cleanup_never_returns], [fslog_reads_once]).
    - Addresses, time and arithmetic: [endpoint_ip4_round_trip], [tstamp_round_trip],
      [mul_implementations_agree], [nospec_agrees_with_advance].

    Each theorem with hypotheses has a [_witness] that applies it to a concrete input; the
    runs of the service, of the connection and of the life cycle are executed.

    ** Fuel and bounds

    Definitions are structurally recursive or take fuel that a caller of the C function
    never sees.  The prepare callback gets one unit per request it can find queued, the
    receive callback one more than the bytes waiting (every round but the last takes some),
    a probe, an insertion, a removal or an iteration of the hash table one per slot and one
    more, the search for a table size 65 (it doubles a 64-bit number).  The loops of the
    timer heap get one unit per node and one more, the one that computes the path to a node
    33 (it halves a 32-bit number); a round of timers one per node of the heap and one more;
    the callbacks of a stream one per request done when they start; an attempt to write one
    more than its buffers; a round of a pool thread 2 (it starts again once
    at most); a log call depth 2 (the first message sets the log up, which logs one line of its own).  The theorems
    show that this is enough: they state the result, not only what holds if there is one.
    Sizes are bounded as the C types bound them; where an address computation could wrap,
    the block is assumed to lie in the lower half of the address space, as blocks of user
    programs do.

    ** Not modelled

    The text of log lines and of the terminal display is not formatted.  The vendored
    libpcap, argparse and klib, the tests and the rest of libuv and of aws-c-common are not
    modelled.  Weak memory is not modelled: the memory orders given to the atomics are
    recorded as arguments without an effect. *)
From stdpp Require Import base numbers list option gmap.
From Stdlib Require Import ZArith Lia.

Local Open Scope Z_scope.

(** ** Machine integers *)

(** Unsigned arithmetic of the source is arithmetic modulo 2^w on [Z]; every
    wrap-around point of the code is an explicit [u64], [u32], ... *)
Abbreviation W64 := 18446744073709551616 (only parsing).
Abbreviation W32 := 4294967296 (only parsing).
Abbreviation W16 := 65536 (only parsing).
Abbreviation W8 := 256 (only parsing).

Definition u64 (x : Z) : Z := x mod W64.
Definition u32 (x : Z) : Z := x mod W32.
Definition u16 (x : Z) : Z := x mod W16.
Definition u8 (x : Z) : Z := x mod W8.

(** [SIZE_MAX] of the LP64 targets the library is built for. *)
Definition SIZE_MAX : Z := 18446744073709551615.

(** C integers used as truth values. *)
Definition c_bool (b : bool) : Z := if b then 1 else 0.

(** ** Return codes of include/tn/error.h *)
Definition TN_SUCCESS : Z := 0.
Definition TN_ERROR : Z := -1.
Definition TN_QUEUE_EMPTY : Z := -100.
Definition TN_QUEUE_FULL : Z := -101.
Definition TN_QUEUE_AGAIN : Z := -102.
Definition TN_EVENT_NOCHAN : Z := -201.
Definition TN_SEND_ERROR : Z := -300.
Definition TN_SEND_NOREQ : Z := -301.
Definition TN_SEND_NOBUF : Z := -302.
Definition TN_SEND_PUSH : Z := -303.
Definition TN_RECV_ERROR : Z := -400.
Definition TN_RECV_EBUF : Z := -401.
Definition TN_RECV_EVTPOP : Z := -402.
Definition TN_RECV_EVTPUSH : Z := -403.

(** ** Pointers to objects *)

(** A pointer to an element of an array is the element's index, and [NULL] is
    [None]; raw byte pointers are addresses (see the byte-buffer file). *)
Abbreviation ptr A := (option A).
Abbreviation NULL := None (only parsing).

(** ** The effect of a C function

    [M S A] is a computation on the state [S] that returns an [A].  [None] is
    "the C program has no defined behaviour here": a failed [TN_ASSERT], a
    dereference of [NULL] or an access outside an object. *)
Definition M (S A : Type) : Type := S → option (A * S).

#[global] Instance M_ret S : MRet (M S) := λ A x s, Some (x, s).
#[global] Instance M_bind S : MBind (M S) := λ A B f m s,
  match m s with Some (a, s') => f a s' | None => None end.

Definition get {S} : M S S := λ s, Some (s, s).
Definition gets {S A} (f : S → A) : M S A := λ s, Some (f s, s).
Definition put {S} (s' : S) : M S unit := λ _, Some (tt, s').
Definition modify {S} (f : S → S) : M S unit := λ s, Some (tt, f s).
Definition undef {S A} : M S A := λ _, None.
Definition lift {S A} (o : option A) : M S A := λ s,
  match o with Some a => Some (a, s) | None => None end.

(** [TN_ASSERT(e)] of error.h. *)
Definition TN_ASSERT {S} (b : bool) : M S unit := if b then mret tt else undef.

(** A call on a member of the current object: [zoom rd wr m] runs [m] on the
    member read by [rd] and stores the member back with [wr]. *)
Definition zoom {S T A} (rd : S → T) (wr : T → S → S) (m : M T A) : M S A := λ s,
  match m (rd s) with Some (a, t) => Some (a, wr t s) | None => None end.

Declare Scope c_scope.
Delimit Scope c_scope with C.

(** The guard macros of error.h: [TN_GUARD(e)] returns [TN_ERROR] when the call
    [e] returns non-zero, [TN_GUARD_CLEANUP(e)] jumps to the label instead. *)
Notation "'TN_GUARD' e 'THEN' k" :=
  (mbind (λ r : Z, if Z.eqb r 0 then k else mret TN_ERROR) e)
  (at level 100, e at level 99, k at level 200, right associativity) : c_scope.
Notation "'TN_GUARD_IF' b 'THEN' k" :=
  (if b then mret TN_ERROR else k)
  (at level 100, b at level 99, k at level 200, right associativity) : c_scope.
Notation "'TN_GUARD_CLEANUP' '[' l ']' e 'THEN' k" :=
  (mbind (λ r : Z, if Z.eqb r 0 then k else l) e)
  (at level 100, l at level 99, e at level 99, k at level 200, right associativity) : c_scope.

(** ** Machine-integer lemmas *)

Lemma u64_range x : 0 ≤ u64 x < W64.
Proof. unfold u64. apply Z.mod_pos_bound. lia. Qed.

Lemma u64_small x : 0 ≤ x < W64 → u64 x = x.
Proof. apply Z.mod_small. Qed.

Lemma u32_range x : 0 ≤ u32 x < W32.
Proof. unfold u32. apply Z.mod_pos_bound. lia. Qed.

Lemma u32_small x : 0 ≤ x < W32 → u32 x = x.
Proof. apply Z.mod_small. Qed.

Lemma u64_add_idemp_l x y : u64 (u64 x + y) = u64 (x + y).
Proof. unfold u64. apply Zplus_mod_idemp_l. Qed.

Lemma u64_sub_idemp_l x y : u64 (u64 x - y) = u64 (x - y).
Proof. unfold u64. apply Zminus_mod_idemp_l. Qed.

Lemma u64_sub_idemp_r x y : u64 (x - u64 y) = u64 (x - y).
Proof. unfold u64. apply Zminus_mod_idemp_r. Qed.

Lemma u64_u64 x : u64 (u64 x) = u64 x.
Proof. unfold u64. apply Z.mod_mod. lia. Qed.

(** A power of two up to 2^64 divides the word size, so reducing modulo it
    ignores an earlier wrap-around. *)
Lemma u64_mod_pow2 x k : 0 ≤ k ≤ 64 → u64 x mod 2 ^ k = x mod 2 ^ k.
Proof.
  intros Hk. unfold u64.
  change W64 with (2 ^ 64). replace 64 with (k + (64 - k)) by lia.
  rewrite Z.pow_add_r by lia.
  assert (0 < 2 ^ k) by (apply Z.pow_pos_nonneg; lia).
  assert (0 < 2 ^ (64 - k)) by (apply Z.pow_pos_nonneg; lia).
  rewrite Z.rem_mul_r by lia.
  rewrite Z.mul_comm, Z.mod_add by lia. apply Z.mod_mod. lia.
Qed.

(** Two numbers less than [c] apart with the same residue are equal. *)
Lemma mod_inj_window a b c :
  0 < c → Z.abs (a - b) < c → a mod c = b mod c → a = b.
Proof.
  intros Hc Hd He.
  pose proof (Z.div_mod a c ltac:(lia)). pose proof (Z.div_mod b c ltac:(lia)).
  assert (a / c = b / c) by nia. lia.
Qed.

Lemma land_mask x k : 0 ≤ k → Z.land x (2 ^ k - 1) = x mod 2 ^ k.
Proof. intros. rewrite <- Z.land_ones by lia. by rewrite Z.ones_equiv, <- Z.sub_1_r. Qed.

Lemma lor_lt_pow2 a b k :
  0 ≤ a → 0 ≤ b → 0 ≤ k → Z.lor a b < 2 ^ k ↔ a < 2 ^ k ∧ b < 2 ^ k.
Proof.
  intros Ha Hb Hk. pose proof (Z.pow_pos_nonneg 2 k ltac:(lia) Hk).
  assert (∀ x, 0 ≤ x → x < 2 ^ k ↔ Z.shiftr x k = 0) as Hsh.
  { intros x Hx. rewrite Z.shiftr_div_pow2 by lia. split.
    - intros. apply Z.div_small. lia.
    - intros H0. apply Z.div_small_iff in H0; lia. }
  rewrite !Hsh, Z.shiftr_lor, Z.lor_eq_0_iff by (try apply Z.lor_nonneg; lia). done.
Qed.

(** A duplicate-free list of indices below [n] has at most [n] elements. *)
Lemma nodup_below_length (n : nat) (l : list nat) :
  NoDup l → Forall (λ i, (i < n)%nat) l → (length l ≤ n)%nat.
Proof.
  intros Hnd Hr. rewrite <- (length_seq n 0). apply NoDup_incl_length.
  { by apply NoDup_ListNoDup. }
  intros i Hi. apply in_seq. rewrite Forall_forall in Hr.
  specialize (Hr i). rewrite list_elem_of_In in Hr. specialize (Hr Hi). lia.
Qed.

(** Taking an element out of a duplicate-free list. *)
Lemma nodup_remove {A} `{EqDecision A} (e : A) (l : list A) :
  NoDup l → e ∈ l → l ≡ₚ e :: filter (.≠ e) l.
Proof.
  intros Hnd He. apply NoDup_Permutation; [done| |].
  - apply NoDup_cons. split; [rewrite list_elem_of_filter; naive_solver|by apply NoDup_filter].
  - intros x. rewrite elem_of_cons, list_elem_of_filter.
    destruct (decide (x = e)); naive_solver.
Qed.

(** ** Automation *)

Create HintDb tn.
Create Rewrite HintDb tn.
#[export] Hint Resolve u64_range u32_range : tn.
#[export] Hint Rewrite u64_add_idemp_l u64_sub_idemp_l u64_sub_idemp_r u64_u64 : tn.

(** Runs the monad: exposes the state transformer of a definition. *)
Ltac mrun :=
  unfold mbind, M_bind, mret, M_ret, get, gets, put, modify, lift, zoom, TN_ASSERT, undef;
  simpl.
Tactic Notation "mrun" "in" hyp(H) :=
  unfold mbind, M_bind, mret, M_ret, get, gets, put, modify, lift, zoom, TN_ASSERT, undef in H;
  simpl in H.

(** Arithmetic on return codes. *)
Ltac code_lia :=
  unfold TN_SUCCESS, TN_ERROR, TN_QUEUE_EMPTY, TN_QUEUE_FULL, TN_SEND_NOREQ, TN_SEND_NOBUF,
    TN_SEND_PUSH, TN_RECV_ERROR, TN_RECV_EBUF, TN_RECV_EVTPOP, TN_RECV_EVTPUSH in *; lia.

(** Splits an [if] of the goal or of a hypothesis on its boolean test and turns
    the test into an arithmetic fact. *)
Ltac case_bool :=
  match goal with
  | |- context [if (?a =? ?b)%Z then _ else _] => destruct (Z.eqb_spec a b)
  | |- context [if (?a <? ?b)%Z then _ else _] => destruct (Z.ltb_spec a b)
  | |- context [if (?a <=? ?b)%Z then _ else _] => destruct (Z.leb_spec a b)
  | H : context [if (?a =? ?b)%Z then _ else _] |- _ => destruct (Z.eqb_spec a b)
  | H : context [if (?a <? ?b)%Z then _ else _] |- _ => destruct (Z.ltb_spec a b)
  | H : context [if (?a <=? ?b)%Z then _ else _] |- _ => destruct (Z.leb_spec a b)
  end.

(** Decides a boolean comparison whose arithmetic [lia] proves. *)
Ltac bool_lia :=
  repeat first
    [ rewrite (proj2 (Z.eqb_eq _ _)) by lia | rewrite (proj2 (Z.eqb_neq _ _)) by lia
    | rewrite (proj2 (Z.ltb_lt _ _)) by lia | rewrite (proj2 (Z.ltb_ge _ _)) by lia
    | rewrite (proj2 (Z.leb_le _ _)) by lia | rewrite (proj2 (Z.leb_gt _ _)) by lia ].

(** ** Laws of the monad *)

Lemma M_left_id {S A B} (a : A) (f : A → M S B) s : (mret a ≫= f) s = f a s.
Proof. reflexivity. Qed.

Lemma M_assoc {S A B C} (m : M S A) (f : A → M S B) (g : B → M S C) s :
  ((m ≫= f) ≫= g) s = (m ≫= (λ x, f x ≫= g)) s.
Proof. mrun. by destruct (m s) as [[? ?]|]. Qed.

Lemma bind_Some {S A B} (m : M S A) (f : A → M S B) s a s' :
  m s = Some (a, s') → (m ≫= f) s = f a s'.
Proof. intros H. mrun. by rewrite H. Qed.

Lemma zoom_Some {S T A} (rd : S → T) wr (m : M T A) s a t :
  m (rd s) = Some (a, t) → zoom rd wr m s = Some (a, wr t s).
Proof. intros H. unfold zoom. by rewrite H. Qed.

Lemma M_get {S A} (k : S → M S A) s : (get ≫= k) s = k s s.
Proof. reflexivity. Qed.

Lemma M_gets {S A B} (f : S → A) (k : A → M S B) s : (gets f ≫= k) s = k (f s) s.
Proof. reflexivity. Qed.

Lemma M_put {S A} (s' : S) (k : unit → M S A) s : (put s' ≫= k) s = k tt s'.
Proof. reflexivity. Qed.

Lemma M_modify {S A} (f : S → S) (k : unit → M S A) s : (modify f ≫= k) s = k tt (f s).
Proof. reflexivity. Qed.

Lemma M_lift {S A B} (a : A) (k : A → M S B) s : (lift (Some a) ≫= k) s = k a s.
Proof. reflexivity. Qed.

Lemma M_assert {S A} (k : unit → M S A) s : (TN_ASSERT true ≫= k) s = k tt s.
Proof. reflexivity. Qed.

(** One evaluation step of a run: the administrative reductions, and [bstep H],
    [zstep H s] to run a call, or a call on a member of [s], whose result is [H]. *)
Ltac mnext :=
  cbv beta zeta; cbn [fst snd];
  try change (TN_SUCCESS =? 0) with true; try change (TN_ERROR =? 0) with false;
  try change (TN_QUEUE_EMPTY =? 0) with false; try change (TN_QUEUE_FULL =? 0) with false;
  cbn [negb];
  rewrite ?M_get, ?M_gets, ?M_put, ?M_modify, ?M_lift, ?M_assert, ?M_left_id; cbv beta zeta.
Ltac bstep H := rewrite (bind_Some _ _ _ _ _ H); repeat (progress mnext).
Ltac zstep H s := rewrite (bind_Some _ _ _ _ _ (zoom_Some _ _ _ s _ _ H)); repeat (progress mnext).

(** ** Lists updated in one place *)

Lemma insert_split {A} (l : list A) t x : l !! t = Some x → ∃ rest, l ≡ₚ x :: rest ∧ ∀ y, <[t := y]> l ≡ₚ y :: rest.
Proof.
  intros Hx. exists (take t l ++ drop (S t) l). split.
  - rewrite <- (take_drop_middle l t x Hx) at 1. by rewrite Permutation_middle.
  - intros y. rewrite insert_take_drop by (by eapply lookup_lt_Some). by rewrite Permutation_middle.
Qed.

(** ** Maps *)

Lemma alter_here {A} `{Countable K} (f : A → A) (h : K) (ts : gmap K A) t : ts !! h = Some t → alter f h ts = <[h := f t]> ts.
Proof. intros Ht. apply map_eq. intros g. rewrite lookup_alter, lookup_insert. case_decide; subst; by rewrite ?Ht. Qed.

(** ** Stable properties *)

(** A property of the state that a computation keeps. *)
Definition stable {S A} (P : S → Prop) (f : M S A) : Prop := ∀ s a s', P s → f s = Some (a, s') → P s'.

Section Stable.
Context {S : Type} (P : S → Prop).

Lemma stable_bind {A B} (f : M S A) (g : A → M S B) : stable P f → (∀ a, stable P (g a)) → stable P (f ≫= g).
Proof.
  intros Hf Hg s b s' HP H. unfold mbind, M_bind in H. destruct (f s) as [[a s1]|] eqn:E; [|done].
  by eapply Hg, H; eapply Hf, E.
Qed.
Lemma stable_ret {A} (a : A) : stable P (mret a).
Proof. intros s b s' HP [= _ <-]. done. Qed.
Lemma stable_get : stable P get.
Proof. intros s b s' HP [= _ <-]. done. Qed.
Lemma stable_gets {A} (f : S → A) : stable P (gets f).
Proof. intros s b s' HP [= _ <-]. done. Qed.
Lemma stable_get_bind {A} (k : S → M S A) : (∀ s, P s → stable P (k s)) → stable P (get ≫= k).
Proof. intros Hk s a s' HP H. by eapply (Hk s HP). Qed.
Lemma stable_put s : P s → stable P (put s).
Proof. intros HP s1 b s' _ [= _ <-]. done. Qed.
Lemma stable_undef {A} : stable P (undef : M S A).
Proof. done. Qed.
Lemma stable_lift {A} (o : option A) : stable P (lift o).
Proof. intros s b s' HP H. destruct o; [|done]. by injection H as _ <-. Qed.
Lemma stable_assert b : stable P (TN_ASSERT b).
Proof. destruct b; [apply stable_ret|apply stable_undef]. Qed.
Lemma stable_modify f : (∀ s, P s → P (f s)) → stable P (modify f).
Proof. intros Hf s b s' HP [= _ <-]. by apply Hf. Qed.

(** A call on a member: the property speaks of the member, or of the others only. *)
Lemma stable_zoom {T A} (Q : T → Prop) (rd : S → T) wr (f : M T A) :
  (∀ s, P s → Q (rd s)) → (∀ s t, P s → Q t → P (wr t s)) → stable Q f → stable P (zoom rd wr f).
Proof.
  intros Hr Hw Hf s a s' HP H. unfold zoom in H. destruct (f (rd s)) as [[b t]|] eqn:E; [|done].
  injection H as _ <-. apply Hw; [done|]. by eapply Hf, E; apply Hr.
Qed.
Lemma stable_true {A} (f : M S A) : stable (λ _, True) f.
Proof. done. Qed.
End Stable.

Create HintDb stable.
#[export] Hint Resolve stable_ret stable_get stable_gets stable_undef stable_lift stable_assert : stable.

(** Through the binds, branches and matches of a definition; what is left are the
    assignments that the hints do not know. *)
Ltac stable_auto :=
  repeat match goal with
    | |- stable _ (mbind _ get) => apply stable_get_bind; intros ? ?
    | |- stable _ (mbind _ _) => apply stable_bind; [|intros ?]
    | |- stable _ (match ?x with _ => _ end) => destruct x
    | _ => progress (auto with stable)
    end.
