(* ===== verification/QueueSpsc.v ===== *)
(** The single-producer/single-consumer ring queue: src/queue_spsc.c,
    include/tn/queue_spsc.h, and the atomics of src/atomic.c it is built on.

    The queue is polymorphic in the objects its [void *] slots point to.  Head and
    tail are free-running 64-bit counters, so every subtraction and increment of
    the code is taken modulo 2^64.  The file proves that each operation, run on
    its own, refines the operation of a bounded FIFO list ([contents]); the
    interleaved executions are the subject of the next file. *)
From stdpp Require Import base numbers list option.
From Stdlib Require Import ZArith Lia.
From S2P Require Import Prelude.

Local Open Scope Z_scope.
Local Open Scope c_scope.

(** ** Atomics (src/atomic.c) *)

(** The cell holds a [void *]-sized value. *)
Record tn_atomic_t := { value : Z }.

(** The memory-order argument selects a barrier and not a value; the barrier
    plays no role in a sequentially consistent execution. *)
Definition TN_ATOMIC_RELAXED : Z := 0.
Definition TN_ATOMIC_ACQUIRE : Z := 2.
Definition TN_ATOMIC_RELEASE : Z := 3.
Definition TN_ATOMIC_ACQ_REL : Z := 4.

Definition tn_atomic_load_explicit (a : tn_atomic_t) (mem_order : Z) : Z := value a.
Definition tn_atomic_load (a : tn_atomic_t) : Z :=
  tn_atomic_load_explicit a TN_ATOMIC_ACQUIRE.
Definition tn_atomic_store_explicit (a : tn_atomic_t) (val mem_order : Z) : tn_atomic_t :=
  {| value := u64 val |}.
Definition tn_atomic_store (a : tn_atomic_t) (val : Z) : tn_atomic_t :=
  tn_atomic_store_explicit a val TN_ATOMIC_RELEASE.
Definition tn_atomic_load_ptr_explicit (a : tn_atomic_t) (mem_order : Z) : Z := value a.
Definition tn_atomic_load_ptr (a : tn_atomic_t) : Z :=
  tn_atomic_load_ptr_explicit a TN_ATOMIC_ACQUIRE.
Definition tn_atomic_store_ptr_explicit (a : tn_atomic_t) (val mem_order : Z) : tn_atomic_t :=
  {| value := u64 val |}.
Definition tn_atomic_store_ptr (a : tn_atomic_t) (val : Z) : tn_atomic_t :=
  tn_atomic_store_ptr_explicit a val TN_ATOMIC_RELEASE.

(** Both add with acquire-release order; the second ignores its argument. *)
Definition tn_atomic_fetch_add (a : tn_atomic_t) (val : Z) : Z * tn_atomic_t :=
  (value a, {| value := u64 (value a + val) |}).
Definition tn_atomic_store_fetch_add (a : tn_atomic_t) (val mem_order : Z) : Z * tn_atomic_t :=
  tn_atomic_fetch_add a val.

(** ** The queue *)

Record tn_queue_spsc_t (A : Type) := {
  capacity : Z;
  mask : Z;
  buffer : list (ptr A);
  head : tn_atomic_t;
  tail : tn_atomic_t;
  tail_cache : Z;
}.
Arguments capacity {A} _.
Arguments mask {A} _.
Arguments buffer {A} _.
Arguments head {A} _.
Arguments tail {A} _.
Arguments tail_cache {A} _.

Section Ops.
Context {A : Type}.
Abbreviation queue := (tn_queue_spsc_t A).
Implicit Types q : queue.

Definition set_buffer (b : list (ptr A)) q : queue :=
  {| capacity := capacity q; mask := mask q; buffer := b; head := head q;
     tail := tail q; tail_cache := tail_cache q |}.
Definition set_head (h : tn_atomic_t) q : queue :=
  {| capacity := capacity q; mask := mask q; buffer := buffer q; head := h;
     tail := tail q; tail_cache := tail_cache q |}.
Definition set_tail (t : tn_atomic_t) q : queue :=
  {| capacity := capacity q; mask := mask q; buffer := buffer q; head := head q;
     tail := t; tail_cache := tail_cache q |}.
Definition set_tail_cache (t : Z) q : queue :=
  {| capacity := capacity q; mask := mask q; buffer := buffer q; head := head q;
     tail := tail q; tail_cache := t |}.

(** [q->buffer[i & q->mask]]: a read or write outside the allocation is undefined. *)
Definition slot q (i : Z) : nat := Z.to_nat (Z.land i (mask q)).
Definition load_slot (i : Z) : M queue (ptr A) :=
  q ← get; lift (buffer q !! slot q i).
Definition store_slot (i : Z) (p : ptr A) : M queue unit :=
  q ← get;
  if decide (slot q i < length (buffer q))%nat
  then put (set_buffer (<[slot q i := p]> (buffer q)) q) else undef.

(** The capacity rounding at the top of [tn_queue_spsc_setup]. *)
Definition round_capacity (cap : Z) : Z :=
  if Z.land cap (u64 (cap - 1)) =? 0 then cap
  else
    let c := u64 (cap - 1) in
    let c := Z.lor c (Z.shiftr c 1) in
    let c := Z.lor c (Z.shiftr c 2) in
    let c := Z.lor c (Z.shiftr c 4) in
    let c := Z.lor c (Z.shiftr c 8) in
    let c := Z.lor c (Z.shiftr c 16) in
    let c := Z.lor c (Z.shiftr c 32) in
    u64 (c + 1).

(** [acquire sz] is [TN_MEM_ACQUIRE] of [sz] bytes: [None] when the allocation
    fails, otherwise the (arbitrary) initial contents of the [sz / 8] slots. *)
Definition tn_queue_spsc_setup (acquire : Z → option (list (ptr A))) (cap : Z) : M queue Z :=
  TN_ASSERT (0 <? cap);;
  let cap := round_capacity cap in
  TN_ASSERT (Z.land cap (u64 (cap - 1)) =? 0);;
  modify (set_buffer []);;
  match acquire (u64 (8 * u64 (1 + cap))) with
  | None => mret TN_ERROR
  | Some b =>
      q ← get;
      put {| capacity := cap; mask := u64 (cap - 1); buffer := b;
             head := tn_atomic_store (head q) 0; tail := tn_atomic_store (tail q) 0;
             tail_cache := 0 |};;
      mret TN_SUCCESS
  end.

Definition tn_queue_spsc_cleanup : M queue unit := modify (set_buffer []).

Definition tn_queue_spsc_count : M queue Z :=
  q ← get;
  let head := tn_atomic_load_explicit (head q) TN_ATOMIC_RELAXED in
  let tail := tn_atomic_load (tail q) in
  mret (u64 (head - tail)).

Definition tn_queue_spsc_capacity : M queue Z := gets capacity.

Definition tn_queue_spsc_empty : M queue Z :=
  n ← tn_queue_spsc_count; mret (c_bool (n =? 0)).

Definition tn_queue_spsc_full : M queue Z :=
  n ← tn_queue_spsc_count; q ← get; mret (c_bool (n =? capacity q)).

Definition tn_queue_spsc_push (p : ptr A) : M queue Z :=
  q ← get;
  let head := tn_atomic_load_explicit (head q) TN_ATOMIC_RELAXED in
  let tail := tn_atomic_load (tail q) in
  let size := u64 (head - tail) in
  if size =? capacity q then mret TN_QUEUE_FULL
  else
    store_slot head p;;
    modify (λ q, set_head (tn_atomic_store (QueueSpsc.head q) (u64 (head + 1))) q);;
    mret TN_SUCCESS.

(** [peek] and [pop_back] return the code and the out parameter. *)
Definition tn_queue_spsc_peek : M queue (Z * ptr A) :=
  q ← get;
  let tail := tn_atomic_load_explicit (tail q) TN_ATOMIC_RELAXED in
  let head := tn_atomic_load (head q) in
  if head =? tail then mret (TN_QUEUE_EMPTY, NULL)
  else
    out ← load_slot tail;
    modify (set_tail_cache tail);;
    mret (TN_SUCCESS, out).

Definition tn_queue_spsc_pop : M queue Z :=
  q ← get;
  let tail := tn_atomic_load_explicit (tail q) TN_ATOMIC_RELAXED in
  let head := tn_atomic_load (head q) in
  if head =? tail then mret TN_QUEUE_EMPTY
  else
    modify (λ q, set_tail (tn_atomic_store (QueueSpsc.tail q) (u64 (tail + 1))) q);;
    mret TN_SUCCESS.

Definition tn_queue_spsc_pop_cached : M queue unit :=
  modify (λ q, set_tail (tn_atomic_store (tail q) (u64 (tail_cache q + 1))) q).

Definition tn_queue_spsc_pop_back : M queue (Z * ptr A) :=
  q ← get;
  let tail := tn_atomic_load_explicit (tail q) TN_ATOMIC_RELAXED in
  let head := tn_atomic_load (head q) in
  if head =? tail then mret (TN_QUEUE_EMPTY, NULL)
  else
    out ← load_slot tail;
    modify (λ q, set_tail (tn_atomic_store (QueueSpsc.tail q) (u64 (tail + 1))) q);;
    mret (TN_SUCCESS, out).

(** The copy loop of [pop_all]: slots [tail .. tail + n - 1] into the out array. *)
Fixpoint copy_slots (n : nat) (tail off : Z) : M queue (list (ptr A)) :=
  match n with
  | O => mret []
  | S n =>
      x ← load_slot (u64 (tail + off));
      xs ← copy_slots n tail (off + 1);
      mret (x :: xs)
  end.

(** [out_count] is in-out: the caller's bound on the way in, the number of
    copied elements on the way out. *)
Definition tn_queue_spsc_pop_all (out_count : Z) : M queue (Z * list (ptr A) * Z) :=
  TN_ASSERT (0 <? out_count);;
  q ← get;
  let tail := tn_atomic_load_explicit (tail q) TN_ATOMIC_RELAXED in
  let head := tn_atomic_load (head q) in
  let size := u64 (head - tail) in
  if size =? 0 then mret (TN_QUEUE_EMPTY, [], out_count)
  else
    let out_count := if size <? out_count then size else out_count in
    out ← copy_slots (Z.to_nat out_count) tail 0;
    modify (λ q, set_tail (tn_atomic_store_explicit (QueueSpsc.tail q)
                             (u64 (tail + out_count)) TN_ATOMIC_RELAXED) q);;
    mret (TN_SUCCESS, out, out_count).

(** ** Specification *)

(** Number of queued elements. *)
Definition size_of q : Z := u64 (value (head q) - value (tail q)).

(** The abstract value of a queue: its elements, oldest first. *)
Definition contents q : list (ptr A) :=
  (λ i, default NULL (buffer q !! slot q (value (tail q) + i))) <$> seqZ 0 (size_of q).

(** Well-formedness: a power-of-two capacity, the matching mask, enough slots,
    64-bit counters and no more elements than slots. *)
Record wf q : Prop := {
  wf_pow2 : ∃ k, 0 ≤ k ≤ 63 ∧ capacity q = 2 ^ k;
  wf_mask : mask q = capacity q - 1;
  wf_buffer : capacity q ≤ Z.of_nat (length (buffer q));
  wf_head : 0 ≤ value (head q) < W64;
  wf_tail : 0 ≤ value (tail q) < W64;
  wf_size : size_of q ≤ capacity q;
}.

(** What the code relies on from the allocator: a block has the requested size. *)
Definition acquire_ok (acquire : Z → option (list (ptr A))) : Prop :=
  ∀ sz b, 0 ≤ sz → acquire sz = Some b → Z.of_nat (length b) = sz / 8.

(** ** Sequences of calls against a bounded FIFO *)

Inductive op :=
  | OpPush (p : ptr A)
  | OpPeek
  | OpPop
  | OpPopBack
  | OpPeekPopCached
  | OpPopAll (n : Z)
  | OpCount
  | OpEmpty
  | OpFull.

(** What a call reports: its return code, out pointers and out count. *)
Definition reply : Type := Z * list (ptr A) * Z.

(** The client pattern of [tcp_service_send]: a [peek] whose element is dropped
    by [pop_cached] once it has been handed over. *)
Definition peek_pop_cached : M queue (Z * ptr A) :=
  r ← tn_queue_spsc_peek;
  (if r.1 =? 0 then tn_queue_spsc_pop_cached else mret tt);;
  mret r.

Definition exec (o : op) : M queue reply :=
  match o with
  | OpPush p => r ← tn_queue_spsc_push p; mret (r, [], 0)
  | OpPeek => r ← tn_queue_spsc_peek; mret (r.1, [r.2], 0)
  | OpPop => r ← tn_queue_spsc_pop; mret (r, [], 0)
  | OpPopBack => r ← tn_queue_spsc_pop_back; mret (r.1, [r.2], 0)
  | OpPeekPopCached => r ← peek_pop_cached; mret (r.1, [r.2], 0)
  | OpPopAll n => tn_queue_spsc_pop_all n
  | OpCount => n ← tn_queue_spsc_count; mret (0, [], n)
  | OpEmpty => n ← tn_queue_spsc_empty; mret (n, [], 0)
  | OpFull => n ← tn_queue_spsc_full; mret (n, [], 0)
  end.

(** The same call on a list bounded by [cap]. *)
Definition spec_exec (cap : Z) (o : op) (l : list (ptr A)) : reply * list (ptr A) :=
  match o, l with
  | OpPush p, _ =>
      if Z.of_nat (length l) =? cap then ((TN_QUEUE_FULL, [], 0), l)
      else ((TN_SUCCESS, [], 0), l ++ [p])
  | OpPeek, [] | OpPopBack, [] | OpPeekPopCached, [] => ((TN_QUEUE_EMPTY, [NULL], 0), [])
  | OpPeek, x :: _ => ((TN_SUCCESS, [x], 0), l)
  | OpPopBack, x :: l | OpPeekPopCached, x :: l => ((TN_SUCCESS, [x], 0), l)
  | OpPop, [] => ((TN_QUEUE_EMPTY, [], 0), [])
  | OpPop, _ :: l => ((TN_SUCCESS, [], 0), l)
  | OpPopAll n, [] => ((TN_QUEUE_EMPTY, [], n), [])
  | OpPopAll n, _ :: _ =>
      let k := Z.to_nat n in
      ((TN_SUCCESS, take k l, Z.min n (Z.of_nat (length l))), drop k l)
  | OpCount, _ => ((0, [], Z.of_nat (length l)), l)
  | OpEmpty, _ => ((c_bool (Z.of_nat (length l) =? 0), [], 0), l)
  | OpFull, _ => ((c_bool (Z.of_nat (length l) =? cap), [], 0), l)
  end.

Definition op_ok (o : op) : Prop :=
  match o with OpPopAll n => 0 < n | _ => True end.

Fixpoint exec_all (os : list op) : M queue (list reply) :=
  match os with
  | [] => mret []
  | o :: os => r ← exec o; rs ← exec_all os; mret (r :: rs)
  end.

Fixpoint spec_all (cap : Z) (os : list op) (l : list (ptr A)) : list reply * list (ptr A) :=
  match os with
  | [] => ([], l)
  | o :: os =>
      let '(r, l) := spec_exec cap o l in
      let '(rs, l) := spec_all cap os l in (r :: rs, l)
  end.

End Ops.

(** ** Capacity rounding *)

Section Rounding.

(** After covering [d] bits below the leading bit [L], those bits are all set
    and nothing above [L] is. *)
Definition smeared (L d c : Z) : Prop :=
  0 ≤ c ∧ (∀ i, 0 ≤ i → L - d < i ≤ L → Z.testbit c i = true)
        ∧ (∀ i, L < i → Z.testbit c i = false).

Lemma smeared_start c : 0 < c → smeared (Z.log2 c) 1 c.
Proof.
  intros Hc. split; [lia|split].
  - intros i ? ?. replace i with (Z.log2 c) by lia. by apply Z.bit_log2.
  - intros i ?. by apply Z.bits_above_log2; [lia|].
Qed.

Lemma smeared_step L d c :
  0 ≤ d → smeared L d c → smeared L (d + d) (Z.lor c (Z.shiftr c d)).
Proof.
  intros Hd (Hc & Hset & Hclr). split; [|split].
  - apply Z.lor_nonneg. split; [lia|]. by apply Z.shiftr_nonneg.
  - intros i Hi ?. rewrite Z.lor_spec, Z.shiftr_spec by lia.
    destruct (decide (L - d < i)).
    + by rewrite Hset by lia.
    + rewrite (Hset (i + d)) by lia. apply orb_true_r.
  - intros i Hi. rewrite Z.lor_spec, Hclr by lia. simpl.
    destruct (decide (0 ≤ i)).
    + rewrite Z.shiftr_spec by lia. apply Hclr. lia.
    + by rewrite Z.testbit_neg_r by lia.
Qed.

Lemma smeared_ones L c : 0 ≤ L < 64 → smeared L 64 c → c = 2 ^ (L + 1) - 1.
Proof.
  intros HL (Hc & Hset & Hclr).
  rewrite Z.sub_1_r, <- Z.ones_equiv.
  apply Z.bits_inj'. intros i Hi. destruct (decide (i ≤ L)).
  - rewrite Hset, Z.ones_spec_low by lia. done.
  - rewrite Hclr, Z.ones_spec_high by lia. done.
Qed.

Lemma log2_u64 c : 0 < c < W64 → 0 ≤ Z.log2 c < 64.
Proof.
  intros. split; [apply Z.log2_nonneg|].
  apply Z.log2_lt_pow2; [lia|]. change (2 ^ 64) with W64. lia.
Qed.

(** The six shift-and-or steps fill every bit below the leading one. *)
Lemma smear_all c0 c1 c2 c3 c4 c5 :
  0 < c0 < W64 →
  c1 = Z.lor c0 (Z.shiftr c0 1) → c2 = Z.lor c1 (Z.shiftr c1 2) →
  c3 = Z.lor c2 (Z.shiftr c2 4) → c4 = Z.lor c3 (Z.shiftr c3 8) →
  c5 = Z.lor c4 (Z.shiftr c4 16) →
  Z.lor c5 (Z.shiftr c5 32) = 2 ^ (Z.log2 c0 + 1) - 1.
Proof.
  intros Hc -> -> -> -> ->.
  apply smeared_ones; [by apply log2_u64|].
  apply (smeared_step _ 32), (smeared_step _ 16), (smeared_step _ 8),
    (smeared_step _ 4), (smeared_step _ 2), (smeared_step _ 1), smeared_start; lia.
Qed.

(** [c & (c - 1)] tests for a power of two. *)
Lemma pow2_test c :
  0 < c → Z.land c (c - 1) = 0 ↔ c = 2 ^ Z.log2 c.
Proof.
  intros Hc. pose proof (Z.log2_spec c Hc) as [Hlo Hhi].
  pose proof (Z.log2_nonneg c). split.
  - intros Hl. destruct (decide (c = 2 ^ Z.log2 c)) as [|Hne]; [done|exfalso].
    assert (Z.log2 (c - 1) = Z.log2 c) as Hlog.
    { apply Z.log2_unique; [lia|]. lia. }
    assert (Z.testbit (Z.land c (c - 1)) (Z.log2 c) = true) as Hb.
    { rewrite Z.land_spec, Z.bit_log2 by lia.
      rewrite <- Hlog. by rewrite Z.bit_log2 by (pose proof (Z.pow_pos_nonneg 2 (Z.log2 c)); lia). }
    by rewrite Hl, Z.bits_0 in Hb.
  - remember (Z.log2 c) as L. clear HeqL Hlo Hhi. intros ->.
    rewrite land_mask by lia. apply Z.mod_same. lia.
Qed.

Lemma round_capacity_unfold cap :
  0 < cap < W64 → cap ≠ 2 ^ Z.log2 cap →
  round_capacity cap = u64 (2 ^ (Z.log2 (cap - 1) + 1)).
Proof.
  intros Hc Hne. unfold round_capacity. rewrite (u64_small (cap - 1)) by lia.
  destruct (Z.eqb_spec (Z.land cap (cap - 1)) 0) as [H0|H0].
  { by apply pow2_test in H0; [|lia]. }
  assert (1 < cap).
  { destruct (decide (cap = 1)) as [->|]; [by destruct Hne|lia]. }
  cbv zeta.
  rewrite (smear_all (cap - 1) _ _ _ _ _ ltac:(lia) eq_refl eq_refl eq_refl eq_refl eq_refl).
  f_equal. lia.
Qed.

End Rounding.

Lemma round_capacity_value cap :
  0 < cap < W64 →
  round_capacity cap = if cap <=? 2 ^ 63 then 2 ^ Z.log2_up cap else 0.
Proof.
  intros Hc. destruct (decide (cap = 2 ^ Z.log2 cap)) as [Hp|Hp].
  - pose proof (log2_u64 cap Hc). remember (Z.log2 cap) as L. clear HeqL. subst cap.
    rewrite (proj2 (Z.leb_le _ _)) by (apply Z.pow_le_mono_r; lia).
    rewrite Z.log2_up_pow2 by lia. unfold round_capacity.
    pose proof (Z.pow_pos_nonneg 2 L ltac:(lia) ltac:(lia)).
    rewrite u64_small, land_mask, Z.mod_same by lia. done.
  - rewrite round_capacity_unfold by done.
    assert (1 < cap). { destruct (decide (cap = 1)) as [->|]; [by destruct Hp|lia]. }
    rewrite Z.log2_up_eqn by lia. rewrite <- Z.sub_1_r.
    rewrite <- Z.add_1_r. set (L := Z.log2 (cap - 1)).
    pose proof (log2_u64 (cap - 1) ltac:(lia)). fold L in H0.
    pose proof (Z.log2_spec (cap - 1) ltac:(lia)) as [Hlo Hhi]. fold L in Hlo, Hhi.
    destruct (Z.leb_spec cap (2 ^ 63)).
    + assert (L < 63). { apply Z.log2_lt_pow2; lia. }
      apply u64_small. split; [lia|].
      pose proof (Z.pow_le_mono_r 2 (L + 1) 63). lia.
    + assert (63 ≤ L). { apply Z.log2_le_pow2; lia. }
      replace (L + 1) with 64 by lia. done.
Qed.

(** [tn_queue_spsc_setup] rounds a requested capacity up to the least power of
    two that is not below it; a capacity above 2^63 has none in 64 bits and
    becomes 0. *)
Theorem round_capacity_least cap :
  0 < cap < W64 →
  (cap ≤ 2 ^ 63 → ∃ k, 0 ≤ k ≤ 63 ∧ round_capacity cap = 2 ^ k ∧ cap ≤ 2 ^ k ∧
                        ∀ j, 0 ≤ j → cap ≤ 2 ^ j → k ≤ j) ∧
  (2 ^ 63 < cap → round_capacity cap = 0).
Proof.
  intros Hc. rewrite round_capacity_value by done. split; intros Hle; bool_lia; [|done].
  exists (Z.log2_up cap). pose proof (Z.log2_up_nonneg cap).
  split; [split; [done|by apply Z.log2_up_le_pow2; lia]|].
  split; [done|split; [by apply Z.log2_up_le_pow2; lia|]].
  intros j Hj Hcj. by apply Z.log2_up_le_pow2; lia.
Qed.

Lemma round_capacity_least_witness :
  (40000 ≤ 2 ^ 63 → ∃ k, 0 ≤ k ≤ 63 ∧ round_capacity 40000 = 2 ^ k ∧ 40000 ≤ 2 ^ k ∧
                          ∀ j, 0 ≤ j → 40000 ≤ 2 ^ j → k ≤ j) ∧
  (2 ^ 63 < 40000 → round_capacity 40000 = 0) ∧ round_capacity 40000 = 65536.
Proof.
  destruct (round_capacity_least 40000 ltac:(lia)) as [H1 H2].
  split; [exact H1|split; [exact H2|reflexivity]].
Defined.

(** ** Functional behaviour of the operations *)

Section Facts.
Context {A : Type}.
Implicit Types q : tn_queue_spsc_t A.

Lemma wf_cap_pos q : wf q → 0 < capacity q ≤ 2 ^ 63.
Proof.
  intros [(k & Hk & ->) _ _ _ _ _].
  split; [apply Z.pow_pos_nonneg; lia|apply Z.pow_le_mono_r; lia].
Qed.

Lemma size_of_nonneg q : 0 ≤ size_of q < W64.
Proof. apply u64_range. Qed.

(** The slot of a counter value is its residue modulo the capacity, whether or
    not the counter has wrapped around. *)
Lemma slot_mod q i : wf q → slot q i = Z.to_nat (i mod capacity q).
Proof.
  intros [(k & Hk & Hc) Hm _ _ _ _]. unfold slot. rewrite Hm, Hc.
  by rewrite land_mask by lia.
Qed.

Lemma slot_u64 q i : wf q → slot q (u64 i) = slot q i.
Proof.
  intros Hwf. rewrite !slot_mod by done. destruct Hwf as [(k & Hk & ->) _ _ _ _ _].
  by rewrite u64_mod_pow2 by lia.
Qed.

Lemma slot_lt q i : wf q → (slot q i < length (buffer q))%nat.
Proof.
  intros Hwf. rewrite slot_mod by done. pose proof (wf_cap_pos q Hwf).
  pose proof (wf_buffer q Hwf). pose proof (Z.mod_pos_bound i (capacity q)). lia.
Qed.

Lemma slot_inj q i j :
  wf q → Z.abs (i - j) < capacity q → slot q i = slot q j → i = j.
Proof.
  intros Hwf Hd. rewrite !slot_mod by done. intros He.
  pose proof (wf_cap_pos q Hwf).
  pose proof (Z.mod_pos_bound i (capacity q)). pose proof (Z.mod_pos_bound j (capacity q)).
  apply (mod_inj_window i j (capacity q)); lia.
Qed.

(** The head is [size_of] past the tail, modulo the word size. *)
Lemma head_tail q : wf q → value (head q) = u64 (value (tail q) + size_of q).
Proof.
  intros Hwf. unfold size_of. rewrite Z.add_comm, u64_add_idemp_l.
  replace (value (head q) - value (tail q) + value (tail q)) with (value (head q)) by lia.
  symmetry. apply u64_small, Hwf.
Qed.

Lemma length_contents q : length (contents q) = Z.to_nat (size_of q).
Proof. unfold contents. by rewrite length_fmap, length_seqZ. Qed.

Lemma Zlength_contents q : Z.of_nat (length (contents q)) = size_of q.
Proof. rewrite length_contents. pose proof (size_of_nonneg q). lia. Qed.

Lemma load_slot_run q i :
  wf q → load_slot i q = Some (default NULL (buffer q !! slot q i), q).
Proof.
  intros Hwf. unfold load_slot. mrun.
  destruct (lookup_lt_is_Some_2 (buffer q) (slot q i)) as [x Hx].
  { by apply slot_lt. }
  by rewrite Hx.
Qed.

Lemma store_slot_run q i p :
  wf q → store_slot i p q = Some (tt, set_buffer (<[slot q i := p]> (buffer q)) q).
Proof.
  intros Hwf. unfold store_slot. mrun. rewrite decide_True by by apply slot_lt. done.
Qed.

(** An empty queue has equal counters. *)
Lemma size_of_zero q : wf q → size_of q = 0 ↔ value (head q) = value (tail q).
Proof.
  intros Hwf. split.
  - intros Hs. rewrite (head_tail q Hwf), Hs, Z.add_0_r. apply u64_small, Hwf.
  - intros He. unfold size_of. by rewrite He, Z.sub_diag.
Qed.

Lemma contents_lookup q (i : nat) :
  contents q !! i =
    if decide (Z.of_nat i < size_of q)
    then Some (default NULL (buffer q !! slot q (value (tail q) + Z.of_nat i))) else None.
Proof.
  unfold contents. rewrite list_lookup_fmap. case_decide.
  - by rewrite lookup_seqZ_lt by lia.
  - by rewrite lookup_seqZ_ge by lia.
Qed.

Lemma contents_nil q : size_of q = 0 → contents q = [].
Proof. intros H. unfold contents. by rewrite H. Qed.

(** Storing [tail + n] in the tail consumes the [n] oldest elements. *)
Lemma contents_advance q n t :
  wf q → 0 ≤ n ≤ size_of q → value t = u64 (value (tail q) + n) →
  wf (set_tail t q) ∧ contents (set_tail t q) = drop (Z.to_nat n) (contents q).
Proof.
  intros Hwf Hn Ht.
  assert (size_of (set_tail t q) = size_of q - n) as Hsz.
  { unfold size_of at 1; simpl. rewrite Ht, u64_sub_idemp_r, (head_tail q Hwf).
    rewrite u64_sub_idemp_l. rewrite u64_small; [lia|].
    pose proof (size_of_nonneg q). lia. }
  assert (wf (set_tail t q)) as Hwf'.
  { destruct Hwf; split; try done; simpl.
    - rewrite Ht. apply u64_range.
    - rewrite Hsz. lia. }
  split; [done|]. apply list_eq. intros i.
  rewrite lookup_drop, !contents_lookup, Hsz. simpl. rewrite Ht.
  repeat case_decide; try lia; [|done]. do 2 f_equal.
  change (buffer (set_tail t q)) with (buffer q). f_equal.
  change (slot (set_tail t q)) with (slot q).
  rewrite <- (slot_u64 q (u64 _ + _)), u64_add_idemp_l, slot_u64 by done.
  f_equal. lia.
Qed.

(** Writing the head's slot and advancing the head appends an element. *)
Lemma contents_append q p h :
  wf q → size_of q < capacity q → value h = u64 (value (head q) + 1) →
  let q' := set_head h (set_buffer (<[slot q (value (head q)) := p]> (buffer q)) q) in
  wf q' ∧ contents q' = contents q ++ [p].
Proof.
  intros Hwf Hlt Hh q'.
  pose proof (wf_cap_pos q Hwf). pose proof (size_of_nonneg q).
  assert (2 ^ 63 < W64) by lia.
  assert (size_of q' = size_of q + 1) as Hsz.
  { unfold q'. unfold size_of at 1; simpl. rewrite Hh, u64_sub_idemp_l.
    replace (value (head q) + 1 - value (tail q))
      with (value (head q) - value (tail q) + 1) by lia.
    rewrite <- u64_add_idemp_l. fold (size_of q). apply u64_small. lia. }
  assert (wf q') as Hwf'.
  { destruct Hwf; split; try done; unfold q'; simpl.
    - by rewrite length_insert.
    - rewrite Hh. apply u64_range.
    - fold q'. lia. }
  split; [done|]. apply list_eq. intros i.
  rewrite contents_lookup, Hsz. unfold q'. simpl.
  change (slot (set_head h (set_buffer _ q))) with (slot q).
  destruct (decide (Z.of_nat i < size_of q)) as [Hi|Hi].
  - rewrite decide_True by lia. rewrite lookup_app_l
      by (rewrite length_contents; lia).
    rewrite contents_lookup, decide_True by lia. do 2 f_equal.
    apply list_lookup_insert_ne. rewrite (head_tail q Hwf), slot_u64 by done.
    intros He. apply slot_inj in He; [lia|done|lia].
  - rewrite lookup_app_r, length_contents by (rewrite length_contents; lia).
    case_decide as Hi'.
    + replace (Z.of_nat i) with (size_of q) by lia.
      rewrite <- (slot_u64 q (_ + _)), <- (head_tail q Hwf) by done.
      rewrite list_lookup_insert_eq by by apply slot_lt.
      replace (i - _)%nat with 0%nat by lia. done.
    + replace (i - _)%nat with (S (i - Z.to_nat (size_of q) - 1))%nat by lia. done.
Qed.

(** *** One lemma per call *)

Lemma atomic_store_value a x : value (tn_atomic_store a (u64 x)) = u64 x.
Proof. apply u64_u64. Qed.

Lemma push_run q p :
  wf q →
  ∃ q', tn_queue_spsc_push p q =
          Some (if size_of q =? capacity q then TN_QUEUE_FULL else TN_SUCCESS, q') ∧
    wf q' ∧ capacity q' = capacity q ∧
    contents q' = if size_of q =? capacity q then contents q else contents q ++ [p].
Proof.
  intros Hwf. unfold tn_queue_spsc_push. simpl.
  unfold tn_atomic_load, tn_atomic_load_explicit. fold (size_of q).
  pose proof (wf_size q Hwf). case_bool.
  - exists q. mrun. unfold size_of in *. by bool_lia.
  - eexists. mrun. unfold size_of in *. bool_lia.
    rewrite store_slot_run by done. split; [done|].
    destruct (contents_append q p _ Hwf ltac:(unfold size_of; lia)
      (atomic_store_value (head q) (value (head q) + 1))). done.
Qed.

Lemma peek_run q :
  wf q →
  ∃ q', tn_queue_spsc_peek q =
          Some (match contents q with
                | [] => (TN_QUEUE_EMPTY, NULL) | x :: _ => (TN_SUCCESS, x) end, q') ∧
    wf q' ∧ capacity q' = capacity q ∧ contents q' = contents q ∧
    tail q' = tail q ∧ (contents q ≠ [] → tail_cache q' = value (tail q')).
Proof.
  intros Hwf. unfold tn_queue_spsc_peek. mrun.
  unfold tn_atomic_load, tn_atomic_load_explicit.
  destruct (Z.eqb_spec (value (head q)) (value (tail q))) as [He|He].
  - exists q. rewrite contents_nil by by apply size_of_zero. done.
  - pose proof (size_of_nonneg q). rewrite (load_slot_run q) by done.
    assert (0 < size_of q). { pose proof (size_of_zero q Hwf). lia. }
    pose proof (contents_lookup q 0) as Hl. rewrite decide_True in Hl by lia.
    rewrite Z.add_0_r in Hl. destruct (contents q) eqn:Hq; [done|].
    simpl in Hl. simplify_eq.
    exists (set_tail_cache (value (tail q)) q). split_and!; try done.
    destruct Hwf; by split.
Qed.

Lemma pop_back_run q :
  wf q →
  ∃ q', tn_queue_spsc_pop_back q =
          Some (match contents q with
                | [] => (TN_QUEUE_EMPTY, NULL) | x :: _ => (TN_SUCCESS, x) end, q') ∧
    wf q' ∧ capacity q' = capacity q ∧ contents q' = drop 1 (contents q).
Proof.
  intros Hwf. unfold tn_queue_spsc_pop_back. mrun.
  unfold tn_atomic_load, tn_atomic_load_explicit.
  destruct (Z.eqb_spec (value (head q)) (value (tail q))) as [He|He].
  - exists q. rewrite contents_nil by by apply size_of_zero. done.
  - pose proof (size_of_nonneg q). rewrite (load_slot_run q) by done.
    assert (0 < size_of q). { pose proof (size_of_zero q Hwf). lia. }
    pose proof (contents_lookup q 0) as Hl. rewrite decide_True in Hl by lia.
    rewrite Z.add_0_r in Hl.
    destruct (contents_advance q 1 _ Hwf ltac:(lia)
      (atomic_store_value (tail q) (value (tail q) + 1))) as [? Hc].
    eexists. split; [|split_and!; [done|done|exact Hc]].
    destruct (contents q) eqn:Hq; [done|]. simpl in Hl. simplify_eq. done.
Qed.

Lemma pop_run q :
  wf q →
  ∃ q', tn_queue_spsc_pop q =
          Some (match contents q with [] => TN_QUEUE_EMPTY | _ => TN_SUCCESS end, q') ∧
    wf q' ∧ capacity q' = capacity q ∧ contents q' = drop 1 (contents q).
Proof.
  intros Hwf. unfold tn_queue_spsc_pop. mrun.
  unfold tn_atomic_load, tn_atomic_load_explicit.
  destruct (Z.eqb_spec (value (head q)) (value (tail q))) as [He|He].
  - exists q. rewrite contents_nil by by apply size_of_zero. done.
  - pose proof (size_of_nonneg q). pose proof (length_contents q).
    assert (0 < size_of q). { pose proof (size_of_zero q Hwf). lia. }
    destruct (contents_advance q 1 _ Hwf ltac:(lia)
      (atomic_store_value (tail q) (value (tail q) + 1))) as [? Hc].
    eexists. split; [|split_and!; [done|done|exact Hc]].
    destruct (contents q); simpl in *; [lia|done].
Qed.

(** [pop_cached] consumes the peeked element, provided nothing was consumed
    since the peek. *)
Lemma pop_cached_run q :
  wf q → contents q ≠ [] → tail_cache q = value (tail q) →
  ∃ q', tn_queue_spsc_pop_cached q = Some (tt, q') ∧
    wf q' ∧ capacity q' = capacity q ∧ contents q' = drop 1 (contents q).
Proof.
  intros Hwf Hne Hc. unfold tn_queue_spsc_pop_cached. mrun. rewrite Hc.
  assert (0 < size_of q).
  { pose proof (size_of_nonneg q). pose proof (length_contents q).
    destruct (contents q); simpl in *; [done|lia]. }
  destruct (contents_advance q 1 _ Hwf ltac:(lia)
      (atomic_store_value (tail q) (value (tail q) + 1))) as [? Hd].
  eexists. split; [done|]. done.
Qed.

Lemma peek_pop_cached_run q :
  wf q →
  ∃ q', peek_pop_cached q =
          Some (match contents q with
                | [] => (TN_QUEUE_EMPTY, NULL) | x :: _ => (TN_SUCCESS, x) end, q') ∧
    wf q' ∧ capacity q' = capacity q ∧ contents q' = drop 1 (contents q).
Proof.
  intros Hwf. destruct (peek_run q Hwf) as (q1 & Hr & Hwf1 & Hcap & Hcon & Htl & Hcache).
  unfold peek_pop_cached. rewrite (bind_Some _ _ _ _ _ Hr).
  destruct (contents q) as [|x l] eqn:Hq.
  - exists q1. mrun. by rewrite Hcon.
  - destruct (pop_cached_run q1) as (q2 & Hr2 & ? & ? & Hc2).
    + done.
    + by rewrite Hcon.
    + by apply Hcache.
    + exists q2. cbn [fst Z.eqb TN_SUCCESS]. rewrite (bind_Some _ _ _ _ _ Hr2). split_and!; [done..|congruence|]. by rewrite Hc2, Hcon.
Qed.

Lemma copy_slots_run q n t off :
  wf q →
  copy_slots n t off q =
    Some ((λ i, default NULL (buffer q !! slot q (t + i))) <$> seqZ off (Z.of_nat n), q).
Proof.
  intros Hwf. revert off. induction n as [|n IH]; intros off; [done|].
  cbn [copy_slots]. mrun. rewrite load_slot_run by done. rewrite IH.
  rewrite (seqZ_cons off) by lia. simpl. rewrite slot_u64 by done.
  do 4 f_equal. f_equal. lia.
Qed.

Lemma pop_all_run q n :
  wf q → 0 < n →
  ∃ q', tn_queue_spsc_pop_all n q =
          Some (match contents q with
                | [] => (TN_QUEUE_EMPTY, [], n)
                | _ => (TN_SUCCESS, take (Z.to_nat n) (contents q), Z.min n (size_of q)) end, q') ∧
    wf q' ∧ capacity q' = capacity q ∧ contents q' = drop (Z.to_nat n) (contents q).
Proof.
  intros Hwf Hn. unfold tn_queue_spsc_pop_all. bool_lia. mrun.
  unfold tn_atomic_load, tn_atomic_load_explicit. fold (size_of q).
  pose proof (size_of_nonneg q). pose proof (length_contents q) as Hlen.
  destruct (Z.eqb_spec (size_of q) 0) as [He|He].
  - exists q. rewrite contents_nil by done. by rewrite drop_nil.
  - set (m := if size_of q <? n then size_of q else n).
    assert (m = Z.min n (size_of q)) as Hm by (unfold m; case_bool; lia).
    rewrite copy_slots_run by done.
    destruct (contents_advance q m _ Hwf ltac:(lia)
      (atomic_store_value (tail q) (value (tail q) + m))) as [? Hd].
    eexists. split; [|split_and!; [done|done|]].
    + destruct (contents q) eqn:Hq; simpl in Hlen; [lia|]. rewrite <- Hq.
      do 2 f_equal. f_equal; [f_equal|done].
      apply list_eq. intros i. rewrite list_lookup_fmap, lookup_take, contents_lookup.
      destruct (decide (Z.of_nat i < m)).
      * rewrite lookup_seqZ_lt, !decide_True by lia. done.
      * rewrite lookup_seqZ_ge by lia. repeat case_decide; (lia || done).
    + change (tn_atomic_store_explicit (tail q) (u64 (value (tail q) + m)) TN_ATOMIC_RELAXED)
        with (tn_atomic_store (tail q) (u64 (value (tail q) + m))).
      rewrite Hd, Hm. destruct (decide (n ≤ size_of q)).
      * by rewrite Z.min_l by lia.
      * rewrite Z.min_r by lia. rewrite !drop_ge by lia. done.
Qed.

End Facts.

(** ** Setup and refinement *)

Section Refinement.
Context {A : Type}.
Implicit Types q : tn_queue_spsc_t A.

(** A capacity of up to 2^60 slots is allocated in full (beyond that the byte
    count [8 * (1 + capacity)] wraps around). *)
Lemma queue_setup_run acquire cap b q :
  acquire_ok acquire → 0 < cap ≤ 2 ^ 60 →
  acquire (8 * (1 + 2 ^ Z.log2_up cap)) = Some b →
  ∃ q', tn_queue_spsc_setup acquire cap q = Some (TN_SUCCESS, q') ∧
    wf q' ∧ capacity q' = 2 ^ Z.log2_up cap ∧ contents q' = [].
Proof.
  intros Hok Hcap Hacq.
  assert (2 ^ Z.log2_up cap ≤ 2 ^ 60) as Hle.
  { apply Z.pow_le_mono_r; [lia|]. by apply Z.log2_up_le_pow2; lia. }
  pose proof (Z.log2_up_nonneg cap).
  pose proof (Z.pow_pos_nonneg 2 (Z.log2_up cap) ltac:(lia) ltac:(lia)).
  assert (round_capacity cap = 2 ^ Z.log2_up cap) as Hr.
  { rewrite round_capacity_value by lia. bool_lia. done. }
  unfold tn_queue_spsc_setup. bool_lia. rewrite Hr. mrun.
  rewrite !(u64_small (2 ^ _ - 1)), land_mask, Z.mod_same by lia. simpl.
  rewrite (u64_small (1 + _)), u64_small, Hacq by lia.
  eexists. split; [done|]. split_and!; [|done|done].
  assert (Z.log2_up cap ≤ 60) by (apply Z.pow_le_mono_r_iff with 2; lia).
  apply Hok in Hacq; [|lia]. split; simpl.
  - exists (Z.log2_up cap). lia.
  - done.
  - rewrite Hacq, Z.mul_comm, Z.div_mul by lia. lia.
  - done.
  - done.
  - change (0 ≤ 2 ^ Z.log2_up cap). lia.
Qed.

Lemma count_run q : tn_queue_spsc_count q = Some (size_of q, q).
Proof. done. Qed.

(** Every call returns what the bounded list returns and leaves the queue
    representing the new list. *)
Lemma exec_refines o q :
  wf q → op_ok o →
  ∃ q', exec o q = Some ((spec_exec (capacity q) o (contents q)).1, q') ∧
    wf q' ∧ capacity q' = capacity q ∧
    contents q' = (spec_exec (capacity q) o (contents q)).2.
Proof.
  intros Hwf Hok. pose proof (Zlength_contents q) as Hlen.
  destruct o as [p| | | | |n| | |]; cbn [exec spec_exec].
  - destruct (push_run q p Hwf) as (q' & Hr & ? & ? & Hc). exists q'.
    rewrite (bind_Some _ _ _ _ _ Hr), Hc, Hlen. case_bool; done.
  - destruct (peek_run q Hwf) as (q' & Hr & ? & ? & Hc & _). exists q'.
    rewrite (bind_Some _ _ _ _ _ Hr), Hc. by destruct (contents q).
  - destruct (pop_run q Hwf) as (q' & Hr & ? & ? & Hc). exists q'.
    rewrite (bind_Some _ _ _ _ _ Hr), Hc. by destruct (contents q).
  - destruct (pop_back_run q Hwf) as (q' & Hr & ? & ? & Hc). exists q'.
    rewrite (bind_Some _ _ _ _ _ Hr), Hc. by destruct (contents q).
  - destruct (peek_pop_cached_run q Hwf) as (q' & Hr & ? & ? & Hc). exists q'.
    rewrite (bind_Some _ _ _ _ _ Hr), Hc. by destruct (contents q).
  - destruct (pop_all_run q n Hwf Hok) as (q' & Hr & ? & ? & Hc). exists q'.
    rewrite Hr, Hc, <- Hlen. destruct (contents q); [by rewrite drop_nil|done].
  - exists q. mrun. fold (size_of q). by rewrite Hlen.
  - exists q. mrun. fold (size_of q). by rewrite Hlen.
  - exists q. mrun. fold (size_of q). by rewrite Hlen.
Qed.

Lemma exec_all_refines os q :
  wf q → Forall op_ok os →
  ∃ q', exec_all os q = Some ((spec_all (capacity q) os (contents q)).1, q') ∧
    wf q' ∧ contents q' = (spec_all (capacity q) os (contents q)).2.
Proof.
  intros Hwf Hos. revert q Hwf. induction Hos as [|o os Ho _ IH]; intros q Hwf; [by exists q|].
  destruct (exec_refines o q Hwf Ho) as (q1 & Hr1 & Hwf1 & Hcap & Hc1).
  destruct (IH q1 Hwf1) as (q2 & Hr2 & Hwf2 & Hc2). exists q2.
  cbn [exec_all spec_all]. rewrite (bind_Some _ _ _ _ _ Hr1), (bind_Some _ _ _ _ _ Hr2).
  rewrite Hcap, Hc1 in Hc2 |- *.
  destruct (spec_exec _ o _) as [r l]; simpl in *. by destruct (spec_all _ os l).
Qed.

End Refinement.

Arguments op : clear implicits.


Definition sample_acquire (sz : Z) : option (list (ptr nat)) :=
  Some (replicate (Z.to_nat (sz / 8)) NULL).
Definition blank_queue : tn_queue_spsc_t nat :=
  {| capacity := 0; mask := 0; buffer := []; head := {| value := 7 |};
     tail := {| value := 7 |}; tail_cache := 7 |}.

Lemma sample_acquire_ok : acquire_ok sample_acquire.
Proof.
  intros sz b Hsz Hb. unfold sample_acquire in Hb. injection Hb as <-.
  rewrite length_replicate, Z2Nat.id; [done|by apply Z.div_pos].
Qed.

