(* ===== verification/QueueConc.v ===== *)
(** Interleaved executions of the ring queue (src/queue_spsc.c).

    The operations are cut at their shared-memory accesses: each step of a
    thread performs one load or store of [head], [tail] or a slot, in the order
    of the source, with the locals of the C function kept in the thread's
    control state.  Any number of threads may push; one thread consumes with
    [peek], [pop], [pop_cached], [pop_back] and [pop_all].  Memory is sequentially
    consistent.  [pushed] and [popped] record, for the statements only, the
    elements published by a store to [head] and released by a store to [tail]. *)
From stdpp Require Import base numbers list option relations.
From Stdlib Require Import ZArith Lia.
From S2P Require Import Prelude QueueSpsc.

Local Open Scope Z_scope.

Section Conc.
Context {A : Type}.
Abbreviation queue := (tn_queue_spsc_t A).
Implicit Types q : queue.

(** Control states of a thread inside [tn_queue_spsc_push]. *)
Inductive pstate :=
  | PIdle
  | PCall (p : ptr A)
  | PHead (p : ptr A) (head : Z)
  | PTail (p : ptr A) (head tail : Z)
  | PStored (p : ptr A) (head : Z).

(** The consumer's operations and its control states inside them. *)
Inductive cop := CPeek | CPop | CPopBack | CPopAll (out_count : Z).

Inductive cstate :=
  | CIdle
  | CCall (o : cop)
  | CTail (o : cop) (tail : Z)
  | CHead (o : cop) (tail head : Z)
  | CGot (tail : Z) (out : ptr A)
  | CCopy (tail : Z) (out_count : Z) (out : list (ptr A)).

Record state := {
  sq : queue;
  prods : list pstate;
  cons : cstate;
  peeked : bool;
  pushed : list (ptr A);
  popped : list (ptr A);
}.

Definition upd (s : state) q P C pk pu po : state :=
  {| sq := q; prods := P; cons := C; peeked := pk; pushed := pu; popped := po |}.

Definition slot_val q i : ptr A := default NULL (buffer q !! slot q i).

(** One shared access of the producer thread [i]. *)
Inductive pstep (i : nat) : state → state → Prop :=
  | p_call s p :
      prods s !! i = Some PIdle →
      pstep i s (upd s (sq s) (<[i := PCall p]> (prods s)) (cons s) (peeked s) (pushed s) (popped s))
  | p_head s p :
      prods s !! i = Some (PCall p) →
      pstep i s (upd s (sq s) (<[i := PHead p (tn_atomic_load_explicit (head (sq s)) TN_ATOMIC_RELAXED)]> (prods s))
                   (cons s) (peeked s) (pushed s) (popped s))
  | p_tail s p h :
      prods s !! i = Some (PHead p h) →
      pstep i s (upd s (sq s) (<[i := PTail p h (tn_atomic_load (tail (sq s)))]> (prods s))
                   (cons s) (peeked s) (pushed s) (popped s))
  | p_full s p h t :
      prods s !! i = Some (PTail p h t) → u64 (h - t) = capacity (sq s) →
      pstep i s (upd s (sq s) (<[i := PIdle]> (prods s)) (cons s) (peeked s) (pushed s) (popped s))
  | p_store s p h t q' :
      prods s !! i = Some (PTail p h t) → u64 (h - t) ≠ capacity (sq s) →
      store_slot h p (sq s) = Some (tt, q') →
      pstep i s (upd s q' (<[i := PStored p h]> (prods s)) (cons s) (peeked s) (pushed s) (popped s))
  | p_publish s p h :
      prods s !! i = Some (PStored p h) →
      pstep i s (upd s (set_head (tn_atomic_store (head (sq s)) (u64 (h + 1))) (sq s))
                   (<[i := PIdle]> (prods s)) (cons s) (peeked s) (pushed s ++ [p]) (popped s)).

(** One shared access of the consumer.  [pop_cached] is called on a peeked
    element only, as every client does. *)
Inductive cstep : state → state → Prop :=
  | c_call s o :
      cons s = CIdle → match o with CPopAll n => 0 < n | _ => True end →
      cstep s (upd s (sq s) (prods s) (CCall o) (peeked s) (pushed s) (popped s))
  | c_tail s o :
      cons s = CCall o →
      cstep s (upd s (sq s) (prods s)
                 (CTail o (tn_atomic_load_explicit (tail (sq s)) TN_ATOMIC_RELAXED))
                 (peeked s) (pushed s) (popped s))
  | c_head s o t :
      cons s = CTail o t →
      cstep s (upd s (sq s) (prods s) (CHead o t (tn_atomic_load (head (sq s))))
                 (peeked s) (pushed s) (popped s))
  | c_empty s o t h :
      cons s = CHead o t h → h = t →
      cstep s (upd s (sq s) (prods s) CIdle (peeked s) (pushed s) (popped s))
  | c_peek s t h x :
      cons s = CHead CPeek t h → h ≠ t → load_slot t (sq s) = Some (x, sq s) →
      cstep s (upd s (set_tail_cache t (sq s)) (prods s) CIdle true (pushed s) (popped s))
  | c_pop s t h :
      cons s = CHead CPop t h → h ≠ t →
      cstep s (upd s (set_tail (tn_atomic_store (tail (sq s)) (u64 (t + 1))) (sq s)) (prods s) CIdle
                 false (pushed s) (popped s ++ [slot_val (sq s) t]))
  | c_pop_cached s :
      cons s = CIdle → peeked s = true →
      cstep s (upd s (set_tail (tn_atomic_store (tail (sq s)) (u64 (tail_cache (sq s) + 1))) (sq s))
                 (prods s) CIdle false (pushed s)
                 (popped s ++ [slot_val (sq s) (tail_cache (sq s))]))
  | c_read s t h x :
      cons s = CHead CPopBack t h → h ≠ t → load_slot t (sq s) = Some (x, sq s) →
      cstep s (upd s (sq s) (prods s) (CGot t x) (peeked s) (pushed s) (popped s))
  | c_release s t x :
      cons s = CGot t x →
      cstep s (upd s (set_tail (tn_atomic_store (tail (sq s)) (u64 (t + 1))) (sq s)) (prods s) CIdle
                 false (pushed s) (popped s ++ [x]))
  | c_copy_start s n t h :
      cons s = CHead (CPopAll n) t h → h ≠ t →
      cstep s (upd s (sq s) (prods s)
                 (CCopy t (if u64 (h - t) <? n then u64 (h - t) else n) [])
                 (peeked s) (pushed s) (popped s))
  | c_copy s n t out x :
      cons s = CCopy t n out → Z.of_nat (length out) < n →
      load_slot (u64 (t + Z.of_nat (length out))) (sq s) = Some (x, sq s) →
      cstep s (upd s (sq s) (prods s) (CCopy t n (out ++ [x])) (peeked s) (pushed s) (popped s))
  | c_copy_release s n t out :
      cons s = CCopy t n out → n ≤ Z.of_nat (length out) →
      cstep s (upd s (set_tail (tn_atomic_store_explicit (tail (sq s)) (u64 (t + n)) TN_ATOMIC_RELAXED) (sq s))
                 (prods s) CIdle false (pushed s) (popped s ++ out)).

Inductive step : state → state → Prop :=
  | step_producer i s s' : pstep i s s' → step s s'
  | step_consumer s s' : cstep s s' → step s s'.

(** A quiescent system of [n] producers over an empty queue. *)
Definition initial (n : nat) q : state :=
  {| sq := q; prods := replicate n PIdle; cons := CIdle; peeked := false;
     pushed := []; popped := [] |}.

(** ** The invariant of the single-producer system *)

(** What the producer knows: its copy of [head] is current, its copy of [tail] is
    at most as far advanced as the real one, and the slot it wrote is still the
    one it wrote. *)
Definition producer_inv q (P : pstate) : Prop :=
  match P with
  | PIdle | PCall _ => True
  | PHead _ h => h = value (head q)
  | PTail _ h t => h = value (head q) ∧ size_of q ≤ u64 (h - t) ≤ capacity q
  | PStored p h =>
      h = value (head q) ∧ size_of q < capacity q ∧ buffer q !! slot q h = Some p
  end.

(** What the consumer knows: its copy of [tail] is current, its copy of [head] is
    at most as far advanced as the real one, and what it copied out is what is
    queued. *)
Definition consumer_inv q (C : cstate) : Prop :=
  match C with
  | CIdle => True
  | CCall o => match o with CPopAll n => 0 < n | _ => True end
  | CTail o t => t = value (tail q) ∧ match o with CPopAll n => 0 < n | _ => True end
  | CHead o t h => t = value (tail q) ∧ 0 ≤ h < W64 ∧ u64 (h - t) ≤ size_of q ∧
                   match o with CPopAll n => 0 < n | _ => True end
  | CGot t x => t = value (tail q) ∧ contents q !! 0%nat = Some x
  | CCopy t n out => t = value (tail q) ∧ 0 ≤ n ≤ size_of q ∧
                     Z.of_nat (length out) ≤ n ∧ out = take (length out) (contents q)
  end.

Record inv (s : state) : Prop := {
  inv_wf : wf (sq s);
  inv_prod : ∃ P, prods s = [P] ∧ producer_inv (sq s) P;
  inv_cons : consumer_inv (sq s) (cons s);
  inv_peeked : peeked s = true → tail_cache (sq s) = value (tail (sq s)) ∧ 0 < size_of (sq s);
  inv_history : pushed s = popped s ++ contents (sq s);
}.

End Conc.

Arguments state : clear implicits.

Section Safety.
Context {A : Type}.
Implicit Types q : tn_queue_spsc_t A.

(** Consumer facts survive a producer's publication. *)
Lemma consumer_inv_mono q q' C l :
  tail q' = tail q → size_of q ≤ size_of q' → contents q' = contents q ++ l →
  consumer_inv q C → consumer_inv q' C.
Proof.
  intros Ht Hs Hc. pose proof (Zlength_contents q).
  destruct C as [|o|o t|o t h|t x|t n out]; simpl; rewrite ?Ht; try done.
  - intros (-> & ? & ? & ?). split_and!; (done || lia).
  - intros [-> Hx]. split; [done|]. rewrite Hc. by apply lookup_app_l_Some.
  - intros (-> & ? & ? & Hout). split_and!; try (done || lia).
    rewrite Hc, take_app_le by lia. done.
Qed.

(** Producer facts survive a consumer's release. *)
Lemma producer_inv_mono q q' P :
  head q' = head q → capacity q' = capacity q → mask q' = mask q → buffer q' = buffer q →
  size_of q' ≤ size_of q → producer_inv q P → producer_inv q' P.
Proof.
  intros Hh Hc Hm Hb Hs. destruct P as [|p|p h|p h t|p h]; simpl; rewrite ?Hh; try done.
  - intros [-> ?]. rewrite Hc. split; [done|lia].
  - intros (-> & ? & Hl). rewrite Hc, Hb. split_and!; [done|lia|].
    unfold slot in *. by rewrite Hm.
Qed.

(** A store to the head's slot of a queue that is not full is invisible to the consumer. *)
Lemma store_invisible q p :
  wf q → size_of q < capacity q →
  let q' := set_buffer (<[slot q (value (head q)) := p]> (buffer q)) q in
  wf q' ∧ contents q' = contents q.
Proof.
  intros Hwf Hlt q'. pose proof (size_of_nonneg q). split.
  - destruct Hwf; split; try done. unfold q'; simpl. by rewrite length_insert.
  - apply list_eq. intros i. rewrite !contents_lookup.
    change (size_of q') with (size_of q). case_decide; [|done]. unfold q'. simpl.
    change (slot (set_buffer _ q)) with (slot q). do 2 f_equal.
    apply list_lookup_insert_ne. rewrite (head_tail q Hwf), slot_u64 by done.
    intros He. apply slot_inj in He; [lia|done|lia].
Qed.

(** Publishing the stored slot appends its element. *)
Lemma publish_appends q p h :
  wf q → size_of q < capacity q → buffer q !! slot q (value (head q)) = Some p →
  value h = u64 (value (head q) + 1) →
  wf (set_head h q) ∧ contents (set_head h q) = contents q ++ [p].
Proof.
  intros Hwf Hlt Hb Hh.
  pose proof (contents_append q p h Hwf Hlt Hh) as Happ. simpl in Happ.
  rewrite list_insert_id in Happ by done. destruct q. exact Happ.
Qed.

Lemma size_of_contents q q' l :
  contents q' = contents q ++ l → size_of q' = size_of q + Z.of_nat (length l).
Proof.
  intros Hc. rewrite <- (Zlength_contents q'), <- (Zlength_contents q), Hc, length_app. lia.
Qed.

Lemma size_of_drop q q' n :
  contents q' = drop n (contents q) → size_of q' ≤ size_of q.
Proof.
  intros Hc. rewrite <- (Zlength_contents q'), <- (Zlength_contents q), Hc, length_drop. lia.
Qed.

(** Rule by rule: a producer step keeps the invariant. *)
Lemma pstep_inv i (s s' : state A) : pstep i s s' → inv s → inv s'.
Proof.
  intros Hstep [Hwf (P & HP & Hp) Hc Hpk Hh].
  assert (∀ P', prods s !! i = Some P' → i = 0%nat ∧ P' = P) as Hi.
  { rewrite HP. intros P' Hl. destruct i as [|i]; [by injection Hl as ->|done]. }
  destruct Hstep as [s p Hl|s p Hl|s p h Hl|s p h t Hl Hfull|s p h t q' Hl Hfull Hst|s p h Hl];
    apply Hi in Hl as [-> <-]; rewrite HP.
  - by split; simpl; [| eexists| | |].
  - by split; simpl; [| eexists| | |].
  - simpl in Hp. subst h. split; simpl; try done. eexists; split; [done|].
    split; [done|]. unfold tn_atomic_load, tn_atomic_load_explicit.
    fold (size_of (sq s)). split; [done|]. apply Hwf.
  - by split; simpl; [| eexists| | |].
  - destruct Hp as [-> Hp]. rewrite store_slot_run in Hst by done. injection Hst as <-.
    destruct (store_invisible (sq s) p Hwf ltac:(lia)) as [Hwf' Hc'].
    split; simpl; try done.
    + eexists; split; [done|]. split; [done|]. split.
      * change (size_of (sq s) < capacity (sq s)). lia.
      * simpl. change (slot (set_buffer _ (sq s))) with (slot (sq s)).
        apply list_lookup_insert_eq. by apply slot_lt.
    + apply (consumer_inv_mono (sq s) _ _ []); try done. by rewrite app_nil_r.
    + by rewrite Hc'.
  - destruct Hp as (-> & Hlt & Hb).
    destruct (publish_appends (sq s) p _ Hwf Hlt Hb
      (atomic_store_value (head (sq s)) (value (head (sq s)) + 1))) as [Hwf' Hc'].
    pose proof (size_of_contents _ _ _ Hc') as Hsz. simpl in Hsz.
    split; simpl; try done.
    + by eexists.
    + by apply (consumer_inv_mono (sq s) _ _ [p]); [|lia|..].
    + intros Hk. apply Hpk in Hk as [-> ?]. split; [done|lia].
    + by rewrite Hc', app_assoc, Hh.
Qed.

Lemma advance_inv (s s' : state A) n t C :
  inv s → 0 ≤ n ≤ size_of (sq s) → value t = u64 (value (tail (sq s)) + n) →
  consumer_inv (set_tail t (sq s)) C →
  s' = upd s (set_tail t (sq s)) (prods s) C false (pushed s)
         (popped s ++ take (Z.to_nat n) (contents (sq s))) →
  inv s'.
Proof.
  intros [Hwf (P & HP & Hp) _ _ Hh] Hn Ht HC ->.
  destruct (contents_advance (sq s) n t Hwf Hn Ht) as [Hwf' Hc'].
  split; simpl; try done.
  - exists P. split; [done|].
    apply (producer_inv_mono (sq s)); try done. by apply size_of_drop in Hc'.
  - by rewrite Hc', <- app_assoc, take_drop.
Qed.

(** The two loads of an operation that returned [h <> t] found an element. *)
Lemma loaded_nonempty q t h :
  wf q → 0 ≤ h < W64 → t = value (tail q) → h ≠ t → 0 < u64 (h - t).
Proof.
  intros Hwf Hh -> Hne. pose proof (wf_tail q Hwf).
  destruct (decide (0 < u64 (h - value (tail q)))) as [|Hz]; [done|exfalso].
  pose proof (u64_range (h - value (tail q))).
  assert ((h - value (tail q)) mod W64 = 0) as Hm by (unfold u64 in *; lia).
  apply Hne. apply (mod_inj_window _ _ W64); [lia|lia|].
  apply Z.mod_divide in Hm as [k Hk]; [|lia].
  replace h with (value (tail q) + k * W64) by lia. by rewrite Z.mod_add.
Qed.

Lemma load_slot_val q i x q' : wf q → load_slot i q = Some (x, q') → x = slot_val q i.
Proof. intros Hwf Hl. rewrite load_slot_run in Hl by done. by injection Hl as <- _. Qed.

Lemma slot_val_contents q (i : nat) :
  Z.of_nat i < size_of q →
  contents q !! i = Some (slot_val q (value (tail q) + Z.of_nat i)).
Proof. intros. by rewrite contents_lookup, decide_True. Qed.

Lemma take_one q :
  0 < size_of q → take 1 (contents q) = [slot_val q (value (tail q))].
Proof.
  intros Hs. pose proof (slot_val_contents q 0 ltac:(lia)) as Hl. rewrite Z.add_0_r in Hl.
  destruct (contents q); [done|]. simpl in *. by simplify_eq.
Qed.

(** Rule by rule: a consumer step keeps the invariant. *)
Lemma cstep_inv (s s' : state A) : cstep s s' → inv s → inv s'.
Proof.
  intros Hstep Hinv. pose proof Hinv as [Hwf (P & HP & Hp) Hc Hpk Hh].
  destruct Hstep as [s o Hl Ho|s o Hl|s o t Hl|s o t h Hl He|s t h x Hl Hne Hx|s t h Hl Hne
    |s Hl Hk|s t h x Hl Hne Hx|s t x Hl|s n t h Hl Hne|s n t out x Hl Hlt Hx|s n t out Hl Hle];
    rewrite Hl in Hc; simpl in Hc.
  - split; try done. by exists P.
  - split; try done. by exists P.
  - destruct Hc as [-> Ho]. split; try done; [by exists P|]. simpl.
    unfold tn_atomic_load, tn_atomic_load_explicit. fold (size_of (sq s)).
    split_and!; (done || apply Hwf).
  - split; try done. by exists P.
  - destruct Hc as (-> & Hr & Hle & _).
    pose proof (loaded_nonempty (sq s) _ h Hwf Hr eq_refl Hne). split; simpl; try done.
    + destruct Hwf; by split.
    + by exists P.
    + intros _. split; [done|]. change (0 < size_of (sq s)). lia.
  - destruct Hc as (-> & Hr & Hle & _).
    pose proof (loaded_nonempty (sq s) _ h Hwf Hr eq_refl Hne).
    eapply (advance_inv s _ 1 (tn_atomic_store _ (u64 _)) CIdle);
      [done|lia|apply (atomic_store_value (tail (sq s)))|done|].
    by rewrite take_one by lia.
  - destruct (Hpk Hk) as [-> ?].
    eapply (advance_inv s _ 1 (tn_atomic_store _ (u64 _)) CIdle);
      [done|lia|apply (atomic_store_value (tail (sq s)))|done|].
    by rewrite take_one by lia.
  - destruct Hc as (-> & Hr & Hle & _).
    pose proof (loaded_nonempty (sq s) _ h Hwf Hr eq_refl Hne).
    split; simpl; try done; [by exists P|]. split; [done|].
    apply load_slot_val in Hx as ->; [|done].
    pose proof (slot_val_contents (sq s) 0 ltac:(lia)) as Hv. by rewrite Z.add_0_r in Hv.
  - destruct Hc as (-> & Hx).
    assert (0 < size_of (sq s)).
    { pose proof (size_of_nonneg (sq s)). pose proof (lookup_lt_Some _ _ _ Hx).
      pose proof (length_contents (sq s)). lia. }
    eapply (advance_inv s _ 1 (tn_atomic_store _ (u64 _)) CIdle);
      [done|lia|apply (atomic_store_value (tail (sq s)))|done|].
    destruct (contents (sq s)); simpl in *; by simplify_eq.
  - destruct Hc as (-> & Hr & Hle & Ho).
    pose proof (loaded_nonempty (sq s) _ h Hwf Hr eq_refl Hne).
    split; simpl; try done; [by exists P|]. split; [done|]. split; [case_bool; lia|].
    split; [case_bool; lia|done].
  - destruct Hc as (-> & Hn & Hlen & Hout). split; simpl; try done; [by exists P|].
    split_and!; [done|lia|lia| |].
    + rewrite length_app. simpl. lia.
    + apply load_slot_val in Hx as ->; [|done]. rewrite length_app, Nat.add_1_r.
      unfold slot_val. rewrite slot_u64 by done.
      rewrite (take_S_r _ _ (slot_val (sq s) (value (tail (sq s)) + Z.of_nat (length out)))).
      * by rewrite <- Hout.
      * apply slot_val_contents. lia.
  - destruct Hc as (-> & Hn & Hlen & Hout).
    eapply (advance_inv s _ n (tn_atomic_store _ (u64 _)) CIdle);
      [done|lia|apply (atomic_store_value (tail (sq s)))|done|].
    rewrite Hout at 1. by replace (length out) with (Z.to_nat n) by lia.
Qed.

Lemma reachable_inv n q (s : state A) :
  n = 1%nat → wf q → contents q = [] → rtc step (initial n q) s → inv s.
Proof.
  intros -> Hwf Hc. revert s. apply rtc_ind_r.
  - split; simpl; try done. by exists PIdle.
  - intros s1 s2 _ [i ? ? Hp|? ? Hp] IH; [by eapply pstep_inv|by eapply cstep_inv].
Qed.

End Safety.

(** ** Agreement with the sequential definitions *)

Section Solo.
Context {A : Type}.
Implicit Types s : state A.

(** Looks up the entry just written. *)
Ltac lookup_written :=
  simpl; rewrite list_lookup_insert_eq; [reflexivity|by rewrite ?length_insert].

(** The accesses of one producer, run without interference, are [tn_queue_spsc_push]. *)
Lemma solo_push_steps i s p r q' :
  prods s !! i = Some PIdle → tn_queue_spsc_push p (sq s) = Some (r, q') →
  ∃ s', rtc (pstep i) s s' ∧ sq s' = q' ∧ prods s' = prods s ∧ cons s' = cons s ∧
    popped s' = popped s ∧ pushed s' = if r =? TN_SUCCESS then pushed s ++ [p] else pushed s.
Proof.
  intros Hi Hrun. pose proof (lookup_lt_Some _ _ _ Hi) as Hlt.
  set (h := value (head (sq s))). set (t := value (tail (sq s))).
  assert (rtc (pstep i) s (upd s (sq s) (<[i := PTail p h t]> (prods s)) (cons s)
                             (peeked s) (pushed s) (popped s))) as Hpre.
  { eapply rtc_l; [by apply (p_call i s p)|].
    eapply rtc_l; [apply p_head; lookup_written|].
    eapply rtc_l; [apply p_tail; lookup_written|].
    simpl. rewrite !list_insert_insert_eq. done. }
  unfold tn_queue_spsc_push, tn_atomic_load, tn_atomic_load_explicit in Hrun.
  mrun in Hrun. fold h t in Hrun.
  destruct (Z.eqb_spec (u64 (h - t)) (capacity (sq s))) as [He|He].
  - injection Hrun as <- <-. eexists. split.
    { eapply rtc_r; [exact Hpre|]. eapply p_full; [lookup_written|exact He]. }
    simpl. by rewrite list_insert_insert_eq, list_insert_id.
  - destruct (store_slot h p (sq s)) as [[[] q1]|] eqn:Hst; [|done]. injection Hrun as <- <-.
    eexists. split.
    { eapply rtc_r; [eapply rtc_r; [exact Hpre|]|].
      - eapply p_store; [lookup_written|exact He|exact Hst].
      - apply (p_publish i _ p h). lookup_written. }
    simpl. rewrite !list_insert_insert_eq, list_insert_id by done. split_and!; done.
Qed.

Lemma solo_load_steps s o :
  cons s = CIdle → match o with CPopAll n => 0 < n | _ => True end →
  rtc cstep s (upd s (sq s) (prods s)
    (CHead o (value (tail (sq s))) (value (head (sq s)))) (peeked s) (pushed s) (popped s)).
Proof.
  intros Hc Ho.
  eapply rtc_l; [by apply (c_call s o)|]. eapply rtc_l; [by apply c_tail|].
  eapply rtc_l; [by apply c_head|]. done.
Qed.

(** The accesses of the consumer, run without interference, are [tn_queue_spsc_pop_back]. *)
Lemma solo_pop_back_steps s r x q' :
  cons s = CIdle → tn_queue_spsc_pop_back (sq s) = Some ((r, x), q') →
  ∃ s', rtc cstep s s' ∧ sq s' = q' ∧ cons s' = CIdle ∧ prods s' = prods s ∧
    pushed s' = pushed s ∧ popped s' = if r =? TN_SUCCESS then popped s ++ [x] else popped s.
Proof.
  intros Hc Hrun. pose proof (solo_load_steps s CPopBack Hc I) as Hpre.
  unfold tn_queue_spsc_pop_back, tn_atomic_load, tn_atomic_load_explicit in Hrun. mrun in Hrun.
  destruct (Z.eqb_spec (value (head (sq s))) (value (tail (sq s)))) as [He|He].
  - injection Hrun as <- <- <-. eexists. split.
    { eapply rtc_r; [exact Hpre|]. by eapply c_empty. }
    done.
  - destruct (load_slot (value (tail (sq s))) (sq s)) as [[y q1]|] eqn:Hl; [|done].
    assert (q1 = sq s) as ->.
    { unfold load_slot in Hl. mrun in Hl.
      destruct (buffer (sq s) !! _); [|done]. by injection Hl. }
    injection Hrun as <- <- <-. eexists. split.
    { eapply rtc_r; [eapply rtc_r; [exact Hpre|]|]; [by eapply c_read|by eapply c_release]. }
    done.
Qed.

End Solo.

(** C4. One producer and one consumer, interleaved in any way at the level of single
    loads and stores: what was published is exactly what was consumed followed
    by what is queued, in order (nothing is lost, duplicated, reordered or
    overwritten), at most [capacity] elements are queued, and a thread inside an
    operation can always take its next step without leaving the allocated slots. *)
Theorem spsc_interleaved_fifo (A : Type) (q : tn_queue_spsc_t A) (s : state A) :
  wf q → contents q = [] → rtc step (initial 1 q) s →
  pushed s = popped s ++ contents (sq s) ∧
  size_of (sq s) ≤ capacity (sq s) ∧
  (∀ P, prods s !! 0%nat = Some P → P ≠ PIdle → ∃ s', pstep 0 s s') ∧
  (cons s ≠ CIdle → ∃ s', cstep s s').
Proof.
  intros Hwf Hc Hr. pose proof (reachable_inv 1 q s eq_refl Hwf Hc Hr) as [Hw _ _ _ Hh].
  split_and!; [done|apply Hw| |].
  - intros P HP Hne. destruct P as [|p|p h|p h t|p h]; [done| | | |].
    + eexists. by eapply p_head.
    + eexists. by eapply p_tail.
    + destruct (decide (u64 (h - t) = capacity (sq s))).
      * eexists. by eapply p_full.
      * eexists. eapply p_store; [done|done|by apply store_slot_run].
    + eexists. by eapply p_publish.
  - intros Hne. destruct (cons s) as [|o|o t|o t h|t x|t n out] eqn:Hcs; [done| | | | |].
    + eexists. by eapply c_tail.
    + eexists. by eapply c_head.
    + destruct (decide (h = t)); [eexists; by eapply c_empty|].
      destruct o; eexists.
      * eapply c_peek; [done|done|by apply load_slot_run].
      * by eapply c_pop.
      * eapply c_read; [done|done|by apply load_slot_run].
      * by eapply c_copy_start.
    + eexists. by eapply c_release.
    + destruct (decide (n ≤ Z.of_nat (length out))).
      * eexists. by eapply c_copy_release.
      * eexists. eapply c_copy; [done|lia|by apply load_slot_run].
Qed.

(** Run without interference, the accesses of a pushing thread and of a popping
    thread compute what the sequential definitions [tn_queue_spsc_push] and
    [tn_queue_spsc_pop_back] compute. *)
Theorem solo_runs_agree (A : Type) i (s : state A) :
  (∀ p r q', prods s !! i = Some PIdle → tn_queue_spsc_push p (sq s) = Some (r, q') →
     ∃ s', rtc (pstep i) s s' ∧ sq s' = q' ∧ prods s' = prods s ∧
       pushed s' = if r =? TN_SUCCESS then pushed s ++ [p] else pushed s) ∧
  (∀ r x q', cons s = CIdle → tn_queue_spsc_pop_back (sq s) = Some ((r, x), q') →
     ∃ s', rtc cstep s s' ∧ sq s' = q' ∧ cons s' = CIdle ∧
       popped s' = if r =? TN_SUCCESS then popped s ++ [x] else popped s).
Proof.
  split.
  - intros p r q' Hi Hp. destruct (solo_push_steps i s p r q' Hi Hp) as (s' & H); naive_solver.
  - intros r x q' Hc Hp. destruct (solo_pop_back_steps s r x q' Hc Hp) as (s' & H); naive_solver.
Qed.

(** A queue of capacity 2 with free-running counters about to wrap around. *)
Definition small_queue : tn_queue_spsc_t nat :=
  {| capacity := 2; mask := 1; buffer := [NULL; NULL; NULL];
     head := {| value := 18446744073709551615 |};
     tail := {| value := 18446744073709551615 |}; tail_cache := 0 |}.

Lemma small_queue_wf : wf small_queue.
Proof. split; simpl; try done. exists 1. done. Qed.

(** The next access of producer [i]; an idle producer starts a push of [p]. *)
Definition pnext {A} (i : nat) (p : ptr A) (s : state A) : option (state A) :=
  let go q P pu := Some (upd s q (<[i := P]> (prods s)) (cons s) (peeked s) pu (popped s)) in
  match prods s !! i with
  | None => None
  | Some PIdle => go (sq s) (PCall p) (pushed s)
  | Some (PCall p) => go (sq s) (PHead p (value (head (sq s)))) (pushed s)
  | Some (PHead p h) => go (sq s) (PTail p h (value (tail (sq s)))) (pushed s)
  | Some (PTail p h t) =>
      if decide (u64 (h - t) = capacity (sq s)) then go (sq s) PIdle (pushed s)
      else match store_slot h p (sq s) with
           | Some (_, q') => go q' (PStored p h) (pushed s) | None => None end
  | Some (PStored p h) =>
      go (set_head (tn_atomic_store (head (sq s)) (u64 (h + 1))) (sq s)) PIdle (pushed s ++ [p])
  end.

Lemma pnext_sound {A} i p (s s' : state A) : pnext i p s = Some s' → pstep i s s'.
Proof.
  unfold pnext. destruct (prods s !! i) as [[|p'|p' h|p' h t|p' h]|] eqn:HP; intros H; try done.
  - injection H as <-. by apply p_call.
  - injection H as <-. by apply p_head.
  - injection H as <-. by apply p_tail.
  - case_decide; [injection H as <-; by eapply p_full|].
    destruct (store_slot h p' (sq s)) as [[[] q']|] eqn:Hst; [|done].
    injection H as <-. by eapply p_store.
  - injection H as <-. by apply p_publish.
Qed.

Fixpoint run_schedule {A} (sched : list (nat * ptr A)) (s : state A) : option (state A) :=
  match sched with
  | [] => Some s
  | (i, p) :: sched => match pnext i p s with Some s' => run_schedule sched s' | None => None end
  end.

Lemma run_schedule_sound {A} sched (s s' : state A) :
  run_schedule sched s = Some s' → rtc step s s'.
Proof.
  revert s. induction sched as [|[i p] sched IH]; intros s H; simpl in H.
  - by injection H as <-.
  - destruct (pnext i p s) as [s1|] eqn:Hn; [|done].
    eapply rtc_l; [by eapply step_producer, pnext_sound|by apply IH].
Qed.

(** Two complete pushes by the only producer. *)
Definition two_pushes : state nat :=
  default (initial 1 small_queue)
    (run_schedule (replicate 5 (0%nat, Some 7%nat) ++ replicate 5 (0%nat, Some 8%nat))
       (initial 1 small_queue)).

Lemma spsc_interleaved_fifo_witness :
  pushed two_pushes = popped two_pushes ++ contents (sq two_pushes) ∧
  size_of (sq two_pushes) ≤ capacity (sq two_pushes) ∧
  pushed two_pushes = [Some 7%nat; Some 8%nat].
Proof.
  destruct (spsc_interleaved_fifo nat small_queue two_pushes small_queue_wf eq_refl) as (H1 & H2 & _).
  - apply (run_schedule_sound (replicate 5 (0%nat, Some 7%nat) ++ replicate 5 (0%nat, Some 8%nat))).
    vm_compute. reflexivity.
  - split; [exact H1|split; [exact H2|vm_compute; reflexivity]].
Defined.

(** Both threads load [head] and [tail] before either stores. *)
Definition lossy_schedule : list (nat * ptr nat) :=
  [(0, Some 1); (0, NULL); (1, Some 2); (1, NULL); (0, NULL); (1, NULL);
   (0, NULL); (1, NULL); (0, NULL); (1, NULL)]%nat.

(** With two producers the queue loses elements: there is an interleaving of two
    calls of [tn_queue_spsc_push] that both succeed on an empty queue and leave one
    element in it.  (The receive pool's free queue is pushed by two threads:
    by the application thread in [tcp_service_events_release] and by the IO thread in
    [on_close_channel_cb].) *)
Theorem two_producers_lose_element :
  ∃ s, rtc step (initial 2 small_queue) s ∧
    prods s = [PIdle; PIdle] ∧ cons s = CIdle ∧ popped s = [] ∧
    pushed s = [Some 1%nat; Some 2%nat] ∧ contents (sq s) = [Some 2%nat].
Proof.
  exists (default (initial 2 small_queue) (run_schedule lossy_schedule (initial 2 small_queue))).
  split; [|by vm_compute].
  apply (run_schedule_sound lossy_schedule). by vm_compute.
Qed.
