(* ===== verification/ByteBuf.v ===== *)
(** Byte memory and the aws-c-common byte buffers and cursors the library builds
    on: deps/aws-c-common/include/aws/common/byte_buf.h, byte_order.h and
    source/byte_buf.c.

    A pointer to bytes is an address in [0, 2^64) (0 is [NULL]) and memory is a
    finite map whose domain is the allocated bytes; an access outside the domain
    has no defined behaviour ([None]).  The byte order of the host is a class
    parameter, so the wire format is shown to be the same on every host. *)
From stdpp Require Import base numbers list option gmap.
From Stdlib Require Import ZArith Lia.
From S2P Require Import Prelude.

Local Open Scope Z_scope.
Local Open Scope c_scope.

(** ** Memory *)

Abbreviation mem := (gmap Z Z).

Definition mem_load (m : mem) (p n : Z) : option (list Z) :=
  mapM (λ i, m !! (p + i)) (seqZ 0 n).

Fixpoint mem_store (m : mem) (p : Z) (bs : list Z) : option mem :=
  match bs with
  | [] => Some m
  | b :: bs => match m !! p with Some _ => mem_store (<[p := b]> m) (p + 1) bs | None => None end
  end.

(** [memcpy] of [n] bytes between buffers that do not overlap. *)
Definition memcpy (m : mem) (dst src n : Z) : option mem :=
  bs ← mem_load m src n; mem_store m dst bs.

(** The allocator hands out the bytes [bs] (their values are arbitrary) at [p]. *)
Fixpoint mem_acquire (p : Z) (bs : list Z) (m : mem) : mem :=
  match bs with [] => m | b :: bs => <[p := b]> (mem_acquire (p + 1) bs m) end.

(** [TN_MEM_RELEASE] of [n] bytes at [a]: the bytes are no longer allocated, the
    pointer the caller holds keeps its value.  Releasing [NULL] does nothing. *)
Definition mem_release (a n : Z) (m : mem) : mem :=
  if a =? 0 then m else filter (λ kv, ¬ (a ≤ kv.1 < a + n)) m.

(** All of [p, p + n) is allocated. *)
Definition allocated (m : mem) (p n : Z) : Prop := ∀ a, p ≤ a < p + n → is_Some (m !! a).

(** ** Byte order *)

(** The endianness of the machine ([aws_is_big_endian]). *)
Class Host := { aws_is_big_endian : bool }.

(** The [n] bytes of an integer, least significant first, and back. *)
Fixpoint le_split (n : nat) (x : Z) : list Z :=
  match n with O => [] | S n => (x mod 256) :: le_split n (x / 256) end.
Fixpoint le_combine (bs : list Z) : Z :=
  match bs with [] => 0 | b :: bs => b + 256 * le_combine bs end.

(** The bytes of an integer object in memory (the byte view of [&x]), and the value of
    an object from its bytes. *)
Definition obj_bytes `{Host} (n : nat) (x : Z) : list Z :=
  if aws_is_big_endian then rev (le_split n x) else le_split n x.
Definition obj_value `{Host} (bs : list Z) : Z :=
  if aws_is_big_endian then le_combine (rev bs) else le_combine bs.

(** The [bswap] instruction on [n] bytes. *)
Definition bswap (n : nat) (x : Z) : Z := le_combine (rev (le_split n x)).

Definition aws_hton64 `{Host} (x : Z) : Z := if aws_is_big_endian then x else bswap 8 x.
Definition aws_ntoh64 `{Host} (x : Z) : Z := aws_hton64 x.
Definition aws_hton32 `{Host} (x : Z) : Z := if aws_is_big_endian then x else bswap 4 x.
Definition aws_ntoh32 `{Host} (x : Z) : Z := if aws_is_big_endian then x else bswap 4 x.
Definition aws_hton16 `{Host} (x : Z) : Z := if aws_is_big_endian then x else bswap 2 x.
Definition aws_ntoh16 `{Host} (x : Z) : Z := if aws_is_big_endian then x else bswap 2 x.

(** ** Buffers and cursors *)

Record aws_byte_buf := {
  buf_len : Z;
  buf_buffer : Z;
  buf_capacity : Z;
  buf_allocator : ptr unit;
}.

Record aws_byte_cursor := {
  cur_len : Z;
  cur_ptr : Z;
}.

Definition set_buf_len (n : Z) (b : aws_byte_buf) : aws_byte_buf :=
  {| buf_len := n; buf_buffer := buf_buffer b; buf_capacity := buf_capacity b;
     buf_allocator := buf_allocator b |}.

Definition aws_byte_buf_from_array (bytes len : Z) : aws_byte_buf :=
  {| buf_buffer := bytes; buf_len := len; buf_capacity := len; buf_allocator := NULL |}.
Definition aws_byte_buf_from_empty_array (bytes capacity : Z) : aws_byte_buf :=
  {| buf_buffer := bytes; buf_len := 0; buf_capacity := capacity; buf_allocator := NULL |}.
Definition aws_byte_cursor_from_buf (b : aws_byte_buf) : aws_byte_cursor :=
  {| cur_ptr := buf_buffer b; cur_len := buf_len b |}.

(** [acquire] is the allocator's answer for the block: its address, or [None]. *)
Definition aws_byte_buf_init (acquire : option Z) (capacity : Z) (b : aws_byte_buf) : Z * aws_byte_buf :=
  match acquire with
  | None => (-1, {| buf_len := buf_len b; buf_buffer := 0; buf_capacity := buf_capacity b;
                    buf_allocator := buf_allocator b |})
  | Some p => (0, {| buf_len := 0; buf_buffer := p; buf_capacity := capacity;
                     buf_allocator := Some tt |})
  end.

(** The branch-free mask of the SPECTRE mitigation. *)
Definition aws_nospec_mask (index bound : Z) : Z :=
  let negative_mask := Z.lor index bound in
  let toobig_mask := u64 (u64 (bound - index) - 1) in
  let combined_mask := Z.lor negative_mask toobig_mask in
  let combined_mask := (SIZE_MAX - combined_mask) / (SIZE_MAX - Z.shiftr SIZE_MAX 1) in
  u64 (combined_mask * SIZE_MAX).

Definition aws_byte_cursor_advance (len : Z) : M aws_byte_cursor aws_byte_cursor :=
  cursor ← get;
  if (Z.shiftr SIZE_MAX 1 <? cur_len cursor) || (Z.shiftr SIZE_MAX 1 <? len)
     || (cur_len cursor <? len)
  then mret {| cur_ptr := 0; cur_len := 0 |}
  else
    put {| cur_ptr := u64 (cur_ptr cursor + len); cur_len := u64 (cur_len cursor - len) |};;
    mret {| cur_ptr := cur_ptr cursor; cur_len := len |}.

Definition aws_byte_cursor_advance_nospec (len : Z) : M aws_byte_cursor aws_byte_cursor :=
  cursor ← get;
  if (len <=? cur_len cursor) && (len <=? Z.shiftr SIZE_MAX 1)
     && (cur_len cursor <=? Z.shiftr SIZE_MAX 1)
  then
    let mask := aws_nospec_mask len (u64 (cur_len cursor + 1)) in
    let len := Z.land len mask in
    let p := Z.land (cur_ptr cursor) mask in
    let n := Z.land (cur_len cursor) mask in
    put {| cur_ptr := u64 (p + len); cur_len := u64 (n - len) |};;
    mret {| cur_ptr := p; cur_len := Z.land len mask |}
  else mret {| cur_ptr := 0; cur_len := 0 |}.

(** Returns the bytes for the destination, or [None] for [false]. *)
Definition aws_byte_cursor_read (m : mem) (len : Z) : M aws_byte_cursor (option (list Z)) :=
  slice ← aws_byte_cursor_advance_nospec len;
  if cur_ptr slice =? 0 then mret None
  else bs ← lift (mem_load m (cur_ptr slice) len); mret (Some bs).

Definition aws_byte_cursor_read_u8 `{Host} (m : mem) : M aws_byte_cursor (option Z) :=
  r ← aws_byte_cursor_read m 1; mret (obj_value <$> r).
Definition aws_byte_cursor_read_be16 `{Host} (m : mem) : M aws_byte_cursor (option Z) :=
  r ← aws_byte_cursor_read m 2; mret ((aws_ntoh16 ∘ obj_value) <$> r).
Definition aws_byte_cursor_read_be32 `{Host} (m : mem) : M aws_byte_cursor (option Z) :=
  r ← aws_byte_cursor_read m 4; mret ((aws_ntoh32 ∘ obj_value) <$> r).
Definition aws_byte_cursor_read_be64 `{Host} (m : mem) : M aws_byte_cursor (option Z) :=
  r ← aws_byte_cursor_read m 8; mret ((aws_ntoh64 ∘ obj_value) <$> r).

(** The source of a write: a pointer, or the bytes of a local object. *)
Inductive source := SrcPtr (p : Z) | SrcBytes (bs : list Z).

Definition read_src (m : mem) (src : source) (len : Z) : option (list Z) :=
  match src with
  | SrcPtr p => mem_load m p len
  | SrcBytes bs => if len <=? Z.of_nat (length bs) then Some (take (Z.to_nat len) bs) else None
  end.

Definition aws_byte_buf_write (src : source) (len : Z) : M (aws_byte_buf * mem) bool :=
  '(buf, m) ← get;
  if (Z.shiftr SIZE_MAX 1 <? buf_len buf) || (Z.shiftr SIZE_MAX 1 <? len)
     || (buf_capacity buf <? u64 (buf_len buf + len))
  then mret false
  else
    bs ← lift (read_src m src len);
    m' ← lift (mem_store m (u64 (buf_buffer buf + buf_len buf)) bs);
    put (set_buf_len (u64 (buf_len buf + len)) buf, m');;
    mret true.

Definition aws_byte_buf_write_u8 `{Host} (c : Z) : M (aws_byte_buf * mem) bool :=
  aws_byte_buf_write (SrcBytes (obj_bytes 1 c)) 1.
Definition aws_byte_buf_write_be16 `{Host} (x : Z) : M (aws_byte_buf * mem) bool :=
  aws_byte_buf_write (SrcBytes (obj_bytes 2 (aws_hton16 x))) 2.
Definition aws_byte_buf_write_be32 `{Host} (x : Z) : M (aws_byte_buf * mem) bool :=
  aws_byte_buf_write (SrcBytes (obj_bytes 4 (aws_hton32 x))) 4.
Definition aws_byte_buf_write_be64 `{Host} (x : Z) : M (aws_byte_buf * mem) bool :=
  aws_byte_buf_write (SrcBytes (obj_bytes 8 (aws_hton64 x))) 8.

(** Big-endian bytes: the wire format. *)
Definition be_split (n : nat) (x : Z) : list Z := rev (le_split n x).
Definition be_combine (bs : list Z) : Z := le_combine (rev bs).

(** ** Memory lemmas *)

Lemma mem_load_run m p n bs :
  0 ≤ n → mem_load m p n = Some bs ↔
    Z.of_nat (length bs) = n ∧ ∀ i : nat, Z.of_nat i < n → m !! (p + Z.of_nat i) = bs !! i.
Proof.
  intros Hn. unfold mem_load. rewrite mapM_Some. split.
  - intros H. pose proof (Forall2_length _ _ _ H) as Hl. rewrite length_seqZ in Hl.
    split; [lia|]. intros i Hi.
    assert (is_Some (bs !! i)) as [b Hb] by (apply lookup_lt_is_Some; lia).
    rewrite Hb.
    pose proof (Forall2_lookup_lr _ _ _ _ _ _ H (lookup_seqZ_lt 0 n i Hi) Hb) as Hr.
    by rewrite Z.add_0_l in Hr.
  - intros [Hl H]. apply Forall2_same_length_lookup. split; [rewrite length_seqZ; lia|].
    intros i x y Hx Hy. apply lookup_seqZ in Hx as [-> Hi].
    rewrite Z.add_0_l, H, Hy by lia. done.
Qed.

Lemma mem_store_run m p bs :
  allocated m p (Z.of_nat (length bs)) →
  ∃ m', mem_store m p bs = Some m' ∧
    ∀ a, m' !! a = if decide (p ≤ a < p + Z.of_nat (length bs))
                   then bs !! Z.to_nat (a - p) else m !! a.
Proof.
  revert m p. induction bs as [|b bs IH]; intros m p Hal.
  - exists m. split; [done|]. intros a. rewrite decide_False; [done|simpl; lia].
  - simpl length in *. destruct (Hal p ltac:(lia)) as [x Hx]. simpl. rewrite Hx.
    destruct (IH (<[p := b]> m) (p + 1)) as (m' & Hs & Hl).
    { intros a Ha. destruct (decide (a = p)) as [->|].
      - rewrite lookup_insert_eq. by eexists.
      - rewrite lookup_insert_ne by done. apply Hal. lia. }
    exists m'. split; [done|]. intros a. rewrite Hl.
    destruct (decide (a = p)) as [->|Hne].
    + rewrite decide_False by lia. rewrite lookup_insert_eq, decide_True by lia.
      by rewrite Z.sub_diag.
    + rewrite lookup_insert_ne by done. repeat case_decide; try lia; [|done].
      replace (Z.to_nat (a - p)) with (S (Z.to_nat (a - (p + 1)))) by lia. done.
Qed.

Lemma mem_acquire_lookup p bs m a :
  mem_acquire p bs m !! a =
    if decide (p ≤ a < p + Z.of_nat (length bs)) then bs !! Z.to_nat (a - p) else m !! a.
Proof.
  revert p. induction bs as [|b bs IH]; intros p; simpl.
  - by rewrite decide_False by lia.
  - destruct (decide (a = p)) as [->|Hne].
    + rewrite lookup_insert_eq, decide_True by lia. by rewrite Z.sub_diag.
    + rewrite lookup_insert_ne, IH by done. repeat case_decide; try lia; [|done].
      replace (Z.to_nat (a - p)) with (S (Z.to_nat (a - (p + 1)))) by lia. done.
Qed.

Lemma release_outside base n m a : a < base ∨ base + n ≤ a → mem_release base n m !! a = m !! a.
Proof.
  intros Ha. unfold mem_release. destruct (base =? 0); [done|].
  destruct (m !! a) as [v|] eqn:Hv.
  - apply map_lookup_filter_Some. split; [done|]. simpl. lia.
  - apply map_lookup_filter_None. by left.
Qed.

Lemma mem_load_allocated m p n :
  allocated m p n → ∃ bs, mem_load m p n = Some bs.
Proof.
  intros Hal. unfold mem_load. apply mapM_is_Some. apply Forall_seqZ. intros i Hi.
  apply Hal. lia.
Qed.

Lemma length_mem_load m p n bs : 0 ≤ n → mem_load m p n = Some bs → Z.of_nat (length bs) = n.
Proof. intros Hn H. by apply mem_load_run in H as [? _]. Qed.

(** Two memories that agree on a range load the same bytes from it. *)
Lemma mem_load_agree m m' p n :
  (∀ a, p ≤ a < p + n → m' !! a = m !! a) → mem_load m' p n = mem_load m p n.
Proof.
  intros H. unfold mem_load.
  assert (∀ l, Forall (λ i, p ≤ p + i < p + n) l →
     mapM (λ i, m' !! (p + i)) l = mapM (λ i, m !! (p + i)) l) as Hm.
  { induction 1 as [|i l Hi _ IH]; [done|]. simpl. by rewrite H, IH by lia. }
  apply Hm. apply Forall_seqZ. lia.
Qed.

(** The whole effect of a store: the range holds the bytes, the rest is kept. *)
Lemma mem_store_effect m p bs :
  allocated m p (Z.of_nat (length bs)) →
  ∃ m', mem_store m p bs = Some m' ∧
    mem_load m' p (Z.of_nat (length bs)) = Some bs ∧
    (∀ a, a < p ∨ p + Z.of_nat (length bs) ≤ a → m' !! a = m !! a) ∧
    (∀ q n, allocated m q n → allocated m' q n).
Proof.
  intros Hal. destruct (mem_store_run m p bs Hal) as (m' & Hs & Hl).
  exists m'. split_and!; [done|..].
  - apply mem_load_run; [lia|]. split; [done|]. intros i Hi.
    rewrite Hl, decide_True by lia. f_equal. lia.
  - intros a Ha. rewrite Hl, decide_False by lia. done.
  - intros q n Hq a Ha. rewrite Hl. case_decide; [|by apply Hq].
    apply lookup_lt_is_Some. lia.
Qed.

Lemma mem_load_app m p n1 n2 bs1 bs2 :
  0 ≤ n1 → 0 ≤ n2 → mem_load m p n1 = Some bs1 → mem_load m (p + n1) n2 = Some bs2 →
  mem_load m p (n1 + n2) = Some (bs1 ++ bs2).
Proof.
  intros H1 H2 Hl1 Hl2. apply mem_load_run in Hl1 as [Hn1 Hl1]; [|lia].
  apply mem_load_run in Hl2 as [Hn2 Hl2]; [|lia].
  apply mem_load_run; [lia|]. rewrite length_app. split; [lia|]. intros i Hi.
  destruct (decide (Z.of_nat i < n1)).
  - rewrite lookup_app_l by lia. by apply Hl1.
  - rewrite lookup_app_r by lia. rewrite <- Hl2 by lia. f_equal. lia.
Qed.

(** ** Byte-order lemmas *)

Definition is_byte (b : Z) : Prop := 0 ≤ b < 256.

Lemma length_le_split n x : length (le_split n x) = n.
Proof. revert x. induction n as [|n IH]; intros x; [done|]. simpl. by rewrite IH. Qed.

Lemma le_split_bytes n x : Forall is_byte (le_split n x).
Proof.
  revert x. induction n as [|n IH]; intros x; simpl; constructor; [|done].
  apply Z.mod_pos_bound. lia.
Qed.

Lemma le_combine_split n x : le_combine (le_split n x) = x mod 256 ^ Z.of_nat n.
Proof.
  revert x. induction n as [|n IH]; intros x.
  - by rewrite Z.mod_1_r.
  - simpl le_combine. rewrite IH, Nat2Z.inj_succ, Z.pow_succ_r by lia.
    assert (0 < 256 ^ Z.of_nat n) by (apply Z.pow_pos_nonneg; lia).
    rewrite Z.rem_mul_r by lia. lia.
Qed.

Lemma le_split_combine bs : Forall is_byte bs → le_split (length bs) (le_combine bs) = bs.
Proof.
  induction 1 as [|b bs Hb _ IH]; [done|]. simpl. unfold is_byte in Hb.
  rewrite (Z.mul_comm 256), Z.mod_add, Z.mod_small by lia. f_equal.
  rewrite Z.div_add, Z.div_small by lia. by rewrite Z.add_0_l.
Qed.

Lemma le_combine_bound bs :
  Forall is_byte bs → 0 ≤ le_combine bs < 256 ^ Z.of_nat (length bs).
Proof.
  intros H. pose proof (le_combine_split (length bs) (le_combine bs)) as Hm.
  rewrite le_split_combine in Hm by done. rewrite Hm.
  apply Z.mod_pos_bound, Z.pow_pos_nonneg; lia.
Qed.

Lemma length_be_split n x : length (be_split n x) = n.
Proof. unfold be_split. by rewrite length_rev, length_le_split. Qed.

Lemma be_split_bytes n x : Forall is_byte (be_split n x).
Proof. unfold be_split. apply Forall_rev, le_split_bytes. Qed.

Lemma be_combine_split n x : be_combine (be_split n x) = x mod 256 ^ Z.of_nat n.
Proof. unfold be_combine, be_split. by rewrite rev_involutive, le_combine_split. Qed.

Section Order.
Context `{Host}.

Lemma split_bswap n x : le_split n (bswap n x) = be_split n x.
Proof.
  unfold bswap, be_split. rewrite <- (length_le_split n x) at 1. rewrite <- length_rev.
  apply le_split_combine, Forall_rev, le_split_bytes.
Qed.

(** Storing a value converted to network order writes its big-endian bytes. *)
Lemma obj_bytes_hton n x :
  obj_bytes n (if aws_is_big_endian then x else bswap n x) = be_split n x.
Proof. unfold obj_bytes. destruct aws_is_big_endian; [done|apply split_bswap]. Qed.

(** Loading big-endian bytes and converting to host order gives the value. *)
Lemma ntoh_obj_value n bs :
  Forall is_byte bs → length bs = n →
  (if aws_is_big_endian then obj_value bs else bswap n (obj_value bs)) = be_combine bs.
Proof.
  intros Hb <-. unfold obj_value, be_combine, bswap. destruct aws_is_big_endian; [done|].
  by rewrite le_split_combine.
Qed.

End Order.

(** ** The hardened cursor *)

Lemma nospec_mask_value index bound :
  0 ≤ index < W64 → 0 ≤ bound < W64 →
  aws_nospec_mask index bound =
    if (index <? bound) && (index <=? SIZE_MAX / 2) && (bound <=? SIZE_MAX / 2)
    then SIZE_MAX else 0.
Proof.
  intros Hi Hb. unfold aws_nospec_mask. rewrite u64_sub_idemp_l.
  set (t := u64 (bound - index - 1)).
  pose proof (u64_range (bound - index - 1)) as Ht. fold t in Ht.
  change (SIZE_MAX - Z.shiftr SIZE_MAX 1) with (2 ^ 63). change (SIZE_MAX / 2) with (2 ^ 63 - 1).
  set (c := Z.lor (Z.lor index bound) t).
  assert (0 ≤ c) by (unfold c; rewrite !Z.lor_nonneg; lia).
  assert (c < 2 ^ 64).
  { unfold c. rewrite !lor_lt_pow2; rewrite ?Z.lor_nonneg; lia. }
  assert (c < 2 ^ 63 ↔ index < 2 ^ 63 ∧ bound < 2 ^ 63 ∧ t < 2 ^ 63) as Hc.
  { unfold c. rewrite !lor_lt_pow2; rewrite ?Z.lor_nonneg; lia. }
  assert (index < 2 ^ 63 → bound < 2 ^ 63 → t < 2 ^ 63 ↔ index < bound) as Hlt.
  { intros. unfold t, u64. destruct (decide (index < bound)).
    - rewrite Z.mod_small; lia.
    - rewrite <- (Z.mod_unique_pos _ _ (-1) (bound - index - 1 + W64)); lia. }
  destruct (decide (c < 2 ^ 63)) as [Hlo|Hhi].
  - replace ((SIZE_MAX - c) / 2 ^ 63) with 1
      by (apply Z.div_unique with (2 ^ 63 - 1 - c); unfold SIZE_MAX; lia).
    bool_lia. simpl. done.
  - replace ((SIZE_MAX - c) / 2 ^ 63) with 0
      by (symmetry; apply Z.div_small; unfold SIZE_MAX; lia).
    destruct (Z.ltb_spec index bound), (Z.leb_spec index (2 ^ 63 - 1)),
      (Z.leb_spec bound (2 ^ 63 - 1)); simpl; try done. lia.
Qed.

Lemma land_SIZE_MAX x : 0 ≤ x < W64 → Z.land x SIZE_MAX = x.
Proof. intros. change SIZE_MAX with (2 ^ 64 - 1). rewrite land_mask by lia. apply Z.mod_small. lia. Qed.

Definition cursor_ok (c : aws_byte_cursor) : Prop :=
  0 ≤ cur_len c < W64 ∧ 0 ≤ cur_ptr c < W64.

Lemma half_SIZE_MAX : Z.shiftr SIZE_MAX 1 = 9223372036854775807.
Proof. reflexivity. Qed.

Lemma nospec_mask_in index bound :
  0 ≤ index < bound → bound ≤ 9223372036854775807 → aws_nospec_mask index bound = SIZE_MAX.
Proof.
  intros. rewrite nospec_mask_value by lia.
  change (SIZE_MAX / 2) with 9223372036854775807. by bool_lia.
Qed.

Lemma advance_nospec_advance c len :
  cursor_ok c → 0 ≤ len < W64 → cur_len c ≠ 9223372036854775807 →
  aws_byte_cursor_advance_nospec len c = aws_byte_cursor_advance len c.
Proof.
  intros [Hl Hp] Hlen Hne. unfold aws_byte_cursor_advance_nospec, aws_byte_cursor_advance.
  mrun. rewrite half_SIZE_MAX.
  destruct (Z.leb_spec len (cur_len c)), (Z.leb_spec len 9223372036854775807),
    (Z.leb_spec (cur_len c) 9223372036854775807); simpl; bool_lia; simpl;
    rewrite ?orb_true_r; try done.
  rewrite (u64_small (cur_len c + 1)) by lia.
  rewrite nospec_mask_in by lia.
  by rewrite !(land_SIZE_MAX len), (land_SIZE_MAX (cur_ptr c)), (land_SIZE_MAX (cur_len c)) by lia.
Qed.

Lemma advance_run c len :
  cursor_ok c → 0 ≤ len < W64 →
  aws_byte_cursor_advance len c =
    if decide (len ≤ cur_len c ≤ 9223372036854775807)
    then Some ({| cur_ptr := cur_ptr c; cur_len := len |},
               {| cur_ptr := u64 (cur_ptr c + len); cur_len := cur_len c - len |})
    else Some ({| cur_ptr := 0; cur_len := 0 |}, c).
Proof.
  intros [Hl Hp] Hlen. unfold aws_byte_cursor_advance. mrun. rewrite half_SIZE_MAX.
  case_decide.
  - bool_lia. simpl. by rewrite (u64_small (_ - _)) by lia.
  - destruct (Z.ltb_spec 9223372036854775807 (cur_len c)),
      (Z.ltb_spec 9223372036854775807 len), (Z.ltb_spec (cur_len c) len); simpl; (done || lia).
Qed.

(** A read of [len] bytes: the bytes at the cursor and the advanced cursor, or a
    refusal that changes nothing. *)
Lemma cursor_read_run m c len bs :
  cursor_ok c → cur_ptr c ≠ 0 → cur_len c < 9223372036854775807 → 0 ≤ len < W64 →
  (len ≤ cur_len c → mem_load m (cur_ptr c) len = Some bs) →
  aws_byte_cursor_read m len c =
    if decide (len ≤ cur_len c)
    then Some (Some bs, {| cur_ptr := u64 (cur_ptr c + len); cur_len := cur_len c - len |})
    else Some (None, c).
Proof.
  intros Hok Hp Hlim Hlen Hbs. unfold aws_byte_cursor_read.
  unfold mbind at 1, M_bind at 1.
  rewrite advance_nospec_advance, advance_run by (done || lia).
  destruct (decide (len ≤ cur_len c)) as [Hle|Hgt].
  - rewrite decide_True by lia. mrun. rewrite (Hbs Hle). bool_lia. done.
  - rewrite decide_False by lia. done.
Qed.

(** A write of [len] bytes: appended when they fit, refused with no change when
    they do not. *)
Lemma read_src_length m src len bs :
  0 ≤ len → read_src m src len = Some bs → Z.of_nat (length bs) = len.
Proof.
  intros Hl Hr. destruct src as [p|xs]; simpl in Hr; [by apply length_mem_load in Hr|].
  destruct (Z.leb_spec len (Z.of_nat (length xs))); [|done]. injection Hr as <-.
  rewrite length_take. lia.
Qed.

Lemma buf_write_run b m src bs len :
  0 ≤ buf_len b ≤ buf_capacity b → buf_capacity b ≤ 9223372036854775807 →
  0 ≤ buf_buffer b → buf_buffer b + buf_capacity b < W64 →
  0 ≤ len < W64 → 
  (len ≤ buf_capacity b - buf_len b → read_src m src len = Some bs ∧ Z.of_nat (length bs) = len) →
  allocated m (buf_buffer b) (buf_capacity b) →
  if decide (len ≤ buf_capacity b - buf_len b)
  then ∃ m', aws_byte_buf_write src len (b, m) =
               Some (true, (set_buf_len (buf_len b + len) b, m')) ∧
         mem_load m' (buf_buffer b + buf_len b) len = Some bs ∧
         (∀ a, a < buf_buffer b + buf_len b ∨ buf_buffer b + buf_len b + len ≤ a → m' !! a = m !! a) ∧
         (∀ q n, allocated m q n → allocated m' q n)
  else aws_byte_buf_write src len (b, m) = Some (false, (b, m)).
Proof.
  intros Hl Hcap Hp Hend Hlen Hsrc Hal. unfold aws_byte_buf_write. mrun. rewrite half_SIZE_MAX.
  destruct (Z.ltb_spec 9223372036854775807 len) as [Hbig|Hsmall].
  { rewrite decide_False by lia. rewrite orb_true_r. done. }
  rewrite (proj2 (Z.ltb_ge _ _)) by lia. rewrite !(u64_small (buf_len b + len)) by lia. simpl.
  case_decide as Hfit.
  - destruct (Hsrc Hfit) as [Hbs Hn]. rewrite u64_small by lia. bool_lia. rewrite Hbs.
    destruct (mem_store_effect m (buf_buffer b + buf_len b) bs) as (m' & Hs & Hld & Hother & Hal').
    { rewrite Hn. intros a Ha. apply Hal. lia. }
    rewrite Hs. exists m'. rewrite Hn in *. done.
  - by bool_lia.
Qed.

(** The hardened advance used by every cursor read agrees with the plain one on every
    cursor, except that a cursor of exactly [SIZE_MAX / 2] bytes is emptied (the
    mask is computed from [len + 1], which is then above the limit) where the
    plain advance succeeds. *)
Theorem nospec_agrees_with_advance c len :
  cursor_ok c → 0 ≤ len < W64 →
  (cur_len c ≠ 9223372036854775807 →
     aws_byte_cursor_advance_nospec len c = aws_byte_cursor_advance len c) ∧
  (cur_len c = 9223372036854775807 → len ≤ cur_len c →
     aws_byte_cursor_advance_nospec len c =
       Some ({| cur_ptr := 0; cur_len := 0 |}, {| cur_ptr := 0; cur_len := 0 |})).
Proof.
  intros Hok Hlen. split; [by apply advance_nospec_advance|]. destruct Hok as [_ Hp].
  intros He Hle. unfold aws_byte_cursor_advance_nospec. mrun. rewrite half_SIZE_MAX, He.
  bool_lia. simpl. rewrite (u64_small (_ + 1)), nospec_mask_value by lia.
  change (9223372036854775807 + 1 <=? SIZE_MAX / 2) with false. rewrite andb_false_r.
  by rewrite !Z.land_0_r.
Qed.

Lemma nospec_agrees_with_advance_witness :
  aws_byte_cursor_advance_nospec 4 {| cur_len := 9; cur_ptr := 4096 |} =
    aws_byte_cursor_advance 4 {| cur_len := 9; cur_ptr := 4096 |} ∧
  aws_byte_cursor_advance_nospec 4 {| cur_len := 9223372036854775807; cur_ptr := 4096 |} =
    Some ({| cur_ptr := 0; cur_len := 0 |}, {| cur_ptr := 0; cur_len := 0 |}).
Proof.
  split.
  - apply (nospec_agrees_with_advance {| cur_len := 9; cur_ptr := 4096 |} 4);
      unfold cursor_ok; simpl; lia.
  - apply (nospec_agrees_with_advance {| cur_len := 9223372036854775807; cur_ptr := 4096 |} 4);
      unfold cursor_ok; simpl; lia.
Defined.
