(* ===== verification/Buffer.v ===== *)
(** The library's byte buffer: src/buffer.c and include/tn/buffer.h.

    A [tn_buffer_t] pairs a write position ([buf], the aws byte buffer) with a read
    cursor ([pos]) over the same block of memory.  The file gives every operation
    of buffer.c, an invariant (the cursor ends exactly where the written bytes
    end) that they keep, and the contract of a byte stream: writes append to the
    unread bytes, reads take from their front. *)
From stdpp Require Import base numbers list option gmap.
From Stdlib Require Import ZArith Lia.
From S2P Require Import Prelude ByteBuf.

Local Open Scope Z_scope.
Local Open Scope c_scope.

Record tn_buffer_span_t := {
  span_len : Z;
  span_ptr : Z;
}.

(** [pool] is the address of the owning pool; [capacity] is the member of that
    name, which no function of buffer.c writes. *)
Record tn_buffer_t := {
  pool : ptr Z;
  buf : aws_byte_buf;
  pos : aws_byte_cursor;
  capacity : Z;
}.

Definition set_pool (p : ptr Z) (b : tn_buffer_t) : tn_buffer_t :=
  {| pool := p; buf := buf b; pos := pos b; capacity := capacity b |}.
Definition set_buf (x : aws_byte_buf) (b : tn_buffer_t) : tn_buffer_t :=
  {| pool := pool b; buf := x; pos := pos b; capacity := capacity b |}.
Definition set_pos (x : aws_byte_cursor) (b : tn_buffer_t) : tn_buffer_t :=
  {| pool := pool b; buf := buf b; pos := x; capacity := capacity b |}.
Definition set_pos_len (n : Z) (b : tn_buffer_t) : tn_buffer_t :=
  set_pos {| cur_len := n; cur_ptr := cur_ptr (pos b) |} b.

(** The object and the memory it points into. *)
Abbreviation bstate := (tn_buffer_t * mem)%type.

(** Calls on [&buffer->pos] and [&buffer->buf]. *)
Definition on_pos {A} (f : mem → M aws_byte_cursor A) : M bstate A := λ s,
  match f s.2 (pos s.1) with Some (a, c) => Some (a, (set_pos c s.1, s.2)) | None => None end.
Definition on_buf {A} (f : M (aws_byte_buf * mem) A) : M bstate A := λ s,
  match f (buf s.1, s.2) with Some (a, (x, m)) => Some (a, (set_buf x s.1, m)) | None => None end.
Definition modify_buffer (f : tn_buffer_t → tn_buffer_t) : M bstate unit :=
  modify (λ s, (f s.1, s.2)).

(** ** Operations *)

Definition tn_buffer_setup (src capacity : Z) : M bstate Z :=
  TN_ASSERT (negb (src =? 0) && negb (capacity =? 0));;
  modify_buffer (set_pool NULL);;
  modify_buffer (set_buf (aws_byte_buf_from_empty_array src capacity));;
  modify_buffer (λ b, set_pos (aws_byte_cursor_from_buf (buf b)) b);;
  mret TN_SUCCESS.

(** [dst_buffer] is an address the bytes are copied to. *)
Definition tn_buffer_read (dst_buffer len : Z) : M bstate Z :=
  TN_ASSERT (negb (dst_buffer =? 0));;
  r ← on_pos (λ m, aws_byte_cursor_read m len);
  match r with
  | None => mret TN_ERROR
  | Some bs =>
      s ← get; m' ← lift (mem_store s.2 dst_buffer bs); put (s.1, m');;
      mret TN_SUCCESS
  end.

Definition tn_buffer_read_seek (span : tn_buffer_span_t) : M bstate Z :=
  s ← get;
  TN_ASSERT (negb (span_ptr span =? 0) && negb (span_len span =? 0));;
  TN_ASSERT (u64 (span_ptr span + span_len span)
             <? u64 (buf_buffer (buf s.1) + buf_capacity (buf s.1)));;
  modify_buffer (set_pos {| cur_ptr := span_ptr span; cur_len := span_len span |});;
  mret TN_SUCCESS.

Definition tn_buffer_read_skip (len : Z) : M bstate Z :=
  span ← on_pos (λ _, aws_byte_cursor_advance len);
  mret (if negb (cur_ptr span =? 0) && negb (cur_len span =? 0) then TN_SUCCESS else TN_ERROR).

Section Host.
Context `{Host}.

(** The typed reads return the code and the out parameter ([None]: not written). *)
Definition read_with (f : mem → M aws_byte_cursor (option Z)) : M bstate (Z * option Z) :=
  r ← on_pos f;
  mret (match r with None => (TN_ERROR, None) | Some v => (TN_SUCCESS, Some v) end).

Definition tn_buffer_read_u8 : M bstate (Z * option Z) := read_with aws_byte_cursor_read_u8.
Definition tn_buffer_read_be16 : M bstate (Z * option Z) := read_with aws_byte_cursor_read_be16.
Definition tn_buffer_read_be32 : M bstate (Z * option Z) := read_with aws_byte_cursor_read_be32.
Definition tn_buffer_read_be64 : M bstate (Z * option Z) := read_with aws_byte_cursor_read_be64.

(** The common shape of the writes: [sz] is what is added to [pos.len]. *)
Definition write_with (f : M (aws_byte_buf * mem) bool) (sz : Z) : M bstate Z :=
  ok ← on_buf f;
  if negb ok then mret TN_ERROR
  else
    modify_buffer (λ b, set_pos_len (u64 (cur_len (pos b) + sz)) b);;
    mret TN_SUCCESS.

Definition tn_buffer_write (src_buffer : source) (len : Z) : M bstate Z :=
  write_with (aws_byte_buf_write src_buffer len) len.
Definition tn_buffer_write_u8 (val : Z) : M bstate Z :=
  write_with (aws_byte_buf_write_u8 val) 1.
Definition tn_buffer_write_be16 (val : Z) : M bstate Z :=
  write_with (aws_byte_buf_write_be16 val) 2.
Definition tn_buffer_write_be32 (val : Z) : M bstate Z :=
  write_with (aws_byte_buf_write_be32 val) 4.
Definition tn_buffer_write_be64 (val : Z) : M bstate Z :=
  write_with (aws_byte_buf_write_be64 val) 8.

(** The state is the destination; the source is only read. *)
Definition tn_buffer_read_buffer (buffer : tn_buffer_t) (len : Z) : M bstate Z :=
  let go len := TN_GUARD (tn_buffer_write (SrcPtr (cur_ptr (pos buffer))) len) THEN mret TN_SUCCESS in
  if len =? 0 then go (cur_len (pos buffer))
  else if cur_len (pos buffer) <? len then mret TN_ERROR
  else go len.

Definition tn_buffer_write_buffer (src_buffer : tn_buffer_t) (len : Z) : M bstate Z :=
  tn_buffer_read_buffer src_buffer len.

End Host.

Definition tn_buffer_read_reset : M bstate unit :=
  modify_buffer (λ b, set_pos {| cur_ptr := buf_buffer (buf b); cur_len := buf_len (buf b) |} b).

Definition tn_buffer_write_reset : M bstate unit :=
  modify_buffer (λ b, set_buf (set_buf_len 0 (buf b)) b);;
  tn_buffer_read_reset.

Definition tn_buffer_reset : M bstate unit := tn_buffer_write_reset.

Definition tn_buffer_length : M bstate Z := gets (λ s, buf_len (buf s.1)).
Definition tn_buffer_read_length : M bstate Z := gets (λ s, cur_len (pos s.1)).

Definition tn_buffer_set_length (len : Z) : M bstate Z :=
  s ← get;
  TN_GUARD_IF (u64 (buf_capacity (buf s.1) - buf_len (buf s.1)) <? len) THEN
  modify_buffer (λ b, set_buf (set_buf_len len (buf b)) b);;
  modify_buffer (set_pos_len len);;
  mret TN_SUCCESS.

Definition tn_buffer_add_length (len : Z) : M bstate Z :=
  s ← get;
  TN_GUARD_IF (u64 (buf_capacity (buf s.1) - buf_len (buf s.1)) <? len) THEN
  modify_buffer (λ b, set_buf (set_buf_len (u64 (buf_len (buf b) + len)) (buf b)) b);;
  modify_buffer (λ b, set_pos_len (u64 (cur_len (pos b) + len)) b);;
  mret TN_SUCCESS.

Definition tn_buffer_remaining : M bstate Z :=
  gets (λ s, u64 (buf_capacity (buf s.1) - buf_len (buf s.1))).

(** [buffer->pool->block_size]; [block_size_of] reads the pool at an address. *)
Definition tn_buffer_capacity (block_size_of : Z → option Z) : M bstate Z :=
  s ← get; p ← lift (pool s.1); lift (block_size_of p).

Definition tn_buffer_write_ptr : M bstate Z :=
  gets (λ s, u64 (buf_buffer (buf s.1) + buf_len (buf s.1))).
Definition tn_buffer_read_ptr : M bstate Z := gets (λ s, cur_ptr (pos s.1)).

(** ** Invariant and abstraction *)

(** Largest block the cursor arithmetic supports. *)
Abbreviation MAX_BLOCK := 9223372036854775806 (only parsing).

(** The block is allocated, the written bytes are inside it and the read cursor
    runs up to the end of the written bytes. *)
Record buffer_wf (b : tn_buffer_t) (m : mem) : Prop := {
  bwf_addr : 0 < buf_buffer (buf b) ∧ buf_buffer (buf b) + buf_capacity (buf b) < W64;
  bwf_cap : buf_capacity (buf b) ≤ MAX_BLOCK;
  bwf_len : 0 ≤ buf_len (buf b) ≤ buf_capacity (buf b);
  bwf_pos : buf_buffer (buf b) ≤ cur_ptr (pos b);
  bwf_pos_len : 0 ≤ cur_len (pos b);
  bwf_end : cur_ptr (pos b) + cur_len (pos b) = buf_buffer (buf b) + buf_len (buf b);
  bwf_alloc : allocated m (buf_buffer (buf b)) (buf_capacity (buf b));
}.

(** The bytes written and not yet read. *)
Definition unread (s : bstate) : option (list Z) :=
  mem_load s.2 (cur_ptr (pos s.1)) (cur_len (pos s.1)).

(** Free space. *)
Definition room (b : tn_buffer_t) : Z := buf_capacity (buf b) - buf_len (buf b).

(** Memory outside a block is the same. *)
Definition same_outside (p n : Z) (m m' : mem) : Prop :=
  ∀ a, a < p ∨ p + n ≤ a → m' !! a = m !! a.

(** ** Lemmas *)

Section Facts.

Lemma unread_total b m : buffer_wf b m → ∃ u, unread (b, m) = Some u ∧ Z.of_nat (length u) = cur_len (pos b).
Proof.
  intros Hwf. destruct (mem_load_allocated m (cur_ptr (pos b)) (cur_len (pos b))) as [u Hu].
  - intros a Ha. apply (bwf_alloc b m Hwf). destruct Hwf. lia.
  - exists u. split; [done|]. apply length_mem_load in Hu; [done|apply Hwf].
Qed.

Lemma unread_length b m u :
  buffer_wf b m → unread (b, m) = Some u → Z.of_nat (length u) = cur_len (pos b).
Proof. intros Hwf Hu. apply length_mem_load in Hu; [done|apply Hwf]. Qed.

Lemma room_bounds b m : buffer_wf b m → 0 ≤ room b ≤ MAX_BLOCK.
Proof. intros []. unfold room. lia. Qed.

(** What a successful write of [bs] does. *)
Record written (b : tn_buffer_t) (m : mem) (bs : list Z) (b' : tn_buffer_t) (m' : mem) : Prop := {
  wr_wf : buffer_wf b' m';
  wr_pool : pool b' = pool b;
  wr_buffer : buf_buffer (buf b') = buf_buffer (buf b);
  wr_capacity : buf_capacity (buf b') = buf_capacity (buf b);
  wr_len : buf_len (buf b') = buf_len (buf b) + Z.of_nat (length bs);
  wr_cursor : cur_ptr (pos b') = cur_ptr (pos b);
  wr_unread : ∀ u, unread (b, m) = Some u → unread (b', m') = Some (u ++ bs);
  wr_outside : same_outside (buf_buffer (buf b)) (buf_capacity (buf b)) m m';
  wr_alloc : ∀ q n, allocated m q n → allocated m' q n;
}.

Lemma write_run b m src bs len :
  buffer_wf b m → 0 ≤ len < W64 →
  (len ≤ room b → read_src m src len = Some bs ∧ Z.of_nat (length bs) = len) →
  if decide (len ≤ room b)
  then ∃ b' m', tn_buffer_write src len (b, m) = Some (TN_SUCCESS, (b', m')) ∧ written b m bs b' m'
  else tn_buffer_write src len (b, m) = Some (TN_ERROR, (b, m)).
Proof.
  intros Hwf Hlen Hsrc. pose proof Hwf as []. unfold room in *.
  pose proof (buf_write_run (buf b) m src bs len ltac:(lia) ltac:(lia) ltac:(lia) ltac:(lia)
    Hlen Hsrc bwf_alloc0) as Hrun.
  unfold tn_buffer_write, write_with, on_buf. case_decide as Hfit.
  - destruct (Hsrc Hfit) as [_ Hn].
    destruct Hrun as (m' & Hr & Hld & Hout & Hal).
    eexists _, m'. split.
    { unfold mbind, M_bind. cbn [fst snd]. rewrite Hr. reflexivity. }
    rewrite u64_small by (simpl; lia). split; simpl; try done.
    + split; simpl; try done; try lia. by apply Hal.
    + lia.
    + intros u Hu. unfold unread in *; simpl in *.
      apply mem_load_app; [lia|lia| |].
      * rewrite <- Hu. apply mem_load_agree. intros a Ha. apply Hout. lia.
      * by rewrite bwf_end0.
    + intros a Ha. apply Hout. lia.
  - unfold mbind, M_bind. cbn [fst snd]. rewrite Hrun. mrun. by destruct b.
Qed.

(** What a successful read of [n] bytes leaves. *)
Definition consumed (n : Z) (b : tn_buffer_t) : tn_buffer_t :=
  set_pos {| cur_ptr := cur_ptr (pos b) + n; cur_len := cur_len (pos b) - n |} b.

Lemma consumed_wf b m n :
  buffer_wf b m → 0 ≤ n ≤ cur_len (pos b) → buffer_wf (consumed n b) m.
Proof. intros [] Hn. split; simpl; try done; lia. Qed.

Lemma consumed_unread b m n u :
  buffer_wf b m → 0 ≤ n ≤ cur_len (pos b) → unread (b, m) = Some u →
  mem_load m (cur_ptr (pos b)) n = Some (take (Z.to_nat n) u) ∧
  unread (consumed n b, m) = Some (drop (Z.to_nat n) u).
Proof.
  intros Hwf Hn Hu. unfold unread in *. simpl in *.
  pose proof (bwf_pos_len _ _ Hwf).
  apply mem_load_run in Hu as [Hl Hu]; [|lia]. split; apply mem_load_run; try lia.
  - split; [rewrite length_take; lia|]. intros i Hi. rewrite lookup_take, decide_True by lia.
    apply Hu. lia.
  - split; [rewrite length_drop; lia|]. intros i Hi. rewrite lookup_drop.
    rewrite <- Hu by lia. f_equal. lia.
Qed.

Lemma on_pos_read_run b m n u :
  buffer_wf b m → 0 ≤ n < W64 → unread (b, m) = Some u →
  on_pos (λ m, aws_byte_cursor_read m n) (b, m) =
    if decide (n ≤ Z.of_nat (length u))
    then Some (Some (take (Z.to_nat n) u), (consumed n b, m))
    else Some (None, (b, m)).
Proof.
  intros Hwf Hn Hu. pose proof (unread_length b m u Hwf Hu) as Hl. pose proof Hwf as [].
  unfold on_pos. cbn [fst snd].
  rewrite (cursor_read_run m (pos b) n (take (Z.to_nat n) u)); try lia.
  - rewrite Hl. case_decide; [|by destruct b].
    unfold consumed. by rewrite u64_small by lia.
  - split; lia.
  - intros Hle. by apply (consumed_unread b m n u Hwf ltac:(lia) Hu).
Qed.

Lemma skip_run b m n u :
  buffer_wf b m → 0 ≤ n < W64 → unread (b, m) = Some u →
  tn_buffer_read_skip n (b, m) =
    if decide (n ≤ Z.of_nat (length u))
    then Some (if n =? 0 then TN_ERROR else TN_SUCCESS, (consumed n b, m))
    else Some (TN_ERROR, (b, m)).
Proof.
  intros Hwf Hn Hu. pose proof (unread_length b m u Hwf Hu) as Hl. pose proof Hwf as [].
  unfold tn_buffer_read_skip, on_pos. unfold mbind, M_bind. cbn [fst snd].
  rewrite advance_run by (split; lia || lia). rewrite Hl.
  destruct (decide (n ≤ cur_len (pos b))).
  - rewrite decide_True by lia. simpl. rewrite u64_small by lia.
    rewrite (proj2 (Z.eqb_neq (cur_ptr _) _)) by lia. simpl. by destruct (n =? 0).
  - rewrite decide_False by lia. by destruct b.
Qed.

End Facts.

(** ** Typed values on the wire *)

(** An unsigned value with the width it is written at. *)
Inductive wire := WU8 (x : Z) | WBE16 (x : Z) | WBE32 (x : Z) | WBE64 (x : Z).

Definition wire_width (w : wire) : nat :=
  match w with WU8 _ => 1 | WBE16 _ => 2 | WBE32 _ => 4 | WBE64 _ => 8 end.
Definition wire_val (w : wire) : Z :=
  match w with WU8 x | WBE16 x | WBE32 x | WBE64 x => x end.
Definition wire_ok (w : wire) : Prop := 0 ≤ wire_val w < 256 ^ Z.of_nat (wire_width w).
Definition wire_bytes (w : wire) : list Z := be_split (wire_width w) (wire_val w).

Definition write_wire `{Host} (w : wire) : M bstate Z :=
  match w with
  | WU8 x => tn_buffer_write_u8 x
  | WBE16 x => tn_buffer_write_be16 x
  | WBE32 x => tn_buffer_write_be32 x
  | WBE64 x => tn_buffer_write_be64 x
  end.

(** Reads a value of the width of [w]. *)
Definition read_wire `{Host} (w : wire) : M bstate (Z * option Z) :=
  match w with
  | WU8 _ => tn_buffer_read_u8
  | WBE16 _ => tn_buffer_read_be16
  | WBE32 _ => tn_buffer_read_be32
  | WBE64 _ => tn_buffer_read_be64
  end.

Fixpoint write_wires `{Host} (ws : list wire) : M bstate (list Z) :=
  match ws with
  | [] => mret []
  | w :: ws => r ← write_wire w; rs ← write_wires ws; mret (r :: rs)
  end.

Fixpoint read_wires `{Host} (ws : list wire) : M bstate (list (Z * option Z)) :=
  match ws with
  | [] => mret []
  | w :: ws => r ← read_wire w; rs ← read_wires ws; mret (r :: rs)
  end.

Definition wires_bytes (ws : list wire) : list Z := mjoin (wire_bytes <$> ws).

Section Wire.

Lemma length_wire_bytes w : length (wire_bytes w) = wire_width w.
Proof. apply length_be_split. Qed.

Lemma wire_bytes_are_bytes w : Forall is_byte (wire_bytes w).
Proof. apply be_split_bytes. Qed.

Lemma write_wire_eq `{Host} w s :
  write_wire w s = tn_buffer_write (SrcBytes (wire_bytes w)) (Z.of_nat (wire_width w)) s.
Proof.
  destruct w; simpl;
    unfold tn_buffer_write_u8, tn_buffer_write_be16, tn_buffer_write_be32, tn_buffer_write_be64,
      aws_byte_buf_write_u8, aws_byte_buf_write_be16, aws_byte_buf_write_be32,
      aws_byte_buf_write_be64, aws_hton16, aws_hton32, aws_hton64, wire_bytes;
    cbn [wire_width wire_val]; try (by rewrite obj_bytes_hton).
  unfold obj_bytes, be_split. destruct aws_is_big_endian; reflexivity.
Qed.

Lemma write_wire_run `{Host} w b m :
  buffer_wf b m →
  if decide (Z.of_nat (wire_width w) ≤ room b)
  then ∃ b' m', write_wire w (b, m) = Some (TN_SUCCESS, (b', m')) ∧ written b m (wire_bytes w) b' m'
  else write_wire w (b, m) = Some (TN_ERROR, (b, m)).
Proof.
  intros Hwf. pose proof (length_wire_bytes w) as Hlen. rewrite write_wire_eq.
  apply write_run; [done|destruct w; simpl; lia|]. intros _.
  unfold read_src. bool_lia. rewrite take_ge by lia. split; [done|lia].
Qed.

Lemma read_with_run n (g : list Z → Z) b m bs b' m' :
  on_pos (λ m, aws_byte_cursor_read m n) (b, m) = Some (Some bs, (b', m')) →
  read_with (λ m, r ← aws_byte_cursor_read m n; mret (g <$> r)) (b, m) =
    Some ((TN_SUCCESS, Some (g bs)), (b', m')).
Proof.
  intros Hr. unfold read_with, on_pos, mbind, M_bind in *. cbn [fst snd] in *.
  destruct (aws_byte_cursor_read m n (pos b)) as [[r c]|]; [|done]. by injection Hr as -> <- <-.
Qed.

Lemma read_wire_run `{Host} w b m u :
  buffer_wf b m → unread (b, m) = Some (wire_bytes w ++ u) → wire_ok w →
  read_wire w (b, m) = Some ((TN_SUCCESS, Some (wire_val w)),
                             (consumed (Z.of_nat (wire_width w)) b, m)) ∧
  buffer_wf (consumed (Z.of_nat (wire_width w)) b) m ∧
  unread (consumed (Z.of_nat (wire_width w)) b, m) = Some u.
Proof.
  intros Hwf Hu Hok. pose proof (length_wire_bytes w) as Hlen.
  pose proof (wire_bytes_are_bytes w) as Hb.
  pose proof (unread_length _ _ _ Hwf Hu) as Hl. rewrite length_app in Hl.
  pose proof (on_pos_read_run b m (Z.of_nat (wire_width w)) _ Hwf ltac:(destruct w; simpl; lia) Hu) as Hr.
  rewrite decide_True in Hr by (rewrite length_app; lia).
  rewrite Nat2Z.id, take_app_length' in Hr by done.
  assert (be_combine (wire_bytes w) = wire_val w) as Hv.
  { unfold wire_bytes. rewrite be_combine_split. by apply Z.mod_small. }
  split; [|split].
  - rewrite <- Hv. destruct w; cbn [read_wire wire_width] in *.
    + etrans; [apply (read_with_run 1 obj_value _ _ _ _ _ Hr)|]. do 4 f_equal.
      unfold obj_value, be_combine, wire_bytes. destruct aws_is_big_endian; reflexivity.
    + etrans; [apply (read_with_run 2 (aws_ntoh16 ∘ obj_value) _ _ _ _ _ Hr)|].
      do 4 f_equal. by apply ntoh_obj_value.
    + etrans; [apply (read_with_run 4 (aws_ntoh32 ∘ obj_value) _ _ _ _ _ Hr)|].
      do 4 f_equal. by apply ntoh_obj_value.
    + etrans; [apply (read_with_run 8 (aws_ntoh64 ∘ obj_value) _ _ _ _ _ Hr)|].
      do 4 f_equal. by apply ntoh_obj_value.
  - apply consumed_wf; [done|lia].
  - destruct (consumed_unread b m (Z.of_nat (wire_width w)) _ Hwf ltac:(lia) Hu) as [_ ->].
    by rewrite Nat2Z.id, drop_app_length'.
Qed.

Definition with_val (x : Z) (w : wire) : wire :=
  match w with WU8 _ => WU8 x | WBE16 _ => WBE16 x | WBE32 _ => WBE32 x | WBE64 _ => WBE64 x end.

(** A typed read takes the big-endian value at the front, or fails and keeps the
    buffer when there are too few bytes. *)
Lemma read_wire_total `{Host} w b m u :
  buffer_wf b m → unread (b, m) = Some u → Forall is_byte u →
  read_wire w (b, m) =
    if decide (wire_width w ≤ length u)%nat
    then Some ((TN_SUCCESS, Some (be_combine (take (wire_width w) u))),
               (consumed (Z.of_nat (wire_width w)) b, m))
    else Some ((TN_ERROR, None), (b, m)).
Proof.
  intros Hwf Hu Hb. case_decide as Hle.
  - set (v := be_combine (take (wire_width w) u)).
    assert (Forall is_byte (rev (take (wire_width w) u))) as Hbt by by apply Forall_rev, Forall_take.
    assert (length (rev (take (wire_width w) u)) = wire_width w) as Hlt
      by (rewrite length_rev, length_take; lia).
    assert (wire_bytes (with_val v w) = take (wire_width w) u) as Hwb.
    { etrans; [|apply rev_involutive].
      replace (wire_bytes (with_val v w)) with (be_split (wire_width w) v) by by destruct w.
      unfold be_split, v, be_combine. f_equal. rewrite <- Hlt at 1. by apply le_split_combine. }
    pose proof (le_combine_bound _ Hbt) as Hv. rewrite Hlt in Hv.
    destruct (read_wire_run (with_val v w) b m (drop (wire_width w) u)) as [Hr _].
    + done.
    + by rewrite Hwb, take_drop.
    + unfold wire_ok. by destruct w.
    + by destruct w.
  - pose proof (unread_length b m u Hwf Hu).
    pose proof (on_pos_read_run b m (Z.of_nat (wire_width w)) u Hwf ltac:(destruct w; simpl; lia) Hu) as Hr.
    rewrite decide_False in Hr by lia.
    destruct w; simpl in *; unfold tn_buffer_read_u8, tn_buffer_read_be16, tn_buffer_read_be32,
      tn_buffer_read_be64, read_with, aws_byte_cursor_read_u8, aws_byte_cursor_read_be16,
      aws_byte_cursor_read_be32, aws_byte_cursor_read_be64, on_pos in *; mrun; simpl in Hr;
      destruct (aws_byte_cursor_read _ _ _) as [[r c]|]; (done || by injection Hr as -> ->).
Qed.

Lemma length_wires_bytes_cons w ws :
  length (wires_bytes (w :: ws)) = (wire_width w + length (wires_bytes ws))%nat.
Proof. unfold wires_bytes. simpl. by rewrite length_app, length_wire_bytes. Qed.

Lemma write_wires_run `{Host} ws b m u :
  buffer_wf b m → unread (b, m) = Some u → Z.of_nat (length (wires_bytes ws)) ≤ room b →
  ∃ b' m', write_wires ws (b, m) = Some (replicate (length ws) TN_SUCCESS, (b', m')) ∧
    buffer_wf b' m' ∧ unread (b', m') = Some (u ++ wires_bytes ws).
Proof.
  revert b m u. induction ws as [|w ws IH]; intros b m u Hwf Hu Hroom.
  - exists b, m. by rewrite app_nil_r.
  - rewrite length_wires_bytes_cons in Hroom.
    pose proof (write_wire_run w b m Hwf) as Hw. rewrite decide_True in Hw by lia.
    destruct Hw as (b1 & m1 & Hr1 & Hw).
    destruct (IH b1 m1 (u ++ wire_bytes w)) as (b2 & m2 & Hr2 & ? & Hu2).
    + apply Hw.
    + by apply Hw.
    + destruct Hw. unfold room in *. rewrite length_wire_bytes in *. lia.
    + exists b2, m2. cbn [write_wires]. rewrite (bind_Some _ _ _ _ _ Hr1), (bind_Some _ _ _ _ _ Hr2).
      split_and!; [done|done|]. rewrite Hu2. by rewrite <- app_assoc.
Qed.

Lemma read_wires_run `{Host} ws b m u :
  buffer_wf b m → unread (b, m) = Some (wires_bytes ws ++ u) → Forall wire_ok ws →
  ∃ b', read_wires ws (b, m) = Some ((λ w, (TN_SUCCESS, Some (wire_val w))) <$> ws, (b', m)) ∧
    buffer_wf b' m ∧ unread (b', m) = Some u.
Proof.
  intros Hwf Hu Hok. revert b Hwf Hu. induction Hok as [|w ws Hw _ IH]; intros b Hwf Hu.
  - by exists b.
  - unfold wires_bytes in Hu; simpl in Hu. rewrite <- app_assoc in Hu.
    destruct (read_wire_run w b m _ Hwf Hu Hw) as (Hr & Hwf1 & Hu1).
    destruct (IH _ Hwf1 Hu1) as (b2 & Hr2 & ? & ?). exists b2.
    cbn [read_wires]. by rewrite (bind_Some _ _ _ _ _ Hr), (bind_Some _ _ _ _ _ Hr2).
Qed.

End Wire.

(** ** Resets and length changes *)

Section Lengths.

Lemma buffer_setup_run src cap b m :
  0 < src → 0 < cap ≤ MAX_BLOCK → src + cap < W64 → allocated m src cap →
  ∃ b', tn_buffer_setup src cap (b, m) = Some (TN_SUCCESS, (b', m)) ∧
    buffer_wf b' m ∧ pool b' = NULL ∧ buf_buffer (buf b') = src ∧
    buf_capacity (buf b') = cap ∧ room b' = cap ∧ unread (b', m) = Some [].
Proof.
  intros Hs Hc He Hal. unfold tn_buffer_setup. bool_lia. mrun.
  eexists. split; [done|]. split_and!; try done.
  - split; simpl; (done || lia).
  - unfold room. simpl. lia.
Qed.

Lemma reset_run b m :
  buffer_wf b m →
  ∃ b', tn_buffer_reset (b, m) = Some (tt, (b', m)) ∧ buffer_wf b' m ∧
    buf_buffer (buf b') = buf_buffer (buf b) ∧ buf_capacity (buf b') = buf_capacity (buf b) ∧
    pool b' = pool b ∧ room b' = buf_capacity (buf b) ∧ unread (b', m) = Some [].
Proof.
  intros []. unfold tn_buffer_reset, tn_buffer_write_reset, tn_buffer_read_reset, modify_buffer.
  mrun. eexists. split; [done|]. split_and!; try done.
  - split; simpl; (done || lia).
  - unfold room. simpl. lia.
Qed.

(** [add_length] publishes bytes that were received in place. *)
Lemma add_length_run b m n u :
  buffer_wf b m → 0 ≤ n < W64 → unread (b, m) = Some u →
  if decide (n ≤ room b)
  then ∃ b' bs, tn_buffer_add_length n (b, m) = Some (TN_SUCCESS, (b', m)) ∧
         buffer_wf b' m ∧ buf_buffer (buf b') = buf_buffer (buf b) ∧
         buf_capacity (buf b') = buf_capacity (buf b) ∧ pool b' = pool b ∧
         cur_ptr (pos b') = cur_ptr (pos b) ∧
         mem_load m (buf_buffer (buf b) + buf_len (buf b)) n = Some bs ∧
         unread (b', m) = Some (u ++ bs)
  else tn_buffer_add_length n (b, m) = Some (TN_ERROR, (b, m)).
Proof.
  intros Hwf Hn Hu. pose proof Hwf as []. unfold room, tn_buffer_add_length, modify_buffer. mrun.
  rewrite (u64_small (_ - _)) by lia. case_decide as Hfit; bool_lia; [|done].
  destruct (mem_load_allocated m (buf_buffer (buf b) + buf_len (buf b)) n) as [bs Hbs].
  { intros a Ha. apply bwf_alloc0. lia. }
  mrun. rewrite !u64_small by lia. eexists _, bs. split; [done|]. split_and!; try done.
  - split; simpl; (done || lia).
  - unfold unread in *; simpl in *. apply mem_load_app; [lia|lia|done|].
    by rewrite bwf_end0.
Qed.

End Lengths.

(** ** Locality: what a buffer operation promises to the owner of its block *)

(** From [b], [m] to [b'], [m'] the buffer stays well formed over the same block and
    memory outside the block is untouched. *)
Record local_step (b : tn_buffer_t) (m : mem) (b' : tn_buffer_t) (m' : mem) : Prop := {
  ls_wf : buffer_wf b' m';
  ls_pool : pool b' = pool b;
  ls_buffer : buf_buffer (buf b') = buf_buffer (buf b);
  ls_capacity : buf_capacity (buf b') = buf_capacity (buf b);
  ls_outside : same_outside (buf_buffer (buf b)) (buf_capacity (buf b)) m m';
  ls_alloc : ∀ q n, allocated m q n → allocated m' q n;
}.

Class BufferLocal {A} (f : M bstate A) : Prop :=
  buffer_local b m a b' m' :
    buffer_wf b m → f (b, m) = Some (a, (b', m')) → local_step b m b' m'.

Section Local.

Lemma local_step_refl b m : buffer_wf b m → local_step b m b m.
Proof. by split. Qed.

Lemma local_step_trans b1 m1 b2 m2 b3 m3 :
  local_step b1 m1 b2 m2 → local_step b2 m2 b3 m3 → local_step b1 m1 b3 m3.
Proof.
  intros [] []. split; try congruence; [|by auto].
  intros a Ha. rewrite ls_outside1 by congruence. by apply ls_outside0.
Qed.

#[global] Instance local_ret A (a : A) : BufferLocal (mret a).
Proof. intros b m ? ? ? Hwf [= <- <- <-]. by apply local_step_refl. Qed.

#[global] Instance local_bind A B (f : M bstate A) (g : A → M bstate B) :
  BufferLocal f → (∀ a, BufferLocal (g a)) → BufferLocal (f ≫= g).
Proof.
  intros Hf Hg b m a b' m' Hwf. unfold mbind, M_bind.
  destruct (f (b, m)) as [[x [b1 m1]]|] eqn:Hr; [|done]. intros Hr2.
  pose proof (Hf _ _ _ _ _ Hwf Hr) as H1. eapply local_step_trans; [done|].
  eapply Hg; [apply H1|done].
Qed.

#[global] Instance local_reset : BufferLocal tn_buffer_reset.
Proof.
  intros b m a b' m' Hwf Hr. destruct (reset_run b m Hwf) as (b1 & Hr1 & ? & ? & ? & ? & _).
  rewrite Hr1 in Hr. injection Hr as <- <- <-. by split.
Qed.

Lemma written_local b m bs b' m' : written b m bs b' m' → local_step b m b' m'.
Proof. intros []. by split. Qed.

Lemma write_local src len : 0 ≤ len < W64 → BufferLocal (tn_buffer_write src len).
Proof.
  intros Hlen b m a b' m' Hwf Hr. destruct (read_src m src len) as [bs|] eqn:Hs.
  - pose proof (write_run b m src bs len Hwf Hlen) as Hw. case_decide.
    + destruct Hw as (b1 & m1 & Hr1 & Hw); [by eauto using read_src_length with lia|].
      rewrite Hr1 in Hr. injection Hr as <- <- <-. by eapply written_local.
    + rewrite Hw in Hr by lia. injection Hr as <- <- <-. by apply local_step_refl.
  - unfold tn_buffer_write, write_with, on_buf, aws_byte_buf_write in Hr. mrun in Hr.
    destruct (_ || _); [|by rewrite Hs in Hr]. injection Hr as <- <- <-.
    destruct b. by apply local_step_refl.
Qed.

#[global] Instance local_write_wire `{Host} w : BufferLocal (write_wire w).
Proof.
  intros b m a b' m' Hwf. rewrite write_wire_eq. apply write_local; [destruct w; simpl; lia|done].
Qed.

#[global] Instance local_read_with n (g : list Z → Z) :
  0 ≤ n < W64 → BufferLocal (read_with (λ m, r ← aws_byte_cursor_read m n; mret (g <$> r))).
Proof.
  intros Hn b m a b' m' Hwf. destruct (unread_total b m Hwf) as (u & Hu & Hl).
  pose proof (on_pos_read_run b m n u Hwf Hn Hu) as Hr.
  unfold read_with, on_pos, mbind, M_bind in *. cbn [fst snd] in *.
  destruct (aws_byte_cursor_read m n (pos b)) as [[r c]|]; [|done]. simpl.
  intros [= <- <- <-]. case_decide; injection Hr as -> Hc.
  - rewrite Hc. assert (0 ≤ n ≤ cur_len (pos b)) by lia. split; try done.
    by apply consumed_wf.
  - rewrite Hc. by apply local_step_refl.
Qed.

#[global] Instance local_read_wire `{Host} w : BufferLocal (read_wire w).
Proof. destruct w; apply local_read_with; lia. Qed.

#[global] Instance local_write_wires `{Host} ws : BufferLocal (write_wires ws).
Proof. induction ws; simpl; apply _. Qed.

#[global] Instance local_read_wires `{Host} ws : BufferLocal (read_wires ws).
Proof. induction ws; simpl; apply _. Qed.

End Local.

(** ** Theorems *)

(** C29. A stream of values written by one host is read back by any host, whatever the
    byte order of either: if the values fit, every write and every read
    succeeds, the values come back in order, and the bytes in between are the
    big-endian encodings. *)
Theorem wire_round_trip (host1 host2 : Host) ws b m :
  buffer_wf b m → unread (b, m) = Some [] → Forall wire_ok ws →
  Z.of_nat (length (wires_bytes ws)) ≤ room b →
  ∃ b1 m1 b2,
    @write_wires host1 ws (b, m) = Some (replicate (length ws) TN_SUCCESS, (b1, m1)) ∧
    unread (b1, m1) = Some (wires_bytes ws) ∧
    @read_wires host2 ws (b1, m1) =
      Some ((λ w, (TN_SUCCESS, Some (wire_val w))) <$> ws, (b2, m1)) ∧
    unread (b2, m1) = Some [] ∧ buffer_wf b2 m1.
Proof.
  intros Hwf Hu Hok Hroom.
  destruct (@write_wires_run host1 ws b m [] Hwf Hu Hroom) as (b1 & m1 & Hw & Hwf1 & Hu1).
  simpl in Hu1.
  destruct (@read_wires_run host2 ws b1 m1 []) as (b2 & Hr & Hwf2 & Hu2).
  - done.
  - by rewrite app_nil_r.
  - done.
  - exists b1, m1, b2. done.
Qed.

(** C30. Reads and writes are all-or-nothing: one that does not fit returns [TN_ERROR] and
    leaves the buffer and all of memory as they were, and one that fits moves
    exactly the requested bytes: a write appends them to the unread bytes and
    touches no byte outside the buffer's block, a read takes them from the front. *)
Theorem buffer_is_byte_stream b m src bs n u :
  buffer_wf b m → 0 ≤ n < W64 → unread (b, m) = Some u →
  read_src m src n = Some bs → Z.of_nat (length bs) = n →
  (if decide (n ≤ room b)
   then ∃ b' m', tn_buffer_write src n (b, m) = Some (TN_SUCCESS, (b', m')) ∧
          buffer_wf b' m' ∧ unread (b', m') = Some (u ++ bs) ∧ room b' = room b - n ∧
          same_outside (buf_buffer (buf b)) (buf_capacity (buf b)) m m'
   else tn_buffer_write src n (b, m) = Some (TN_ERROR, (b, m))) ∧
  (if decide (n ≤ Z.of_nat (length u))
   then ∃ b', on_pos (λ m, aws_byte_cursor_read m n) (b, m) =
                Some (Some (take (Z.to_nat n) u), (b', m)) ∧
          buffer_wf b' m ∧ unread (b', m) = Some (drop (Z.to_nat n) u) ∧ room b' = room b
   else on_pos (λ m, aws_byte_cursor_read m n) (b, m) = Some (None, (b, m))).
Proof.
  intros Hwf Hn Hu Hsrc Hbs. split.
  - pose proof (write_run b m src bs n Hwf Hn ltac:(done)) as Hw. case_decide; [|done].
    destruct Hw as (b' & m' & Hr & []). exists b', m'. split_and!; try done; [by apply wr_unread0|].
    unfold room. lia.
  - rewrite (on_pos_read_run b m n u Hwf Hn Hu). case_decide; [|done].
    pose proof (unread_length b m u Hwf Hu).
    exists (consumed n b). split_and!; try done.
    + apply consumed_wf; [done|lia].
    + by apply consumed_unread; [|lia|].
Qed.

(** Skipping [n > 0] unread bytes succeeds exactly when there are that many; skipping
    0 bytes reports [TN_ERROR] although it does nothing. *)
Theorem read_skip_spec b m n u :
  buffer_wf b m → 0 ≤ n < W64 → unread (b, m) = Some u →
  ∃ r b', tn_buffer_read_skip n (b, m) = Some (r, (b', m)) ∧ buffer_wf b' m ∧
    (r = TN_SUCCESS ↔ 0 < n ≤ Z.of_nat (length u)) ∧
    unread (b', m) = Some (if decide (r = TN_SUCCESS) then drop (Z.to_nat n) u else u).
Proof.
  intros Hwf Hn Hu. rewrite (skip_run b m n u Hwf Hn Hu).
  pose proof (unread_length b m u Hwf Hu).
  case_decide as Hle; [|exists TN_ERROR, b; split_and!; try done; code_lia].
  destruct (consumed_unread b m n u Hwf ltac:(lia) Hu) as [_ Hd].
  pose proof (consumed_wf b m n Hwf ltac:(lia)).
  destruct (Z.eqb_spec n 0) as [->|Hne].
  - exists TN_ERROR, (consumed 0 b). split_and!; try done. code_lia.
  - exists TN_SUCCESS, (consumed n b). split_and!; try done. code_lia.
Qed.

(** A 16-byte block at address 4096. *)
Definition sample_mem : mem := list_to_map ((λ a, (a, 0)) <$> seqZ 4096 16).
Definition sample_buffer : tn_buffer_t :=
  {| pool := NULL; buf := aws_byte_buf_from_empty_array 4096 16;
     pos := {| cur_len := 0; cur_ptr := 4096 |}; capacity := 0 |}.

Lemma allocated_bool m p n :
  forallb (λ a, if m !! a then true else false) (seqZ p n) = true → allocated m p n.
Proof.
  rewrite forallb_forall. intros H a Ha. specialize (H a). rewrite <- list_elem_of_In in H.
  rewrite elem_of_seqZ in H. specialize (H Ha). by destruct (m !! a).
Qed.

Lemma sample_buffer_wf : buffer_wf sample_buffer sample_mem.
Proof. split; simpl; try lia. apply allocated_bool. vm_compute. reflexivity. Qed.

Definition big_host : Host := {| aws_is_big_endian := true |}.
Definition little_host : Host := {| aws_is_big_endian := false |}.

Lemma wire_round_trip_witness :
  ∃ b1 m1 b2,
    @write_wires little_host [WU8 7; WBE32 3735928559; WBE64 1] (sample_buffer, sample_mem) =
      Some (replicate 3 TN_SUCCESS, (b1, m1)) ∧
    unread (b1, m1) = Some [7; 222; 173; 190; 239; 0; 0; 0; 0; 0; 0; 0; 1] ∧
    @read_wires big_host [WU8 7; WBE32 3735928559; WBE64 1] (b1, m1) =
      Some ([(TN_SUCCESS, Some 7); (TN_SUCCESS, Some 3735928559); (TN_SUCCESS, Some 1)], (b2, m1)) ∧
    unread (b2, m1) = Some [] ∧ buffer_wf b2 m1.
Proof.
  apply (wire_round_trip little_host big_host [WU8 7; WBE32 3735928559; WBE64 1]).
  - exact sample_buffer_wf.
  - reflexivity.
  - repeat constructor; unfold wire_ok; simpl; lia.
  - vm_compute. discriminate.
Defined.

Lemma buffer_is_byte_stream_witness :
  (∃ b' m', tn_buffer_write (SrcBytes [1; 2; 3]) 3 (sample_buffer, sample_mem) =
      Some (TN_SUCCESS, (b', m')) ∧ buffer_wf b' m' ∧ unread (b', m') = Some [1; 2; 3] ∧
      room b' = 13 ∧ same_outside 4096 16 sample_mem m') ∧
  on_pos (λ m, aws_byte_cursor_read m 3) (sample_buffer, sample_mem) =
    Some (None, (sample_buffer, sample_mem)).
Proof.
  apply (buffer_is_byte_stream sample_buffer sample_mem (SrcBytes [1; 2; 3]) [1; 2; 3] 3 []);
    [exact sample_buffer_wf|lia|reflexivity|reflexivity|reflexivity].
Defined.

Lemma read_skip_spec_witness :
  ∃ r b', tn_buffer_read_skip 0 (sample_buffer, sample_mem) = Some (r, (b', sample_mem)) ∧
    buffer_wf b' sample_mem ∧ (r = TN_SUCCESS ↔ 0 < 0 ≤ 0) ∧
    unread (b', sample_mem) = Some (if decide (r = TN_SUCCESS) then [] else []).
Proof.
  apply (read_skip_spec sample_buffer sample_mem 0 []);
    [exact sample_buffer_wf|lia|reflexivity].
Defined.

(** [tn_buffer_set_length] compares the new length with the free space instead of the
    capacity, and sets the cursor's length without moving its start: it refuses
    every length above the free space, however large the block is, and when it
    accepts a length the buffer stays well formed only if nothing had been read;
    otherwise the cursor runs past the written bytes by the number of bytes read. *)
Theorem set_length_spec b m n :
  buffer_wf b m → 0 ≤ n < W64 →
  (room b < n → tn_buffer_set_length n (b, m) = Some (TN_ERROR, (b, m))) ∧
  (n ≤ room b → ∃ b', tn_buffer_set_length n (b, m) = Some (TN_SUCCESS, (b', m)) ∧
     buf_len (buf b') = n ∧ cur_len (pos b') = n ∧
     (buffer_wf b' m ↔ cur_ptr (pos b) = buf_buffer (buf b)) ∧
     cur_ptr (pos b') + cur_len (pos b') - (buf_buffer (buf b') + buf_len (buf b')) =
       cur_ptr (pos b) - buf_buffer (buf b)).
Proof.
  intros Hwf Hn. pose proof Hwf as []. unfold tn_buffer_set_length, modify_buffer, room. mrun.
  rewrite u64_small by lia. split; intros Hr; bool_lia; mrun; [done|].
  eexists. split; [done|]. split_and!; try done; simpl; [|lia].
  split; [intros []; simpl in *; lia|]. intros He. split; simpl; (done || lia).
Qed.

Lemma set_length_spec_witness :
  (room sample_buffer < 17 →
     tn_buffer_set_length 17 (sample_buffer, sample_mem) =
       Some (TN_ERROR, (sample_buffer, sample_mem))) ∧ room sample_buffer < 17.
Proof.
  split; [|vm_compute; reflexivity].
  apply (set_length_spec sample_buffer sample_mem 17); [exact sample_buffer_wf|lia].
Defined.
