(* ===== verification/BufferPool.v ===== *)
(** The buffer pool: src/buffer_pool.c, include/tn/buffer_pool.h, and
    [tn_buffer_release] of src/buffer.c.

    A pool owns one allocation cut into equal blocks, an array of buffers over
    the blocks and a ring queue of pointers to the free ones.  A pointer to
    [tn_buffers[i]] is the index [i].  The file proves that set-up cuts the
    allocation into disjoint blocks, that the operations keep the free list and
    the usage counters consistent, and that writing one buffer never changes
    another. *)
From stdpp Require Import base numbers list option gmap.
From Stdlib Require Import ZArith Lia.
From S2P Require Import Prelude QueueSpsc ByteBuf Buffer.

Local Open Scope Z_scope.
Local Open Scope c_scope.

Record tn_buffer_pool_t := {
  blocks_inuse : Z;
  bytes_inuse : Z;
  block_size : Z;
  block_count : Z;
  tn_buffers : list tn_buffer_t;
  allocation : Z;
  tn_buffers_free : tn_queue_spsc_t nat;
}.

Definition set_inuse (blocks bytes : Z) (p : tn_buffer_pool_t) : tn_buffer_pool_t :=
  {| blocks_inuse := blocks; bytes_inuse := bytes; block_size := block_size p;
     block_count := block_count p; tn_buffers := tn_buffers p; allocation := allocation p;
     tn_buffers_free := tn_buffers_free p |}.
Definition set_tn_buffers (bs : list tn_buffer_t) (p : tn_buffer_pool_t) : tn_buffer_pool_t :=
  {| blocks_inuse := blocks_inuse p; bytes_inuse := bytes_inuse p; block_size := block_size p;
     block_count := block_count p; tn_buffers := bs; allocation := allocation p;
     tn_buffers_free := tn_buffers_free p |}.
Definition set_allocation (a : Z) (p : tn_buffer_pool_t) : tn_buffer_pool_t :=
  {| blocks_inuse := blocks_inuse p; bytes_inuse := bytes_inuse p; block_size := block_size p;
     block_count := block_count p; tn_buffers := tn_buffers p; allocation := a;
     tn_buffers_free := tn_buffers_free p |}.
Definition set_free (q : tn_queue_spsc_t nat) (p : tn_buffer_pool_t) : tn_buffer_pool_t :=
  {| blocks_inuse := blocks_inuse p; bytes_inuse := bytes_inuse p; block_size := block_size p;
     block_count := block_count p; tn_buffers := tn_buffers p; allocation := allocation p;
     tn_buffers_free := q |}.

(** The pool object and the memory its blocks live in. *)
Abbreviation plstate := (tn_buffer_pool_t * mem)%type.

Definition modify_pool (f : tn_buffer_pool_t → tn_buffer_pool_t) : M plstate unit :=
  modify (λ s, (f s.1, s.2)).

(** A call on [&pool->tn_buffers_free]. *)
Definition on_free {A} (f : M (tn_queue_spsc_t nat) A) : M plstate A :=
  zoom (λ s, tn_buffers_free s.1) (λ q s, (set_free q s.1, s.2)) f.

(** A call on [&pool->tn_buffers[i]]; out of range is undefined. *)
Definition on_buffer {A} (i : nat) (f : M bstate A) : M plstate A := λ s,
  match tn_buffers s.1 !! i with
  | None => None
  | Some b =>
      match f (b, s.2) with
      | Some (a, (b', m')) => Some (a, (set_tn_buffers (<[i := b']> (tn_buffers s.1)) s.1, m'))
      | None => None
      end
  end.

(** [sizeof(tn_buffer_t)] on LP64. *)
Definition sizeof_tn_buffer : Z := 64.

(** The allocator's answers for the three blocks of a pool. *)
Record pool_acquire := {
  acquire_allocation : Z → option Z;
  acquire_buffers : Z → option (list tn_buffer_t);
  acquire_slots : Z → option (list (ptr nat));
}.

Definition release_allocation : M plstate unit :=
  modify (λ s, (s.1, mem_release (allocation s.1) (u64 (block_count s.1 * block_size s.1)) s.2)).

(** The label [cleanup]: both blocks are released.  A released array has no elements. *)
Definition setup_cleanup : M plstate Z :=
  modify_pool (set_tn_buffers []);;
  release_allocation;;
  mret TN_ERROR.

(** The loop over the buffers, from index [i]. *)
Fixpoint setup_buffers (self : Z) (n : nat) (i : Z) : M plstate Z :=
  match n with
  | O => mret TN_SUCCESS
  | S n =>
      s ← get;
      let buf := u64 (allocation s.1 + u64 (u64 (u64 (block_count s.1 - 1) - i) * block_size s.1)) in
      TN_GUARD_CLEANUP [setup_cleanup] on_buffer (Z.to_nat i) (tn_buffer_setup buf (block_size s.1)) THEN
      on_buffer (Z.to_nat i) (modify_buffer (set_pool (Some self)));;
      TN_GUARD_CLEANUP [setup_cleanup] on_free (tn_queue_spsc_push (Some (Z.to_nat i))) THEN
      setup_buffers self n (i + 1)
  end.

(** [self] is the address of the pool object. *)
Definition tn_buffer_pool_setup (acq : pool_acquire) (self block_count block_size : Z) : M plstate Z :=
  TN_ASSERT (0 <? block_count);;
  TN_ASSERT (0 <? block_size);;
  modify_pool (λ p,
    {| blocks_inuse := 0; bytes_inuse := 0; block_size := block_size; block_count := block_count;
       tn_buffers := []; allocation := 0; tn_buffers_free := tn_buffers_free p |});;
  match acquire_allocation acq (u64 (block_count * block_size)) with
  | None => setup_cleanup
  | Some a =>
      modify_pool (set_allocation a);;
      match acquire_buffers acq (u64 (block_count * sizeof_tn_buffer)) with
      | None => setup_cleanup
      | Some bs =>
          modify_pool (set_tn_buffers bs);;
          TN_GUARD_CLEANUP [setup_cleanup]
            on_free (tn_queue_spsc_setup (acquire_slots acq) block_count) THEN
          setup_buffers self (Z.to_nat block_count) 0
      end
  end.

Definition tn_buffer_pool_cleanup : M plstate unit :=
  modify_pool (set_inuse 0 0);;
  on_free tn_queue_spsc_cleanup;;
  modify_pool (set_tn_buffers []);;
  release_allocation.

Definition tn_buffer_pool_push (buffer : nat) : M plstate Z :=
  TN_GUARD (on_free (tn_queue_spsc_push (Some buffer))) THEN
  modify_pool (λ p, set_inuse (u64 (blocks_inuse p - 1)) (u64 (bytes_inuse p - block_size p)) p);;
  mret TN_SUCCESS.

(** [peek] and [pop_back] return the code and the out parameter. *)
Definition tn_buffer_pool_peek : M plstate (Z * ptr nat) :=
  r ← on_free tn_queue_spsc_peek;
  if negb (r.1 =? 0) then mret (TN_ERROR, r.2)
  else
    b ← lift r.2;
    on_buffer b tn_buffer_reset;;
    mret (TN_SUCCESS, Some b).

Definition tn_buffer_pool_pop : M plstate Z :=
  TN_GUARD (on_free tn_queue_spsc_pop) THEN
  modify_pool (λ p, set_inuse (u64 (blocks_inuse p + 1)) (u64 (bytes_inuse p + block_size p)) p);;
  mret TN_SUCCESS.

Definition tn_buffer_pool_pop_cached : M plstate unit :=
  on_free tn_queue_spsc_pop_cached;;
  modify_pool (λ p, set_inuse (u64 (blocks_inuse p + 1)) (u64 (bytes_inuse p + block_size p)) p).

Definition tn_buffer_pool_pop_back : M plstate (Z * ptr nat) :=
  r ← on_free tn_queue_spsc_pop_back;
  if negb (r.1 =? 0) then mret (TN_ERROR, r.2)
  else
    b ← lift r.2;
    modify_pool (λ p, set_inuse (u64 (blocks_inuse p + 1)) (u64 (bytes_inuse p + block_size p)) p);;
    on_buffer b tn_buffer_reset;;
    mret (TN_SUCCESS, Some b).

(** [tn_buffer_release] on a buffer of the pool at address [self]. *)
Definition tn_buffer_release (self : Z) (buffer : nat) : M plstate Z :=
  s ← get;
  b ← lift (tn_buffers s.1 !! buffer);
  match pool b with
  | None => mret TN_ERROR
  | Some p => if p =? self then tn_buffer_pool_push buffer else undef
  end.

(** ** Invariant *)

(** The block of buffer [i]. *)
Definition block_addr (p : tn_buffer_pool_t) (i : nat) : Z :=
  allocation p + (block_count p - 1 - Z.of_nat i) * block_size p.

(** The free buffers, oldest first. *)
Definition free_list (p : tn_buffer_pool_t) : list (ptr nat) := contents (tn_buffers_free p).

(** Buffer [i] is a well-formed buffer over block [i]. *)
Record slot_wf (self : Z) (p : tn_buffer_pool_t) (m : mem) (i : nat) (b : tn_buffer_t) : Prop := {
  sl_wf : buffer_wf b m;
  sl_addr : buf_buffer (buf b) = block_addr p i;
  sl_cap : buf_capacity (buf b) = block_size p;
  sl_pool : pool b = Some self;
}.

(** The shape of a pool: sizes, the free queue and the array. *)
Record pool_shape (self : Z) (p : tn_buffer_pool_t) (m : mem) : Prop := {
  ps_queue : wf (tn_buffers_free p);
  ps_count : 0 < block_count p ≤ QueueSpsc.capacity (tn_buffers_free p);
  ps_size : 0 < block_size p ≤ MAX_BLOCK;
  ps_alloc : 0 < allocation p ∧ allocation p + block_count p * block_size p < W64;
  ps_array : Z.of_nat (length (tn_buffers p)) = block_count p;
  ps_slots : ∀ i b, tn_buffers p !! i = Some b → slot_wf self p m i b;
}.

(** ** Specification: independent byte streams and a list of free ones *)

(** What a pool is to its clients: the free buffers in the order they will be
    handed out, and for every buffer its unread bytes and its free space. *)
Record streams := {
  a_free : list nat;
  a_streams : list (list Z * Z);
}.

(** The pool [p] in memory [m] represents [a]. *)
Record pool_rep (self : Z) (p : tn_buffer_pool_t) (m : mem) (a : streams) : Prop := {
  pr_shape : pool_shape self p m;
  pr_free : free_list p = Some <$> a_free a;
  pr_nodup : NoDup (a_free a);
  pr_range : Forall (λ i, (i < length (tn_buffers p))%nat) (a_free a);
  pr_blocks : blocks_inuse p = block_count p - Z.of_nat (length (a_free a));
  pr_bytes : bytes_inuse p = blocks_inuse p * block_size p;
  pr_streams : Forall2 (λ b s, unread (b, m) = Some s.1 ∧ room b = s.2 ∧ Forall is_byte s.1)
                 (tn_buffers p) (a_streams a);
}.

(** Client calls.  [PPeekPopCached] is the look-then-take of the receive path. *)
Inductive pool_op :=
  | PPopBack
  | PPeekPopCached
  | PRelease (i : nat)
  | PWrite (i : nat) (w : wire)
  | PRead (i : nat) (w : wire).

(** The return code, the out buffer and the out value of a call. *)
Definition pool_reply : Type := Z * ptr nat * option Z.

Definition exec_pool `{Host} (self : Z) (o : pool_op) : M plstate pool_reply :=
  match o with
  | PPopBack => r ← tn_buffer_pool_pop_back; mret (r, None)
  | PPeekPopCached =>
      r ← tn_buffer_pool_peek;
      (if r.1 =? 0 then tn_buffer_pool_pop_cached else mret tt);;
      mret (r, None)
  | PRelease i => r ← tn_buffer_release self i; mret (r, NULL, None)
  | PWrite i w => r ← on_buffer i (write_wire w); mret (r, NULL, None)
  | PRead i w => r ← on_buffer i (read_wire w); mret (r.1, NULL, r.2)
  end.

(** The same call on the streams, for blocks of [bsize] bytes; [None] when the
    client breaks the protocol (an unknown buffer, or one released twice). *)
Definition spec_pool (bsize : Z) (o : pool_op) (a : streams) : option (pool_reply * streams) :=
  match o with
  | PPopBack | PPeekPopCached =>
      match a_free a with
      | [] => Some ((TN_ERROR, NULL, None), a)
      | i :: l => Some ((TN_SUCCESS, Some i, None),
                        {| a_free := l; a_streams := <[i := ([], bsize)]> (a_streams a) |})
      end
  | PRelease i =>
      if decide (i < length (a_streams a) ∧ i ∉ a_free a)%nat
      then Some ((TN_SUCCESS, NULL, None),
                 {| a_free := a_free a ++ [i]; a_streams := a_streams a |})
      else None
  | PWrite i w =>
      '(u, r) ← a_streams a !! i;
      Some (if decide (Z.of_nat (wire_width w) ≤ r)
            then ((TN_SUCCESS, NULL, None),
                  {| a_free := a_free a;
                     a_streams := <[i := (u ++ wire_bytes w, r - Z.of_nat (wire_width w))]> (a_streams a) |})
            else ((TN_ERROR, NULL, None), a))
  | PRead i w =>
      '(u, r) ← a_streams a !! i;
      Some (if decide (wire_width w ≤ length u)%nat
            then ((TN_SUCCESS, NULL, Some (be_combine (take (wire_width w) u))),
                  {| a_free := a_free a; a_streams := <[i := (drop (wire_width w) u, r)]> (a_streams a) |})
            else ((TN_ERROR, NULL, None), a))
  end.

Fixpoint exec_pool_all `{Host} (self : Z) (os : list pool_op) : M plstate (list pool_reply) :=
  match os with
  | [] => mret []
  | o :: os => r ← exec_pool self o; rs ← exec_pool_all self os; mret (r :: rs)
  end.

Fixpoint spec_pool_all (bsize : Z) (os : list pool_op) (a : streams) : option (list pool_reply * streams) :=
  match os with
  | [] => Some ([], a)
  | o :: os =>
      '(r, a) ← spec_pool bsize o a;
      '(rs, a) ← spec_pool_all bsize os a;
      Some (r :: rs, a)
  end.

(** ** Lemmas *)

Section Facts.
Context (self : Z).
Implicit Types p : tn_buffer_pool_t.
Implicit Types m : mem.

Lemma shape_set_free p m q :
  pool_shape self p m → wf q → QueueSpsc.capacity q = QueueSpsc.capacity (tn_buffers_free p) →
  pool_shape self (set_free q p) m.
Proof.
  intros [] Hq Hc. split; simpl; try done; [lia|].
  intros i b Hb. destruct (ps_slots0 i b Hb). by split.
Qed.

Lemma shape_set_inuse p m x y : pool_shape self p m → pool_shape self (set_inuse x y p) m.
Proof. intros []. split; simpl; try done. intros i b Hb. destruct (ps_slots0 i b Hb). by split. Qed.

(** Blocks of different buffers are disjoint and inside the allocation. *)
Lemma blocks_disjoint p m i j :
  pool_shape self p m → i ≠ j →
  block_addr p i + block_size p ≤ block_addr p j ∨ block_addr p j + block_size p ≤ block_addr p i.
Proof. intros [] Hij. unfold block_addr. assert (i < j ∨ j < i)%nat as [] by lia; nia. Qed.

Lemma block_inside p m i :
  pool_shape self p m → (i < length (tn_buffers p))%nat →
  allocation p ≤ block_addr p i ∧
  block_addr p i + block_size p ≤ allocation p + block_count p * block_size p.
Proof. intros [] Hi. unfold block_addr. nia. Qed.

(** A local operation on buffer [i] keeps the pool's shape and every other buffer. *)
Lemma shape_update p m i b b' m' :
  pool_shape self p m → tn_buffers p !! i = Some b → local_step b m b' m' →
  pool_shape self (set_tn_buffers (<[i := b']> (tn_buffers p)) p) m'.
Proof.
  intros Hs Hb [? Hpool Hbuf Hcap Hout Hal]. pose proof Hs as []. split; simpl; try done.
  { by rewrite length_insert. }
  intros j c Hc. destruct (decide (i = j)) as [<-|Hij].
  - rewrite list_lookup_insert_eq in Hc by (by eapply lookup_lt_Some). injection Hc as <-.
    destruct (ps_slots0 i b Hb). split; simpl; [done|..].
    + by rewrite Hbuf.
    + by rewrite Hcap.
    + by rewrite Hpool.
  - rewrite list_lookup_insert_ne in Hc by done. destruct (ps_slots0 j c Hc) as [[] ? ? ?].
    split; simpl; try done. split; try done. by apply Hal.
Qed.

Lemma unread_frame p m i b b' m' j c :
  pool_shape self p m → tn_buffers p !! i = Some b → local_step b m b' m' →
  i ≠ j → tn_buffers p !! j = Some c → unread (c, m') = unread (c, m).
Proof.
  intros Hs Hb [? Hpool Hbuf Hcap Hout Hal] Hij Hc. pose proof (blocks_disjoint p m i j Hs Hij) as Hd.
  destruct (ps_slots _ _ _ Hs i b Hb) as [_ Hai Hci _].
  destruct (ps_slots _ _ _ Hs j c Hc) as [[] Haj Hcj _].
  unfold unread; simpl. apply mem_load_agree. intros a Ha. apply Hout. lia.
Qed.

Lemma on_buffer_run {A} (f : M bstate A) `{!BufferLocal f} p m i b a b' m' :
  pool_shape self p m → tn_buffers p !! i = Some b → f (b, m) = Some (a, (b', m')) →
  on_buffer i f (p, m) = Some (a, (set_tn_buffers (<[i := b']> (tn_buffers p)) p, m')) ∧
  pool_shape self (set_tn_buffers (<[i := b']> (tn_buffers p)) p) m' ∧
  (∀ j c, i ≠ j → tn_buffers p !! j = Some c → unread (c, m') = unread (c, m)).
Proof.
  intros Hs Hb Hf. pose proof (sl_wf _ _ _ _ _ (ps_slots _ _ _ Hs i b Hb)) as Hwf.
  pose proof (buffer_local b m a b' m' Hwf Hf) as Hl. split_and!.
  - unfold on_buffer; simpl. by rewrite Hb, Hf.
  - by eauto using shape_update.
  - by eauto using unread_frame.
Qed.

(** Changing the stream of buffer [i] by a local operation. *)
Lemma rep_update p m a i b b' m' u r :
  pool_rep self p m a → tn_buffers p !! i = Some b → local_step b m b' m' →
  unread (b', m') = Some u → room b' = r → Forall is_byte u →
  pool_rep self (set_tn_buffers (<[i := b']> (tn_buffers p)) p) m'
    {| a_free := a_free a; a_streams := <[i := (u, r)]> (a_streams a) |}.
Proof.
  intros [] Hb Hl Hu Hr Hby. split; simpl; try done.
  - by eauto using shape_update.
  - by rewrite length_insert.
  - apply Forall2_same_length_lookup_2.
    { rewrite !length_insert. by eapply Forall2_length. }
    intros j c s Hc Hs. destruct (decide (i = j)) as [<-|Hij].
    + rewrite list_lookup_insert_eq in Hc by (by eapply lookup_lt_Some).
      rewrite list_lookup_insert_eq in Hs
        by (rewrite <- (Forall2_length _ _ _ pr_streams0); by eapply lookup_lt_Some).
      by simplify_eq.
    + rewrite list_lookup_insert_ne in Hc by done. rewrite list_lookup_insert_ne in Hs by done.
      rewrite (unread_frame p m i b b' m' j c) by done.
      by eapply (Forall2_lookup_lr _ _ _ j c s) in pr_streams0.
Qed.

Lemma rep_lookup p m a i b :
  pool_rep self p m a → tn_buffers p !! i = Some b →
  ∃ u r, a_streams a !! i = Some (u, r) ∧ unread (b, m) = Some u ∧ room b = r ∧
    Forall is_byte u ∧ slot_wf self p m i b.
Proof.
  intros [] Hb. destruct (Forall2_lookup_l _ _ _ _ _ pr_streams0 Hb) as ([u r] & Hs & ? & ? & ?).
  exists u, r. split_and!; try done. by eapply ps_slots.
Qed.

(** The pool's place in memory does not change. *)
Definition same_geometry (p p' : tn_buffer_pool_t) : Prop :=
  allocation p' = allocation p ∧ block_count p' = block_count p ∧ block_size p' = block_size p.

(** A new free queue and counters. *)
Lemma rep_requeue p m a q l x y :
  pool_rep self p m a → wf q → QueueSpsc.capacity q = QueueSpsc.capacity (tn_buffers_free p) →
  contents q = Some <$> l → NoDup l → Forall (λ i, (i < length (tn_buffers p))%nat) l →
  x = block_count p - Z.of_nat (length l) → y = x * block_size p →
  pool_rep self (set_inuse x y (set_free q p)) m {| a_free := l; a_streams := a_streams a |}.
Proof.
  intros [] Hq Hc Hl Hnd Hrng Hx Hy. split; simpl; try done.
  by apply shape_set_inuse, shape_set_free.
Qed.

Lemma free_length p m a : pool_rep self p m a → (length (a_free a) ≤ length (tn_buffers p))%nat.
Proof. intros []. by apply nodup_below_length. Qed.

Lemma pop_counters p m a x l :
  pool_rep self p m a → a_free a = x :: l →
  u64 (blocks_inuse p + 1) = block_count p - Z.of_nat (length l) ∧
  u64 (bytes_inuse p + block_size p) = u64 (blocks_inuse p + 1) * block_size p.
Proof.
  intros Hr Hl. pose proof (free_length p m a Hr) as Hfl. destruct Hr as [[] ? ? ? Hb Hy ?].
  rewrite Hl in *. simpl in *.
  assert (0 ≤ blocks_inuse p < block_count p) by lia.
  assert ((blocks_inuse p + 1) * block_size p ≤ block_count p * block_size p) by nia.
  assert (blocks_inuse p + 1 ≤ block_count p * block_size p) by nia.
  rewrite !u64_small by nia. nia.
Qed.

Lemma push_counters p m a i :
  pool_rep self p m a → (i < length (tn_buffers p))%nat → i ∉ a_free a →
  let l := a_free a ++ [i] in
  NoDup l ∧ Forall (λ i, (i < length (tn_buffers p))%nat) l ∧
  u64 (blocks_inuse p - 1) = block_count p - Z.of_nat (length l) ∧
  u64 (bytes_inuse p - block_size p) = u64 (blocks_inuse p - 1) * block_size p.
Proof.
  intros Hr Hi Hni l. pose proof Hr as [[] ? ? ? Hb Hy ?].
  assert (NoDup l) by (apply NoDup_app; set_solver by eauto using NoDup_singleton).
  assert (Forall (λ i, (i < length (tn_buffers p))%nat) l) by (apply Forall_app; auto).
  assert (length l ≤ length (tn_buffers p))%nat.
  { by apply nodup_below_length. }
  unfold l in *. rewrite length_app in *. simpl in *.
  assert (0 < blocks_inuse p ≤ block_count p) by lia.
  assert (0 ≤ (blocks_inuse p - 1) * block_size p ≤ block_count p * block_size p) by nia.
  assert (blocks_inuse p ≤ block_count p * block_size p) by nia.
  rewrite !u64_small by nia. split_and!; [done|done|lia|nia].
Qed.

Lemma set_free_rep p m a q :
  pool_rep self p m a → wf q → QueueSpsc.capacity q = QueueSpsc.capacity (tn_buffers_free p) →
  contents q = free_list p → pool_rep self (set_free q p) m a.
Proof.
  intros Hr Hq Hc Hl. pose proof Hr as [].
  apply (rep_requeue p m a q (a_free a) (blocks_inuse p) (bytes_inuse p)) in Hr; try done.
  - by destruct a.
  - by rewrite Hl.
Qed.

(** The reset of the buffer that was taken. *)
Lemma reset_taken p m a i :
  pool_rep self p m a → (i < length (tn_buffers p))%nat →
  ∃ p', on_buffer i tn_buffer_reset (p, m) = Some (tt, (p', m)) ∧ same_geometry p p' ∧
    tn_buffers_free p' = tn_buffers_free p ∧ length (tn_buffers p') = length (tn_buffers p) ∧
    (∀ j, j ≠ i → tn_buffers p' !! j = tn_buffers p !! j) ∧
    pool_rep self p' m {| a_free := a_free a; a_streams := <[i := ([], block_size p)]> (a_streams a) |}.
Proof.
  intros Hr Hi. apply lookup_lt_is_Some in Hi as [b Hb].
  destruct (rep_lookup p m a i b Hr Hb) as (u & r & _ & _ & _ & _ & [Hwf Ha Hc Hp]).
  destruct (reset_run b m Hwf) as (b' & Hrun & Hwf' & ? & ? & ? & Hroom & Hu).
  destruct (on_buffer_run tn_buffer_reset p m i b tt b' m) as (Ho & _ & _); [apply Hr|done|done|].
  eexists. split; [done|].
  split_and!; try done; [apply length_insert|intros j Hj; simpl; by rewrite list_lookup_insert_ne|].
  apply (rep_update p m a i b b' m); try done. by rewrite Hroom.
Qed.

Definition popped (p : tn_buffer_pool_t) (m : mem) (a : streams) (r : Z * ptr nat) p' : Prop :=
  same_geometry p p' ∧
  (∀ j, list.head (a_free a) ≠ Some j → tn_buffers p' !! j = tn_buffers p !! j) ∧
  spec_pool (block_size p) PPopBack a = Some ((r, None), {| a_free := drop 1 (a_free a);
    a_streams := match a_free a with
                 | [] => a_streams a | i :: _ => <[i := ([], block_size p)]> (a_streams a) end |}) ∧
  pool_rep self p' m {| a_free := drop 1 (a_free a);
    a_streams := match a_free a with
                 | [] => a_streams a | i :: _ => <[i := ([], block_size p)]> (a_streams a) end |}.

Lemma pool_pop_back_run p m a :
  pool_rep self p m a →
  ∃ r p', tn_buffer_pool_pop_back (p, m) = Some (r, (p', m)) ∧ popped p m a r p'.
Proof.
  intros Hr. pose proof (ps_queue _ _ _ (pr_shape _ _ _ _ Hr)) as Hq.
  destruct (pop_back_run _ Hq) as (q' & Hrun & Hwf & Hcap & Hcon).
  pose proof (pr_free _ _ _ _ Hr) as Hfree. unfold free_list in Hfree. rewrite Hfree in *.
  unfold tn_buffer_pool_pop_back, on_free.
  rewrite (bind_Some _ _ _ _ _ (zoom_Some _ _ _ (p, m) _ _ Hrun)).
  unfold popped, spec_pool. destruct a as [[|i l] st]; simpl in *.
  - eexists _, _. split; [done|]. split_and!; [done|done|done|]. apply set_free_rep; try done.
    unfold free_list. by rewrite Hcon, Hfree.
  - pose proof (pr_range _ _ _ _ Hr) as Hrg. apply Forall_cons in Hrg as [Hi Hrg].
    destruct (pop_counters p m _ i l Hr eq_refl) as [Hx Hy].
    pose proof (pr_nodup _ _ _ _ Hr) as Hnd. apply NoDup_cons in Hnd as [_ Hnd].
    pose proof (rep_requeue p m _ q' l _ _ Hr Hwf Hcap Hcon Hnd Hrg Hx Hy) as Hr2.
    destruct (reset_taken _ m _ i Hr2 Hi) as (p' & Hrun2 & Hbs & _ & _ & Hoth & Hr3).
    eexists _, p'. split.
    { etrans; [|exact (bind_Some _ (λ _, mret (TN_SUCCESS, Some i)) _ _ _ Hrun2)]. reflexivity. }
    split_and!; try done. intros j Hj. rewrite Hoth by congruence. done.
Qed.

(** The queue remembers the element a [peek] returned. *)
Definition peeked (p : tn_buffer_pool_t) : Prop :=
  tail_cache (tn_buffers_free p) = value (tail (tn_buffers_free p)).

Lemma pool_peek_run p m a :
  pool_rep self p m a →
  match a_free a with
  | [] => ∃ p', tn_buffer_pool_peek (p, m) = Some ((TN_ERROR, NULL), (p', m)) ∧ same_geometry p p' ∧
            tn_buffers p' = tn_buffers p ∧ pool_rep self p' m a
  | i :: _ => ∃ p', tn_buffer_pool_peek (p, m) = Some ((TN_SUCCESS, Some i), (p', m)) ∧
            same_geometry p p' ∧ peeked p' ∧ (∀ j, j ≠ i → tn_buffers p' !! j = tn_buffers p !! j) ∧
            pool_rep self p' m {| a_free := a_free a; a_streams := <[i := ([], block_size p)]> (a_streams a) |}
  end.
Proof.
  intros Hr. pose proof (ps_queue _ _ _ (pr_shape _ _ _ _ Hr)) as Hq.
  destruct (peek_run _ Hq) as (q1 & Hrun & Hwf & Hcap & Hcon & Htl & Hcache).
  pose proof (pr_free _ _ _ _ Hr) as Hfree. unfold free_list in Hfree. rewrite Hfree in *.
  unfold tn_buffer_pool_peek, on_free.
  assert (pool_rep self (set_free q1 p) m a) as Hr1.
  { apply set_free_rep; try done. unfold free_list. by rewrite Hcon, Hfree. }
  pose proof (zoom_Some (λ s, tn_buffers_free s.1) (λ q s, (set_free q s.1, s.2)) _ (p, m) _ _ Hrun) as Hz.
  destruct a as [[|i l] st]; simpl in *; rewrite (bind_Some _ _ _ _ _ Hz).
  - by eexists.
  - pose proof (pr_range _ _ _ _ Hr) as Hrg. apply Forall_cons in Hrg as [Hi Hrg].
    destruct (reset_taken _ m _ i Hr1 Hi) as (p2 & Hrun2 & Hg & Hq2 & _ & Hoth & Hr2).
    exists p2. split_and!; try done.
    + etrans; [|exact (bind_Some _ (λ _, mret (TN_SUCCESS, Some i)) _ _ _ Hrun2)]. reflexivity.
    + unfold peeked. rewrite Hq2. simpl. by apply Hcache.
Qed.

Lemma pool_pop_cached_run p m a i l :
  pool_rep self p m a → peeked p → a_free a = i :: l →
  ∃ p', tn_buffer_pool_pop_cached (p, m) = Some (tt, (p', m)) ∧ same_geometry p p' ∧
    tn_buffers p' = tn_buffers p ∧
    pool_rep self p' m {| a_free := l; a_streams := a_streams a |}.
Proof.
  intros Hr Hpk Hl. pose proof (ps_queue _ _ _ (pr_shape _ _ _ _ Hr)) as Hq.
  pose proof (pr_free _ _ _ _ Hr) as Hfree. unfold free_list in Hfree. rewrite Hl in Hfree.
  destruct (pop_cached_run _ Hq) as (q3 & Hrun3 & Hwf3 & Hcap3 & Hcon3); [by rewrite Hfree|done|].
  destruct (pop_counters p m a i l Hr Hl) as [Hx Hy].
  pose proof (pr_nodup _ _ _ _ Hr) as Hnd. rewrite Hl in Hnd. apply NoDup_cons in Hnd as [_ Hnd].
  pose proof (pr_range _ _ _ _ Hr) as Hrg. rewrite Hl in Hrg. apply Forall_cons in Hrg as [_ Hrg].
  unfold tn_buffer_pool_pop_cached, on_free.
  rewrite (bind_Some _ _ _ _ _ (zoom_Some _ _ _ (p, m) _ _ Hrun3)).
  eexists. split; [mrun; done|]. split; [done|]. split; [done|]. rewrite Hfree in Hcon3.
  by eapply (rep_requeue p m a q3 l _ _ Hr).
Qed.

Lemma pool_peek_pop_run p m a :
  pool_rep self p m a →
  ∃ r p', (r ← tn_buffer_pool_peek;
           (if r.1 =? 0 then tn_buffer_pool_pop_cached else mret tt);; mret r) (p, m) =
      Some (r, (p', m)) ∧ popped p m a r p'.
Proof.
  intros Hr. pose proof (pool_peek_run p m a Hr) as Hpk. unfold popped, spec_pool.
  destruct a as [[|i l] st]; simpl in *.
  - destruct Hpk as (p' & Hrun & Hg & Hb & Hr'). rewrite (bind_Some _ _ _ _ _ Hrun).
    eexists _, p'. split; [done|]. rewrite Hb. by split_and!.
  - destruct Hpk as (p' & Hrun & Hg & Hpk & Hoth & Hr'). rewrite (bind_Some _ _ _ _ _ Hrun).
    destruct (pool_pop_cached_run p' m _ i l Hr' Hpk eq_refl) as (p2 & Hrun2 & Hg2 & Hb2 & Hr2).
    eexists _, p2. split.
    { transitivity ((tn_buffer_pool_pop_cached;; mret (TN_SUCCESS, Some i)) (p', m)); [reflexivity|].
      by rewrite (bind_Some _ _ _ _ _ Hrun2). }
    unfold same_geometry in *. rewrite Hb2. split_and!; try done; naive_solver congruence.
Qed.

Lemma pool_push_run p m a i :
  pool_rep self p m a → (i < length (tn_buffers p))%nat → i ∉ a_free a →
  ∃ p', tn_buffer_pool_push i (p, m) = Some (TN_SUCCESS, (p', m)) ∧ same_geometry p p' ∧
    tn_buffers p' = tn_buffers p ∧
    pool_rep self p' m {| a_free := a_free a ++ [i]; a_streams := a_streams a |}.
Proof.
  intros Hr Hi Hni. pose proof (ps_queue _ _ _ (pr_shape _ _ _ _ Hr)) as Hq.
  destruct (push_counters p m a i Hr Hi Hni) as (Hnd & Hrg & Hx & Hy).
  pose proof (nodup_below_length _ _ Hnd Hrg) as Hle. rewrite length_app in Hle. simpl in Hle.
  destruct (push_run _ (Some i) Hq) as (q' & Hrun & Hwf & Hcap & Hcon).
  pose proof (pr_free _ _ _ _ Hr) as Hfree. unfold free_list in Hfree.
  pose proof (ps_count _ _ _ (pr_shape _ _ _ _ Hr)). pose proof (ps_array _ _ _ (pr_shape _ _ _ _ Hr)).
  rewrite <- Zlength_contents, Hfree, length_fmap in Hrun, Hcon.
  rewrite (proj2 (Z.eqb_neq _ _)) in Hrun, Hcon by lia.
  unfold tn_buffer_pool_push, on_free.
  rewrite (bind_Some _ _ _ _ _ (zoom_Some _ _ _ (p, m) _ _ Hrun)).
  eexists. split; [mrun; done|]. split; [done|]. split; [done|].
  eapply (rep_requeue p m a q' (a_free a ++ [i]) _ _ Hr); try done. by rewrite fmap_app.
Qed.

(** A change of memory outside the pool's allocation. *)
Definition same_inside (p : tn_buffer_pool_t) (m m' : mem) : Prop :=
  ∀ x, allocation p ≤ x < allocation p + block_count p * block_size p → m' !! x = m !! x.

Lemma rep_frame p m m' a : pool_rep self p m a → same_inside p m m' → pool_rep self p m' a.
Proof.
  intros [] Hm. pose proof pr_shape0 as [].
  assert (∀ i b, tn_buffers p !! i = Some b → ∀ x, buf_buffer (buf b) ≤ x < buf_buffer (buf b) + buf_capacity (buf b) →
    m' !! x = m !! x) as Hb.
  { intros i b Hi x Hx. destruct (ps_slots0 i b Hi) as [_ Ha Hc _].
    pose proof (block_inside p m i pr_shape0 ltac:(by eapply lookup_lt_Some)). apply Hm. lia. }
  split; try done.
  - split; try done. intros i b Hi. destruct (ps_slots0 i b Hi) as [[] ? ? ?]. split; try done.
    split; try done. intros x Hx. rewrite (Hb i b Hi x) by lia. by apply bwf_alloc.
  - apply Forall2_same_length_lookup_2; [by eapply Forall2_length|].
    intros i b s Hi Hs. destruct (Forall2_lookup_lr _ _ _ _ _ _ pr_streams0 Hi Hs) as (Hu & Hr & Hby).
    split_and!; try done. rewrite <- Hu. unfold unread; simpl. apply mem_load_agree. intros x Hx.
    destruct (ps_slots0 i b Hi) as [[] ? ? ?]. apply (Hb i b Hi). lia.
Qed.

(** A raw write into buffer [i]. *)
Lemma write_rep p m a i src bs n u r :
  pool_rep self p m a → a_streams a !! i = Some (u, r) → 0 ≤ n < W64 →
  (n ≤ r → read_src m src n = Some bs ∧ Z.of_nat (length bs) = n) → Forall is_byte bs →
  if decide (n ≤ r)
  then ∃ b b' m', tn_buffers p !! i = Some b ∧ written b m bs b' m' ∧
         on_buffer i (tn_buffer_write src n) (p, m) =
           Some (TN_SUCCESS, (set_tn_buffers (<[i := b']> (tn_buffers p)) p, m')) ∧
         pool_rep self (set_tn_buffers (<[i := b']> (tn_buffers p)) p) m'
           {| a_free := a_free a; a_streams := <[i := (u ++ bs, r - n)]> (a_streams a) |} ∧
         (∀ x, x < allocation p ∨ allocation p + block_count p * block_size p ≤ x → m' !! x = m !! x)
  else on_buffer i (tn_buffer_write src n) (p, m) = Some (TN_ERROR, (p, m)).
Proof.
  intros Hr Hs Hn Hsrc Hbb.
  destruct (Forall2_lookup_r _ _ _ _ _ (pr_streams _ _ _ _ Hr) Hs) as (b & Hb & Hu & Hroom & Hby).
  destruct (rep_lookup p m a i b Hr Hb) as (_ & _ & _ & _ & _ & _ & [Hwf Ha Hc _]). simpl in *. subst r.
  pose proof (write_run b m src bs n Hwf Hn Hsrc) as Hrun. case_decide as Hfit.
  - destruct Hrun as (b' & m' & Hrun & Hw). destruct (Hsrc Hfit) as [_ Hlen].
    exists b, b', m'. split_and!; try done.
    + unfold on_buffer; simpl. by rewrite Hb, Hrun.
    + apply (rep_update p m a i b b' m'); try done.
      * by eapply written_local.
      * by apply Hw.
      * destruct Hw. unfold room. lia.
      * by apply Forall_app.
    + intros x Hx. apply (wr_outside _ _ _ _ _ Hw).
      pose proof (block_inside p m i (pr_shape _ _ _ _ Hr) ltac:(by eapply lookup_lt_Some)). lia.
  - unfold on_buffer; simpl. rewrite Hb, Hrun. rewrite list_insert_id by done. by destruct p.
Qed.

Lemma release_run p m a i :
  pool_rep self p m a → (i < length (tn_buffers p))%nat → i ∉ a_free a →
  tn_buffer_release self i (p, m) = tn_buffer_pool_push i (p, m).
Proof.
  intros Hr Hi _. apply lookup_lt_is_Some in Hi as [b Hb].
  pose proof (sl_pool _ _ _ _ _ (ps_slots _ _ _ (pr_shape _ _ _ _ Hr) i b Hb)) as Hp.
  unfold tn_buffer_release. mrun. rewrite Hb, Hp. by bool_lia.
Qed.

Lemma write_wire_rep `{Host} p m a i w u r :
  pool_rep self p m a → a_streams a !! i = Some (u, r) →
  let fits := decide (Z.of_nat (wire_width w) ≤ r) in
  ∃ p' m', on_buffer i (write_wire w) (p, m) =
      Some (if fits then TN_SUCCESS else TN_ERROR, (p', m')) ∧ block_size p' = block_size p ∧
    pool_rep self p' m' (if fits then
      {| a_free := a_free a;
         a_streams := <[i := (u ++ wire_bytes w, r - Z.of_nat (wire_width w))]> (a_streams a) |} else a).
Proof.
  intros Hr Hs fits.
  destruct (Forall2_lookup_r _ _ _ _ _ (pr_streams _ _ _ _ Hr) Hs) as (b & Hb & Hu & Hroom & Hby).
  destruct (rep_lookup p m a i b Hr Hb) as (_ & _ & _ & _ & _ & _ & [Hwf _ _ _]).
  simpl in *. subst r.
  pose proof (write_wire_run w b m Hwf) as Hrun. subst fits. case_decide as Hfit.
  - destruct Hrun as (b' & m' & Hrun & Hw).
    eexists _, m'. split; [unfold on_buffer; simpl; rewrite Hb, Hrun; done|]. split; [done|].
    apply (rep_update p m a i b b' m'); try done.
    + by eapply written_local.
    + by apply Hw.
    + destruct Hw. rewrite length_wire_bytes in *. unfold room. lia.
    + apply Forall_app. split; [done|apply wire_bytes_are_bytes].
  - eexists _, m. split; [unfold on_buffer; simpl; rewrite Hb, Hrun; done|]. split; [done|].
    simpl. rewrite list_insert_id by done. by destruct p.
Qed.

Lemma read_wire_rep `{Host} p m a i w u r :
  pool_rep self p m a → a_streams a !! i = Some (u, r) →
  let fits := decide (wire_width w ≤ length u)%nat in
  ∃ p', on_buffer i (read_wire w) (p, m) =
      Some (if fits then (TN_SUCCESS, Some (be_combine (take (wire_width w) u)))
            else (TN_ERROR, None), (p', m)) ∧ block_size p' = block_size p ∧
    pool_rep self p' m (if fits then
      {| a_free := a_free a; a_streams := <[i := (drop (wire_width w) u, r)]> (a_streams a) |} else a).
Proof.
  intros Hr Hs fits.
  destruct (Forall2_lookup_r _ _ _ _ _ (pr_streams _ _ _ _ Hr) Hs) as (b & Hb & Hu & Hroom & Hby).
  destruct (rep_lookup p m a i b Hr Hb) as (_ & _ & _ & _ & _ & _ & [Hwf _ _ _]). simpl in *.
  pose proof (read_wire_total w b m u Hwf Hu Hby) as Hrun. subst fits.
  pose proof (unread_length b m u Hwf Hu) as Hlen. case_decide as Hfit.
  - eexists. split; [unfold on_buffer; simpl; rewrite Hb, Hrun; done|]. split; [done|].
    eapply (rep_update p m a i b); try done.
    + exact (buffer_local (f := read_wire w) _ _ _ _ _ Hwf Hrun).
    + rewrite (proj2 (consumed_unread b m (Z.of_nat (wire_width w)) u Hwf ltac:(lia) Hu)). by rewrite Nat2Z.id.
    + by apply Forall_drop.
  - eexists. split; [unfold on_buffer; simpl; rewrite Hb, Hrun; done|]. split; [done|].
    simpl. rewrite list_insert_id by done. by destruct p.
Qed.

Lemma exec_pool_refines `{Host} o p m a r a' :
  pool_rep self p m a → spec_pool (block_size p) o a = Some (r, a') →
  ∃ p' m', exec_pool self o (p, m) = Some (r, (p', m')) ∧ block_size p' = block_size p ∧
    pool_rep self p' m' a'.
Proof.
  intros Hr Ho. pose proof (Forall2_length _ _ _ (pr_streams _ _ _ _ Hr)) as Hlen.
  destruct o as [| |i|i w|i w].
  - destruct (pool_pop_back_run p m a Hr) as (r0 & p' & Hrun & (_ & _ & Hbs) & _ & Hsp & Hr').
    rewrite Ho in Hsp. simplify_eq. exists p', m. simpl. by rewrite (bind_Some _ _ _ _ _ Hrun).
  - destruct (pool_peek_pop_run p m a Hr) as (r0 & p' & Hrun & (_ & _ & Hbs) & _ & Hsp & Hr').
    unfold spec_pool in Ho, Hsp. rewrite Ho in Hsp. simplify_eq. exists p', m.
    split; [|done]. cbn [exec_pool].
    transitivity (((r ← tn_buffer_pool_peek;
      (if r.1 =? 0 then tn_buffer_pool_pop_cached else mret tt);; mret r) ≫=
      λ r, mret ((r, None) : pool_reply)) (p, m)); [|by rewrite (bind_Some _ _ _ _ _ Hrun)].
    rewrite M_assoc. mrun. repeat case_match; done.
  - simpl in Ho. case_decide as Hok; [|done]. simplify_eq. destruct Hok as [Hi Hni].
    rewrite <- Hlen in Hi. destruct (pool_push_run p m a i Hr Hi Hni) as (p' & Hrun & (_ & _ & Hbs) & _ & Hr').
    rewrite <- (release_run p m a i) in Hrun by done.
    exists p', m. simpl. by rewrite (bind_Some _ _ _ _ _ Hrun).
  - simpl in Ho. destruct (a_streams a !! i) as [[u rm]|] eqn:Hs; [|done]. simpl in Ho.
    destruct (write_wire_rep p m a i w u rm Hr Hs) as (p' & m' & Hrun & Hbs & Hr').
    exists p', m'. cbn [exec_pool]. rewrite (bind_Some _ _ _ _ _ Hrun).
    destruct (decide (Z.of_nat (wire_width w) ≤ rm)); by simplify_eq.
  - simpl in Ho. destruct (a_streams a !! i) as [[u rm]|] eqn:Hs; [|done]. simpl in Ho.
    destruct (read_wire_rep p m a i w u rm Hr Hs) as (p' & Hrun & Hbs & Hr').
    exists p', m. cbn [exec_pool]. rewrite (bind_Some _ _ _ _ _ Hrun).
    destruct (decide (wire_width w ≤ length u)%nat); by simplify_eq.
Qed.

Lemma exec_pool_all_refines `{Host} os p m a rs a' :
  pool_rep self p m a → spec_pool_all (block_size p) os a = Some (rs, a') →
  ∃ p' m', exec_pool_all self os (p, m) = Some (rs, (p', m')) ∧ pool_rep self p' m' a'.
Proof.
  revert p m a rs. induction os as [|o os IH]; intros p m a rs Hr Hs.
  - simpl in Hs. simplify_eq. by exists p, m.
  - simpl in Hs. destruct (spec_pool (block_size p) o a) as [[r a1]|] eqn:Ho; [|done]. simpl in Hs.
    destruct (spec_pool_all (block_size p) os a1) as [[rs1 a2]|] eqn:Hos; [|done]. simplify_eq/=.
    destruct (exec_pool_refines o p m a r a1 Hr Ho) as (p1 & m1 & Hrun & Hbs & Hr1).
    rewrite <- Hbs in Hos. destruct (IH p1 m1 a1 rs1 Hr1 Hos) as (p2 & m2 & Hrun2 & Hr2).
    exists p2, m2. cbn [exec_pool_all].
    by rewrite (bind_Some _ _ _ _ _ Hrun), (bind_Some _ _ _ _ _ Hrun2).
Qed.

End Facts.

(** ** Set-up *)

Section Setup.
Context (self : Z).

(** After [i] rounds of the loop the first [i] buffers are empty buffers over their
    blocks and are queued in order. *)
Record setup_inv (i : nat) (p : tn_buffer_pool_t) (m : mem) : Prop := {
  si_queue : wf (tn_buffers_free p);
  si_contents : contents (tn_buffers_free p) = Some <$> seq 0 i;
  si_count : 0 < block_count p ≤ QueueSpsc.capacity (tn_buffers_free p);
  si_size : 0 < block_size p ≤ MAX_BLOCK;
  si_alloc : 0 < allocation p ∧ allocation p + block_count p * block_size p < W64;
  si_mem : allocated m (allocation p) (block_count p * block_size p);
  si_array : Z.of_nat (length (tn_buffers p)) = block_count p;
  si_slots : ∀ j b, (j < i)%nat → tn_buffers p !! j = Some b →
    slot_wf self p m j b ∧ unread (b, m) = Some [] ∧ room b = block_size p;
  si_inuse : blocks_inuse p = 0 ∧ bytes_inuse p = 0;
}.

(** One round. *)
Lemma setup_round i p m :
  setup_inv i p m → Z.of_nat i < block_count p →
  ∃ b q, let p' := set_free q (set_tn_buffers (<[i := b]> (tn_buffers p)) p) in
    setup_inv (S i) p' m ∧ QueueSpsc.capacity q = QueueSpsc.capacity (tn_buffers_free p) ∧
    ∀ n, setup_buffers self (S n) (Z.of_nat i) (p, m) =
         setup_buffers self n (Z.of_nat (S i)) (p', m).
Proof.
  intros [] Hi.
  assert (i < length (tn_buffers p))%nat as Hlt by lia.
  destruct (lookup_lt_is_Some_2 _ _ Hlt) as [b0 Hb0].
  assert (0 < block_addr p i ∧ block_addr p i + block_size p ≤
    allocation p + block_count p * block_size p ∧ allocation p ≤ block_addr p i) as Hblk
    by (unfold block_addr; nia).
  destruct (buffer_setup_run (block_addr p i) (block_size p) b0 m) as (b1 & Hrun & Hwf & _ & Ha & Hc & Hroom & Hu);
    [lia|lia|lia|intros a Ha; apply si_mem0; lia|].
  destruct (push_run (tn_buffers_free p) (Some i) si_queue0) as (q & Hpush & Hq & Hcap & Hcon).
  rewrite <- Zlength_contents, si_contents0, length_fmap, length_seq in Hpush, Hcon.
  rewrite (proj2 (Z.eqb_neq _ _)) in Hpush, Hcon by lia.
  exists (set_pool (Some self) b1), q. cbv zeta. split; [|split; [done|]].
  - assert (contents q = Some <$> seq 0 (S i)) by by rewrite Hcon, seq_S, fmap_app.
    split; simpl; try done.
    + lia.
    + by rewrite length_insert.
    + intros j b Hj Hb. destruct (decide (j = i)) as [->|Hne].
      * rewrite list_lookup_insert_eq in Hb by done. injection Hb as <-. split_and!; try done.
        split; try done. destruct Hwf. by split.
      * rewrite list_lookup_insert_ne in Hb by done.
        destruct (si_slots0 j b ltac:(lia) Hb) as ([] & ? & ?). split_and!; try done.
  - intros n. cbn [setup_buffers]. mrun.
    replace (u64 (allocation p + u64 (u64 (u64 (block_count p - 1) - Z.of_nat i) * block_size p)))
      with (block_addr p i).
    2:{ assert (block_count p ≤ block_count p * block_size p) by nia.
        rewrite (u64_small (block_count p - 1)) by lia.
        rewrite (u64_small (_ - Z.of_nat i)) by lia.
        assert (0 ≤ (block_count p - 1 - Z.of_nat i) * block_size p <
          block_count p * block_size p) by (split; nia).
        unfold block_addr in *. rewrite (u64_small (_ * block_size p)) by lia.
        by rewrite u64_small by lia. }
    unfold on_buffer at 1. simpl. rewrite Nat2Z.id, Hb0, Hrun. mrun.
    unfold on_buffer at 1. simpl. rewrite list_lookup_insert_eq by done. mrun.
    unfold on_free. mrun. rewrite Hpush. mrun. rewrite list_insert_insert_eq.
    replace (Z.of_nat i + 1) with (Z.pos (Pos.of_succ_nat i)) by lia. done.
Qed.

Lemma setup_buffers_run n i p m :
  setup_inv i p m → Z.of_nat i + Z.of_nat n = block_count p →
  ∃ p', setup_buffers self n (Z.of_nat i) (p, m) = Some (TN_SUCCESS, (p', m)) ∧
    setup_inv (i + n) p' m ∧ block_count p' = block_count p ∧ block_size p' = block_size p ∧
    allocation p' = allocation p ∧
    QueueSpsc.capacity (tn_buffers_free p') = QueueSpsc.capacity (tn_buffers_free p).
Proof.
  revert i p. induction n as [|n IH]; intros i p Hinv Hn.
  - exists p. by rewrite Nat.add_0_r.
  - destruct (setup_round i p m Hinv ltac:(lia)) as (b & q & Hinv' & Hq & Hstep). rewrite Hstep.
    destruct (IH (S i) _ Hinv') as (p' & Hrun & Hi & ? & ? & ? & Hc); [simpl; lia|].
    exists p'. split; [done|]. rewrite Nat.add_succ_comm in Hi. simpl in Hc.
    by rewrite Hc.
Qed.

(** The streams of a fresh pool. *)
Definition fresh_streams (count size : Z) : streams :=
  {| a_free := seq 0 (Z.to_nat count); a_streams := replicate (Z.to_nat count) ([], size) |}.

Lemma setup_inv_rep p m :
  setup_inv (Z.to_nat (block_count p)) p m →
  pool_rep self p m (fresh_streams (block_count p) (block_size p)).
Proof.
  intros []. assert (length (tn_buffers p) = Z.to_nat (block_count p)) as Hlen by lia.
  split; simpl; try done.
  - split; try done. intros j b Hb. apply si_slots0; [|done].
    apply lookup_lt_Some in Hb. lia.
  - apply NoDup_seq.
  - apply Forall_seq. lia.
  - rewrite length_seq. lia.
  - lia.
  - rewrite <- Hlen. apply Forall2_same_length_lookup_2; [by rewrite length_replicate|].
    intros j b s Hb Hs. apply lookup_replicate in Hs as [-> Hj].
    destruct (si_slots0 j b ltac:(lia) Hb) as (_ & ? & ?). done.
Qed.

(** What the allocator grants for a pool of [count] blocks of [size] bytes: an
    allocated block at [a], an array of [count] buffers and the queue's slots. *)
Record granted (acq : pool_acquire) (m : mem) (count size : Z) : Prop := {
  gr_count : 0 < count < 2 ^ 58;
  gr_size : 0 < size ≤ MAX_BLOCK;
  gr_alloc : ∃ a, acquire_allocation acq (count * size) = Some a ∧
    0 < a ∧ a + count * size < W64 ∧ allocated m a (count * size);
  gr_buffers : ∃ bs, acquire_buffers acq (count * sizeof_tn_buffer) = Some bs ∧
    Z.of_nat (length bs) = count;
  gr_slots : acquire_ok (acquire_slots acq) ∧
    is_Some (acquire_slots acq (8 * (1 + 2 ^ Z.log2_up count)));
}.

Lemma pool_setup_run acq count size p m :
  granted acq m count size →
  ∃ p', tn_buffer_pool_setup acq self count size (p, m) = Some (TN_SUCCESS, (p', m)) ∧
    block_count p' = count ∧ block_size p' = size ∧
    QueueSpsc.capacity (tn_buffers_free p') = 2 ^ Z.log2_up count ∧
    acquire_allocation acq (count * size) = Some (allocation p') ∧
    pool_rep self p' m (fresh_streams count size).
Proof.
  intros [Hc Hs (a & Ha & Ha0 & Haw & Hal) (bs & Hbs & Hlen) (Hok & sl & Hsl)].
  destruct (queue_setup_run (acquire_slots acq) count sl (tn_buffers_free p))
    as (q & Hq & Hwf & Hcap & Hcon); [done|lia|done|].
  unfold tn_buffer_pool_setup. bool_lia. mrun. rewrite (u64_small (count * size)) by lia. rewrite Ha.
  unfold sizeof_tn_buffer in *. rewrite u64_small by lia. rewrite Hbs. mrun.
  unfold on_free. mrun. rewrite Hq. mrun.
  edestruct (setup_buffers_run (Z.to_nat count) 0) as (p' & Hrun & Hinv & Hp1 & Hp2 & Hp4 & Hp3);
    [| |exists p'; split; [exact Hrun|]]; simpl in *.
  - split; simpl; try done; [|lia].
    split; [lia|]. rewrite Hcap. apply Z.log2_log2_up_spec. lia.
  - lia.
  - rewrite Hp3, Hcap. split_and!; try done; [by rewrite Hp4|].
    pose proof (setup_inv_rep p' m) as Hr. rewrite Hp1, Hp2 in Hr. by apply Hr.
Qed.

End Setup.

(** ** Theorems *)


(** Isolation: whatever operation runs on one buffer of a pool, as long as it is local
    (it keeps its buffer well formed and writes only its block), every other
    buffer keeps its object and its unread bytes, the pool keeps its shape and
    all blocks stay disjoint and inside the allocation. *)
Theorem pool_isolation {A} (f : M bstate A) `{!BufferLocal f} self p m i x p' m' :
  pool_shape self p m → on_buffer i f (p, m) = Some (x, (p', m')) →
  pool_shape self p' m' ∧
  (∀ j c, j ≠ i → tn_buffers p !! j = Some c →
     tn_buffers p' !! j = Some c ∧ unread (c, m') = unread (c, m)) ∧
  (∀ j k, j ≠ k → block_addr p' j + block_size p' ≤ block_addr p' k ∨
                  block_addr p' k + block_size p' ≤ block_addr p' j) ∧
  (∀ j, (j < length (tn_buffers p'))%nat → allocation p' ≤ block_addr p' j ∧
     block_addr p' j + block_size p' ≤ allocation p' + block_count p' * block_size p').
Proof.
  intros Hs Hf. unfold on_buffer in Hf. simpl in Hf.
  destruct (tn_buffers p !! i) as [b|] eqn:Hb; [|done].
  destruct (f (b, m)) as [[a [b' m1]]|] eqn:Hr; [|done]. simplify_eq.
  destruct (on_buffer_run self f p m i b x b' m' Hs Hb Hr) as (_ & Hs' & Hframe).
  split_and!; [done|..].
  - intros j c Hne Hc. split; [by simpl; rewrite list_lookup_insert_ne|by eauto].
  - intros j k Hjk. by apply (blocks_disjoint self _ m').
  - intros j Hj. by apply (block_inside self _ m').
Qed.

(** The pool does not notice a buffer that is released twice when its block count is
    not a power of two: on a pool with every buffer free the queue still has
    room, so the push succeeds, the buffer is in the free list twice and the
    count of blocks in use wraps to 2^64 - 1. *)
Theorem double_release_accepted self p m a i :
  pool_rep self p m a → length (a_free a) = length (tn_buffers p) →
  block_count p < QueueSpsc.capacity (tn_buffers_free p) →
  ∃ p', tn_buffer_pool_push i (p, m) = Some (TN_SUCCESS, (p', m)) ∧
    blocks_inuse p' = W64 - 1 ∧ free_list p' = (Some <$> a_free a) ++ [Some i].
Proof.
  intros Hr Hall Hroom. pose proof Hr as [[] Hfree _ _ Hb _ _]. unfold free_list in *.
  destruct (push_run _ (Some i) ps_queue0) as (q' & Hrun & Hwf & Hcap & Hcon).
  rewrite <- Zlength_contents, Hfree, length_fmap in Hrun, Hcon.
  rewrite (proj2 (Z.eqb_neq _ _)) in Hrun, Hcon by lia.
  unfold tn_buffer_pool_push, on_free.
  rewrite (bind_Some _ _ _ _ _ (zoom_Some _ _ _ (p, m) _ _ Hrun)).
  eexists. split; [mrun; done|]. split; [|done]. simpl.
  replace (blocks_inuse p) with 0 by lia. reflexivity.
Qed.

(** A pool of three 4-byte blocks at address 4096. *)
Definition sample_pool_acquire : pool_acquire :=
  {| acquire_allocation := λ _, Some 4096;
     acquire_buffers := λ sz, Some (replicate (Z.to_nat (sz / sizeof_tn_buffer)) sample_buffer);
     acquire_slots := sample_acquire |}.

Definition blank_pool : tn_buffer_pool_t :=
  {| blocks_inuse := 0; bytes_inuse := 0; block_size := 0; block_count := 0;
     tn_buffers := []; allocation := 0; tn_buffers_free := blank_queue |}.

Lemma sample_granted : granted sample_pool_acquire sample_mem 3 4.
Proof.
  split; simpl; [lia|lia|..].
  - exists 4096. split_and!; [done|lia|lia|]. apply allocated_bool. vm_compute. reflexivity.
  - eexists. split; [done|]. reflexivity.
  - split; [apply sample_acquire_ok|]. by eexists.
Qed.


Lemma pool_isolation_witness :
  ∃ p x p' m',
    tn_buffer_pool_setup sample_pool_acquire 64 3 4 (blank_pool, sample_mem) =
      Some (TN_SUCCESS, (p, sample_mem)) ∧
    on_buffer 1 (@write_wire little_host (WBE16 7)) (p, sample_mem) = Some (x, (p', m')) ∧
    pool_shape 64 p' m'.
Proof.
  destruct (pool_setup_run 64 _ 3 4 blank_pool _ sample_granted) as (p & Hset & _ & _ & _ & _ & Hr).
  destruct (@write_wire_rep 64 little_host p sample_mem _ 1 (WBE16 7) [] 4 Hr eq_refl)
    as (p' & m' & Hrun & _ & _).
  exists p, TN_SUCCESS, p', m'. split; [exact Hset|]. split; [exact Hrun|].
  exact (proj1 (pool_isolation (@write_wire little_host (WBE16 7)) 64 p sample_mem 1 _ p' m'
    (pr_shape _ _ _ _ Hr) Hrun)).
Defined.

Lemma double_release_accepted_witness :
  ∃ p p', tn_buffer_pool_setup sample_pool_acquire 64 3 4 (blank_pool, sample_mem) =
      Some (TN_SUCCESS, (p, sample_mem)) ∧
    tn_buffer_pool_push 0 (p, sample_mem) = Some (TN_SUCCESS, (p', sample_mem)) ∧
    blocks_inuse p' = W64 - 1 ∧
    free_list p' = [Some 0%nat; Some 1%nat; Some 2%nat; Some 0%nat].
Proof.
  destruct (pool_setup_run 64 _ 3 4 blank_pool _ sample_granted) as (p & Hset & Hc & _ & Hq & _ & Hr).
  pose proof (ps_array _ _ _ (pr_shape _ _ _ _ Hr)) as Hlen.
  destruct (double_release_accepted 64 p sample_mem _ 0 Hr) as (p' & Hp & Hb & Hf).
  - simpl. lia.
  - rewrite Hc, Hq. reflexivity.
  - exists p, p'. split; [exact Hset|]. split; [exact Hp|]. split; [exact Hb|]. exact Hf.
Defined.
