(* ===== verification/ListPtr.v ===== *)
(** The fixed-capacity array of pointers: src/list_ptr.c and include/tn/list_ptr.h.

    [data] is the array ([None] is the [NULL] pointer) and [index] the number of
    elements in use.  The file proves that the operations are those of a bounded
    stack with swap-removal, and what they do with indices nobody checks. *)
From Stdlib Require Import ZArith Lia.
From stdpp Require Import base numbers list option.
From S2P Require Import Prelude.

Local Open Scope Z_scope.
Local Open Scope c_scope.

Record tn_list_ptr_t (A : Type) := {
  data : option (list (ptr A));
  lp_capacity : Z;
  index : Z;
}.
Arguments data {A} _.
Arguments lp_capacity {A} _.
Arguments index {A} _.

Section Ops.
Context {A : Type}.
Abbreviation lst := (tn_list_ptr_t A).
Implicit Types l : lst.

Definition set_data (d : option (list (ptr A))) l : lst :=
  {| data := d; lp_capacity := lp_capacity l; index := index l |}.
Definition set_index (i : Z) l : lst :=
  {| data := data l; lp_capacity := lp_capacity l; index := i |}.

(** [list->data[i]] as a value and as an assignment target. *)
Definition load_data (i : Z) : M lst (ptr A) :=
  l ← get; d ← lift (data l); lift (d !! Z.to_nat i).
Definition store_data (i : Z) (x : ptr A) : M lst unit :=
  l ← get; d ← lift (data l);
  if decide (Z.to_nat i < length d)%nat then put (set_data (Some (<[Z.to_nat i := x]> d)) l) else undef.

(** [acquire sz] is [TN_MEM_ACQUIRE]: the uninitialised cells of a block of [sz] bytes. *)
Definition tn_list_ptr_setup (acquire : Z → option (list (ptr A))) (capacity : Z) : M lst Z :=
  put {| data := NULL; lp_capacity := 0; index := 0 |};;
  modify (λ l, {| data := data l; lp_capacity := capacity; index := index l |});;
  match acquire (u64 (capacity * 8)) with
  | None => mret TN_ERROR
  | Some d => modify (set_data (Some d));; mret TN_SUCCESS
  end.

(** The cells of a released array are gone. *)
Definition tn_list_ptr_cleanup : M lst unit := modify (set_data (Some [])).

Definition tn_list_ptr_push_back (item : ptr A) : M lst Z :=
  l ← get;
  TN_ASSERT (bool_decide (is_Some (data l)));;
  TN_ASSERT (bool_decide (is_Some item));;
  TN_GUARD_IF (lp_capacity l <=? index l) THEN
  store_data (index l) item;;
  modify (λ l, set_index (u64 (index l + 1)) l);;
  mret TN_SUCCESS.

(** Returns the code and the out parameter ([None]: not written). *)
Definition tn_list_ptr_pop_back : M lst (Z * option (ptr A)) :=
  l ← get;
  TN_ASSERT (bool_decide (is_Some (data l)));;
  if index l =? 0 then mret (TN_ERROR, None)
  else
    modify (λ l, set_index (u64 (index l - 1)) l);;
    l ← get; x ← load_data (index l);
    mret (TN_SUCCESS, Some x).

Definition tn_list_ptr_count : M lst Z := gets index.
Definition tn_list_ptr_clear : M lst unit := modify (set_index 0).
Definition tn_list_ptr_get (i : Z) : M lst (ptr A) := load_data i.

Definition tn_list_ptr_swap (index1 index2 : Z) : M lst unit :=
  tmp ← load_data index1;
  x2 ← load_data index2;
  store_data index1 x2;;
  store_data index2 tmp.

Definition tn_list_ptr_remove (i : Z) : M lst Z :=
  l ← get;
  TN_GUARD_IF (index l =? 0) THEN
  modify (λ l, set_index (u64 (index l - 1)) l);;
  l ← get; x ← load_data (index l);
  store_data i x;;
  mret TN_SUCCESS.

(** ** Specification *)

(** The elements in use. *)
Definition elems l : list (ptr A) := take (Z.to_nat (index l)) (default [] (data l)).

Record list_wf l : Prop := {
  lwf_cap : 0 ≤ lp_capacity l < 2 ^ 61;
  lwf_index : 0 ≤ index l ≤ lp_capacity l;
  lwf_data : ∃ d, data l = Some d ∧ Z.of_nat (length d) = lp_capacity l;
}.

(** The list with its element [i] replaced by the last one and the last dropped. *)
Definition swap_remove {B} (i : nat) (xs : list B) : list B :=
  match list.last xs with
  | Some x => take (length xs - 1) (<[i := x]> xs)
  | None => xs
  end.

Inductive list_op :=
  | LPush (x : A)
  | LPop
  | LCount
  | LClear
  | LGet (i : Z)
  | LSwap (i j : Z)
  | LRemove (i : Z).

(** The code, the out item ([None]: none) and the out count. *)
Definition list_reply : Type := Z * option (ptr A) * Z.

Definition exec_list (o : list_op) : M lst list_reply :=
  match o with
  | LPush x => r ← tn_list_ptr_push_back (Some x); mret (r, None, 0)
  | LPop => r ← tn_list_ptr_pop_back; mret (r, 0)
  | LCount => n ← tn_list_ptr_count; mret (0, None, n)
  | LClear => tn_list_ptr_clear;; mret (0, None, 0)
  | LGet i => x ← tn_list_ptr_get i; mret (0, Some x, 0)
  | LSwap i j => tn_list_ptr_swap i j;; mret (0, None, 0)
  | LRemove i => r ← tn_list_ptr_remove i; mret (r, None, 0)
  end.

(** The same call on the elements; [None] when an index is not that of an element. *)
Definition spec_list (cap : Z) (o : list_op) (xs : list (ptr A)) : option (list_reply * list (ptr A)) :=
  match o with
  | LPush x =>
      Some (if cap <=? Z.of_nat (length xs) then ((TN_ERROR, None, 0), xs)
            else ((TN_SUCCESS, None, 0), xs ++ [Some x]))
  | LPop =>
      Some (match list.last xs with
            | None => ((TN_ERROR, None, 0), xs)
            | Some x => ((TN_SUCCESS, Some x, 0), take (length xs - 1) xs)
            end)
  | LCount => Some ((0, None, Z.of_nat (length xs)), xs)
  | LClear => Some ((0, None, 0), [])
  | LGet i => x ← xs !! Z.to_nat i; Some ((0, Some x, 0), xs)
  | LSwap i j =>
      x ← xs !! Z.to_nat i; y ← xs !! Z.to_nat j;
      Some ((0, None, 0), <[Z.to_nat j := x]> (<[Z.to_nat i := y]> xs))
  | LRemove i =>
      if decide (xs = []) then Some ((TN_ERROR, None, 0), [])
      else if decide (Z.to_nat i < length xs)%nat
      then Some ((TN_SUCCESS, None, 0), swap_remove (Z.to_nat i) xs) else None
  end.

Fixpoint exec_list_all (os : list list_op) : M lst (list list_reply) :=
  match os with
  | [] => mret []
  | o :: os => r ← exec_list o; rs ← exec_list_all os; mret (r :: rs)
  end.

Fixpoint spec_list_all (cap : Z) (os : list list_op) (xs : list (ptr A)) :
    option (list list_reply * list (ptr A)) :=
  match os with
  | [] => Some ([], xs)
  | o :: os =>
      '(r, xs) ← spec_list cap o xs;
      '(rs, xs) ← spec_list_all cap os xs;
      Some (r :: rs, xs)
  end.

End Ops.
Arguments list_op : clear implicits.
Arguments list_reply : clear implicits.

(** ** Lemmas *)

Section Facts.
Context {A : Type}.
Implicit Types l : tn_list_ptr_t A.

Lemma length_elems l : list_wf l → Z.of_nat (length (elems l)) = index l.
Proof. intros [? ? (d & Hd & ?)]. unfold elems. rewrite Hd; simpl. rewrite length_take. lia. Qed.

Lemma elems_lookup l d i :
  data l = Some d → (i < Z.to_nat (index l))%nat → d !! i = elems l !! i.
Proof. intros Hd Hi. unfold elems. rewrite Hd. simpl. by rewrite lookup_take, decide_True. Qed.

Lemma load_data_run l i x :
  list_wf l → elems l !! Z.to_nat i = Some x → load_data i l = Some (x, l).
Proof.
  intros [? ? (d & Hd & ?)] Hx. unfold load_data. mrun. rewrite Hd. mrun.
  unfold elems in Hx. rewrite Hd in Hx. simpl in Hx. apply lookup_take_Some in Hx as [Hx _].
  by rewrite Hx.
Qed.

(** A store below the capacity. *)
Lemma store_data_run l i x :
  list_wf l → (Z.to_nat i < Z.to_nat (lp_capacity l))%nat →
  ∃ l', store_data i x l = Some (tt, l') ∧ list_wf l' ∧ lp_capacity l' = lp_capacity l ∧
    index l' = index l ∧ elems l' = <[Z.to_nat i := x]> (elems l) ∧
    (∀ n, set_index n l' = set_data (Some (<[Z.to_nat i := x]> (default [] (data l)))) (set_index n l)).
Proof.
  intros [? ? (d & Hd & Hlen)] Hi. unfold store_data. mrun. rewrite Hd. mrun.
  rewrite decide_True by lia. eexists. split; [done|]. split_and!; try done.
  - split; simpl; try done. eexists. split; [done|]. by rewrite length_insert.
  - unfold elems. simpl. rewrite Hd. simpl.
    apply list_eq. intros j. rewrite lookup_take.
    destruct (decide (Z.to_nat i = j)) as [<-|].
    + rewrite list_lookup_insert_eq by lia. case_decide.
      * rewrite list_lookup_insert_eq; [done|]. rewrite length_take. lia.
      * symmetry. apply lookup_ge_None_2. rewrite length_insert, length_take. lia.
    + rewrite !list_lookup_insert_ne by done. by rewrite lookup_take.
Qed.

(** Dropping the last element. *)
Lemma shrink_run l :
  list_wf l → 0 < index l →
  let l' := set_index (u64 (index l - 1)) l in
  list_wf l' ∧ index l' = index l - 1 ∧ elems l' = take (length (elems l) - 1) (elems l) ∧
  ∃ x, list.last (elems l) = Some x ∧ load_data (index l') l' = Some (x, l').
Proof.
  intros Hwf Hpos. pose proof (length_elems l Hwf) as Hlen. pose proof Hwf as [? ? (d & Hd & Hdl)].
  cbv zeta. rewrite u64_small by lia. split_and!; simpl; [|done|..].
  - split; simpl; [done|lia|by exists d].
  - unfold elems at 1. simpl. rewrite Hd. simpl. unfold elems. rewrite Hd. simpl.
    rewrite take_take, length_take. f_equal. lia.
  - destruct (list.last (elems l)) as [x|] eqn:Hx.
    2:{ apply last_None in Hx. rewrite Hx in Hlen. simpl in Hlen. lia. }
    exists x. split; [done|]. rewrite last_lookup in Hx.
    unfold load_data. mrun. rewrite Hd. mrun. rewrite (elems_lookup l d) by (done || lia).
    replace (Z.to_nat (index l - 1)) with (pred (length (elems l))) by lia. by rewrite Hx.
Qed.

Lemma push_back_run l x :
  list_wf l →
  ∃ l', tn_list_ptr_push_back (Some x) l =
      Some (if lp_capacity l <=? index l then TN_ERROR else TN_SUCCESS, l') ∧ list_wf l' ∧
    lp_capacity l' = lp_capacity l ∧
    elems l' = if lp_capacity l <=? index l then elems l else elems l ++ [Some x].
Proof.
  intros Hwf. pose proof (length_elems l Hwf) as Hlen. pose proof Hwf as [? ? (d & Hd & Hdl)].
  unfold tn_list_ptr_push_back. mrun. rewrite Hd. simpl.
  destruct (Z.leb_spec (lp_capacity l) (index l)); [by exists l|].
  unfold store_data. mrun. rewrite Hd. mrun. rewrite decide_True by lia. simpl. rewrite u64_small by lia.
  eexists. split; [done|]. split_and!; try done.
  - split; simpl; [done|lia|]. eexists. split; [done|]. by rewrite length_insert.
  - unfold elems. simpl. rewrite Hd. simpl.
    replace (Z.to_nat (index l + 1)) with (S (Z.to_nat (index l))) by lia.
    rewrite (take_S_r _ _ (Some x)) by (apply list_lookup_insert_eq; lia).
    by rewrite take_insert_ge.
Qed.

Lemma exec_list_refines o l r xs' :
  list_wf l → spec_list (lp_capacity l) o (elems l) = Some (r, xs') →
  ∃ l', exec_list o l = Some (r, l') ∧ list_wf l' ∧ lp_capacity l' = lp_capacity l ∧ elems l' = xs'.
Proof.
  intros Hwf Hs. pose proof (length_elems l Hwf) as Hlen. pose proof Hwf as [? Hi (d & Hd & Hdl)].
  destruct o as [x| | | |i|i j|i]; simpl in Hs.
  - destruct (push_back_run l x Hwf) as (l' & Hrun & Hwf' & Hc & He).
    exists l'. unfold exec_list. rewrite (bind_Some _ _ _ _ _ Hrun).
    rewrite Hlen in Hs. case_match; by simplify_eq.
  - unfold exec_list, tn_list_ptr_pop_back. mrun. rewrite Hd. simpl. case_bool.
    + assert (elems l = []) as He by (apply nil_length_inv; lia).
      rewrite He in Hs. simplify_eq/=. exists l. rewrite He. done.
    + destruct (shrink_run l Hwf ltac:(lia)) as (Hwf' & _ & He & x & Hx & Hload).
      rewrite Hx in Hs. simplify_eq/=. mrun in Hload. rewrite Hload. by eexists.
  - simplify_eq. exists l. by rewrite Hlen.
  - simplify_eq. eexists. split; [done|]. split_and!; try done. by split; simpl; try lia; exists d.
  - destruct (elems l !! Z.to_nat i) as [x|] eqn:Hx; [|done]. simplify_eq/=.
    exists l. unfold exec_list, tn_list_ptr_get.
    by rewrite (bind_Some _ _ _ _ _ (load_data_run l i x Hwf Hx)).
  - destruct (elems l !! Z.to_nat i) as [x|] eqn:Hx; [|done].
    destruct (elems l !! Z.to_nat j) as [y|] eqn:Hy; [|done]. simplify_eq/=.
    pose proof (lookup_lt_Some _ _ _ Hx). pose proof (lookup_lt_Some _ _ _ Hy).
    destruct (store_data_run l i y Hwf ltac:(lia)) as (l1 & Hr1 & Hwf1 & Hc1 & Hi1 & He1 & _).
    destruct (store_data_run l1 j x Hwf1 ltac:(lia)) as (l2 & Hr2 & Hwf2 & Hc2 & Hi2 & He2 & _).
    exists l2. unfold exec_list, tn_list_ptr_swap. rewrite !M_assoc.
    rewrite (bind_Some _ _ _ _ _ (load_data_run l i x Hwf Hx)). rewrite M_assoc.
    rewrite (bind_Some _ _ _ _ _ (load_data_run l j y Hwf Hy)). rewrite M_assoc.
    rewrite (bind_Some _ _ _ _ _ Hr1), (bind_Some _ _ _ _ _ Hr2).
    split_and!; try done; [lia|]. by rewrite He2, He1.
  - unfold exec_list, tn_list_ptr_remove. case_decide as He.
    { simplify_eq. exists l. rewrite He in Hlen. simpl in Hlen. mrun. by bool_lia. }
    case_decide as Hlt; [|done]. simplify_eq.
    assert (0 < index l) as Hpos.
    { destruct (elems l); [done|]. simpl in *. lia. }
    destruct (shrink_run l Hwf Hpos) as (Hwf' & Hi' & He' & x & Hx & Hload).
    destruct (store_data_run _ i x Hwf' ltac:(simpl; lia)) as (l2 & Hr2 & Hwf2 & Hc2 & _ & He2 & _).
    exists l2. mrun. bool_lia. mrun in Hload. rewrite Hload. mrun in Hr2. rewrite Hr2.
    split_and!; try done. rewrite He2, He'. unfold swap_remove. rewrite Hx.
    apply list_eq. intros k. rewrite lookup_take.
    destruct (decide (Z.to_nat i = k)) as [<-|].
    + case_decide.
      * rewrite !list_lookup_insert_eq; [done|lia|rewrite length_take; lia].
      * apply lookup_ge_None_2. rewrite length_insert, length_take. lia.
    + rewrite !list_lookup_insert_ne by done. by rewrite lookup_take.
Qed.

(** Removing an element keeps the others. *)
Lemma swap_remove_perm {B} (i : nat) (xs : list B) x :
  xs !! i = Some x → xs ≡ₚ x :: swap_remove i xs.
Proof.
  intros Hx. unfold swap_remove. destruct (list.last xs) as [y|] eqn:Hy.
  2:{ apply last_None in Hy. by subst. }
  apply last_Some in Hy as [ys ->]. rewrite length_app. simpl.
  replace (length ys + 1 - 1)%nat with (length ys) by lia.
  apply lookup_app_Some in Hx as [Hx|[Hge Hx]].
  - rewrite insert_app_l by (by eapply lookup_lt_Some).
    rewrite take_app_length' by by rewrite length_insert.
    pose proof (lookup_lt_Some _ _ _ Hx).
    rewrite <- (take_drop_middle ys i x Hx) at 1.
    rewrite insert_take_drop by done. solve_Permutation.
  - destruct (i - length ys)%nat eqn:Hi; [|done]. simplify_eq/=.
    rewrite insert_app_r_alt by lia. rewrite take_app_length. by rewrite Permutation_app_comm.
Qed.

End Facts.

Section Setup.
Context {A : Type}.

Lemma list_setup_run (acquire : Z → option (list (ptr A))) cap d l0 :
  0 ≤ cap < 2 ^ 61 → acquire (cap * 8) = Some d → Z.of_nat (length d) = cap →
  ∃ l, tn_list_ptr_setup acquire cap l0 = Some (TN_SUCCESS, l) ∧ list_wf l ∧
    lp_capacity l = cap ∧ elems l = [].
Proof.
  intros Hc Ha Hl. unfold tn_list_ptr_setup. mrun. rewrite u64_small, Ha by lia. mrun.
  eexists. split; [done|]. split_and!; try done. split; simpl; [lia|lia|by exists d].
Qed.

Lemma exec_list_all_refines (os : list (list_op A)) l rs xs' :
  list_wf l → spec_list_all (lp_capacity l) os (elems l) = Some (rs, xs') →
  ∃ l', exec_list_all os l = Some (rs, l') ∧ list_wf l' ∧ lp_capacity l' = lp_capacity l ∧
    elems l' = xs'.
Proof.
  revert l rs. induction os as [|o os IH]; intros l rs Hwf Hs; simpl in Hs.
  { simplify_eq. by exists l. }
  destruct (spec_list (lp_capacity l) o (elems l)) as [[r xs1]|] eqn:Ho; [|done]. simpl in Hs.
  destruct (spec_list_all (lp_capacity l) os xs1) as [[rs1 xs2]|] eqn:Hos; [|done]. simplify_eq/=.
  destruct (exec_list_refines o l r xs1 Hwf Ho) as (l1 & Hr & Hwf1 & Hc1 & <-).
  rewrite <- Hc1 in Hos. destruct (IH l1 rs1 Hwf1 Hos) as (l2 & Hr2 & ? & Hc2 & ?).
  exists l2. rewrite Hc2. by rewrite (bind_Some _ _ _ _ _ Hr), (bind_Some _ _ _ _ _ Hr2).
Qed.

End Setup.

(** ** Theorems *)

(** From a successful set-up, any sequence of calls whose indices are those of
    elements does what a stack bounded by the capacity does: push appends or
    reports [TN_ERROR] when full, pop takes the last element or reports
    [TN_ERROR] when empty, remove puts the last element in the hole. *)
Theorem list_ptr_refines_stack {A} (acquire : Z → option (list (ptr A))) cap d os rs xs' l0 :
  0 ≤ cap < 2 ^ 61 → acquire (cap * 8) = Some d → Z.of_nat (length d) = cap →
  spec_list_all cap os [] = Some (rs, xs') →
  ∃ l1 l2, tn_list_ptr_setup acquire cap l0 = Some (TN_SUCCESS, l1) ∧
    exec_list_all os l1 = Some (rs, l2) ∧ list_wf l2 ∧ elems l2 = xs' ∧
    Z.of_nat (length xs') ≤ cap.
Proof.
  intros Hc Ha Hl Hs. destruct (list_setup_run acquire cap d l0 Hc Ha Hl) as (l1 & Hr & Hwf & Hcap & He).
  rewrite <- Hcap, <- He in Hs.
  destruct (exec_list_all_refines os l1 rs xs' Hwf Hs) as (l2 & Hr2 & Hwf2 & Hc2 & He2).
  exists l1, l2. split_and!; try done. rewrite <- He2, length_elems by done.
  rewrite <- Hcap, <- Hc2. apply Hwf2.
Qed.

(** Removal does not check its index.  With the index of an element exactly that
    element disappears and the others stay, in some order; with an index past the
    elements but inside the array the call reports success as well, and it is
    the last element that is lost. *)
Theorem remove_drops_one {A} (l : tn_list_ptr_t A) i :
  list_wf l → 0 ≤ i < lp_capacity l → elems l ≠ [] →
  ∃ l', tn_list_ptr_remove i l = Some (TN_SUCCESS, l') ∧ list_wf l' ∧
    (∀ x, elems l !! Z.to_nat i = Some x → elems l ≡ₚ x :: elems l') ∧
    (index l ≤ i → ∃ x, elems l = elems l' ++ [x]).
Proof.
  intros Hwf Hi Hne. pose proof (length_elems l Hwf) as Hlen.
  assert (0 < index l) as Hpos.
  { destruct (elems l); [done|]. simpl in *. lia. }
  destruct (shrink_run l Hwf Hpos) as (Hwf' & Hi' & He' & x & Hx & Hload).
  destruct (store_data_run _ i x Hwf' ltac:(simpl; lia)) as (l2 & Hr2 & Hwf2 & Hc2 & _ & He2 & _).
  exists l2. split.
  { unfold tn_list_ptr_remove. mrun. bool_lia. mrun in Hload. rewrite Hload. mrun in Hr2.
    by rewrite Hr2. }
  split; [done|]. split.
  - intros y Hy. pose proof (lookup_lt_Some _ _ _ Hy) as Hlt.
    destruct (exec_list_refines (LRemove i) l (TN_SUCCESS, None, 0)
      (swap_remove (Z.to_nat i) (elems l)) Hwf) as (l3 & Hr3 & _ & _ & He3).
    { simpl. by rewrite decide_False, decide_True. }
    rewrite (swap_remove_perm _ _ _ Hy), <- He3. f_equiv.
    unfold exec_list, tn_list_ptr_remove in Hr3. mrun in Hr3.
    rewrite (proj2 (Z.eqb_neq _ _)) in Hr3 by lia. mrun in Hload. rewrite Hload in Hr3.
    mrun in Hr2. rewrite Hr2 in Hr3. by simplify_eq.
  - intros Hge. apply last_Some in Hx as [ys Hys]. exists x.
    rewrite He2, He', list_insert_ge by (rewrite length_take; lia).
    rewrite Hys, length_app. simpl. replace (length ys + 1 - 1)%nat with (length ys) by lia.
    by rewrite take_app_length.
Qed.

Lemma list_ptr_refines_stack_witness :
  ∃ l1 l2, tn_list_ptr_setup (λ sz, Some (replicate (Z.to_nat (sz / 8)) NULL)) 2
      {| data := NULL; lp_capacity := 9; index := 9 |} = Some (TN_SUCCESS, l1) ∧
    exec_list_all [LPush 5; LPush 6; LPush 7; LRemove 0; LCount; LPop; LPop] l1 =
      Some ([(TN_SUCCESS, None, 0); (TN_SUCCESS, None, 0); (TN_ERROR, None, 0);
             (TN_SUCCESS, None, 0); (0, None, 1); (TN_SUCCESS, Some (Some 6), 0);
             (TN_ERROR, None, 0)], l2) ∧
    list_wf l2 ∧ elems l2 = [] ∧ 0 ≤ 2.
Proof.
  refine (list_ptr_refines_stack _ 2 (replicate 2 NULL) _ _ _ _ _ _ _ _);
    [lia|reflexivity|reflexivity|vm_compute; reflexivity].
Defined.

Lemma remove_drops_one_witness :
  ∃ l', tn_list_ptr_remove 3 {| data := Some [Some 1; Some 2; NULL; NULL]; lp_capacity := 4; index := 2 |} =
      Some (TN_SUCCESS, l') ∧ ∃ x, [Some 1; Some 2] = elems l' ++ [x].
Proof.
  destruct (remove_drops_one
    {| data := Some [Some 1; Some 2; NULL; NULL]; lp_capacity := 4; index := 2 |} 3)
    as (l' & Hr & _ & _ & Hl).
  - split; simpl; [lia|lia|]. eexists. split; reflexivity.
  - simpl. lia.
  - discriminate.
  - exists l'. split; [exact Hr|]. apply Hl. simpl. lia.
Defined.
