(* ===== verification/Inet.v ===== *)
(** Textual IP addresses: deps/libuv/src/inet.c, strscpy.c and the address functions
    of uv-common.c that src/endpoint.c calls.

    A C string is the list of its bytes without the terminating 0; a 4- or 16-byte
    address is the list of its bytes in network order. *)
From stdpp Require Import base numbers list option.
From Stdlib Require Import ZArith Lia String Ascii.
From stdpp Require Import list.
From S2P Require Import Prelude.

Local Open Scope Z_scope.

(** The bytes of a literal. *)
Definition chr (c : ascii) : Z := Z.of_N (N_of_ascii c).
Definition str (s : string) : list Z := chr <$> list_ascii_of_string s.

(** Linux values. *)
Definition AF_INET : Z := 2.
Definition AF_INET6 : Z := 10.
Definition UV_EINVAL : Z := -22.
Definition UV_ENOSPC : Z := -28.
Definition UV_E2BIG : Z := -7.
Definition UV_EAFNOSUPPORT : Z := -97.

(** [%u] and [%x] of [sprintf]: digits in base [b], most significant first. *)
Definition digit_char (d : Z) : Z := if d <? 10 then 48 + d else 87 + d.
Fixpoint fmt_base (fuel : nat) (b n : Z) : list Z :=
  match fuel with
  | O => []
  | S fuel => if n <? b then [digit_char n] else fmt_base fuel b (n / b) ++ [digit_char (n mod b)]
  end.
Definition fmt_u (n : Z) : list Z := fmt_base 10 10 n.
Definition fmt_x (n : Z) : list Z := fmt_base 8 16 n.

(** Copies [s] and its terminator into [n] bytes: the result and the string in [d]. *)
Definition uv__strscpy (s : list Z) (n : Z) : Z * list Z :=
  if Z.of_nat (length s) <? n then (Z.of_nat (length s), s)
  else if n =? 0 then (0, [])
  else (UV_E2BIG, take (Z.to_nat (n - 1)) s).

(** [strchr(set, ch) - set]. *)
Fixpoint index_of (ch : Z) (set : list Z) : option Z :=
  match set with
  | [] => None
  | c :: set => if c =? ch then Some 0 else Z.succ <$> index_of ch set
  end.

(** ** Printing *)

(** The printers return the code and what [dst] holds ([None]: untouched). *)
Definition inet_ntop4 (src : list Z) (size : Z) : Z * option (list Z) :=
  let b i := fmt_u (nth i src 0) in
  let tmp := (b 0%nat ++ str "." ++ b 1%nat ++ str "." ++ b 2%nat ++ str "." ++ b 3%nat)%list in
  let l := Z.of_nat (length tmp) in
  if (l <=? 0) || (size <=? l) then (UV_ENOSPC, None)
  else (0, Some (uv__strscpy tmp size).2).

(** A run of zero words. *)
Record zero_run := { base : Z; len : Z }.

Definition better (best cur : zero_run) : zero_run :=
  if (base best =? -1) || (len best <? len cur) then cur else best.

Definition scan_word (st : zero_run * zero_run) (iw : Z * Z) : zero_run * zero_run :=
  let '(best, cur) := st in
  let '(i, w) := iw in
  if w =? 0 then
    if base cur =? -1 then (best, {| base := i; len := 1 |})
    else (best, {| base := base cur; len := len cur + 1 |})
  else if base cur =? -1 then (best, cur)
  else (better best cur, {| base := -1; len := len cur |}).

Definition best_run (words : list Z) : zero_run :=
  let init := {| base := -1; len := 0 |} in
  let '(best, cur) := fold_left scan_word (imap (λ i w, (Z.of_nat i, w)) words) (init, init) in
  let best := if base cur =? -1 then best else better best cur in
  if negb (base best =? -1) && (len best <? 2) then {| base := -1; len := len best |} else best.

Definition UV__INET6_ADDRSTRLEN : Z := 46.

(** The formatting loop from word [i]; [tp] is what was printed. *)
Fixpoint fmt_words (src words : list Z) (best : zero_run) (n : nat) (i : Z) (tp : list Z) : Z + list Z :=
  match n with
  | O => inr tp
  | S n =>
      if negb (base best =? -1) && (base best <=? i) && (i <? base best + len best) then
        fmt_words src words best n (i + 1) (if i =? base best then tp ++ str ":" else tp)
      else
        let tp := if negb (i =? 0) then (tp ++ str ":")%list else tp in
        let w k := nth k words 0 in
        if (i =? 6) && (base best =? 0) &&
           ((len best =? 6) || ((len best =? 7) && negb (w 7%nat =? 1)) ||
            ((len best =? 5) && (w 5%nat =? 65535)))
        then
          match inet_ntop4 (drop 12 src) (UV__INET6_ADDRSTRLEN - Z.of_nat (length tp)) with
          | (0, Some s) => inr (tp ++ s)
          | (err, _) => inl err
          end
        else fmt_words src words best n (i + 1) (tp ++ fmt_x (w (Z.to_nat i)))
  end.

(** Two bytes to a word. *)
Fixpoint words_of (src : list Z) : list Z :=
  match src with
  | hi :: lo :: src => Z.lor (Z.shiftl hi 8) lo :: words_of src
  | _ => []
  end.

Definition inet_ntop6 (src : list Z) (size : Z) : Z * option (list Z) :=
  let words := words_of src in
  let best := best_run words in
  match fmt_words src words best 8 0 [] with
  | inl err => (err, None)
  | inr tp =>
      let tp := if negb (base best =? -1) && (base best + len best =? 8) then (tp ++ str ":")%list else tp in
      let r := uv__strscpy tp size in
      (if r.1 =? UV_E2BIG then UV_ENOSPC else 0, Some r.2)
  end.

Definition uv_inet_ntop (af : Z) (src : list Z) (size : Z) : Z * option (list Z) :=
  if af =? AF_INET then inet_ntop4 src size
  else if af =? AF_INET6 then inet_ntop6 src size
  else (UV_EAFNOSUPPORT, None).

(** ** Parsing *)

(** [done] are the octets before [*tp], [cur] is [*tp]. *)
Fixpoint pton4_loop (src : list Z) (saw_digit : bool) (octets : Z) (done : list Z) (cur : Z) : Z + list Z :=
  match src with
  | [] => if octets <? 4 then inl UV_EINVAL else inr (done ++ [cur])
  | ch :: src =>
      match index_of ch (str "0123456789") with
      | Some d =>
          let nw := cur * 10 + d in
          if saw_digit && (cur =? 0) then inl UV_EINVAL
          else if 255 <? nw then inl UV_EINVAL
          else if negb saw_digit then
            if 4 <? octets + 1 then inl UV_EINVAL
            else pton4_loop src true (octets + 1) done nw
          else pton4_loop src saw_digit octets done nw
      | None =>
          if (ch =? chr ".") && saw_digit then
            if octets =? 4 then inl UV_EINVAL
            else pton4_loop src false octets (done ++ [cur]) 0
          else inl UV_EINVAL
      end
  end.

Definition inet_pton4 (src : list Z) : Z + list Z := pton4_loop src false 0 [] 0.

Definition hex_digit (ch : Z) : option Z :=
  match index_of ch (str "0123456789abcdef") with
  | Some d => Some d
  | None => index_of ch (str "0123456789ABCDEF")
  end.

Definition word_bytes (val : Z) : list Z := [Z.land (Z.shiftr val 8) 255; Z.land val 255].

(** What follows the loop: [tp] are the bytes written, [colonp] where the "::" is. *)
Definition pton6_end (tp : list Z) (colonp : option nat) (seen_xdigits val : Z) : Z + list Z :=
  let finish tp :=
    match colonp with
    | None => if Z.of_nat (length tp) =? 16 then inr tp else inl UV_EINVAL
    | Some c =>
        if Z.of_nat (length tp) =? 16 then inl UV_EINVAL
        else inr (take c tp ++ replicate (16 - length tp) 0 ++ drop c tp)%list
    end in
  if seen_xdigits =? 0 then finish tp
  else if 16 <? Z.of_nat (length tp) + 2 then inl UV_EINVAL
  else finish (tp ++ word_bytes val).

Fixpoint pton6_loop (src curtok tp : list Z) (colonp : option nat) (seen_xdigits val : Z) : Z + list Z :=
  match src with
  | [] => pton6_end tp colonp seen_xdigits val
  | ch :: src =>
      match hex_digit ch with
      | Some d =>
          if 4 <? seen_xdigits + 1 then inl UV_EINVAL
          else pton6_loop src curtok tp colonp (seen_xdigits + 1) (Z.lor (Z.shiftl val 4) d)
      | None =>
          if ch =? chr ":" then
            if seen_xdigits =? 0 then
              match colonp with
              | Some _ => inl UV_EINVAL
              | None => pton6_loop src src tp (Some (length tp)) 0 val
              end
            else if bool_decide (src = []) then inl UV_EINVAL
            else if 16 <? Z.of_nat (length tp) + 2 then inl UV_EINVAL
            else pton6_loop src src (tp ++ word_bytes val) colonp 0 0
          else if (ch =? chr ".") && (Z.of_nat (length tp) + 4 <=? 16) then
            match inet_pton4 curtok with
            | inr bs => pton6_end (tp ++ bs) colonp 0 val
            | inl _ => inl UV_EINVAL
            end
          else inl UV_EINVAL
      end
  end.

Definition inet_pton6 (src : list Z) : Z + list Z :=
  match src with
  | c1 :: rest =>
      if c1 =? chr ":" then
        match rest with
        | c2 :: _ => if c2 =? chr ":" then pton6_loop rest rest [] None 0 0 else inl UV_EINVAL
        | [] => inl UV_EINVAL
        end
      else pton6_loop src src [] None 0 0
  | [] => pton6_loop [] [] [] None 0 0
  end.

(** [src] up to the first '%', if there is one. *)
Fixpoint before_zone (src : list Z) : option (list Z * list Z) :=
  match src with
  | [] => None
  | c :: src => if c =? chr "%" then Some ([], src) else prod_map (cons c) id <$> before_zone src
  end.

Definition uv_inet_pton (af : Z) (src : list Z) : Z + list Z :=
  if af =? AF_INET then inet_pton4 src
  else if af =? AF_INET6 then
    match before_zone src with
    | Some (s, _) =>
        if UV__INET6_ADDRSTRLEN - 1 <? Z.of_nat (length s) then inl UV_EINVAL else inet_pton6 s
    | None => inet_pton6 src
    end
  else inl UV_EAFNOSUPPORT.

(** ** Socket addresses *)

(** What the code uses of struct sockaddr_storage: the family and the members of the
    two address families.  A port is its two bytes in network order. *)
Inductive sockaddr :=
  | SockAddr (sa_family : Z)
  | SockAddrIn (sin_port sin_addr : list Z)
  | SockAddrIn6 (sin6_port sin6_addr : list Z) (sin6_scope_id : Z).

Definition sa_family_of (a : sockaddr) : Z :=
  match a with SockAddr f => f | SockAddrIn _ _ => AF_INET | SockAddrIn6 _ _ _ => AF_INET6 end.

Definition htons (port : Z) : list Z := [Z.shiftr (u16 port) 8; Z.land (u16 port) 255].
Definition ntohs (p : list Z) : Z := nth 0 p 0 * 256 + nth 1 p 0.

(** The code and the address, whose port is set even when the text is refused. *)
Definition uv_ip4_addr (ip : list Z) (port : Z) : Z * sockaddr :=
  match uv_inet_pton AF_INET ip with
  | inr a => (0, SockAddrIn (htons port) a)
  | inl err => (err, SockAddrIn (htons port) (replicate 4 0))
  end.

(** [if_nametoindex] is the operating system's interface table. *)
Definition uv_ip6_addr (if_nametoindex : list Z → Z) (ip : list Z) (port : Z) : Z * sockaddr :=
  let '(ip, scope) :=
    match before_zone ip with
    | Some (a, zone) => (take 39 a, if_nametoindex zone)
    | None => (ip, 0)
    end in
  match uv_inet_pton AF_INET6 ip with
  | inr a => (0, SockAddrIn6 (htons port) a scope)
  | inl err => (err, SockAddrIn6 (htons port) (replicate 16 0) scope)
  end.

Definition uv_ip4_name (addr : list Z) (size : Z) : Z * option (list Z) := uv_inet_ntop AF_INET addr size.
Definition uv_ip6_name (addr : list Z) (size : Z) : Z * option (list Z) := uv_inet_ntop AF_INET6 addr size.

(** ** Round trip of IPv4 addresses *)

Section RoundTrip4.

Definition byte_range (b : Z) : Prop := 0 ≤ b < 256.

(** A property of all bytes by enumeration. *)
Lemma all_bytes (P : Z → Prop) : Forall P (seqZ 0 256) → ∀ b, byte_range b → P b.
Proof. intros H b Hb. rewrite Forall_forall in H. apply H, elem_of_seqZ. unfold byte_range in Hb. lia. Qed.

(** The decimal digits of a byte are read as that byte. *)
Lemma pton4_byte k b rest acc :
  byte_range b → (k < 4)%nat →
  pton4_loop (fmt_u b ++ rest) false (Z.of_nat k) acc 0 =
    pton4_loop rest true (Z.of_nat (S k)) acc b.
Proof.
  intros Hb Hk. revert b Hb. apply all_bytes.
  destruct k as [|[|[|[|k]]]]; [..|lia]; repeat (apply Forall_cons; split; [reflexivity|]);
    apply Forall_nil; exact I.
Qed.

Lemma pton4_dot k b rest acc :
  (k < 4)%nat →
  pton4_loop (chr "." :: rest) true (Z.of_nat k) acc b =
    pton4_loop rest false (Z.of_nat k) (acc ++ [b]) 0.
Proof. intros Hk. destruct k as [|[|[|[|k]]]]; [reflexivity..|lia]. Qed.

Definition dotted (a b c d : Z) : list Z :=
  fmt_u a ++ str "." ++ fmt_u b ++ str "." ++ fmt_u c ++ str "." ++ fmt_u d.

Lemma fmt_u_byte_length b : byte_range b → (1 ≤ length (fmt_u b) ≤ 3)%nat.
Proof.
  revert b. apply all_bytes. repeat (apply Forall_cons; split; [vm_compute; lia|]). apply Forall_nil; exact I.
Qed.

Lemma pton4_dotted a b c d :
  byte_range a → byte_range b → byte_range c → byte_range d →
  inet_pton4 (dotted a b c d) = inr [a; b; c; d].
Proof.
  intros Ha Hb Hc Hd. unfold inet_pton4, dotted.
  rewrite (pton4_byte 0) by (done || lia). simpl (str "." ++ _). rewrite (pton4_dot 1) by lia.
  rewrite (pton4_byte 1) by (done || lia). simpl (str "." ++ _). rewrite (pton4_dot 2) by lia.
  rewrite (pton4_byte 2) by (done || lia). simpl (str "." ++ _). rewrite (pton4_dot 3) by lia.
  rewrite <- (app_nil_r (fmt_u d)), (pton4_byte 3) by (done || lia). reflexivity.
Qed.

Lemma ntop4_dotted a b c d size :
  byte_range a → byte_range b → byte_range c → byte_range d → 16 ≤ size →
  inet_ntop4 [a; b; c; d] size = (0, Some (dotted a b c d)).
Proof.
  intros Ha Hb Hc Hd Hs. unfold inet_ntop4. simpl nth. fold (dotted a b c d).
  assert (1 ≤ length (dotted a b c d) ≤ 15)%nat as Hl.
  { unfold dotted. rewrite !length_app. simpl.
    pose proof (fmt_u_byte_length a Ha). pose proof (fmt_u_byte_length b Hb).
    pose proof (fmt_u_byte_length c Hc). pose proof (fmt_u_byte_length d Hd). lia. }
  bool_lia. simpl. unfold uv__strscpy. by bool_lia.
Qed.

Lemma before_zone_None s : Forall (λ c, c ≠ chr "%") s → before_zone s = None.
Proof. induction 1 as [|c s Hc _ IH]; [done|]. simpl. rewrite IH. by rewrite (proj2 (Z.eqb_neq _ _)). Qed.

Lemma fmt_u_no_zone b : byte_range b → Forall (λ c, c ≠ chr "%") (fmt_u b).
Proof.
  revert b. apply all_bytes.
  repeat (apply Forall_cons; split; [by repeat constructor|]). apply Forall_nil; exact I.
Qed.

(** A first group of decimal digits and a dot hand over to the IPv4 parser. *)
Lemma pton6_quad a rest :
  byte_range a →
  inet_pton6 (fmt_u a ++ chr "." :: rest) =
    match inet_pton4 (fmt_u a ++ chr "." :: rest) with
    | inr bs => pton6_end bs None 0 0
    | inl _ => inl UV_EINVAL
    end.
Proof.
  revert a. apply all_bytes.
  repeat (apply Forall_cons; split; [reflexivity|]). apply Forall_nil; exact I.
Qed.

Lemma dotted_no_zone a b c d :
  byte_range a → byte_range b → byte_range c → byte_range d →
  Forall (λ c, c ≠ chr "%") (dotted a b c d).
Proof.
  intros. unfold dotted. repeat (apply Forall_app; split); (by apply fmt_u_no_zone) || by repeat constructor.
Qed.

(** A dotted quad is not an IPv6 address. *)
Lemma pton6_dotted a b c d :
  byte_range a → byte_range b → byte_range c → byte_range d →
  uv_inet_pton AF_INET6 (dotted a b c d) = inl UV_EINVAL.
Proof.
  intros Ha Hb Hc Hd. pose proof (pton4_dotted a b c d Ha Hb Hc Hd) as H4.
  unfold uv_inet_pton. simpl. rewrite before_zone_None by by apply dotted_no_zone.
  unfold dotted in *. simpl (str "." ++ fmt_u b ++ _) in *. by rewrite pton6_quad, H4.
Qed.

End RoundTrip4.
