(* ===== verification/Endpoint.v ===== *)
(** Endpoints: src/endpoint.c and include/tn/endpoint.h.

    An endpoint is a type tag and a socket address.  The file shows that an IPv4
    endpoint survives the trip through its textual form and that the unbounded
    [sprintf] of [tn_endpoint_get_string] stays inside the buffers its callers use. *)
From stdpp Require Import base numbers list option.
From Stdlib Require Import ZArith Lia String Ascii.
From stdpp Require Import list.
From S2P Require Import Prelude Inet.

Local Open Scope Z_scope.

Definition TN_ENDPOINT_TYPE_NONE : Z := 0.
Definition TN_ENDPOINT_TYPE_IPV4 : Z := 1.
Definition TN_ENDPOINT_TYPE_IPV6 : Z := 2.

Record tn_endpoint_t := {
  ep_type : Z;
  ep_sockaddr : sockaddr;
}.

(** The endpoint with all bytes 0. *)
Definition zero_endpoint : tn_endpoint_t := {| ep_type := 0; ep_sockaddr := SockAddr 0 |}.

(** The code and the string in [buf]; [None] when [sprintf] writes past the
    [buf_len] bytes of [buf]. *)
Definition tn_endpoint_get_string (endpoint : tn_endpoint_t) (buf_len : Z) : option (Z * list Z) :=
  let print (ipbuf : list Z) (port : Z) :=
    let s := (ipbuf ++ str ":" ++ fmt_u port)%list in
    if Z.of_nat (length s) <? buf_len then Some (TN_SUCCESS, s) else None in
  match ep_sockaddr endpoint with
  | SockAddrIn6 port addr _ => print (default [] (uv_ip6_name addr 255).2) (ntohs port)
  | SockAddrIn port addr => print (default [] (uv_ip4_name addr 255).2) (ntohs port)
  | SockAddr _ => Some (TN_ERROR, [])
  end.

Definition tn_endpoint_set_ip4 (ip : ptr (list Z)) (port : Z) : M tn_endpoint_t Z :=
  match ip with
  | None => mret TN_ERROR
  | Some ip =>
      put zero_endpoint;;
      let r := uv_ip4_addr ip port in
      modify (λ e, {| ep_type := ep_type e; ep_sockaddr := r.2 |});;
      if negb (r.1 =? 0) then mret TN_ERROR
      else
        modify (λ e, {| ep_type := TN_ENDPOINT_TYPE_IPV4; ep_sockaddr := ep_sockaddr e |});;
        mret TN_SUCCESS
  end.

Section Os.
Context (if_nametoindex : list Z → Z).

Definition tn_endpoint_set_ip6 (ip : ptr (list Z)) (port : Z) : M tn_endpoint_t Z :=
  match ip with
  | None => mret TN_ERROR
  | Some ip =>
      put zero_endpoint;;
      let r := uv_ip6_addr if_nametoindex ip port in
      modify (λ e, {| ep_type := ep_type e; ep_sockaddr := r.2 |});;
      if negb (r.1 =? 0) then mret TN_ERROR
      else
        modify (λ e, {| ep_type := TN_ENDPOINT_TYPE_IPV6; ep_sockaddr := ep_sockaddr e |});;
        mret TN_SUCCESS
  end.

Definition tn_endpoint_set (ip : ptr (list Z)) (port : Z) : M tn_endpoint_t Z :=
  r ← tn_endpoint_set_ip6 ip port;
  if negb (r =? 0) then tn_endpoint_set_ip4 ip port else mret TN_SUCCESS.

End Os.

Definition tn_endpoint_convert_from (sockaddr : ptr sockaddr) : M tn_endpoint_t Z :=
  match sockaddr with
  | None => mret TN_ERROR
  | Some sa =>
      put zero_endpoint;;
      match sa with
      | SockAddrIn6 _ _ _ =>
          put {| ep_type := TN_ENDPOINT_TYPE_IPV6; ep_sockaddr := sa |};; mret TN_SUCCESS
      | SockAddrIn _ _ =>
          put {| ep_type := TN_ENDPOINT_TYPE_IPV4; ep_sockaddr := sa |};; mret TN_SUCCESS
      | SockAddr _ => mret TN_ERROR
      end
  end.

(** ** Lengths *)

Section Lengths.

Lemma fmt_base_length fuel b n : (length (fmt_base fuel b n) ≤ fuel)%nat.
Proof.
  revert n. induction fuel as [|fuel IH]; intros n; simpl; [lia|].
  case_match; simpl; [lia|]. rewrite length_app. simpl. specialize (IH (n / b)). lia.
Qed.

(** [k] digits are enough below [b ^ k]. *)
Lemma fmt_base_digits fuel b n k :
  1 < b → 0 ≤ n < b ^ Z.of_nat (S k) → (length (fmt_base fuel b n) ≤ S k)%nat.
Proof.
  intros Hb. revert n k. induction fuel as [|fuel IH]; intros n k Hn; simpl; [lia|].
  destruct (Z.ltb_spec n b); simpl; [lia|]. rewrite length_app. simpl.
  destruct k as [|k]; [rewrite Z.pow_1_r in Hn; lia|].
  enough (length (fmt_base fuel b (n / b)) ≤ S k)%nat by lia.
  apply IH. split; [apply Z.div_pos; lia|]. apply Z.div_lt_upper_bound; [lia|].
  replace (b * b ^ Z.of_nat (S k)) with (b ^ Z.of_nat (S (S k))); [lia|].
  rewrite (Nat2Z.inj_succ (S k)), Z.pow_succ_r by lia. done.
Qed.

Lemma strscpy_length s n : 0 ≤ n → (length (uv__strscpy s n).2 ≤ length s)%nat.
Proof. intros Hn. unfold uv__strscpy. repeat case_match; simpl; rewrite ?length_take; lia. Qed.

Lemma ntop4_length src size s : inet_ntop4 src size = (0, Some s) → Z.of_nat (length s) < size.
Proof.
  unfold inet_ntop4. cbv zeta.
  match goal with |- context [uv__strscpy ?t _] => generalize t; intros tmp end.
  destruct (_ || _) eqn:He; [done|].
  apply orb_false_iff in He as [_ He]. apply Z.leb_gt in He. intros [= <-].
  unfold uv__strscpy. bool_lia. exact He.
Qed.

Lemma fmt_words_length src words best n i tp s :
  Forall (λ w, 0 ≤ w < W16) words → (length tp ≤ 45)%nat →
  (length tp + 5 * n ≤ 45)%nat →
  fmt_words src words best n i tp = inr s → (length s ≤ 45)%nat.
Proof.
  intros Hw. revert i tp. induction n as [|n IH]; intros i tp Ht Hn Hf; simpl in Hf.
  { by injection Hf as <-. }
  destruct (_ && _ && _) eqn:Hskip in Hf.
  { eapply IH; [| |exact Hf]; destruct (i =? base best); rewrite ?length_app; simpl; lia. }
  set (tp' := if negb (i =? 0) then (tp ++ str ":")%list else tp) in Hf.
  assert (length tp' ≤ length tp + 1)%nat as Ht'.
  { unfold tp'. destruct (i =? 0); simpl; rewrite ?length_app; simpl; lia. }
  destruct (_ && _ && _) eqn:Hv4 in Hf.
  - destruct (inet_ntop4 _ _) as [[| |] [q|]] eqn:H4; try done. injection Hf as <-.
    apply ntop4_length in H4. rewrite length_app. unfold UV__INET6_ADDRSTRLEN in H4. lia.
  - eapply IH; [| |exact Hf].
    all: assert (length (fmt_x (nth (Z.to_nat i) words 0%Z)) ≤ 4)%nat;
      [|rewrite length_app; lia].
    all: apply (fmt_base_digits 8 16 _ 3); [lia|]; change (16 ^ Z.of_nat 4) with W16.
    all: destruct (nth_in_or_default (Z.to_nat i) words 0) as [Hin| ->]; [|lia].
    all: rewrite Forall_forall in Hw; apply Hw, list_elem_of_In, Hin.
Qed.

Lemma words_of_range src : Forall byte_range src → Forall (λ w, 0 ≤ w < W16) (words_of src).
Proof.
  revert src. fix IH 1. intros [|hi [|lo src]] Hs; simpl; [constructor..|].
  apply Forall_cons in Hs as [Hhi Hs]. apply Forall_cons in Hs as [Hlo Hs].
  constructor; [|by apply IH]. unfold byte_range in *.
  assert (0 ≤ Z.shiftl hi 8 < 2 ^ 16) by (rewrite Z.shiftl_mul_pow2 by lia; lia).
  split; [apply Z.lor_nonneg; lia|]. change W16 with (2 ^ 16). apply lor_lt_pow2; lia.
Qed.

Lemma ntop6_length src size s :
  0 ≤ size → Forall byte_range src → (inet_ntop6 src size).2 = Some s → (length s ≤ 46)%nat.
Proof.
  intros Hsz Hb. unfold inet_ntop6.
  destruct (fmt_words _ _ _ _ _ _) as [|tp] eqn:Hf; [done|]. simpl. intros [= <-].
  eapply fmt_words_length in Hf; [|by apply words_of_range|simpl; lia..].
  etrans; [by apply strscpy_length|]. case_match; rewrite ?length_app; simpl; lia.
Qed.

Lemma ntop4_short src size s : 0 ≤ size → (inet_ntop4 src size).2 = Some s → (length s ≤ 46)%nat.
Proof.
  intros Hsz. unfold inet_ntop4. cbv zeta.
  match goal with |- context [uv__strscpy ?t _] => assert (length t ≤ 46)%nat as Ht; [|revert Ht; generalize t] end.
  2:{ intros tmp Ht. case_match; [done|]. cbn [snd]. intros [= <-].
      etrans; [by apply strscpy_length|done]. }
  unfold fmt_u. rewrite !length_app. simpl (length (str ".")).
  pose proof (fmt_base_length 10 10 (nth 0 src 0)). pose proof (fmt_base_length 10 10 (nth 1 src 0)).
  pose proof (fmt_base_length 10 10 (nth 2 src 0)). pose proof (fmt_base_length 10 10 (nth 3 src 0)). lia.
Qed.

Definition port_ok (p : list Z) : Prop := ∃ hi lo, p = [hi; lo] ∧ byte_range hi ∧ byte_range lo.

Lemma port_length p : port_ok p → (length (fmt_u (ntohs p)) ≤ 5)%nat.
Proof.
  intros (hi & lo & -> & Hh & Hl). unfold byte_range in *. apply (fmt_base_digits 10 10 _ 4); [lia|].
  unfold ntohs; simpl. lia.
Qed.

Lemma htons_ok port : port_ok (htons port).
Proof.
  unfold htons. eexists _, _. split; [done|]. unfold byte_range, u16.
  pose proof (Z.mod_pos_bound port W16 ltac:(lia)).
  change 255 with (2 ^ 8 - 1). rewrite land_mask, Z.shiftr_div_pow2 by lia.
  split; [split; [apply Z.div_pos; lia|apply Z.div_lt_upper_bound; lia]|apply Z.mod_pos_bound; lia].
Qed.

Lemma ntohs_htons port : 0 ≤ port < W16 → ntohs (htons port) = port.
Proof.
  intros Hp. unfold ntohs, htons, u16; simpl. rewrite Z.mod_small by lia.
  change 255 with (2 ^ 8 - 1). rewrite land_mask, Z.shiftr_div_pow2 by lia.
  pose proof (Z.div_mod port (2 ^ 8) ltac:(lia)). lia.
Qed.

End Lengths.

(** The bytes of an address the system hands over. *)
Definition sockaddr_ok (sa : sockaddr) : Prop :=
  match sa with
  | SockAddr _ => True
  | SockAddrIn p a => port_ok p ∧ Forall byte_range a
  | SockAddrIn6 p a _ => port_ok p ∧ Forall byte_range a
  end.

Lemma get_string_run e buf_len :
  sockaddr_ok (ep_sockaddr e) → 53 ≤ buf_len →
  ∃ s, tn_endpoint_get_string e buf_len =
      Some (match ep_sockaddr e with SockAddr _ => TN_ERROR | _ => TN_SUCCESS end, s) ∧
    (length s ≤ 52)%nat.
Proof.
  intros Hok Hb. unfold tn_endpoint_get_string. destruct (ep_sockaddr e) as [f|p a|p a sc].
  - exists []. simpl. split; [done|lia].
  - destruct Hok as [Hp Ha]. pose proof (port_length p Hp).
    assert (length (default [] (uv_ip4_name a 255).2) ≤ 46)%nat as Hn.
    { destruct (uv_ip4_name a 255).2 as [s|] eqn:Hs; [|simpl; lia]. by eapply (ntop4_short a 255). }
    match goal with |- context [Z.of_nat (length ?t)] => assert (length t ≤ 52)%nat end.
    { rewrite !length_app. simpl (length (str ":")). lia. }
    eexists. bool_lia. done.
  - destruct Hok as [Hp Ha]. pose proof (port_length p Hp).
    assert (length (default [] (uv_ip6_name a 255).2) ≤ 46)%nat as Hn.
    { destruct (uv_ip6_name a 255).2 as [s|] eqn:Hs; [|simpl; lia].
      eapply (ntop6_length a 255); [lia|done|done]. }
    match goal with |- context [Z.of_nat (length ?t)] => assert (length t ≤ 52)%nat end.
    { rewrite !length_app. simpl (length (str ":")). lia. }
    eexists. bool_lia. done.
Qed.

(** *** Parsed addresses are bytes *)

Lemma index_of_nonneg ch l d : index_of ch l = Some d → 0 ≤ d.
Proof.
  revert d. induction l as [|c l IH]; intros d; simpl; [done|]. destruct (c =? ch).
  - intros [= <-]. lia.
  - destruct (index_of ch l) as [d'|]; simpl; [|done]. intros [= <-]. specialize (IH d' eq_refl). lia.
Qed.

Lemma pton4_loop_bytes src saw octets ds cur bs :
  Forall byte_range ds → byte_range cur → pton4_loop src saw octets ds cur = inr bs →
  Forall byte_range bs.
Proof.
  revert saw octets ds cur. induction src as [|ch src IH]; intros saw octets ds cur Hds Hcur; cbn [pton4_loop].
  { destruct (_ <? _); [done|]. intros [= <-]. apply Forall_app. split; [done|]. by constructor. }
  destruct (index_of ch (str "0123456789")) as [d|] eqn:Ed; cbv zeta.
  - apply index_of_nonneg in Ed. destruct (saw && (cur =? 0)); [done|].
    destruct (Z.ltb_spec 255 (cur * 10 + d)); [done|].
    assert (byte_range (cur * 10 + d)) by (unfold byte_range in *; lia).
    destruct saw; simpl; [by apply IH|]. destruct (_ <? _); [done|by apply IH].
  - destruct (_ && _); [|done]. destruct (_ =? _); [done|]. apply IH.
    + apply Forall_app. split; [done|]. by constructor.
    + unfold byte_range. lia.
Qed.

Lemma word_bytes_range val : Forall byte_range (word_bytes val).
Proof.
  unfold word_bytes, byte_range. change 255 with (2 ^ 8 - 1). rewrite !land_mask by lia.
  repeat constructor; apply Z.mod_pos_bound; lia.
Qed.

Lemma pton6_end_bytes tp colonp seen val bs :
  Forall byte_range tp → pton6_end tp colonp seen val = inr bs → Forall byte_range bs.
Proof.
  intros Htp. unfold pton6_end.
  assert (Hfin : ∀ tp', Forall byte_range tp' →
    match colonp with
    | None => if Z.of_nat (length tp') =? 16 then inr tp' else inl UV_EINVAL
    | Some c => if Z.of_nat (length tp') =? 16 then inl UV_EINVAL
                else inr (take c tp' ++ replicate (16 - length tp') 0 ++ drop c tp')%list
    end = inr bs → Forall byte_range bs).
  { intros tp' Ht. destruct colonp as [c|]; destruct (_ =? _); try done; intros [= <-]; [|done].
    rewrite !Forall_app. split_and!; [by apply Forall_take| |by apply Forall_drop].
    apply Forall_replicate. unfold byte_range. lia. }
  destruct (_ =? 0); [by apply Hfin|]. destruct (_ <? _); [done|]. apply Hfin.
  apply Forall_app. split; [done|apply word_bytes_range].
Qed.

Lemma pton6_loop_bytes src curtok tp colonp seen val bs :
  Forall byte_range tp → pton6_loop src curtok tp colonp seen val = inr bs → Forall byte_range bs.
Proof.
  revert curtok tp colonp seen val. induction src as [|ch src IH];
    intros curtok tp colonp seen val Htp; cbn [pton6_loop]; [by apply pton6_end_bytes|].
  destruct (hex_digit ch); [destruct (_ <? _); [done|by apply IH]|].
  destruct (ch =? chr ":").
  - destruct (_ =? 0); [destruct colonp; [done|by apply IH]|].
    destruct (bool_decide _); [done|]. destruct (_ <? _); [done|]. apply IH.
    apply Forall_app. split; [done|apply word_bytes_range].
  - destruct (_ && _); [|done]. destruct (inet_pton4 curtok) as [|b4] eqn:E; [done|].
    apply pton6_end_bytes, Forall_app. split; [done|].
    unfold inet_pton4 in E. eapply pton4_loop_bytes; [| |exact E]; [constructor|unfold byte_range; lia].
Qed.

Lemma inet_pton6_bytes src bs : inet_pton6 src = inr bs → Forall byte_range bs.
Proof.
  unfold inet_pton6. destruct src as [|c1 rest]; [by apply pton6_loop_bytes; constructor|].
  destruct (c1 =? _); [|apply pton6_loop_bytes; constructor].
  destruct rest as [|c2 rest]; [done|]. destruct (c2 =? _); [|done]. apply pton6_loop_bytes. constructor.
Qed.
Lemma uv_inet_pton_bytes af src bs : uv_inet_pton af src = inr bs → Forall byte_range bs.
Proof.
  unfold uv_inet_pton. destruct (af =? AF_INET).
  { apply pton4_loop_bytes; [constructor|unfold byte_range; lia]. }
  destruct (af =? AF_INET6); [|done].
  destruct (before_zone src) as [[s z]|]; [destruct (_ <? _); [done|]|]; apply inet_pton6_bytes.
Qed.

Lemma zero_bytes n : Forall byte_range (replicate n 0).
Proof. apply Forall_replicate. unfold byte_range. lia. Qed.

(** Setting an endpoint from any text returns, and leaves a well-formed address. *)
Lemma endpoint_set_run if_nametoindex ip port e :
  ∃ r e', tn_endpoint_set if_nametoindex (Some ip) port e = Some (r, e') ∧
    sockaddr_ok (ep_sockaddr e').
Proof.
  unfold tn_endpoint_set, tn_endpoint_set_ip6, tn_endpoint_set_ip4. mrun.
  assert (H6 : sockaddr_ok (uv_ip6_addr if_nametoindex ip port).2).
  { unfold uv_ip6_addr. destruct (before_zone ip) as [[a z]|];
      destruct (uv_inet_pton AF_INET6 _) as [err|bs] eqn:E; cbn [snd sockaddr_ok];
      (split; [apply htons_ok|]); first [apply zero_bytes|by eapply uv_inet_pton_bytes]. }
  assert (H4 : sockaddr_ok (uv_ip4_addr ip port).2).
  { unfold uv_ip4_addr. destruct (uv_inet_pton AF_INET _) as [err|bs] eqn:E; cbn [snd sockaddr_ok];
      (split; [apply htons_ok|]); first [apply zero_bytes|by eapply uv_inet_pton_bytes]. }
  destruct ((uv_ip6_addr if_nametoindex ip port).1 =? 0); simpl; [by eexists _, _|].
  destruct ((uv_ip4_addr ip port).1 =? 0); simpl; by eexists _, _.
Qed.

(** ** Theorems *)

(** C38. Every IPv4 address and port survives the trip through text: setting an endpoint
    from the printed address (the IPv6 parser refuses it first) gives exactly that
    address, and printing the endpoint gives the address, a colon and the port. *)
Theorem endpoint_ip4_round_trip if_nametoindex a b c d port e buf_len :
  byte_range a → byte_range b → byte_range c → byte_range d → 0 ≤ port < W16 → 53 ≤ buf_len →
  ∃ text e',
    (uv_ip4_name [a; b; c; d] 255).2 = Some text ∧
    tn_endpoint_set if_nametoindex (Some text) port e = Some (TN_SUCCESS, e') ∧
    e' = {| ep_type := TN_ENDPOINT_TYPE_IPV4; ep_sockaddr := SockAddrIn (htons port) [a; b; c; d] |} ∧
    tn_endpoint_get_string e' buf_len = Some (TN_SUCCESS, (text ++ str ":" ++ fmt_u port)%list).
Proof.
  intros Ha Hb Hc Hd Hp Hbuf. exists (dotted a b c d). eexists.
  assert ((uv_ip4_name [a; b; c; d] 255).2 = Some (dotted a b c d)) as Hname.
  { unfold uv_ip4_name, uv_inet_ntop. simpl. by rewrite ntop4_dotted by (done || lia). }
  split; [done|]. split_and!.
  - unfold tn_endpoint_set, tn_endpoint_set_ip6, tn_endpoint_set_ip4, uv_ip6_addr, uv_ip4_addr. mrun.
    rewrite before_zone_None by by apply dotted_no_zone.
    rewrite pton6_dotted by done. simpl. unfold uv_inet_pton. simpl.
    rewrite pton4_dotted by done. simpl. done.
  - done.
  - destruct (get_string_run {| ep_type := TN_ENDPOINT_TYPE_IPV4;
      ep_sockaddr := SockAddrIn (htons port) [a; b; c; d] |} buf_len) as (s & Hs & _).
    + simpl. split; [apply htons_ok|]. repeat (apply Forall_cons; split; [done|]). by apply Forall_nil.
    + done.
    + rewrite Hs. unfold tn_endpoint_get_string in Hs. simpl ep_sockaddr in Hs. cbv iota in Hs.
      rewrite Hname, ntohs_htons in Hs by done. cbn [default] in Hs.
      case_match; [|done]. by injection Hs as <-.
Qed.

(** [tn_endpoint_get_string] never checks [buf_len], but with 53 bytes or more it never
    writes past the buffer whatever the address: it succeeds exactly for the IP
    families and the text has at most 52 characters.  Its callers pass 64 and 255. *)
Theorem get_string_fits e buf_len :
  sockaddr_ok (ep_sockaddr e) → 53 ≤ buf_len →
  ∃ r s, tn_endpoint_get_string e buf_len = Some (r, s) ∧ (length s ≤ 52)%nat ∧
    (r = TN_SUCCESS ↔ ∀ f, ep_sockaddr e ≠ SockAddr f).
Proof.
  intros Hok Hb. destruct (get_string_run e buf_len Hok Hb) as (s & Hs & Hl).
  eexists _, s. split; [exact Hs|]. split; [done|].
  destruct (ep_sockaddr e); split; try done. intros Hne. by destruct (Hne sa_family).
Qed.

Lemma endpoint_ip4_round_trip_witness :
  ∃ text e',
    (uv_ip4_name [1; 2; 3; 4] 255).2 = Some text ∧
    tn_endpoint_set (λ _, 0) (Some text) 5354 zero_endpoint = Some (TN_SUCCESS, e') ∧
    e' = {| ep_type := TN_ENDPOINT_TYPE_IPV4; ep_sockaddr := SockAddrIn (htons 5354) [1; 2; 3; 4] |} ∧
    tn_endpoint_get_string e' 255 = Some (TN_SUCCESS, (text ++ str ":" ++ fmt_u 5354)%list).
Proof.
  apply (endpoint_ip4_round_trip (λ _, 0) 1 2 3 4 5354 zero_endpoint 255); unfold byte_range; lia.
Defined.

Lemma get_string_fits_witness :
  ∃ r s, tn_endpoint_get_string
      {| ep_type := TN_ENDPOINT_TYPE_IPV6;
         ep_sockaddr := SockAddrIn6 [255; 255] (replicate 16 255) 0 |} 64 = Some (r, s) ∧
    (length s ≤ 52)%nat ∧ (r = TN_SUCCESS ↔ ∀ f, SockAddrIn6 [255; 255] (replicate 16 255) 0 ≠ SockAddr f).
Proof.
  apply (get_string_fits {| ep_type := TN_ENDPOINT_TYPE_IPV6;
    ep_sockaddr := SockAddrIn6 [255; 255] (replicate 16 255) 0 |} 64); [|lia].
  split; [exists 255, 255; split; [reflexivity|unfold byte_range; lia]|].
  apply Forall_replicate. unfold byte_range. lia.
Defined.
