(* ===== verification/Event.v ===== *)
(** The event list: src/event.c and include/tn/event.h.

    The IO thread takes a free event, fills it and queues it as ready; the main
    thread takes ready events and gives them back.  An event is a 256-byte object
    that the four event structures overlay: [id], [type] and [client_id] are at
    the same offset in all of them, the rest of the object is [body].  A member of
    the body that has not been assigned since the object got its layout holds
    indeterminate bytes ([None]). *)
From stdpp Require Import base numbers list option gmap.
From Stdlib Require Import ZArith Lia.
From S2P Require Import Prelude QueueSpsc.

Local Open Scope Z_scope.
Local Open Scope c_scope.

(** [tn_event_type_t]. *)
Definition TN_EVENT_NONE : Z := 0.
Definition TN_EVENT_IOERROR : Z := 1.
Definition TN_EVENT_CLIENT_OPEN : Z := 2.
Definition TN_EVENT_CLIENT_CLOSE : Z := 3.
Definition TN_EVENT_CLIENT_READ : Z := 4.

(** The members after [client_id] of tn_event_error_t, tn_event_client_open_t,
    tn_event_client_close_t and tn_event_client_read_t.  A [tn_buffer_t *] is an
    index into the read pool. *)
Inductive event_body :=
  | BRaw
  | BError (tn_buffer : option (ptr nat)) (error_code : option Z)
  | BOpen (host_local host_remote : option (list Z))
  | BClose (tn_buffer : option (ptr nat)) (error_code : option Z)
  | BRead (buffer len : option Z) (tn_buffer : option (ptr nat)).

Record tn_event_t := {
  ev_id : Z;
  ev_type : Z;
  client_id : Z;
  body : event_body;
}.

Definition set_ev_id (i : Z) (e : tn_event_t) : tn_event_t :=
  {| ev_id := i; ev_type := ev_type e; client_id := client_id e; body := body e |}.
Definition set_ev_type (t : Z) (e : tn_event_t) : tn_event_t :=
  {| ev_id := ev_id e; ev_type := t; client_id := client_id e; body := body e |}.
Definition set_client_id (c : Z) (e : tn_event_t) : tn_event_t :=
  {| ev_id := ev_id e; ev_type := ev_type e; client_id := c; body := body e |}.
Definition set_body (b : event_body) (e : tn_event_t) : tn_event_t :=
  {| ev_id := ev_id e; ev_type := ev_type e; client_id := client_id e; body := b |}.

Record tn_event_list_t := {
  tn_events : list tn_event_t;
  tn_events_free : tn_queue_spsc_t nat;
  tn_events_ready : tn_queue_spsc_t nat;
  ev_capacity : Z;
}.

Definition set_events (es : list tn_event_t) (l : tn_event_list_t) : tn_event_list_t :=
  {| tn_events := es; tn_events_free := tn_events_free l; tn_events_ready := tn_events_ready l;
     ev_capacity := ev_capacity l |}.
Definition set_events_free (q : tn_queue_spsc_t nat) (l : tn_event_list_t) : tn_event_list_t :=
  {| tn_events := tn_events l; tn_events_free := q; tn_events_ready := tn_events_ready l;
     ev_capacity := ev_capacity l |}.
Definition set_events_ready (q : tn_queue_spsc_t nat) (l : tn_event_list_t) : tn_event_list_t :=
  {| tn_events := tn_events l; tn_events_free := tn_events_free l; tn_events_ready := q;
     ev_capacity := ev_capacity l |}.
Definition set_ev_capacity (c : Z) (l : tn_event_list_t) : tn_event_list_t :=
  {| tn_events := tn_events l; tn_events_free := tn_events_free l;
     tn_events_ready := tn_events_ready l; ev_capacity := c |}.

Definition on_ev_free {A} (f : M (tn_queue_spsc_t nat) A) : M tn_event_list_t A :=
  zoom tn_events_free set_events_free f.
Definition on_ev_ready {A} (f : M (tn_queue_spsc_t nat) A) : M tn_event_list_t A :=
  zoom tn_events_ready set_events_ready f.

(** Assignments through an event pointer; a pointer outside the array is undefined. *)
Definition update_event (i : nat) (f : tn_event_t → tn_event_t) : M tn_event_list_t unit :=
  l ← get;
  e ← lift (tn_events l !! i);
  put (set_events (<[i := f e]> (tn_events l)) l).

(** [sizeof(tn_event_base_t)]. *)
Definition TN_EVENT_MAX_SIZE : Z := 256.

Record event_acquire := {
  acquire_events : Z → option (list tn_event_t);
  acquire_free : Z → option (list (ptr nat));
  acquire_ready : Z → option (list (ptr nat));
}.

(** The loop of the set-up; [i] is a [uint32_t].  [n] bounds the number of rounds: every
    round queues an event or returns, so one more than the capacity is enough. *)
Fixpoint setup_events (n : nat) (i : Z) : M tn_event_list_t Z :=
  l ← get;
  if i <? ev_capacity l then
    match n with
    | O => undef
    | S n =>
        update_event (Z.to_nat i) (set_ev_id i);;
        TN_GUARD (on_ev_free (tn_queue_spsc_push (Some (Z.to_nat i)))) THEN
        setup_events n (u32 (i + 1))
    end
  else mret TN_SUCCESS.

Definition tn_event_list_setup (acq : event_acquire) (capacity : Z) : M tn_event_list_t Z :=
  TN_ASSERT (0 <? capacity);;
  TN_GUARD (on_ev_free (tn_queue_spsc_setup (acquire_free acq) capacity)) THEN
  TN_GUARD (on_ev_ready (tn_queue_spsc_setup (acquire_ready acq) capacity)) THEN
  c ← on_ev_ready tn_queue_spsc_capacity;
  modify (set_ev_capacity c);;
  match acquire_events acq (u64 (c * TN_EVENT_MAX_SIZE)) with
  | None => mret TN_ERROR
  | Some es =>
      modify (set_events es);;
      setup_events (S (Z.to_nat c)) 0
  end.

Definition tn_event_list_cleanup : M tn_event_list_t unit :=
  on_ev_free tn_queue_spsc_cleanup;;
  on_ev_ready tn_queue_spsc_cleanup;;
  modify (set_events []).

(** The pops return the code and the out parameter. *)
Definition tn_event_list_free_pop_back : M tn_event_list_t (Z * ptr nat) :=
  on_ev_free tn_queue_spsc_pop_back.

(** The common shape of the typed pops: the event gets [type] and the layout [b]. *)
Definition free_pop_as (type : Z) (b : event_body) : M tn_event_list_t (Z * ptr nat) :=
  r ← on_ev_free tn_queue_spsc_pop_back;
  if negb (r.1 =? 0) then mret (TN_ERROR, r.2)
  else
    e ← lift r.2;
    update_event e (λ ev, set_body b (set_ev_type type ev));;
    mret (TN_SUCCESS, Some e).

Definition tn_event_list_free_pop_error : M tn_event_list_t (Z * ptr nat) :=
  free_pop_as TN_EVENT_IOERROR (BError (Some NULL) None).
Definition tn_event_list_free_pop_open : M tn_event_list_t (Z * ptr nat) :=
  free_pop_as TN_EVENT_CLIENT_OPEN (BOpen None None).
Definition tn_event_list_free_pop_close : M tn_event_list_t (Z * ptr nat) :=
  free_pop_as TN_EVENT_CLIENT_CLOSE (BClose (Some NULL) None).
Definition tn_event_list_free_pop_read : M tn_event_list_t (Z * ptr nat) :=
  free_pop_as TN_EVENT_CLIENT_READ (BRead None None (Some NULL)).

Definition tn_event_list_ready_push (evt : nat) : M tn_event_list_t Z :=
  on_ev_ready (tn_queue_spsc_push (Some evt)).

Definition tn_event_list_ready_peek : M tn_event_list_t (Z * ptr nat) :=
  r ← on_ev_ready tn_queue_spsc_peek;
  mret (if negb (r.1 =? 0) then (TN_ERROR, r.2) else (TN_SUCCESS, r.2)).

Definition tn_event_list_ready_pop : M tn_event_list_t Z :=
  TN_GUARD (on_ev_ready tn_queue_spsc_pop) THEN mret TN_SUCCESS.

Definition tn_event_list_ready_pop_cached : M tn_event_list_t unit :=
  on_ev_ready tn_queue_spsc_pop_cached.

Definition tn_event_list_ready_pop_back : M tn_event_list_t (Z * ptr nat) :=
  r ← on_ev_ready tn_queue_spsc_pop_back;
  mret (if negb (r.1 =? 0) then (TN_ERROR, r.2) else (TN_SUCCESS, r.2)).

(** The code, the events copied to the out array and the out count. *)
Definition tn_event_list_ready_pop_all (out_count : Z) : M tn_event_list_t (Z * list (ptr nat) * Z) :=
  TN_ASSERT (0 <? out_count);;
  r ← on_ev_ready (tn_queue_spsc_pop_all out_count);
  mret (if negb (r.1.1 =? 0) then (TN_ERROR, r.1.2, r.2) else (TN_SUCCESS, r.1.2, r.2)).

Definition tn_event_list_free_push (evt : nat) : M tn_event_list_t Z :=
  on_ev_free (tn_queue_spsc_push (Some evt)).

(** ** Representation *)

(** The free and the ready events of a list, oldest first; the other events of the
    array are held by one of the threads. *)
Record events_rep (l : tn_event_list_t) (free ready : list nat) : Prop := {
  er_free : wf (tn_events_free l) ∧ capacity (tn_events_free l) = ev_capacity l ∧
    contents (tn_events_free l) = Some <$> free;
  er_ready : wf (tn_events_ready l) ∧ capacity (tn_events_ready l) = ev_capacity l ∧
    contents (tn_events_ready l) = Some <$> ready;
  er_array : Z.of_nat (length (tn_events l)) = ev_capacity l;
  er_nodup : NoDup (free ++ ready);
  er_range : Forall (λ i, (i < length (tn_events l))%nat) (free ++ ready);
}.

(** An event that neither queue holds. *)
Definition held (l : tn_event_list_t) (free ready : list nat) (e : nat) : Prop :=
  (e < length (tn_events l))%nat ∧ e ∉ free ++ ready.

Section Facts.
Implicit Types l : tn_event_list_t.

Lemma held_room l free ready e :
  events_rep l free ready → held l free ready e →
  Z.of_nat (length free) < ev_capacity l ∧ Z.of_nat (length ready) < ev_capacity l.
Proof.
  intros [] [Hlt Hni].
  assert (length (e :: free ++ ready) ≤ length (tn_events l))%nat as Hle.
  { apply nodup_below_length; constructor; done. }
  simpl in Hle. rewrite length_app in Hle. lia.
Qed.

Lemma pop_back_queue (q : tn_queue_spsc_t nat) (xs : list nat) :
  wf q → contents q = Some <$> xs →
  ∃ q', tn_queue_spsc_pop_back q =
      Some (match xs with [] => (TN_QUEUE_EMPTY, NULL) | x :: _ => (TN_SUCCESS, Some x) end, q') ∧
    wf q' ∧ capacity q' = capacity q ∧ contents q' = Some <$> drop 1 xs.
Proof.
  intros Hwf Hc. destruct (pop_back_run q Hwf) as (q' & Hr & Hwf' & Hcap & Hcon).
  rewrite Hc in Hr, Hcon. exists q'. by destruct xs.
Qed.

Lemma push_queue (q : tn_queue_spsc_t nat) (xs : list nat) (x : nat) :
  wf q → contents q = Some <$> xs → Z.of_nat (length xs) < capacity q →
  ∃ q', tn_queue_spsc_push (Some x) q = Some (TN_SUCCESS, q') ∧
    wf q' ∧ capacity q' = capacity q ∧ contents q' = Some <$> xs ++ [x].
Proof.
  intros Hwf Hc Hlt. destruct (push_run q (Some x) Hwf) as (q' & Hr & Hwf' & Hcap & Hcon).
  rewrite <- Zlength_contents, Hc, length_fmap in Hr, Hcon.
  rewrite (proj2 (Z.eqb_neq _ _)) in Hr, Hcon by lia.
  exists q'. by rewrite fmap_app.
Qed.

Lemma free_pop_as_run l type b free ready :
  events_rep l free ready →
  ∃ l', free_pop_as type b l =
      Some (match free with [] => (TN_ERROR, NULL) | e :: _ => (TN_SUCCESS, Some e) end, l') ∧
    events_rep l' (drop 1 free) ready ∧ ev_capacity l' = ev_capacity l ∧
    tn_events l' = match free with
                   | [] => tn_events l
                   | e :: _ => alter (λ ev, set_body b (set_ev_type type ev)) e (tn_events l)
                   end.
Proof.
  intros []. destruct er_free0 as (Hwf & Hcap & Hcon).
  destruct (pop_back_queue _ _ Hwf Hcon) as (q' & Hr & Hwf' & Hcap' & Hcon').
  unfold free_pop_as, on_ev_free.
  rewrite (bind_Some _ _ _ _ _ (zoom_Some _ _ _ l _ _ Hr)).
  destruct free as [|e free]; simpl in *.
  - eexists. split; [done|]. split_and!; try done. split; simpl; try done. by rewrite Hcap'.
  - apply NoDup_cons in er_nodup0 as [_ Hnd]. apply Forall_cons in er_range0 as [He Hrg].
    unfold update_event. mrun. destruct (lookup_lt_is_Some_2 _ _ He) as [ev Hev]. rewrite Hev. mrun.
    eexists. split; [done|]. split_and!; try done.
    + split; simpl; try done; rewrite ?length_insert; try done. by rewrite Hcap'.
    + simpl. symmetry. apply list_eq. intros j. rewrite list_lookup_alter.
      destruct (decide (e = j)) as [->|].
      * rewrite Hev, list_lookup_insert_eq by done. by simpl.
      * by rewrite list_lookup_insert_ne.
Qed.

Lemma ready_push_run l free ready e :
  events_rep l free ready → held l free ready e →
  ∃ l', tn_event_list_ready_push e l = Some (TN_SUCCESS, l') ∧
    events_rep l' free (ready ++ [e]) ∧ ev_capacity l' = ev_capacity l ∧ tn_events l' = tn_events l.
Proof.
  intros Hr Hh. pose proof (held_room _ _ _ _ Hr Hh) as [_ Hroom].
  destruct Hr, Hh as [Hlt Hni]. destruct er_ready0 as (Hwf & Hcap & Hcon).
  destruct (push_queue _ _ e Hwf Hcon) as (q' & Hr & Hwf' & Hcap' & Hcon'); [lia|].
  unfold tn_event_list_ready_push, on_ev_ready. rewrite (zoom_Some _ _ _ l _ _ Hr).
  eexists. split; [done|]. split_and!; try done. split; simpl; try done.
  - by rewrite Hcap'.
  - rewrite (assoc (++)). apply NoDup_app; set_solver by eauto using NoDup_singleton.
  - rewrite (assoc (++)). apply Forall_app; auto.
Qed.

Lemma free_push_run l free ready e :
  events_rep l free ready → held l free ready e →
  ∃ l', tn_event_list_free_push e l = Some (TN_SUCCESS, l') ∧
    events_rep l' (free ++ [e]) ready ∧ ev_capacity l' = ev_capacity l ∧ tn_events l' = tn_events l.
Proof.
  intros Hr Hh. pose proof (held_room _ _ _ _ Hr Hh) as [Hroom _].
  destruct Hr, Hh as [Hlt Hni]. destruct er_free0 as (Hwf & Hcap & Hcon).
  destruct (push_queue _ _ e Hwf Hcon) as (q' & Hr & Hwf' & Hcap' & Hcon'); [lia|].
  unfold tn_event_list_free_push, on_ev_free. rewrite (zoom_Some _ _ _ l _ _ Hr).
  eexists. split; [done|]. split_and!; try done.
  assert (e :: free ++ ready ≡ₚ (free ++ [e]) ++ ready) as Hp by solve_Permutation.
  split; simpl; try done.
  - by rewrite Hcap'.
  - rewrite <- Hp. by constructor.
  - rewrite <- Hp. by constructor.
Qed.

End Facts.

Section SetupFacts.

Lemma ready_pop_all_run l free ready n :
  events_rep l free ready → 0 < n →
  ∃ l', tn_event_list_ready_pop_all n l =
      Some (match ready with
            | [] => (TN_ERROR, [], n)
            | _ => (TN_SUCCESS, Some <$> take (Z.to_nat n) ready, Z.min n (Z.of_nat (length ready)))
            end, l') ∧
    events_rep l' free (drop (Z.to_nat n) ready) ∧ ev_capacity l' = ev_capacity l ∧
    tn_events l' = tn_events l.
Proof.
  intros [] Hn. destruct er_ready0 as (Hwf & Hcap & Hcon).
  destruct (pop_all_run _ n Hwf Hn) as (q' & Hr & Hwf' & Hcap' & Hcon').
  rewrite Hcon in Hr, Hcon'.
  unfold tn_event_list_ready_pop_all, on_ev_ready. rewrite (bind_Some _ _ _ tt l) by (by bool_lia).
  rewrite (bind_Some _ _ _ _ _ (zoom_Some _ _ _ l _ _ Hr)).
  pose proof (Zlength_contents (tn_events_ready l)) as Hlen. rewrite Hcon, length_fmap in Hlen.
  eexists. split.
  { destruct ready; [reflexivity|]. rewrite <- Hlen, fmap_take. reflexivity. }
  split_and!; try done. split; simpl; try done.
  - split_and!; [done|by rewrite Hcap'|by rewrite Hcon', fmap_drop].
  - apply NoDup_app in er_nodup0 as (? & Hd & Hnd). apply NoDup_app. split_and!; [done|..].
    + intros x Hx Hx'. apply (Hd x Hx). by eapply subseteq_drop.
    + rewrite <- (take_drop (Z.to_nat n) ready) in Hnd. apply NoDup_app in Hnd. apply Hnd.
  - apply Forall_app in er_range0 as [? ?]. apply Forall_app. split; [done|by apply Forall_drop].
Qed.

Lemma setup_events_run n i l :
  events_rep l (seq 0 i) [] → ev_capacity l ≤ W32 - 1 →
  Z.of_nat i + Z.of_nat n = ev_capacity l + 1 →
  ∃ l', setup_events n (Z.of_nat i) l = Some (TN_SUCCESS, l') ∧
    events_rep l' (seq 0 (Z.to_nat (ev_capacity l))) [] ∧ ev_capacity l' = ev_capacity l.
Proof.
  revert i l. induction n as [|n IH]; intros i l Hr Hcap Hn.
  { pose proof (er_array _ _ _ Hr). pose proof (er_range _ _ _ Hr) as Hrg. rewrite app_nil_r in Hrg.
    pose proof (nodup_below_length _ _ (NoDup_seq 0 i) Hrg) as Hle. rewrite length_seq in Hle. lia. }
  cbn [setup_events]. mrun. case_bool.
  2:{ pose proof (er_array _ _ _ Hr). pose proof (er_range _ _ _ Hr) as Hrg. rewrite app_nil_r in Hrg.
      pose proof (nodup_below_length _ _ (NoDup_seq 0 i) Hrg) as Hle. rewrite length_seq in Hle.
      exists l. replace (Z.to_nat (ev_capacity l)) with i by lia. done. }
  pose proof Hr as []. assert (i < length (tn_events l))%nat as Hi by lia.
  destruct (lookup_lt_is_Some_2 _ _ Hi) as [ev Hev].
  unfold update_event. mrun. rewrite Nat2Z.id, Hev. mrun.
  set (l1 := set_events (<[i := set_ev_id (Z.of_nat i) ev]> (tn_events l)) l).
  assert (events_rep l1 (seq 0 i) []) as Hr1
    by (split; simpl; rewrite ?length_insert; done).
  destruct (free_push_run l1 (seq 0 i) [] i Hr1) as (l2 & Hp & Hr2 & Hc2 & _).
  { split; [simpl; by rewrite length_insert|]. rewrite app_nil_r, elem_of_seq. lia. }
  unfold tn_event_list_free_push in Hp. rewrite Hp. simpl.
  replace (u32 (Z.of_nat i + 1)) with (Z.of_nat (S i)) by (rewrite u32_small; lia).
  rewrite <- seq_S in Hr2. simpl in Hc2.
  destruct (IH (S i) l2 Hr2) as (l3 & H3 & Hr3 & Hc3); [lia|lia|].
  exists l3. rewrite Hc3, <- Hc2. done.
Qed.

Lemma event_setup_run acq cap es l0 :
  0 < cap ≤ 2 ^ 31 → acquire_ok (acquire_free acq) → acquire_ok (acquire_ready acq) →
  let c := 2 ^ Z.log2_up cap in
  is_Some (acquire_free acq (8 * (1 + c))) → is_Some (acquire_ready acq (8 * (1 + c))) →
  acquire_events acq (c * TN_EVENT_MAX_SIZE) = Some es → Z.of_nat (length es) = c →
  ∃ l, tn_event_list_setup acq cap l0 = Some (TN_SUCCESS, l) ∧
    events_rep l (seq 0 (Z.to_nat c)) [] ∧ ev_capacity l = c.
Proof.
  intros Hcap Hokf Hokr c [bf Hf] [br Hb] Hes Hlen.
  assert (0 < c ≤ 2 ^ 31) as Hc.
  { unfold c. split; [apply Z.pow_pos_nonneg; [lia|apply Z.log2_up_nonneg]|].
    apply Z.pow_le_mono_r; [lia|]. by apply Z.log2_up_le_pow2; lia. }
  destruct (queue_setup_run _ cap bf (tn_events_free l0) Hokf ltac:(lia) Hf)
    as (qf & Hqf & Hwff & Hcf & Hnf).
  destruct (queue_setup_run _ cap br (tn_events_ready l0) Hokr ltac:(lia) Hb)
    as (qr & Hqr & Hwfr & Hcr & Hnr).
  unfold tn_event_list_setup. bool_lia. mrun. unfold on_ev_free, on_ev_ready. mrun.
  rewrite Hqf. simpl. rewrite Hqr. simpl. fold c in Hcf, Hcr. rewrite Hcr.
  unfold TN_EVENT_MAX_SIZE in *. rewrite u64_small, Hes by lia. mrun.
  edestruct (setup_events_run (S (Z.to_nat c)) 0) as (l & Hrun & Hr & Hcl);
    [| | |exists l; split; [exact Hrun|]]; simpl in *; try lia; [|by rewrite Hcl].
  split; simpl; try done. constructor.
Qed.

End SetupFacts.

(** ** The life of events *)

(** The calls the two threads make.  [EPop] is any of the typed pops. *)
Inductive event_op :=
  | EPop (type : Z) (b : event_body)
  | EReady (e : nat)
  | ETake (n : Z)
  | EFree (e : nat).

(** The code and the events handed out. *)
Definition exec_event (o : event_op) : M tn_event_list_t (Z * list (ptr nat)) :=
  match o with
  | EPop t b => r ← free_pop_as t b; mret (r.1, [r.2])
  | EReady e => r ← tn_event_list_ready_push e; mret (r, [])
  | ETake n => r ← tn_event_list_ready_pop_all n; mret (r.1.1, r.1.2)
  | EFree e => r ← tn_event_list_free_push e; mret (r, [])
  end.

(** Where the events are: free, ready, or held by a thread. *)
Record event_places := { p_free : list nat; p_ready : list nat; p_held : list nat }.

(** The same call on the places; [None] when a thread gives away an event it does not
    hold, or asks for no events. *)
Definition spec_event (o : event_op) (p : event_places) : option (Z * list (ptr nat) * event_places) :=
  match o with
  | EPop _ _ =>
      match p_free p with
      | [] => Some (TN_ERROR, [NULL], p)
      | e :: f => Some (TN_SUCCESS, [Some e], {| p_free := f; p_ready := p_ready p; p_held := e :: p_held p |})
      end
  | EReady e =>
      if decide (e ∈ p_held p)
      then Some (TN_SUCCESS, [], {| p_free := p_free p; p_ready := p_ready p ++ [e];
                                    p_held := filter (.≠ e) (p_held p) |})
      else None
  | ETake n =>
      if n <=? 0 then None
      else match p_ready p with
           | [] => Some (TN_ERROR, [], p)
           | _ => let k := Z.to_nat n in
                  Some (TN_SUCCESS, Some <$> take k (p_ready p),
                        {| p_free := p_free p; p_ready := drop k (p_ready p);
                           p_held := take k (p_ready p) ++ p_held p |})
           end
  | EFree e =>
      if decide (e ∈ p_held p)
      then Some (TN_SUCCESS, [], {| p_free := p_free p ++ [e]; p_ready := p_ready p;
                                    p_held := filter (.≠ e) (p_held p) |})
      else None
  end.

Fixpoint exec_events (os : list event_op) : M tn_event_list_t (list (Z * list (ptr nat))) :=
  match os with
  | [] => mret []
  | o :: os => r ← exec_event o; rs ← exec_events os; mret (r :: rs)
  end.

Fixpoint spec_events (os : list event_op) (p : event_places) :
    option (list (Z * list (ptr nat)) * event_places) :=
  match os with
  | [] => Some ([], p)
  | o :: os =>
      '(r, p) ← spec_event o p;
      '(rs, p) ← spec_events os p;
      Some (r :: rs, p)
  end.

(** Every event of the list is in exactly one place. *)
Record places_ok (l : tn_event_list_t) (p : event_places) : Prop := {
  po_rep : events_rep l (p_free p) (p_ready p);
  po_all : p_free p ++ p_ready p ++ p_held p ≡ₚ seq 0 (length (tn_events l));
}.

Section Places.

Lemma places_held l p e : places_ok l p → e ∈ p_held p → held l (p_free p) (p_ready p) e.
Proof.
  intros [Hr Hp] He.
  assert (NoDup (p_free p ++ p_ready p ++ p_held p)) as Hnd by (rewrite Hp; apply NoDup_seq).
  split.
  - assert (e ∈ seq 0 (length (tn_events l))) as Hs by (rewrite <- Hp; set_solver).
    apply elem_of_seq in Hs. lia.
  - rewrite (assoc (++)) in Hnd. apply NoDup_app in Hnd as (_ & Hd & _). intros Hin. by apply (Hd e).
Qed.

(** Taking [e] out of the held events. *)
Lemma held_remove l p e :
  places_ok l p → e ∈ p_held p → p_held p ≡ₚ e :: filter (.≠ e) (p_held p).
Proof.
  intros [_ Hp] He.
  assert (NoDup (p_held p)) as Hnd.
  { assert (NoDup (p_free p ++ p_ready p ++ p_held p)) as H by (rewrite Hp; apply NoDup_seq).
    rewrite !NoDup_app in H. naive_solver. }
  by apply nodup_remove.
Qed.

Lemma exec_event_refines o l p r p' :
  places_ok l p → spec_event o p = Some (r, p') →
  ∃ l', exec_event o l = Some (r, l') ∧ places_ok l' p' ∧ length (tn_events l') = length (tn_events l).
Proof.
  intros Hok Hs. pose proof Hok as [Hr Hp]. destruct o as [t b|e|n|e]; simpl in Hs.
  - destruct (free_pop_as_run l t b _ _ Hr) as (l' & Hrun & Hr' & Hc & He).
    assert (length (tn_events l') = length (tn_events l)) as Hlen.
    { rewrite He. case_match; [done|]. by rewrite length_alter. }
    exists l'. unfold exec_event. rewrite (bind_Some _ _ _ _ _ Hrun).
    destruct (p_free p) as [|e f] eqn:Hf; simplify_eq/=; split_and!; try done; split; simpl.
    + by rewrite Hf.
    + by rewrite Hf, Hlen.
    + done.
    + rewrite Hlen, <- Hp. solve_Permutation.
  - case_decide as He; [|done]. simplify_eq.
    destruct (ready_push_run l _ _ e Hr (places_held l p e Hok He)) as (l' & Hrun & Hr' & Hc & Hl).
    exists l'. unfold exec_event. rewrite (bind_Some _ _ _ _ _ Hrun), Hl.
    split_and!; try done. split; simpl; [done|]. rewrite Hl, <- Hp.
    rewrite (held_remove l p e Hok He) at 2. solve_Permutation.
  - destruct (Z.leb_spec n 0) as [|Hn]; [done|].
    destruct (ready_pop_all_run l _ _ n Hr Hn) as (l' & Hrun & Hr' & Hc & Hl).
    exists l'. unfold exec_event. rewrite (bind_Some _ _ _ _ _ Hrun), Hl.
    destruct (p_ready p) as [|x xs] eqn:Hrd; simplify_eq/=; split_and!; try done; split; simpl.
    + rewrite Hrd. by rewrite drop_nil in Hr'.
    + by rewrite Hrd, Hl.
    + done.
    + rewrite Hl, <- Hp. rewrite (assoc (++) (drop _ _)).
      rewrite (Permutation_app_comm (drop _ _)), take_drop. done.
  - case_decide as He; [|done]. simplify_eq.
    destruct (free_push_run l _ _ e Hr (places_held l p e Hok He)) as (l' & Hrun & Hr' & Hc & Hl).
    exists l'. unfold exec_event. rewrite (bind_Some _ _ _ _ _ Hrun), Hl.
    split_and!; try done. split; simpl; [done|]. rewrite Hl, <- Hp.
    rewrite (held_remove l p e Hok He) at 2. solve_Permutation.
Qed.

Lemma exec_events_refines os l p rs p' :
  places_ok l p → spec_events os p = Some (rs, p') →
  ∃ l', exec_events os l = Some (rs, l') ∧ places_ok l' p' ∧ length (tn_events l') = length (tn_events l).
Proof.
  revert l p rs. induction os as [|o os IH]; intros l p rs Hok Hs; simpl in Hs.
  { simplify_eq. by exists l. }
  destruct (spec_event o p) as [[r p1]|] eqn:Ho; [|done]. simpl in Hs.
  destruct (spec_events os p1) as [[rs1 p2]|] eqn:Hos; [|done]. simplify_eq/=.
  destruct (exec_event_refines o l p r p1 Hok Ho) as (l1 & Hr & Hok1 & Hl1).
  destruct (IH l1 p1 rs1 Hok1 Hos) as (l2 & Hr2 & Hok2 & Hl2).
  exists l2. by rewrite (bind_Some _ _ _ _ _ Hr), (bind_Some _ _ _ _ _ Hr2), Hl2.
Qed.

End Places.

(** Events are conserved: from a successful set-up, whatever typed pops, pushes and
    batch takes the threads make of events they hold, every push succeeds, and at
    every point the free, the ready and the held events together are the events
    of the list, each exactly once; ready events are taken in the order they
    became ready. *)
Theorem events_conserved acq cap es l0 os rs p' :
  0 < cap ≤ 2 ^ 31 → acquire_ok (acquire_free acq) → acquire_ok (acquire_ready acq) →
  is_Some (acquire_free acq (8 * (1 + 2 ^ Z.log2_up cap))) →
  is_Some (acquire_ready acq (8 * (1 + 2 ^ Z.log2_up cap))) →
  acquire_events acq (2 ^ Z.log2_up cap * TN_EVENT_MAX_SIZE) = Some es →
  Z.of_nat (length es) = 2 ^ Z.log2_up cap →
  spec_events os {| p_free := seq 0 (length es); p_ready := []; p_held := [] |} = Some (rs, p') →
  ∃ l1 l2, tn_event_list_setup acq cap l0 = Some (TN_SUCCESS, l1) ∧
    exec_events os l1 = Some (rs, l2) ∧
    events_rep l2 (p_free p') (p_ready p') ∧
    p_free p' ++ p_ready p' ++ p_held p' ≡ₚ seq 0 (length es).
Proof.
  intros Hcap Hf Hrd Hsf Hsr Hes Hlen Hs.
  destruct (event_setup_run acq cap es l0 Hcap Hf Hrd Hsf Hsr Hes Hlen) as (l1 & Hset & Hr & Hc).
  assert (length (tn_events l1) = length es) as Hl.
  { pose proof (er_array _ _ _ Hr). lia. }
  destruct (exec_events_refines os l1 {| p_free := seq 0 (length es); p_ready := []; p_held := [] |} rs p')
    as (l2 & Hrun & [Hr2 Hp2] & Hl2).
  - split; simpl.
    + rewrite <- Hlen, Nat2Z.id in Hr. done.
    + by rewrite Hl, app_nil_r.
  - done.
  - exists l1, l2. rewrite Hl2, Hl in Hp2. done.
Qed.

Lemma events_conserved_witness :
  ∃ l1 l2,
    tn_event_list_setup {| acquire_events := λ sz, Some (replicate (Z.to_nat (sz / 256))
          {| ev_id := 0; ev_type := 0; client_id := 0; body := BRaw |});
        acquire_free := sample_acquire; acquire_ready := sample_acquire |} 2
      {| tn_events := []; tn_events_free := blank_queue; tn_events_ready := blank_queue;
         ev_capacity := 0 |} = Some (TN_SUCCESS, l1) ∧
    exec_events [EPop TN_EVENT_CLIENT_READ BRaw; EReady 0; EPop TN_EVENT_CLIENT_OPEN BRaw;
                 EPop TN_EVENT_CLIENT_OPEN BRaw; ETake 5; EFree 0] l1 =
      Some ([(TN_SUCCESS, [Some 0%nat]); (TN_SUCCESS, []); (TN_SUCCESS, [Some 1%nat]);
             (TN_ERROR, [NULL]); (TN_SUCCESS, [Some 0%nat]); (TN_SUCCESS, [])], l2) ∧
    events_rep l2 [0%nat] [] ∧ [0%nat] ++ [] ++ [1%nat] ≡ₚ [0%nat; 1%nat].
Proof.
  refine (events_conserved _ 2 (replicate 2 {| ev_id := 0; ev_type := 0; client_id := 0; body := BRaw |})
    _ _ _ {| p_free := [0%nat]; p_ready := []; p_held := [1%nat] |} _ _ _ _ _ _ _ _).
  - lia.
  - apply sample_acquire_ok.
  - apply sample_acquire_ok.
  - by eexists.
  - by eexists.
  - reflexivity.
  - reflexivity.
  - vm_compute. reflexivity.
Defined.
