(* ===== verification/Channel.v ===== *)
(** Channels: src/tcp_channel.c and include/tn/tcp_channel.h.

    A channel is the server's record of a client; [client_map] is the array of all
    channels and [client_list_free] a stack of pointers to the unused ones.  A
    pointer to [client_map[i]] is the index [i], a pointer to a buffer of the read
    pool is its index, and a [uv_tcp_t *] is the number of a handle. *)
From stdpp Require Import base numbers list option gmap.
From Stdlib Require Import ZArith Lia.
From S2P Require Import Prelude QueueSpsc ByteBuf Buffer BufferPool ListPtr Inet Endpoint.

Local Open Scope Z_scope.
Local Open Scope c_scope.

(** [tcp_channel_state_t]. *)
Definition TCP_CHANNEL_NEW : Z := 0.
Definition TCP_CHANNEL_OPEN : Z := 1.
Definition TCP_CHANNEL_CLOSING : Z := 2.
Definition TCP_CHANNEL_CLOSED : Z := 3.
Definition TCP_CHANNEL_ERROR : Z := 4.
Definition TCP_CHANNEL_INVALID : Z := 5.

(** [tcp_channel_read_state_t]. *)
Definition TCP_CHANNEL_READ_NONE : Z := 0.
Definition TCP_CHANNEL_READ_HEADER : Z := 1.
Definition TCP_CHANNEL_READ_PAYLOAD : Z := 2.
Definition TCP_CHANNEL_READ_ERROR : Z := 3.
Definition TCP_CHANNEL_READ_INVALID : Z := 4.

(** [service] is set or [NULL]: there is one service. *)
Record tcp_channel_t := {
  priv : ptr nat;
  ch_id : Z;
  list_id : Z;
  service : ptr unit;
  read_buffer : ptr nat;
  endpoint : tn_endpoint_t;
  error_code : Z;
  ch_state : Z;
  read_state : Z;
  next_payload_len : Z;
  last_msg_id : Z;
}.

(** All bytes 0. *)
Definition zero_channel : tcp_channel_t :=
  {| priv := NULL; ch_id := 0; list_id := 0; service := NULL; read_buffer := NULL;
     endpoint := zero_endpoint; error_code := 0; ch_state := TCP_CHANNEL_NEW;
     read_state := TCP_CHANNEL_READ_NONE; next_payload_len := 0; last_msg_id := 0 |}.

Section Setters.
Implicit Types c : tcp_channel_t.
Definition set_ch_id (x : Z) c :=
  {| priv := priv c; ch_id := x; list_id := list_id c; service := service c; read_buffer := read_buffer c;
     endpoint := endpoint c; error_code := error_code c; ch_state := ch_state c;
     read_state := read_state c; next_payload_len := next_payload_len c; last_msg_id := last_msg_id c |}.
Definition set_read_buffer (x : ptr nat) c :=
  {| priv := priv c; ch_id := ch_id c; list_id := list_id c; service := service c; read_buffer := x;
     endpoint := endpoint c; error_code := error_code c; ch_state := ch_state c;
     read_state := read_state c; next_payload_len := next_payload_len c; last_msg_id := last_msg_id c |}.
Definition set_endpoint (x : tn_endpoint_t) c :=
  {| priv := priv c; ch_id := ch_id c; list_id := list_id c; service := service c;
     read_buffer := read_buffer c; endpoint := x; error_code := error_code c; ch_state := ch_state c;
     read_state := read_state c; next_payload_len := next_payload_len c; last_msg_id := last_msg_id c |}.
Definition set_error_code (x : Z) c :=
  {| priv := priv c; ch_id := ch_id c; list_id := list_id c; service := service c;
     read_buffer := read_buffer c; endpoint := endpoint c; error_code := x; ch_state := ch_state c;
     read_state := read_state c; next_payload_len := next_payload_len c; last_msg_id := last_msg_id c |}.
Definition set_ch_state (x : Z) c :=
  {| priv := priv c; ch_id := ch_id c; list_id := list_id c; service := service c;
     read_buffer := read_buffer c; endpoint := endpoint c; error_code := error_code c; ch_state := x;
     read_state := read_state c; next_payload_len := next_payload_len c; last_msg_id := last_msg_id c |}.
Definition set_read_state (x : Z) c :=
  {| priv := priv c; ch_id := ch_id c; list_id := list_id c; service := service c;
     read_buffer := read_buffer c; endpoint := endpoint c; error_code := error_code c;
     ch_state := ch_state c; read_state := x; next_payload_len := next_payload_len c;
     last_msg_id := last_msg_id c |}.
Definition set_next_payload_len (x : Z) c :=
  {| priv := priv c; ch_id := ch_id c; list_id := list_id c; service := service c;
     read_buffer := read_buffer c; endpoint := endpoint c; error_code := error_code c;
     ch_state := ch_state c; read_state := read_state c; next_payload_len := x;
     last_msg_id := last_msg_id c |}.
(** The assignments of a new connection. *)
Definition set_opened (handle : nat) c :=
  {| priv := Some handle; ch_id := ch_id c; list_id := list_id c; service := Some tt;
     read_buffer := NULL; endpoint := endpoint c; error_code := 0; ch_state := TCP_CHANNEL_OPEN;
     read_state := TCP_CHANNEL_READ_HEADER; next_payload_len := next_payload_len c; last_msg_id := 0 |}.
End Setters.

(** ** One channel *)

Definition tcp_channel_state (channel : tcp_channel_t) : Z := ch_state channel.
Definition tcp_channel_read_state (channel : tcp_channel_t) : Z := read_state channel.

(** A channel, the read pool it takes its buffer from and memory. *)
Abbreviation chstate := (tcp_channel_t * plstate)%type.

Definition on_pool {A} (f : M plstate A) : M chstate A := zoom snd (λ p s, (s.1, p)) f.
Definition modify_channel (f : tcp_channel_t → tcp_channel_t) : M chstate unit :=
  modify (λ s, (f s.1, s.2)).

(** A call on [channel->read_buffer], which the functions assert not to be [NULL]. *)
Definition on_read_buffer {A} (f : M bstate A) : M chstate A :=
  s ← get; b ← lift (read_buffer s.1); on_pool (on_buffer b f).

(** The code and the out length. *)
Definition tcp_channel_read_header `{Host} : M chstate (Z * Z) :=
  r ← on_read_buffer tn_buffer_read_be32;
  match r with
  | (0, Some out_len) =>
      modify_channel (set_next_payload_len out_len);;
      modify_channel (set_read_state TCP_CHANNEL_READ_PAYLOAD);;
      mret (TN_SUCCESS, out_len)
  | _ => mret (TN_ERROR, 0)
  end.

Definition tcp_channel_read_payload : M chstate (Z * tn_buffer_span_t) :=
  p ← on_read_buffer tn_buffer_read_ptr;
  s ← get;
  let out_span := {| span_ptr := p; span_len := next_payload_len s.1 |} in
  r ← on_read_buffer (tn_buffer_read_skip (span_len out_span));
  if negb (r =? 0) then mret (TN_ERROR, {| span_ptr := 0; span_len := 0 |})
  else
    modify_channel (set_read_state TCP_CHANNEL_READ_HEADER);;
    mret (TN_SUCCESS, out_span).

Definition tcp_channel_buffer_swap : M chstate Z :=
  s ← get;
  prev ← lift (read_buffer s.1);
  r ← on_pool tn_buffer_pool_pop_back;
  modify_channel (set_read_buffer r.2);;
  TN_GUARD_IF (negb (r.1 =? 0)) THEN
  n ← on_pool (on_buffer prev tn_buffer_read_length);
  if negb (n =? 0) then
    s ← get;
    b ← lift (tn_buffers s.2.1 !! prev);
    TN_GUARD (on_read_buffer (tn_buffer_write_buffer b 0)) THEN
    mret TN_SUCCESS
  else mret TN_SUCCESS.

(** ** The channel list *)

Record tcp_channel_list_t := {
  client_map : list tcp_channel_t;
  clients_max : Z;
  client_list_free : tn_list_ptr_t nat;
  client_list_open : tn_list_ptr_t nat;
}.

Definition set_client_map (m : list tcp_channel_t) (l : tcp_channel_list_t) : tcp_channel_list_t :=
  {| client_map := m; clients_max := clients_max l; client_list_free := client_list_free l;
     client_list_open := client_list_open l |}.
Definition set_clients_max (n : Z) (l : tcp_channel_list_t) : tcp_channel_list_t :=
  {| client_map := client_map l; clients_max := n; client_list_free := client_list_free l;
     client_list_open := client_list_open l |}.
Definition set_list_free (f : tn_list_ptr_t nat) (l : tcp_channel_list_t) : tcp_channel_list_t :=
  {| client_map := client_map l; clients_max := clients_max l; client_list_free := f;
     client_list_open := client_list_open l |}.
Definition set_list_open (f : tn_list_ptr_t nat) (l : tcp_channel_list_t) : tcp_channel_list_t :=
  {| client_map := client_map l; clients_max := clients_max l;
     client_list_free := client_list_free l; client_list_open := f |}.

Definition on_list_free {A} (f : M (tn_list_ptr_t nat) A) : M tcp_channel_list_t A :=
  zoom client_list_free set_list_free f.
Definition on_list_open {A} (f : M (tn_list_ptr_t nat) A) : M tcp_channel_list_t A :=
  zoom client_list_open set_list_open f.

(** [channel->member = ...] for the channel at index [i]. *)
Definition update_channel (i : nat) (f : tcp_channel_t → tcp_channel_t) : M tcp_channel_list_t unit :=
  l ← get;
  c ← lift (client_map l !! i);
  put (set_client_map (<[i := f c]> (client_map l)) l).

Definition zero_list : tn_list_ptr_t nat := {| data := NULL; lp_capacity := 0; index := 0 |}.

(** [sizeof(tcp_channel_t)]: 6 words, the 256-byte endpoint and 3 words of small members. *)
Definition sizeof_tcp_channel : Z := 328.

(** The allocator's answers: whether the map is granted, and the list's cells. *)
Record channel_acquire := {
  acquire_map : Z → bool;
  acquire_list : Z → option (list (ptr nat));
}.

(** The loop over the channels, shared by set-up and reset: [fail] is what a
    refused push leads to. *)
Fixpoint fill_free (fail : M tcp_channel_list_t Z) (ok : M tcp_channel_list_t Z) (n : nat) (i : Z) :
    M tcp_channel_list_t Z :=
  match n with
  | O => ok
  | S n =>
      update_channel (Z.to_nat i) (set_ch_id i);;
      TN_GUARD_CLEANUP [fail] on_list_free (tn_list_ptr_push_back (Some (Z.to_nat i))) THEN
      fill_free fail ok n (i + 1)
  end.

Definition channel_setup_cleanup : M tcp_channel_list_t Z :=
  on_list_free tn_list_ptr_cleanup;;
  modify (set_client_map []);;
  mret TN_ERROR.

Definition tcp_channel_list_setup (acq : channel_acquire) (clients_max : Z) : M tcp_channel_list_t Z :=
  put {| client_map := []; clients_max := 0; client_list_free := zero_list; client_list_open := zero_list |};;
  if negb (acquire_map acq (u64 (clients_max * sizeof_tcp_channel))) then channel_setup_cleanup
  else
    modify (set_client_map (replicate (Z.to_nat clients_max) zero_channel));;
    TN_GUARD_CLEANUP [channel_setup_cleanup]
      on_list_free (tn_list_ptr_setup (acquire_list acq) clients_max) THEN
    fill_free channel_setup_cleanup
      (modify (set_clients_max clients_max);; mret TN_SUCCESS) (Z.to_nat clients_max) 0.

(** Releases everything and reports [TN_ERROR]. *)
Definition tcp_channel_list_cleanup : M tcp_channel_list_t Z :=
  on_list_free tn_list_ptr_cleanup;;
  modify (set_client_map []);;
  mret TN_ERROR.

(** The code and the out channel ([None]: not written). *)
Definition tcp_channel_list_open : M tcp_channel_list_t (Z * option (ptr nat)) :=
  r ← on_list_free tn_list_ptr_pop_back;
  mret (if negb (r.1 =? 0) then (TN_ERROR, r.2) else (TN_SUCCESS, r.2)).

Definition tcp_channel_list_close (channel : nat) : M tcp_channel_list_t Z :=
  TN_GUARD (on_list_free (tn_list_ptr_push_back (Some channel))) THEN mret TN_SUCCESS.

Definition tcp_channel_list_reset : M tcp_channel_list_t Z :=
  l ← get;
  modify (set_client_map (replicate (Z.to_nat (clients_max l)) zero_channel));;
  on_list_free tn_list_ptr_clear;;
  on_list_open tn_list_ptr_clear;;
  fill_free (mret TN_ERROR) (mret TN_SUCCESS) (Z.to_nat (clients_max l)) 0.

Definition tcp_channel_list_get (client_id : Z) : M tcp_channel_list_t (Z * ptr nat) :=
  l ← get;
  mret (if clients_max l <=? client_id then (TN_ERROR, NULL) else (TN_SUCCESS, Some (Z.to_nat client_id))).

(** ** Representation *)

(** [free] are the unused channels, the next to be handed out last. *)
Record channels_rep (l : tcp_channel_list_t) (free : list nat) : Prop := {
  cr_list : list_wf (client_list_free l);
  cr_elems : elems (client_list_free l) = Some <$> free;
  cr_cap : lp_capacity (client_list_free l) = clients_max l;
  cr_map : Z.of_nat (length (client_map l)) = clients_max l;
  cr_nodup : NoDup free;
  cr_range : Forall (λ i, (i < length (client_map l))%nat) free;
  cr_ids : ∀ i c, client_map l !! i = Some c → ch_id c = Z.of_nat i;
}.

(** The first [i] channels are numbered and free. *)
Record channels_inv (i : nat) (l : tcp_channel_list_t) : Prop := {
  ci_list : list_wf (client_list_free l);
  ci_elems : elems (client_list_free l) = Some <$> seq 0 i;
  ci_map : Z.of_nat (length (client_map l)) = lp_capacity (client_list_free l);
  ci_ids : ∀ j c, (j < i)%nat → client_map l !! j = Some c → ch_id c = Z.of_nat j;
}.

Section Facts.
Implicit Types l : tcp_channel_list_t.

Lemma list_open_run l free :
  channels_rep l free →
  ∃ l', tcp_channel_list_open l =
      Some (match list.last free with None => (TN_ERROR, None) | Some c => (TN_SUCCESS, Some (Some c)) end, l') ∧
    channels_rep l' (take (length free - 1) free) ∧
    client_map l' = client_map l ∧ clients_max l' = clients_max l.
Proof.
  intros []. unfold tcp_channel_list_open, on_list_free.
  destruct (exec_list_refines LPop (client_list_free l)
    (match list.last free with None => (TN_ERROR, None, 0) | Some c => (TN_SUCCESS, Some (Some c), 0) end)
    (Some <$> take (length free - 1) free) cr_list0) as (lf & Hr & Hwf & Hc & He).
  { simpl. rewrite cr_elems0. rewrite fmap_last. destruct (list.last free) as [c|] eqn:Hl; simpl.
    - by rewrite length_fmap, fmap_take.
    - apply last_None in Hl. by subst. }
  unfold exec_list in Hr. mrun in Hr.
  destruct (tn_list_ptr_pop_back (client_list_free l)) as [[r lf']|] eqn:Hp; [|done].
  simpl in Hr. injection Hr as Hr ->. rewrite (bind_Some _ _ _ _ _ (zoom_Some _ _ _ l _ _ Hp)).
  eexists. split; [|split_and!].
  - mrun. destruct r as [r1 r2]. destruct (list.last free); by simplify_eq/=.
  - split; simpl; try done.
    + by rewrite Hc.
    + rewrite <- (take_drop (length free - 1) free) in cr_nodup0. apply NoDup_app in cr_nodup0. apply cr_nodup0.
    + by apply Forall_take.
  - done.
  - done.
Qed.

Lemma list_close_run l free c :
  channels_rep l free → (c < length (client_map l))%nat → c ∉ free →
  ∃ l', tcp_channel_list_close c l = Some (TN_SUCCESS, l') ∧ channels_rep l' (free ++ [c]) ∧
    client_map l' = client_map l ∧ clients_max l' = clients_max l.
Proof.
  intros [] Hc Hni. unfold tcp_channel_list_close, on_list_free.
  assert (length (c :: free) ≤ length (client_map l))%nat as Hlen.
  { apply nodup_below_length; by constructor. }
  pose proof (length_elems _ cr_list0) as Hl. rewrite cr_elems0, length_fmap in Hl. simpl in Hlen.
  destruct (push_back_run (client_list_free l) c cr_list0) as (lf & Hr & Hwf & Hcap & He).
  rewrite (proj2 (Z.leb_gt _ _)) in Hr, He by lia.
  rewrite (bind_Some _ _ _ _ _ (zoom_Some _ _ _ l _ _ Hr)). eexists. split; [done|].
  split_and!; try done. split; simpl; try done.
  - by rewrite He, cr_elems0, fmap_app.
  - by rewrite Hcap.
  - apply NoDup_app; set_solver by eauto using NoDup_singleton.
  - apply Forall_app; auto.
Qed.

Lemma update_channel_run l free i f c :
  channels_rep l free → client_map l !! i = Some c → ch_id (f c) = ch_id c →
  let l' := set_client_map (<[i := f c]> (client_map l)) l in
  update_channel i f l = Some (tt, l') ∧ channels_rep l' free.
Proof.
  intros [] Hc Hid l'. split; [unfold update_channel; mrun; by rewrite Hc|].
  split; simpl; rewrite ?length_insert; try done.
  intros j d Hd. destruct (decide (i = j)) as [<-|].
  - rewrite list_lookup_insert_eq in Hd by (by eapply lookup_lt_Some). injection Hd as <-.
    rewrite Hid. by apply cr_ids0.
  - rewrite list_lookup_insert_ne in Hd by done. by apply cr_ids0.
Qed.

(** [n] rounds of the loop after [i]. *)
Lemma fill_free_run fail ok n i l :
  channels_inv i l → Z.of_nat i + Z.of_nat n = lp_capacity (client_list_free l) →
  ∃ l', fill_free fail ok n (Z.of_nat i) l = ok l' ∧ channels_inv (i + n) l' ∧
    lp_capacity (client_list_free l') = lp_capacity (client_list_free l) ∧
    clients_max l' = clients_max l ∧ client_list_open l' = client_list_open l ∧
    (∀ j c, client_map l' !! j = Some c →
       ∃ d, client_map l !! j = Some d ∧ c = if decide (i ≤ j)%nat then set_ch_id (Z.of_nat j) d else d).
Proof.
  revert i l. induction n as [|n IH]; intros i l Hinv Hn.
  - exists l. rewrite Nat.add_0_r. split_and!; try done. intros j c Hc. exists c. split; [done|].
    rewrite decide_False; [done|]. apply lookup_lt_Some in Hc. destruct Hinv as [? ? Hm _]. lia.
  - pose proof Hinv as [Hwf He Hm Hids].
    assert (i < length (client_map l))%nat as Hi by lia.
    destruct (lookup_lt_is_Some_2 _ _ Hi) as [c0 Hc0].
    pose proof (length_elems _ Hwf) as Hl. rewrite He, length_fmap, length_seq in Hl.
    destruct (push_back_run (client_list_free l) i Hwf) as (lf & Hr & Hwf' & Hcap & He').
    rewrite (proj2 (Z.leb_gt _ _)) in Hr, He' by lia.
    set (l1 := set_list_free lf (set_client_map (<[i := set_ch_id (Z.of_nat i) c0]> (client_map l)) l)).
    assert (channels_inv (S i) l1) as Hinv1.
    { split; simpl; rewrite ?length_insert; try done.
      - rewrite He', He, <- fmap_snoc, <- seq_S. done.
      - by rewrite Hcap.
      - intros j c Hj Hc. destruct (decide (j = i)) as [->|].
        + rewrite list_lookup_insert_eq in Hc by done. by injection Hc as <-.
        + rewrite list_lookup_insert_ne in Hc by done. apply Hids; [lia|done]. }
    destruct (IH (S i) l1 Hinv1) as (l2 & Hrun & Hinv2 & Hc2 & Hm2 & Ho2 & Hmap2); [simpl; lia|].
    exists l2. split_and!; try done.
    + cbn [fill_free]. unfold update_channel, on_list_free. mrun. rewrite Nat2Z.id, Hc0. mrun.
      rewrite Hr. simpl. rewrite <- Hrun. f_equal. lia.
    + by rewrite <- Nat.add_succ_comm.
    + by rewrite Hc2.
    + intros j c Hc. destruct (Hmap2 j c Hc) as (d & Hd & ->). simpl in Hd.
      destruct (decide (j = i)) as [->|Hne].
      * rewrite list_lookup_insert_eq in Hd by done. injection Hd as <-. exists c0.
        rewrite decide_False, decide_True by lia. done.
      * rewrite list_lookup_insert_ne in Hd by done. exists d. split; [done|].
        destruct (decide (S i ≤ j)%nat), (decide (i ≤ j)%nat); try lia; done.
Qed.

Lemma channel_setup_run acq n d l0 :
  0 ≤ n < 2 ^ 55 → acquire_map acq (n * sizeof_tcp_channel) = true →
  acquire_list acq (n * 8) = Some d → Z.of_nat (length d) = n →
  ∃ l, tcp_channel_list_setup acq n l0 = Some (TN_SUCCESS, l) ∧
    channels_rep l (seq 0 (Z.to_nat n)) ∧ clients_max l = n ∧
    (∀ i c, client_map l !! i = Some c → c = set_ch_id (Z.of_nat i) zero_channel).
Proof.
  intros Hn Hmap Hlist Hd. unfold tcp_channel_list_setup, sizeof_tcp_channel in *. mrun.
  rewrite u64_small, Hmap by lia. simpl. unfold on_list_free. mrun.
  destruct (list_setup_run (acquire_list acq) n d zero_list ltac:(lia) Hlist Hd) as (lf & Hr & Hwf & Hc & He).
  rewrite Hr. simpl.
  match goal with |- ∃ l9, fill_free ?f ?k _ _ ?l0 = _ ∧ _ =>
    destruct (fill_free_run f k (Z.to_nat n) 0 l0) as (l1 & Hrun & [Hwf1 He1 Hm1 Hid1] & Hc1 & _ & _ & Hmap1) end.
  - split; simpl; try done; [|lia]. by rewrite length_replicate, Hc, Z2Nat.id by lia.
  - simpl. rewrite Hc. lia.
  - change (Z.of_nat 0) with 0 in Hrun. rewrite Hrun. simpl in *. eexists. split; [mrun; done|].
    assert (length (client_map l1) = Z.to_nat n) by lia.
    split_and!; simpl; [|done|].
    + split; simpl; try done; [lia|lia|apply NoDup_seq|apply Forall_seq; lia|].
      intros i c Hi. apply Hid1; [|done]. apply lookup_lt_Some in Hi. lia.
    + intros i c Hi. destruct (Hmap1 i c Hi) as (e & Hx & ->).
      by apply lookup_replicate in Hx as [-> _].
Qed.

(** A reset gives the state of a fresh set-up. *)
Lemma channel_reset_run l :
  list_wf (client_list_free l) → lp_capacity (client_list_free l) = clients_max l →
  ∃ l', tcp_channel_list_reset l = Some (TN_SUCCESS, l') ∧
    channels_rep l' (seq 0 (Z.to_nat (clients_max l))) ∧ clients_max l' = clients_max l ∧
    (∀ i c, client_map l' !! i = Some c → c = set_ch_id (Z.of_nat i) zero_channel).
Proof.
  intros Hwf Hc. unfold tcp_channel_list_reset, on_list_free, on_list_open. mrun.
  pose proof Hwf as [Hcap Hix (d & Hd & Hdl)].
  match goal with |- ∃ l9, fill_free ?f ?k _ _ ?l0 = _ ∧ _ =>
    destruct (fill_free_run f k (Z.to_nat (clients_max l)) 0 l0)
      as (l1 & Hrun & [Hwf1 He1 Hm1 Hid1] & Hc1 & Hm & _ & Hmap1) end.
  - split; simpl; try done; [|by rewrite length_replicate, Hc, Z2Nat.id by lia|lia].
    split; simpl; [lia|lia|by exists d].
  - simpl. lia.
  - change (Z.of_nat 0) with 0 in Hrun. rewrite Hrun. simpl in *. eexists. split; [mrun; done|].
    assert (length (client_map l1) = Z.to_nat (clients_max l)) by lia.
    split_and!; simpl; [|done|].
    + split; simpl; try done; [lia|lia|apply NoDup_seq|apply Forall_seq; lia|].
      intros i c Hi. apply Hid1; [|done]. apply lookup_lt_Some in Hi. lia.
    + intros i c Hi. destruct (Hmap1 i c Hi) as (e & Hx & ->).
      by apply lookup_replicate in Hx as [-> _].
Qed.

End Facts.

(** ** Reading frames *)

Section Frames.
Context `{Host}.

(** The state of a channel with a read buffer [b] over unread bytes [u]. *)
Record reading (s : chstate) (i : nat) (b : tn_buffer_t) (u : list Z) : Prop := {
  rd_channel : read_buffer s.1 = Some i;
  rd_buffer : tn_buffers s.2.1 !! i = Some b;
  rd_wf : buffer_wf b s.2.2;
  rd_unread : unread (b, s.2.2) = Some u;
  rd_bytes : Forall is_byte u;
}.

Lemma on_read_buffer_run {A} (f : M bstate A) s i b u a b' m' :
  reading s i b u → f (b, s.2.2) = Some (a, (b', m')) →
  on_read_buffer f s =
    Some (a, (s.1, (set_tn_buffers (<[i := b']> (tn_buffers s.2.1)) s.2.1, m'))).
Proof.
  intros [] Hf. unfold on_read_buffer, on_pool, on_buffer. mrun. rewrite rd_channel0. mrun.
  by rewrite rd_buffer0, Hf.
Qed.

Lemma reading_consumed s c' i b u n :
  reading s i b u → read_buffer c' = Some i → (n ≤ length u)%nat →
  reading (c', (set_tn_buffers (<[i := consumed (Z.of_nat n) b]> (tn_buffers s.2.1)) s.2.1, s.2.2))
    i (consumed (Z.of_nat n) b) (drop n u).
Proof.
  intros [] Hc Hn. pose proof (unread_length _ _ _ rd_wf0 rd_unread0).
  split; simpl; [done|..].
  - apply list_lookup_insert_eq. by eapply lookup_lt_Some.
  - apply consumed_wf; [done|lia].
  - destruct (consumed_unread b s.2.2 (Z.of_nat n) u rd_wf0 ltac:(lia) rd_unread0) as [_ ->].
    by rewrite Nat2Z.id.
  - by apply Forall_drop.
Qed.

Lemma read_header_run s i b u :
  reading s i b u →
  if decide (4 ≤ length u)%nat
  then ∃ s' b', tcp_channel_read_header s = Some ((TN_SUCCESS, be_combine (take 4 u)), s') ∧
         reading s' i b' (drop 4 u) ∧ read_state s'.1 = TCP_CHANNEL_READ_PAYLOAD ∧
         next_payload_len s'.1 = be_combine (take 4 u)
  else ∃ s', tcp_channel_read_header s = Some ((TN_ERROR, 0), s') ∧ reading s' i b u ∧ s'.1 = s.1.
Proof.
  intros Hr. pose proof (read_wire_total (WBE32 0) b s.2.2 u (rd_wf _ _ _ _ Hr)
    (rd_unread _ _ _ _ Hr) (rd_bytes _ _ _ _ Hr)) as Hrun. simpl in Hrun.
  unfold tcp_channel_read_header. case_decide as Hle.
  - rewrite (bind_Some _ _ _ _ _ (on_read_buffer_run _ _ _ _ _ _ _ _ Hr Hrun)). mrun.
    eexists _, _. split; [done|]. split; [|done].
    apply (reading_consumed s _ i b u 4); [done|apply Hr|done].
  - rewrite (bind_Some _ _ _ _ _ (on_read_buffer_run _ _ _ _ _ _ _ _ Hr Hrun)). mrun.
    eexists. split; [done|]. split; [|done]. destruct Hr. split; simpl; try done.
    apply list_lookup_insert_eq. by eapply lookup_lt_Some.
Qed.

Lemma read_payload_run s i b u :
  reading s i b u → 0 ≤ next_payload_len s.1 < W64 →
  let n := next_payload_len s.1 in
  if decide (0 < n ≤ Z.of_nat (length u))
  then ∃ s' b' span, tcp_channel_read_payload s = Some ((TN_SUCCESS, span), s') ∧
         mem_load s'.2.2 (span_ptr span) (span_len span) = Some (take (Z.to_nat n) u) ∧
         reading s' i b' (drop (Z.to_nat n) u) ∧ read_state s'.1 = TCP_CHANNEL_READ_HEADER
  else ∃ s', tcp_channel_read_payload s = Some ((TN_ERROR, {| span_ptr := 0; span_len := 0 |}), s') ∧
         s'.1 = s.1 ∧ ∃ b', reading s' i b' u.
Proof.
  intros Hr Hn n. pose proof Hr as []. pose proof (unread_length _ _ _ rd_wf0 rd_unread0) as Hlen.
  assert (tn_buffer_read_ptr (b, s.2.2) = Some (cur_ptr (pos b), (b, s.2.2))) as Hp by done.
  unfold tcp_channel_read_payload.
  rewrite (bind_Some _ _ _ _ _ (on_read_buffer_run _ _ _ _ _ _ _ _ Hr Hp)).
  rewrite list_insert_id by done.
  assert (set_tn_buffers (tn_buffers s.2.1) s.2.1 = s.2.1) as Hset by by destruct (s.2.1).
  rewrite Hset. replace (s.1, (s.2.1, s.2.2)) with s by (by destruct s as [? [? ?]]).
  rewrite (bind_Some get _ s s s) by done.
  pose proof (skip_run b s.2.2 n u rd_wf0 Hn rd_unread0) as Hskip.
  destruct (decide (n ≤ Z.of_nat (length u))) as [Hle|Hle].
  - rewrite (bind_Some _ _ _ _ _ (on_read_buffer_run _ _ _ _ _ _ _ _ Hr Hskip)).
    destruct (consumed_unread b s.2.2 n u rd_wf0 ltac:(lia) rd_unread0) as [Hload Hrest].
    case_decide as Hd.
    + rewrite (proj2 (Z.eqb_neq n 0)) by lia. mrun. eexists _, _, _. split; [done|]. simpl.
      split; [done|]. split; [|done].
      pose proof (reading_consumed s (set_read_state TCP_CHANNEL_READ_HEADER s.1) i b u (Z.to_nat n)
        Hr ltac:(done) ltac:(lia)) as Hx. rewrite Z2Nat.id in Hx by lia. exact Hx.
    + replace n with 0 in * by lia. mrun. eexists. split; [done|]. split; [done|].
      exists (consumed 0 b). by apply (reading_consumed s _ i b u 0); [|done|lia].
  - rewrite decide_False by lia.
    rewrite (bind_Some _ _ _ _ _ (on_read_buffer_run _ _ _ _ _ _ _ _ Hr Hskip)). mrun.
    eexists. split; [done|]. split; [done|]. exists b. split; simpl; try done.
    apply list_lookup_insert_eq. by eapply lookup_lt_Some.
Qed.

End Frames.

(** ** Theorems *)

(** Reading a frame (a 32-bit big-endian length and that many bytes) from a channel's
    buffer: the header call reports the length, the payload call returns a span
    of memory that holds exactly the payload, both succeed, what follows the frame
    stays unread and the channel is back in the header state.  This needs a
    non-empty payload: after the header of an empty frame the payload call fails
    and leaves the channel in the payload state, so the next header is never read. *)
Theorem channel_reads_frame `{Host} s i b payload rest :
  reading s i b (be_split 4 (Z.of_nat (length payload)) ++ payload ++ rest) →
  Z.of_nat (length payload) < W32 →
  ∃ s1, tcp_channel_read_header s = Some ((TN_SUCCESS, Z.of_nat (length payload)), s1) ∧
    if decide (payload = [])
    then ∃ s2 b2 sp, tcp_channel_read_payload s1 = Some ((TN_ERROR, sp), s2) ∧
           reading s2 i b2 rest ∧ read_state s2.1 = TCP_CHANNEL_READ_PAYLOAD
    else ∃ s2 b2 sp, tcp_channel_read_payload s1 = Some ((TN_SUCCESS, sp), s2) ∧
           mem_load s2.2.2 (span_ptr sp) (span_len sp) = Some payload ∧
           reading s2 i b2 rest ∧ read_state s2.1 = TCP_CHANNEL_READ_HEADER.
Proof.
  intros Hr Hlen. pose proof (read_header_run s i b _ Hr) as Hh.
  pose proof (length_be_split 4 (Z.of_nat (length payload))) as H4.
  rewrite decide_True in Hh by (rewrite length_app; lia).
  rewrite take_app_length', drop_app_length', be_combine_split, Z.mod_small in Hh by (done || lia).
  destruct Hh as (s1 & b1 & Hrun & Hr1 & Hst & Hn). exists s1. split; [done|].
  pose proof (read_payload_run s1 i b1 _ Hr1 ltac:(rewrite Hn; lia)) as Hp. rewrite Hn in Hp.
  destruct (decide (payload = [])) as [->|Hne].
  - rewrite decide_False in Hp by (simpl; lia). destruct Hp as (s2 & Hrun2 & Hs & b2 & Hr2).
    eexists s2, b2, _. rewrite Hs. done.
  - assert (0 < length payload)%nat by (destruct payload; [done|simpl; lia]).
    rewrite decide_True in Hp by (rewrite length_app; lia).
    rewrite Nat2Z.id, take_app_length, drop_app_length in Hp.
    destruct Hp as (s2 & b2 & sp & Hrun2 & Hl & Hr2 & Hst2). by exists s2, b2, sp.
Qed.

(** Whatever the connections did, a reset of the channel list gives back the state of a
    fresh set-up: every channel is zeroed but for its index and all of them are
    free, in order. *)
Theorem channel_list_reset_is_setup acq n d l0 l :
  0 ≤ n < 2 ^ 55 → acquire_map acq (n * sizeof_tcp_channel) = true →
  acquire_list acq (n * 8) = Some d → Z.of_nat (length d) = n →
  list_wf (client_list_free l) → lp_capacity (client_list_free l) = n → clients_max l = n →
  ∃ l1 l2, tcp_channel_list_setup acq n l0 = Some (TN_SUCCESS, l1) ∧
    tcp_channel_list_reset l = Some (TN_SUCCESS, l2) ∧
    client_map l2 = client_map l1 ∧
    elems (client_list_free l2) = elems (client_list_free l1) ∧
    elems (client_list_free l1) = Some <$> seq 0 (Z.to_nat n) ∧
    ∀ i, (i < Z.to_nat n)%nat → client_map l1 !! i = Some (set_ch_id (Z.of_nat i) zero_channel).
Proof.
  intros Hn Hm Hl Hd Hwf Hcap Hmax.
  destruct (channel_setup_run acq n d l0 Hn Hm Hl Hd) as (l1 & H1 & Hr1 & Hc1 & Hz1).
  destruct (channel_reset_run l Hwf ltac:(lia)) as (l2 & H2 & Hr2 & Hc2 & Hz2).
  rewrite Hmax in *. exists l1, l2. destruct Hr1, Hr2. split_and!; try done; [|congruence|].
  - apply list_eq_same_length with (length (client_map l1)); [done|lia|].
    intros i x y Hi Hx Hy. rewrite (Hz1 _ _ Hy), (Hz2 _ _ Hx). done.
  - intros i Hi. destruct (lookup_lt_is_Some_2 (client_map l1) i) as [c Hc]; [lia|].
    rewrite Hc. by rewrite (Hz1 _ _ Hc).
Qed.

Section Swap.
Context (self : Z).

(** Copying the unread bytes [u] of buffer [i] into the empty buffer [j]. *)
Lemma copy_unread p m a i j b u r r2 :
  pool_rep self p m a → a_streams a !! i = Some (u, r) → tn_buffers p !! i = Some b →
  a_streams a !! j = Some ([], r2) → u ≠ [] → Z.of_nat (length u) ≤ r2 →
  ∃ p' m', on_buffer j (tn_buffer_write_buffer b 0) (p, m) = Some (TN_SUCCESS, (p', m')) ∧
    pool_rep self p' m' {| a_free := a_free a;
      a_streams := <[j := (u, r2 - Z.of_nat (length u))]> (a_streams a) |}.
Proof.
  intros Hr Hs Hb Hj Hne Hfit.
  destruct (rep_lookup self p m a i b Hr Hb) as (u' & r' & Hs' & Hu & _ & Hby & [Hwf _ _ _]).
  rewrite Hs in Hs'. simplify_eq. pose proof (unread_length b m u' Hwf Hu) as Hlen.
  destruct (Forall2_lookup_r _ _ _ _ _ (pr_streams _ _ _ _ Hr) Hj) as (bj & Hbj & Huj & Hroom & _).
  destruct (rep_lookup self p m a j bj Hr Hbj) as (_ & _ & _ & _ & _ & _ & [Hwfj _ _ _]). simpl in *.
  pose proof (bwf_addr b m Hwf). pose proof (bwf_cap b m Hwf). pose proof (bwf_len b m Hwf).
  pose proof (bwf_pos b m Hwf). pose proof (bwf_end b m Hwf).
  pose proof (write_run bj m (SrcPtr (cur_ptr (pos b))) u' (cur_len (pos b)) Hwfj ltac:(lia)) as Hw.
  rewrite decide_True in Hw by lia. destruct Hw as (b' & m' & Hrun & Hw); [done|].
  eexists _, m'. split.
  - unfold on_buffer. simpl. rewrite Hbj. unfold tn_buffer_write_buffer, tn_buffer_read_buffer.
    rewrite (proj2 (Z.eqb_eq 0 0)) by done. rewrite (bind_Some _ _ _ _ _ Hrun). simpl. reflexivity.
  - apply (rep_update self p m a j bj b' m'); try done.
    + by eapply written_local.
    + by rewrite (wr_unread _ _ _ _ _ Hw [] Huj).
    + destruct Hw. unfold room in *. lia.
Qed.

End Swap.

(** Swapping a channel's buffer keeps its unread bytes: the fresh buffer holds exactly
    what had not been read.  But when the pool is empty the channel's pointer is
    overwritten with [NULL] before the error is reported, so the buffer the channel
    had is stranded: it is neither in the pool nor reachable from the channel. *)
Theorem buffer_swap_spec self c p m a i u r :
  pool_rep self p m a → read_buffer c = Some i → i ∉ a_free a → a_streams a !! i = Some (u, r) →
  Z.of_nat (length u) ≤ block_size p →
  match a_free a with
  | [] => ∃ p', tcp_channel_buffer_swap (c, (p, m)) =
            Some (TN_ERROR, (set_read_buffer NULL c, (p', m))) ∧ pool_rep self p' m a
  | j :: l => ∃ p' m', tcp_channel_buffer_swap (c, (p, m)) =
            Some (TN_SUCCESS, (set_read_buffer (Some j) c, (p', m'))) ∧
          pool_rep self p' m' {| a_free := l;
            a_streams := <[j := (u, block_size p - Z.of_nat (length u))]> (a_streams a) |}
  end.
Proof.
  intros Hr Hc Hni Hs Hfit. unfold tcp_channel_buffer_swap.
  destruct (pool_pop_back_run self p m a Hr) as ([r1 r2] & p1 & Hpop & Hbs & _ & Hsp & Hr1).
  rewrite (bind_Some get _ (c, (p, m)) (c, (p, m)) (c, (p, m))) by done.
  rewrite (bind_Some _ _ _ i (c, (p, m))) by (unfold lift; simpl; by rewrite Hc).
  rewrite (bind_Some _ _ _ _ _ (zoom_Some snd (λ p s, (s.1, p)) _ (c, (p, m)) _ _ Hpop)).
  destruct a as [[|j l] st]; simpl in Hsp, Hr1, Hs |- *; injection Hsp as <- <-.
  - exists p1. split; [done|]. done.
  - assert (i ≠ j) as Hij by set_solver. simpl in Hni.
    assert (i < length st ∧ j < length st)%nat as [Hi Hj].
    { split; [by eapply lookup_lt_Some|].
      pose proof (Forall2_length _ _ _ (pr_streams _ _ _ _ Hr)) as Hl. simpl in Hl. rewrite <- Hl.
      pose proof (pr_range _ _ _ _ Hr) as Hrg. by apply Forall_cons in Hrg as [? _]. }
    assert (<[j:=([], block_size p)]> st !! i = Some (u, r)) as Hs1
      by (by rewrite list_lookup_insert_ne).
    destruct (Forall2_lookup_r _ _ _ _ _ (pr_streams _ _ _ _ Hr1) Hs1) as (b & Hb & Hu & _ & _).
    pose proof (rep_lookup self p1 m _ i b Hr1 Hb) as (_ & _ & _ & _ & _ & _ & [Hwf _ _ _]).
    pose proof (unread_length b m u Hwf Hu) as Hlen. simpl in Hlen.
    assert (on_buffer i tn_buffer_read_length (p1, m) = Some (cur_len (pos b), (p1, m))) as Hrl.
    { unfold on_buffer. simpl. rewrite Hb. unfold tn_buffer_read_length. mrun.
      rewrite list_insert_id by done. by destruct p1. }
    mrun. unfold on_pool. mrun. rewrite Hrl. rewrite <- Hlen.
    destruct u as [|x u].
    + simpl. eexists _, _. split; [done|]. rewrite Z.sub_0_r. done.
    + rewrite (proj2 (Z.eqb_neq _ 0)) by (simpl; lia). mrun. rewrite Hb.
      destruct (copy_unread self p1 m _ i j b (x :: u) r (block_size p) Hr1 Hs1 Hb) as (p2 & m2 & Hw & Hr2);
        [by simpl; rewrite list_lookup_insert_eq|done|done|].
      exists p2, m2. unfold on_read_buffer, on_pool. mrun. rewrite Hw. simpl.
      split; [done|]. simpl in Hr2. by rewrite list_insert_insert_eq in Hr2.
Qed.

(** A channel whose buffer holds the frame [7; 8] and one more byte. *)
Definition frame_mem : mem := list_to_map (zip (seqZ 4096 8) [0; 0; 0; 2; 7; 8; 9; 0]).
Definition frame_buffer : tn_buffer_t :=
  {| pool := Some 64;
     buf := set_buf_len 7 (aws_byte_buf_from_empty_array 4096 8);
     pos := {| cur_len := 7; cur_ptr := 4096 |}; Buffer.capacity := 0 |}.
Definition frame_state : chstate :=
  (set_read_buffer (Some 0%nat) zero_channel, (set_tn_buffers [frame_buffer] blank_pool, frame_mem)).

Lemma channel_reads_frame_witness :
  ∃ s1, @tcp_channel_read_header little_host frame_state = Some ((TN_SUCCESS, 2), s1) ∧
    ∃ s2 b2 sp, tcp_channel_read_payload s1 = Some ((TN_SUCCESS, sp), s2) ∧
      mem_load s2.2.2 (span_ptr sp) (span_len sp) = Some [7; 8] ∧
      reading s2 0 b2 [9] ∧ read_state s2.1 = TCP_CHANNEL_READ_HEADER.
Proof.
  apply (@channel_reads_frame little_host frame_state 0 frame_buffer [7; 8] [9]).
  - split.
    + reflexivity.
    + reflexivity.
    + split; simpl; try lia. apply allocated_bool. vm_compute. reflexivity.
    + vm_compute. reflexivity.
    + change (Forall is_byte [0; 0; 0; 2; 7; 8; 9]).
      repeat (apply Forall_cons; split; [unfold is_byte; lia|]). by apply Forall_nil.
  - simpl. lia.
Defined.

Lemma channel_list_reset_is_setup_witness :
  ∃ l1 l2,
    tcp_channel_list_setup {| acquire_map := λ _, true;
        acquire_list := λ sz, Some (replicate (Z.to_nat (sz / 8)) NULL) |} 2
      {| client_map := []; clients_max := 0; client_list_free := zero_list;
         client_list_open := zero_list |} = Some (TN_SUCCESS, l1) ∧
    tcp_channel_list_reset {| client_map := []; clients_max := 2;
         client_list_free := {| data := Some [Some 1%nat; NULL]; lp_capacity := 2; index := 1 |};
         client_list_open := zero_list |} = Some (TN_SUCCESS, l2) ∧
    client_map l2 = client_map l1 ∧ elems (client_list_free l2) = elems (client_list_free l1) ∧
    elems (client_list_free l1) = [Some 0%nat; Some 1%nat] ∧
    ∀ i, (i < 2)%nat → client_map l1 !! i = Some (set_ch_id (Z.of_nat i) zero_channel).
Proof.
  refine (channel_list_reset_is_setup _ 2 (replicate 2 NULL) _ _ _ _ _ _ _ _ _);
    [lia|reflexivity|reflexivity|reflexivity| |reflexivity|reflexivity].
  split; simpl; [lia|lia|]. eexists. split; reflexivity.
Defined.

Lemma buffer_swap_spec_witness :
  ∃ p m p' m',
    tcp_channel_buffer_swap (set_read_buffer (Some 0%nat) zero_channel, (p, m)) =
      Some (TN_SUCCESS, (set_read_buffer (Some 1%nat) (set_read_buffer (Some 0%nat) zero_channel), (p', m'))).
Proof.
  destruct (pool_setup_run 64 _ 3 4 blank_pool _ sample_granted) as (p & _ & _ & Hbs & _ & _ & Hr).
  destruct (pool_pop_back_run 64 p sample_mem _ Hr) as (r & p1 & _ & (_ & _ & Hbs1) & _ & _ & Hr1).
  destruct (buffer_swap_spec 64 (set_read_buffer (Some 0%nat) zero_channel) p1 sample_mem _ 0 [] 4
    Hr1 eq_refl) as (p' & m' & Hrun & _).
  - simpl. set_solver by lia.
  - simpl. rewrite Hbs. reflexivity.
  - simpl. rewrite Hbs1, Hbs. lia.
  - exists p1, sample_mem, p', m'. exact Hrun.
Defined.
