(* ===== verification/Service.v ===== *)
(** The TCP service: src/tcp_service.c and the libuv callbacks of
    src/tcp_service_internal.c.

    The main thread sends and collects events, the IO thread runs the callbacks;
    they share the queues of free and ready events and write requests.  One state
    [tcp_service_t] holds the service's members, memory, the counters of the
    internal file and what the code relies on from libuv ([uv_loop]).  The result
    of every libuv call is a parameter of the callback that makes it. *)
From stdpp Require Import base numbers list option gmap.
From Stdlib Require Import ZArith Lia.
From S2P Require Import Prelude QueueSpsc ByteBuf Buffer BufferPool ListPtr Inet Endpoint Event Channel.

Local Open Scope Z_scope.
Local Open Scope c_scope.

Definition TN_SERVICE_MAX_CLIENTS : Z := 10000.
Definition TN_SERVICE_MAX_READ : Z := 65535.
Definition UV_ENOMEM : Z := -12.

(** [tcp_service_write_req_t]: [uv_buf] is its base and length; the channel is an index
    into [client_map], the buffer one into the write pool. *)
Record tcp_service_write_req_t := {
  wr_base : Z;
  wr_len : Z;
  wr_channel : ptr nat;
  wr_buffer : ptr nat;
  wr_id : Z;
}.

Definition set_wr_uv_buf (base len : Z) (r : tcp_service_write_req_t) :=
  {| wr_base := base; wr_len := len; wr_channel := wr_channel r; wr_buffer := wr_buffer r; wr_id := wr_id r |}.
Definition set_wr_channel (c : ptr nat) (r : tcp_service_write_req_t) :=
  {| wr_base := wr_base r; wr_len := wr_len r; wr_channel := c; wr_buffer := wr_buffer r; wr_id := wr_id r |}.
Definition set_wr_buffer (b : ptr nat) (r : tcp_service_write_req_t) :=
  {| wr_base := wr_base r; wr_len := wr_len r; wr_channel := wr_channel r; wr_buffer := b; wr_id := wr_id r |}.

(** The callbacks [uv_close] is given. *)
Inductive close_cb := CbChannel | CbHandle.

(** What libuv keeps for the service: the [data] member of every live client handle,
    the handles [uv_close] was called on and whose callback is due, and the write
    requests [uv_write] accepted and whose callback is due. *)
Record uv_loop := {
  uv_data : gmap nat (ptr nat);
  uv_closing : list (nat * close_cb);
  uv_writes : list nat;
}.

Definition uv_is_closing (h : nat) (u : uv_loop) : bool := bool_decide (h ∈ (uv_closing u).*1).
Definition uv_close (h : nat) (cb : close_cb) (u : uv_loop) : uv_loop :=
  {| uv_data := uv_data u; uv_closing := uv_closing u ++ [(h, cb)]; uv_writes := uv_writes u |}.
(** A closed handle whose callback is about to run. *)
Definition uv_close_done (h : nat) (u : uv_loop) : uv_loop :=
  {| uv_data := uv_data u; uv_closing := filter (λ x, x.1 ≠ h) (uv_closing u); uv_writes := uv_writes u |}.
(** A successful [uv_write]. *)
Definition uv_write_accept (req : nat) (u : uv_loop) : uv_loop :=
  {| uv_data := uv_data u; uv_closing := uv_closing u; uv_writes := uv_writes u ++ [req] |}.
(** libuv is done with the request and is about to call [on_send_cb]. *)
Definition uv_write_done (req : nat) (u : uv_loop) : uv_loop :=
  {| uv_data := uv_data u; uv_closing := uv_closing u; uv_writes := filter (.≠ req) (uv_writes u) |}.
Definition uv_set_data (h : nat) (d : ptr nat) (u : uv_loop) : uv_loop :=
  {| uv_data := <[h := d]> (uv_data u); uv_closing := uv_closing u; uv_writes := uv_writes u |}.
(** The memory of a handle is released. *)
Definition uv_release (h : nat) (u : uv_loop) : uv_loop :=
  {| uv_data := delete h (uv_data u); uv_closing := uv_closing u; uv_writes := uv_writes u |}.

(** The counters of tcp_service_internal.c. *)
Record io_stats := { send_msgs : Z; send_bytes : Z; recv_msgs : Z; recv_bytes : Z }.

Record tcp_service_t := {
  sv_priv : ptr unit;
  sv_state : tn_atomic_t;
  host_listen : tn_endpoint_t;
  channel_list : tcp_channel_list_t;
  pool_read : tn_buffer_pool_t;
  pool_write : tn_buffer_pool_t;
  sv_mem : mem;
  events : tn_event_list_t;
  event_updates : list (ptr nat);
  event_updates_count : Z;
  buffer_count : Z;
  write_reqs : list tcp_service_write_req_t;
  write_reqs_free : tn_queue_spsc_t nat;
  write_reqs_ready : tn_queue_spsc_t nat;
  stats : io_stats;
  uv : uv_loop;
}.

Definition set_sv_priv (x : ptr unit) (s : tcp_service_t) : tcp_service_t :=
  {| sv_priv := x; sv_state := sv_state s; host_listen := host_listen s;
     channel_list := channel_list s; pool_read := pool_read s; pool_write := pool_write s;
     sv_mem := sv_mem s; events := events s; event_updates := event_updates s;
     event_updates_count := event_updates_count s; buffer_count := buffer_count s;
     write_reqs := write_reqs s; write_reqs_free := write_reqs_free s;
     write_reqs_ready := write_reqs_ready s; stats := stats s; uv := uv s |}.
Definition set_sv_state (x : tn_atomic_t) (s : tcp_service_t) : tcp_service_t :=
  {| sv_priv := sv_priv s; sv_state := x; host_listen := host_listen s;
     channel_list := channel_list s; pool_read := pool_read s; pool_write := pool_write s;
     sv_mem := sv_mem s; events := events s; event_updates := event_updates s;
     event_updates_count := event_updates_count s; buffer_count := buffer_count s;
     write_reqs := write_reqs s; write_reqs_free := write_reqs_free s;
     write_reqs_ready := write_reqs_ready s; stats := stats s; uv := uv s |}.
Definition set_host_listen (x : tn_endpoint_t) (s : tcp_service_t) : tcp_service_t :=
  {| sv_priv := sv_priv s; sv_state := sv_state s; host_listen := x;
     channel_list := channel_list s; pool_read := pool_read s; pool_write := pool_write s;
     sv_mem := sv_mem s; events := events s; event_updates := event_updates s;
     event_updates_count := event_updates_count s; buffer_count := buffer_count s;
     write_reqs := write_reqs s; write_reqs_free := write_reqs_free s;
     write_reqs_ready := write_reqs_ready s; stats := stats s; uv := uv s |}.
Definition set_buffer_count (x : Z) (s : tcp_service_t) : tcp_service_t :=
  {| sv_priv := sv_priv s; sv_state := sv_state s; host_listen := host_listen s;
     channel_list := channel_list s; pool_read := pool_read s; pool_write := pool_write s;
     sv_mem := sv_mem s; events := events s; event_updates := event_updates s;
     event_updates_count := event_updates_count s; buffer_count := x; write_reqs := write_reqs s;
     write_reqs_free := write_reqs_free s; write_reqs_ready := write_reqs_ready s;
     stats := stats s; uv := uv s |}.
Definition set_channel_list (x : tcp_channel_list_t) (s : tcp_service_t) : tcp_service_t :=
  {| sv_priv := sv_priv s; sv_state := sv_state s; host_listen := host_listen s; channel_list := x;
     pool_read := pool_read s; pool_write := pool_write s; sv_mem := sv_mem s; events := events s;
     event_updates := event_updates s; event_updates_count := event_updates_count s;
     buffer_count := buffer_count s; write_reqs := write_reqs s;
     write_reqs_free := write_reqs_free s; write_reqs_ready := write_reqs_ready s;
     stats := stats s; uv := uv s |}.
Definition set_events (x : tn_event_list_t) (s : tcp_service_t) : tcp_service_t :=
  {| sv_priv := sv_priv s; sv_state := sv_state s; host_listen := host_listen s;
     channel_list := channel_list s; pool_read := pool_read s; pool_write := pool_write s;
     sv_mem := sv_mem s; events := x; event_updates := event_updates s;
     event_updates_count := event_updates_count s; buffer_count := buffer_count s;
     write_reqs := write_reqs s; write_reqs_free := write_reqs_free s;
     write_reqs_ready := write_reqs_ready s; stats := stats s; uv := uv s |}.
Definition set_event_updates (x : list (ptr nat)) (s : tcp_service_t) : tcp_service_t :=
  {| sv_priv := sv_priv s; sv_state := sv_state s; host_listen := host_listen s;
     channel_list := channel_list s; pool_read := pool_read s; pool_write := pool_write s;
     sv_mem := sv_mem s; events := events s; event_updates := x;
     event_updates_count := event_updates_count s; buffer_count := buffer_count s;
     write_reqs := write_reqs s; write_reqs_free := write_reqs_free s;
     write_reqs_ready := write_reqs_ready s; stats := stats s; uv := uv s |}.
Definition set_event_updates_count (x : Z) (s : tcp_service_t) : tcp_service_t :=
  {| sv_priv := sv_priv s; sv_state := sv_state s; host_listen := host_listen s;
     channel_list := channel_list s; pool_read := pool_read s; pool_write := pool_write s;
     sv_mem := sv_mem s; events := events s; event_updates := event_updates s;
     event_updates_count := x; buffer_count := buffer_count s; write_reqs := write_reqs s;
     write_reqs_free := write_reqs_free s; write_reqs_ready := write_reqs_ready s;
     stats := stats s; uv := uv s |}.
Definition set_write_reqs (x : list tcp_service_write_req_t) (s : tcp_service_t) : tcp_service_t :=
  {| sv_priv := sv_priv s; sv_state := sv_state s; host_listen := host_listen s;
     channel_list := channel_list s; pool_read := pool_read s; pool_write := pool_write s;
     sv_mem := sv_mem s; events := events s; event_updates := event_updates s;
     event_updates_count := event_updates_count s; buffer_count := buffer_count s; write_reqs := x;
     write_reqs_free := write_reqs_free s; write_reqs_ready := write_reqs_ready s;
     stats := stats s; uv := uv s |}.
Definition set_write_reqs_free (x : tn_queue_spsc_t nat) (s : tcp_service_t) : tcp_service_t :=
  {| sv_priv := sv_priv s; sv_state := sv_state s; host_listen := host_listen s;
     channel_list := channel_list s; pool_read := pool_read s; pool_write := pool_write s;
     sv_mem := sv_mem s; events := events s; event_updates := event_updates s;
     event_updates_count := event_updates_count s; buffer_count := buffer_count s;
     write_reqs := write_reqs s; write_reqs_free := x; write_reqs_ready := write_reqs_ready s;
     stats := stats s; uv := uv s |}.
Definition set_write_reqs_ready (x : tn_queue_spsc_t nat) (s : tcp_service_t) : tcp_service_t :=
  {| sv_priv := sv_priv s; sv_state := sv_state s; host_listen := host_listen s;
     channel_list := channel_list s; pool_read := pool_read s; pool_write := pool_write s;
     sv_mem := sv_mem s; events := events s; event_updates := event_updates s;
     event_updates_count := event_updates_count s; buffer_count := buffer_count s;
     write_reqs := write_reqs s; write_reqs_free := write_reqs_free s; write_reqs_ready := x;
     stats := stats s; uv := uv s |}.
Definition set_stats (x : io_stats) (s : tcp_service_t) : tcp_service_t :=
  {| sv_priv := sv_priv s; sv_state := sv_state s; host_listen := host_listen s;
     channel_list := channel_list s; pool_read := pool_read s; pool_write := pool_write s;
     sv_mem := sv_mem s; events := events s; event_updates := event_updates s;
     event_updates_count := event_updates_count s; buffer_count := buffer_count s;
     write_reqs := write_reqs s; write_reqs_free := write_reqs_free s;
     write_reqs_ready := write_reqs_ready s; stats := x; uv := uv s |}.
Definition set_uv (x : uv_loop) (s : tcp_service_t) : tcp_service_t :=
  {| sv_priv := sv_priv s; sv_state := sv_state s; host_listen := host_listen s;
     channel_list := channel_list s; pool_read := pool_read s; pool_write := pool_write s;
     sv_mem := sv_mem s; events := events s; event_updates := event_updates s;
     event_updates_count := event_updates_count s; buffer_count := buffer_count s;
     write_reqs := write_reqs s; write_reqs_free := write_reqs_free s;
     write_reqs_ready := write_reqs_ready s; stats := stats s; uv := x |}.
Definition set_read_side (x0 : tn_buffer_pool_t) (x1 : mem) (s : tcp_service_t) : tcp_service_t :=
  {| sv_priv := sv_priv s; sv_state := sv_state s; host_listen := host_listen s;
     channel_list := channel_list s; pool_read := x0; pool_write := pool_write s; sv_mem := x1;
     events := events s; event_updates := event_updates s;
     event_updates_count := event_updates_count s; buffer_count := buffer_count s;
     write_reqs := write_reqs s; write_reqs_free := write_reqs_free s;
     write_reqs_ready := write_reqs_ready s; stats := stats s; uv := uv s |}.
Definition set_write_side (x0 : tn_buffer_pool_t) (x1 : mem) (s : tcp_service_t) : tcp_service_t :=
  {| sv_priv := sv_priv s; sv_state := sv_state s; host_listen := host_listen s;
     channel_list := channel_list s; pool_read := pool_read s; pool_write := x0; sv_mem := x1;
     events := events s; event_updates := event_updates s;
     event_updates_count := event_updates_count s; buffer_count := buffer_count s;
     write_reqs := write_reqs s; write_reqs_free := write_reqs_free s;
     write_reqs_ready := write_reqs_ready s; stats := stats s; uv := uv s |}.

Definition on_channels {A} (f : M tcp_channel_list_t A) : M tcp_service_t A :=
  zoom channel_list set_channel_list f.
Definition on_read_pool {A} (f : M plstate A) : M tcp_service_t A :=
  zoom (λ s, (pool_read s, sv_mem s)) (λ pm s, set_read_side pm.1 pm.2 s) f.
Definition on_write_pool {A} (f : M plstate A) : M tcp_service_t A :=
  zoom (λ s, (pool_write s, sv_mem s)) (λ pm s, set_write_side pm.1 pm.2 s) f.
Definition on_events {A} (f : M tn_event_list_t A) : M tcp_service_t A := zoom events set_events f.
Definition on_wfree {A} (f : M (tn_queue_spsc_t nat) A) : M tcp_service_t A :=
  zoom write_reqs_free set_write_reqs_free f.
Definition on_wready {A} (f : M (tn_queue_spsc_t nat) A) : M tcp_service_t A :=
  zoom write_reqs_ready set_write_reqs_ready f.
Definition modify_uv (f : uv_loop → uv_loop) : M tcp_service_t unit := modify (λ s, set_uv (f (uv s)) s).
Definition modify_stats (f : io_stats → io_stats) : M tcp_service_t unit :=
  modify (λ s, set_stats (f (stats s)) s).

(** [write_reqs[i]] and assignments through a pointer to it. *)
Definition get_req (i : nat) : M tcp_service_t tcp_service_write_req_t :=
  s ← get; lift (write_reqs s !! i).
Definition update_req (i : nat) (f : tcp_service_write_req_t → tcp_service_write_req_t) : M tcp_service_t unit :=
  s ← get; r ← lift (write_reqs s !! i); put (set_write_reqs (<[i := f r]> (write_reqs s)) s).
Definition get_channel (i : nat) : M tcp_service_t tcp_channel_t :=
  s ← get; lift (client_map (channel_list s) !! i).

(** ** Set-up and clean-up *)

Definition TCP_SERVICE_NEW : Z := 0.
Definition TCP_SERVICE_STARTING : Z := 1.
Definition TCP_SERVICE_STARTED : Z := 2.
Definition TCP_SERVICE_STOPPING : Z := 3.
Definition TCP_SERVICE_STOPPED : Z := 4.

Definition tcp_service_set_state (state : Z) : M tcp_service_t unit :=
  modify (λ s, set_sv_state (tn_atomic_store (sv_state s) state) s).
Definition tcp_service_state : M tcp_service_t Z := gets (λ s, tn_atomic_load (sv_state s)).

(** [sizeof(tcp_service_priv_t)] and [sizeof(tcp_service_write_req_t)] on Linux x86-64. *)
Definition sizeof_priv : Z := 48.
Definition sizeof_write_req : Z := 232.

(** The allocator's answers. *)
Record service_acquire := {
  sa_priv : Z → bool;
  sa_channels : channel_acquire;
  sa_read : pool_acquire;
  sa_write : pool_acquire;
  sa_events : event_acquire;
  sa_updates : Z → option (list (ptr nat));
  sa_reqs : Z → option (list tcp_service_write_req_t);
  sa_wfree : Z → option (list (ptr nat));
  sa_wready : Z → option (list (ptr nat));
}.

Definition no_list : tn_list_ptr_t nat := {| data := NULL; lp_capacity := 0; index := 0 |}.
Definition no_queue : tn_queue_spsc_t nat :=
  {| QueueSpsc.capacity := 0; mask := 0; buffer := []; head := {| value := 0 |}; tail := {| value := 0 |};
     tail_cache := 0 |}.
Definition no_pool : tn_buffer_pool_t :=
  {| blocks_inuse := 0; bytes_inuse := 0; block_size := 0; block_count := 0; tn_buffers := [];
     allocation := 0; tn_buffers_free := no_queue |}.

(** The service with all bytes 0. *)
Definition zero_service (m : mem) (u : uv_loop) (st : io_stats) : tcp_service_t :=
  {| sv_priv := NULL; sv_state := {| value := 0 |}; host_listen := zero_endpoint;
     channel_list := {| client_map := []; clients_max := 0; client_list_free := no_list;
                        client_list_open := no_list |};
     pool_read := no_pool; pool_write := no_pool; sv_mem := m;
     events := {| tn_events := []; tn_events_free := no_queue; tn_events_ready := no_queue;
                  ev_capacity := 0 |};
     event_updates := []; event_updates_count := 0; buffer_count := 0; write_reqs := [];
     write_reqs_free := no_queue; write_reqs_ready := no_queue; stats := st; uv := u |}.

(** The label [cleanup]: three blocks are released; the pointer [priv] keeps its value. *)
Definition service_setup_cleanup : M tcp_service_t Z :=
  modify (set_event_updates []);; modify (set_write_reqs []);; mret TN_ERROR.

Fixpoint setup_reqs (n : nat) (i : Z) : M tcp_service_t Z :=
  match n with
  | O => mret TN_SUCCESS
  | S n =>
      update_req (Z.to_nat i) (λ r, {| wr_base := wr_base r; wr_len := wr_len r;
        wr_channel := wr_channel r; wr_buffer := NULL; wr_id := i |});;
      TN_GUARD_CLEANUP [service_setup_cleanup] on_wfree (tn_queue_spsc_push (Some (Z.to_nat i))) THEN
      s ← get;
      if decide (Z.to_nat i < length (event_updates s))%nat then
        put (set_event_updates (<[Z.to_nat i := NULL]> (event_updates s)) s);;
        setup_reqs n (i + 1)
      else undef
  end.

(** Set-up with the constants [TN_SERVICE_MAX_CLIENTS] and [TN_SERVICE_MAX_READ] as
    arguments; [rd] and [wr] are the addresses of the two pools. *)
Definition service_setup_sized (max_clients max_read : Z) (acq : service_acquire) (rd wr : Z) : M tcp_service_t Z :=
  modify (λ s, zero_service (sv_mem s) (uv s) (stats s));;
  tcp_service_set_state TCP_SERVICE_NEW;;
  if negb (sa_priv acq sizeof_priv) then mret TN_ERROR
  else
    modify (set_sv_priv (Some tt));;
    TN_GUARD_CLEANUP [service_setup_cleanup]
      on_channels (tcp_channel_list_setup (sa_channels acq) max_clients) THEN
    modify (set_buffer_count (max_clients * 4));;
    let n := max_clients * 4 in
    TN_GUARD_CLEANUP [service_setup_cleanup]
      on_read_pool (tn_buffer_pool_setup (sa_read acq) rd n max_read) THEN
    TN_GUARD_CLEANUP [service_setup_cleanup]
      on_write_pool (tn_buffer_pool_setup (sa_write acq) wr n max_read) THEN
    TN_GUARD_CLEANUP [service_setup_cleanup] on_events (tn_event_list_setup (sa_events acq) n) THEN
    match sa_updates acq (u64 (n * 8)) with
    | None => service_setup_cleanup
    | Some us =>
        modify (set_event_updates us);;
        match sa_reqs acq (u64 (n * sizeof_write_req)) with
        | None => service_setup_cleanup
        | Some rs =>
            modify (set_write_reqs rs);;
            TN_GUARD_CLEANUP [service_setup_cleanup] on_wfree (tn_queue_spsc_setup (sa_wfree acq) n) THEN
            TN_GUARD_CLEANUP [service_setup_cleanup] on_wready (tn_queue_spsc_setup (sa_wready acq) n) THEN
            setup_reqs (Z.to_nat n) 0
        end
    end.

Definition tcp_service_setup : service_acquire → Z → Z → M tcp_service_t Z :=
  service_setup_sized TN_SERVICE_MAX_CLIENTS TN_SERVICE_MAX_READ.

Definition tcp_service_cleanup : M tcp_service_t unit :=
  s ← get;
  match sv_priv s with
  | None => mret tt
  | Some _ =>
      on_channels tcp_channel_list_cleanup;;
      on_read_pool tn_buffer_pool_cleanup;;
      on_write_pool tn_buffer_pool_cleanup;;
      on_events tn_event_list_cleanup;;
      on_wfree tn_queue_spsc_cleanup;;
      on_wready tn_queue_spsc_cleanup;;
      modify (set_event_updates []);;
      modify (set_write_reqs [])
  end.

Definition tcp_service_stats_clear : M tcp_service_t Z := mret TN_SUCCESS.
Definition tcp_service_stats_get : M tcp_service_t Z := mret TN_SUCCESS.

(** ** The main thread (tcp_service.c) *)

Definition tcp_service_send (channel : nat) (sndbuf : source) (sndlen : Z) : M tcp_service_t Z :=
  TN_ASSERT (negb (sndlen =? 0));;
  r ← on_wfree tn_queue_spsc_peek;
  if negb (r.1 =? 0) then mret TN_SEND_NOREQ
  else
    send_req ← lift r.2;
    b ← on_write_pool tn_buffer_pool_peek;
    update_req send_req (set_wr_buffer b.2);;
    if negb (b.1 =? 0) then mret TN_SEND_NOBUF
    else
      buffer ← lift b.2;
      w ← on_write_pool (on_buffer buffer (tn_buffer_write sndbuf sndlen));
      if negb (w =? 0) then mret TN_SEND_NOBUF
      else
        update_req send_req (set_wr_channel (Some channel));;
        base ← on_write_pool (on_buffer buffer tn_buffer_read_ptr);
        len ← on_write_pool (on_buffer buffer tn_buffer_length);
        update_req send_req (set_wr_uv_buf base len);;
        TN_GUARD (on_wready (tn_queue_spsc_push (Some send_req))) THEN
        on_write_pool tn_buffer_pool_pop_cached;;
        on_wfree tn_queue_spsc_pop_cached;;
        mret TN_SUCCESS.

(** The code and the out count; the out array is [event_updates], which must have room
    for the events copied to it. *)
Definition tcp_service_events_acquire : M tcp_service_t (Z * Z) :=
  modify (set_event_updates_count 0);;
  s ← get;
  r ← on_events (tn_event_list_ready_pop_all (buffer_count s));
  let '(code, evts, count) := r in
  TN_ASSERT (bool_decide (length evts ≤ length (event_updates s))%nat);;
  modify (λ s, set_event_updates (evts ++ drop (length evts) (event_updates s))%list s);;
  if negb (code =? 0) then mret (TN_ERROR, 0)
  else modify (set_event_updates_count count);; mret (TN_SUCCESS, count).

(** The loop of the release over [event_updates[i ..]]. *)
Fixpoint release_loop (n : nat) (i : nat) : M tcp_service_t unit :=
  match n with
  | O => mret tt
  | S n =>
      s ← get;
      o ← lift (event_updates s !! i);
      e ← lift o;
      ev ← lift (tn_events (events s) !! e);
      (if ev_type ev =? TN_EVENT_CLIENT_READ then
         match body ev with
         | BRead _ _ (Some (Some b)) => on_read_pool (tn_buffer_pool_push b);; mret tt
         | _ => undef
         end
       else mret tt);;
      on_events (tn_event_list_free_push e);;
      release_loop n (S i)
  end.

Definition tcp_service_events_release : M tcp_service_t Z :=
  s ← get;
  release_loop (Z.to_nat (event_updates_count s)) 0;;
  mret TN_SUCCESS.

(** ** The IO thread (tcp_service_internal.c) *)

Definition on_close_handle_cb (handle : nat) : M tcp_service_t unit := modify_uv (uv_release handle).

Definition on_close_channel_cb (handle : nat) : M tcp_service_t unit :=
  s ← get;
  d ← lift (uv_data (uv s) !! handle);
  channel ← lift d;
  on_channels (update_channel channel (set_ch_state TCP_CHANNEL_CLOSED));;
  c ← get_channel channel;
  lift (service c);;
  (match read_buffer c with
   | Some b =>
       on_read_pool (tn_buffer_pool_push b);;
       on_channels (update_channel channel (set_read_buffer NULL))
   | None => mret tt
   end);;
  r ← on_events tn_event_list_free_pop_close;
  (if negb (r.1 =? 0) then mret tt
   else
     evt_close ← lift r.2;
     on_events (update_event evt_close (λ e, set_body (BClose (Some NULL) (Some 0)) (set_client_id (ch_id c) e)));;
     on_events (tn_event_list_ready_push evt_close);;
     on_channels (tcp_channel_list_close channel);;
     mret tt);;
  modify_uv (uv_release handle).

Definition on_send_cb (write_req : nat) (status : Z) : M tcp_service_t unit :=
  r ← get_req write_req;
  (if negb (status =? 0) then mret tt
   else modify_stats (λ t, {| send_msgs := u64 (send_msgs t + 1); send_bytes := u64 (send_bytes t + wr_len r);
                              recv_msgs := recv_msgs t; recv_bytes := recv_bytes t |}));;
  ch ← lift (wr_channel r);
  c ← get_channel ch;
  lift (service c);;
  update_req write_req (set_wr_buffer NULL);;
  reqbuf ← lift (wr_buffer r);
  on_write_pool (tn_buffer_pool_push reqbuf);;
  on_wfree (tn_queue_spsc_push (Some write_req));;
  mret tt.

(** [buf->base] and [buf->len]. *)
Definition on_recv_alloc_cb (handle : nat) : M tcp_service_t (Z * Z) :=
  s ← get;
  d ← lift (uv_data (uv s) !! handle);
  channel ← lift d;
  c ← get_channel channel;
  lift (service c);;
  ok ← (match read_buffer c with
        | Some _ => mret true
        | None =>
            r ← on_read_pool tn_buffer_pool_pop_back;
            on_channels (update_channel channel (set_read_buffer r.2));;
            mret (r.1 =? 0)
        end);
  if negb ok then mret (0, 0)
  else
    c ← get_channel channel;
    b ← lift (read_buffer c);
    base ← on_read_pool (on_buffer b tn_buffer_write_ptr);
    len ← on_read_pool (on_buffer b tn_buffer_remaining);
    mret (base, len).

(** The label [cleanup] of [on_recv_cb]. *)
Definition recv_cleanup (handle channel : nat) (ret : Z) (close_channel : bool) : M tcp_service_t unit :=
  on_channels (update_channel channel (set_error_code ret));;
  s ← get;
  if close_channel && negb (uv_is_closing handle (uv s)) then
    on_channels (update_channel channel (set_ch_state TCP_CHANNEL_CLOSING));;
    modify_uv (uv_close handle CbChannel)
  else mret tt.

(** [has_buf]: whether [buf] is not [NULL]. *)
Definition on_recv_cb (handle : nat) (nread : Z) (has_buf : bool) : M tcp_service_t unit :=
  s ← get;
  d ← lift (uv_data (uv s) !! handle);
  channel ← lift d;
  c ← get_channel channel;
  if nread <? 0 then recv_cleanup handle channel nread true
  else if (nread =? 0) || negb has_buf then recv_cleanup handle channel TN_RECV_ERROR false
  else
    modify_stats (λ t, {| send_msgs := send_msgs t; send_bytes := send_bytes t;
                          recv_msgs := u64 (recv_msgs t + 1); recv_bytes := u64 (recv_bytes t + nread) |});;
    b ← lift (read_buffer c);
    TN_GUARD_CLEANUP [recv_cleanup handle channel TN_RECV_EBUF false]
      on_read_pool (on_buffer b (tn_buffer_add_length nread)) THEN
    lift (service c);;
    r ← on_events tn_event_list_free_pop_read;
    if negb (r.1 =? 0) then recv_cleanup handle channel TN_RECV_EVTPOP false
    else
      evt ← lift r.2;
      p ← on_read_pool (on_buffer b tn_buffer_read_ptr);
      l ← on_read_pool (on_buffer b tn_buffer_read_length);
      on_events (update_event evt (λ e, set_body (BRead (Some p) (Some l) (Some (Some b)))
                                               (set_client_id (ch_id c) e)));;
      TN_GUARD_CLEANUP [recv_cleanup handle channel TN_RECV_EVTPUSH false]
        on_events (tn_event_list_ready_push evt) THEN
      on_channels (update_channel channel (set_read_buffer NULL)).

(** What the system answers to a new connection: the memory for the handle and the
    results of the libuv calls. *)
Record accept_env := {
  ae_handle : option nat;
  ae_tcp_init : Z;
  ae_accept : Z;
  ae_getpeername : Z * sockaddr;
  ae_getsockname : Z * sockaddr;
  ae_read_start : Z;
}.

(** The label [cleanup] of [on_connection_cb]. *)
Definition connection_cleanup (client_handle : option nat) (channel : option nat) (handle_is_init : bool) :
    M tcp_service_t unit :=
  match client_handle, channel with
  | Some h, Some c =>
      on_channels (update_channel c (set_ch_state TCP_CHANNEL_CLOSING));;
      modify_uv (uv_close h CbChannel)
  | Some h, None => if handle_is_init then modify_uv (uv_close h CbHandle) else mret tt
  | None, _ => mret tt
  end.

(** [on_connection_cb] once the channel is open.  [host_local] is filled by the
    conversion of the socket's own address. *)
Definition connection_opened (env : accept_env) (h channel : nat) : M tcp_service_t unit :=
  let fail := connection_cleanup (Some h) (Some channel) true in
  if negb ((ae_getpeername env).1 =? 0) then fail
  else
    c ← get_channel channel;
    e ← lift (tn_endpoint_convert_from (Some (ae_getpeername env).2) (endpoint c));
    on_channels (update_channel channel (set_endpoint e.2));;
    if negb (e.1 =? 0) then fail
    else if negb ((ae_getsockname env).1 =? 0) then fail
    else
      hl ← lift (tn_endpoint_convert_from (Some (ae_getsockname env).2) zero_endpoint);
      if negb (hl.1 =? 0) then fail
      else
        p ← on_events tn_event_list_free_pop_open;
        if negb (p.1 =? 0) then fail
        else
          open_evt ← lift p.2;
          on_events (update_event open_evt (λ ev,
            set_client_id (ch_id c) (set_ev_type TN_EVENT_CLIENT_OPEN ev)));;
          sl ← lift (tn_endpoint_get_string hl.2 64);
          on_events (update_event open_evt (set_body (BOpen (Some sl.2) None)));;
          if negb (sl.1 =? 0) then fail
          else
            sr ← lift (tn_endpoint_get_string e.2 64);
            on_events (update_event open_evt (set_body (BOpen (Some sl.2) (Some sr.2))));;
            if negb (sr.1 =? 0) then fail
            else
              TN_GUARD_CLEANUP [fail] on_events (tn_event_list_ready_push open_evt) THEN
              if negb (ae_read_start env =? 0) then fail else mret tt.

Definition on_connection_cb (env : accept_env) (status : Z) : M tcp_service_t unit :=
  if status <? 0 then connection_cleanup None None false
  else
    match ae_handle env with
    | None => connection_cleanup None None false
    | Some h =>
        modify_uv (uv_set_data h NULL);;
        if negb (ae_tcp_init env =? 0) then connection_cleanup (Some h) None false
        else if negb (ae_accept env =? 0) then connection_cleanup (Some h) None true
        else
          r ← on_channels tcp_channel_list_open;
          if negb (r.1 =? 0) then connection_cleanup (Some h) None true
          else
            o ← lift r.2; channel ← lift o;
            modify_uv (uv_set_data h (Some channel));;
            on_channels (update_channel channel (set_opened h));;
            connection_opened env h channel
    end.

(** The loop of [on_prep_cb]; [uv_write req] is the result of that call.  Each round
    takes a request out of the ready queue, so the number of queued requests bounds
    the rounds. *)
Fixpoint prep_loop (uv_write : nat → Z) (fuel : nat) : M tcp_service_t unit :=
  r ← on_wready tn_queue_spsc_pop_back;
  if negb (r.1 =? 0) then mret tt
  else
    match fuel with
    | O => undef
    | S fuel =>
        send_req ← lift r.2;
        req ← get_req send_req;
        ch ← lift (wr_channel req);
        c ← get_channel ch;
        if negb (ch_state c =? TCP_CHANNEL_OPEN) then
          b ← lift (wr_buffer req);
          on_write_pool (tn_buffer_pool_push b);;
          on_wfree (tn_queue_spsc_push (Some send_req));;
          prep_loop uv_write fuel
        else if uv_write send_req =? 0 then
          modify_uv (uv_write_accept send_req);;
          prep_loop uv_write fuel
        else
          b ← lift (wr_buffer req);
          update_req send_req (set_wr_buffer NULL);;
          on_write_pool (tn_buffer_pool_push b);;
          on_wfree (tn_queue_spsc_push (Some send_req));;
          prep_loop uv_write fuel
    end.

Definition on_prep_cb (uv_write : nat → Z) : M tcp_service_t unit :=
  n ← on_wready tn_queue_spsc_count; prep_loop uv_write (Z.to_nat n).

Definition on_check_cb : M tcp_service_t unit := mret tt.
Definition on_async_cb : M tcp_service_t unit := mret tt.

(** ** libuv's read loop *)

Definition UV_ENOBUFS : Z := -105.
Definition UV_EOF : Z := -4095.

(** The answer of read(2) to one call: bytes (at least one, at most as many as asked),
    nothing yet, the end of the stream or an error. *)
Inductive read_answer := ReadBytes (bs : list Z) | ReadAgain | ReadEof | ReadError (err : Z).

(** One round of the loop of [uv__read] (not an IPC pipe): a buffer is asked for, the
    kernel writes into it and the callback is told.  The next round is another step. *)
Definition uv__read (handle : nat) (answer : read_answer) : M tcp_service_t unit :=
  buf ← on_recv_alloc_cb handle;
  if (buf.1 =? 0) || (buf.2 =? 0) then on_recv_cb handle UV_ENOBUFS true
  else
    match answer with
    | ReadBytes bs =>
        let data := take (Z.to_nat buf.2) bs in
        s ← get;
        m ← lift (mem_store (sv_mem s) buf.1 data);
        put (set_read_side (pool_read s) m s);;
        on_recv_cb handle (Z.of_nat (length data)) true
    | ReadAgain => on_recv_cb handle 0 true
    | ReadEof => on_recv_cb handle UV_EOF true
    | ReadError err => on_recv_cb handle err true
    end.
