(* ===== verification/ServiceWrite.v ===== *)
(** The send path of the service: who owns the write requests and the write buffers.

    A write request is free, ready (queued by the main thread) or in flight (accepted
    by libuv); a write buffer is in its pool or attached to a ready or in-flight
    request.  The file shows that [tcp_service_send], [on_prep_cb] and [on_send_cb]
    keep this partition, so that no request or buffer is ever lost or used twice,
    whatever libuv answers, and that the bytes handed to libuv are those given to
    [tcp_service_send]. *)
From stdpp Require Import base numbers list option gmap.
From Stdlib Require Import ZArith Lia.
From S2P Require Import Prelude QueueSpsc ByteBuf Buffer BufferPool ListPtr Inet Endpoint Event Channel Service.

Local Open Scope Z_scope.
Local Open Scope c_scope.

(** ** Queues of indices *)

(** A queue that holds [l] and has room for [n] elements. *)
Record queue_rep (q : tn_queue_spsc_t nat) (l : list nat) (n : nat) : Prop := {
  qr_wf : wf q;
  qr_room : Z.of_nat n ≤ QueueSpsc.capacity q;
  qr_contents : contents q = Some <$> l;
}.

Section Queues.
Implicit Types q : tn_queue_spsc_t nat.

Lemma q_push q l n x :
  queue_rep q l n → (length l < n)%nat →
  ∃ q', tn_queue_spsc_push (Some x) q = Some (TN_SUCCESS, q') ∧ queue_rep q' (l ++ [x]) n.
Proof.
  intros [] Hl. destruct (push_queue q l x qr_wf0 qr_contents0) as (q' & Hr & ? & Hc & ?); [lia|].
  exists q'. split; [done|]. split; [done|by rewrite Hc|done].
Qed.

Lemma q_pop_back q l n :
  queue_rep q l n →
  ∃ q', tn_queue_spsc_pop_back q =
      Some (match l with [] => (TN_QUEUE_EMPTY, NULL) | x :: _ => (TN_SUCCESS, Some x) end, q') ∧
    queue_rep q' (drop 1 l) n.
Proof.
  intros []. destruct (pop_back_queue q l qr_wf0 qr_contents0) as (q' & Hr & ? & Hc & ?).
  exists q'. split; [done|]. split; [done|by rewrite Hc|done].
Qed.

(** A [peek] that finds an element leaves the queue ready for [pop_cached]. *)
Lemma q_peek q l n :
  queue_rep q l n →
  match l with
  | [] => ∃ q', tn_queue_spsc_peek q = Some ((TN_QUEUE_EMPTY, NULL), q') ∧ queue_rep q' [] n
  | x :: l' => ∃ q', tn_queue_spsc_peek q = Some ((TN_SUCCESS, Some x), q') ∧ queue_rep q' l n ∧
      ∃ q'', tn_queue_spsc_pop_cached q' = Some (tt, q'') ∧ queue_rep q'' l' n
  end.
Proof.
  intros []. destruct (peek_run q qr_wf0) as (q' & Hr & Hwf & Hc & Hcon & Htl & Hcache).
  rewrite qr_contents0 in *. destruct l as [|x l']; simpl in *.
  - exists q'. split; [done|]. split; [done|by rewrite Hc|done].
  - exists q'. split; [done|]. split; [split; [done|by rewrite Hc|done]|].
    destruct (pop_cached_run q' Hwf) as (q2 & Hr2 & Hwf2 & Hc2 & Hcon2).
    + by rewrite Hcon.
    + by apply Hcache.
    + exists q2. split; [done|]. split; [done|by rewrite Hc2, Hc|]. by rewrite Hcon2, Hcon.
Qed.

Lemma q_count q l n : queue_rep q l n → tn_queue_spsc_count q = Some (Z.of_nat (length l), q).
Proof. intros []. rewrite count_run, <- Zlength_contents, qr_contents0. by rewrite length_fmap. Qed.

End Queues.

(** ** The invariant of the send path *)

Definition req_buf (reqs : list tcp_service_write_req_t) (r : nat) : option nat :=
  rq ← reqs !! r; wr_buffer rq.
Definition req_bufs (reqs : list tcp_service_write_req_t) (l : list nat) : list nat := omap (req_buf reqs) l.

(** A ready or in-flight request: its [uv_buf] is the unread part of its buffer, and its
    channel has been opened. *)
Definition req_ok (s : tcp_service_t) (r : nat) : Prop :=
  ∃ rq b bf c ch, write_reqs s !! r = Some rq ∧ wr_buffer rq = Some b ∧
    tn_buffers (pool_write s) !! b = Some bf ∧
    wr_base rq = cur_ptr (pos bf) ∧ wr_len rq = cur_len (pos bf) ∧
    wr_channel rq = Some c ∧ client_map (channel_list s) !! c = Some ch ∧ service ch = Some tt.

Record write_inv (wr : Z) (flight : list nat) (s : tcp_service_t) (a : streams) (free ready : list nat) : Prop := {
  wi_pool : pool_rep wr (pool_write s) (sv_mem s) a;
  wi_free : queue_rep (write_reqs_free s) free (length (write_reqs s));
  wi_ready : queue_rep (write_reqs_ready s) ready (length (write_reqs s));
  wi_reqs : free ++ ready ++ flight ≡ₚ seq 0 (length (write_reqs s));
  wi_bufs : a_free a ++ req_bufs (write_reqs s) (ready ++ flight) ≡ₚ
              seq 0 (length (tn_buffers (pool_write s)));
  wi_ok : ∀ r, r ∈ ready ++ flight → req_ok s r;
}.

(** What the send path leaves alone. *)
Record write_frame (s s' : tcp_service_t) : Prop := {
  wf_channels : channel_list s' = channel_list s;
  wf_read : pool_read s' = pool_read s;
  wf_events : events s' = events s;
  wf_updates : event_updates s' = event_updates s ∧ event_updates_count s' = event_updates_count s;
  wf_count : buffer_count s' = buffer_count s;
  wf_uv : uv_data (uv s') = uv_data (uv s) ∧ uv_closing (uv s') = uv_closing (uv s);
  wf_geometry : same_geometry (pool_write s) (pool_write s');
  wf_mem : ∀ x, x < allocation (pool_write s) ∨
             allocation (pool_write s) + block_count (pool_write s) * block_size (pool_write s) ≤ x →
           sv_mem s' !! x = sv_mem s !! x;
}.

(** The channel and the bytes of a request, as libuv reads them. *)
Definition req_data (s : tcp_service_t) (r : nat) : option (nat * list Z) :=
  rq ← write_reqs s !! r;
  c ← wr_channel rq;
  bs ← mem_load (sv_mem s) (wr_base rq) (wr_len rq);
  Some (c, bs).

Section Facts.
Context (wr : Z) (flight : list nat).
Implicit Types s : tcp_service_t.

Lemma write_frame_refl s : write_frame s s.
Proof. split; unfold same_geometry; split_and?; done. Qed.

Lemma write_frame_trans s1 s2 s3 : write_frame s1 s2 → write_frame s2 s3 → write_frame s1 s3.
Proof.
  intros [? ? ? [] ? [] (Ha & Hb & Hc) Hm] [? ? ? [] ? [] (Ha' & Hb' & Hc') Hm'].
  split; unfold same_geometry; try (split_and?; congruence).
  intros x Hx. rewrite Hm' by (rewrite Ha, Hb, Hc; done). by apply Hm.
Qed.

Lemma req_data_stream s a r rq b c u k :
  pool_rep wr (pool_write s) (sv_mem s) a → req_ok s r → write_reqs s !! r = Some rq →
  wr_buffer rq = Some b → wr_channel rq = Some c → a_streams a !! b = Some (u, k) →
  req_data s r = Some (c, u).
Proof.
  intros Hr (rq' & b' & bf & c' & ch & Hrq' & Hb' & Hbf & Hbase & Hlen & Hc' & _) Hrq Hb Hc Hst.
  rewrite Hrq in Hrq'. injection Hrq' as <-. rewrite Hb in Hb'. injection Hb' as <-.
  destruct (rep_lookup wr _ _ a b bf Hr Hbf) as (u' & k' & Hs & Hu & _).
  rewrite Hst in Hs. injection Hs as <- <-.
  unfold req_data. rewrite Hrq. simpl. rewrite Hc. simpl. unfold unread in Hu. simpl in Hu.
  by rewrite Hbase, Hlen, Hu.
Qed.

Lemma nodup_all s a free ready :
  write_inv wr flight s a free ready →
  NoDup (free ++ ready ++ flight) ∧
  NoDup (a_free a ++ req_bufs (write_reqs s) (ready ++ flight)).
Proof. intros []. split; [rewrite wi_reqs0|rewrite wi_bufs0]; apply NoDup_seq. Qed.

(** Requests that are not [r] keep their buffers when [r] is assigned. *)
Lemma req_bufs_insert reqs r rq l :
  r ∉ l → req_bufs (<[r := rq]> reqs) l = req_bufs reqs l.
Proof.
  intros Hr. induction l as [|x l IH]; [done|]. specialize (IH ltac:(set_solver)).
  assert (req_buf (<[r := rq]> reqs) x = req_buf reqs x) as Hx
    by (unfold req_buf; rewrite list_lookup_insert_ne by set_solver; done).
  unfold req_bufs in *. cbn in *. rewrite Hx. destruct (req_buf reqs x); by rewrite IH.
Qed.

Lemma req_bufs_app reqs l1 l2 : req_bufs reqs (l1 ++ l2) = req_bufs reqs l1 ++ req_bufs reqs l2.
Proof. apply omap_app. Qed.

Lemma req_bufs_elem s r b :
  (∃ rq, write_reqs s !! r = Some rq ∧ wr_buffer rq = Some b) →
  ∀ l, r ∈ l → b ∈ req_bufs (write_reqs s) l.
Proof.
  intros (rq & Hrq & Hb) l Hl. unfold req_bufs. apply list_elem_of_omap. exists r. split; [done|].
  unfold req_buf. rewrite Hrq. done.
Qed.

(** The buffer of a ready or in-flight request is not in the pool. *)
Lemma req_buffer_out s a free ready r rq b :
  write_inv wr flight s a free ready → r ∈ ready ++ flight →
  write_reqs s !! r = Some rq → wr_buffer rq = Some b → b ∉ a_free a.
Proof.
  intros Hi Hr Hrq Hb Hin. destruct (nodup_all _ _ _ _ Hi) as [_ Hnd].
  apply NoDup_app in Hnd as (_ & Hd & _). apply (Hd b Hin).
  eapply req_bufs_elem; [|done]. by exists rq.
Qed.

Lemma req_out s a free ready r :
  write_inv wr flight s a free ready → r ∈ ready ++ flight → r ∉ free.
Proof.
  intros Hi Hr Hf. destruct (nodup_all _ _ _ _ Hi) as [Hnd _].
  apply NoDup_app in Hnd as (_ & Hd & _). by apply (Hd r Hf).
Qed.

Lemma free_in_range s a free ready r :
  write_inv wr flight s a free ready → r ∈ free → (r < length (write_reqs s))%nat.
Proof.
  intros [] Hr. assert (r ∈ seq 0 (length (write_reqs s))) as Hs by (rewrite <- wi_reqs0; set_solver).
  apply elem_of_seq in Hs. lia.
Qed.

(** Requests and buffers nobody waits for may change. *)
Lemma inv_touch s a free ready q p m a' reqs :
  write_inv wr flight s a free ready →
  queue_rep q free (length (write_reqs s)) → pool_rep wr p m a' → a_free a' = a_free a →
  length reqs = length (write_reqs s) → (∀ r, r ∉ free → reqs !! r = write_reqs s !! r) →
  length (tn_buffers p) = length (tn_buffers (pool_write s)) →
  (∀ j, j ∉ a_free a → tn_buffers p !! j = tn_buffers (pool_write s) !! j) →
  write_inv wr flight (set_write_side p m (set_write_reqs reqs (set_write_reqs_free q s))) a' free ready.
Proof.
  intros Hi Hq Hp Haf Hlen Hreqs Hbl Hbufs. pose proof Hi as [].
  assert (req_bufs reqs (ready ++ flight) =
          req_bufs (write_reqs s) (ready ++ flight)) as Hrb.
  { unfold req_bufs. apply list_omap_ext. apply Forall2_same_length_lookup_2; [done|].
    intros i x y Hx Hy. simplify_eq. unfold req_buf. rewrite Hreqs; [done|].
    eapply req_out; [done|]. by eapply list_elem_of_lookup_2. }
  split; simpl; rewrite ?Hlen, ?Haf, ?Hbl, ?Hrb; try done.
  intros r Hr. destruct (wi_ok0 r Hr) as (rq & b & bf & c & ch & Hrq & Hb & Hbf & Hrest).
  exists rq, b, bf, c, ch. simpl. rewrite Hreqs by (by eapply req_out).
  rewrite Hbufs by (by eapply req_buffer_out). done.
Qed.

Lemma req_bufs_single reqs r rq b :
  reqs !! r = Some rq → wr_buffer rq = Some b → req_bufs reqs [r] = [b].
Proof. intros Hr Hb. unfold req_bufs, req_buf. cbn. rewrite Hr. cbn. by rewrite Hb. Qed.

(** The first free request, filled with the first free buffer, becomes ready. *)
Lemma inv_commit s a r f b bl ready qf qr p rq :
  write_inv wr flight s a (r :: f) ready → a_free a = b :: bl →
  write_reqs s !! r = Some rq → wr_buffer rq = Some b → req_ok s r →
  queue_rep qf f (length (write_reqs s)) → queue_rep qr (ready ++ [r]) (length (write_reqs s)) →
  pool_rep wr p (sv_mem s) {| a_free := bl; a_streams := a_streams a |} →
  tn_buffers p = tn_buffers (pool_write s) →
  write_inv wr flight (set_write_reqs_free qf (set_write_side p (sv_mem s) (set_write_reqs_ready qr s)))
    {| a_free := bl; a_streams := a_streams a |} f (ready ++ [r]).
Proof.
  intros [] Hbl Hrq Hb Hok Hqf Hqr Hp Hbufs. split; simpl; try done.
  - rewrite <- wi_reqs0. solve_Permutation.
  - rewrite Hbufs, <- wi_bufs0, Hbl, !req_bufs_app, (req_bufs_single _ _ _ _ Hrq Hb). solve_Permutation.
  - intros r' Hr'. assert (req_ok s r') as Hok'.
    { destruct (decide (r' = r)) as [->|]; [done|]. apply wi_ok0. set_solver. }
    destruct Hok' as (rq' & b' & bf & c & ch & Hrest). exists rq', b', bf, c, ch. simpl.
    by rewrite Hbufs.
Qed.

(** Reading members of a buffer does not change the pool. *)
Lemma on_buffer_gets {A} (f : bstate → A) p m i bf :
  tn_buffers p !! i = Some bf → on_buffer i (gets f) (p, m) = Some (f (bf, m), (p, m)).
Proof.
  intros Hb. unfold on_buffer, gets. simpl. rewrite Hb, list_insert_id by done. by destruct p.
Qed.

Lemma on_write_pool_run {A} (f : M plstate A) s x p m :
  f (pool_write s, sv_mem s) = Some (x, (p, m)) → on_write_pool f s = Some (x, set_write_side p m s).
Proof. intros H. unfold on_write_pool, zoom. by rewrite H. Qed.

Lemma update_req_run i f s rq :
  write_reqs s !! i = Some rq →
  update_req i f s = Some (tt, set_write_reqs (<[i := f rq]> (write_reqs s)) s).
Proof. intros H. unfold update_req. mrun. by rewrite H. Qed.

(** ** [tcp_service_send] *)

(** The end of [tcp_service_send]: the filled request changes hands. *)
Definition send_commit (r : nat) : M tcp_service_t Z :=
  TN_GUARD (on_wready (tn_queue_spsc_push (Some r))) THEN
  on_write_pool tn_buffer_pool_pop_cached;;
  on_wfree tn_queue_spsc_pop_cached;;
  mret TN_SUCCESS.

(** [tcp_service_send] once it holds the request [r] and the buffer [b]. *)
Definition send_fill (r b c : nat) (src : source) (n : Z) : M tcp_service_t Z :=
  w ← on_write_pool (on_buffer b (tn_buffer_write src n));
  if negb (w =? 0) then mret TN_SEND_NOBUF
  else
    update_req r (set_wr_channel (Some c));;
    base ← on_write_pool (on_buffer b tn_buffer_read_ptr);
    len ← on_write_pool (on_buffer b tn_buffer_length);
    update_req r (set_wr_uv_buf base len);;
    send_commit r.

(** A request that is still free keeps the buffer at the front of the pool in its hands. *)
Record holding (s : tcp_service_t) (a : streams) (r : nat) (f : list nat) (b : nat) (ready : list nat) : Prop := {
  ho_inv : write_inv wr flight s a (r :: f) ready;
  ho_front : ∃ bl, a_free a = b :: bl;
  ho_req : ∃ rq, write_reqs s !! r = Some rq ∧ wr_buffer rq = Some b;
  ho_pop : ∃ q, tn_queue_spsc_pop_cached (write_reqs_free s) = Some (tt, q) ∧
             queue_rep q f (length (write_reqs s));
  ho_peeked : peeked (pool_write s);
}.

(** The bytes of the requests that keep their member values and streams do not change. *)
Lemma req_data_kept s s' a a' r rq b :
  pool_rep wr (pool_write s) (sv_mem s) a → pool_rep wr (pool_write s') (sv_mem s') a' →
  req_ok s r → req_ok s' r → write_reqs s !! r = Some rq → write_reqs s' !! r = Some rq →
  wr_buffer rq = Some b → a_streams a' !! b = a_streams a !! b → req_data s' r = req_data s r.
Proof.
  intros Hp Hp' Hok Hok' Hrq Hrq' Hb Hst.
  pose proof Hok as (rq' & b' & bf & c & ch & Hx & Hy & Hbf & _ & _ & Hc & _). simplify_eq.
  destruct (rep_lookup wr _ _ a b bf Hp Hbf) as (u & k & Hs & _).
  rewrite (req_data_stream s a r rq b c u k), (req_data_stream s' a' r rq b c u k); try done.
  by rewrite Hst.
Qed.

Lemma send_commit_run s a r f b ready :
  holding s a r f b ready → req_ok s r →
  ∃ s' a', send_commit r s = Some (TN_SUCCESS, s') ∧ write_inv wr flight s' a' f (ready ++ [r]) ∧
    write_frame s s' ∧ uv s' = uv s ∧ a_streams a' = a_streams a ∧ write_reqs s' = write_reqs s.
Proof.
  intros [Hi [bl Hbl] (rq & Hrq & Hb) (q2 & Hrun2 & Hq2) Hpk] Hok. pose proof Hi as [].
  unfold send_commit, on_wready, on_write_pool, on_wfree.
  destruct (q_push _ _ _ r wi_ready0) as (qr & Hpush & Hqr).
  { pose proof (Permutation_length wi_reqs0) as Hl.
    rewrite !length_app, length_seq in Hl. simpl in Hl |- *. lia. }
  zstep Hpush s.
  destruct (pool_pop_cached_run wr _ _ a b bl wi_pool0 Hpk Hbl) as (p3 & Hpop & Hg3 & Hb3 & Hp3).
  zstep Hpop (set_write_reqs_ready qr s).
  rewrite (bind_Some _ _ _ _ _ (zoom_Some write_reqs_free set_write_reqs_free _
    (set_write_side p3 (sv_mem s) (set_write_reqs_ready qr s)) _ _ Hrun2)).
  eexists _, _. split; [reflexivity|].
  split; [by apply (inv_commit s a r f b bl ready q2 qr p3 rq Hi)|]. by split_and!.
Qed.

(** Assignments to the held request and its buffer keep it held. *)
Lemma holding_fill s a r f b ready bf p m a' rq :
  holding s a r f b ready → pool_rep wr p m a' → a_free a' = a_free a → wr_buffer rq = Some b →
  p = set_tn_buffers (<[b := bf]> (tn_buffers (pool_write s))) (pool_write s) →
  holding (set_write_side p m (set_write_reqs (<[r := rq]> (write_reqs s)) s)) a' r f b ready.
Proof.
  intros [Hi [bl Hbl] (rq0 & Hrq & Hb) (q2 & Hrun2 & Hq2) Hpk] Hp Haf Hwb Hpe.
  pose proof (lookup_lt_Some _ _ _ Hrq). split; simpl.
  - replace s with (set_write_reqs_free (write_reqs_free s) s) at 2 by (by destruct s).
    apply (inv_touch s a (r :: f) ready); try done; [by apply Hi|by rewrite length_insert|..].
    + intros r' Hr'. rewrite list_lookup_insert_ne by set_solver. done.
    + subst p. simpl. by rewrite length_insert.
    + intros j Hj. subst p. simpl. rewrite list_lookup_insert_ne; [done|]. intros ->.
      apply Hj. rewrite Hbl. apply list_elem_of_here.
  - exists bl. by rewrite Haf.
  - exists rq. by rewrite list_lookup_insert_eq.
  - exists q2. by rewrite length_insert.
  - by subst p.
Qed.

(** An empty buffer that is filled reads from the start of what was written. *)
Lemma filled_length s a r f b ready bf bf' bs m k :
  holding s a r f b ready → a_streams a !! b = Some ([], k) → k = block_size (pool_write s) →
  tn_buffers (pool_write s) !! b = Some bf → written bf (sv_mem s) bs bf' m →
  buf_len (buf bf') = cur_len (pos bf').
Proof.
  intros Hh Hst -> Hbf Hw. pose proof (wi_pool _ _ _ _ _ _ (ho_inv _ _ _ _ _ _ Hh)) as Hp.
  destruct (rep_lookup wr _ _ _ b bf Hp Hbf) as (u0 & k0 & Hs0 & Hu0 & Hk0 & _ & [Hwf0 Ha0 Hc0 _]).
  rewrite Hst in Hs0. injection Hs0 as <- <-. pose proof (unread_length _ _ _ Hwf0 Hu0) as Hl0.
  destruct Hwf0, Hw as [[] ? ? ? ? ? ? ? ?]. unfold room in Hk0. simpl in Hl0. lia.
Qed.

(** The members read back from the buffer, and the request completed. *)
Lemma send_describe_run s a r f b ready c ch bf rq :
  holding s a r f b ready → tn_buffers (pool_write s) !! b = Some bf → write_reqs s !! r = Some rq →
  wr_buffer rq = Some b → buf_len (buf bf) = cur_len (pos bf) →
  client_map (channel_list s) !! c = Some ch → service ch = Some tt →
  ∃ s', (∀ (k : M tcp_service_t Z),
      (update_req r (set_wr_channel (Some c));;
       base ← on_write_pool (on_buffer b tn_buffer_read_ptr);
       len ← on_write_pool (on_buffer b tn_buffer_length);
       update_req r (set_wr_uv_buf base len);; k) s = k s') ∧
    holding s' a r f b ready ∧ req_ok s' r ∧ write_frame s s' ∧ uv s' = uv s ∧
    pool_write s' = pool_write s ∧ sv_mem s' = sv_mem s ∧
    (∀ r', r' ≠ r → write_reqs s' !! r' = write_reqs s !! r') ∧
    ∃ rq', write_reqs s' !! r = Some rq' ∧ wr_buffer rq' = Some b ∧ wr_channel rq' = Some c.
Proof.
  intros Hh Hbf Hrq Hb Hlen Hch Hsv.
  pose proof (on_buffer_gets (λ x, cur_ptr (pos x.1)) (pool_write s) (sv_mem s) b bf Hbf) as Hptr.
  pose proof (on_buffer_gets (λ x, buf_len (buf x.1)) (pool_write s) (sv_mem s) b bf Hbf) as Hln.
  change (gets (λ x : bstate, cur_ptr (pos x.1))) with tn_buffer_read_ptr in Hptr.
  change (gets (λ x : bstate, buf_len (buf x.1))) with tn_buffer_length in Hln.
  set (rq1 := set_wr_channel (Some c) rq).
  set (s1 := set_write_reqs (<[r := rq1]> (write_reqs s)) s).
  set (rq2 := set_wr_uv_buf (cur_ptr (pos bf)) (buf_len (buf bf)) rq1).
  set (s2 := set_write_side (pool_write s) (sv_mem s) (set_write_reqs (<[r := rq2]> (write_reqs s)) s)).
  pose proof (lookup_lt_Some _ _ _ Hrq).
  assert (write_reqs s1 !! r = Some rq1) as Hr1 by (by apply list_lookup_insert_eq).
  assert (write_reqs s2 !! r = Some rq2) as Hr2 by (by apply list_lookup_insert_eq).
  exists s2. split.
  { intros k. bstep (update_req_run r (set_wr_channel (Some c)) s rq Hrq). fold rq1 s1.
    unfold on_write_pool. zstep Hptr s1. zstep Hln (set_write_side (pool_write s) (sv_mem s) s1).
    bstep (update_req_run r (set_wr_uv_buf (cur_ptr (pos bf)) (buf_len (buf bf)))
      (set_write_side (pool_write s) (sv_mem s) (set_write_side (pool_write s) (sv_mem s) s1)) rq1 Hr1).
    fold rq2. unfold s1, s2. simpl. by rewrite list_insert_insert_eq. }
  split_and!; try done.
  - apply (holding_fill s a r f b ready bf); try done.
    + apply (ho_inv _ _ _ _ _ _ Hh).
    + rewrite list_insert_id by done. by destruct (pool_write s).
  - by exists rq2, b, bf, c, ch.
  - intros r' Hr'. simpl. by rewrite list_lookup_insert_ne.
  - by exists rq2.
Qed.

Lemma send_fill_run s a r f b ready c ch src n bs k :
  holding s a r f b ready → a_streams a !! b = Some ([], k) → k = block_size (pool_write s) →
  client_map (channel_list s) !! c = Some ch → service ch = Some tt → 0 < n < W64 →
  (n ≤ k → read_src (sv_mem s) src n = Some bs ∧ Z.of_nat (length bs) = n) → Forall is_byte bs →
  if decide (n ≤ k)
  then ∃ s' a', send_fill r b c src n s = Some (TN_SUCCESS, s') ∧ write_inv wr flight s' a' f (ready ++ [r]) ∧
    write_frame s s' ∧ uv s' = uv s ∧ a_streams a' = <[b := (bs, k - n)]> (a_streams a) ∧
    (∀ r', r' ≠ r → write_reqs s' !! r' = write_reqs s !! r') ∧
    ∃ rq, write_reqs s' !! r = Some rq ∧ wr_buffer rq = Some b ∧ wr_channel rq = Some c
  else send_fill r b c src n s = Some (TN_SEND_NOBUF, s).
Proof.
  intros Hh Hst Hk Hch Hsv Hn Hsrc Hby. pose proof Hh as [Hi _ (rq & Hrq & Hb) _ _]. pose proof Hi as [].
  pose proof (write_rep wr _ _ a b src bs n [] k wi_pool0 Hst ltac:(lia) Hsrc Hby) as Hwr.
  unfold send_fill. case_decide as Hfit.
  2:{ bstep (on_write_pool_run _ s _ _ _ Hwr). by destruct s. }
  destruct Hwr as (bf & bf' & m' & Hbf & Hw & Hwrun & Hp2 & Hout).
  bstep (on_write_pool_run _ s _ _ _ Hwrun).
  set (p2 := set_tn_buffers (<[b := bf']> (tn_buffers (pool_write s))) (pool_write s)) in *.
  set (a2 := {| a_free := a_free a; a_streams := <[b := ([] ++ bs, k - n)]> (a_streams a) |}) in *.
  set (s2 := set_write_side p2 m' s).
  assert (holding s2 a2 r f b ready) as Hh2.
  { apply (holding_fill s a r f b ready bf' p2 m' a2 rq) in Hh; try done.
    rewrite list_insert_id in Hh by done. by destruct s. }
  assert (tn_buffers (pool_write s2) !! b = Some bf') as Hbf2.
  { simpl. apply list_lookup_insert_eq. by eapply lookup_lt_Some. }
  destruct (send_describe_run s2 a2 r f b ready c ch bf' rq Hh2 Hbf2 Hrq Hb) as
    (s3 & Hrun & Hh3 & Hok & Hf3 & Huv3 & Hpw3 & Hm3 & Hreq & Hrq3); try done.
  { by eapply (filled_length s a). }
  rewrite Hrun.
  destruct (send_commit_run s3 a2 r f b ready Hh3 Hok) as (s4 & a4 & Hc4 & Hi4 & Hf4 & Huv4 & Hst4 & Hr4).
  exists s4, a4. split_and!; try done.
  - apply write_frame_trans with s2; [|by apply write_frame_trans with s3].
    split; done.
  - by rewrite Huv4, Huv3.
  - intros r' Hr'. rewrite Hr4. by rewrite Hreq.
  - rewrite Hr4. done.
Qed.

(** The two looks that come first: a request and an empty buffer are held. *)
Lemma send_hold s a r f b bl ready :
  write_inv wr flight s a (r :: f) ready → a_free a = b :: bl →
  ∃ s' a', (∀ (k : nat → nat → M tcp_service_t Z),
      (x ← on_wfree tn_queue_spsc_peek;
       if negb (x.1 =? 0) then mret TN_SEND_NOREQ
       else
         send_req ← lift x.2;
         y ← on_write_pool tn_buffer_pool_peek;
         update_req send_req (set_wr_buffer y.2);;
         if negb (y.1 =? 0) then mret TN_SEND_NOBUF
         else buffer ← lift y.2; k send_req buffer) s = k r b s') ∧
    holding s' a' r f b ready ∧ a_free a' = a_free a ∧
    a_streams a' = <[b := ([], block_size (pool_write s))]> (a_streams a) ∧
    write_frame s s' ∧ uv s' = uv s ∧ sv_mem s' = sv_mem s ∧
    (∀ r', r' ≠ r → write_reqs s' !! r' = write_reqs s !! r').
Proof.
  intros Hi Hbl. pose proof Hi as [].
  pose proof (q_peek _ _ _ wi_free0) as (q1 & Hrun & Hq1 & q2 & Hrun2 & Hq2).
  pose proof (pool_peek_run wr _ _ a wi_pool0) as Hpp. rewrite Hbl in Hpp.
  destruct Hpp as (p1 & Hpeek & Hg & Hpk & Hoth & Hp1).
  assert (r < length (write_reqs s))%nat as Hrl by (eapply free_in_range; [done|set_solver]).
  destruct (lookup_lt_is_Some_2 _ _ Hrl) as [rq Hrq].
  set (reqs1 := <[r := set_wr_buffer (Some b) rq]> (write_reqs s)).
  assert (length reqs1 = length (write_reqs s)) as Hl1 by (apply length_insert).
  eexists (set_write_side p1 (sv_mem s) (set_write_reqs reqs1 (set_write_reqs_free q1 s))),
    {| a_free := b :: bl; a_streams := <[b := ([], block_size (pool_write s))]> (a_streams a) |}. split.
  { intros k. unfold on_wfree, on_write_pool. zstep Hrun s. zstep Hpeek (set_write_reqs_free q1 s).
    bstep (update_req_run r (set_wr_buffer (Some b))
      (set_write_side p1 (sv_mem s) (set_write_reqs_free q1 s)) rq Hrq). reflexivity. }
  split; [|split_and!; try done; intros r' Hr'; simpl; unfold reqs1; by rewrite list_lookup_insert_ne].
  split; simpl.
  - apply (inv_touch s a (r :: f) ready); try done.
    + intros r' Hr'. unfold reqs1. rewrite list_lookup_insert_ne by set_solver. done.
    + pose proof (ps_array _ _ _ (pr_shape _ _ _ _ Hp1)).
      pose proof (ps_array _ _ _ (pr_shape _ _ _ _ wi_pool0)). destruct Hg as (_ & Hg & _). lia.
    + intros j Hj. rewrite Hbl in Hj. rewrite Hoth by set_solver. done.
  - by exists bl.
  - exists (set_wr_buffer (Some b) rq). split; [by apply list_lookup_insert_eq|done].
  - exists q2. by rewrite Hl1.
  - done.
Qed.

(** What one call of [tcp_service_send] does, for every state of the queues. *)
Definition sent (s : tcp_service_t) (a : streams) (free ready : list nat) (c : nat) (bs : list Z) (n : Z)
    (code : Z) (s' : tcp_service_t) (free' ready' : list nat) : Prop :=
  match free, a_free a with
  | r :: f, _ :: _ =>
      if decide (n ≤ block_size (pool_write s))
      then code = TN_SUCCESS ∧ free' = f ∧ ready' = ready ++ [r] ∧ req_data s' r = Some (c, bs)
      else code = TN_SEND_NOBUF ∧ free' = free ∧ ready' = ready
  | [], _ => code = TN_SEND_NOREQ ∧ free' = free ∧ ready' = ready
  | _, [] => code = TN_SEND_NOBUF ∧ free' = free ∧ ready' = ready
  end.

(** The requests that wait keep their bytes when only the request [r] and the buffer [b],
    both free, have changed. *)
Lemma others_kept s a f ready r b bl s' a' free' ready' :
  write_inv wr flight s a (r :: f) ready → a_free a = b :: bl →
  write_inv wr flight s' a' free' ready' →
  (∀ r', r' ≠ r → write_reqs s' !! r' = write_reqs s !! r') → (∀ r', r' ∈ ready → r' ∈ ready') →
  (∀ j, j ≠ b → a_streams a' !! j = a_streams a !! j) →
  ∀ r', r' ∈ ready ++ flight → req_data s' r' = req_data s r'.
Proof.
  intros Hi Hfree Hi' Hrq' Hsub Hast' r' Hr'. pose proof (wi_ok _ _ _ _ _ _ Hi r' Hr') as Hok.
  pose proof Hok as (rq & b' & bf & c' & ch' & Hrq & Hb' & _).
  apply (req_data_kept s s' a a' r' rq b'); try done.
  - apply Hi.
  - apply Hi'.
  - apply (wi_ok _ _ _ _ _ _ Hi'). set_solver.
  - rewrite Hrq'; [done|]. intros ->. by apply (req_out _ _ _ _ _ Hi Hr'), list_elem_of_here.
  - apply Hast'. intros ->. apply (req_buffer_out _ _ _ _ _ _ _ Hi Hr' Hrq Hb').
    rewrite Hfree. apply list_elem_of_here.
Qed.

(** [tcp_service_send] is its two looks, then [send_fill]. *)
Lemma send_unfold c src n s :
  0 < n →
  tcp_service_send c src n s =
    (x ← on_wfree tn_queue_spsc_peek;
     if negb (x.1 =? 0) then mret TN_SEND_NOREQ
     else
       send_req ← lift x.2;
       y ← on_write_pool tn_buffer_pool_peek;
       update_req send_req (set_wr_buffer y.2);;
       if negb (y.1 =? 0) then mret TN_SEND_NOBUF
       else buffer ← lift y.2; send_fill send_req buffer c src n) s.
Proof. intros Hn. unfold tcp_service_send. rewrite (proj2 (Z.eqb_neq n 0)) by lia. reflexivity. Qed.

(** Without a free buffer the request stays free, and its [buffer] is [NULL]. *)
Lemma send_nobuf s a r f ready c src n :
  write_inv wr flight s a (r :: f) ready → a_free a = [] → 0 < n →
  ∃ s', tcp_service_send c src n s = Some (TN_SEND_NOBUF, s') ∧ write_inv wr flight s' a (r :: f) ready ∧
    write_frame s s' ∧ uv s' = uv s ∧
    (∀ r', r' ∈ ready ++ flight → req_data s' r' = req_data s r').
Proof.
  intros Hi Hfree Hn. pose proof Hi as []. rewrite send_unfold by done.
  pose proof (q_peek _ _ _ wi_free0) as (q1 & Hrun & Hq1 & _).
  unfold on_wfree, on_write_pool. zstep Hrun s.
  pose proof (pool_peek_run wr _ _ a wi_pool0) as Hpp. rewrite Hfree in Hpp.
  destruct Hpp as (p1 & Hpeek & Hg & Hbuf & Hp1). zstep Hpeek (set_write_reqs_free q1 s).
  assert (r < length (write_reqs s))%nat as Hrl by (eapply free_in_range; [done|set_solver]).
  destruct (lookup_lt_is_Some_2 _ _ Hrl) as [rq Hrq].
  bstep (update_req_run r (set_wr_buffer NULL)
    (set_write_side p1 (sv_mem s) (set_write_reqs_free q1 s)) rq Hrq).
  set (reqs1 := <[r := set_wr_buffer NULL rq]> (write_reqs s)).
  exists (set_write_side p1 (sv_mem s) (set_write_reqs reqs1 (set_write_reqs_free q1 s))).
  split; [reflexivity|]. split_and!; try done.
  - apply (inv_touch s a (r :: f) ready); try done; unfold reqs1.
    + apply length_insert.
    + intros r' Hr'. rewrite list_lookup_insert_ne by set_solver. done.
    + by rewrite Hbuf.
    + intros j _. by rewrite Hbuf.
  - intros r' Hr'. unfold req_data. simpl. unfold reqs1. rewrite list_lookup_insert_ne; [done|].
    intros <-. by apply (req_out _ _ _ _ _ Hi Hr'), list_elem_of_here.
Qed.

(** With a free request and a free buffer, the length decides. *)
Lemma send_both s a r f b bl ready c ch src n bs :
  write_inv wr flight s a (r :: f) ready → a_free a = b :: bl →
  client_map (channel_list s) !! c = Some ch → service ch = Some tt → 0 < n < W64 →
  (n ≤ block_size (pool_write s) → read_src (sv_mem s) src n = Some bs ∧ Z.of_nat (length bs) = n) →
  Forall is_byte bs →
  ∃ code s' a' free' ready', tcp_service_send c src n s = Some (code, s') ∧
    write_inv wr flight s' a' free' ready' ∧ write_frame s s' ∧ uv s' = uv s ∧
    (∀ r, r ∈ ready ++ flight → req_data s' r = req_data s r) ∧
    if decide (n ≤ block_size (pool_write s))
    then code = TN_SUCCESS ∧ free' = f ∧ ready' = ready ++ [r] ∧ req_data s' r = Some (c, bs)
    else code = TN_SEND_NOBUF ∧ free' = r :: f ∧ ready' = ready.
Proof.
  intros Hi Hfree Hch Hsv Hn Hsrc Hby. pose proof (wi_pool _ _ _ _ _ _ Hi) as Hp. rewrite send_unfold by lia.
  destruct (send_hold s a r f b bl ready Hi Hfree) as (s1 & a1 & Hrun & Hh & Haf & Hast & Hf1 & Huv1 & Hm1 & Hr1).
  rewrite Hrun. pose proof (wf_geometry _ _ Hf1) as (_ & _ & Hbs1).
  assert (a_streams a1 !! b = Some ([], block_size (pool_write s))) as Hst.
  { rewrite Hast. apply list_lookup_insert_eq. rewrite <- (Forall2_length _ _ _ (pr_streams _ _ _ _ Hp)).
    pose proof (pr_range _ _ _ _ Hp) as Hrg. rewrite Hfree in Hrg. by apply Forall_cons in Hrg as [? _]. }
  pose proof (send_fill_run s1 a1 r f b ready c ch src n bs _ Hh Hst) as Hfill.
  rewrite Hbs1, (wf_channels _ _ Hf1), Hm1 in Hfill.
  specialize (Hfill eq_refl Hch Hsv Hn Hsrc Hby). case_decide as Hfit.
  - destruct Hfill as (s2 & a2 & Hrun2 & Hi2 & Hf2 & Huv2 & Hast2 & Hr2 & rq & Hrq & Hb & Hc).
    exists TN_SUCCESS, s2, a2, f, (ready ++ [r]). split_and!; try done.
    + by apply write_frame_trans with s1.
    + by rewrite Huv2.
    + apply (others_kept s a f ready r b bl s2 a2 f (ready ++ [r])); try done.
      * intros r' Hr'. rewrite Hr2, Hr1; done.
      * set_solver.
      * intros j Hj. rewrite Hast2, Hast, !list_lookup_insert_ne by done. done.
    + apply (req_data_stream s2 a2 r rq b c bs (block_size (pool_write s) - n)); try done.
      * apply Hi2.
      * apply (wi_ok _ _ _ _ _ _ Hi2). set_solver.
      * rewrite Hast2. apply list_lookup_insert_eq. by eapply lookup_lt_Some.
  - exists TN_SEND_NOBUF, s1, a1, (r :: f), ready. pose proof (ho_inv _ _ _ _ _ _ Hh). split_and!; try done.
    apply (others_kept s a f ready r b bl s1 a1 (r :: f) ready); try done.
    intros j Hj. rewrite Hast, list_lookup_insert_ne by done. done.
Qed.

Lemma send_run s a free ready c ch src n bs :
  write_inv wr flight s a free ready →
  client_map (channel_list s) !! c = Some ch → service ch = Some tt → 0 < n < W64 →
  (n ≤ block_size (pool_write s) → read_src (sv_mem s) src n = Some bs ∧ Z.of_nat (length bs) = n) →
  Forall is_byte bs →
  ∃ code s' a' free' ready', tcp_service_send c src n s = Some (code, s') ∧
    write_inv wr flight s' a' free' ready' ∧ write_frame s s' ∧ uv s' = uv s ∧
    (∀ r, r ∈ ready ++ flight → req_data s' r = req_data s r) ∧
    sent s a free ready c bs n code s' free' ready'.
Proof.
  intros Hi Hch Hsv Hn Hsrc Hby. unfold sent. destruct free as [|r f].
  { rewrite send_unfold by lia. pose proof (q_peek _ _ _ (wi_free _ _ _ _ _ _ Hi)) as (q' & Hrun & Hq).
    unfold on_wfree. zstep Hrun s. destruct Hi.
    exists TN_SEND_NOREQ. eexists _, a, [], ready. split; [reflexivity|]. by split_and!. }
  destruct (a_free a) as [|b bl] eqn:Hfree.
  - destruct (send_nobuf s a r f ready c src n Hi Hfree ltac:(lia)) as (s' & Hrun & Hrest).
    exists TN_SEND_NOBUF, s', a, (r :: f), ready. naive_solver.
  - by apply (send_both s a r f b bl ready c ch src n bs).
Qed.

End Facts.

(** ** The IO thread's side *)

Section Io.
Context (wr : Z).
Implicit Types s : tcp_service_t.

(** A request taken from the ready queue is in the hands of the IO thread. *)
Lemma inv_take s a free r ready flight q :
  write_inv wr flight s a free (r :: ready) → queue_rep q ready (length (write_reqs s)) →
  write_inv wr (flight ++ [r]) (set_write_reqs_ready q s) a free ready.
Proof.
  intros [] Hq. split; simpl; try done.
  - rewrite <- wi_reqs0. solve_Permutation.
  - rewrite <- wi_bufs0. rewrite !req_bufs_app. change (r :: ready) with ([r] ++ ready).
    rewrite req_bufs_app. solve_Permutation.
  - intros r' Hr'. apply wi_ok0. set_solver.
Qed.

(** The order in which libuv finishes requests does not matter. *)
Lemma inv_flight s a free ready flight flight' :
  flight ≡ₚ flight' → write_inv wr flight s a free ready → write_inv wr flight' s a free ready.
Proof.
  intros Hp []. split; try done.
  - by rewrite <- Hp.
  - rewrite <- wi_bufs0. unfold req_bufs. by rewrite Hp.
  - intros r Hr. apply wi_ok0. by rewrite Hp.
Qed.

(** The request [r], in the hands of the IO thread, goes back together with its buffer. *)
Definition gave_back s (r : nat) (rq' : tcp_service_write_req_t) p q : tcp_service_t :=
  set_write_reqs_free q (set_write_side p (sv_mem s) (set_write_reqs (<[r := rq']> (write_reqs s)) s)).

Lemma inv_give_back s a free ready flight r rq b rq' p q :
  write_inv wr (r :: flight) s a free ready → write_reqs s !! r = Some rq → wr_buffer rq = Some b →
  pool_rep wr p (sv_mem s) {| a_free := a_free a ++ [b]; a_streams := a_streams a |} →
  tn_buffers p = tn_buffers (pool_write s) → queue_rep q (free ++ [r]) (length (write_reqs s)) →
  let s' := gave_back s r rq' p q in
  write_inv wr flight s' {| a_free := a_free a ++ [b]; a_streams := a_streams a |} (free ++ [r]) ready ∧
  ∀ r', r' ∈ ready ++ flight → req_data s' r' = req_data s r'.
Proof.
  intros Hi Hrq Hb Hp Hbufs Hq. pose proof Hi as []. destruct (nodup_all _ _ _ _ _ _ Hi) as [Hnd _].
  assert (r ∉ ready ++ flight) as Hr.
  { apply NoDup_app in Hnd as (_ & _ & Hnd). rewrite <- Permutation_middle in Hnd. by apply NoDup_cons in Hnd as []. }
  assert (∀ r', r' ∈ ready ++ flight → <[r := rq']> (write_reqs s) !! r' = write_reqs s !! r') as Hoth.
  { intros r' Hr'. apply list_lookup_insert_ne. by intros <-. }
  split; [split; simpl; rewrite ?length_insert; try done|].
  - rewrite <- wi_reqs0. solve_Permutation.
  - rewrite Hbufs, <- wi_bufs0, req_bufs_insert by done. change (r :: flight) with ([r] ++ flight).
    rewrite !req_bufs_app, (req_bufs_single _ _ _ _ Hrq Hb). solve_Permutation.
  - intros r' Hr'. destruct (wi_ok0 r') as (rq1 & b1 & bf & c & ch & Hrq1 & Hrest); [set_solver|].
    exists rq1, b1, bf, c, ch. simpl. rewrite Hoth, Hbufs by done. done.
  - intros r' Hr'. unfold req_data. simpl. by rewrite Hoth.
Qed.

Lemma give_back_run s a free ready flight r rq b rq' :
  write_inv wr (r :: flight) s a free ready → write_reqs s !! r = Some rq → wr_buffer rq = Some b →
  ∃ p q a', (∀ {A} (k : Z → Z → M tcp_service_t A),
      (x ← on_write_pool (tn_buffer_pool_push b); y ← on_wfree (tn_queue_spsc_push (Some r)); k x y)
        (set_write_reqs (<[r := rq']> (write_reqs s)) s) = k TN_SUCCESS TN_SUCCESS (gave_back s r rq' p q)) ∧
    let s' := gave_back s r rq' p q in
    write_inv wr flight s' a' (free ++ [r]) ready ∧ write_frame s s' ∧ uv s' = uv s ∧
    ∀ r', r' ∈ ready ++ flight → req_data s' r' = req_data s r'.
Proof.
  intros Hi Hrq Hb. pose proof Hi as [].
  assert (b ∈ req_bufs (write_reqs s) (ready ++ r :: flight)) as Hin
    by (eapply req_bufs_elem; [by exists rq|set_solver]).
  destruct (pool_push_run wr _ _ a b wi_pool0) as (p & Hpush & Hg & Hbufs & Hp).
  { assert (b ∈ seq 0 (length (tn_buffers (pool_write s)))) as Hs by (rewrite <- wi_bufs0; set_solver).
    apply elem_of_seq in Hs. lia. }
  { eapply req_buffer_out; [done| |done|done]. set_solver. }
  destruct (q_push _ _ _ r wi_free0) as (q & Hqpush & Hq).
  { pose proof (Permutation_length wi_reqs0) as Hl.
    rewrite !length_app, length_seq in Hl. simpl in Hl |- *. lia. }
  destruct (inv_give_back s a free ready flight r rq b rq' p q) as [Hinv Hdata]; try done.
  exists p, q, {| a_free := a_free a ++ [b]; a_streams := a_streams a |}. split.
  - intros A k. unfold on_write_pool, on_wfree.
    zstep Hpush (set_write_reqs (<[r := rq']> (write_reqs s)) s).
    rewrite (bind_Some _ _ _ _ _ (zoom_Some write_reqs_free set_write_reqs_free _
      (set_write_side p (sv_mem s) (set_write_reqs (<[r := rq']> (write_reqs s)) s)) _ _ Hqpush)). done.
  - by split_and!.
Qed.

(** Changes elsewhere: the read side, the counters, channels that stay opened. *)
Lemma inv_elsewhere s s' a free ready flight :
  pool_write s' = pool_write s → same_inside (pool_write s) (sv_mem s) (sv_mem s') →
  write_reqs s' = write_reqs s → write_reqs_free s' = write_reqs_free s →
  write_reqs_ready s' = write_reqs_ready s →
  (∀ c ch, client_map (channel_list s) !! c = Some ch → service ch = Some tt →
    ∃ ch', client_map (channel_list s') !! c = Some ch' ∧ service ch' = Some tt) →
  write_inv wr flight s a free ready →
  write_inv wr flight s' a free ready ∧ ∀ r, r ∈ ready ++ flight → req_data s' r = req_data s r.
Proof.
  intros Hpw Hm Hrq Hf Hr Hch Hi. pose proof Hi as [].
  assert (write_inv wr flight s' a free ready) as Hi'.
  { split; rewrite ?Hpw, ?Hrq, ?Hf, ?Hr; try done; [by apply (rep_frame wr (pool_write s) (sv_mem s))|].
    intros r Hin. destruct (wi_ok0 r Hin) as (rq & b & bf & c & ch & Hrq' & Hb & Hbf & ? & ? & Hc & Hcm & Hs).
    destruct (Hch c ch Hcm Hs) as (ch' & ? & ?). exists rq, b, bf, c, ch'. by rewrite Hrq, Hpw. }
  split; [done|]. intros r Hin. destruct (wi_ok0 r Hin) as (rq & b & bf & c & ch & Hrq' & Hb & _).
  apply (req_data_kept wr s s' a a r rq b); try done.
  - apply Hi'.
  - by apply wi_ok0.
  - by apply Hi'.
  - by rewrite Hrq.
Qed.

Lemma inv_stats s a free ready flight x :
  write_inv wr flight s a free ready → write_inv wr flight (set_stats x s) a free ready.
Proof. intros Hi. eapply (inv_elsewhere s); try done. eauto. Qed.

Lemma get_req_run i s rq : write_reqs s !! i = Some rq → get_req i s = Some (rq, s).
Proof. intros H. unfold get_req. mrun. by rewrite H. Qed.

Lemma get_channel_run i s c : client_map (channel_list s) !! i = Some c → get_channel i s = Some (c, s).
Proof. intros H. unfold get_channel. mrun. by rewrite H. Qed.

(** libuv is done with the request [r]: whatever the status, the request and its
    buffer are free again. *)
Lemma on_send_cb_run s a free ready flight r status :
  write_inv wr (r :: flight) s a free ready →
  ∃ s' a', on_send_cb r status s = Some (tt, s') ∧ write_inv wr flight s' a' (free ++ [r]) ready ∧
    write_frame s s' ∧ uv s' = uv s ∧ ∀ r', r' ∈ ready ++ flight → req_data s' r' = req_data s r'.
Proof.
  intros Hi. destruct (wi_ok _ _ _ _ _ _ Hi r) as (rq & b & bf & c & ch & Hrq & Hb & _ & _ & _ & Hc & Hch & Hs);
    [set_solver|].
  unfold on_send_cb. bstep (get_req_run r s rq Hrq).
  assert (∃ st, (if negb (status =? 0) then mret tt
    else modify_stats (λ t, {| send_msgs := u64 (send_msgs t + 1); send_bytes := u64 (send_bytes t + wr_len rq);
                              recv_msgs := recv_msgs t; recv_bytes := recv_bytes t |})) s
    = Some (tt, set_stats st s)) as [st Hst].
  { destruct (status =? 0); simpl; [by eexists|]. exists (stats s). by destruct s. }
  bstep Hst. rewrite Hc, M_lift. bstep (get_channel_run c (set_stats st s) ch Hch). rewrite Hs, M_lift.
  bstep (update_req_run r (set_wr_buffer NULL) (set_stats st s) rq Hrq). rewrite Hb, M_lift.
  destruct (give_back_run (set_stats st s) a free ready flight r rq b (set_wr_buffer NULL rq))
    as (p & q & a' & Hrun & Hinv & Hfr & Huv & Hd); try done; [by apply inv_stats|].
  rewrite Hrun. eexists _, a'. split; [reflexivity|]. split; [done|].
  split; [|done]. destruct Hfr. by split.
Qed.

(** Whether the loop of [on_prep_cb] gives the request to libuv for good. *)
Definition accepted (s : tcp_service_t) (uv_write : nat → Z) (r : nat) : bool :=
  match req_data s r with
  | Some (c, _) => match client_map (channel_list s) !! c with
                   | Some ch => (ch_state ch =? TCP_CHANNEL_OPEN) && (uv_write r =? 0)
                   | None => false
                   end
  | None => false
  end.

Lemma accepted_ok s a free ready flight uv_write r rq c ch :
  write_inv wr flight s a free ready → r ∈ ready ++ flight →
  write_reqs s !! r = Some rq → wr_channel rq = Some c → client_map (channel_list s) !! c = Some ch →
  accepted s uv_write r = (ch_state ch =? TCP_CHANNEL_OPEN) && (uv_write r =? 0).
Proof.
  intros Hi Hr Hrq Hc Hch. pose proof (wi_ok _ _ _ _ _ _ Hi r Hr) as Hok.
  pose proof Hok as (rq' & b & bf & c' & ch' & Hrq' & Hb & Hbf & _). simplify_eq.
  destruct (rep_lookup wr _ _ a b bf (wi_pool _ _ _ _ _ _ Hi) Hbf) as (u & k & Hs & _).
  unfold accepted. rewrite (req_data_stream wr s a r rq b c u k); try done; [by rewrite Hch|].
  apply Hi.
Qed.

(** One round of the loop. *)
Lemma prep_round s a free r ready flight uv_write fuel :
  write_inv wr flight s a free (r :: ready) →
  ∃ s' a', prep_loop uv_write (S fuel) s = prep_loop uv_write fuel s' ∧ write_frame s s' ∧
    (∀ r', r' ∈ ready ++ flight → req_data s' r' = req_data s r') ∧
    if accepted s uv_write r
    then write_inv wr (flight ++ [r]) s' a' free ready ∧ uv_writes (uv s') = uv_writes (uv s) ++ [r] ∧
         req_data s' r = req_data s r
    else write_inv wr flight s' a' (free ++ [r]) ready ∧ uv_writes (uv s') = uv_writes (uv s).
Proof.
  intros Hi. destruct (wi_ok _ _ _ _ _ _ Hi r) as (rq & b & bf & c & ch & Hrq & Hb & _ & _ & _ & Hc & Hch & Hs);
    [set_solver|].
  rewrite (accepted_ok s a free (r :: ready) flight uv_write r rq c ch Hi); try done; [|set_solver].
  destruct (q_pop_back _ _ _ (wi_ready _ _ _ _ _ _ Hi)) as (q & Hpop & Hq).
  pose proof (inv_take s a free r ready flight q Hi Hq) as Hi1.
  assert (flight ++ [r] ≡ₚ r :: flight) as Hperm by solve_Permutation.
  pose proof (inv_flight _ _ _ _ _ _ Hperm Hi1) as Hi2.
  set (s1 := set_write_reqs_ready q s) in *.
  pose proof (λ rq', give_back_run s1 a free ready flight r rq b rq' Hi2 Hrq Hb) as Hgive.
  simpl. unfold on_wready. zstep Hpop s. fold s1.
  bstep (get_req_run r s1 rq Hrq). rewrite Hc, M_lift. bstep (get_channel_run c s1 ch Hch).
  destruct (ch_state ch =? TCP_CHANNEL_OPEN); simpl; [|].
  - destruct (uv_write r =? 0); simpl.
    + eexists _, a. split; [reflexivity|]. split_and!; try done.
      by eapply (inv_elsewhere s1); eauto.
    + rewrite Hb, M_lift. bstep (update_req_run r (set_wr_buffer NULL) s1 rq Hrq).
      destruct (Hgive (set_wr_buffer NULL rq)) as (p & q' & a' & Hrun & Hinv & Hfr & Huv & Hd).
      rewrite Hrun. eexists _, a'. split; [reflexivity|]. destruct Hfr. by split_and!.
  - rewrite Hb, M_lift. destruct (Hgive rq) as (p & q' & a' & Hrun & Hinv & Hfr & Huv & Hd).
    rewrite list_insert_id in Hrun by done.
    replace (set_write_reqs (write_reqs s1) s1) with s1 in Hrun by done.
    rewrite Hrun. eexists _, a'. split; [reflexivity|]. destruct Hfr. by split_and!.
Qed.

Lemma accepted_kept s s' uv_write r :
  req_data s' r = req_data s r → channel_list s' = channel_list s →
  accepted s' uv_write r = accepted s uv_write r.
Proof. intros Hd Hc. unfold accepted. by rewrite Hd, Hc. Qed.

Lemma filter_kept (f g : nat → bool) (l : list nat) :
  (∀ r, r ∈ l → f r = g r) → List.filter f l = List.filter g l.
Proof. intros H. apply filter_ext_in. intros r Hr. apply H. by apply list_elem_of_In. Qed.

(** The whole loop: the accepted requests are in flight, in queue order, the others free. *)
Lemma prep_loop_run uv_write ready : ∀ s a free flight fuel,
  write_inv wr flight s a free ready → (length ready ≤ fuel)%nat →
  let sub := List.filter (accepted s uv_write) ready in
  let rest := List.filter (λ r, negb (accepted s uv_write r)) ready in
  ∃ s' a', prep_loop uv_write fuel s = Some (tt, s') ∧
    write_inv wr (flight ++ sub) s' a' (free ++ rest) [] ∧ write_frame s s' ∧
    uv_writes (uv s') = uv_writes (uv s) ++ sub ∧
    ∀ r, r ∈ flight ++ sub → req_data s' r = req_data s r.
Proof.
  induction ready as [|r ready IH]; intros s a free flight fuel Hi Hfuel; simpl.
  - destruct (q_pop_back _ _ _ (wi_ready _ _ _ _ _ _ Hi)) as (q & Hpop & Hq). simpl in Hpop.
    assert (prep_loop uv_write fuel s = Some (tt, set_write_reqs_ready q s)) as Hrun.
    { destruct fuel; simpl; unfold on_wready; zstep Hpop s; done. }
    eexists _, a. split; [done|]. rewrite !app_nil_r. destruct Hi. by split_and!.
  - destruct fuel as [|fuel]; [simpl in Hfuel; lia|]. simpl in Hfuel.
    destruct (prep_round s a free r ready flight uv_write fuel Hi) as (s1 & a1 & Hrun & Hfr & Hd & Hcase).
    rewrite Hrun.
    assert (∀ r', r' ∈ ready → accepted s1 uv_write r' = accepted s uv_write r') as Hacc.
    { intros r' Hr'. apply accepted_kept; [apply Hd; set_solver|apply Hfr]. }
    rewrite <- (filter_kept (accepted s1 uv_write) (accepted s uv_write)) by done.
    rewrite <- (filter_kept (λ r, negb (accepted s1 uv_write r)) (λ r, negb (accepted s uv_write r)))
      by (intros; by rewrite Hacc).
    assert (∀ r', r' ∈ List.filter (accepted s1 uv_write) ready → r' ∈ ready) as Hsub.
    { intros r'. rewrite !list_elem_of_In, filter_In. tauto. }
    destruct (accepted s uv_write r); simpl.
    + destruct Hcase as (Hi1 & Hw & Hdr).
      destruct (IH s1 a1 free (flight ++ [r]) fuel Hi1 ltac:(lia)) as (s2 & a2 & Hrun2 & Hi2 & Hfr2 & Hw2 & Hd2).
      exists s2, a2. rewrite <- app_assoc in Hi2, Hd2. simpl in Hi2, Hd2. split_and!; try done.
      * by apply write_frame_trans with s1.
      * by rewrite Hw2, Hw, <- app_assoc.
      * intros r' Hr'. rewrite Hd2 by done. destruct (decide (r' = r)) as [->|]; [done|]. apply Hd. set_solver.
    + destruct Hcase as (Hi1 & Hw).
      destruct (IH s1 a1 (free ++ [r]) flight fuel Hi1 ltac:(lia)) as (s2 & a2 & Hrun2 & Hi2 & Hfr2 & Hw2 & Hd2).
      exists s2, a2. rewrite <- app_assoc in Hi2. simpl in Hi2. split_and!; try done.
      * by apply write_frame_trans with s1.
      * by rewrite Hw2, Hw.
      * intros r' Hr'. rewrite Hd2 by done. apply Hd. set_solver.
Qed.

Lemma on_prep_cb_run uv_write s a free ready flight :
  write_inv wr flight s a free ready →
  let sub := List.filter (accepted s uv_write) ready in
  let rest := List.filter (λ r, negb (accepted s uv_write r)) ready in
  ∃ s' a', on_prep_cb uv_write s = Some (tt, s') ∧
    write_inv wr (flight ++ sub) s' a' (free ++ rest) [] ∧ write_frame s s' ∧
    uv_writes (uv s') = uv_writes (uv s) ++ sub ∧
    ∀ r, r ∈ flight ++ sub → req_data s' r = req_data s r.
Proof.
  intros Hi sub rest. unfold on_prep_cb, on_wready.
  pose proof (q_count _ _ _ (wi_ready _ _ _ _ _ _ Hi)) as Hc. zstep Hc s.
  replace (set_write_reqs_ready (write_reqs_ready s) s) with s by (by destruct s).
  rewrite Nat2Z.id. by apply (prep_loop_run uv_write ready s a free flight).
Qed.

End Io.

(** ** Runs of the send path *)

(** What happens on the send path: a call of the main thread, the loop's turn with
    libuv's answers, a finished write. *)
Inductive wact :=
  | ASend (c : nat) (src : source) (n : Z)
  | APrep (uv_write : nat → Z)
  | ASent (r : nat) (status : Z).

Definition exec_wact (x : wact) : M tcp_service_t Z :=
  match x with
  | ASend c src n => tcp_service_send c src n
  | APrep uv_write => on_prep_cb uv_write;; mret 0
  | ASent r status => modify_uv (uv_write_done r);; on_send_cb r status;; mret 0
  end.

(** The caller passes a channel it was given and readable bytes; libuv finishes only
    writes it accepted. *)
Definition enabled (s : tcp_service_t) (x : wact) : Prop :=
  match x with
  | ASend c src n =>
      0 < n < W64 ∧ (∃ ch, client_map (channel_list s) !! c = Some ch ∧ service ch = Some tt) ∧
      ∃ bs, read_src (sv_mem s) src n = Some bs ∧ Z.of_nat (length bs) = n ∧ Forall is_byte bs
  | APrep _ => True
  | ASent r _ => r ∈ uv_writes (uv s)
  end.

(** A step of the other callbacks, as far as the send path can see it. *)
Record elsewhere (s s' : tcp_service_t) : Prop := {
  el_pool : pool_write s' = pool_write s;
  el_mem : same_inside (pool_write s) (sv_mem s) (sv_mem s');
  el_reqs : write_reqs s' = write_reqs s;
  el_free : write_reqs_free s' = write_reqs_free s;
  el_ready : write_reqs_ready s' = write_reqs_ready s;
  el_writes : uv_writes (uv s') = uv_writes (uv s);
  el_opened : ∀ c ch, client_map (channel_list s) !! c = Some ch → service ch = Some tt →
    ∃ ch', client_map (channel_list s') !! c = Some ch' ∧ service ch' = Some tt;
}.

(** A message: its channel and its bytes. *)
Abbreviation message := (nat * list Z)%type.

(** The history: the messages [tcp_service_send] took, what became of those that left
    the queue (given to libuv or dropped), and the messages libuv still works on. *)
Record history := {
  taken : list message;
  resolved : list (message * bool);
  flying : list (nat * message);
}.

Definition messages (s : tcp_service_t) (l : list nat) : list message := omap (req_data s) l.

Definition queued (s : tcp_service_t) : list nat := omap id (contents (write_reqs_ready s)).

Definition record_wact (s : tcp_service_t) (x : wact) (code : Z) (h : history) : history :=
  match x with
  | ASend c src n =>
      if code =? 0
      then {| taken := taken h ++ [(c, default [] (read_src (sv_mem s) src n))];
              resolved := resolved h; flying := flying h |}
      else h
  | APrep uv_write =>
      {| taken := taken h;
         resolved := resolved h ++
           omap (λ r, m ← req_data s r; Some (m, accepted s uv_write r)) (queued s);
         flying := flying h ++
           omap (λ r, m ← req_data s r; if accepted s uv_write r then Some (r, m) else None) (queued s) |}
  | ASent r _ =>
      {| taken := taken h; resolved := resolved h; flying := filter (λ x, x.1 ≠ r) (flying h) |}
  end.

Inductive wreach (s0 : tcp_service_t) : tcp_service_t → history → Prop :=
  | wreach_start : wreach s0 s0 {| taken := []; resolved := []; flying := [] |}
  | wreach_act s h x code s' :
      wreach s0 s h → enabled s x → exec_wact x s = Some (code, s') →
      wreach s0 s' (record_wact s x code h)
  | wreach_elsewhere s h s' : wreach s0 s h → elsewhere s s' → wreach s0 s' h.

Record wgood (wr : Z) (s : tcp_service_t) (h : history) : Prop := {
  wg_inv : ∃ a free ready, write_inv wr (uv_writes (uv s)) s a free ready;
  wg_taken : taken h = (resolved h).*1 ++ messages s (queued s);
  wg_flying : (flying h).*1 = uv_writes (uv s);
  wg_bytes : Forall (λ x, req_data s x.1 = Some x.2) (flying h);
}.

Section Runs.
Context (wr : Z).
Implicit Types s : tcp_service_t.

Lemma omap_some (l : list nat) : omap id (Some <$> l) = l.
Proof. induction l as [|x l IH]; [done|]. simpl. by f_equal. Qed.

Lemma queued_rep s ready n : queue_rep (write_reqs_ready s) ready n → queued s = ready.
Proof.
  intros [_ _ Hc]. unfold queued. rewrite Hc. apply omap_some. Qed.

Lemma messages_kept s s' l : (∀ r, r ∈ l → req_data s' r = req_data s r) → messages s' l = messages s l.
Proof.
  intros H. unfold messages. induction l as [|r l IH]; [done|]. cbn. rewrite H by set_solver.
  rewrite IH by set_solver. done.
Qed.

Lemma messages_app s l1 l2 : messages s (l1 ++ l2) = messages s l1 ++ messages s l2.
Proof. apply omap_app. Qed.

Lemma bytes_kept s s' l :
  (∀ r, r ∈ l.*1 → req_data s' r = req_data s r) →
  Forall (λ x : nat * message, req_data s x.1 = Some x.2) l → Forall (λ x, req_data s' x.1 = Some x.2) l.
Proof.
  intros H. rewrite !Forall_forall. intros Hl [r m] Hin. specialize (Hl _ Hin). simpl in *.
  rewrite H; [done|]. apply list_elem_of_fmap. by exists (r, m).
Qed.

(** A waiting request has a message. *)
Lemma req_data_some flight s a free ready r :
  write_inv wr flight s a free ready → r ∈ ready ++ flight → ∃ m, req_data s r = Some m.
Proof.
  intros Hi Hr. pose proof (wi_ok _ _ _ _ _ _ Hi r Hr) as Hok.
  pose proof Hok as (rq & b & bf & c & ch & Hrq & Hb & Hbf & _ & _ & Hc & _).
  destruct (rep_lookup wr _ _ a b bf (wi_pool _ _ _ _ _ _ Hi) Hbf) as (u & k & Hs & _).
  exists (c, u). apply (req_data_stream wr s a r rq b c u k); try done. apply Hi.
Qed.

Lemma send_good s h c src n :
  wgood wr s h → enabled s (ASend c src n) →
  ∃ code s', exec_wact (ASend c src n) s = Some (code, s') ∧ wgood wr s' (record_wact s (ASend c src n) code h).
Proof.
  intros [(a & free & ready & Hi) Ht Hf Hb] (Hn & (ch & Hch & Hsv) & bs & Hrd & Hlen & Hby).
  destruct (send_run wr _ s a free ready c ch src n bs Hi Hch Hsv Hn ltac:(done) Hby)
    as (code & s' & a' & free' & ready' & Hrun & Hi' & Hfr & Huv & Hd & Hsent).
  exists code, s'. split; [done|]. simpl.
  pose proof (queued_rep s ready _ (wi_ready _ _ _ _ _ _ Hi)) as Hq.
  pose proof (queued_rep s' ready' _ (wi_ready _ _ _ _ _ _ Hi')) as Hq'.
  assert (Forall (λ x, req_data s' x.1 = Some x.2) (flying h)) as Hb'.
  { apply (bytes_kept s); [|done]. intros r Hr. apply Hd. rewrite Hf in Hr. set_solver. }
  assert (messages s' ready = messages s ready) as Hm.
  { apply messages_kept. intros r Hr. apply Hd. set_solver. }
  assert (code ≠ 0 ∧ ready' = ready ∨ code = 0 ∧ ∃ r, ready' = ready ++ [r] ∧ req_data s' r = Some (c, bs)) as Hcase.
  { unfold sent in Hsent. destruct free as [|r f]; [by left; naive_solver|].
    destruct (a_free a); [by left; naive_solver|]. case_decide; [|by left; naive_solver].
    right. destruct Hsent as (-> & _ & -> & Hx). split; [done|]. by exists r. }
  destruct Hcase as [[Hc ->]|[-> (r & -> & Hr)]].
  - rewrite (proj2 (Z.eqb_neq code 0) Hc). split; rewrite ?Huv; try done; [by eauto|]. by rewrite Hq', Hm, <- Hq.
  - simpl. split; simpl; rewrite ?Huv; try done; [by eauto|].
    rewrite Hrd, Hq', messages_app, Hm, Ht, Hq. cbn. rewrite Hr. by rewrite <- app_assoc.
Qed.

(** The prepare callback's record, request by request. *)
Lemma resolved_fst s uv_write l :
  (∀ r, r ∈ l → ∃ m, req_data s r = Some m) →
  (omap (λ r, m ← req_data s r; Some (m, accepted s uv_write r)) l).*1 = messages s l.
Proof.
  unfold messages. induction l as [|r l IH]; intros H; [done|]. cbn.
  destruct (H r) as [m Hm]; [set_solver|]. rewrite Hm. cbn. rewrite IH by set_solver. done.
Qed.

Lemma flying_fst s uv_write l :
  (∀ r, r ∈ l → ∃ m, req_data s r = Some m) →
  (omap (λ r, m ← req_data s r; if accepted s uv_write r then Some (r, m) else None) l).*1
    = List.filter (accepted s uv_write) l.
Proof.
  induction l as [|r l IH]; intros H; [done|]. cbn. destruct (H r) as [m Hm]; [set_solver|].
  rewrite Hm. cbn. destruct (accepted s uv_write r); cbn; rewrite IH by set_solver; done.
Qed.

Lemma flying_bytes s uv_write l :
  Forall (λ x, req_data s x.1 = Some x.2)
    (omap (λ r, m ← req_data s r; if accepted s uv_write r then Some (r, m) else None) l).
Proof.
  apply Forall_forall. intros [r m] Hin. apply list_elem_of_omap in Hin as (r' & _ & Hr').
  destruct (req_data s r') as [m'|] eqn:Hm; cbn in Hr'; [|done].
  destruct (accepted s uv_write r'); simplify_eq. done.
Qed.

Lemma prep_good s h uv_write :
  wgood wr s h →
  ∃ code s', exec_wact (APrep uv_write) s = Some (code, s') ∧ wgood wr s' (record_wact s (APrep uv_write) code h).
Proof.
  intros [(a & free & ready & Hi) Ht Hf Hb].
  destruct (on_prep_cb_run wr uv_write s a free ready _ Hi) as (s' & a' & Hrun & Hi' & Hfr & Hw & Hd).
  exists 0, s'. split; [simpl; by bstep Hrun|].
  pose proof (queued_rep s ready _ (wi_ready _ _ _ _ _ _ Hi)) as Hq.
  pose proof (queued_rep s' [] _ (wi_ready _ _ _ _ _ _ Hi')) as Hq'.
  assert (∀ r, r ∈ ready → ∃ m, req_data s r = Some m) as Hsome
    by (intros r Hr; eapply req_data_some; [done|set_solver]).
  split; simpl; rewrite ?Hw, ?fmap_app, ?Hq, ?Hq'; [by eauto|..].
  - rewrite resolved_fst, Ht, Hq by done. by rewrite app_nil_r.
  - by rewrite Hf, flying_fst.
  - apply (bytes_kept s); [|apply Forall_app; split; [done|apply flying_bytes]].
    intros r Hr. apply Hd. by rewrite fmap_app, flying_fst, Hf in Hr.
Qed.

Lemma fst_filter {B} (r : nat) (l : list (nat * B)) :
  (filter (λ x, x.1 ≠ r) l).*1 = filter (.≠ r) (l.*1).
Proof.
  induction l as [|[x m] l IH]; [done|]. rewrite fmap_cons. destruct (decide (x = r)) as [->|Hx].
  - by rewrite !filter_cons_False by (simpl; tauto).
  - rewrite !filter_cons_True by done. rewrite fmap_cons. by f_equal.
Qed.

(** A finished write is in the hands of the IO thread. *)
Lemma sent_done s a free ready r :
  write_inv wr (uv_writes (uv s)) s a free ready → r ∈ uv_writes (uv s) →
  let s1 := set_uv (uv_write_done r (uv s)) s in write_inv wr (r :: uv_writes (uv s1)) s1 a free ready.
Proof.
  intros Hi Hin s1. assert (uv_writes (uv s) ≡ₚ r :: uv_writes (uv s1)) as Hp.
  { apply nodup_remove; [|done]. destruct (nodup_all _ _ _ _ _ _ Hi) as [Hnd _].
    apply NoDup_app in Hnd as (_ & _ & Hnd). by apply NoDup_app in Hnd as (_ & _ & Hnd). }
  apply (inv_elsewhere wr s s1); try done; [by eauto|]. by eapply inv_flight.
Qed.

Lemma sent_good s h r status :
  wgood wr s h → enabled s (ASent r status) →
  ∃ code s', exec_wact (ASent r status) s = Some (code, s') ∧
    wgood wr s' (record_wact s (ASent r status) code h).
Proof.
  intros [(a & free & ready & Hi) Ht Hf Hb] Hin. simpl in Hin.
  set (s1 := set_uv (uv_write_done r (uv s)) s).
  pose proof (sent_done s a free ready r Hi Hin : write_inv wr (r :: uv_writes (uv s1)) s1 a free ready) as Hi1.
  destruct (on_send_cb_run wr s1 a free ready _ r status Hi1) as (s' & a' & Hrun & Hi' & Hfr & Huv & Hd).
  exists 0, s'. split.
  { unfold exec_wact, modify_uv. rewrite M_modify. fold s1. by bstep Hrun. }
  pose proof (queued_rep s ready _ (wi_ready _ _ _ _ _ _ Hi)) as Hq.
  pose proof (queued_rep s' ready _ (wi_ready _ _ _ _ _ _ Hi')) as Hq'.
  assert (∀ r', r' ∈ ready ++ uv_writes (uv s1) → req_data s' r' = req_data s r') as Hd' by done.
  split; simpl; rewrite ?Huv; [by eauto|..].
  - rewrite Ht, Hq, Hq'. by rewrite (messages_kept s s') by (intros; apply Hd'; set_solver).
  - by rewrite fst_filter, Hf.
  - apply (bytes_kept s).
    + intros r' Hr'. rewrite fst_filter, Hf in Hr'. apply Hd'. apply elem_of_app. by right.
    + apply Forall_forall. intros x [_ Hx]%list_elem_of_filter. by eapply Forall_forall in Hb.
Qed.

Lemma elsewhere_good s s' h : wgood wr s h → elsewhere s s' → wgood wr s' h.
Proof.
  intros [(a & free & ready & Hi) Ht Hf Hb] [].
  destruct (inv_elsewhere wr s s' a free ready (uv_writes (uv s))) as [Hi' Hd]; try done.
  split; rewrite ?el_writes0; [by eauto|..|done|].
  - unfold queued. rewrite el_ready0. fold (queued s). rewrite Ht. f_equal. symmetry.
    apply messages_kept. intros r Hr. apply Hd.
    rewrite (queued_rep s ready _ (wi_ready _ _ _ _ _ _ Hi)) in Hr. set_solver.
  - apply (bytes_kept s); [|done]. intros r Hr. apply Hd. rewrite Hf in Hr. set_solver.
Qed.

Lemma wact_good s h x :
  wgood wr s h → enabled s x → ∃ code s', exec_wact x s = Some (code, s') ∧ wgood wr s' (record_wact s x code h).
Proof. destruct x; intros; [by apply send_good|by apply prep_good|by apply sent_good]. Qed.

Lemma wreach_good s0 s h :
  wgood wr s0 {| taken := []; resolved := []; flying := [] |} → wreach s0 s h → wgood wr s h.
Proof.
  intros H0. induction 1 as [|s h x code s' _ IH Hen Hrun|s h s' _ IH Hel]; [done|..].
  - destruct (wact_good s h x IH Hen) as (code' & s'' & Hrun' & Hg). by simplify_eq.
  - by apply (elsewhere_good s).
Qed.

End Runs.

(** ** Theorems *)

(** C3. The send path neither loses, repeats, reorders nor corrupts a message, whatever
    libuv answers and whatever the other callbacks do meanwhile.  From a service with no
    request out, after any interleaving of sends, loop turns and finished writes: every
    next call is defined; the messages [tcp_service_send] took are, in order, those
    already resolved (given to libuv or dropped because the channel is closed or libuv
    refused) followed by those in the ready queue; the memory every in-flight request
    points to still holds the bytes of its message; and every request and every buffer
    is in exactly one place, so when nothing is queued or in flight all of them are free. *)
Theorem send_path_exact wr s0 a0 free0 s h :
  write_inv wr [] s0 a0 free0 [] → uv_writes (uv s0) = [] → wreach s0 s h →
  (∀ x, enabled s x → is_Some (exec_wact x s)) ∧
  taken h = (resolved h).*1 ++ messages s (queued s) ∧
  (flying h).*1 = uv_writes (uv s) ∧ Forall (λ x, req_data s x.1 = Some x.2) (flying h) ∧
  omap id (contents (write_reqs_free s)) ++ queued s ++ uv_writes (uv s) ≡ₚ seq 0 (length (write_reqs s)) ∧
  omap id (free_list (pool_write s)) ++ req_bufs (write_reqs s) (queued s ++ uv_writes (uv s))
    ≡ₚ seq 0 (length (tn_buffers (pool_write s))).
Proof.
  intros Hi Huv Hr. assert (wgood wr s h) as Hg.
  { apply (wreach_good wr s0); [|done]. split; simpl; rewrite ?Huv; [by eauto| |done|done].
    by rewrite (queued_rep s0 [] _ (wi_ready _ _ _ _ _ _ Hi)). }
  split; [|destruct Hg as [(a & free & ready & Hinv) ? ? ?]; split_and!; try done].
  - intros x Hx. destruct (wact_good wr s h x Hg Hx) as (code & s' & Hrun & _). rewrite Hrun. by eexists.
  - rewrite (queued_rep s ready _ (wi_ready _ _ _ _ _ _ Hinv)).
    rewrite (qr_contents _ _ _ (wi_free _ _ _ _ _ _ Hinv)), omap_some. apply Hinv.
  - rewrite (queued_rep s ready _ (wi_ready _ _ _ _ _ _ Hinv)).
    rewrite (pr_free _ _ _ _ (wi_pool _ _ _ _ _ _ Hinv)), omap_some. apply Hinv.
Qed.

(** [tcp_service_send] on every branch: with a free request, a free buffer and a
    message that fits a block it succeeds and the request, at the end of the ready queue,
    holds the message; otherwise it returns [TN_SEND_NOREQ] or [TN_SEND_NOBUF] and takes
    nothing.  Messages already queued or in flight, the read side, the events and the
    channels are untouched. *)
Theorem tcp_service_send_outcome wr flight s a free ready c ch src n bs :
  write_inv wr flight s a free ready →
  client_map (channel_list s) !! c = Some ch → service ch = Some tt → 0 < n < W64 →
  read_src (sv_mem s) src n = Some bs → Z.of_nat (length bs) = n → Forall is_byte bs →
  ∃ code s' a' free' ready', tcp_service_send c src n s = Some (code, s') ∧
    write_inv wr flight s' a' free' ready' ∧ write_frame s s' ∧
    (∀ r, r ∈ ready ++ flight → req_data s' r = req_data s r) ∧
    match free, a_free a with
    | r :: f, _ :: _ =>
        if decide (n ≤ block_size (pool_write s))
        then code = TN_SUCCESS ∧ free' = f ∧ ready' = ready ++ [r] ∧ req_data s' r = Some (c, bs)
        else code = TN_SEND_NOBUF ∧ free' = free ∧ ready' = ready
    | [], _ => code = TN_SEND_NOREQ ∧ free' = free ∧ ready' = ready
    | _, [] => code = TN_SEND_NOBUF ∧ free' = free ∧ ready' = ready
    end.
Proof.
  intros Hi Hch Hsv Hn Hrd Hlen Hby.
  destruct (send_run wr flight s a free ready c ch src n bs) as (code & s' & a' & f' & r' & H); try done.
  exists code, s', a', f', r'. unfold sent in H. naive_solver.
Qed.

(** ** A small service *)

(** Three requests, a write pool of three 4-byte blocks, two channels: the first open,
    the second closing. *)
Definition sample_queue (l : list nat) : tn_queue_spsc_t nat :=
  {| QueueSpsc.capacity := 4; mask := 3; buffer := (Some <$> l) ++ replicate (5 - length l) NULL;
     head := {| value := Z.of_nat (length l) |}; tail := {| value := 0 |}; tail_cache := SIZE_MAX |}.

Definition sample_write_pool : tn_buffer_pool_t :=
  match tn_buffer_pool_setup sample_pool_acquire 64 3 4 (blank_pool, sample_mem) with
  | Some (_, (p, _)) => p
  | None => blank_pool
  end.

Definition sample_channels : tcp_channel_list_t :=
  {| client_map := [set_opened 7 zero_channel; set_ch_state TCP_CHANNEL_CLOSING (set_opened 8 zero_channel)];
     clients_max := 2; client_list_free := no_list; client_list_open := no_list |}.

Definition sample_service : tcp_service_t :=
  set_channel_list sample_channels
    (set_write_side sample_write_pool sample_mem
      (set_write_reqs (replicate 3 {| wr_base := 0; wr_len := 0; wr_channel := NULL; wr_buffer := NULL; wr_id := 0 |})
        (set_write_reqs_free (sample_queue [0%nat; 1%nat; 2%nat])
          (set_write_reqs_ready (sample_queue [])
            (zero_service sample_mem {| uv_data := ∅; uv_closing := []; uv_writes := [] |}
              {| send_msgs := 0; send_bytes := 0; recv_msgs := 0; recv_bytes := 0 |}))))).

Lemma sample_queue_rep l :
  (length l ≤ 3)%nat → contents (sample_queue l) = Some <$> l → queue_rep (sample_queue l) l 3.
Proof.
  intros Hl Hc. split; [|simpl; lia|done].
  split; simpl; [by exists 2|done|..]; rewrite ?length_app, ?length_fmap, ?length_replicate; try lia.
  unfold size_of. simpl. rewrite u64_small by lia. lia.
Qed.

Lemma sample_inv : write_inv 64 [] sample_service (fresh_streams 3 4) [0%nat; 1%nat; 2%nat] [].
Proof.
  destruct (pool_setup_run 64 _ 3 4 blank_pool _ sample_granted) as (p & Hset & _ & _ & _ & _ & Hr).
  assert (sample_write_pool = p) as Hp by (unfold sample_write_pool; by rewrite Hset).
  split.
  - change (pool_rep 64 sample_write_pool sample_mem (fresh_streams 3 4)). by rewrite Hp.
  - apply (sample_queue_rep [0%nat; 1%nat; 2%nat]); [simpl; lia|vm_compute; reflexivity].
  - apply (sample_queue_rep []); [simpl; lia|vm_compute; reflexivity].
  - done.
  - change (seq 0 3 ++ [] ≡ₚ seq 0 (length (tn_buffers sample_write_pool))). vm_compute. done.
  - intros r Hr'. exfalso. exact (proj1 (elem_of_nil r) Hr').
Qed.

(** Runs, executed. *)
Definition enabledb (s : tcp_service_t) (x : wact) : bool :=
  match x with
  | ASend c (SrcBytes bs) n =>
      (0 <? n) && (n <? W64) && (n =? Z.of_nat (length bs)) && forallb (λ b, (0 <=? b) && (b <? 256)) bs &&
      match client_map (channel_list s) !! c with Some ch => bool_decide (service ch = Some tt) | None => false end
  | ASend _ _ _ => false
  | APrep _ => true
  | ASent r _ => bool_decide (r ∈ uv_writes (uv s))
  end.

Fixpoint run_wacts (xs : list wact) (s : tcp_service_t) (h : history) : option (tcp_service_t * history) :=
  match xs with
  | [] => Some (s, h)
  | x :: xs =>
      if enabledb s x
      then '(code, s') ← exec_wact x s; run_wacts xs s' (record_wact s x code h)
      else None
  end.

Lemma enabledb_sound s x : enabledb s x = true → enabled s x.
Proof.
  destruct x as [c [p|bs] n| |r st]; simpl; [done| |done|by intros H%bool_decide_eq_true].
  rewrite !andb_true_iff, Z.ltb_lt, Z.ltb_lt, Z.eqb_eq. intros ((((H1 & H2) & ->) & H3) & H4). split; [done|].
  split.
  - destruct (client_map (channel_list s) !! c) as [ch|]; [|done]. exists ch. split; [done|].
    by apply bool_decide_eq_true in H4.
  - exists bs. rewrite Z.leb_refl, Nat2Z.id, take_ge by lia. split_and!; try done.
    apply Forall_forall. intros b Hb. rewrite forallb_forall in H3.
    specialize (H3 b (proj1 (list_elem_of_In _ _) Hb)). unfold is_byte. lia.
Qed.

Lemma run_wacts_reach xs : ∀ s0 s h s' h',
  wreach s0 s h → run_wacts xs s h = Some (s', h') → wreach s0 s' h'.
Proof.
  induction xs as [|x xs IH]; simpl; intros s0 s h s' h' Hr Hx; [by simplify_eq|].
  destruct (enabledb s x) eqn:He; [|done]. apply option.bind_Some in Hx as ([code s1] & Hrun & Hx).
  apply (IH s0 s1 (record_wact s x code h)); [|done]. eapply wreach_act; [done|by apply enabledb_sound|done].
Qed.

Definition sample_acts : list wact :=
  [ASend 0 (SrcBytes [1; 2; 3]) 3; ASend 1 (SrcBytes [4]) 1; APrep (λ _, 0); ASend 0 (SrcBytes [5; 6]) 2].
Definition no_history : history := {| taken := []; resolved := []; flying := [] |}.

Lemma send_path_exact_witness :
  ∃ s h, run_wacts sample_acts sample_service no_history = Some (s, h) ∧
    taken h = [(0%nat, [1; 2; 3]); (1%nat, [4]); (0%nat, [5; 6])] ∧
    resolved h = [((0%nat, [1; 2; 3]), true); ((1%nat, [4]), false)] ∧
    flying h = [(0%nat, (0%nat, [1; 2; 3]))] ∧ is_Some (exec_wact (ASent 0 0) s).
Proof.
  destruct (run_wacts sample_acts sample_service no_history) as [[s h]|] eqn:Hrun; [|vm_compute in Hrun; discriminate].
  exists s, h.
  pose proof (send_path_exact 64 sample_service (fresh_streams 3 4) [0%nat; 1%nat; 2%nat] s h sample_inv
    eq_refl (run_wacts_reach sample_acts _ _ _ _ _ (wreach_start _) Hrun)) as (Hprog & _ & Hfly & _).
  assert (∀ f : tcp_service_t * history → Prop,
    match run_wacts sample_acts sample_service no_history with Some x => f x | None => False end → f (s, h)) as Hf.
  { intros f. by rewrite Hrun. }
  assert (taken h = [(0%nat, [1; 2; 3]); (1%nat, [4]); (0%nat, [5; 6])]) as Ht
    by (apply (Hf (λ x, taken x.2 = _)); vm_compute; reflexivity).
  assert (resolved h = [((0%nat, [1; 2; 3]), true); ((1%nat, [4]), false)]) as Hres
    by (apply (Hf (λ x, resolved x.2 = _)); vm_compute; reflexivity).
  assert (flying h = [(0%nat, (0%nat, [1; 2; 3]))]) as Hfl
    by (apply (Hf (λ x, flying x.2 = _)); vm_compute; reflexivity).
  split_and!; try assumption; [reflexivity|]. apply Hprog. simpl. rewrite <- Hfly, Hfl.
  apply list_elem_of_here.
Defined.

Lemma tcp_service_send_outcome_witness :
  ∃ code s' a' free' ready', tcp_service_send 0 (SrcBytes [1; 2; 3]) 3 sample_service = Some (code, s') ∧
    write_inv 64 [] s' a' free' ready' ∧ code = TN_SUCCESS ∧ free' = [1%nat; 2%nat] ∧ ready' = [0%nat].
Proof.
  destruct (tcp_service_send_outcome 64 [] sample_service (fresh_streams 3 4) [0%nat; 1%nat; 2%nat] [] 0
    (set_opened 7 zero_channel) (SrcBytes [1; 2; 3]) 3 [1; 2; 3] sample_inv eq_refl eq_refl)
    as (code & s' & a' & f' & r' & Hrun & Hi & _ & _ & H).
  - lia.
  - reflexivity.
  - reflexivity.
  - repeat constructor; unfold is_byte; lia.
  - exists code, s', a', f', r'. split; [exact Hrun|]. split; [exact Hi|].
    change (fresh_streams 3 4) with {| a_free := [0%nat; 1%nat; 2%nat]; a_streams := replicate 3 ([], 4) |} in H.
    rewrite decide_True in H by (vm_compute; discriminate). destruct H as (Hc & Hf & Hr & _).
    split; [exact Hc|]. split; [exact Hf|exact Hr].
Defined.
