(* ===== verification/ServiceRead.v ===== *)
(** The receive path of the service: who owns channels, events and read buffers.

    A read buffer is in its pool, attached to a channel or carried by a read event; an
    event is free, ready or in the hands of the main thread; a channel is free or
    belongs to one live handle.  The file shows that the callbacks of the IO thread and
    the event hand-over of the main thread keep this partition, and what each of them
    publishes. *)
From stdpp Require Import base numbers list option gmap.
From Stdlib Require Import ZArith Lia.
From S2P Require Import Prelude QueueSpsc ByteBuf Buffer BufferPool ListPtr Inet Endpoint Event Channel Service.

Local Open Scope Z_scope.
Local Open Scope c_scope.

(** ** The invariant of the receive path *)

(** The read buffer a published event carries. *)
Definition event_buf (ev : tn_event_t) : option nat :=
  if ev_type ev =? TN_EVENT_CLIENT_READ then
    match body ev with BRead _ _ (Some o) => o | _ => None end
  else None.
Definition event_bufs (es : list tn_event_t) (l : list nat) : list nat := omap (λ e, ev ← es !! e; event_buf ev) l.
Definition channel_bufs (cs : list tcp_channel_t) : list nat := omap read_buffer cs.

(** A published read event points to the unread part of its buffer. *)
Definition event_ok (s : tcp_service_t) (e : nat) : Prop :=
  ∃ ev, tn_events (events s) !! e = Some ev ∧
    (ev_type ev = TN_EVENT_CLIENT_READ →
      ∃ b bf, body ev = BRead (Some (cur_ptr (pos bf))) (Some (cur_len (pos bf))) (Some (Some b)) ∧
        tn_buffers (pool_read s) !! b = Some bf) ∧
    (∀ x y z, body ev = BRead x y z → ev_type ev = TN_EVENT_CLIENT_READ).

(** Who holds what: the read pool, the free, ready and held events, the free channels. *)
Record owners := {
  o_pool : streams;
  o_free : list nat;
  o_ready : list nat;
  o_held : list nat;
  o_channels : list nat;
}.

(** The channel of a live handle. *)
Definition connected (s : tcp_service_t) (h c : nat) : Prop := uv_data (uv s) !! h = Some (Some c).

Record read_inv (rd : Z) (s : tcp_service_t) (o : owners) : Prop := {
  ri_pool : pool_rep rd (pool_read s) (sv_mem s) (o_pool o);
  ri_events : events_rep (events s) (o_free o) (o_ready o);
  ri_places : o_free o ++ o_ready o ++ o_held o ≡ₚ seq 0 (length (tn_events (events s)));
  ri_channels : channels_rep (channel_list s) (o_channels o);
  ri_bufs : a_free (o_pool o) ++ channel_bufs (client_map (channel_list s)) ++
              event_bufs (tn_events (events s)) (o_ready o ++ o_held o)
              ≡ₚ seq 0 (length (tn_buffers (pool_read s)));
  ri_ok : ∀ e, e ∈ o_ready o ++ o_held o → event_ok s e;
  ri_null : ∀ c ch, c ∈ o_channels o → client_map (channel_list s) !! c = Some ch → read_buffer ch = NULL;
  ri_handles : ∀ h c, connected s h c → c ∉ o_channels o ∧
    ∃ ch, client_map (channel_list s) !! c = Some ch ∧ priv ch = Some h ∧ service ch = Some tt;
  ri_closing : ∀ h, (h, CbChannel) ∈ uv_closing (uv s) → ∃ c, connected s h c;
  ri_closing_raw : ∀ h, (h, CbHandle) ∈ uv_closing (uv s) → uv_data (uv s) !! h = Some NULL;
  ri_closing_once : NoDup (uv_closing (uv s)).*1;
  ri_updates : Z.of_nat (length (event_updates s)) = buffer_count s ∧ 0 < buffer_count s;
}.

(** What the main thread is told. *)
Inductive note :=
  | NOpen (id : Z) (host_local host_remote : list Z)
  | NClose (id : Z)
  | NRead (id : Z) (bytes : list Z).

Definition event_note (s : tcp_service_t) (e : nat) : option note :=
  ev ← tn_events (events s) !! e;
  match body ev with
  | BOpen (Some l) (Some r) => Some (NOpen (client_id ev) l r)
  | BClose _ _ => Some (NClose (client_id ev))
  | BRead (Some p) (Some n) _ => NRead (client_id ev) <$> mem_load (sv_mem s) p n
  | _ => None
  end.

(** Bytes received on a channel and not yet published. *)
Definition pending (s : tcp_service_t) (c : nat) : option (list Z) :=
  ch ← client_map (channel_list s) !! c;
  match read_buffer ch with
  | None => Some []
  | Some b => bf ← tn_buffers (pool_read s) !! b; unread (bf, sv_mem s)
  end.

(** What the receive path leaves alone. *)
Record read_frame (s s' : tcp_service_t) : Prop := {
  rf_pool : pool_write s' = pool_write s;
  rf_reqs : write_reqs s' = write_reqs s;
  rf_free : write_reqs_free s' = write_reqs_free s;
  rf_ready : write_reqs_ready s' = write_reqs_ready s;
  rf_writes : uv_writes (uv s') = uv_writes (uv s);
  rf_geometry : same_geometry (pool_read s) (pool_read s');
  rf_mem : ∀ x, x < allocation (pool_read s) ∨
             allocation (pool_read s) + block_count (pool_read s) * block_size (pool_read s) ≤ x →
           sv_mem s' !! x = sv_mem s !! x;
  rf_opened : ∀ c ch, client_map (channel_list s) !! c = Some ch → service ch = Some tt →
    ∃ ch', client_map (channel_list s') !! c = Some ch' ∧ service ch' = Some tt;
}.

Section Facts.
Context (rd : Z).
Implicit Types s : tcp_service_t.

Lemma read_frame_refl s : read_frame s s.
Proof. split; unfold same_geometry; eauto. Qed.

Lemma read_frame_trans s1 s2 s3 : read_frame s1 s2 → read_frame s2 s3 → read_frame s1 s3.
Proof.
  intros [? ? ? ? ? (Ha & Hb & Hc) Hm Ho] [? ? ? ? ? (Ha' & Hb' & Hc') Hm' Ho'].
  split; unfold same_geometry; try (split_and?; congruence).
  - intros x Hx. rewrite Hm' by (rewrite Ha, Hb, Hc; done). by apply Hm.
  - intros c ch Hch Hs. destruct (Ho c ch Hch Hs) as (ch1 & ? & ?). by eapply Ho'.
Qed.

(** One element of a list changes: what it contributes is exchanged. *)
Lemma omap_insert_perm {A} (f : A → option nat) (l : list A) i x y :
  l !! i = Some x →
  omap f l ≡ₚ option_list (f x) ++ omap f (delete i l) ∧
  omap f (<[i := y]> l) ≡ₚ option_list (f y) ++ omap f (delete i l).
Proof.
  intros Hx.
  assert (∀ z (k : list A), omap f (z :: k) = option_list (f z) ++ omap f k) as Hcons
    by (intros z k; cbn; by destruct (f z)).
  split.
  - rewrite <- Hcons. by rewrite <- (delete_Permutation l i x Hx).
  - rewrite <- Hcons. pose proof (lookup_lt_Some _ _ _ Hx) as Hlt.
    rewrite (delete_Permutation (<[i := y]> l) i y) by (by apply list_lookup_insert_eq).
    rewrite !delete_take_drop, take_insert_ge, drop_insert_lt by lia. done.
Qed.

Lemma nodup_bufs s o :
  read_inv rd s o → NoDup (a_free (o_pool o) ++ channel_bufs (client_map (channel_list s)) ++
              event_bufs (tn_events (events s)) (o_ready o ++ o_held o)).
Proof. intros []. rewrite ri_bufs0. apply NoDup_seq. Qed.

Lemma nodup_events s o : read_inv rd s o → NoDup (o_free o ++ o_ready o ++ o_held o).
Proof. intros []. rewrite ri_places0. apply NoDup_seq. Qed.

(** The buffer of a channel is neither in the pool nor with an event. *)
Lemma channel_buffer_out s o c ch b :
  read_inv rd s o → client_map (channel_list s) !! c = Some ch → read_buffer ch = Some b →
  (b < length (tn_buffers (pool_read s)))%nat ∧ b ∉ a_free (o_pool o) ∧
  b ∉ event_bufs (tn_events (events s)) (o_ready o ++ o_held o).
Proof.
  intros Hi Hch Hb. pose proof (nodup_bufs s o Hi) as Hnd. destruct Hi.
  assert (b ∈ channel_bufs (client_map (channel_list s))) as Hin.
  { apply list_elem_of_omap. exists ch. split; [by eapply list_elem_of_lookup_2|done]. }
  apply NoDup_app in Hnd as (_ & Hd & Hnd). apply NoDup_app in Hnd as (_ & Hd' & _). split_and!.
  - assert (b ∈ seq 0 (length (tn_buffers (pool_read s)))) as Hs by (rewrite <- ri_bufs0; set_solver).
    apply elem_of_seq in Hs. lia.
  - intros Hf. apply (Hd b Hf). set_solver.
  - by apply Hd'.
Qed.

(** The buffer of a published event is not in the pool. *)
Lemma event_buffer_out s o e ev b :
  read_inv rd s o → e ∈ o_ready o ++ o_held o → tn_events (events s) !! e = Some ev →
  event_buf ev = Some b →
  b ∉ a_free (o_pool o) ∧ ∀ c ch, client_map (channel_list s) !! c = Some ch → read_buffer ch ≠ Some b.
Proof.
  intros Hi He Hev Hb. assert (b ∈ event_bufs (tn_events (events s)) (o_ready o ++ o_held o)) as Hin.
  { apply list_elem_of_omap. exists e. split; [done|]. rewrite Hev. done. }
  split.
  - intros Hf. pose proof (nodup_bufs s o Hi) as Hnd. apply NoDup_app in Hnd as (_ & Hd & _).
    apply (Hd b Hf). set_solver.
  - intros c ch Hch Hcb. by destruct (channel_buffer_out s o c ch b Hi Hch Hcb) as (_ & _ & []).
Qed.

(** ** Elementary changes *)

Definition put_channel (c : nat) (ch : tcp_channel_t) s : tcp_service_t :=
  set_channel_list (set_client_map (<[c := ch]> (client_map (channel_list s))) (channel_list s)) s.

Definition set_pool (a : streams) (o : owners) : owners :=
  {| o_pool := a; o_free := o_free o; o_ready := o_ready o; o_held := o_held o; o_channels := o_channels o |}.

(** Members of a channel the invariant follows. *)
Definition same_channel (ch ch' : tcp_channel_t) : Prop :=
  ch_id ch' = ch_id ch ∧ priv ch' = priv ch ∧ service ch' = service ch.

Lemma put_channel_rep s free c ch ch' :
  channels_rep (channel_list s) free → client_map (channel_list s) !! c = Some ch → ch_id ch' = ch_id ch →
  on_channels (update_channel c (λ _, ch')) s = Some (tt, put_channel c ch' s) ∧
  channels_rep (channel_list (put_channel c ch' s)) free.
Proof.
  intros Hr Hc Hid. destruct (update_channel_run (channel_list s) free c (λ _, ch') ch Hr Hc Hid) as [Hrun Hr'].
  split; [|done]. unfold on_channels. by rewrite (zoom_Some _ _ _ s _ _ Hrun).
Qed.

Lemma on_update_run s c f ch :
  client_map (channel_list s) !! c = Some ch →
  on_channels (update_channel c f) s = Some (tt, put_channel c (f ch) s).
Proof. intros Hc. unfold on_channels, zoom, update_channel. mrun. by rewrite Hc. Qed.

Lemma lookup_put s c ch ch0 d :
  client_map (channel_list s) !! c = Some ch0 →
  client_map (channel_list (put_channel c ch s)) !! d =
    if decide (d = c) then Some ch else client_map (channel_list s) !! d.
Proof.
  intros Hc. simpl. case_decide as Hd.
  - subst d. apply list_lookup_insert_eq. by eapply lookup_lt_Some.
  - by rewrite list_lookup_insert_ne.
Qed.

(** A channel and the read pool change; a buffer may move between them. *)
Lemma inv_put s o c ch ch' p m a :
  read_inv rd s o → client_map (channel_list s) !! c = Some ch → same_channel ch ch' →
  (c ∈ o_channels o → read_buffer ch' = NULL) →
  pool_rep rd p m a → length (tn_buffers p) = length (tn_buffers (pool_read s)) →
  (∀ b, b ∈ event_bufs (tn_events (events s)) (o_ready o ++ o_held o) →
     tn_buffers p !! b = tn_buffers (pool_read s) !! b) →
  a_free a ++ option_list (read_buffer ch') ≡ₚ a_free (o_pool o) ++ option_list (read_buffer ch) →
  read_inv rd (put_channel c ch' (set_read_side p m s)) (set_pool a o).
Proof.
  intros [] Hc (Hid & Hpr & Hsv) Hnull Hp Hlen Hbufs Hperm.
  assert (∀ d x, client_map (channel_list (put_channel c ch' (set_read_side p m s))) !! d = Some x →
    d = c ∧ x = ch' ∨ d ≠ c ∧ client_map (channel_list s) !! d = Some x) as Hl.
  { intros d x. rewrite (lookup_put (set_read_side p m s) c ch' ch) by done. case_decide; naive_solver. }
  split; simpl; try done.
  - apply (put_channel_rep s (o_channels o) c ch ch' ri_channels0 Hc Hid).
  - destruct (omap_insert_perm read_buffer (client_map (channel_list s)) c ch ch' Hc) as [H1 H2].
    rewrite Hlen, <- ri_bufs0. unfold channel_bufs. rewrite H1, H2.
    rewrite !(assoc (++)). do 2 f_equiv. done.
  - intros e He. destruct (ri_ok0 e He) as (ev & Hev & Hread & Hback). exists ev. split; [done|]. split; [|done].
    intros Ht. destruct (Hread Ht) as (b & bf & Hb & Hbf). exists b, bf. split; [done|].
    simpl. rewrite Hbufs; [done|]. apply list_elem_of_omap. exists e. split; [done|].
    rewrite Hev. simpl. unfold event_buf. by rewrite Ht, Hb.
  - intros d x Hd Hx. destruct (Hl d x Hx) as [[-> ->]|[_ Hx']]; [by apply Hnull|by eapply ri_null0].
  - intros h d Hh. destruct (ri_handles0 h d Hh) as (Hni & x & Hx & Hpx & Hsx). split; [done|].
    destruct (decide (d = c)) as [->|Hne].
    + exists ch'. rewrite list_lookup_insert_eq by (by eapply lookup_lt_Some). simplify_eq.
      by rewrite Hpr, Hsv.
    + exists x. by rewrite list_lookup_insert_ne.
Qed.

Lemma frame_put s c ch ch' p m :
  client_map (channel_list s) !! c = Some ch → (service ch = Some tt → service ch' = Some tt) →
  same_geometry (pool_read s) p →
  (∀ x, x < allocation (pool_read s) ∨
     allocation (pool_read s) + block_count (pool_read s) * block_size (pool_read s) ≤ x → m !! x = sv_mem s !! x) →
  read_frame s (put_channel c ch' (set_read_side p m s)).
Proof.
  intros Hc Hsv Hg Hm. split; try done. intros d x Hx Hs.
  rewrite (lookup_put (set_read_side p m s) c ch' ch) by done. case_decide; [|by eauto].
  subst d. rewrite Hc in Hx. injection Hx as <-. eauto.
Qed.

(** A change of the members the invariant does not follow. *)
Lemma inv_quiet s o c ch ch' :
  read_inv rd s o → client_map (channel_list s) !! c = Some ch → same_channel ch ch' →
  read_buffer ch' = read_buffer ch →
  read_inv rd (put_channel c ch' s) o ∧ read_frame s (put_channel c ch' s).
Proof.
  intros Hi Hc Hs Hb. pose proof Hi as [].
  assert (put_channel c ch' s = put_channel c ch' (set_read_side (pool_read s) (sv_mem s) s)) as ->
    by (by destruct s). split.
  - replace o with (set_pool (o_pool o) o) at 1 by (by destruct o).
    apply (inv_put s o c ch); try done; [|by rewrite Hb].
    intros Hin. rewrite Hb. by eapply ri_null0.
  - apply (frame_put s c ch); [done| |done|done]. destruct Hs as (_ & _ & ->). done.
Qed.

(** ** What events say and channels keep, in terms of the streams *)

Lemma note_stream s o e ev b u k :
  read_inv rd s o → e ∈ o_ready o ++ o_held o → tn_events (events s) !! e = Some ev →
  event_buf ev = Some b → a_streams (o_pool o) !! b = Some (u, k) →
  event_note s e = Some (NRead (client_id ev) u).
Proof.
  intros [] He Hev Hb Hst. destruct (ri_ok0 e He) as (ev' & Hev' & Hread & _). simplify_eq.
  unfold event_buf in Hb. destruct (Z.eqb_spec (ev_type ev) TN_EVENT_CLIENT_READ) as [Ht|]; [|done].
  destruct (Hread Ht) as (b' & bf & Hbody & Hbf). rewrite Hbody in Hb. injection Hb as ->.
  destruct (rep_lookup rd _ _ _ b bf ri_pool0 Hbf) as (u' & k' & Hs & Hu & _). rewrite Hst in Hs.
  injection Hs as <- <-. unfold event_note. rewrite Hev. cbn. rewrite Hbody. unfold unread in Hu. simpl in Hu.
  by rewrite Hu.
Qed.

(** A published event says the same as long as its buffer's stream is the same. *)
Lemma note_kept s s' o o' e :
  read_inv rd s o → read_inv rd s' o' → e ∈ o_ready o ++ o_held o → e ∈ o_ready o' ++ o_held o' →
  tn_events (events s') !! e = tn_events (events s) !! e →
  (∀ b, b ∈ event_bufs (tn_events (events s)) (o_ready o ++ o_held o) →
     a_streams (o_pool o') !! b = a_streams (o_pool o) !! b) →
  event_note s' e = event_note s e.
Proof.
  intros Hi Hi' He He' Hev Hst. destruct (ri_ok _ _ _ Hi e He) as (ev & Hev0 & Hread & Hback).
  destruct (event_buf ev) as [b|] eqn:Hb.
  - assert (b ∈ event_bufs (tn_events (events s)) (o_ready o ++ o_held o)) as Hin.
    { apply list_elem_of_omap. exists e. split; [done|]. by rewrite Hev0. }
    assert (ev_type ev = TN_EVENT_CLIENT_READ) as Ht.
    { unfold event_buf in Hb. by destruct (Z.eqb_spec (ev_type ev) TN_EVENT_CLIENT_READ). }
    destruct (Hread Ht) as (b' & bf & Hbody & Hbf). unfold event_buf in Hb. rewrite Ht, Hbody in Hb. simpl in Hb.
    injection Hb as ->. destruct (rep_lookup rd _ _ _ b bf (ri_pool _ _ _ Hi) Hbf) as (u & k & Hs & _).
    assert (event_buf ev = Some b) as Hb' by (unfold event_buf; by rewrite Ht, Hbody).
    rewrite (note_stream s o e ev b u k), (note_stream s' o' e ev b u k); try done.
    + by rewrite Hev.
    + by rewrite Hst.
  - unfold event_note. rewrite Hev, Hev0. cbn. destruct (body ev) eqn:Hbody; try done.
    pose proof (Hback _ _ _ eq_refl) as Ht. destruct (Hread Ht) as (b' & bf & Hb' & _).
    unfold event_buf in Hb. rewrite Ht, Hbody in Hb. simplify_eq.
Qed.

Lemma pending_stream s o c ch b u k :
  read_inv rd s o → client_map (channel_list s) !! c = Some ch → read_buffer ch = Some b →
  a_streams (o_pool o) !! b = Some (u, k) → pending s c = Some u.
Proof.
  intros [] Hc Hb Hst. unfold pending. rewrite Hc. cbn. rewrite Hb.
  destruct (Forall2_lookup_r _ _ _ _ _ (pr_streams _ _ _ _ ri_pool0) Hst) as (bf & Hbf & Hu & _).
  rewrite Hbf. done.
Qed.

(** The buffers of channels and of published events are not touched by what only changes
    free buffers and the buffer of [c]. *)
Definition others_same (s : tcp_service_t) (o : owners) (c : nat) (s' : tcp_service_t) (o' : owners) : Prop :=
  (∀ e, e ∈ o_ready o ++ o_held o → event_note s' e = event_note s e) ∧
  (∀ d, d ≠ c → pending s' d = pending s d).

Lemma pending_kept s s' o o' c ch :
  read_inv rd s o → read_inv rd s' o' → client_map (channel_list s) !! c = Some ch →
  (∃ ch', client_map (channel_list s') !! c = Some ch' ∧ read_buffer ch' = read_buffer ch) →
  (∀ b, read_buffer ch = Some b → a_streams (o_pool o') !! b = a_streams (o_pool o) !! b) →
  pending s' c = pending s c.
Proof.
  intros Hi Hi' Hc (ch' & Hc' & Hb') Hst. destruct (read_buffer ch) as [b|] eqn:Hb.
  - destruct (channel_buffer_out s o c ch b Hi Hc Hb) as (Hlt & _).
    destruct (lookup_lt_is_Some_2 _ _ Hlt) as [bf Hbf].
    destruct (rep_lookup rd _ _ _ b bf (ri_pool _ _ _ Hi) Hbf) as (u & k & Hs & _).
    rewrite (pending_stream s o c ch b u k), (pending_stream s' o' c ch' b u k); try done.
    by rewrite Hst.
  - unfold pending. rewrite Hc, Hc'. cbn. by rewrite Hb, Hb'.
Qed.

(** Two channels never share a buffer. *)
Lemma channel_bufs_distinct s o c d ch dh b :
  read_inv rd s o → client_map (channel_list s) !! c = Some ch → client_map (channel_list s) !! d = Some dh →
  read_buffer ch = Some b → read_buffer dh = Some b → c = d.
Proof.
  intros Hi Hc Hd Hb Hb'. destruct (decide (c = d)) as [|Hne]; [done|exfalso].
  pose proof (nodup_bufs s o Hi) as Hnd. apply NoDup_app in Hnd as (_ & _ & Hnd).
  apply NoDup_app in Hnd as (Hnd & _).
  destruct (omap_insert_perm read_buffer (client_map (channel_list s)) c ch zero_channel Hc) as [H1 H2].
  unfold channel_bufs in Hnd. rewrite H1, Hb in Hnd. simpl in Hnd, H2. apply NoDup_cons in Hnd as [Hni _].
  apply Hni. rewrite <- H2. apply list_elem_of_omap. exists dh. split; [|done].
  apply (list_elem_of_lookup_2 _ d). by rewrite list_lookup_insert_ne.
Qed.

Lemma others_put s o c ch ch' p m a :
  let s' := put_channel c ch' (set_read_side p m s) in
  read_inv rd s o → read_inv rd s' (set_pool a o) → client_map (channel_list s) !! c = Some ch →
  (∀ b, b ∉ a_free (o_pool o) → read_buffer ch ≠ Some b → a_streams a !! b = a_streams (o_pool o) !! b) →
  others_same s o c s' (set_pool a o).
Proof.
  intros s' Hi Hi' Hc Hst. split.
  - intros e He. apply (note_kept s s' o (set_pool a o)); try done.
    intros b Hb. simpl. pose proof (nodup_bufs s o Hi) as Hnd. apply NoDup_app in Hnd as (_ & Hd & _).
    apply Hst; [intros Hf; apply (Hd b Hf); set_solver|].
    intros Hcb. destruct (channel_buffer_out s o c ch b Hi Hc Hcb) as (_ & _ & Hni). done.
  - intros d Hd. destruct (client_map (channel_list s) !! d) as [dh|] eqn:Hdh.
    + apply (pending_kept s s' o (set_pool a o) d dh); try done.
      * exists dh. split; [|done]. simpl. by rewrite list_lookup_insert_ne.
      * intros b Hb. simpl. apply Hst; [by apply (channel_buffer_out s o d dh b)|].
        intros Hcb. apply Hd. symmetry. by eapply (channel_bufs_distinct s o c d ch dh b).
    + unfold pending. simpl. by rewrite list_lookup_insert_ne, Hdh.
Qed.

Lemma others_refl s o c : others_same s o c s o.
Proof. by split. Qed.

Lemma others_trans s1 o1 s2 o2 s3 o3 c :
  others_same s1 o1 c s2 o2 → others_same s2 o2 c s3 o3 →
  (∀ e, e ∈ o_ready o1 ++ o_held o1 → e ∈ o_ready o2 ++ o_held o2) → others_same s1 o1 c s3 o3.
Proof.
  intros [Hn Hp] [Hn' Hp'] Hsub. split.
  - intros e He. rewrite Hn' by auto. by apply Hn.
  - intros d Hd. rewrite Hp' by done. by apply Hp.
Qed.

Lemma others_quiet s o c ch ch' :
  read_inv rd s o → client_map (channel_list s) !! c = Some ch → read_buffer ch' = read_buffer ch →
  others_same s o c (put_channel c ch' s) o ∧ pending (put_channel c ch' s) c = pending s c.
Proof.
  intros Hi Hc Hb. split; [split|].
  - done.
  - intros d Hd. unfold pending. simpl. by rewrite list_lookup_insert_ne.
  - unfold pending. simpl. rewrite list_lookup_insert_eq by (by eapply lookup_lt_Some). rewrite Hc. simpl.
    by rewrite Hb.
Qed.

(** ** [on_recv_alloc_cb] *)

Lemma on_read_pool_run {A} (f : M plstate A) s x p m :
  f (pool_read s, sv_mem s) = Some (x, (p, m)) → on_read_pool f s = Some (x, set_read_side p m s).
Proof. intros H. unfold on_read_pool, zoom. by rewrite H. Qed.

Lemma on_read_buffer_gets {A} (f : bstate → A) s b bf :
  tn_buffers (pool_read s) !! b = Some bf →
  on_read_pool (on_buffer b (gets f)) s = Some (f (bf, sv_mem s), s).
Proof.
  intros Hb. assert (on_buffer b (gets f) (pool_read s, sv_mem s) = Some (f (bf, sv_mem s), (pool_read s, sv_mem s))) as H.
  { unfold on_buffer, gets. simpl. rewrite Hb, list_insert_id by done. by destruct (pool_read s). }
  rewrite (on_read_pool_run _ s _ _ _ H). by destruct s.
Qed.

Lemma get_channel_run' c s ch : client_map (channel_list s) !! c = Some ch → get_channel c s = Some (ch, s).
Proof. intros H. unfold get_channel. mrun. by rewrite H. Qed.

(** Where the kernel may write: the free part of the channel's buffer. *)
Definition recv_area (s : tcp_service_t) (c b : nat) (bf : tn_buffer_t) : Prop :=
  (∃ ch, client_map (channel_list s) !! c = Some ch ∧ read_buffer ch = Some b) ∧
  tn_buffers (pool_read s) !! b = Some bf.

Lemma area_answer s o c b bf :
  read_inv rd s o → recv_area s c b bf →
  ∀ {A} (k : Z * Z → M tcp_service_t A),
  (ch ← get_channel c; b ← lift (read_buffer ch);
   base ← on_read_pool (on_buffer b tn_buffer_write_ptr);
   len ← on_read_pool (on_buffer b tn_buffer_remaining); k (base, len)) s =
  k (buf_buffer (buf bf) + buf_len (buf bf), room bf) s.
Proof.
  intros [] [(ch & Hc & Hb) Hbf] A k.
  destruct (rep_lookup rd _ _ _ b bf ri_pool0 Hbf) as (_ & _ & _ & _ & _ & _ & [[Haddr ? Hlen ? ? ? ?] _ _ _]).
  bstep (get_channel_run' c s ch Hc). rewrite Hb, M_lift.
  bstep (on_read_buffer_gets (λ x, u64 (buf_buffer (buf x.1) + buf_len (buf x.1))) s b bf Hbf).
  bstep (on_read_buffer_gets (λ x, u64 (buf_capacity (buf x.1) - buf_len (buf x.1))) s b bf Hbf).
  rewrite !u64_small by (simpl; lia). done.
Qed.

(** A channel without a buffer takes one from the pool, or finds it empty. *)
Lemma take_buffer s o c ch :
  read_inv rd s o → client_map (channel_list s) !! c = Some ch → read_buffer ch = NULL → c ∉ o_channels o →
  ∃ r p a, tn_buffer_pool_pop_back (pool_read s, sv_mem s) = Some (r, (p, sv_mem s)) ∧
    let s' := put_channel c (set_read_buffer r.2 ch) (set_read_side p (sv_mem s) s) in
    read_inv rd s' (set_pool a o) ∧ read_frame s s' ∧ others_same s o c s' (set_pool a o) ∧
    pending s' c = Some [] ∧
    (r = (TN_ERROR, NULL) ∨ ∃ b bf, r = (TN_SUCCESS, Some b) ∧ tn_buffers p !! b = Some bf).
Proof.
  intros Hi Hc Hb Hni. pose proof Hi as [].
  destruct (pool_pop_back_run rd _ _ (o_pool o) ri_pool0) as (r & p & Hpop & Hg & Hoth & Hspec & Hp).
  set (a := {| a_free := drop 1 (a_free (o_pool o)); a_streams := _ |}) in Hp. exists r, p, a. split; [done|].
  pose proof (ps_array _ _ _ (pr_shape _ _ _ _ Hp)) as Hl1. pose proof (ps_array _ _ _ (pr_shape _ _ _ _ ri_pool0)) as Hl2.
  pose proof Hg as (_ & Hg2 & _). set (s' := put_channel _ _ _).
  pose proof (nodup_bufs s o Hi) as Hnd. apply NoDup_app in Hnd as (_ & Hd & _).
  assert (∀ j, j ∉ a_free (o_pool o) → list.head (a_free (o_pool o)) ≠ Some j) as Hhead.
  { intros j Hj Hh. apply Hj. destruct (a_free (o_pool o)); [done|]. injection Hh as ->. apply list_elem_of_here. }
  assert (r.2 = list.head (a_free (o_pool o))) as Hr.
  { unfold spec_pool in Hspec. destruct (a_free (o_pool o)); by simplify_eq/=. }
  assert (read_inv rd s' (set_pool a o)) as Hi'.
  { apply (inv_put s o c ch); try done; [lia|..].
    - intros b Hin. apply Hoth, Hhead. intros Hf. apply (Hd b Hf). set_solver.
    - simpl. rewrite Hr, Hb, app_nil_r. destruct (a_free (o_pool o)); simpl; [done|]. solve_Permutation. }
  split; [done|]. split; [by apply (frame_put s c ch)|]. split.
  { apply (others_put s o c ch); try done. intros b Hnf _. simpl. specialize (Hhead b Hnf).
    destruct (a_free (o_pool o)) as [|x l]; [done|]. rewrite list_lookup_insert_ne; [done|]. by intros ->. }
  unfold spec_pool in Hspec. destruct (a_free (o_pool o)) as [|b l] eqn:Hfree.
  - simplify_eq/=. split; [|by left]. unfold pending, s'. simpl.
    rewrite list_lookup_insert_eq by (by eapply lookup_lt_Some). done.
  - injection Hspec as <-. pose proof (pr_range _ _ _ _ ri_pool0) as Hrg. rewrite Hfree in Hrg.
    apply Forall_cons in Hrg as [Hlt _].
    assert (a_streams a !! b = Some ([], block_size (pool_read s))) as Hst.
    { simpl. apply list_lookup_insert_eq. by rewrite <- (Forall2_length _ _ _ (pr_streams _ _ _ _ ri_pool0)). }
    split.
    + apply (pending_stream s' (set_pool a o) c (set_read_buffer (Some b) ch) b [] (block_size (pool_read s))); try done.
      unfold s'. simpl. apply list_lookup_insert_eq. by eapply lookup_lt_Some.
    + right. destruct (lookup_lt_is_Some_2 (tn_buffers p) b) as [bf Hbf]; [lia|]. by exists b, bf.
Qed.

(** ** Closing *)

Lemma inv_uv_close s o h c :
  read_inv rd s o → connected s h c → uv_is_closing h (uv s) = false →
  read_inv rd (set_uv (uv_close h CbChannel (uv s)) s) o.
Proof.
  intros [] Hh Hn. apply bool_decide_eq_false in Hn. split; simpl; try done.
  - intros h' [Hin|Hin%list_elem_of_singleton]%elem_of_app; [by apply ri_closing0|].
    injection Hin as ->. by exists c.
  - intros h' [Hin|Hin%list_elem_of_singleton]%elem_of_app; [by apply ri_closing_raw0|done].
  - rewrite fmap_app. apply NoDup_app. split; [done|]. split; [|by apply NoDup_singleton].
    intros x Hx Hx'. apply list_elem_of_singleton in Hx'. by subst x.
Qed.

Lemma frame_uv s f :
  uv_writes (f (uv s)) = uv_writes (uv s) → read_frame s (set_uv (f (uv s)) s).
Proof. intros H. split; try done. eauto. Qed.

(** What a callback that publishes nothing leaves: the same owners, notes and pending bytes. *)
Record silent s (o : owners) (s' : tcp_service_t) : Prop := {
  si_inv : read_inv rd s' o;
  si_frame : read_frame s s';
  si_events : tn_events (events s') = tn_events (events s);
  si_notes : ∀ e, e ∈ o_ready o ++ o_held o → event_note s' e = event_note s e;
  si_pending : ∀ d, pending s' d = pending s d;
  si_data : uv_data (uv s') = uv_data (uv s);
  si_updates : event_updates s' = event_updates s ∧ event_updates_count s' = event_updates_count s;
}.

Lemma silent_trans s1 o s2 s3 : silent s1 o s2 → silent s2 o s3 → silent s1 o s3.
Proof.
  intros [] []. split; try done.
  - by eapply read_frame_trans.
  - congruence.
  - intros e He. rewrite si_notes1 by done. by apply si_notes0.
  - intros d. by rewrite si_pending1.
  - congruence.
  - naive_solver congruence.
Qed.

Lemma silent_put s o c ch ch' :
  read_inv rd s o → client_map (channel_list s) !! c = Some ch → same_channel ch ch' →
  read_buffer ch' = read_buffer ch → silent s o (put_channel c ch' s).
Proof.
  intros Hi Hc Hs Hb. destruct (inv_quiet s o c ch ch' Hi Hc Hs Hb).
  destruct (others_quiet s o c ch ch' Hi Hc Hb) as [[Hn Hp] Hpc]. split; try done.
  intros d. destruct (decide (d = c)) as [->|]; [done|by apply Hp].
Qed.

Lemma recv_cleanup_run s o h c ret close :
  read_inv rd s o → connected s h c →
  ∃ s', recv_cleanup h c ret close s = Some (tt, s') ∧ silent s o s' ∧
    uv_closing (uv s') = uv_closing (uv s) ++
      (if close && negb (uv_is_closing h (uv s)) then [(h, CbChannel)] else []).
Proof.
  intros Hi Hh. destruct (ri_handles _ _ _ Hi h c Hh) as (Hni & ch & Hc & Hpr & Hsv).
  unfold recv_cleanup. bstep (on_update_run s c (set_error_code ret) ch Hc).
  set (s1 := put_channel c (set_error_code ret ch) s).
  assert (silent s o s1) as Hs1 by (by apply (silent_put s o c ch)).
  change (uv s1) with (uv s). destruct (close && negb (uv_is_closing h (uv s))) eqn:Hcl.
  2:{ exists s1. rewrite app_nil_r. done. }
  apply andb_true_iff in Hcl as [_ Hcl%negb_true_iff].
  assert (client_map (channel_list s1) !! c = Some (set_error_code ret ch)) as Hc1.
  { apply list_lookup_insert_eq. by eapply lookup_lt_Some. }
  bstep (on_update_run s1 c (set_ch_state TCP_CHANNEL_CLOSING) _ Hc1).
  set (s2 := put_channel c (set_ch_state TCP_CHANNEL_CLOSING (set_error_code ret ch)) s1).
  assert (silent s1 o s2) as Hs2 by (apply (silent_put s1 o c (set_error_code ret ch)); try done; apply Hs1).
  eexists. split; [reflexivity|]. split; [|done]. apply (silent_trans _ _ s2); [by eapply silent_trans|].
  split; try done; [|by apply frame_uv]. apply (inv_uv_close s2 o h c); try done. apply Hs2.
Qed.

(** ** Receiving *)

Lemma put_same s c ch : client_map (channel_list s) !! c = Some ch → put_channel c ch s = s.
Proof. intros Hc. unfold put_channel. rewrite list_insert_id by done. by destruct s as [? ? ? []]. Qed.

(** The pool and memory change under the buffer of one channel. *)
Lemma inv_pool s o c ch b p m a :
  read_inv rd s o → client_map (channel_list s) !! c = Some ch → read_buffer ch = Some b → c ∉ o_channels o →
  pool_rep rd p m a → a_free a = a_free (o_pool o) → same_geometry (pool_read s) p →
  (∀ j, j ≠ b → tn_buffers p !! j = tn_buffers (pool_read s) !! j) →
  (∀ j, j ≠ b → a_streams a !! j = a_streams (o_pool o) !! j) →
  (∀ x, x < allocation (pool_read s) ∨
     allocation (pool_read s) + block_count (pool_read s) * block_size (pool_read s) ≤ x → m !! x = sv_mem s !! x) →
  let s' := set_read_side p m s in
  read_inv rd s' (set_pool a o) ∧ read_frame s s' ∧ others_same s o c s' (set_pool a o).
Proof.
  intros Hi Hc Hb Hni Hp Hf Hg Hoth Hst Hm s'.
  assert (s' = put_channel c ch s') as -> by (symmetry; by apply put_same).
  assert (read_inv rd (put_channel c ch s') (set_pool a o)) as Hi'.
  { apply (inv_put s o c ch); try done.
    - pose proof (ps_array _ _ _ (pr_shape _ _ _ _ Hp)). destruct Hg as (_ & Hg & _).
      pose proof (ps_array _ _ _ (pr_shape _ _ _ _ (ri_pool _ _ _ Hi))). lia.
    - intros j Hj. apply Hoth. intros ->. by destruct (channel_buffer_out s o c ch b Hi Hc Hb) as (_ & _ & []).
    - by rewrite Hf. }
  split; [done|]. split; [by apply (frame_put s c ch)|].
  apply (others_put s o c ch); try done. intros j _ Hj. apply Hst. by intros ->.
Qed.

(** Memory outside a block of the pool is, in particular, memory outside the pool. *)
Lemma outside_pool p m a b bf m' :
  pool_rep rd p m a → tn_buffers p !! b = Some bf →
  same_outside (buf_buffer (buf bf)) (buf_capacity (buf bf)) m m' →
  ∀ x, x < allocation p ∨ allocation p + block_count p * block_size p ≤ x → m' !! x = m !! x.
Proof.
  intros Hp Hbf Hout x Hx. apply Hout.
  destruct (rep_lookup rd _ _ _ b bf Hp Hbf) as (_ & _ & _ & _ & _ & _ & [_ Ha Hc _]).
  pose proof (block_inside rd p m b (pr_shape _ _ _ _ Hp) ltac:(by eapply lookup_lt_Some)). lia.
Qed.

(** The kernel writes into the free part of the channel's buffer: nobody notices yet. *)
Lemma kernel_run s o c b bf data :
  read_inv rd s o → recv_area s c b bf → c ∉ o_channels o → Z.of_nat (length data) ≤ room bf →
  ∃ m, mem_store (sv_mem s) (buf_buffer (buf bf) + buf_len (buf bf)) data = Some m ∧
    mem_load m (buf_buffer (buf bf) + buf_len (buf bf)) (Z.of_nat (length data)) = Some data ∧
    silent s o (set_read_side (pool_read s) m s).
Proof.
  intros Hi [(ch & Hc & Hb) Hbf] Hni Hlen. pose proof (ri_pool _ _ _ Hi) as Hp.
  destruct (rep_lookup rd _ _ _ b bf Hp Hbf) as (u & k & Hst & Hu & Hk & Hby & [Hwf Ha Hcap Hpool]).
  pose proof Hwf as []. unfold room in Hlen.
  destruct (mem_store_effect (sv_mem s) (buf_buffer (buf bf) + buf_len (buf bf)) data)
    as (m & Hm & Hld & Hout & Hal).
  { intros x Hx. apply bwf_alloc. lia. }
  exists m. split; [done|]. split; [done|].
  assert (local_step bf (sv_mem s) bf m) as Hl.
  { split; try done; [split; try done; by apply Hal|]. intros x Hx. apply Hout. lia. }
  assert (unread (bf, m) = Some u) as Hu'.
  { rewrite <- Hu. unfold unread. simpl. apply mem_load_agree. intros x Hx. apply Hout. lia. }
  pose proof (rep_update rd _ _ _ b bf bf m u k Hp Hbf Hl Hu' Hk Hby) as Hp'.
  rewrite !list_insert_id in Hp' by done.
  assert (set_tn_buffers (tn_buffers (pool_read s)) (pool_read s) = pool_read s) as Hid by (by destruct (pool_read s)).
  assert ({| a_free := a_free (o_pool o); a_streams := a_streams (o_pool o) |} = o_pool o) as Hid' by (by destruct (o_pool o)).
  rewrite Hid, Hid' in Hp'.
  destruct (inv_pool s o c ch b (pool_read s) m (o_pool o)) as (Hi' & Hfr & Hn & Hpd); try done.
  { apply (outside_pool _ _ _ b bf m Hp Hbf). by destruct Hl. }
  assert (set_pool (o_pool o) o = o) as Hid2 by (by destruct o). rewrite Hid2 in *.
  split; try done. intros d. destruct (decide (d = c)) as [->|]; [|by apply Hpd].
  apply (pending_kept s _ o o c ch); eauto.
Qed.

(** [tn_buffer_add_length] on the buffer of a channel: the bytes become pending. *)
Lemma add_run s o c ch b bf data :
  read_inv rd s o → client_map (channel_list s) !! c = Some ch → read_buffer ch = Some b → c ∉ o_channels o →
  tn_buffers (pool_read s) !! b = Some bf → Z.of_nat (length data) ≤ room bf → Forall is_byte data →
  mem_load (sv_mem s) (buf_buffer (buf bf) + buf_len (buf bf)) (Z.of_nat (length data)) = Some data →
  ∃ p a bf' u k, on_read_pool (on_buffer b (tn_buffer_add_length (Z.of_nat (length data)))) s =
      Some (TN_SUCCESS, set_read_side p (sv_mem s) s) ∧
    let s' := set_read_side p (sv_mem s) s in
    read_inv rd s' (set_pool a o) ∧ read_frame s s' ∧ others_same s o c s' (set_pool a o) ∧
    tn_buffers p !! b = Some bf' ∧ pending s c = Some u ∧ a_streams a !! b = Some (u ++ data, k) ∧
    a_free a = a_free (o_pool o).
Proof.
  intros Hi Hc Hb Hni Hbf Hfit Hby Hload. pose proof (ri_pool _ _ _ Hi) as Hp.
  destruct (rep_lookup rd _ _ _ b bf Hp Hbf) as (u & k & Hst & Hu & Hk & Hby' & [Hwf Ha Hcap Hpool]).
  pose proof (add_length_run bf (sv_mem s) (Z.of_nat (length data)) u Hwf) as Hadd.
  unfold room in *. rewrite decide_True in Hadd by done.
  destruct Hadd as (bf' & bs & Hrun & Hwf' & H1 & H2 & H3 & _ & Hbs & Hu'); [|done|].
  { pose proof Hwf as []. lia. }
  rewrite Hload in Hbs. injection Hbs as <-.
  set (p := set_tn_buffers (<[b := bf']> (tn_buffers (pool_read s))) (pool_read s)).
  assert (local_step bf (sv_mem s) bf' (sv_mem s)) as Hl by (by split).
  pose proof (rep_update rd _ _ _ b bf bf' (sv_mem s) (u ++ data) (room bf') Hp Hbf Hl Hu' eq_refl
    ltac:(by apply Forall_app)) as Hp'. fold p in Hp'.
  set (a := {| a_free := _; a_streams := _ |}) in Hp'.
  assert (on_buffer b (tn_buffer_add_length (Z.of_nat (length data))) (pool_read s, sv_mem s) =
    Some (TN_SUCCESS, (p, sv_mem s))) as Hon by (unfold on_buffer; simpl; by rewrite Hbf, Hrun).
  exists p, a, bf', u, (room bf'). split; [by apply on_read_pool_run|].
  destruct (inv_pool s o c ch b p (sv_mem s) a) as (Hi' & Hfr & Hot); try done.
  - intros j Hj. simpl. by rewrite list_lookup_insert_ne.
  - intros j Hj. simpl. by rewrite list_lookup_insert_ne.
  - split_and!; try done.
    + simpl. apply list_lookup_insert_eq. by eapply lookup_lt_Some.
    + by apply (pending_stream s o c ch b u k).
    + simpl. apply list_lookup_insert_eq. by eapply lookup_lt_Some.
Qed.

(** ** Publishing an event *)

Definition publish (f : list nat) (e : nat) (o : owners) : owners :=
  {| o_pool := o_pool o; o_free := f; o_ready := o_ready o ++ [e]; o_held := o_held o; o_channels := o_channels o |}.

Lemma event_bufs_app es l1 l2 : event_bufs es (l1 ++ l2) = event_bufs es l1 ++ event_bufs es l2.
Proof. apply omap_app. Qed.

Lemma event_bufs_insert es e ev l : e ∉ l → event_bufs (<[e := ev]> es) l = event_bufs es l.
Proof.
  intros He. unfold event_bufs. apply list_omap_ext. apply Forall2_same_length_lookup_2; [done|].
  intros i x y Hx Hy. simplify_eq. rewrite list_lookup_insert_ne; [done|].
  intros ->. apply He. by eapply list_elem_of_lookup_2.
Qed.

Lemma event_bufs_single es e ev : es !! e = Some ev → event_bufs es [e] = option_list (event_buf ev).
Proof. intros He. unfold event_bufs. cbn. rewrite He. cbn. by destruct (event_buf ev). Qed.

(** The first free event is not published. *)
Lemma front_event s o e f :
  read_inv rd s o → o_free o = e :: f →
  e ∉ o_ready o ++ o_held o ∧ e ∉ f ∧ (e < length (tn_events (events s)))%nat.
Proof.
  intros Hi Hf. pose proof (nodup_events s o Hi) as Hnd. rewrite Hf in Hnd.
  change (NoDup (e :: f ++ o_ready o ++ o_held o)) in Hnd. apply NoDup_cons in Hnd as [Hni _].
  assert (e ∈ seq 0 (length (tn_events (events s)))) as Hs.
  { rewrite <- (ri_places _ _ _ Hi), Hf. set_solver. }
  apply elem_of_seq in Hs. set_solver by lia.
Qed.

Lemma inv_publish s o e f l' ev' c ch ch' :
  read_inv rd s o → o_free o = e :: f → events_rep l' f (o_ready o ++ [e]) →
  tn_events l' = <[e := ev']> (tn_events (events s)) →
  client_map (channel_list s) !! c = Some ch → same_channel ch ch' →
  (c ∈ o_channels o → read_buffer ch' = NULL) →
  option_list (read_buffer ch') ++ option_list (event_buf ev') ≡ₚ option_list (read_buffer ch) →
  (ev_type ev' = TN_EVENT_CLIENT_READ →
     ∃ b bf, body ev' = BRead (Some (cur_ptr (pos bf))) (Some (cur_len (pos bf))) (Some (Some b)) ∧
       tn_buffers (pool_read s) !! b = Some bf) →
  (∀ x y z, body ev' = BRead x y z → ev_type ev' = TN_EVENT_CLIENT_READ) →
  read_inv rd (put_channel c ch' (set_events l' s)) (publish f e o).
Proof.
  intros Hi Hf Hev Htn Hc Hsc Hnull Hperm Hread Hback. destruct (front_event s o e f Hi Hf) as (Hni & _ & Hlt).
  pose proof Hi as []. pose proof Hsc as (Hid & Hpr & Hsv).
  assert (<[e := ev']> (tn_events (events s)) !! e = Some ev') as Hlk by (by apply list_lookup_insert_eq).
  split; simpl; rewrite ?Htn, ?length_insert; try done.
  - rewrite <- ri_places0, Hf. solve_Permutation.
  - apply (put_channel_rep s (o_channels o) c ch ch' ri_channels0 Hc Hid).
  - destruct (omap_insert_perm read_buffer (client_map (channel_list s)) c ch ch' Hc) as [H1 H2].
    rewrite <- ri_bufs0. unfold channel_bufs. rewrite H1, H2.
    rewrite !event_bufs_app, (event_bufs_single _ e ev' Hlk), !event_bufs_insert by set_solver.
    rewrite <- Hperm. solve_Permutation.
  - intros e' He'. destruct (decide (e' = e)) as [->|Hne].
    + exists ev'. simpl. rewrite Htn. done.
    + destruct (ri_ok0 e') as (ev & He & Hr & Hb); [set_solver|]. exists ev. simpl.
      rewrite Htn, list_lookup_insert_ne by done. done.
  - intros d x Hd Hx. destruct (decide (d = c)) as [->|Hne].
    + rewrite list_lookup_insert_eq in Hx by (by eapply lookup_lt_Some). injection Hx as <-. by apply Hnull.
    + rewrite list_lookup_insert_ne in Hx by done. by eapply ri_null0.
  - intros h d Hh. destruct (ri_handles0 h d Hh) as (Hnf & x & Hx & Hpx & Hsx). split; [done|].
    destruct (decide (d = c)) as [->|Hne].
    + exists ch'. rewrite list_lookup_insert_eq by (by eapply lookup_lt_Some). simplify_eq. by rewrite Hpr, Hsv.
    + exists x. by rewrite list_lookup_insert_ne.
Qed.

(** What the others see of it: nothing. *)
Lemma others_publish s o e f l' ev' c ch ch' :
  let s' := put_channel c ch' (set_events l' s) in
  read_inv rd s o → read_inv rd s' (publish f e o) → o_free o = e :: f →
  tn_events l' = <[e := ev']> (tn_events (events s)) → client_map (channel_list s) !! c = Some ch →
  others_same s o c s' (publish f e o).
Proof.
  intros s' Hi Hi' Hf Htn Hc. destruct (front_event s o e f Hi Hf) as (Hni & _ & Hlt). split.
  - intros e' He'. apply (note_kept s s' o (publish f e o)); try done; [set_solver|].
    simpl. rewrite Htn, list_lookup_insert_ne; [done|]. by intros ->.
  - intros d Hd. unfold pending. simpl. by rewrite list_lookup_insert_ne.
Qed.

Lemma frame_publish s c ch ch' l' :
  client_map (channel_list s) !! c = Some ch → (service ch = Some tt → service ch' = Some tt) →
  read_frame s (put_channel c ch' (set_events l' s)).
Proof.
  intros Hc Hs. pose proof (frame_put s c ch ch' (pool_read s) (sv_mem s) Hc Hs) as [].
  { done. } { done. } split; done.
Qed.

Lemma alter_is_insert {A} (f : A → A) (l : list A) i x : l !! i = Some x → alter f i l = <[i := f x]> l.
Proof.
  intros Hx. apply list_eq. intros j. pose proof (lookup_lt_Some _ _ _ Hx). destruct (decide (i = j)) as [<-|].
  - by rewrite list_lookup_alter, list_lookup_insert_eq, decide_True, Hx.
  - by rewrite list_lookup_alter_ne, list_lookup_insert_ne.
Qed.

(** An event taken from the free queue and being filled in. *)
Record filling s (o : owners) (e : nat) (f : list nat) (ev : tn_event_t) (l : tn_event_list_t) : Prop := {
  fi_rep : events_rep l f (o_ready o);
  fi_events : tn_events l = <[e := ev]> (tn_events (events s));
}.

Lemma on_events_run {A} (g : M tn_event_list_t A) s x l :
  g (events s) = Some (x, l) → on_events g s = Some (x, set_events l s).
Proof. intros H. unfold on_events, zoom. by rewrite H. Qed.

Lemma fill_start s o type b :
  read_inv rd s o →
  match o_free o with
  | [] => ∃ l, free_pop_as type b (events s) = Some ((TN_ERROR, NULL), l) ∧ silent s o (set_events l s)
  | e :: f => ∃ l ev0, free_pop_as type b (events s) = Some ((TN_SUCCESS, Some e), l) ∧
      filling s o e f (set_body b (set_ev_type type ev0)) l
  end.
Proof.
  intros Hi. destruct (free_pop_as_run _ type b _ _ (ri_events _ _ _ Hi)) as (l & Hrun & Hr & Hc & Htn).
  destruct (o_free o) as [|e f] eqn:Hf.
  - exists l. split; [done|]. pose proof Hi as []. split; simpl; try done.
    + split; simpl; rewrite ?Hf, ?Htn; try done.
      * by rewrite Hf in ri_places0.
      * intros e He. destruct (ri_ok0 e He) as (ev & ? & ? & ?). exists ev. simpl. by rewrite Htn.
    + split; try done. eauto.
    + intros e _. unfold event_note. simpl. by rewrite Htn.
  - destruct (front_event s o e f Hi Hf) as (_ & _ & Hlt). destruct (lookup_lt_is_Some_2 _ _ Hlt) as [ev0 Hev0].
    exists l, ev0. split; [done|]. split; [done|]. rewrite Htn. by rewrite (alter_is_insert _ _ _ ev0).
Qed.

Lemma fill_update s o e f ev l g :
  read_inv rd s o → o_free o = e :: f → filling s o e f ev l →
  ∃ l', update_event e g l = Some (tt, l') ∧ filling s o e f (g ev) l'.
Proof.
  intros Hi Hf [Hr Htn]. destruct (front_event s o e f Hi Hf) as (_ & _ & Hlt).
  assert (tn_events l !! e = Some ev) as He by (rewrite Htn; by apply list_lookup_insert_eq).
  eexists. split; [unfold update_event; mrun; by rewrite He|]. split; simpl.
  - destruct Hr. split; simpl; rewrite ?length_insert; done.
  - by rewrite Htn, list_insert_insert_eq.
Qed.

Lemma fill_push s o e f ev l :
  read_inv rd s o → o_free o = e :: f → filling s o e f ev l →
  ∃ l', tn_event_list_ready_push e l = Some (TN_SUCCESS, l') ∧
    events_rep l' f (o_ready o ++ [e]) ∧ tn_events l' = <[e := ev]> (tn_events (events s)).
Proof.
  intros Hi Hf [Hr Htn]. destruct (front_event s o e f Hi Hf) as (Hni & Hnf & Hlt).
  destruct (ready_push_run l f (o_ready o) e Hr) as (l' & Hrun & Hr' & _ & Htn').
  { split; [by rewrite Htn, length_insert|set_solver]. }
  exists l'. by rewrite Htn'.
Qed.

Lemma silent_stats s o x : read_inv rd s o → silent s o (set_stats x s).
Proof.
  intros Hi. pose proof Hi as []. split; try done; split; try done; eauto.
Qed.

(** How the state looks after bytes arrived on the channel [c]. *)
Definition received (c : nat) (data : list Z) s (o : owners) s' (o' : owners) : Prop :=
  read_inv rd s' o' ∧ read_frame s s' ∧ others_same s o c s' o' ∧ o_held o' = o_held o ∧
  o_channels o' = o_channels o ∧ uv s' = uv s ∧
  event_updates s' = event_updates s ∧ event_updates_count s' = event_updates_count s ∧
  ∃ u, pending s c = Some u ∧
    match o_free o with
    | [] => o_free o' = [] ∧ o_ready o' = o_ready o ∧ pending s' c = Some (u ++ data)
    | e :: f => o_free o' = f ∧ o_ready o' = o_ready o ++ [e] ∧ pending s' c = Some [] ∧
        event_note s' e = Some (NRead (Z.of_nat c) (u ++ data))
    end.

(** The read event: it takes the buffer of the channel over. *)
Lemma publish_read s o h c ch b bf u k e f :
  read_inv rd s o → connected s h c → client_map (channel_list s) !! c = Some ch → read_buffer ch = Some b →
  tn_buffers (pool_read s) !! b = Some bf → a_streams (o_pool o) !! b = Some (u, k) → o_free o = e :: f →
  ∃ s', (r ← on_events tn_event_list_free_pop_read;
         if negb (r.1 =? 0) then recv_cleanup h c TN_RECV_EVTPOP false
         else
           evt ← lift r.2;
           p ← on_read_pool (on_buffer b tn_buffer_read_ptr);
           l ← on_read_pool (on_buffer b tn_buffer_read_length);
           on_events (update_event evt (λ e, set_body (BRead (Some p) (Some l) (Some (Some b)))
                                                      (set_client_id (ch_id ch) e)));;
           TN_GUARD_CLEANUP [recv_cleanup h c TN_RECV_EVTPUSH false]
             on_events (tn_event_list_ready_push evt) THEN
           on_channels (update_channel c (set_read_buffer NULL))) s = Some (tt, s') ∧
    read_inv rd s' (publish f e o) ∧ read_frame s s' ∧ others_same s o c s' (publish f e o) ∧ uv s' = uv s ∧
    event_updates s' = event_updates s ∧ event_updates_count s' = event_updates_count s ∧
    pending s' c = Some [] ∧ event_note s' e = Some (NRead (Z.of_nat c) u).
Proof.
  intros Hi Hh Hc Hb Hbf Hst Hf. pose proof (fill_start s o TN_EVENT_CLIENT_READ (BRead None None (Some NULL)) Hi) as Hstart.
  rewrite Hf in Hstart. destruct Hstart as (l & ev0 & Hrun & Hfill). bstep (on_events_run _ s _ _ Hrun).
  bstep (on_read_buffer_gets (λ x, cur_ptr (pos x.1)) (set_events l s) b bf Hbf).
  bstep (on_read_buffer_gets (λ x, cur_len (pos x.1)) (set_events l s) b bf Hbf). simpl fst.
  set (g := λ ev, set_body (BRead (Some (cur_ptr (pos bf))) (Some (cur_len (pos bf))) (Some (Some b)))
                    (set_client_id (ch_id ch) ev)).
  destruct (fill_update s o e f _ l g Hi Hf Hfill) as (l1 & Hup & Hfill1).
  bstep (on_events_run _ (set_events l s) _ _ Hup).
  destruct (fill_push s o e f _ l1 Hi Hf Hfill1) as (l2 & Hpush & Hr2 & Htn2).
  bstep (on_events_run _ (set_events l1 (set_events l s)) _ _ Hpush).
  rewrite (on_update_run _ c (set_read_buffer NULL) ch) by done.
  set (ev := g _) in Htn2. set (s' := put_channel c (set_read_buffer NULL ch) (set_events l2 s)).
  assert (read_inv rd s' (publish f e o)) as Hi'.
  { apply (inv_publish s o e f l2 ev c ch); try done; [by rewrite Hb|]. intros _. by exists b, bf. }
  exists s'. split; [done|]. split; [done|]. split; [by apply (frame_publish s c ch)|].
  split; [by apply (others_publish s o e f l2 ev c ch)|]. split_and!; try done.
  - unfold pending, s'. simpl. by rewrite list_lookup_insert_eq by (by eapply lookup_lt_Some).
  - replace (Z.of_nat c) with (client_id ev) by (simpl; by eapply cr_ids, Hc; apply Hi).
    destruct (front_event s o e f Hi Hf) as (_ & _ & Hlt).
    apply (note_stream s' (publish f e o) e ev b u k); try done; [simpl; set_solver|].
    simpl. rewrite Htn2. by apply list_lookup_insert_eq.
Qed.

Lemma uv_eq (u v : uv_loop) :
  uv_data u = uv_data v → uv_closing u = uv_closing v → uv_writes u = uv_writes v → u = v.
Proof. destruct u, v. simpl. congruence. Qed.

Lemma recv_bytes_run s o h c b bf data :
  read_inv rd s o → connected s h c → recv_area s c b bf → data ≠ [] → Forall is_byte data →
  Z.of_nat (length data) ≤ room bf →
  mem_load (sv_mem s) (buf_buffer (buf bf) + buf_len (buf bf)) (Z.of_nat (length data)) = Some data →
  ∃ s' o', on_recv_cb h (Z.of_nat (length data)) true s = Some (tt, s') ∧ received c data s o s' o'.
Proof.
  intros Hi Hh [(ch & Hc & Hb) Hbf] Hne Hby Hfit Hload.
  destruct (ri_handles _ _ _ Hi h c Hh) as (Hni & ch' & Hc' & _ & Hsv). simplify_eq.
  assert (0 < Z.of_nat (length data)) by (destruct data; [done|simpl; lia]).
  unfold on_recv_cb. rewrite M_get, Hh, M_lift, M_lift. bstep (get_channel_run' c s ch Hc).
  rewrite (proj2 (Z.ltb_ge _ 0)), (proj2 (Z.eqb_neq _ 0)) by lia.
  cbn [orb]. unfold modify_stats. rewrite M_modify. set (s0 := set_stats _ s). rewrite Hb, M_lift.
  pose proof (silent_stats s o _ Hi : silent s o s0) as [Hi0 Hfr0 _ _ _ _ _].
  destruct (add_run s0 o c ch b bf data Hi0) as (p & a & bf' & u & k & Hadd & Hi1 & Hfr1 & [Hn1 Hp1] & Hbf1 & Hpend & Hst & Haf);
    try done.
  bstep Hadd. set (s1 := set_read_side p (sv_mem s0) s0) in *. rewrite Hsv, M_lift.
  pose proof (read_frame_trans _ _ _ Hfr0 Hfr1) as Hfr.
  destruct (o_free o) as [|e f] eqn:Hf.
  - pose proof (fill_start s1 (set_pool a o) TN_EVENT_CLIENT_READ (BRead None None (Some NULL)) Hi1) as Hs.
    simpl in Hs. rewrite Hf in Hs. destruct Hs as (l & Hpop & Hsil). bstep (on_events_run _ s1 _ _ Hpop).
    destruct (recv_cleanup_run (set_events l s1) (set_pool a o) h c TN_RECV_EVTPOP false) as (s2 & Hrun & Hsil2 & Hcl);
      [apply Hsil|done|].
    pose proof (silent_trans _ _ _ _ Hsil Hsil2) as []. exists s2, (set_pool a o). split; [done|].
    assert (uv s2 = uv s) as Huv by (apply uv_eq; [done|by rewrite Hcl, app_nil_r|apply si_frame0]).
    split; [done|]. split; [by eapply read_frame_trans|]. split.
    { split; [intros e He; rewrite si_notes0 by done; by apply Hn1|].
      intros d Hd. rewrite si_pending0. by apply Hp1. }
    destruct si_updates0. split_and!; try done. exists u. split; [done|]. rewrite Hf. split_and!; try done.
    rewrite si_pending0. apply (pending_stream s1 (set_pool a o) c ch b _ k); done.
  - destruct (publish_read s1 (set_pool a o) h c ch b bf' (u ++ data) k e f) as
      (s2 & Hrun & Hi2 & Hfr2 & [Hn2 Hp2] & Huv2 & Hu1 & Hu2 & Hpd2 & Hnote); try done.
    exists s2, (publish f e (set_pool a o)). split; [exact Hrun|].
    split; [done|]. split; [by eapply read_frame_trans|]. split.
    { split; [intros e' He; rewrite Hn2 by done; by apply Hn1|].
      intros d Hd. rewrite Hp2 by done. by apply Hp1. }
    split_and!; try done. exists u. split; [done|]. by rewrite Hf.
Qed.

(** ** One round of libuv's read loop *)

(** Nothing is published or lost; the pool may have given the channel a buffer. *)
Record unseen s (o : owners) s' (o' : owners) : Prop := {
  un_inv : read_inv rd s' o';
  un_frame : read_frame s s';
  un_pool : ∃ a, o' = set_pool a o;
  un_notes : ∀ e, e ∈ o_ready o ++ o_held o → event_note s' e = event_note s e;
  un_pending : ∀ d, pending s' d = pending s d;
  un_data : uv_data (uv s') = uv_data (uv s);
  un_updates : event_updates s' = event_updates s ∧ event_updates_count s' = event_updates_count s;
}.

Lemma unseen_silent s o s1 o1 s2 : unseen s o s1 o1 → silent s1 o1 s2 → unseen s o s2 o1.
Proof.
  intros [? ? [a ->] ? ? ? []] [? ? ? ? ? ? []]. split; try done.
  - by eapply read_frame_trans.
  - by exists a.
  - intros e He. rewrite si_notes0 by done. by apply un_notes0.
  - intros d. by rewrite si_pending0.
  - congruence.
  - split; congruence.
Qed.

Lemma alloc_unseen s o h c :
  read_inv rd s o → connected s h c →
  ∃ s' o' r, on_recv_alloc_cb h s = Some (r, s') ∧ unseen s o s' o' ∧ uv s' = uv s ∧ sv_mem s' = sv_mem s ∧
    (r = (0, 0) ∨ ∃ b bf, recv_area s' c b bf ∧ r = (buf_buffer (buf bf) + buf_len (buf bf), room bf)).
Proof.
  intros Hi Hh. destruct (ri_handles _ _ _ Hi h c Hh) as (Hni & ch & Hc & _ & Hsv).
  unfold on_recv_alloc_cb. rewrite M_get, Hh, M_lift, M_lift. bstep (get_channel_run' c s ch Hc).
  rewrite Hsv, M_lift. destruct (read_buffer ch) as [b|] eqn:Hb.
  - rewrite M_left_id. simpl. destruct (channel_buffer_out s o c ch b Hi Hc Hb) as (Hlt & _).
    destruct (lookup_lt_is_Some_2 _ _ Hlt) as [bf Hbf].
    assert (recv_area s c b bf) as Harea by (split; eauto).
    rewrite (area_answer s o c b bf Hi Harea). eexists s, o, _. split; [reflexivity|].
    split; [split; try done; [apply read_frame_refl|exists (o_pool o); by destruct o]|]. split_and!; eauto.
  - destruct (take_buffer s o c ch Hi Hc Hb Hni) as (r & p & a & Hpop & Hi' & Hfr & [Hn Hp] & Hpend & Hcase).
    rewrite M_assoc. bstep (on_read_pool_run _ s _ _ _ Hpop).
    rewrite M_assoc. bstep (on_update_run (set_read_side p (sv_mem s) s) c (set_read_buffer r.2) ch Hc).
    set (s' := put_channel c (set_read_buffer r.2 ch) (set_read_side p (sv_mem s) s)) in *.
    assert (unseen s o s' (set_pool a o)) as Hun.
    { split; try done; [by exists a|]. intros d. destruct (decide (d = c)) as [->|]; [|by apply Hp].
      rewrite Hpend. unfold pending. rewrite Hc. simpl. by rewrite Hb. }
    destruct Hcase as [->|(b & bf & -> & Hbf)].
    + eexists s', _, _. split; [reflexivity|]. split_and!; try done; eauto.
    + assert (recv_area s' c b bf) as Harea.
      { split; [|done]. eexists. split; [apply list_lookup_insert_eq; by eapply lookup_lt_Some|done]. }
      simpl. rewrite (area_answer s' _ c b bf Hi' Harea). eexists s', _, _. split; [reflexivity|].
      split_and!; try done; eauto.
Qed.

Lemma received_unseen s o s1 o1 c data s2 o2 :
  unseen s o s1 o1 → uv s1 = uv s → received c data s1 o1 s2 o2 → received c data s o s2 o2.
Proof.
  intros [? ? [a ->] Hn Hp ? []] Huv (Hi & Hfr & [Hn2 Hp2] & ? & ? & ? & ? & ? & u & Hu & Hcase).
  split; [done|]. split; [by eapply read_frame_trans|]. split.
  { split; [intros e He; rewrite Hn2 by done; by apply Hn|]. intros d Hd. rewrite Hp2 by done. apply Hp. }
  split_and!; try (done || congruence). exists u. split; [by rewrite <- Hp|]. done.
Qed.

(** The answers libuv may hand on. *)
Definition answer_ok (x : read_answer) : Prop :=
  match x with
  | ReadBytes bs => bs ≠ [] ∧ Forall is_byte bs
  | ReadError err => err < 0
  | _ => True
  end.

(** The bytes the kernel hands over in a round: no more than the buffer takes. *)
Definition kernel_data s (h : nat) (answer : read_answer) : list Z :=
  match answer, on_recv_alloc_cb h s with
  | ReadBytes bs, Some (r, _) => take (Z.to_nat r.2) bs
  | _, _ => []
  end.

Lemma uv_read_run s o h c answer :
  read_inv rd s o → connected s h c → answer_ok answer →
  ∃ s' o', uv__read h answer s = Some (tt, s') ∧
    (kernel_data s h answer ≠ [] ∧ received c (kernel_data s h answer) s o s' o' ∨
     kernel_data s h answer = [] ∧ unseen s o s' o' ∧
     (uv_closing (uv s') = uv_closing (uv s) ∨ uv_closing (uv s') = uv_closing (uv s) ++ [(h, CbChannel)])).
Proof.
  intros Hi Hh Hans. destruct (alloc_unseen s o h c Hi Hh) as (s1 & o1 & r & Hal & Hun & Huv & Hmem & Hr).
  unfold uv__read, kernel_data. rewrite Hal. bstep Hal. pose proof (un_inv _ _ _ _ Hun) as Hi1.
  assert (connected s1 h c) as Hh1 by (unfold connected; by rewrite Huv).
  destruct (ri_handles _ _ _ Hi1 h c Hh1) as (Hni & ch & Hc & _ & _).
  assert (∀ err, err < 0 → ∃ s' o', on_recv_cb h err true s1 = Some (tt, s') ∧ unseen s o s' o' ∧
     (uv_closing (uv s') = uv_closing (uv s) ∨ uv_closing (uv s') = uv_closing (uv s) ++ [(h, CbChannel)])) as Herr.
  { intros err He. destruct (recv_cleanup_run s1 o1 h c err true Hi1 Hh1) as (s2 & Hrun & Hsil & Hcl).
    exists s2, o1. split; [|split; [by eapply unseen_silent|]].
    - unfold on_recv_cb. rewrite M_get, Hh1, M_lift, M_lift. bstep (get_channel_run' c s1 ch Hc).
      by rewrite (proj2 (Z.ltb_lt _ 0)) by lia.
    - rewrite Hcl, Huv. cbn [andb]. destruct (uv_is_closing h (uv s)); cbn [negb]; [left; by rewrite app_nil_r|by right]. }
  destruct Hr as [->|(b & bf & Harea & ->)].
  { destruct (Herr UV_ENOBUFS ltac:(done)) as (s' & o' & ? & ?). exists s', o'. simpl. destruct answer; auto. }
  simpl. destruct Harea as [(ch' & Hc' & Hb) Hbf]. rewrite Hc in Hc'. injection Hc' as <-.
  destruct (rep_lookup rd _ _ _ b bf (ri_pool _ _ _ Hi1) Hbf) as (_ & _ & _ & _ & _ & _ & [[] _ _ _]).
  rewrite (proj2 (Z.eqb_neq (_ + _) 0)) by lia. simpl. destruct (Z.eqb_spec (room bf) 0) as [|Hroom].
  { destruct (Herr UV_ENOBUFS ltac:(done)) as (s' & o' & ? & ?). exists s', o'.
    replace (room bf) with 0 by done. destruct answer; auto. }
  destruct answer as [bs| | |err].
  - destruct Hans as [Hne Hby]. set (data := take (Z.to_nat (room bf)) bs).
    assert (0 < room bf) by (unfold room in *; lia).
    assert (Z.of_nat (length data) ≤ room bf) as Hfit by (unfold data; rewrite length_take; lia).
    assert (data ≠ []) as Hdn.
    { unfold data. destruct bs; [done|]. destruct (Z.to_nat (room bf)) eqn:Hz; [lia|done]. }
    destruct (kernel_run s1 o1 c b bf data Hi1) as (m & Hst & Hld & Hsil); try done; [split; eauto|].
    rewrite M_get, Hst, M_lift, M_put. set (s2 := set_read_side (pool_read s1) m s1) in *.
    destruct (recv_bytes_run s2 o1 h c b bf data) as (s3 & o3 & Hrun & Hrec); try done.
    + apply Hsil.
    + split; eauto.
    + by apply Forall_take.
    + exists s3, o3. split; [done|]. left. split; [done|].
      apply (received_unseen s o s2 o1); [by eapply unseen_silent|done|done].
  - destruct (recv_cleanup_run s1 o1 h c TN_RECV_ERROR false Hi1 Hh1) as (s2 & Hrun & Hsil & Hcl).
    exists s2, o1. split.
    + unfold on_recv_cb. rewrite M_get, Hh1, M_lift, M_lift. by bstep (get_channel_run' c s1 ch Hc).
    + right. split; [done|]. split; [by eapply unseen_silent|]. left. by rewrite Hcl, Huv, app_nil_r.
  - destruct (Herr UV_EOF ltac:(done)) as (s' & o' & ? & ?). exists s', o'. auto.
  - destruct (Herr err Hans) as (s' & o' & ? & ?). exists s', o'. auto.
Qed.

(** ** Closed handles *)

Definition set_free_channels (l : list nat) (o : owners) : owners :=
  {| o_pool := o_pool o; o_free := o_free o; o_ready := o_ready o; o_held := o_held o; o_channels := l |}.

(** The memory of a handle goes, together with its claim on a channel. *)
Lemma inv_release s o h :
  read_inv rd s o → h ∉ (uv_closing (uv s)).*1 → read_inv rd (set_uv (uv_release h (uv s)) s) o.
Proof.
  intros [] Hn.
  assert (∀ h' cb, (h', cb) ∈ uv_closing (uv s) → h' ≠ h) as Hne.
  { intros h' cb Hin ->. apply Hn. apply list_elem_of_fmap. by exists (h, cb). }
  split; simpl; try done.
  - intros h' c Hh. unfold connected in Hh. simpl in Hh. apply lookup_delete_Some in Hh as [_ Hh].
    by apply ri_handles0.
  - intros h' Hin. destruct (ri_closing0 h' Hin) as [c Hc]. exists c. unfold connected. simpl.
    rewrite lookup_delete_ne; [done|]. intros ->. by apply (Hne h' CbChannel).
  - intros h' Hin. simpl. rewrite lookup_delete_ne; [by apply ri_closing_raw0|].
    intros ->. by apply (Hne h' CbHandle).
Qed.

(** A channel no handle points to becomes free. *)
Lemma inv_free_channel s o c ch l :
  read_inv rd s o → client_map (channel_list s) !! c = Some ch → read_buffer ch = NULL →
  (∀ h, ¬ connected s h c) → channels_rep l (o_channels o ++ [c]) →
  client_map l = client_map (channel_list s) →
  read_inv rd (set_channel_list l s) (set_free_channels (o_channels o ++ [c]) o).
Proof.
  intros [] Hc Hb Hno Hl Hmap. split; simpl; rewrite ?Hmap; try done.
  - intros d x [Hd|Hd%list_elem_of_singleton]%elem_of_app Hx; [by eapply ri_null0|]. by simplify_eq.
  - intros h d Hh. destruct (ri_handles0 h d Hh) as (Hni & x & Hx). split; [|by exists x].
    intros [Hd|Hd%list_elem_of_singleton]%elem_of_app; [done|]. subst d. by apply (Hno h).
Qed.

(** The buffer of a closed channel goes back to the pool. *)
Lemma return_buffer s o c ch :
  read_inv rd s o → client_map (channel_list s) !! c = Some ch →
  ∃ s' a, (match read_buffer ch with
           | Some b =>
               on_read_pool (tn_buffer_pool_push b);;
               on_channels (update_channel c (set_read_buffer NULL))
           | None => mret tt
           end) s = Some (tt, s') ∧
    read_inv rd s' (set_pool a o) ∧ read_frame s s' ∧ others_same s o c s' (set_pool a o) ∧
    client_map (channel_list s') !! c = Some (set_read_buffer NULL ch) ∧ uv s' = uv s ∧
    event_updates s' = event_updates s ∧ event_updates_count s' = event_updates_count s.
Proof.
  intros Hi Hc. destruct (read_buffer ch) as [b|] eqn:Hb.
  - destruct (channel_buffer_out s o c ch b Hi Hc Hb) as (Hlt & Hnf & _). pose proof Hi as [].
    destruct (pool_push_run rd _ _ (o_pool o) b ri_pool0 Hlt Hnf) as (p & Hpush & Hg & Hbufs & Hp).
    bstep (on_read_pool_run _ s _ _ _ Hpush).
    rewrite (on_update_run (set_read_side p (sv_mem s) s) c (set_read_buffer NULL) ch) by done.
    set (a := {| a_free := _; a_streams := _ |}) in Hp. eexists _, a. split; [reflexivity|].
    assert (read_inv rd (put_channel c (set_read_buffer NULL ch) (set_read_side p (sv_mem s) s)) (set_pool a o)) as Hi'.
    { apply (inv_put s o c ch); try done; [by rewrite Hbufs|intros; by rewrite Hbufs|]. simpl. by rewrite Hb, app_nil_r. }
    split_and!; try done; [by apply (frame_put s c ch)|by apply (others_put s o c ch)|].
    simpl. apply list_lookup_insert_eq. by eapply lookup_lt_Some.
  - exists s, (o_pool o). replace (set_pool (o_pool o) o) with o by (by destruct o).
    split_and!; try done; [apply read_frame_refl|]. rewrite Hc. f_equal. destruct ch. simpl in *. by subst.
Qed.

(** What a closed channel leaves: its buffer is back, its handle gone; with a free event
    the main thread is told and the channel is free again. *)
Record closed s (o : owners) (h c : nat) s' (o' : owners) : Prop := {
  cl_inv : read_inv rd s' o';
  cl_frame : read_frame s s';
  cl_others : others_same s o c s' o';
  cl_data : uv_data (uv s') = delete h (uv_data (uv s));
  cl_closing : uv_closing (uv s') = uv_closing (uv s);
  cl_held : o_held o' = o_held o;
  cl_updates : event_updates s' = event_updates s ∧ event_updates_count s' = event_updates_count s;
  cl_event : match o_free o with
    | [] => o_ready o' = o_ready o ∧ o_channels o' = o_channels o
    | e :: f => o_ready o' = o_ready o ++ [e] ∧ o_channels o' = o_channels o ++ [c] ∧
        event_note s' e = Some (NClose (Z.of_nat c))
    end;
}.

(** The close event and the release of the channel. *)
Lemma publish_close s o h c ch e f :
  read_inv rd s o → connected s h c → client_map (channel_list s) !! c = Some ch → read_buffer ch = NULL →
  o_free o = e :: f → h ∉ (uv_closing (uv s)).*1 →
  ∃ l l2, (∀ A (k : M tcp_service_t A),
      (r ← on_events tn_event_list_free_pop_close;
       (if negb (r.1 =? 0) then mret tt
        else
          evt_close ← lift r.2;
          on_events (update_event evt_close (λ e, set_body (BClose (Some NULL) (Some 0)) (set_client_id (ch_id ch) e)));;
          on_events (tn_event_list_ready_push evt_close);;
          on_channels (tcp_channel_list_close c);;
          mret tt);; k) s = k (set_channel_list l2 (set_events l s))) ∧
    let s' := set_uv (uv_release h (uv s)) (set_channel_list l2 (set_events l s)) in
    let o' := set_free_channels (o_channels o ++ [c]) (publish f e o) in
    read_inv rd s' o' ∧ read_frame s s' ∧ others_same s o c s' o' ∧
    event_note s' e = Some (NClose (Z.of_nat c)).
Proof.
  intros Hi Hh Hc Hb Hf Hcl. destruct (ri_handles _ _ _ Hi h c Hh) as (Hni & ch' & Hc' & Hpr & _).
  rewrite Hc in Hc'. injection Hc' as <-.
  pose proof (fill_start s o TN_EVENT_CLIENT_CLOSE (BClose (Some NULL) None) Hi) as Hstart.
  rewrite Hf in Hstart. destruct Hstart as (l0 & ev0 & Hrun & Hfill).
  set (g := λ ev, set_body (BClose (Some NULL) (Some 0)) (set_client_id (ch_id ch) ev)).
  destruct (fill_update s o e f _ l0 g Hi Hf Hfill) as (l1 & Hup & Hfill1).
  destruct (fill_push s o e f _ l1 Hi Hf Hfill1) as (l & Hpush & Hr & Htn). set (ev := g _) in Htn.
  destruct (list_close_run (channel_list s) (o_channels o) c (ri_channels _ _ _ Hi)) as (l2 & Hclose & Hl2 & Hmap & _);
    [by eapply lookup_lt_Some|done|].
  exists l, l2. split.
  { intros A k. bstep (on_events_run _ s _ _ Hrun). rewrite M_assoc, M_lift, M_assoc.
    bstep (on_events_run _ (set_events l0 s) _ _ Hup). rewrite M_assoc.
    bstep (on_events_run _ (set_events l1 (set_events l0 s)) _ _ Hpush). rewrite M_assoc.
    unfold on_channels. zstep Hclose (set_events l (set_events l1 (set_events l0 s))). done. }
  set (s1 := set_uv (uv_release h (uv s)) (put_channel c ch (set_events l s))).
  assert (read_inv rd (put_channel c ch (set_events l s)) (publish f e o)) as Hi1.
  { apply (inv_publish s o e f l ev c ch); try done. simpl. by rewrite app_nil_r. }
  assert (read_inv rd s1 (publish f e o)) as Hi2
    by (by apply (inv_release (put_channel c ch (set_events l s)))).
  destruct (others_publish s o e f l ev c ch ch Hi Hi1 Hf Htn Hc) as [Hn Hp].
  destruct (front_event s o e f Hi Hf) as (_ & _ & Hlt).
  assert (∀ h', ¬ connected s1 h' c) as Hno.
  { intros h' Hh'. unfold connected in Hh'. simpl in Hh'. apply lookup_delete_Some in Hh' as [Hne Hh'].
    destruct (ri_handles _ _ _ Hi h' c Hh') as (_ & x & Hx & Hpx & _). congruence. }
  assert (client_map (channel_list s1) = client_map (channel_list s)) as Hmap1.
  { unfold s1. simpl. by apply list_insert_id. }
  pose proof (inv_free_channel s1 (publish f e o) c ch l2 Hi2 ltac:(by rewrite Hmap1) Hb Hno Hl2
    ltac:(by rewrite Hmap1)) as Hi3. split; [exact Hi3|]. split; [|split].
  - split; try done. intros d x Hx Hs. simpl. rewrite Hmap. eauto.
  - split; [exact Hn|]. intros d Hd. rewrite <- (Hp d Hd). unfold pending. simpl. rewrite Hmap.
    by rewrite list_insert_id.
  - unfold event_note. simpl. rewrite Htn, list_lookup_insert_eq by done. simpl.
    by rewrite (cr_ids _ _ (ri_channels _ _ _ Hi) c ch Hc).
Qed.

Lemma close_channel_run s o h c :
  read_inv rd s o → connected s h c → h ∉ (uv_closing (uv s)).*1 →
  ∃ s' o', on_close_channel_cb h s = Some (tt, s') ∧ closed s o h c s' o'.
Proof.
  intros Hi Hh Hcl. destruct (ri_handles _ _ _ Hi h c Hh) as (Hni & ch & Hc & Hpr & Hsv).
  unfold on_close_channel_cb. rewrite M_get, Hh, M_lift, M_lift.
  bstep (on_update_run s c (set_ch_state TCP_CHANNEL_CLOSED) ch Hc).
  set (ch1 := set_ch_state TCP_CHANNEL_CLOSED ch). set (s1 := put_channel c ch1 s).
  assert (silent s o s1) as [Hi1 Hfr1 _ Hn1 Hp1 _ _] by (by apply (silent_put s o c ch)).
  assert (client_map (channel_list s1) !! c = Some ch1) as Hc1.
  { apply list_lookup_insert_eq. by eapply lookup_lt_Some. }
  bstep (get_channel_run' c s1 ch1 Hc1). change (service ch1) with (service ch). rewrite Hsv, M_lift.
  destruct (return_buffer s1 o c ch1 Hi1 Hc1) as (s2 & a & Hret & Hi2 & Hfr2 & [Hn2 Hp2] & Hc2 & Huv2 & Hu2 & Hu2').
  bstep Hret. pose proof (read_frame_trans _ _ _ Hfr1 Hfr2) as Hfr.
  assert (connected s2 h c) as Hh2 by (unfold connected; by rewrite Huv2).
  assert (h ∉ (uv_closing (uv s2)).*1) as Hcl2 by (by rewrite Huv2).
  destruct (o_free o) as [|e f] eqn:Hf.
  - pose proof (fill_start s2 (set_pool a o) TN_EVENT_CLIENT_CLOSE (BClose (Some NULL) None) Hi2) as Hs.
    simpl in Hs. rewrite Hf in Hs. destruct Hs as (l & Hpop & [Hi3 Hfr3 _ Hn3 Hp3 _ _]).
    bstep (on_events_run _ s2 _ _ Hpop).
    eexists _, (set_pool a o). split; [reflexivity|].
    split; rewrite ?Hf; try done; [by apply inv_release|..]; simpl; rewrite ?Huv2; try done.
    + eapply read_frame_trans; [exact Hfr|]. eapply read_frame_trans; [exact Hfr3|].
      split; simpl; rewrite ?Huv2; try done; eauto.
    + split.
      * intros e He. etrans; [by apply Hn3|]. etrans; [by apply Hn2|]. by apply Hn1.
      * intros d Hd. etrans; [by apply Hp3|]. etrans; [by apply Hp2|]. by apply Hp1.
  - destruct (publish_close s2 (set_pool a o) h c (set_read_buffer NULL ch1) e f) as
      (l & l2 & Hrun & Hi3 & Hfr3 & [Hn3 Hp3] & Hnote); try done.
    change (ch_id (set_read_buffer NULL ch1)) with (ch_id ch1) in Hrun. rewrite Hrun.
    eexists _, _. split; [reflexivity|].
    split; [exact Hi3|by eapply read_frame_trans| |..].
    + split.
      * intros e' He. etrans; [by apply Hn3|]. etrans; [by apply Hn2|]. by apply Hn1.
      * intros d Hd. etrans; [by apply Hp3|]. etrans; [by apply Hp2|]. by apply Hp1.
    + simpl. by rewrite Huv2.
    + simpl. by rewrite Huv2.
    + done.
    + done.
    + by rewrite Hf.
Qed.

(** ** New connections *)

Lemma connection_fail_run s o h c :
  read_inv rd s o → connected s h c → h ∉ (uv_closing (uv s)).*1 →
  ∃ s', connection_cleanup (Some h) (Some c) true s = Some (tt, s') ∧ silent s o s' ∧
    uv_closing (uv s') = uv_closing (uv s) ++ [(h, CbChannel)].
Proof.
  intros Hi Hh Hcl. destruct (ri_handles _ _ _ Hi h c Hh) as (Hni & ch & Hc & Hpr & Hsv).
  unfold connection_cleanup. bstep (on_update_run s c (set_ch_state TCP_CHANNEL_CLOSING) ch Hc).
  set (s1 := put_channel _ _ s).
  assert (silent s o s1) as Hs1 by (by apply (silent_put s o c ch)).
  eexists. split; [reflexivity|]. split; [|done]. apply (silent_trans _ _ s1); [done|].
  split; try done; [|by apply frame_uv]. apply (inv_uv_close s1 o h c); [apply Hs1|done|].
  by apply bool_decide_eq_false.
Qed.

Definition is_ip (sa : sockaddr) : bool := match sa with SockAddr _ => false | _ => true end.

Lemma convert_run sa e :
  ∃ e', tn_endpoint_convert_from (Some sa) e = Some (if is_ip sa then TN_SUCCESS else TN_ERROR, e') ∧
    (is_ip sa = true → ep_sockaddr e' = sa).
Proof. destruct sa; by eexists. Qed.

(** What the system has to answer for the connection to be announced. *)
Definition answers_ok (env : accept_env) : bool :=
  ((ae_getpeername env).1 =? 0) && is_ip (ae_getpeername env).2 &&
  ((ae_getsockname env).1 =? 0) && is_ip (ae_getsockname env).2.

(** The channel [c] of the new handle [h] is announced, or its closing is under way. *)
Record announced s (o : owners) (env : accept_env) (h c : nat) s' (o' : owners) : Prop := {
  an_inv : read_inv rd s' o';
  an_frame : read_frame s s';
  an_notes : ∀ e, e ∈ o_ready o ++ o_held o → event_note s' e = event_note s e;
  an_pending : ∀ d, pending s' d = pending s d;
  an_data : uv_data (uv s') = uv_data (uv s);
  an_owners : o_held o' = o_held o ∧ o_channels o' = o_channels o;
  an_updates : event_updates s' = event_updates s ∧ event_updates_count s' = event_updates_count s;
  an_event : match o_free o with
    | e :: f =>
        if answers_ok env
        then o_ready o' = o_ready o ++ [e] ∧ (∃ l r, event_note s' e = Some (NOpen (Z.of_nat c) l r)) ∧
          uv_closing (uv s') = uv_closing (uv s) ++ (if ae_read_start env =? 0 then [] else [(h, CbChannel)])
        else o_ready o' = o_ready o ∧ uv_closing (uv s') = uv_closing (uv s) ++ [(h, CbChannel)]
    | [] => o_ready o' = o_ready o ∧ uv_closing (uv s') = uv_closing (uv s) ++ [(h, CbChannel)]
    end;
}.

(** A connection that fails before it is announced. *)
Lemma announced_fail s o env h c s1 :
  silent s o s1 → connected s h c → uv s1 = uv s → h ∉ (uv_closing (uv s)).*1 →
  (answers_ok env = false ∨ o_free o = []) →
  ∃ s' o', connection_cleanup (Some h) (Some c) true s1 = Some (tt, s') ∧ announced s o env h c s' o'.
Proof.
  intros Hs1 Hh Huv Hcl Hwhy.
  destruct (connection_fail_run s1 o h c) as (s2 & Hrun & Hs2 & Hcl2);
    [apply Hs1|unfold connected; by rewrite Huv|by rewrite Huv|].
  exists s2, o. split; [done|]. destruct (silent_trans _ _ _ _ Hs1 Hs2). rewrite Huv in Hcl2.
  split; try done. destruct Hwhy as [->| ->]; [by destruct (o_free o)|done].
Qed.

(** The open event. *)
Lemma publish_open s o env h c ch e f e1 e2 :
  read_inv rd s o → connected s h c → h ∉ (uv_closing (uv s)).*1 → client_map (channel_list s) !! c = Some ch →
  o_free o = e :: f → answers_ok env = true →
  sockaddr_ok (ep_sockaddr e1) → is_ip (ep_sockaddr e1) = true →
  sockaddr_ok (ep_sockaddr e2) → is_ip (ep_sockaddr e2) = true →
  ∃ s' o', (p ← on_events tn_event_list_free_pop_open;
     if negb (p.1 =? 0) then connection_cleanup (Some h) (Some c) true
     else
       open_evt ← lift p.2;
       on_events (update_event open_evt (λ ev,
         set_client_id (ch_id ch) (set_ev_type TN_EVENT_CLIENT_OPEN ev)));;
       sl ← lift (tn_endpoint_get_string e1 64);
       on_events (update_event open_evt (set_body (BOpen (Some sl.2) None)));;
       if negb (sl.1 =? 0) then connection_cleanup (Some h) (Some c) true
       else
         sr ← lift (tn_endpoint_get_string e2 64);
         on_events (update_event open_evt (set_body (BOpen (Some sl.2) (Some sr.2))));;
         if negb (sr.1 =? 0) then connection_cleanup (Some h) (Some c) true
         else
           TN_GUARD_CLEANUP [connection_cleanup (Some h) (Some c) true]
             on_events (tn_event_list_ready_push open_evt) THEN
           if negb (ae_read_start env =? 0) then connection_cleanup (Some h) (Some c) true else mret tt) s
    = Some (tt, s') ∧ announced s o env h c s' o'.
Proof.
  intros Hi Hh Hcl Hc Hf Hans Hok1 Hip1 Hok2 Hip2.
  destruct (get_string_run e1 64 Hok1 ltac:(lia)) as (sl & Hsl & _).
  destruct (get_string_run e2 64 Hok2 ltac:(lia)) as (sr & Hsr & _).
  assert (tn_endpoint_get_string e1 64 = Some (TN_SUCCESS, sl)) as Hsl' by (by destruct (ep_sockaddr e1)).
  assert (tn_endpoint_get_string e2 64 = Some (TN_SUCCESS, sr)) as Hsr' by (by destruct (ep_sockaddr e2)).
  pose proof (fill_start s o TN_EVENT_CLIENT_OPEN (BOpen None None) Hi) as Hstart.
  rewrite Hf in Hstart. destruct Hstart as (l0 & ev0 & Hrun & Hfill). bstep (on_events_run _ s _ _ Hrun).
  destruct (fill_update s o e f _ l0 (λ ev, set_client_id (ch_id ch) (set_ev_type TN_EVENT_CLIENT_OPEN ev)) Hi Hf Hfill)
    as (l1 & Hup1 & Hfill1).
  bstep (on_events_run _ (set_events l0 s) _ _ Hup1). rewrite Hsl', M_lift.
  destruct (fill_update s o e f _ l1 (set_body (BOpen (Some sl) None)) Hi Hf Hfill1) as (l2 & Hup2 & Hfill2).
  bstep (on_events_run _ (set_events l1 (set_events l0 s)) _ _ Hup2). rewrite Hsr', M_lift.
  destruct (fill_update s o e f _ l2 (set_body (BOpen (Some sl) (Some sr))) Hi Hf Hfill2) as (l3 & Hup3 & Hfill3).
  bstep (on_events_run _ (set_events l2 (set_events l1 (set_events l0 s))) _ _ Hup3).
  destruct (fill_push s o e f _ l3 Hi Hf Hfill3) as (l & Hpush & Hr & Htn). set (ev := set_body _ _) in Htn.
  bstep (on_events_run _ (set_events l3 (set_events l2 (set_events l1 (set_events l0 s)))) _ _ Hpush).
  change (set_events l (set_events l3 (set_events l2 (set_events l1 (set_events l0 s))))) with (set_events l s).
  assert (put_channel c ch (set_events l s) = set_events l s) as Hsame by (by apply put_same).
  assert (read_inv rd (put_channel c ch (set_events l s)) (publish f e o)) as Hi1.
  { apply (inv_publish s o e f l ev c ch); try done; [|by rewrite app_nil_r].
    intros Hin. by destruct (ri_handles _ _ _ Hi h c Hh). }
  destruct (others_publish s o e f l ev c ch ch Hi Hi1 Hf Htn Hc) as [Hn _].
  pose proof (frame_publish s c ch ch l Hc ltac:(done)) as Hfr. rewrite Hsame in *.
  destruct (front_event s o e f Hi Hf) as (_ & _ & Hlt).
  assert (event_note (set_events l s) e = Some (NOpen (Z.of_nat c) sl sr)) as Hnote.
  { unfold event_note. simpl. rewrite Htn, list_lookup_insert_eq by done. simpl.
    by rewrite (cr_ids _ _ (ri_channels _ _ _ Hi) c ch Hc). }
  destruct (ae_read_start env =? 0) eqn:Hrs; cbn [negb].
  - exists (set_events l s), (publish f e o). split; [done|]. split; try done.
    rewrite Hf, Hans, Hrs. split; [done|]. split; [by eauto|]. by rewrite app_nil_r.
  - destruct (connection_fail_run (set_events l s) (publish f e o) h c Hi1 Hh Hcl) as (s2 & Hrun2 & [] & Hcl2).
    exists s2, (publish f e o). split; [done|]. split; try done.
    + by eapply read_frame_trans.
    + intros e' He'. rewrite si_notes0 by (simpl; set_solver). by apply Hn.
    + rewrite Hf, Hans, Hrs. split; [done|]. split; [|done]. exists sl, sr.
      rewrite si_notes0 by (simpl; set_solver). done.
Qed.

Lemma connection_opened_run s o env h c :
  read_inv rd s o → connected s h c → h ∉ (uv_closing (uv s)).*1 →
  sockaddr_ok (ae_getpeername env).2 → sockaddr_ok (ae_getsockname env).2 →
  ∃ s' o', connection_opened env h c s = Some (tt, s') ∧ announced s o env h c s' o'.
Proof.
  intros Hi Hh Hcl Hok1 Hok2. destruct (ri_handles _ _ _ Hi h c Hh) as (Hni & ch & Hc & Hpr & Hsv).
  assert (silent s o s) as Hrefl by (split; try done; apply read_frame_refl).
  unfold connection_opened. destruct ((ae_getpeername env).1 =? 0) eqn:H1; cbn [negb].
  2:{ apply (announced_fail s o env h c s); try done. left. unfold answers_ok. by rewrite H1. }
  bstep (get_channel_run' c s ch Hc).
  destruct (convert_run (ae_getpeername env).2 (endpoint ch)) as (e1 & Hcv1 & Hsa1). rewrite Hcv1, M_lift.
  bstep (on_update_run s c (set_endpoint e1) ch Hc). set (s1 := put_channel _ _ s).
  assert (silent s o s1) as Hs1 by (by apply (silent_put s o c ch)).
  destruct (is_ip (ae_getpeername env).2) eqn:H2.
  2:{ apply (announced_fail s o env h c s1); try done. left. unfold answers_ok. by rewrite H1, H2. }
  repeat (progress mnext).
  destruct ((ae_getsockname env).1 =? 0) eqn:H3; cbn [negb].
  2:{ apply (announced_fail s o env h c s1); try done. left. unfold answers_ok. by rewrite H1, H2, H3. }
  destruct (convert_run (ae_getsockname env).2 zero_endpoint) as (e2 & Hcv2 & Hsa2). rewrite Hcv2, M_lift.
  destruct (is_ip (ae_getsockname env).2) eqn:H4.
  2:{ apply (announced_fail s o env h c s1); try done. left. unfold answers_ok. by rewrite H1, H2, H3, H4. }
  repeat (progress mnext).
  assert (answers_ok env = true) as Hans by (unfold answers_ok; by rewrite H1, H2, H3, H4).
  destruct (o_free o) as [|e f] eqn:Hf.
  - pose proof (fill_start s1 o TN_EVENT_CLIENT_OPEN (BOpen None None) (si_inv _ _ _ Hs1)) as Hstart.
    rewrite Hf in Hstart. destruct Hstart as (l & Hpop & Hs2). bstep (on_events_run _ s1 _ _ Hpop).
    apply (announced_fail s o env h c (set_events l s1)); try done; [by eapply silent_trans|by right].
  - assert (client_map (channel_list s1) !! c = Some (set_endpoint e1 ch)) as Hc1.
    { apply list_lookup_insert_eq. by eapply lookup_lt_Some. }
    destruct (publish_open s1 o env h c (set_endpoint e1 ch) e f e2 e1) as (s' & o' & Hrun & Hann);
      rewrite ?Hsa1, ?Hsa2; try done; [apply Hs1|].
    exists s', o'. split; [exact Hrun|]. destruct Hs1, Hann. split; try done.
    + by eapply read_frame_trans.
    + intros d. by rewrite an_pending0.
Qed.

End Facts.
