(* ===== verification/ServiceRun.v ===== *)
(** Runs of the service: both threads over one state.

    The IO thread's callbacks and the main thread's calls, each one step, in any order.
    The invariants of the send path and of the receive path hold in every reachable
    state, no call is undefined, and the main thread is told exactly what happened. *)
From stdpp Require Import base numbers list option gmap.
From Stdlib Require Import ZArith Lia.
From S2P Require Import Prelude QueueSpsc ByteBuf Buffer BufferPool ListPtr Inet Endpoint Event Channel Service.
From S2P Require Import ServiceWrite ServiceRead.

Local Open Scope Z_scope.
Local Open Scope c_scope.

Section Connections.
Context (rd : Z).
Implicit Types s : tcp_service_t.

(** A connection that gets no channel: a handle may be left to be closed. *)
Record refused s (o : owners) s' : Prop := {
  re_inv : read_inv rd s' o;
  re_frame : read_frame s s';
  re_notes : ∀ e, event_note s' e = event_note s e;
  re_pending : ∀ d, pending s' d = pending s d;
  re_events : events s' = events s;
  re_connected : ∀ h c, connected s' h c ↔ connected s h c;
  re_updates : event_updates s' = event_updates s ∧ event_updates_count s' = event_updates_count s;
}.

Lemma not_closing s o h : read_inv rd s o → uv_data (uv s) !! h = None → h ∉ (uv_closing (uv s)).*1.
Proof.
  intros [] Hh Hin. apply list_elem_of_fmap in Hin as ([h' cb] & -> & Hin). simpl in Hh. destruct cb.
  - destruct (ri_closing h' Hin) as [c Hc]. unfold connected in Hc. congruence.
  - pose proof (ri_closing_raw h' Hin). congruence.
Qed.

(** A fresh handle without a channel. *)
Lemma refused_handle s o h :
  read_inv rd s o → uv_data (uv s) !! h = None →
  refused s o (set_uv (uv_set_data h NULL (uv s)) s).
Proof.
  intros Hi Hh. pose proof (not_closing s o h Hi Hh) as Hcl. pose proof Hi as [].
  assert (∀ h' c, connected (set_uv (uv_set_data h NULL (uv s)) s) h' c ↔ connected s h' c) as Hcn.
  { intros h' c. unfold connected. simpl. destruct (decide (h' = h)) as [->|].
    - rewrite lookup_insert_eq, Hh. done.
    - by rewrite lookup_insert_ne. }
  split; try done; [|by apply (frame_uv s)]. split; simpl; try done.
  - intros h' c Hc. apply Hcn in Hc. by apply ri_handles.
  - intros h' Hin. destruct (ri_closing h' Hin) as [c Hc]. exists c. by apply Hcn.
  - intros h' Hin. destruct (decide (h' = h)) as [->|]; [by rewrite lookup_insert_eq|].
    rewrite lookup_insert_ne by done. by apply ri_closing_raw.
Qed.

(** ... and its closing. *)
Lemma refused_close s o h :
  read_inv rd s o → uv_data (uv s) !! h = Some NULL → h ∉ (uv_closing (uv s)).*1 →
  refused s o (set_uv (uv_close h CbHandle (uv s)) s).
Proof.
  intros [] Hh Hcl. split; try done; [|by apply (frame_uv s)]. split; simpl; try done.
  - intros h' [Hin|Hin%list_elem_of_singleton]%elem_of_app; [by apply ri_closing|done].
  - intros h' [Hin|Hin%list_elem_of_singleton]%elem_of_app; [by apply ri_closing_raw|by simplify_eq].
  - rewrite fmap_app. apply NoDup_app. split; [done|]. split; [|by apply NoDup_singleton].
    intros x Hx Hx'. apply list_elem_of_singleton in Hx'. by subst x.
Qed.

Lemma refused_trans s1 o s2 s3 : refused s1 o s2 → refused s2 o s3 → refused s1 o s3.
Proof.
  intros [? ? ? ? ? Hc1 []] [? ? ? ? ? Hc2 []]. split; try done; try congruence.
  - by eapply read_frame_trans.
  - intros h c. by rewrite Hc2.
  - split; congruence.
Qed.

(** A free channel is opened for the fresh handle [h]. *)
Lemma open_channel s o h c free :
  read_inv rd s o → uv_data (uv s) !! h = Some NULL → h ∉ (uv_closing (uv s)).*1 →
  o_channels o = free ++ [c] →
  ∃ l ch, tcp_channel_list_open (channel_list s) = Some ((TN_SUCCESS, Some (Some c)), l) ∧
    client_map l !! c = Some ch ∧
    let s' := put_channel c (set_opened h ch) (set_uv (uv_set_data h (Some c) (uv s)) (set_channel_list l s)) in
    read_inv rd s' (set_free_channels free o) ∧ read_frame s s' ∧ connected s' h c ∧
    (∀ e, event_note s' e = event_note s e) ∧ (∀ d, d ≠ c → pending s' d = pending s d) ∧ pending s' c = Some [].
Proof.
  intros Hi Hh Hcl Hfree. pose proof Hi as [].
  destruct (list_open_run _ _ ri_channels) as (l & Hrun & Hl & Hmap & _).
  rewrite Hfree, last_snoc in Hrun. rewrite Hfree, length_app in Hl. simpl in Hl.
  rewrite Nat.add_sub, take_app_length in Hl.
  pose proof (cr_nodup _ _ ri_channels) as Hnd. rewrite Hfree in Hnd. apply NoDup_app in Hnd as (_ & Hnd & _).
  pose proof (cr_range _ _ ri_channels) as Hrg. rewrite Hfree, Forall_app, Forall_singleton in Hrg.
  destruct Hrg as [_ Hlt]. destruct (lookup_lt_is_Some_2 _ _ Hlt) as [ch Hch].
  exists l, ch. split; [done|]. split; [by rewrite Hmap|]. set (s' := put_channel _ _ _).
  assert (∀ d, client_map (channel_list s') !! d =
    if decide (d = c) then Some (set_opened h ch) else client_map (channel_list s) !! d) as Hlk.
  { intros d. unfold s'. simpl. rewrite Hmap. case_decide as Hd.
    - subst d. by apply list_lookup_insert_eq.
    - by rewrite list_lookup_insert_ne. }
  assert (read_buffer ch = NULL) as Hnull by (eapply ri_null, Hch; rewrite Hfree; set_solver).
  assert (∀ h' d, connected s' h' d ↔ (h' = h ∧ d = c ∨ h' ≠ h ∧ connected s h' d)) as Hcn.
  { intros h' d. unfold connected, s'. simpl. destruct (decide (h' = h)) as [->|].
    - rewrite lookup_insert_eq. naive_solver.
    - rewrite lookup_insert_ne by done. naive_solver. }
  assert (∀ h' cb, (h', cb) ∈ uv_closing (uv s) → h' ≠ h) as Hne.
  { intros h' cb Hin ->. apply Hcl. apply list_elem_of_fmap. by exists (h, cb). }
  pose proof Hlk as Hlk'. unfold s' in Hlk'. simpl in Hlk'.
  split; [|split; [|split_and!]].
  - split; simpl; try done.
    + eapply (put_channel_rep (set_channel_list l s) free c ch); [done|by rewrite <- Hmap in Hch|done].
    + rewrite Hmap. destruct (omap_insert_perm read_buffer _ c ch (set_opened h ch) Hch) as [H1 H2].
      rewrite <- ri_bufs. unfold channel_bufs. by rewrite H1, H2, Hnull.
    + intros d x Hd Hx. rewrite Hlk', decide_False in Hx by (intros ->; by apply (Hnd c), list_elem_of_singleton).
      eapply ri_null; [|done]. rewrite Hfree. set_solver.
    + intros h' d [[-> ->]|[Hh' Hd]]%Hcn.
      * split; [intros Hin; by apply (Hnd c), list_elem_of_singleton|]. exists (set_opened h ch).
        by rewrite Hlk', decide_True.
      * destruct (ri_handles h' d Hd) as (Hni & x & Hx & Hpr & Hsv).
        rewrite Hfree in Hni. split; [set_solver|]. exists x.
        by rewrite Hlk', decide_False by set_solver.
    + intros h' Hin. destruct (ri_closing h' Hin) as [d Hd]. exists d. apply Hcn. right. eauto.
    + intros h' Hin. rewrite lookup_insert_ne by (symmetry; eauto). by apply ri_closing_raw.
  - split; try done. intros d x Hx Hs. rewrite Hlk. case_decide; eauto.
  - unfold connected. simpl. by rewrite lookup_insert_eq.
  - done.
  - intros d Hd. unfold pending. rewrite Hlk, decide_False by done. done.
  - unfold pending. rewrite Hlk, decide_True by done. done.
Qed.

(** The new channel [c] of the handle [h]. *)
Record accepted_conn s (o : owners) (h c : nat) s' (o' : owners) : Prop := {
  ac_inv : read_inv rd s' o';
  ac_frame : read_frame s s';
  ac_notes : ∀ e, e ∈ o_ready o ++ o_held o → event_note s' e = event_note s e;
  ac_pending : ∀ d, d ≠ c → pending s' d = pending s d;
  ac_fresh : pending s' c = Some [] ∧ ¬ (∃ h', connected s h' c);
  ac_connected : ∀ h' d, connected s' h' d ↔ (h' = h ∧ d = c ∨ h' ≠ h ∧ connected s h' d);
  ac_held : o_held o' = o_held o;
  ac_updates : event_updates s' = event_updates s ∧ event_updates_count s' = event_updates_count s;
  ac_event : o_ready o' = o_ready o ∨
    ∃ e l r, o_ready o' = o_ready o ++ [e] ∧ event_note s' e = Some (NOpen (Z.of_nat c) l r);
}.

Lemma M_modify_uv {A} f (k : unit → M tcp_service_t A) s :
  (modify_uv f ≫= k) s = k tt (set_uv (f (uv s)) s).
Proof. reflexivity. Qed.

Lemma on_channels_run {A} (f : M tcp_channel_list_t A) s x l :
  f (channel_list s) = Some (x, l) → on_channels f s = Some (x, set_channel_list l s).
Proof. intros H. unfold on_channels, zoom. by rewrite H. Qed.

Lemma last_snoc_inv (l : list nat) : l = [] ∨ ∃ l' x, l = l' ++ [x].
Proof. destruct l using rev_ind; eauto. Qed.

(** No free channel. *)
Lemma open_none s o :
  read_inv rd s o → o_channels o = [] →
  ∃ l, tcp_channel_list_open (channel_list s) = Some ((TN_ERROR, None), l) ∧ refused s o (set_channel_list l s).
Proof.
  intros Hi Hfree. pose proof Hi as [].
  destruct (list_open_run _ _ ri_channels) as (l & Hrun & Hl & Hmap & _). rewrite Hfree in Hrun, Hl.
  exists l. split; [done|]. split; try done.
  - split; simpl; rewrite ?Hmap; try done. by rewrite Hfree.
  - split; try done. simpl. rewrite Hmap. eauto.
  - intros d. unfold pending. simpl. by rewrite Hmap.
Qed.

Lemma on_connection_run s o env status :
  read_inv rd s o → (∀ h, ae_handle env = Some h → uv_data (uv s) !! h = None) →
  sockaddr_ok (ae_getpeername env).2 → sockaddr_ok (ae_getsockname env).2 →
  ∃ s', on_connection_cb env status s = Some (tt, s') ∧
    (refused s o s' ∨ ∃ o' h c, ae_handle env = Some h ∧ accepted_conn s o h c s' o').
Proof.
  intros Hi Hfresh Hok1 Hok2.
  assert (refused s o s) as Hrefl by (split; try done; apply read_frame_refl).
  unfold on_connection_cb. destruct (status <? 0); [exists s; auto|].
  destruct (ae_handle env) as [h|]; [|exists s; auto]. specialize (Hfresh h eq_refl).
  rewrite M_modify_uv. set (s1 := set_uv (uv_set_data h NULL (uv s)) s).
  pose proof (refused_handle s o h Hi Hfresh : refused s o s1) as Hs1. pose proof (re_inv _ _ _ Hs1) as Hi1.
  pose proof (not_closing s o h Hi Hfresh : h ∉ (uv_closing (uv s1)).*1) as Hcl.
  assert (uv_data (uv s1) !! h = Some NULL) as Hd1 by (simpl; by rewrite lookup_insert_eq).
  assert (∀ s2, refused s o s2 → uv s2 = uv s1 →
    ∃ s', connection_cleanup (Some h) None true s2 = Some (tt, s') ∧ refused s o s') as Hclose.
  { intros s2 Hs2 Huv. eexists. split; [reflexivity|]. apply (refused_trans _ _ s2); [done|].
    apply refused_close; [apply Hs2|by rewrite Huv..]. }
  destruct (ae_tcp_init env =? 0); cbn [negb]; [|exists s1; auto].
  destruct (ae_accept env =? 0); cbn [negb]; [|destruct (Hclose s1 Hs1 eq_refl) as (s' & ? & ?); eauto].
  destruct (last_snoc_inv (o_channels o)) as [Hfree|(free & c & Hfree)].
  - destruct (open_none s1 o Hi1 Hfree) as (l & Hrun & Href). bstep (on_channels_run _ s1 _ _ Hrun).
    destruct (Hclose (set_channel_list l s1)) as (s' & ? & ?); [by eapply refused_trans|done|eauto].
  - destruct (open_channel s1 o h c free Hi1 Hd1 Hcl Hfree) as (l & ch & Hrun & Hch & Hi2 & Hfr & Hcn & Hn & Hp & Hpc).
    bstep (on_channels_run _ s1 _ _ Hrun). rewrite M_modify_uv.
    bstep (on_update_run (set_uv (uv_set_data h (Some c) (uv s1)) (set_channel_list l s1)) c (set_opened h) ch Hch).
    set (s2 := put_channel _ _ _) in *.
    destruct (connection_opened_run rd s2 (set_free_channels free o) env h c Hi2 Hcn Hcl Hok1 Hok2) as (s3 & o3 & Hrun3 & Hann).
    exists s3. split; [done|]. right. exists o3, h, c. split; [done|].
    destruct Hs1, Hann. destruct an_owners as [Hheld _]. split; try done.
    + eapply read_frame_trans; [exact re_frame0|]. by eapply read_frame_trans.
    + intros d Hd. rewrite an_pending, Hp by done. done.
    + split; [by rewrite an_pending|]. intros [h' Hh'].
      destruct (ri_handles _ _ _ Hi h' c Hh') as [Hni _]. rewrite Hfree in Hni. set_solver.
    + intros h' d. unfold connected. rewrite an_data. unfold s2. simpl. destruct (decide (h' = h)) as [->|].
      * rewrite lookup_insert_eq. naive_solver.
      * rewrite !lookup_insert_ne by done. naive_solver.
    + simpl in an_event. destruct (o_free o) as [|e f]; [by left; apply an_event|].
      destruct (answers_ok env); [|by left; apply an_event].
      right. destruct an_event as (Hr & (x & y & Hxy) & _). by exists e, x, y.
Qed.

End Connections.

Section Handover.
Context (rd : Z).
Implicit Types s : tcp_service_t.

(** The oldest [n] ready events go into the hands of the main thread. *)
Definition take_ready (n : nat) (o : owners) : owners :=
  {| o_pool := o_pool o; o_free := o_free o; o_ready := drop n (o_ready o); o_held := take n (o_ready o);
     o_channels := o_channels o |}.

Lemma inv_acquire s o n l us cnt :
  read_inv rd s o → o_held o = [] → events_rep l (o_free o) (drop n (o_ready o)) →
  tn_events l = tn_events (events s) → length us = length (event_updates s) →
  read_inv rd (set_event_updates_count cnt (set_event_updates us (set_events l s))) (take_ready n o).
Proof.
  intros [] Hheld Hr Htn Hlen. rewrite Hheld, app_nil_r in *.
  assert (drop n (o_ready o) ++ take n (o_ready o) ≡ₚ o_ready o) as Hperm.
  { rewrite <- (take_drop n (o_ready o)) at 3. apply Permutation_app_comm. }
  split; simpl; rewrite ?Htn, ?Hlen; try done.
  - by rewrite Hperm.
  - rewrite <- ri_bufs. unfold event_bufs. by rewrite Hperm.
  - intros e He. rewrite Hperm in He. destruct (ri_ok e He) as (ev & ? & ? & ?). exists ev. simpl. by rewrite Htn.
Qed.

Lemma acquire_run s o :
  read_inv rd s o → o_held o = [] →
  let n := Z.to_nat (buffer_count s) in
  let taken := take n (o_ready o) in
  ∃ code s', tcp_service_events_acquire s = Some ((code, Z.of_nat (length taken)), s') ∧
    (code = TN_SUCCESS ↔ o_ready o ≠ []) ∧ read_inv rd s' (take_ready n o) ∧ read_frame s s' ∧ uv s' = uv s ∧
    (∀ e, event_note s' e = event_note s e) ∧ (∀ d, pending s' d = pending s d) ∧
    event_updates_count s' = Z.of_nat (length taken) ∧
    take (length taken) (event_updates s') = Some <$> taken.
Proof.
  intros Hi Hheld n taken. destruct (ri_updates _ _ _ Hi) as [Hlen Hpos].
  destruct (ready_pop_all_run _ _ _ (buffer_count s) (ri_events _ _ _ Hi) Hpos) as (l & Hrun & Hr & Hc & Htn).
  unfold tcp_service_events_acquire. rewrite M_modify, M_get.
  set (s0 := set_event_updates_count 0 s). change (buffer_count s0) with (buffer_count s).
  bstep (on_events_run _ s0 _ _ Hrun). fold n in Hr |- *. fold taken.
  assert (length taken ≤ length (event_updates s))%nat as Hfit.
  { unfold taken, n. rewrite length_take. lia. }
  assert (∀ us cnt, length us = length (event_updates s) →
    let s' := set_event_updates_count cnt (set_event_updates us (set_events l s)) in
    read_inv rd s' (take_ready n o) ∧ read_frame s s' ∧ uv s' = uv s ∧
    (∀ e, event_note s' e = event_note s e) ∧ (∀ d, pending s' d = pending s d)) as Hfin.
  { intros us cnt Hus s'. split; [by apply inv_acquire|]. split; [split; try done; eauto|].
    split; [done|]. split; [|done]. intros e. unfold event_note. simpl. by rewrite Htn. }
  destruct (o_ready o) as [|e r] eqn:Hready.
  - cbv beta iota zeta. rewrite bool_decide_eq_true_2 by (simpl; lia).
    repeat (progress mnext). eexists TN_ERROR, _. unfold taken. rewrite firstn_nil. split; [reflexivity|].
    split; [done|]. destruct (Hfin (event_updates s) 0 eq_refl) as (? & ? & ? & ? & ?). split_and!; try done.
  - cbv beta iota zeta. rewrite bool_decide_eq_true_2 by (by rewrite length_fmap).
    repeat (progress mnext). eexists TN_SUCCESS, _.
    replace (Z.min (buffer_count s) (Z.of_nat (length (e :: r)))) with (Z.of_nat (length taken))
      by (unfold taken, n; rewrite length_take; lia).
    split; [reflexivity|]. split; [done|]. rewrite length_fmap.
    destruct (Hfin ((Some <$> taken) ++ drop (length taken) (event_updates s)) (Z.of_nat (length taken)))
      as (? & ? & ? & ? & ?).
    { rewrite length_app, length_fmap, length_drop. lia. }
    split_and!; try done. simpl. rewrite take_app_length'; [done|by rewrite length_fmap].
Qed.

(** The first held event goes back. *)
Definition give_first (a : streams) (e : nat) (hs : list nat) (o : owners) : owners :=
  {| o_pool := a; o_free := o_free o ++ [e]; o_ready := o_ready o; o_held := hs; o_channels := o_channels o |}.

Lemma inv_give s o e hs ev p a l :
  read_inv rd s o → o_held o = e :: hs → tn_events (events s) !! e = Some ev →
  pool_rep rd p (sv_mem s) a → tn_buffers p = tn_buffers (pool_read s) →
  a_free a = a_free (o_pool o) ++ option_list (event_buf ev) → a_streams a = a_streams (o_pool o) →
  events_rep l (o_free o ++ [e]) (o_ready o) → tn_events l = tn_events (events s) →
  let s' := set_events l (set_read_side p (sv_mem s) s) in
  read_inv rd s' (give_first a e hs o) ∧
  (∀ e', e' ∈ o_ready o ++ hs → event_note s' e' = event_note s e') ∧ (∀ d, pending s' d = pending s d).
Proof.
  intros [] Hheld Hev Hp Hbufs Haf Has Hl Htn s'. rewrite Hheld in *.
  assert (event_bufs (tn_events (events s)) (o_ready o ++ e :: hs) ≡ₚ
    option_list (event_buf ev) ++ event_bufs (tn_events (events s)) (o_ready o ++ hs)) as Hpb.
  { rewrite <- (event_bufs_single _ e ev Hev), <- event_bufs_app. unfold event_bufs.
    f_equiv. solve_Permutation. }
  split; [split; simpl; rewrite ?Htn, ?Hbufs; try done|split].
  - rewrite <- ri_places. solve_Permutation.
  - rewrite Haf, <- ri_bufs, Hpb. solve_Permutation.
  - intros e' He'. destruct (ri_ok e') as (ev' & ? & ? & ?); [set_solver|]. exists ev'. simpl.
    by rewrite Htn, Hbufs.
  - intros e' _. unfold event_note. simpl. by rewrite Htn.
  - intros d. unfold pending. simpl. by rewrite Hbufs.
Qed.

Lemma release_round s o e hs i n :
  read_inv rd s o → o_held o = e :: hs → event_updates s !! i = Some (Some e) →
  ∃ s' a, release_loop (S n) i s = release_loop n (S i) s' ∧ read_inv rd s' (give_first a e hs o) ∧
    read_frame s s' ∧ uv s' = uv s ∧ event_updates s' = event_updates s ∧
    (∀ e', e' ∈ o_ready o ++ hs → event_note s' e' = event_note s e') ∧ (∀ d, pending s' d = pending s d).
Proof.
  intros Hi Hheld Hup. pose proof (ri_ok _ _ _ Hi e ltac:(rewrite Hheld; set_solver)) as (ev & Hev & Hread & _).
  pose proof (nodup_events rd s o Hi) as Hnd. rewrite Hheld in Hnd.
  assert (held (events s) (o_free o) (o_ready o) e) as Hh.
  { split; [by eapply lookup_lt_Some|]. rewrite (assoc (++)) in Hnd. apply NoDup_app in Hnd as (_ & Hd & _).
    intros Hin. apply (Hd e Hin). apply list_elem_of_here. }
  destruct (free_push_run _ _ _ e (ri_events _ _ _ Hi) Hh) as (l & Hfp & Hl & _ & Htn).
  set (k := on_events (tn_event_list_free_push e);; release_loop n (S i)).
  assert (∀ p a, pool_rep rd p (sv_mem s) a → tn_buffers p = tn_buffers (pool_read s) →
    same_geometry (pool_read s) p → a_free a = a_free (o_pool o) ++ option_list (event_buf ev) →
    a_streams a = a_streams (o_pool o) →
    ∃ s' a, k (set_read_side p (sv_mem s) s) = release_loop n (S i) s' ∧ read_inv rd s' (give_first a e hs o) ∧
      read_frame s s' ∧ uv s' = uv s ∧ event_updates s' = event_updates s ∧
      (∀ e', e' ∈ o_ready o ++ hs → event_note s' e' = event_note s e') ∧ (∀ d, pending s' d = pending s d)) as Hend.
  { intros p a Hp Hbufs Hg Haf Has. eexists _, a. split.
    { unfold k. by bstep (on_events_run _ (set_read_side p (sv_mem s) s) _ _ Hfp). }
    destruct (inv_give s o e hs ev p a l) as (? & ? & ?); try done. split_and!; try done.
    split; try done. eauto. }
  cbn [release_loop]. rewrite M_get, Hup, M_lift, M_lift, Hev, M_lift.
  destruct (Z.eqb_spec (ev_type ev) TN_EVENT_CLIENT_READ) as [Ht|Ht].
  - destruct (Hread Ht) as (b & bf & Hbody & Hbf). rewrite Hbody.
    assert (event_buf ev = Some b) as Hb by (unfold event_buf; by rewrite Ht, Hbody).
    assert (e ∈ o_ready o ++ o_held o) as Hin by (rewrite Hheld; set_solver).
    destruct (event_buffer_out rd s o e ev b Hi Hin Hev Hb) as [Hnf _].
    destruct (pool_push_run rd _ _ (o_pool o) b (ri_pool _ _ _ Hi)) as (p & Hpush & Hg & Hbufs & Hp);
      [by eapply lookup_lt_Some|done|].
    rewrite M_assoc. bstep (on_read_pool_run _ s _ _ _ Hpush). apply (Hend p _ Hp); try done. by rewrite Hb.
  - rewrite M_left_id. replace s with (set_read_side (pool_read s) (sv_mem s) s) at 1 by (by destruct s).
    assert (event_buf ev = NULL) as Hb by (unfold event_buf; by rewrite (proj2 (Z.eqb_neq _ _) Ht)).
    apply (Hend (pool_read s) (o_pool o)); try done; [apply Hi|]. by rewrite Hb, app_nil_r.
Qed.

(** All held events go back, in order. *)
Lemma release_loop_run hs : ∀ s o i,
  read_inv rd s o → o_held o = hs → take (length hs) (drop i (event_updates s)) = Some <$> hs →
  ∃ s' o', release_loop (length hs) i s = Some (tt, s') ∧ read_inv rd s' o' ∧ o_held o' = [] ∧
    o_ready o' = o_ready o ∧ o_free o' = o_free o ++ hs ∧ o_channels o' = o_channels o ∧
    read_frame s s' ∧ uv s' = uv s ∧
    (∀ e, e ∈ o_ready o → event_note s' e = event_note s e) ∧ (∀ d, pending s' d = pending s d).
Proof.
  induction hs as [|e hs IH]; intros s o i Hi Hheld Hup.
  - exists s, o. rewrite app_nil_r. split_and!; try done. apply read_frame_refl.
  - simpl in Hup. destruct (drop i (event_updates s)) as [|x us] eqn:Hd; [done|].
    simpl in Hup. injection Hup as -> Hup.
    assert (event_updates s !! i = Some (Some e)) as Hi0.
    { rewrite <- (Nat.add_0_r i), <- lookup_drop, Hd. done. }
    destruct (release_round s o e hs i (length hs) Hi Hheld Hi0) as (s1 & a & Hrun & Hi1 & Hfr & Huv & Hu1 & Hn & Hp).
    destruct (IH s1 (give_first a e hs o) (S i) Hi1 eq_refl) as
      (s2 & o2 & Hrun2 & Hi2 & Hh2 & Hr2 & Hf2 & Hc2 & Hfr2 & Huv2 & Hn2 & Hp2).
    { rewrite Hu1. replace (drop (S i) (event_updates s)) with us; [done|].
      rewrite <- Nat.add_1_r, <- drop_drop, Hd. done. }
    exists s2, o2. simpl length. rewrite Hrun. split_and!; try done.
    + rewrite Hf2. simpl. by rewrite <- app_assoc.
    + by eapply read_frame_trans.
    + by rewrite Huv2.
    + intros e' He'. rewrite Hn2 by done. apply Hn. set_solver.
    + intros d. by rewrite Hp2.
Qed.

End Handover.

(** ** Steps of the receive path *)

(** What happens on the receive path: a connection arrives, a handle has something to
    read, a closed handle is done, the main thread takes or returns events. *)
Inductive ract :=
  | RConnect (env : accept_env) (status : Z)
  | RRead (h : nat) (answer : read_answer)
  | RClosed (h : nat) (cb : close_cb)
  | RAcquire
  | RRelease.

Definition exec_ract (x : ract) : M tcp_service_t Z :=
  match x with
  | RConnect env status => on_connection_cb env status;; mret 0
  | RRead h answer => uv__read h answer;; mret 0
  | RClosed h CbChannel => modify_uv (uv_close_done h);; on_close_channel_cb h;; mret 0
  | RClosed h CbHandle => modify_uv (uv_close_done h);; on_close_handle_cb h;; mret 0
  | RAcquire => r ← tcp_service_events_acquire; mret r.1
  | RRelease => tcp_service_events_release
  end.

(** The history: what the IO thread told, what the main thread took, what it holds and
    whether it has to return it; and for every channel the bytes that arrived and the
    bytes that were told since its last connection. *)
Record rhistory := {
  told : list note;
  heard : list note;
  inhand : list (nat * note);
  busy : bool;
  arrived : gmap nat (list Z);
  shown : gmap nat (list Z);
}.

(** What the system promises: fresh memory for a handle, well-formed addresses, reads
    only from connected handles that are not closing, each close reported once; the
    main thread takes and returns events in turn. *)
Definition renabled (s : tcp_service_t) (h : rhistory) (x : ract) : Prop :=
  match x with
  | RConnect env _ =>
      (∀ hd, ae_handle env = Some hd → uv_data (uv s) !! hd = None) ∧
      sockaddr_ok (ae_getpeername env).2 ∧ sockaddr_ok (ae_getsockname env).2
  | RRead hd answer => (∃ c, connected s hd c) ∧ uv_is_closing hd (uv s) = false ∧ answer_ok answer
  | RClosed hd cb => (hd, cb) ∈ uv_closing (uv s)
  | RAcquire => busy h = false
  | RRelease => busy h = true
  end.

Definition ready_list (s : tcp_service_t) : list nat := omap id (contents (tn_events_ready (events s))).
Definition notes (s : tcp_service_t) (l : list nat) : list note := omap (event_note s) l.
Definition new_notes (s s' : tcp_service_t) : list note := notes s' (drop (length (ready_list s)) (ready_list s')).

Definition bytes_of (g : gmap nat (list Z)) (c : nat) : list Z := default [] (g !! c).
Definition add_bytes (c : nat) (bs : list Z) (g : gmap nat (list Z)) : gmap nat (list Z) :=
  <[c := bytes_of g c ++ bs]> g.
Definition show_note (g : gmap nat (list Z)) (n : note) : gmap nat (list Z) :=
  match n with NRead id bs => add_bytes (Z.to_nat id) bs g | _ => g end.

Definition channel_of (s : tcp_service_t) (hd : nat) : option nat := d ← uv_data (uv s) !! hd; d.
Definition restart (s' : tcp_service_t) (env : accept_env) (g : gmap nat (list Z)) : gmap nat (list Z) :=
  match hd ← ae_handle env; channel_of s' hd with Some c => <[c := []]> g | None => g end.

Definition record_ract (s : tcp_service_t) (x : ract) (s' : tcp_service_t) (h : rhistory) : rhistory :=
  let io arr sh :=
    {| told := told h ++ new_notes s s'; heard := heard h; inhand := inhand h; busy := busy h;
       arrived := arr; shown := foldl show_note sh (new_notes s s') |} in
  match x with
  | RConnect env _ => io (restart s' env (arrived h)) (restart s' env (shown h))
  | RRead hd answer =>
      io (match channel_of s hd with
          | Some c => add_bytes c (kernel_data s hd answer) (arrived h)
          | None => arrived h
          end) (shown h)
  | RClosed _ _ => io (arrived h) (shown h)
  | RAcquire =>
      let l := take (Z.to_nat (buffer_count s)) (ready_list s) in
      {| told := told h; heard := heard h ++ notes s l;
         inhand := omap (λ e, n ← event_note s e; Some (e, n)) l; busy := true;
         arrived := arrived h; shown := shown h |}
  | RRelease =>
      {| told := told h; heard := heard h; inhand := []; busy := false;
         arrived := arrived h; shown := shown h |}
  end.

(** What the main thread holds. *)
Definition hand_ok (s : tcp_service_t) (h : rhistory) (o : owners) : Prop :=
  (inhand h).*1 = o_held o ∧ Forall (λ x, event_note s x.1 = Some x.2) (inhand h) ∧
  if busy h
  then event_updates_count s = Z.of_nat (length (o_held o)) ∧
       take (length (o_held o)) (event_updates s) = Some <$> o_held o
  else o_held o = [].

Record rgood (rd : Z) (s : tcp_service_t) (h : rhistory) (o : owners) : Prop := {
  rg_inv : read_inv rd s o;
  rg_hand : hand_ok s h o;
  rg_some : Forall (λ e, is_Some (event_note s e)) (o_ready o);
  rg_told : told h = heard h ++ notes s (o_ready o);
  rg_bytes : ∀ hd c, connected s hd c →
    bytes_of (arrived h) c = bytes_of (shown h) c ++ default [] (pending s c);
}.

Section Steps.
Context (rd : Z).
Implicit Types s : tcp_service_t.

Lemma ready_of s o : read_inv rd s o → ready_list s = o_ready o.
Proof.
  intros Hi. unfold ready_list. destruct (er_ready _ _ _ (ri_events _ _ _ Hi)) as (_ & _ & Hc).
  rewrite Hc. apply omap_some.
Qed.

Lemma notes_kept s s' l : (∀ e, e ∈ l → event_note s' e = event_note s e) → notes s' l = notes s l.
Proof.
  intros H. unfold notes. induction l as [|e l IH]; [done|]. cbn. rewrite H by set_solver.
  by rewrite IH by set_solver.
Qed.

Lemma notes_app s l1 l2 : notes s (l1 ++ l2) = notes s l1 ++ notes s l2.
Proof. apply omap_app. Qed.

(** The part common to the callbacks of the IO thread: the events [add] become ready. *)
Lemma io_step s h o s' o' add arr sh :
  rgood rd s h o → read_inv rd s' o' → o_held o' = o_held o → o_ready o' = o_ready o ++ add →
  (∀ e, e ∈ o_ready o ++ o_held o → event_note s' e = event_note s e) →
  event_updates s' = event_updates s → event_updates_count s' = event_updates_count s →
  Forall (λ e, is_Some (event_note s' e)) add →
  (∀ hd c, connected s' hd c →
    bytes_of arr c = bytes_of (foldl show_note sh (notes s' add)) c ++ default [] (pending s' c)) →
  new_notes s s' = notes s' add ∧
  rgood rd s' {| told := told h ++ new_notes s s'; heard := heard h; inhand := inhand h; busy := busy h;
    arrived := arr; shown := foldl show_note sh (new_notes s s') |} o'.
Proof.
  intros [Hi (Hh1 & Hh2 & Hh3) Hsome Htold _] Hi' Hheld Hready Hn Hu1 Hu2 Hadd Hbytes.
  assert (new_notes s s' = notes s' add) as Hnew.
  { unfold new_notes. by rewrite (ready_of s o Hi), (ready_of s' o' Hi'), Hready, drop_app_length. }
  split; [done|]. split; simpl; rewrite ?Hnew; try done.
  - split; [by rewrite Hheld|]. split.
    + apply Forall_forall. intros [e n] Hin. simpl. rewrite Hn; [exact (proj1 (Forall_forall _ _) Hh2 _ Hin)|].
      apply elem_of_app. right. rewrite <- Hh1. apply list_elem_of_fmap. by exists (e, n).
    + simpl. by rewrite Hheld, Hu1, Hu2.
  - rewrite Hready. apply Forall_app. split; [|done]. apply Forall_forall. intros e He.
    rewrite Hn by set_solver. exact (proj1 (Forall_forall _ _) Hsome _ He).
  - rewrite Hready, notes_app.
    rewrite (notes_kept s s' (o_ready o)) by (intros; apply Hn; set_solver). by rewrite Htold, app_assoc.
Qed.

(** ** Each step keeps the history true *)

Lemma bytes_of_add g c d bs :
  bytes_of (add_bytes c bs g) d = if decide (d = c) then bytes_of g c ++ bs else bytes_of g d.
Proof.
  unfold add_bytes, bytes_of at 1. case_decide as Hd; [subst; by rewrite lookup_insert_eq|].
  by rewrite lookup_insert_ne.
Qed.

Lemma read_step s h o hd answer :
  rgood rd s h o → renabled s h (RRead hd answer) →
  ∃ s' o', exec_ract (RRead hd answer) s = Some (0, s') ∧ rgood rd s' (record_ract s (RRead hd answer) s' h) o' ∧
    read_frame s s'.
Proof.
  intros Hg ([c Hc] & _ & Hans). pose proof (rg_inv _ _ _ _ Hg) as Hi.
  pose proof (λ hd' d, rg_bytes _ _ _ _ Hg hd' d) as Hby.
  destruct (uv_read_run rd s o hd c answer Hi Hc Hans) as (s' & o' & Hrun & Hcase).
  exists s', o'. split; [simpl; by bstep Hrun|]. unfold record_ract.
  assert (channel_of s hd = Some c) as -> by (unfold channel_of; by rewrite Hc).
  destruct Hcase as [(_ & Hi' & Hfr & [Hn Hp] & Hheld & Hch & Huv & Hu1 & Hu2 & u & Hu & Hev)|(Hk & [] & _)].
  - split; [|done]. destruct (o_free o) as [|e f].
    + destruct Hev as (_ & Hready & Hpend).
      apply (io_step s h o s' o' []); rewrite ?app_nil_r; try done.
      intros hd' d Hd. unfold connected in Hd. rewrite Huv in Hd. simpl. rewrite bytes_of_add. case_decide as Hdc.
      * subst d. rewrite Hpend, (Hby hd' c Hd), Hu. simpl. by rewrite app_assoc.
      * rewrite Hp by done. by apply (Hby hd').
    + destruct Hev as (_ & Hready & Hpend & Hnote). 
      apply (io_step s h o s' o' [e]); try done; [by apply Forall_singleton; eexists|].
      intros hd' d Hd. unfold connected in Hd. rewrite Huv in Hd. unfold notes. cbn. rewrite Hnote. cbn.
      rewrite !bytes_of_add, Nat2Z.id. case_decide as Hdc.
      * subst d. rewrite Hpend, (Hby hd' c Hd), Hu. simpl. by rewrite app_nil_r, app_assoc.
      * rewrite Hp by done. by apply (Hby hd').
  - split; [|done]. destruct un_pool as [a ->], un_updates as [Hu1 Hu2].
    apply (io_step s h o s' (set_pool a o) []); simpl; rewrite ?app_nil_r; try done.
    intros hd' d Hd. unfold connected in Hd. rewrite un_data in Hd. rewrite Hk, bytes_of_add, app_nil_r, un_pending.
    case_decide; subst; by apply (Hby hd').
Qed.

Lemma channel_of_connected s hd c : channel_of s hd = Some c ↔ connected s hd c.
Proof.
  unfold channel_of, connected. destruct (uv_data (uv s) !! hd) as [[d|]|]; cbn; naive_solver.
Qed.

Lemma connect_step s h o env status :
  rgood rd s h o → renabled s h (RConnect env status) →
  ∃ s' o', exec_ract (RConnect env status) s = Some (0, s') ∧
    rgood rd s' (record_ract s (RConnect env status) s' h) o' ∧ read_frame s s'.
Proof.
  intros Hg (Hfresh & Hok1 & Hok2). pose proof (rg_inv _ _ _ _ Hg) as Hi.
  pose proof (λ hd' d, rg_bytes _ _ _ _ Hg hd' d) as Hby.
  destruct (on_connection_run rd s o env status Hi Hfresh Hok1 Hok2) as (s' & Hrun & [[]|(o' & hd & c & Hh & [])]).
  - exists s', o. split; [simpl; by bstep Hrun|]. split; [|done]. destruct re_updates0 as [Hu1 Hu2].
    assert (∀ g, restart s' env g = g) as Hre.
    { intros g. unfold restart. destruct (ae_handle env) as [hd|]; [|done]. cbn.
      destruct (channel_of s' hd) as [c|] eqn:Hc; [|done]. apply channel_of_connected, re_connected0 in Hc.
      unfold connected in Hc. by rewrite (Hfresh hd eq_refl) in Hc. }
    unfold record_ract. rewrite !Hre. apply (io_step s h o s' o []); rewrite ?app_nil_r; try done.
    intros hd' d Hd. apply re_connected0 in Hd. rewrite re_pending0. by apply (Hby hd').
  - exists s', o'. split; [simpl; by bstep Hrun|]. split; [|done]. destruct ac_updates0 as [Hu1 Hu2].
    assert (∀ g, restart s' env g = <[c := []]> g) as Hre.
    { intros g. unfold restart. rewrite Hh. cbn.
      by rewrite (proj2 (channel_of_connected s' hd c)) by (apply ac_connected0; auto). }
    assert (∀ hd' d, connected s' hd' d →
      bytes_of (<[c := []]> (arrived h)) d = bytes_of (<[c := []]> (shown h)) d ++ default [] (pending s' d)) as Heq.
    { intros hd' d [[-> ->]|[_ Hd]]%ac_connected0.
      - destruct ac_fresh0 as [-> _]. unfold bytes_of. by rewrite !lookup_insert_eq.
      - assert (d ≠ c) as Hne by (intros ->; destruct ac_fresh0 as [_ Hno]; eauto).
        unfold bytes_of. rewrite !lookup_insert_ne by done. rewrite ac_pending0 by done. by apply (Hby hd'). }
    unfold record_ract. rewrite !Hre. destruct ac_event0 as [Hr|(e & l & r & Hr & Hnote)].
    + apply (io_step s h o s' o' []); rewrite ?app_nil_r; done.
    + apply (io_step s h o s' o' [e]); try done; [by apply Forall_singleton; eexists|].
      unfold notes. cbn. rewrite Hnote. done.
Qed.

(** A handle whose close callback is about to run is no longer closing. *)
Lemma inv_close_done s o hd :
  read_inv rd s o → let s' := set_uv (uv_close_done hd (uv s)) s in
  read_inv rd s' o ∧ read_frame s s' ∧ hd ∉ (uv_closing (uv s')).*1.
Proof.
  intros [] s'. assert (∀ x, x ∈ uv_closing (uv s') → x ∈ uv_closing (uv s)) as Hsub.
  { intros x [_ Hx]%list_elem_of_filter. done. }
  split; [|split; [by apply (frame_uv s)|]].
  - split; try done.
    + intros hd' Hin. destruct (ri_closing hd' (Hsub _ Hin)) as [c Hc]. by exists c.
    + intros hd' Hin. exact (ri_closing_raw hd' (Hsub _ Hin)).
    + simpl. rewrite fst_filter. by apply NoDup_filter.
  - simpl. rewrite fst_filter. intros [Hx _]%list_elem_of_filter. done.
Qed.

Lemma closed_step s h o hd cb :
  rgood rd s h o → renabled s h (RClosed hd cb) →
  ∃ s' o', exec_ract (RClosed hd cb) s = Some (0, s') ∧
    rgood rd s' (record_ract s (RClosed hd cb) s' h) o' ∧ read_frame s s'.
Proof.
  intros Hg Hin. simpl in Hin. pose proof (rg_inv _ _ _ _ Hg) as Hi.
  pose proof (λ hd' d, rg_bytes _ _ _ _ Hg hd' d) as Hby.
  destruct (inv_close_done s o hd Hi) as (Hi1 & Hfr1 & Hni). set (s1 := set_uv _ s) in *.
  destruct cb; simpl; rewrite M_modify_uv; fold s1.
  - destruct (ri_closing _ _ _ Hi hd Hin) as [c Hc].
    destruct (close_channel_run rd s1 o hd c Hi1 Hc Hni) as (s' & o' & Hrun & []).
    exists s', o'. split; [by bstep Hrun|]. split; [|by eapply read_frame_trans].
    destruct cl_others as [Hn Hp], cl_updates as [Hu1 Hu2].
    assert (∀ hd' d, connected s' hd' d →
      bytes_of (arrived h) d = bytes_of (shown h) d ++ default [] (pending s' d)) as Heq.
    { intros hd' d Hd. unfold connected in Hd. rewrite cl_data in Hd. simpl in Hd.
      apply lookup_delete_Some in Hd as [Hne Hd]. rewrite Hp; [by apply (Hby hd')|].
      intros ->. destruct (ri_handles _ _ _ Hi hd c Hc) as (_ & x & Hx & Hpx & _).
      destruct (ri_handles _ _ _ Hi hd' c Hd) as (_ & y & Hy & Hpy & _). congruence. }
    unfold record_ract. destruct (o_free o) as [|e f].
    + destruct cl_event as [Hr _]. apply (io_step s h o s' o' []); rewrite ?app_nil_r; done.
    + destruct cl_event as (Hr & _ & Hnote).
      apply (io_step s h o s' o' [e]); try done; [by apply Forall_singleton; eexists|].
      unfold notes. cbn. rewrite Hnote. done.
  - pose proof (ri_closing_raw _ _ _ Hi hd Hin) as Hraw.
    pose proof (inv_release rd s1 o hd Hi1 Hni) as Hi2.
    eexists _, o. split; [reflexivity|]. split; [|split; try done; eauto].
    unfold record_ract. apply (io_step s h o _ o []); rewrite ?app_nil_r; try done.
    intros hd' d Hd. unfold connected in Hd. simpl in Hd. apply lookup_delete_Some in Hd as [_ Hd].
    by apply (Hby hd').
Qed.

Lemma inhand_fst s l :
  Forall (λ e, is_Some (event_note s e)) l → (omap (λ e, n ← event_note s e; Some (e, n)) l).*1 = l.
Proof.
  induction 1 as [|e l [n Hn] _ IH]; [done|]. cbn. rewrite Hn. cbn. by rewrite IH.
Qed.

Lemma acquire_step s h o :
  rgood rd s h o → renabled s h RAcquire →
  ∃ code s' o', exec_ract RAcquire s = Some (code, s') ∧ rgood rd s' (record_ract s RAcquire s' h) o' ∧ read_frame s s'.
Proof.
  intros [Hi (Hh1 & Hh2 & Hh3) Hsome Htold Hby] Hb. simpl in Hb. rewrite Hb in Hh3.
  destruct (acquire_run rd s o Hi Hh3) as (code & s' & Hrun & _ & Hi' & Hfr & Huv & Hn & Hp & Hcnt & Hup).
  set (n := Z.to_nat (buffer_count s)) in *. rewrite <- (take_drop n (o_ready o)) in Hsome, Htold.
  apply Forall_app in Hsome as [Hs1 Hs2]. rewrite notes_app in Htold.
  assert (∀ l, notes s' l = notes s l) as Hnl by (intros; by apply notes_kept).
  exists code, s', (take_ready n o). split; [simpl; by bstep Hrun|]. split; [|done].
  unfold record_ract. fold n. rewrite (ready_of s o Hi). split; simpl; rewrite ?Hnl; try done.
  - split; [by apply inhand_fst|]. split; [|simpl; by rewrite Hcnt].
    apply Forall_forall. intros [e x] Hin. apply list_elem_of_omap in Hin as (e' & _ & He').
    simpl. rewrite Hn. destruct (event_note s e') eqn:He; cbn in He'; [|done]. by simplify_eq.
  - apply Forall_forall. intros e He. rewrite Hn. exact (proj1 (Forall_forall _ _) Hs2 e He).
  - by rewrite <- app_assoc.
  - intros hd c Hc. rewrite Hp. unfold connected in Hc. rewrite Huv in Hc. by eapply Hby.
Qed.

Lemma release_step s h o :
  rgood rd s h o → renabled s h RRelease →
  ∃ s' o', exec_ract RRelease s = Some (0, s') ∧ rgood rd s' (record_ract s RRelease s' h) o' ∧ read_frame s s'.
Proof.
  intros [Hi (Hh1 & Hh2 & Hh3) Hsome Htold Hby] Hb. simpl in Hb. rewrite Hb in Hh3. destruct Hh3 as [Hcnt Hup].
  destruct (release_loop_run rd (o_held o) s o 0 Hi eq_refl Hup) as
    (s' & o' & Hrun & Hi' & Hheld & Hready & _ & _ & Hfr & Huv & Hn & Hp).
  exists s', o'. split.
  { simpl. unfold tcp_service_events_release. rewrite M_get, Hcnt, Nat2Z.id. by bstep Hrun. }
  split; [|done]. split; simpl; rewrite ?Hready; try done.
  - apply Forall_forall. intros e He. rewrite Hn by done. exact (proj1 (Forall_forall _ _) Hsome e He).
  - by rewrite (notes_kept s s' (o_ready o)).
  - intros hd c Hc. rewrite Hp. unfold connected in Hc. rewrite Huv in Hc. by eapply Hby.
Qed.

Lemma ract_good s h o x :
  rgood rd s h o → renabled s h x →
  ∃ code s' o', exec_ract x s = Some (code, s') ∧ rgood rd s' (record_ract s x s' h) o' ∧ read_frame s s'.
Proof.
  intros Hg Hen. destruct x.
  - destruct (connect_step s h o env status Hg Hen) as (s' & o' & ?). by exists 0, s', o'.
  - destruct (read_step s h o h0 answer Hg Hen) as (s' & o' & ?). by exists 0, s', o'.
  - destruct (closed_step s h o h0 cb Hg Hen) as (s' & o' & ?). by exists 0, s', o'.
  - by apply (acquire_step s h o).
  - destruct (release_step s h o Hg Hen) as (s' & o' & ?). by exists 0, s', o'.
Qed.

(** A step of the send path, seen from the receive path. *)
Lemma rgood_write s h o s' :
  rgood rd s h o → write_frame s s' → same_inside (pool_read s) (sv_mem s) (sv_mem s') → rgood rd s' h o.
Proof.
  intros [Hi (Hh1 & Hh2 & Hh3) Hsome Htold Hby] [Hch Hpr Hev [Hu1 Hu2] Hbc [Hd Hcl] _ _] Hm.
  assert (∀ hd c, connected s' hd c ↔ connected s hd c) as Hcn by (intros; unfold connected; by rewrite Hd).
  assert (read_inv rd s' o) as Hi'.
  { destruct Hi. split; rewrite ?Hch, ?Hpr, ?Hev, ?Hu1, ?Hbc, ?Hcl, ?Hd; try done.
    - by apply (rep_frame rd (pool_read s) (sv_mem s)).
    - intros e He. destruct (ri_ok e He) as (ev & ? & ? & ?). exists ev. by rewrite Hev, Hpr.
    - intros hd c Hc. apply Hcn in Hc. by apply ri_handles.
    - intros hd Hin. destruct (ri_closing hd Hin) as [c Hc]. exists c. by apply Hcn. }
  assert (∀ e, e ∈ o_ready o ++ o_held o → event_note s' e = event_note s e) as Hn.
  { intros e He. apply (note_kept rd s s' o o); try done. by rewrite Hev. }
  assert (∀ d, pending s' d = pending s d) as Hp.
  { intros d. destruct (client_map (channel_list s) !! d) as [ch|] eqn:Hc.
    - apply (pending_kept rd s s' o o d ch); try done. exists ch. by rewrite Hch.
    - unfold pending. by rewrite Hch, Hc. }
  split; try done.
  - split; [done|]. split; [|by rewrite Hu1, Hu2].
    apply Forall_forall. intros [e n] Hin. simpl. rewrite Hn; [exact (proj1 (Forall_forall _ _) Hh2 _ Hin)|].
    apply elem_of_app. right. rewrite <- Hh1. apply list_elem_of_fmap. by exists (e, n).
  - apply Forall_forall. intros e He. rewrite Hn by set_solver. exact (proj1 (Forall_forall _ _) Hsome e He).
  - rewrite (notes_kept s s' (o_ready o)) by (intros; apply Hn; set_solver). done.
  - intros hd c Hc. rewrite Hp. apply Hcn in Hc. by eapply Hby.
Qed.

End Steps.

(** ** Both threads *)

(** The blocks of the two pools do not overlap. *)
Definition pools_apart (s : tcp_service_t) : Prop :=
  let stop p := allocation p + block_count p * block_size p in
  stop (pool_read s) ≤ allocation (pool_write s) ∨ stop (pool_write s) ≤ allocation (pool_read s).

(** Any interleaving of the two paths, with their histories. *)
Inductive reach (s0 : tcp_service_t) : tcp_service_t → history → rhistory → Prop :=
  | reach_start : reach s0 s0 no_history
      {| told := []; heard := []; inhand := []; busy := false; arrived := ∅; shown := ∅ |}
  | reach_write s h r x code s' :
      reach s0 s h r → enabled s x → exec_wact x s = Some (code, s') → reach s0 s' (record_wact s x code h) r
  | reach_read s h r x code s' :
      reach s0 s h r → renabled s r x → exec_ract x s = Some (code, s') →
      reach s0 s' h (record_ract s x s' r).

(** The read cursor covers all bytes of the buffer. *)
Definition whole (b : tn_buffer_t) : Prop := pos b = {| cur_ptr := buf_buffer (buf b); cur_len := buf_len (buf b) |}.
Definition whole_buffers (s : tcp_service_t) : Prop := Forall whole (tn_buffers (pool_read s)).

(** The state after set-up: all requests, buffers, events and channels are free. *)
Record fresh_service (rd wr : Z) (s : tcp_service_t) : Prop := {
  fs_write : ∃ a free, write_inv wr [] s a free [];
  fs_read : ∃ a free chans, read_inv rd s {| o_pool := a; o_free := free; o_ready := []; o_held := []; o_channels := chans |};
  fs_uv : uv_data (uv s) = ∅ ∧ uv_writes (uv s) = [];
  fs_apart : pools_apart s;
  fs_whole : whole_buffers s;
}.

Record both_good (rd wr : Z) (s : tcp_service_t) (h : history) (r : rhistory) : Prop := {
  bg_write : wgood wr s h;
  bg_read : ∃ o, rgood rd s r o;
  bg_apart : pools_apart s;
}.

Section Both.
Context (rd wr : Z).
Implicit Types s : tcp_service_t.

(** What a step of the send path leaves alone. *)
Lemma wact_frame s h x :
  wgood wr s h → enabled s x → ∃ code s', exec_wact x s = Some (code, s') ∧ write_frame s s'.
Proof.
  intros [(a & free & ready & Hi) _ _ _] Hen. destruct x as [c src n|uv_write|r status].
  - destruct Hen as (Hn & (ch & Hch & Hsv) & bs & Hrd & Hlen & Hby).
    destruct (send_run wr _ s a free ready c ch src n bs Hi Hch Hsv Hn ltac:(done) Hby)
      as (code & s' & a' & free' & ready' & Hrun & _ & Hfr & _). by exists code, s'.
  - destruct (on_prep_cb_run wr uv_write s a free ready _ Hi) as (s' & a' & Hrun & _ & Hfr & _).
    exists 0, s'. split; [simpl; by bstep Hrun|done].
  - simpl in Hen. pose proof (sent_done wr s a free ready r Hi Hen) as Hi1.
    destruct (on_send_cb_run wr _ a free ready _ r status Hi1) as (s' & a' & Hrun & _ & Hfr & _).
    exists 0, s'. split; [unfold exec_wact; rewrite M_modify_uv; by bstep Hrun|].
    apply (write_frame_trans _ (set_uv (uv_write_done r (uv s)) s)); [|done]. by split.
Qed.

Lemma apart_same s s' :
  pools_apart s → same_geometry (pool_read s) (pool_read s') → same_geometry (pool_write s) (pool_write s') →
  pools_apart s'.
Proof. unfold pools_apart. intros Ha (H1 & H2 & H3) (H4 & H5 & H6). by rewrite H1, H2, H3, H4, H5, H6. Qed.

Lemma elsewhere_read s s' : pools_apart s → read_frame s s' → elsewhere s s'.
Proof.
  intros Ha []. split; try done. intros x Hx. apply rf_mem. unfold pools_apart in Ha. lia.
Qed.

Lemma good_write s h r x code s' :
  both_good rd wr s h r → enabled s x → exec_wact x s = Some (code, s') →
  both_good rd wr s' (record_wact s x code h) r.
Proof.
  intros [Hw [o Hr] Ha] Hen Hrun. destruct (wact_good wr s h x Hw Hen) as (code' & s1 & Hrun' & Hw').
  destruct (wact_frame s h x Hw Hen) as (code'' & s2 & Hrun'' & Hfr). simplify_eq. split; [done| |].
  - exists o. apply (rgood_write rd s r o); try done. intros y Hy. apply (wf_mem _ _ Hfr).
    unfold pools_apart in Ha. lia.
  - apply (apart_same s); [done| |apply Hfr]. by rewrite (wf_read _ _ Hfr).
Qed.

Lemma good_read s h r x code s' :
  both_good rd wr s h r → renabled s r x → exec_ract x s = Some (code, s') →
  both_good rd wr s' h (record_ract s x s' r).
Proof.
  intros [Hw [o Hr] Ha] Hen Hrun. destruct (ract_good rd s r o x Hr Hen) as (code' & s1 & o' & Hrun' & Hr' & Hfr).
  simplify_eq. split; [|by exists o'|].
  - apply (elsewhere_good wr s); [done|]. by apply elsewhere_read.
  - apply (apart_same s); [done|apply Hfr|]. by rewrite (rf_pool _ _ Hfr).
Qed.

Lemma reach_good s0 s h r : fresh_service rd wr s0 → reach s0 s h r → both_good rd wr s h r.
Proof.
  intros [(a & free & Hw) (ra & rfree & chans & Hr) [Hd Huw] Hap _]. induction 1.
  - split; [| |done].
    + split; simpl; rewrite ?Huw; [by eauto| |done|done].
      by rewrite (queued_rep s0 [] _ (wi_ready _ _ _ _ _ _ Hw)).
    + eexists. split; [done|done|by constructor|done|].
      intros hd c Hc. unfold connected in Hc. by rewrite Hd in Hc.
  - by eapply good_write.
  - by eapply good_read.
Qed.

End Both.

(** ** Theorems *)

(** C1. No call of either thread is ever undefined.  From a service that was set up, after
    any interleaving of sends, loop turns, finished writes, connections, reads, closed
    handles and event exchanges, whatever the system answers, every next call returns: no
    assertion fails, no [NULL] is followed, no access leaves its object and no loop
    runs out of elements. *)
Theorem service_never_undefined rd wr s0 s h r :
  fresh_service rd wr s0 → reach s0 s h r →
  (∀ x, enabled s x → is_Some (exec_wact x s)) ∧ (∀ x, renabled s r x → is_Some (exec_ract x s)).
Proof.
  intros Hf Hr. destruct (reach_good rd wr s0 s h r Hf Hr) as [Hw [o Hrg] _]. split; intros x Hx.
  - destruct (wact_good wr s h x Hw Hx) as (code & s' & -> & _). by eexists.
  - destruct (ract_good rd s r o x Hrg Hx) as (code & s' & o' & -> & _). by eexists.
Qed.

(** C2. The main thread is told exactly what happened.  In every reachable state the notes
    the IO thread published are, in order, those the main thread took followed by those
    in the ready queue; the events the main thread holds still say what they said when
    taken (their bytes are not overwritten); and for every connected channel the bytes
    that arrived since the connection are the bytes of its read events followed by the
    bytes that wait in its buffer. *)
Theorem receive_path_exact rd wr s0 s h r :
  fresh_service rd wr s0 → reach s0 s h r →
  told r = heard r ++ notes s (ready_list s) ∧
  length (notes s (ready_list s)) = length (ready_list s) ∧
  Forall (λ x, event_note s x.1 = Some x.2) (inhand r) ∧
  ∀ hd c, connected s hd c →
    bytes_of (arrived r) c = bytes_of (shown r) c ++ default [] (pending s c).
Proof.
  intros Hf Hr. destruct (reach_good rd wr s0 s h r Hf Hr) as [_ [o []] _].
  rewrite (ready_of rd s o rg_inv0). split_and!; try done; [|apply rg_hand0].
  clear -rg_some0. unfold notes. induction rg_some0 as [|e l [n Hn] _ IH]; [done|]. cbn. rewrite Hn. simpl. by rewrite IH.
Qed.

