(* ===== verification/ServiceSetup.v ===== *)
(** [tcp_service_setup] makes the fresh service the runs start from, and a small service
    whose runs are executed. *)
From stdpp Require Import base numbers list option gmap.
From Stdlib Require Import ZArith Lia.
From S2P Require Import Prelude QueueSpsc ByteBuf Buffer BufferPool ListPtr Inet Endpoint Event Channel Service.
From S2P Require Import ServiceWrite ServiceRead ServiceRun.

Local Open Scope Z_scope.
Local Open Scope c_scope.

Section Setup.
Implicit Types s : tcp_service_t.

Lemma omap_nil_iff {A B} (f : A → option B) (l : list A) : (∀ x, x ∈ l → f x = None) → omap f l = [].
Proof.
  intros H. induction l as [|x l IH]; [done|]. cbn. rewrite (H x) by set_solver. apply IH. set_solver.
Qed.

(** [n] rounds of the loop that frees the requests, after the first [i]. *)
Lemma setup_reqs_run n : ∀ i s,
  queue_rep (write_reqs_free s) (seq 0 i) (i + n) → length (write_reqs s) = (i + n)%nat →
  length (event_updates s) = (i + n)%nat →
  ∃ q reqs us, setup_reqs n (Z.of_nat i) s =
      Some (TN_SUCCESS, set_event_updates us (set_write_reqs_free q (set_write_reqs reqs s))) ∧
    queue_rep q (seq 0 (i + n)) (i + n) ∧ length reqs = (i + n)%nat ∧ length us = (i + n)%nat.
Proof.
  induction n as [|n IH]; intros i s Hq Hr Hu.
  - rewrite Nat.add_0_r in *. exists (write_reqs_free s), (write_reqs s), (event_updates s).
    split; [|done]. by destruct s.
  - destruct (lookup_lt_is_Some_2 (write_reqs s) i) as [rq Hrq]; [lia|].
    cbn [setup_reqs]. rewrite Nat2Z.id. bstep (update_req_run i (λ r, {| wr_base := wr_base r; wr_len := wr_len r;
        wr_channel := wr_channel r; wr_buffer := NULL; wr_id := Z.of_nat i |}) s rq Hrq).
    destruct (q_push _ _ _ i Hq) as (q & Hpush & Hq'); [rewrite length_seq; lia|]. unfold on_wfree.
    set (s1 := set_write_reqs _ s). zstep Hpush s1. rewrite decide_True by (simpl; lia).
    rewrite M_put. set (s2 := set_event_updates _ _).
    destruct (IH (S i) s2) as (q2 & reqs & us & Hrun & Hq2 & Hl1 & Hl2).
    + rewrite Nat.add_succ_comm, seq_S. exact Hq'.
    + simpl. rewrite length_insert. lia.
    + simpl. rewrite length_insert. lia.
    + exists q2, reqs, us. replace (Z.of_nat i + 1) with (Z.of_nat (S i)) by lia. rewrite Hrun.
      rewrite <- Nat.add_succ_comm. done.
Qed.

(** What the allocator has to grant for [mc] clients and blocks of [mr] bytes. *)
Record service_granted (mc mr : Z) (acq : service_acquire) (m : mem) : Prop := {
  sg_clients : 0 < mc ≤ 2 ^ 20;
  sg_priv : sa_priv acq sizeof_priv = true;
  sg_map : acquire_map (sa_channels acq) (mc * sizeof_tcp_channel) = true;
  sg_list : ∃ d, acquire_list (sa_channels acq) (mc * 8) = Some d ∧ Z.of_nat (length d) = mc;
  sg_read : granted (sa_read acq) m (mc * 4) mr;
  sg_write : granted (sa_write acq) m (mc * 4) mr;
  sg_queues : Forall (λ f, acquire_ok f ∧ is_Some (f (8 * (1 + 2 ^ Z.log2_up (mc * 4)))))
    [acquire_free (sa_events acq); acquire_ready (sa_events acq); sa_wfree acq; sa_wready acq];
  sg_events : ∃ es, acquire_events (sa_events acq) (2 ^ Z.log2_up (mc * 4) * TN_EVENT_MAX_SIZE) = Some es ∧
    Z.of_nat (length es) = 2 ^ Z.log2_up (mc * 4);
  sg_updates : ∃ us, sa_updates acq (mc * 4 * 8) = Some us ∧ Z.of_nat (length us) = mc * 4;
  sg_reqs : ∃ rs, sa_reqs acq (mc * 4 * sizeof_write_req) = Some rs ∧ Z.of_nat (length rs) = mc * 4;
  sg_apart : ∀ a b, let size := mc * 4 * mr in
    acquire_allocation (sa_read acq) size = Some a → acquire_allocation (sa_write acq) size = Some b →
    a + size ≤ b ∨ b + size ≤ a;
}.

Lemma queue_fresh acq cap n b q :
  acquire_ok acq → 0 < cap ≤ 2 ^ 60 → acq (8 * (1 + 2 ^ Z.log2_up cap)) = Some b → Z.of_nat n = cap →
  ∃ q', tn_queue_spsc_setup acq cap q = Some (TN_SUCCESS, q') ∧ queue_rep q' [] n.
Proof.
  intros Hok Hcap Hb Hn. destruct (queue_setup_run acq cap b q Hok Hcap Hb) as (q' & Hrun & Hwf & Hc & Hcon).
  exists q'. split; [done|]. split; [done| |done]. rewrite Hc, Hn. apply Z.log2_log2_up_spec. lia.
Qed.

Lemma fresh_whole self p m n b : pool_rep self p m (fresh_streams n b) → b = block_size p → Forall whole (tn_buffers p).
Proof.
  intros Hp Hb. apply Forall_lookup. intros i bf Hbf. destruct (rep_lookup self p m _ i bf Hp Hbf) as (u & k & Hs & Hu & Hr & _ & [[] ? ? ?]).
  unfold fresh_streams in Hs. simpl in Hs. apply lookup_replicate in Hs as [[= -> ->] _]. unfold unread in Hu. simpl in Hu.
  apply length_mem_load in Hu as Hl; [|done]. simpl in Hl. unfold room in Hr. unfold whole. destruct (pos bf) as [q l]. simpl in *. f_equal; lia.
Qed.

(** The members after the last loop: everything is free. *)
Lemma fresh_state rd wr s cl pr pw ev q1 q2 reqs us n a b :
  uv s = {| uv_data := ∅; uv_closing := []; uv_writes := [] |} → (0 < n)%nat →
  channels_rep cl a → (∀ i c, client_map cl !! i = Some c → c = set_ch_id (Z.of_nat i) zero_channel) →
  pool_rep rd pr (sv_mem s) (fresh_streams (Z.of_nat n) b) → block_count pr = Z.of_nat n → b = block_size pr →
  pool_rep wr pw (sv_mem s) (fresh_streams (Z.of_nat n) b) → block_count pw = Z.of_nat n →
  events_rep ev (seq 0 (length (tn_events ev))) [] →
  queue_rep q1 (seq 0 n) n → queue_rep q2 [] n → length reqs = n → length us = n →
  let s' := set_event_updates us (set_write_reqs_free q1 (set_write_reqs reqs
    (set_write_reqs_ready q2 (set_events ev (set_write_side pw (sv_mem s) (set_read_side pr (sv_mem s)
      (set_buffer_count (Z.of_nat n) (set_channel_list cl s)))))))) in
  pools_apart s' → fresh_service rd wr s'.
Proof.
  intros Huv Hn Hcl Hzero Hpr Hcr Hbs Hpw Hcw Hev Hq1 Hq2 Hreqs Hus s' Hap.
  pose proof (ps_array _ _ _ (pr_shape _ _ _ _ Hpr)). pose proof (ps_array _ _ _ (pr_shape _ _ _ _ Hpw)).
  split; [| |unfold s'; simpl; by rewrite Huv|done|by eapply fresh_whole].
  - exists (fresh_streams (Z.of_nat n) b), (seq 0 n). split; simpl; rewrite ?Hreqs; try done.
    + by rewrite app_nil_r.
    + rewrite app_nil_r, Nat2Z.id. by replace (length (tn_buffers pw)) with n by lia.
    + intros r Hr. by apply elem_of_nil in Hr.
  - exists (fresh_streams (Z.of_nat n) b), (seq 0 (length (tn_events ev))), a.
    assert (channel_bufs (client_map cl) = []) as Hcb.
    { unfold channel_bufs. apply omap_nil_iff. intros c [i Hi]%list_elem_of_lookup. by rewrite (Hzero i c Hi). }
    split; simpl; try done.
    + by rewrite app_nil_r.
    + rewrite Hcb, Nat2Z.id. simpl. rewrite app_nil_r. by replace (length (tn_buffers pr)) with n by lia.
    + intros e He. by apply elem_of_nil in He.
    + intros c ch _ Hch. by rewrite (Hzero c ch Hch).
    + intros h c Hc. unfold connected in Hc. simpl in Hc. by rewrite Huv in Hc.
    + intros h Hh. rewrite Huv in Hh. by apply elem_of_nil in Hh.
    + intros h Hh. rewrite Huv in Hh. by apply elem_of_nil in Hh.
    + rewrite Huv. by apply NoDup_nil.
    + rewrite Hus. lia.
Qed.

(** Set-up for any number of clients and size of the blocks. *)
Lemma setup_run mc mr acq rd wr s :
  service_granted mc mr acq (sv_mem s) → uv s = {| uv_data := ∅; uv_closing := []; uv_writes := [] |} →
  ∃ s', service_setup_sized mc mr acq rd wr s = Some (TN_SUCCESS, s') ∧ fresh_service rd wr s' ∧
    tn_atomic_load (sv_state s') = TCP_SERVICE_NEW ∧ sv_mem s' = sv_mem s ∧
    clients_max (channel_list s') = mc ∧ buffer_count s' = mc * 4 ∧
    block_size (pool_read s') = mr ∧ block_size (pool_write s') = mr.
Proof.
  intros [Hmc Hpriv Hmap (d & Hlist & Hd) Hread Hwrite Hqs (es & Hes & Hle) (us & Hus & Hlu) (rs & Hrs & Hlr) Hap] Huv.
  apply Forall_cons in Hqs as [[Hf1 Hf2] Hqs]. apply Forall_cons in Hqs as [[Hr1 Hr2] Hqs].
  apply Forall_cons in Hqs as [[Hwf1 [x1 Hwf2]] Hqs]. apply Forall_cons in Hqs as [[Hwr1 [x2 Hwr2]] _].
  unfold service_setup_sized, tcp_service_set_state.
  set (wsz := sizeof_write_req) in *. assert (wsz = 232) as Hwsz by reflexivity. clearbody wsz.
  set (n4 := mc * 4) in *. assert (0 < n4 ≤ 2 ^ 22) as Hn4 by (unfold n4; lia).
  rewrite !M_modify, Hpriv. cbn [negb]. rewrite M_modify.
  set (s1 := set_sv_priv (Some tt) _).
  destruct (channel_setup_run (sa_channels acq) mc d (channel_list s1)) as (cl & Hrun1 & Hcl & Hclm & Hzero); [lia|done..|].
  bstep (on_channels_run _ s1 _ _ Hrun1). set (s2 := set_buffer_count n4 _).
  destruct (pool_setup_run rd (sa_read acq) n4 mr (pool_read s2) (sv_mem s2) Hread)
    as (pr & Hrun2 & Hpr1 & Hpr2 & _ & Hpr3 & Hpr).
  bstep (on_read_pool_run _ s2 _ _ _ Hrun2). set (s3 := set_read_side pr _ s2).
  destruct (pool_setup_run wr (sa_write acq) n4 mr (pool_write s3) (sv_mem s3) Hwrite)
    as (pw & Hrun3 & Hpw1 & Hpw2 & _ & Hpw3 & Hpw).
  bstep (on_write_pool_run _ s3 _ _ _ Hrun3). set (s4 := set_write_side pw _ s3).
  destruct (event_setup_run (sa_events acq) n4 es (events s4)) as (ev & Hrun4 & Hev & Hevc); try done; [lia|].
  bstep (on_events_run _ s4 _ _ Hrun4).
  rewrite (u64_small (n4 * 8)), Hus by lia. rewrite M_modify.
  rewrite (u64_small (n4 * wsz)), Hrs by lia. rewrite M_modify.
  set (s5 := set_write_reqs rs _). set (n := Z.to_nat n4). assert (Z.of_nat n = n4) as Hn by (unfold n; lia).
  clearbody n. unfold on_wfree, on_wready.
  destruct (queue_fresh (sa_wfree acq) n4 n x1 (write_reqs_free s5) Hwf1) as (q1 & Hq1 & Hqr1); try done; [lia|].
  zstep Hq1 s5. set (s6 := set_write_reqs_free q1 s5).
  destruct (queue_fresh (sa_wready acq) n4 n x2 (write_reqs_ready s6) Hwr1) as (q2 & Hq2 & Hqr2); try done; [lia|].
  zstep Hq2 s6. set (s7 := set_write_reqs_ready q2 s6).
  destruct (setup_reqs_run n 0 s7) as (q & reqs & us' & Hrun5 & Hq & Hl1 & Hl2); [done|simpl; lia|simpl; lia|].
  change (Z.of_nat 0) with 0 in Hrun5. rewrite Hrun5. eexists. split; [reflexivity|]. split; [|done].
  pose proof (er_array _ _ _ Hev) as Hea. rewrite Hevc in Hea.
  assert (seq 0 (Z.to_nat (2 ^ Z.log2_up n4)) = seq 0 (length (tn_events ev))) as Hseq
    by (rewrite <- Hea; by rewrite Nat2Z.id).
  rewrite Hseq in Hev. simpl in Hq, Hl1, Hl2.
  pose proof (fresh_state rd wr s1 cl pr pw ev q q2 reqs us' n (seq 0 (Z.to_nat mc)) mr Huv) as Hfin.
  rewrite Hn in Hfin. apply Hfin; try done; [lia|].
  unfold pools_apart. simpl. rewrite Hpr1, Hpr2, Hpw1, Hpw2. by apply Hap.
Qed.

End Setup.

(** [tcp_service_setup] makes a fresh service: when the allocator grants every request
    (its blocks apart and of the size asked for) the call succeeds for the constants of
    the program, every request, buffer, event and channel is free, the two pools do not
    overlap, and the state is [TCP_SERVICE_NEW].  This is the state the runs of the service
    start from. *)
Theorem tcp_service_setup_fresh acq rd wr s :
  service_granted TN_SERVICE_MAX_CLIENTS TN_SERVICE_MAX_READ acq (sv_mem s) →
  uv s = {| uv_data := ∅; uv_closing := []; uv_writes := [] |} →
  ∃ s', tcp_service_setup acq rd wr s = Some (TN_SUCCESS, s') ∧ fresh_service rd wr s' ∧
    tn_atomic_load (sv_state s') = TCP_SERVICE_NEW ∧ sv_mem s' = sv_mem s ∧
    clients_max (channel_list s') = TN_SERVICE_MAX_CLIENTS ∧ buffer_count s' = TN_SERVICE_MAX_CLIENTS * 4 ∧
    block_size (pool_read s') = TN_SERVICE_MAX_READ ∧ block_size (pool_write s') = TN_SERVICE_MAX_READ.
Proof. apply setup_run. Qed.

(** ** An allocator that grants *)

Definition blank_event : tn_event_t := {| ev_id := 0; ev_type := 0; client_id := 0; body := BRaw |}.
Definition blank_req : tcp_service_write_req_t :=
  {| wr_base := 0; wr_len := 0; wr_channel := NULL; wr_buffer := NULL; wr_id := 0 |}.

(** As many zeroed elements as fit the bytes asked for. *)
Definition zeroed {A} (x : A) (elem sz : Z) : option (list A) := Some (replicate (Z.to_nat (sz / elem)) x).

(** Pool memory at the given address. *)
Definition pool_at (a : Z) : pool_acquire :=
  {| acquire_allocation := λ _, Some a; acquire_buffers := zeroed sample_buffer sizeof_tn_buffer;
     acquire_slots := sample_acquire |}.

(** The read pool's memory at 4096 and the write pool's after its [size] bytes. *)
Definition generous (size : Z) : service_acquire :=
  {| sa_priv := λ _, true;
     sa_channels := {| acquire_map := λ _, true; acquire_list := zeroed NULL 8 |};
     sa_read := pool_at 4096; sa_write := pool_at (4096 + size);
     sa_events := {| acquire_events := zeroed blank_event TN_EVENT_MAX_SIZE; acquire_free := sample_acquire;
                     acquire_ready := sample_acquire |};
     sa_updates := zeroed NULL 8; sa_reqs := zeroed blank_req sizeof_write_req;
     sa_wfree := sample_acquire; sa_wready := sample_acquire |}.

Definition idle_loop : uv_loop := {| uv_data := ∅; uv_closing := []; uv_writes := [] |}.
Definition no_stats : io_stats := {| send_msgs := 0; send_bytes := 0; recv_msgs := 0; recv_bytes := 0 |}.

Lemma zeroed_grants {A} (x : A) elem n :
  0 < elem → 0 ≤ n → ∃ l, zeroed x elem (n * elem) = Some l ∧ Z.of_nat (length l) = n.
Proof.
  intros He Hn. eexists. split; [reflexivity|]. rewrite length_replicate, Z.div_mul, Z2Nat.id; lia.
Qed.

Lemma pool_at_granted a m count size :
  0 < count < 2 ^ 58 → 0 < size ≤ MAX_BLOCK → 0 < a → a + count * size < W64 → allocated m a (count * size) →
  granted (pool_at a) m count size.
Proof.
  intros Hc Hs Ha Hw Hal. split; try done; simpl.
  - by exists a.
  - apply zeroed_grants; [done|lia].
  - split; [apply sample_acquire_ok|by eexists].
Qed.

Lemma generous_granted mc mr m :
  0 < mc ≤ 2 ^ 20 → 0 < mr ≤ 2 ^ 16 → allocated m 4096 (2 * (mc * 4 * mr)) →
  service_granted mc mr (generous (mc * 4 * mr)) m.
Proof.
  intros Hmc Hmr Hal. assert (mc * 4 * mr ≤ 2 ^ 38) by nia.
  split; try done; cbn [generous sa_channels sa_read sa_write sa_events sa_updates sa_reqs acquire_list acquire_events].
  - apply zeroed_grants; lia.
  - apply pool_at_granted; [lia..|]. intros x Hx. apply Hal. lia.
  - apply pool_at_granted; [lia..|]. intros x Hx. apply Hal. lia.
  - repeat (apply Forall_cons; split; [split; [apply sample_acquire_ok|by eexists]|]). by apply Forall_nil.
  - apply zeroed_grants; [done|]. apply Z.pow_nonneg. lia.
  - apply zeroed_grants; lia.
  - apply zeroed_grants; [done|lia].
  - intros a b Ha Hb. injection Ha as <-. injection Hb as <-. lia.
Qed.

Lemma some_memory n : ∃ m : mem, allocated m 4096 n.
Proof.
  exists (gset_to_gmap 0 (list_to_set (seqZ 4096 n))). intros x Hx. exists 0.
  apply lookup_gset_to_gmap_Some. split; [|done]. apply elem_of_list_to_set, elem_of_seqZ. lia.
Qed.

Lemma tcp_service_setup_fresh_witness :
  ∃ acq s s', tcp_service_setup acq 64 128 s = Some (TN_SUCCESS, s') ∧ fresh_service 64 128 s' ∧
    clients_max (channel_list s') = 10000 ∧ buffer_count s' = 40000.
Proof.
  destruct (some_memory (2 * (TN_SERVICE_MAX_CLIENTS * 4 * TN_SERVICE_MAX_READ))) as [m Hm].
  exists (generous (TN_SERVICE_MAX_CLIENTS * 4 * TN_SERVICE_MAX_READ)), (zero_service m idle_loop no_stats).
  destruct (tcp_service_setup_fresh (generous (TN_SERVICE_MAX_CLIENTS * 4 * TN_SERVICE_MAX_READ)) 64 128
    (zero_service m idle_loop no_stats)) as (s' & Hrun & Hf & _ & _ & Hc & Hb & _).
  - apply generous_granted; [unfold TN_SERVICE_MAX_CLIENTS; lia|unfold TN_SERVICE_MAX_READ; lia|exact Hm].
  - reflexivity.
  - exists s'. split; [exact Hrun|]. split; [exact Hf|]. split; [exact Hc|exact Hb].
Defined.

(** ** An executed run *)

(** The code of the set-up with two clients and blocks of four bytes. *)
Definition small_mem : mem := list_to_map ((λ a, (a, 0)) <$> seqZ 4096 64).
Definition small_service : tcp_service_t :=
  match service_setup_sized 2 4 (generous 32) 64 128 (zero_service small_mem idle_loop no_stats) with
  | Some (_, s) => s
  | None => zero_service ∅ idle_loop no_stats
  end.

Lemma small_fresh : fresh_service 64 128 small_service.
Proof.
  destruct (setup_run 2 4 (generous 32) 64 128 (zero_service small_mem idle_loop no_stats))
    as (s' & Hrun & Hf & _); [|done|].
  - apply (generous_granted 2 4); [lia|lia|]. apply allocated_bool. vm_compute. reflexivity.
  - unfold small_service. by rewrite Hrun.
Qed.

Inductive step := Write (x : wact) | Read (x : ract).

Definition addr_okb (sa : sockaddr) : bool :=
  let bytes := forallb (λ b, (0 <=? b) && (b <? 256)) in
  match sa with
  | SockAddr _ => true
  | SockAddrIn p a | SockAddrIn6 p a _ => (length p =? 2)%nat && bytes p && bytes a
  end.

Definition renabledb (s : tcp_service_t) (h : rhistory) (x : ract) : bool :=
  match x with
  | RConnect env _ =>
      match ae_handle env with
      | Some hd => bool_decide (uv_data (uv s) !! hd = None)
      | None => true
      end && addr_okb (ae_getpeername env).2 && addr_okb (ae_getsockname env).2
  | RRead hd answer =>
      bool_decide (is_Some (channel_of s hd)) && negb (uv_is_closing hd (uv s)) &&
      match answer with
      | ReadBytes bs => negb (bool_decide (bs = [])) && forallb (λ b, (0 <=? b) && (b <? 256)) bs
      | ReadError err => err <? 0
      | _ => true
      end
  | RClosed hd cb => existsb (λ y, (y.1 =? hd)%nat && match y.2, cb with
      | CbChannel, CbChannel | CbHandle, CbHandle => true | _, _ => false end) (uv_closing (uv s))
  | RAcquire => negb (busy h)
  | RRelease => busy h
  end.

Fixpoint run_steps (xs : list step) (s : tcp_service_t) (h : history) (r : rhistory) :
    option (tcp_service_t * history * rhistory) :=
  match xs with
  | [] => Some (s, h, r)
  | Write x :: xs =>
      if enabledb s x then '(code, s') ← exec_wact x s; run_steps xs s' (record_wact s x code h) r else None
  | Read x :: xs =>
      if renabledb s r x then '(code, s') ← exec_ract x s; run_steps xs s' h (record_ract s x s' r) else None
  end.

Definition no_rhistory : rhistory :=
  {| told := []; heard := []; inhand := []; busy := false; arrived := ∅; shown := ∅ |}.
Definition client (h : nat) (port : Z) : accept_env :=
  {| ae_handle := Some h; ae_tcp_init := 0; ae_accept := 0; ae_getpeername := (0, SockAddrIn [15; port] [10; 0; 0; 2]);
     ae_getsockname := (0, SockAddrIn [27; 88] [10; 0; 0; 1]); ae_read_start := 0 |}.
Definition small_run : list step :=
  [Read (RConnect (client 5 161) 0); Read (RConnect (client 6 162) 0); Read (RRead 5 (ReadBytes [1; 2; 3; 4; 5; 6]));
   Read RAcquire; Write (ASend 1 (SrcBytes [9; 8]) 2); Read (RRead 5 (ReadBytes [5; 6])); Write (APrep (λ _, 0));
   Write (ASend 0 (SrcBytes [7]) 1); Read RRelease; Read (RRead 6 ReadEof); Write (ASent 0 0);
   Read (RClosed 6 CbChannel); Write (APrep (λ _, 0)); Read RAcquire].

Lemma bytes_okb bs : forallb (λ b, (0 <=? b) && (b <? 256)) bs = true → Forall is_byte bs.
Proof.
  rewrite forallb_forall. intros H. apply Forall_forall. intros b Hb%list_elem_of_In. apply H in Hb.
  unfold is_byte. lia.
Qed.

Lemma addr_okb_sound sa : addr_okb sa = true → sockaddr_ok sa.
Proof.
  assert (∀ p a, (length p =? 2)%nat && forallb (λ b, (0 <=? b) && (b <? 256)) p &&
    forallb (λ b, (0 <=? b) && (b <? 256)) a = true → port_ok p ∧ Forall byte_range a) as H.
  { intros p a. rewrite !andb_true_iff. intros [[Hl%Nat.eqb_eq Hp%bytes_okb] Ha%bytes_okb]. split; [|done].
    destruct p as [|hi [|lo [|]]]; try done. apply Forall_cons in Hp as [? Hp]. apply Forall_cons in Hp as [? _].
    by exists hi, lo. }
  destruct sa; simpl; [done|apply H..].
Qed.

Lemma renabledb_sound s h x : renabledb s h x = true → renabled s h x.
Proof.
  destruct x as [env status|hd answer|hd cb| |]; simpl.
  - rewrite !andb_true_iff. intros [[H1 H2%addr_okb_sound] H3%addr_okb_sound]. split; [|done].
    intros hd Hhd. rewrite Hhd in H1. by apply bool_decide_eq_true in H1.
  - rewrite !andb_true_iff, negb_true_iff. intros [[[c Hc]%bool_decide_eq_true H2] H3]. split; [|split; [done|]].
    + exists c. unfold channel_of in Hc. unfold connected. by apply option.bind_Some in Hc as (o & Ho & ->).
    + destruct answer as [bs| | |err]; simpl in *; try done; [|lia]. apply andb_true_iff in H3 as [H3 H4%bytes_okb].
      split; [|done]. by apply negb_true_iff, bool_decide_eq_false in H3.
  - intros ([h' cb'] & Hin%list_elem_of_In & Hx)%existsb_exists. simpl in Hx.
    apply andb_true_iff in Hx as [->%Nat.eqb_eq Hcb]. by destruct cb', cb.
  - by rewrite negb_true_iff.
  - done.
Qed.

Lemma run_steps_reach xs : ∀ s0 s h r s' h' r',
  reach s0 s h r → run_steps xs s h r = Some (s', h', r') → reach s0 s' h' r'.
Proof.
  induction xs as [|[x|x] xs IH]; intros s0 s h r s' h' r' Hr Hx; simpl in Hx; [by simplify_eq|..].
  - destruct (enabledb s x) eqn:He; [|done]. apply option.bind_Some in Hx as ([code s1] & Hrun & Hx).
    eapply IH; [|exact Hx]. eapply reach_write; [done|by apply enabledb_sound|done].
  - destruct (renabledb s r x) eqn:He; [|done]. apply option.bind_Some in Hx as ([code s1] & Hrun & Hx).
    eapply IH; [|exact Hx]. eapply reach_read; [done|by apply renabledb_sound|done].
Qed.

Lemma small_reach xs s h r :
  run_steps xs small_service no_history no_rhistory = Some (s, h, r) → reach small_service s h r.
Proof. apply run_steps_reach. apply reach_start. Qed.

(** A property of the end of a run, computed. *)
Lemma small_end xs s h r (P : tcp_service_t → history → rhistory → Prop) :
  run_steps xs small_service no_history no_rhistory = Some (s, h, r) →
  match run_steps xs small_service no_history no_rhistory with Some (s, h, r) => P s h r | None => False end →
  P s h r.
Proof. by intros ->. Qed.

Lemma small_run_ends : ∃ s h r, run_steps small_run small_service no_history no_rhistory = Some (s, h, r).
Proof.
  destruct (run_steps small_run small_service no_history no_rhistory) as [[[s h] r]|] eqn:H; [by exists s, h, r|].
  vm_compute in H. discriminate.
Qed.

Lemma service_never_undefined_witness :
  ∃ s h r, run_steps small_run small_service no_history no_rhistory = Some (s, h, r) ∧
    is_Some (exec_wact (ASend 1 (SrcBytes [1]) 1) s) ∧ is_Some (exec_ract (RRead 5 ReadEof) s) ∧
    is_Some (exec_ract RRelease s).
Proof.
  destruct small_run_ends as (s & h & r & Hrun). exists s, h, r.
  destruct (service_never_undefined 64 128 small_service s h r small_fresh (small_reach _ _ _ _ Hrun)) as [Hw Hr].
  split; [exact Hrun|]. split; [|split].
  - apply Hw, enabledb_sound. apply (small_end _ _ _ _ (λ s _ _, enabledb s _ = true) Hrun). vm_compute. reflexivity.
  - apply Hr, renabledb_sound. apply (small_end _ _ _ _ (λ s _ r, renabledb s r _ = true) Hrun). vm_compute. reflexivity.
  - apply Hr, renabledb_sound. apply (small_end _ _ _ _ (λ s _ r, renabledb s r _ = true) Hrun). vm_compute. reflexivity.
Defined.

Lemma receive_path_exact_witness :
  ∃ s h r, run_steps small_run small_service no_history no_rhistory = Some (s, h, r) ∧
    told r = heard r ++ notes s (ready_list s) ∧
    bytes_of (arrived r) 1 = [1; 2; 3; 4; 5; 6] ∧
    bytes_of (arrived r) 1 = bytes_of (shown r) 1 ++ default [] (pending s 1) ∧
    inhand r = [(3%nat, NRead 1 [5; 6]); (4%nat, NClose 0)].
Proof.
  destruct small_run_ends as (s & h & r & Hrun). exists s, h, r.
  destruct (receive_path_exact 64 128 small_service s h r small_fresh (small_reach _ _ _ _ Hrun))
    as (Ht & _ & _ & Hb).
  split; [exact Hrun|]. split; [exact Ht|]. split; [|split].
  - apply (small_end _ _ _ _ (λ _ _ r, bytes_of (arrived r) 1 = _) Hrun). vm_compute. reflexivity.
  - apply (Hb 5%nat). apply (small_end _ _ _ _ (λ s _ _, connected s 5 1) Hrun). vm_compute. reflexivity.
  - apply (small_end _ _ _ _ (λ _ _ r, inhand r = _) Hrun). vm_compute. reflexivity.
Defined.


(** A client connects and the main thread hears of it; the client leaves, the loop turns,
    another client connects; then the main thread answers the first one. *)
Definition late_answer : list step :=
  [Read (RConnect (client 6 161) 0); Read RAcquire; Read (RRead 6 ReadEof); Read (RClosed 6 CbChannel);
   Write (APrep (λ _, 0)); Read (RConnect (client 7 162) 0); Write (ASend 1 (SrcBytes [42]) 1); Write (APrep (λ _, 0))].

(** A message can reach another client than the one it was meant for.  There is a run in
    which the main thread has only heard of the client with handle 6, it sends to that
    client's channel, and the message is handed to libuv for the client with handle 7:
    requests name a channel, and a closed channel is given to the next connection while
    the news of the close is still queued. *)
Theorem send_reaches_next_client :
  ∃ s h r local remote, run_steps late_answer small_service no_history no_rhistory = Some (s, h, r) ∧
    heard r = [NOpen 1 local remote] ∧ taken h = [(1%nat, [42])] ∧ flying h = [(0%nat, (1%nat, [42]))] ∧
    connected s 7 1 ∧ uv_data (uv s) !! 6%nat = None.
Proof.
  destruct (run_steps late_answer small_service no_history no_rhistory) as [[[s h] r]|] eqn:H;
    [|vm_compute in H; discriminate].
  eexists s, h, r, _, _. split; [done|]. split; [|split; [|split; [|split]]].
  - apply (small_end _ _ _ _ (λ _ _ r, heard r = _) H). vm_compute. reflexivity.
  - apply (small_end _ _ _ _ (λ _ h _, taken h = _) H). vm_compute. reflexivity.
  - apply (small_end _ _ _ _ (λ _ h _, flying h = _) H). vm_compute. reflexivity.
  - apply (small_end _ _ _ _ (λ s _ _, connected s 7 1) H). vm_compute. reflexivity.
  - apply (small_end _ _ _ _ (λ s _ _, uv_data (uv s) !! 6%nat = None) H). vm_compute. reflexivity.
Qed.
