(* ===== verification/Time.v ===== *)
(** Time stamps: src/time.c over aws/common/clock.h and the POSIX clock of
    aws-c-common.  The answer of [clock_gettime] is a parameter. *)
From stdpp Require Import base numbers list option.
From Stdlib Require Import ZArith Lia.
From S2P Require Import Prelude.

Local Open Scope Z_scope.

Definition AWS_TIMESTAMP_SECS : Z := 1.
Definition AWS_TIMESTAMP_MILLIS : Z := 1000.
Definition AWS_TIMESTAMP_MICROS : Z := 1000000.
Definition AWS_TIMESTAMP_NANOS : Z := 1000000000.

Definition TN_TSTAMP_S : Z := 1.
Definition TN_TSTAMP_MS : Z := 1000.
Definition TN_TSTAMP_US : Z := 1000000.
Definition TN_TSTAMP_NS : Z := 1000000000.

(** The result and what is stored through [remainder] ([None]: nothing).  The units
    are unsigned 32-bit integers; a division by 0 is undefined. *)
Definition aws_timestamp_convert (timestamp convert_from convert_to : Z) (remainder : bool) :
    option (Z * option Z) :=
  if convert_from <? convert_to then
    if convert_from =? 0 then None
    else Some (u64 (timestamp * (convert_to / convert_from)), None)
  else if convert_to <? convert_from then
    if convert_to =? 0 then None
    else
      let diff := convert_from / convert_to in
      Some (timestamp / diff, if remainder then Some (timestamp mod diff) else None)
  else Some (timestamp, None).

Definition tn_tstamp_convert (tstamp from to : Z) : option Z :=
  fst <$> aws_timestamp_convert tstamp from to false.

(** [clock] is the answer of [clock_gettime]: seconds and nanoseconds, or an error.  The
    code and what is stored through [timestamp]. *)
Definition aws_sys_clock_get_ticks (clock : option (Z * Z)) : Z * option Z :=
  match clock with
  | None => (-1, None)
  | Some (tv_sec, tv_nsec) => (0, Some (u64 (u64 (tv_sec * 1000000000) + tv_nsec)))
  end.

(** The code is ignored: when the clock fails, the value of a variable that was never
    assigned is returned, which is [None] here. *)
Definition tn_tstamp (clock : option (Z * Z)) : option Z := (aws_sys_clock_get_ticks clock).2.

(** ** Lemmas *)

(** The units of the program divide each other. *)
Definition unit_ok (u : Z) : Prop := u ∈ [TN_TSTAMP_S; TN_TSTAMP_MS; TN_TSTAMP_US; TN_TSTAMP_NS].

Lemma unit_divides from to : unit_ok from → unit_ok to → from ≤ to → ∃ k, 0 < k ∧ to = from * k.
Proof.
  unfold unit_ok. intros Hf Ht Hle. exists (to / from).
  repeat (apply elem_of_cons in Hf as [->|Hf]; [|]); try (by apply elem_of_nil in Hf);
  repeat (apply elem_of_cons in Ht as [->|Ht]; [|]); try (by apply elem_of_nil in Ht);
  first [by split|by vm_compute in Hle].
Qed.

Lemma unit_pos u : unit_ok u → 0 < u.
Proof. unfold unit_ok. intros H. repeat (apply elem_of_cons in H as [->|H]; [done|]). by apply elem_of_nil in H. Qed.

Lemma convert_up t from k :
  0 < from → 0 < k → 0 ≤ t → t * k < W64 → tn_tstamp_convert t from (from * k) = Some (t * k).
Proof.
  intros Hf Hk Ht Hw. unfold tn_tstamp_convert, aws_timestamp_convert.
  destruct (Z.ltb_spec from (from * k)).
  - rewrite (proj2 (Z.eqb_neq _ _)) by lia. rewrite (Z.mul_comm from k), Z.div_mul by lia. simpl.
    by rewrite u64_small by lia.
  - assert (k = 1) as -> by nia. rewrite !Z.mul_1_r, Z.ltb_irrefl. done.
Qed.

Lemma convert_down t to k :
  0 < to → 0 < k → 0 ≤ t → tn_tstamp_convert t (to * k) to = Some (t / k).
Proof.
  intros Hf Hk Ht. unfold tn_tstamp_convert, aws_timestamp_convert.
  rewrite (proj2 (Z.ltb_ge _ _)) by nia. destruct (Z.ltb_spec to (to * k)).
  - rewrite (proj2 (Z.eqb_neq _ _)) by lia. simpl. by rewrite (Z.mul_comm to k), Z.div_mul by lia.
  - assert (k = 1) as -> by nia. by rewrite Z.div_1_r.
Qed.

(** Converting to a finer unit and back gives the time back, as long as the finer value
    fits 64 bits; converting to a coarser unit rounds down, so that converting back loses
    less than one coarse unit. *)
Theorem tstamp_round_trip t fine coarse :
  unit_ok fine → unit_ok coarse → coarse ≤ fine → 0 ≤ t < W64 →
  (t * (fine / coarse) < W64 →
    (x ← tn_tstamp_convert t coarse fine; tn_tstamp_convert x fine coarse) = Some t) ∧
  ∃ q x, tn_tstamp_convert t fine coarse = Some q ∧ tn_tstamp_convert q coarse fine = Some x ∧
    x ≤ t < x + fine / coarse.
Proof.
  intros Hf Hc Hle Ht. destruct (unit_divides coarse fine Hc Hf Hle) as (k & Hk & ->).
  pose proof (unit_pos _ Hc). rewrite (Z.mul_comm coarse k) at 1. rewrite Z.div_mul by lia. split.
  - intros Hw. rewrite convert_up by lia. simpl. rewrite convert_down by lia. by rewrite Z.div_mul by lia.
  - pose proof (Z.div_mod t k ltac:(lia)). pose proof (Z.mod_pos_bound t k ltac:(lia)).
    assert (0 ≤ t / k) by (apply Z.div_pos; lia).
    exists (t / k), (t / k * k). rewrite convert_down, convert_up by nia. split_and!; [done|done|lia|].
    rewrite (Z.mul_comm coarse k), Z.div_mul by lia. lia.
Qed.

Lemma tstamp_round_trip_witness :
  (x ← tn_tstamp_convert 7 TN_TSTAMP_MS TN_TSTAMP_NS; tn_tstamp_convert x TN_TSTAMP_NS TN_TSTAMP_MS) = Some 7 ∧
  ∃ q x, tn_tstamp_convert 7 TN_TSTAMP_NS TN_TSTAMP_MS = Some q ∧ tn_tstamp_convert q TN_TSTAMP_MS TN_TSTAMP_NS = Some x ∧
    x ≤ 7 < x + TN_TSTAMP_NS / TN_TSTAMP_MS.
Proof.
  destruct (tstamp_round_trip 7 TN_TSTAMP_NS TN_TSTAMP_MS) as [H1 H2].
  - unfold unit_ok. repeat constructor.
  - unfold unit_ok. repeat constructor.
  - unfold TN_TSTAMP_MS, TN_TSTAMP_NS. lia.
  - lia.
  - split; [apply H1; reflexivity|exact H2].
Defined.
