(* ===== verification/Connection.v ===== *)
(** The client connection: src/tcp_connection.c and src/tcp_context.c.

    A connection frames its messages (a 32-bit length, a 64-bit message number, a 64-bit
    time stamp, the payload and a 0 byte), takes what arrives apart with a two-state
    machine over a buffer, and goes through the states of [connection_state_t] driven by
    libuv callbacks.  The answers of the allocator, of libuv and of the clock are
    parameters of the calls. *)
From stdpp Require Import base numbers list option gmap.
From Stdlib Require Import ZArith Lia String Ascii.
From stdpp Require Import list.
From S2P Require Import Prelude ByteBuf Buffer BufferPool Inet Endpoint Channel Time.

Local Open Scope Z_scope.
Local Open Scope c_scope.

Definition CS_NEW : Z := 0.
Definition CS_CONNECTING : Z := 1.
Definition CS_CONNECTED : Z := 2.
Definition CS_DISCONNECTING : Z := 3.
Definition CS_DISCONNECTED : Z := 4.

Definition EINVAL : Z := 22.
Definition ENOMEM : Z := 12.

(** The four counters a context and a connection both have. *)
Record traffic := {
  tr_recv_msgs : Z;
  tr_recv_bytes : Z;
  tr_send_msgs : Z;
  tr_send_bytes : Z;
}.

(** [config] points to a block that holds the loop; the block's content is [None] until it
    is first written.  The member [uv_loop] is never used. *)
Record tcp_ctx_t := {
  cx_config : ptr (option (ptr unit));
  cx_traffic : traffic;
}.

Definition set_cx_config (x : ptr (option (ptr unit))) (c : tcp_ctx_t) : tcp_ctx_t :=
  {| cx_config := x; cx_traffic := cx_traffic c |}.
Definition set_cx_traffic (x : traffic) (c : tcp_ctx_t) : tcp_ctx_t :=
  {| cx_config := cx_config c; cx_traffic := x |}.

(** The members of [tcp_conn_t] that count. *)
Record conn_stats := {
  st_traffic : traffic;
  st_latency_total : Z;
  st_latency_max : Z;
  st_tstamp_first_msg : Z;
  st_tstamp_last_msg : Z;
}.

Definition set_st_traffic (x : traffic) (c : conn_stats) : conn_stats :=
  {| st_traffic := x; st_latency_total := st_latency_total c; st_latency_max := st_latency_max c;
     st_tstamp_first_msg := st_tstamp_first_msg c; st_tstamp_last_msg := st_tstamp_last_msg c |}.
Definition set_st_latency_total (x : Z) (c : conn_stats) : conn_stats :=
  {| st_traffic := st_traffic c; st_latency_total := x; st_latency_max := st_latency_max c;
     st_tstamp_first_msg := st_tstamp_first_msg c; st_tstamp_last_msg := st_tstamp_last_msg c |}.
Definition set_st_latency_max (x : Z) (c : conn_stats) : conn_stats :=
  {| st_traffic := st_traffic c; st_latency_total := st_latency_total c; st_latency_max := x;
     st_tstamp_first_msg := st_tstamp_first_msg c; st_tstamp_last_msg := st_tstamp_last_msg c |}.
Definition set_st_tstamp_first_msg (x : Z) (c : conn_stats) : conn_stats :=
  {| st_traffic := st_traffic c; st_latency_total := st_latency_total c;
     st_latency_max := st_latency_max c; st_tstamp_first_msg := x;
     st_tstamp_last_msg := st_tstamp_last_msg c |}.
Definition set_st_tstamp_last_msg (x : Z) (c : conn_stats) : conn_stats :=
  {| st_traffic := st_traffic c; st_latency_total := st_latency_total c;
     st_latency_max := st_latency_max c; st_tstamp_first_msg := st_tstamp_first_msg c;
     st_tstamp_last_msg := x |}.

(** The members of [tcp_conn_t] the receive side works on.  [next_buf] is an address; the
    object behind [next_buffer] belongs to the connection. *)
Record conn_rx := {
  last_recv_msg_id : Z;
  next_payload_len : Z;
  next_buf : Z;
  next_buffer : ptr tn_buffer_t;
  rx_state : Z;
}.

Definition set_last_recv_msg_id (x : Z) (c : conn_rx) : conn_rx :=
  {| last_recv_msg_id := x; next_payload_len := next_payload_len c; next_buf := next_buf c;
     next_buffer := next_buffer c; rx_state := rx_state c |}.
Definition set_next_payload_len (x : Z) (c : conn_rx) : conn_rx :=
  {| last_recv_msg_id := last_recv_msg_id c; next_payload_len := x; next_buf := next_buf c;
     next_buffer := next_buffer c; rx_state := rx_state c |}.
Definition set_next_buf (x : Z) (c : conn_rx) : conn_rx :=
  {| last_recv_msg_id := last_recv_msg_id c; next_payload_len := next_payload_len c; next_buf := x;
     next_buffer := next_buffer c; rx_state := rx_state c |}.
Definition set_next_buffer (x : ptr tn_buffer_t) (c : conn_rx) : conn_rx :=
  {| last_recv_msg_id := last_recv_msg_id c; next_payload_len := next_payload_len c;
     next_buf := next_buf c; next_buffer := x; rx_state := rx_state c |}.
Definition set_rx_state (x : Z) (c : conn_rx) : conn_rx :=
  {| last_recv_msg_id := last_recv_msg_id c; next_payload_len := next_payload_len c;
     next_buf := next_buf c; next_buffer := next_buffer c; rx_state := x |}.

(** The members [id], [next_payload_remaining], [next_msg_id] and [next_latency] are never
    used by the code. *)
Record tcp_conn_t := {
  cn_ctx : ptr unit;
  cn_tcp_handle : ptr nat;
  cn_host_local : tn_endpoint_t;
  cn_host_remote : tn_endpoint_t;
  cn_read_err : Z;
  cn_write_err : Z;
  cn_state : Z;
  cn_stats : conn_stats;
  cn_current_msg_id : Z;
  cn_rx : conn_rx;
}.

Definition set_cn_ctx (x : ptr unit) (c : tcp_conn_t) : tcp_conn_t :=
  {| cn_ctx := x; cn_tcp_handle := cn_tcp_handle c; cn_host_local := cn_host_local c;
     cn_host_remote := cn_host_remote c; cn_read_err := cn_read_err c; cn_write_err := cn_write_err c;
     cn_state := cn_state c; cn_stats := cn_stats c; cn_current_msg_id := cn_current_msg_id c;
     cn_rx := cn_rx c |}.
Definition set_cn_tcp_handle (x : ptr nat) (c : tcp_conn_t) : tcp_conn_t :=
  {| cn_ctx := cn_ctx c; cn_tcp_handle := x; cn_host_local := cn_host_local c;
     cn_host_remote := cn_host_remote c; cn_read_err := cn_read_err c; cn_write_err := cn_write_err c;
     cn_state := cn_state c; cn_stats := cn_stats c; cn_current_msg_id := cn_current_msg_id c;
     cn_rx := cn_rx c |}.
Definition set_cn_host_local (x : tn_endpoint_t) (c : tcp_conn_t) : tcp_conn_t :=
  {| cn_ctx := cn_ctx c; cn_tcp_handle := cn_tcp_handle c; cn_host_local := x;
     cn_host_remote := cn_host_remote c; cn_read_err := cn_read_err c; cn_write_err := cn_write_err c;
     cn_state := cn_state c; cn_stats := cn_stats c; cn_current_msg_id := cn_current_msg_id c;
     cn_rx := cn_rx c |}.
Definition set_cn_host_remote (x : tn_endpoint_t) (c : tcp_conn_t) : tcp_conn_t :=
  {| cn_ctx := cn_ctx c; cn_tcp_handle := cn_tcp_handle c; cn_host_local := cn_host_local c;
     cn_host_remote := x; cn_read_err := cn_read_err c; cn_write_err := cn_write_err c;
     cn_state := cn_state c; cn_stats := cn_stats c; cn_current_msg_id := cn_current_msg_id c;
     cn_rx := cn_rx c |}.
Definition set_cn_read_err (x : Z) (c : tcp_conn_t) : tcp_conn_t :=
  {| cn_ctx := cn_ctx c; cn_tcp_handle := cn_tcp_handle c; cn_host_local := cn_host_local c;
     cn_host_remote := cn_host_remote c; cn_read_err := x; cn_write_err := cn_write_err c;
     cn_state := cn_state c; cn_stats := cn_stats c; cn_current_msg_id := cn_current_msg_id c;
     cn_rx := cn_rx c |}.
Definition set_cn_write_err (x : Z) (c : tcp_conn_t) : tcp_conn_t :=
  {| cn_ctx := cn_ctx c; cn_tcp_handle := cn_tcp_handle c; cn_host_local := cn_host_local c;
     cn_host_remote := cn_host_remote c; cn_read_err := cn_read_err c; cn_write_err := x;
     cn_state := cn_state c; cn_stats := cn_stats c; cn_current_msg_id := cn_current_msg_id c;
     cn_rx := cn_rx c |}.
Definition set_cn_state (x : Z) (c : tcp_conn_t) : tcp_conn_t :=
  {| cn_ctx := cn_ctx c; cn_tcp_handle := cn_tcp_handle c; cn_host_local := cn_host_local c;
     cn_host_remote := cn_host_remote c; cn_read_err := cn_read_err c; cn_write_err := cn_write_err c;
     cn_state := x; cn_stats := cn_stats c; cn_current_msg_id := cn_current_msg_id c; cn_rx := cn_rx c |}.
Definition set_cn_stats (x : conn_stats) (c : tcp_conn_t) : tcp_conn_t :=
  {| cn_ctx := cn_ctx c; cn_tcp_handle := cn_tcp_handle c; cn_host_local := cn_host_local c;
     cn_host_remote := cn_host_remote c; cn_read_err := cn_read_err c; cn_write_err := cn_write_err c;
     cn_state := cn_state c; cn_stats := x; cn_current_msg_id := cn_current_msg_id c; cn_rx := cn_rx c |}.
Definition set_cn_current_msg_id (x : Z) (c : tcp_conn_t) : tcp_conn_t :=
  {| cn_ctx := cn_ctx c; cn_tcp_handle := cn_tcp_handle c; cn_host_local := cn_host_local c;
     cn_host_remote := cn_host_remote c; cn_read_err := cn_read_err c; cn_write_err := cn_write_err c;
     cn_state := cn_state c; cn_stats := cn_stats c; cn_current_msg_id := x; cn_rx := cn_rx c |}.
Definition set_cn_rx (x : conn_rx) (c : tcp_conn_t) : tcp_conn_t :=
  {| cn_ctx := cn_ctx c; cn_tcp_handle := cn_tcp_handle c; cn_host_local := cn_host_local c;
     cn_host_remote := cn_host_remote c; cn_read_err := cn_read_err c; cn_write_err := cn_write_err c;
     cn_state := cn_state c; cn_stats := cn_stats c; cn_current_msg_id := cn_current_msg_id c;
     cn_rx := x |}.

(** A [tcp_write_req_t]: the buffer [uv_write] is given, and the size of the block behind
    it, which the allocator knows. *)
Record tcp_write_req_t := {
  rq_base : Z;
  rq_len : Z;
  rq_block : Z;
}.

(** What libuv keeps for the connection: the handles [uv_tcp_init] was called on, with
    whether [data] is the connection ([false]: [NULL]); the handles being closed; the
    handles being connected; the accepted writes. *)
Record conn_uv := {
  cu_data : gmap nat bool;
  cu_closing : list nat;
  cu_connecting : list nat;
  cu_writes : list tcp_write_req_t;
}.

Definition cu_set_data (h : nat) (b : bool) (u : conn_uv) : conn_uv :=
  {| cu_data := <[h := b]> (cu_data u); cu_closing := cu_closing u; cu_connecting := cu_connecting u;
     cu_writes := cu_writes u |}.
Definition cu_close (h : nat) (u : conn_uv) : conn_uv :=
  {| cu_data := cu_data u; cu_closing := cu_closing u ++ [h]; cu_connecting := cu_connecting u;
     cu_writes := cu_writes u |}.
Definition cu_connect (h : nat) (u : conn_uv) : conn_uv :=
  {| cu_data := cu_data u; cu_closing := cu_closing u; cu_connecting := cu_connecting u ++ [h];
     cu_writes := cu_writes u |}.
Definition cu_write (r : tcp_write_req_t) (u : conn_uv) : conn_uv :=
  {| cu_data := cu_data u; cu_closing := cu_closing u; cu_connecting := cu_connecting u;
     cu_writes := cu_writes u ++ [r] |}.

(** A connection, its context, memory and libuv. *)
Record cworld := {
  conn : tcp_conn_t;
  cxt : tcp_ctx_t;
  cmem : mem;
  cuv : conn_uv;
}.

Definition set_conn (x : tcp_conn_t) (c : cworld) : cworld :=
  {| conn := x; cxt := cxt c; cmem := cmem c; cuv := cuv c |}.
Definition set_cxt (x : tcp_ctx_t) (c : cworld) : cworld :=
  {| conn := conn c; cxt := x; cmem := cmem c; cuv := cuv c |}.
Definition set_cmem (x : mem) (c : cworld) : cworld :=
  {| conn := conn c; cxt := cxt c; cmem := x; cuv := cuv c |}.
Definition set_cuv (x : conn_uv) (c : cworld) : cworld :=
  {| conn := conn c; cxt := cxt c; cmem := cmem c; cuv := x |}.

Definition modify_conn (f : tcp_conn_t → tcp_conn_t) : M cworld unit := modify (λ w, set_conn (f (conn w)) w).
Definition modify_rx (f : conn_rx → conn_rx) : M cworld unit := modify_conn (λ c, set_cn_rx (f (cn_rx c)) c).
Definition modify_conn_stats (f : conn_stats → conn_stats) : M cworld unit :=
  modify_conn (λ c, set_cn_stats (f (cn_stats c)) c).
Definition modify_cuv (f : conn_uv → conn_uv) : M cworld unit := modify (λ w, set_cuv (f (cuv w)) w).
(** Counters of [conn->ctx], which must not be [NULL]. *)
Definition modify_ctx_traffic (f : traffic → traffic) : M cworld unit :=
  w ← get; lift (cn_ctx (conn w));;
  put (set_cxt (set_cx_traffic (f (cx_traffic (cxt w))) (cxt w)) w).

(** A call on [conn->next_buffer]. *)
Definition on_next {A} (f : M bstate A) : M cworld A := λ w,
  match next_buffer (cn_rx (conn w)) with
  | None => None
  | Some b =>
      match f (b, cmem w) with
      | None => None
      | Some (a, (b', m')) =>
          Some (a, set_cmem m' (set_conn (set_cn_rx (set_next_buffer (Some b') (cn_rx (conn w))) (conn w)) w))
      end
  end.

(** ** Context (tcp_context.c) *)

Definition no_traffic : traffic := {| tr_recv_msgs := 0; tr_recv_bytes := 0; tr_send_msgs := 0; tr_send_bytes := 0 |}.

(** The blocks a context is made of. *)
Inductive ctx_block := BlockConfig | BlockCtx.

(** The blocks released; the caller's pointer is not changed. *)
Definition tcp_context_delete (pctx : ptr (ptr tcp_ctx_t)) : list ctx_block :=
  match pctx with
  | Some (Some ctx) => match cx_config ctx with Some _ => [BlockConfig] | None => [] end ++ [BlockCtx]
  | _ => []
  end.

(** The new context and the blocks released on the way; the arguments are whether the two
    blocks were granted. *)
Definition tcp_context_new (got_ctx got_config : bool) : ptr tcp_ctx_t * list ctx_block :=
  if negb got_ctx then (NULL, [])
  else
    let ctx := {| cx_config := NULL; cx_traffic := no_traffic |} in
    if negb got_config then (NULL, tcp_context_delete (Some (Some ctx)))
    else (Some (set_cx_config (Some None) ctx), []).

(** The code and the context after the call. *)
Definition tcp_context_set_config (ctx : ptr tcp_ctx_t) (cfg : ptr (ptr unit)) : Z * ptr tcp_ctx_t :=
  match ctx with
  | Some c =>
      match cx_config c, cfg with
      | Some _, Some l => (TN_SUCCESS, Some (set_cx_config (Some (Some l)) c))
      | _, _ => (EINVAL, ctx)
      end
  | None => (EINVAL, ctx)
  end.

(** [None]: the configuration was never written. *)
Definition tcp_context_get_loop (ctx : ptr tcp_ctx_t) : option (ptr unit) :=
  match ctx with
  | Some c => match cx_config c with Some l => l | None => Some NULL end
  | None => Some NULL
  end.

(** ** Connection and state management *)

Definition zero_stats : conn_stats :=
  {| st_traffic := no_traffic; st_latency_total := 0; st_latency_max := 0; st_tstamp_first_msg := 0;
     st_tstamp_last_msg := 0 |}.
Definition zero_rx : conn_rx :=
  {| last_recv_msg_id := 0; next_payload_len := 0; next_buf := 0; next_buffer := NULL; rx_state := 0 |}.
(** All bytes 0. *)
Definition zero_conn : tcp_conn_t :=
  {| cn_ctx := NULL; cn_tcp_handle := NULL; cn_host_local := zero_endpoint; cn_host_remote := zero_endpoint;
     cn_read_err := 0; cn_write_err := 0; cn_state := 0; cn_stats := zero_stats; cn_current_msg_id := 0;
     cn_rx := zero_rx |}.

Definition tcp_conn_new (ctx : ptr unit) (got : bool) : ptr tcp_conn_t :=
  match ctx with
  | None => NULL
  | Some _ => if negb got then NULL else Some (set_cn_ctx ctx zero_conn)
  end.

(** Whether the block of the connection is released; the caller's pointer is not changed. *)
Definition tcp_conn_delete (pconn : ptr (ptr tcp_conn_t)) : bool :=
  match pconn with Some (Some _) => true | _ => false end.

(** [area] is the allocator's answer for the 131070 bytes (address and content), [object]
    the one for the buffer object. *)
Definition tcp_conn_init (area : option (Z * list Z)) (object : option tn_buffer_t) : M cworld Z :=
  w ← get;
  lift (cn_ctx (conn w));;
  modify_conn (λ _, set_cn_ctx (cn_ctx (conn w)) zero_conn);;
  modify_rx (set_rx_state TCP_CHANNEL_READ_HEADER);;
  match area with
  | None => mret TN_ERROR
  | Some (p, bs) =>
      modify (λ w, set_cmem (mem_acquire p bs (cmem w)) w);;
      modify_rx (set_next_buf p);;
      match object with
      | None => mret TN_ERROR
      | Some b =>
          modify_rx (set_next_buffer (Some b));;
          TN_GUARD (on_next (tn_buffer_setup p (65535 * 2))) THEN
          mret TN_SUCCESS
      end
  end.

Definition tcp_conn_disconnect : M cworld unit :=
  w ← get;
  let c := conn w in
  if (cn_state c =? CS_DISCONNECTED) || (cn_state c =? CS_DISCONNECTING) then mret tt
  else
    match cn_tcp_handle c with
    | None => mret tt
    | Some h =>
        lift (cu_data (cuv w) !! h);;
        if negb (bool_decide (h ∈ cu_closing (cuv w))) then
          modify_conn (set_cn_state CS_DISCONNECTING);;
          modify_cuv (cu_close h)
        else mret tt
    end.

Definition tcp_conn_close : M cworld unit := tcp_conn_disconnect.

(** ** Callbacks *)

Definition on_tcp_close_cb (handle : nat) : M cworld unit :=
  w ← get;
  d ← lift (cu_data (cuv w) !! handle);
  if negb d then mret tt
  else
    modify_conn (set_cn_state CS_DISCONNECTED);;
    modify_conn (set_cn_tcp_handle NULL).

(** [area] is the allocator's answer; [buf->base] and [buf->len], which [uv__read] set to
    [NULL] and 0 before. *)
Definition on_tcp_recv_alloc_cb (area : option (Z * list Z)) : M cworld (Z * Z) :=
  match area with
  | None => mret (0, 0)
  | Some (p, bs) => modify (λ w, set_cmem (mem_acquire p bs (cmem w)) w);; mret (p, 65536)
  end.

(** [data] of a handle is followed. *)
Definition follow (d : bool) : M cworld unit := lift (if d then Some tt else None).

Section Host.
Context `{Host}.

(** The loop of [on_tcp_recv_cb], with the local [latency]: [Some] of its last value when
    [processing] became 0, [None] for a jump to [cleanup].  [fuel] bounds the rounds. *)
Fixpoint recv_loop (fuel : nat) (cur_ticks latency : Z) : M cworld (option Z) :=
  match fuel with
  | O => undef
  | S fuel =>
      w ← get;
      let rx := cn_rx (conn w) in
      if rx_state rx =? TCP_CHANNEL_READ_HEADER then
        n ← on_next tn_buffer_read_length;
        if n <? 4 then mret (Some latency)
        else
          r ← on_next tn_buffer_read_be32;
          (match r.2 with Some v => modify_rx (set_next_payload_len v) | None => mret tt end);;
          if negb (r.1 =? 0) then mret None
          else
            modify_rx (set_rx_state TCP_CHANNEL_READ_PAYLOAD);;
            recv_loop fuel cur_ticks latency
      else if rx_state rx =? TCP_CHANNEL_READ_PAYLOAD then
        n ← on_next tn_buffer_read_length;
        if n <? next_payload_len rx then mret (Some latency)
        else
          r ← on_next tn_buffer_read_be64;
          if negb (r.1 =? 0) then mret None
          else
            msg_id ← lift r.2;
            r ← on_next tn_buffer_read_be64;
            if negb (r.1 =? 0) then mret None
            else
              stamp ← lift r.2;
              let msg_remaining := u32 (next_payload_len rx - 16) in
              r ← on_next (tn_buffer_read_skip msg_remaining);
              if negb (r =? 0) then mret None
              else
                l ← lift (aws_timestamp_convert (u64 (cur_ticks - stamp)) AWS_TIMESTAMP_NANOS AWS_TIMESTAMP_MILLIS false);
                let expected := u64 (last_recv_msg_id rx + 1) in
                (if negb (msg_id =? expected) then mret tt else modify_rx (set_last_recv_msg_id expected));;
                modify_rx (set_rx_state TCP_CHANNEL_READ_HEADER);;
                recv_loop fuel cur_ticks l.1
      else recv_loop fuel cur_ticks latency
  end.

Definition count_recv (nread : Z) (t : traffic) : traffic :=
  {| tr_recv_msgs := u64 (tr_recv_msgs t + 1); tr_recv_bytes := u64 (tr_recv_bytes t + nread);
     tr_send_msgs := tr_send_msgs t; tr_send_bytes := tr_send_bytes t |}.
Definition count_send (n : Z) (t : traffic) : traffic :=
  {| tr_recv_msgs := tr_recv_msgs t; tr_recv_bytes := tr_recv_bytes t;
     tr_send_msgs := u64 (tr_send_msgs t + 1); tr_send_bytes := u64 (tr_send_bytes t + n) |}.

(** The counters after a callback whose last message had the given latency. *)
Definition count_received (cur_ticks nread latency : Z) (t : conn_stats) : conn_stats :=
  let t := set_st_latency_total (u64 (st_latency_total t + latency)) t in
  let t := if st_latency_max t <? latency then set_st_latency_max latency t else t in
  let t := set_st_tstamp_last_msg cur_ticks t in
  set_st_traffic (count_recv nread (st_traffic t)) t.

(** [base] is [buf->base], a block of 65536 bytes or [NULL]; [cur_ticks] the time read on
    entry.  Every round of the loop but the last takes at least 4 bytes from the buffer. *)
Definition on_tcp_recv_cb (stream : nat) (cur_ticks nread base : Z) : M cworld unit :=
  let cleanup := modify (λ w, set_cmem (mem_release base 65536 (cmem w)) w) in
  w ← get;
  d ← lift (cu_data (cuv w) !! stream);
  if nread <? 0 then
    follow d;;
    modify_conn (set_cn_read_err nread);;
    cleanup;; tcp_conn_disconnect
  else if nread =? 0 then cleanup
  else
    follow d;;
    TN_GUARD_CLEANUP [cleanup] on_next (tn_buffer_write (SrcPtr base) nread) THEN
    n ← on_next tn_buffer_read_length;
    r ← recv_loop (S (Z.to_nat n)) cur_ticks 0;
    match r with
    | None => cleanup
    | Some latency =>
        n ← on_next tn_buffer_read_length;
        (if n =? 0 then on_next tn_buffer_reset else mret tt);;
        modify_conn_stats (count_received cur_ticks nread latency);;
        modify_ctx_traffic (count_recv nread);;
        cleanup
    end.

Definition on_tcp_connected_cb (handle : nat) (status read_start : Z) : M cworld unit :=
  if status <? 0 then tcp_conn_disconnect
  else
    modify_conn (set_cn_state CS_CONNECTED);;
    modify_conn (set_cn_tcp_handle (Some handle));;
    modify_cuv (cu_set_data handle true);;
    if negb (read_start =? 0) then tcp_conn_disconnect else mret tt.

(** What both write callbacks do before they release memory: whether to close. *)
Definition write_done (cur_ticks : Z) (req : tcp_write_req_t) (status : Z) : M cworld bool :=
  if negb (status =? 0) then modify_conn (set_cn_write_err status);; mret true
  else if rq_len req =? 0 then mret false
  else
    modify_conn_stats (λ t,
      let t := if st_tstamp_first_msg t =? 0 then set_st_tstamp_first_msg cur_ticks t else t in
      set_st_traffic (count_send (rq_len req) (st_traffic t)) t);;
    modify_ctx_traffic (count_send (rq_len req));;
    mret false.

Definition close_unless_connected (should_close : bool) : M cworld unit :=
  w ← get;
  if should_close || negb (cn_state (conn w) =? CS_CONNECTED) then tcp_conn_disconnect else mret tt.

Definition on_tcp_write_frag_cb (cur_ticks : Z) (req : tcp_write_req_t) (status : Z) : M cworld unit :=
  should_close ← write_done cur_ticks req status;
  close_unless_connected should_close.

Definition on_tcp_write_cb (cur_ticks : Z) (req : tcp_write_req_t) (status : Z) : M cworld unit :=
  should_close ← write_done cur_ticks req status;
  modify (λ w, set_cmem (mem_release (rq_base req) (rq_block req) (cmem w)) w);;
  close_unless_connected should_close.

(** ** Initiators *)

(** A call on the local byte buffer [bb_data]. *)
Definition on_bb {A} (f : M (aws_byte_buf * mem) A) : M (aws_byte_buf * cworld) A := λ s,
  match f (s.1, cmem s.2) with
  | Some (a, (b, m)) => Some (a, (b, set_cmem m s.2))
  | None => None
  end.

(** The writes of a message: [false] when the function returns early.  [len] is an [int]. *)
Definition write_message (msg_id cur_ticks : Z) (data : source) (len : Z) : M (aws_byte_buf * cworld) bool :=
  ok ← on_bb (aws_byte_buf_write_be32 (u32 (len + 17)));
  if negb ok then mret false
  else
    ok ← on_bb (aws_byte_buf_write_be64 msg_id);
    if negb ok then mret false
    else
      ok ← on_bb (aws_byte_buf_write_be64 cur_ticks);
      if negb ok then mret false
      else
        on_bb (aws_byte_buf_write data (u64 len));;
        on_bb (aws_byte_buf_write_u8 0);;
        mret true.

(** What the system answers: the time, the block for the message, whether there is memory
    for the request, and the result of [uv_write]. *)
Record write_env := {
  we_ticks : Z;
  we_block : option (Z * list Z);
  we_req : bool;
  we_write : Z;
}.

Definition no_byte_buf : aws_byte_buf := {| buf_len := 0; buf_buffer := 0; buf_capacity := 0; buf_allocator := NULL |}.

Definition tcp_write_begin (env : write_env) (tcp_handle : ptr nat) (data : ptr source) (len : Z) : M cworld unit :=
  match tcp_handle with
  | None => mret tt
  | Some h =>
      w ← get;
      d ← lift (cu_data (cuv w) !! h);
      match data with
      | None => mret tt
      | Some data =>
          if negb d || (len =? 0) then mret tt
          else if negb ((cn_state (conn w) =? CS_CONNECTING) || (cn_state (conn w) =? CS_CONNECTED)) then mret tt
          else
            modify_conn (set_cn_state CS_CONNECTED);;
            modify_conn (λ c, set_cn_current_msg_id (u64 (cn_current_msg_id c + 1)) c);;
            let capacity := u64 (len + 21) in
            let '(err, bb) := aws_byte_buf_init (fst <$> we_block env) capacity no_byte_buf in
            if negb (err =? 0) then mret tt
            else
              modify (λ w, set_cmem (match we_block env with
                                     | Some (p, bs) => mem_acquire p bs (cmem w)
                                     | None => cmem w
                                     end) w);;
              w ← get;
              r ← lift (write_message (cn_current_msg_id (conn w)) (we_ticks env) data len (bb, w));
              let '(ok, (bb, w)) := r in
              put w;;
              if negb ok then mret tt
              else if negb (we_req env) then mret tt
              else
                let req := {| rq_base := buf_buffer bb; rq_len := buf_len bb; rq_block := capacity |} in
                if negb (we_write env =? 0) then
                  modify (λ w, set_cmem (mem_release (rq_base req) (rq_block req) (cmem w)) w);;
                  tcp_conn_disconnect
                else modify_cuv (cu_write req)
      end
  end.

(** What the system answers to an attempt to connect. *)
Record connect_env := {
  ce_handle : option nat;
  ce_tcp_init : Z;
  ce_nodelay : Z;
  ce_bind : Z;
  ce_request : bool;
  ce_connect : Z;
}.

(** [host_local] is set from the literal 0.0.0.0. *)
Definition any_address : list Z := str "0.0.0.0"%string.

Definition connect_cleanup : M cworld Z := tcp_conn_disconnect;; mret TN_ERROR.

Definition on_remote (f : M tn_endpoint_t Z) : M cworld Z :=
  zoom (λ w, cn_host_remote (conn w)) (λ e w, set_conn (set_cn_host_remote e (conn w)) w) f.
Definition on_local (f : M tn_endpoint_t Z) : M cworld Z :=
  zoom (λ w, cn_host_local (conn w)) (λ e w, set_conn (set_cn_host_local e (conn w)) w) f.

Definition tcp_connect_begin (if_nametoindex : list Z → Z) (env : connect_env) (host : ptr (list Z)) (port : Z) :
    M cworld Z :=
  w ← get;
  if negb ((cn_state (conn w) =? CS_NEW) || (cn_state (conn w) =? CS_DISCONNECTED)) then mret EINVAL
  else
    match cn_ctx (conn w) with
    | None => mret EINVAL
    | Some _ =>
        loop ← lift (tcp_context_get_loop (Some (cxt w)));
        match loop with
        | None => mret EINVAL
        | Some _ =>
            modify_conn (set_cn_tcp_handle (ce_handle env));;
            match ce_handle env with
            | None => mret ENOMEM
            | Some h =>
                if negb (ce_tcp_init env =? 0) then connect_cleanup
                else
                  modify_cuv (cu_set_data h true);;
                  TN_GUARD_CLEANUP [connect_cleanup] on_remote (tn_endpoint_set if_nametoindex host port) THEN
                  TN_GUARD_CLEANUP [connect_cleanup]
                    on_local (tn_endpoint_set if_nametoindex (Some any_address) 0) THEN
                  if negb (ce_nodelay env =? 0) then connect_cleanup
                  else if negb (ce_bind env =? 0) then connect_cleanup
                  else if negb (ce_request env) then connect_cleanup
                  else
                    modify_conn (set_cn_state CS_CONNECTING);;
                    if negb (ce_connect env =? 0) then connect_cleanup
                    else modify_cuv (cu_connect h);; mret TN_SUCCESS
            end
        end
    end.

End Host.

(** ** What the receive side does, on byte lists *)

(** [sp_len] is the payload length when a payload is expected; [sp_used] the bytes of the
    area used since it was last empty. *)
Record rx_spec := {
  sp_len : option Z;
  sp_bytes : list Z;
  sp_last : Z;
  sp_used : Z;
}.

Inductive outcome := Again (x : rx_spec) (latency : Z) | Stop | Bad (x : rx_spec).

Definition with_bytes (bs : list Z) (x : rx_spec) : rx_spec :=
  {| sp_len := sp_len x; sp_bytes := bs; sp_last := sp_last x; sp_used := sp_used x |}.

(** The latency in milliseconds of a message stamped [stamp]. *)
Definition latency_of (ticks stamp : Z) : Z := u64 (ticks - stamp) / 1000000.

(** One round. *)
Definition parse_step (ticks latency : Z) (x : rx_spec) : outcome :=
  let b := sp_bytes x in
  match sp_len x with
  | None =>
      if decide (length b < 4)%nat then Stop
      else Again {| sp_len := Some (be_combine (take 4 b)); sp_bytes := drop 4 b; sp_last := sp_last x;
                    sp_used := sp_used x |} latency
  | Some n =>
      if decide (Z.of_nat (length b) < n) then Stop
      else if decide (length b < 8)%nat then Bad x
      else if decide (length b < 16)%nat then Bad (with_bytes (drop 8 b) x)
      else
        let k := u32 (n - 16) in
        if decide (Z.of_nat (length b) - 16 < k ∨ k = 0) then Bad (with_bytes (drop 16 b) x)
        else
          let expected := u64 (sp_last x + 1) in
          Again {| sp_len := None; sp_bytes := drop (Z.to_nat (16 + k)) b;
                   sp_last := if be_combine (take 8 b) =? expected then expected else sp_last x;
                   sp_used := sp_used x |}
                (latency_of ticks (be_combine (take 8 (drop 8 b))))
  end.

Fixpoint parse (fuel : nat) (ticks latency : Z) (x : rx_spec) : option Z * rx_spec :=
  match fuel with
  | O => (Some latency, x)
  | S fuel =>
      match parse_step ticks latency x with
      | Again x latency => parse fuel ticks latency x
      | Stop => (Some latency, x)
      | Bad x => (None, x)
      end
  end.

Definition AREA : Z := 131070.

(** A chunk arrives. *)
Definition rx_recv (ticks : Z) (bs : list Z) (x : rx_spec) : option Z * rx_spec :=
  if decide (AREA - sp_used x < Z.of_nat (length bs)) then (None, x)
  else
    let x := {| sp_len := sp_len x; sp_bytes := sp_bytes x ++ bs; sp_last := sp_last x;
                sp_used := sp_used x + Z.of_nat (length bs) |} in
    let '(l, x) := parse (S (length (sp_bytes x))) ticks 0 x in
    match l with
    | None => (None, x)
    | Some latency =>
        (Some latency, {| sp_len := sp_len x; sp_bytes := sp_bytes x; sp_last := sp_last x;
                          sp_used := if decide (sp_bytes x = []) then 0 else sp_used x |})
    end.

(** The members, with the buffer's area at [area], represent the specification's state. *)
Record rx_rep (area : Z) (m : mem) (rx : conn_rx) (b : tn_buffer_t) (x : rx_spec) : Prop := {
  xr_buffer : next_buffer rx = Some b;
  xr_wf : buffer_wf b m;
  xr_area : buf_buffer (buf b) = area ∧ buf_capacity (buf b) = AREA;
  xr_unread : unread (b, m) = Some (sp_bytes x);
  xr_bytes : Forall is_byte (sp_bytes x);
  xr_used : buf_len (buf b) = sp_used x;
  xr_last : last_recv_msg_id rx = sp_last x;
  xr_state : match sp_len x with
             | None => rx_state rx = TCP_CHANNEL_READ_HEADER
             | Some n => rx_state rx = TCP_CHANNEL_READ_PAYLOAD ∧ next_payload_len rx = n ∧ 0 ≤ n < W32
             end;
}.

Definition put_rx (rx : conn_rx) (w : cworld) : cworld := set_conn (set_cn_rx rx (conn w)) w.

Section Receive.
Context `{Host} (area : Z).

Lemma on_next_run {A} (f : M bstate A) w b a b' :
  next_buffer (cn_rx (conn w)) = Some b → f (b, cmem w) = Some (a, (b', cmem w)) →
  on_next f w = Some (a, put_rx (set_next_buffer (Some b') (cn_rx (conn w))) w).
Proof. intros Hb Hf. unfold on_next. rewrite Hb, Hf. by destruct w. Qed.

Lemma on_next_gets {A} (f : bstate → A) w b :
  next_buffer (cn_rx (conn w)) = Some b → on_next (gets f) w = Some (f (b, cmem w), w).
Proof.
  intros Hb. unfold on_next, gets. rewrite Hb. do 2 f_equal. destruct w as [[? ? ? ? ? ? ? ? ? []] ? ? ?].
  simpl in *. by subst.
Qed.

Lemma rep_consume m rx b x n :
  rx_rep area m rx b x → (n ≤ length (sp_bytes x))%nat →
  rx_rep area m (set_next_buffer (Some (consumed (Z.of_nat n) b)) rx) (consumed (Z.of_nat n) b)
    (with_bytes (drop n (sp_bytes x)) x).
Proof.
  intros [] Hn. pose proof (unread_length b m _ xr_wf0 xr_unread0). split; simpl; try done.
  - apply consumed_wf; [done|lia].
  - destruct (consumed_unread b m (Z.of_nat n) _ xr_wf0 ltac:(lia) xr_unread0) as [_ ->]. by rewrite Nat2Z.id.
  - by apply Forall_drop.
Qed.

(** A typed read from the connection's buffer. *)
Lemma next_read w b x v :
  rx_rep area (cmem w) (cn_rx (conn w)) b x →
  if decide (wire_width v ≤ length (sp_bytes x))%nat
  then let rx := set_next_buffer (Some (consumed (Z.of_nat (wire_width v)) b)) (cn_rx (conn w)) in
    on_next (read_wire v) w =
      Some ((TN_SUCCESS, Some (be_combine (take (wire_width v) (sp_bytes x)))), put_rx rx w) ∧
    rx_rep area (cmem w) rx (consumed (Z.of_nat (wire_width v)) b)
      (with_bytes (drop (wire_width v) (sp_bytes x)) x)
  else on_next (read_wire v) w = Some ((TN_ERROR, None), put_rx (cn_rx (conn w)) w).
Proof.
  intros Hx. pose proof Hx as []. pose proof (read_wire_total v b (cmem w) _ xr_wf0 xr_unread0 xr_bytes0) as Hr.
  case_decide as Hle.
  - split; [|by apply rep_consume]. by apply (on_next_run _ w b).
  - rewrite (on_next_run _ w b _ _ xr_buffer0 Hr). do 3 f_equal.
    destruct (cn_rx (conn w)). simpl in *. by subst.
Qed.

Lemma next_skip w b x n :
  rx_rep area (cmem w) (cn_rx (conn w)) b x → 0 ≤ n < W64 →
  if decide (Z.of_nat (length (sp_bytes x)) < n ∨ n = 0)
  then ∃ rx b', on_next (tn_buffer_read_skip n) w = Some (TN_ERROR, put_rx rx w) ∧ rx_rep area (cmem w) rx b' x
  else let rx := set_next_buffer (Some (consumed n b)) (cn_rx (conn w)) in
    on_next (tn_buffer_read_skip n) w = Some (TN_SUCCESS, put_rx rx w) ∧
    rx_rep area (cmem w) rx (consumed n b) (with_bytes (drop (Z.to_nat n) (sp_bytes x)) x).
Proof.
  intros Hx Hn. pose proof Hx as []. pose proof (skip_run b (cmem w) n _ xr_wf0 Hn xr_unread0) as Hr.
  destruct (decide (n ≤ Z.of_nat (length (sp_bytes x)))) as [Hle|Hle].
  - pose proof (rep_consume (cmem w) (cn_rx (conn w)) b x (Z.to_nat n) Hx ltac:(lia)) as Hc.
    rewrite Z2Nat.id in Hc by lia. case_decide as Hz.
    + assert (n = 0) as -> by lia. eexists _, _. split; [by apply (on_next_run _ w b)|]. simpl in Hc.
      by destruct x.
    + rewrite (proj2 (Z.eqb_neq _ _)) in Hr by lia. split; [|done]. by apply (on_next_run _ w b).
  - rewrite decide_True by lia. exists (cn_rx (conn w)), b. split; [|done].
    rewrite (on_next_run _ w b _ _ xr_buffer0 Hr). do 3 f_equal.
    destruct (cn_rx (conn w)). simpl in *. by subst.
Qed.

Lemma put_rx_same w : put_rx (cn_rx (conn w)) w = w.
Proof. by destruct w as [[] ? ? ?]. Qed.

Lemma read_length_run w b x :
  rx_rep area (cmem w) (cn_rx (conn w)) b x →
  on_next tn_buffer_read_length w = Some (Z.of_nat (length (sp_bytes x)), w).
Proof.
  intros []. unfold tn_buffer_read_length. rewrite (on_next_gets _ w b xr_buffer0).
  by rewrite (unread_length b (cmem w) _ xr_wf0 xr_unread0).
Qed.

(** The header is complete. *)
Lemma header_round fuel ticks latency w b x :
  rx_rep area (cmem w) (cn_rx (conn w)) b x → sp_len x = None → (4 ≤ length (sp_bytes x))%nat →
  ∃ rx b', recv_loop (S fuel) ticks latency w = recv_loop fuel ticks latency (put_rx rx w) ∧
    rx_rep area (cmem w) rx b' {| sp_len := Some (be_combine (take 4 (sp_bytes x))); sp_bytes := drop 4 (sp_bytes x);
      sp_last := sp_last x; sp_used := sp_used x |}.
Proof.
  intros Hx Hlen Hle. pose proof (xr_state _ _ _ _ _ Hx) as Hst. rewrite Hlen in Hst.
  pose proof (next_read w b x (WBE32 0) Hx) as Hr. cbn [wire_width read_wire] in Hr.
  rewrite decide_True in Hr by done. destruct Hr as [Hrun Hc].
  cbn [recv_loop]. rewrite M_get. cbv zeta. rewrite Hst, Z.eqb_refl. cbv iota.
  rewrite (bind_Some _ _ _ _ _ (read_length_run w b x Hx)).
  rewrite (proj2 (Z.ltb_ge _ _)) by lia. cbv iota. rewrite (bind_Some _ _ _ _ _ Hrun). cbn [fst snd].
  unfold modify_rx, modify_conn. rewrite M_modify. change (TN_SUCCESS =? 0) with true. cbn [negb]. rewrite M_modify.
  eexists _, _. split; [reflexivity|]. destruct Hc. split; try done. simpl. split; [done|].
  split; [done|]. assert (Forall is_byte (rev (take 4 (sp_bytes x)))) as Hb.
  { apply Forall_rev, Forall_take, Hx. }
  pose proof (le_combine_bound _ Hb) as Hv. rewrite length_rev, length_take, Nat.min_l in Hv by done. done.
Qed.

(** A payload is complete, or its length makes no sense. *)
Lemma payload_round fuel ticks latency w b x n :
  rx_rep area (cmem w) (cn_rx (conn w)) b x → sp_len x = Some n → n ≤ Z.of_nat (length (sp_bytes x)) →
  match parse_step ticks latency x with
  | Again x' l' => ∃ rx b', recv_loop (S fuel) ticks latency w = recv_loop fuel ticks l' (put_rx rx w) ∧
      rx_rep area (cmem w) rx b' x'
  | Bad x' => ∃ rx b', recv_loop (S fuel) ticks latency w = Some (None, put_rx rx w) ∧ rx_rep area (cmem w) rx b' x'
  | Stop => False
  end.
Proof.
  intros Hx Hlen Hle. pose proof (xr_state _ _ _ _ _ Hx) as Hst. rewrite Hlen in Hst. destruct Hst as (Hst & Hn & Hr).
  unfold parse_step. rewrite Hlen, decide_False by lia.
  cbn [recv_loop]. rewrite M_get. cbv zeta. rewrite Hst, Z.eqb_refl.
  change (TCP_CHANNEL_READ_PAYLOAD =? TCP_CHANNEL_READ_HEADER) with false. cbv iota.
  rewrite (bind_Some _ _ _ _ _ (read_length_run w b x Hx)), Hn, (proj2 (Z.ltb_ge _ _)) by lia. cbv iota.
  pose proof (next_read w b x (WBE64 0) Hx) as Hr1. cbn [wire_width read_wire] in Hr1.
  destruct (decide (length (sp_bytes x) < 8)%nat) as [H8|H8].
  { rewrite decide_False in Hr1 by lia. rewrite (bind_Some _ _ _ _ _ Hr1). by exists (cn_rx (conn w)), b. }
  rewrite decide_True in Hr1 by lia. destruct Hr1 as [Hr1 Hc1]. rewrite (bind_Some _ _ _ _ _ Hr1).
  cbn [fst snd]. change (negb (TN_SUCCESS =? 0)) with false. cbv iota. rewrite M_lift.
  set (rx1 := set_next_buffer _ (cn_rx (conn w))) in *. set (b1 := consumed _ b) in *.
  pose proof (next_read (put_rx rx1 w) b1 _ (WBE64 0) Hc1) as Hr2. cbn [wire_width read_wire sp_bytes with_bytes] in Hr2.
  rewrite length_drop in Hr2. destruct (decide (length (sp_bytes x) < 16)%nat) as [H16|H16].
  { rewrite decide_False in Hr2 by lia. rewrite (bind_Some _ _ _ _ _ Hr2). by exists rx1, b1. }
  rewrite decide_True in Hr2 by lia. destruct Hr2 as [Hr2 Hc2]. rewrite (bind_Some _ _ _ _ _ Hr2).
  cbn [fst snd]. change (negb (TN_SUCCESS =? 0)) with false. cbv iota. rewrite M_lift. rewrite drop_drop in Hc2.
  change (8 + 8)%nat with 16%nat in Hc2.
  set (rx2 := set_next_buffer _ (cn_rx (conn (put_rx rx1 w)))) in *. set (b2 := consumed _ b1) in *.
  set (k := u32 (n - 16)). pose proof (u32_range (n - 16)) as Hk. fold k in Hk.
  pose proof (next_skip (put_rx rx2 w) b2 _ k Hc2 ltac:(lia)) as Hr3. cbn [sp_bytes with_bytes] in Hr3.
  rewrite length_drop in Hr3. change (put_rx rx2 (put_rx rx1 w)) with (put_rx rx2 w).
  destruct (decide (Z.of_nat (length (sp_bytes x)) - 16 < k ∨ k = 0)) as [Hbad|Hgood].
  { rewrite decide_True in Hr3 by lia. destruct Hr3 as (rx3 & b3 & Hr3 & Hc3).
    rewrite (bind_Some _ _ _ _ _ Hr3). by exists rx3, b3. }
  rewrite decide_False in Hr3 by lia. destruct Hr3 as [Hr3 Hc3]. rewrite (bind_Some _ _ _ _ _ Hr3).
  change (negb (TN_SUCCESS =? 0)) with false. cbv iota.
  set (rx3 := set_next_buffer _ (cn_rx (conn (put_rx rx2 w)))) in *. set (b3 := consumed k b2) in *.
  change (put_rx rx3 (put_rx rx2 w)) with (put_rx rx3 w).
  change (aws_timestamp_convert ?t AWS_TIMESTAMP_NANOS AWS_TIMESTAMP_MILLIS false) with (Some (t / 1000000, None (A:=Z))).
  rewrite M_lift. fold (latency_of ticks (be_combine (take 8 (drop 8 (sp_bytes x))))). cbn [fst].
  rewrite (xr_last _ _ _ _ _ Hx).
  assert (∀ last, rx_rep area (cmem w) (set_rx_state TCP_CHANNEL_READ_HEADER (set_last_recv_msg_id last rx3)) b3
    {| sp_len := None; sp_bytes := drop (Z.to_nat (16 + k)) (sp_bytes x); sp_last := last; sp_used := sp_used x |}) as Hend.
  { intros last. destruct Hc3 as [? ? ? Hu Hby ? ? ?]. cbn [sp_bytes with_bytes] in Hu, Hby. rewrite drop_drop in Hu, Hby.
    replace (Z.to_nat (16 + k)) with (16 + Z.to_nat k)%nat by lia. by split. }
  destruct (be_combine (take 8 (sp_bytes x)) =? u64 (sp_last x + 1)); cbn [negb];
    unfold modify_rx, modify_conn; [rewrite M_modify|rewrite M_left_id]; rewrite M_modify;
    (eexists _, b3; split; [reflexivity|]); [apply Hend|].
  pose proof (xr_last _ _ _ _ _ Hx). specialize (Hend (sp_last x)). destruct Hend. by split.
Qed.

(** The whole loop. *)
Lemma recv_loop_run fuel : ∀ ticks latency w b x,
  rx_rep area (cmem w) (cn_rx (conn w)) b x → (length (sp_bytes x) < fuel)%nat →
  ∃ rx b', recv_loop fuel ticks latency w = Some ((parse fuel ticks latency x).1, put_rx rx w) ∧
    rx_rep area (cmem w) rx b' (parse fuel ticks latency x).2.
Proof.
  induction fuel as [|fuel IH]; intros ticks latency w b x Hx Hf; [lia|]. cbn [parse].
  assert (∀ rx1 b1 x1 l1, rx_rep area (cmem w) rx1 b1 x1 → (length (sp_bytes x1) < length (sp_bytes x))%nat →
    recv_loop (S fuel) ticks latency w = recv_loop fuel ticks l1 (put_rx rx1 w) →
    ∃ rx b', recv_loop (S fuel) ticks latency w = Some ((parse fuel ticks l1 x1).1, put_rx rx w) ∧
      rx_rep area (cmem w) rx b' (parse fuel ticks l1 x1).2) as Hgo.
  { intros rx1 b1 x1 l1 Hx1 Hl ->. destruct (IH ticks l1 (put_rx rx1 w) b1 x1 Hx1) as (rx & b' & Hrun & Hr); [lia|].
    by exists rx, b'. }
  assert (recv_loop (S fuel) ticks latency w = Some (Some latency, w) →
    ∃ rx b', recv_loop (S fuel) ticks latency w = Some (Some latency, put_rx rx w) ∧ rx_rep area (cmem w) rx b' x) as Hstop.
  { intros ->. exists (cn_rx (conn w)), b. by rewrite put_rx_same. }
  destruct (sp_len x) as [n|] eqn:Hlen.
  - destruct (decide (n ≤ Z.of_nat (length (sp_bytes x)))) as [Hle|Hle].
    + pose proof (payload_round fuel ticks latency w b x n Hx Hlen Hle) as Hp.
      unfold parse_step in *. rewrite Hlen in *. rewrite decide_False in Hp |- * by lia.
      repeat case_decide; try done; try (by destruct Hp as (rx & b' & Hp & Hr); exists rx, b').
      destruct Hp as (rx & b' & Hp & Hr). apply (Hgo _ _ _ _ Hr); [|done].
      pose proof (u32_range (n - 16)). simpl. rewrite length_drop. lia.
    + unfold parse_step. rewrite Hlen, decide_True by lia. apply Hstop.
      pose proof (xr_state _ _ _ _ _ Hx) as Hst. rewrite Hlen in Hst. destruct Hst as (Hst & Hn & Hr).
      cbn [recv_loop]. rewrite M_get. cbv zeta. rewrite Hst, Z.eqb_refl.
      change (TCP_CHANNEL_READ_PAYLOAD =? TCP_CHANNEL_READ_HEADER) with false. cbv iota.
      rewrite (bind_Some _ _ _ _ _ (read_length_run w b x Hx)), Hn, (proj2 (Z.ltb_lt _ _)) by lia. done.
  - unfold parse_step. rewrite Hlen. case_decide as H4.
    + apply Hstop. pose proof (xr_state _ _ _ _ _ Hx) as Hst. rewrite Hlen in Hst.
      cbn [recv_loop]. rewrite M_get. cbv zeta. rewrite Hst, Z.eqb_refl. cbv iota.
      rewrite (bind_Some _ _ _ _ _ (read_length_run w b x Hx)), (proj2 (Z.ltb_lt _ _)) by lia. done.
    + destruct (header_round fuel ticks latency w b x Hx Hlen ltac:(lia)) as (rx & b' & Hrun & Hr).
      apply (Hgo _ _ _ _ Hr); [|done]. simpl. rewrite length_drop. lia.
Qed.

(** Memory outside the area does not matter. *)
Lemma rep_mem m m' rx b x :
  rx_rep area m rx b x → (∀ a, area ≤ a < area + AREA → m' !! a = m !! a) → rx_rep area m' rx b x.
Proof.
  intros [] Hm. destruct xr_area0 as [Ha Hc]. split; try done.
  - destruct xr_wf0. split; try done. intros a Ha'. rewrite Hm by lia. apply bwf_alloc. lia.
  - rewrite <- xr_unread0. apply mem_load_agree. intros a Ha'. apply Hm. destruct xr_wf0. simpl in *. lia.
Qed.

(** The new bytes are appended. *)
Lemma next_write w b x base bs :
  rx_rep area (cmem w) (cn_rx (conn w)) b x → bs ≠ [] → Z.of_nat (length bs) ≤ 65536 →
  mem_load (cmem w) base (Z.of_nat (length bs)) = Some bs → Forall is_byte bs →
  if decide (AREA - sp_used x < Z.of_nat (length bs))
  then on_next (tn_buffer_write (SrcPtr base) (Z.of_nat (length bs))) w = Some (TN_ERROR, w)
  else ∃ b' m', on_next (tn_buffer_write (SrcPtr base) (Z.of_nat (length bs))) w =
      Some (TN_SUCCESS, set_cmem m' (put_rx (set_next_buffer (Some b') (cn_rx (conn w))) w)) ∧
    rx_rep area m' (set_next_buffer (Some b') (cn_rx (conn w))) b'
      {| sp_len := sp_len x; sp_bytes := sp_bytes x ++ bs; sp_last := sp_last x;
         sp_used := sp_used x + Z.of_nat (length bs) |} ∧
    same_outside area AREA (cmem w) m'.
Proof.
  intros [] Hne Hmax Hload Hbs. destruct xr_area0 as [Ha Hc].
  pose proof (write_run b (cmem w) (SrcPtr base) bs (Z.of_nat (length bs)) xr_wf0 ltac:(lia) (λ _, conj Hload eq_refl)) as Hw.
  unfold room in Hw. rewrite Hc, xr_used0 in Hw. destruct (decide (AREA - sp_used x < _)) as [Hfit|Hfit].
  - rewrite decide_False in Hw by lia. unfold on_next. rewrite xr_buffer0, Hw. do 2 f_equal.
    destruct w as [[? ? ? ? ? ? ? ? ? []] ? ? ?]. simpl in *. by subst.
  - rewrite decide_True in Hw by lia. destruct Hw as (b' & m' & Hw & []). exists b', m'.
    split; [unfold on_next; by rewrite xr_buffer0, Hw|]. rewrite <- Ha, <- Hc. split; [|done].
    split; simpl; try done.
    + by rewrite wr_buffer, wr_capacity, Hc.
    + by apply wr_unread.
    + by apply Forall_app.
    + by rewrite wr_len, xr_used0.
Qed.

(** What receiving leaves alone. *)
Record recv_frame (base : Z) (w w' : cworld) : Prop := {
  rv_uv : cuv w' = cuv w;
  rv_ctx : cn_ctx (conn w') = cn_ctx (conn w);
  rv_config : cx_config (cxt w') = cx_config (cxt w);
  rv_handle : cn_tcp_handle (conn w') = cn_tcp_handle (conn w);
  rv_state : cn_state (conn w') = cn_state (conn w);
  rv_msg_id : cn_current_msg_id (conn w') = cn_current_msg_id (conn w);
  rv_mem : ∀ a, (a < area ∨ area + AREA ≤ a) → (a < base ∨ base + 65536 ≤ a) → cmem w' !! a = cmem w !! a;
}.

Lemma read_length_of w rx b x :
  rx_rep area (cmem w) rx b x → cn_rx (conn w) = rx →
  on_next tn_buffer_read_length w = Some (Z.of_nat (length (sp_bytes x)), w).
Proof. intros Hx <-. by eapply read_length_run. Qed.

(** The end of the callback: an empty buffer is reset. *)
Lemma maybe_reset w b x :
  rx_rep area (cmem w) (cn_rx (conn w)) b x →
  ∃ rx b', (if Z.of_nat (length (sp_bytes x)) =? 0 then on_next tn_buffer_reset else mret tt) w = Some (tt, put_rx rx w) ∧
    rx_rep area (cmem w) rx b' {| sp_len := sp_len x; sp_bytes := sp_bytes x; sp_last := sp_last x;
      sp_used := if decide (sp_bytes x = []) then 0 else sp_used x |}.
Proof.
  intros Hx. pose proof Hx as []. destruct (Z.eqb_spec (Z.of_nat (length (sp_bytes x))) 0) as [Hz|Hz].
  - destruct (reset_run b (cmem w) xr_wf0) as (b' & Hrun & Hwf & Hb & Hc & Hp & Hroom & Hu).
    exists (set_next_buffer (Some b') (cn_rx (conn w))), b'. split; [by apply (on_next_run _ w b)|].
    destruct (sp_bytes x) eqn:Hs; [|done]. simpl. split; simpl; try done; [by rewrite Hb, Hc|].
    unfold room in Hroom. lia.
  - exists (cn_rx (conn w)), b. rewrite put_rx_same. split; [done|].
    rewrite decide_False by (by intros E; rewrite E in Hz). by destruct x.
Qed.

Lemma recv_cb_run w h ticks base bs b x :
  cu_data (cuv w) !! h = Some true → cn_ctx (conn w) = Some tt → rx_rep area (cmem w) (cn_rx (conn w)) b x →
  bs ≠ [] → Z.of_nat (length bs) ≤ 65536 → mem_load (cmem w) base (Z.of_nat (length bs)) = Some bs →
  Forall is_byte bs → base + 65536 ≤ area ∨ area + AREA ≤ base →
  ∃ w' b', on_tcp_recv_cb h ticks (Z.of_nat (length bs)) base w = Some (tt, w') ∧
    rx_rep area (cmem w') (cn_rx (conn w')) b' (rx_recv ticks bs x).2 ∧ recv_frame base w w' ∧
    match (rx_recv ticks bs x).1 with
    | None => cn_stats (conn w') = cn_stats (conn w) ∧ cx_traffic (cxt w') = cx_traffic (cxt w)
    | Some l => cn_stats (conn w') = count_received ticks (Z.of_nat (length bs)) l (cn_stats (conn w)) ∧
        cx_traffic (cxt w') = count_recv (Z.of_nat (length bs)) (cx_traffic (cxt w))
    end.
Proof.
  intros Hd Hctx Hx Hne Hmax Hload Hby Hap.
  assert (0 < Z.of_nat (length bs)) as Hpos by (destruct bs; [done|simpl; lia]).
  unfold on_tcp_recv_cb. rewrite M_get, Hd, M_lift, (proj2 (Z.ltb_ge _ _)), (proj2 (Z.eqb_neq _ _)) by lia. cbv iota.
  unfold follow. rewrite M_lift. pose proof (next_write w b x base bs Hx Hne Hmax Hload Hby) as Hw.
  assert (∀ m w1 y b1, rx_rep area (cmem w1) (cn_rx (conn w1)) b1 y → same_outside area AREA m (cmem w1) →
    rx_rep area (mem_release base 65536 (cmem w1)) (cn_rx (conn w1)) b1 y ∧
    ∀ a, (a < area ∨ area + AREA ≤ a) → (a < base ∨ base + 65536 ≤ a) →
      mem_release base 65536 (cmem w1) !! a = m !! a) as Hrel.
  { intros m w1 y b1 Hy Hm. split; [|intros a H1 H2; rewrite release_outside by lia; by apply Hm].
    apply (rep_mem (cmem w1)); [done|]. intros a Ha. apply release_outside. lia. }
  unfold rx_recv. case_decide as Hfull.
  { rewrite (bind_Some _ _ _ _ _ Hw). destruct (Hrel (cmem w) w x b Hx) as [Hr Hm]; [done|].
    eexists _, b. split; [reflexivity|]. simpl. split; [done|]. split; [by split|done]. }
  destruct Hw as (b1 & m1 & Hw & Hx1 & Hout). rewrite (bind_Some _ _ _ _ _ Hw).
  set (x1 := {| sp_len := _ |}) in *. set (rx1 := set_next_buffer (Some b1) _) in *.
  set (w1 := set_cmem m1 (put_rx rx1 w)) in *. change (TN_SUCCESS =? 0) with true. cbv iota.
  rewrite (bind_Some _ _ _ _ _ (read_length_of w1 rx1 b1 x1 Hx1 eq_refl)). rewrite Nat2Z.id.
  destruct (recv_loop_run (S (length (sp_bytes x1))) ticks 0 w1 b1 x1 Hx1 ltac:(lia)) as (rx2 & b2 & Hloop & Hx2).
  rewrite (bind_Some _ _ _ _ _ Hloop).
  destruct (parse (S (length (sp_bytes x1))) ticks 0 x1) as [[latency|] x2]; cbn [fst snd] in *.
  - rewrite (bind_Some _ _ _ _ _ (read_length_of (put_rx rx2 w1) rx2 b2 x2 Hx2 eq_refl)).
    destruct (maybe_reset (put_rx rx2 w1) b2 x2 Hx2) as (rx3 & b3 & Hreset & Hx3).
    rewrite (bind_Some _ _ _ _ _ Hreset). unfold modify_conn_stats, modify_conn, modify_ctx_traffic.
    rewrite M_modify, M_assoc, M_get, M_assoc. cbn [put_rx set_conn conn cn_ctx set_cn_stats set_cn_rx w1 set_cmem].
    rewrite Hctx, M_lift, M_put. destruct (Hrel (cmem w) (set_conn (set_cn_rx rx3 (conn w)) w1) _ b3 Hx3 Hout) as [Hr Hm].
    eexists _, b3. split; [reflexivity|]. split; [done|]. split; [by split|done].
  - destruct (Hrel (cmem w) (put_rx rx2 w1) _ b2 Hx2 Hout) as [Hr Hm].
    eexists _, b2. split; [reflexivity|]. split; [done|]. split; [by split|done].
Qed.

(** Set-up gives an empty receiver. *)
Definition fresh_rx : rx_spec := {| sp_len := None; sp_bytes := []; sp_last := 0; sp_used := 0 |}.

Lemma conn_init_run w fill obj :
  cn_ctx (conn w) = Some tt → Z.of_nat (length fill) = AREA → 0 < area → area + AREA < W64 →
  ∃ w' b, tcp_conn_init (Some (area, fill)) (Some obj) w = Some (TN_SUCCESS, w') ∧
    rx_rep area (cmem w') (cn_rx (conn w')) b fresh_rx ∧ cn_ctx (conn w') = Some tt ∧
    cn_state (conn w') = CS_NEW ∧ cn_tcp_handle (conn w') = NULL ∧ cn_current_msg_id (conn w') = 0 ∧
    cuv w' = cuv w ∧ cxt w' = cxt w.
Proof.
  intros Hctx Hfl Ha Hw. unfold tcp_conn_init. rewrite M_get, Hctx, M_lift.
  unfold modify_rx, modify_conn. rewrite !M_modify. set (w1 := set_conn _ _).
  destruct (buffer_setup_run area AREA obj (cmem w1)) as (b & Hrun & Hwf & _ & Hb & Hc & Hroom & Hu); [done|unfold AREA; lia|done| |].
  { intros a Hin. simpl. rewrite mem_acquire_lookup, decide_True by lia. apply lookup_lt_is_Some. lia. }
  change (65535 * 2) with AREA. rewrite (bind_Some _ _ _ _ _ (on_next_run _ w1 obj _ _ eq_refl Hrun)).
  eexists _, b. split; [reflexivity|]. split; [|done]. split; try done. simpl. unfold room in Hroom. lia.
Qed.

End Receive.
