(* ===== verification/ConnStream.v ===== *)
(** Messages on a client connection: what [tcp_write_begin] puts on the wire is what
    [on_tcp_recv_cb] takes apart, however the stream is cut into chunks. *)
From stdpp Require Import base numbers list option gmap.
From Stdlib Require Import ZArith Lia.
From S2P Require Import Prelude ByteBuf Buffer BufferPool Inet Endpoint Channel Time Connection.

Local Open Scope Z_scope.
Local Open Scope c_scope.

(** ** The wire format *)

(** [body] is the payload with its final 0 byte. *)
Record message := { ms_id : Z; ms_stamp : Z; ms_body : list Z }.

Definition payload_len (m : message) : Z := 16 + Z.of_nat (length (ms_body m)).
Definition encode (m : message) : list Z :=
  be_split 4 (payload_len m) ++ be_split 8 (ms_id m) ++ be_split 8 (ms_stamp m) ++ ms_body m.
Definition encode_all (ms : list message) : list Z := mjoin (encode <$> ms).

Record message_ok (m : message) : Prop := {
  mo_id : 0 ≤ ms_id m < W64;
  mo_stamp : 0 ≤ ms_stamp m < W64;
  mo_body : ms_body m ≠ [] ∧ Forall is_byte (ms_body m);
  mo_len : payload_len m < W32;
}.

(** The messages are numbered one after the other from [last]. *)
Fixpoint numbered (last : Z) (ms : list message) : Prop :=
  match ms with
  | [] => True
  | m :: ms => ms_id m = u64 (last + 1) ∧ numbered (ms_id m) ms
  end.
Fixpoint last_id (last : Z) (ms : list message) : Z :=
  match ms with [] => last | m :: ms => last_id (ms_id m) ms end.

(** The receiver's state [x] and the bytes [rest] still to come are the messages [ms]. *)
Definition ahead (x : rx_spec) (rest : list Z) (ms : list message) : Prop :=
  match sp_len x with
  | None => sp_bytes x ++ rest = encode_all ms
  | Some n => 0 ≤ n < W32 ∧ be_split 4 n ++ sp_bytes x ++ rest = encode_all ms
  end.

Section Pure.

Lemma be_split_inj n x y :
  0 ≤ x < 256 ^ Z.of_nat n → 0 ≤ y < 256 ^ Z.of_nat n → be_split n x = be_split n y → x = y.
Proof.
  intros Hx Hy He. pose proof (be_combine_split n x) as H1. pose proof (be_combine_split n y) as H2.
  rewrite He, H2, !Z.mod_small in H1 by done. done.
Qed.

(** Dropping a prefix of known length. *)
Lemma drop_prefix (l1 l2 : list Z) n : length l1 = n → drop n (l1 ++ l2) = l2.
Proof. intros <-. apply drop_app_length. Qed.
Lemma take_prefix (l1 l2 : list Z) n : length l1 = n → take n (l1 ++ l2) = l1.
Proof. intros <-. apply take_app_length. Qed.

(** The first bytes of a long enough list do not depend on what follows. *)
Lemma take_front (b rest : list Z) n : (n ≤ length b)%nat → take n (b ++ rest) = take n b.
Proof. apply take_app_le. Qed.
Lemma drop_front (b rest : list Z) n : (n ≤ length b)%nat → drop n (b ++ rest) = drop n b ++ rest.
Proof. apply drop_app_le. Qed.

Lemma length_encode m : Z.of_nat (length (encode m)) = 4 + payload_len m.
Proof. unfold encode, payload_len. rewrite !length_app, !length_be_split. lia. Qed.

Lemma encode_all_cons m ms : encode_all (m :: ms) = encode m ++ encode_all ms.
Proof. done. Qed.

Lemma ahead_nonempty x rest ms n : sp_len x = Some n → ahead x rest ms → ∃ m ms', ms = m :: ms'.
Proof.
  unfold ahead. intros -> [_ He]. destruct ms as [|m ms']; [|by eauto].
  apply (f_equal length) in He. rewrite length_app, length_be_split in He. simpl in He. lia.
Qed.

(** In the payload state the bytes to come start with the rest of the first message. *)
Lemma ahead_payload x rest m ms n :
  sp_len x = Some n → message_ok m → ahead x rest (m :: ms) →
  n = payload_len m ∧
  sp_bytes x ++ rest = be_split 8 (ms_id m) ++ be_split 8 (ms_stamp m) ++ ms_body m ++ encode_all ms.
Proof.
  unfold ahead. intros -> [] [Hn He]. rewrite encode_all_cons in He. unfold encode in He.
  rewrite <- !(assoc (++)) in He. apply app_inj_1 in He as [Hl He]; [|by rewrite !length_be_split].
  split; [|done]. apply (be_split_inj 4) in Hl; [done|done|]. unfold payload_len in *. lia.
Qed.

Lemma header_step ticks latency x rest ms :
  sp_len x = None → (4 ≤ length (sp_bytes x))%nat → Forall message_ok ms → ahead x rest ms →
  ∃ x', parse_step ticks latency x = Again x' latency ∧ ahead x' rest ms ∧ sp_last x' = sp_last x ∧
    sp_used x' = sp_used x ∧ (length (sp_bytes x') < length (sp_bytes x))%nat.
Proof.
  intros Hlen H4 Hok Ha. unfold parse_step. rewrite Hlen, decide_False by lia. eexists. split; [done|].
  unfold ahead in Ha. rewrite Hlen in Ha. simpl. split_and!; try done; [|rewrite length_drop; lia].
  destruct ms as [|m ms].
  { apply (f_equal length) in Ha. rewrite length_app in Ha. simpl in Ha. lia. }
  apply Forall_cons in Hok as [[] _]. rewrite encode_all_cons in Ha. unfold encode in Ha.
  assert (take 4 (sp_bytes x) = be_split 4 (payload_len m)) as Ht.
  { rewrite <- (take_front _ rest) by done. rewrite Ha, <- !(assoc (++)). apply take_prefix, length_be_split. }
  unfold ahead. cbn [sp_len sp_bytes].
  assert (be_combine (take 4 (sp_bytes x)) = payload_len m) as ->.
  { rewrite Ht, be_combine_split. apply Z.mod_small. unfold payload_len in *. change (256 ^ Z.of_nat 4) with W32. lia. }
  split; [unfold payload_len in *; lia|].
  rewrite <- Ht, (assoc (++)), take_drop. by rewrite Ha, encode_all_cons.
Qed.

Lemma payload_step ticks latency x rest ms n :
  sp_len x = Some n → n ≤ Z.of_nat (length (sp_bytes x)) → Forall message_ok ms → ahead x rest ms →
  ∃ m ms' x' l', ms = m :: ms' ∧ parse_step ticks latency x = Again x' l' ∧ ahead x' rest ms' ∧
    sp_last x' = (if ms_id m =? u64 (sp_last x + 1) then ms_id m else sp_last x) ∧
    l' = latency_of ticks (ms_stamp m) ∧ sp_used x' = sp_used x ∧
    (length (sp_bytes x') < length (sp_bytes x))%nat.
Proof.
  intros Hlen Hle Hok Ha. destruct (ahead_nonempty x rest ms n Hlen Ha) as (m & ms' & ->).
  apply Forall_cons in Hok as [Hm Hok]. destruct (ahead_payload x rest m ms' n Hlen Hm Ha) as [-> He].
  pose proof Hm as [Hid Hst [Hbo Hby] Hml]. unfold payload_len in *.
  assert (0 < Z.of_nat (length (ms_body m))) by (destruct (ms_body m); [done|simpl; lia]).
  set (n := Z.of_nat (length (ms_body m))) in *.
  unfold parse_step. rewrite Hlen. rewrite !decide_False by lia.
  rewrite (u32_small (16 + n - 16)) by lia. replace (16 + n - 16) with n by lia. rewrite decide_False by lia.
  assert (be_combine (take 8 (sp_bytes x)) = ms_id m) as Hi.
  { rewrite <- (take_front _ rest) by lia. rewrite He, take_prefix by apply length_be_split.
    rewrite be_combine_split. by apply Z.mod_small. }
  assert (be_combine (take 8 (drop 8 (sp_bytes x))) = ms_stamp m) as Hs.
  { rewrite <- (take_front _ rest) by (rewrite length_drop; lia). rewrite <- drop_front by lia. rewrite He.
    rewrite drop_prefix by apply length_be_split. rewrite take_prefix by apply length_be_split.
    rewrite be_combine_split. by apply Z.mod_small. }
  eexists m, ms', _, _. split; [done|]. split; [reflexivity|]. rewrite Hi, Hs. cbn [sp_len sp_bytes sp_last sp_used].
  split_and!; try done.
  - unfold ahead. cbn [sp_len sp_bytes]. rewrite <- drop_front by lia. rewrite He.
    rewrite !(assoc (++)). apply drop_prefix. rewrite !length_app, !length_be_split. unfold n. lia.
  - destruct (Z.eqb_spec (ms_id m) (u64 (sp_last x + 1))); congruence.
  - rewrite length_drop. lia.
Qed.

(** The loop stops for want of bytes only. *)
Definition starved (x : rx_spec) : Prop :=
  match sp_len x with
  | None => (length (sp_bytes x) < 4)%nat
  | Some n => Z.of_nat (length (sp_bytes x)) < n
  end.

(** What a receiver in state [x'] has done with the messages that were ahead of [x]. *)
Record progress (x x' : rx_spec) (rest : list Z) (handled todo : list message) : Prop := {
  pg_ahead : ahead x' rest todo;
  pg_numbered : numbered (sp_last x') todo;
  pg_last : sp_last x' = last_id (sp_last x) handled;
  pg_starved : starved x';
}.

Lemma parse_run fuel : ∀ ticks latency x rest ms,
  (length (sp_bytes x) < fuel)%nat → Forall message_ok ms → ahead x rest ms → numbered (sp_last x) ms →
  ∃ l x' handled todo, parse fuel ticks latency x = (Some l, x') ∧ ms = handled ++ todo ∧
    progress x x' rest handled todo ∧ sp_used x' = sp_used x.
Proof.
  induction fuel as [|fuel IH]; intros ticks latency x rest ms Hf Hok Ha Hn; [lia|]. cbn [parse].
  assert (starved x → parse_step ticks latency x = Stop) as Hstop.
  { unfold starved, parse_step. destruct (sp_len x); intros; by rewrite decide_True by lia. }
  assert (starved x → ∃ l x' handled todo, (Some latency, x) = (Some l, x') ∧ ms = handled ++ todo ∧
    progress x x' rest handled todo ∧ sp_used x' = sp_used x) as Hend.
  { intros Hs. by exists latency, x, [], ms. }
  destruct (sp_len x) as [n|] eqn:Hlen.
  - destruct (decide (Z.of_nat (length (sp_bytes x)) < n)) as [Hs|Hs].
    { rewrite Hstop; [apply Hend|]; unfold starved; by rewrite Hlen. }
    destruct (payload_step ticks latency x rest ms n Hlen ltac:(lia) Hok Ha)
      as (m & ms' & x1 & l1 & -> & -> & Ha1 & Hl1 & _ & Hu1 & Hlt).
    destruct Hn as [Hid Hn]. apply Forall_cons in Hok as [_ Hok].
    rewrite (proj2 (Z.eqb_eq _ _) Hid) in Hl1.
    destruct (IH ticks l1 x1 rest ms' ltac:(lia) Hok Ha1) as (l & x' & handled & todo & Hp & -> & [] & Hu).
    { by rewrite Hl1. }
    exists l, x', (m :: handled), todo. split_and!; [done|done| |congruence]. split; try done.
    simpl. by rewrite <- Hl1.
  - destruct (decide (length (sp_bytes x) < 4)%nat) as [Hs|Hs].
    { rewrite Hstop; [apply Hend|]; unfold starved; by rewrite Hlen. }
    destruct (header_step ticks latency x rest ms Hlen ltac:(lia) Hok Ha) as (x1 & -> & Ha1 & Hl1 & Hu1 & Hlt).
    destruct (IH ticks latency x1 rest ms ltac:(lia) Hok Ha1) as (l & x' & handled & todo & Hp & -> & [] & Hu).
    { by rewrite Hl1. }
    exists l, x', handled, todo. split_and!; [done|done| |congruence]. split; try done. by rewrite <- Hl1.
Qed.

(** When nothing more is to come, everything was handled. *)
Lemma starved_done x todo :
  starved x → Forall message_ok todo → ahead x [] todo → todo = [] ∧ sp_len x = None ∧ sp_bytes x = [].
Proof.
  intros Hs Hok Ha. destruct (sp_len x) as [n|] eqn:Hlen.
  - destruct (ahead_nonempty x [] todo n Hlen Ha) as (m & ms & ->). apply Forall_cons in Hok as [Hm _].
    destruct (ahead_payload x [] m ms n Hlen Hm Ha) as [-> He]. unfold starved in Hs. rewrite Hlen in Hs.
    apply (f_equal length) in He. rewrite !length_app, !length_be_split in He. unfold payload_len in Hs. simpl in He. lia.
  - unfold starved, ahead in *. rewrite Hlen in *. rewrite app_nil_r in Ha. destruct todo as [|m ms]; [done|].
    pose proof (length_encode m) as He. rewrite Ha, encode_all_cons, length_app in Hs. unfold payload_len in He. lia.
Qed.

Lemma last_id_app l ms1 ms2 : last_id l (ms1 ++ ms2) = last_id (last_id l ms1) ms2.
Proof. revert l. induction ms1 as [|m ms1 IH]; intros l; [done|]. apply IH. Qed.

(** A chunk that fits. *)
Lemma recv_progress ticks bs x rest ms :
  Forall message_ok ms → ahead x (bs ++ rest) ms → numbered (sp_last x) ms →
  sp_used x + Z.of_nat (length bs) ≤ AREA →
  ∃ l handled todo, (rx_recv ticks bs x).1 = Some l ∧ ms = handled ++ todo ∧
    progress x (rx_recv ticks bs x).2 rest handled todo.
Proof.
  intros Hok Ha Hn Hfit. unfold rx_recv. rewrite decide_False by lia. set (x1 := {| sp_len := _ |}).
  assert (ahead x1 rest ms) as Ha1.
  { unfold ahead in *. simpl. destruct (sp_len x); [|by rewrite <- (assoc (++))].
    by rewrite <- (assoc (++) (sp_bytes x)). }
  destruct (parse_run (S (length (sp_bytes x1))) ticks 0 x1 rest ms ltac:(lia) Hok Ha1 Hn)
    as (l & x' & handled & todo & -> & -> & [] & Hu). exists l, handled, todo. by split_and!.
Qed.

End Pure.

(** ** The stream *)

(** One round of libuv's read loop on a client connection: a block is asked for, the
    kernel writes [data] into it and the callback is told. *)
Record chunk := { ck_ticks : Z; ck_base : Z; ck_fill : list Z; ck_data : list Z }.

Definition UV_ENOBUFS : Z := -105.

Definition conn_read `{Host} (h : nat) (c : chunk) : M cworld unit :=
  buf ← on_tcp_recv_alloc_cb (Some (ck_base c, ck_fill c));
  if (buf.1 =? 0) || (buf.2 =? 0) then on_tcp_recv_cb h (ck_ticks c) UV_ENOBUFS 0
  else
    w ← get;
    m ← lift (mem_store (cmem w) buf.1 (ck_data c));
    put (set_cmem m w);;
    on_tcp_recv_cb h (ck_ticks c) (Z.of_nat (length (ck_data c))) buf.1.

Fixpoint conn_reads `{Host} (h : nat) (cs : list chunk) : M cworld unit :=
  match cs with
  | [] => mret tt
  | c :: cs => conn_read h c;; conn_reads h cs
  end.

(** A chunk as the allocator and the kernel give it: a block of 65536 bytes away from the
    connection's area, and at least one byte in it. *)
Record chunk_ok (area : Z) (c : chunk) : Prop := {
  co_base : 0 < ck_base c;
  co_fill : length (ck_fill c) = Z.to_nat 65536;
  co_apart : ck_base c + 65536 ≤ area ∨ area + AREA ≤ ck_base c;
  co_data : ck_data c ≠ [] ∧ Z.of_nat (length (ck_data c)) ≤ 65536 ∧ Forall is_byte (ck_data c);
}.

(** The area never overflows. *)
Fixpoint no_overflow (x : rx_spec) (cs : list chunk) : Prop :=
  match cs with
  | [] => True
  | c :: cs => sp_used x + Z.of_nat (length (ck_data c)) ≤ AREA ∧ no_overflow (rx_recv (ck_ticks c) (ck_data c) x).2 cs
  end.

Definition stream_of (cs : list chunk) : list Z := mjoin (ck_data <$> cs).

Section Stream.
Context `{Host} (area : Z).

(** One chunk through the code. *)
Lemma conn_read_run w h b x c :
  cu_data (cuv w) !! h = Some true → cn_ctx (conn w) = Some tt →
  rx_rep area (cmem w) (cn_rx (conn w)) b x → chunk_ok area c →
  ∃ w' b', conn_read h c w = Some (tt, w') ∧
    rx_rep area (cmem w') (cn_rx (conn w')) b' (rx_recv (ck_ticks c) (ck_data c) x).2 ∧
    recv_frame area (ck_base c) w w'.
Proof.
  intros Hd Hctx Hx [Hbase Hfill Hap (Hne & Hmax & Hby)].
  assert (Z.of_nat (length (ck_fill c)) = 65536) as Hfl by (rewrite Hfill; lia). clear Hfill.
  unfold conn_read, on_tcp_recv_alloc_cb. rewrite M_assoc, M_modify, M_left_id. cbn [fst snd].
  rewrite (proj2 (Z.eqb_neq (ck_base c) 0)) by lia. cbn [orb Z.eqb]. rewrite M_get.
  set (w1 := set_cmem _ w). destruct (mem_store_effect (cmem w1) (ck_base c) (ck_data c)) as (m2 & Hst & Hld & Hout & _).
  { intros a Ha. simpl. rewrite mem_acquire_lookup, decide_True by lia. apply lookup_lt_is_Some. lia. }
  rewrite Hst, M_lift, M_put. set (w2 := set_cmem m2 w1).
  assert (∀ a, a < ck_base c ∨ ck_base c + 65536 ≤ a → m2 !! a = cmem w !! a) as Hsame.
  { intros a Ha. rewrite Hout by lia. simpl. by rewrite mem_acquire_lookup, decide_False by lia. }
  destruct (recv_cb_run area w2 h (ck_ticks c) (ck_base c) (ck_data c) b x) as (w' & b' & Hrun & Hx' & [] & _); try done.
  { apply (rep_mem area (cmem w)); [done|]. intros a Ha. apply Hsame. lia. }
  exists w', b'. split; [done|]. split; [done|]. split; try done.
  intros a H1 H2. rewrite rv_mem by done. apply Hsame. lia.
Qed.

(** The whole stream, in any chunks. *)
Lemma conn_reads_run cs : ∀ w h b x rest ms,
  cu_data (cuv w) !! h = Some true → cn_ctx (conn w) = Some tt →
  rx_rep area (cmem w) (cn_rx (conn w)) b x → Forall (chunk_ok area) cs → no_overflow x cs →
  Forall message_ok ms → ahead x (stream_of cs ++ rest) ms → numbered (sp_last x) ms → starved x →
  ∃ w' b' x' handled todo, conn_reads h cs w = Some (tt, w') ∧
    rx_rep area (cmem w') (cn_rx (conn w')) b' x' ∧ ms = handled ++ todo ∧ progress x x' rest handled todo ∧
    cuv w' = cuv w ∧ cn_state (conn w') = cn_state (conn w).
Proof.
  induction cs as [|c cs IH]; intros w h b x rest ms Hd Hctx Hx Hcs Hno Hok Ha Hn Hs.
  - exists w, b, x, [], ms. done.
  - apply Forall_cons in Hcs as [Hc Hcs]. destruct Hno as [Hfit Hno].
    destruct (conn_read_run w h b x c Hd Hctx Hx Hc) as (w1 & b1 & Hrun & Hx1 & []).
    destruct (recv_progress (ck_ticks c) (ck_data c) x (stream_of cs ++ rest) ms Hok) as (l & h1 & t1 & _ & -> & [Ha1 Hn1 Hl1 Hs1]);
      [|done|done|].
    { unfold stream_of in *. simpl in Ha. by rewrite <- (assoc (++)) in Ha. }
    apply Forall_app in Hok as [_ Hok1].
    destruct (IH w1 h b1 _ rest t1 ltac:(by rewrite rv_uv) ltac:(by rewrite rv_ctx) Hx1 Hcs Hno Hok1 Ha1 Hn1 Hs1)
      as (w' & b' & x' & h2 & t2 & Hrun2 & Hx' & -> & [] & Huv & Hst).
    exists w', b', x', (h1 ++ h2), t2. cbn [conn_reads]. rewrite (bind_Some _ _ _ _ _ Hrun).
    split_and!; try done; [by rewrite (assoc (++))| |congruence|congruence].
    split; try done. by rewrite last_id_app, <- Hl1.
Qed.

End Stream.

(** ** Sending *)

(** The local byte buffer over the block of [cap] bytes at [p] holds [done]. *)
Record bb_rep (m : mem) (bb : aws_byte_buf) (p cap : Z) (done : list Z) : Prop := {
  bb_buffer : buf_buffer bb = p;
  bb_capacity : buf_capacity bb = cap;
  bb_len : buf_len bb = Z.of_nat (length done);
  bb_fits : Z.of_nat (length done) ≤ cap ≤ 9223372036854775807;
  bb_addr : 0 < p ∧ p + cap < W64;
  bb_done : mem_load m p (Z.of_nat (length done)) = Some done;
  bb_alloc : allocated m p cap;
}.

(** The bytes [bs] can be read from [src] whatever is in the block. *)
Definition source_ok (m : mem) (p cap : Z) (src : source) (bs : list Z) : Prop :=
  ∀ m', same_outside p cap m m' → read_src m' src (Z.of_nat (length bs)) = Some bs.

Lemma source_bytes_ok m p cap bs : source_ok m p cap (SrcBytes bs) bs.
Proof. intros m' _. simpl. by rewrite Z.leb_refl, Nat2Z.id, take_ge. Qed.

Section Send.
Context `{Host}.

Lemma bb_append w bb p cap done src bs :
  bb_rep (cmem w) bb p cap done → Z.of_nat (length done + length bs) ≤ cap →
  read_src (cmem w) src (Z.of_nat (length bs)) = Some bs →
  ∃ bb' m', on_bb (aws_byte_buf_write src (Z.of_nat (length bs))) (bb, w) = Some (true, (bb', set_cmem m' w)) ∧
    bb_rep m' bb' p cap (done ++ bs) ∧ same_outside p cap (cmem w) m'.
Proof.
  intros [] Hfit Hsrc.
  pose proof (buf_write_run bb (cmem w) src bs (Z.of_nat (length bs)) ltac:(lia) ltac:(lia) ltac:(lia) ltac:(lia)
    ltac:(lia) (λ _, conj Hsrc eq_refl) ltac:(by rewrite bb_buffer0, bb_capacity0)) as Hw.
  rewrite decide_True in Hw by lia. destruct Hw as (m' & Hw & Hld & Hout & Hal).
  exists (set_buf_len (buf_len bb + Z.of_nat (length bs)) bb), m'. split; [unfold on_bb; simpl; by rewrite Hw|].
  rewrite bb_buffer0, bb_len0 in *. split; [split; simpl; try done|].
  - rewrite length_app. lia.
  - rewrite length_app. lia.
  - rewrite length_app, Nat2Z.inj_add. apply mem_load_app; [lia|lia| |done].
    rewrite <- bb_done0. apply mem_load_agree. intros a Ha. apply Hout. lia.
  - by apply Hal.
  - intros a Ha. apply Hout. lia.
Qed.

Lemma same_outside_trans p n m1 m2 m3 : same_outside p n m1 m2 → same_outside p n m2 m3 → same_outside p n m1 m3.
Proof. intros H1 H2 a Ha. by rewrite H2, H1. Qed.

(** The typed writes write big-endian bytes. *)
Lemma bb_append_be w bb p cap done n x (f : M (aws_byte_buf * mem) bool) :
  f = aws_byte_buf_write (SrcBytes (be_split n x)) (Z.of_nat n) →
  bb_rep (cmem w) bb p cap done → Z.of_nat (length done + n) ≤ cap →
  ∃ bb' m', on_bb f (bb, w) = Some (true, (bb', set_cmem m' w)) ∧
    bb_rep m' bb' p cap (done ++ be_split n x) ∧ same_outside p cap (cmem w) m'.
Proof.
  intros -> Hb Hfit. pose proof (length_be_split n x) as Hl. rewrite <- Hl in Hfit at 1.
  destruct (bb_append w bb p cap done (SrcBytes (be_split n x)) (be_split n x) Hb Hfit) as (bb' & m' & Hrun & ?).
  - simpl. by rewrite Z.leb_refl, Nat2Z.id, take_ge.
  - rewrite Hl in Hrun. by exists bb', m'.
Qed.

Lemma write_be32_eq x : aws_byte_buf_write_be32 x = aws_byte_buf_write (SrcBytes (be_split 4 x)) (Z.of_nat 4).
Proof. unfold aws_byte_buf_write_be32, aws_hton32. by rewrite obj_bytes_hton. Qed.
Lemma write_be64_eq x : aws_byte_buf_write_be64 x = aws_byte_buf_write (SrcBytes (be_split 8 x)) (Z.of_nat 8).
Proof. unfold aws_byte_buf_write_be64, aws_hton64. by rewrite obj_bytes_hton. Qed.
Lemma write_u8_eq x : aws_byte_buf_write_u8 x = aws_byte_buf_write (SrcBytes (be_split 1 x)) (Z.of_nat 1).
Proof. unfold aws_byte_buf_write_u8, obj_bytes, be_split. by destruct aws_is_big_endian. Qed.

(** The message as it is laid out. *)
Definition framed (id stamp : Z) (bs : list Z) : message := {| ms_id := id; ms_stamp := stamp; ms_body := bs ++ [0] |}.

Lemma write_message_run w bb p id stamp src bs :
  let n := Z.of_nat (length bs) in
  bb_rep (cmem w) bb p (n + 21) [] → 0 < n < 2 ^ 31 → source_ok (cmem w) p (n + 21) src bs →
  ∃ bb' m', write_message id stamp src n (bb, w) = Some (true, (bb', set_cmem m' w)) ∧
    bb_rep m' bb' p (n + 21) (encode (framed id stamp bs)) ∧ same_outside p (n + 21) (cmem w) m'.
Proof.
  intros n Hb Hn Hsrc. unfold write_message. rewrite u32_small by lia.
  destruct (bb_append_be w bb p _ [] 4 (n + 17) _ (write_be32_eq _) Hb) as (b1 & m1 & H1 & Hb1 & Ho1); [simpl; lia|].
  rewrite (bind_Some _ _ _ _ _ H1). cbn [negb].
  destruct (bb_append_be (set_cmem m1 w) b1 p _ _ 8 id _ (write_be64_eq _) Hb1) as (b2 & m2 & H2 & Hb2 & Ho2).
  { rewrite length_app, !length_be_split. simpl. lia. }
  rewrite (bind_Some _ _ _ _ _ H2). cbn [negb].
  destruct (bb_append_be (set_cmem m2 w) b2 p _ _ 8 stamp _ (write_be64_eq _) Hb2) as (b3 & m3 & H3 & Hb3 & Ho3).
  { rewrite !length_app, !length_be_split. simpl. lia. }
  change (set_cmem m2 (set_cmem m1 w)) with (set_cmem m2 w). rewrite (bind_Some _ _ _ _ _ H3). cbn [negb].
  change (set_cmem m3 (set_cmem m2 w)) with (set_cmem m3 w).
  rewrite (u64_small n) by lia.
  assert (same_outside p (n + 21) (cmem w) m3) as Ho by (repeat (eapply same_outside_trans; [eassumption|]); done).
  destruct (bb_append (set_cmem m3 w) b3 p _ _ src bs Hb3) as (b4 & m4 & H4 & Hb4 & Ho4).
  { rewrite !length_app, !length_be_split. simpl. lia. }
  { by apply Hsrc. }
  fold n in H4. rewrite (bind_Some _ _ _ _ _ H4). change (set_cmem m4 (set_cmem m3 w)) with (set_cmem m4 w).
  destruct (bb_append_be (set_cmem m4 w) b4 p _ _ 1 0 _ (write_u8_eq _) Hb4) as (b5 & m5 & H5 & Hb5 & Ho5).
  { rewrite !length_app, !length_be_split. simpl. lia. }
  rewrite (bind_Some _ _ _ _ _ H5). change (set_cmem m5 (set_cmem m4 w)) with (set_cmem m5 w).
  exists b5, m5. split; [done|]. split; [|by repeat (eapply same_outside_trans; [eassumption|])].
  unfold encode, framed, payload_len. simpl. rewrite length_app. simpl.
  replace (16 + Z.of_nat (length bs + 1)) with (n + 17) by lia.
  rewrite app_nil_l, <- !(assoc (++)) in Hb5. exact Hb5.
Qed.

(** What the system grants a send of [bs]: a fresh block away from the data and from the
    blocks in [cu_writes], and the answer of the clock. *)
Record send_ok (w : cworld) (env : write_env) (src : source) (bs : list Z) (p : Z) (fill : list Z) : Prop := {
  so_block : we_block env = Some (p, fill) ∧ Z.of_nat (length fill) = Z.of_nat (length bs) + 21;
  so_addr : 0 < p ∧ p + Z.of_nat (length fill) < W64;
  so_ticks : 0 ≤ we_ticks env < W64;
  so_data : 0 < Z.of_nat (length bs) < 2 ^ 31 ∧ Forall is_byte bs;
  so_source : source_ok (cmem w) p (Z.of_nat (length fill)) src bs;
  so_fresh : Forall (λ r, p + Z.of_nat (length fill) ≤ rq_base r ∨ rq_base r + rq_block r ≤ p) (cu_writes (cuv w));
}.

(** Up to the request: the message is in the block. *)
Lemma write_prepare w env h src bs p fill :
  send_ok w env src bs p fill → cu_data (cuv w) !! h = Some true →
  cn_state (conn w) = CS_CONNECTING ∨ cn_state (conn w) = CS_CONNECTED →
  let n := Z.of_nat (length bs) in
  let id := u64 (cn_current_msg_id (conn w) + 1) in
  ∃ m, mem_load m p (n + 21) = Some (encode (framed id (we_ticks env) bs)) ∧ same_outside p (n + 21) (cmem w) m ∧
    allocated m p (n + 21) ∧
    let w1 := set_cmem m (set_conn (set_cn_current_msg_id id (set_cn_state CS_CONNECTED (conn w))) w) in
    let req := {| rq_base := p; rq_len := n + 21; rq_block := n + 21 |} in
    tcp_write_begin env (Some h) (Some src) n w =
      (if negb (we_req env) then mret tt
       else if negb (we_write env =? 0) then
         modify (λ w, set_cmem (mem_release p (n + 21) (cmem w)) w);; tcp_conn_disconnect
       else modify_cuv (cu_write req)) w1.
Proof.
  intros [[Hblk Hfl] [Hp Hpw] Ht [Hn Hby] Hsrc _] Hd Hst n id. rewrite Hfl in *.
  set (m0 := mem_acquire p fill (cmem w)).
  assert (same_outside p (n + 21) (cmem w) m0) as Hm0.
  { intros a Ha. unfold m0. by rewrite mem_acquire_lookup, decide_False by lia. }
  set (w0 := set_cmem m0 (set_conn (set_cn_current_msg_id id (set_cn_state CS_CONNECTED (conn w))) w)).
  set (bb := {| buf_len := 0; buf_buffer := p; buf_capacity := n + 21; buf_allocator := Some tt |}).
  destruct (write_message_run w0 bb p id (we_ticks env) src bs) as (bb' & m & Hrun & [] & Hout).
  { split; simpl; try done; try lia. intros a Ha. unfold m0. rewrite mem_acquire_lookup, decide_True by lia.
    apply lookup_lt_is_Some. lia. }
  { done. }
  { intros m' Hm'. apply Hsrc. by eapply same_outside_trans. }
  assert (Z.of_nat (length (encode (framed id (we_ticks env) bs))) = n + 21) as Hle.
  { rewrite length_encode. unfold payload_len, framed. simpl. rewrite length_app. simpl. lia. }
  rewrite Hle in *. exists m. split; [done|]. split; [by eapply same_outside_trans|]. split; [done|].
  unfold tcp_write_begin. rewrite M_get, Hd, M_lift. cbn [negb orb]. fold n. rewrite (proj2 (Z.eqb_neq n 0)) by lia.
  assert ((cn_state (conn w) =? CS_CONNECTING) || (cn_state (conn w) =? CS_CONNECTED) = true) as ->.
  { destruct Hst as [->| ->]; done. }
  cbn [negb]. unfold modify_conn. rewrite !M_modify. rewrite u64_small by lia. rewrite Hblk.
  change (aws_byte_buf_init _ _ _) with (0, bb). cbn [Z.eqb negb]. rewrite M_modify, M_get.
  change (set_cmem (mem_acquire p fill _) _) with w0.
  change (lift (write_message _ _ _ _ _)) with (@lift cworld _ (write_message id (we_ticks env) src n (bb, w0))).
  fold n in Hrun. rewrite Hrun, M_lift, M_put. cbn [negb]. by rewrite bb_buffer0, bb_len0.
Qed.

(** A run of sends that libuv accepts, with the time and the payload of each. *)
Inductive sends (h : nat) : cworld → list (Z * list Z) → cworld → Prop :=
  | sends_nil w : sends h w [] w
  | sends_cons w env src bs p fill w1 l w2 :
      send_ok w env src bs p fill → we_req env = true → we_write env = 0 →
      tcp_write_begin env (Some h) (Some src) (Z.of_nat (length bs)) w = Some (tt, w1) →
      sends h w1 l w2 → sends h w ((we_ticks env, bs) :: l) w2.

(** The messages of a run of sends, numbered from [id]. *)
Fixpoint frame_all (id : Z) (l : list (Z * list Z)) : list message :=
  match l with
  | [] => []
  | (t, bs) :: l => framed (u64 (id + 1)) t bs :: frame_all (u64 (id + 1)) l
  end.

(** The accepted requests hold the messages [ms], in order. *)
Definition in_flight (w : cworld) (ms : list message) : Prop :=
  Forall2 (λ r m, mem_load (cmem w) (rq_base r) (rq_len r) = Some (encode m) ∧ rq_block r = rq_len r)
    (cu_writes (cuv w)) ms.

Definition can_send (w : cworld) (h : nat) : Prop :=
  cu_data (cuv w) !! h = Some true ∧ (cn_state (conn w) = CS_CONNECTING ∨ cn_state (conn w) = CS_CONNECTED).

Lemma send_step w env h src bs p fill w1 ms :
  send_ok w env src bs p fill → can_send w h → we_req env = true → we_write env = 0 →
  tcp_write_begin env (Some h) (Some src) (Z.of_nat (length bs)) w = Some (tt, w1) → in_flight w ms →
  let m := framed (u64 (cn_current_msg_id (conn w) + 1)) (we_ticks env) bs in
  in_flight w1 (ms ++ [m]) ∧ can_send w1 h ∧ cn_current_msg_id (conn w1) = ms_id m ∧ message_ok m.
Proof.
  intros Hok [Hd Hst] Hreq Hwr Hrun Hfl m. pose proof Hok as [[_ Hlen] _ Ht [Hn Hby] _ Hfresh].
  destruct (write_prepare w env h src bs p fill Hok Hd Hst) as (mm & Hld & Hout & _ & Heq).
  rewrite Hrun, Hreq, Hwr in Heq. cbn [negb Z.eqb] in Heq. injection Heq as ->.
  split_and!; try done; [| |split; simpl].
  - unfold in_flight. simpl. apply Forall2_app; [|by repeat constructor].
    rewrite Hlen in Hfresh. revert Hfresh Hfl. unfold in_flight. generalize (cu_writes (cuv w)). intros rs Hfr Hf.
    induction Hf as [|r m' rs ms [Hl Hb] _ IH]; [done|]. apply Forall_cons in Hfr as [Hr Hfr].
    constructor; [|by apply IH]. split; [|done]. rewrite <- Hl. apply mem_load_agree. intros a Ha. apply Hout. lia.
  - split; [done|by right].
  - apply u64_range.
  - done.
  - split; [|apply Forall_app; split; [done|by repeat constructor]]. by destruct bs.
  - unfold payload_len. simpl. rewrite length_app. simpl. lia.
Qed.

Lemma sends_run h w l w1 ms :
  sends h w l w1 → can_send w h → in_flight w ms →
  let news := frame_all (cn_current_msg_id (conn w)) l in
  in_flight w1 (ms ++ news) ∧ Forall message_ok news ∧ numbered (cn_current_msg_id (conn w)) news ∧
  cn_current_msg_id (conn w1) = last_id (cn_current_msg_id (conn w)) news.
Proof.
  intros Hs. revert ms. induction Hs as [w|w env src bs p fill w1 l w2 Hok Hreq Hwr Hrun Hs IH]; intros ms Hcs Hfl; simpl.
  - by rewrite app_nil_r.
  - destruct (send_step w env h src bs p fill w1 ms Hok Hcs Hreq Hwr Hrun Hfl) as (Hfl1 & Hcs1 & Hid & Hm).
    destruct (IH (ms ++ [_]) Hcs1 Hfl1) as (Hfl2 & Hms & Hnum & Hlast). rewrite Hid in *. simpl in *.
    split_and!; try done; [by rewrite <- (assoc (++)) in Hfl2|by constructor].
Qed.

Lemma in_flight_bytes w ms :
  in_flight w ms → mapM (λ r, mem_load (cmem w) (rq_base r) (rq_len r)) (cu_writes (cuv w)) = Some (encode <$> ms).
Proof.
  unfold in_flight. intros Hf. apply mapM_Some. apply Forall2_fmap_r. eapply Forall2_impl; [done|]. by intros r m [].
Qed.

End Send.

(** ** Theorems *)


(** The parser on whole chunks. *)
Fixpoint rx_recvs (x : rx_spec) (cs : list chunk) : rx_spec :=
  match cs with [] => x | c :: cs => rx_recvs (rx_recv (ck_ticks c) (ck_data c) x).2 cs end.

(** C27. The receive side never goes wrong on any input.  From a connection that was set up,
    whatever bytes arrive in whatever chunks, malformed or too many, every callback returns
    (its loop ends), and the members hold what the parser on byte lists computes. *)
Theorem receive_refines_parser `{Host} area w fill obj w0 h cs :
  cn_ctx (conn w) = Some tt → Z.of_nat (length fill) = AREA → 0 < area → area + AREA < W64 →
  cu_data (cuv w) !! h = Some true → tcp_conn_init (Some (area, fill)) (Some obj) w = Some (TN_SUCCESS, w0) →
  Forall (chunk_ok area) cs →
  ∃ w' b, conn_reads h cs w0 = Some (tt, w') ∧ rx_rep area (cmem w') (cn_rx (conn w')) b (rx_recvs fresh_rx cs) ∧
    cuv w' = cuv w.
Proof.
  intros Hctx Hfl Ha Hw Hd Hinit Hcs.
  destruct (conn_init_run area w fill obj Hctx Hfl Ha Hw) as (w1 & b & Hrun & Hx & Hctx1 & _ & _ & _ & Huv & _).
  rewrite Hinit in Hrun. injection Hrun as <-. rewrite <- Huv in *. clear Hinit. revert w0 b Hx Hctx1 Hd Huv.
  generalize fresh_rx. induction Hcs as [|c cs Hc _ IH]; intros x w0 b Hx Hctx1 Hd Huv; [by exists w0, b|].
  destruct (conn_read_run area w0 h b x c Hd Hctx1 Hx Hc) as (w1 & b1 & Hrun & Hx1 & []).
  destruct (IH _ w1 b1 Hx1) as (w' & b' & Hrun' & Hx' & Huv'); [by rewrite rv_ctx|by rewrite rv_uv|by rewrite rv_uv|].
  exists w', b'. cbn [conn_reads]. rewrite (bind_Some _ _ _ _ _ Hrun). split_and!; try done. by rewrite Huv', rv_uv.
Qed.


(** [tcp_write_begin] on every branch, for a handle that belongs to the connection.  In
    any state but connecting and connected nothing happens.  Otherwise the state becomes
    connected and the message number is used up, even when no memory is granted and
    nothing is sent; a refused [uv_write] gives the block back and starts the disconnect;
    an accepted one leaves the framed message in flight.  Memory outside the new block is
    untouched. *)
Theorem tcp_write_begin_outcome `{Host} w env h src bs p fill :
  send_ok w env src bs p fill → cu_data (cuv w) !! h = Some true →
  let n := Z.of_nat (length bs) in
  let id := u64 (cn_current_msg_id (conn w) + 1) in
  let env0 := {| we_ticks := we_ticks env; we_block := NULL; we_req := we_req env; we_write := we_write env |} in
  if decide (cn_state (conn w) = CS_CONNECTING ∨ cn_state (conn w) = CS_CONNECTED) then
    tcp_write_begin env0 (Some h) (Some src) n w =
      Some (tt, set_conn (set_cn_current_msg_id id (set_cn_state CS_CONNECTED (conn w))) w) ∧
    (cn_tcp_handle (conn w) = Some h → h ∉ cu_closing (cuv w) →
     ∃ w', tcp_write_begin env (Some h) (Some src) n w = Some (tt, w') ∧
      cn_current_msg_id (conn w') = id ∧ same_outside p (n + 21) (cmem w) (cmem w') ∧
      if negb (we_req env) then cn_state (conn w') = CS_CONNECTED ∧ cuv w' = cuv w ∧ allocated (cmem w') p (n + 21)
      else if negb (we_write env =? 0) then
        cn_state (conn w') = CS_DISCONNECTING ∧ cuv w' = cu_close h (cuv w)
      else cn_state (conn w') = CS_CONNECTED ∧
        cuv w' = cu_write {| rq_base := p; rq_len := n + 21; rq_block := n + 21 |} (cuv w) ∧
        mem_load (cmem w') p (n + 21) = Some (encode (framed id (we_ticks env) bs)))
  else tcp_write_begin env (Some h) (Some src) n w = Some (tt, w).
Proof.
  intros Hok Hd n id env0. pose proof Hok as [_ _ _ [Hn _] _ _]. case_decide as Hst.
  - split.
    { unfold tcp_write_begin. rewrite M_get, Hd, M_lift. cbn [negb orb]. fold n. rewrite (proj2 (Z.eqb_neq n 0)) by lia.
      destruct Hst as [->| ->]; reflexivity. }
    intros Hh Hcl. destruct (write_prepare w env h src bs p fill Hok Hd Hst) as (m & Hld & Hout & Hal & Hrun).
    fold n id in Hld, Hout, Hal, Hrun. rewrite Hrun. clear Hrun. set (w1 := set_cmem m _).
    destruct (negb (we_req env)); [by exists w1|]. destruct (negb (we_write env =? 0)); [|by eexists].
    rewrite M_modify. unfold tcp_conn_disconnect. rewrite M_get.
    cbn [conn set_cmem set_conn cuv cn_state set_cn_current_msg_id set_cn_state cn_tcp_handle w1].
    change ((CS_CONNECTED =? CS_DISCONNECTED) || (CS_CONNECTED =? CS_DISCONNECTING)) with false. cbv iota.
    rewrite Hh, Hd, M_lift, bool_decide_eq_false_2 by done. cbn [negb].
    eexists. split; [reflexivity|]. split; [done|]. split; [|done].
    intros a Ha. cbn [cmem set_cmem set_conn set_cuv]. rewrite release_outside by done. by apply Hout.
  - unfold tcp_write_begin. rewrite M_get, Hd, M_lift. cbn [negb orb]. fold n. rewrite (proj2 (Z.eqb_neq n 0)) by lia.
    destruct (Z.eqb_spec (cn_state (conn w)) CS_CONNECTING); [tauto|].
    destruct (Z.eqb_spec (cn_state (conn w)) CS_CONNECTED); [tauto|]. done.
Qed.

(** ** Samples *)

Definition sample_world : cworld :=
  {| conn := set_cn_state CS_CONNECTED (set_cn_ctx (Some tt) zero_conn);
     cxt := {| cx_config := Some (Some (Some tt)); cx_traffic := no_traffic |}; cmem := ∅;
     cuv := {| cu_data := {[ 1%nat := true ]}; cu_closing := []; cu_connecting := []; cu_writes := [] |} |}.
Definition sample_env (p : Z) (n : nat) : write_env :=
  {| we_ticks := 5; we_block := Some (p, replicate n 0); we_req := true; we_write := 0 |}.

(** Two sends. *)
Definition sample_sent : option (unit * cworld) :=
  (@tcp_write_begin little_host (sample_env 4096 23) (Some 1%nat) (Some (SrcBytes [7; 8])) 2;;
   @tcp_write_begin little_host (sample_env 8192 22) (Some 1%nat) (Some (SrcBytes [9])) 1) sample_world.

Lemma sample_sends w1 : sample_sent = Some (tt, w1) → @sends little_host 1 sample_world [(5, [7; 8]); (5, [9])] w1.
Proof.
  unfold sample_sent. intros Hrun.
  destruct (@tcp_write_begin little_host (sample_env 4096 23) (Some 1%nat) (Some (SrcBytes [7; 8])) 2 sample_world)
    as [[[] w2]|] eqn:H1; [|vm_compute in H1; discriminate].
  rewrite (bind_Some _ _ _ _ _ H1) in Hrun.
  assert (cu_writes (cuv w2) = [{| rq_base := 4096; rq_len := 23; rq_block := 23 |}]) as Hw.
  { revert H1. vm_compute. by intros [= <-]. }
  apply (sends_cons 1 _ (sample_env 4096 23) (SrcBytes [7; 8]) [7; 8] 4096 (replicate 23 0) w2);
    [|reflexivity|reflexivity|exact H1|].
  { split; [by split|split; vm_compute; reflexivity|split; vm_compute; [discriminate|reflexivity]| |apply source_bytes_ok
      |by apply Forall_nil]. split; [split; vm_compute; reflexivity|by repeat constructor]. }
  apply (sends_cons 1 _ (sample_env 8192 22) (SrcBytes [9]) [9] 8192 (replicate 22 0) w1);
    [|reflexivity|reflexivity|exact Hrun|apply sends_nil].
  split; [by split|split; vm_compute; reflexivity|split; vm_compute; [discriminate|reflexivity]| |apply source_bytes_ok|].
  - split; [split; vm_compute; reflexivity|by repeat constructor].
  - rewrite Hw. apply Forall_cons. split; [right; vm_compute; discriminate|by apply Forall_nil].
Qed.

(** A chunk of the sample stream, in a block at 8 MB. *)
Definition sample_chunk (fill bs : list Z) : chunk :=
  {| ck_ticks := 9; ck_base := 8388608; ck_fill := fill; ck_data := bs |}.

Lemma sample_chunk_ok bs :
  bs ≠ [] → Z.of_nat (length bs) ≤ 65536 → Forall is_byte bs →
  chunk_ok 16777216 (sample_chunk (replicate (Z.to_nat 65536) 0) bs).
Proof.
  intros Hne Hle Hbs. split; cbn [ck_base ck_fill ck_data sample_chunk]; [lia|apply length_replicate|unfold AREA; lia|done].
Qed.

(** A connection set up with its area at 16 MB. *)
Lemma sample_receiver :
  ∃ r b, tcp_conn_init (Some (16777216, replicate (Z.to_nat AREA) 0)) (Some sample_buffer) sample_world = Some (TN_SUCCESS, r) ∧
    rx_rep 16777216 (cmem r) (cn_rx (conn r)) b fresh_rx ∧ cn_ctx (conn r) = Some tt ∧ cuv r = cuv sample_world.
Proof.
  destruct (conn_init_run 16777216 sample_world (replicate (Z.to_nat AREA) 0) sample_buffer)
    as (r & b & Hrun & Hx & Hctx & _ & _ & _ & Huv & _); [done| |lia|unfold AREA; lia|by exists r, b].
  rewrite length_replicate. unfold AREA. lia.
Qed.

Ltac bytes := repeat (apply Forall_cons; split; [unfold is_byte; lia|]); by apply Forall_nil.


Lemma receive_refines_parser_witness :
  ∃ w0 w' b, @conn_reads little_host 1 [sample_chunk (replicate (Z.to_nat 65536) 0) [0; 0; 0; 3; 1; 2; 3]] w0 = Some (tt, w') ∧
    rx_rep 16777216 (cmem w') (cn_rx (conn w')) b {| sp_len := Some 3; sp_bytes := [1; 2; 3]; sp_last := 0; sp_used := 7 |}.
Proof.
  destruct sample_receiver as (w0 & b & Hrun & _).
  destruct (@receive_refines_parser little_host 16777216 sample_world (replicate (Z.to_nat AREA) 0) sample_buffer w0 1
    [sample_chunk (replicate (Z.to_nat 65536) 0) [0; 0; 0; 3; 1; 2; 3]]) as (w' & b' & Hr & Hx & _).
  - reflexivity.
  - rewrite length_replicate. unfold AREA. lia.
  - lia.
  - unfold AREA. lia.
  - reflexivity.
  - exact Hrun.
  - apply Forall_cons. split; [|apply Forall_nil; exact I]. apply sample_chunk_ok; [discriminate|simpl; lia|bytes].
  - exists w0, w', b'. split; [exact Hr|]. revert Hx. generalize (replicate (Z.to_nat 65536) 0). intros fill Hx. exact Hx.
Defined.


Lemma tcp_write_begin_outcome_witness :
  let w := set_conn (set_cn_tcp_handle (Some 1%nat) (conn sample_world)) sample_world in
  ∃ w', @tcp_write_begin little_host (sample_env 4096 23) (Some 1%nat) (Some (SrcBytes [7; 8])) 2 w = Some (tt, w') ∧
    cn_current_msg_id (conn w') = 1 ∧ mem_load (cmem w') 4096 23 = Some (encode (framed 1 5 [7; 8])).
Proof.
  intros w. pose proof (@tcp_write_begin_outcome little_host w (sample_env 4096 23) 1 (SrcBytes [7; 8]) [7; 8] 4096
    (replicate 23 0)) as H.
  rewrite decide_True in H by (right; reflexivity). destruct H as [_ H].
  - split; [by split|split; vm_compute; reflexivity|split; vm_compute; [discriminate|reflexivity]| |apply source_bytes_ok
      |by apply Forall_nil]. split; [split; vm_compute; reflexivity|by repeat constructor].
  - reflexivity.
  - destruct (H eq_refl) as (w' & Hrun & Hid & _ & _ & _ & Hld); [apply not_elem_of_nil|].
    exists w'. split; [exact Hrun|]. split; [exact Hid|exact Hld].
Defined.
