(* ===== verification/ConnLife.v ===== *)
(** The life of a client connection: the states of [connection_state_t] under the calls of
    the program and the callbacks of libuv. *)
From stdpp Require Import base numbers list option gmap.
From Stdlib Require Import ZArith Lia.
From S2P Require Import Prelude ByteBuf Buffer BufferPool Inet Endpoint Channel Time Connection ConnStream.

Local Open Scope Z_scope.
Local Open Scope c_scope.

(** ** Steps *)

(** libuv is about to call back. *)
Definition cu_close_done (h : nat) (u : conn_uv) : conn_uv :=
  {| cu_data := cu_data u; cu_closing := filter (.≠ h) (cu_closing u); cu_connecting := cu_connecting u;
     cu_writes := cu_writes u |}.
Definition cu_connect_done (h : nat) (u : conn_uv) : conn_uv :=
  {| cu_data := cu_data u; cu_closing := cu_closing u; cu_connecting := filter (.≠ h) (cu_connecting u);
     cu_writes := cu_writes u |}.
(** The first accepted write is done. *)
Definition cu_write_done (u : conn_uv) : conn_uv :=
  {| cu_data := cu_data u; cu_closing := cu_closing u; cu_connecting := cu_connecting u;
     cu_writes := tail (cu_writes u) |}.

(** The calls of the program and the callbacks. *)
Inductive cact :=
  | CConnect (env : connect_env) (host : ptr (list Z)) (port : Z)
  | CConnected (h : nat) (status read_start : Z)
  | CWrite (env : write_env) (src : source) (bs : list Z)
  | CSent (ticks status : Z)
  | CRead (h : nat) (c : chunk)
  | CReadError (h : nat) (ticks err : Z)
  | CDisconnect
  | CClosed (h : nat).

(** A constant is one of the listed ones. *)
Ltac listed := repeat first [apply list_elem_of_here|apply list_elem_of_further].

(** A constant is not one of the listed ones. *)
Ltac not_listed H :=
  exfalso; repeat (apply elem_of_cons in H as [H|H]; [discriminate H|]); by apply elem_of_nil in H.

Section Life.
Context `{Host} (if_nametoindex : list Z → Z) (area : Z).

Definition exec_cact (x : cact) : M cworld Z :=
  match x with
  | CConnect env host port => tcp_connect_begin if_nametoindex env host port
  | CConnected h status read_start =>
      modify_cuv (cu_connect_done h);; on_tcp_connected_cb h status read_start;; mret 0
  | CWrite env src bs =>
      w ← get; tcp_write_begin env (cn_tcp_handle (conn w)) (Some src) (Z.of_nat (length bs));; mret 0
  | CSent ticks status =>
      w ← get;
      match cu_writes (cuv w) with
      | [] => undef
      | req :: _ => modify_cuv cu_write_done;; on_tcp_write_cb ticks req status;; mret 0
      end
  | CRead h c => conn_read h c;; mret 0
  | CReadError h ticks err => on_tcp_recv_cb h ticks err 0;; mret 0
  | CDisconnect => tcp_conn_disconnect;; mret 0
  | CClosed h => modify_cuv (cu_close_done h);; on_tcp_close_cb h;; mret 0
  end.

(** A block away from the connection's area. *)
Definition apart (p n : Z) : Prop := p + n ≤ area ∨ area + AREA ≤ p.

(** What libuv and the allocator promise: fresh handles, whose initialisation succeeds;
    a connect request of a handle being closed is cancelled; nothing is read before the
    connect is done or after the close; writes are reported in order; a close is reported
    once, after everything else that was pending. *)
Definition cenabled (w : cworld) (x : cact) : Prop :=
  match x with
  | CConnect env _ _ => ce_tcp_init env = 0 ∧ ∀ h, ce_handle env = Some h → cu_data (cuv w) !! h = None
  | CConnected h status _ => h ∈ cu_connecting (cuv w) ∧ (h ∈ cu_closing (cuv w) → status < 0)
  | CWrite env src bs =>
      bs ≠ [] ∧ (we_block env = None ∨
        ∃ p fill, send_ok w env src bs p fill ∧ apart p (Z.of_nat (length fill)))
  | CSent _ _ => cu_writes (cuv w) ≠ []
  | CRead h c => cn_tcp_handle (conn w) = Some h ∧ cu_data (cuv w) !! h = Some true ∧ chunk_ok area c
  | CReadError h _ err => cn_tcp_handle (conn w) = Some h ∧ cu_data (cuv w) !! h = Some true ∧
      h ∉ cu_connecting (cuv w) ∧ err < 0
  | CDisconnect => True
  | CClosed h => h ∈ cu_closing (cuv w) ∧ h ∉ cu_connecting (cuv w) ∧ cu_writes (cuv w) = []
  end.

(** ** Invariant *)

Record life (w : cworld) : Prop := {
  lf_ctx : cn_ctx (conn w) = Some tt;
  lf_loop : is_Some (tcp_context_get_loop (Some (cxt w)));
  lf_rx : ∃ b x, rx_rep area (cmem w) (cn_rx (conn w)) b x;
  lf_state : cn_state (conn w) ∈ [CS_NEW; CS_CONNECTING; CS_CONNECTED; CS_DISCONNECTING; CS_DISCONNECTED];
  lf_new : cn_state (conn w) = CS_NEW → cn_tcp_handle (conn w) = NULL;
  lf_live : cn_state (conn w) = CS_CONNECTING ∨ cn_state (conn w) = CS_CONNECTED → is_Some (cn_tcp_handle (conn w));
  lf_handle : ∀ h, cn_tcp_handle (conn w) = Some h → cu_data (cuv w) !! h = Some true;
  lf_closing : if decide (cn_state (conn w) = CS_DISCONNECTING)
               then ∃ h, cn_tcp_handle (conn w) = Some h ∧ cu_closing (cuv w) = [h]
               else cu_closing (cuv w) = [];
  lf_connecting : cu_connecting (cuv w) = [] ∨
    ∃ h, cu_connecting (cuv w) = [h] ∧ cn_tcp_handle (conn w) = Some h ∧
      cn_state (conn w) ∈ [CS_CONNECTING; CS_CONNECTED; CS_DISCONNECTING];
  lf_writes : cu_writes (cuv w) = [] ∨ cn_state (conn w) ∈ [CS_CONNECTED; CS_DISCONNECTING];
  lf_blocks : Forall (λ r, apart (rq_base r) (rq_block r)) (cu_writes (cuv w));
}.

(** ** Lemmas *)

Lemma disconnect_noop w :
  cn_state (conn w) = CS_DISCONNECTED ∨ cn_state (conn w) = CS_DISCONNECTING ∨ cn_tcp_handle (conn w) = NULL →
  tcp_conn_disconnect w = Some (tt, w).
Proof.
  intros Hst. unfold tcp_conn_disconnect. rewrite M_get. cbv zeta.
  destruct Hst as [->|[->| ->]]; [done|done|]. by destruct (_ || _).
Qed.

Definition disconnecting (h : nat) (w : cworld) : cworld :=
  set_cuv (cu_close h (cuv w)) (set_conn (set_cn_state CS_DISCONNECTING (conn w)) w).

Lemma disconnect_close w h :
  cn_state (conn w) ≠ CS_DISCONNECTED → cn_state (conn w) ≠ CS_DISCONNECTING → cn_tcp_handle (conn w) = Some h →
  cu_data (cuv w) !! h = Some true → cu_closing (cuv w) = [] →
  tcp_conn_disconnect w = Some (tt, disconnecting h w).
Proof.
  intros H1 H2 Hh Hd Hcl. unfold tcp_conn_disconnect. rewrite M_get. cbv zeta.
  rewrite (proj2 (Z.eqb_neq _ _) H1), (proj2 (Z.eqb_neq _ _) H2). cbn [orb]. rewrite Hh, Hd, M_lift, Hcl.
  rewrite bool_decide_eq_false_2 by apply not_elem_of_nil. done.
Qed.

(** What the invariant says in a state. *)
Lemma life_up w :
  life w → cn_state (conn w) = CS_CONNECTING ∨ cn_state (conn w) = CS_CONNECTED →
  ∃ h, cn_tcp_handle (conn w) = Some h ∧ cu_data (cuv w) !! h = Some true ∧ cu_closing (cuv w) = [].
Proof.
  intros [] Hst. destruct (lf_live0 Hst) as [h Hh]. exists h. split_and!; [done|by apply lf_handle0|].
  rewrite decide_False in lf_closing0; [done|]. by destruct Hst as [->| ->].
Qed.

(** The close of a live connection keeps the invariant. *)
Lemma life_disconnecting w h :
  life w → cn_state (conn w) = CS_CONNECTING ∨ cn_state (conn w) = CS_CONNECTED → cn_tcp_handle (conn w) = Some h →
  life (disconnecting h w).
Proof.
  intros Hl Hst Hh. destruct (life_up w Hl Hst) as (h' & Hh' & Hd & Hcl). simplify_eq. pose proof Hl as [].
  split; simpl; try done.
  - listed.
  - rewrite Hcl. by exists h.
  - destruct lf_connecting0 as [->|(h0 & -> & Hh0 & _)]; [by left|right]. exists h0. split_and!; [done|done|listed].
  - destruct lf_writes0 as [->|_]; [by left|right]. listed.
Qed.

(** [tcp_conn_disconnect] from any state. *)
Lemma disconnect_life w :
  life w →
  ∃ w', tcp_conn_disconnect w = Some (tt, w') ∧ life w' ∧
    cn_state (conn w') = (if decide (cn_state (conn w) = CS_CONNECTING ∨ cn_state (conn w) = CS_CONNECTED)
                          then CS_DISCONNECTING else cn_state (conn w)) ∧
    cn_rx (conn w') = cn_rx (conn w).
Proof.
  intros Hl. case_decide as Hst.
  - destruct (life_up w Hl Hst) as (h & Hh & Hd & Hcl). exists (disconnecting h w).
    split_and!; [|by apply life_disconnecting|done|done]. apply disconnect_close; try done; by destruct Hst as [->| ->].
  - exists w. split_and!; try done. apply disconnect_noop. pose proof Hl as [].
    apply elem_of_cons in lf_state0 as [Hs|Hs]; [by auto|].
    repeat (apply elem_of_cons in Hs as [Hs|Hs]; [by tauto|]). by apply elem_of_nil in Hs.
Qed.

(** How the state of a connection moves when no connect is made. *)
Definition moves (s s' : Z) : Prop :=
  s' = s ∨ ((s = CS_CONNECTING ∨ s = CS_CONNECTED) ∧ (s' = CS_CONNECTED ∨ s' = CS_DISCONNECTING)) ∨
  (s = CS_DISCONNECTING ∧ s' = CS_DISCONNECTED).

Lemma disconnect_moves s :
  moves s (if decide (s = CS_CONNECTING ∨ s = CS_CONNECTED) then CS_DISCONNECTING else s).
Proof. unfold moves. case_decide; tauto. Qed.

Lemma disconnected_moves w s :
  cn_state (conn w) = s → life w →
  ∃ w', tcp_conn_disconnect w = Some (tt, w') ∧ life w' ∧ moves s (cn_state (conn w')).
Proof.
  intros <- Hl. destruct (disconnect_life w Hl) as (w' & Hrun & Hl' & Hst & _).
  exists w'. split_and!; [done|done|]. rewrite Hst. apply disconnect_moves.
Qed.

(** The invariant depends on few members. *)
Lemma life_same w w' :
  life w → cn_ctx (conn w') = cn_ctx (conn w) → cx_config (cxt w') = cx_config (cxt w) →
  cn_state (conn w') = cn_state (conn w) → cn_tcp_handle (conn w') = cn_tcp_handle (conn w) → cuv w' = cuv w →
  (∃ b x, rx_rep area (cmem w') (cn_rx (conn w')) b x) → life w'.
Proof.
  intros [] H1 H2 H3 H4 H5 H6. unfold tcp_context_get_loop in *.
  split; unfold tcp_context_get_loop; rewrite ?H1, ?H2, ?H3, ?H4, ?H5; done.
Qed.

Lemma closed_life w h : life w → cenabled w (CClosed h) → ∃ w', exec_cact (CClosed h) w = Some (0, w') ∧ life w' ∧
  cn_state (conn w') = CS_DISCONNECTED ∧ cn_tcp_handle (conn w') = NULL ∧ cu_closing (cuv w') = [].
Proof.
  intros Hl (Hcl & Hcn & Hw). pose proof Hl as []. case_decide as Hst.
  2:{ rewrite lf_closing0 in Hcl. by apply elem_of_nil in Hcl. }
  destruct lf_closing0 as (h' & Hh' & Hcl'). rewrite Hcl' in Hcl. apply list_elem_of_singleton in Hcl as <-.
  simpl. unfold modify_cuv. rewrite M_modify. unfold on_tcp_close_cb. rewrite M_assoc, M_get.
  cbn [cuv set_cuv cu_data cu_close_done]. rewrite (lf_handle0 h Hh'), M_assoc, M_lift. cbn [negb].
  unfold modify_conn. rewrite M_assoc, !M_modify. eexists. split; [reflexivity|].
  assert (filter (.≠ h) (cu_closing (cuv w)) = []) as Hf.
  { rewrite Hcl'. rewrite filter_cons_False by (intros H'; by apply H'). apply filter_nil. }
  split; [|by split_and!]. split; simpl; try done.
  - listed.
  - by intros [].
  - destruct lf_connecting0 as [?|(h0 & Hc & Hh0 & _)]; [by left|]. rewrite Hh' in Hh0. injection Hh0 as <-.
    exfalso. apply Hcn. rewrite Hc. set_solver.
  - by left.
Qed.

Lemma connected_life w h status read_start :
  life w → cenabled w (CConnected h status read_start) →
  ∃ w', exec_cact (CConnected h status read_start) w = Some (0, w') ∧ life w' ∧
    moves (cn_state (conn w)) (cn_state (conn w')).
Proof.
  intros Hl [Hin Hcan]. pose proof Hl as []. destruct lf_connecting0 as [Hc|(h' & Hc & Hh & Hst)].
  { rewrite Hc in Hin. by apply elem_of_nil in Hin. }
  rewrite Hc in Hin. apply list_elem_of_singleton in Hin as <-.
  simpl. unfold modify_cuv. rewrite M_modify. set (w1 := set_cuv _ w).
  assert (filter (.≠ h) (cu_connecting (cuv w)) = []) as Hf.
  { rewrite Hc, filter_cons_False by (intros H'; by apply H'). apply filter_nil. }
  assert (life w1) as Hl1.
  { split; simpl; try done. by left. }
  unfold on_tcp_connected_cb. destruct (Z.ltb_spec status 0) as [Hs|Hs].
  { destruct (disconnected_moves w1 _ eq_refl Hl1) as (w' & Hrun & Hl' & ?). exists w'. by rewrite (bind_Some _ _ _ _ _ Hrun). }
  assert (cn_state (conn w) = CS_CONNECTING ∨ cn_state (conn w) = CS_CONNECTED) as Hup.
  { destruct (decide (cn_state (conn w) = CS_DISCONNECTING)) as [Hd|Hd].
    - destruct lf_closing0 as (h' & Hh' & Hcl). rewrite Hh in Hh'. injection Hh' as <-.
      exfalso. assert (status < 0); [apply Hcan; rewrite Hcl; set_solver|lia].
    - set_solver. }
  unfold modify_conn, modify_cuv. repeat first [rewrite M_assoc|rewrite M_modify].
  set (w2 := set_cuv _ _).
  assert (life w2) as Hl2.
  { destruct (life_up w Hl Hup) as (h' & Hh' & Hd & Hcl). simplify_eq.
    split; simpl; try done; [listed|intros ? [= <-]; by rewrite lookup_insert_eq|by left|right; listed]. }
  destruct (negb (read_start =? 0)).
  2:{ exists w2. split_and!; [done|done|]. unfold moves. simpl. tauto. }
  destruct (disconnected_moves w2 _ eq_refl Hl2) as (w' & Hrun & Hl' & Hm). exists w'.
  rewrite (bind_Some _ _ _ _ _ Hrun). split_and!; [done|done|]. unfold moves in *. simpl in Hm.
  destruct Hm as [-> |[[_ [-> | ->]]|[? _]]]; [tauto..|done].
Qed.

Lemma rx_other_mem w m :
  (∃ b x, rx_rep area (cmem w) (cn_rx (conn w)) b x) → (∀ a, area ≤ a < area + AREA → m !! a = cmem w !! a) →
  ∃ b x, rx_rep area m (cn_rx (conn w)) b x.
Proof. intros (b & x & Hx) Hm. exists b, x. by eapply rep_mem. Qed.

(** The counters of a finished write. *)
Lemma write_done_run w ticks req status :
  cn_ctx (conn w) = Some tt →
  ∃ w', write_done ticks req status w = Some (negb (status =? 0), w') ∧ cuv w' = cuv w ∧ cmem w' = cmem w ∧
    cn_ctx (conn w') = cn_ctx (conn w) ∧ cx_config (cxt w') = cx_config (cxt w) ∧
    cn_state (conn w') = cn_state (conn w) ∧ cn_tcp_handle (conn w') = cn_tcp_handle (conn w) ∧
    cn_rx (conn w') = cn_rx (conn w).
Proof.
  intros Hctx. unfold write_done. destruct (negb (status =? 0)); [by eexists|].
  destruct (rq_len req =? 0); [by eexists|]. unfold modify_conn_stats, modify_conn, modify_ctx_traffic.
  rewrite M_modify, M_assoc, M_get, M_assoc. cbn [conn set_conn cn_ctx set_cn_stats]. rewrite Hctx, M_lift, M_put.
  by eexists.
Qed.

Lemma sent_life w ticks status :
  life w → cenabled w (CSent ticks status) → ∃ w', exec_cact (CSent ticks status) w = Some (0, w') ∧ life w' ∧
    moves (cn_state (conn w)) (cn_state (conn w')).
Proof.
  intros Hl Hne. simpl in *. rewrite M_get. destruct (cu_writes (cuv w)) as [|req rs] eqn:Hw; [done|].
  unfold modify_cuv. rewrite M_modify. set (w1 := set_cuv _ w). pose proof Hl as []. rewrite Hw in *.
  apply Forall_cons in lf_blocks0 as [Hreq Hrs].
  assert (life w1) as Hl1.
  { split; simpl; rewrite ?Hw; try done. by destruct lf_writes0 as [|?]; [|right]. }
  unfold on_tcp_write_cb. rewrite M_assoc.
  destruct (write_done_run w1 ticks req status lf_ctx0) as (w2 & Hrun & Huv & Hm & H1 & H2 & H3 & H4 & H5).
  rewrite (bind_Some _ _ _ _ _ Hrun), M_assoc, M_modify. set (w3 := set_cmem _ w2).
  assert (life w3) as Hl3.
  { apply (life_same w1); try done. apply (rx_other_mem w2).
    - rewrite Hm, H5. apply Hl1.
    - intros a Ha. apply release_outside. destruct Hreq; lia. }
  unfold close_unless_connected. rewrite M_assoc, M_get. assert (cn_state (conn w3) = cn_state (conn w)) as Hst by exact H3.
  destruct (_ || _); [|exists w3; split_and!; [done|done|by left]].
  destruct (disconnected_moves w3 _ Hst Hl3) as (w' & Hd & Hl' & ?). exists w'. by rewrite (bind_Some _ _ _ _ _ Hd).
Qed.

Lemma read_life w h c : life w → cenabled w (CRead h c) → ∃ w', exec_cact (CRead h c) w = Some (0, w') ∧
  life w' ∧ moves (cn_state (conn w)) (cn_state (conn w')).
Proof.
  intros Hl (Hh & Hd & Hc). pose proof Hl as []. destruct lf_rx0 as (b & x & Hx).
  destruct (conn_read_run area w h b x c Hd lf_ctx0 Hx Hc) as (w' & b' & Hrun & Hx' & []).
  exists w'. simpl. rewrite (bind_Some _ _ _ _ _ Hrun). split; [done|]. split; [apply (life_same w); try done; by eauto|by left].
Qed.

Lemma read_error_life w h ticks err :
  life w → cenabled w (CReadError h ticks err) → ∃ w', exec_cact (CReadError h ticks err) w = Some (0, w') ∧
    life w' ∧ moves (cn_state (conn w)) (cn_state (conn w')).
Proof.
  intros Hl (Hh & Hd & _ & Herr). simpl. unfold on_tcp_recv_cb. rewrite M_assoc, M_get, M_assoc, Hd, M_lift.
  rewrite (proj2 (Z.ltb_lt _ _) Herr). unfold follow, modify_conn.
  rewrite M_assoc, M_lift, M_assoc, M_modify, M_assoc, M_modify. set (w1 := set_cmem _ _).
  assert (life w1) as Hl1 by (apply (life_same w); try done; apply Hl).
  destruct (disconnected_moves w1 _ eq_refl Hl1) as (w' & Hrun & Hl' & ?). exists w'. by rewrite (bind_Some _ _ _ _ _ Hrun).
Qed.

Lemma write_life w env src bs :
  life w → cenabled w (CWrite env src bs) → ∃ w', exec_cact (CWrite env src bs) w = Some (0, w') ∧
    life w' ∧ moves (cn_state (conn w)) (cn_state (conn w')).
Proof.
  intros Hl [Hne Hen]. pose proof Hl as []. simpl. rewrite M_get.
  destruct (cn_tcp_handle (conn w)) as [h|] eqn:Hh; [|exists w; split_and!; [done|done|by left]]. pose proof (lf_handle0 h eq_refl) as Hd.
  assert (Z.of_nat (length bs) ≠ 0) as Hn by (destruct bs; [done|simpl; lia]).
  destruct (decide (cn_state (conn w) = CS_CONNECTING ∨ cn_state (conn w) = CS_CONNECTED)) as [Hst|Hst].
  2:{ exists w. split; [|split; [done|by left]]. unfold tcp_write_begin. rewrite M_assoc, M_get, M_assoc, Hd, M_lift. cbn [negb orb].
      rewrite (proj2 (Z.eqb_neq _ 0) Hn). destruct (Z.eqb_spec (cn_state (conn w)) CS_CONNECTING); [tauto|].
      by destruct (Z.eqb_spec (cn_state (conn w)) CS_CONNECTED); [tauto|]. }
  assert (cu_closing (cuv w) = []) as Hcl by (destruct (life_up w Hl Hst) as (? & _ & _ & ?); done).
  assert (∀ m id, (∀ a, area ≤ a < area + AREA → m !! a = cmem w !! a) →
    life (set_cmem m (set_conn (set_cn_current_msg_id id (set_cn_state CS_CONNECTED (conn w))) w))) as Hup.
  { intros m id Hm. split; simpl; rewrite ?Hh; try done; [by apply rx_other_mem|listed| |right; listed].
    destruct lf_connecting0 as [|(h0 & Hc & Hh0 & _)]; [by left|right]. exists h0. split_and!; [done|done|listed]. }
  destruct Hen as [Hnone|(p & fill & Hok & Hap)].
  { specialize (Hup (cmem w) (u64 (cn_current_msg_id (conn w) + 1)) ltac:(done)).
    eexists. split; [|split; [exact Hup|unfold moves; simpl; tauto]]. unfold tcp_write_begin. rewrite M_assoc, M_get, M_assoc, Hd, M_lift. cbn [negb orb].
    rewrite (proj2 (Z.eqb_neq _ 0) Hn), Hnone. by destruct w, Hst as [->| ->]. }
  destruct (write_prepare w env h src bs p fill Hok Hd Hst) as (m & _ & Hout & _ & Hrun).
  pose proof Hok as [[_ Hfl] _ _ _ _ _]. rewrite Hfl in Hap.
  unfold mbind, M_bind. rewrite Hrun. set (id := u64 _) in *. set (w1 := set_cmem m _).
  assert (life w1) as Hl1 by (apply Hup; intros a Ha; apply Hout; unfold apart in Hap; lia).
  assert (∀ s, moves CS_CONNECTED s → moves (cn_state (conn w)) s) as Hmv.
  { unfold moves. intros s0 [-> |[[_ ?]|[? _]]]; [tauto|tauto|done]. }
  destruct (negb (we_req env)); [exists w1; split_and!; [done|done|by apply Hmv; left]|]. destruct (negb (we_write env =? 0)).
  - rewrite M_modify. set (w2 := set_cmem _ w1). assert (life w2) as Hl2.
    { apply (life_same w1); try done. apply (rx_other_mem w1); [apply Hl1|]. intros a Ha.
      apply release_outside. unfold apart in Hap. lia. }
    destruct (disconnected_moves w2 CS_CONNECTED eq_refl Hl2) as (w' & Hd' & Hl' & ?). exists w'. rewrite Hd'.
    split_and!; [done|done|by apply Hmv].
  - eexists. split; [reflexivity|]. split; [|by apply Hmv; left]. pose proof Hl1 as []. split; simpl; try done; [by right; listed|].
    apply Forall_app. split; [done|]. apply Forall_cons. split; [done|by apply Forall_nil].
Qed.

Lemma endpoint_set_total host port e : ∃ code e', tn_endpoint_set if_nametoindex host port e = Some (code, e').
Proof.
  assert (∀ e, ∃ code e', tn_endpoint_set_ip4 host port e = Some (code, e')) as H4.
  { intros e0. unfold tn_endpoint_set_ip4. destruct host; [|by eexists _, _]. mrun. destruct (negb _); by eexists _, _. }
  assert (∃ code e', tn_endpoint_set_ip6 if_nametoindex host port e = Some (code, e')) as (c6 & e6 & H6).
  { unfold tn_endpoint_set_ip6. destruct host; [|by eexists _, _]. mrun. destruct (negb _); by eexists _, _. }
  unfold tn_endpoint_set. rewrite (bind_Some _ _ _ _ _ H6). destruct (negb _); [apply H4|by eexists _, _].
Qed.

(** A connection that is being opened: only its endpoints and its handle differ from [w]. *)
Record opening (w : cworld) (h : nat) (w1 : cworld) : Prop := {
  op_uv : cuv w1 = cu_set_data h true (cuv w);
  op_conn : cn_ctx (conn w1) = cn_ctx (conn w) ∧ cn_rx (conn w1) = cn_rx (conn w) ∧ cn_state (conn w1) = cn_state (conn w);
  op_handle : cn_tcp_handle (conn w1) = Some h;
  op_rest : cxt w1 = cxt w ∧ cmem w1 = cmem w;
}.

(** Nothing is pending on a closed connection. *)
Lemma life_down w :
  life w → cn_state (conn w) = CS_NEW ∨ cn_state (conn w) = CS_DISCONNECTED →
  cu_closing (cuv w) = [] ∧ cu_connecting (cuv w) = [] ∧ cu_writes (cuv w) = [].
Proof.
  intros [] Hst. rewrite decide_False in lf_closing0 by (by destruct Hst as [->| ->]). split; [done|]. split.
  - destruct lf_connecting0 as [|(h & _ & _ & Hs)]; [done|]. destruct Hst as [E|E]; rewrite E in Hs; not_listed Hs.
  - destruct lf_writes0 as [|Hs]; [done|]. destruct Hst as [E|E]; rewrite E in Hs; not_listed Hs.
Qed.

(** The attempt fails before the state changes: a new connection starts to close, one that
    was used before keeps its state and the handle stays open. *)
Lemma open_fails w h w1 :
  life w → cn_state (conn w) = CS_NEW ∨ cn_state (conn w) = CS_DISCONNECTED → opening w h w1 →
  ∃ w', tcp_conn_disconnect w1 = Some (tt, w') ∧ life w' ∧ cn_tcp_handle (conn w') = Some h ∧
    cu_data (cuv w') !! h = Some true ∧ cn_rx (conn w') = cn_rx (conn w) ∧
    if decide (cn_state (conn w) = CS_NEW) then cn_state (conn w') = CS_DISCONNECTING ∧ cu_closing (cuv w') = [h]
    else cn_state (conn w') = CS_DISCONNECTED ∧ cu_closing (cuv w') = [].
Proof.
  intros Hl Hst [Huv (H1 & H2 & H3) Hh [H4 H5]]. destruct (life_down w Hl Hst) as (Hcl & Hcn & Hwr). pose proof Hl as [].
  assert (cu_data (cuv w1) !! h = Some true) as Hd by (rewrite Huv; apply lookup_insert_eq).
  destruct (decide (cn_state (conn w) = CS_NEW)) as [Hnew|Hnew].
  - assert (tcp_conn_disconnect w1 = Some (tt, disconnecting h w1)) as ->.
    { apply disconnect_close; rewrite ?H3, ?Hnew; try done. by rewrite Huv. }
    eexists. split; [reflexivity|]. split; [|split_and!; simpl; try done; by rewrite Huv; simpl; rewrite Hcl].
    split; simpl; rewrite ?H1, ?H2, ?H4, ?H5, ?Hh, ?Huv; simpl; rewrite ?Hcl, ?Hcn, ?Hwr; try done.
    + listed.
    + intros h' [= <-]. apply lookup_insert_eq.
    + by exists h.
    + by left.
    + by left.
  - destruct Hst as [|Hst]; [done|]. rewrite disconnect_noop by (left; by rewrite H3).
    eexists. split; [reflexivity|]. split; [|split_and!; [done|done|done|by rewrite H3|by rewrite Huv]].
    split; rewrite ?H1, ?H2, ?H3, ?H4, ?H5, ?Hh, ?Huv; simpl; rewrite ?Hst, ?Hcl, ?Hcn, ?Hwr; try done.
    + listed.
    + intros h' [= <-]. apply lookup_insert_eq.
    + by left.
    + by left.
Qed.

(** The state is connecting. *)
Lemma open_life w h w1 :
  life w → cn_state (conn w) = CS_NEW ∨ cn_state (conn w) = CS_DISCONNECTED → opening w h w1 →
  life (set_conn (set_cn_state CS_CONNECTING (conn w1)) w1) ∧
  life (set_cuv (cu_connect h (cuv w1)) (set_conn (set_cn_state CS_CONNECTING (conn w1)) w1)).
Proof.
  intros Hl Hst [Huv (H1 & H2 & H3) Hh [H4 H5]]. destruct (life_down w Hl Hst) as (Hcl & Hcn & Hwr). pose proof Hl as [].
  assert (cu_data (cuv w1) !! h = Some true) as Hd by (rewrite Huv; apply lookup_insert_eq).
  split; (split; simpl; rewrite ?H1, ?H2, ?H4, ?H5, ?Hh, ?Huv; simpl; rewrite ?Hcl, ?Hcn, ?Hwr; try done;
    [listed|intros h' [= <-]; apply lookup_insert_eq|try (by left)|try (by left)]).
  right. exists h. split_and!; [done|done|listed].
Qed.

(** What is left of a failed attempt to open a connection that was used before. *)
Definition left_open (h : nat) (w : cworld) : Prop :=
  cn_state (conn w) = CS_DISCONNECTED ∧ cn_tcp_handle (conn w) = Some h ∧ cu_data (cuv w) !! h = Some true ∧
  cu_closing (cuv w) = [].

Lemma connect_life w env host port :
  life w → cenabled w (CConnect env host port) →
  ∃ code w', exec_cact (CConnect env host port) w = Some (code, w') ∧ life w' ∧ cn_rx (conn w') = cn_rx (conn w) ∧
    (∀ h, ce_handle env = Some h → ce_bind env ≠ 0 → cn_state (conn w) = CS_DISCONNECTED →
      tcp_context_get_loop (Some (cxt w)) = Some (Some tt) → code = TN_ERROR ∧ left_open h w').
Proof.
  intros Hl [Hinit Hfresh]. cbn [exec_cact]. unfold tcp_connect_begin. rewrite M_get.
  destruct (negb _) eqn:Hb.
  { exists EINVAL, w. split_and!; try done. intros h _ _ Hd. by rewrite Hd in Hb. }
  assert (cn_state (conn w) = CS_NEW ∨ cn_state (conn w) = CS_DISCONNECTED) as Hst.
  { apply negb_false_iff, orb_true_iff in Hb as [?%Z.eqb_eq|?%Z.eqb_eq]; auto. }
  pose proof Hl as []. rewrite lf_ctx0. destruct lf_loop0 as [loop Hloop]. rewrite Hloop, M_lift.
  destruct loop as [[]|]; [|by exists EINVAL, w]. unfold modify_conn. rewrite M_modify.
  destruct (ce_handle env) as [h|] eqn:Hce.
  2:{ eexists ENOMEM, _. split; [reflexivity|]. split; [|split; done]. split; simpl; try done.
      - intros Hup. destruct Hst as [E|E], Hup as [E'|E']; rewrite E in E'; discriminate.
      - by rewrite decide_False in * by (by destruct Hst as [->| ->]).
      - left. by destruct (life_down w Hl Hst) as (_ & ? & _). }
  rewrite Hinit. cbn [Z.eqb negb]. unfold modify_cuv. rewrite M_modify. set (w1 := set_cuv _ _).
  assert (opening w h w1) as Hop by (by split).
  set (P := λ code w', life w' ∧ cn_rx (conn w') = cn_rx (conn w) ∧
    (∀ h0, Some h = Some h0 → ce_bind env ≠ 0 → cn_state (conn w) = CS_DISCONNECTED → Some (Some tt) = Some (Some tt) →
      code = TN_ERROR ∧ left_open h0 w')).
  assert (∀ w1, opening w h w1 → ∃ code w', connect_cleanup w1 = Some (code, w') ∧ P code w') as Hfail.
  { intros w0 Ho. destruct (open_fails w h w0 Hl Hst Ho) as (w' & Hrun & Hl' & Hh & Hd & Hrx & Hres).
    exists TN_ERROR, w'. unfold connect_cleanup. rewrite (bind_Some _ _ _ _ _ Hrun). split; [done|].
    split_and!; try done. intros h0 [= <-] _ Hdis _. rewrite decide_False in Hres by (by rewrite Hdis).
    destruct Hres. by split_and!. }
  destruct (endpoint_set_total host port (cn_host_remote (conn w1))) as (c1 & e1 & He1).
  unfold on_remote, on_local. rewrite (bind_Some _ _ _ _ _ (zoom_Some _ _ _ w1 _ _ He1)). set (w2 := set_conn _ w1).
  assert (opening w h w2) as Hop2 by (by split). destruct (c1 =? 0); [|by apply Hfail].
  destruct (endpoint_set_total (Some any_address) 0 (cn_host_local (conn w2))) as (c2 & e2 & He2).
  rewrite (bind_Some _ _ _ _ _ (zoom_Some _ _ _ w2 _ _ He2)). set (w3 := set_conn _ w2).
  assert (opening w h w3) as Hop3 by (by split). destruct (c2 =? 0); [|by apply Hfail].
  destruct (negb (ce_nodelay env =? 0)); [by apply Hfail|].
  destruct (Z.eqb_spec (ce_bind env) 0) as [Hbind|Hbind]; [cbn [negb]|by apply Hfail].
  destruct (negb (ce_request env)); [by apply Hfail|]. rewrite M_modify.
  destruct (open_life w h w3 Hl Hst Hop3) as [Hc1 Hc2].
  destruct (negb (ce_connect env =? 0)).
  - destruct (disconnect_life _ Hc1) as (w' & Hrun & Hl' & _ & Hrx). exists TN_ERROR, w'. unfold connect_cleanup.
    rewrite (bind_Some _ _ _ _ _ Hrun). split_and!; [done|done| |done]. rewrite Hrx. apply Hop3.
  - eexists TN_SUCCESS, _. split; [reflexivity|]. split; [done|]. split; [apply Hop3|done].
Qed.

(** Any step. *)
Lemma cact_moves w x :
  life w → cenabled w x →
  ∃ code w', exec_cact x w = Some (code, w') ∧ life w' ∧
    match x with CConnect _ _ _ => True | _ => moves (cn_state (conn w)) (cn_state (conn w')) end.
Proof.
  intros Hl Hen. destruct x as [env host port|h st rs|env src bs|t st|h c|h t e| |h].
  - destruct (connect_life w env host port Hl Hen) as (code & w' & ? & ? & _). by exists code, w'.
  - destruct (connected_life w h st rs Hl Hen) as (w' & ? & ?). by exists 0, w'.
  - destruct (write_life w env src bs Hl Hen) as (w' & ? & ?). by exists 0, w'.
  - destruct (sent_life w t st Hl Hen) as (w' & ? & ?). by exists 0, w'.
  - destruct (read_life w h c Hl Hen) as (w' & ? & ?). by exists 0, w'.
  - destruct (read_error_life w h t e Hl Hen) as (w' & ? & ?). by exists 0, w'.
  - destruct (disconnected_moves w _ eq_refl Hl) as (w' & Hrun & ? & ?). exists 0, w'. simpl. by rewrite (bind_Some _ _ _ _ _ Hrun).
  - destruct (closed_life w h Hl Hen) as (w' & ? & ? & Hst & _). exists 0, w'. split_and!; [done|done|].
    rewrite Hst. right. right. split; [|done]. pose proof (lf_closing _ Hl) as Hcl. case_decide; [done|].
    destruct Hen as (Hin & _). rewrite Hcl in Hin. by apply elem_of_nil in Hin.
Qed.

Lemma cact_life w x : life w → cenabled w x → ∃ code w', exec_cact x w = Some (code, w') ∧ life w'.
Proof. intros Hl Hen. destruct (cact_moves w x Hl Hen) as (code & w' & ? & ? & _). by exists code, w'. Qed.

(** Runs. *)
Inductive crun : cworld → list cact → cworld → Prop :=
  | crun_nil w : crun w [] w
  | crun_cons w x code w1 xs w2 : cenabled w x → exec_cact x w = Some (code, w1) → crun w1 xs w2 → crun w (x :: xs) w2.

Lemma crun_life w xs w' : life w → crun w xs w' → life w'.
Proof.
  intros Hl Hr. induction Hr as [|w x code w1 xs w2 Hen Hx _ IH]; [done|]. apply IH.
  destruct (cact_life w x Hl Hen) as (c & w1' & Hx' & Hl'). rewrite Hx in Hx'. by injection Hx' as _ <-.
Qed.

(** The steps that libuv makes. *)
Definition is_callback (x : cact) : bool :=
  match x with CConnect _ _ _ | CWrite _ _ _ | CDisconnect => false | _ => true end.

(** Callbacks that are due. *)
Definition due (w : cworld) : nat := length (cu_connecting (cuv w)) + length (cu_writes (cuv w)).

Definition ECANCELED : Z := -125.

(** In the state disconnecting every due callback leaves one less. *)
Lemma cancel_write w :
  life w → cn_state (conn w) = CS_DISCONNECTING → cu_writes (cuv w) ≠ [] →
  ∃ w', exec_cact (CSent 0 ECANCELED) w = Some (0, w') ∧ cn_state (conn w') = CS_DISCONNECTING ∧
    cuv w' = cu_write_done (cuv w).
Proof.
  intros Hl Hst Hne. simpl. rewrite M_get. destruct (cu_writes (cuv w)) as [|req rs] eqn:Hw; [done|].
  unfold modify_cuv. rewrite M_modify. set (w1 := set_cuv _ w). unfold on_tcp_write_cb. rewrite M_assoc.
  destruct (write_done_run w1 0 req ECANCELED (lf_ctx _ Hl)) as (w2 & Hrun & Huv & Hm & H1 & H2 & H3 & H4 & H5).
  rewrite (bind_Some _ _ _ _ _ Hrun), M_assoc, M_modify. set (w3 := set_cmem _ w2).
  unfold close_unless_connected. rewrite M_assoc, M_get. change (negb (ECANCELED =? 0)) with true. cbn [orb].
  assert (tcp_conn_disconnect w3 = Some (tt, w3)) as Hd.
  { apply disconnect_noop. right. left. simpl. by rewrite H3. }
  rewrite (bind_Some _ _ _ _ _ Hd). exists w3. split; [done|]. split; [simpl; by rewrite H3|]. simpl. by rewrite Huv.
Qed.

Lemma cancel_connect w h :
  life w → cn_state (conn w) = CS_DISCONNECTING → cu_connecting (cuv w) = [h] →
  ∃ w', exec_cact (CConnected h ECANCELED 0) w = Some (0, w') ∧ cn_state (conn w') = CS_DISCONNECTING ∧
    cuv w' = cu_connect_done h (cuv w).
Proof.
  intros Hl Hst Hc. simpl. unfold modify_cuv. rewrite M_modify. set (w1 := set_cuv _ w).
  unfold on_tcp_connected_cb. change (ECANCELED <? 0) with true. cbv iota.
  assert (tcp_conn_disconnect w1 = Some (tt, w1)) as Hd by (apply disconnect_noop; by right; left).
  rewrite (bind_Some _ _ _ _ _ Hd). by exists w1.
Qed.

Lemma drain n : ∀ w, life w → cn_state (conn w) = CS_DISCONNECTING → due w = n →
  ∃ xs w', crun w xs w' ∧ length xs = S n ∧ cn_state (conn w') = CS_DISCONNECTED ∧ cn_tcp_handle (conn w') = NULL ∧
    due w' = 0%nat ∧ cu_closing (cuv w') = [] ∧ forallb is_callback xs = true.
Proof.
  induction n as [|n IH]; intros w Hl Hst Hdue; unfold due in Hdue; pose proof Hl as [].
  - destruct (cu_connecting (cuv w)) eqn:Hc; [|done]. destruct (cu_writes (cuv w)) eqn:Hw; [|done].
    rewrite decide_True in lf_closing0 by done. destruct lf_closing0 as (h & Hh & Hcl).
    assert (cenabled w (CClosed h)) as Hen.
    { split_and!; [rewrite Hcl; set_solver|rewrite Hc; apply not_elem_of_nil|done]. }
    destruct (closed_life w h Hl Hen) as (w' & Hrun & Hl' & Hst' & Hh' & Hcl').
    exists [CClosed h], w'. split; [by eapply crun_cons; [..|apply crun_nil]|]. split_and!; try done.
    destruct (life_down w' Hl' (or_intror Hst')) as (_ & H1 & H2). unfold due. by rewrite H1, H2.
  - assert (∃ x w1, cenabled w x ∧ exec_cact x w = Some (0, w1) ∧ cn_state (conn w1) = CS_DISCONNECTING ∧ due w1 = n ∧
      is_callback x = true) as (x & w1 & Hen & Hx & Hst1 & Hdue1 & Hcb).
    { destruct lf_connecting0 as [Hc|(h & Hc & Hh & _)].
      - rewrite Hc in Hdue. simpl in Hdue. assert (cu_writes (cuv w) ≠ []) as Hw by (by intros E; rewrite E in Hdue).
        destruct (cancel_write w Hl Hst Hw) as (w1 & Hx & Hst1 & Huv). exists (CSent 0 ECANCELED), w1.
        split_and!; try done. unfold due. rewrite Huv. simpl. rewrite Hc. simpl. destruct (cu_writes (cuv w)); [done|].
        simpl in *. lia.
      - destruct (cancel_connect w h Hl Hst Hc) as (w1 & Hx & Hst1 & Huv). exists (CConnected h ECANCELED 0), w1.
        split_and!; try done; [split; [rewrite Hc; set_solver|done]|]. unfold due. rewrite Huv. simpl.
        rewrite Hc, filter_cons_False by (intros H'; by apply H'). rewrite filter_nil. rewrite Hc in Hdue. simpl in *. lia. }
    assert (life w1) as Hl1.
    { destruct (cact_life w x Hl Hen) as (c & w1' & Hx' & ?). rewrite Hx in Hx'. by injection Hx' as _ <-. }
    destruct (IH w1 Hl1 Hst1 Hdue1) as (xs & w' & Hr & Hlen & ? & ? & ? & ? & Hcbs). exists (x :: xs), w'.
    split; [by eapply crun_cons|]. split; [simpl; by rewrite Hlen|]. split_and!; try done. simpl. by rewrite Hcb.
Qed.

End Life.

(** ** Theorems *)

(** C6. The states of a connection are what they say.  From a connection that was set up,
    after any run of connects, sends, disconnects and callbacks, whatever libuv and the
    allocator answer, every next call is defined; a connecting or connected connection has a
    handle of its own that is not being closed; a disconnecting one has exactly its handle
    being closed, so that no handle is closed twice; in the other states nothing is being
    closed; and writes are only in flight while connected or disconnecting. *)
Theorem conn_lifecycle `{Host} if_nametoindex area w fill obj w0 xs w' :
  cn_ctx (conn w) = Some tt → Z.of_nat (length fill) = AREA → 0 < area → area + AREA < W64 →
  is_Some (tcp_context_get_loop (Some (cxt w))) →
  cuv w = {| cu_data := ∅; cu_closing := []; cu_connecting := []; cu_writes := [] |} →
  tcp_conn_init (Some (area, fill)) (Some obj) w = Some (TN_SUCCESS, w0) → crun if_nametoindex area w0 xs w' →
  (∀ x, cenabled area w' x → is_Some (exec_cact if_nametoindex x w')) ∧
  (cn_state (conn w') = CS_CONNECTING ∨ cn_state (conn w') = CS_CONNECTED →
    ∃ h, cn_tcp_handle (conn w') = Some h ∧ cu_data (cuv w') !! h = Some true ∧ cu_closing (cuv w') = []) ∧
  (if decide (cn_state (conn w') = CS_DISCONNECTING)
   then ∃ h, cn_tcp_handle (conn w') = Some h ∧ cu_closing (cuv w') = [h] else cu_closing (cuv w') = []) ∧
  (cu_writes (cuv w') = [] ∨ cn_state (conn w') ∈ [CS_CONNECTED; CS_DISCONNECTING]).
Proof.
  intros Hctx Hfl Ha Hw Hloop Huv Hinit Hrun.
  destruct (conn_init_run area w fill obj Hctx Hfl Ha Hw) as (w1 & b & Hi & Hx & Hc & Hst & Hh & _ & Hu & Hcx).
  rewrite Hinit in Hi. injection Hi as <-.
  assert (life area w0) as Hl0.
  { split; rewrite ?Hu, ?Huv, ?Hst, ?Hh, ?Hcx; simpl; try done; [by eauto|listed|by intros []|by left|by left]. }
  pose proof (crun_life if_nametoindex area w0 xs w' Hl0 Hrun) as Hl. split_and!.
  - intros x Hen. destruct (cact_life if_nametoindex area w' x Hl Hen) as (code & w2 & -> & _). by eexists.
  - by apply life_up with area.
  - apply Hl.
  - apply Hl.
Qed.

(** C28. A disconnect always completes.  From a disconnecting connection the callbacks that
    are due (the cancelled connect, the cancelled writes, then the close) lead, in as many
    steps as there are of them and one more, to a disconnected connection without a handle
    and with nothing pending, which can be connected again. *)
Theorem disconnect_completes `{Host} if_nametoindex area w :
  life area w → cn_state (conn w) = CS_DISCONNECTING →
  ∃ xs w', crun if_nametoindex area w xs w' ∧ length xs = S (due w) ∧ life area w' ∧
    cn_state (conn w') = CS_DISCONNECTED ∧ cn_tcp_handle (conn w') = NULL ∧ due w' = 0%nat ∧ cu_closing (cuv w') = [].
Proof.
  intros Hl Hst. destruct (drain if_nametoindex area (due w) w Hl Hst eq_refl) as (xs & w' & Hr & Hlen & H1 & H2 & H3 & H4 & _).
  exists xs, w'. split_and!; try done. by eapply crun_life.
Qed.

(** A second connect starts from the leftovers of the first.  [tcp_connect_begin] keeps
    the receive buffer, the parser's state and the last message number of the previous
    connection, whatever its outcome; and when it fails (here at [uv_tcp_bind]) the new
    handle stays open for ever: the state is still disconnected, so the clean-up does not
    close it. *)
Theorem reconnect_keeps_leftovers `{Host} if_nametoindex area w env host port h :
  life area w → cenabled area w (CConnect env host port) → cn_state (conn w) = CS_DISCONNECTED →
  tcp_context_get_loop (Some (cxt w)) = Some (Some tt) → ce_handle env = Some h →
  ∃ code w', tcp_connect_begin if_nametoindex env host port w = Some (code, w') ∧
    cn_rx (conn w') = cn_rx (conn w) ∧
    (ce_bind env ≠ 0 → code = TN_ERROR ∧ cn_state (conn w') = CS_DISCONNECTED ∧ cn_tcp_handle (conn w') = Some h ∧
      cu_data (cuv w') !! h = Some true ∧ cu_closing (cuv w') = []).
Proof.
  intros Hl Hen Hst Hloop Hh.
  destruct (connect_life if_nametoindex area w env host port Hl Hen) as (code & w' & Hrun & _ & Hrx & Hleft).
  exists code, w'. split_and!; [done|done|]. intros Hb. by destruct (Hleft h Hh Hb Hst Hloop).
Qed.

(** ** Samples *)

Definition idle_world : cworld :=
  {| conn := set_cn_ctx (Some tt) zero_conn; cxt := {| cx_config := Some (Some (Some tt)); cx_traffic := no_traffic |};
     cmem := ∅; cuv := {| cu_data := ∅; cu_closing := []; cu_connecting := []; cu_writes := [] |} |}.

Definition sample_connect (h : nat) (bind : Z) : connect_env :=
  {| ce_handle := Some h; ce_tcp_init := 0; ce_nodelay := 0; ce_bind := bind; ce_request := true; ce_connect := 0 |}.

(** A connection set up with its area at 16 MB. *)
Lemma idle_conn :
  ∃ w0, tcp_conn_init (Some (16777216, replicate (Z.to_nat AREA) 0)) (Some sample_buffer) idle_world = Some (TN_SUCCESS, w0) ∧
    life 16777216 w0 ∧ cn_state (conn w0) = CS_NEW ∧ cuv w0 = cuv idle_world ∧ cxt w0 = cxt idle_world.
Proof.
  destruct (conn_init_run 16777216 idle_world (replicate (Z.to_nat AREA) 0) sample_buffer)
    as (w0 & b & Hrun & Hx & Hc & Hst & Hh & _ & Hu & Hcx); [done| |lia|unfold AREA; lia|].
  { rewrite length_replicate. unfold AREA. lia. }
  exists w0. split; [done|]. split_and!; try done.
  split; rewrite ?Hu, ?Hst, ?Hh, ?Hcx; simpl; try done; [by eauto|listed|by intros []|by left|by left].
Qed.

Lemma conn_lifecycle_witness :
  ∃ w0 w1 code, tcp_conn_init (Some (16777216, replicate (Z.to_nat AREA) 0)) (Some sample_buffer) idle_world = Some (TN_SUCCESS, w0) ∧
    @exec_cact little_host (λ _, 0) (CConnect (sample_connect 1 0) (Some any_address) 80) w0 = Some (code, w1) ∧
    is_Some (@exec_cact little_host (λ _, 0) CDisconnect w1).
Proof.
  destruct idle_conn as (w0 & Hi & Hl & Hst & Huv & Hcx).
  assert (cenabled 16777216 w0 (CConnect (sample_connect 1 0) (Some any_address) 80)) as Hen.
  { split; [reflexivity|]. intros h _. rewrite Huv. apply lookup_empty. }
  destruct (@connect_life little_host (λ _, 0) 16777216 w0 (sample_connect 1 0) (Some any_address) 80 Hl Hen)
    as (code & w1 & Hrun & _).
  destruct (@conn_lifecycle little_host (λ _, 0) 16777216 idle_world (replicate (Z.to_nat AREA) 0) sample_buffer w0
    [CConnect (sample_connect 1 0) (Some any_address) 80] w1) as [Hdef _].
  - reflexivity.
  - rewrite length_replicate. unfold AREA. lia.
  - lia.
  - unfold AREA. lia.
  - by eexists.
  - reflexivity.
  - exact Hi.
  - eapply crun_cons; [exact Hen|exact Hrun|apply crun_nil].
  - exists w0, w1, code. split; [exact Hi|]. split; [exact Hrun|]. apply Hdef. exact I.
Defined.

(** Connected and told to disconnect at once. *)
Lemma leaving_conn :
  ∃ w, life 16777216 w ∧ cn_state (conn w) = CS_DISCONNECTING ∧ tcp_context_get_loop (Some (cxt w)) = Some (Some tt).
Proof.
  destruct idle_conn as (w0 & _ & Hl & Hst & Huv & Hcx).
  set (w1 := set_cuv (cu_set_data 1 true (cuv w0)) (set_conn (set_cn_tcp_handle (Some 1%nat) (conn w0)) w0)).
  destruct (open_fails 16777216 w0 1 w1 Hl (or_introl Hst)) as (w' & Hrun & Hl' & _ & _ & _ & Hres); [by split|].
  rewrite decide_True in Hres by done. destruct Hres as [Hd _]. exists w'. split_and!; [done|done|].
  assert (cxt w' = cxt w1) as ->; [|change (cxt w1) with (cxt w0); by rewrite Hcx].
  revert Hrun. unfold tcp_conn_disconnect. mrun. destruct (_ || _); [by intros [= <-]|].
  rewrite lookup_insert_eq. destruct (negb _); by intros [= <-].
Qed.

Lemma disconnect_completes_witness :
  ∃ w xs w', @crun little_host (λ _, 0) 16777216 w xs w' ∧ cn_state (conn w) = CS_DISCONNECTING ∧
    cn_state (conn w') = CS_DISCONNECTED.
Proof.
  destruct leaving_conn as (w & Hl & Hst & _).
  destruct (@disconnect_completes little_host (λ _, 0) 16777216 w Hl Hst) as (xs & w' & Hr & _ & _ & Hd & _).
  exists w, xs, w'. split; [exact Hr|]. split; [exact Hst|exact Hd].
Defined.

Lemma reconnect_keeps_leftovers_witness :
  ∃ w code w', @tcp_connect_begin (λ _, 0) (sample_connect 2 (-98)) (Some any_address) 80 w = Some (code, w') ∧
    cn_state (conn w') = CS_DISCONNECTED ∧ cn_tcp_handle (conn w') = Some 2%nat ∧ cu_closing (cuv w') = [].
Proof.
  destruct idle_conn as (w0 & _ & Hl & Hst & Huv & Hcx).
  set (w := set_conn (set_cn_state CS_DISCONNECTED (conn w0)) w0).
  assert (life 16777216 w) as Hlw.
  { destruct Hl. split; simpl; rewrite ?Huv; simpl; try done; [listed|by intros []|intros h Hh; by rewrite (lf_new0 Hst) in Hh|by left|by left]. }
  destruct (@reconnect_keeps_leftovers little_host (λ _, 0) 16777216 w (sample_connect 2 (-98)) (Some any_address) 80 2)
    as (code & w' & Hrun & _ & Hfail).
  - exact Hlw.
  - split; [reflexivity|]. intros h _. simpl. rewrite Huv. apply lookup_empty.
  - reflexivity.
  - simpl. rewrite Hcx. reflexivity.
  - reflexivity.
  - destruct Hfail as (_ & H1 & H2 & _ & H3); [discriminate|]. exists w, code, w'. split; [exact Hrun|].
    split; [exact H1|]. split; [exact H2|exact H3].
Defined.
