(* ===== verification/AwsMath.v ===== *)
(** Overflow-checked multiplication: aws/common/math.h with its two C
    implementations, math.gcc_overflow.inl (the compiler's
    [__builtin_mul_overflow]) and math.fallback.inl (a division).  The file shows
    that the two implementations agree and what [aws_mul_size_checked] loses. *)
From stdpp Require Import base numbers list option.
From Stdlib Require Import ZArith Lia.
From S2P Require Import Prelude.

Local Open Scope Z_scope.

(** ** math.gcc_overflow.inl *)

(** [__builtin_mul_overflow] at [w] values: the wrapped product and whether the
    product was out of range. *)
Definition builtin_mul_overflow (w a b : Z) : bool * Z := (w <=? a * b, (a * b) mod w).

Module Gcc.
Definition aws_mul_u64_saturating (a b : Z) : Z :=
  let '(over, res) := builtin_mul_overflow W64 a b in if over then W64 - 1 else res.
Definition aws_mul_u64_checked (a b : Z) : Z * Z :=
  let '(over, r) := builtin_mul_overflow W64 a b in (c_bool (negb over), r).
Definition aws_mul_u32_saturating (a b : Z) : Z :=
  let '(over, res) := builtin_mul_overflow W32 a b in if over then W32 - 1 else res.
Definition aws_mul_u32_checked (a b : Z) : Z * Z :=
  let '(over, r) := builtin_mul_overflow W32 a b in (c_bool (negb over), r).
End Gcc.

(** ** math.fallback.inl *)

Module Fallback.
Definition aws_mul_u64_saturating (a b : Z) : Z :=
  let x := u64 (a * b) in
  if negb (a =? 0) && ((4294967295 <? a) || (4294967295 <? b)) && negb (x / a =? b)
  then W64 - 1 else x.
Definition aws_mul_u64_checked (a b : Z) : Z * Z :=
  let x := u64 (a * b) in
  (if negb (a =? 0) && ((4294967295 <? a) || (4294967295 <? b)) && negb (x / a =? b)
   then 0 else 1, x).
Definition aws_mul_u32_saturating (a b : Z) : Z :=
  let x := u32 (a * b) in
  if negb (a =? 0) && ((65535 <? a) || (65535 <? b)) && negb (x / a =? b)
  then W32 - 1 else x.
Definition aws_mul_u32_checked (a b : Z) : Z * Z :=
  let x := u32 (a * b) in
  (if negb (a =? 0) && ((65535 <? a) || (65535 <? b)) && negb (x / a =? b)
   then 0 else 1, x).
End Fallback.

(** ** math.h, with [SIZE_MAX] the largest 64-bit integer *)

Definition aws_mul_size_saturating (a b : Z) : Z :=
  if SIZE_MAX =? W32 - 1 then Gcc.aws_mul_u32_saturating (u32 a) (u32 b)
  else Gcc.aws_mul_u64_saturating a b.

(** The return value and what is stored in [*r]. *)
Definition aws_mul_size_checked (a b : Z) : Z * Z :=
  if SIZE_MAX =? W32 - 1 then Gcc.aws_mul_u32_checked (u32 a) (u32 b)
  else Gcc.aws_mul_u64_checked (u32 a) (u32 b).

(** ** Lemmas *)

(** The division detects a wrapped product: [w = h * h] values, [h] the half width. *)
Lemma wrapped_quotient h a b :
  0 < h → 0 ≤ a < h * h → 0 ≤ b < h * h →
  negb (a =? 0) && ((h - 1 <? a) || (h - 1 <? b)) && negb ((a * b) mod (h * h) / a =? b)
  = (h * h <=? a * b).
Proof.
  intros Hh Ha Hb.
  destruct (Z.leb_spec (h * h) (a * b)) as [Hbig|Hsmall].
  - assert (a ≠ 0) by nia. assert (h - 1 < a ∨ h - 1 < b) by nia.
    pose proof (Z.mod_pos_bound (a * b) (h * h) ltac:(nia)).
    pose proof (Z.div_mod (a * b) (h * h) ltac:(nia)).
    assert (1 ≤ a * b / (h * h)) by (apply Z.div_le_lower_bound; nia).
    assert ((a * b) mod (h * h) / a < b) by (apply Z.div_lt_upper_bound; nia).
    destruct (Z.eqb_spec a 0), (Z.ltb_spec (h - 1) a), (Z.ltb_spec (h - 1) b),
      (Z.eqb_spec ((a * b) mod (h * h) / a) b); first [done|lia].
  - rewrite (Z.mod_small (a * b)) by nia.
    destruct (Z.eqb_spec a 0) as [->|Hne]; [done|].
    rewrite Z.mul_comm, Z.div_mul, Z.eqb_refl by done. by rewrite andb_false_r.
Qed.

(** The two implementations of the overflow-checked multiplications agree on every
    pair of machine integers, in the result and in the overflow answer: dividing the
    wrapped product by [a] finds exactly the overflows the compiler's builtin reports. *)
Theorem mul_implementations_agree a b :
  (0 ≤ a < W64 → 0 ≤ b < W64 →
     Fallback.aws_mul_u64_saturating a b = Gcc.aws_mul_u64_saturating a b ∧
     Fallback.aws_mul_u64_checked a b = Gcc.aws_mul_u64_checked a b) ∧
  (0 ≤ a < W32 → 0 ≤ b < W32 →
     Fallback.aws_mul_u32_saturating a b = Gcc.aws_mul_u32_saturating a b ∧
     Fallback.aws_mul_u32_checked a b = Gcc.aws_mul_u32_checked a b).
Proof.
  split; intros Ha Hb.
  - pose proof (wrapped_quotient 4294967296 a b ltac:(lia) Ha Hb) as E.
    unfold Fallback.aws_mul_u64_saturating, Fallback.aws_mul_u64_checked,
      Gcc.aws_mul_u64_saturating, Gcc.aws_mul_u64_checked, builtin_mul_overflow, u64.
    change W64 with (4294967296 * 4294967296).
    change (4294967296 - 1) with 4294967295 in E. rewrite E.
    by destruct (4294967296 * 4294967296 <=? a * b).
  - pose proof (wrapped_quotient 65536 a b ltac:(lia) Ha Hb) as E.
    unfold Fallback.aws_mul_u32_saturating, Fallback.aws_mul_u32_checked,
      Gcc.aws_mul_u32_saturating, Gcc.aws_mul_u32_checked, builtin_mul_overflow, u32.
    change W32 with (65536 * 65536).
    change (65536 - 1) with 65535 in E. rewrite E.
    by destruct (65536 * 65536 <=? a * b).
Qed.

Lemma mul_implementations_agree_witness :
  Fallback.aws_mul_u64_checked 4294967296 4294967296 = (0, 0) ∧
  Fallback.aws_mul_u64_checked 4294967296 4294967296 = Gcc.aws_mul_u64_checked 4294967296 4294967296.
Proof.
  split; [reflexivity|].
  destruct (proj1 (mul_implementations_agree 4294967296 4294967296)); [easy|easy|assumption].
Defined.

(** The arguments are cut to 32 bits, so the check never fails. *)
Lemma mul_size_checked_run a b :
  aws_mul_size_checked a b = (1, u32 a * u32 b).
Proof.
  pose proof (u32_range a). pose proof (u32_range b).
  unfold aws_mul_size_checked, Gcc.aws_mul_u64_checked, builtin_mul_overflow. simpl.
  assert (u32 a * u32 b < W64) by nia.
  rewrite (proj2 (Z.leb_gt _ _)) by done. rewrite Z.mod_small; [done|]. split; [nia|done].
Qed.
