(* ===== verification/HashTable.v ===== *)
(** The hash table of aws-c-common: source/hash_table.c.  Open addressing with
    robin-hood displacement and backward-shift deletion; a slot whose [hash_code] is
    0 is empty.

    A table is a pointer to its state ([p_impl], [NULL] when there is none) together
    with the log of the destructor calls made for it.  [None] of the monad is a
    dereference of [NULL], an access outside the allocated slots, or a loop that did
    not end within its fuel; HashProbe and HashMap show that none of these happens on
    a well-formed table.  The thread's last error ([aws_raise_error]) is not
    recorded, the return codes are. *)
From stdpp Require Import base numbers list option.
From Stdlib Require Import ZArith Lia.
From S2P Require Import Prelude AwsMath.

Local Open Scope Z_scope.

(** ** Data *)

Definition AWS_OP_SUCCESS : Z := 0.
Definition AWS_OP_ERR : Z := -1.
Definition AWS_ERROR_SUCCESS : Z := 0.
Definition AWS_ERROR_HASHTBL_ITEM_NOT_FOUND : Z := 31.
Definition AWS_COMMON_HASH_TABLE_ITER_CONTINUE : Z := 1.
Definition AWS_COMMON_HASH_TABLE_ITER_DELETE : Z := 2.

(** Keys and values are [void *]: machine words. *)
Record aws_hash_element := { e_key : Z; e_value : Z }.

Record hash_table_entry := { element : aws_hash_element; hash_code : Z }.

Definition zero_element : aws_hash_element := {| e_key := 0; e_value := 0 |}.
(** What [memset] and [AWS_ZERO_STRUCT] leave in a slot. *)
Definition zero_entry : hash_table_entry := {| element := zero_element; hash_code := 0 |}.

#[global] Instance hash_table_entry_inhabited : Inhabited hash_table_entry := populate zero_entry.
#[global] Instance aws_hash_element_eq_dec : EqDecision aws_hash_element.
Proof. solve_decision. Defined.
#[global] Instance hash_table_entry_eq_dec : EqDecision hash_table_entry.
Proof. solve_decision. Defined.

(** A destructor is the address of a function, or [NULL]; [alloc] is left out: the
    allocator's answers are arguments of the operations that allocate.
    [max_load_factor] is a double; it holds the significand of 0.95, in units of
    2^-53. *)
Record hash_table_state := {
  hash_fn : Z → Z;
  equals_fn : Z → Z → bool;
  destroy_key_fn : ptr Z;
  destroy_value_fn : ptr Z;
  size : Z;
  entry_count : Z;
  max_load : Z;
  mask : Z;
  max_load_factor : Z;
  slots : list hash_table_entry;
}.

Definition sizeof_hash_table_entry : Z := 24.
Definition sizeof_hash_table_state : Z := 104.

Definition set_slots (l : list hash_table_entry) (st : hash_table_state) : hash_table_state :=
  {| hash_fn := hash_fn st; equals_fn := equals_fn st; destroy_key_fn := destroy_key_fn st;
     destroy_value_fn := destroy_value_fn st; size := size st; entry_count := entry_count st;
     max_load := max_load st; mask := mask st; max_load_factor := max_load_factor st;
     slots := l |}.
Definition set_entry_count (n : Z) (st : hash_table_state) : hash_table_state :=
  {| hash_fn := hash_fn st; equals_fn := equals_fn st; destroy_key_fn := destroy_key_fn st;
     destroy_value_fn := destroy_value_fn st; size := size st; entry_count := n;
     max_load := max_load st; mask := mask st; max_load_factor := max_load_factor st;
     slots := slots st |}.
Definition set_size (n load msk : Z) (st : hash_table_state) : hash_table_state :=
  {| hash_fn := hash_fn st; equals_fn := equals_fn st; destroy_key_fn := destroy_key_fn st;
     destroy_value_fn := destroy_value_fn st; size := n; entry_count := entry_count st;
     max_load := load; mask := msk; max_load_factor := max_load_factor st;
     slots := slots st |}.

(** The table and the destructor calls made so far, each with its argument. *)
Record aws_hash_table := { p_impl : ptr hash_table_state; destroyed : list (Z * Z) }.

Record aws_hash_iter := { it_element : aws_hash_element; it_slot : Z; it_limit : Z }.

(** ** Allocation *)

Definition s_hash_for (st : hash_table_state) (key : Z) : Z :=
  let hash_code := hash_fn st key in
  if hash_code =? 0 then 1 else hash_code.

(** [acq sz] tells whether the allocator has a block of [sz] bytes.  The block has room
    for as many slots as [elemsize] counts, and one more in the header. *)
Definition s_alloc_state (acq : Z → bool) (template : hash_table_state) : ptr hash_table_state :=
  let '(ok, elemsize) :=
    aws_mul_size_checked (u64 (size template - 1)) sizeof_hash_table_entry in
  if ok =? 0 then NULL
  else
    let sz := u64 (elemsize + sizeof_hash_table_state) in
    if sz <? elemsize then NULL
    else if negb (acq sz) then NULL
    else Some (set_slots
                 (replicate (Z.to_nat (elemsize / sizeof_hash_table_entry + 1)) zero_entry)
                 template).

(** The shifting loop; at most 64 rounds, since a bit is shifted out of [size] by then.
    [None] is the overflow. *)
Fixpoint size_loop (fuel : nat) (min_size size mask : Z) : option (Z * Z) :=
  match fuel with
  | O => None
  | S f =>
      if size <? min_size then
        let size := u64 (Z.shiftl size 1) in
        let mask := u64 (Z.shiftl mask 1) in
        if size =? 0 then None else size_loop f min_size size mask
      else Some (size, mask)
  end.

(** [(size_t)(factor * (double)size)] for a [size] that is a power of two, for which the
    product of doubles is exact. *)
Definition load_of (factor size : Z) : Z := factor * size / 2 ^ 53.

(** The return code and the template. *)
Definition s_update_template_size (template : hash_table_state) (expected_elements : Z) :
    Z * hash_table_state :=
  let min_size := if expected_elements <? 2 then 2 else expected_elements in
  match size_loop 65 min_size 1 (W64 - 1) with
  | None => (AWS_OP_ERR, template)
  | Some (sz, msk) =>
      let msk := W64 - 1 - msk in
      if sz <? expected_elements then (AWS_OP_ERR, template)
      else
        let load := load_of (max_load_factor template) sz in
        let load := if sz <=? load then sz - 1 else load in
        let template := set_size sz load (mask template) template in
        let required_mem := aws_mul_size_saturating (size template) sizeof_hash_table_entry in
        if (required_mem =? SIZE_MAX) ||
           (u64 (required_mem + sizeof_hash_table_state) <? required_mem)
        then (AWS_OP_ERR, template)
        else (AWS_OP_SUCCESS, set_size sz load msk template)
  end.

Definition max_load_factor_95 : Z := 8556839292003942.

(** [junk] holds what the members of the template that are not assigned before
    [s_update_template_size] happen to contain; its code is ignored. *)
Definition aws_hash_table_init (acq : Z → bool) (junk : Z * Z * Z) (size : Z)
    (hash_fn : Z → Z) (equals_fn : Z → Z → bool) (destroy_key_fn destroy_value_fn : ptr Z) :
    M aws_hash_table Z :=
  let '(junk_size, junk_load, junk_mask) := junk in
  let template := {| hash_fn := hash_fn; equals_fn := equals_fn;
    destroy_key_fn := destroy_key_fn; destroy_value_fn := destroy_value_fn;
    size := junk_size; entry_count := 0; max_load := junk_load; mask := junk_mask;
    max_load_factor := max_load_factor_95; slots := [] |} in
  let '(_, template) := s_update_template_size template size in
  let p := s_alloc_state acq template in
  modify (λ t, {| p_impl := p; destroyed := destroyed t |});;
  match p with
  | None => mret AWS_OP_ERR
  | Some _ => mret AWS_OP_SUCCESS
  end.

(** ** Access to the state *)

Definition deref : M aws_hash_table hash_table_state := t ← get; lift (p_impl t).
Definition set_impl (st : hash_table_state) : M aws_hash_table unit :=
  modify (λ t, {| p_impl := Some st; destroyed := destroyed t |}).
Definition set_slot (i : Z) (e : hash_table_entry) : M aws_hash_table unit :=
  st ← deref;
  if bool_decide (is_Some (slots st !! Z.to_nat i))
  then set_impl (set_slots (<[Z.to_nat i := e]> (slots st)) st) else undef.
(** A call of a destructor, which must not be [NULL]. *)
Definition destroy (fn : ptr Z) (arg : Z) : M aws_hash_table unit :=
  f ← lift fn;
  modify (λ t, {| p_impl := p_impl t; destroyed := destroyed t ++ [(f, arg)] |}).
(** [if (fn) fn(arg);] *)
Definition destroy_if (fn : ptr Z) (arg : Z) : M aws_hash_table unit :=
  match fn with Some _ => destroy fn arg | None => mret tt end.

Definition aws_hash_table_get_entry_count : M aws_hash_table Z :=
  st ← deref; mret (entry_count st).

(** ** Probing *)

(** [(hash_code + probe_idx) & mask] and [(index - hash_code) & mask]. *)
Definition probe_slot (msk h probe_idx : Z) : Z := Z.land (u64 (h + probe_idx)) msk.
Definition probe_of (msk index h : Z) : Z := Z.land (u64 (index - h)) msk.

(** The code, the slot of [*p_entry] and [*p_probe_idx]. *)
Fixpoint find1_loop (fuel : nat) (st : hash_table_state) (h key probe_idx : Z) :
    option (Z * Z * Z) :=
  match fuel with
  | O => None
  | S f =>
      let index := probe_slot (mask st) h probe_idx in
      entry ← slots st !! Z.to_nat index;
      if hash_code entry =? 0
      then Some (AWS_ERROR_HASHTBL_ITEM_NOT_FOUND, index, probe_idx)
      else if (hash_code entry =? h) && equals_fn st key (e_key (element entry))
      then Some (AWS_ERROR_SUCCESS, index, probe_idx)
      else
        let entry_probe := probe_of (mask st) index (hash_code entry) in
        if entry_probe <? probe_idx
        then Some (AWS_ERROR_HASHTBL_ITEM_NOT_FOUND, index, probe_idx)
        else find1_loop f st h key (u64 (probe_idx + 1))
  end.

Definition s_find_entry1 (st : hash_table_state) (h key : Z) : option (Z * Z * Z) :=
  find1_loop (S (Z.to_nat (size st))) st h key 1.

Definition s_find_entry (st : hash_table_state) (h key : Z) : option (Z * Z * Z) :=
  let index := Z.land h (mask st) in
  entry ← slots st !! Z.to_nat index;
  if hash_code entry =? 0
  then Some (AWS_ERROR_HASHTBL_ITEM_NOT_FOUND, index, 0)
  else if (hash_code entry =? h) && equals_fn st key (e_key (element entry))
  then Some (AWS_ERROR_SUCCESS, index, 0)
  else s_find_entry1 st h key.

(** The code and the slot [*p_elem] points into. *)
Definition aws_hash_table_find (key : Z) : M aws_hash_table (Z * ptr Z) :=
  st ← deref;
  r ← lift (s_find_entry st (s_hash_for st key) key);
  let '(rv, entry, _) := r in
  mret (AWS_OP_SUCCESS, if rv =? AWS_ERROR_SUCCESS then Some entry else NULL).

(** The loop of [s_emplace_item] on the slots: the new slots and [initial_placement]. *)
Fixpoint emplace_loop (fuel : nat) (msk : Z) (l : list hash_table_entry)
    (entry : hash_table_entry) (probe_idx : Z) (initial_placement : ptr Z) :
    option (list hash_table_entry * ptr Z) :=
  match fuel with
  | O => None
  | S f =>
      if hash_code entry =? 0 then Some (l, initial_placement)
      else
        let index := probe_slot msk (hash_code entry) probe_idx in
        victim ← l !! Z.to_nat index;
        let victim_probe_idx := probe_of msk index (hash_code victim) in
        if (hash_code victim =? 0) || (victim_probe_idx <? probe_idx) then
          let initial_placement :=
            match initial_placement with None => Some index | Some _ => initial_placement end in
          emplace_loop f msk (<[Z.to_nat index := entry]> l) victim
            (u64 (victim_probe_idx + 1)) initial_placement
        else emplace_loop f msk l entry (u64 (probe_idx + 1)) initial_placement
  end.

Definition s_emplace_item (st : hash_table_state) (entry : hash_table_entry) (probe_idx : Z) :
    option (hash_table_state * ptr Z) :=
  r ← emplace_loop (S (Z.to_nat (size st))) (mask st) (slots st) entry probe_idx NULL;
  let '(l, p) := r in Some (set_slots l st, p).

(** The rehashing loop of [s_expand_table], from slot [i], [n] slots left. *)
Fixpoint rehash_loop (n : nat) (i : nat) (old new : hash_table_state) : option hash_table_state :=
  match n with
  | O => Some new
  | S n' =>
      entry ← slots old !! i;
      if hash_code entry =? 0 then rehash_loop n' (S i) old new
      else
        r ← s_emplace_item new entry 0;
        rehash_loop n' (S i) old r.1
  end.

(** The code of [s_update_template_size] is ignored. *)
Definition s_expand_table (acq : Z → bool) : M aws_hash_table Z :=
  old_state ← deref;
  let '(_, template) := s_update_template_size old_state (u64 (size old_state * 2)) in
  match s_alloc_state acq template with
  | None => mret AWS_OP_ERR
  | Some new_state =>
      new_state ← lift (rehash_loop (Z.to_nat (size old_state)) 0 old_state new_state);
      set_impl new_state;;
      mret AWS_OP_SUCCESS
  end.

(** ** Insertion *)

(** The return code, the slot of [*p_elem] and [*was_created]; the last two are [NULL]
    and 0 when the call fails and stores nothing. *)
Definition aws_hash_table_create (acq : Z → bool) (key : Z) : M aws_hash_table (Z * ptr Z * Z) :=
  st ← deref;
  let h := s_hash_for st key in
  r ← lift (s_find_entry st h key);
  let '(rv, entry, probe_idx) := r in
  if rv =? AWS_ERROR_SUCCESS then mret (AWS_OP_SUCCESS, Some entry, 0)
  else
    let emplace (probe_idx : Z) : M aws_hash_table (Z * ptr Z * Z) :=
      st ← deref;
      let st := set_entry_count (u64 (entry_count st + 1)) st in
      let new_entry := {| element := {| e_key := key; e_value := 0 |}; hash_code := h |} in
      r ← lift (s_emplace_item st new_entry probe_idx);
      set_impl r.1;;
      mret (AWS_OP_SUCCESS, r.2, 1) in
    if max_load st <? u64 (entry_count st + 1) then
      rv ← s_expand_table acq;
      if rv =? AWS_OP_SUCCESS then emplace 0 else mret (rv, NULL, 0)
    else emplace probe_idx.

(** The return code and [*was_created]. *)
Definition aws_hash_table_put (acq : Z → bool) (key value : Z) : M aws_hash_table (Z * Z) :=
  r ← aws_hash_table_create acq key;
  let '(rv, p_elem, was_created) := r in
  if negb (rv =? 0) then mret (AWS_OP_ERR, was_created)
  else
    st ← deref;
    i ← lift p_elem;
    e ← lift (slots st !! Z.to_nat i);
    (if was_created =? 0 then
       (if negb (e_key (element e) =? key)
        then destroy_if (destroy_key_fn st) (e_key (element e)) else mret tt);;
       destroy_if (destroy_value_fn st) (e_value (element e))
     else mret tt);;
    set_slot i {| element := {| e_key := key; e_value := value |}; hash_code := hash_code e |};;
    mret (AWS_OP_SUCCESS, was_created).

(** ** Removal *)

(** The shifting loop of [s_remove_entry]: the slots and the last slot touched, which is
    then cleared. *)
Fixpoint shift_loop (fuel : nat) (msk : Z) (l : list hash_table_entry) (index : Z) :
    option (list hash_table_entry * Z) :=
  match fuel with
  | O => None
  | S f =>
      let next_index := Z.land (u64 (index + 1)) msk in
      next ← l !! Z.to_nat next_index;
      if hash_code next =? 0 then Some (l, index)
      else if Z.land (hash_code next) msk =? next_index then Some (l, index)
      else shift_loop f msk (<[Z.to_nat index := next]> l) next_index
  end.

Definition s_remove_entry (st : hash_table_state) (entry : Z) : option (hash_table_state * Z) :=
  r ← shift_loop (S (Z.to_nat (size st))) (mask st) (slots st) entry;
  let '(l, index) := r in
  Some (set_entry_count (u64 (entry_count st - 1))
          (set_slots (<[Z.to_nat index := zero_entry]> l) st), index).

(** The return code, [*was_present] and what is stored in [*p_value]; [out] tells whether
    [p_value] is given. *)
Definition aws_hash_table_remove (key : Z) (out : bool) :
    M aws_hash_table (Z * Z * option aws_hash_element) :=
  st ← deref;
  r ← lift (s_find_entry st (s_hash_for st key) key);
  let '(rv, entry, _) := r in
  if negb (rv =? AWS_ERROR_SUCCESS) then mret (AWS_OP_SUCCESS, 0, None)
  else
    e ← lift (slots st !! Z.to_nat entry);
    (if out then mret tt
     else
       destroy_if (destroy_key_fn st) (e_key (element e));;
       destroy_if (destroy_value_fn st) (e_value (element e)));;
    r ← lift (s_remove_entry st entry);
    set_impl r.1;;
    mret (AWS_OP_SUCCESS, 1, if out then Some (element e) else None).

(** ** Iteration *)

(** The scan of [s_get_next_element] from slot [i], [n] slots left below the limit. *)
Fixpoint next_loop (n : nat) (i : Z) (l : list hash_table_entry) :
    option (option (aws_hash_element * Z)) :=
  match n with
  | O => Some None
  | S n' =>
      entry ← l !! Z.to_nat i;
      if hash_code entry =? 0 then next_loop n' (i + 1) l
      else Some (Some (element entry, i))
  end.

Definition s_get_next_element (st : hash_table_state) (limit start_slot : Z) :
    option aws_hash_iter :=
  r ← next_loop (Z.to_nat (limit - start_slot)) start_slot (slots st);
  Some match r with
       | Some (e, i) => {| it_element := e; it_slot := i; it_limit := limit |}
       | None => {| it_element := zero_element; it_slot := limit; it_limit := limit |}
       end.

Definition aws_hash_iter_begin : M aws_hash_table aws_hash_iter :=
  st ← deref; lift (s_get_next_element st (size st) 0).

Definition aws_hash_iter_done (iter : aws_hash_iter) : bool := it_slot iter =? it_limit iter.

Definition aws_hash_iter_next (iter : aws_hash_iter) : M aws_hash_table aws_hash_iter :=
  st ← deref; lift (s_get_next_element st (it_limit iter) (u64 (it_slot iter + 1))).

(** With [destroy_contents] both destructors are called without a check. *)
Definition aws_hash_iter_delete (iter : aws_hash_iter) (destroy_contents : bool) :
    M aws_hash_table aws_hash_iter :=
  st ← deref;
  (if destroy_contents then
     destroy (destroy_key_fn st) (e_key (it_element iter));;
     destroy (destroy_value_fn st) (e_value (it_element iter))
   else mret tt);;
  if bool_decide (is_Some (slots st !! Z.to_nat (it_slot iter))) then
    r ← lift (s_remove_entry st (it_slot iter));
    let '(st', last_index) := r in
    set_impl st';;
    mret {| it_element := it_element iter;
            it_slot := u64 (it_slot iter - 1);
            it_limit := if (last_index <? it_slot iter) || (it_limit iter <=? last_index)
                        then u64 (it_limit iter - 1) else it_limit iter |}
  else undef.

(** The callback's context [ctx], its return mask and the element it leaves in the
    iterator's copy. *)
Section Foreach.
Context {C : Type} (callback : C → aws_hash_element → Z * C * aws_hash_element).

Fixpoint foreach_loop (fuel : nat) (iter : aws_hash_iter) (ctx : C) : M aws_hash_table C :=
  match fuel with
  | O => undef
  | S f =>
      if aws_hash_iter_done iter then mret ctx
      else
        let '(rv, ctx, elem) := callback ctx (it_element iter) in
        let iter := {| it_element := elem; it_slot := it_slot iter; it_limit := it_limit iter |} in
        iter ← (if negb (Z.land rv AWS_COMMON_HASH_TABLE_ITER_DELETE =? 0)
                then aws_hash_iter_delete iter false else mret iter);
        if Z.land rv AWS_COMMON_HASH_TABLE_ITER_CONTINUE =? 0 then mret ctx
        else
          iter ← aws_hash_iter_next iter;
          foreach_loop f iter ctx
  end.

(** The code and the context the callback leaves. *)
Definition aws_hash_table_foreach (ctx : C) : M aws_hash_table (Z * C) :=
  st ← deref;
  iter ← aws_hash_iter_begin;
  ctx ← foreach_loop (S (Z.to_nat (size st))) iter ctx;
  mret (AWS_OP_SUCCESS, ctx).
End Foreach.

(** [aws_hash_table_eq] reads two tables. *)
Fixpoint eq_loop (fuel : nat) (a b : aws_hash_table) (value_eq : Z → Z → bool)
    (iter : aws_hash_iter) : option bool :=
  match fuel with
  | O => None
  | S f =>
      if aws_hash_iter_done iter then Some true
      else
        r ← aws_hash_table_find (e_key (it_element iter)) b;
        match r.1.2 with
        | None => Some false
        | Some i =>
            stb ← p_impl b;
            e ← slots stb !! Z.to_nat i;
            if negb (value_eq (e_value (it_element iter)) (e_value (element e))) then Some false
            else
              r ← aws_hash_iter_next iter a;
              eq_loop f a b value_eq r.1
        end
  end.

Definition aws_hash_table_eq (a b : aws_hash_table) (value_eq : Z → Z → bool) : option bool :=
  sta ← p_impl a;
  ca ← aws_hash_table_get_entry_count a;
  cb ← aws_hash_table_get_entry_count b;
  if negb (ca.1 =? cb.1) then Some false
  else
    r ← aws_hash_iter_begin a;
    eq_loop (S (Z.to_nat (size sta))) a b value_eq r.1.

(** ** Clearing *)

(** The loop over the slots from [i], [n] left, in the three variants of the source. *)
Fixpoint clear_loop (n i : nat) (st : hash_table_state) : M aws_hash_table unit :=
  match n with
  | O => mret tt
  | S n' =>
      entry ← lift (slots st !! i);
      (if hash_code entry =? 0 then mret tt
       else
         destroy_if (destroy_key_fn st) (e_key (element entry));;
         destroy_if (destroy_value_fn st) (e_value (element entry)));;
      clear_loop n' (S i) st
  end.

Definition aws_hash_table_clear : M aws_hash_table unit :=
  st ← deref;
  (match destroy_key_fn st, destroy_value_fn st with
   | None, None => mret tt
   | _, _ => clear_loop (Z.to_nat (size st)) 0 st
   end);;
  if (Z.of_nat (length (slots st)) <? size st) then undef
  else set_impl (set_entry_count 0
         (set_slots (replicate (Z.to_nat (size st)) zero_entry
                     ++ drop (Z.to_nat (size st)) (slots st)) st)).

Definition aws_hash_table_clean_up : M aws_hash_table unit :=
  t ← get;
  match p_impl t with
  | None => mret tt
  | Some _ =>
      aws_hash_table_clear;;
      modify (λ t, {| p_impl := NULL; destroyed := destroyed t |})
  end.

(** The two tables after the exchange; the destructor logs stay where they are. *)
Definition aws_hash_table_swap (a b : aws_hash_table) : aws_hash_table * aws_hash_table :=
  ({| p_impl := p_impl b; destroyed := destroyed a |},
   {| p_impl := p_impl a; destroyed := destroyed b |}).

(** [to] and [from] after the move. *)
Definition aws_hash_table_move (to from : aws_hash_table) : aws_hash_table * aws_hash_table :=
  ({| p_impl := p_impl from; destroyed := destroyed to |},
   {| p_impl := NULL; destroyed := destroyed from |}).

(** [aws_ptr_eq]. *)
Definition aws_ptr_eq (a b : Z) : bool := a =? b.
