(* ===== verification/HashProbe.v ===== *)
(** The robin-hood invariant of the hash table's slots and what the loops of
    hash_table.c do to it.

    The slots form a ring of [2 ^ k]; [slot_at l i] is the entry at the ring position
    [i] (any integer) and [dist l i] how far it is from the home of its hash code.  The
    invariant [robin_hood] is local: an entry away from its home follows an entry that
    is at most one step nearer to its own. *)
From stdpp Require Import base numbers list option.
From Stdlib Require Import ZArith Lia.
From S2P Require Import Prelude AwsMath HashTable.

Local Open Scope Z_scope.

Definition occ (e : hash_table_entry) : Prop := hash_code e ≠ 0.
#[global] Instance occ_dec e : Decision (occ e).
Proof. unfold occ. apply _. Defined.

(** The occupied slots. *)
Definition entries (l : list hash_table_entry) : list hash_table_entry := filter occ l.

Section Ring.
Context (k : Z) (Hk : 1 ≤ k ≤ 62).

Definition slot_at (l : list hash_table_entry) (i : Z) : hash_table_entry :=
  l !!! Z.to_nat (i mod 2 ^ k).
Definition dist (l : list hash_table_entry) (i : Z) : Z :=
  (i - hash_code (slot_at l i)) mod 2 ^ k.
Definition ring_set (i : Z) (e : hash_table_entry) (l : list hash_table_entry) :=
  <[Z.to_nat (i mod 2 ^ k) := e]> l.
Definition ring_length (l : list hash_table_entry) : Prop := Z.of_nat (length l) = 2 ^ k.

Definition robin_hood (l : list hash_table_entry) : Prop :=
  ∀ i, occ (slot_at l (i + 1)) → 0 < dist l (i + 1) →
    occ (slot_at l i) ∧ dist l (i + 1) - 1 ≤ dist l i.

(** An entry of hash code [h] may go to probe index [q]: the slot before is taken by
    an entry that is not nearer to its home. *)
Definition may_place (l : list hash_table_entry) (h q : Z) : Prop :=
  0 ≤ q ∧ (0 < q → occ (slot_at l (h + q - 1)) ∧ q - 1 ≤ dist l (h + q - 1)).

(** *** The ring *)

Lemma pow_k_bounds : 2 ≤ 2 ^ k ≤ 2 ^ 62.
Proof.
  split; [change 2 with (2 ^ 1) at 1|]; apply Z.pow_le_mono_r; lia.
Qed.

Lemma mod_k_range x : 0 ≤ x mod 2 ^ k < 2 ^ k.
Proof. apply Z.mod_pos_bound. pose proof pow_k_bounds. lia. Qed.

Lemma slot_at_mod l i j : i mod 2 ^ k = j mod 2 ^ k → slot_at l i = slot_at l j.
Proof. unfold slot_at. by intros ->. Qed.

Lemma sub_mod_congr a b h : a mod 2 ^ k = b mod 2 ^ k → (a - h) mod 2 ^ k = (b - h) mod 2 ^ k.
Proof. intros E. by rewrite (Zminus_mod a), (Zminus_mod b), E. Qed.

Lemma dist_mod l i j : i mod 2 ^ k = j mod 2 ^ k → dist l i = dist l j.
Proof. intros E. unfold dist. rewrite (slot_at_mod _ _ _ E). by apply sub_mod_congr. Qed.

Lemma dist_range l i : 0 ≤ dist l i < 2 ^ k.
Proof. apply mod_k_range. Qed.

Lemma ring_mod_mod i : (i mod 2 ^ k) mod 2 ^ k = i mod 2 ^ k.
Proof. apply Z.mod_mod. pose proof pow_k_bounds. lia. Qed.

Lemma lookup_slot l i :
  ring_length l → l !! Z.to_nat (i mod 2 ^ k) = Some (slot_at l i).
Proof.
  intros Hl. unfold slot_at, ring_length in *. pose proof (mod_k_range i).
  apply list_lookup_lookup_total_lt. lia.
Qed.

Lemma ring_set_length i e l : ring_length l → ring_length (ring_set i e l).
Proof. unfold ring_length, ring_set. by rewrite length_insert. Qed.

Lemma slot_at_set l i j e :
  ring_length l →
  slot_at (ring_set i e l) j = if decide (j mod 2 ^ k = i mod 2 ^ k) then e else slot_at l j.
Proof.
  intros Hl. pose proof (mod_k_range i). pose proof (mod_k_range j). unfold ring_length in Hl.
  unfold slot_at, ring_set. destruct (decide _) as [->|Hne].
  - apply list_lookup_total_insert_eq. lia.
  - apply list_lookup_total_insert_ne. lia.
Qed.

Lemma slot_at_set_eq l i e : ring_length l → slot_at (ring_set i e l) i = e.
Proof. intros. rewrite slot_at_set by done. by rewrite decide_True. Qed.

Lemma slot_at_set_ne l i j e :
  ring_length l → j mod 2 ^ k ≠ i mod 2 ^ k → slot_at (ring_set i e l) j = slot_at l j.
Proof. intros. rewrite slot_at_set by done. by rewrite decide_False. Qed.

Lemma dist_set_eq l i e :
  ring_length l → dist (ring_set i e l) i = (i - hash_code e) mod 2 ^ k.
Proof. intros. unfold dist. by rewrite slot_at_set_eq. Qed.

Lemma dist_set_ne l i j e :
  ring_length l → j mod 2 ^ k ≠ i mod 2 ^ k → dist (ring_set i e l) j = dist l j.
Proof. intros. unfold dist. by rewrite slot_at_set_ne. Qed.

(** Neighbours on the ring. *)
Lemma ring_eq a b : a mod 2 ^ k = b mod 2 ^ k ↔ (a - b) mod 2 ^ k = 0.
Proof.
  pose proof pow_k_bounds. split; intros E.
  - by rewrite Zminus_mod, E, Z.sub_diag, Z.mod_0_l by lia.
  - replace a with (b + (a - b)) by lia.
    rewrite Zplus_mod, E, Z.add_0_r, Z.mod_mod by lia. done.
Qed.

Lemma ring_succ_ne i : (i + 1) mod 2 ^ k ≠ i mod 2 ^ k.
Proof.
  rewrite ring_eq. pose proof pow_k_bounds.
  replace (i + 1 - i) with 1 by lia. rewrite Z.mod_small; lia.
Qed.

Lemma ring_succ_congr a b : (a + 1) mod 2 ^ k = b mod 2 ^ k ↔ a mod 2 ^ k = (b - 1) mod 2 ^ k.
Proof. rewrite !ring_eq. by replace (a + 1 - b) with (a - (b - 1)) by lia. Qed.

Lemma mod_pred x : 0 < x mod 2 ^ k → (x - 1) mod 2 ^ k = x mod 2 ^ k - 1.
Proof.
  intros H. pose proof (mod_k_range x). pose proof pow_k_bounds.
  rewrite Zminus_mod, (Z.mod_small 1), Z.mod_small by lia. done.
Qed.

Lemma gap_succ z i :
  z mod 2 ^ k ≠ i mod 2 ^ k →
  0 < (z - i) mod 2 ^ k ∧ (z - (i + 1)) mod 2 ^ k = (z - i) mod 2 ^ k - 1.
Proof.
  rewrite ring_eq. intros Hne. pose proof (mod_k_range (z - i)).
  split; [lia|]. rewrite <- mod_pred by lia. f_equal. lia.
Qed.

(** *** The expressions of the source *)

Lemma probe_slot_mod h q : probe_slot (2 ^ k - 1) h q = (h + q) mod 2 ^ k.
Proof. unfold probe_slot. rewrite land_mask by lia. by rewrite u64_mod_pow2 by lia. Qed.

Lemma probe_of_mod i h : probe_of (2 ^ k - 1) (i mod 2 ^ k) h = (i - h) mod 2 ^ k.
Proof.
  unfold probe_of. rewrite land_mask by lia. rewrite u64_mod_pow2 by lia.
  apply sub_mod_congr, ring_mod_mod.
Qed.

Lemma probe_of_dist l i : probe_of (2 ^ k - 1) (i mod 2 ^ k) (hash_code (slot_at l i)) = dist l i.
Proof. apply probe_of_mod. Qed.

(** *** Consequences of the invariant *)

Lemma chain l p j :
  robin_hood l → occ (slot_at l p) → 0 ≤ j ≤ dist l p →
  occ (slot_at l (p - j)) ∧ dist l p - j ≤ dist l (p - j).
Proof.
  intros HR Ho [Hj Hjd]. revert Hjd. pattern j. apply natlike_ind; [| |done]; clear j Hj.
  - intros _. rewrite !Z.sub_0_r. split; [done|lia].
  - intros j Hj IH Hle. destruct IH as [Ho' Hd]; [lia|].
    replace (p - j) with (p - Z.succ j + 1) in * by lia.
    destruct (HR _ Ho') as [Ho'' Hd']; [lia|]. split; [done|lia].
Qed.

(** With an empty slot no entry is as far as a whole turn from its home. *)
Lemma dist_not_full l z p :
  robin_hood l → ¬ occ (slot_at l z) → occ (slot_at l p) → dist l p < 2 ^ k - 1.
Proof.
  intros HR Hz Ho. destruct (Z_lt_dec (dist l p) (2 ^ k - 1)) as [|Hge]; [done|].
  exfalso. apply Hz. pose proof (mod_k_range (p - z)).
  destruct (chain l p ((p - z) mod 2 ^ k) HR Ho) as [Ho' _]; [lia|].
  rewrite (slot_at_mod _ z (p - (p - z) mod 2 ^ k)); [done|].
  rewrite Zminus_mod_idemp_r. f_equal. lia.
Qed.

Lemma may_place_bound l h q : may_place l h q → q ≤ 2 ^ k.
Proof.
  intros [Hq Hp]. pose proof pow_k_bounds. destruct (Z.eq_dec q 0); [lia|].
  destruct Hp as [_ Hd]; [lia|]. pose proof (dist_range l (h + q - 1)). lia.
Qed.

Lemma may_place_small l z h q :
  robin_hood l → ¬ occ (slot_at l z) → may_place l h q → q < 2 ^ k.
Proof.
  intros HR Hz [Hq Hp]. pose proof pow_k_bounds. destruct (Z.eq_dec q 0); [lia|].
  destruct Hp as [Ho Hd]; [lia|]. pose proof (dist_not_full l z _ HR Hz Ho). lia.
Qed.

(** *** Changing a slot *)

Lemma robin_hood_set l i e :
  ring_length l → robin_hood l → occ e →
  let d := (i - hash_code e) mod 2 ^ k in
  (0 < d → occ (slot_at l (i - 1)) ∧ d - 1 ≤ dist l (i - 1)) →
  (occ (slot_at l (i + 1)) → 0 < dist l (i + 1) → dist l (i + 1) - 1 ≤ d) →
  robin_hood (ring_set i e l).
Proof.
  intros Hl HR He d Hprev Hnext m Ho Hd.
  destruct (decide ((m + 1) mod 2 ^ k = i mod 2 ^ k)) as [E|Hne].
  - assert (Hm : m mod 2 ^ k ≠ i mod 2 ^ k).
    { rewrite <- E. intros E'. by apply (ring_succ_ne m). }
    rewrite (dist_mod _ _ _ E), dist_set_eq in * by done.
    rewrite slot_at_set_ne, dist_set_ne by done. apply ring_succ_congr in E.
    rewrite (slot_at_mod _ _ _ E), (dist_mod _ _ _ E). by apply Hprev.
  - rewrite slot_at_set_ne in Ho by done. rewrite dist_set_ne in * by done.
    destruct (HR m Ho Hd) as [Hom Hdm].
    destruct (decide (m mod 2 ^ k = i mod 2 ^ k)) as [E|Hne'].
    + rewrite (slot_at_mod _ _ _ E), (dist_mod _ _ _ E), slot_at_set_eq, dist_set_eq by done.
      assert (E1 : (m + 1) mod 2 ^ k = (i + 1) mod 2 ^ k)
        by (rewrite (Zplus_mod m), E, <- Zplus_mod; done).
      rewrite (slot_at_mod _ _ _ E1) in Ho. rewrite (dist_mod _ _ _ E1) in *.
      split; [done|]. by apply Hnext.
    + by rewrite slot_at_set_ne, dist_set_ne.
Qed.

Lemma robin_hood_clear l i :
  ring_length l → robin_hood l →
  (occ (slot_at l (i + 1)) → dist l (i + 1) = 0) → robin_hood (ring_set i zero_entry l).
Proof.
  intros Hl HR Hnext m Ho Hd.
  destruct (decide ((m + 1) mod 2 ^ k = i mod 2 ^ k)) as [E|Hne].
  - rewrite (slot_at_mod _ _ _ E), slot_at_set_eq in Ho by done. by destruct Ho.
  - rewrite slot_at_set_ne in Ho by done. rewrite dist_set_ne in * by done.
    destruct (HR m Ho Hd) as [Hom Hdm].
    destruct (decide (m mod 2 ^ k = i mod 2 ^ k)) as [E|Hne'].
    + assert (E1 : (m + 1) mod 2 ^ k = (i + 1) mod 2 ^ k)
        by (rewrite (Zplus_mod m), E, <- Zplus_mod; done).
      rewrite (slot_at_mod _ _ _ E1) in Ho. rewrite (dist_mod _ _ _ E1) in *.
      specialize (Hnext Ho). lia.
    + by rewrite slot_at_set_ne, dist_set_ne.
Qed.

Lemma entries_set l i e :
  ring_length l →
  filter occ [e] ++ entries l ≡ₚ filter occ [slot_at l i] ++ entries (ring_set i e l).
Proof.
  intros Hl. pose proof (lookup_slot l i Hl) as Hi. unfold entries, ring_set.
  set (m := Z.to_nat (i mod 2 ^ k)) in *. revert Hi. generalize (slot_at l i). intros v Hi.
  assert (m < length l)%nat by (by apply lookup_lt_Some in Hi).
  rewrite insert_take_drop by done. rewrite <- (take_drop_middle l m v Hi) at 1.
  change (e :: drop (S m) l) with ([e] ++ drop (S m) l).
  change (v :: drop (S m) l) with ([v] ++ drop (S m) l). rewrite !list.filter_app.
  generalize (filter occ [e]) (filter occ [v]) (filter occ (take m l)) (filter occ (drop (S m) l)).
  intros a b c d. solve_Permutation.
Qed.

Lemma entries_set_occ l i e :
  ring_length l → occ e → ¬ occ (slot_at l i) → entries (ring_set i e l) ≡ₚ e :: entries l.
Proof.
  intros Hl He Hv. pose proof (entries_set l i e Hl) as P.
  rewrite filter_cons_True, filter_cons_False in P by done. by symmetry.
Qed.

Lemma entries_set_swap l i e :
  ring_length l → occ e → occ (slot_at l i) →
  slot_at l i :: entries (ring_set i e l) ≡ₚ e :: entries l.
Proof.
  intros Hl He Hv. pose proof (entries_set l i e Hl) as P.
  rewrite !filter_cons_True in P by done. by symmetry.
Qed.

Lemma entries_clear l i :
  ring_length l → occ (slot_at l i) →
  slot_at l i :: entries (ring_set i zero_entry l) ≡ₚ entries l.
Proof.
  intros Hl Hv. pose proof (entries_set l i zero_entry Hl) as P.
  rewrite filter_cons_False, filter_cons_True in P by (done || intros H; by apply H).
  by symmetry.
Qed.

(** A table that is not full has an empty slot. *)
Lemma empty_slot l :
  ring_length l → Z.of_nat (length (entries l)) < 2 ^ k → ∃ z, ¬ occ (slot_at l z).
Proof.
  intros Hl Hc. unfold ring_length in Hl.
  assert (Hx : ∃ m e, l !! m = Some e ∧ ¬ occ e).
  { assert (Hlt : (length (filter occ l) < length l)%nat) by (unfold entries in Hc; lia).
    clear -Hlt. induction l as [|e l IH]; [simpl in Hlt; lia|].
    destruct (decide (occ e)) as [He|He]; [|by exists 0%nat, e].
    rewrite filter_cons_True in Hlt by done. simpl in Hlt.
    destruct IH as (m & e' & Hm & He'); [lia|]. by exists (S m), e'. }
  destruct Hx as (m & e & Hm & He). exists (Z.of_nat m).
  pose proof (lookup_lt_Some _ _ _ Hm).
  unfold slot_at. rewrite Z.mod_small, Nat2Z.id by lia.
  by rewrite (list_lookup_total_correct _ _ _ Hm).
Qed.

Lemma entry_position l e :
  ring_length l → e ∈ entries l → ∃ p, 0 ≤ p < 2 ^ k ∧ slot_at l p = e ∧ occ e.
Proof.
  intros Hl [Ho He]%list_elem_of_filter. apply list_elem_of_lookup_1 in He as [m Hm].
  exists (Z.of_nat m). pose proof (lookup_lt_Some _ _ _ Hm). unfold ring_length in Hl.
  split; [lia|]. split; [|done]. unfold slot_at. rewrite Z.mod_small, Nat2Z.id by lia.
  by apply list_lookup_total_correct.
Qed.

Lemma position_entry l p : ring_length l → occ (slot_at l p) → slot_at l p ∈ entries l.
Proof.
  intros Hl Ho. apply list_elem_of_filter. split; [done|].
  by eapply list_elem_of_lookup_2, lookup_slot.
Qed.

(** *** [s_find_entry] *)

Section Find.
Context (st : hash_table_state) (h key : Z).
Context (Hlen : ring_length (slots st)) (Hmask : mask st = 2 ^ k - 1) (Hsize : size st = 2 ^ k).

Definition hit (e : hash_table_entry) : Prop :=
  hash_code e = h ∧ equals_fn st key (e_key (element e)) = true.
#[local] Instance hit_dec e : Decision (hit e).
Proof. unfold hit. apply _. Defined.

(** The outcome of a search that began at probe index [q]. *)
Definition find_outcome (q : Z) (r : Z * Z * Z) : Prop :=
  ∃ q', q ≤ q' ∧ r.1.2 = (h + q') mod 2 ^ k ∧ r.2 = q' ∧
    ((r.1.1 = AWS_ERROR_SUCCESS ∧ occ (slot_at (slots st) (h + q')) ∧
        hit (slot_at (slots st) (h + q'))) ∨
     (r.1.1 = AWS_ERROR_HASHTBL_ITEM_NOT_FOUND ∧ may_place (slots st) h q' ∧
        (occ (slot_at (slots st) (h + q')) → dist (slots st) (h + q') < q') ∧
        ∀ j, q ≤ j < q' → ¬ hit (slot_at (slots st) (h + j)))).

Lemma hit_test e :
  (hash_code e =? h) && equals_fn st key (e_key (element e)) = bool_decide (hit e).
Proof.
  apply eq_true_iff_eq. by rewrite bool_decide_eq_true, andb_true_iff, Z.eqb_eq.
Qed.

Lemma find_outcome_later q q' r :
  q ≤ q' → (∀ j, q ≤ j < q' → ¬ hit (slot_at (slots st) (h + j))) →
  find_outcome q' r → find_outcome q r.
Proof.
  intros Hq Hj (q'' & Hq'' & E1 & E2 & Hr). exists q''. split; [lia|]. do 2 (split; [done|]).
  destruct Hr as [Hr|(Hrv & Hp & Hd & Hn)]; [by left|right].
  do 3 (split; [done|]). intros j Hj'. destruct (Z_lt_dec j q'); [apply Hj|apply Hn]; lia.
Qed.

Lemma may_place_next q :
  may_place (slots st) h q → occ (slot_at (slots st) (h + q)) →
  q ≤ dist (slots st) (h + q) → may_place (slots st) h (q + 1).
Proof.
  intros [Hq _] Ho Hd. split; [lia|]. intros _.
  replace (h + (q + 1) - 1) with (h + q) by lia. split; [done|lia].
Qed.

Lemma find1_loop_outcome fuel q :
  1 ≤ q → may_place (slots st) h q → 2 ^ k + 1 - q ≤ Z.of_nat fuel - 1 →
  ∃ r, find1_loop fuel st h key q = Some r ∧ find_outcome q r.
Proof.
  revert q. induction fuel as [|fuel IH]; intros q Hq1 Hp Hf.
  { pose proof (may_place_bound _ _ _ Hp). lia. }
  cbn [find1_loop]. rewrite Hmask, probe_slot_mod, (lookup_slot _ _ Hlen). simpl.
  set (e := slot_at (slots st) (h + q)).
  destruct (Z.eqb_spec (hash_code e) 0) as [He|He].
  { eexists; split; [done|]. exists q. simpl. split; [lia|]. do 2 (split; [done|]). right.
    split; [done|]. split; [done|]. split; [intros Ho; by destruct Ho|]. intros; lia. }
  rewrite hit_test. case_bool_decide as Hh.
  { eexists; split; [done|]. exists q. simpl. split; [lia|]. do 2 (split; [done|]). by left. }
  subst e. rewrite probe_of_dist. destruct (Z.ltb_spec (dist (slots st) (h + q)) q) as [Hd|Hd].
  { eexists; split; [done|]. exists q. simpl. split; [lia|]. do 2 (split; [done|]). right.
    split; [done|]. split; [done|]. split; [done|]. intros; lia. }
  pose proof (dist_range (slots st) (h + q)). pose proof pow_k_bounds.
  rewrite u64_small by (change W64 with (4 * 2 ^ 62); lia).
  destruct (IH (q + 1)) as (r & Hr & Ho); [lia|by apply may_place_next|lia|].
  exists r. split; [done|]. eapply find_outcome_later; [| |done]; [lia|].
  intros j Hj. by replace j with q by lia.
Qed.

Lemma s_find_entry_outcome : ∃ r, s_find_entry st h key = Some r ∧ find_outcome 0 r.
Proof.
  unfold s_find_entry. rewrite Hmask, land_mask by lia. rewrite (lookup_slot _ _ Hlen). simpl.
  assert (H0 : may_place (slots st) h 0) by (split; lia).
  set (e := slot_at (slots st) h).
  destruct (Z.eqb_spec (hash_code e) 0) as [He|He].
  { eexists; split; [done|]. exists 0. simpl. rewrite Z.add_0_r. split; [lia|].
    do 2 (split; [done|]). right.
    split; [done|]. split; [done|]. split; [intros Ho; by destruct Ho|]. intros; lia. }
  rewrite hit_test. case_bool_decide as Hh.
  { eexists; split; [done|]. exists 0. simpl. rewrite Z.add_0_r. split; [lia|].
    do 2 (split; [done|]). by left. }
  unfold s_find_entry1. pose proof pow_k_bounds.
  destruct (find1_loop_outcome (S (Z.to_nat (size st))) 1) as (r & Hr & Ho); [lia| |lia|].
  { apply (may_place_next 0); rewrite ?Z.add_0_r; [done|done|]. apply dist_range. }
  exists r. split; [done|]. eapply find_outcome_later; [| |done]; [lia|].
  intros j Hj. replace j with 0 by lia. by rewrite Z.add_0_r.
Qed.

(** A search that fails has missed nothing. *)
Lemma find_failed r :
  robin_hood (slots st) → find_outcome 0 r → r.1.1 ≠ AWS_ERROR_SUCCESS →
  ∀ e, e ∈ entries (slots st) → ¬ hit e.
Proof.
  intros HR (q' & Hq' & _ & _ & [[E _]|(_ & Hp & Hd & Hn)]) Hrv e He Hh; [done|].
  apply (entry_position _ _ Hlen) in He as (p & Hp0 & <- & Ho).
  set (d := dist (slots st) p).
  assert (Ep : p mod 2 ^ k = (h + d) mod 2 ^ k).
  { apply ring_eq. unfold d, dist. destruct Hh as [-> _].
    rewrite Z.sub_add_distr, Zminus_mod_idemp_r, Z.sub_diag. apply Z.mod_0_l.
    pose proof pow_k_bounds. lia. }
  pose proof (dist_range (slots st) p). destruct (Z_lt_dec d q') as [Hlt|Hge].
  - apply (Hn d); [unfold d in *; lia|]. by rewrite <- (slot_at_mod _ _ _ Ep).
  - destruct (chain _ p (d - q') HR Ho) as [Ho' Hd']; [unfold d in *; lia|].
    assert (E : (p - (d - q')) mod 2 ^ k = (h + q') mod 2 ^ k).
    { replace (h + q') with (h + d - (d - q')) by lia. by apply sub_mod_congr. }
    rewrite (slot_at_mod _ _ _ E) in Ho'. rewrite (dist_mod _ _ _ E) in Hd'.
    specialize (Hd Ho'). fold d in Hd'. lia.
Qed.
End Find.

(** *** [s_emplace_item] *)

Lemma may_place_dist l z e q :
  robin_hood l → ¬ occ (slot_at l z) → may_place l (hash_code e) q →
  (hash_code e + q - hash_code e) mod 2 ^ k = q.
Proof.
  intros HR Hz Hp. pose proof (may_place_small l z _ _ HR Hz Hp). destruct Hp as [Hq _].
  rewrite Z.add_simpl_l, Z.mod_small; [done|lia].
Qed.

(** Putting the entry at its probe index, when the slot is empty or its entry is nearer
    to its home, keeps the invariant. *)
Lemma robin_hood_place l z e q :
  ring_length l → robin_hood l → ¬ occ (slot_at l z) → occ e →
  may_place l (hash_code e) q →
  (occ (slot_at l (hash_code e + q)) → dist l (hash_code e + q) < q) →
  robin_hood (ring_set (hash_code e + q) e l).
Proof.
  intros Hl HR Hz He Hp Hv. pose proof (may_place_dist l z e q HR Hz Hp) as Hq.
  apply robin_hood_set; [done|done|done| |]; rewrite Hq.
  - by apply Hp.
  - intros Ho Hd. destruct (HR _ Ho Hd) as [Ho' Hd']. specialize (Hv Ho'). lia.
Qed.

Definition emplaced (l : list hash_table_entry) (e : hash_table_entry) (q z : Z)
    (ip : ptr Z) (r : list hash_table_entry * ptr Z) : Prop :=
  ring_length r.1 ∧ robin_hood r.1 ∧ entries r.1 ≡ₚ e :: entries l ∧
  (∀ j, (z - (hash_code e + q)) mod 2 ^ k < (j - (hash_code e + q)) mod 2 ^ k →
        slot_at r.1 j = slot_at l j) ∧
  match ip with
  | Some _ => r.2 = ip
  | None => ∃ j, r.2 = Some (j mod 2 ^ k) ∧ slot_at r.1 j = e
  end.

Lemma emplace_loop_done fuel l e q ip :
  ¬ occ e → emplace_loop (S fuel) (2 ^ k - 1) l e q ip = Some (l, ip).
Proof.
  intros He. cbn [emplace_loop]. destruct (Z.eqb_spec (hash_code e) 0); [done|].
  by destruct He.
Qed.

(** The slot just behind the walk is out of its reach. *)
Lemma behind_walk z i :
  z mod 2 ^ k ≠ i mod 2 ^ k → (z - (i + 1)) mod 2 ^ k < (i - (i + 1)) mod 2 ^ k.
Proof.
  intros Hne. destruct (gap_succ z i Hne) as [_ ->]. pose proof (mod_k_range (z - i)).
  replace (i - (i + 1)) with (-1 + 0) by lia. pose proof pow_k_bounds.
  replace ((-1 + 0) mod 2 ^ k) with (2 ^ k - 1); [lia|].
  apply (Z.mod_unique_pos _ _ (-1)); lia.
Qed.

Lemma walk_mono z i j :
  z mod 2 ^ k ≠ i mod 2 ^ k → (z - i) mod 2 ^ k < (j - i) mod 2 ^ k →
  j mod 2 ^ k ≠ i mod 2 ^ k ∧ (z - (i + 1)) mod 2 ^ k < (j - (i + 1)) mod 2 ^ k.
Proof.
  intros Hne Hlt. pose proof (mod_k_range (z - i)).
  assert (Hj : j mod 2 ^ k ≠ i mod 2 ^ k) by (rewrite ring_eq; lia).
  split; [done|]. destruct (gap_succ z i Hne), (gap_succ j i Hj). lia.
Qed.

Lemma emplaced_swap l i e q q' z ip r :
  ring_length l → occ e → occ (slot_at l i) → z mod 2 ^ k ≠ i mod 2 ^ k →
  i = hash_code e + q →
  (hash_code (slot_at l i) + q') mod 2 ^ k = (i + 1) mod 2 ^ k →
  emplaced (ring_set i e l) (slot_at l i) q' z
    (match ip with None => Some (i mod 2 ^ k) | Some _ => ip end) r →
  emplaced l e q z ip r.
Proof.
  intros Hl He Hv Hz Hi Eq (H1 & H2 & H3 & H4 & H5). unfold emplaced. rewrite <- Hi.
  assert (H4' : ∀ j, (z - (i + 1)) mod 2 ^ k < (j - (i + 1)) mod 2 ^ k →
                slot_at r.1 j = slot_at (ring_set i e l) j).
  { intros j Hj. apply H4. rewrite !(Zminus_mod _ (_ + q')), Eq, <- !Zminus_mod. done. }
  do 2 (split; [done|]). split; [by rewrite H3, entries_set_swap|]. split.
  - intros j Hj. destruct (walk_mono z i j Hz Hj) as [Hne Hlt].
    rewrite H4' by done. by rewrite slot_at_set_ne.
  - destruct ip as [p|]; [done|]. exists i. split; [done|].
    rewrite H4' by (by apply behind_walk). by rewrite slot_at_set_eq.
Qed.

Lemma emplaced_pass l i e q z ip r :
  z mod 2 ^ k ≠ i mod 2 ^ k → i = hash_code e + q →
  emplaced l e (q + 1) z ip r → emplaced l e q z ip r.
Proof.
  intros Hz Hi (H1 & H2 & H3 & H4 & H5). unfold emplaced. rewrite <- Hi.
  do 3 (split; [done|]). split; [|done]. intros j Hj. apply H4.
  destruct (walk_mono z i j Hz Hj) as [_ Hlt].
  by replace (hash_code e + (q + 1)) with (i + 1) by lia.
Qed.

Lemma emplace_loop_outcome fuel l e q z ip :
  ring_length l → robin_hood l → ¬ occ (slot_at l z) → occ e →
  may_place l (hash_code e) q →
  (z - (hash_code e + q)) mod 2 ^ k + 2 ≤ Z.of_nat fuel →
  ∃ r, emplace_loop fuel (2 ^ k - 1) l e q ip = Some r ∧ emplaced l e q z ip r.
Proof.
  revert l e q ip. induction fuel as [|fuel IH]; intros l e q ip Hl HR Hz He Hp Hf.
  { pose proof (mod_k_range (z - (hash_code e + q))). lia. }
  set (i := hash_code e + q) in *. pose proof pow_k_bounds. pose proof (dist_range l i) as Hdr.
  pose proof (may_place_small l z _ _ HR Hz Hp) as Hq.
  assert (Hzi : occ (slot_at l i) → z mod 2 ^ k ≠ i mod 2 ^ k).
  { intros Ho E. apply Hz. by rewrite (slot_at_mod _ _ _ E). }
  cbn [emplace_loop]. destruct (Z.eqb_spec (hash_code e) 0) as [He0|_]; [by destruct He|].
  rewrite probe_slot_mod. fold i. rewrite (lookup_slot _ _ Hl). simpl. rewrite probe_of_dist.
  destruct (Z.eqb_spec (hash_code (slot_at l i)) 0) as [Hv|Hv]; simpl.
  - (* an empty slot *)
    pose proof (mod_k_range (z - i)). destruct fuel as [|fuel]; [lia|].
    rewrite emplace_loop_done by (intros Ho; by apply Ho). eexists. split; [done|].
    assert (Hnv : ¬ occ (slot_at l i)) by (intros Ho; by apply Ho).
    split; [by apply ring_set_length|]. split.
    { eapply robin_hood_place; [done..|]. intros Ho. by destruct Hnv. }
    split; [by apply entries_set_occ|]. split.
    { intros j Hj. fold i in Hj. simpl. apply slot_at_set_ne; [done|]. rewrite ring_eq.
      pose proof (mod_k_range (z - i)). lia. }
    destruct ip; [done|]. exists i. split; [done|]. by apply slot_at_set_eq.
  - assert (Ho : occ (slot_at l i)) by done. specialize (Hzi Ho).
    destruct (gap_succ z i Hzi) as [_ Hgap].
    destruct (Z.ltb_spec (dist l i) q) as [Hd|Hd].
    + (* the entry displaces the one it meets *)
      rewrite u64_small by (change W64 with (4 * 2 ^ 62); lia).
      assert (Eq : (hash_code (slot_at l i) + (dist l i + 1)) mod 2 ^ k = (i + 1) mod 2 ^ k).
      { apply ring_eq. unfold dist. rewrite Z.add_assoc.
        replace (hash_code (slot_at l i) + (i - hash_code (slot_at l i)) mod 2 ^ k + 1 - (i + 1))
          with ((i - hash_code (slot_at l i)) mod 2 ^ k - (i - hash_code (slot_at l i))) by lia.
        rewrite Zminus_mod_idemp_l, Z.sub_diag. apply Z.mod_0_l. lia. }
      destruct (IH (ring_set i e l) (slot_at l i) (dist l i + 1)
        (match ip with None => Some (i mod 2 ^ k) | Some _ => ip end)) as (r & Hr & Hre).
      * by apply ring_set_length.
      * by eapply robin_hood_place.
      * by rewrite slot_at_set_ne.
      * done.
      * split; [lia|]. intros _.
        assert (Em : (hash_code (slot_at l i) + (dist l i + 1) - 1) mod 2 ^ k = i mod 2 ^ k).
        { rewrite (sub_mod_congr _ _ 1 Eq). f_equal. lia. }
        rewrite (slot_at_mod _ _ _ Em), (dist_mod _ _ _ Em), slot_at_set_eq, dist_set_eq by done.
        split; [done|]. unfold i at 2. rewrite (may_place_dist l z) by done. lia.
      * rewrite Zminus_mod, Eq, <- Zminus_mod. lia.
      * exists r. split; [done|]. by eapply emplaced_swap.
    + rewrite u64_small by (change W64 with (4 * 2 ^ 62); destruct Hp; lia).
      destruct (IH l e (q + 1) ip) as (r & Hr & Hre); [done|done|done|done| |
        replace (hash_code e + (q + 1)) with (i + 1) by lia; lia|].
      * destruct Hp as [Hq0 _]. split; [lia|]. intros _.
        replace (hash_code e + (q + 1) - 1) with i by lia. split; [done|lia].
      * exists r. split; [done|]. by apply (emplaced_pass _ i).
Qed.

(** *** [s_remove_entry] *)

(** The [s] entries behind position [i] have moved back by one, and the last of their
    slots is empty. *)
Definition shifted (l : list hash_table_entry) (i s : Z) (l' : list hash_table_entry) : Prop :=
  ∀ t, 0 ≤ t < 2 ^ k →
    slot_at l' (i + t) =
      if t <? s then slot_at l (i + t + 1) else if t =? s then zero_entry else slot_at l (i + t).

Definition removed (l : list hash_table_entry) (i s : Z) (l' : list hash_table_entry) : Prop :=
  ring_length l' ∧ robin_hood l' ∧ slot_at l i :: entries l' ≡ₚ entries l ∧ shifted l i s l'.

Lemma ring_offset_ne i t u :
  0 ≤ t < 2 ^ k → 0 ≤ u < 2 ^ k → t ≠ u → (i + t) mod 2 ^ k ≠ (i + u) mod 2 ^ k.
Proof.
  intros Ht Hu Hne E. apply ring_eq in E. replace (i + t - (i + u)) with (t - u) in E by lia.
  pose proof pow_k_bounds. apply Z.mod_divide in E; [|lia]. destruct E as [c E].
  destruct (Z.lt_trichotomy c 0) as [|[->|]]; [nia|lia|nia].
Qed.

Lemma removed_here l i :
  ring_length l → robin_hood l → occ (slot_at l i) →
  (occ (slot_at l (i + 1)) → dist l (i + 1) = 0) →
  removed l i 0 (ring_set i zero_entry l).
Proof.
  intros Hl HR Ho Hn. split; [by apply ring_set_length|]. split; [by apply robin_hood_clear|].
  split; [by apply entries_clear|]. intros t Ht.
  destruct (Z.ltb_spec t 0); [lia|]. destruct (Z.eqb_spec t 0) as [->|Hne].
  - by rewrite Z.add_0_r, slot_at_set_eq.
  - apply slot_at_set_ne; [done|]. rewrite <- (Z.add_0_r i) at 2.
    apply ring_offset_ne; lia.
Qed.

(** Copying the next entry back over a slot. *)
Lemma robin_hood_shift l i :
  ring_length l → robin_hood l → occ (slot_at l (i + 1)) → 0 < dist l (i + 1) →
  robin_hood (ring_set i (slot_at l (i + 1)) l).
Proof.
  intros Hl HR Ho Hd. destruct (HR _ Ho Hd) as [Hoi Hdi].
  assert (E : (i - hash_code (slot_at l (i + 1))) mod 2 ^ k = dist l (i + 1) - 1).
  { unfold dist in *. rewrite <- mod_pred by done. f_equal. lia. }
  apply robin_hood_set; [done|done|done| |]; rewrite E; [|intros; lia].
  intros Hpos. assert (Ei : i - 1 + 1 = i) by lia.
  destruct (HR (i - 1)) as [Ho' Hd']; rewrite Ei in *; [done|lia|]. split; [done|lia].
Qed.

Lemma removed_shift l i s l' :
  ring_length l → occ (slot_at l i) → occ (slot_at l (i + 1)) → 0 ≤ s → s + 1 < 2 ^ k →
  removed (ring_set i (slot_at l (i + 1)) l) (i + 1) s l' → removed l i (s + 1) l'.
Proof.
  intros Hl Hoi Ho Hs Hsn (H1 & H2 & H3 & H4). do 2 (split; [done|]). split.
  - rewrite slot_at_set_ne in H3 by (done || apply ring_succ_ne).
    pose proof (entries_set_swap l i (slot_at l (i + 1)) Hl Ho Hoi) as P.
    rewrite <- H3 in P. rewrite perm_swap in P. by apply Permutation_cons_inv in P.
  - intros t Ht. destruct (Z.eq_dec t 0) as [->|Ht0].
    + rewrite (proj2 (Z.ltb_lt _ _)) by lia.
      pose proof pow_k_bounds. specialize (H4 (2 ^ k - 1) ltac:(lia)).
      rewrite (proj2 (Z.ltb_ge _ _)), (proj2 (Z.eqb_neq _ _)) in H4 by lia.
      assert (E : (i + 1 + (2 ^ k - 1)) mod 2 ^ k = (i + 0) mod 2 ^ k).
      { apply ring_eq. replace (_ - _) with (1 * 2 ^ k) by lia. apply Z.mod_mul. lia. }
      rewrite !(slot_at_mod _ _ _ E) in H4. rewrite H4, !Z.add_0_r. by apply slot_at_set_eq.
    + specialize (H4 (t - 1) ltac:(lia)). replace (i + 1 + (t - 1)) with (i + t) in H4 by lia.
      rewrite H4.
      replace (t - 1 <? s) with (t <? s + 1) by (destruct (Z.ltb_spec t (s + 1)), (Z.ltb_spec (t - 1) s); lia).
      replace (t - 1 =? s) with (t =? s + 1) by (destruct (Z.eqb_spec t (s + 1)), (Z.eqb_spec (t - 1) s); lia).
      assert (Hne : ∀ u, 0 < u < 2 ^ k → (i + u) mod 2 ^ k ≠ i mod 2 ^ k).
      { intros u Hu. rewrite <- (Z.add_0_r i) at 2. apply ring_offset_ne; lia. }
      destruct (Z.ltb_spec t (s + 1)); [|by rewrite slot_at_set_ne by (done || apply Hne; lia)].
      rewrite <- Z.add_assoc. by rewrite slot_at_set_ne by (done || apply Hne; lia).
Qed.

Lemma shift_loop_outcome fuel l i z :
  ring_length l → robin_hood l → occ (slot_at l i) → ¬ occ (slot_at l z) →
  (z - i) mod 2 ^ k ≤ Z.of_nat fuel →
  ∃ l' s, shift_loop fuel (2 ^ k - 1) l (i mod 2 ^ k) = Some (l', (i + s) mod 2 ^ k) ∧
    0 ≤ s < (z - i) mod 2 ^ k ∧ removed l i s (ring_set (i + s) zero_entry l').
Proof.
  revert l i. induction fuel as [|fuel IH]; intros l i Hl HR Ho Hz Hf.
  all: assert (Hzi : z mod 2 ^ k ≠ i mod 2 ^ k)
    by (intros E; apply Hz; by rewrite (slot_at_mod _ _ _ E)).
  all: destruct (gap_succ z i Hzi) as [Hgap Hgap'].
  { simpl in Hf. lia. }
  cbn [shift_loop]. rewrite land_mask, u64_mod_pow2 by lia.
  rewrite Zplus_mod_idemp_l, (lookup_slot _ _ Hl). simpl.
  destruct (Z.eqb_spec (hash_code (slot_at l (i + 1))) 0) as [Hn|Hn].
  { exists l, 0. rewrite Z.add_0_r. split; [done|]. split; [lia|].
    apply removed_here; [done..|]. intros Hn'. by destruct Hn'. }
  rewrite land_mask by lia.
  destruct (Z.eqb_spec (hash_code (slot_at l (i + 1)) mod 2 ^ k) ((i + 1) mod 2 ^ k)) as [Hh|Hh].
  { exists l, 0. rewrite Z.add_0_r. split; [done|]. split; [lia|].
    apply removed_here; [done..|]. intros _. by apply ring_eq. }
  assert (Hd : 0 < dist l (i + 1)).
  { pose proof (dist_range l (i + 1)). destruct (Z.eq_dec (dist l (i + 1)) 0) as [E|]; [|lia].
    destruct Hh. symmetry. by apply ring_eq. }
  destruct (IH (ring_set i (slot_at l (i + 1)) l) (i + 1)) as (l' & s & Hr & Hs & Hrem).
  - by apply ring_set_length.
  - by apply robin_hood_shift.
  - by rewrite slot_at_set_ne by (done || apply ring_succ_ne).
  - by rewrite slot_at_set_ne.
  - lia.
  - exists l', (s + 1). replace (i + (s + 1)) with (i + 1 + s) by lia.
    split; [done|]. split; [lia|]. pose proof (mod_k_range (z - i)).
    apply removed_shift; [done|done|done|lia|lia|done].
Qed.
End Ring.
