(* ===== verification/HashMap.v ===== *)
(** What the hash table promises: it implements an association list.

    [assoc_*] is the abstract specification, a list of elements in no particular order
    without two keys that the table's equality identifies.  [table_ok] is the
    well-formedness of a table; the operations keep it and refine the specification. *)
From stdpp Require Import base numbers list option.
From Stdlib Require Import ZArith Lia.
From S2P Require Import Prelude AwsMath HashTable HashProbe.

Local Open Scope Z_scope.

(** ** The abstract specification *)

(** What hash_table.h asks of the two callbacks. *)
Class KeyOps (hash : Z → Z) (eq : Z → Z → bool) : Prop := {
  key_refl a : eq a a = true;
  key_sym a b : eq a b = true → eq b a = true;
  key_trans a b c : eq a b = true → eq b c = true → eq a c = true;
  key_hash a b : eq a b = true → hash a = hash b;
}.

Section Assoc.
Context (eq : Z → Z → bool).

Definition matches (key : Z) (el : aws_hash_element) : Prop := eq key (e_key el) = true.
#[global] Instance matches_dec key el : Decision (matches key el).
Proof. unfold matches. apply _. Defined.

Definition assoc_find (key : Z) (l : list aws_hash_element) : option aws_hash_element :=
  head (filter (matches key) l).
Definition assoc_remove (key : Z) (l : list aws_hash_element) : list aws_hash_element :=
  filter (λ el, ¬ matches key el) l.
Definition assoc_put (key value : Z) (l : list aws_hash_element) : list aws_hash_element :=
  {| e_key := key; e_value := value |} :: assoc_remove key l.

(** No two elements with equal keys. *)
Definition distinct (l : list aws_hash_element) : Prop :=
  ∀ key, (length (filter (matches key) l) ≤ 1)%nat.

#[global] Instance distinct_proper : Proper ((≡ₚ) ==> iff) distinct.
Proof. intros l l' Hl. unfold distinct. by setoid_rewrite Hl. Qed.

Lemma distinct_cons_tail el l : distinct (el :: l) → distinct l.
Proof.
  intros H key. specialize (H key). rewrite filter_cons in H.
  destruct (decide _); simpl in H; lia.
Qed.

Lemma distinct_head key el l :
  distinct (el :: l) → matches key el → ∀ el', el' ∈ l → ¬ matches key el'.
Proof.
  intros H Hm el' Hin Hm'. specialize (H key). rewrite filter_cons_True in H by done.
  assert (Hf : el' ∈ filter (matches key) l) by (by apply list_elem_of_filter).
  destruct (filter (matches key) l); [by apply elem_of_nil in Hf|simpl in H; lia].
Qed.

Lemma no_match_remove key l :
  (∀ el, el ∈ l → ¬ matches key el) → assoc_remove key l = l.
Proof.
  intros H. unfold assoc_remove. induction l as [|el l IH]; [done|].
  rewrite filter_cons_True by (apply H; left). f_equal. apply IH.
  intros el' Hin. apply H. by right.
Qed.

Lemma no_match_filter key l :
  (∀ el, el ∈ l → ¬ matches key el) → filter (matches key) l = [].
Proof.
  intros H. induction l as [|el l IH]; [done|].
  rewrite filter_cons_False by (apply H; left). apply IH.
  intros el' Hin. apply H. by right.
Qed.

Lemma assoc_remove_perm key l l' : l ≡ₚ l' → assoc_remove key l ≡ₚ assoc_remove key l'.
Proof. unfold assoc_remove. by intros ->. Qed.

(** Taking out the element that matches is the removal. *)
Lemma distinct_remove key el l l' :
  distinct l → l ≡ₚ el :: l' → matches key el → assoc_remove key l ≡ₚ l'.
Proof.
  intros Hd Hl Hm. rewrite (assoc_remove_perm _ _ _ Hl). rewrite Hl in Hd.
  unfold assoc_remove at 1. rewrite filter_cons_False by (intros H; by apply H).
  change (filter _ l') with (assoc_remove key l'). rewrite no_match_remove; [done|].
  by eapply distinct_head.
Qed.

Lemma assoc_find_perm key l l' : distinct l → l ≡ₚ l' → assoc_find key l = assoc_find key l'.
Proof.
  intros Hd Hl. unfold assoc_find. specialize (Hd key).
  assert (P : filter (matches key) l ≡ₚ filter (matches key) l') by (by rewrite Hl).
  destruct (filter (matches key) l) as [|a [|b m]]; simpl in Hd; [|  |lia].
  - by apply Permutation_nil in P as ->.
  - by apply Permutation_singleton_l in P as ->.
Qed.

Lemma assoc_find_in key el l :
  distinct l → el ∈ l → matches key el → assoc_find key l = Some el.
Proof.
  intros Hd Hin Hm. unfold assoc_find. specialize (Hd key).
  assert (Hf : el ∈ filter (matches key) l) by (by apply list_elem_of_filter).
  destruct (filter (matches key) l) as [|a [|b m]]; simpl in Hd; [by apply elem_of_nil in Hf| |lia].
  by apply list_elem_of_singleton in Hf as ->.
Qed.

Lemma assoc_find_none key l :
  (∀ el, el ∈ l → ¬ matches key el) → assoc_find key l = None.
Proof. intros H. unfold assoc_find. by rewrite no_match_filter. Qed.

Context (hash : Z → Z) `{!KeyOps hash eq}.

Lemma matches_swap key el el' :
  matches key el → matches (e_key el) el' ↔ matches key el'.
Proof.
  unfold matches. intros Hm. split; intros H; eapply key_trans; [done|done| |done].
  by apply key_sym.
Qed.

Lemma distinct_cons el l :
  distinct l → (∀ el', el' ∈ l → ¬ matches (e_key el) el') → distinct (el :: l).
Proof.
  intros Hd Hn key. rewrite filter_cons. destruct (decide (matches key el)) as [Hm|]; [|done].
  rewrite no_match_filter; [simpl; lia|]. intros el' Hin Hm'. apply (Hn el' Hin).
  by rewrite matches_swap.
Qed.

Lemma distinct_filter P `{!∀ x, Decision (P x)} l : distinct l → distinct (filter P l).
Proof.
  intros Hd key. specialize (Hd key).
  assert (Hs : sublist (filter (matches key) (filter P l)) (filter (matches key) l)).
  { clear. induction l as [|a l IH]; [constructor|].
    rewrite (filter_cons P), (filter_cons (matches key) a). destruct (decide (P a)).
    - rewrite filter_cons. destruct (decide (matches key a)); [by constructor|done].
    - destruct (decide (matches key a)); [by constructor|done]. }
  apply sublist_length in Hs. lia.
Qed.

Lemma assoc_remove_gone key el l : el ∈ assoc_remove key l → ¬ matches key el.
Proof. by intros [H _]%list_elem_of_filter. Qed.

Lemma distinct_put key value l : distinct l → distinct (assoc_put key value l).
Proof.
  intros Hd. apply distinct_cons; [by apply distinct_filter|].
  intros el. apply (assoc_remove_gone key).
Qed.
End Assoc.

(** ** Well-formed tables *)

Definition contents (st : hash_table_state) : list aws_hash_element :=
  element <$> entries (slots st).

Record table_ok (k : Z) (st : hash_table_state) : Prop := {
  ok_k : 1 ≤ k ≤ 32;
  ok_size : size st = 2 ^ k;
  ok_mask : mask st = 2 ^ k - 1;
  ok_len : ring_length k (slots st);
  ok_load : max_load st = load_of max_load_factor_95 (2 ^ k);
  ok_factor : max_load_factor st = max_load_factor_95;
  ok_count : entry_count st = Z.of_nat (length (entries (slots st)));
  ok_room : entry_count st ≤ max_load st;
  ok_robin_hood : robin_hood k (slots st);
  ok_hash : ∀ e, e ∈ entries (slots st) → hash_code e = s_hash_for st (e_key (element e));
  ok_keys : distinct (equals_fn st) (contents st);
}.

(** The callbacks of a table do not change. *)
Definition same_fns (st st' : hash_table_state) : Prop :=
  hash_fn st' = hash_fn st ∧ equals_fn st' = equals_fn st ∧
  destroy_key_fn st' = destroy_key_fn st ∧ destroy_value_fn st' = destroy_value_fn st.

(** A load of 95% of a power of two leaves an empty slot and makes a doubled table
    roomy. *)
Lemma load_of_bounds k :
  1 ≤ k ≤ 62 →
  1 ≤ load_of max_load_factor_95 (2 ^ k) < 2 ^ k ∧
  2 ^ k ≤ load_of max_load_factor_95 (2 ^ (k + 1)).
Proof.
  intros Hk. pose proof (pow_k_bounds k ltac:(lia)) as [H2 _].
  unfold load_of, max_load_factor_95. rewrite Z.pow_add_r by lia.
  change (2 ^ 1) with 2. change (2 ^ 53) with 9007199254740992.
  split; [split|].
  - apply Z.div_le_lower_bound; lia.
  - apply Z.div_lt_upper_bound; lia.
  - apply Z.div_le_lower_bound; lia.
Qed.

Lemma table_room k st : table_ok k st → Z.of_nat (length (entries (slots st))) < 2 ^ k.
Proof.
  intros [Hk ? ? ? Hl ? Hc Hr ? ? ?]. pose proof (load_of_bounds k ltac:(lia)). lia.
Qed.

Lemma table_empty_slot k st : table_ok k st → ∃ z, ¬ occ (slot_at k (slots st) z).
Proof.
  intros H. pose proof (ok_k _ _ H). apply (empty_slot k ltac:(lia)); [apply H|].
  by eapply table_room.
Qed.

Lemma s_hash_for_nonzero st key : s_hash_for st key ≠ 0.
Proof. unfold s_hash_for. by destruct (Z.eqb_spec (hash_fn st key) 0). Qed.

Section Table.
Context (hash : Z → Z) (eq : Z → Z → bool) `{!KeyOps hash eq}.

Definition has_fns (st : hash_table_state) : Prop := hash_fn st = hash ∧ equals_fn st = eq.

Lemma s_hash_for_eq st a b :
  has_fns st → eq a b = true → s_hash_for st a = s_hash_for st b.
Proof. intros [Hh _] E. unfold s_hash_for. by rewrite Hh, (key_hash _ _ E). Qed.

(** A search finds an element exactly when there is one that matches. *)
Lemma find_table k st key :
  table_ok k st → has_fns st →
  ∃ r, s_find_entry st (s_hash_for st key) key = Some r ∧
    match assoc_find eq key (contents st) with
    | Some el => r.1.1 = AWS_ERROR_SUCCESS ∧ matches eq key el ∧
        ∃ p, r.1.2 = p mod 2 ^ k ∧ occ (slot_at k (slots st) p) ∧
             element (slot_at k (slots st) p) = el
    | None => r.1.1 = AWS_ERROR_HASHTBL_ITEM_NOT_FOUND ∧
        (∀ el, el ∈ contents st → ¬ matches eq key el) ∧
        may_place k (slots st) (s_hash_for st key) r.2
    end.
Proof.
  intros Hok Hf. pose proof (ok_k _ _ Hok) as Hk. pose proof Hf as [_ Heq].
  destruct (s_find_entry_outcome k ltac:(lia) st (s_hash_for st key) key (ok_len _ _ Hok)
    (ok_mask _ _ Hok) (ok_size _ _ Hok)) as (r & Hr & Ho).
  exists r. split; [done|].
  pose proof Ho as (q' & Hq' & E1 & E2 & [(Erv & Hocc & Hhit)|(Erv & Hp & Hd & Hn)]).
  - assert (Hm : matches eq key (element (slot_at k (slots st) (s_hash_for st key + q')))).
    { destruct Hhit as [_ Hhit]. unfold matches. by rewrite <- Heq. }
    rewrite (assoc_find_in eq key (element (slot_at k (slots st) (s_hash_for st key + q')))).
    + split; [done|]. split; [done|]. by eexists.
    + rewrite <- Heq. apply Hok.
    + apply list_elem_of_fmap_2, position_entry; [lia|apply Hok|done].
    + done.
  - assert (Hnone : ∀ el, el ∈ contents st → ¬ matches eq key el).
    { intros el (e & -> & He)%list_elem_of_fmap Hm.
      refine (find_failed k ltac:(lia) st _ key (ok_len _ _ Hok) r (ok_robin_hood _ _ Hok) Ho _ e He _).
      - by rewrite Erv.
      - split; [|by rewrite Heq]. rewrite (ok_hash _ _ Hok _ He). symmetry.
        by apply s_hash_for_eq. }
    rewrite (assoc_find_none eq key) by done. rewrite E2. done.
Qed.
End Table.
