(* ===== verification/HashOps.v ===== *)
(** The operations of the hash table refine the association list.

    First the allocation of tables, then insertion with its expansion of the table, then
    removal and clearing.  Programs of operations are in HashRun. *)
From stdpp Require Import base numbers list option.
From Stdlib Require Import ZArith Lia.
From S2P Require Import Prelude AwsMath HashTable HashProbe HashMap.

Local Open Scope Z_scope.

(** ** Allocation *)

Lemma size_loop_run fuel j m :
  0 ≤ j ≤ 62 → m ≤ 2 ^ 62 → 62 - j < Z.of_nat fuel →
  ∃ j', j ≤ j' ≤ 62 ∧ size_loop fuel m (2 ^ j) (W64 - 2 ^ j) = Some (2 ^ j', W64 - 2 ^ j') ∧
    m ≤ 2 ^ j' ∧ (j < j' → 2 ^ (j' - 1) < m).
Proof.
  revert j. induction fuel as [|fuel IH]; intros j Hj Hm Hf; [lia|].
  cbn [size_loop]. destruct (Z.ltb_spec (2 ^ j) m) as [Hlt|Hge].
  2: { exists j. split; [lia|]. split; [done|]. split; [lia|]. lia. }
  assert (Hj62 : j < 62).
  { destruct (Z.eq_dec j 62) as [->|]; [lia|lia]. }
  assert (Hp : 0 < 2 ^ j * 2 ≤ 2 ^ 62).
  { replace (2 ^ j * 2) with (2 ^ (j + 1)) by (rewrite Z.pow_add_r by lia; lia).
    split; [apply Z.pow_pos_nonneg; lia|]. apply Z.pow_le_mono_r; lia. }
  rewrite !Z.shiftl_mul_pow2 by lia. change (2 ^ 1) with 2.
  assert (W : W64 = 4 * 2 ^ 62) by reflexivity.
  rewrite u64_small by lia.
  assert (Em : u64 ((W64 - 2 ^ j) * 2) = W64 - 2 ^ j * 2).
  { unfold u64. symmetry. apply (Z.mod_unique_pos _ _ 1); lia. }
  rewrite Em, (proj2 (Z.eqb_neq _ _)) by lia.
  replace (2 ^ j * 2) with (2 ^ (j + 1)) by (rewrite Z.pow_add_r by lia; lia).
  destruct (IH (j + 1)) as (j' & Hj' & Hr & Hmj & Hlow); [lia|lia|lia|].
  exists j'. split; [lia|]. split; [done|]. split; [done|]. intros _.
  destruct (Z.eq_dec j' (j + 1)) as [->|]; [by rewrite Z.add_simpl_r|apply Hlow; lia].
Qed.

Definition sized (j : Z) (template : hash_table_state) : hash_table_state :=
  set_size (2 ^ j) (load_of max_load_factor_95 (2 ^ j)) (2 ^ j - 1) template.

Lemma mul_size_saturating_small a b :
  0 ≤ a * b < W64 → aws_mul_size_saturating a b = a * b.
Proof.
  intros H. unfold aws_mul_size_saturating, Gcc.aws_mul_u64_saturating, builtin_mul_overflow.
  simpl. rewrite (proj2 (Z.leb_gt _ _)) by lia. by rewrite Z.mod_small.
Qed.

(** The size is the least power of two, 2 at least, that is not below the request. *)
Lemma update_template_run template m :
  0 ≤ m ≤ 2 ^ 58 → max_load_factor template = max_load_factor_95 →
  ∃ j, 1 ≤ j ≤ 58 ∧ m ≤ 2 ^ j ∧ (1 < j → 2 ^ (j - 1) < m) ∧
    s_update_template_size template m = (AWS_OP_SUCCESS, sized j template).
Proof.
  intros Hm Hfac. unfold s_update_template_size. set (m' := if m <? 2 then 2 else m).
  assert (Hm' : 2 ≤ m' ∧ m ≤ m' ≤ 2 ^ 58 ∧ (2 < m' → m' = m)).
  { subst m'. assert (2 ≤ 2 ^ 58) by (change 2 with (2 ^ 1) at 1; apply Z.pow_le_mono_r; lia).
    destruct (Z.ltb_spec m 2); lia. }
  destruct (size_loop_run 65 0 m') as (j & Hj & Hr & Hle & Hlow);
    [lia|transitivity (2 ^ 58); [lia|apply Z.pow_le_mono_r; lia]|lia|].
  change (2 ^ 0) with 1 in Hr. rewrite Hr.
  assert (Hj1 : 1 ≤ j).
  { destruct (Z.eq_dec j 0) as [->|]; [|lia]. change (2 ^ 0) with 1 in Hle. lia. }
  specialize (Hlow ltac:(lia)).
  assert (Hj58 : j ≤ 58).
  { destruct (Z_le_dec j 58); [done|]. exfalso.
    assert (2 ^ 58 ≤ 2 ^ (j - 1)) by (apply Z.pow_le_mono_r; lia). lia. }
  assert (Hj58' : 2 ^ j ≤ 2 ^ 58) by (apply Z.pow_le_mono_r; lia).
  exists j. split; [lia|]. split; [lia|]. split.
  { intros H1. assert (2 ≤ 2 ^ (j - 1)) by (change 2 with (2 ^ 1) at 1; apply Z.pow_le_mono_r; lia).
    lia. }
  rewrite (proj2 (Z.ltb_ge (2 ^ j) m)) by lia.
  destruct (load_of_bounds j ltac:(lia)) as [Hload _]. rewrite Hfac.
  rewrite (proj2 (Z.leb_gt (2 ^ j) _)) by lia.
  rewrite mul_size_saturating_small; simpl size;
    [|unfold sizeof_hash_table_entry; change W64 with (64 * 2 ^ 58); lia].
  unfold sizeof_hash_table_entry, sizeof_hash_table_state.
  change SIZE_MAX with (64 * 2 ^ 58 - 1).
  rewrite (proj2 (Z.eqb_neq (2 ^ j * 24) _)) by lia.
  rewrite u64_small by (change W64 with (64 * 2 ^ 58); lia).
  rewrite (proj2 (Z.ltb_ge _ _)) by lia. simpl orb. cbv iota.
  unfold sized, set_size. simpl. by replace (W64 - 1 - (W64 - 2 ^ j)) with (2 ^ j - 1) by lia.
Qed.

(** The bytes a table of [2 ^ j] slots takes. *)
Definition table_bytes (j : Z) : Z :=
  (2 ^ j - 1) * sizeof_hash_table_entry + sizeof_hash_table_state.

Lemma alloc_state_run acq j template :
  1 ≤ j ≤ 32 →
  s_alloc_state acq (sized j template) =
    if acq (table_bytes j)
    then Some (set_slots (replicate (Z.to_nat (2 ^ j)) zero_entry) (sized j template)) else NULL.
Proof.
  intros Hj. pose proof (pow_k_bounds j ltac:(lia)) as [H2 _].
  assert (H32 : 2 ^ j ≤ W32) by (change W32 with (2 ^ 32); apply Z.pow_le_mono_r; lia).
  assert (W : W32 < W64) by done.
  unfold s_alloc_state. rewrite mul_size_checked_run. simpl size.
  rewrite (u64_small (2 ^ j - 1)), (u32_small (2 ^ j - 1)) by lia.
  change (u32 sizeof_hash_table_entry) with 24.
  rewrite (proj2 (Z.eqb_neq 1 0)) by done. unfold sizeof_hash_table_state.
  rewrite u64_small by (change W64 with (W32 * W32); lia).
  rewrite (proj2 (Z.ltb_ge _ _)) by lia.
  unfold table_bytes, sizeof_hash_table_entry, sizeof_hash_table_state.
  rewrite Z.div_mul by lia. replace (2 ^ j - 1 + 1) with (2 ^ j) by lia.
  by destruct (acq _).
Qed.

(** The slots of a new table. *)
Lemma fresh_ring j : 1 ≤ j ≤ 62 → ring_length j (replicate (Z.to_nat (2 ^ j)) zero_entry).
Proof.
  intros Hj. pose proof (pow_k_bounds j Hj). unfold ring_length. rewrite length_replicate. lia.
Qed.

Lemma fresh_slot j i n : slot_at j (replicate n zero_entry) i = zero_entry.
Proof.
  unfold slot_at. destruct (decide (Z.to_nat (i mod 2 ^ j) < n)%nat).
  - by apply lookup_total_replicate_2.
  - rewrite list_lookup_total_alt, lookup_ge_None_2; [done|]. rewrite length_replicate. lia.
Qed.

Lemma fresh_robin_hood j n : robin_hood j (replicate n zero_entry).
Proof. intros i Ho. rewrite fresh_slot in Ho. by destruct Ho. Qed.

Lemma fresh_entries n : entries (replicate n zero_entry) = [].
Proof.
  induction n as [|n IH]; [done|]. simpl. unfold entries in *.
  rewrite filter_cons_False; [done|]. intros H. by apply H.
Qed.

(** A new hash table is well-formed and empty: for every request of at most 2^32
    elements it gets the least power of two of slots that holds them, 2 at least, all
    empty, or the call fails because the allocator has no such block and the table is
    left without a state.  What the unassigned members of the template held plays no
    part. *)
Theorem hash_table_init_fresh (acq : Z → bool) junk n hash eq dk dv t :
  0 ≤ n ≤ W32 →
  ∃ j, 1 ≤ j ≤ 32 ∧ n ≤ 2 ^ j ∧ (1 < j → 2 ^ (j - 1) < n) ∧
    if acq (table_bytes j) then
      ∃ st, aws_hash_table_init acq junk n hash eq dk dv t =
              Some (AWS_OP_SUCCESS, {| p_impl := Some st; destroyed := destroyed t |}) ∧
        table_ok j st ∧ contents st = [] ∧
        hash_fn st = hash ∧ equals_fn st = eq ∧ destroy_key_fn st = dk ∧ destroy_value_fn st = dv
    else aws_hash_table_init acq junk n hash eq dk dv t =
           Some (AWS_OP_ERR, {| p_impl := NULL; destroyed := destroyed t |}).
Proof.
  intros Hn. destruct junk as [[js jl] jm]. unfold aws_hash_table_init.
  match goal with |- context [s_update_template_size ?x n] => set (template := x) end.
  destruct (update_template_run template n) as (j & Hj & Hnj & Hlow & Hu);
    [split; [lia|]; etrans; [apply Hn|done]|done|].
  assert (Hj32 : j ≤ 32).
  { destruct (Z_le_dec j 32); [done|]. exfalso.
    assert (2 ^ 32 ≤ 2 ^ (j - 1)) by (apply Z.pow_le_mono_r; lia).
    change W32 with (2 ^ 32) in Hn. specialize (Hlow ltac:(lia)). lia. }
  exists j. do 3 (split; [lia || done|]). rewrite Hu. rewrite alloc_state_run by lia.
  destruct (acq (table_bytes j)); [|done].
  eexists. split; [done|]. split; [|unfold contents; simpl; by rewrite fresh_entries].
  split; simpl; unfold contents; simpl; rewrite ?fresh_entries.
  all: try done.
  - lia.
  - apply fresh_ring; lia.
  - destruct (load_of_bounds j); lia.
  - apply fresh_robin_hood.
  - by intros e He%elem_of_nil.
  - intros key. cbn. lia.
Qed.

Lemma hash_table_init_fresh_witness :
  ∃ j, 1 ≤ j ≤ 32 ∧ ∃ st,
    aws_hash_table_init (λ _, true) (7, 7, 7) 5 (λ x, x) aws_ptr_eq NULL NULL
      {| p_impl := NULL; destroyed := [] |} =
      Some (AWS_OP_SUCCESS, {| p_impl := Some st; destroyed := [] |}) ∧ table_ok j st.
Proof.
  destruct (hash_table_init_fresh (λ _, true) (7, 7, 7) 5 (λ x, x) aws_ptr_eq NULL NULL
    {| p_impl := NULL; destroyed := [] |}) as (j & Hj & _ & _ & st & Hr & Hok & _); [lia|].
  exists j. split; [exact Hj|]. exists st. split; [exact Hr|exact Hok].
Defined.

(** ** Insertion *)

Section Rehash.
Context (k : Z) (Hk : 1 ≤ k ≤ 62).

Lemma s_emplace_item_run st e q :
  ring_length k (slots st) → mask st = 2 ^ k - 1 → size st = 2 ^ k →
  robin_hood k (slots st) → Z.of_nat (length (entries (slots st))) < 2 ^ k →
  occ e → may_place k (slots st) (hash_code e) q →
  ∃ l p, s_emplace_item st e q = Some (set_slots l st, Some (p mod 2 ^ k)) ∧
    ring_length k l ∧ robin_hood k l ∧ entries l ≡ₚ e :: entries (slots st) ∧
    slot_at k l p = e.
Proof.
  intros Hl Hm Hs HR Hroom He Hp. destruct (empty_slot k Hk _ Hl Hroom) as [z Hz].
  pose proof (pow_k_bounds k Hk). pose proof (mod_k_range k Hk (z - (hash_code e + q))).
  destruct (emplace_loop_outcome k Hk (S (Z.to_nat (size st))) (slots st) e q z NULL
    Hl HR Hz He Hp) as ([l p] & Hr & Hl' & HR' & Hent & _ & (j & Hj & Hje)); [lia|].
  cbn [fst snd] in *. exists l, j. unfold s_emplace_item. rewrite Hm, Hr. simpl. by rewrite Hj.
Qed.

Lemma entries_take_S i (l : list hash_table_entry) e :
  l !! i = Some e → entries (take (S i) l) = entries (take i l) ++ filter occ [e].
Proof. intros Hi. unfold entries. by rewrite (take_S_r _ _ _ Hi), list.filter_app. Qed.

Lemma rehash_loop_run n i old new :
  mask new = 2 ^ k - 1 → size new = 2 ^ k → (i + n = length (slots old))%nat →
  ring_length k (slots new) → robin_hood k (slots new) →
  Z.of_nat (length (entries (slots old))) < 2 ^ k →
  entries (slots new) ≡ₚ entries (take i (slots old)) →
  ∃ l, rehash_loop n i old new = Some (set_slots l new) ∧
    ring_length k l ∧ robin_hood k l ∧ entries l ≡ₚ entries (slots old).
Proof.
  revert i new. induction n as [|n IH]; intros i new Hm Hs Hi Hl HR Hroom Hent.
  { exists (slots new). split; [by destruct new|]. do 2 (split; [done|]).
    by rewrite Hent, take_ge by lia. }
  destruct (lookup_lt_is_Some_2 (slots old) i ltac:(lia)) as [e He].
  pose proof (entries_take_S _ _ _ He) as HS.
  cbn [rehash_loop]. rewrite He. simpl.
  destruct (Z.eqb_spec (hash_code e) 0) as [H0|H0].
  - apply IH; [done|done|lia|done|done|done|].
    rewrite Hent, HS, filter_cons_False, filter_nil, app_nil_r; [done|].
    intros Ho. by apply Ho.
  - rewrite filter_cons_True, filter_nil in HS by done.
    assert (Hle : (length (entries (take (S i) (slots old))) ≤ length (entries (slots old)))%nat).
    { rewrite <- (take_drop (S i) (slots old)) at 2. unfold entries.
      rewrite list.filter_app, length_app. lia. }
    rewrite HS, length_app in Hle. simpl in Hle.
    destruct (s_emplace_item_run new e 0) as (l & p & Hr & Hl' & HR' & Hent' & _);
      [done|done|done|done| |done|split; lia|].
    { rewrite (Permutation_length Hent). lia. }
    rewrite Hr. simpl.
    destruct (IH (S i) (set_slots l new)) as (l' & Hr' & Hrest); [done|done|lia|done|done|done| |].
    { simpl. rewrite Hent', Hent, HS. by rewrite Permutation_app_comm. }
    exists l'. by rewrite Hr'.
Qed.
End Rehash.

(** Two states that hold the same elements for the same callbacks. *)
Lemma table_ok_rehashed k k' st st' :
  table_ok k st → 1 ≤ k' ≤ 32 → size st' = 2 ^ k' → mask st' = 2 ^ k' - 1 →
  max_load st' = load_of max_load_factor_95 (2 ^ k') → max_load_factor st' = max_load_factor_95 →
  same_fns st st' → entry_count st' = entry_count st → entry_count st ≤ max_load st' →
  ring_length k' (slots st') → robin_hood k' (slots st') →
  entries (slots st') ≡ₚ entries (slots st) → table_ok k' st'.
Proof.
  intros Hok Hk' H1 H2 H3 H4 (F1 & F2 & F3 & F4) H5 H6 H7 H8 H9.
  assert (Hc : contents st' ≡ₚ contents st) by (unfold contents; by rewrite H9).
  split; [done..| | | | |].
  - rewrite H5, (Permutation_length H9). apply Hok.
  - by rewrite H5.
  - done.
  - intros e He. rewrite H9 in He. rewrite (ok_hash _ _ Hok _ He). unfold s_hash_for. by rewrite F1.
  - rewrite F2, Hc. apply Hok.
Qed.

Lemma M_deref {A} st log (f : hash_table_state → M aws_hash_table A) :
  (deref ≫= f) {| p_impl := Some st; destroyed := log |} =
  f st {| p_impl := Some st; destroyed := log |}.
Proof. reflexivity. Qed.

Lemma M_set_impl {A} st st' log (f : unit → M aws_hash_table A) :
  (set_impl st' ≫= f) {| p_impl := Some st; destroyed := log |} =
  f tt {| p_impl := Some st'; destroyed := log |}.
Proof. reflexivity. Qed.

Ltac hnext := repeat (progress (rewrite ?M_deref, ?M_set_impl; mnext)).

Lemma s_expand_table_run (acq : Z → bool) k st log :
  table_ok k st → k < 32 →
  if acq (table_bytes (k + 1)) then
    ∃ st', s_expand_table acq {| p_impl := Some st; destroyed := log |} =
             Some (AWS_OP_SUCCESS, {| p_impl := Some st'; destroyed := log |}) ∧
      table_ok (k + 1) st' ∧ same_fns st st' ∧ entries (slots st') ≡ₚ entries (slots st) ∧
      entry_count st' = entry_count st
  else s_expand_table acq {| p_impl := Some st; destroyed := log |} =
         Some (AWS_OP_ERR, {| p_impl := Some st; destroyed := log |}).
Proof.
  intros Hok Hk. pose proof (ok_k _ _ Hok). pose proof (pow_k_bounds k ltac:(lia)).
  assert (E2 : 2 ^ k * 2 = 2 ^ (k + 1)) by (rewrite Z.pow_add_r by lia; lia).
  assert (Hle : 2 ^ (k + 1) ≤ 2 ^ 32) by (apply Z.pow_le_mono_r; lia).
  destruct (update_template_run st (2 ^ (k + 1))) as (j & Hj & Hlo & Hhi & Hu);
    [split; [lia|]; etrans; [exact Hle|done]|apply Hok|].
  assert (j = k + 1) as ->.
  { apply Z.pow_le_mono_r_iff in Hlo; [|lia|lia]. specialize (Hhi ltac:(lia)).
    apply Z.pow_lt_mono_r_iff in Hhi; lia. }
  unfold s_expand_table. hnext.
  rewrite (ok_size _ _ Hok), E2, u64_small by (split; [lia|eapply Z.le_lt_trans; [exact Hle|done]]).
  rewrite Hu, alloc_state_run by lia.
  destruct (acq (table_bytes (k + 1))); [|done].
  destruct (load_of_bounds k ltac:(lia)) as [_ Hroom].
  destruct (rehash_loop_run (k + 1) ltac:(lia) (Z.to_nat (2 ^ k)) 0 st
    (set_slots (replicate (Z.to_nat (2 ^ (k + 1))) zero_entry) (sized (k + 1) st)))
    as (l & Hr & Hl & HR & Hent).
  - done.
  - done.
  - pose proof (ok_len _ _ Hok) as Hlen. unfold ring_length in Hlen. lia.
  - apply fresh_ring. lia.
  - apply fresh_robin_hood.
  - pose proof (table_room _ _ Hok). lia.
  - simpl. by rewrite fresh_entries.
  - rewrite Hr. hnext. eexists. split; [reflexivity|].
    split; [|by split]. eapply (table_ok_rehashed k); try done; [lia|apply Hok|].
    simpl. pose proof (ok_room _ _ Hok). pose proof (ok_load _ _ Hok).
    destruct (load_of_bounds k ltac:(lia)). lia.
Qed.

Section Operations.
Context (hash : Z → Z) (eq : Z → Z → bool) `{!KeyOps hash eq}.

Definition new_entry (st : hash_table_state) (key : Z) : hash_table_entry :=
  {| element := {| e_key := key; e_value := 0 |}; hash_code := s_hash_for st key |}.

(** Adding an entry for a key that is not there, within the load. *)
Lemma table_insert k st key q :
  table_ok k st → has_fns hash eq st → entry_count st + 1 ≤ max_load st →
  (∀ el, el ∈ contents st → ¬ matches eq key el) →
  may_place k (slots st) (s_hash_for st key) q →
  ∃ st' p, s_emplace_item (set_entry_count (u64 (entry_count st + 1)) st) (new_entry st key) q =
             Some (st', Some (p mod 2 ^ k)) ∧
    table_ok k st' ∧ same_fns st st' ∧ slot_at k (slots st') p = new_entry st key ∧
    contents st' ≡ₚ {| e_key := key; e_value := 0 |} :: contents st.
Proof.
  intros Hok Hf Hload Hnone Hp. pose proof (ok_k _ _ Hok) as Hk.
  assert (Ho : occ (new_entry st key)) by apply s_hash_for_nonzero.
  destruct (s_emplace_item_run k ltac:(lia) (set_entry_count (u64 (entry_count st + 1)) st)
    (new_entry st key) q) as (l & p & Hr & Hl & HR & Hent & Hslot);
    [apply Hok|apply Hok|apply Hok|apply Hok|exact (table_room k st Hok)|done|done|].
  eexists _, p. split; [done|].
  assert (Hcont : element <$> entries l ≡ₚ {| e_key := key; e_value := 0 |} :: contents st)
    by (rewrite Hent; done).
  pose proof (ok_count _ _ Hok). pose proof (ok_load _ _ Hok).
  destruct (load_of_bounds k ltac:(lia)) as [Hb _].
  assert (H32 : 2 ^ k ≤ 2 ^ 32) by (apply Z.pow_le_mono_r; lia).
  assert (E1 : u64 (entry_count st + 1) = entry_count st + 1).
  { apply u64_small. split; [lia|]. change W64 with (2 ^ 32 * 2 ^ 32). lia. }
  split; [|done]. destruct Hf as [Hfh Hfe].
  split; simpl; try (by apply Hok); try done.
  - rewrite E1, (Permutation_length Hent). simpl. lia.
  - lia.
  - intros e He. rewrite Hent in He. apply elem_of_cons in He as [->|He]; [done|].
    by apply (ok_hash _ _ Hok).
  - unfold contents at 1. simpl. rewrite Hcont, Hfe. eapply distinct_cons; [done| |done].
    rewrite <- Hfe. apply Hok.
Qed.

(** The whole of [aws_hash_table_create]. *)
Lemma create_run (acq : Z → bool) k st log key :
  table_ok k st → has_fns hash eq st → (max_load st < entry_count st + 1 → k < 32) →
  match assoc_find eq key (contents st) with
  | Some el =>
      ∃ p, aws_hash_table_create acq key {| p_impl := Some st; destroyed := log |} =
             Some ((AWS_OP_SUCCESS, Some (p mod 2 ^ k), 0),
                   {| p_impl := Some st; destroyed := log |}) ∧
        matches eq key el ∧ occ (slot_at k (slots st) p) ∧ element (slot_at k (slots st) p) = el
  | None =>
      (∀ el, el ∈ contents st → ¬ matches eq key el) ∧
      if (max_load st <? entry_count st + 1) && negb (acq (table_bytes (k + 1))) then
        aws_hash_table_create acq key {| p_impl := Some st; destroyed := log |} =
          Some ((AWS_OP_ERR, NULL, 0), {| p_impl := Some st; destroyed := log |})
      else
        ∃ k' st' p, aws_hash_table_create acq key {| p_impl := Some st; destroyed := log |} =
             Some ((AWS_OP_SUCCESS, Some (p mod 2 ^ k'), 1),
                   {| p_impl := Some st'; destroyed := log |}) ∧
          k ≤ k' ≤ k + 1 ∧ table_ok k' st' ∧ same_fns st st' ∧
          slot_at k' (slots st') p = new_entry st key ∧
          contents st' ≡ₚ {| e_key := key; e_value := 0 |} :: contents st
  end.
Proof.
  intros Hok Hf Hk32. pose proof (ok_k _ _ Hok) as Hk.
  destruct (find_table hash eq k st key Hok Hf) as ([[rv i] q] & Hr & Hcase).
  cbn [fst snd] in Hcase.
  unfold aws_hash_table_create. hnext. rewrite Hr. hnext.
  destruct (assoc_find eq key (contents st)) as [el|].
  { destruct Hcase as (-> & Hm & p & -> & Ho & He). simpl. by exists p. }
  destruct Hcase as (-> & Hnone & Hp). split; [done|].
  cbn [Z.eqb AWS_ERROR_HASHTBL_ITEM_NOT_FOUND AWS_ERROR_SUCCESS]. hnext.
  pose proof (ok_count _ _ Hok). pose proof (ok_load _ _ Hok). pose proof (ok_room _ _ Hok).
  destruct (load_of_bounds k ltac:(lia)) as [Hb Hb'].
  assert (H32 : 2 ^ k ≤ 2 ^ 32) by (apply Z.pow_le_mono_r; lia).
  rewrite (u64_small (entry_count st + 1))
    by (split; [lia|]; change W64 with (2 ^ 32 * 2 ^ 32); lia).
  destruct (Z.ltb_spec (max_load st) (entry_count st + 1)) as [Hfull|Hroom]; simpl andb.
  - pose proof (s_expand_table_run acq k st log Hok (Hk32 Hfull)) as Hexp.
    specialize (Hk32 Hfull).
    destruct (acq (table_bytes (k + 1))); simpl negb; cbv iota.
    + destruct Hexp as (st1 & He & Hok1 & Hsf & Hent & Hcount). bstep He.
      change (AWS_OP_SUCCESS =? AWS_OP_SUCCESS) with true. hnext.
      assert (Hc1 : contents st1 ≡ₚ contents st) by (unfold contents; by rewrite Hent).
      assert (Hf1 : has_fns hash eq st1).
      { destruct Hf, Hsf as (F1 & F2 & _). split; by rewrite ?F1, ?F2. }
      assert (Hh : s_hash_for st1 key = s_hash_for st key).
      { unfold s_hash_for. by rewrite (proj1 Hsf). }
      destruct (table_insert (k + 1) st1 key 0) as (st2 & p & Hr2 & Hok2 & Hsf2 & Hslot & Hcont);
        [done|done| | |split; lia|].
      * pose proof (ok_load _ _ Hok1). rewrite Hcount. lia.
      * intros el Hin. apply Hnone. by rewrite <- Hc1.
      * exists (k + 1), st2, p. unfold new_entry in Hr2. rewrite Hh in Hr2. rewrite Hr2. hnext.
        split; [done|]. split; [lia|]. split; [done|]. split.
        { destruct Hsf as (?&?&?&?), Hsf2 as (?&?&?&?). repeat split; congruence. }
        split; [by rewrite Hslot; unfold new_entry; rewrite Hh|]. by rewrite Hcont, Hc1.
    + bstep Hexp. done.
  - hnext. destruct (table_insert k st key q) as (st2 & p & Hr2 & Hrest); [done|done|lia|done|done|].
    exists k, st2, p. unfold new_entry in Hr2. rewrite Hr2. hnext.
    split; [done|]. split; [lia|]. done.
Qed.

(** *** [aws_hash_table_put] *)

Lemma contents_split k st p :
  table_ok k st → occ (slot_at k (slots st) p) →
  contents st ≡ₚ element (slot_at k (slots st) p) ::
    (element <$> entries (ring_set k p zero_entry (slots st))).
Proof.
  intros Hok Ho. pose proof (ok_k _ _ Hok). unfold contents.
  rewrite <- (entries_clear k ltac:(lia) (slots st) p (ok_len _ _ Hok) Ho). done.
Qed.

Lemma robin_hood_ext k l l' :
  (∀ j, hash_code (slot_at k l' j) = hash_code (slot_at k l j)) → robin_hood k l → robin_hood k l'.
Proof.
  intros E HR i. unfold occ, dist. rewrite !E. apply HR.
Qed.

(** Overwriting the element of a slot with one of an equal key. *)
Lemma table_update k st p key value :
  table_ok k st → has_fns hash eq st → occ (slot_at k (slots st) p) →
  matches eq key (element (slot_at k (slots st) p)) →
  let e := {| element := {| e_key := key; e_value := value |};
              hash_code := hash_code (slot_at k (slots st) p) |} in
  let st' := set_slots (ring_set k p e (slots st)) st in
  table_ok k st' ∧ contents st' ≡ₚ assoc_put eq key value (contents st).
Proof.
  intros Hok Hf Ho Hm e st'. pose proof (ok_k _ _ Hok) as Hk. pose proof (ok_len _ _ Hok) as Hl.
  assert (Hk62 : 1 ≤ k ≤ 62) by lia. pose proof Hf as [Hfh Hfe].
  pose proof (entries_set_swap k Hk62 _ p e Hl Ho Ho) as Hswap.
  assert (Hd : distinct eq (contents st)) by (rewrite <- Hfe; apply Hok).
  assert (Hc : contents st' ≡ₚ assoc_put eq key value (contents st)).
  { pose proof (contents_split k st p Hok Ho) as Hs. unfold assoc_put.
    rewrite (distinct_remove eq key _ _ _ Hd Hs Hm).
    apply (Permutation_cons_inv (a := element (slot_at k (slots st) p))).
    rewrite perm_swap, <- Hs. unfold contents, st'. simpl.
    change (element (slot_at k (slots st) p) :: (element <$> entries (ring_set k p e (slots st))))
      with (element <$> (slot_at k (slots st) p :: entries (ring_set k p e (slots st)))).
    by rewrite Hswap. }
  split; [|done].
  split; simpl; try (by apply Hok).
  - by apply ring_set_length.
  - rewrite (ok_count _ _ Hok). apply Permutation_length in Hswap. simpl in Hswap. lia.
  - eapply robin_hood_ext; [|apply Hok]. intros j.
    rewrite slot_at_set by done. destruct (decide _) as [E|]; [|done].
    by rewrite (slot_at_mod k _ _ _ E).
  - intros e' He'. assert (Hin : e' ∈ e :: entries (slots st)) by (rewrite <- Hswap; by right).
    apply elem_of_cons in Hin as [->|Hin]; [|by apply (ok_hash _ _ Hok)].
    simpl. rewrite (ok_hash _ _ Hok) by (by apply position_entry). symmetry.
    by apply (s_hash_for_eq hash eq st).
  - rewrite Hfe, Hc. by eapply distinct_put.
Qed.

(** The calls of a destructor that may be [NULL]. *)
Definition calls (fn : ptr Z) (arg : Z) : list (Z * Z) :=
  match fn with Some f => [(f, arg)] | None => [] end.

Lemma M_destroy_if {A} fn arg st log (f : unit → M aws_hash_table A) :
  (destroy_if fn arg ≫= f) {| p_impl := Some st; destroyed := log |} =
  f tt {| p_impl := Some st; destroyed := log ++ calls fn arg |}.
Proof. destruct fn; simpl; [done|]. by rewrite app_nil_r. Qed.

Lemma M_set_slot {A} k st log p e (f : unit → M aws_hash_table A) :
  1 ≤ k ≤ 62 → ring_length k (slots st) →
  (set_slot (p mod 2 ^ k) e ≫= f) {| p_impl := Some st; destroyed := log |} =
  f tt {| p_impl := Some (set_slots (ring_set k p e (slots st)) st); destroyed := log |}.
Proof.
  intros Hk Hl. unfold set_slot, mbind at 1, M_bind. rewrite M_deref.
  rewrite (lookup_slot k Hk _ p Hl). done.
Qed.

(** The destructor calls of a [put] that replaces [el]. *)
Definition replaced_calls (st : hash_table_state) (key : Z) (el : aws_hash_element) : list (Z * Z) :=
  (if e_key el =? key then [] else calls (destroy_key_fn st) (e_key el)) ++
  calls (destroy_value_fn st) (e_value el).

Lemma put_run (acq : Z → bool) k st log key value :
  table_ok k st → has_fns hash eq st → (max_load st < entry_count st + 1 → k < 32) →
  if match assoc_find eq key (contents st) with
     | Some _ => false
     | None => (max_load st <? entry_count st + 1) && negb (acq (table_bytes (k + 1)))
     end then
    aws_hash_table_put acq key value {| p_impl := Some st; destroyed := log |} =
      Some ((AWS_OP_ERR, 0), {| p_impl := Some st; destroyed := log |})
  else
    ∃ k' st', aws_hash_table_put acq key value {| p_impl := Some st; destroyed := log |} =
        Some ((AWS_OP_SUCCESS, c_bool (bool_decide (assoc_find eq key (contents st) = None))),
              {| p_impl := Some st';
                 destroyed := log ++ match assoc_find eq key (contents st) with
                                     | Some el => replaced_calls st key el
                                     | None => []
                                     end |}) ∧
      k ≤ k' ≤ k + 1 ∧ table_ok k' st' ∧ same_fns st st' ∧
      contents st' ≡ₚ assoc_put eq key value (contents st).
Proof.
  intros Hok Hf Hk32. pose proof (ok_k _ _ Hok) as Hk.
  pose proof (create_run acq k st log key Hok Hf Hk32) as Hcr. unfold aws_hash_table_put.
  destruct (assoc_find eq key (contents st)) as [el|] eqn:Efind.
  - destruct Hcr as (p & Hr & Hm & Ho & He). cbv iota. bstep Hr.
    destruct (table_update k st p key value Hok Hf Ho ltac:(by rewrite He)) as [Hok' Hc].
    eexists k, _. split; [|split; [lia|split; [exact Hok'|split; [done|exact Hc]]]].
    cbn [negb Z.eqb AWS_OP_SUCCESS]. hnext. rewrite (lookup_slot k ltac:(lia) _ p (ok_len _ _ Hok)).
    hnext. rewrite He, M_assoc. unfold replaced_calls.
    destruct (Z.eqb_spec (e_key el) key); simpl negb; cbv iota; hnext;
      rewrite ?M_destroy_if, ?M_assoc; hnext; rewrite ?M_destroy_if;
      rewrite (M_set_slot k) by (lia || apply Hok); by rewrite <- ?app_assoc.
  - destruct Hcr as [Hnone Hcr].
    destruct ((max_load st <? entry_count st + 1) && negb (acq (table_bytes (k + 1)))).
    + bstep Hcr. done.
    + destruct Hcr as (k' & st' & p & Hr & Hk' & Hok' & Hsf & Hslot & Hc). bstep Hr.
      assert (Hf' : has_fns hash eq st').
      { destruct Hf, Hsf as (F1 & F2 & _). split; by rewrite ?F1, ?F2. }
      assert (Ho : occ (slot_at k' (slots st') p)) by (rewrite Hslot; apply s_hash_for_nonzero).
      destruct (table_update k' st' p key value Hok' Hf' Ho) as [Hok2 Hc2].
      { rewrite Hslot. apply key_refl. }
      pose proof (ok_k _ _ Hok').
      eexists k', _. split; [|split; [lia|split; [exact Hok2|split; [done|]]]].
      * cbn [negb Z.eqb AWS_OP_SUCCESS]. hnext.
        rewrite (lookup_slot k' ltac:(lia) _ p (ok_len _ _ Hok')). hnext.
        rewrite (M_set_slot k') by (lia || apply Hok'). by rewrite app_nil_r.
      * rewrite Hc2. unfold assoc_put. rewrite (assoc_remove_perm eq key _ _ Hc).
        unfold assoc_remove. rewrite filter_cons_False; [done|]. intros Hn. apply Hn, key_refl.
Qed.

(** *** [aws_hash_table_find], [aws_hash_table_remove], [aws_hash_table_clear] *)

Lemma find_run k st log key :
  table_ok k st → has_fns hash eq st →
  ∃ p, aws_hash_table_find key {| p_impl := Some st; destroyed := log |} =
         Some ((AWS_OP_SUCCESS, p), {| p_impl := Some st; destroyed := log |}) ∧
    match p with
    | Some i => ∃ e, slots st !! Z.to_nat i = Some e ∧
                  assoc_find eq key (contents st) = Some (element e)
    | None => assoc_find eq key (contents st) = None
    end.
Proof.
  intros Hok Hf. pose proof (ok_k _ _ Hok) as Hk.
  destruct (find_table hash eq k st key Hok Hf) as ([[rv i] q] & Hr & Hcase).
  cbn [fst snd] in Hcase. unfold aws_hash_table_find. hnext. rewrite Hr. hnext.
  destruct (assoc_find eq key (contents st)) as [el|].
  - destruct Hcase as (-> & _ & p & -> & Ho & He). eexists. split; [done|].
    exists (slot_at k (slots st) p). by rewrite (lookup_slot k ltac:(lia) _ p (ok_len _ _ Hok)), He.
  - destruct Hcase as (-> & _). by eexists.
Qed.

Lemma s_remove_entry_run k st p :
  table_ok k st → occ (slot_at k (slots st) p) →
  ∃ st' s, s_remove_entry st (p mod 2 ^ k) = Some (st', (p + s) mod 2 ^ k) ∧
    0 ≤ s < 2 ^ k - 1 ∧ table_ok k st' ∧ same_fns st st' ∧ size st' = size st ∧
    removed k (slots st) p s (slots st') ∧
    contents st ≡ₚ element (slot_at k (slots st) p) :: contents st'.
Proof.
  intros Hok Ho. pose proof (ok_k _ _ Hok) as Hk. assert (Hk62 : 1 ≤ k ≤ 62) by lia.
  pose proof (pow_k_bounds k Hk62). destruct (table_empty_slot k st Hok) as [z Hz].
  pose proof (mod_k_range k Hk62 (z - p)).
  destruct (shift_loop_outcome k Hk62 (S (Z.to_nat (size st))) (slots st) p z
    (ok_len _ _ Hok) (ok_robin_hood _ _ Hok) Ho Hz) as (l' & s & Hr & Hs & Hrem).
  { rewrite (ok_size _ _ Hok). lia. }
  unfold s_remove_entry. rewrite (ok_mask _ _ Hok), Hr. simpl.
  eexists _, s. split; [done|]. split; [lia|].
  pose proof Hrem as (Hl & HR & Hent & _).
  assert (Hc : contents st ≡ₚ element (slot_at k (slots st) p) ::
    (element <$> entries (ring_set k (p + s) zero_entry l'))).
  { unfold contents. by rewrite <- Hent. }
  assert (Hcount : entry_count st = Z.of_nat (length (entries (ring_set k (p + s) zero_entry l'))) + 1).
  { rewrite (ok_count _ _ Hok), <- (Permutation_length Hent). simpl. lia. }
  pose proof (table_room k st Hok). pose proof (ok_count _ _ Hok) as Hcnt.
  assert (E1 : u64 (entry_count st - 1) = entry_count st - 1).
  { apply u64_small. split; [lia|].
    assert (2 ^ k ≤ 2 ^ 32) by (apply Z.pow_le_mono_r; lia).
    change W64 with (2 ^ 32 * 2 ^ 32). lia. }
  split; [|done].
  split; simpl; try (by apply Hok); try done.
  - rewrite E1. change (entries _) with (entries (ring_set k (p + s) zero_entry l')). lia.
  - rewrite E1. pose proof (ok_room _ _ Hok). lia.
  - intros e He. apply (ok_hash _ _ Hok). rewrite <- Hent. by right.
  - pose proof (ok_keys _ _ Hok) as Hd. rewrite Hc in Hd. by apply distinct_cons_tail in Hd.
Qed.

Definition dropped_calls (st : hash_table_state) (el : aws_hash_element) : list (Z * Z) :=
  calls (destroy_key_fn st) (e_key el) ++ calls (destroy_value_fn st) (e_value el).

Lemma remove_run k st log key out :
  table_ok k st → has_fns hash eq st →
  match assoc_find eq key (contents st) with
  | None =>
      aws_hash_table_remove key out {| p_impl := Some st; destroyed := log |} =
        Some ((AWS_OP_SUCCESS, 0, None), {| p_impl := Some st; destroyed := log |}) ∧
      assoc_remove eq key (contents st) = contents st
  | Some el =>
      ∃ st', aws_hash_table_remove key out {| p_impl := Some st; destroyed := log |} =
          Some ((AWS_OP_SUCCESS, 1, if out then Some el else None),
                {| p_impl := Some st';
                   destroyed := log ++ if out then [] else dropped_calls st el |}) ∧
        table_ok k st' ∧ same_fns st st' ∧ contents st' ≡ₚ assoc_remove eq key (contents st)
  end.
Proof.
  intros Hok Hf. pose proof (ok_k _ _ Hok) as Hk.
  destruct (find_table hash eq k st key Hok Hf) as ([[rv i] q] & Hr & Hcase).
  cbn [fst snd] in Hcase. unfold aws_hash_table_remove. hnext. rewrite Hr. hnext.
  destruct (assoc_find eq key (contents st)) as [el|].
  - destruct Hcase as (-> & Hm & p & -> & Ho & He).
    destruct (s_remove_entry_run k st p Hok Ho) as (st' & s & Hrem & _ & Hok' & Hsf & _ & _ & Hc).
    exists st'. split; [|split; [done|split; [done|]]].
    + cbn [negb Z.eqb AWS_ERROR_SUCCESS]. rewrite (lookup_slot k ltac:(lia) _ p (ok_len _ _ Hok)).
      hnext. rewrite He. destruct out; hnext.
      * rewrite Hrem. hnext. by rewrite app_nil_r.
      * rewrite M_assoc, M_destroy_if, M_destroy_if, Hrem. hnext.
        unfold dropped_calls. by rewrite <- app_assoc.
    + symmetry. destruct Hf as [_ Hfe]. eapply distinct_remove; [|exact Hc|by rewrite He].
      rewrite <- Hfe. apply Hok.
  - destruct Hcase as (-> & Hnone & _). split; [done|]. by apply no_match_remove.
Qed.

Lemma clear_loop_run n i st st0 log :
  (i + n = length (slots st))%nat →
  clear_loop n i st {| p_impl := Some st0; destroyed := log |} =
    Some (tt, {| p_impl := Some st0;
                 destroyed := log ++ concat (dropped_calls st <$>
                                (element <$> entries (drop i (slots st)))) |}).
Proof.
  revert i log. induction n as [|n IH]; intros i log Hi.
  { rewrite drop_ge by lia. simpl. by rewrite app_nil_r. }
  destruct (lookup_lt_is_Some_2 (slots st) i ltac:(lia)) as [e He].
  rewrite (drop_S _ _ _ He). cbn [clear_loop]. rewrite He. hnext.
  unfold entries. rewrite filter_cons. unfold occ at 1.
  destruct (Z.eqb_spec (hash_code e) 0) as [E|E].
  - rewrite decide_False by (intros H; by apply H). hnext. apply IH. lia.
  - rewrite decide_True by done. rewrite M_assoc, M_destroy_if, M_destroy_if, IH by lia.
    do 3 f_equal. unfold dropped_calls at 2. simpl. by rewrite <- !app_assoc.
Qed.

(** Every element is destroyed, in the order of the slots. *)
Lemma clear_run k st log :
  table_ok k st →
  ∃ st', aws_hash_table_clear {| p_impl := Some st; destroyed := log |} =
      Some (tt, {| p_impl := Some st';
                   destroyed := log ++ concat (dropped_calls st <$> contents st) |}) ∧
    table_ok k st' ∧ same_fns st st' ∧ contents st' = [].
Proof.
  intros Hok. pose proof (ok_k _ _ Hok) as Hk. pose proof (ok_len _ _ Hok) as Hl.
  pose proof (ok_size _ _ Hok) as Hs. unfold ring_length in Hl.
  set (st' := set_entry_count 0 (set_slots (replicate (Z.to_nat (size st)) zero_entry
    ++ drop (Z.to_nat (size st)) (slots st)) st)).
  assert (Esl : slots st' = replicate (Z.to_nat (2 ^ k)) zero_entry).
  { unfold st'. simpl. by rewrite Hs, drop_ge, app_nil_r by lia. }
  exists st'. split.
  - unfold aws_hash_table_clear. hnext. rewrite (proj2 (Z.ltb_ge _ _)) by lia.
    assert (Hloop : match destroy_key_fn st, destroy_value_fn st with
      | None, None => mret tt
      | _, _ => clear_loop (Z.to_nat (size st)) 0 st
      end {| p_impl := Some st; destroyed := log |} =
      Some (tt, {| p_impl := Some st;
                   destroyed := log ++ concat (dropped_calls st <$> contents st) |})).
    { pose proof (clear_loop_run (Z.to_nat (size st)) 0 st st log ltac:(lia)) as Hcl.
      rewrite drop_0 in Hcl. unfold contents, dropped_calls in *.
      destruct (destroy_key_fn st), (destroy_value_fn st); [exact Hcl..|].
      replace (concat _) with (@nil (Z * Z)); [by rewrite app_nil_r|].
      clear. by induction (element <$> entries (slots st)). }
    by bstep Hloop.
  - split; [|split; [done|]].
    + destruct (load_of_bounds k ltac:(lia)).
      split; unfold contents; rewrite ?Esl, ?fresh_entries; simpl; try (by apply Hok); try done.
      * apply fresh_ring. lia.
      * rewrite (ok_load _ _ Hok). lia.
      * apply fresh_robin_hood.
      * by intros e He%elem_of_nil.
      * intros key. cbn. lia.
    + unfold contents. by rewrite Esl, fresh_entries.
Qed.
End Operations.
