(* ===== verification/HashRun.v ===== *)
(** Programs of hash-table operations simulate the association list, and the limit of
    the table's allocation. *)
From stdpp Require Import base numbers list option.
From Stdlib Require Import ZArith Lia.
From S2P Require Import Prelude AwsMath HashTable HashProbe HashMap HashOps.

Local Open Scope Z_scope.

(** ** Programs *)

Inductive map_op :=
  | OpFind (key : Z)
  | OpPut (key value : Z)
  | OpRemove (key : Z) (out : bool)
  | OpCount
  | OpClear.

Inductive map_answer :=
  | Found (el : option aws_hash_element)
  | Put (was_created : Z)
  | PutRefused
  | Removed (was_present : Z) (el : option aws_hash_element)
  | Count (n : Z)
  | Cleared.

(** A call and what its caller sees. *)
Definition run_op (acq : Z → bool) (op : map_op) : M aws_hash_table map_answer :=
  match op with
  | OpFind key =>
      r ← aws_hash_table_find key;
      match r.2 with
      | None => mret (Found None)
      | Some i => st ← deref; e ← lift (slots st !! Z.to_nat i); mret (Found (Some (element e)))
      end
  | OpPut key value =>
      r ← aws_hash_table_put acq key value;
      mret (if r.1 =? AWS_OP_SUCCESS then Put r.2 else PutRefused)
  | OpRemove key out => r ← aws_hash_table_remove key out; mret (Removed r.1.2 r.2)
  | OpCount => n ← aws_hash_table_get_entry_count; mret (Count n)
  | OpClear => aws_hash_table_clear;; mret Cleared
  end.

Fixpoint run_ops (acq : Z → bool) (ops : list map_op) : M aws_hash_table (list map_answer) :=
  match ops with
  | [] => mret []
  | op :: ops => a ← run_op acq op; rest ← run_ops acq ops; mret (a :: rest)
  end.

(** The same calls on the association list.  A [put] of a new key may be refused when
    the allocator refuses. *)
Inductive spec_op (eq : Z → Z → bool) (refuses : Prop) :
    map_op → list aws_hash_element → map_answer → list aws_hash_element → Prop :=
  | spec_find key l : spec_op eq refuses (OpFind key) l (Found (assoc_find eq key l)) l
  | spec_put key value l :
      spec_op eq refuses (OpPut key value) l
        (Put (c_bool (bool_decide (assoc_find eq key l = None)))) (assoc_put eq key value l)
  | spec_put_refused key value l :
      refuses → assoc_find eq key l = None →
      spec_op eq refuses (OpPut key value) l PutRefused l
  | spec_remove key out l :
      spec_op eq refuses (OpRemove key out) l
        (Removed (c_bool (bool_decide (assoc_find eq key l ≠ None)))
           (if out then assoc_find eq key l else None))
        (assoc_remove eq key l)
  | spec_count l : spec_op eq refuses OpCount l (Count (Z.of_nat (length l))) l
  | spec_clear l : spec_op eq refuses OpClear l Cleared [].

Inductive spec_run (eq : Z → Z → bool) (refuses : Prop) :
    list map_op → list aws_hash_element → list map_answer → list aws_hash_element → Prop :=
  | spec_run_nil l : spec_run eq refuses [] l [] l
  | spec_run_cons op ops l a l' answers l'' :
      spec_op eq refuses op l a l' → spec_run eq refuses ops l' answers l'' →
      spec_run eq refuses (op :: ops) l (a :: answers) l''.

(** How many elements a program may add. *)
Definition adds (op : map_op) : nat := match op with OpPut _ _ => 1 | _ => 0 end.
Definition ops_adds (ops : list map_op) : nat := sum_list (adds <$> ops).

(** The load of the largest table that is allocated in full. *)
Definition MAX_ELEMENTS : Z := load_of max_load_factor_95 (2 ^ 32).

Section Run.
Context (hash : Z → Z) (eq : Z → Z → bool) `{!KeyOps hash eq}.

(** The refinement relation. *)
Definition implements (t : aws_hash_table) (l : list aws_hash_element) : Prop :=
  ∃ k st, p_impl t = Some st ∧ table_ok k st ∧ has_fns hash eq st ∧ contents st ≡ₚ l.

Lemma has_fns_same st st' : has_fns hash eq st → same_fns st st' → has_fns hash eq st'.
Proof. intros [H1 H2] (F1 & F2 & _). split; congruence. Qed.

Lemma implements_distinct t l : implements t l → distinct eq l.
Proof.
  intros (k & st & _ & Hok & [_ <-] & <-). apply Hok.
Qed.

Lemma assoc_put_perm key value l l' :
  l ≡ₚ l' → assoc_put eq key value l ≡ₚ assoc_put eq key value l'.
Proof. intros H. unfold assoc_put. by rewrite (assoc_remove_perm eq key _ _ H). Qed.

Lemma assoc_remove_length key l : (length (assoc_remove eq key l) ≤ length l)%nat.
Proof. apply length_filter. Qed.

(** One call. *)
Lemma run_op_refines acq t l op :
  implements t l → Z.of_nat (length l + adds op) ≤ MAX_ELEMENTS →
  ∃ a t' l', run_op acq op t = Some (a, t') ∧ implements t' l' ∧
    spec_op eq (∃ n, acq n = false) op l a l' ∧ (length l' ≤ length l + adds op)%nat.
Proof.
  intros (k & st & Hp & Hok & Hf & Hl) Hbound. destruct t as [p log]. simpl in Hp. subst p.
  pose proof (ok_k _ _ Hok) as Hk.
  assert (Hd : distinct eq (contents st)) by (destruct Hf as [_ <-]; apply Hok).
  assert (Hfind : ∀ key, assoc_find eq key (contents st) = assoc_find eq key l)
    by (intros; by apply assoc_find_perm).
  assert (Hlen : length l = length (entries (slots st)))
    by (rewrite <- (Permutation_length Hl); apply length_fmap).
  destruct op as [key|key value|key out| |]; simpl in *.
  - destruct (find_run hash eq k st log key Hok Hf) as (p & Hr & Hcase). bstep Hr.
    rewrite Hfind in Hcase. destruct p as [i|].
    + destruct Hcase as (e & He & Hfe). hnext. rewrite He. hnext. eexists _, _, l.
      split; [done|]. split; [by exists k, st|]. split; [|lia]. rewrite <- Hfe. constructor.
    + eexists _, _, l. split; [done|]. split; [by exists k, st|]. split; [|lia].
      rewrite <- Hcase. constructor.
  - pose proof (put_run hash eq acq k st log key value Hok Hf) as Hput. rewrite Hfind in Hput.
    match type of Hput with ?P → _ => assert (HP : P) end.
    { intros Hfull. destruct (Z.eq_dec k 32) as [->|]; [|lia].
      rewrite (ok_load _ _ Hok), (ok_count _ _ Hok) in Hfull. unfold MAX_ELEMENTS in Hbound. lia. }
    specialize (Hput HP).
    pose proof (spec_put eq (∃ n, acq n = false) key value l) as Hspec.
    destruct (assoc_find eq key l) as [el|] eqn:Ef.
    + destruct Hput as (k' & st' & Hr & _ & Hok' & Hsf & Hc). bstep Hr.
      eexists _, _, (assoc_put eq key value l). split; [done|]. split.
      { exists k', st'. split; [done|]. split; [done|]. split; [by eapply has_fns_same|].
        by rewrite Hc, (assoc_put_perm key value _ _ Hl). }
      split.
      * exact Hspec.
      * simpl. pose proof (assoc_remove_length key l). lia.
    + destruct ((max_load st <? entry_count st + 1) && negb (acq (table_bytes (k + 1)))) eqn:Eref.
      * bstep Hput. eexists _, _, l. split; [done|]. split; [by exists k, st|]. split; [|lia].
        apply spec_put_refused; [|done]. apply andb_true_iff in Eref as [_ Eref].
        exists (table_bytes (k + 1)). by destruct (acq _).
      * destruct Hput as (k' & st' & Hr & _ & Hok' & Hsf & Hc). bstep Hr.
        eexists _, _, (assoc_put eq key value l). split; [done|]. split.
        { exists k', st'. split; [done|]. split; [done|]. split; [by eapply has_fns_same|].
          by rewrite Hc, (assoc_put_perm key value _ _ Hl). }
        split.
        -- exact Hspec.
        -- simpl. pose proof (assoc_remove_length key l). lia.
  - pose proof (remove_run hash eq k st log key out Hok Hf) as Hrem. rewrite Hfind in Hrem.
    pose proof (assoc_remove_length key l).
    pose proof (spec_remove eq (∃ n, acq n = false) key out l) as Hspec.
    destruct (assoc_find eq key l) as [el|] eqn:Ef.
    + destruct Hrem as (st' & Hr & Hok' & Hsf & Hc). bstep Hr.
      eexists _, _, (assoc_remove eq key l). split; [done|]. split; [|split; [|lia]].
      * exists k, st'. split; [done|]. split; [done|]. split; [by eapply has_fns_same|].
        by rewrite Hc, (assoc_remove_perm eq key _ _ Hl).
      * exact Hspec.
    + destruct Hrem as [Hr Hc]. bstep Hr.
      eexists _, _, (assoc_remove eq key l). split; [done|]. split; [|split; [|lia]].
      * exists k, st. split; [done|]. split; [done|]. split; [done|].
        by rewrite <- (assoc_remove_perm eq key _ _ Hl), Hc.
      * destruct out; exact Hspec.
  - unfold aws_hash_table_get_entry_count. rewrite M_assoc. hnext.
    eexists _, _, l. split; [done|]. split; [by exists k, st|]. split; [|lia].
    rewrite (ok_count _ _ Hok), <- Hlen. constructor.
  - destruct (clear_run k st log Hok) as (st' & Hr & Hok' & Hsf & Hc). bstep Hr.
    eexists _, _, []. split; [done|]. split; [|split; [constructor|simpl; lia]].
    exists k, st'. split; [done|]. split; [done|]. split; [by eapply has_fns_same|]. by rewrite Hc.
Qed.
End Run.

(** C26. The hash table refines an association list: for every program of find, put,
    remove, count and clear calls whose puts do not pass the load of 2^32 slots, every
    call returns (no loop fails to end, no access leaves the slots, whatever expansions
    of the table the puts cause), the answers are the answers of the list, a put is
    refused only for a new key and only by an allocator that refuses, and the table ends
    well-formed with the elements of the list.  Collisions and hash codes play no part:
    the callbacks are only assumed to be an equality and a hash consistent with it. *)
Theorem hash_table_refines_assoc hash eq `{!KeyOps hash eq} acq ops t l :
  implements hash eq t l → Z.of_nat (length l + ops_adds ops) ≤ MAX_ELEMENTS →
  ∃ answers t' l', run_ops acq ops t = Some (answers, t') ∧ implements hash eq t' l' ∧
    spec_run eq (∃ n, acq n = false) ops l answers l'.
Proof.
  revert t l. induction ops as [|op ops IH]; intros t l Hi Hb.
  { exists [], t, l. split; [done|]. split; [done|constructor]. }
  unfold ops_adds in *. cbn [fmap list_fmap sum_list] in Hb. simpl in Hb.
  destruct (run_op_refines hash eq acq t l op Hi) as (a & t1 & l1 & Hr & Hi1 & Hs1 & Hlen); [lia|].
  destruct (IH t1 l1 Hi1) as (answers & t' & l' & Hr' & Hi' & Hs'); [lia|].
  exists (a :: answers), t', l'. split; [|split; [done|by econstructor]].
  cbn [run_ops]. bstep Hr. by bstep Hr'.
Qed.

#[global] Instance ptr_keys (hash : Z → Z) : KeyOps hash aws_ptr_eq.
Proof.
  unfold aws_ptr_eq. split; intros *; rewrite ?Z.eqb_eq; congruence.
Qed.

(** A hash function that puts every key on the same slot. *)
Definition one_slot_table : option (Z * aws_hash_table) :=
  aws_hash_table_init (λ _, true) (0, 0, 0) 2 (λ _, 3) aws_ptr_eq NULL NULL
    {| p_impl := NULL; destroyed := [] |}.

Definition one_slot_state : hash_table_state :=
  {| hash_fn := λ _, 3; equals_fn := aws_ptr_eq; destroy_key_fn := NULL; destroy_value_fn := NULL;
     size := 2; entry_count := 0; max_load := 1; mask := 1; max_load_factor := max_load_factor_95;
     slots := replicate 2 zero_entry |}.

Lemma one_slot_implements :
  one_slot_table = Some (AWS_OP_SUCCESS, {| p_impl := Some one_slot_state; destroyed := [] |}) ∧
  implements (λ _, 3) aws_ptr_eq {| p_impl := Some one_slot_state; destroyed := [] |} [].
Proof.
  split; [vm_compute; reflexivity|]. exists 1, one_slot_state. split; [done|]. split; [|done].
  split; try done.
  - apply fresh_robin_hood.
  - by intros e He%elem_of_nil.
  - intros key. change (contents one_slot_state) with (@nil aws_hash_element). cbn. lia.
Qed.

Lemma hash_table_refines_assoc_witness :
  ∃ t answers t' l', one_slot_table = Some (AWS_OP_SUCCESS, t) ∧
    run_ops (λ _, true)
      [OpPut 1 10; OpPut 2 20; OpPut 3 30; OpRemove 1 true; OpFind 3; OpPut 3 31; OpCount] t =
      Some (answers, t') ∧
    answers = [Put 1; Put 1; Put 1; Removed 1 (Some {| e_key := 1; e_value := 10 |});
               Found (Some {| e_key := 3; e_value := 30 |}); Put 0; Count 2] ∧
    implements (λ _, 3) aws_ptr_eq t' l'.
Proof.
  destruct one_slot_implements as (Ht & Hi).
  destruct (hash_table_refines_assoc (λ _, 3) aws_ptr_eq (λ _, true)
    [OpPut 1 10; OpPut 2 20; OpPut 3 30; OpRemove 1 true; OpFind 3; OpPut 3 31; OpCount] _ [] Hi)
    as (answers & t' & l' & Hr & Hi' & _); [vm_compute; congruence|].
  eexists _, answers, t', l'. split; [exact Ht|]. split; [exact Hr|]. split; [|exact Hi'].
  vm_compute in Hr. injection Hr as <- <-. reflexivity.
Defined.

(** A table of more than 2^32 slots is not allocated in full: the multiplication that
    computes its memory cuts the number of slots to 32 bits and reports no overflow, so
    that from 2^33 slots on the block holds only 2^32 of them, while the size and the
    mask of the table, which the probing loops use, say otherwise. *)
Theorem large_table_truncated (acq : Z → bool) n junk hash eq dk dv t :
  2 ^ 32 < n ≤ 2 ^ 58 →
  ∃ rv t', aws_hash_table_init acq junk n hash eq dk dv t = Some (rv, t') ∧
    match p_impl t' with
    | None => rv = AWS_OP_ERR ∧ acq (table_bytes 32) = false
    | Some st => rv = AWS_OP_SUCCESS ∧ acq (table_bytes 32) = true ∧
        Z.of_nat (length (slots st)) = 2 ^ 32 ∧ 2 ^ 33 ≤ size st ∧ mask st = size st - 1
    end.
Proof.
  intros Hn. destruct junk as [[js jl] jm]. unfold aws_hash_table_init.
  match goal with |- context [s_update_template_size ?x n] => set (template := x) end.
  destruct (update_template_run template n) as (j & Hj & Hnj & _ & Hu); [lia|done|].
  assert (Hj33 : 33 ≤ j).
  { destruct (Z_le_dec 33 j); [done|]. assert (2 ^ j ≤ 2 ^ 32) by (apply Z.pow_le_mono_r; lia). lia. }
  assert (Hp : 2 ^ 33 ≤ 2 ^ j) by (apply Z.pow_le_mono_r; lia).
  assert (Hp' : 2 ^ j ≤ 2 ^ 58) by (apply Z.pow_le_mono_r; lia).
  rewrite Hu. unfold s_alloc_state. rewrite mul_size_checked_run. simpl size.
  rewrite (u64_small (2 ^ j - 1)) by (change W64 with (64 * 2 ^ 58); lia).
  assert (E : u32 (2 ^ j - 1) = W32 - 1).
  { unfold u32. symmetry. apply (Z.mod_unique_pos _ _ (2 ^ (j - 32) - 1)); [done|].
    change W32 with (2 ^ 32). replace j with (32 + (j - 32)) at 1 by lia.
    rewrite Z.pow_add_r by lia. lia. }
  rewrite E. change (u32 sizeof_hash_table_entry) with sizeof_hash_table_entry.
  change (u64 ((W32 - 1) * sizeof_hash_table_entry + sizeof_hash_table_state))
    with (table_bytes 32).
  rewrite Z.div_mul by done. change (1 =? 0) with false. cbv iota.
  change (table_bytes 32 <? (W32 - 1) * sizeof_hash_table_entry) with false. cbv iota.
  assert (Hcount : Z.of_nat (Z.to_nat (W32 - 1 + 1)) = 2 ^ 32) by (rewrite Z2Nat.id by lia; done).
  revert Hcount. generalize (Z.to_nat (W32 - 1 + 1)). intros slot_count Hcount.
  destruct (acq (table_bytes 32)); eexists _, _; (split; [reflexivity|]); [|done].
  cbn [p_impl negb slots set_slots]. rewrite length_replicate. done.
Qed.

Lemma large_table_truncated_witness :
  ∃ st, Z.of_nat (length (slots st)) = 2 ^ 32 ∧ 2 ^ 33 ≤ size st ∧ mask st = size st - 1.
Proof.
  destruct (large_table_truncated (λ _, true) 4294967297 (0, 0, 0) (λ x, x) aws_ptr_eq NULL NULL
    {| p_impl := NULL; destroyed := [] |}) as (rv & t' & _ & H); [easy|].
  destruct (p_impl t') as [st|].
  - exists st. exact (proj2 (proj2 H)).
  - discriminate (proj2 H).
Defined.

(** On a full table the displacement loop of [s_emplace_item] never ends: no fuel is
    enough. *)
Lemma emplace_full_diverges k (Hk : 1 ≤ k ≤ 62) fuel l e q ip :
  ring_length k l → occ e → (∀ i, occ (slot_at k l i)) →
  emplace_loop fuel (2 ^ k - 1) l e q ip = None.
Proof.
  revert l e q ip. induction fuel as [|fuel IH]; intros l e q ip Hl He Hfull; [done|].
  cbn [emplace_loop]. rewrite (proj2 (Z.eqb_neq (hash_code e) 0)) by done.
  rewrite probe_slot_mod by done. rewrite (lookup_slot k Hk l _ Hl). simpl.
  destruct (_ || _); [|by apply IH].
  apply (IH (ring_set k (hash_code e + q) e l)); [by apply ring_set_length|done|].
  intros i. rewrite slot_at_set by done. by destruct (decide _).
Qed.

(** The probing loops end.  On slots and a mask that fit each other, whatever the slots
    hold, a search returns within one turn of the table, at a slot of the table.  An
    insertion into a well-formed table returns within one turn as long as a slot is empty,
    and on a full table its displacement loop never ends, whatever the entry: the load
    limit, one slot below the size at least, is what the loop needs. *)
Theorem probing_terminates k st :
  1 ≤ k ≤ 32 → ring_length k (slots st) → mask st = 2 ^ k - 1 → size st = 2 ^ k →
  (∀ h key, ∃ rv i q, s_find_entry st h key = Some (rv, i, q) ∧ 0 ≤ i < size st) ∧
  (∀ e, occ e →
    ((∀ i, occ (slot_at k (slots st) i)) → ∀ fuel q, emplace_loop fuel (mask st) (slots st) e q NULL = None) ∧
    (∀ z, robin_hood k (slots st) → ¬ occ (slot_at k (slots st) z) →
       ∃ st' p, s_emplace_item st e 0 = Some (st', Some p))) ∧
  load_of max_load_factor_95 (size st) < size st.
Proof.
  intros Hk Hl Hm Hs. assert (Hk62 : 1 ≤ k ≤ 62) by lia. split; [|split].
  - intros h key.
    destruct (s_find_entry_outcome k Hk62 st h key Hl Hm Hs) as ([[rv i] q] & Hr & q' & _ & E & _).
    exists rv, i, q. split; [done|]. simpl in E. rewrite E, Hs. by apply mod_k_range.
  - intros e He. split.
    + intros Hfull fuel q. rewrite Hm. by apply emplace_full_diverges.
    + intros z HR Hz. pose proof (pow_k_bounds k Hk62). pose proof (mod_k_range k Hk62 (z - (hash_code e + 0))).
      destruct (emplace_loop_outcome k Hk62 (S (Z.to_nat (size st))) (slots st) e 0 z NULL Hl HR Hz He)
        as ([l p] & Hr & _ & _ & _ & _ & j & Hj & _); [split; lia|lia|].
      cbn [snd] in Hj. exists (set_slots l st), (j mod 2 ^ k).
      unfold s_emplace_item. rewrite Hm, Hr. simpl. by rewrite Hj.
  - rewrite Hs. apply (load_of_bounds k). lia.
Qed.

Lemma probing_terminates_witness :
  (∃ rv i q, s_find_entry one_slot_state 3 7 = Some (rv, i, q) ∧ 0 ≤ i < 2) ∧
  load_of max_load_factor_95 2 < 2.
Proof.
  destruct (probing_terminates 1 one_slot_state) as (H1 & _ & H3); [lia|reflexivity..|].
  split; [exact (H1 3 7)|exact H3].
Defined.
