(* ===== verification/HashIter.v ===== *)
(** Iteration over the hash table: [aws_hash_iter_*], [aws_hash_table_foreach] and
    [aws_hash_table_eq].

    An iteration has still to visit the entries of its window, the slots from the
    current one up to its limit.  Deleting the current entry shifts the entries behind
    it back, possibly around the end of the table; the window then holds the same
    entries less the deleted one, in the same order. *)
From stdpp Require Import base numbers list option.
From Stdlib Require Import ZArith Lia.
From S2P Require Import Prelude AwsMath HashTable HashProbe HashMap HashOps HashRun.

Local Open Scope Z_scope.

Section Window.
Context (k : Z) (Hk : 1 ≤ k ≤ 62).

Definition window (l : list hash_table_entry) (a b : Z) : list hash_table_entry :=
  filter occ (slot_at k l <$> seqZ a (b - a)).

Lemma window_nil l a b : b ≤ a → window l a b = [].
Proof. intros H. unfold window. by rewrite seqZ_nil by lia. Qed.

Lemma window_cons l a b :
  a < b → window l a b = filter occ [slot_at k l a] ++ window l (a + 1) b.
Proof.
  intros H. unfold window. rewrite seqZ_cons by lia. rewrite fmap_cons.
  change (slot_at k l a :: ?x) with ([slot_at k l a] ++ x). rewrite list.filter_app.
  do 2 f_equal. replace (Z.succ a) with (a + 1) by lia. do 2 f_equal. lia.
Qed.

Lemma window_app l a b c :
  a ≤ b ≤ c → window l a c = window l a b ++ window l b c.
Proof.
  intros H. unfold window. replace (c - a) with ((b - a) + (c - b)) by lia.
  rewrite seqZ_app by lia. rewrite fmap_app, list.filter_app. do 3 f_equal. f_equal. lia.
Qed.

Lemma window_shift l l' a b d :
  (∀ i, a ≤ i < b → slot_at k l' i = slot_at k l (i + d)) →
  window l' a b = window l (a + d) (b + d).
Proof.
  intros H. unfold window. replace (b + d - (a + d)) with (b - a) by lia.
  rewrite (Z.add_comm a d), <- fmap_add_seqZ, <- list_fmap_compose. f_equal.
  apply list_fmap_ext. intros n i Hi. apply lookup_seqZ in Hi as [-> Hn]. simpl.
  rewrite H by lia. f_equal. lia.
Qed.

Lemma entries_window l : ring_length k l → entries l = window l 0 (2 ^ k).
Proof.
  intros Hl. unfold entries, window. f_equal. rewrite Z.sub_0_r. apply list_eq. intros n.
  rewrite list_lookup_fmap. unfold ring_length in Hl.
  destruct (decide (n < length l)%nat) as [Hn|Hn].
  - assert (Hs : seqZ 0 (2 ^ k) !! n = Some (Z.of_nat n)) by (apply lookup_seqZ; lia).
    rewrite Hs. simpl. rewrite <- (lookup_slot k Hk l (Z.of_nat n) Hl).
    by rewrite Z.mod_small, Nat2Z.id by lia.
  - rewrite !lookup_ge_None_2; [done| |lia]. rewrite length_seqZ. lia.
Qed.

(** What a deletion at [i] does to the window. *)
Lemma window_removed l l' i s limit :
  removed k l i s l' → 0 ≤ s < 2 ^ k - 1 → 0 ≤ i < limit → limit ≤ 2 ^ k →
  window l (i + 1) limit = window l' i (if limit <=? i + s then limit - 1 else limit).
Proof.
  intros (Hl & _ & _ & Hsh) Hs Hi Hlim.
  assert (Hpos : ∀ j, i ≤ j < limit → slot_at k l' j =
    if j - i <? s then slot_at k l (j + 1) else if j - i =? s then zero_entry else slot_at k l j).
  { intros j Hj. specialize (Hsh (j - i) ltac:(lia)).
    by replace (i + (j - i)) with j in Hsh by lia. }
  destruct (Z.leb_spec limit (i + s)) as [Hw|Hw].
  - rewrite (window_shift l l' i (limit - 1) 1); [f_equal; lia|].
    intros j Hj. rewrite Hpos by lia. by rewrite (proj2 (Z.ltb_lt _ _)) by lia.
  - rewrite (window_app l' i (i + s) limit), (window_cons l' (i + s) limit) by lia.
    rewrite (window_app l (i + 1) (i + s + 1) limit) by lia.
    rewrite (window_shift l l' i (i + s) 1).
    2: { intros j Hj. rewrite Hpos by lia. by rewrite (proj2 (Z.ltb_lt _ _)) by lia. }
    f_equal. rewrite Hpos by lia.
    replace (i + s - i) with s by lia. rewrite Z.ltb_irrefl, Z.eqb_refl.
    rewrite filter_cons_False by (intros Ho; by apply Ho). rewrite filter_nil. simpl.
    rewrite (window_shift l l' (i + s + 1) limit 0); [by rewrite !Z.add_0_r|].
    intros j Hj. rewrite Hpos, Z.add_0_r by lia.
    by rewrite (proj2 (Z.ltb_ge _ _)), (proj2 (Z.eqb_neq _ _)) by lia.
Qed.

Lemma lookup_in_range l i : ring_length k l → 0 ≤ i < 2 ^ k → l !! Z.to_nat i = Some (slot_at k l i).
Proof. intros Hl Hi. rewrite <- (lookup_slot k Hk l i Hl). by rewrite Z.mod_small. Qed.

Lemma next_loop_run l a b :
  ring_length k l → 0 ≤ a → b ≤ 2 ^ k →
  match window l a b with
  | [] => next_loop (Z.to_nat (b - a)) a l = Some None
  | e :: w => ∃ i, next_loop (Z.to_nat (b - a)) a l = Some (Some (element e, i)) ∧
      a ≤ i < b ∧ slot_at k l i = e ∧ occ e ∧ window l (i + 1) b = w
  end.
Proof.
  intros Hl Ha Hb. remember (Z.to_nat (b - a)) as n eqn:En. revert a Ha En.
  induction n as [|n IH]; intros a Ha En.
  { rewrite window_nil by lia. done. }
  rewrite window_cons by lia. cbn [next_loop].
  rewrite (lookup_in_range l a Hl) by lia. simpl.
  rewrite filter_cons, filter_nil.
  destruct (Z.eqb_spec (hash_code (slot_at k l a)) 0) as [H0|H0].
  - rewrite decide_False by (intros H; by apply H). simpl. specialize (IH (a + 1) ltac:(lia) ltac:(lia)).
    destruct (window l (a + 1) b) as [|e w]; [done|].
    destruct IH as (i & Hr & Hi & Hrest). exists i. split; [done|]. split; [lia|done].
  - rewrite decide_True by done. simpl. exists a. split; [done|]. split; [lia|done].
Qed.
End Window.

(** ** The iterator *)

(** The iterator stands before the entries [w]. *)
Definition iter_at (k : Z) (st : hash_table_state) (iter : aws_hash_iter)
    (w : list hash_table_entry) : Prop :=
  0 ≤ it_limit iter ≤ 2 ^ k ∧
  match w with
  | [] => it_slot iter = it_limit iter
  | e :: w' => 0 ≤ it_slot iter < it_limit iter ∧ slot_at k (slots st) (it_slot iter) = e ∧
      occ e ∧ it_element iter = element e ∧
      window k (slots st) (it_slot iter + 1) (it_limit iter) = w'
  end.

Lemma get_next_run k st limit start :
  table_ok k st → 0 ≤ limit ≤ 2 ^ k → 0 ≤ start →
  ∃ iter, s_get_next_element st limit start = Some iter ∧ it_limit iter = limit ∧
    iter_at k st iter (window k (slots st) start limit).
Proof.
  intros Hok Hl Hs. pose proof (ok_k _ _ Hok).
  pose proof (next_loop_run k ltac:(lia) (slots st) start limit (ok_len _ _ Hok) Hs ltac:(lia)) as Hn.
  unfold s_get_next_element. destruct (window k (slots st) start limit) as [|e w].
  - rewrite Hn. simpl. eexists. split; [done|]. split; [done|]. done.
  - destruct Hn as (i & Hr & Hi & He & Ho & Hw). rewrite Hr. simpl.
    eexists. split; [done|]. split; [done|]. split; [done|]. simpl. split; [lia|]. done.
Qed.

Lemma iter_at_done k st iter w :
  iter_at k st iter w → aws_hash_iter_done iter = bool_decide (w = []).
Proof.
  intros [_ Hw]. unfold aws_hash_iter_done. destruct w as [|e w].
  - rewrite Hw, Z.eqb_refl. by rewrite bool_decide_true.
  - destruct Hw as (Hi & _). rewrite bool_decide_false by done. apply Z.eqb_neq. lia.
Qed.

Lemma small_u64 k x : 1 ≤ k ≤ 32 → 0 ≤ x ≤ 2 ^ k → u64 x = x.
Proof.
  intros Hk Hx. apply u64_small. assert (2 ^ k ≤ 2 ^ 32) by (apply Z.pow_le_mono_r; lia).
  change W64 with (2 ^ 32 * 2 ^ 32). lia.
Qed.

Lemma iter_next_run k st log iter e w :
  table_ok k st → iter_at k st iter (e :: w) →
  ∃ iter', aws_hash_iter_next iter {| p_impl := Some st; destroyed := log |} =
             Some (iter', {| p_impl := Some st; destroyed := log |}) ∧ iter_at k st iter' w.
Proof.
  intros Hok (Hl & Hi & _ & _ & _ & Hw). pose proof (ok_k _ _ Hok).
  destruct (get_next_run k st (it_limit iter) (it_slot iter + 1) Hok ltac:(lia) ltac:(lia))
    as (iter' & Hr & _ & Hat).
  unfold aws_hash_iter_next. hnext. rewrite (small_u64 k) by lia. rewrite Hr.
  exists iter'. split; [done|]. by rewrite Hw in Hat.
Qed.

(** Deleting the current entry and going on: the iterator then stands before the rest. *)
Lemma iter_delete_run k st log iter e w :
  table_ok k st → iter_at k st iter (e :: w) →
  ∃ st' iter1, aws_hash_iter_delete iter false {| p_impl := Some st; destroyed := log |} =
      Some (iter1, {| p_impl := Some st'; destroyed := log |}) ∧
    table_ok k st' ∧ same_fns st st' ∧ contents st ≡ₚ element e :: contents st' ∧
    ∃ iter', aws_hash_iter_next iter1 {| p_impl := Some st'; destroyed := log |} =
        Some (iter', {| p_impl := Some st'; destroyed := log |}) ∧ iter_at k st' iter' w.
Proof.
  intros Hok (Hl & Hi & He & Ho & _ & Hw). pose proof (ok_k _ _ Hok) as Hk.
  set (i := it_slot iter) in *. set (L := it_limit iter) in *. rewrite <- He in Ho.
  assert (Hk62 : 1 ≤ k ≤ 62) by lia.
  destruct (s_remove_entry_run k st i Hok Ho)
    as (st' & s & Hr & Hs & Hok' & Hsf & _ & Hrem & Hc).
  rewrite (Z.mod_small i) in Hr by lia.
  unfold aws_hash_iter_delete. hnext. fold i.
  rewrite (lookup_in_range k Hk62 _ i (ok_len _ _ Hok)) by lia.
  rewrite bool_decide_true by done. rewrite Hr. hnext. fold L.
  assert (Hlim : (if ((i + s) mod 2 ^ k <? i) || (L <=? (i + s) mod 2 ^ k)
      then u64 (L - 1) else L) = if L <=? i + s then L - 1 else L).
  { rewrite (small_u64 k) by lia.
    destruct (Z_lt_dec (i + s) (2 ^ k)) as [Hlt|Hge].
    - rewrite (Z.mod_small (i + s)) by lia. by rewrite (proj2 (Z.ltb_ge (i + s) i)) by lia.
    - replace ((i + s) mod 2 ^ k) with (i + s - 2 ^ k)
        by (apply (Z.mod_unique_pos _ _ 1); lia).
      rewrite (proj2 (Z.ltb_lt _ i)) by lia. simpl. by rewrite (proj2 (Z.leb_le L _)) by lia. }
  rewrite Hlim. eexists st', _. split; [reflexivity|]. split; [done|]. split; [done|].
  split; [by rewrite He in Hc|]. unfold aws_hash_iter_next. hnext. cbn [it_slot it_limit].
  rewrite u64_add_idemp_l. replace (i - 1 + 1) with i by lia. rewrite (small_u64 k) by lia.
  destruct (get_next_run k st' (if L <=? i + s then L - 1 else L) i Hok')
    as (iter' & Hr' & _ & Hat); [destruct (Z.leb_spec L (i + s)); lia|lia|].
  exists iter'. rewrite Hr'. split; [done|].
  rewrite <- (window_removed k Hk62 _ _ _ _ _ Hrem Hs Hi (proj2 Hl)), Hw in Hat. done.
Qed.

(** ** [aws_hash_table_foreach] *)

Section Visit.
Context {C : Type} (callback : C → aws_hash_element → Z * C * aws_hash_element).

(** The callback called on the elements in turn until it does not ask to continue: its
    last context, and the elements it has deleted. *)
Fixpoint visit (ctx : C) (els : list aws_hash_element) : C * list aws_hash_element :=
  match els with
  | [] => (ctx, [])
  | el :: els =>
      let '(rv, ctx', _) := callback ctx el in
      let deleted := if Z.testbit rv 1 then [el] else [] in
      if Z.testbit rv 0 then let r := visit ctx' els in (r.1, deleted ++ r.2)
      else (ctx', deleted)
  end.

Lemma land_bit rv n : 0 ≤ n → (Z.land rv (2 ^ n) =? 0) = negb (Z.testbit rv n).
Proof.
  intros Hn. rewrite Z.land_comm. destruct (Z.testbit rv n) eqn:E; simpl.
  - apply Z.eqb_neq. intros H. apply (f_equal (λ x, Z.testbit x n)) in H.
    rewrite Z.land_spec, Z.pow2_bits_true, E, Z.bits_0 in H by done. done.
  - apply Z.eqb_eq, Z.bits_inj'. intros m Hm. rewrite Z.land_spec, Z.bits_0.
    destruct (Z.eq_dec m n) as [->|]; [by rewrite E, andb_false_r|].
    by rewrite Z.pow2_bits_false.
Qed.

Lemma foreach_loop_run fuel k st log iter ctx w :
  table_ok k st → iter_at k st iter w → (length w < fuel)%nat →
  ∃ st', foreach_loop callback fuel iter ctx {| p_impl := Some st; destroyed := log |} =
      Some ((visit ctx (element <$> w)).1, {| p_impl := Some st'; destroyed := log |}) ∧
    table_ok k st' ∧ same_fns st st' ∧
    contents st ≡ₚ (visit ctx (element <$> w)).2 ++ contents st'.
Proof.
  revert st iter ctx w. induction fuel as [|fuel IH]; intros st iter ctx w Hok Hat Hf; [lia|].
  cbn [foreach_loop]. rewrite (iter_at_done _ _ _ _ Hat). destruct w as [|e w].
  { rewrite bool_decide_true by done. by exists st. }
  rewrite bool_decide_false by done. cbn [fmap list_fmap visit]. simpl in Hf.
  assert (Hel : it_element iter = element e) by apply Hat. rewrite Hel.
  destruct (callback ctx (element e)) as [[rv ctx'] elem].
  set (iter0 := {| it_element := elem; it_slot := it_slot iter; it_limit := it_limit iter |}).
  change AWS_COMMON_HASH_TABLE_ITER_DELETE with (2 ^ 1).
  change AWS_COMMON_HASH_TABLE_ITER_CONTINUE with (2 ^ 0).
  rewrite !land_bit, negb_involutive by done. destruct (Z.testbit rv 1) eqn:Edel.
  - destruct (iter_delete_run k st log iter e w Hok Hat)
      as (st1 & iter1 & Hdel & Hok1 & Hsf & Hc & iter2 & Hnext & Hat2).
    assert (Hdel0 : aws_hash_iter_delete iter0 false {| p_impl := Some st; destroyed := log |} =
      Some ({| it_element := elem; it_slot := it_slot iter1; it_limit := it_limit iter1 |},
            {| p_impl := Some st1; destroyed := log |})).
    { revert Hdel. unfold aws_hash_iter_delete. hnext. cbn [it_slot it_limit iter0].
      destruct (bool_decide _); [|done].
      destruct (s_remove_entry st (it_slot iter)) as [[st1' last]|]; [|done]. hnext.
      intros Hi. injection Hi as <- <-. done. }
    bstep Hdel0. destruct (Z.testbit rv 0); cbn [negb fst snd]; cbv iota.
    + assert (Hnext0 : aws_hash_iter_next
        {| it_element := elem; it_slot := it_slot iter1; it_limit := it_limit iter1 |}
        {| p_impl := Some st1; destroyed := log |} =
        Some (iter2, {| p_impl := Some st1; destroyed := log |})) by exact Hnext.
      bstep Hnext0. destruct (IH st1 iter2 ctx' w Hok1 Hat2) as (st' & Hr & Hok' & Hsf' & Hc');
        [lia|].
      exists st'. split; [exact Hr|]. split; [done|]. split.
      { destruct Hsf as (?&?&?&?), Hsf' as (?&?&?&?). repeat split; congruence. }
      cbn [snd app]. by rewrite Hc, Hc'.
    + exists st1. split; [done|]. split; [done|]. split; [done|]. exact Hc.
  - hnext. destruct (Z.testbit rv 0); cbn [negb fst snd]; cbv iota.
      destruct (iter_next_run k st log iter e w Hok Hat) as (iter2 & Hnext & Hat2).
      assert (Hnext0 : aws_hash_iter_next iter0 {| p_impl := Some st; destroyed := log |} =
        Some (iter2, {| p_impl := Some st; destroyed := log |})) by exact Hnext.
      bstep Hnext0. destruct (IH st iter2 ctx' w Hok Hat2) as (st' & Hr & Hrest); [lia|].
      exists st'. split; [exact Hr|exact Hrest].
    + by exists st.
Qed.
End Visit.

Lemma iter_begin_run k st log :
  table_ok k st →
  ∃ iter, aws_hash_iter_begin {| p_impl := Some st; destroyed := log |} =
      Some (iter, {| p_impl := Some st; destroyed := log |}) ∧
    iter_at k st iter (entries (slots st)).
Proof.
  intros Hok. pose proof (ok_k _ _ Hok) as Hk. pose proof (pow_k_bounds k ltac:(lia)).
  unfold aws_hash_iter_begin. hnext. rewrite (ok_size _ _ Hok).
  destruct (get_next_run k st (2 ^ k) 0 Hok ltac:(lia) ltac:(lia)) as (iter & Hr & _ & Hat).
  exists iter. rewrite Hr. split; [done|].
  by rewrite (entries_window k ltac:(lia) _ (ok_len _ _ Hok)).
Qed.

(** [aws_hash_table_foreach] calls the callback on every element of the table exactly
    once, in the order of the slots, whatever elements the callback deletes on the way
    (deletions shift entries back over the current slot and around the end of the table),
    until the callback does not ask to continue; exactly the elements the callback asked
    to delete are gone afterwards, the others are as they were, and no destructor runs.
    The loop ends.  What the callback stores in the element it is given is lost. *)
Theorem foreach_visits_once {C} (callback : C → aws_hash_element → Z * C * aws_hash_element)
    k st log ctx :
  table_ok k st →
  ∃ st', aws_hash_table_foreach callback ctx {| p_impl := Some st; destroyed := log |} =
      Some ((AWS_OP_SUCCESS, (visit callback ctx (contents st)).1),
            {| p_impl := Some st'; destroyed := log |}) ∧
    table_ok k st' ∧ same_fns st st' ∧
    contents st ≡ₚ (visit callback ctx (contents st)).2 ++ contents st'.
Proof.
  intros Hok. destruct (iter_begin_run k st log Hok) as (iter & Hb & Hat).
  destruct (foreach_loop_run callback (S (Z.to_nat (size st))) k st log iter ctx _ Hok Hat)
    as (st' & Hr & Hrest).
  { pose proof (table_room k st Hok). rewrite (ok_size _ _ Hok). lia. }
  exists st'. split; [|exact Hrest].
  unfold aws_hash_table_foreach. rewrite M_deref. bstep Hb. by bstep Hr.
Qed.

(** Three keys on the last of four slots: the entries wrap around the end. *)
Definition wrapped_state : hash_table_state :=
  {| hash_fn := λ _, 3; equals_fn := aws_ptr_eq; destroy_key_fn := NULL; destroy_value_fn := NULL;
     size := 4; entry_count := 3; max_load := 3; mask := 3; max_load_factor := max_load_factor_95;
     slots := [{| element := {| e_key := 2; e_value := 20 |}; hash_code := 3 |};
               {| element := {| e_key := 3; e_value := 30 |}; hash_code := 3 |};
               zero_entry;
               {| element := {| e_key := 1; e_value := 10 |}; hash_code := 3 |}] |}.

Lemma wrapped_ok : table_ok 2 wrapped_state.
Proof.
  destruct one_slot_implements as [_ Hi].
  destruct (run_op_refines _ _ (λ _, true) _ _ (OpPut 1 10) Hi) as (a1 & t1 & l1 & R1 & I1 & S1 & L1);
    [by vm_compute|].
  assert (H1 : Z.of_nat (length l1 + 1) ≤ MAX_ELEMENTS)
    by (simpl in L1; change MAX_ELEMENTS with 4080218931; lia).
  destruct (run_op_refines _ _ (λ _, true) _ _ (OpPut 2 20) I1 H1) as (a2 & t2 & l2 & R2 & I2 & S2 & L2).
  assert (H2 : Z.of_nat (length l2 + 1) ≤ MAX_ELEMENTS)
    by (simpl in L1, L2; change MAX_ELEMENTS with 4080218931; lia).
  destruct (run_op_refines _ _ (λ _, true) _ _ (OpPut 3 30) I2 H2) as (a3 & t3 & l3 & R3 & I3 & S3 & L3).
  vm_compute in R1. injection R1 as <- <-. vm_compute in R2. injection R2 as <- <-.
  vm_compute in R3. injection R3 as <- <-.
  destruct I3 as (k & st & E & Hok & _). injection E as <-.
  assert (k = 2) as ->; [|exact Hok].
  pose proof (ok_k _ _ Hok). pose proof (ok_size _ _ Hok) as Hs. simpl in Hs.
  apply (Z.pow_inj_r 2); lia.
Qed.

(** Deletes the odd keys, counts the calls, and writes to the element it is given. *)
Definition drop_odd (n : Z) (el : aws_hash_element) : Z * Z * aws_hash_element :=
  (if Z.odd (e_key el) then 3 else 1, n + 1, {| e_key := e_key el; e_value := 99 |}).

Lemma foreach_visits_once_witness :
  ∃ st', aws_hash_table_foreach drop_odd 0 {| p_impl := Some wrapped_state; destroyed := [] |} =
      Some ((AWS_OP_SUCCESS, 3), {| p_impl := Some st'; destroyed := [] |}) ∧
    table_ok 2 st' ∧ contents wrapped_state ≡ₚ
      [{| e_key := 3; e_value := 30 |}; {| e_key := 1; e_value := 10 |}] ++ contents st'.
Proof.
  destruct (foreach_visits_once drop_odd 2 wrapped_state [] 0 wrapped_ok)
    as (st' & Hr & Hok & _ & Hc).
  exists st'. split; [exact Hr|]. split; [exact Hok|exact Hc].
Defined.

(** ** [aws_hash_table_eq] *)

Section Eq.
Context (hash : Z → Z) (eq : Z → Z → bool) `{!KeyOps hash eq}.
Context (value_eq : Z → Z → bool).

(** The element has a partner of equal key and value in [l]. *)
Definition has_partner (l : list aws_hash_element) (el : aws_hash_element) : bool :=
  match assoc_find eq (e_key el) l with
  | Some el' => value_eq (e_value el) (e_value el')
  | None => false
  end.

Lemma eq_loop_run fuel ka kb sta stb loga logb iter w :
  table_ok ka sta → table_ok kb stb → has_fns hash eq stb → iter_at ka sta iter w →
  (length w < fuel)%nat →
  eq_loop fuel {| p_impl := Some sta; destroyed := loga |}
    {| p_impl := Some stb; destroyed := logb |} value_eq iter =
    Some (forallb (has_partner (contents stb)) (element <$> w)).
Proof.
  intros Hoka Hokb Hf. revert iter w. induction fuel as [|fuel IH]; intros iter w Hat Hlt; [lia|].
  cbn [eq_loop]. rewrite (iter_at_done _ _ _ _ Hat). destruct w as [|e w].
  { by rewrite bool_decide_true. }
  rewrite bool_decide_false by done. cbn [fmap list_fmap forallb].
  assert (Hel : it_element iter = element e) by apply Hat. rewrite Hel.
  destruct (find_run hash eq kb stb logb (e_key (element e)) Hokb Hf) as (p & Hfind & Hcase).
  rewrite Hfind. simpl. unfold has_partner at 1. destruct p as [i|].
  - destruct Hcase as (e' & He' & Ha). rewrite He', Ha. simpl.
    destruct (value_eq _ _); simpl; [|done].
    destruct (iter_next_run ka sta loga iter e w Hoka Hat) as (iter' & Hn & Hat').
    rewrite Hn. simpl. apply IH; [done|simpl in Hlt; lia].
  - by rewrite Hcase.
Qed.
End Eq.


