(* ===== verification/TnMap.v ===== *)
(** The map of the program: src/map.c, a hash table keyed by pointers.

    [tn_map_setup] never leaves a usable map behind (see [tn_map_setup_fails]); the other
    operations are correct on a map whose table is set up, and refine a finite map. *)
From stdpp Require Import base numbers list option gmap.
From Stdlib Require Import ZArith Lia.
From S2P Require Import Prelude AwsMath HashTable HashProbe HashMap HashOps HashRun.

Local Open Scope Z_scope.

(** ** Data *)

(** [priv] points to the one block the map allocates, a [struct aws_hash_table]. *)
Record tn_map_t := { priv : ptr unit; capacity : Z }.

(** The map, the block ([None] when it is not allocated), and the table states nothing
    points to any more. *)
Record map_world := { map : tn_map_t; block : ptr aws_hash_table; leaked : list hash_table_state }.

Definition sizeof_aws_hash_table : Z := 8.

Definition set_map (m : tn_map_t) (w : map_world) : map_world :=
  {| map := m; block := block w; leaked := leaked w |}.

(** ** Operations *)

Definition tn_map_key_hash_fn (key : Z) : Z := u64 key.
Definition tn_map_key_cmp_fn (a b : Z) : bool := a =? b.

(** [TN_MEM_RELEASE] of the block; its table state is lost when it has one. *)
Definition release_block : M map_world unit :=
  modify (λ w, {| map := map w; block := NULL;
                  leaked := leaked w ++ match block w ≫= p_impl with
                                        | Some st => [st] | None => [] end |}).

(** A call on the block [map->priv] points to. *)
Definition on_priv {A} (m : M aws_hash_table A) : M map_world A := λ w,
  match priv (map w), block w with
  | Some _, Some t =>
      match m t with
      | Some (a, t') => Some (a, {| map := map w; block := Some t'; leaked := leaked w |})
      | None => None
      end
  | _, _ => None
  end.

(** [acq sz] is the allocator's answer for a block of [sz] bytes, [junk] what the stack of
    [aws_hash_table_init] holds.  The guard is [TN_GUARD_NULL_CLEANUP] on a call that
    returns 0 when it succeeds, and there is no return before the label. *)
Definition tn_map_setup (acq : Z → bool) (junk : Z * Z * Z) (cap : Z) : M map_world Z :=
  modify (set_map {| priv := NULL; capacity := cap |});;
  if negb (acq sizeof_aws_hash_table) then mret TN_ERROR
  else
    let cleanup : M map_world Z := release_block;; mret TN_ERROR in
    modify (λ w, {| map := map w; block := Some {| p_impl := NULL; destroyed := [] |};
                    leaked := leaked w |});;
    w ← get;
    r ← lift (block w ≫= λ t, aws_hash_table_init acq junk cap
                tn_map_key_hash_fn tn_map_key_cmp_fn NULL NULL t);
    modify (λ w, {| map := map w; block := Some r.2; leaked := leaked w |});;
    if r.1 =? 0 then cleanup
    else
      modify (λ w, set_map {| priv := Some tt; capacity := capacity (map w) |} w);;
      cleanup.

Definition tn_map_cleanup : M map_world unit :=
  on_priv aws_hash_table_clean_up;;
  release_block.

(** The code and [*out_value]. *)
Definition tn_map_get (key : Z) : M map_world (Z * Z) :=
  w ← get;
  TN_ASSERT (bool_decide (is_Some (priv (map w))));;
  r ← on_priv (aws_hash_table_find key);
  let '(rv, elem) := r in
  if negb (rv =? 0) then mret (TN_ERROR, 0)
  else
    match elem with
    | None => mret (TN_ERROR, 0)
    | Some i =>
        e ← on_priv (st ← deref; lift (slots st !! Z.to_nat i));
        mret (TN_SUCCESS, e_value (element e))
    end.

Definition tn_map_set (acq : Z → bool) (key value : Z) : M map_world Z :=
  w ← get;
  TN_ASSERT (bool_decide (is_Some (priv (map w))));;
  TN_ASSERT (negb (value =? 0));;
  r ← on_priv (aws_hash_table_put acq key value);
  let '(rv, created) := r in
  if negb (rv =? 0) then mret TN_ERROR
  else if created =? 0 then mret TN_ERROR
  else mret TN_SUCCESS.

Definition tn_map_remove (key : Z) : M map_world Z :=
  w ← get;
  TN_ASSERT (bool_decide (is_Some (priv (map w))));;
  r ← on_priv (aws_hash_table_remove key false);
  let '(rv, removed, _) := r in
  if negb (rv =? 0) then mret TN_ERROR
  else if removed =? 0 then mret TN_ERROR
  else mret TN_SUCCESS.

Definition tn_map_clear : M map_world unit :=
  w ← get;
  TN_ASSERT (bool_decide (is_Some (priv (map w))));;
  on_priv aws_hash_table_clear.

(** ** The setup *)

Lemma init_total acq junk n hash eq dk dv t :
  ∃ rv p, aws_hash_table_init acq junk n hash eq dk dv t =
    Some (rv, {| p_impl := p; destroyed := destroyed t |}) ∧
    (rv = AWS_OP_SUCCESS ∧ is_Some p ∨ rv = AWS_OP_ERR ∧ p = NULL).
Proof.
  unfold aws_hash_table_init. destruct junk as [[js jl] jm].
  destruct (s_update_template_size _ n) as [c template].
  destruct (s_alloc_state acq template); eexists _, _; split; [done|by left|done|by right].
Qed.

(** [tn_map_setup] always returns [TN_ERROR], and the map can never be used.  When the
    table is set up, the inverted guard jumps to the cleanup: the block is released with
    [map->priv] left [NULL], and the table's memory is leaked; every later call fails an
    assertion.  When the table cannot be set up, [map->priv] is set and falls through to
    the cleanup, which releases the block under it; every later call uses freed memory. *)
Theorem tn_map_setup_fails acq junk cap w :
  acq sizeof_aws_hash_table = true →
  ∃ w', tn_map_setup acq junk cap w = Some (TN_ERROR, w') ∧ block w' = NULL ∧
    ((priv (map w') = NULL ∧ ∃ st, leaked w' = leaked w ++ [st]) ∨
     (priv (map w') = Some tt ∧ leaked w' = leaked w)) ∧
    ∀ key value, tn_map_get key w' = None ∧ tn_map_set acq key value w' = None ∧
      tn_map_remove key w' = None ∧ tn_map_clear w' = None ∧ tn_map_cleanup w' = None.
Proof.
  intros Hacq. unfold tn_map_setup. repeat mnext. rewrite Hacq. repeat mnext. cbn [block mbind option_bind].
  destruct (init_total acq junk cap tn_map_key_hash_fn tn_map_key_cmp_fn NULL NULL
    {| p_impl := NULL; destroyed := [] |}) as (rv & p & Hr & Hcase).
  rewrite Hr. repeat mnext.
  destruct Hcase as [[-> [st ->]]|[-> ->]]; simpl.
  - eexists. split; [done|]. split; [done|]. split; [left; split; [done|by exists st]|].
    intros key value. repeat split; done.
  - eexists. split; [done|]. split; [done|]. split; [right; simpl; by rewrite app_nil_r|].
    intros key value. repeat split; try done.
    unfold tn_map_set, mbind, M_bind, get. simpl. by destruct (value =? 0).
Qed.

Lemma tn_map_setup_fails_witness :
  ∃ w', tn_map_setup (λ _, true) (0, 0, 0) 16
    {| map := {| priv := NULL; capacity := 0 |}; block := NULL; leaked := [] |} =
    Some (TN_ERROR, w') ∧ block w' = NULL ∧ tn_map_get 5 w' = None.
Proof.
  destruct (tn_map_setup_fails (λ _, true) (0, 0, 0) 16
    {| map := {| priv := NULL; capacity := 0 |}; block := NULL; leaked := [] |} eq_refl)
    as (w' & Hr & Hb & _ & Hu).
  exists w'. split; [exact Hr|]. split; [exact Hb|]. exact (proj1 (Hu 5 1)).
Defined.

(** ** The operations on a map that is set up *)

Inductive map_call :=
  | MapGet (key : Z)
  | MapSet (key value : Z)
  | MapRemove (key : Z)
  | MapClear.

(** The code of a call, and the value a [MapGet] stores. *)
Definition run_call (acq : Z → bool) (c : map_call) : M map_world (Z * Z) :=
  match c with
  | MapGet key => tn_map_get key
  | MapSet key value => r ← tn_map_set acq key value; mret (r, 0)
  | MapRemove key => r ← tn_map_remove key; mret (r, 0)
  | MapClear => tn_map_clear;; mret (TN_SUCCESS, 0)
  end.

Fixpoint run_calls (acq : Z → bool) (cs : list map_call) : M map_world (list (Z * Z)) :=
  match cs with
  | [] => mret []
  | c :: cs => a ← run_call acq c; rest ← run_calls acq cs; mret (a :: rest)
  end.

(** The calls on a finite map.  Setting a key that is there replaces its value, and the
    code is [TN_ERROR] all the same. *)
Definition spec_call (c : map_call) (m : gmap Z Z) : (Z * Z) * gmap Z Z :=
  match c with
  | MapGet key =>
      (match m !! key with Some v => (TN_SUCCESS, v) | None => (TN_ERROR, 0) end, m)
  | MapSet key value =>
      ((match m !! key with Some _ => TN_ERROR | None => TN_SUCCESS end, 0), <[key := value]> m)
  | MapRemove key =>
      ((match m !! key with Some _ => TN_SUCCESS | None => TN_ERROR end, 0), delete key m)
  | MapClear => ((TN_SUCCESS, 0), ∅)
  end.

Fixpoint spec_calls (cs : list map_call) (m : gmap Z Z) : list (Z * Z) * gmap Z Z :=
  match cs with
  | [] => ([], m)
  | c :: cs =>
      let r := spec_call c m in
      let rest := spec_calls cs r.2 in (r.1 :: rest.1, rest.2)
  end.

(** The table of the map holds the elements [l], and [l] is the finite map [m]. *)
Definition lists (l : list aws_hash_element) (m : gmap Z Z) : Prop :=
  ∀ key, m !! key = e_value <$> assoc_find tn_map_key_cmp_fn key l.

Definition map_is (w : map_world) (m : gmap Z Z) (n : nat) : Prop :=
  priv (map w) = Some tt ∧
  ∃ t l, block w = Some t ∧ implements tn_map_key_hash_fn tn_map_key_cmp_fn t l ∧
    lists l m ∧ (length l ≤ n)%nat.

#[global] Instance tn_map_keys : KeyOps tn_map_key_hash_fn tn_map_key_cmp_fn.
Proof.
  unfold tn_map_key_cmp_fn. split; intros *; rewrite ?Z.eqb_eq; congruence.
Qed.

Lemma cmp_matches key el : matches tn_map_key_cmp_fn key el ↔ key = e_key el.
Proof. apply Z.eqb_eq. Qed.

Lemma find_after_remove key key' l :
  assoc_find tn_map_key_cmp_fn key' (assoc_remove tn_map_key_cmp_fn key l) =
  if decide (key' = key) then None else assoc_find tn_map_key_cmp_fn key' l.
Proof.
  unfold assoc_find, assoc_remove in *. induction l as [|el l IH]; [by destruct (decide _)|].
  destruct (decide (key = e_key el)) as [->|Hk].
  - rewrite (filter_cons_False _ el) by (rewrite cmp_matches; tauto). rewrite IH.
    destruct (decide (key' = e_key el)) as [|Hk']; [done|].
    by rewrite filter_cons_False by (by rewrite cmp_matches).
  - rewrite (filter_cons_True _ el) by (by rewrite cmp_matches).
    destruct (decide (key' = e_key el)) as [->|Hk'].
    + rewrite !filter_cons_True by (by rewrite cmp_matches). by rewrite decide_False.
    + by rewrite !filter_cons_False by (by rewrite cmp_matches).
Qed.

Lemma lists_remove key l m :
  lists l m → lists (assoc_remove tn_map_key_cmp_fn key l) (delete key m).
Proof.
  intros H key'. rewrite find_after_remove. destruct (decide (key' = key)) as [->|Hne].
  - by rewrite lookup_delete_eq.
  - by rewrite lookup_delete_ne.
Qed.

Lemma lists_put key value l m :
  lists l m → lists (assoc_put tn_map_key_cmp_fn key value l) (<[key := value]> m).
Proof.
  intros H key'. unfold assoc_put, assoc_find. rewrite filter_cons.
  destruct (decide (matches _ key' _)) as [Hm|Hm]; rewrite cmp_matches in Hm; simpl in Hm.
  - subst. by rewrite lookup_insert_eq.
  - rewrite lookup_insert_ne by done. rewrite (H key').
    change (head _) with (assoc_find tn_map_key_cmp_fn key' (assoc_remove tn_map_key_cmp_fn key l)).
    rewrite find_after_remove. by rewrite decide_False.
Qed.

(** One call. *)
Lemma on_priv_run {A} (m : M aws_hash_table A) w t a t' :
  priv (map w) = Some tt → block w = Some t → m t = Some (a, t') →
  on_priv m w = Some (a, {| map := map w; block := Some t'; leaked := leaked w |}).
Proof. intros Hp Hb Hm. unfold on_priv. by rewrite Hp, Hb, Hm. Qed.

Definition call_ok (c : map_call) : Prop := match c with MapSet _ value => value ≠ 0 | _ => True end.

Section Call.
Context (w : map_world) (m : gmap Z Z) (n : nat).
Context (k : Z) (st : hash_table_state) (log : list (Z * Z)) (l : list aws_hash_element).
Context (Hp : priv (map w) = Some tt).
Context (Hb : block w = Some {| p_impl := Some st; destroyed := log |}).
Context (Hok : table_ok k st) (Hf : has_fns tn_map_key_hash_fn tn_map_key_cmp_fn st).
Context (Hc : contents st ≡ₚ l) (Hl : lists l m) (Hn : (length l ≤ n)%nat).

Lemma contents_find key :
  assoc_find tn_map_key_cmp_fn key (contents st) = assoc_find tn_map_key_cmp_fn key l.
Proof. apply assoc_find_perm; [|done]. destruct Hf as [_ <-]. apply Hok. Qed.

Lemma found_value key :
  m !! key = e_value <$> assoc_find tn_map_key_cmp_fn key (contents st).
Proof. rewrite contents_find. apply Hl. Qed.

(** The call has left the table [st'] with the elements [l']. *)
Lemma map_is_after k' st' log' l' m' :
  table_ok k' st' → same_fns st st' → contents st' ≡ₚ l' → lists l' m' → (length l' ≤ S n)%nat →
  map_is {| map := map w; block := Some {| p_impl := Some st'; destroyed := log' |};
            leaked := leaked w |} m' (S n).
Proof.
  intros H1 H2 H3 H4 H5. split; [done|]. eexists _, l'. split; [done|]. split; [|done].
  exists k', st'. split; [done|]. split; [done|]. split; [by eapply has_fns_same|done].
Qed.

Lemma get_call key :
  ∃ w', tn_map_get key w = Some ((spec_call (MapGet key) m).1, w') ∧ map_is w' m (S n).
Proof.
  assert (Hsame : map_is w m (S n)).
  { split; [done|]. exists {| p_impl := Some st; destroyed := log |}, l. split; [done|].
    split; [by exists k, st|]. split; [done|lia]. }
  assert (Hw : {| map := map w; block := Some {| p_impl := Some st; destroyed := log |};
                  leaked := leaked w |} = w) by (rewrite <- Hb; by destruct w).
  destruct (find_run tn_map_key_hash_fn tn_map_key_cmp_fn k st log key Hok Hf) as (p & Hr & Hcase).
  pose proof (on_priv_run _ _ _ _ _ Hp Hb Hr) as Hon. rewrite Hw in Hon.
  unfold tn_map_get. repeat mnext. rewrite Hp. repeat mnext. bstep Hon. simpl spec_call.
  rewrite found_value. destruct p as [i|].
  - destruct Hcase as (e & He & Hfe). rewrite Hfe. simpl.
    assert (Hr2 : (st ← deref; lift (slots st !! Z.to_nat i))
      {| p_impl := Some st; destroyed := log |} = Some (e, {| p_impl := Some st; destroyed := log |})).
    { rewrite M_deref. by rewrite He. }
    pose proof (on_priv_run _ _ _ _ _ Hp Hb Hr2) as Hon2. rewrite Hw in Hon2. bstep Hon2.
    by exists w.
  - rewrite Hcase. by exists w.
Qed.

Lemma set_call key value :
  value ≠ 0 → Z.of_nat (S n) ≤ MAX_ELEMENTS →
  ∃ w', tn_map_set (λ _, true) key value w = Some ((spec_call (MapSet key value) m).1.1, w') ∧
    map_is w' (<[key := value]> m) (S n).
Proof.
  intros Hv Hmax.
  pose proof (put_run tn_map_key_hash_fn tn_map_key_cmp_fn (λ _, true) k st log key value Hok Hf) as Hput.
  match type of Hput with ?P → _ => assert (HP : P) end.
  { intros Hfull. pose proof (ok_k _ _ Hok). destruct (Z.eq_dec k 32) as [->|]; [|lia].
    rewrite (ok_load _ _ Hok), (ok_count _ _ Hok) in Hfull. unfold MAX_ELEMENTS in Hmax.
    assert (length l = length (entries (slots st)))
      by (rewrite <- (Permutation_length Hc); apply length_fmap). lia. }
  specialize (Hput HP). rewrite andb_false_r in Hput.
  assert (E : match assoc_find tn_map_key_cmp_fn key (contents st) with
              | Some _ => false | None => false end = false) by (by destruct (assoc_find _ _ _)).
  rewrite E in Hput. destruct Hput as (k' & st' & Hr & _ & Hok' & Hsf & Hc').
  revert Hr. generalize (log ++ match assoc_find tn_map_key_cmp_fn key (contents st) with
    | Some el => replaced_calls st key el | None => [] end). intros log' Hr.
  pose proof (on_priv_run _ _ _ _ _ Hp Hb Hr) as Hon.
  unfold tn_map_set. repeat mnext. rewrite Hp, (proj2 (Z.eqb_neq value 0) Hv). repeat mnext.
  bstep Hon. simpl spec_call. rewrite found_value.
  eexists. split.
  2: { eapply map_is_after; [exact Hok'|exact Hsf| |by apply lists_put|].
       - by rewrite Hc', (assoc_put_perm _ key value _ _ Hc).
       - simpl. pose proof (assoc_remove_length tn_map_key_cmp_fn key l). lia. }
  by destruct (assoc_find tn_map_key_cmp_fn key (contents st)).
Qed.

Lemma remove_call key :
  ∃ w', tn_map_remove key w = Some ((spec_call (MapRemove key) m).1.1, w') ∧
    map_is w' (delete key m) (S n).
Proof.
  pose proof (remove_run tn_map_key_hash_fn tn_map_key_cmp_fn k st log key false Hok Hf) as Hrem.
  pose proof (assoc_remove_length tn_map_key_cmp_fn key l).
  unfold tn_map_remove. repeat mnext. rewrite Hp. repeat mnext. simpl spec_call.
  rewrite found_value. destruct (assoc_find tn_map_key_cmp_fn key (contents st)) as [el|].
  - destruct Hrem as (st' & Hr & Hok' & Hsf & Hc').
    pose proof (on_priv_run _ _ _ _ _ Hp Hb Hr) as Hon. bstep Hon. eexists. split; [reflexivity|].
    eapply map_is_after; [exact Hok'|exact Hsf| |by apply lists_remove|lia].
    by rewrite Hc', (assoc_remove_perm _ key _ _ Hc).
  - destruct Hrem as (Hr & Hc').
    pose proof (on_priv_run _ _ _ _ _ Hp Hb Hr) as Hon. bstep Hon. eexists. split; [reflexivity|].
    eapply map_is_after; [exact Hok|done| |by apply lists_remove|lia].
    by rewrite <- (assoc_remove_perm _ key _ _ Hc), Hc'.
Qed.

Lemma clear_call : ∃ w', tn_map_clear w = Some (tt, w') ∧ map_is w' ∅ (S n).
Proof.
  destruct (clear_run k st log Hok) as (st' & Hr & Hok' & Hsf & Hc').
  pose proof (on_priv_run _ _ _ _ _ Hp Hb Hr) as Hon.
  unfold tn_map_clear. repeat mnext. rewrite Hp. repeat mnext. eexists. split; [exact Hon|].
  eapply (map_is_after k st' _ []); [exact Hok'|exact Hsf|by rewrite Hc'| |simpl; lia].
  intros key. by rewrite lookup_empty.
Qed.
End Call.

Lemma run_call_refines c w m n :
  map_is w m n → call_ok c → Z.of_nat (S n) ≤ MAX_ELEMENTS →
  ∃ w', run_call (λ _, true) c w = Some ((spec_call c m).1, w') ∧ map_is w' (spec_call c m).2 (S n).
Proof.
  intros (Hp & [p log] & l & Hb & (k & st & Ht & Hok & Hf & Hc) & Hl & Hn) Hcok Hmax.
  simpl in Ht. subst p. destruct c as [key|key value|key|]; cbn [run_call].
  - by apply (get_call w m n k st log l).
  - destruct (set_call w m n k st log l Hp Hb Hok Hf Hc Hl Hn key value) as (w' & Hr & Hm); [done|done|].
    exists w'. bstep Hr. done.
  - destruct (remove_call w m n k st log l Hp Hb Hok Hf Hc Hl Hn key) as (w' & Hr & Hm).
    exists w'. bstep Hr. done.
  - edestruct clear_call as (w' & Hr & Hm); [done..|].
    exists w'. bstep Hr. done.
Qed.


(** A map whose table was set up. *)
Definition ready_map : map_world :=
  {| map := {| priv := Some tt; capacity := 2 |};
     block := Some {| p_impl := Some
       {| hash_fn := tn_map_key_hash_fn; equals_fn := tn_map_key_cmp_fn;
          destroy_key_fn := NULL; destroy_value_fn := NULL; size := 2; entry_count := 0;
          max_load := 1; mask := 1; max_load_factor := max_load_factor_95;
          slots := replicate 2 zero_entry |}; destroyed := [] |}; leaked := [] |}.

Lemma ready_map_is : map_is ready_map ∅ 0.
Proof.
  split; [done|]. eexists _, []. split; [done|]. split.
  - exists 1. eexists. split; [reflexivity|]. split; [|done]. split; try done.
    + apply fresh_robin_hood.
    + by intros e He%elem_of_nil.
    + intros key. change (contents _) with (@nil aws_hash_element). cbn. lia.
  - split; [|done]. intros key. by rewrite lookup_empty.
Qed.

