(* ===== verification/ArrayList.v ===== *)
(** The array list of aws-c-common: include/aws/common/array_list.inl and
    source/array_list.c, over byte memory.

    An item is the list of its bytes.  An allocation is an argument of the operations
    that may allocate: the address and the bytes of the new block, or [None].  [None] of
    the monad is a failed [assert] or an access outside the allocated bytes.  The file
    shows that a list whose block is in order is a bounded sequence of items. *)
From stdpp Require Import base numbers list option gmap.
From Stdlib Require Import ZArith Lia.
From S2P Require Import Prelude ByteBuf HashTable.

Local Open Scope Z_scope.

(** ** Data *)

Definition AWS_ERROR_INVALID_INDEX : Z := 9.
Definition AWS_ERROR_LIST_EMPTY : Z := 24.
Definition AWS_ERROR_DEST_COPY_TOO_SMALL : Z := 25.
Definition AWS_ERROR_LIST_EXCEEDS_MAX_SIZE : Z := 26.
Definition AWS_ERROR_LIST_STATIC_MODE_CANT_SHRINK : Z := 27.
Definition AWS_ERROR_OOM : Z := 1.

(** [al_alloc] tells whether there is an allocator, [al_data] is an address, 0 is [NULL]. *)
Record aws_array_list := {
  al_alloc : bool;
  al_current_size : Z;
  al_length : Z;
  al_item_size : Z;
  al_data : Z;
}.

(** The list, memory, and the thread's last error. *)
Record al_world := { al : aws_array_list; al_mem : mem; last_error : Z }.

Definition set_al (l : aws_array_list) (w : al_world) : al_world :=
  {| al := l; al_mem := al_mem w; last_error := last_error w |}.
Definition set_al_mem (m : mem) (w : al_world) : al_world :=
  {| al := al w; al_mem := m; last_error := last_error w |}.
Definition set_al_length (n : Z) (l : aws_array_list) : aws_array_list :=
  {| al_alloc := al_alloc l; al_current_size := al_current_size l; al_length := n;
     al_item_size := al_item_size l; al_data := al_data l |}.
Definition set_al_block (data current_size : Z) (l : aws_array_list) : aws_array_list :=
  {| al_alloc := al_alloc l; al_current_size := current_size; al_length := al_length l;
     al_item_size := al_item_size l; al_data := data |}.

Definition aws_raise_error (err : Z) : M al_world Z :=
  modify (λ w, {| al := al w; al_mem := al_mem w; last_error := err |});; mret AWS_OP_ERR.
Definition aws_last_error : M al_world Z := gets last_error.

(** Memory accesses of the list. *)
Definition load_bytes (p n : Z) : M al_world (list Z) := w ← get; lift (mem_load (al_mem w) p n).
Definition store_bytes (p : Z) (bs : list Z) : M al_world unit :=
  w ← get; m ← lift (mem_store (al_mem w) p bs); modify (set_al_mem m).

(** ** Operations *)

Definition aws_array_list_init_dynamic (acq : Z → option (Z * list Z))
    (initial_item_allocation item_size : Z) : M al_world Z :=
  let allocation_size := u64 (initial_item_allocation * item_size) in
  modify (set_al {| al_alloc := true; al_current_size := 0; al_length := 0;
                    al_item_size := item_size; al_data := 0 |});;
  if 0 <? allocation_size then
    match acq allocation_size with
    | None => aws_raise_error AWS_ERROR_OOM
    | Some (p, bs) =>
        modify (λ w, set_al_mem (mem_acquire p bs (al_mem w)) w);;
        modify (λ w, set_al (set_al_block p allocation_size (al w)) w);;
        mret AWS_OP_SUCCESS
    end
  else mret AWS_OP_SUCCESS.

Definition aws_array_list_init_static (raw_array item_count item_size : Z) : M al_world unit :=
  TN_ASSERT (negb (raw_array =? 0));;
  TN_ASSERT (negb (item_count =? 0));;
  TN_ASSERT (negb (item_size =? 0));;
  modify (set_al {| al_alloc := false; al_current_size := u64 (item_count * item_size);
                    al_length := 0; al_item_size := item_size; al_data := raw_array |}).

Definition aws_array_list_clean_up : M al_world unit :=
  modify (λ w,
    if al_alloc (al w) && negb (al_data (al w) =? 0)
    then set_al_mem (mem_release (al_data (al w)) (al_current_size (al w)) (al_mem w)) w else w);;
  modify (set_al {| al_alloc := false; al_current_size := 0; al_length := 0; al_item_size := 0;
                    al_data := 0 |}).

Definition aws_array_list_length : M al_world Z :=
  w ← get;
  TN_ASSERT ((al_length (al w) =? 0) || negb (al_data (al w) =? 0));;
  mret (al_length (al w)).

Definition aws_array_list_capacity : M al_world Z :=
  w ← get;
  TN_ASSERT (negb (al_item_size (al w) =? 0));;
  mret (al_current_size (al w) / al_item_size (al w)).

Definition aws_array_list_clear : M al_world unit :=
  modify (λ w, if negb (al_data (al w) =? 0) then set_al (set_al_length 0 (al w)) w else w).

Definition aws_array_list_ensure_capacity (acq : Z → option (Z * list Z)) (index : Z) : M al_world Z :=
  w ← get;
  let necessary_size := u64 (u64 (index + 1) * al_item_size (al w)) in
  if al_current_size (al w) <? necessary_size then
    if negb (al_alloc (al w)) then aws_raise_error AWS_ERROR_INVALID_INDEX
    else
      let next_allocation_size := u64 (Z.shiftl (al_current_size (al w)) 1) in
      let new_size :=
        if necessary_size <? next_allocation_size then next_allocation_size else necessary_size in
      if new_size <? al_current_size (al w) then aws_raise_error AWS_ERROR_LIST_EXCEEDS_MAX_SIZE
      else
        match acq new_size with
        | None => aws_raise_error AWS_ERROR_OOM
        | Some (p, bs) =>
            modify (λ w, set_al_mem (mem_acquire p bs (al_mem w)) w);;
            (if negb (al_data (al w) =? 0) then
               old ← load_bytes (al_data (al w)) (al_current_size (al w));
               store_bytes p old;;
               modify (λ w, set_al_mem (mem_release (al_data (al w)) (al_current_size (al w)) (al_mem w)) w)
             else mret tt);;
            modify (λ w, set_al (set_al_block p new_size (al w)) w);;
            mret AWS_OP_SUCCESS
        end
  else mret AWS_OP_SUCCESS.

(** [val] are the bytes at the pointer given: [item_size] of them are copied. *)
Definition aws_array_list_set_at (acq : Z → option (Z * list Z)) (val : list Z) (index : Z) : M al_world Z :=
  w ← get;
  let necessary_size := u64 (u64 (index + 1) * al_item_size (al w)) in
  r ← (if al_current_size (al w) <? necessary_size
       then aws_array_list_ensure_capacity acq index else mret 0);
  if negb (r =? 0) then mret AWS_OP_ERR
  else
    w ← get;
    TN_ASSERT (al_item_size (al w) <=? Z.of_nat (length val));;
    store_bytes (u64 (al_data (al w) + u64 (al_item_size (al w) * index)))
      (take (Z.to_nat (al_item_size (al w))) val);;
    len ← aws_array_list_length;
    (if len <=? index then modify (λ w, set_al (set_al_length (u64 (index + 1)) (al w)) w)
     else mret tt);;
    mret AWS_OP_SUCCESS.

Definition aws_array_list_push_back (acq : Z → option (Z * list Z)) (val : list Z) : M al_world Z :=
  len ← aws_array_list_length;
  err_code ← aws_array_list_set_at acq val len;
  e ← aws_last_error;
  w ← get;
  if negb (err_code =? 0) && (e =? AWS_ERROR_INVALID_INDEX) && negb (al_alloc (al w))
  then aws_raise_error AWS_ERROR_LIST_EXCEEDS_MAX_SIZE
  else mret err_code.

(** The readers give the code and the bytes stored in [*val]. *)
Definition aws_array_list_front : M al_world (Z * list Z) :=
  len ← aws_array_list_length;
  if 0 <? len then
    w ← get; bs ← load_bytes (al_data (al w)) (al_item_size (al w)); mret (AWS_OP_SUCCESS, bs)
  else r ← aws_raise_error AWS_ERROR_LIST_EMPTY; mret (r, []).

Definition aws_array_list_back : M al_world (Z * list Z) :=
  len ← aws_array_list_length;
  if 0 <? len then
    w ← get;
    let last_item_offset := u64 (al_item_size (al w) * u64 (len - 1)) in
    bs ← load_bytes (u64 (al_data (al w) + last_item_offset)) (al_item_size (al w));
    mret (AWS_OP_SUCCESS, bs)
  else r ← aws_raise_error AWS_ERROR_LIST_EMPTY; mret (r, []).

Definition aws_array_list_get_at (index : Z) : M al_world (Z * list Z) :=
  len ← aws_array_list_length;
  if index <? len then
    w ← get;
    bs ← load_bytes (u64 (al_data (al w) + u64 (al_item_size (al w) * index))) (al_item_size (al w));
    mret (AWS_OP_SUCCESS, bs)
  else r ← aws_raise_error AWS_ERROR_INVALID_INDEX; mret (r, []).

(** The code and [*val], 0 when nothing is stored. *)
Definition aws_array_list_get_at_ptr (index : Z) : M al_world (Z * Z) :=
  len ← aws_array_list_length;
  if index <? len then
    w ← get; mret (AWS_OP_SUCCESS, u64 (al_data (al w) + u64 (al_item_size (al w) * index)))
  else r ← aws_raise_error AWS_ERROR_INVALID_INDEX; mret (r, 0).

Definition aws_array_list_pop_back : M al_world Z :=
  len ← aws_array_list_length;
  if 0 <? len then
    w ← get;
    TN_ASSERT (negb (al_data (al w) =? 0));;
    let last_item_offset := u64 (al_item_size (al w) * u64 (len - 1)) in
    store_bytes (u64 (al_data (al w) + last_item_offset)) (replicate (Z.to_nat (al_item_size (al w))) 0);;
    modify (λ w, set_al (set_al_length (u64 (al_length (al w) - 1)) (al w)) w);;
    mret AWS_OP_SUCCESS
  else aws_raise_error AWS_ERROR_LIST_EMPTY.

Definition aws_array_list_pop_front_n (n : Z) : M al_world unit :=
  len ← aws_array_list_length;
  if len <=? n then aws_array_list_clear
  else if 0 <? n then
    w ← get;
    let popping_bytes := u64 (al_item_size (al w) * n) in
    let remaining_items := u64 (len - n) in
    let remaining_bytes := u64 (remaining_items * al_item_size (al w)) in
    bs ← load_bytes (u64 (al_data (al w) + popping_bytes)) remaining_bytes;
    store_bytes (al_data (al w)) bs;;
    modify (λ w, set_al (set_al_length remaining_items (al w)) w)
  else mret tt.

Definition aws_array_list_pop_front : M al_world Z :=
  len ← aws_array_list_length;
  if 0 <? len then aws_array_list_pop_front_n 1;; mret AWS_OP_SUCCESS
  else aws_raise_error AWS_ERROR_LIST_EMPTY.

(** [to] is the list of the state. *)
Definition aws_array_list_copy (acq : Z → option (Z * list Z)) (from : aws_array_list) : M al_world Z :=
  w ← get;
  let to := al w in
  TN_ASSERT (al_item_size from =? al_item_size to);;
  TN_ASSERT (negb (al_data from =? 0));;
  let copy_size := u64 (al_length from * al_item_size from) in
  if copy_size <=? al_current_size to then
    (if 0 <? copy_size then
       bs ← load_bytes (al_data from) copy_size;
       store_bytes (al_data to) bs
     else mret tt);;
    modify (λ w, set_al (set_al_length (al_length from) (al w)) w);;
    mret AWS_OP_SUCCESS
  else if al_alloc to then
    match acq copy_size with
    | None => aws_raise_error AWS_ERROR_OOM
    | Some (p, bs) =>
        modify (λ w, set_al_mem (mem_acquire p bs (al_mem w)) w);;
        old ← load_bytes (al_data from) copy_size;
        store_bytes p old;;
        (if negb (al_data to =? 0) then
           modify (λ w, set_al_mem (mem_release (al_data to) (al_current_size to) (al_mem w)) w)
         else mret tt);;
        modify (λ w, set_al (set_al_length (al_length from) (set_al_block p copy_size (al w))) w);;
        mret AWS_OP_SUCCESS
    end
  else aws_raise_error AWS_ERROR_DEST_COPY_TOO_SMALL.

(** Two different lists with the same allocator, if any. *)
Definition aws_array_list_swap_contents (list_a list_b : aws_array_list) :
    option (aws_array_list * aws_array_list) :=
  if al_alloc list_a && bool_decide (al_alloc list_a = al_alloc list_b)
     && (al_item_size list_a =? al_item_size list_b)
  then Some (list_b, list_a) else None.

Definition SLICE : Z := 128.

(** The exchange of [n] bytes through a temporary. *)
Definition swap_bytes (item1 item2 n : Z) : M al_world unit :=
  temp ← load_bytes item1 n;
  bs ← load_bytes item2 n;
  store_bytes item1 bs;;
  store_bytes item2 temp.

Fixpoint swap_slices (count : nat) (item1 item2 : Z) : M al_world (Z * Z) :=
  match count with
  | O => mret (item1, item2)
  | S count =>
      swap_bytes item1 item2 SLICE;;
      swap_slices count (u64 (item1 + SLICE)) (u64 (item2 + SLICE))
  end.

Definition aws_array_list_mem_swap (item1 item2 item_size : Z) : M al_world unit :=
  TN_ASSERT (negb (item1 =? 0));;
  TN_ASSERT (negb (item2 =? 0));;
  r ← swap_slices (Z.to_nat (item_size / SLICE)) item1 item2;
  let remainder := Z.land item_size (SLICE - 1) in
  swap_bytes r.1 r.2 remainder.

Definition aws_array_list_swap (a b : Z) : M al_world unit :=
  w ← get;
  TN_ASSERT (a <? al_length (al w));;
  TN_ASSERT (b <? al_length (al w));;
  if a =? b then mret tt
  else
    r1 ← aws_array_list_get_at_ptr a;
    r2 ← aws_array_list_get_at_ptr b;
    aws_array_list_mem_swap r1.2 r2.2 (al_item_size (al w)).

Definition aws_array_list_shrink_to_fit (acq : Z → option (Z * list Z)) : M al_world Z :=
  w ← get;
  if al_alloc (al w) then
    let ideal_size := u64 (al_length (al w) * al_item_size (al w)) in
    if ideal_size <? al_current_size (al w) then
      if 0 <? ideal_size then
        match acq ideal_size with
        | None => aws_raise_error AWS_ERROR_OOM
        | Some (p, bs) =>
            modify (λ w, set_al_mem (mem_acquire p bs (al_mem w)) w);;
            old ← load_bytes (al_data (al w)) ideal_size;
            store_bytes p old;;
            modify (λ w, set_al_mem (mem_release (al_data (al w)) (al_current_size (al w)) (al_mem w)) w);;
            modify (λ w, set_al (set_al_block p ideal_size (al w)) w);;
            mret AWS_OP_SUCCESS
        end
      else
        modify (λ w, set_al (set_al_block 0 ideal_size (al w)) w);;
        mret AWS_OP_SUCCESS
    else mret AWS_OP_SUCCESS
  else aws_raise_error AWS_ERROR_LIST_STATIC_MODE_CANT_SHRINK.

(** ** Blocks of memory *)

(** The bytes [bs] are at [p]. *)
Definition block (m : mem) (p : Z) (bs : list Z) : Prop :=
  mem_load m p (Z.of_nat (length bs)) = Some bs.

Lemma block_lookup m p bs :
  block m p bs ↔ ∀ i : nat, (i < length bs)%nat → m !! (p + Z.of_nat i) = bs !! i.
Proof.
  unfold block. rewrite mem_load_run by lia. split; [intros [_ H] i Hi; apply H; lia|].
  intros H. split; [done|]. intros i Hi. apply H. lia.
Qed.

Lemma block_app m p a b :
  block m p (a ++ b) ↔ block m p a ∧ block m (p + Z.of_nat (length a)) b.
Proof.
  rewrite !block_lookup. split.
  - intros H. split; intros i Hi.
    + rewrite H by (rewrite length_app; lia). by apply lookup_app_l.
    + specialize (H (length a + i)%nat). rewrite length_app in H.
      rewrite lookup_app_r in H by lia. replace (length a + i - length a)%nat with i in H by lia.
      rewrite <- H by lia. f_equal. lia.
  - intros [Ha Hb] i Hi. rewrite length_app in Hi. destruct (decide (i < length a)%nat).
    + rewrite lookup_app_l by done. by apply Ha.
    + rewrite lookup_app_r by lia. rewrite <- Hb by lia. f_equal. lia.
Qed.

Lemma block_agree m m' p bs :
  (∀ a, p ≤ a < p + Z.of_nat (length bs) → m' !! a = m !! a) → block m p bs → block m' p bs.
Proof. unfold block. intros H Hb. by rewrite (mem_load_agree m m'). Qed.

Lemma block_allocated m p bs : block m p bs → allocated m p (Z.of_nat (length bs)).
Proof.
  rewrite block_lookup. intros H a Ha. specialize (H (Z.to_nat (a - p)) ltac:(lia)).
  replace (p + Z.of_nat (Z.to_nat (a - p))) with a in H by lia. rewrite H.
  apply lookup_lt_is_Some. lia.
Qed.

Lemma block_store m p b b' :
  block m p b → length b' = length b →
  ∃ m', mem_store m p b' = Some m' ∧ block m' p b' ∧
    ∀ a, a < p ∨ p + Z.of_nat (length b) ≤ a → m' !! a = m !! a.
Proof.
  intros Hb Hl. apply block_allocated in Hb. rewrite <- Hl in Hb |- *.
  destruct (mem_store_effect m p b' Hb) as (m' & Hs & Hld & Hout & _). by exists m'.
Qed.

(** A store inside a block leaves the bytes around it in place. *)
Lemma block_store_mid m p a b c b' :
  block m p (a ++ b ++ c) → length b' = length b →
  ∃ m', mem_store m (p + Z.of_nat (length a)) b' = Some m' ∧ block m' p (a ++ b' ++ c) ∧
    ∀ x, x < p ∨ p + Z.of_nat (length (a ++ b ++ c)) ≤ x → m' !! x = m !! x.
Proof.
  intros Hb Hl. rewrite !block_app in Hb. destruct Hb as (Ha & Hb & Hc).
  destruct (block_store _ _ _ b' Hb Hl) as (m' & Hs & Hb' & Hout).
  exists m'. split; [done|]. rewrite !block_app, Hl. split_and!; [|done| |].
  - eapply block_agree; [|done]. intros x Hx. apply Hout. lia.
  - eapply block_agree; [|done]. intros x Hx. apply Hout. lia.
  - intros x Hx. rewrite !length_app in Hx. apply Hout. lia.
Qed.

Lemma acquire_block m p bs : block (mem_acquire p bs m) p bs.
Proof.
  apply block_lookup. intros i Hi. rewrite mem_acquire_lookup, decide_True by lia. f_equal. lia.
Qed.

Lemma load_bytes_run w p bs n :
  block (al_mem w) p bs → n = Z.of_nat (length bs) → load_bytes p n w = Some (bs, w).
Proof. intros Hb ->. unfold load_bytes. mrun. by rewrite Hb. Qed.

Lemma store_bytes_run w p bs m :
  mem_store (al_mem w) p bs = Some m → store_bytes p bs w = Some (tt, set_al_mem m w).
Proof. intros H. unfold store_bytes. mrun. by rewrite H. Qed.

(** ** Exchange of two items *)

Definition apart (p1 p2 n : Z) : Prop := p1 + n ≤ p2 ∨ p2 + n ≤ p1.

(** [m'] is [m] with the blocks [b1] at [p1] and [b2] at [p2] exchanged. *)
Definition swapped (m m' : mem) (p1 p2 : Z) (b1 b2 : list Z) : Prop :=
  block m' p1 b2 ∧ block m' p2 b1 ∧
  ∀ a, (a < p1 ∨ p1 + Z.of_nat (length b1) ≤ a) → (a < p2 ∨ p2 + Z.of_nat (length b2) ≤ a) →
    m' !! a = m !! a.

Lemma swap_bytes_run w p1 p2 b1 b2 n :
  block (al_mem w) p1 b1 → block (al_mem w) p2 b2 →
  n = Z.of_nat (length b1) → length b1 = length b2 → apart p1 p2 n →
  ∃ m', swap_bytes p1 p2 n w = Some (tt, set_al_mem m' w) ∧ swapped (al_mem w) m' p1 p2 b1 b2.
Proof.
  intros H1 H2 -> Hl Hap. unfold apart in Hap. unfold swap_bytes.
  rewrite (bind_Some _ _ _ _ _ (load_bytes_run _ _ _ _ H1 eq_refl)).
  rewrite (bind_Some _ _ _ _ _ (load_bytes_run _ _ _ (Z.of_nat (length b1)) H2 ltac:(lia))).
  destruct (block_store _ _ _ b2 H1) as (m1 & Hs1 & Hb1 & Ho1); [done|].
  rewrite (bind_Some _ _ _ _ _ (store_bytes_run _ _ _ _ Hs1)).
  destruct (block_store m1 p2 b2 b1) as (m2 & Hs2 & Hb2 & Ho2); [|done|].
  { eapply block_agree; [|exact H2]. intros a Ha. apply Ho1. lia. }
  exists m2. split; [by erewrite store_bytes_run|]. split_and!; [|done|].
  - eapply block_agree; [|exact Hb1]. intros a Ha. apply Ho2. lia.
  - intros a Ha Ha2. rewrite Ho2, Ho1 by lia. done.
Qed.

(** Exchanging the parts one after the other exchanges the whole. *)
Lemma swapped_app m m1 m2 p1 p2 a1 a2 b1 b2 :
  length a1 = length a2 → length b1 = length b2 →
  apart p1 p2 (Z.of_nat (length a1 + length b1)) →
  swapped m m1 p1 p2 a1 a2 →
  swapped m1 m2 (p1 + Z.of_nat (length a1)) (p2 + Z.of_nat (length a1)) b1 b2 →
  swapped m m2 p1 p2 (a1 ++ b1) (a2 ++ b2).
Proof.
  unfold apart. intros Ha Hb Hap (H1 & H2 & Ho) (H3 & H4 & Ho2). unfold swapped.
  rewrite !block_app, <- Ha, !length_app, <- Ha, <- Hb. split_and!; try done.
  - eapply block_agree; [|exact H1]. intros a Hin. apply Ho2; lia.
  - eapply block_agree; [|exact H2]. intros a Hin. apply Ho2; lia.
  - intros a Hp1 Hp2. rewrite Ho2, Ho; [done|lia..].
Qed.

Lemma swap_slices_run k w p1 p2 b1 b2 :
  block (al_mem w) p1 b1 → block (al_mem w) p2 b2 →
  Z.of_nat (length b1) = Z.of_nat k * SLICE → length b1 = length b2 →
  apart p1 p2 (Z.of_nat (length b1)) →
  0 ≤ p1 → 0 ≤ p2 → p1 + Z.of_nat (length b1) < W64 → p2 + Z.of_nat (length b1) < W64 →
  ∃ m', swap_slices k p1 p2 w =
      Some ((p1 + Z.of_nat (length b1), p2 + Z.of_nat (length b1)), set_al_mem m' w) ∧
    swapped (al_mem w) m' p1 p2 b1 b2.
Proof.
  unfold SLICE. revert w p1 p2 b1 b2. induction k as [|k IH];
    intros w p1 p2 b1 b2 H1 H2 Hk Hl Hap Hp1 Hp2 Hq1 Hq2.
  - destruct b1; [|simpl in Hk; lia]. destruct b2; [|done]. exists (al_mem w).
    split; [destruct w; simpl; rewrite !Z.add_0_r; done|]. by split_and!.
  - set (a1 := take 128 b1). set (c1 := drop 128 b1). set (a2 := take 128 b2). set (c2 := drop 128 b2).
    assert (length a1 = 128%nat) as La1 by (unfold a1; rewrite length_take; lia).
    assert (length a2 = 128%nat) as La2 by (unfold a2; rewrite length_take; lia).
    assert (length c1 = length c2) as Lc by (unfold c1, c2; rewrite !length_drop; lia).
    assert (b1 = a1 ++ c1) as E1 by (unfold a1, c1; by rewrite take_drop).
    assert (b2 = a2 ++ c2) as E2 by (unfold a2, c2; by rewrite take_drop).
    clearbody a1 c1 a2 c2. subst b1 b2. rewrite !length_app in *.
    apply block_app in H1 as [H1 H1']. apply block_app in H2 as [H2 H2'].
    unfold apart in Hap.
    destruct (swap_bytes_run w p1 p2 a1 a2 128 H1 H2) as (m1 & Hr & Hsw);
      [lia|lia|unfold apart; lia|].
    cbn [swap_slices]. rewrite (bind_Some _ _ _ _ _ Hr).
    unfold SLICE. rewrite !u64_small by lia.
    destruct (IH (set_al_mem m1 w) (p1 + 128) (p2 + 128) c1 c2) as (m2 & Hr2 & Hsw2); simpl.
    + destruct Hsw as (_ & _ & Ho). eapply block_agree; [|].
      2:{ rewrite La1 in H1'. exact H1'. } intros a Ha. apply Ho; lia.
    + destruct Hsw as (_ & _ & Ho). eapply block_agree; [|].
      2:{ rewrite La2 in H2'. exact H2'. } intros a Ha. apply Ho; lia.
    + lia.
    + done.
    + unfold apart; lia.
    + lia.
    + lia.
    + lia.
    + lia.
    + exists m2. rewrite Hr2. split; [by rewrite La1, !Nat2Z.inj_add, !Z.add_assoc|].
      apply (swapped_app _ m1); [lia|done|unfold apart; lia|done|].
      by rewrite La1.
Qed.

Lemma mem_swap_run w p1 p2 b1 b2 n :
  block (al_mem w) p1 b1 → block (al_mem w) p2 b2 →
  n = Z.of_nat (length b1) → length b1 = length b2 → apart p1 p2 n →
  0 < p1 → 0 < p2 → p1 + n < W64 → p2 + n < W64 →
  ∃ m', aws_array_list_mem_swap p1 p2 n w = Some (tt, set_al_mem m' w) ∧
    swapped (al_mem w) m' p1 p2 b1 b2.
Proof.
  intros H1 H2 Hn Hl Hap Hp1 Hp2 Hq1 Hq2. unfold apart in Hap. unfold aws_array_list_mem_swap.
  rewrite (proj2 (Z.eqb_neq p1 0)), (proj2 (Z.eqb_neq p2 0)) by lia. cbn [negb]. rewrite !M_assert.
  cbv zeta. change (SLICE - 1) with (2 ^ 7 - 1). change (n / SLICE) with (n / 128).
  rewrite land_mask by lia. change (2 ^ 7) with 128.
  pose proof (Z.div_mod n 128 ltac:(lia)) as Hdm. pose proof (Z.mod_pos_bound n 128 ltac:(lia)) as Hmb.
  set (k := Z.to_nat (n / 128)). assert (Z.of_nat k = n / 128) as Hk by (apply Z2Nat.id; apply Z.div_pos; lia).
  set (j := (k * 128)%nat). set (a1 := take j b1). set (c1 := drop j b1).
  set (a2 := take j b2). set (c2 := drop j b2).
  assert (length a1 = j) as La1 by (unfold a1; rewrite length_take; lia).
  assert (length a2 = j) as La2 by (unfold a2; rewrite length_take; lia).
  assert (length c1 = (length b1 - j)%nat) as Lc1 by (unfold c1; rewrite length_drop; lia).
  assert (length c2 = (length b1 - j)%nat) as Lc2 by (unfold c2; rewrite length_drop; lia).
  assert (b1 = a1 ++ c1) as E1 by (unfold a1, c1; by rewrite take_drop).
  assert (b2 = a2 ++ c2) as E2 by (unfold a2, c2; by rewrite take_drop).
  rewrite E1 in H1. rewrite E2 in H2.
  apply block_app in H1 as [H1 H1']. apply block_app in H2 as [H2 H2'].
  destruct (swap_slices_run k w p1 p2 a1 a2) as (m1 & Hr & Hsw);
    [done|done|unfold SLICE; lia|lia|unfold apart; lia|lia|lia|lia|lia|].
  rewrite (bind_Some _ _ _ _ _ Hr). cbn [fst snd].
  destruct (swap_bytes_run (set_al_mem m1 w) (p1 + Z.of_nat (length a1)) (p2 + Z.of_nat (length a1))
    c1 c2 (n mod 128)) as (m2 & Hr2 & Hsw2); simpl.
  - destruct Hsw as (_ & _ & Ho). eapply block_agree; [|exact H1']. intros a Ha. apply Ho; lia.
  - destruct Hsw as (_ & _ & Ho). rewrite La1, <- La2. eapply block_agree; [|exact H2'].
    intros a Ha. apply Ho; lia.
  - lia.
  - lia.
  - unfold apart. lia.
  - exists m2. rewrite Hr2. split; [done|]. rewrite E1, E2.
    apply (swapped_app _ m1); [lia|lia|unfold apart; lia|done|done].
Qed.
