(* ===== verification/ArrayRun.v ===== *)
(** The array list is a sequence of items: every program of calls on a static or a
    dynamic list, whatever the allocator answers, returns what the same program on a
    list of items returns, and leaves the memory of others alone. *)
From stdpp Require Import base numbers list option gmap.
From Stdlib Require Import ZArith Lia.
From S2P Require Import Prelude ByteBuf HashTable ArrayList.

Local Open Scope Z_scope.
Local Open Scope c_scope.

(** ** The specification *)

Record seq_spec := {
  sq_items : list (list Z);
  sq_size : Z;          (* bytes of an item *)
  sq_cap : Z;           (* bytes of the block *)
  sq_dynamic : bool;
}.

Definition with_items (xs : list (list Z)) (s : seq_spec) : seq_spec :=
  {| sq_items := xs; sq_size := sq_size s; sq_cap := sq_cap s; sq_dynamic := sq_dynamic s |}.
Definition with_cap (n : Z) (s : seq_spec) : seq_spec :=
  {| sq_items := sq_items s; sq_size := sq_size s; sq_cap := n; sq_dynamic := sq_dynamic s |}.

Abbreviation allocator := (Z → option (Z * list Z)).

(** Room for [need] bytes: the grown sequence, or the error. *)
Definition grow (acq : allocator) (need : Z) (s : seq_spec) : Z + seq_spec :=
  if need <=? sq_cap s then inr s
  else if negb (sq_dynamic s) then inl AWS_ERROR_INVALID_INDEX
  else
    let n := Z.max (2 * sq_cap s) need in
    match acq n with None => inl AWS_ERROR_OOM | Some _ => inr (with_cap n s) end.

(** The element [i] of a sequence becomes [v]; [i] may be one past the last. *)
Definition put_item (i : nat) (v : list Z) (xs : list (list Z)) : list (list Z) :=
  take i xs ++ v :: drop (S i) xs.

(** The item copied from the bytes at a pointer. *)
Definition item_of (v : list Z) (s : seq_spec) : list Z := take (Z.to_nat (sq_size s)) v.

Definition swap_items (a b : nat) (xs : list (list Z)) : list (list Z) :=
  <[a := xs !!! b]> (<[b := xs !!! a]> xs).

Inductive al_op :=
  | OpPush (acq : allocator) (v : list Z)
  | OpSet (acq : allocator) (i : nat) (v : list Z)
  | OpPopBack | OpPopFront | OpPopFrontN (n : nat)
  | OpFront | OpBack | OpGet (i : nat)
  | OpSwap (a b : nat)
  | OpLength | OpClear
  | OpReserve (acq : allocator) (i : nat)
  | OpShrink (acq : allocator).

Inductive al_result := RErr (e : Z) | RItem (v : list Z) | RLen (n : Z) | RUnit.

Definition spec_item (o : option (list Z)) (e : Z) : al_result :=
  match o with Some v => RItem v | None => RErr e end.

Definition al_spec (op : al_op) (s : seq_spec) : al_result * seq_spec :=
  let xs := sq_items s in
  let n := Z.of_nat (length xs) in
  match op with
  | OpPush acq v =>
      match grow acq ((n + 1) * sq_size s) s with
      | inl e => (RErr (if sq_dynamic s then e else AWS_ERROR_LIST_EXCEEDS_MAX_SIZE), s)
      | inr s => (RUnit, with_items (xs ++ [item_of v s]) s)
      end
  | OpSet acq i v =>
      match grow acq ((Z.of_nat i + 1) * sq_size s) s with
      | inl e => (RErr e, s)
      | inr s => (RUnit, with_items (put_item i (item_of v s) xs) s)
      end
  | OpPopBack =>
      match xs with [] => (RErr AWS_ERROR_LIST_EMPTY, s)
               | _ => (RUnit, with_items (take (length xs - 1) xs) s) end
  | OpPopFront =>
      match xs with [] => (RErr AWS_ERROR_LIST_EMPTY, s) | _ :: xs => (RUnit, with_items xs s) end
  | OpPopFrontN k => (RUnit, with_items (drop k xs) s)
  | OpFront => (spec_item (head xs) AWS_ERROR_LIST_EMPTY, s)
  | OpBack => (spec_item (last xs) AWS_ERROR_LIST_EMPTY, s)
  | OpGet i => (spec_item (xs !! i) AWS_ERROR_INVALID_INDEX, s)
  | OpSwap a b => (RUnit, with_items (swap_items a b xs) s)
  | OpLength => (RLen n, s)
  | OpClear => (RUnit, with_items [] s)
  | OpReserve acq i =>
      match grow acq ((Z.of_nat i + 1) * sq_size s) s with
      | inl e => (RErr e, s) | inr s => (RUnit, s) end
  | OpShrink acq =>
      if negb (sq_dynamic s) then (RErr AWS_ERROR_LIST_STATIC_MODE_CANT_SHRINK, s)
      else if sq_cap s <=? n * sq_size s then (RUnit, s)
      else if n =? 0 then (RUnit, with_cap 0 s)
      else match acq (n * sq_size s) with
           | None => (RErr AWS_ERROR_OOM, s)
           | Some _ => (RUnit, with_cap (n * sq_size s) s)
           end
  end.

(** ** The code *)

Definition coded (m : M al_world Z) : M al_world al_result :=
  r ← m; if r =? AWS_OP_SUCCESS then mret RUnit else e ← aws_last_error; mret (RErr e).
Definition coded_item (m : M al_world (Z * list Z)) : M al_world al_result :=
  r ← m; if r.1 =? AWS_OP_SUCCESS then mret (RItem r.2) else e ← aws_last_error; mret (RErr e).

Definition al_exec (op : al_op) : M al_world al_result :=
  match op with
  | OpPush acq v => coded (aws_array_list_push_back acq v)
  | OpSet acq i v => coded (aws_array_list_set_at acq v (Z.of_nat i))
  | OpPopBack => coded aws_array_list_pop_back
  | OpPopFront => coded aws_array_list_pop_front
  | OpPopFrontN n => aws_array_list_pop_front_n (Z.of_nat n);; mret RUnit
  | OpFront => coded_item aws_array_list_front
  | OpBack => coded_item aws_array_list_back
  | OpGet i => coded_item (aws_array_list_get_at (Z.of_nat i))
  | OpSwap a b => aws_array_list_swap (Z.of_nat a) (Z.of_nat b);; mret RUnit
  | OpLength => n ← aws_array_list_length; mret (RLen n)
  | OpClear => aws_array_list_clear;; mret RUnit
  | OpReserve acq i => coded (aws_array_list_ensure_capacity acq (Z.of_nat i))
  | OpShrink acq => coded (aws_array_list_shrink_to_fit acq)
  end.

Fixpoint al_run (ops : list al_op) : M al_world (list al_result) :=
  match ops with
  | [] => mret []
  | op :: ops => r ← al_exec op; rs ← al_run ops; mret (r :: rs)
  end.

Fixpoint spec_run (ops : list al_op) (s : seq_spec) : list al_result * seq_spec :=
  match ops with
  | [] => ([], s)
  | op :: ops => let '(r, s) := al_spec op s in let '(rs, s) := spec_run ops s in (r :: rs, s)
  end.

(** What the allocator documents: a block of the size asked for, in the lower half of the
    address space, no byte of which is allocated. *)
Definition fresh_blocks (acq : allocator) (m : mem) : Prop :=
  ∀ n p bs, acq n = Some (p, bs) →
    Z.of_nat (length bs) = n ∧ 0 < p ∧ p + n ≤ 2 ^ 63 ∧ ∀ a, p ≤ a < p + n → m !! a = None.

(** The calls the interface allows. *)
Definition al_valid (op : al_op) (w : al_world) : Prop :=
  let len := al_length (al w) in
  match op with
  | OpPush acq v => al_item_size (al w) ≤ Z.of_nat (length v) ∧ fresh_blocks acq (al_mem w)
  | OpSet acq i v =>
      al_item_size (al w) ≤ Z.of_nat (length v) ∧ Z.of_nat i ≤ len ∧ fresh_blocks acq (al_mem w)
  | OpReserve acq i => (Z.of_nat i + 1) * al_item_size (al w) < 2 ^ 63 ∧ fresh_blocks acq (al_mem w)
  | OpPopFrontN n => Z.of_nat n < W64
  | OpShrink acq => fresh_blocks acq (al_mem w)
  | OpSwap a b => Z.of_nat a < len ∧ Z.of_nat b < len
  | _ => True
  end.

Fixpoint valid_run (ops : list al_op) (w : al_world) : Prop :=
  match ops with
  | [] => True
  | op :: ops => al_valid op w ∧ ∀ r w', al_exec op w = Some (r, w') → valid_run ops w'
  end.

(** ** The representation *)

(** The list of [w] holds the sequence [s]; [F] is the memory of others. *)
Record repr (F : mem) (w : al_world) (s : seq_spec) : Prop := {
  rp_size : al_item_size (al w) = sq_size s;
  rp_size_ok : 0 < sq_size s ≤ 2 ^ 62;
  rp_items : Forall (λ x, Z.of_nat (length x) = sq_size s) (sq_items s);
  rp_length : al_length (al w) = Z.of_nat (length (sq_items s));
  rp_cap : al_current_size (al w) = sq_cap s;
  rp_alloc : al_alloc (al w) = sq_dynamic s;
  rp_data : 0 ≤ al_data (al w) ∧ (al_data (al w) = 0 → sq_cap s = 0);
  rp_addr : al_data (al w) + sq_cap s ≤ 2 ^ 63;
  rp_block : ∃ rest, block (al_mem w) (al_data (al w)) (concat (sq_items s) ++ rest) ∧
               Z.of_nat (length (concat (sq_items s) ++ rest)) = sq_cap s;
  rp_frame : ∀ a x, F !! a = Some x →
               al_mem w !! a = Some x ∧ (a < al_data (al w) ∨ al_data (al w) + sq_cap s ≤ a);
}.

Lemma length_items sz (xs : list (list Z)) :
  Forall (λ x, Z.of_nat (length x) = sz) xs → Z.of_nat (length (concat xs)) = sz * Z.of_nat (length xs).
Proof. induction 1 as [|x xs Hx _ IH]; simpl; [lia|]. rewrite length_app. lia. Qed.

Section Ops.
Context (F : mem) (w : al_world) (s : seq_spec) (R : repr F w s).

Lemma items_fit : sq_size s * Z.of_nat (length (sq_items s)) ≤ sq_cap s.
Proof using R.
  destruct (rp_block _ _ _ R) as (rest & _ & Hl). rewrite length_app in Hl.
  rewrite <- (length_items _ _ (rp_items _ _ _ R)). lia.
Qed.

Lemma al_length_run : aws_array_list_length w = Some (Z.of_nat (length (sq_items s)), w).
Proof using R.
  unfold aws_array_list_length. mrun. rewrite (rp_length _ _ _ R).
  pose proof items_fit. pose proof (rp_size_ok _ _ _ R). pose proof (rp_data _ _ _ R).
  destruct (Z.eqb_spec (Z.of_nat (length (sq_items s))) 0); [done|].
  destruct (Z.eqb_spec (al_data (al w)) 0); [nia|done].
Qed.

(** Where the item [i] is. *)
Lemma item_block i x :
  sq_items s !! i = Some x →
  block (al_mem w) (al_data (al w) + sq_size s * Z.of_nat i) x.
Proof using R.
  intros Hx. destruct (rp_block _ _ _ R) as (rest & Hb & _).
  rewrite <- (take_drop_middle _ _ _ Hx), concat_app in Hb. simpl in Hb.
  rewrite <- !app_assoc, !block_app in Hb. destruct Hb as (_ & Hb & _).
  rewrite length_items with (sz := sq_size s) in Hb by apply Forall_take, (rp_items _ _ _ R).
  rewrite length_take in Hb. apply lookup_lt_Some in Hx.
  by replace (Nat.min i (length (sq_items s))) with i in Hb by lia.
Qed.

Lemma load_item i x n :
  sq_items s !! i = Some x → n = sq_size s →
  load_bytes (al_data (al w) + sq_size s * Z.of_nat i) n w = Some (x, w).
Proof using R.
  intros Hx ->. apply load_bytes_run; [by apply item_block|].
  pose proof (rp_items _ _ _ R) as Hf. rewrite Forall_lookup in Hf. symmetry. by eapply Hf.
Qed.

(** Address arithmetic of the code does not wrap. *)
Lemma item_addr i :
  0 ≤ i → sq_size s * i ≤ sq_cap s →
  u64 (al_data (al w) + u64 (al_item_size (al w) * i)) = al_data (al w) + sq_size s * i.
Proof using R.
  intros Hi Hc. pose proof (rp_data _ _ _ R). pose proof (rp_addr _ _ _ R).
  pose proof (rp_size_ok _ _ _ R). rewrite (rp_size _ _ _ R).
  assert (0 ≤ sq_size s * i) by nia. rewrite (u64_small (_ * _)), u64_small by lia. done.
Qed.
End Ops.

(** ** Growing *)

Definition set_error (e : Z) (w : al_world) : al_world :=
  {| al := al w; al_mem := al_mem w; last_error := e |}.

Lemma repr_error F w s e : repr F w s → repr F (set_error e w) s.
Proof. intros []. by split. Qed.

Lemma raise_run e w : aws_raise_error e w = Some (AWS_OP_ERR, set_error e w).
Proof. done. Qed.

(** A fresh block holds none of the bytes in use. *)
Lemma acquire_keeps m p fill q bs :
  (∀ a, p ≤ a < p + Z.of_nat (length fill) → m !! a = None) →
  block m q bs → block (mem_acquire p fill m) q bs.
Proof.
  intros Hfr Hb. eapply block_agree; [|exact Hb]. intros a Ha. rewrite mem_acquire_lookup.
  destruct (decide _) as [Hin|]; [|done].
  destruct (block_allocated _ _ _ Hb a Ha) as [x Hx]. by rewrite Hfr in Hx.
Qed.

(** The list moves to a new block that starts with the items [ys]. *)
Lemma move_block F w s p fill src ys rest :
  repr F w s → Forall (λ y, Z.of_nat (length y) = sq_size s) ys → src = concat ys ++ rest →
  0 < p → (length src ≤ length fill)%nat → p + Z.of_nat (length fill) ≤ 2 ^ 63 →
  (∀ a, p ≤ a < p + Z.of_nat (length fill) → al_mem w !! a = None) →
  ∃ m, mem_store (mem_acquire p fill (al_mem w)) p src = Some m ∧
    ∀ m' n, m' = m ∨ m' = mem_release (al_data (al w)) (sq_cap s) m → n = Z.of_nat (length ys) →
      repr F {| al := set_al_length n (set_al_block p (Z.of_nat (length fill)) (al w));
                al_mem := m'; last_error := last_error w |}
        (with_items ys (with_cap (Z.of_nat (length fill)) s)).
Proof.
  intros R Hf Ho Hp Hle Hend Hfr.
  destruct (rp_block _ _ _ R) as (rest0 & Hb0 & Hl0).
  pose proof (block_allocated _ _ _ Hb0) as Hal. rewrite Hl0 in Hal.
  assert (∀ a, p ≤ a < p + Z.of_nat (length fill) →
    a < al_data (al w) ∨ al_data (al w) + sq_cap s ≤ a) as Hdis.
  { intros a Ha. destruct (decide (al_data (al w) ≤ a < al_data (al w) + sq_cap s)) as [H|H]; [|lia].
    destruct (Hal a H) as [x Hx]. by rewrite Hfr in Hx. }
  assert (block (mem_acquire p fill (al_mem w)) p
    ([] ++ take (length src) fill ++ drop (length src) fill)) as Hb1.
  { rewrite app_nil_l, take_drop. apply acquire_block. }
  destruct (block_store_mid _ _ _ _ _ src Hb1) as (m & Hs & Hbm & Hom).
  { rewrite length_take. lia. }
  simpl in Hs, Hbm, Hom. rewrite Z.add_0_r in Hs.
  rewrite length_app, length_take, length_drop in Hom.
  exists m. split; [done|]. intros m' n Hm' ->.
  assert (∀ a, a < al_data (al w) ∨ al_data (al w) + sq_cap s ≤ a → m' !! a = m !! a) as Hrel.
  { intros a Ha. destruct Hm' as [-> | ->]; [done|]. by apply release_outside. }
  destruct R. split; simpl; try done; try lia.
  - exists (rest ++ drop (length src) fill). rewrite app_assoc, <- Ho. split.
    + eapply block_agree; [|exact Hbm]. intros a Ha. rewrite length_app, length_drop in Ha.
      apply Hrel, Hdis. lia.
    + rewrite length_app, length_drop. lia.
  - intros a x Hx. destruct (rp_frame0 a x Hx) as [Hax Hout].
    assert (¬ (p ≤ a < p + Z.of_nat (length fill))) as Hna.
    { intros Hin. rewrite Hfr in Hax by done. done. }
    rewrite Hrel, Hom by lia. rewrite mem_acquire_lookup, decide_False by done. split; [done|lia].
Qed.

Lemma ensure_run F w s acq i :
  repr F w s → fresh_blocks acq (al_mem w) → 0 ≤ i → (i + 1) * sq_size s < W64 → i + 1 < W64 →
  match grow acq ((i + 1) * sq_size s) s with
  | inl e => aws_array_list_ensure_capacity acq i w = Some (AWS_OP_ERR, set_error e w)
  | inr s' => ∃ w', aws_array_list_ensure_capacity acq i w = Some (AWS_OP_SUCCESS, w') ∧ repr F w' s'
  end.
Proof.
  intros R Hfr Hi Hn Hi2. unfold aws_array_list_ensure_capacity, grow. rewrite M_get. cbv zeta.
  pose proof (rp_size_ok _ _ _ R). pose proof (rp_addr _ _ _ R). pose proof (rp_data _ _ _ R) as Hd.
  pose proof (items_fit _ _ _ R).
  rewrite (rp_size _ _ _ R), (rp_cap _ _ _ R), (rp_alloc _ _ _ R).
  rewrite (u64_small (i + 1)), u64_small by nia.
  destruct (Z.leb_spec ((i + 1) * sq_size s) (sq_cap s)) as [Hle|Hgt].
  { bool_lia. by exists w. }
  bool_lia. destruct (sq_dynamic s) eqn:Hdyn; cbn [negb]; [|by rewrite raise_run].
  rewrite Z.shiftl_mul_pow2 by lia. change (2 ^ 1) with 2.
  rewrite (u64_small (sq_cap s * 2)) by (split; [nia|]; lia).
  replace (if (i + 1) * sq_size s <? sq_cap s * 2 then sq_cap s * 2 else (i + 1) * sq_size s)
    with (Z.max (2 * sq_cap s) ((i + 1) * sq_size s)) by (case_bool; lia).
  set (n := Z.max (2 * sq_cap s) ((i + 1) * sq_size s)).
  rewrite (proj2 (Z.ltb_ge n _)) by lia.
  destruct (acq n) as [[p fill]|] eqn:Ha; [|by rewrite raise_run].
  destruct (Hfr _ _ _ Ha) as (Hlf & Hp & Hend & Hnone).
  destruct (rp_block _ _ _ R) as (rest & Hb & Hl).
  destruct (move_block F w s p fill _ _ rest R (rp_items _ _ _ R) eq_refl Hp) as (m & Hs & Hr);
    [lia|lia|by rewrite Hlf|].
  assert (block (mem_acquire p fill (al_mem w)) (al_data (al w)) (concat (sq_items s) ++ rest)) as Hb2.
  { apply acquire_keeps; [by rewrite Hlf|done]. }
  rewrite Hlf in *. rewrite M_modify.
  destruct (Z.eqb_spec (al_data (al w)) 0) as [Hz|Hz]; cbn [negb].
  - mnext. eexists. split; [reflexivity|]. 
    assert (old_nil : concat (sq_items s) ++ rest = []).
    { apply length_zero_iff_nil. lia. }
    rewrite old_nil in Hs. simpl in Hs. injection Hs as <-.
    apply (Hr _ _ (or_introl eq_refl) (rp_length _ _ _ R)).
  - rewrite M_assoc. erewrite bind_Some by (eapply load_bytes_run; [exact Hb2|by rewrite Hl]).
    rewrite M_assoc. erewrite bind_Some by (apply store_bytes_run; exact Hs).
    repeat mnext. simpl. rewrite (rp_cap _ _ _ R). eexists. split; [reflexivity|].
    apply (Hr _ _ (or_intror eq_refl) (rp_length _ _ _ R)).
Qed.

(** ** Items *)

(** A change of the bytes of the list's own block. *)
Lemma repr_bytes F w s m n xs rest :
  repr F w s → Forall (λ x, Z.of_nat (length x) = sq_size s) xs →
  block m (al_data (al w)) (concat xs ++ rest) → Z.of_nat (length (concat xs ++ rest)) = sq_cap s →
  (∀ a, a < al_data (al w) ∨ al_data (al w) + sq_cap s ≤ a → m !! a = al_mem w !! a) →
  n = Z.of_nat (length xs) →
  repr F (set_al (set_al_length n (al w)) (set_al_mem m w)) (with_items xs s).
Proof.
  intros [] Hf Hb Hl Hout ->. split; simpl; try done; [by exists rest|].
  intros a x Hx. destruct (rp_frame0 a x Hx) as [Hax Ho]. split; [|done]. by rewrite Hout.
Qed.

(** Dropping items at the end touches no memory. *)
Lemma repr_truncate F w s k :
  repr F w s → (k ≤ length (sq_items s))%nat →
  repr F (set_al (set_al_length (Z.of_nat k) (al w)) w) (with_items (take k (sq_items s)) s).
Proof.
  intros R Hk. destruct (rp_block _ _ _ R) as (rest & Hb & Hl).
  destruct w as [l m e]. apply (repr_bytes F _ s m _ _ (concat (drop k (sq_items s)) ++ rest) R).
  - apply Forall_take, R.
  - by rewrite app_assoc, <- concat_app, take_drop.
  - by rewrite app_assoc, <- concat_app, take_drop.
  - done.
  - rewrite length_take. lia.
Qed.

Lemma length_put_item i v (xs : list (list Z)) :
  (i ≤ length xs)%nat → length (put_item i v xs) = Nat.max (length xs) (S i).
Proof. intros Hi. unfold put_item. rewrite length_app, length_take. simpl. rewrite length_drop. lia. Qed.

Lemma store_item F w s i v :
  repr F w s → (i ≤ length (sq_items s))%nat → (Z.of_nat i + 1) * sq_size s ≤ sq_cap s →
  Z.of_nat (length v) = sq_size s →
  ∃ m, mem_store (al_mem w) (al_data (al w) + sq_size s * Z.of_nat i) v = Some m ∧
    repr F (set_al (set_al_length (Z.of_nat (Nat.max (length (sq_items s)) (S i))) (al w)) (set_al_mem m w))
      (with_items (put_item i v (sq_items s)) s).
Proof.
  intros R Hi Hfit Hv. destruct (rp_block _ _ _ R) as (rest & Hb & Hl).
  pose proof (rp_items _ _ _ R) as Hf. set (xs := sq_items s) in *.
  assert (∃ B C, concat (drop i xs) ++ rest = B ++ C ∧ length B = length v ∧
    ∃ rest', C = concat (drop (S i) xs) ++ rest') as (B & C & HBC & HB & rest' & HC).
  { destruct (decide (i < length xs)%nat) as [Hlt|Hge].
    - destruct (lookup_lt_is_Some_2 xs i Hlt) as [x Hx]. exists x, (concat (drop (S i) xs) ++ rest).
      rewrite (drop_S _ _ _ Hx). simpl. rewrite app_assoc. split; [done|].
      split; [|by exists rest]. rewrite Forall_lookup in Hf. specialize (Hf _ _ Hx). lia.
    - exists (take (length v) rest), (drop (length v) rest).
      rewrite (drop_ge xs i), (drop_ge xs (S i)) by lia. simpl. rewrite take_drop. split; [done|]. split; [|by exists (drop (length v) rest)].
      rewrite length_take. rewrite length_app in Hl.
      pose proof (length_items _ _ Hf). nia. }
  assert (concat xs ++ rest = concat (take i xs) ++ B ++ C) as Hsplit.
  { rewrite <- HBC, app_assoc, <- concat_app, take_drop. done. }
  assert (Z.of_nat (length (concat (take i xs))) = sq_size s * Z.of_nat i) as Hoff.
  { rewrite length_items with (sz := sq_size s) by (by apply Forall_take). rewrite length_take. f_equal. lia. }
  rewrite Hsplit in Hb. destruct (block_store_mid _ _ _ _ _ v Hb ltac:(done)) as (m & Hs & Hb' & Hout).
  rewrite Hoff in Hs. exists m. split; [done|].
  rewrite <- Hsplit, Hl in Hout. rewrite Hsplit in Hl. subst C.
  assert (concat (take i xs) ++ v ++ concat (drop (S i) xs) ++ rest' = concat (put_item i v xs) ++ rest') as Heq.
  { unfold put_item. rewrite concat_app. simpl. by rewrite <- !app_assoc. }
  apply (repr_bytes F w s m _ _ rest' R).
  - unfold put_item. apply Forall_app. split; [by apply Forall_take|]. constructor; [done|by apply Forall_drop].
  - by rewrite <- Heq.
  - rewrite <- Heq, <- Hl, !length_app. lia.
  - done.
  - by rewrite length_put_item.
Qed.

Lemma grow_keeps acq need s s' :
  grow acq need s = inr s' →
  sq_items s' = sq_items s ∧ sq_size s' = sq_size s ∧ need ≤ sq_cap s'.
Proof.
  unfold grow. destruct (Z.leb_spec need (sq_cap s)); [by intros [= <-]|].
  destruct (sq_dynamic s); [|done]. simpl. destruct (acq _); [|done].
  intros [= <-]. simpl. split_and!; [done..|lia].
Qed.

(** The test before the call of [aws_array_list_ensure_capacity] repeats its own. *)
Lemma ensure_guard acq i w :
  ((if al_current_size (al w) <? u64 (u64 (i + 1) * al_item_size (al w))
    then aws_array_list_ensure_capacity acq i else mret 0) : M al_world Z) w =
  aws_array_list_ensure_capacity acq i w.
Proof.
  destruct (_ <? _) eqn:E; [done|]. unfold aws_array_list_ensure_capacity. rewrite M_get.
  cbv zeta. by rewrite E.
Qed.

Lemma length_run_mem F w s m :
  repr F w s →
  aws_array_list_length (set_al_mem m w) = Some (Z.of_nat (length (sq_items s)), set_al_mem m w).
Proof.
  intros R. pose proof (al_length_run F w s R) as Hlen. revert Hlen.
  unfold aws_array_list_length. mrun. destruct (_ || _); [|done]. intros [=Hx]. by rewrite Hx.
Qed.

Lemma set_item_run F w s acq i v :
  repr F w s → fresh_blocks acq (al_mem w) → (i ≤ length (sq_items s))%nat →
  sq_size s ≤ Z.of_nat (length v) →
  match grow acq ((Z.of_nat i + 1) * sq_size s) s with
  | inl e => aws_array_list_set_at acq v (Z.of_nat i) w = Some (AWS_OP_ERR, set_error e w)
  | inr s' => ∃ w', aws_array_list_set_at acq v (Z.of_nat i) w = Some (AWS_OP_SUCCESS, w') ∧
                repr F w' (with_items (put_item i (item_of v s') (sq_items s)) s')
  end.
Proof.
  intros R Hfr Hi Hv. pose proof (rp_size_ok _ _ _ R). pose proof (rp_addr _ _ _ R).
  pose proof (rp_data _ _ _ R). pose proof (items_fit _ _ _ R).
  assert ((Z.of_nat i + 1) * sq_size s < W64) as Hb1 by nia.
  assert (Z.of_nat i + 1 < W64) as Hb2 by nia.
  pose proof (ensure_run F w s acq (Z.of_nat i) R Hfr ltac:(lia) Hb1 Hb2) as He.
  unfold aws_array_list_set_at. rewrite M_get. cbv zeta.
  destruct (grow acq _ s) as [e|s'] eqn:Hg.
  { rewrite <- ensure_guard in He. rewrite (bind_Some _ _ _ _ _ He). done. }
  destruct He as (w' & He & R'). rewrite <- ensure_guard in He. rewrite (bind_Some _ _ _ _ _ He).
  change (negb (AWS_OP_SUCCESS =? 0)) with false. cbv iota. rewrite M_get.
  destruct (grow_keeps _ _ _ _ Hg) as (Hit & Hsz & Hcap). clear He.
  rewrite (rp_size _ _ _ R'), Hsz.
  rewrite (proj2 (Z.leb_le _ _)) by lia. rewrite M_assert.
  rewrite <- Hit, <- Hsz in *.
  assert (Z.of_nat (length (item_of v s')) = sq_size s') as Hiv by (unfold item_of; rewrite length_take; lia).
  destruct (store_item F w' s' i (item_of v s') R' Hi Hcap Hiv) as (m & Hs & R2).
  pose proof (item_addr F w' s' R' (Z.of_nat i)) as Haddr. rewrite (rp_size _ _ _ R') in Haddr.
  rewrite Haddr by nia. fold (item_of v s').
  rewrite (bind_Some _ _ _ _ _ (store_bytes_run _ _ _ _ Hs)).
  rewrite (bind_Some _ _ _ _ _ (length_run_mem F w' s' m R')).
  destruct (Z.leb_spec (Z.of_nat (length (sq_items s'))) (Z.of_nat i)) as [Hle|Hlt].
  - repeat mnext. eexists. split; [reflexivity|].
    replace (Nat.max (length (sq_items s')) (S i)) with (S i) in R2 by lia.
    rewrite u64_small by nia. replace (Z.of_nat i + 1) with (Z.of_nat (S i)) by lia. exact R2.
  - repeat mnext. eexists. split; [reflexivity|].
    replace (Nat.max (length (sq_items s')) (S i)) with (length (sq_items s')) in R2 by lia.
    rewrite <- (rp_length _ _ _ R') in R2. by destruct w' as [[] ? ?].
Qed.

Lemma al_push_run F w s acq v :
  repr F w s → fresh_blocks acq (al_mem w) → sq_size s ≤ Z.of_nat (length v) →
  match grow acq ((Z.of_nat (length (sq_items s)) + 1) * sq_size s) s with
  | inl e => aws_array_list_push_back acq v w =
      Some (AWS_OP_ERR, set_error (if sq_dynamic s then e else AWS_ERROR_LIST_EXCEEDS_MAX_SIZE) w)
  | inr s' => ∃ w', aws_array_list_push_back acq v w = Some (AWS_OP_SUCCESS, w') ∧
                repr F w' (with_items (sq_items s ++ [item_of v s']) s')
  end.
Proof.
  intros R Hfr Hv. pose proof (set_item_run F w s acq (length (sq_items s)) v R Hfr ltac:(lia) Hv) as Hs.
  unfold aws_array_list_push_back. rewrite (bind_Some _ _ _ _ _ (al_length_run F w s R)).
  unfold put_item in Hs. rewrite take_ge, drop_ge in Hs by lia. unfold grow in *.
  destruct (_ <=? _).
  { destruct Hs as (w' & Hs & R'). rewrite (bind_Some _ _ _ _ _ Hs). by exists w'. }
  destruct (sq_dynamic s) eqn:Hd; cbn [negb] in *.
  - destruct (acq _).
    + destruct Hs as (w' & Hs & R'). rewrite (bind_Some _ _ _ _ _ Hs). by exists w'.
    + rewrite (bind_Some _ _ _ _ _ Hs). unfold aws_last_error. done.
  - rewrite (bind_Some _ _ _ _ _ Hs). unfold aws_last_error. rewrite M_gets, M_get.
    simpl. by rewrite (rp_alloc _ _ _ R), Hd.
Qed.

Lemma al_clear_run F w s :
  repr F w s → ∃ w', aws_array_list_clear w = Some (tt, w') ∧ repr F w' (with_items [] s).
Proof.
  intros R. unfold aws_array_list_clear, modify. eexists. split; [reflexivity|].
  pose proof (repr_truncate F w s 0 R ltac:(lia)) as R0.
  destruct (Z.eqb_spec (al_data (al w)) 0) as [Hz|Hz]; simpl; [|exact R0].
  assert (sq_items s = []) as Hnil.
  { pose proof (items_fit _ _ _ R). pose proof (rp_size_ok _ _ _ R). pose proof (rp_data _ _ _ R).
    apply length_zero_iff_nil. nia. }
  by destruct s; simpl in *; subst.
Qed.

Lemma al_pop_back_run F w s :
  repr F w s → sq_items s ≠ [] →
  ∃ w', aws_array_list_pop_back w = Some (AWS_OP_SUCCESS, w') ∧
    repr F w' (with_items (take (length (sq_items s) - 1) (sq_items s)) s).
Proof.
  intros R Hne. pose proof (items_fit _ _ _ R). pose proof (rp_size_ok _ _ _ R).
  pose proof (rp_data _ _ _ R) as [Hd0 Hd]. pose proof (rp_addr _ _ _ R).
  set (xs := sq_items s) in *. assert (0 < length xs)%nat as Hpos by (destruct xs; [done|simpl; lia]).
  unfold aws_array_list_pop_back. rewrite (bind_Some _ _ _ _ _ (al_length_run F w s R)).
  fold xs. rewrite (proj2 (Z.ltb_lt 0 _)) by lia. rewrite M_get.
  rewrite (proj2 (Z.eqb_neq (al_data (al w)) 0)) by nia. cbn [negb]. rewrite M_assert. cbv zeta.
  rewrite (u64_small (Z.of_nat (length xs) - 1)) by nia.
  replace (Z.of_nat (length xs) - 1) with (Z.of_nat (length xs - 1)) by lia.
  rewrite (item_addr F w s R), (rp_size _ _ _ R) by nia.
  destruct (store_item F w s (length xs - 1) (replicate (Z.to_nat (sq_size s)) 0) R) as (m & Hs & R2);
    [fold xs; lia|nia|rewrite length_replicate; lia|].
  rewrite (bind_Some _ _ _ _ _ (store_bytes_run _ _ _ _ Hs)).
  repeat mnext. eexists. split; [reflexivity|]. simpl.
  rewrite (rp_length _ _ _ R). fold xs. rewrite u64_small by nia.
  apply (repr_truncate _ _ _ (length xs - 1)) in R2;
    [|unfold with_items; simpl; rewrite length_put_item; fold xs; lia].
  replace (Z.of_nat (length xs) - 1) with (Z.of_nat (length xs - 1)) by lia.
  unfold with_items in *. simpl in R2. unfold put_item in R2. fold xs in R2.
  rewrite take_app_le, take_take, Nat.min_id in R2 by (rewrite length_take; lia). exact R2.
Qed.

Lemma pop_front_n_run F w s n :
  repr F w s → Z.of_nat n < W64 →
  ∃ w', aws_array_list_pop_front_n (Z.of_nat n) w = Some (tt, w') ∧
    repr F w' (with_items (drop n (sq_items s)) s).
Proof.
  intros R Hn. pose proof (items_fit _ _ _ R). pose proof (rp_size_ok _ _ _ R).
  pose proof (rp_data _ _ _ R). pose proof (rp_addr _ _ _ R).
  unfold aws_array_list_pop_front_n. rewrite (bind_Some _ _ _ _ _ (al_length_run F w s R)).
  set (xs := sq_items s) in *.
  destruct (Z.leb_spec (Z.of_nat (length xs)) (Z.of_nat n)) as [Hle|Hlt].
  { rewrite drop_ge by lia. by apply al_clear_run. }
  destruct (Z.ltb_spec 0 (Z.of_nat n)) as [Hpos|Hz].
  2:{ replace n with 0%nat by lia. exists w. split; [done|]. by destruct s. }
  rewrite M_get. cbv zeta.
  rewrite (item_addr F w s R), (rp_size _ _ _ R) by nia.
  rewrite (u64_small (Z.of_nat (length xs) - Z.of_nat n)) by nia.
  rewrite (u64_small (_ * sq_size s)) by nia.
  destruct (rp_block _ _ _ R) as (rest & Hb & Hl). fold xs in Hb, Hl.
  pose proof (rp_items _ _ _ R) as Hf. fold xs in Hf.
  assert (Z.of_nat (length (concat (take n xs))) = sq_size s * Z.of_nat n) as Hoff.
  { rewrite length_items with (sz := sq_size s) by (by apply Forall_take). rewrite length_take. f_equal. lia. }
  assert (Z.of_nat (length (concat (drop n xs))) = sq_size s * (Z.of_nat (length xs) - Z.of_nat n)) as Hrem.
  { rewrite length_items with (sz := sq_size s) by (by apply Forall_drop). rewrite length_drop. f_equal. lia. }
  assert (block (al_mem w) (al_data (al w) + sq_size s * Z.of_nat n) (concat (drop n xs))) as Hmid.
  { rewrite <- Hoff. rewrite <- (take_drop n xs), concat_app, <- app_assoc, !block_app in Hb. tauto. }
  erewrite bind_Some by (eapply load_bytes_run; [exact Hmid|lia]).
  set (old := concat xs ++ rest) in *. set (k := length (concat (drop n xs))).
  assert (k ≤ length old)%nat by nia.
  assert (block (al_mem w) (al_data (al w)) ([] ++ take k old ++ drop k old)) as Hb2.
  { by rewrite app_nil_l, take_drop. }
  destruct (block_store_mid _ _ _ _ _ (concat (drop n xs)) Hb2) as (m & Hs & Hb3 & Hout).
  { rewrite length_take. fold k. lia. }
  simpl in Hs, Hb3, Hout. rewrite Z.add_0_r in Hs. rewrite take_drop in Hout.
  rewrite (bind_Some _ _ _ _ _ (store_bytes_run _ _ _ _ Hs)).
  eexists. split; [reflexivity|]. simpl.
  apply (repr_bytes F w s m _ _ (drop k old) R); [by apply Forall_drop|done| | |].
  - rewrite length_app, length_drop. fold k. lia.
  - by rewrite <- Hl.
  - rewrite length_drop. lia.
Qed.

Lemma get_at_ptr_run F w s i :
  repr F w s → (i < length (sq_items s))%nat →
  aws_array_list_get_at_ptr (Z.of_nat i) w =
    Some ((AWS_OP_SUCCESS, al_data (al w) + sq_size s * Z.of_nat i), w).
Proof.
  intros R Hi. pose proof (items_fit _ _ _ R). pose proof (rp_size_ok _ _ _ R).
  unfold aws_array_list_get_at_ptr. rewrite (bind_Some _ _ _ _ _ (al_length_run F w s R)).
  rewrite (proj2 (Z.ltb_lt _ _)) by lia. rewrite M_get, (item_addr F w s R) by nia. done.
Qed.

(** Two elements of a list, and the list with them exchanged. *)
Lemma swap_items_split (xs : list (list Z)) a b x y :
  (a < b)%nat → xs !! a = Some x → xs !! b = Some y →
  ∃ l1 l2 l3, xs = l1 ++ x :: l2 ++ y :: l3 ∧ length l1 = a ∧ length l2 = (b - a - 1)%nat ∧
    swap_items a b xs = l1 ++ y :: l2 ++ x :: l3 ∧ swap_items b a xs = l1 ++ y :: l2 ++ x :: l3.
Proof.
  intros Hab Hx Hy. pose proof (lookup_lt_Some _ _ _ Hx). pose proof (lookup_lt_Some _ _ _ Hy).
  destruct (list_elem_of_split_length xs a x Hx) as (l1 & l' & -> & ->).
  rewrite lookup_app_r in Hy by lia.
  replace (b - length l1)%nat with (S (b - length l1 - 1)) in Hy by lia. simpl in Hy.
  destruct (list_elem_of_split_length l' _ y Hy) as (l2 & l3 & -> & Hl2).
  assert (swap_items (length l1) b (l1 ++ x :: l2 ++ y :: l3) = l1 ++ y :: l2 ++ x :: l3) as Hsw.
  { unfold swap_items.
    rewrite (list_lookup_total_correct _ (length l1) x) by (by apply list_lookup_middle).
    rewrite (list_lookup_total_correct _ b y)
      by (rewrite lookup_app_r by lia; replace (b - length l1)%nat with (S (length l2)) by lia; simpl;
          by apply list_lookup_middle).
    rewrite (insert_app_r_alt l1 _ b) by lia.
    replace (b - length l1)%nat with (S (length l2)) by lia. simpl.
    rewrite (insert_app_r_alt l2), Nat.sub_diag by lia. simpl.
    by rewrite insert_app_r_alt, Nat.sub_diag by lia. }
  exists l1, l2, l3. split_and!; [done..|lia|done|].
  rewrite <- Hsw. unfold swap_items. apply list_insert_insert_ne. lia.
Qed.

(** The exchange of two items of the list's block. *)
Lemma swap_in_block m m' p l1 x l2 y l3 rest (sz : Z) :
  block m p (concat (l1 ++ x :: l2 ++ y :: l3) ++ rest) →
  Forall (λ x, Z.of_nat (length x) = sz) (l1 ++ x :: l2 ++ y :: l3) →
  swapped m m' (p + sz * Z.of_nat (length l1)) (p + sz * Z.of_nat (S (length l1 + length l2))) x y →
  block m' p (concat (l1 ++ y :: l2 ++ x :: l3) ++ rest) ∧
  (∀ a, a < p ∨ p + Z.of_nat (length (concat (l1 ++ x :: l2 ++ y :: l3) ++ rest)) ≤ a →
    m' !! a = m !! a) ∧
  length (concat (l1 ++ y :: l2 ++ x :: l3) ++ rest) =
    length (concat (l1 ++ x :: l2 ++ y :: l3) ++ rest).
Proof.
  intros Hb Hf (Hx & Hy & Hout).
  rewrite !concat_app in *. cbn [concat] in *. rewrite !concat_app in *. cbn [concat] in *.
  rewrite <- !app_assoc in *. rewrite !length_app.
  apply Forall_app in Hf as [Hf1 Hf]. apply Forall_cons in Hf as [Lx Hf].
  apply Forall_app in Hf as [Hf2 Hf]. apply Forall_cons in Hf as [Ly Hf3].
  pose proof (length_items _ _ Hf1) as E1. pose proof (length_items _ _ Hf2) as E2.
  rewrite !block_app in Hb |- *. destruct Hb as (B1 & _ & B2 & _ & B3 & B4).
  assert (∀ q bs, block m q bs →
    (∀ a, q ≤ a < q + Z.of_nat (length bs) →
       (a < p + sz * Z.of_nat (length l1) ∨ p + sz * Z.of_nat (length l1) + sz ≤ a) ∧
       (a < p + sz * Z.of_nat (S (length l1 + length l2)) ∨
        p + sz * Z.of_nat (S (length l1 + length l2)) + sz ≤ a)) → block m' q bs) as Hkeep.
  { intros q bs Hq Hr. eapply block_agree; [|exact Hq]. intros a Ha. apply Hout; specialize (Hr a Ha); lia. }
  assert (sz * Z.of_nat (S (length l1 + length l2)) =
    sz * Z.of_nat (length l1) + sz + sz * Z.of_nat (length l2)) as Hoff by lia.
  split_and!.
  - apply Hkeep; [done|]. intros a Ha. lia.
  - by rewrite E1.
  - rewrite Ly, <- Lx. apply Hkeep; [done|]. intros a Ha. lia.
  - rewrite E1, Ly, E2. replace (p + _ + _ + _) with (p + sz * Z.of_nat (S (length l1 + length l2))) by lia.
    done.
  - rewrite E1, Ly, E2, Lx. rewrite E1, Lx, E2, Ly in B3. apply Hkeep; [done|]. intros a Ha. lia.
  - rewrite E1, Ly, E2, Lx. rewrite E1, Lx, E2, Ly in B4. apply Hkeep; [done|]. intros a Ha. lia.
  - intros a Ha. apply Hout; lia.
  - lia.
Qed.

Lemma swapped_sym m m' p1 p2 b1 b2 : swapped m m' p1 p2 b1 b2 → swapped m m' p2 p1 b2 b1.
Proof. intros (H1 & H2 & H3). split_and!; [done..|]. intros a Ha Hb. by apply H3. Qed.

(** The same, by index. *)
Lemma swapped_repr F w s m a b x y :
  repr F w s → (a < b)%nat → sq_items s !! a = Some x → sq_items s !! b = Some y →
  swapped (al_mem w) m (al_data (al w) + sq_size s * Z.of_nat a)
    (al_data (al w) + sq_size s * Z.of_nat b) x y →
  repr F (set_al_mem m w) (with_items (swap_items a b (sq_items s)) s) ∧
  swap_items b a (sq_items s) = swap_items a b (sq_items s).
Proof.
  intros R Hab Hx Hy Hsw.
  destruct (swap_items_split _ _ _ _ _ Hab Hx Hy) as (l1 & l2 & l3 & Hxs & <- & Hl2 & -> & ->).
  split; [|done]. destruct (rp_block _ _ _ R) as (rest & Hb & Hl). pose proof (rp_items _ _ _ R) as Hf.
  replace b with (S (length l1 + length l2)) in Hsw by lia. rewrite Hxs in Hb, Hl, Hf.
  destruct (swap_in_block _ m _ _ _ _ _ _ _ _ Hb Hf Hsw) as (Hb' & Hout & Hlen).
  rewrite Hl in Hout.
  replace (set_al_mem m w) with (set_al (set_al_length (al_length (al w)) (al w)) (set_al_mem m w))
    by (by destruct w as [[] ? ?]).
  apply (repr_bytes F w s m _ _ rest R); [|done|lia|done|].
  - rewrite !Forall_app, !Forall_cons, !Forall_app, !Forall_cons in *. tauto.
  - rewrite (rp_length _ _ _ R), Hxs, !length_app. simpl. rewrite !length_app. simpl. lia.
Qed.

Lemma swap_run F w s a b :
  repr F w s → (a < length (sq_items s))%nat → (b < length (sq_items s))%nat →
  ∃ w', aws_array_list_swap (Z.of_nat a) (Z.of_nat b) w = Some (tt, w') ∧
    repr F w' (with_items (swap_items a b (sq_items s)) s).
Proof.
  intros R Ha Hb. pose proof (items_fit _ _ _ R). pose proof (rp_size_ok _ _ _ R).
  pose proof (rp_data _ _ _ R). pose proof (rp_addr _ _ _ R).
  unfold aws_array_list_swap. rewrite M_get, (rp_length _ _ _ R).
  rewrite !(proj2 (Z.ltb_lt _ _)) by lia. rewrite !M_assert.
  destruct (Z.eqb_spec (Z.of_nat a) (Z.of_nat b)) as [He|Hne].
  { assert (a = b) as <- by lia. exists w. split; [done|]. unfold swap_items.
    destruct (lookup_lt_is_Some_2 (sq_items s) a Ha) as [x Hx].
    rewrite (list_lookup_total_correct _ _ _ Hx), !(list_insert_id _ _ _ Hx).
    by destruct s. }
  rewrite (bind_Some _ _ _ _ _ (get_at_ptr_run F w s a R Ha)).
  rewrite (bind_Some _ _ _ _ _ (get_at_ptr_run F w s b R Hb)). cbn [fst snd].
  rewrite (rp_size _ _ _ R).
  destruct (lookup_lt_is_Some_2 (sq_items s) a Ha) as [x Hx].
  destruct (lookup_lt_is_Some_2 (sq_items s) b Hb) as [y Hy].
  pose proof (rp_items _ _ _ R) as Hf. rewrite Forall_lookup in Hf.
  pose proof (Hf _ _ Hx) as Lx. pose proof (Hf _ _ Hy) as Ly. simpl in Lx, Ly.
  destruct (mem_swap_run w (al_data (al w) + sq_size s * Z.of_nat a)
    (al_data (al w) + sq_size s * Z.of_nat b) x y (sq_size s)) as (m & Hr & Hsw).
  { by apply (item_block F w s R). }
  { by apply (item_block F w s R). }
  { lia. } { lia. }
  { unfold apart. nia. }
  { nia. } { nia. } { nia. } { nia. }
  exists (set_al_mem m w). split; [done|].
  destruct (decide (a < b)%nat) as [Hlt|Hge].
  - by apply (swapped_repr F w s m a b x y R Hlt).
  - apply swapped_sym in Hsw.
    destruct (swapped_repr F w s m b a y x R ltac:(lia) Hy Hx Hsw) as [R' ->]. exact R'.
Qed.

Lemma al_shrink_run F w s acq :
  repr F w s → fresh_blocks acq (al_mem w) →
  ∃ w', coded (aws_array_list_shrink_to_fit acq) w = Some ((al_spec (OpShrink acq) s).1, w') ∧
    repr F w' (al_spec (OpShrink acq) s).2.
Proof.
  intros R Hfr. pose proof (items_fit _ _ _ R). pose proof (rp_size_ok _ _ _ R).
  pose proof (rp_data _ _ _ R). pose proof (rp_addr _ _ _ R).
  unfold coded, aws_array_list_shrink_to_fit. rewrite M_assoc, M_get. cbn [al_spec].
  rewrite (rp_alloc _ _ _ R), (rp_length _ _ _ R), (rp_size _ _ _ R), (rp_cap _ _ _ R).
  set (xs := sq_items s) in *.
  destruct (sq_dynamic s) eqn:Hdyn; cbn [negb].
  2:{ eexists. split; [reflexivity|]. by apply repr_error. }
  cbv zeta. rewrite u64_small by nia. rewrite (Z.mul_comm (Z.of_nat (length xs))).
  destruct (Z.leb_spec (sq_cap s) (sq_size s * Z.of_nat (length xs))) as [Hle|Hgt].
  { bool_lia. by exists w. }
  bool_lia. destruct (Z.eqb_spec (Z.of_nat (length xs)) 0) as [Hz|Hnz].
  { rewrite (proj2 (Z.ltb_ge _ _)) by nia. rewrite M_assoc, M_modify. eexists. split; [reflexivity|].
    assert (xs = []) as Hnil by (apply length_zero_iff_nil; lia).
    replace (sq_size s * Z.of_nat (length xs)) with 0 by nia. destruct R.
    split; simpl; try done.
    - exists []. fold xs. by rewrite Hnil.
    - intros a x Hx. destruct (rp_frame0 a x Hx) as [Hax _]. split; [done|]. lia. }
  rewrite (proj2 (Z.ltb_lt _ _)) by nia.
  destruct (acq (sq_size s * Z.of_nat (length xs))) as [[p fill]|] eqn:Hacq.
  2:{ eexists. split; [reflexivity|]. by apply repr_error. }
  destruct (Hfr _ _ _ Hacq) as (Hlf & Hp & Hend & Hnone).
  pose proof (length_items _ _ (rp_items _ _ _ R)) as Hlc. fold xs in Hlc.
  destruct (rp_block _ _ _ R) as (rest & Hb & Hl). apply block_app in Hb as [Hb _]. fold xs in Hb.
  destruct (move_block F w s p fill (concat xs) xs [] R (rp_items _ _ _ R)) as (m & Hs & Hr);
    [by rewrite app_nil_r|done|lia|lia|by rewrite Hlf|].
  assert (block (mem_acquire p fill (al_mem w)) (al_data (al w)) (concat xs)) as Hb2.
  { apply acquire_keeps; [by rewrite Hlf|done]. }
  rewrite Hlf in *. rewrite M_assoc, M_modify.
  rewrite M_assoc. erewrite bind_Some by (eapply load_bytes_run; [exact Hb2|lia]).
  rewrite M_assoc. erewrite bind_Some by (apply store_bytes_run; exact Hs).
  rewrite !M_assoc, M_modify, M_assoc, M_modify. simpl.
  eexists. split; [reflexivity|]. rewrite (rp_cap _ _ _ R).
  apply (Hr _ _ (or_intror eq_refl) (rp_length _ _ _ R)).
Qed.

(** Copying the items [ys] of a list in the memory of others. *)
Lemma copy_run F w s acq from ys :
  repr F w s → fresh_blocks acq (al_mem w) →
  al_item_size from = sq_size s → al_length from = Z.of_nat (length ys) → 0 < al_data from →
  Forall (λ y, Z.of_nat (length y) = sq_size s) ys → block F (al_data from) (concat ys) →
  al_data from + sq_size s * Z.of_nat (length ys) ≤ 2 ^ 63 →
  ∃ r w', aws_array_list_copy acq from w = Some (r, w') ∧
    if sq_size s * Z.of_nat (length ys) <=? sq_cap s
    then r = AWS_OP_SUCCESS ∧ repr F w' (with_items ys s)
    else if sq_dynamic s && bool_decide (is_Some (acq (sq_size s * Z.of_nat (length ys))))
    then r = AWS_OP_SUCCESS ∧
         repr F w' (with_items ys (with_cap (sq_size s * Z.of_nat (length ys)) s))
    else r = AWS_OP_ERR ∧ repr F w' s.
Proof.
  intros R Hfr Hsz Hlen Hdf Hf Hb Hend. pose proof (rp_size_ok _ _ _ R).
  pose proof (rp_data _ _ _ R). pose proof (rp_addr _ _ _ R).
  pose proof (length_items _ _ Hf) as Hlc. set (n := sq_size s * Z.of_nat (length ys)) in *.
  unfold aws_array_list_copy. rewrite M_get. cbv zeta.
  rewrite Hsz, Hlen, (rp_size _ _ _ R), (rp_cap _ _ _ R), (rp_alloc _ _ _ R), Z.eqb_refl, M_assert.
  rewrite (proj2 (Z.eqb_neq (al_data from) 0)) by lia. cbn [negb]. rewrite M_assert.
  rewrite (Z.mul_comm (Z.of_nat (length ys))). fold n. rewrite u64_small by lia.
  assert (∀ m, (∀ a x, F !! a = Some x → m !! a = Some x) → block m (al_data from) (concat ys)) as Hfrom.
  { intros m Hm. rewrite block_lookup in Hb |- *. intros i Hi. specialize (Hb i Hi).
    destruct (lookup_lt_is_Some_2 (concat ys) i Hi) as [x Hx]. rewrite Hx in *. by apply Hm. }
  destruct (Z.leb_spec n (sq_cap s)) as [Hle|Hgt].
  - destruct (rp_block _ _ _ R) as (rest & Hbk & Hl). set (old := concat (sq_items s) ++ rest) in *.
    set (k := length (concat ys)).
    assert (block (al_mem w) (al_data (al w)) ([] ++ take k old ++ drop k old)) as Hb2
      by (by rewrite app_nil_l, take_drop).
    destruct (block_store_mid _ _ _ _ _ (concat ys) Hb2) as (m & Hs & Hb3 & Hout).
    { rewrite length_take. fold k. lia. }
    simpl in Hs, Hb3, Hout. rewrite Z.add_0_r in Hs. rewrite take_drop in Hout.
    exists AWS_OP_SUCCESS. eexists. split; [|split; [done|]].
    { destruct (Z.ltb_spec 0 n).
      - rewrite M_assoc. erewrite bind_Some.
        2:{ eapply load_bytes_run; [|symmetry; exact Hlc]. apply Hfrom. intros a x Hx. by apply (rp_frame _ _ _ R). }
        erewrite bind_Some by (apply store_bytes_run; exact Hs). repeat mnext. reflexivity.
      - repeat mnext. assert (concat ys = []) as Hnil by (apply length_zero_iff_nil; lia).
        rewrite Hnil in Hs. simpl in Hs. injection Hs as <-. by destruct w. }
    simpl. apply (repr_bytes F w s m _ _ (drop k old) R); [done|done| | |done].
    + rewrite length_app, length_drop. fold k. lia.
    + by rewrite <- Hl.
  - destruct (sq_dynamic s) eqn:Hd; simpl.
    2:{ eexists _, _. split; [reflexivity|]. split; [done|]. by apply repr_error. }
    destruct (acq n) as [[p fill]|] eqn:Hacq; simpl.
    2:{ eexists _, _. split; [reflexivity|]. split; [done|]. by apply repr_error. }
    destruct (Hfr _ _ _ Hacq) as (Hlf & Hp & Hpe & Hnone).
    destruct (move_block F w s p fill (concat ys) ys [] R Hf) as (m & Hs & Hr);
      [by rewrite app_nil_r|done|lia|lia|by rewrite Hlf|].
    rewrite Hlf in Hr. rewrite M_modify. erewrite bind_Some.
    2:{ eapply load_bytes_run; [|symmetry; exact Hlc]. simpl. apply acquire_keeps; [by rewrite Hlf|].
        apply Hfrom. intros a x Hx. by apply (rp_frame _ _ _ R). }
    erewrite bind_Some by (apply store_bytes_run; exact Hs).
    destruct (Z.eqb_spec (al_data (al w)) 0) as [Hz|Hz]; cbn [negb]; repeat mnext;
      (eexists _, _; split; [reflexivity|]; split; [done|]).
    + apply (Hr _ _ (or_introl eq_refl) eq_refl).
    + apply (Hr _ _ (or_intror eq_refl) eq_refl).
Qed.

(** ** Programs *)

Lemma coded_ok m w w' : m w = Some (AWS_OP_SUCCESS, w') → coded m w = Some (RUnit, w').
Proof. intros H. unfold coded. by rewrite (bind_Some _ _ _ _ _ H). Qed.

Lemma coded_err m w e : m w = Some (AWS_OP_ERR, set_error e w) → coded m w = Some (RErr e, set_error e w).
Proof. intros H. unfold coded. by rewrite (bind_Some _ _ _ _ _ H). Qed.

(** The readers: the item, or the error [e]. *)
Definition item_result (o : option (list Z)) (e : Z) (w : al_world) : option (Z * list Z * al_world) :=
  match o with Some x => Some ((AWS_OP_SUCCESS, x), w) | None => Some ((AWS_OP_ERR, []), set_error e w) end.

Lemma read_run F w s (b : bool) i e :
  repr F w s → (b = true ↔ (i < length (sq_items s))%nat) →
  ((if b then bs ← load_bytes (al_data (al w) + sq_size s * Z.of_nat i) (sq_size s); mret (AWS_OP_SUCCESS, bs)
    else r ← aws_raise_error e; mret (r, [])) : M al_world (Z * list Z)) w =
  item_result (sq_items s !! i) e w.
Proof.
  intros R Hb. destruct b.
  - destruct (lookup_lt_is_Some_2 (sq_items s) i ltac:(by apply Hb)) as [x Hx].
    by rewrite (bind_Some _ _ _ _ _ (load_item F w s R i x _ Hx eq_refl)), Hx.
  - rewrite lookup_ge_None_2; [done|]. destruct (decide (i < length (sq_items s))%nat) as [Hi|]; [|lia].
    apply Hb in Hi. done.
Qed.

Lemma get_at_run F w s i :
  repr F w s →
  aws_array_list_get_at (Z.of_nat i) w = item_result (sq_items s !! i) AWS_ERROR_INVALID_INDEX w.
Proof.
  intros R. pose proof (items_fit _ _ _ R). pose proof (rp_size_ok _ _ _ R).
  rewrite <- (read_run F w s (Z.of_nat i <? Z.of_nat (length (sq_items s))) i _ R)
    by (rewrite Z.ltb_lt; lia).
  unfold aws_array_list_get_at. rewrite (bind_Some _ _ _ _ _ (al_length_run F w s R)).
  destruct (Z.ltb_spec (Z.of_nat i) (Z.of_nat (length (sq_items s)))); [|done].
  by rewrite M_get, (item_addr F w s R), (rp_size _ _ _ R) by nia.
Qed.

Lemma front_run F w s :
  repr F w s → aws_array_list_front w = item_result (head (sq_items s)) AWS_ERROR_LIST_EMPTY w.
Proof.
  intros R. replace (head (sq_items s)) with (sq_items s !! 0%nat) by (by destruct (sq_items s)).
  rewrite <- (read_run F w s (0 <? Z.of_nat (length (sq_items s))) 0 _ R) by (rewrite Z.ltb_lt; lia).
  unfold aws_array_list_front. rewrite (bind_Some _ _ _ _ _ (al_length_run F w s R)).
  destruct (0 <? _); [|done]. by rewrite M_get, (rp_size _ _ _ R), Z.mul_0_r, Z.add_0_r.
Qed.

Lemma back_run F w s :
  repr F w s → aws_array_list_back w = item_result (last (sq_items s)) AWS_ERROR_LIST_EMPTY w.
Proof.
  intros R. pose proof (items_fit _ _ _ R). pose proof (rp_size_ok _ _ _ R).
  pose proof (rp_addr _ _ _ R). pose proof (rp_data _ _ _ R).
  rewrite last_lookup. replace (Nat.pred (length (sq_items s))) with (length (sq_items s) - 1)%nat by lia.
  unfold aws_array_list_back. rewrite (bind_Some _ _ _ _ _ (al_length_run F w s R)).
  destruct (Z.ltb_spec 0 (Z.of_nat (length (sq_items s)))) as [Hpos|Hz].
  - rewrite <- (read_run F w s true (length (sq_items s) - 1) AWS_ERROR_LIST_EMPTY R) by (split; [lia|done]).
    rewrite M_get. cbv zeta. rewrite (u64_small (_ - 1)) by nia.
    replace (Z.of_nat (length (sq_items s)) - 1) with (Z.of_nat (length (sq_items s) - 1)) by lia.
    by rewrite (item_addr F w s R), (rp_size _ _ _ R) by nia.
  - by rewrite lookup_ge_None_2 by lia.
Qed.

Lemma coded_item_run F w s (m : M al_world (Z * list Z)) o e :
  repr F w s → m w = item_result o e w →
  ∃ w', coded_item m w = Some (spec_item o e, w') ∧ repr F w' s.
Proof.
  intros R Hm. unfold coded_item. unfold mbind at 1, M_bind. rewrite Hm. destruct o.
  - by exists w.
  - eexists. split; [reflexivity|]. by apply repr_error.
Qed.

Lemma al_step F w s op :
  repr F w s → al_valid op w →
  ∃ w', al_exec op w = Some ((al_spec op s).1, w') ∧ repr F w' (al_spec op s).2.
Proof.
  intros R Hv. pose proof (items_fit _ _ _ R). pose proof (rp_size_ok _ _ _ R).
  pose proof (rp_addr _ _ _ R). pose proof (rp_data _ _ _ R).
  assert (with_items (sq_items s) s = s) as Heta by (by destruct s).
  pose proof (al_length_run F w s R) as Hlen.
  destruct op; unfold al_valid in Hv; cbv zeta in Hv;
    rewrite ?(rp_length _ _ _ R), ?(rp_size _ _ _ R) in Hv; cbn [al_exec].
  - destruct Hv as [Hv Hfr]. pose proof (al_push_run F w s acq v R Hfr Hv) as Hp. cbn [al_spec].
    destruct (grow _ _ s).
    + eexists. split; [by apply coded_err|]. by apply repr_error.
    + destruct Hp as (w' & Hp & R'). exists w'. split; [by apply coded_ok|done].
  - destruct Hv as (Hv & Hi & Hfr). pose proof (set_item_run F w s acq i v R Hfr ltac:(lia) Hv) as Hp.
    cbn [al_spec]. destruct (grow _ _ s).
    + eexists. split; [by apply coded_err|]. by apply repr_error.
    + destruct Hp as (w' & Hp & R'). exists w'. split; [by apply coded_ok|done].
  - cbn [al_spec]. destruct (decide (sq_items s = [])) as [Hn|Hn].
    + rewrite Hn. eexists. split; [|by apply (repr_error F w s AWS_ERROR_LIST_EMPTY)].
      apply coded_err. unfold aws_array_list_pop_back. by rewrite (bind_Some _ _ _ _ _ Hlen), Hn.
    + destruct (al_pop_back_run F w s R Hn) as (w' & Hp & R'). exists w'.
      destruct (sq_items s) as [|y ys] eqn:E; [done|]. split; [by apply coded_ok|done].
  - cbn [al_spec]. unfold aws_array_list_pop_front.
    destruct (pop_front_n_run F w s 1 R ltac:(lia)) as (w' & Hp & R').
    destruct (sq_items s) as [|y ys] eqn:E.
    + eexists. split; [|by apply (repr_error F w s AWS_ERROR_LIST_EMPTY)].
      apply coded_err. by rewrite (bind_Some _ _ _ _ _ Hlen).
    + exists w'. split; [|done]. apply coded_ok. rewrite (bind_Some _ _ _ _ _ Hlen).
      simpl. by rewrite (bind_Some _ _ _ _ _ Hp).
  - destruct (pop_front_n_run F w s n R Hv) as (w' & Hp & R').
    exists w'. split; [|done]. by rewrite (bind_Some _ _ _ _ _ Hp).
  - by apply coded_item_run, front_run with (F := F).
  - by apply coded_item_run, back_run with (F := F).
  - by apply coded_item_run, get_at_run with (F := F).
  - destruct (swap_run F w s a b R) as (w' & Hp & R'); [lia..|].
    exists w'. split; [|done]. by rewrite (bind_Some _ _ _ _ _ Hp).
  - exists w. split; [|done]. by rewrite (bind_Some _ _ _ _ _ Hlen).
  - destruct (al_clear_run F w s R) as (w' & Hp & R').
    exists w'. split; [|done]. by rewrite (bind_Some _ _ _ _ _ Hp).
  - destruct Hv as [Hv Hfr].
    pose proof (ensure_run F w s acq (Z.of_nat i) R Hfr ltac:(lia) ltac:(lia) ltac:(nia)) as Hp.
    cbn [al_spec]. destruct (grow _ _ s).
    + eexists. split; [by apply coded_err|]. by apply repr_error.
    + destruct Hp as (w' & Hp & R'). exists w'. split; [by apply coded_ok|done].
  - by apply al_shrink_run.
Qed.

(** Set-up of a list: over a block of the caller, or with an allocator. *)
Inductive al_start := StStatic (raw count size : Z) | StDynamic (acq : allocator) (count size : Z).

Definition al_init (st : al_start) : M al_world Z :=
  match st with
  | StStatic raw count size => aws_array_list_init_static raw count size;; mret AWS_OP_SUCCESS
  | StDynamic acq count size => aws_array_list_init_dynamic acq count size
  end.

Definition start_size (st : al_start) : Z :=
  match st with StStatic _ _ size => size | StDynamic _ _ size => size end.

(** [F] is the memory that does not belong to the list. *)
Definition start_valid (F : mem) (st : al_start) (w : al_world) : Prop :=
  0 < start_size st ≤ 2 ^ 62 ∧
  match st with
  | StStatic raw count size =>
      0 < count ∧ 0 < raw ∧ raw + count * size ≤ 2 ^ 63 ∧ allocated (al_mem w) raw (count * size) ∧
      ∀ a x, F !! a = Some x → al_mem w !! a = Some x ∧ (a < raw ∨ raw + count * size ≤ a)
  | StDynamic acq count size =>
      0 ≤ count ∧ count * size < 2 ^ 63 ∧ fresh_blocks acq (al_mem w) ∧ F = al_mem w
  end.

Definition start_spec (st : al_start) : seq_spec :=
  match st with
  | StStatic raw count size =>
      {| sq_items := []; sq_size := size; sq_cap := count * size; sq_dynamic := false |}
  | StDynamic acq count size =>
      {| sq_items := []; sq_size := size; sq_cap := count * size; sq_dynamic := true |}
  end.

Lemma start_run F st w w' :
  start_valid F st w → al_init st w = Some (AWS_OP_SUCCESS, w') → repr F w' (start_spec st).
Proof.
  destruct st as [raw count size|acq count size]; intros [Hs Hv]; cbn [start_size al_init start_spec] in *.
  - destruct Hv as (Hc & Hr & Hend & Hal & HF). unfold aws_array_list_init_static.
    rewrite !(proj2 (Z.eqb_neq _ _)) by lia. mrun. intros [= <-].
    rewrite u64_small by nia. destruct (mem_load_allocated _ _ _ Hal) as [bs Hbs].
    pose proof (length_mem_load (al_mem w) raw (count * size) bs ltac:(nia) Hbs) as Hl.
    split; simpl; try done; try lia. exists bs. unfold block. by rewrite Hl.
  - destruct Hv as (Hc & Hend & Hfr & ->). unfold aws_array_list_init_dynamic. cbv zeta.
    rewrite M_modify, u64_small by nia. destruct (Z.ltb_spec 0 (count * size)) as [Hpos|Hz].
    + destruct (acq (count * size)) as [[p fill]|] eqn:Hacq; [|mrun; done].
      destruct (Hfr _ _ _ Hacq) as (Hlf & Hp & Hpe & Hnone). mrun. intros [= <-].
      split; simpl; try done; try lia.
      * exists fill. split; [apply acquire_block|done].
      * intros a x Hx. rewrite mem_acquire_lookup. destruct (decide _) as [Hin|]; [|split; [done|lia]].
        rewrite Hnone in Hx by lia. done.
    + assert (count * size = 0) as H0 by nia. mrun. intros [= <-]. rewrite H0.
      split; simpl; try done; try lia; [by exists []|].
      intros a x Hx. split; [done|lia].
Qed.

(** A list set up over a block of its caller or with an allocator holds a sequence of
    items: any program of calls the interface allows is defined and returns, call by call,
    the answers (items, lengths, error numbers) of the same program on a list of items,
    whatever the allocator grants, and no byte of memory that is not the list's own
    changes. *)
Theorem array_list_refines_sequence F st w0 w ops :
  start_valid F st w0 → al_init st w0 = Some (AWS_OP_SUCCESS, w) → valid_run ops w →
  ∃ w', al_run ops w = Some ((spec_run ops (start_spec st)).1, w') ∧
    repr F w' (spec_run ops (start_spec st)).2 ∧
    ∀ a x, F !! a = Some x → al_mem w' !! a = Some x.
Proof.
  intros Hst Hi. pose proof (start_run _ _ _ _ Hst Hi) as R. clear Hst Hi w0. revert w R.
  generalize (start_spec st) as s. clear st.
  induction ops as [|op ops IH]; intros s w R Hv; cbn [al_run spec_run].
  { exists w. split_and!; [done..|]. intros a x Hx. by apply (rp_frame _ _ _ R). }
  destruct Hv as [Hv Hnext]. destruct (al_step F w s op R Hv) as (w1 & He & R1).
  specialize (Hnext _ _ He). rewrite (bind_Some _ _ _ _ _ He).
  destruct (al_spec op s) as [r s1] eqn:E. simpl in R1.
  destruct (IH s1 w1 R1 Hnext) as (w' & Hr & R' & HF).
  destruct (spec_run ops s1) as [rs s2] eqn:E2. simpl in *.
  exists w'. rewrite (bind_Some _ _ _ _ _ Hr). done.
Qed.

(** ** A run *)

(** An allocator that has one block of [n] bytes, at [p]. *)
Definition one_block (p n : Z) : allocator :=
  λ k, if k =? n then Some (p, replicate (Z.to_nat n) 9) else None.

Lemma one_block_fresh p n m :
  0 < p → 0 ≤ n → p + n ≤ 2 ^ 63 → (∀ a, p ≤ a < p + n → m !! a = None) →
  fresh_blocks (one_block p n) m.
Proof.
  intros Hp Hn Hend Hfr k q bs. unfold one_block. destruct (Z.eqb_spec k n); [|done].
  intros [= <- <-]. rewrite length_replicate. subst k. split_and!; [lia..|done].
Qed.

Definition small_world : al_world :=
  {| al := {| al_alloc := false; al_current_size := 0; al_length := 0; al_item_size := 0; al_data := 0 |};
     al_mem := {[ 50 := 7 ]}; last_error := 0 |}.
Definition small_list : al_world :=
  {| al := {| al_alloc := true; al_current_size := 2; al_length := 0; al_item_size := 2; al_data := 100 |};
     al_mem := mem_acquire 100 [9; 9] {[ 50 := 7 ]}; last_error := 0 |}.
Definition small_ops : list al_op :=
  [OpPush (one_block 300 8) [1; 2]; OpPush (one_block 200 4) [3; 4]; OpSwap 0 1; OpGet 0;
   OpPush (one_block 300 6) [5; 6]; OpPopFront; OpBack; OpShrink (one_block 100 2); OpGet 1].

(** The second push moves the list to a larger block, the third one is refused. *)
Lemma array_list_refines_sequence_witness :
  ∃ w', al_run small_ops small_list =
      Some ([RUnit; RUnit; RUnit; RItem [3; 4]; RErr AWS_ERROR_OOM; RUnit; RItem [1; 2]; RUnit;
             RErr AWS_ERROR_INVALID_INDEX], w') ∧
    al_mem w' !! 50 = Some 7.
Proof.
  destruct (array_list_refines_sequence (al_mem small_world) (StDynamic (one_block 100 2) 1 2)
    small_world small_list small_ops) as (w' & Hr & _ & HF).
  - split; [simpl; lia|]. simpl. split_and!; [lia|lia| |done].
    apply one_block_fresh; [lia..|]. intros a Ha. apply lookup_singleton_ne. lia.
  - vm_compute. reflexivity.
  - assert (∀ m p n, 0 < p → 0 ≤ n → p + n ≤ 2 ^ 63 →
      forallb (λ k, bool_decide (m !! k = None)) (seqZ p n) = true → fresh_blocks (one_block p n) m) as Hfr.
    { intros m p n Hp Hn Hend Hb. apply one_block_fresh; [done..|]. intros a Ha.
      rewrite forallb_forall in Hb. specialize (Hb a). rewrite bool_decide_eq_true in Hb.
      apply Hb, list_elem_of_In, elem_of_seqZ. lia. }
    unfold small_ops. cbn [valid_run].
    repeat match goal with
    | |- al_valid _ _ ∧ _ =>
        split;
        [cbv [al_valid]; split_and?; first [done | apply Hfr; [lia..|vm_compute; reflexivity]]
        |intros r w' E; vm_compute in E; injection E as <- <-]
    end. done.
  - exists w'. split; [exact Hr|]. apply HF. done.
Defined.
