(* ===== verification/ListBlock.v ===== *)
(** The list of blocks: src/list_block.c and include/tn/list_block.h, an array list over a
    block that the list allocates itself.

    The state is the list object, memory and the thread's last error; the pointer to the
    list and the pointers to results are arguments, as the guards test them.  For items
    that are no larger than a pointer the list is a bounded stack with swap removal
    ([list_block_refines_stack]); for larger items its block is too small
    ([list_block_overruns]). *)
From stdpp Require Import base numbers list option gmap.
From Stdlib Require Import ZArith Lia.
From S2P Require Import Prelude ByteBuf HashTable ArrayList ArrayRun.

Local Open Scope Z_scope.
Local Open Scope c_scope.

Record tn_list_block_t := {
  priv_impl : ptr aws_array_list;
  priv_data : Z;
  lb_capacity : Z;
  lb_item_size : Z;
}.

Record lb_world := { lb : tn_list_block_t; lb_mem : mem; lb_error : Z }.

Definition set_lb (l : tn_list_block_t) (w : lb_world) : lb_world :=
  {| lb := l; lb_mem := lb_mem w; lb_error := lb_error w |}.
Definition set_lb_mem (m : mem) (w : lb_world) : lb_world :=
  {| lb := lb w; lb_mem := m; lb_error := lb_error w |}.
Definition set_priv_data (p : Z) (l : tn_list_block_t) : tn_list_block_t :=
  {| priv_impl := priv_impl l; priv_data := p; lb_capacity := lb_capacity l; lb_item_size := lb_item_size l |}.
Definition set_priv_impl (x : ptr aws_array_list) (l : tn_list_block_t) : tn_list_block_t :=
  {| priv_impl := x; priv_data := priv_data l; lb_capacity := lb_capacity l; lb_item_size := lb_item_size l |}.
Definition set_lb_sizes (c n : Z) (l : tn_list_block_t) : tn_list_block_t :=
  {| priv_impl := priv_impl l; priv_data := priv_data l; lb_capacity := c; lb_item_size := n |}.
Definition modify_lb (f : tn_list_block_t → tn_list_block_t) : M lb_world unit :=
  modify (λ w, set_lb (f (lb w)) w).

(** A call on the array list [list->priv_impl] points to. *)
Definition on_impl {A} (f : M al_world A) : M lb_world A := λ w,
  match priv_impl (lb w) with
  | None => None
  | Some l =>
      match f {| al := l; al_mem := lb_mem w; last_error := lb_error w |} with
      | None => None
      | Some (a, aw) =>
          Some (a, {| lb := set_priv_impl (Some (al aw)) (lb w); lb_mem := al_mem aw; lb_error := last_error aw |})
      end
  end.

Definition is_null {A} (p : ptr A) : bool := match p with None => true | Some _ => false end.

(** The size of a pointer. *)
Definition sizeof_ptr : Z := 8.

(** The label [cleanup]: the array list and the block are released. *)
Definition list_setup_cleanup (priv_size : Z) : M lb_world Z :=
  modify (λ w, set_lb_mem (mem_release (priv_data (lb w)) priv_size (lb_mem w)) w);;
  mret TN_ERROR.

(** [acq] answers the request for the block, [impl] the one for the array-list object (its
    content is arbitrary). *)
Definition tn_list_block_setup (acq : allocator) (impl : ptr aws_array_list) (self : ptr unit)
    (capacity item_size : Z) : M lb_world Z :=
  TN_GUARD_IF is_null self THEN
  modify_lb (λ _, {| priv_impl := NULL; priv_data := 0; lb_capacity := 0; lb_item_size := 0 |});;
  let priv_size := u64 (capacity * sizeof_ptr) in
  match acq priv_size with
  | None => list_setup_cleanup priv_size
  | Some (p, bs) =>
      modify (λ w, set_lb_mem (mem_acquire p bs (lb_mem w)) w);;
      modify_lb (set_priv_data p);;
      w ← get;
      m ← lift (mem_store (lb_mem w) p (replicate (Z.to_nat priv_size) 0));
      modify (set_lb_mem m);;
      modify_lb (set_priv_impl impl);;
      match impl with
      | None => list_setup_cleanup priv_size
      | Some _ =>
          on_impl (aws_array_list_init_static p capacity item_size);;
          on_impl aws_array_list_clear;;
          modify_lb (set_lb_sizes capacity item_size);;
          mret TN_SUCCESS
      end
  end.

(** The array list of the released object and the block are gone; the pointers stay. *)
Definition tn_list_block_cleanup (self : ptr unit) : M lb_world unit :=
  if is_null self then mret tt
  else
    w ← get;
    (if is_null (priv_impl (lb w)) then mret tt else on_impl aws_array_list_clean_up);;
    modify (λ w, set_lb_mem (mem_release (priv_data (lb w)) (u64 (lb_capacity (lb w) * sizeof_ptr)) (lb_mem w)) w).

(** [item] are the bytes readable at the pointer given, of which the first eight are the
    pointer [*item]; the second result is [*out_index]. *)
Definition tn_list_block_push_back (item : list Z) (out_index : ptr unit) : M lb_world (Z * option Z) :=
  TN_ASSERT ((8 <=? Z.of_nat (length item)) && negb (forallb (Z.eqb 0) (take 8 item)));;
  out ← (if is_null out_index then mret None else n ← on_impl aws_array_list_length; mret (Some n));
  r ← on_impl (aws_array_list_push_back (λ _, None) item);
  if negb (r =? 0) then mret (TN_ERROR, out) else mret (TN_SUCCESS, out).

(** The code and the bytes stored at [item]. *)
Definition tn_list_block_pop_back : M lb_world (Z * list Z) :=
  r ← on_impl aws_array_list_back;
  if negb (r.1 =? 0) then mret (TN_ERROR, r.2)
  else
    c ← on_impl aws_array_list_pop_back;
    if negb (c =? 0) then mret (TN_ERROR, r.2) else mret (TN_SUCCESS, r.2).

Definition tn_list_block_count (self out_count : ptr unit) : M lb_world (Z * option Z) :=
  if is_null self || is_null out_count then mret (TN_ERROR, None)
  else n ← on_impl aws_array_list_length; mret (TN_SUCCESS, Some n).

Definition tn_list_block_clear (self : ptr unit) : M lb_world Z :=
  TN_GUARD_IF is_null self THEN
  on_impl aws_array_list_clear;; mret TN_SUCCESS.

Definition tn_list_block_get (self : ptr unit) (index : Z) (out_item : ptr unit) : M lb_world (Z * list Z) :=
  if is_null self || is_null out_item then mret (TN_ERROR, [])
  else on_impl (aws_array_list_get_at index).

Definition tn_list_block_remove (self : ptr unit) (index : Z) : M lb_world Z :=
  TN_GUARD_IF is_null self THEN
  n ← on_impl aws_array_list_length;
  let last_idx := u64 (n - 1) in
  on_impl (aws_array_list_swap index last_idx);;
  on_impl aws_array_list_pop_back.

(** ** The specification *)

Inductive lb_op :=
  | LbPush (item : list Z)
  | LbPop
  | LbCount
  | LbClear
  | LbGet (i : nat)
  | LbRemove (i : nat).

(** The code, the bytes and the number a call gives. *)
Abbreviation lb_result := (Z * list Z * option Z)%type.

(** A stack of at most [c] items of [sz] bytes. *)
Definition stack_step (c sz : Z) (op : lb_op) (xs : list (list Z)) : lb_result * list (list Z) :=
  let n := Z.of_nat (length xs) in
  match op with
  | LbPush item =>
      if n <? c then ((TN_SUCCESS, [], Some n), xs ++ [take (Z.to_nat sz) item])
      else ((TN_ERROR, [], Some n), xs)
  | LbPop =>
      match last xs with
      | Some x => ((TN_SUCCESS, x, None), take (length xs - 1) xs)
      | None => ((TN_ERROR, [], None), xs)
      end
  | LbCount => ((TN_SUCCESS, [], Some n), xs)
  | LbClear => ((TN_SUCCESS, [], None), [])
  | LbGet i =>
      match xs !! i with
      | Some x => ((TN_SUCCESS, x, None), xs)
      | None => ((TN_ERROR, [], None), xs)
      end
  | LbRemove i =>
      ((TN_SUCCESS, [], None), take (length xs - 1) (swap_items i (length xs - 1) xs))
  end.

Definition lb_exec (op : lb_op) : M lb_world lb_result :=
  match op with
  | LbPush item => r ← tn_list_block_push_back item (Some tt); mret (r.1, [], r.2)
  | LbPop => r ← tn_list_block_pop_back; mret (r.1, r.2, None)
  | LbCount => r ← tn_list_block_count (Some tt) (Some tt); mret (r.1, [], r.2)
  | LbClear => r ← tn_list_block_clear (Some tt); mret (r, [], None)
  | LbGet i => r ← tn_list_block_get (Some tt) (Z.of_nat i) (Some tt); mret (r.1, r.2, None)
  | LbRemove i => r ← tn_list_block_remove (Some tt) (Z.of_nat i); mret (r, [], None)
  end.

Fixpoint lb_run (ops : list lb_op) : M lb_world (list lb_result) :=
  match ops with
  | [] => mret []
  | op :: ops => r ← lb_exec op; rs ← lb_run ops; mret (r :: rs)
  end.

Fixpoint stack_run (c sz : Z) (ops : list lb_op) (xs : list (list Z)) : list lb_result * list (list Z) :=
  match ops with
  | [] => ([], xs)
  | op :: ops =>
      let '(r, xs) := stack_step c sz op xs in
      let '(rs, xs) := stack_run c sz ops xs in (r :: rs, xs)
  end.

(** A pointer that is not [NULL]: its eight bytes are not all 0. *)
Definition points (item : list Z) : bool :=
  (8 <=? Z.of_nat (length item)) && negb (forallb (Z.eqb 0) (take 8 item)).

(** The calls the interface allows on a list of [n] items. *)
Definition lb_valid (op : lb_op) (n : nat) : bool :=
  match op with
  | LbPush item => points item
  | LbRemove i => bool_decide (i < n)%nat
  | _ => true
  end.

Fixpoint lb_valid_run (c sz : Z) (ops : list lb_op) (xs : list (list Z)) : bool :=
  match ops with
  | [] => true
  | op :: ops => lb_valid op (length xs) && lb_valid_run c sz ops (stack_step c sz op xs).2
  end.

(** ** The representation *)

Definition lb_seq (c sz : Z) (xs : list (list Z)) : seq_spec :=
  {| sq_items := xs; sq_size := sz; sq_cap := c * sz; sq_dynamic := false |}.

Definition impl_world (l : aws_array_list) (w : lb_world) : al_world :=
  {| al := l; al_mem := lb_mem w; last_error := lb_error w |}.

Definition lb_rep (F : mem) (c sz : Z) (w : lb_world) (xs : list (list Z)) : Prop :=
  ∃ l, priv_impl (lb w) = Some l ∧ repr F (impl_world l w) (lb_seq c sz xs).

(** A call on the array list, and the list afterwards. *)
Lemma on_impl_run {A} F c sz w l (f : M al_world A) a aw xs' :
  priv_impl (lb w) = Some l → f (impl_world l w) = Some (a, aw) → repr F aw (lb_seq c sz xs') →
  ∃ w', on_impl f w = Some (a, w') ∧ lb_rep F c sz w' xs'.
Proof.
  intros Hl Hf R. unfold on_impl. rewrite Hl. fold (impl_world l w). rewrite Hf.
  eexists. split; [reflexivity|]. exists (al aw). split; [done|]. by destruct aw.
Qed.

Lemma on_impl_length F c sz w xs :
  lb_rep F c sz w xs → on_impl aws_array_list_length w = Some (Z.of_nat (length xs), w).
Proof.
  intros (l & Hl & R). unfold on_impl. rewrite Hl. fold (impl_world l w).
  rewrite (al_length_run _ _ _ R). simpl. do 2 f_equal. destruct w as [[] ? ?]; simpl in *. by subst.
Qed.

Lemma no_blocks m : fresh_blocks (λ _, None) m.
Proof. by intros n p bs ?. Qed.

Section Steps.
Context (F : mem) (c sz : Z) (Hsz : 0 < sz ≤ 8).

Lemma lb_push_run w xs item :
  lb_rep F c sz w xs → points item = true →
  ∃ w', lb_exec (LbPush item) w = Some ((stack_step c sz (LbPush item) xs).1, w') ∧
    lb_rep F c sz w' (stack_step c sz (LbPush item) xs).2.
Proof using Hsz.
  intros Hw Hit. cbn [lb_exec stack_step]. unfold tn_list_block_push_back. fold (points item).
  rewrite Hit, M_assoc, M_assert. cbn [is_null].
  rewrite !M_assoc, (bind_Some _ _ _ _ _ (on_impl_length _ _ _ _ _ Hw)), !M_left_id.
  pose proof Hit as Hlen. unfold points in Hlen. apply andb_true_iff in Hlen as [Hlen _].
  apply Z.leb_le in Hlen. destruct Hw as (l & Hl & R).
  pose proof (al_push_run F _ _ (λ _, None) item R (no_blocks _) ltac:(simpl; lia)) as Hp.
  unfold grow in Hp. cbn [lb_seq sq_items sq_size sq_cap sq_dynamic] in Hp.
  destruct (Z.ltb_spec (Z.of_nat (length xs)) c) as [Hlt|Hge].
  - rewrite (proj2 (Z.leb_le _ _)) in Hp by nia. destruct Hp as (aw & Hp & R').
    destruct (on_impl_run _ _ _ _ _ _ _ _ (xs ++ [take (Z.to_nat sz) item]) Hl Hp R') as (w' & Hi & Hw').
    rewrite M_assoc, (bind_Some _ _ _ _ _ Hi). by exists w'.
  - rewrite (proj2 (Z.leb_gt _ _)) in Hp by nia. simpl in Hp.
    destruct (on_impl_run _ _ _ _ _ _ _ _ xs Hl Hp (repr_error _ _ _ _ R)) as (w' & Hi & Hw').
    rewrite M_assoc, (bind_Some _ _ _ _ _ Hi). by exists w'.
Qed.

Lemma read_impl w xs (m : M al_world (Z * list Z)) o e :
  lb_rep F c sz w xs → (∀ l, repr F (impl_world l w) (lb_seq c sz xs) →
    m (impl_world l w) = item_result o e (impl_world l w)) →
  ∃ w', on_impl m w = Some (match o with Some x => (TN_SUCCESS, x) | None => (TN_ERROR, []) end, w') ∧
    lb_rep F c sz w' xs.
Proof.
  intros (l & Hl & R) Hm. specialize (Hm l R). destruct o as [x|].
  - apply (on_impl_run F c sz w l m _ _ xs Hl Hm R).
  - apply (on_impl_run F c sz w l m _ _ xs Hl Hm). by apply repr_error.
Qed.

Lemma pop_impl w xs :
  lb_rep F c sz w xs → xs ≠ [] →
  ∃ w', on_impl aws_array_list_pop_back w = Some (TN_SUCCESS, w') ∧
    lb_rep F c sz w' (take (length xs - 1) xs).
Proof.
  intros (l & Hl & R) Hne. destruct (al_pop_back_run F _ _ R Hne) as (aw & Hp & R').
  by apply (on_impl_run F c sz w l _ _ _ _ Hl Hp).
Qed.

Lemma lb_step w xs op :
  lb_rep F c sz w xs → lb_valid op (length xs) = true → c * sz < 2 ^ 62 →
  ∃ w', lb_exec op w = Some ((stack_step c sz op xs).1, w') ∧ lb_rep F c sz w' (stack_step c sz op xs).2.
Proof using Hsz.
  intros Hw Hv Hc. destruct op as [item| | | |i|i].
  - by apply lb_push_run.
  - cbn [lb_exec stack_step]. unfold tn_list_block_pop_back.
    destruct (read_impl w xs aws_array_list_back (last xs) AWS_ERROR_LIST_EMPTY Hw) as (w1 & H1 & Hw1).
    { intros l R. apply (back_run _ _ _ R). }
    rewrite M_assoc, (bind_Some _ _ _ _ _ H1). destruct (last xs) as [x|] eqn:Hlast; [|by exists w1].
    destruct (pop_impl w1 xs Hw1) as (w2 & H2 & Hw2); [by intros ->|].
    cbn [fst snd]. change (negb (TN_SUCCESS =? 0)) with false. cbv iota.
    rewrite M_assoc, (bind_Some _ _ _ _ _ H2). by exists w2.
  - exists w. cbn [lb_exec stack_step]. unfold tn_list_block_count. cbn [is_null orb].
    by rewrite M_assoc, (bind_Some _ _ _ _ _ (on_impl_length _ _ _ _ _ Hw)).
  - destruct Hw as (l & Hl & R). destruct (al_clear_run F _ _ R) as (aw & Hp & R').
    destruct (on_impl_run F c sz w l _ _ _ [] Hl Hp R') as (w' & Hi & Hw'). exists w'.
    cbn [lb_exec stack_step]. unfold tn_list_block_clear. cbn [is_null].
    by rewrite M_assoc, (bind_Some _ _ _ _ _ Hi).
  - cbn [lb_exec stack_step]. unfold tn_list_block_get. cbn [is_null orb].
    destruct (read_impl w xs (aws_array_list_get_at (Z.of_nat i)) (xs !! i) AWS_ERROR_INVALID_INDEX Hw)
      as (w1 & H1 & Hw1).
    { intros l R. apply (get_at_run _ _ _ i R). }
    exists w1. rewrite (bind_Some _ _ _ _ _ H1). by destruct (xs !! i).
  - cbn [lb_valid] in Hv. apply bool_decide_eq_true in Hv.
    cbn [lb_exec stack_step]. unfold tn_list_block_remove. cbn [is_null].
    rewrite M_assoc, (bind_Some _ _ _ _ _ (on_impl_length _ _ _ _ _ Hw)). cbv zeta.
    pose proof Hw as (l & Hl & R). pose proof (items_fit _ _ _ R) as Hfit. simpl in Hfit.
    rewrite u64_small by nia.
    replace (Z.of_nat (length xs) - 1) with (Z.of_nat (length xs - 1)) by lia.
    destruct (swap_run F _ _ i (length xs - 1) R) as (aw & Hp & R'); [simpl; lia..|].
    destruct (on_impl_run F c sz w l _ _ _ _ Hl Hp R') as (w1 & H1 & Hw1).
    rewrite M_assoc, (bind_Some _ _ _ _ _ H1). simpl in Hw1.
    assert (length (swap_items i (length xs - 1) xs) = length xs) as Hls
      by (unfold swap_items; by rewrite !length_insert).
    destruct (pop_impl w1 _ Hw1) as (w2 & H2 & Hw2).
    { intros Hnil. rewrite Hnil in Hls. simpl in Hls. lia. }
    rewrite (bind_Some _ _ _ _ _ H2). exists w2. split; [done|]. by rewrite <- Hls at 1.
Qed.
End Steps.

(** ** Set-up *)

(** What set-up leaves: an empty static list that takes its block for [c * sz] bytes
    although [c * 8] were allocated. *)
Lemma lb_setup_run acq obj w w' c sz :
  fresh_blocks acq (lb_mem w) → 0 < c → 0 < sz → c * 8 < 2 ^ 62 → c * sz < 2 ^ 62 →
  tn_list_block_setup acq obj (Some tt) c sz w = Some (TN_SUCCESS, w') →
  ∃ p, 0 < p ∧ p + c * 8 ≤ 2 ^ 63 ∧ allocated (lb_mem w') p (c * 8) ∧
    (∀ a, a < p ∨ p + c * 8 ≤ a → lb_mem w' !! a = lb_mem w !! a) ∧
    (∀ a, p ≤ a < p + c * 8 → lb_mem w !! a = None) ∧
    priv_impl (lb w') = Some {| al_alloc := false; al_current_size := c * sz; al_length := 0;
                                al_item_size := sz; al_data := p |} ∧ priv_data (lb w') = p.
Proof.
  intros Hfr Hc Hsz Hc8 Hcs. unfold tn_list_block_setup. cbn [is_null]. unfold modify_lb.
  rewrite M_modify. cbv zeta. unfold sizeof_ptr. rewrite u64_small by lia.
  destruct (acq (c * 8)) as [[p bs]|] eqn:Hacq; [|by mrun].
  destruct (Hfr _ _ _ Hacq) as (Hl & Hp & Hend & Hnone).
  rewrite M_modify, M_modify, M_get. simpl lb_mem.
  destruct (mem_store_run (mem_acquire p bs (lb_mem w)) p (replicate (Z.to_nat (c * 8)) 0)) as (m & Hs & Hm).
  { rewrite length_replicate. intros a Ha. rewrite mem_acquire_lookup, decide_True by lia.
    apply lookup_lt_is_Some. lia. }
  rewrite Hs, M_lift, M_modify, M_modify. rewrite length_replicate, Z2Nat.id in Hm by lia.
  destruct obj as [l|]; [|by mrun].
  unfold on_impl at 1, aws_array_list_init_static. cbn -[u64 mem_store Z.mul].
  rewrite !(proj2 (Z.eqb_neq _ _)) by lia. mrun. intros [= <-]. simpl.
  rewrite (proj2 (Z.eqb_neq p 0)) by lia. simpl.
  exists p. split_and!; [lia|lia| | | | |done].
  - intros a Ha. rewrite Hm, decide_True by lia. apply lookup_lt_is_Some. rewrite length_replicate. lia.
  - intros a Ha. rewrite Hm, decide_False, mem_acquire_lookup, decide_False by lia. done.
  - done.
  - by rewrite u64_small by nia.
Qed.

(** After a successful set-up with items no larger than a pointer, any program of calls
    with non-NULL items and valid removal indices is defined and answers like a stack of at
    most [c] items whose removal swaps with the last, and the memory that was allocated
    before the set-up is unchanged. *)
Theorem list_block_refines_stack acq obj w0 w c sz ops :
  fresh_blocks acq (lb_mem w0) → 0 < c → 0 < sz ≤ 8 → c * 8 < 2 ^ 62 →
  tn_list_block_setup acq obj (Some tt) c sz w0 = Some (TN_SUCCESS, w) →
  lb_valid_run c sz ops [] = true →
  ∃ w', lb_run ops w = Some ((stack_run c sz ops []).1, w') ∧
    ∀ a x, lb_mem w0 !! a = Some x → lb_mem w' !! a = Some x.
Proof.
  intros Hfr Hc Hsz Hc8 Hset.
  destruct (lb_setup_run acq obj w0 w c sz Hfr Hc ltac:(lia) Hc8 ltac:(nia) Hset)
    as (p & Hp & Hend & Hal & Hout & Hnone & Himpl & _).
  assert (lb_rep (lb_mem w0) c sz w []) as Hw.
  { eexists. split; [exact Himpl|].
    destruct (mem_load_allocated (lb_mem w) p (c * sz)) as [bs Hbs].
    { intros a Ha. apply Hal. nia. }
    pose proof (length_mem_load (lb_mem w) p (c * sz) bs ltac:(nia) Hbs) as Hlen.
    split; simpl; try done; try lia.
    - nia.
    - exists bs. unfold block. by rewrite Hlen.
    - intros a x Hx. assert (a < p ∨ p + c * 8 ≤ a) as Ha.
      { destruct (decide (p ≤ a < p + c * 8)) as [Hin|]; [|lia]. by rewrite Hnone in Hx. }
      rewrite Hout by done. split; [done|nia]. }
  assert (c * sz < 2 ^ 62) as Hcs by nia. clear Hset Himpl Hal Hout Hnone. revert w Hw.
  generalize (@nil (list Z)) as xs. induction ops as [|op ops IH]; intros xs w Hw Hv; cbn [lb_run stack_run].
  { exists w. split; [done|]. intros a x Hx. destruct Hw as (l & _ & R). by apply (rp_frame _ _ _ R). }
  cbn [lb_valid_run] in Hv. apply andb_true_iff in Hv as [Hv Hvs].
  destruct (lb_step _ c sz Hsz w xs op Hw Hv Hcs) as (w1 & H1 & Hw1).
  rewrite (bind_Some _ _ _ _ _ H1). destruct (stack_step c sz op xs) as [r xs1]. simpl in *.
  destruct (IH xs1 w1 Hw1 Hvs) as (w' & Hr & HF). destruct (stack_run c sz ops xs1) as [rs xs2]. simpl in *.
  exists w'. by rewrite (bind_Some _ _ _ _ _ Hr).
Qed.

(** ** Items larger than a pointer *)

Lemma push_fits w l item :
  priv_impl (lb w) = Some l → points item = true →
  0 < al_item_size l ≤ Z.of_nat (length item) → 0 ≤ al_length l → 0 < al_data l →
  (al_length l + 1) * al_item_size l ≤ al_current_size l < 2 ^ 62 → al_data l + al_current_size l < W64 →
  let p := al_data l + al_item_size l * al_length l in
  let bs := take (Z.to_nat (al_item_size l)) item in
  tn_list_block_push_back item NULL w =
    match mem_store (lb_mem w) p bs with
    | None => None
    | Some m => Some ((TN_SUCCESS, None),
        {| lb := set_priv_impl (Some (set_al_length (al_length l + 1) l)) (lb w);
           lb_mem := m; lb_error := lb_error w |})
    end.
Proof.
  intros Hl Hit Hsz Hlen Hd Hfit Hend. cbv zeta. unfold tn_list_block_push_back.
  fold (points item). rewrite Hit, M_assert. cbn [is_null]. rewrite M_left_id.
  unfold on_impl, mbind at 1, M_bind. rewrite Hl.
  unfold aws_array_list_push_back, aws_array_list_length, aws_array_list_set_at. mrun.
  rewrite (proj2 (Z.eqb_neq (al_data l) 0)) by lia. rewrite orb_true_r. simpl.
  rewrite (u64_small (al_length l + 1)), (u64_small (_ * al_item_size l)) by nia.
  rewrite (proj2 (Z.ltb_ge _ _)) by lia. simpl.
  rewrite (proj2 (Z.leb_le (al_item_size l) _)) by lia. simpl.
  rewrite (u64_small (al_item_size l * _)), u64_small by nia.
  unfold store_bytes. mrun. destruct (mem_store _ _ _) as [m|]; [|done]. simpl.
  unfold aws_array_list_length. mrun. rewrite (proj2 (Z.eqb_neq (al_data l) 0)) by lia. rewrite orb_true_r. simpl.
  rewrite (proj2 (Z.leb_le _ _)) by lia. done.
Qed.

Fixpoint push_all (items : list (list Z)) : M lb_world Z :=
  match items with
  | [] => mret TN_SUCCESS
  | item :: items => TN_GUARD (r ← tn_list_block_push_back item NULL; mret r.1) THEN push_all items
  end.

Lemma mem_store_outside m p bs a :
  p ≤ a < p + Z.of_nat (length bs) → m !! a = None → mem_store m p bs = None.
Proof.
  revert m p. induction bs as [|b bs IH]; intros m p Ha Hn; simpl in *; [lia|].
  destruct (m !! p) eqn:Hp; [|done]. apply IH; [|].
  - destruct (decide (a = p)) as [->|]; [congruence|lia].
  - rewrite lookup_insert_ne; [done|]. intros ->. congruence.
Qed.

Lemma push_all_run w p k c sz items :
  priv_impl (lb w) = Some {| al_alloc := false; al_current_size := c * sz; al_length := Z.of_nat k;
                             al_item_size := sz; al_data := p |} →
  0 < p → 0 < sz → c * sz < 2 ^ 62 → p + c * 8 ≤ 2 ^ 63 → 8 ≤ sz →
  allocated (lb_mem w) p (c * 8) → (Z.of_nat k + Z.of_nat (length items)) * sz ≤ c * 8 →
  Forall (λ i, points i = true ∧ sz ≤ Z.of_nat (length i)) items →
  ∃ w', push_all items w = Some (TN_SUCCESS, w') ∧
    priv_impl (lb w') = Some {| al_alloc := false; al_current_size := c * sz;
                                al_length := Z.of_nat (k + length items); al_item_size := sz; al_data := p |} ∧
    (∀ a, a < p ∨ p + c * 8 ≤ a → lb_mem w' !! a = lb_mem w !! a).
Proof.
  intros Hl Hp Hsz Hcs Hend H8. revert w k Hl. induction items as [|item items IH];
    intros w k Hl Hal Hfit Hf; cbn [push_all length] in *.
  { exists w. by rewrite Nat.add_0_r. }
  apply Forall_cons in Hf as [[Hit Hlen] Hf].
  pose proof (push_fits w _ item Hl Hit) as Hpush. cbn [al_item_size al_length al_data al_current_size] in Hpush.
  specialize (Hpush ltac:(lia) ltac:(lia) ltac:(lia) ltac:(nia) ltac:(lia)). cbv zeta in Hpush.
  set (bs := take (Z.to_nat sz) item) in *.
  assert (Z.of_nat (length bs) = sz) as Hbs by (unfold bs; rewrite length_take; lia).
  destruct (mem_store_effect (lb_mem w) (p + sz * Z.of_nat k) bs) as (m & Hs & _ & Hout & Hkeep).
  { intros a Ha. apply Hal. nia. }
  rewrite Hs in Hpush. rewrite M_assoc, (bind_Some _ _ _ _ _ Hpush), M_left_id. cbn [fst].
  change (TN_SUCCESS =? 0) with true. cbv iota.
  match goal with |- context [push_all items ?w1] => destruct (IH w1 (S k)) as (w' & Hr & Hl' & Hout') end.
  { simpl. unfold set_al_length. simpl. by rewrite Z.add_1_r, <- Nat2Z.inj_succ. }
  { simpl. by apply Hkeep. } { nia. } { done. }
  exists w'. split; [exact Hr|]. split; [by replace (k + S (length items))%nat with (S k + length items)%nat by lia|].
  intros a Ha. rewrite Hout' by done. simpl. apply Hout. nia.
Qed.

(** For items larger than a pointer the block is too small: a list of [c] items of
    [sz > 8] bytes takes [8 * c / sz] of them, fewer than [c], and then accepts a push that
    writes outside its allocation (here: the bytes behind it belong to nobody, so the push
    has no defined behaviour). *)
Theorem list_block_overruns acq obj w0 w c sz items item :
  fresh_blocks acq (lb_mem w0) → 0 < c → 8 < sz → c * sz < 2 ^ 62 →
  tn_list_block_setup acq obj (Some tt) c sz w0 = Some (TN_SUCCESS, w) →
  (∀ a, priv_data (lb w) + c * 8 ≤ a < priv_data (lb w) + c * 8 + sz → lb_mem w0 !! a = None) →
  Forall (λ i, points i = true ∧ sz ≤ Z.of_nat (length i)) (item :: items) →
  Z.of_nat (length items) = c * 8 / sz →
  Z.of_nat (length items) < c ∧
  ∃ w', push_all items w = Some (TN_SUCCESS, w') ∧
    tn_list_block_count (Some tt) (Some tt) w' = Some ((TN_SUCCESS, Some (Z.of_nat (length items))), w') ∧
    tn_list_block_push_back item NULL w' = None.
Proof.
  intros Hfr Hc Hsz Hcs Hset Hbehind Hf Hn. apply Forall_cons in Hf as [[Hit Hlen] Hf].
  destruct (lb_setup_run acq obj w0 w c sz Hfr Hc ltac:(lia) ltac:(nia) Hcs Hset)
    as (p & Hp & Hend & Hal & Hout & Hnone & Himpl & Hdata). rewrite Hdata in Hbehind.
  pose proof (Z.div_mod (c * 8) sz ltac:(lia)) as Hdm. pose proof (Z.mod_pos_bound (c * 8) sz ltac:(lia)) as Hmb.
  assert (Z.of_nat (length items) < c) as Hlt by nia. split; [done|].
  destruct (push_all_run w p 0 c sz items Himpl Hp ltac:(lia) Hcs Hend ltac:(lia) Hal ltac:(nia) Hf)
    as (w' & Hr & Hl' & Hout').
  exists w'. split; [done|]. split.
  - unfold tn_list_block_count. cbn [is_null orb]. unfold on_impl, aws_array_list_length. mrun. rewrite Hl'.
    simpl. rewrite (proj2 (Z.eqb_neq p 0)) by lia. rewrite orb_true_r. simpl.
    do 3 f_equal. destruct w' as [[] ? ?]; simpl in *. by subst.
  - pose proof (push_fits w' _ item Hl' Hit) as Hpush.
    cbn [al_item_size al_length al_data al_current_size Nat.add] in Hpush.
    rewrite Hpush by nia.
    rewrite (mem_store_outside _ _ _ (p + c * 8)); [done|rewrite length_take; nia|].
    rewrite Hout', Hout by lia. apply Hbehind. lia.
Qed.

(** ** Runs *)

Definition lb_start : lb_world :=
  {| lb := {| priv_impl := NULL; priv_data := 0; lb_capacity := 0; lb_item_size := 0 |};
     lb_mem := {[ 50 := 7 ]}; lb_error := 0 |}.
Definition raw_list : aws_array_list :=
  {| al_alloc := true; al_current_size := 77; al_length := 5; al_item_size := 3; al_data := 13 |}.
Definition setup_world (n c sz : Z) : lb_world :=
  match tn_list_block_setup (one_block 100 n) (Some raw_list) (Some tt) c sz lb_start with
  | Some (_, w) => w | None => lb_start end.
Definition pointer (x : Z) : list Z := [x; 0; 0; 0; 0; 0; 0; 1].

Lemma lb_start_fresh n : 0 ≤ n → n ≤ 2 ^ 62 → fresh_blocks (one_block 100 n) (lb_mem lb_start).
Proof. intros H1 H2. apply one_block_fresh; [lia..|]. intros a Ha. apply lookup_singleton_ne. lia. Qed.

(** Two pointers fit, the third is refused; removing the first leaves the second. *)
Lemma list_block_refines_stack_witness :
  ∃ w', lb_run [LbPush (pointer 1); LbPush (pointer 2); LbPush (pointer 3); LbRemove 0; LbGet 0; LbPop;
                LbPop; LbCount] (setup_world 16 2 8) =
      Some ([(TN_SUCCESS, [], Some 0); (TN_SUCCESS, [], Some 1); (TN_ERROR, [], Some 2);
             (TN_SUCCESS, [], None); (TN_SUCCESS, pointer 2, None); (TN_SUCCESS, pointer 2, None);
             (TN_ERROR, [], None); (TN_SUCCESS, [], Some 0)], w') ∧
    lb_mem w' !! 50 = Some 7.
Proof.
  destruct (list_block_refines_stack (one_block 100 16) (Some raw_list) lb_start (setup_world 16 2 8) 2 8
    [LbPush (pointer 1); LbPush (pointer 2); LbPush (pointer 3); LbRemove 0; LbGet 0; LbPop; LbPop; LbCount])
    as (w' & Hr & HF); [by apply lb_start_fresh|lia|lia|lia|vm_compute; reflexivity|vm_compute; reflexivity|].
  exists w'. split; [exact Hr|]. apply HF. done.
Defined.

(** The sizes of the repository's test, eight items of 128 bytes: the first push is already
    outside the block. *)
Lemma list_block_overruns_witness :
  tn_list_block_push_back (replicate 128 1) NULL (setup_world 64 8 128) = None.
Proof.
  destruct (list_block_overruns (one_block 100 64) (Some raw_list) lb_start (setup_world 64 8 128) 8 128
    [] (replicate 128 1)) as (_ & w' & Hr & _ & Hn).
  - by apply lb_start_fresh.
  - lia.
  - lia.
  - lia.
  - vm_compute. reflexivity.
  - intros a Ha. apply lookup_singleton_ne. vm_compute in Ha. destruct Ha as [Ha _].
    intros <-. apply Ha. reflexivity.
  - constructor; [|constructor]. split; [reflexivity|vm_compute; congruence].
  - reflexivity.
  - change (Some (TN_SUCCESS, setup_world 64 8 128) = Some (TN_SUCCESS, w')) in Hr.
    revert Hn. generalize dependent (setup_world 64 8 128). intros w Hr. by injection Hr as <-.
Defined.
