(* ===== verification/SplitChar.v ===== *)
(** Splitting a string at a character: [aws_byte_cursor_split_on_char] of aws-c-common's
    source/byte_buf.c, which the load generator uses on its server argument.

    The iterator keeps its place in the cursor it returned last and tells its first call
    by a NULL pointer.  The file shows that it gives exactly the fields of the string, in
    order, and that the array list it fills ends with as many of them as fit. *)
From stdpp Require Import base numbers list option gmap.
From Stdlib Require Import ZArith Lia.
From S2P Require Import Prelude ByteBuf HashTable ArrayList ArrayRun.

Local Open Scope Z_scope.
Local Open Scope c_scope.

(** ** The code *)

(** The address of the first [c] among the [n] bytes at [p], or [NULL]. *)
Fixpoint memchr (m : mem) (p c : Z) (n : nat) : option (ptr Z) :=
  match n with
  | O => Some NULL
  | S n => b ← m !! p; if b =? c then Some (Some p) else memchr m (p + 1) c n
  end.

Definition zero_cursor : aws_byte_cursor := {| cur_ptr := 0; cur_len := 0 |}.

(** The state is [substr]. *)
Definition aws_byte_cursor_next_split (m : mem) (input_str : aws_byte_cursor) (split_on : Z) :
    M aws_byte_cursor bool :=
  substr ← get;
  let first_run := cur_ptr substr =? 0 in
  (if first_run then put {| cur_ptr := cur_ptr input_str; cur_len := 0 |} else mret tt);;
  substr ← get;
  if u64 (cur_ptr input_str + cur_len input_str) <? cur_ptr substr then put zero_cursor;; mret false
  else
    let p := u64 (cur_ptr substr + cur_len substr) in
    let n := u64 (cur_len input_str - u64 (p - cur_ptr input_str)) in
    put {| cur_ptr := p; cur_len := n |};;
    if negb first_run && (n =? 0) then put zero_cursor;; mret false
    else
      skip ← (if negb first_run then b ← lift (m !! p); mret (b =? split_on) else mret false);
      (if skip then put {| cur_ptr := u64 (p + 1); cur_len := u64 (n - 1) |} else mret tt);;
      substr ← get;
      if (skip : bool) && (cur_len substr =? 0) then mret true
      else
        new_location ← lift (memchr m (cur_ptr substr) split_on (Z.to_nat (cur_len substr)));
        (match new_location with
         | Some l => put {| cur_ptr := cur_ptr substr; cur_len := u64 (l - cur_ptr substr) |}
         | None => mret tt
         end);;
        mret true.

(** The object representation of a cursor: the length, then the pointer. *)
Definition cursor_bytes `{Host} (c : aws_byte_cursor) : list Z :=
  obj_bytes 8 (cur_len c) ++ obj_bytes 8 (cur_ptr c).

Fixpoint split_loop `{Host} (fuel : nat) (input_str : aws_byte_cursor) (split_on max_splits split_count : Z)
    (substr : aws_byte_cursor) : M al_world Z :=
  match fuel with
  | O => undef
  | S fuel =>
      if split_count <=? max_splits then
        w ← get;
        r ← lift (aws_byte_cursor_next_split (al_mem w) input_str split_on substr);
        let '(more, substr) := r in
        if negb more then mret AWS_OP_SUCCESS
        else
          let substr :=
            if split_count =? max_splits
            then {| cur_ptr := cur_ptr substr;
                    cur_len := u64 (cur_len input_str - u64 (cur_ptr substr - cur_ptr input_str)) |}
            else substr in
          e ← aws_array_list_push_back (λ _, None) (cursor_bytes substr);
          if negb (e =? 0) then mret AWS_OP_ERR
          else split_loop fuel input_str split_on max_splits (u64 (split_count + 1)) substr
      else mret AWS_OP_SUCCESS
  end.

(** [output] is the list of the state, which has no allocator; it has one item more than
    separators at most. *)
Definition aws_byte_cursor_split_on_char_n `{Host} (input_str : aws_byte_cursor) (split_on n : Z) : M al_world Z :=
  TN_ASSERT (negb (cur_ptr input_str =? 0));;
  w ← get;
  TN_ASSERT (16 <=? al_item_size (al w));;
  let max_splits := if 0 <? n then n else SIZE_MAX in
  split_loop (S (S (Z.to_nat (cur_len input_str)))) input_str split_on max_splits 0 zero_cursor.

Definition aws_byte_cursor_split_on_char `{Host} (input_str : aws_byte_cursor) (split_on : Z) : M al_world Z :=
  aws_byte_cursor_split_on_char_n input_str split_on 0.

(** ** The fields of a string *)

(** The bytes before the first [c], and those after it if there is one. *)
Fixpoint cut (c : Z) (s : list Z) : list Z * option (list Z) :=
  match s with
  | [] => ([], None)
  | b :: s => if b =? c then ([], Some s) else let '(f, r) := cut c s in (b :: f, r)
  end.

Fixpoint fields (c : Z) (s : list Z) : list (list Z) :=
  match s with
  | [] => [[]]
  | b :: s =>
      if b =? c then [] :: fields c s
      else match fields c s with f :: fs => (b :: f) :: fs | [] => [[b]] end
  end.

(** The cursors over consecutive fields from [p] on. *)
Fixpoint cursors_at (p : Z) (fs : list (list Z)) : list aws_byte_cursor :=
  match fs with
  | [] => []
  | f :: fs => {| cur_ptr := p; cur_len := Z.of_nat (length f) |} :: cursors_at (p + Z.of_nat (length f) + 1) fs
  end.

Lemma fields_cut c s :
  fields c s = (cut c s).1 :: match (cut c s).2 with None => [] | Some r => fields c r end.
Proof.
  induction s as [|b s IH]; [done|]. simpl. destruct (b =? c); [done|].
  rewrite IH. by destruct (cut c s) as [f r].
Qed.

Lemma cut_split c s :
  s = (cut c s).1 ++ match (cut c s).2 with None => [] | Some r => c :: r end.
Proof.
  induction s as [|b s IH]; [done|]. simpl. destruct (Z.eqb_spec b c) as [->|]; [done|].
  rewrite IH at 1. by destruct (cut c s) as [f r].
Qed.

Lemma length_fields c s : (length (fields c s) ≤ S (length s))%nat.
Proof.
  induction s as [|b s IH]; simpl; [lia|]. destruct (b =? c); simpl; [lia|].
  destruct (fields c s); simpl in *; lia.
Qed.

Lemma memchr_run m p c s :
  block m p s →
  memchr m p c (length s) =
    Some (match (cut c s).2 with None => NULL | Some _ => Some (p + Z.of_nat (length (cut c s).1)) end).
Proof.
  revert p. induction s as [|b s IH]; intros p Hb; [done|]. simpl.
  change (b :: s) with ([b] ++ s) in Hb. apply block_app in Hb as [Hb Hs].
  rewrite block_lookup in Hb. specialize (Hb 0%nat ltac:(simpl; lia)). rewrite Z.add_0_r in Hb. rewrite Hb. simpl.
  destruct (b =? c); simpl; [do 2 f_equal; lia|]. simpl in Hs. rewrite (IH (p + 1) Hs).
  destruct (cut c s) as [f [r|]]; simpl; do 2 f_equal; lia.
Qed.

(** ** The iterator *)

Section Split.
Context (m : mem) (p c : Z) (s : list Z) (Hb : block m p s) (Hp : 0 < p)
  (Hend : p + Z.of_nat (length s) < 2 ^ 63).

Abbreviation input := {| cur_ptr := p; cur_len := Z.of_nat (length s) |}.

(** The search from the start of a field, once the separator has been passed. *)
Lemma search_field q rest :
  block m q rest →
  (new_location ← lift (memchr m q c (length rest));
   (match new_location with
    | Some l => put {| cur_ptr := q; cur_len := u64 (l - q) |}
    | None => mret tt
    end);; mret true) {| cur_ptr := q; cur_len := Z.of_nat (length rest) |} =
  Some (true, {| cur_ptr := q; cur_len := Z.of_nat (length (cut c rest).1) |}) ∨
  2 ^ 63 ≤ Z.of_nat (length rest).
Proof.
  intros Hq. destruct (decide (2 ^ 63 ≤ Z.of_nat (length rest))) as [|Hlt]; [by right|left].
  rewrite (memchr_run _ _ _ _ Hq), M_lift. pose proof (cut_split c rest) as Hc.
  destruct (cut c rest) as [f [r|]]; simpl in *.
  - mrun. subst rest. rewrite length_app in Hlt. simpl in Hlt. rewrite u64_small by lia.
    do 3 f_equal. lia.
  - mrun. subst rest. by rewrite app_nil_r.
Qed.

Lemma next_first :
  aws_byte_cursor_next_split m input c zero_cursor =
    Some (true, {| cur_ptr := p; cur_len := Z.of_nat (length (cut c s).1) |}).
Proof using Hb Hp Hend.
  unfold aws_byte_cursor_next_split. rewrite M_get. cbn [cur_ptr zero_cursor Z.eqb]. cbv zeta.
  rewrite M_put, M_get. cbn [cur_ptr cur_len]. rewrite u64_small by lia.
  rewrite (proj2 (Z.ltb_ge _ _)) by lia. rewrite Z.add_0_r, (u64_small p), Z.sub_diag by lia.
  change (u64 0) with 0. rewrite Z.sub_0_r, u64_small by lia.
  rewrite M_put. cbn [negb andb]. rewrite M_left_id, M_left_id, M_get. cbn [cur_ptr cur_len andb].
  rewrite Nat2Z.id. destruct (search_field p s Hb) as [H|H]; [exact H|lia].
Qed.

(** After the field [f] that ends at [q + length f], with [rest] behind it. *)
Lemma next_more q (f rest : list Z) :
  block m (q + Z.of_nat (length f)) rest → p ≤ q →
  q + Z.of_nat (length f) + Z.of_nat (length rest) = p + Z.of_nat (length s) →
  (∀ b r, rest = b :: r → b = c) →
  aws_byte_cursor_next_split m input c {| cur_ptr := q; cur_len := Z.of_nat (length f) |} =
    match rest with
    | [] => Some (false, zero_cursor)
    | _ :: r => Some (true, {| cur_ptr := q + Z.of_nat (length f) + 1; cur_len := Z.of_nat (length (cut c r).1) |})
    end.
Proof using Hp Hend.
  intros Hr Hq Htot Hsep. unfold aws_byte_cursor_next_split. rewrite M_get. cbn [cur_ptr cur_len].
  rewrite (proj2 (Z.eqb_neq q 0)) by lia. cbv zeta. rewrite M_left_id, M_get. cbn [cur_ptr cur_len].
  rewrite (u64_small (p + _)) by lia. rewrite (proj2 (Z.ltb_ge _ _)) by lia.
  rewrite (u64_small (q + _)) by lia. rewrite (u64_small (q + _ - p)) by lia. rewrite u64_small by lia.
  replace (Z.of_nat (length s) - (q + Z.of_nat (length f) - p)) with (Z.of_nat (length rest)) by lia.
  rewrite M_put. cbn [negb andb]. destruct rest as [|b r].
  { simpl. mrun. done. }
  specialize (Hsep b r eq_refl) as ->. change (c :: r) with ([c] ++ r) in Hr.
  apply block_app in Hr as [Hc Hr]. rewrite block_lookup in Hc. specialize (Hc 0%nat ltac:(simpl; lia)).
  rewrite Z.add_0_r in Hc. simpl in Hc. cbn [length] in *. rewrite (proj2 (Z.eqb_neq _ 0)) by lia.
  rewrite Hc, M_assoc, M_lift, M_left_id, Z.eqb_refl, M_put, M_get. cbn [cur_ptr cur_len andb].
  rewrite !u64_small by lia. change (Z.of_nat 1) with 1 in Hr.
  replace (Z.of_nat (S (length r)) - 1) with (Z.of_nat (length r)) by lia.
  destruct (Z.eqb_spec (Z.of_nat (length r)) 0) as [Hz|Hz].
  { assert (r = []) as -> by (apply length_zero_iff_nil; lia). done. }
  rewrite Nat2Z.id. destruct (search_field _ r Hr) as [H|H]; [exact H|lia].
Qed.
End Split.

(** From [substr] on the iterator gives the cursors [cs] and then ends. *)
Fixpoint yields (m : mem) (input : aws_byte_cursor) (c : Z) (substr : aws_byte_cursor)
    (cs : list aws_byte_cursor) : Prop :=
  match cs with
  | [] => aws_byte_cursor_next_split m input c substr = Some (false, zero_cursor)
  | c1 :: cs => aws_byte_cursor_next_split m input c substr = Some (true, c1) ∧ yields m input c c1 cs
  end.

Lemma more_yields m p c (s : list Z) q (f rest : list Z) :
  0 < p → p + Z.of_nat (length s) < 2 ^ 63 →
  block m (q + Z.of_nat (length f)) rest → p ≤ q →
  q + Z.of_nat (length f) + Z.of_nat (length rest) = p + Z.of_nat (length s) →
  (∀ b r, rest = b :: r → b = c) →
  yields m {| cur_ptr := p; cur_len := Z.of_nat (length s) |} c
    {| cur_ptr := q; cur_len := Z.of_nat (length f) |}
    match rest with [] => [] | _ :: r => cursors_at (q + Z.of_nat (length f) + 1) (fields c r) end.
Proof.
  intros Hp Hend. remember (length rest) as n eqn:Hn. revert q f rest Hn.
  induction (lt_wf n) as [n _ IH]. intros q f rest -> Hr Hq Htot Hsep.
  pose proof (next_more m p c s Hp Hend q f rest Hr Hq Htot Hsep) as Hnext.
  destruct rest as [|b r]; [exact Hnext|]. rewrite fields_cut. cbn [cursors_at yields].
  split; [exact Hnext|]. pose proof (cut_split c r) as Hcut. destruct (cut c r) as [f1 o]. cbn [fst snd] in *.
  change (b :: r) with ([b] ++ r) in Hr. apply block_app in Hr as [_ Hr].
  rewrite Hcut in Hr. apply block_app in Hr as [_ Hr]. cbn [length] in *. change (Z.of_nat 1) with 1 in Hr.
  rewrite Hcut, length_app in Htot.
  specialize (IH (length (match o with None => [] | Some r => c :: r end))).
  specialize (IH ltac:(rewrite Hcut, length_app; destruct o; simpl; lia) (q + Z.of_nat (length f) + 1) f1 _ eq_refl Hr).
  specialize (IH ltac:(lia) ltac:(lia)). destruct o as [r1|]; apply IH; [|done].
  by intros ? ? [= <- _].
Qed.

Lemma split_yields m p c (s : list Z) :
  block m p s → 0 < p → p + Z.of_nat (length s) < 2 ^ 63 →
  yields m {| cur_ptr := p; cur_len := Z.of_nat (length s) |} c zero_cursor (cursors_at p (fields c s)).
Proof.
  intros Hb Hp Hend. rewrite fields_cut. cbn [cursors_at yields]. split; [by apply next_first|].
  pose proof (cut_split c s) as Hcut.
  assert (block m (p + Z.of_nat (length (cut c s).1))
    match (cut c s).2 with None => [] | Some r => c :: r end) as Hr.
  { rewrite Hcut in Hb. by apply block_app in Hb as [_ Hb]. }
  pose proof (f_equal (@length Z) Hcut) as Hl. rewrite length_app in Hl.
  pose proof (more_yields m p c s p (cut c s).1 _ Hp Hend Hr ltac:(lia) ltac:(lia)) as Hy.
  destruct (cut c s).2 as [r|]; apply Hy; [|done]. by intros ? ? [= <- _].
Qed.

(** ** The loop *)

Lemma length_cursor_bytes `{Host} c : length (cursor_bytes c) = 16%nat.
Proof.
  unfold cursor_bytes, obj_bytes. destruct aws_is_big_endian; rewrite length_app, ?length_rev, !length_le_split; done.
Qed.

Lemma length_cursors p (fs : list (list Z)) : length (cursors_at p fs) = length fs.
Proof. revert p. induction fs as [|f fs IH]; intros p; simpl; [done|by rewrite IH]. Qed.

(** A static list of at most [k] cursors. *)
Definition cursor_seq `{Host} (k : nat) (cs : list aws_byte_cursor) : seq_spec :=
  {| sq_items := cursor_bytes <$> cs; sq_size := 16; sq_cap := Z.of_nat k * 16; sq_dynamic := false |}.

(** A list without an allocator stays where it is. *)
Definition stays {A} (f : M al_world A) : Prop := ∀ w r w',
  al_alloc (al w) = false → f w = Some (r, w') → al_alloc (al w') = false ∧ al_data (al w') = al_data (al w).

Lemma stays_bind {A B} (f : M al_world A) (k : A → M al_world B) :
  stays f → (∀ a, stays (k a)) → stays (f ≫= k).
Proof.
  intros Hf Hk w r w' Ha. unfold mbind, M_bind. destruct (f w) as [[a w1]|] eqn:E; [|done].
  intros Hr. destruct (Hf _ _ _ Ha E) as [Ha1 Hd1]. destruct (Hk _ _ _ _ Ha1 Hr) as [Ha2 Hd2].
  split; [done|congruence].
Qed.

Lemma stays_same {A} (f : M al_world A) : (∀ w r w', f w = Some (r, w') → al w' = al w) → stays f.
Proof. intros H w r w' Ha E. by rewrite (H _ _ _ E). Qed.

Ltac same_list := apply stays_same; intros ? ? ? E; by injection E as _ <-.

Lemma length_stays : stays aws_array_list_length.
Proof. apply stays_same. unfold aws_array_list_length. intros w r w'. mrun. destruct (_ || _); simpl; congruence. Qed.

Lemma ensure_stays acq i : stays (aws_array_list_ensure_capacity acq i).
Proof.
  intros w r w' Ha. unfold aws_array_list_ensure_capacity. rewrite M_get, Ha. cbv zeta.
  destruct (_ <? _); mrun; intros [= <- <-]; done.
Qed.

Lemma push_stays acq v : stays (aws_array_list_push_back acq v).
Proof.
  unfold aws_array_list_push_back, aws_array_list_set_at.
  apply stays_bind; [apply length_stays|]. intros len. apply stays_bind.
  - apply stays_bind; [same_list|]. intros w0. cbv zeta. apply stays_bind.
    { destruct (_ <? _); [apply ensure_stays|]. same_list. }
    intros r. destruct (negb _); [same_list|].
    apply stays_bind; [same_list|]. intros w1. apply stays_bind.
    { apply stays_same. intros ? ? ?. unfold TN_ASSERT. destruct (_ <=? _); [intros E; by injection E as _ <-|done]. }
    intros _. apply stays_bind.
    { apply stays_same. intros w r' w' E. unfold store_bytes in E. mrun in E.
      destruct (mem_store _ _ _); [|done]. by injection E as <- <-. }
    intros _. apply stays_bind; [apply length_stays|]. intros n. apply stays_bind.
    { destruct (_ <=? _); [|same_list]. intros w r' w' Ha [= <- <-]. done. }
    intros _. same_list.
  - intros e. apply stays_bind; [same_list|]. intros e'.
    apply stays_bind; [same_list|]. intros w1.
    destruct (_ && _); same_list.
Qed.

Lemma split_loop_run `{Host} F p (s : list Z) c k fuel : ∀ w got todo n substr,
  block F p s → repr F w (cursor_seq k got) →
  (∀ m, block m p s → yields m {| cur_ptr := p; cur_len := Z.of_nat (length s) |} c substr todo) →
  (length got ≤ k)%nat → (length todo < fuel)%nat → 0 ≤ n → n + Z.of_nat (length todo) < SIZE_MAX →
  ∃ w', split_loop fuel {| cur_ptr := p; cur_len := Z.of_nat (length s) |} c SIZE_MAX n substr w =
      Some (if decide (length got + length todo ≤ k)%nat then AWS_OP_SUCCESS else AWS_OP_ERR, w') ∧
    repr F w' (cursor_seq k (got ++ take (k - length got) todo)) ∧ al_data (al w') = al_data (al w).
Proof.
  unfold SIZE_MAX. induction fuel as [|fuel IH]; intros w got todo n substr HF R Hy Hk Hf Hn Hmax; [lia|].
  cbn [split_loop]. rewrite (proj2 (Z.leb_le _ _)) by lia. rewrite M_get.
  assert (block (al_mem w) p s) as Hb.
  { rewrite block_lookup in HF |- *. intros i Hi. specialize (HF i Hi).
    destruct (lookup_lt_is_Some_2 s i Hi) as [x Hx]. rewrite Hx in *. by apply (rp_frame _ _ _ R). }
  pose proof (Hy _ Hb) as Hnext. destruct todo as [|c1 todo]; cbn [yields] in Hnext.
  { rewrite Hnext, M_lift. cbn [negb]. exists w. rewrite decide_True by (simpl; lia). split; [done|].
    by rewrite take_nil, app_nil_r. }
  destruct Hnext as [Hnext _]. rewrite Hnext, M_lift. cbn [negb length] in *.
  rewrite (proj2 (Z.eqb_neq _ _)) by lia. cbv zeta.
  pose proof (al_push_run F w _ (λ _, None) (cursor_bytes c1) R) as Hp.
  specialize (Hp ltac:(by intros ? ? ? ?) ltac:(rewrite length_cursor_bytes; simpl; lia)).
  unfold grow, item_of in Hp. cbn [cursor_seq sq_items sq_size sq_cap sq_dynamic] in Hp.
  rewrite length_fmap in Hp. destruct (decide (length got < k)%nat) as [Hlt|Hge].
  - rewrite (proj2 (Z.leb_le _ _)) in Hp by lia. destruct Hp as (w1 & Hp & R1).
    rewrite (bind_Some _ _ _ _ _ Hp). change (negb (AWS_OP_SUCCESS =? 0)) with false. cbv iota.
    rewrite take_ge in R1 by (rewrite length_cursor_bytes; done).
    destruct (IH w1 (got ++ [c1]) todo (u64 (n + 1)) c1) as (w' & Hr & R' & Hd'); [done| | |rewrite length_app; simpl; lia|lia| | |].
    + unfold with_items, cursor_seq in *. simpl in R1. by rewrite fmap_app.
    + intros m Hm. by destruct (Hy m Hm).
    + apply u64_range.
    + rewrite u64_small by lia. lia.
    + exists w'. rewrite Hr. rewrite length_app in *. cbn [length] in *.
      replace (k - length got)%nat with (S (k - (length got + 1))) by lia. cbn [take].
      rewrite <- app_assoc in R'. split_and!; [by rewrite <- Nat.add_assoc|exact R'|].
      rewrite Hd'. by destruct (push_stays _ _ _ _ _ (rp_alloc _ _ _ R) Hp).
  - rewrite (proj2 (Z.leb_gt _ _)) in Hp by lia. simpl in Hp. rewrite (bind_Some _ _ _ _ _ Hp).
    change (negb (AWS_OP_ERR =? 0)) with true. cbv iota.
    eexists. split; [rewrite decide_False by lia; reflexivity|].
    replace (k - length got)%nat with 0%nat by lia. rewrite take_0, app_nil_r. split; [by apply repr_error|done].
Qed.

(** ** What splitting gives *)

(** The fields with [c] between them. *)
Fixpoint join (c : Z) (fs : list (list Z)) : list Z :=
  match fs with [] => [] | [f] => f | f :: fs => f ++ c :: join c fs end.

Lemma fields_nonempty c s : fields c s ≠ [].
Proof. by rewrite fields_cut. Qed.

Lemma join_fields c s : join c (fields c s) = s.
Proof.
  induction s as [|b s IH]; [done|]. simpl. pose proof (fields_nonempty c s) as Hne.
  destruct (Z.eqb_spec b c) as [->|].
  - destruct (fields c s); [done|]. cbn [join] in *. by rewrite IH.
  - destruct (fields c s) as [|f [|f' fs]]; [done| |]; cbn [join] in *; by rewrite <- IH.
Qed.

Lemma fields_free c s : Forall (λ f, c ∉ f) (fields c s).
Proof.
  induction s as [|b s IH]; simpl; [by repeat constructor; apply not_elem_of_nil|].
  destruct (Z.eqb_spec b c) as [->|Hne].
  - constructor; [apply not_elem_of_nil|done].
  - destruct (fields c s) as [|f fs]; [constructor; [|done]; set_solver|].
    inversion IH; subst. constructor; [set_solver|done].
Qed.

Lemma split_run `{Host} F w p s c k :
  block F p s → 0 < p → p + Z.of_nat (length s) < 2 ^ 63 → repr F w (cursor_seq k []) →
  ∃ w', aws_byte_cursor_split_on_char {| cur_ptr := p; cur_len := Z.of_nat (length s) |} c w =
      Some (if decide (length (fields c s) ≤ k)%nat then AWS_OP_SUCCESS else AWS_OP_ERR, w') ∧
    repr F w' (cursor_seq k (take k (cursors_at p (fields c s)))) ∧ al_data (al w') = al_data (al w).
Proof.
  intros HF Hp Hend R.
  unfold aws_byte_cursor_split_on_char, aws_byte_cursor_split_on_char_n. cbn [cur_ptr cur_len].
  rewrite (proj2 (Z.eqb_neq _ 0)), M_assert, M_get by lia.
  rewrite (rp_size _ _ _ R). change (16 <=? 16) with true. rewrite M_assert.
  change (0 <? 0) with false. cbv zeta iota. rewrite Nat2Z.id. pose proof (length_fields c s).
  destruct (split_loop_run F p s c k (S (S (length s))) w [] (cursors_at p (fields c s)) 0 zero_cursor)
    as (w' & Hr & R' & Hd).
  - done.
  - done.
  - intros m Hm. by apply split_yields.
  - simpl. lia.
  - rewrite length_cursors. lia.
  - lia.
  - rewrite length_cursors. unfold SIZE_MAX. lia.
  - exists w'. rewrite Hr, length_cursors. cbn [length Nat.add]. by rewrite Nat.sub_0_r in R'.
Qed.

(** [aws_byte_cursor_split_on_char] on a string in memory, with a list of at most [k]
    cursors for its output, ends and stores the cursors of the string's fields in order, as
    many as fit, and reports an error exactly when there are more; the fields hold no
    separator and joined by it they are the string. *)
Theorem split_gives_fields `{Host} F w p s c k :
  block F p s → 0 < p → p + Z.of_nat (length s) < 2 ^ 63 → repr F w (cursor_seq k []) →
  (∃ w', aws_byte_cursor_split_on_char {| cur_ptr := p; cur_len := Z.of_nat (length s) |} c w =
      Some (if decide (length (fields c s) ≤ k)%nat then AWS_OP_SUCCESS else AWS_OP_ERR, w') ∧
    repr F w' (cursor_seq k (take k (cursors_at p (fields c s))))) ∧
  join c (fields c s) = s ∧ Forall (λ f, c ∉ f) (fields c s).
Proof.
  intros HF Hp Hend R. split; [|split; [apply join_fields|apply fields_free]].
  destruct (split_run F w p s c k HF Hp Hend R) as (w' & Hr & R' & _). by exists w'.
Qed.

(** The string 1:2 and room for one cursor and for two. *)
Definition string_mem : mem := mem_acquire 50 [49; 58; 50] ∅.
Definition split_mem : mem := mem_acquire 100 (replicate 32 9) string_mem.
Definition split_world (k : Z) : al_world :=
  {| al := {| al_alloc := false; al_current_size := k * 16; al_length := 0; al_item_size := 16; al_data := 100 |};
     al_mem := split_mem; last_error := 0 |}.

Lemma split_world_repr `{Host} k :
  (0 < k ≤ 2)%nat → repr string_mem (split_world (Z.of_nat k)) (cursor_seq k []).
Proof.
  intros Hk. split; simpl; try done; try lia.
  - exists (replicate (k * 16) 9). rewrite length_replicate. split; [|lia].
    apply block_lookup. intros i Hi. rewrite length_replicate in Hi. unfold split_mem.
    rewrite mem_acquire_lookup, decide_True by (rewrite length_replicate; lia).
    rewrite !lookup_replicate_2 by lia. done.
  - intros a x Hx. unfold split_mem. unfold string_mem in *. rewrite mem_acquire_lookup in Hx.
    destruct (decide _) as [Hin|]; [|by rewrite lookup_empty in Hx]. simpl in Hin.
    rewrite mem_acquire_lookup, decide_False by (rewrite length_replicate; lia).
    rewrite mem_acquire_lookup, decide_True by (simpl; lia). split; [done|lia].
Qed.

Lemma split_gives_fields_witness :
  fields 58 [49; 58; 50] = [[49]; [50]] ∧
  (∃ w', @aws_byte_cursor_split_on_char {| aws_is_big_endian := false |} {| cur_ptr := 50; cur_len := 3 |} 58 (split_world 2) =
    Some (AWS_OP_SUCCESS, w')) ∧
  (∃ w', @aws_byte_cursor_split_on_char {| aws_is_big_endian := false |} {| cur_ptr := 50; cur_len := 3 |} 58 (split_world 1) =
    Some (AWS_OP_ERR, w')).
Proof.
  split; [reflexivity|].
  split.
  - destruct (@split_gives_fields {| aws_is_big_endian := false |} string_mem (split_world 2) 50
      [49; 58; 50] 58 2) as ((w' & Hr & _) & _); [apply acquire_block|lia|simpl; lia|by apply (split_world_repr 2); lia|].
    exists w'. exact Hr.
  - destruct (@split_gives_fields {| aws_is_big_endian := false |} string_mem (split_world 1) 50
      [49; 58; 50] 58 1) as ((w' & Hr & _) & _); [apply acquire_block|lia|simpl; lia|by apply (split_world_repr 1); lia|].
    exists w'. exact Hr.
Defined.
