(* ===== verification/CmdArgs.v ===== *)
(** The arguments of the load generator: include/tcplg/cmdargs.h after argparse has filled
    the members of [cmdline_args].

    The vendored argparse is a parameter: its results are the members the function starts
    from.  The server argument is split at the colon into two cursors on the stack, whose
    bytes before the call are arbitrary ([frame] is their address). *)
From stdpp Require Import base numbers list option gmap.
From Stdlib Require Import ZArith Lia String Ascii.
From stdpp Require Import list.
From S2P Require Import Prelude ByteBuf Inet HashTable ArrayList ArrayRun SplitChar.

Local Open Scope Z_scope.
Local Open Scope c_scope.

(** [ca_message] is the string, [ca_server] the address of the string and its bytes;
    [ca_host] the 255 bytes of the array. *)
Record cmdline_args_t := {
  ca_clients : Z;
  ca_rate : Z;
  ca_prefix : Z;
  ca_time : Z;
  ca_msglen : Z;
  ca_message : ptr (list Z);
  ca_server : ptr (Z * list Z);
  ca_host : list Z;
  ca_port : Z;
}.

(** Conversion to [int]. *)
Definition to_int (x : Z) : Z := (x + 2147483648) mod 4294967296 - 2147483648.

(** The string in a buffer: the bytes before the first 0. *)
Definition c_string (bs : list Z) : list Z := (cut 0 bs).1.

Definition is_space (c : Z) : bool := (c =? 32) || ((9 <=? c) && (c <=? 13)).
Definition is_digit (c : Z) : bool := (48 <=? c) && (c <=? 57).

Fixpoint digits (acc : Z) (s : list Z) : Z :=
  match s with
  | [] => acc
  | c :: s => if is_digit c then digits (10 * acc + (c - 48)) s else acc
  end.
Fixpoint skip_spaces (s : list Z) : list Z :=
  match s with [] => [] | c :: t => if is_space c then skip_spaces t else s end.
(** [atoi] on a short string (no overflow). *)
Definition atoi (s : list Z) : Z :=
  match skip_spaces s with
  | c :: t => if c =? 45 then - digits 0 t else if c =? 43 then digits 0 t else digits 0 (c :: t)
  | [] => 0
  end.

Definition cursor_at `{Host} (bs : list Z) : aws_byte_cursor :=
  {| cur_len := obj_value (take 8 bs); cur_ptr := obj_value (take 8 (drop 8 bs)) |}.

(** The defaults. *)
Definition with_defaults (a : cmdline_args_t) : cmdline_args_t :=
  {| ca_clients := if ca_clients a <=? 0 then 1 else ca_clients a;
     ca_rate := if ca_rate a <? 0 then 1 else ca_rate a;
     ca_prefix := ca_prefix a;
     ca_time := if ca_time a <=? 0 then 10 else ca_time a;
     ca_msglen := ca_msglen a; ca_message := ca_message a; ca_server := ca_server a;
     ca_host := ca_host a; ca_port := ca_port a |}.
Definition set_msglen (n : Z) (a : cmdline_args_t) : cmdline_args_t :=
  {| ca_clients := ca_clients a; ca_rate := ca_rate a; ca_prefix := ca_prefix a; ca_time := ca_time a;
     ca_msglen := n; ca_message := ca_message a; ca_server := ca_server a; ca_host := ca_host a; ca_port := ca_port a |}.
Definition set_server (host : list Z) (port : Z) (a : cmdline_args_t) : cmdline_args_t :=
  {| ca_clients := ca_clients a; ca_rate := ca_rate a; ca_prefix := ca_prefix a; ca_time := ca_time a;
     ca_msglen := ca_msglen a; ca_message := ca_message a; ca_server := ca_server a; ca_host := host; ca_port := port |}.

(** The static list [bc_list] over [bc_array], and the split of the server at [':']. *)
Definition split_server `{Host} (m : mem) (frame : Z) (server : Z * list Z) : option (Z * mem) :=
  let junk := {| al_alloc := false; al_current_size := 0; al_length := 0; al_item_size := 0; al_data := 0 |} in
  r ← (aws_array_list_init_static frame 2 16;;
       aws_byte_cursor_split_on_char
         {| cur_ptr := server.1; cur_len := Z.of_nat (length server.2) |} 58)
      {| al := junk; al_mem := m; last_error := 0 |};
  Some (r.1, al_mem r.2).

(** The host and the port of the server argument, [None] in the middle: rejected. *)
Definition parse_server `{Host} (m : mem) (frame : Z) (server : Z * list Z) : option (option (list Z * Z)) :=
  r ← split_server m frame server;
  if negb (r.1 =? AWS_OP_SUCCESS) then Some None
  else
    b0 ← mem_load r.2 frame 16;
    b1 ← mem_load r.2 (frame + 16) 16;
    let bc0 := cursor_at b0 in
    let bc1 := cursor_at b1 in
    if (16 <? cur_len bc0) || (cur_len bc0 <=? 0) || (5 <? cur_len bc1) || (cur_len bc0 <=? 0) then Some None
    else
      h ← mem_load r.2 (cur_ptr bc0) (cur_len bc0);
      p ← mem_load r.2 (cur_ptr bc1) (cur_len bc1);
      let shost := h ++ replicate (32 - length h) 0 in
      let sport := p ++ replicate (32 - length p) 0 in
      let port := atoi (c_string sport) in
      if (port <=? 0) || (65535 <? port) then Some None
      else Some (Some (shost, port)).

(** The code and [cmdline_args] afterwards. *)
Definition parse_tcploadgen_args `{Host} (m : mem) (frame : Z) (parsed : cmdline_args_t) : option (Z * cmdline_args_t) :=
  let a := with_defaults parsed in
  match ca_message a with
  | None => Some (-1, a)
  | Some message =>
      let a := set_msglen (to_int (Z.of_nat (length message))) a in
      if ca_msglen a <=? 0 then Some (-1, a)
      else
        match ca_server a with
        | None => Some (-1, a)
        | Some server =>
            r ← parse_server m frame server;
            match r with
            | None => Some (-1, a)
            | Some (shost, port) =>
                let a := set_server (shost ++ drop 32 (ca_host a)) port a in
                if negb (ca_prefix a =? 0)
                   && (negb (Z.rem (ca_prefix a) 8 =? 0) || (64 <? ca_prefix a) || (ca_prefix a <? 0))
                then Some (-1, a)
                else Some (0, a)
            end
        end
  end.

(** ** Lemmas *)

Lemma obj_round_trip `{Host} x : 0 ≤ x < W64 → obj_value (obj_bytes 8 x) = x.
Proof.
  intros Hx. unfold obj_value, obj_bytes. destruct aws_is_big_endian; rewrite ?rev_involutive;
    rewrite le_combine_split; apply Z.mod_small; done.
Qed.

Lemma length_obj_bytes `{Host} n x : length (obj_bytes n x) = n.
Proof. unfold obj_bytes. destruct aws_is_big_endian; by rewrite ?length_rev, length_le_split. Qed.

Lemma cursor_round_trip `{Host} c :
  0 ≤ cur_len c < W64 → 0 ≤ cur_ptr c < W64 → cursor_at (cursor_bytes c) = c.
Proof.
  intros Hl Hp. unfold cursor_at, cursor_bytes.
  rewrite take_app_length', drop_app_length' by (by rewrite length_obj_bytes).
  rewrite (take_ge (obj_bytes 8 (cur_ptr c))) by (by rewrite length_obj_bytes).
  rewrite !obj_round_trip by done. by destruct c.
Qed.

Lemma c_string_padded s k : 0 ∉ s → (0 < k)%nat → c_string (s ++ replicate k 0) = s.
Proof.
  intros Hs Hk. unfold c_string. induction s as [|b s IH]; simpl.
  - by destruct k; [lia|].
  - apply not_elem_of_cons in Hs as [Hb Hs]. rewrite (proj2 (Z.eqb_neq b 0)) by done.
    specialize (IH Hs). destruct (cut 0 (s ++ replicate k 0)) as [f r]. simpl in *. by rewrite IH.
Qed.

(** The memory that is not the stack frame. *)
Lemma outside_frame m frame a x :
  0 < frame → mem_release frame 32 m !! a = Some x ↔ m !! a = Some x ∧ (a < frame ∨ frame + 32 ≤ a).
Proof.
  intros Hf. unfold mem_release. rewrite (proj2 (Z.eqb_neq _ 0)) by lia.
  rewrite map_lookup_filter_Some. simpl. split; intros [H1 H2]; (split; [done|lia]).
Qed.

(** A C string in memory, away from a stack frame. *)
Record server_ok (m : mem) (frame p : Z) (s : list Z) : Prop := {
  sv_block : block m p s;
  sv_addr : 0 < p ∧ p + Z.of_nat (length s) < 2 ^ 63;
  sv_frame : 0 < frame ∧ frame + 32 ≤ 2 ^ 63 ∧ allocated m frame 32;
  sv_apart : p + Z.of_nat (length s) ≤ frame ∨ frame + 32 ≤ p;
  sv_string : 0 ∉ s;
}.

Section Server.
Context `{Host} (m : mem) (frame p : Z) (s : list Z) (Hs : server_ok m frame p s).
Abbreviation F := (mem_release frame 32 m).

Lemma server_in_F : block F p s.
Proof using Hs.
  destruct Hs. rewrite block_lookup in sv_block0 |- *. intros i Hi. specialize (sv_block0 i Hi).
  destruct (lookup_lt_is_Some_2 s i Hi) as [x Hx]. rewrite Hx in *. apply outside_frame; [lia|]. split; [done|lia].
Qed.

Lemma split_server_run :
  ∃ w', split_server m frame (p, s) =
      Some (if decide (length (fields 58 s) ≤ 2)%nat then AWS_OP_SUCCESS else AWS_OP_ERR, al_mem w') ∧
    repr F w' (cursor_seq 2 (take 2 (cursors_at p (fields 58 s)))) ∧ al_data (al w') = frame.
Proof using Hs.
  pose proof server_in_F as HF. destruct Hs. unfold split_server. cbv zeta.
  set (w0 := {| al := _; al_mem := m; last_error := 0 |}).
  assert (aws_array_list_init_static frame 2 16 w0 =
    Some (tt, set_al {| al_alloc := false; al_current_size := 32; al_length := 0; al_item_size := 16;
                        al_data := frame |} w0)) as Hinit.
  { unfold aws_array_list_init_static. by rewrite (proj2 (Z.eqb_neq frame 0)) by lia. }
  rewrite (bind_Some _ _ _ _ _ Hinit). set (w1 := set_al _ w0).
  assert (repr F w1 (cursor_seq 2 [])) as R1.
  { apply (start_run F (StStatic frame 2 16) w0); [|by simpl; rewrite (bind_Some _ _ _ _ _ Hinit)].
    split; [simpl; lia|]. simpl. split_and!; try lia; [apply sv_frame0|].
    intros a x Hx. apply outside_frame in Hx; [|lia]. destruct Hx. split; [done|lia]. }
  destruct (split_run F w1 p s 58 2 HF ltac:(lia) ltac:(lia) R1) as (w' & Hr & R' & Hd).
  cbn [fst snd]. rewrite Hr. exists w'. simpl. split; [done|]. split; [done|]. by rewrite Hd.
Qed.

(** What the code reads back when there are two fields. *)
Lemma two_fields h pt w' :
  fields 58 s = [h; pt] → repr F w' (cursor_seq 2 (cursors_at p [h; pt])) → al_data (al w') = frame →
  mem_load (al_mem w') frame 16 = Some (cursor_bytes {| cur_ptr := p; cur_len := Z.of_nat (length h) |}) ∧
  mem_load (al_mem w') (frame + 16) 16 =
    Some (cursor_bytes {| cur_ptr := p + Z.of_nat (length h) + 1; cur_len := Z.of_nat (length pt) |}) ∧
  mem_load (al_mem w') p (Z.of_nat (length h)) = Some h ∧
  mem_load (al_mem w') (p + Z.of_nat (length h) + 1) (Z.of_nat (length pt)) = Some pt ∧
  Z.of_nat (length s) = Z.of_nat (length h) + 1 + Z.of_nat (length pt).
Proof using Hs.
  intros Hf R Hd. pose proof server_in_F as HF.
  pose proof (item_block F w' _ R 0 _ eq_refl) as B0. pose proof (item_block F w' _ R 1 _ eq_refl) as B1.
  unfold block in B0, B1. rewrite length_cursor_bytes, Hd in B0, B1. cbn [cursor_seq sq_size] in B0, B1.
  rewrite Z.add_0_r in B0. split; [exact B0|]. split; [exact B1|].
  assert (s = h ++ 58 :: pt) as Es by (by rewrite <- (join_fields 58 s), Hf).
  assert (block (al_mem w') p s) as Hb.
  { rewrite block_lookup in HF |- *. intros i Hi. specialize (HF i Hi).
    destruct (lookup_lt_is_Some_2 s i Hi) as [x Hx]. rewrite Hx in *. by apply (rp_frame _ _ _ R). }
  rewrite Es in Hb |- *. change (58 :: pt) with ([58] ++ pt) in *. rewrite !block_app in Hb.
  destruct Hb as (Hh & _ & Hpt). change (Z.of_nat (length [58])) with 1 in Hpt.
  rewrite !length_app. cbn [length]. split_and!; [exact Hh|exact Hpt|lia].
Qed.
End Server.

Lemma accepted_range `{Host} m frame parsed a :
  parse_tcploadgen_args m frame parsed = Some (0, a) →
  1 ≤ ca_clients a ∧ 0 ≤ ca_rate a ∧ 1 ≤ ca_time a ∧ 0 < ca_msglen a ∧
  (∃ msg, ca_message a = Some msg ∧ ca_msglen a = to_int (Z.of_nat (length msg))) ∧ 1 ≤ ca_port a ≤ 65535 ∧ 0 ≤ ca_prefix a ≤ 64 ∧ (8 | ca_prefix a).
Proof.
  unfold parse_tcploadgen_args. cbv zeta. set (d := with_defaults parsed).
  assert (1 ≤ ca_clients d ∧ 0 ≤ ca_rate d ∧ 1 ≤ ca_time d) as (Hc & Hr & Ht).
  { unfold d, with_defaults. simpl. repeat case_bool; lia. }
  destruct (ca_message d) as [msg|] eqn:Hm; [|done]. set (d1 := set_msglen _ d).
  destruct (Z.leb_spec (ca_msglen d1) 0) as [|Hl]; [done|]. destruct (ca_server d1) as [sv|]; [|done].
  destruct (parse_server m frame sv) as [[[shost port]|]|] eqn:Hp; [|done|done]. cbn [mbind option_bind].
  assert (1 ≤ port ≤ 65535) as Hport.
  { unfold parse_server in Hp. destruct (split_server m frame sv) as [[r m']|]; simpl in Hp; [|done].
    destruct (negb _); [done|]. apply option.bind_Some in Hp as (b0 & _ & Hp). apply option.bind_Some in Hp as (b1 & _ & Hp).
    destruct (_ || _); [done|]. apply option.bind_Some in Hp as (h & _ & Hp). apply option.bind_Some in Hp as (pt & _ & Hp).
    match type of Hp with context [atoi ?x] => destruct (Z.leb_spec (atoi x) 0); [done|];
      destruct (Z.ltb_spec 65535 (atoi x)); [done|] end. injection Hp as _ <-. lia. }
  set (a' := set_server _ port d1). destruct (negb (ca_prefix a' =? 0) && _) eqn:Hpre; [done|].
  intros [= <-]. split_and!; try done; simpl; try lia; [by exists msg|..].
  - destruct (Z.eqb_spec (ca_prefix a') 0) as [E|E]; [simpl in E; lia|]. simpl in Hpre.
    apply orb_false_iff in Hpre as [Hpre H1]. apply Z.ltb_ge in H1. simpl in *. lia.
  - destruct (Z.eqb_spec (ca_prefix a') 0) as [E|E]; [simpl in E; lia|]. simpl in Hpre.
    apply orb_false_iff in Hpre as [Hpre _]. apply orb_false_iff in Hpre as [_ H1]. apply Z.ltb_ge in H1. simpl in *. lia.
  - destruct (Z.eqb_spec (ca_prefix a') 0) as [E|E]; [simpl in E; rewrite E; apply Z.divide_0_r|]. simpl in Hpre.
    apply orb_false_iff in Hpre as [Hpre _]. apply orb_false_iff in Hpre as [Hpre _].
    apply negb_false_iff, Z.eqb_eq in Hpre. by apply Z.rem_divide in Hpre.
Qed.

(** ** Theorems *)

(** The port of a server argument is accepted. *)
Definition good_port (pt : list Z) : bool := (0 <? atoi pt) && (atoi pt <=? 65535).

(** A server argument with one colon is taken apart at it: the host must have 1 to 16
    characters and the port at most 5 that are a number from 1 to 65535; then the host
    buffer holds the host as a string, whatever was on the stack.  An argument with more
    than one colon (an IPv6 address) is always rejected. *)
Theorem server_argument `{Host} m frame p s :
  server_ok m frame p s →
  (∀ h pt, fields 58 s = [h; pt] →
    ∃ r, parse_server m frame (p, s) = Some r ∧
      if (0 <? Z.of_nat (length h)) && (Z.of_nat (length h) <=? 16) && (Z.of_nat (length pt) <=? 5) && good_port pt
      then ∃ shost, r = Some (shost, atoi pt) ∧ length shost = 32%nat ∧ c_string shost = h
      else r = None) ∧
  ((2 < length (fields 58 s))%nat → parse_server m frame (p, s) = Some None).
Proof.
  intros Hs. destruct (split_server_run m frame p s Hs) as (w' & Hsp & R & Hd). split.
  - intros h pt Hf. rewrite Hf in R. change (take 2 (cursors_at p [h; pt])) with (cursors_at p [h; pt]) in R.
    destruct (two_fields m frame p s Hs h pt w' Hf R Hd) as (L0 & L1 & Lh & Lp & Hlen).
    unfold parse_server. rewrite Hsp, Hf, decide_True by (simpl; lia).
    cbn [mbind option_bind fst snd]. change (negb (AWS_OP_SUCCESS =? AWS_OP_SUCCESS)) with false. cbv iota.
    rewrite L0. cbn [mbind option_bind]. rewrite L1. cbn [mbind option_bind]. cbv zeta.
    pose proof (sv_addr _ _ _ _ Hs) as [Hp Hend].
    rewrite !cursor_round_trip by (simpl; lia). cbn [cur_len cur_ptr].
    assert (s = h ++ 58 :: pt) as Es by (by rewrite <- (join_fields 58 s), Hf).
    pose proof (sv_string _ _ _ _ Hs) as H0. rewrite Es in H0.
    rewrite not_elem_of_app, not_elem_of_cons in H0. destruct H0 as (Hh0 & _ & Hp0).
    rewrite Lh, Lp. cbn [mbind option_bind]. unfold good_port.
    destruct (Z.ltb_spec 16 (Z.of_nat (length h))) as [H16|H16].
    { eexists. split; [reflexivity|]. rewrite (proj2 (Z.leb_gt _ 16)) by lia. by rewrite andb_false_r. }
    rewrite (proj2 (Z.leb_le _ 16)) by lia.
    destruct (Z.leb_spec (Z.of_nat (length h)) 0) as [H1|H1].
    { eexists. split; [reflexivity|]. by rewrite (proj2 (Z.ltb_ge 0 _)) by lia. }
    rewrite (proj2 (Z.ltb_lt 0 (Z.of_nat _))) by lia.
    destruct (Z.ltb_spec 5 (Z.of_nat (length pt))) as [H5|H5].
    { eexists. split; [reflexivity|]. by rewrite (proj2 (Z.leb_gt _ 5)) by lia. }
    rewrite (proj2 (Z.leb_le _ 5)) by lia. cbn [orb andb].
    rewrite c_string_padded by (done || lia).
    destruct (Z.leb_spec (atoi pt) 0) as [Hlo|Hlo].
    { eexists. split; [reflexivity|]. by rewrite (proj2 (Z.ltb_ge 0 (atoi pt))) by lia. }
    rewrite (proj2 (Z.ltb_lt 0 (atoi pt))) by lia.
    destruct (Z.ltb_spec 65535 (atoi pt)) as [Hhi|Hhi].
    { eexists. split; [reflexivity|]. by rewrite (proj2 (Z.leb_gt _ 65535)) by lia. }
    rewrite (proj2 (Z.leb_le _ 65535)) by lia. eexists. split; [reflexivity|]. eexists. split; [reflexivity|].
    rewrite length_app, length_replicate. split; [lia|]. apply c_string_padded; [done|lia].
  - intros Hn. unfold parse_server. rewrite Hsp, decide_False by lia. done.
Qed.


(** ** Samples *)

Definition little : Host := {| aws_is_big_endian := false |}.

(** The string [s] at 50, [stack] at 200 and 80 at 300. *)
Definition args_mem (s stack : list Z) : mem :=
  mem_acquire 50 s (mem_acquire 200 stack (mem_acquire 300 [56; 48] ∅)).

Lemma args_mem_ok s stack :
  (length s ≤ 100)%nat → length stack = 32%nat → 0 ∉ s → server_ok (args_mem s stack) 200 50 s.
Proof.
  intros Hs Hk H0. split; [apply acquire_block|lia| |lia|done]. split_and!; [lia|lia|].
  intros a Ha. unfold args_mem. rewrite mem_acquire_lookup, decide_False by lia.
  rewrite mem_acquire_lookup, decide_True by lia. apply lookup_lt_is_Some. lia.
Qed.

(** 1.2.3.4:80 *)
Definition sample_server : list Z := str "1.2.3.4:80"%string.
Lemma server_argument_witness :
  ∃ shost, @parse_server little (args_mem sample_server (replicate 32 9)) 200 (50, sample_server) = Some (Some (shost, 80)) ∧
    c_string shost = str "1.2.3.4"%string.
Proof.
  destruct (@server_argument little (args_mem sample_server (replicate 32 9)) 200 50 sample_server) as [Hone _].
  - apply args_mem_ok; [by apply Nat.leb_le|reflexivity|]. apply (bool_decide_unpack _). vm_compute. exact I.
  - destruct (Hone (str "1.2.3.4"%string) (str "80"%string) ltac:(reflexivity)) as (r & Hr & Hif).
    change (∃ shost, r = Some (shost, 80) ∧ length shost = 32%nat ∧ c_string shost = str "1.2.3.4"%string) in Hif.
    destruct Hif as (shost & -> & _ & Hc). exists shost. exact (conj Hr Hc).
Defined.

(** Without a colon only the first cursor is stored, and the second one is what the stack
    held: the same argument is accepted with a port nobody gave, or rejected. *)
Theorem missing_port_from_stack :
  fst <$> @parse_tcploadgen_args little
      (args_mem (str "1.2.3.4"%string) (replicate 16 0 ++ @cursor_bytes little {| cur_len := 2; cur_ptr := 300 |})) 200
      {| ca_clients := 1; ca_rate := 1; ca_prefix := 0; ca_time := 1; ca_msglen := 0; ca_message := Some [65];
         ca_server := Some (50, str "1.2.3.4"%string); ca_host := replicate 255 0; ca_port := 0 |} = Some 0 ∧
  fst <$> @parse_tcploadgen_args little (args_mem (str "1.2.3.4"%string) (replicate 32 0)) 200
      {| ca_clients := 1; ca_rate := 1; ca_prefix := 0; ca_time := 1; ca_msglen := 0; ca_message := Some [65];
         ca_server := Some (50, str "1.2.3.4"%string); ca_host := replicate 255 0; ca_port := 0 |} = Some (-1).
Proof. split; vm_compute; reflexivity. Qed.

(** What argparse leaves of -p 24 -m AB -s 1.2.3.4:80. *)
Definition sample_parsed : cmdline_args_t :=
  {| ca_clients := 0; ca_rate := -1; ca_prefix := 24; ca_time := 0; ca_msglen := 0; ca_message := Some [65; 66];
     ca_server := Some (50, sample_server); ca_host := replicate 255 0; ca_port := 0 |}.

