(* ===== verification/UvHeap.v ===== *)
(** The binary heap of libuv: deps/libuv/src/heap-inl.h.

    The timers of a loop are kept in a binary tree of nodes with pointers to both children
    and to the parent.  A node is its address, the nodes' members are a finite map, and a
    [struct heap_node **] is the member it points to.  [less_than] is the comparison the
    caller passes. *)
From stdpp Require Import base numbers list option gmap sets.
From Stdlib Require Import ZArith Lia ZifyNat.
From S2P Require Import Prelude.

Local Open Scope Z_scope.
Local Open Scope c_scope.

(** Halves of places. *)
#[local] Ltac Zify.zify_post_hook ::= Z.to_euclidean_division_equations.

(** ** Data *)

Record heap_node := {
  hn_left : ptr nat;
  hn_right : ptr nat;
  hn_parent : ptr nat;
}.

Record heap := {
  hp_min : ptr nat;
  hp_nelts : Z;
}.

Record heap_state := {
  hs_nodes : gmap nat heap_node;
  hs_heap : heap;
}.

Definition set_hn_left (x : ptr nat) (n : heap_node) : heap_node :=
  {| hn_left := x; hn_right := hn_right n; hn_parent := hn_parent n |}.
Definition set_hn_right (x : ptr nat) (n : heap_node) : heap_node :=
  {| hn_left := hn_left n; hn_right := x; hn_parent := hn_parent n |}.
Definition set_hn_parent (x : ptr nat) (n : heap_node) : heap_node :=
  {| hn_left := hn_left n; hn_right := hn_right n; hn_parent := x |}.
Definition set_nodes (x : gmap nat heap_node) (s : heap_state) : heap_state := {| hs_nodes := x; hs_heap := hs_heap s |}.
Definition set_min (x : ptr nat) (s : heap_state) : heap_state :=
  {| hs_nodes := hs_nodes s; hs_heap := {| hp_min := x; hp_nelts := hp_nelts (hs_heap s) |} |}.
Definition set_nelts (x : Z) (s : heap_state) : heap_state :=
  {| hs_nodes := hs_nodes s; hs_heap := {| hp_min := hp_min (hs_heap s); hp_nelts := x |} |}.

(** [*p] and an assignment to members of [*p]. *)
Definition node (p : nat) : M heap_state heap_node := s ← get; lift (hs_nodes s !! p).
Definition upd (p : nat) (f : heap_node → heap_node) : M heap_state unit :=
  node p;; modify (λ s, set_nodes (alter f p (hs_nodes s)) s).
(** The same when [p] is not NULL. *)
Definition upd_opt (p : ptr nat) (f : heap_node → heap_node) : M heap_state unit :=
  match p with None => mret tt | Some p => upd p f end.

(** What a [struct heap_node **] points to. *)
Inductive slot := SMin | SLeft (p : nat) | SRight (p : nat).

Definition load_slot (x : slot) : M heap_state (ptr nat) :=
  match x with
  | SMin => s ← get; mret (hp_min (hs_heap s))
  | SLeft p => n ← node p; mret (hn_left n)
  | SRight p => n ← node p; mret (hn_right n)
  end.
Definition store_slot (x : slot) (v : ptr nat) : M heap_state unit :=
  match x with
  | SMin => modify (set_min v)
  | SLeft p => upd p (set_hn_left v)
  | SRight p => upd p (set_hn_right v)
  end.

(** ** Operations *)

Definition heap_init : M heap_state unit := modify (set_min NULL);; modify (set_nelts 0).

Definition heap_min : M heap_state (ptr nat) := s ← get; mret (hp_min (hs_heap s)).

(** The child moves closer to the root, the parent moves away. *)
Definition heap_node_swap (parent child : nat) : M heap_state unit :=
  t ← node parent;
  c ← node child;
  upd parent (λ _, c);;
  upd child (λ _, t);;
  upd parent (set_hn_parent (Some child));;
  c ← node child;
  (if bool_decide (hn_left c = Some child) then
     upd child (set_hn_left (Some parent));;
     c ← node child;
     upd_opt (hn_right c) (set_hn_parent (Some child))
   else
     upd child (set_hn_right (Some parent));;
     c ← node child;
     upd_opt (hn_left c) (set_hn_parent (Some child)));;
  p ← node parent;
  upd_opt (hn_left p) (set_hn_parent (Some parent));;
  p ← node parent;
  upd_opt (hn_right p) (set_hn_parent (Some parent));;
  c ← node child;
  match hn_parent c with
  | None => modify (set_min (Some child))
  | Some g =>
      gn ← node g;
      if bool_decide (hn_left gn = Some parent) then upd g (set_hn_left (Some child))
      else upd g (set_hn_right (Some child))
  end.

(** The path from the root to the [n]th place of the tree, row by row: the bits of [n] below
    the highest, the first step in the lowest bit, and their number. *)
Fixpoint path_loop (fuel : nat) (path : Z) (k : nat) (n : Z) : option (Z * nat) :=
  match fuel with
  | O => None
  | S fuel =>
      if 2 <=? n then path_loop fuel (Z.lor (u32 (Z.shiftl path 1)) (Z.land n 1)) (S k) (n / 2)
      else Some (path, k)
  end.

(** Following a path; the member reached and the one before it. *)
Fixpoint walk_loop (k : nat) (path : Z) (parent child : slot) : M heap_state (slot * slot) :=
  match k with
  | O => mret (parent, child)
  | S k =>
      p ← load_slot child;
      p ← lift p;
      walk_loop k (Z.shiftr path 1) child (if negb (Z.land path 1 =? 0) then SRight p else SLeft p)
  end.

(** The new node becomes the last of the bottom row. *)
Definition heap_link (newnode : nat) : M heap_state unit :=
  upd newnode (λ _, {| hn_left := NULL; hn_right := NULL; hn_parent := NULL |});;
  s ← get;
  pk ← lift (path_loop 33 0 0 (u32 (1 + hp_nelts (hs_heap s))));
  sl ← walk_loop pk.2 pk.1 SMin SMin;
  p ← load_slot sl.1;
  upd newnode (set_hn_parent p);;
  store_slot sl.2 (Some newnode);;
  modify (λ s, set_nelts (u32 (hp_nelts (hs_heap s) + 1)) s).

(** The last node of the bottom row is taken out of the tree. *)
Definition heap_unlink_max : M heap_state nat :=
  s ← get;
  pk ← lift (path_loop 33 0 0 (hp_nelts (hs_heap s)));
  sl ← walk_loop pk.2 pk.1 SMin SMin;
  modify (λ s, set_nelts (u32 (hp_nelts (hs_heap s) - 1)) s);;
  child ← load_slot sl.2;
  store_slot sl.2 NULL;;
  lift child.

(** [child] takes the place of [x]. *)
Definition heap_replace (x child : nat) : M heap_state unit :=
  n ← node x;
  upd child (set_hn_left (hn_left n));;
  n ← node x;
  upd child (set_hn_right (hn_right n));;
  n ← node x;
  upd child (set_hn_parent (hn_parent n));;
  c ← node child;
  upd_opt (hn_left c) (set_hn_parent (Some child));;
  c ← node child;
  upd_opt (hn_right c) (set_hn_parent (Some child));;
  n ← node x;
  match hn_parent n with
  | None => modify (set_min (Some child))
  | Some g =>
      gn ← node g;
      if bool_decide (hn_left gn = Some x) then upd g (set_hn_left (Some child))
      else upd g (set_hn_right (Some child))
  end.

Section Order.
Context (less_than : nat → nat → bool).

(** A node that is less than its parent moves up. *)
Fixpoint up_loop (fuel : nat) (x : nat) : M heap_state unit :=
  match fuel with
  | O => undef
  | S fuel =>
      n ← node x;
      match hn_parent n with
      | None => mret tt
      | Some p => if less_than x p then heap_node_swap p x;; up_loop fuel x else mret tt
      end
  end.

(** A node that is not less than its children moves down. *)
Definition smaller_child (x : nat) (n : heap_node) : nat :=
  let smallest := match hn_left n with Some l => if less_than l x then l else x | None => x end in
  match hn_right n with Some r => if less_than r smallest then r else smallest | None => smallest end.

Fixpoint down_loop (fuel : nat) (x : nat) : M heap_state unit :=
  match fuel with
  | O => undef
  | S fuel =>
      n ← node x;
      let smallest := smaller_child x n in
      if bool_decide (smallest = x) then mret tt
      else heap_node_swap x smallest;; down_loop fuel x
  end.

Definition heap_insert (newnode : nat) : M heap_state unit :=
  heap_link newnode;;
  s ← get;
  up_loop (S (Z.to_nat (hp_nelts (hs_heap s)))) newnode.

Definition heap_remove (x : nat) : M heap_state unit :=
  s ← get;
  if hp_nelts (hs_heap s) =? 0 then mret tt
  else
    child ← heap_unlink_max;
    if bool_decide (child = x) then
      s ← get;
      if bool_decide (Some child = hp_min (hs_heap s)) then modify (set_min NULL) else mret tt
    else
      heap_replace x child;;
      s ← get;
      down_loop (S (Z.to_nat (hp_nelts (hs_heap s)))) child;;
      up_loop (S (Z.to_nat (hp_nelts (hs_heap s)))) child.

(** The root must not be NULL when there are nodes: [heap_remove] returns at once when there
    are none. *)
Definition heap_dequeue : M heap_state unit :=
  s ← get;
  match hp_min (hs_heap s) with
  | Some x => heap_remove x
  | None => if hp_nelts (hs_heap s) =? 0 then mret tt else undef
  end.
End Order.

(** ** Representation *)

(** The tree as its places, row by row: the root is at 1, the children of [i] at [2 i] and
    [2 i + 1]. *)
Definition places := nat → ptr nat.

Definition node_at (p : places) (i : nat) : heap_node :=
  {| hn_left := p (2 * i)%nat; hn_right := p (2 * i + 1)%nat; hn_parent := p (i / 2)%nat |}.

Record is_tree (m : gmap nat heap_node) (p : places) (n : nat) : Prop := {
  it_dom : ∀ i, is_Some (p i) ↔ (1 ≤ i ≤ n)%nat;
  it_inj : ∀ i j a, p i = Some a → p j = Some a → i = j;
  it_node : ∀ i a, p i = Some a → m !! a = Some (node_at p i);
}.

Record is_heap (s : heap_state) (p : places) (n : nat) : Prop := {
  ih_tree : is_tree (hs_nodes s) p n;
  ih_min : hp_min (hs_heap s) = p 1%nat;
  ih_nelts : hp_nelts (hs_heap s) = Z.of_nat n;
}.

Definition swap (p : places) (i j : nat) : places :=
  λ k, if decide (k = i) then p j else if decide (k = j) then p i else p k.

(** ** Monadic steps *)

Definition alter_opt (f : heap_node → heap_node) (o : ptr nat) (m : gmap nat heap_node) : gmap nat heap_node :=
  match o with Some a => alter f a m | None => m end.

Lemma lookup_alter_opt f o m a :
  alter_opt f o m !! a = if decide (o = Some a) then f <$> m !! a else m !! a.
Proof.
  destruct o as [b|]; simpl; [|done]. rewrite lookup_alter. destruct (decide (b = a)) as [->|Hne].
  - by rewrite decide_True.
  - by rewrite decide_False by congruence.
Qed.

Lemma alter_opt_dom f o m a : is_Some (alter_opt f o m !! a) ↔ is_Some (m !! a).
Proof. rewrite lookup_alter_opt. case_decide; [by rewrite fmap_is_Some|done]. Qed.

Lemma node_run m s a n : m !! a = Some n → node a (set_nodes m s) = Some (n, set_nodes m s).
Proof. intros Hn. unfold node. rewrite M_get. simpl. by rewrite Hn. Qed.

Lemma upd_run m s a f :
  is_Some (m !! a) → upd a f (set_nodes m s) = Some (tt, set_nodes (alter_opt f (Some a) m) s).
Proof. intros [n Hn]. unfold upd. by rewrite (bind_Some _ _ _ _ _ (node_run m s a n Hn)). Qed.

Lemma upd_place (p : places) m s k a f :
  p k = Some a → is_Some (m !! a) → upd a f (set_nodes m s) = Some (tt, set_nodes (alter_opt f (p k) m) s).
Proof. intros ->. apply upd_run. Qed.

Lemma upd_opt_run m s o f :
  (∀ a, o = Some a → is_Some (m !! a)) → upd_opt o f (set_nodes m s) = Some (tt, set_nodes (alter_opt f o m) s).
Proof. intros Ho. destruct o as [a|]; [|done]. by apply upd_run, Ho. Qed.

Lemma set_nodes_id s : set_nodes (hs_nodes s) s = s.
Proof. by destruct s. Qed.

(** ** Swapping a parent and a child *)

Section Swap.
Context (p : places) (i : nat) (right : bool) (m : gmap nat heap_node) (n : nat).
Let j : nat := (2 * i + if right then 1 else 0)%nat.
Let sib : nat := (2 * i + if right then 0 else 1)%nat.
Context (a b : nat) (Ht : is_tree m p n) (Ha : p i = Some a) (Hb : p j = Some b).

(** The members after the swap. *)
Definition swapped_nodes : gmap nat heap_node :=
  alter_opt (if decide (p (2 * (i / 2))%nat = Some a) then set_hn_left (Some b) else set_hn_right (Some b)) (p (i / 2)%nat)
  (alter_opt (set_hn_parent (Some a)) (p (2 * j + 1)%nat)
  (alter_opt (set_hn_parent (Some a)) (p (2 * j)%nat)
  (alter_opt (set_hn_parent (Some b)) (p sib)
  (alter_opt (if right then set_hn_right (Some a) else set_hn_left (Some a)) (p j)
  (alter_opt (set_hn_parent (Some b)) (p i)
  (alter_opt (λ _, node_at p i) (p j)
  (alter_opt (λ _, node_at p j) (p i) m))))))).

Lemma place_pos k x : p k = Some x → (1 ≤ k)%nat.
Proof. intros Hk. assert (is_Some (p k)) as H by (by eexists). apply (it_dom _ _ _ Ht) in H. lia. Qed.

Lemma place_eq k k' x : p k = Some x → (p k' = Some x ↔ k' = k).
Proof. intros Hk. split; [intros Hk'; by apply (it_inj _ _ _ Ht _ _ x)|by intros ->]. Qed.

Lemma i_pos : (1 ≤ i)%nat.
Proof. by apply place_pos in Ha. Qed.

(** The members of the node at [k], place by place. *)
Lemma swapped_lookup k x : p k = Some x →
  swapped_nodes !! x = Some
    ((if decide (i / 2 = k)%nat then (if decide (2 * (i / 2) = i)%nat then set_hn_left (Some b) else set_hn_right (Some b)) else id)
    ((if decide (2 * j + 1 = k)%nat then set_hn_parent (Some a) else id)
    ((if decide (2 * j = k)%nat then set_hn_parent (Some a) else id)
    ((if decide (sib = k)%nat then set_hn_parent (Some b) else id)
    ((if decide (j = k)%nat then (if right then set_hn_right (Some a) else set_hn_left (Some a)) else id)
    ((if decide (i = k)%nat then set_hn_parent (Some b) else id)
    (if decide (j = k)%nat then node_at p i else if decide (i = k)%nat then node_at p j else node_at p k))))))).
Proof.
  intros Hk. unfold swapped_nodes. rewrite !lookup_alter_opt, (it_node _ _ _ Ht k x Hk).
  rewrite !(decide_ext _ _ _ _ (place_eq k _ x Hk)), !(decide_ext _ _ _ _ (place_eq i _ a Ha)). repeat case_decide; reflexivity.
Qed.

(** The members of [a] and [b] on the way. *)
Ltac at_place H :=
  rewrite ?lookup_alter_opt, ?(decide_ext _ _ _ _ (place_eq _ _ _ H)), ?(it_node _ _ _ Ht _ _ H);
  subst j sib; repeat (case_decide; try (exfalso; destruct right; lia)).

Lemma place_live k x : p k = Some x → is_Some (m !! x).
Proof. intros Hk. rewrite (it_node _ _ _ Ht k x Hk). by eexists. Qed.

Ltac read_node H := erewrite bind_Some by (apply node_run; at_place H; reflexivity); cbn [hn_left hn_right hn_parent node_at set_hn_left set_hn_right set_hn_parent].
Ltac write_node H := erewrite bind_Some by (apply (upd_place p _ _ _ _ _ H); rewrite ?alter_opt_dom; eapply place_live, H).
Ltac write_opt := erewrite bind_Some by (apply upd_opt_run; intros ? ?; rewrite ?alter_opt_dom; eapply place_live; eassumption).

Lemma node_swap_run s :
  hs_nodes s = m → hp_min (hs_heap s) = p 1%nat →
  heap_node_swap a b s = Some (tt, (if decide (i = 1%nat) then set_min (Some b) else id) (set_nodes swapped_nodes s)).
Proof.
  intros Hm Hmin. pose proof i_pos as Hi. unfold heap_node_swap. rewrite <- (set_nodes_id s) at 1. rewrite Hm.
  erewrite bind_Some by (apply node_run, (it_node _ _ _ Ht i a Ha)).
  erewrite bind_Some by (apply node_run, (it_node _ _ _ Ht j b Hb)).
  write_node Ha. write_node Hb. write_node Ha.
  read_node Hb.
  assert (bool_decide (p (2 * i)%nat = Some b) = negb right) as ->.
  { rewrite (bool_decide_ext _ _ (place_eq j _ b Hb)). subst j sib. destruct right; [apply bool_decide_eq_false_2|apply bool_decide_eq_true_2]; lia. }
  assert (∀ f, (if negb right then upd b (set_hn_left (Some a));; c ← node b; upd_opt (hn_right c) f
    else upd b (set_hn_right (Some a));; c ← node b; upd_opt (hn_left c) f)
    (set_nodes (alter_opt (set_hn_parent (Some b)) (p i) (alter_opt (λ _, node_at p i) (p j) (alter_opt (λ _, node_at p j) (p i) m))) s) =
    Some (tt, set_nodes (alter_opt f (p sib) (alter_opt (if right then set_hn_right (Some a) else set_hn_left (Some a)) (p j)
      (alter_opt (set_hn_parent (Some b)) (p i) (alter_opt (λ _, node_at p i) (p j) (alter_opt (λ _, node_at p j) (p i) m))))) s)) as Hsib.
  { intros f. unfold sib. destruct right; cbn [negb]; write_node Hb; read_node Hb; rewrite ?Nat.add_0_r;
      apply upd_opt_run; intros x Hx; rewrite !alter_opt_dom; by eapply place_live. }
  rewrite (bind_Some _ _ _ _ _ (Hsib _)). clear Hsib.
  read_node Ha. write_opt. read_node Ha. write_opt.
  erewrite bind_Some by (apply node_run; at_place Hb; reflexivity).
  replace (hn_parent _) with (p (i / 2)%nat) by (by destruct right).
  unfold swapped_nodes. fold j. set (mf := alter_opt _ (p (2 * j + 1)%nat) _).
  destruct (p (i / 2)%nat) as [g|] eqn:Hg.
  - assert (2 ≤ i)%nat as Hi2 by (apply place_pos in Hg; lia). rewrite decide_False by lia.
    assert (∃ gn, mf !! g = Some gn ∧ hn_left gn = p (2 * (i / 2))%nat) as (gn & Hgn & Hgl).
    { unfold mf. eexists. split; [at_place Hg; reflexivity|]. done. }
    erewrite bind_Some by (apply node_run, Hgn). rewrite Hgl.
    destruct (decide (p (2 * (i / 2))%nat = Some a)) as [E|E];
      [rewrite bool_decide_eq_true_2 by done|rewrite bool_decide_eq_false_2 by done]; apply upd_run; by eexists.
  - assert (i = 1)%nat as -> by (destruct (decide (i = 1)%nat); [done|]; exfalso;
      assert (is_Some (p (i / 2)%nat)) as [? E]; [apply (it_dom _ _ _ Ht); assert (is_Some (p i)) as Hx by (by eexists);
        apply (it_dom _ _ _ Ht) in Hx; lia|congruence]).
    by rewrite decide_True.
Qed.

Lemma swap_cases k x : swap p i j k = Some x →
  (k = i ∧ x = b) ∨ (k = j ∧ x = a) ∨ (k ≠ i ∧ k ≠ j ∧ p k = Some x).
Proof. unfold swap. repeat case_decide; intros Hk; [left|right; left|right; right]; simplify_eq; done. Qed.

Ltac same_places :=
  f_equal; unfold node_at, swap; subst j sib; destruct right; repeat (case_decide; try lia);
  unfold set_hn_left, set_hn_right, set_hn_parent, id; cbn [hn_left hn_right hn_parent]; f_equal; try congruence; try (f_equal; lia).

Lemma swapped_tree : is_tree swapped_nodes (swap p i j) n.
Proof.
  pose proof i_pos as Hi. assert (i ≠ j) as Hij by (unfold j; destruct right; lia).
  assert (sib ≠ i ∧ sib ≠ j) as [Hs1 Hs2] by (unfold sib, j; destruct right; lia).
  split.
  - intros k. rewrite <- (it_dom _ _ _ Ht). unfold swap. repeat case_decide; subst; rewrite ?Ha, ?Hb; done.
  - intros k k' x Hk Hk'. unfold swap in Hk, Hk'.
    repeat case_decide; pose proof (it_inj _ _ _ Ht _ _ _ Hk Hk'); congruence.
  - intros k x Hk. apply swap_cases in Hk as [[-> ->]|[[-> ->]|(Hki & Hkj & Hk)]].
    + rewrite (swapped_lookup j b Hb). same_places.
    + rewrite (swapped_lookup i a Ha). same_places.
    + rewrite (swapped_lookup k x Hk). same_places.
Qed.
End Swap.

(** Nodes outside the tree. *)
Definition untouched (p : places) (s s' : heap_state) : Prop :=
  ∀ x, (∀ k, p k ≠ Some x) → hs_nodes s' !! x = hs_nodes s !! x.

Lemma swapped_outside p i right m a b x :
  (∀ k, p k ≠ Some x) → swapped_nodes p i right m a b !! x = m !! x.
Proof. intros Hx. unfold swapped_nodes. rewrite !lookup_alter_opt, !decide_False by apply Hx. done. Qed.

(** [heap_node_swap] exchanges the nodes of two places. *)
Lemma heap_swap s p n i j a b :
  is_heap s p n → p i = Some a → p j = Some b → (j / 2 = i)%nat → (2 ≤ j)%nat →
  ∃ s', heap_node_swap a b s = Some (tt, s') ∧ is_heap s' (swap p i j) n ∧ untouched p s s'.
Proof.
  intros [Ht Hmin Hn] Ha Hb Hj H2. set (right := negb (Nat.even j)).
  assert (j = (2 * i + if right then 1 else 0)%nat) as Ej.
  { unfold right. destruct (Nat.even j) eqn:E; simpl; [apply Nat.even_spec in E as [q E]; lia|].
    assert (Nat.odd j = true) as [q Eq]%Nat.odd_spec by (by rewrite <- Nat.negb_even, E). lia. }
  clearbody right. subst j. eexists. split; [by eapply node_swap_run|]. split.
  - pose proof (swapped_tree p i right _ n a b Ht Ha Hb) as Ht'. pose proof (it_dom _ _ _ Ht) as Hd.
    case_decide as Hi; (split; [done| |done]); unfold swap.
    + rewrite decide_True by done. by rewrite Hb.
    + rewrite !decide_False by lia. done.
  - intros x Hx. case_decide; simpl; by apply swapped_outside.
Qed.
