(* ===== verification/UvHeapRun.v ===== *)
(** The heap of libuv keeps its order: insertion, removal and the minimum. *)
From stdpp Require Import base numbers list option gmap sets.
From Stdlib Require Import ZArith Lia ZifyNat.
From S2P Require Import Prelude UvHeap.

Local Open Scope Z_scope.
Local Open Scope c_scope.

#[local] Ltac Zify.zify_post_hook ::= Z.to_euclidean_division_equations.

(** ** Paths *)

(** The place that a path leads to. *)
Fixpoint reach (path : Z) (k x : nat) : nat :=
  match k with
  | O => x
  | S k => reach (Z.shiftr path 1) k (2 * x + if negb (Z.land path 1 =? 0) then 1 else 0)
  end.

Lemma reach_ge k : ∀ path x, (x ≤ reach path k x)%nat.
Proof. induction k as [|k IH]; intros path x; simpl; [lia|]. etransitivity; [|apply IH]. lia. Qed.

Lemma land_1 x : Z.land x 1 = x mod 2.
Proof. exact (Z.land_ones x 1 ltac:(lia)). Qed.

Lemma path_bit path b : 0 ≤ path → 0 ≤ b < 2 → Z.lor (2 * path) b = 2 * path + b.
Proof.
  intros Hp Hb. assert (b = 0 ∨ b = 1) as [->| ->] by lia; [by rewrite Z.lor_0_r, Z.add_0_r|].
  destruct path; try done; simpl; lia.
Qed.

Lemma path_loop_run fuel : ∀ path k n,
  (k + fuel = 33)%nat → 0 ≤ path < 2 ^ Z.of_nat k → 1 ≤ n < 2 ^ Z.of_nat (fuel - 1) →
  ∃ path' k', path_loop fuel path k n = Some (path', k') ∧ reach path' k' 1 = reach path k (Z.to_nat n).
Proof.
  induction fuel as [|fuel IH]; intros path k n Hk Hp Hn; [simpl in Hn; lia|]. cbn [path_loop].
  destruct (Z.leb_spec 2 n) as [H2|H2].
  2:{ exists path, k. split; [done|]. by replace n with 1 by lia. }
  assert (1 ≤ fuel)%nat as Hf1 by (destruct fuel; [simpl in Hn; lia|lia]).
  assert (2 ^ Z.of_nat k ≤ 2 ^ 31) as Hk31 by (apply Z.pow_le_mono_r; lia).
  assert (u32 (Z.shiftl path 1) = 2 * path) as ->.
  { rewrite Z.shiftl_mul_pow2 by lia. rewrite u32_small by lia. lia. }
  rewrite land_1, path_bit by lia.
  destruct (IH (2 * path + n mod 2) (S k) (n / 2)) as (path' & k' & Hrun & Hr).
  - lia.
  - rewrite Nat2Z.inj_succ, Z.pow_succ_r by lia. lia.
  - replace (S fuel - 1)%nat with (S (fuel - 1)) in Hn by lia. rewrite Nat2Z.inj_succ, Z.pow_succ_r in Hn by lia. lia.
  - exists path', k'. split; [done|]. rewrite Hr. cbn [reach]. rewrite land_1, Z.shiftr_div_pow2 by lia. change (2 ^ 1) with 2.
    replace ((2 * path + n mod 2) / 2) with path by lia. replace ((2 * path + n mod 2) mod 2) with (n mod 2) by lia. f_equal.
    destruct (Z.eqb_spec (n mod 2) 0); cbn [negb]; lia.
Qed.

(** The member that holds the node of a place. *)
Definition slot_at (p : places) (x : nat) : slot :=
  match p (x / 2)%nat with
  | Some a => if Nat.even x then SLeft a else SRight a
  | None => SMin
  end.

Lemma tree_pos m p n k x : is_tree m p n → p k = Some x → (1 ≤ k ≤ n)%nat.
Proof. intros Ht Hk. apply (it_dom _ _ _ Ht). by eexists. Qed.

Lemma tree_at m p n k : is_tree m p n → (1 ≤ k ≤ n)%nat → ∃ x, p k = Some x.
Proof. intros Ht Hk. by apply (it_dom _ _ _ Ht). Qed.

Lemma tree_none m p n k : is_tree m p n → (k = 0 ∨ n < k)%nat → p k = None.
Proof. intros Ht Hk. destruct (p k) eqn:E; [|done]. pose proof (tree_pos _ _ _ _ _ Ht E). lia. Qed.

Lemma place_run s p n i x : is_heap s p n → p i = Some x → node x s = Some (node_at p i, s).
Proof. intros [Ht _ _] Hx. unfold node. by rewrite M_get, (it_node _ _ _ Ht i x Hx). Qed.

Lemma half_cases k i : (k / 2 = i)%nat → (2 ≤ k)%nat → k = (2 * i)%nat ∨ k = (2 * i + 1)%nat.
Proof. lia. Qed.

Lemma upd_here s a f :
  is_Some (hs_nodes s !! a) → upd a f s = Some (tt, set_nodes (alter_opt f (Some a) (hs_nodes s)) s).
Proof. intros Ha. rewrite <- (upd_run (hs_nodes s) s a f Ha). by rewrite set_nodes_id. Qed.

Lemma even_half x : Nat.even x = true → x = (2 * (x / 2))%nat.
Proof. intros [q E]%Nat.even_spec. lia. Qed.

Lemma odd_half x : Nat.even x = false → x = (2 * (x / 2) + 1)%nat.
Proof.
  intros E. assert (Nat.odd x = true) as [q Eq]%Nat.odd_spec by (by rewrite <- Nat.negb_even, E). lia.
Qed.

Lemma heap_load_run s p n x : is_heap s p n → (1 ≤ x ≤ n + 1)%nat → load_slot (slot_at p x) s = Some (p x, s).
Proof.
  intros [Ht Hmin _] Hx. unfold slot_at. destruct (p (x / 2)%nat) as [a|] eqn:Ha.
  - pose proof (it_node _ _ _ Ht _ _ Ha) as Hn. unfold load_slot. rewrite <- (set_nodes_id s).
    destruct (Nat.even x) eqn:E; erewrite bind_Some by (apply node_run, Hn); cbn [hn_left hn_right node_at].
    + by rewrite <- (even_half x E).
    + by rewrite <- (odd_half x E).
  - unfold load_slot. rewrite M_get, Hmin. assert (x = 1)%nat as ->; [|done].
    destruct (decide (x = 1)%nat); [done|]. exfalso.
    destruct (tree_at _ _ _ (x / 2)%nat Ht ltac:(lia)) as [? E]. congruence.
Qed.

Lemma heap_walk_run s p n : is_heap s p n → ∀ k path x,
  (1 ≤ x)%nat → (reach path k x ≤ n + 1)%nat →
  walk_loop k path (slot_at p (x / 2)) (slot_at p x) s =
    Some ((slot_at p (reach path k x / 2), slot_at p (reach path k x)), s).
Proof.
  intros Hh k. induction k as [|k IH]; intros path x Hx Hr; [done|]. cbn [walk_loop reach] in *.
  set (y := (2 * x + (if negb (Z.land path 1 =? 0)%Z then 1 else 0))%nat) in *.
  pose proof (reach_ge k (Z.shiftr path 1) y) as Hy.
  assert (y / 2 = x)%nat as Hyx by (unfold y; destruct (negb _); lia).
  assert (2 * x ≤ y)%nat as Hxy by (unfold y; lia).
  rewrite (bind_Some _ _ _ _ _ (heap_load_run s p n x Hh ltac:(lia))).
  destruct (tree_at _ _ _ x (ih_tree _ _ _ Hh) ltac:(lia)) as [a Ha]. rewrite Ha, M_lift.
  assert ((if negb (Z.land path 1 =? 0) then SRight a else SLeft a) = slot_at p y) as ->.
  { unfold slot_at. rewrite Hyx, Ha. unfold y. destruct (negb _).
    - by rewrite Nat.even_add, Nat.even_mul.
    - by rewrite Nat.even_add, Nat.even_mul. }
  rewrite <- (IH (Z.shiftr path 1) y) by lia. by rewrite Hyx.
Qed.

(** The member of the [N]th place. *)
Lemma find_place s p n N :
  is_heap s p n → (1 ≤ N ≤ n + 1)%nat → Z.of_nat N < 2 ^ 32 →
  ∃ path k, path_loop 33 0 0 (Z.of_nat N) = Some (path, k) ∧
    walk_loop k path SMin SMin s = Some ((slot_at p (N / 2), slot_at p N), s).
Proof.
  intros Hh HN Hb. destruct (path_loop_run 33 0 0 (Z.of_nat N)) as (path & k & Hrun & Hr); [done|simpl; lia|simpl in *; lia|].
  exists path, k. split; [done|]. cbn [reach] in Hr. rewrite Nat2Z.id in Hr.
  assert (slot_at p (1 / 2) = SMin ∧ slot_at p 1 = SMin) as [E0 E1].
  { unfold slot_at. simpl. by rewrite (tree_none _ _ _ 0 (ih_tree _ _ _ Hh) (or_introl eq_refl)). }
  rewrite <- E0 at 1. rewrite <- E1 at 1. rewrite (heap_walk_run s p n Hh k path 1) by lia. by rewrite Hr.
Qed.

(** ** Linking *)

Definition put_at (p : places) (i : nat) (v : ptr nat) : places := λ k, if decide (k = i) then v else p k.

Definition child_setter (N : nat) (v : ptr nat) : heap_node → heap_node :=
  if Nat.even N then set_hn_left v else set_hn_right v.

Lemma heap_store_run m s p N v :
  (∀ g, p (N / 2)%nat = Some g → is_Some (m !! g)) →
  store_slot (slot_at p N) v (set_nodes m s) =
    Some (tt, (match p (N / 2)%nat with None => set_min v | Some _ => id end)
      (set_nodes (alter_opt (child_setter N v) (p (N / 2)%nat) m) s)).
Proof.
  intros Hg. unfold slot_at, child_setter. destruct (p (N / 2)%nat) as [g|]; [|done].
  destruct (Nat.even N); by apply upd_run, Hg.
Qed.

(** What a tree looks like with another child at the place [N]. *)
Lemma child_setter_node p N v k :
  (1 ≤ k)%nat → (N ≠ k / 2)%nat →
  (if decide (N / 2 = k)%nat then child_setter N v else id) (node_at p k) = node_at (put_at p N v) k.
Proof.
  intros Hk Hne. unfold child_setter, node_at, put_at. destruct (Nat.even N) eqn:E.
  - pose proof (even_half N E). repeat (case_decide; try lia); unfold set_hn_left, id; cbn [hn_left hn_right hn_parent]; f_equal; by f_equal.
  - pose proof (odd_half N E). repeat (case_decide; try lia); unfold set_hn_right, id; cbn [hn_left hn_right hn_parent]; f_equal; by f_equal.
Qed.

(** Changing a node outside does not change the tree. *)
Lemma tree_outside m p n f x : is_tree m p n → (∀ k, p k ≠ Some x) → is_tree (alter_opt f (Some x) m) p n.
Proof.
  intros [] Hx. split; [done|done|]. intros k a Ha. rewrite lookup_alter_opt, decide_False; [by apply it_node|].
  intros [= ->]. by eapply Hx.
Qed.

Lemma tree_link m p n x y :
  is_tree m p n → (∀ k, p k ≠ Some x) → m !! x = Some y → hn_left y = NULL → hn_right y = NULL → hn_parent y = p ((n + 1) / 2)%nat →
  is_tree (alter_opt (child_setter (n + 1) (Some x)) (p ((n + 1) / 2)%nat) m) (put_at p (n + 1) (Some x)) (n + 1).
Proof.
  intros Ht Hx Hm Hl Hr Hp. split.
  - intros k. unfold put_at. case_decide; [split; [lia|by eexists]|]. rewrite (it_dom _ _ _ Ht). lia.
  - intros i j a. unfold put_at. repeat case_decide; intros Hi Hj; subst; try done; [by simplify_eq; destruct (Hx j)|by simplify_eq; destruct (Hx i)|].
    by eapply (it_inj _ _ _ Ht).
  - intros k a Ha. rewrite lookup_alter_opt. unfold put_at in Ha. case_decide as Hk.
    + simplify_eq. rewrite decide_False by apply Hx. rewrite Hm. f_equal. destruct y as [l r g]. simpl in *. subst l r g.
      unfold node_at, put_at. rewrite !decide_False by lia. by rewrite (tree_none _ _ _ (2 * (n + 1)) Ht), (tree_none _ _ _ (2 * (n + 1) + 1) Ht) by lia.
    + pose proof (tree_pos _ _ _ _ _ Ht Ha). rewrite (it_node _ _ _ Ht k a Ha). rewrite <- child_setter_node by lia.
      destruct (decide ((n + 1) / 2 = k)%nat) as [E|E].
      * by rewrite decide_True by congruence.
      * rewrite decide_False; [done|]. intros E'. apply E. by apply (it_inj _ _ _ Ht _ _ a).
Qed.

Lemma tree_unlink m p n :
  is_tree m p n → (1 ≤ n)%nat →
  is_tree (alter_opt (child_setter n NULL) (p (n / 2)%nat) m) (put_at p n NULL) (n - 1).
Proof.
  intros Ht Hn. split.
  - intros k. unfold put_at. case_decide as E; [split; [by intros []|lia]|]. rewrite (it_dom _ _ _ Ht). lia.
  - intros i j a. unfold put_at. repeat case_decide; intros Hi Hj; try done. by eapply (it_inj _ _ _ Ht).
  - intros k a Ha. unfold put_at in Ha. case_decide as Hk; [done|]. pose proof (tree_pos _ _ _ _ _ Ht Ha).
    rewrite lookup_alter_opt, (it_node _ _ _ Ht k a Ha), <- child_setter_node by lia.
    destruct (decide (n / 2 = k)%nat) as [E|E].
    + by rewrite decide_True by congruence.
    + rewrite decide_False; [done|]. intros E'. apply E. by apply (it_inj _ _ _ Ht _ _ a).
Qed.

(** A node from outside takes the place [i]. *)
Lemma tree_replace m p n i c :
  is_tree m p n → (1 ≤ i ≤ n)%nat → (∀ k, p k ≠ Some c) → m !! c = Some (node_at p i) →
  is_tree (alter_opt (child_setter i (Some c)) (p (i / 2)%nat) (alter_opt (set_hn_parent (Some c)) (p (2 * i + 1)%nat)
    (alter_opt (set_hn_parent (Some c)) (p (2 * i)%nat) m))) (put_at p i (Some c)) n.
Proof.
  intros Ht Hi Hc Hm. split.
  - intros k. unfold put_at. case_decide; [split; [lia|by eexists]|]. by rewrite (it_dom _ _ _ Ht).
  - intros u v a. unfold put_at. repeat case_decide; intros Hu Hv; subst; try done; [by simplify_eq; destruct (Hc v)|by simplify_eq; destruct (Hc u)|].
    by eapply (it_inj _ _ _ Ht).
  - intros k a Ha. rewrite !lookup_alter_opt. unfold put_at in Ha. case_decide as Hk.
    + simplify_eq. rewrite !decide_False by apply Hc. rewrite Hm. f_equal. unfold node_at, put_at. by rewrite !decide_False by lia.
    + pose proof (tree_pos _ _ _ _ _ Ht Ha) as Hk1. rewrite (it_node _ _ _ Ht k a Ha).
      assert (∀ k', p k' = Some a ↔ k' = k) as Heq by (intros k'; split; [intros E; by apply (it_inj _ _ _ Ht _ _ a)|by intros ->]).
      rewrite !(decide_ext _ _ _ _ (Heq _)).
      destruct (decide (k / 2 = i)%nat) as [E|E].
      * rewrite (decide_False (P := (i / 2)%nat = k)) by lia. destruct (half_cases k i E ltac:(lia)) as [-> | ->];
          repeat (case_decide; try lia); simpl fmap; f_equal; unfold node_at, put_at, set_hn_parent; cbn [hn_left hn_right hn_parent];
          repeat (case_decide; try lia); done.
      * rewrite <- child_setter_node by lia. rewrite (decide_False (P := (2 * i + 1)%nat = k)), (decide_False (P := (2 * i)%nat = k)) by lia. by case_decide.
Qed.

Lemma heap_link_run s p n x :
  is_heap s p n → (∀ k, p k ≠ Some x) → is_Some (hs_nodes s !! x) → Z.of_nat n < 2 ^ 32 - 1 →
  ∃ s', heap_link x s = Some (tt, s') ∧ is_heap s' (put_at p (n + 1) (Some x)) (n + 1) ∧
    ∀ y, (∀ k, p k ≠ Some y) → y ≠ x → hs_nodes s' !! y = hs_nodes s !! y.
Proof.
  intros Hh Hout [nd Hnd] Hmax. pose proof Hh as [Ht Hmin Hn]. unfold heap_link.
  erewrite bind_Some by (apply upd_here; by eexists). set (m0 := alter_opt _ (Some x) _).
  set (s0 := set_nodes m0 s). assert (is_heap s0 p n) as Hh0 by (split; [by apply tree_outside|done|done]).
  rewrite M_get. cbn [hs_heap set_nodes s0]. rewrite Hn. rewrite u32_small by lia.
  destruct (find_place s0 p n (n + 1) Hh0 ltac:(lia) ltac:(lia)) as (path & k & Hpath & Hwalk).
  replace (1 + Z.of_nat n) with (Z.of_nat (n + 1)) by lia. rewrite Hpath, M_lift. cbn [fst snd].
  rewrite (bind_Some _ _ _ _ _ Hwalk). cbn [fst snd].
  assert (load_slot (slot_at p ((n + 1) / 2)) s0 = Some (p ((n + 1) / 2)%nat, s0)) as Hload.
  { destruct (decide (n = 0)%nat) as [->|]; [|by eapply heap_load_run; [exact Hh0|lia]].
    change ((0 + 1) / 2)%nat with 0%nat. unfold slot_at. change (0 / 2)%nat with 0%nat.
    rewrite (tree_none _ _ _ 0 Ht) by lia. simpl. rewrite M_get. simpl. rewrite Hmin. by rewrite (tree_none _ _ _ 1 Ht) by lia. }
  rewrite (bind_Some _ _ _ _ _ Hload).
  assert (is_Some (m0 !! x)) as Hx0 by (apply alter_opt_dom; by eexists).
  rewrite (bind_Some _ _ _ _ _ (upd_run m0 s x (set_hn_parent (p ((n + 1) / 2)%nat)) Hx0)). set (m1 := alter_opt _ (Some x) m0).
  rewrite (bind_Some _ _ _ _ _ (heap_store_run m1 s p (n + 1) (Some x)
    ltac:(intros g Hg; unfold m1, m0; rewrite !alter_opt_dom, (it_node _ _ _ Ht _ _ Hg); by eexists))).
  assert (is_tree m1 p n) as Ht1 by (apply tree_outside; [by apply tree_outside|done]).
  assert (m1 !! x = Some {| hn_left := NULL; hn_right := NULL; hn_parent := p ((n + 1) / 2)%nat |}) as Hm1.
  { unfold m1, m0. by rewrite !lookup_alter_opt, !decide_True, Hnd by done. }
  pose proof (tree_link m1 p n x _ Ht1 Hout Hm1 eq_refl eq_refl eq_refl) as Ht2.
  eexists. split; [reflexivity|]. split.
  - split; [by destruct (p ((n + 1) / 2)%nat)| |].
    + destruct (p ((n + 1) / 2)%nat) as [g|] eqn:Hg; simpl; unfold put_at.
      * pose proof (tree_pos _ _ _ _ _ Ht Hg). by rewrite decide_False by lia.
      * destruct (decide (n = 0)%nat) as [->|]; [done|]. destruct (tree_at _ _ _ ((n + 1) / 2)%nat Ht ltac:(lia)). congruence.
    + destruct (p ((n + 1) / 2)%nat); simpl; rewrite Hn, u32_small; lia.
  - intros y Hy Hyx. set (m2 := alter_opt (child_setter _ _) _ m1).
    transitivity (m2 !! y); [by destruct (p ((n + 1) / 2)%nat)|].
    unfold m2, m1, m0. rewrite !lookup_alter_opt, !decide_False; [done|congruence|congruence|apply Hy].
Qed.

Lemma heap_unlink_run s p n :
  is_heap s p n → (1 ≤ n)%nat → Z.of_nat n < 2 ^ 32 →
  ∃ c s', heap_unlink_max s = Some (c, s') ∧ p n = Some c ∧ is_heap s' (put_at p n NULL) (n - 1) ∧
    is_Some (hs_nodes s' !! c) ∧ untouched p s s'.
Proof.
  intros Hh H1 Hmax. pose proof Hh as [Ht Hmin Hn]. destruct (tree_at _ _ _ n Ht ltac:(lia)) as [c Hc].
  unfold heap_unlink_max. rewrite M_get, Hn.
  destruct (find_place s p n n Hh ltac:(lia) ltac:(lia)) as (path & k & Hpath & Hwalk).
  rewrite Hpath, M_lift. cbn [fst snd]. rewrite (bind_Some _ _ _ _ _ Hwalk), M_modify. cbn [fst snd]. rewrite Hn, u32_small by lia.
  set (s1 := set_nelts _ s).
  assert (load_slot (slot_at p n) s1 = Some (p n, s1)) as Hload.
  { pose proof (heap_load_run s p n n Hh ltac:(lia)) as Hl. revert Hl. unfold slot_at, load_slot, node.
    destruct (p (n / 2)%nat) as [g|]; [destruct (Nat.even n)|]; mrun; [| |by intros [= ->]].
    - destruct (hs_nodes s !! g); [|done]. by intros [= ->].
    - destruct (hs_nodes s !! g); [|done]. by intros [= ->]. }
  rewrite (bind_Some _ _ _ _ _ Hload), Hc.
  assert (∀ g, p (n / 2)%nat = Some g → is_Some (hs_nodes s !! g)) as Hg by (intros g Hg; rewrite (it_node _ _ _ Ht _ _ Hg); by eexists).
  change s1 with (set_nodes (hs_nodes s) s1). rewrite (bind_Some _ _ _ _ _ (heap_store_run (hs_nodes s) s1 p n NULL Hg)).
  pose proof (tree_unlink _ p n Ht H1) as Ht'. set (m' := alter_opt _ _ _) in *.
  eexists c, _. split; [reflexivity|]. split; [done|].
  assert (hs_nodes ((match p (n / 2)%nat with Some _ => id | None => set_min NULL end) (set_nodes m' s1)) = m') as Hm' by (by destruct (p (n / 2)%nat)).
  split_and!.
  - split; [by rewrite Hm'| |destruct (p (n / 2)%nat); simpl; lia].
    unfold put_at. destruct (p (n / 2)%nat) as [g|] eqn:E; simpl.
    + pose proof (tree_pos _ _ _ _ _ Ht E). by rewrite decide_False by lia.
    + destruct (decide (n = 1)%nat) as [->|]; [by rewrite decide_True|].
      destruct (tree_at _ _ _ (n / 2)%nat Ht ltac:(lia)). congruence.
  - rewrite Hm'. unfold m'. apply alter_opt_dom. rewrite (it_node _ _ _ Ht _ _ Hc). by eexists.
  - intros y Hy. rewrite Hm'. unfold m'. by rewrite lookup_alter_opt, decide_False by apply Hy.
Qed.

Lemma heap_replace_run s p n i x c :
  is_heap s p n → p i = Some x → (∀ k, p k ≠ Some c) → is_Some (hs_nodes s !! c) →
  ∃ s', heap_replace x c s = Some (tt, s') ∧ is_heap s' (put_at p i (Some c)) n ∧
    ∀ y, (∀ k, p k ≠ Some y) → y ≠ c → hs_nodes s' !! y = hs_nodes s !! y.
Proof.
  intros [Ht Hmin Hn] Hx Hc [nc Hnc]. pose proof (tree_pos _ _ _ _ _ Ht Hx) as Hi.
  assert (x ≠ c) as Hxc by (intros ->; by eapply Hc).
  set (m := hs_nodes s) in *.
  set (m1 := alter_opt (set_hn_left (p (2 * i)%nat)) (Some c) m). set (m2 := alter_opt (set_hn_right (p (2 * i + 1)%nat)) (Some c) m1).
  set (m3 := alter_opt (set_hn_parent (p (i / 2)%nat)) (Some c) m2).
  assert (is_tree m1 p n) as Ht1 by (by apply tree_outside). assert (is_tree m2 p n) as Ht2 by (by apply tree_outside).
  assert (is_tree m3 p n) as Ht3 by (by apply tree_outside).
  assert (m3 !! c = Some (node_at p i)) as Hm3.
  { unfold m3, m2, m1. by rewrite !lookup_alter_opt, !decide_True, Hnc by done. }
  pose proof (tree_replace m3 p n i c Ht3 Hi Hc Hm3) as Htf.
  set (m4 := alter_opt (set_hn_parent (Some c)) (p (2 * i)%nat) m3) in *. set (m5 := alter_opt (set_hn_parent (Some c)) (p (2 * i + 1)%nat) m4) in *.
  assert (∀ k y, p k = Some y → is_Some (m3 !! y)) as Hlive by (intros k y Hy; rewrite (it_node _ _ _ Ht3 k y Hy); by eexists).
  assert (m4 !! c = Some (node_at p i)) as Hm4 by (unfold m4; by rewrite lookup_alter_opt, decide_False by apply Hc).
  assert (m5 !! x = Some (node_at p i)) as Hm5.
  { unfold m5, m4. rewrite !lookup_alter_opt, (it_node _ _ _ Ht3 i x Hx).
    by rewrite !decide_False by (intros E; apply (it_inj _ _ _ Ht _ _ _ Hx) in E; lia). }
  set (mf := alter_opt (child_setter i (Some c)) (p (i / 2)%nat) m5) in *.
  assert (heap_replace x c (set_nodes m s) =
    Some (tt, (match p (i / 2)%nat with None => set_min (Some c) | Some _ => id end) (set_nodes mf s))) as Hrun.
  { unfold heap_replace.
    erewrite bind_Some by (apply node_run, (it_node _ _ _ Ht i x Hx)). erewrite bind_Some by (apply upd_run; by eexists).
    erewrite bind_Some by (apply node_run, (it_node _ _ _ Ht1 i x Hx)). erewrite bind_Some by (apply upd_run; rewrite alter_opt_dom; by eexists).
    erewrite bind_Some by (apply node_run, (it_node _ _ _ Ht2 i x Hx)). erewrite bind_Some by (apply upd_run; rewrite !alter_opt_dom; by eexists).
    erewrite bind_Some by (apply node_run, Hm3). cbn [hn_left hn_right hn_parent node_at].
    erewrite bind_Some by (apply upd_opt_run, (Hlive (2 * i)%nat)). erewrite bind_Some by (apply node_run, Hm4).
    erewrite bind_Some by (apply upd_opt_run; intros y Hy; apply alter_opt_dom, (Hlive (2 * i + 1)%nat y Hy)).
    erewrite bind_Some by (apply node_run, Hm5). cbn [hn_parent node_at].
    destruct (p (i / 2)%nat) as [g|] eqn:Hg; [|done].
    assert (m5 !! g = Some (node_at p (i / 2))) as Hm5g.
    { unfold m5, m4. rewrite !lookup_alter_opt, (it_node _ _ _ Ht3 _ g Hg).
      by rewrite !decide_False by (intros E; apply (it_inj _ _ _ Ht _ _ _ Hg) in E; lia). }
    erewrite bind_Some by (apply node_run, Hm5g). cbn [hn_left node_at]. unfold mf, child_setter.
    destruct (Nat.even i) eqn:E.
    - rewrite bool_decide_eq_true_2 by (by rewrite <- (even_half i E)). apply upd_run. by eexists.
    - rewrite bool_decide_eq_false_2; [apply upd_run; by eexists|].
      intros E'. apply (it_inj _ _ _ Ht _ _ _ Hx) in E'. pose proof (odd_half i E). lia. }
  rewrite (set_nodes_id s : set_nodes m s = s) in Hrun. eexists. split; [exact Hrun|].
  assert (hs_nodes ((match p (i / 2)%nat with Some _ => id | None => set_min (Some c) end) (set_nodes mf s)) = mf) as Hmf by (by destruct (p (i / 2)%nat)).
  split.
  - split; [by rewrite Hmf| |by destruct (p (i / 2)%nat)].
    unfold put_at. destruct (p (i / 2)%nat) as [g|] eqn:E; simpl.
    + pose proof (tree_pos _ _ _ _ _ Ht E). by rewrite decide_False by lia.
    + destruct (decide (i = 1)%nat) as [->|]; [by rewrite decide_True|].
      destruct (tree_at _ _ _ (i / 2)%nat Ht ltac:(lia)). congruence.
  - intros y Hy Hyc. rewrite Hmf. unfold mf, m5, m4, m3, m2, m1.
    rewrite !lookup_alter_opt, !decide_False by (first [apply Hy|congruence]). done.
Qed.

(** ** Order *)

Definition same_nodes (p p' : places) : Prop := ∀ a, (∃ k, p k = Some a) ↔ (∃ k, p' k = Some a).

Lemma swap_same p i j : same_nodes p (swap p i j).
Proof.
  intros a. unfold swap. split; intros [k Hk].
  - destruct (decide (k = i)) as [->|]; [exists j|destruct (decide (k = j)) as [->|]; [exists i|exists k]];
      repeat case_decide; congruence.
  - repeat case_decide; by eauto.
Qed.

Lemma same_trans p1 p2 p3 : same_nodes p1 p2 → same_nodes p2 p3 → same_nodes p1 p3.
Proof. intros H1 H2 a. rewrite (H1 a). apply H2. Qed.

Lemma untouched_trans p p' s1 s2 s3 :
  same_nodes p p' → untouched p s1 s2 → untouched p' s2 s3 → untouched p s1 s3.
Proof.
  intros Hs H1 H2 x Hx. rewrite H2; [by apply H1|]. intros k Hk. destruct (proj2 (Hs x)) as [k' Hk']; [by eexists|]. by eapply Hx.
Qed.

Section Order.
Context (less_than : nat → nat → bool).
Context (lt_le : ∀ a b, less_than a b = true → less_than b a = false).
Context (le_trans : ∀ a b c, less_than b a = false → less_than c b = false → less_than c a = false).

(** The node at [u] is not greater than the node at [v]. *)
Definition le_at (p : places) (u v : nat) : Prop := ∀ a b, p u = Some a → p v = Some b → less_than b a = false.

Definition ordered (p : places) : Prop := ∀ k, (2 ≤ k)%nat → le_at p (k / 2) k.

(** Ordered but for the node at [i], which may be less than its parent, or anything. *)
Definition around (p : places) (i : nat) : Prop := ∀ k, (k / 2 = i)%nat → (2 ≤ i)%nat → le_at p (i / 2) k.
Definition hole_up (p : places) (i : nat) : Prop := (∀ k, (2 ≤ k)%nat → k ≠ i → le_at p (k / 2) k) ∧ around p i.
Definition hole (p : places) (i : nat) : Prop :=
  (∀ k, (2 ≤ k)%nat → k ≠ i → (k / 2 ≠ i)%nat → le_at p (k / 2) k) ∧ around p i.

Lemma hole_up_swap p i x q :
  p i = Some x → p (i / 2)%nat = Some q → (2 ≤ i)%nat → less_than x q = true → hole_up p i → hole_up (swap p (i / 2) i) (i / 2).
Proof.
  intros Hx Hq Hi Hlt [Hord Har]. split.
  - intros k Hk Hne a b Ha Hb. unfold swap in Ha, Hb. rewrite (decide_False (P := k = (i / 2)%nat)) in Hb by done.
    destruct (decide (k = i)) as [->|Hki].
    { rewrite decide_True in Ha by done. simplify_eq. by apply lt_le. }
    destruct (decide (k / 2 = i / 2)%nat) as [E|E].
    { simplify_eq. apply (le_trans _ q); [by apply lt_le|]. apply (Hord k Hk Hki); [by rewrite E|done]. }
    destruct (decide (k / 2 = i)%nat) as [E'|E'].
    { simplify_eq. by apply (Har k eq_refl Hi). }
    by apply (Hord k Hk Hki).
  - intros k Hk Hi2 a b Ha Hb. unfold swap in Ha, Hb. rewrite !decide_False in Ha by lia.
    assert (less_than q a = false) as Hqa by (by apply (Hord (i / 2)%nat Hi2 ltac:(lia))).
    repeat case_decide; subst; simplify_eq; try lia; [done|]. apply (le_trans _ q); [done|]. apply (Hord k); [lia|done| |done]. by rewrite Hk.
Qed.

Lemma up_loop_run fuel : ∀ i s p n x,
  is_heap s p n → p i = Some x → (i ≤ fuel)%nat → hole_up p i →
  ∃ s' p', up_loop less_than fuel x s = Some (tt, s') ∧ is_heap s' p' n ∧ ordered p' ∧ same_nodes p p' ∧ untouched p s s'.
Proof.
  induction fuel as [|fuel IH]; intros i s p n x Hh Hx Hf Hho; pose proof (ih_tree _ _ _ Hh) as Ht; pose proof (tree_pos _ _ _ _ _ Ht Hx); [lia|].
  cbn [up_loop]. rewrite (bind_Some _ _ _ _ _ (place_run s p n i x Hh Hx)). cbn [hn_parent node_at].
  assert (less_than x x = false) as Hirr by (destruct (less_than x x) eqn:E; [by rewrite (lt_le _ _ E) in E|done]).
  destruct (p (i / 2)%nat) as [q|] eqn:Hq.
  2:{ exists s, p. split_and!; try done. intros k Hk. destruct (decide (k = i)) as [->|]; [|by apply Hho]. intros a b Ha. congruence. }
  pose proof (tree_pos _ _ _ _ _ Ht Hq). destruct (less_than x q) eqn:Hlt.
  2:{ exists s, p. split_and!; try done. intros k Hk. destruct (decide (k = i)) as [->|]; [|by apply Hho].
      intros a b Ha Hb. by simplify_eq. }
  destruct (heap_swap s p n (i / 2) i q x Hh Hq Hx eq_refl ltac:(lia)) as (s1 & Hs1 & Hh1 & Hu1).
  rewrite (bind_Some _ _ _ _ _ Hs1).
  destruct (IH (i / 2)%nat s1 _ n x Hh1) as (s' & p' & Hrun & Hh' & Hord & Hsame & Hu).
  - unfold swap. by rewrite decide_True.
  - lia.
  - by apply (hole_up_swap p i x q); try done; lia.
  - exists s', p'. split_and!; [done|done|done| |].
    + eapply same_trans; [apply swap_same|exact Hsame].
    + eapply untouched_trans; [apply swap_same|exact Hu1|exact Hu].
Qed.

(** The smallest of a node and its children. *)
Lemma smaller_child_run p i x :
  p i = Some x → (1 ≤ i)%nat →
  let y := smaller_child less_than x (node_at p i) in
  (∀ k c, (k / 2 = i)%nat → (2 ≤ k)%nat → p k = Some c → less_than c y = false) ∧
  (y = x ∨ (∃ j, (j / 2 = i)%nat ∧ (2 ≤ j)%nat ∧ p j = Some y) ∧ less_than y x = true).
Proof.
  intros Hx Hi. assert (less_than x x = false) as Hirr by (destruct (less_than x x) eqn:E; [by rewrite (lt_le _ _ E) in E|done]).
  assert (∀ z, less_than z z = false) as Hrefl by (intros z; destruct (less_than z z) eqn:E; [by rewrite (lt_le _ _ E) in E|done]).
  assert (∀ y, (∀ c, p (2 * i)%nat = Some c → less_than c y = false) → (∀ c, p (2 * i + 1)%nat = Some c → less_than c y = false) →
    ∀ k c, (k / 2 = i)%nat → (2 ≤ k)%nat → p k = Some c → less_than c y = false) as Hall.
  { intros y H1 H2 k c Hk Hk2 Hc. destruct (half_cases k i Hk Hk2) as [-> | ->]; auto. }
  unfold smaller_child. cbn [hn_left hn_right node_at].
  set (z := match p (2 * i)%nat with Some l => if less_than l x then l else x | None => x end).
  assert ((∀ c, p (2 * i)%nat = Some c → less_than c z = false) ∧ less_than x z = false ∧
    (z = x ∨ p (2 * i)%nat = Some z ∧ less_than z x = true)) as (Hz1 & Hz2 & Hz3).
  { unfold z. destruct (p (2 * i)%nat) as [l|]; [destruct (less_than l x) eqn:E|]; split_and!; try (intros c [= <-]); auto. }
  destruct (p (2 * i + 1)%nat) as [r|] eqn:Hr; [destruct (less_than r z) eqn:E|].
  - split; [apply Hall; [|by intros c [= <-]]|right; split].
    + intros c Hc. apply (le_trans _ z); [by apply lt_le|by apply Hz1].
    + exists (2 * i + 1)%nat. split_and!; [lia|lia|done].
    + destruct (less_than r x) eqn:E'; [done|]. rewrite (le_trans z x r Hz2 E') in E. done.
  - split; [apply Hall; [done|by intros c [= <-]]|]. destruct Hz3 as [|[? ?]]; [by left|right]. split; [|done].
    exists (2 * i)%nat. split_and!; [lia|lia|done].
  - split; [apply Hall; [done|done]|]. destruct Hz3 as [|[? ?]]; [by left|right]. split; [|done].
    exists (2 * i)%nat. split_and!; [lia|lia|done].
Qed.

(** A node at the bottom of its way down. *)
Lemma hole_done p i x :
  p i = Some x → (∀ k c, (k / 2 = i)%nat → (2 ≤ k)%nat → p k = Some c → less_than c x = false) → hole p i → hole_up p i.
Proof.
  intros Hx Hc [Hord Har]. split; [|done]. intros k Hk Hne. destruct (decide (k / 2 = i)%nat) as [E|E]; [|by apply Hord].
  intros a b Ha Hb. rewrite E in Ha. simplify_eq. by apply (Hc k).
Qed.

Lemma hole_swap p i j x y :
  p i = Some x → p j = Some y → (j / 2 = i)%nat → (2 ≤ j)%nat →
  (∀ k c, (k / 2 = i)%nat → (2 ≤ k)%nat → p k = Some c → less_than c y = false) → hole p i → hole (swap p i j) j.
Proof.
  intros Hx Hy Hj H2 Hmin [Hord Har]. assert (1 ≤ i)%nat as Hi by lia. split.
  - intros k Hk Hne Hkj a b Ha Hb. unfold swap in Ha, Hb. rewrite (decide_False (P := k = j)) in Hb by done.
    rewrite (decide_False (P := (k / 2)%nat = j)) in Ha by done.
    destruct (decide (k / 2 = i)%nat) as [E|E].
    { simplify_eq. rewrite decide_False in Hb by lia. by apply (Hmin k). }
    destruct (decide (k = i)) as [->|Hki].
    { simplify_eq. apply (Har j eq_refl ltac:(lia)); done. }
    by apply (Hord k).
  - intros k Hk Hj2 a b Ha Hb. unfold swap in Ha, Hb. rewrite decide_True in Ha by done.
    rewrite !decide_False in Hb by lia. simplify_eq. apply (Hord k); [lia|lia|lia| |done]. done.
Qed.

Lemma down_loop_run fuel : ∀ i s p n x,
  is_heap s p n → p i = Some x → (n < i + fuel)%nat → hole p i →
  ∃ s' p' i', down_loop less_than fuel x s = Some (tt, s') ∧ is_heap s' p' n ∧ p' i' = Some x ∧ hole_up p' i' ∧
    same_nodes p p' ∧ untouched p s s'.
Proof.
  induction fuel as [|fuel IH]; intros i s p n x Hh Hx Hf Hho; pose proof (ih_tree _ _ _ Hh) as Ht; pose proof (tree_pos _ _ _ _ _ Ht Hx); [lia|].
  cbn [down_loop]. rewrite (bind_Some _ _ _ _ _ (place_run s p n i x Hh Hx)). cbv zeta.
  destruct (smaller_child_run p i x Hx ltac:(lia)) as [Hmin Hy]. set (y := smaller_child less_than x (node_at p i)) in *.
  destruct (decide (y = x)) as [E|E].
  { rewrite bool_decide_eq_true_2 by done. exists s, p, i. split_and!; try done. rewrite E in Hmin. by apply (hole_done p i x). }
  rewrite bool_decide_eq_false_2 by done. destruct Hy as [|[(j & Hj & H2 & Hyj) Hlt]]; [done|].
  destruct (heap_swap s p n i j x y Hh Hx Hyj Hj H2) as (s1 & Hs1 & Hh1 & Hu1).
  rewrite (bind_Some _ _ _ _ _ Hs1).
  destruct (IH j s1 _ n x Hh1) as (s' & p' & i' & Hrun & Hh' & Hx' & Hup & Hsame & Hu).
  - unfold swap. rewrite decide_False by lia. by rewrite decide_True.
  - lia.
  - by apply (hole_swap p i j x y).
  - exists s', p', i'. split_and!; [done|done|done|done| |].
    + eapply same_trans; [apply swap_same|exact Hsame].
    + eapply untouched_trans; [apply swap_same|exact Hu1|exact Hu].
Qed.

(** ** Operations *)

(** The heap holds the nodes [X]. *)
Definition heap_ok (s : heap_state) (X : gset nat) : Prop :=
  hp_nelts (hs_heap s) = Z.of_nat (size X) ∧ ∃ p n, is_heap s p n ∧ ordered p ∧ ∀ a, a ∈ X ↔ ∃ k, p k = Some a.

Lemma heap_init_ok s : ∃ s', heap_init s = Some (tt, s') ∧ heap_ok s' ∅ ∧ hs_nodes s' = hs_nodes s.
Proof.
  eexists. split; [reflexivity|]. split; [|done]. split; [by rewrite size_empty|]. exists (λ _, NULL), 0%nat. split_and!.
  - split; [|done|done]. split; [|done|done]. intros i. split; [by intros []|lia].
  - intros k _ a b. done.
  - intros a. split; [set_solver|]. by intros [].
Qed.

(** The root is the least node. *)
Lemma heap_min_ok s X :
  heap_ok s X →
  match hp_min (hs_heap s) with None => X = ∅ | Some a => a ∈ X ∧ ∀ b, b ∈ X → less_than b a = false end.
Proof.
  intros (_ & p & n & [Ht Hmin _] & Hord & HX). rewrite Hmin. destruct (p 1%nat) as [a|] eqn:Ha.
  - split; [apply HX; by eexists|]. intros b [k Hk]%HX. revert b Hk.
    induction (lt_wf k) as [k _ IH]. intros b Hk. pose proof (tree_pos _ _ _ _ _ Ht Hk) as Hk1.
    destruct (decide (k = 1)%nat) as [->|Hne].
    { simplify_eq. destruct (less_than a a) eqn:E; [by rewrite (lt_le _ _ E) in E|done]. }
    destruct (tree_at _ _ _ (k / 2)%nat Ht ltac:(lia)) as [q Hq].
    apply (le_trans _ q); [by apply (IH (k / 2)%nat); [lia|]|]. by apply (Hord k); [lia| |].
  - apply set_eq. intros b. rewrite HX. split; [|set_solver]. intros [k Hk].
    pose proof (tree_pos _ _ _ _ _ Ht Hk). destruct (tree_at _ _ _ 1 Ht ltac:(lia)) as [? E]. congruence.
Qed.

Lemma heap_insert_ok s X x :
  heap_ok s X → x ∉ X → is_Some (hs_nodes s !! x) → hp_nelts (hs_heap s) < 2 ^ 32 - 1 →
  ∃ s', heap_insert less_than x s = Some (tt, s') ∧ heap_ok s' ({[x]} ∪ X) ∧
    (∀ y, y ∉ X → y ≠ x → hs_nodes s' !! y = hs_nodes s !! y).
Proof.
  intros (Hsz & p & n & Hh & Hord & HX) Hx Hlive Hmax. pose proof Hh as [Ht _ Hn].
  assert (∀ k, p k ≠ Some x) as Hout by (intros k Hk; apply Hx, HX; by eexists).
  destruct (heap_link_run s p n x Hh Hout Hlive ltac:(lia)) as (s2 & Hlink & Hh2 & Hu2).
  unfold heap_insert. rewrite (bind_Some _ _ _ _ _ Hlink), M_get. set (p2 := put_at p (n + 1) (Some x)) in *.
  destruct (up_loop_run (S (Z.to_nat (hp_nelts (hs_heap s2)))) (n + 1) s2 p2 (n + 1) x Hh2) as (s' & p' & Hrun & Hh' & Hord' & Hsame & Hu).
  - unfold p2, put_at. by rewrite decide_True.
  - rewrite (ih_nelts _ _ _ Hh2). lia.
  - split.
    + intros k0 Hk Hne a b. unfold p2, put_at. rewrite (decide_False (P := k0 = _)) by done. case_decide as E.
      * rewrite (tree_none _ _ _ k0 Ht) by lia. done.
      * by apply Hord.
    + intros k0 Hk _ a b. unfold p2, put_at. rewrite (decide_False (P := k0 = _)) by lia. by rewrite (tree_none _ _ _ k0 Ht) by lia.
  - exists s'. split; [done|]. split; [split|].
    + rewrite size_union, size_singleton, (ih_nelts _ _ _ Hh') by set_solver. lia.
    + exists p', (n + 1)%nat. split_and!; [done|done|]. intros a. rewrite <- (Hsame a), elem_of_union, elem_of_singleton, HX.
      unfold p2, put_at. split.
      * intros [->|[k0 Hk]]; [exists (n + 1)%nat; by rewrite decide_True|exists k0].
        pose proof (tree_pos _ _ _ _ _ Ht Hk). by rewrite decide_False by lia.
      * intros [k0 Hk]. case_decide; [left; congruence|right; by eexists].
    + intros y Hy Hyx. assert (∀ k0, p k0 ≠ Some y) as Hyo by (intros k0 Hk; apply Hy, HX; by eexists).
      rewrite Hu; [by apply Hu2|]. intros k0. unfold p2, put_at. case_decide; [congruence|apply Hyo].
Qed.

Lemma replaced_hole p n i c :
  ordered p → (1 ≤ i)%nat → (i < n)%nat → (∃ x, p i = Some x) →
  hole (put_at (put_at p n NULL) i (Some c)) i.
Proof.
  intros Hord Hi Hin [x Hx]. split.
  - intros k Hk Hne Hki a b. unfold put_at. rewrite (decide_False (P := k = i)), (decide_False (P := (k / 2)%nat = i)) by done.
    repeat case_decide; try done. by apply Hord.
  - intros k Hk Hi2 a b. unfold put_at. repeat (case_decide; try lia); try done. intros Ha Hb.
    apply (le_trans _ x); [by apply (Hord i Hi2)|]. apply (Hord k); [lia|by rewrite Hk|done].
Qed.

(** The last node is the one to remove. *)
Lemma remove_last s X x p n s' :
  (∀ a, a ∈ X ↔ ∃ k, p k = Some a) → ordered p → is_tree (hs_nodes s) p n → p n = Some x →
  Z.of_nat (size (X ∖ {[x]})) = Z.of_nat (n - 1) → is_heap s' (put_at p n NULL) (n - 1) → heap_ok s' (X ∖ {[x]}).
Proof.
  intros HX Hord Ht Hn Hsz Hh'. assert (∀ k a, put_at p n NULL k = Some a ↔ p k = Some a ∧ k ≠ n) as Hp1
    by (intros k a; unfold put_at; case_decide; naive_solver).
  split; [rewrite (ih_nelts _ _ _ Hh'); lia|]. exists (put_at p n NULL), (n - 1)%nat. split_and!; [done| |].
  - intros k Hk a b [Ha _]%Hp1 [Hb _]%Hp1. by apply (Hord k).
  - intros a. rewrite elem_of_difference, elem_of_singleton, HX. split.
    + intros [[k Hk] Hne]. exists k. apply Hp1. split; [done|]. intros ->. congruence.
    + intros [k [Hk Hne]%Hp1]. split; [by eexists|]. intros ->. by apply Hne, (it_inj _ _ _ Ht _ _ x).
Qed.

(** The nodes after the last one took the place of another. *)
Lemma replaced_nodes m p n i x c a :
  is_tree m p n → p i = Some x → p n = Some c → c ≠ x →
  (∃ k, put_at (put_at p n NULL) i (Some c) k = Some a) ↔ (∃ k, p k = Some a) ∧ a ≠ x.
Proof.
  intros Ht Hi Hc Hcx. unfold put_at. split.
  - intros [k Hk]. case_decide as E; [simplify_eq; by eauto|]. case_decide; [done|]. split; [by eexists|].
    intros ->. by apply E, (it_inj _ _ _ Ht _ _ x).
  - intros [[k Hk] Hne]. destruct (decide (a = c)) as [->|Hac]; [exists i; by rewrite decide_True|exists k].
    rewrite !decide_False by (intros ->; congruence). done.
Qed.

(** The node that took the place of another finds its own. *)
Lemma settle_run s p n i c :
  is_heap s p n → p i = Some c → hole p i →
  ∃ s' p', (s ← get; down_loop less_than (S (Z.to_nat (hp_nelts (hs_heap s)))) c;; up_loop less_than (S (Z.to_nat (hp_nelts (hs_heap s)))) c) s =
      Some (tt, s') ∧ is_heap s' p' n ∧ ordered p' ∧ same_nodes p p' ∧ untouched p s s'.
Proof.
  intros Hh Hi Hhole. pose proof (tree_pos _ _ _ _ _ (ih_tree _ _ _ Hh) Hi). rewrite M_get, (ih_nelts _ _ _ Hh).
  destruct (down_loop_run (S (Z.to_nat (Z.of_nat n))) i s p n c Hh Hi ltac:(lia) Hhole) as (s1 & p1 & i1 & Hdn & Hh1 & Hp1 & Hup & Hsame1 & Hu1).
  rewrite (bind_Some _ _ _ _ _ Hdn). pose proof (tree_pos _ _ _ _ _ (ih_tree _ _ _ Hh1) Hp1).
  destruct (up_loop_run (S (Z.to_nat (Z.of_nat n))) i1 s1 p1 n c Hh1 Hp1 ltac:(lia) Hup) as (s2 & p2 & Hrun & Hh2 & Hord & Hsame2 & Hu2).
  exists s2, p2. split_and!; [done|done|done|by eapply same_trans|by eapply untouched_trans].
Qed.

Lemma heap_remove_ok s X x :
  heap_ok s X → x ∈ X → hp_nelts (hs_heap s) < 2 ^ 32 →
  ∃ s', heap_remove less_than x s = Some (tt, s') ∧ heap_ok s' (X ∖ {[x]}) ∧
    (∀ y, y ∉ X → hs_nodes s' !! y = hs_nodes s !! y).
Proof.
  intros (Hsz & p & n & Hh & Hord & HX) Hx Hmax. pose proof Hh as [Ht Hmin Hn]. destruct (proj1 (HX x) Hx) as [i Hi].
  pose proof (tree_pos _ _ _ _ _ Ht Hi) as Hin. assert (∀ y, y ∉ X → ∀ k, p k ≠ Some y) as HXo by (intros y Hy k Hk; apply Hy, HX; by eexists).
  assert (Z.of_nat (size (X ∖ {[x]})) = Z.of_nat (n - 1)) as Hsz' by (rewrite size_difference, size_singleton by set_solver; lia).
  unfold heap_remove. rewrite M_get. rewrite (proj2 (Z.eqb_neq _ 0)) by lia.
  destruct (heap_unlink_run s p n Hh ltac:(lia) ltac:(lia)) as (c & s1 & Hun & Hc & Hh1 & Hlive & Hu1).
  rewrite (bind_Some _ _ _ _ _ Hun). assert (∀ k a, put_at p n NULL k = Some a ↔ p k = Some a ∧ k ≠ n) as Hp1
    by (intros k a; unfold put_at; case_decide; naive_solver).
  destruct (decide (c = x)) as [->|Hcx].
  { rewrite bool_decide_eq_true_2 by done. rewrite M_get, bool_decide_eq_false_2.
    - exists s1. split; [done|]. split; [by apply (remove_last s X x p n)|intros y Hy; by apply Hu1, HXo].
    - rewrite (ih_min _ _ _ Hh1). intros [H1 H2]%eq_sym%Hp1. by apply H2, (it_inj _ _ _ Ht _ _ x). }
  rewrite bool_decide_eq_false_2 by done. assert (i ≠ n) as Hni by (intros ->; congruence).
  destruct (heap_replace_run s1 _ (n - 1) i x c Hh1) as (s2 & Hrep & Hh2 & Hu2); [by apply Hp1| |done|].
  { intros k [Hk Hne]%Hp1. by apply Hne, (it_inj _ _ _ Ht _ _ c). }
  rewrite (bind_Some _ _ _ _ _ Hrep). set (p2 := put_at (put_at p n NULL) i (Some c)) in *.
  destruct (settle_run s2 p2 (n - 1) i c Hh2) as (s4 & p4 & Hrun & Hh4 & Hord4 & Hsame & Hu4).
  { unfold p2, put_at. by rewrite decide_True. }
  { apply replaced_hole; [done|lia|lia|by eexists]. }
  assert (∀ a, (∃ k, p2 k = Some a) ↔ a ∈ X ∖ {[x]}) as Hset.
  { intros a. rewrite elem_of_difference, elem_of_singleton, HX. by apply (replaced_nodes _ p n i x c a Ht). }
  exists s4. split; [done|]. split; [split; [rewrite (ih_nelts _ _ _ Hh4); lia|]|].
  - exists p4, (n - 1)%nat. split_and!; [done|done|]. intros a. by rewrite <- Hset, (Hsame a).
  - intros y Hy. rewrite Hu4 by (intros k Hk; assert (y ∈ X ∖ {[x]}) as E by (apply Hset; by eexists); set_solver).
    rewrite Hu2; [by apply Hu1, HXo|intros k [Hk _]%Hp1; by eapply HXo|]. intros ->. by eapply HXo.
Qed.

(** The least node is taken out. *)
Lemma heap_dequeue_ok s X :
  heap_ok s X → hp_nelts (hs_heap s) < 2 ^ 32 →
  ∃ s', heap_dequeue less_than s = Some (tt, s') ∧
    match hp_min (hs_heap s) with
    | None => X = ∅ ∧ s' = s
    | Some x => x ∈ X ∧ (∀ y, y ∈ X → less_than y x = false) ∧ heap_ok s' (X ∖ {[x]})
    end.
Proof.
  intros Hok Hmax. pose proof (heap_min_ok s X Hok) as Hmin. unfold heap_dequeue. rewrite M_get. destruct (hp_min (hs_heap s)) as [x|].
  - destruct Hmin as [Hx Hle]. destruct (heap_remove_ok s X x Hok Hx Hmax) as (s' & ? & ? & _). by exists s'.
  - exists s. destruct Hok as [-> _]. rewrite Hmin, size_empty. done.
Qed.
End Order.

(** Only the order of the nodes in the heap counts. *)
Lemma heap_ok_ext less1 less2 s X :
  (∀ a b, a ∈ X → b ∈ X → less1 a b = less2 a b) → heap_ok less1 s X → heap_ok less2 s X.
Proof.
  intros Heq (Hsz & p & n & Hh & Hord & HX). split; [done|]. exists p, n. split_and!; [done| |done].
  intros k Hk a b Ha Hb. rewrite <- Heq; [by apply (Hord k)|apply HX; by eexists..].
Qed.

(** ** Storage *)

(** The nodes that exist; no operation makes or frees one. *)
Definition allocated (D : gset nat) (s : heap_state) : Prop := dom (hs_nodes s) = D.

Ltac keeps_auto :=
  stable_auto; try (apply stable_modify; unfold allocated; intros ?; simpl; rewrite ?dom_alter_L; done).

Lemma keeps_node D a : stable (allocated D) (node a).
Proof. unfold node. keeps_auto. Qed.
#[export] Hint Resolve keeps_node : stable.
Lemma keeps_upd D a f : stable (allocated D) (upd a f).
Proof. unfold upd. keeps_auto. Qed.
#[export] Hint Resolve keeps_upd : stable.
Lemma keeps_upd_opt D a f : stable (allocated D) (upd_opt a f).
Proof. unfold upd_opt. keeps_auto. Qed.
#[export] Hint Resolve keeps_upd_opt : stable.
Lemma keeps_load D x : stable (allocated D) (load_slot x).
Proof. unfold load_slot. keeps_auto. Qed.
Lemma keeps_store D x v : stable (allocated D) (store_slot x v).
Proof. unfold store_slot. keeps_auto. Qed.
Lemma keeps_swap D a b : stable (allocated D) (heap_node_swap a b).
Proof. unfold heap_node_swap. keeps_auto. Qed.
#[export] Hint Resolve keeps_load keeps_store keeps_swap : stable.
Lemma keeps_walk D k : ∀ path a b, stable (allocated D) (walk_loop k path a b).
Proof. induction k as [|k IH]; intros path a b; cbn [walk_loop]; keeps_auto. Qed.
Lemma keeps_up D less_than fuel : ∀ x, stable (allocated D) (up_loop less_than fuel x).
Proof. induction fuel as [|fuel IH]; intros x; cbn [up_loop]; keeps_auto. Qed.
Lemma keeps_down D less_than fuel : ∀ x, stable (allocated D) (down_loop less_than fuel x).
Proof. induction fuel as [|fuel IH]; intros x; cbn [down_loop]; cbv zeta; keeps_auto. Qed.
#[export] Hint Resolve keeps_walk keeps_up keeps_down : stable.

Lemma keeps_insert D less_than x : stable (allocated D) (heap_insert less_than x).
Proof. unfold heap_insert, heap_link. keeps_auto. Qed.
Lemma keeps_remove D less_than x : stable (allocated D) (heap_remove less_than x).
Proof. unfold heap_remove, heap_unlink_max, heap_replace. keeps_auto. Qed.
