(* ===== verification/UvTimer.v ===== *)
(** The timers of a libuv loop: deps/libuv/src/timer.c over the heap of heap-inl.h.

    A timer handle is the address of its heap node.  [tl_fired] records the callbacks that
    [uv__run_timers] has made; what a callback does is an argument. *)
From stdpp Require Import base numbers list option gmap sets.
From Stdlib Require Import ZArith Lia.
From S2P Require Import Prelude UvHeap UvHeapRun.

Local Open Scope Z_scope.
Local Open Scope c_scope.

(** ** State *)

Record uv_timer_t := {
  tm_cb : bool;
  tm_timeout : Z;
  tm_repeat : Z;
  tm_start_id : Z;
  tm_active : bool;
}.

Record timer_loop := {
  tl_time : Z;
  tl_counter : Z;
  tl_timers : gmap nat uv_timer_t;
  tl_heap : heap_state;
  tl_fired : list nat;
}.

Definition set_timers (x : gmap nat uv_timer_t) (l : timer_loop) : timer_loop :=
  {| tl_time := tl_time l; tl_counter := tl_counter l; tl_timers := x; tl_heap := tl_heap l; tl_fired := tl_fired l |}.
Definition set_timer_heap (x : heap_state) (l : timer_loop) : timer_loop :=
  {| tl_time := tl_time l; tl_counter := tl_counter l; tl_timers := tl_timers l; tl_heap := x; tl_fired := tl_fired l |}.
Definition set_counter (x : Z) (l : timer_loop) : timer_loop :=
  {| tl_time := tl_time l; tl_counter := x; tl_timers := tl_timers l; tl_heap := tl_heap l; tl_fired := tl_fired l |}.
Definition add_fired (h : nat) (l : timer_loop) : timer_loop :=
  {| tl_time := tl_time l; tl_counter := tl_counter l; tl_timers := tl_timers l; tl_heap := tl_heap l;
     tl_fired := tl_fired l ++ [h] |}.

Definition timer (h : nat) : M timer_loop uv_timer_t := l ← get; lift (tl_timers l !! h).
Definition put_timer (h : nat) (t : uv_timer_t) : M timer_loop unit := modify (λ l, set_timers (<[h := t]> (tl_timers l)) l).

Definition set_active (b : bool) (t : uv_timer_t) : uv_timer_t :=
  {| tm_cb := tm_cb t; tm_timeout := tm_timeout t; tm_repeat := tm_repeat t; tm_start_id := tm_start_id t; tm_active := b |}.
Definition set_repeat (r : Z) (t : uv_timer_t) : uv_timer_t :=
  {| tm_cb := tm_cb t; tm_timeout := tm_timeout t; tm_repeat := r; tm_start_id := tm_start_id t; tm_active := tm_active t |}.

Definition UV_EINVAL : Z := -22.
Definition INT_MAX : Z := 2147483647.

(** ** Operations *)

Definition less (a b : uv_timer_t) : bool :=
  if tm_timeout a <? tm_timeout b then true
  else if tm_timeout b <? tm_timeout a then false
  else if tm_start_id a <? tm_start_id b then true
  else if tm_start_id b <? tm_start_id a then false
  else false.

Definition no_timer : uv_timer_t :=
  {| tm_cb := false; tm_timeout := 0; tm_repeat := 0; tm_start_id := 0; tm_active := false |}.

(** The timer around a heap node. *)
Definition timer_of (ts : gmap nat uv_timer_t) (h : nat) : uv_timer_t := default no_timer (ts !! h).
Definition timer_less_than (ts : gmap nat uv_timer_t) (ha hb : nat) : bool := less (timer_of ts ha) (timer_of ts hb).

(** A call on the heap of the loop. *)
Definition on_heap {A} (f : M heap_state A) : M timer_loop A := zoom tl_heap set_timer_heap f.

Definition uv_timer_init (h : nat) : M timer_loop Z :=
  t ← timer h;
  put_timer h {| tm_cb := false; tm_timeout := tm_timeout t; tm_repeat := 0; tm_start_id := tm_start_id t; tm_active := false |};;
  mret 0.

Definition uv_timer_stop (h : nat) : M timer_loop Z :=
  t ← timer h;
  if negb (tm_active t) then mret 0
  else
    l ← get;
    on_heap (heap_remove (timer_less_than (tl_timers l)) h);;
    put_timer h (set_active false t);;
    mret 0.

Definition uv_timer_start (h : nat) (cb : bool) (timeout repeat : Z) : M timer_loop Z :=
  if negb cb then mret UV_EINVAL
  else
    t ← timer h;
    (if tm_active t then uv_timer_stop h else mret 0);;
    l ← get;
    let clamped := u64 (tl_time l + timeout) in
    let clamped := if clamped <? timeout then SIZE_MAX else clamped in
    put_timer h {| tm_cb := cb; tm_timeout := clamped; tm_repeat := repeat; tm_start_id := tl_counter l; tm_active := false |};;
    modify (set_counter (u64 (tl_counter l + 1)));;
    l ← get;
    on_heap (heap_insert (timer_less_than (tl_timers l)) h);;
    t ← timer h;
    put_timer h (set_active true t);;
    mret 0.

Definition uv_timer_again (h : nat) : M timer_loop Z :=
  t ← timer h;
  if negb (tm_cb t) then mret UV_EINVAL
  else if negb (tm_repeat t =? 0) then
    uv_timer_stop h;;
    uv_timer_start h (tm_cb t) (tm_repeat t) (tm_repeat t);;
    mret 0
  else mret 0.

Definition uv_timer_set_repeat (h : nat) (repeat : Z) : M timer_loop unit :=
  t ← timer h; put_timer h (set_repeat repeat t).
Definition uv_timer_get_repeat (h : nat) : M timer_loop Z := t ← timer h; mret (tm_repeat t).

(** The time to wait for events: -1 without a limit. *)
Definition uv__next_timeout : M timer_loop Z :=
  m ← on_heap heap_min;
  match m with
  | None => mret (-1)
  | Some h =>
      t ← timer h;
      l ← get;
      if tm_timeout t <=? tl_time l then mret 0
      else
        let diff := tm_timeout t - tl_time l in
        mret (if INT_MAX <? diff then INT_MAX else diff)
  end.

Definition uv__timer_close (h : nat) : M timer_loop unit := uv_timer_stop h;; mret tt.

Section Run.
Context (timer_cb : nat → M timer_loop unit).

Fixpoint run_timers_loop (fuel : nat) : M timer_loop unit :=
  match fuel with
  | O => undef
  | S fuel =>
      m ← on_heap heap_min;
      match m with
      | None => mret tt
      | Some h =>
          t ← timer h;
          l ← get;
          if tl_time l <? tm_timeout t then mret tt
          else
            uv_timer_stop h;;
            uv_timer_again h;;
            t ← timer h;
            TN_ASSERT (tm_cb t);;
            modify (add_fired h);;
            timer_cb h;;
            run_timers_loop fuel
      end
  end.

(** One round per timer that can be due, and one more. *)
Definition uv__run_timers : M timer_loop unit :=
  l ← get; run_timers_loop (S (Z.to_nat (hp_nelts (hs_heap (tl_heap l))))).
End Run.

(** ** Order *)

Lemma less_le a b : less a b = true → less b a = false.
Proof. unfold less. repeat case_bool; try done; lia. Qed.

Lemma less_trans a b c : less b a = false → less c b = false → less c a = false.
Proof. unfold less. repeat case_bool; try done; lia. Qed.

Lemma timer_less_le ts a b : timer_less_than ts a b = true → timer_less_than ts b a = false.
Proof. apply less_le. Qed.
Lemma timer_less_trans ts a b c :
  timer_less_than ts b a = false → timer_less_than ts c b = false → timer_less_than ts c a = false.
Proof. apply less_trans. Qed.

(** ** Invariant *)

Definition active (ts : gmap nat uv_timer_t) : gset nat := dom (filter (λ '(_, t), tm_active t = true) ts).

Lemma elem_of_active ts h : h ∈ active ts ↔ ∃ t, ts !! h = Some t ∧ tm_active t = true.
Proof.
  unfold active. rewrite elem_of_dom. split.
  - intros [t Ht]. apply map_lookup_filter_Some in Ht as [? ?]. by exists t.
  - intros (t & Ht & Ha). exists t. by apply map_lookup_filter_Some.
Qed.

Record timers_ok (l : timer_loop) : Prop := {
  to_heap : heap_ok (timer_less_than (tl_timers l)) (tl_heap l) (active (tl_timers l));
  to_nodes : dom (tl_timers l) ⊆ dom (hs_nodes (tl_heap l));
  to_cb : ∀ h t, tl_timers l !! h = Some t → tm_active t = true → tm_cb t = true;
  to_repeat : ∀ h t, tl_timers l !! h = Some t → 0 ≤ tm_repeat t < W64;
  to_size : Z.of_nat (size (dom (tl_timers l))) < 2 ^ 32;
  to_time : 0 ≤ tl_time l < W64 - 1;
}.

(** What an operation leaves alone. *)
Definition same_clock (l l' : timer_loop) : Prop := tl_time l' = tl_time l ∧ tl_fired l' = tl_fired l.

Lemma active_size ts : (size (active ts) ≤ size (dom ts))%nat.
Proof. apply subseteq_size. intros h (t & Ht & _)%elem_of_active. apply elem_of_dom. by eexists. Qed.

(** One timer is made inactive. *)
Lemma active_stop ts h t : active (<[h := set_active false t]> ts) = active ts ∖ {[h]}.
Proof.
  apply set_eq. intros g. rewrite elem_of_difference, elem_of_singleton, !elem_of_active.
  destruct (decide (h = g)) as [->|Hne]; [rewrite lookup_insert_eq|rewrite lookup_insert_ne by done].
  - split; [by intros (? & [= <-] & ?)|]. by intros [_ ?].
  - naive_solver.
Qed.

Lemma active_start ts h t : tm_active t = true → active (<[h := t]> ts) = {[h]} ∪ active ts.
Proof.
  intros Ht. apply set_eq. intros g. rewrite elem_of_union, elem_of_singleton, !elem_of_active.
  destruct (decide (h = g)) as [->|Hne]; [rewrite lookup_insert_eq|rewrite lookup_insert_ne by done]; naive_solver.
Qed.

(** A timer outside the heap may change. *)
Lemma less_outside ts h t s X :
  h ∉ X → heap_ok (timer_less_than ts) s X → heap_ok (timer_less_than (<[h := t]> ts)) s X.
Proof.
  intros Hh. apply heap_ok_ext. intros a b Ha Hb. unfold timer_less_than, timer_of.
  rewrite !lookup_insert_ne by set_solver. done.
Qed.

Lemma on_heap_run {A} (f : M heap_state A) l a s :
  f (tl_heap l) = Some (a, s) → on_heap f l = Some (a, set_timer_heap s l).
Proof. apply zoom_Some. Qed.

Lemma timer_run l h t : tl_timers l !! h = Some t → timer h l = Some (t, l).
Proof. intros Ht. unfold timer. by rewrite M_get, Ht. Qed.

(** One record changes, and the heap with it. *)
Lemma timers_ok_put l s h t :
  timers_ok l → is_Some (tl_timers l !! h) → dom (hs_nodes s) = dom (hs_nodes (tl_heap l)) →
  heap_ok (timer_less_than (<[h := t]> (tl_timers l))) s (active (<[h := t]> (tl_timers l))) →
  (tm_active t = true → tm_cb t = true) → 0 ≤ tm_repeat t < W64 →
  timers_ok (set_timers (<[h := t]> (tl_timers l)) (set_timer_heap s l)).
Proof.
  intros [] Hh Hd Hheap Hcb Hr. split; simpl; try done.
  - by rewrite dom_insert_lookup_L, Hd.
  - intros g u. destruct (decide (h = g)) as [->|]; [rewrite lookup_insert_eq; by intros [= <-]|].
    rewrite lookup_insert_ne by done. apply to_cb0.
  - intros g u. destruct (decide (h = g)) as [->|]; [rewrite lookup_insert_eq; by intros [= <-]|].
    rewrite lookup_insert_ne by done. apply to_repeat0.
  - by rewrite dom_insert_lookup_L.
Qed.

Lemma heap_fits l : timers_ok l → hp_nelts (hs_heap (tl_heap l)) < 2 ^ 32.
Proof. intros []. destruct to_heap0 as [-> _]. pose proof (active_size (tl_timers l)). lia. Qed.

Lemma heap_room l h t :
  timers_ok l → tl_timers l !! h = Some t → tm_active t = false → hp_nelts (hs_heap (tl_heap l)) < 2 ^ 32 - 1.
Proof.
  intros [] Ht Ha. destruct to_heap0 as [-> _].
  assert (size ({[h]} ∪ active (tl_timers l)) ≤ size (dom (tl_timers l)))%nat as Hs.
  { apply subseteq_size. intros g [->%elem_of_singleton|(u & Hu & _)%elem_of_active]%elem_of_union; apply elem_of_dom; by eexists. }
  rewrite size_union, size_singleton in Hs; [lia|].
  apply disjoint_singleton_l. intros (u & Hu & ?)%elem_of_active. congruence.
Qed.

(** Whether a timer is active does not change its place. *)
Lemma less_active ts h t b x y :
  timer_less_than (<[h := set_active b t]> ts) x y = timer_less_than (<[h := t]> ts) x y.
Proof.
  unfold timer_less_than, timer_of.
  rewrite !lookup_insert. repeat case_decide; done.
Qed.

Lemma timer_stop_ok l h t :
  timers_ok l → tl_timers l !! h = Some t →
  ∃ l', uv_timer_stop h l = Some (0, l') ∧ timers_ok l' ∧ same_clock l l' ∧ tl_counter l' = tl_counter l ∧
    tl_timers l' = <[h := set_active false t]> (tl_timers l).
Proof.
  intros Hok Ht. unfold uv_timer_stop. rewrite (bind_Some _ _ _ _ _ (timer_run l h t Ht)).
  destruct (tm_active t) eqn:Ha; cbn [negb].
  2:{ exists l. split_and!; [done|done|done|done|]. rewrite insert_id; [done|]. rewrite Ht. destruct t. simpl in *. by subst. }
  rewrite M_get. assert (h ∈ active (tl_timers l)) as Hin by (apply elem_of_active; by exists t).
  destruct (heap_remove_ok _ (timer_less_le _) (timer_less_trans _) (tl_heap l) _ h (to_heap l Hok) Hin (heap_fits l Hok)) as (s & Hrun & Hs & _).
  rewrite (bind_Some _ _ _ _ _ (on_heap_run _ l _ _ Hrun)). unfold put_timer. rewrite M_modify.
  eexists. split; [reflexivity|]. split; [|done]. apply (timers_ok_put l s h); [done|by eexists|by apply (keeps_remove _ _ _ _ _ _ eq_refl Hrun)| |done|exact (to_repeat l Hok h t Ht)].
  rewrite active_stop. apply less_outside; [set_solver|done].
Qed.

Lemma clamped_min time timeout :
  0 ≤ time < W64 → 0 ≤ timeout < W64 →
  (let clamped := u64 (time + timeout) in if clamped <? timeout then SIZE_MAX else clamped) = Z.min (time + timeout) SIZE_MAX.
Proof.
  intros Ht Hto. cbv zeta. unfold u64, SIZE_MAX.
  destruct (Z.lt_ge_cases (time + timeout) W64) as [H|H].
  - rewrite Z.mod_small by lia. case_bool; lia.
  - assert ((time + timeout) mod W64 = time + timeout - W64) as ->; [|case_bool; lia].
    symmetry. apply (Z.mod_unique_pos _ _ 1); lia.
Qed.

(** A timer that was just started. *)
Definition started (time timeout repeat counter : Z) : uv_timer_t :=
  {| tm_cb := true; tm_timeout := Z.min (time + timeout) SIZE_MAX; tm_repeat := repeat; tm_start_id := counter; tm_active := true |}.

Lemma timer_start_ok l h t timeout repeat :
  timers_ok l → tl_timers l !! h = Some t → 0 ≤ timeout < W64 → 0 ≤ repeat < W64 →
  ∃ l', uv_timer_start h true timeout repeat l = Some (0, l') ∧ timers_ok l' ∧ same_clock l l' ∧
    tl_counter l' = u64 (tl_counter l + 1) ∧
    tl_timers l' = <[h := started (tl_time l) timeout repeat (tl_counter l)]> (tl_timers l).
Proof.
  intros Hok Ht Hto Hre. unfold uv_timer_start. cbn [negb]. rewrite (bind_Some _ _ _ _ _ (timer_run l h t Ht)).
  assert (∃ l1, (if tm_active t then uv_timer_stop h else mret 0) l = Some (0, l1) ∧ timers_ok l1 ∧ same_clock l l1 ∧
    tl_counter l1 = tl_counter l ∧ tl_timers l1 = <[h := set_active false t]> (tl_timers l)) as (l1 & Hrun & Hok1 & [Hc1 Hf1] & Hn1 & Hts1).
  { destruct (tm_active t) eqn:Ha; [by apply timer_stop_ok|]. exists l. split_and!; try done. rewrite insert_id; [done|].
    rewrite Ht. destruct t. simpl in *. by subst. }
  rewrite (bind_Some _ _ _ _ _ Hrun), M_get. cbv zeta. pose proof (to_time l1 Hok1) as Htime.
  pose proof (clamped_min (tl_time l1) timeout ltac:(lia) Hto) as Hcl. cbv zeta in Hcl. rewrite Hcl.
  unfold put_timer. rewrite !M_modify, M_get. cbn [tl_timers set_counter set_timers tl_time tl_counter].
  set (t1 := {| tm_cb := true; tm_timeout := _; tm_repeat := _; tm_start_id := _; tm_active := false |}).
  set (l2 := set_counter _ _). assert (tl_timers l1 !! h = Some (set_active false t)) as Ht1 by (by rewrite Hts1, lookup_insert_eq).
  assert (h ∉ active (tl_timers l1)) as Hout by (intros (u & Hu & ?)%elem_of_active; rewrite Ht1 in Hu; by simplify_eq).
  destruct (heap_insert_ok (timer_less_than (tl_timers l2)) (timer_less_le _) (timer_less_trans _) (tl_heap l1) (active (tl_timers l1)) h)
    as (s & Hins & Hs & _).
  { by apply less_outside, to_heap. }
  { done. }
  { apply elem_of_dom, (to_nodes l1 Hok1), elem_of_dom. by eexists. }
  { by apply (heap_room l1 h (set_active false t)). }
  rewrite (bind_Some _ _ _ _ _ (on_heap_run _ l2 _ s Hins)).
  assert (tl_timers (set_timer_heap s l2) !! h = Some t1) as Ht2 by apply lookup_insert_eq.
  rewrite (bind_Some _ _ _ _ _ (timer_run _ h t1 Ht2)), M_modify.
  eexists. split; [reflexivity|]. cbn [tl_counter tl_timers set_timers set_timer_heap l2 set_counter].
  rewrite insert_insert_eq. split_and!; [|done|by rewrite Hn1| ].
  - assert (timers_ok (set_timers (<[h := set_active true t1]> (tl_timers l1)) (set_timer_heap s l1))) as [].
    { apply timers_ok_put; [done|by eexists|by apply (keeps_insert _ _ _ _ _ _ eq_refl Hins)| |done|done].
      rewrite active_start by done. revert Hs. apply heap_ok_ext. intros a b _ _. symmetry. apply less_active. }
    by split.
  - unfold t1, set_active, started. simpl. by rewrite Hts1, insert_insert_eq, Hc1, Hn1.
Qed.
