(* ===== verification/UvTimerRun.v ===== *)
(** Programs of timer calls, and the round of [uv__run_timers]. *)
From stdpp Require Import base numbers list option gmap sets.
From Stdlib Require Import ZArith Lia Sorting.Sorted.
From S2P Require Import Prelude UvHeap UvHeapRun UvTimer.

Local Open Scope Z_scope.
Local Open Scope c_scope.

(** ** Calls *)

Inductive timer_op :=
  | TInit (h : nat)
  | TStart (h : nat) (cb : bool) (timeout repeat : Z)
  | TStop (h : nat)
  | TAgain (h : nat)
  | TSetRepeat (h : nat) (repeat : Z)
  | TGetRepeat (h : nat)
  | TClose (h : nat)
  | TNext.

Definition do_op (op : timer_op) : M timer_loop Z :=
  match op with
  | TInit h => uv_timer_init h
  | TStart h cb timeout repeat => uv_timer_start h cb timeout repeat
  | TStop h => uv_timer_stop h
  | TAgain h => uv_timer_again h
  | TSetRepeat h repeat => uv_timer_set_repeat h repeat;; mret 0
  | TGetRepeat h => uv_timer_get_repeat h
  | TClose h => uv__timer_close h;; mret 0
  | TNext => uv__next_timeout
  end.

Fixpoint do_ops (ops : list timer_op) : M timer_loop (list Z) :=
  match ops with
  | [] => mret []
  | op :: ops => r ← do_op op; rs ← do_ops ops; mret (r :: rs)
  end.

(** ** Specification: timers without a heap *)

Definition timers : Type := Z * gmap nat uv_timer_t.
Definition timers_of (l : timer_loop) : timers := (tl_counter l, tl_timers l).

Definition initialised (t : uv_timer_t) : uv_timer_t :=
  {| tm_cb := false; tm_timeout := tm_timeout t; tm_repeat := 0; tm_start_id := tm_start_id t; tm_active := false |}.

Definition timeouts (ts : gmap nat uv_timer_t) : list Z :=
  (tm_timeout ∘ snd) <$> filter (λ kt, tm_active kt.2 = true) (map_to_list ts).

(** The wait until the earliest of the timeouts. *)
Definition wait_for (time : Z) (xs : list Z) : Z :=
  match xs with
  | [] => -1
  | x :: xs => Z.min (Z.max 0 (foldr Z.min x xs - time)) INT_MAX
  end.

Definition spec_start (time : Z) (h : nat) (timeout repeat : Z) (a : timers) : timers :=
  (u64 (a.1 + 1), <[h := started time timeout repeat a.1]> a.2).

Definition spec_op (time : Z) (op : timer_op) (a : timers) : Z * timers :=
  match op with
  | TInit h => (0, (a.1, alter initialised h a.2))
  | TStart h cb timeout repeat => if cb then (0, spec_start time h timeout repeat a) else (UV_EINVAL, a)
  | TStop h | TClose h => (0, (a.1, alter (set_active false) h a.2))
  | TAgain h =>
      match a.2 !! h with
      | Some t =>
          if negb (tm_cb t) then (UV_EINVAL, a)
          else if tm_repeat t =? 0 then (0, a)
          else (0, spec_start time h (tm_repeat t) (tm_repeat t) a)
      | None => (0, a)
      end
  | TSetRepeat h repeat => (0, (a.1, alter (set_repeat repeat) h a.2))
  | TGetRepeat h => (default 0 (tm_repeat <$> a.2 !! h), a)
  | TNext => (wait_for time (timeouts a.2), a)
  end.

Fixpoint spec_ops (time : Z) (ops : list timer_op) (a : timers) : list Z * timers :=
  match ops with
  | [] => ([], a)
  | op :: ops => let '(r, a) := spec_op time op a in let '(rs, a) := spec_ops time ops a in (r :: rs, a)
  end.

Definition handle (op : timer_op) : option nat :=
  match op with
  | TInit h | TStart h _ _ _ | TStop h | TAgain h | TSetRepeat h _ | TGetRepeat h | TClose h => Some h
  | TNext => None
  end.

(** The numbers of a call are 64-bit. *)
Definition in_range (op : timer_op) : Prop :=
  match op with
  | TStart _ _ timeout repeat => 0 ≤ timeout < W64 ∧ 0 ≤ repeat < W64
  | TSetRepeat _ repeat => 0 ≤ repeat < W64
  | _ => True
  end.

(** A call on a handle; only an inactive one is initialised. *)
Definition valid_op (ts : gmap nat uv_timer_t) (op : timer_op) : Prop :=
  in_range op ∧ (∀ h, handle op = Some h → is_Some (ts !! h)) ∧
  (∀ h, op = TInit h → h ∉ active ts).

Fixpoint valid_ops (time : Z) (ops : list timer_op) (a : timers) : Prop :=
  match ops with
  | [] => True
  | op :: ops => valid_op a.2 op ∧ valid_ops time ops (spec_op time op a).2
  end.

(** ** Each call *)

Lemma put_ok l h t u :
  timers_ok l → tl_timers l !! h = Some t →
  active (<[h := u]> (tl_timers l)) = active (tl_timers l) →
  (h ∉ active (tl_timers l) ∨ tm_timeout u = tm_timeout t ∧ tm_start_id u = tm_start_id t) →
  (tm_active u = true → tm_cb u = true) → 0 ≤ tm_repeat u < W64 →
  timers_ok (set_timers (<[h := u]> (tl_timers l)) l).
Proof.
  intros Hok Ht Hact Hsame Hcb Hr. pose proof (timers_ok_put l (tl_heap l) h u Hok ltac:(by eexists) eq_refl) as Hput.
  replace l with (set_timer_heap (tl_heap l) l) at 2 by (by destruct l). apply Hput; [|done|done]. rewrite Hact.
  destruct Hsame as [Hout|[Hto Hid]]; [by apply less_outside, to_heap|].
  generalize (to_heap l Hok). apply heap_ok_ext. intros a b _ _. unfold timer_less_than, timer_of.
  rewrite !lookup_insert. unfold less. repeat (case_decide; subst); rewrite ?Ht; simpl; by rewrite ?Hto, ?Hid.
Qed.

Lemma active_same ts h t u : ts !! h = Some t → tm_active u = tm_active t → active (<[h := u]> ts) = active ts.
Proof.
  intros Ht Hu. apply set_eq. intros g. rewrite !elem_of_active, lookup_insert. case_decide; [subst|done].
  rewrite Ht. naive_solver.
Qed.

Lemma timer_again_ok l h t :
  timers_ok l → tl_timers l !! h = Some t →
  ∃ l' r, uv_timer_again h l = Some (r, l') ∧ timers_ok l' ∧ same_clock l l' ∧ spec_op (tl_time l) (TAgain h) (timers_of l) = (r, timers_of l').
Proof.
  intros Hok Ht. unfold uv_timer_again. rewrite (bind_Some _ _ _ _ _ (timer_run l h t Ht)). cbn [spec_op timers_of fst snd].
  rewrite Ht. destruct (tm_cb t) eqn:Hcb; cbn [negb]; [|by exists l, UV_EINVAL].
  destruct (tm_repeat t =? 0) eqn:Hr; cbn [negb]; [by exists l, 0|].
  destruct (timer_stop_ok l h t Hok Ht) as (l1 & Hrun1 & Hok1 & [Hc1 Hf1] & Hn1 & Hts1). rewrite (bind_Some _ _ _ _ _ Hrun1).
  pose proof (to_repeat l Hok h t Ht) as Hrange.
  destruct (timer_start_ok l1 h (set_active false t) (tm_repeat t) (tm_repeat t)) as (l2 & Hrun2 & Hok2 & [Hc2 Hf2] & Hn2 & Hts2); try done.
  { by rewrite Hts1, lookup_insert_eq. }
  rewrite (bind_Some _ _ _ _ _ Hrun2). exists l2, 0. split_and!; [done|done|split; congruence|].
  unfold spec_start, timers_of. simpl. by rewrite Hts2, Hn2, Hts1, insert_insert_eq, Hc1, Hn1.
Qed.

Lemma foldr_min_le xs x : ∀ y, y ∈ x :: xs → foldr Z.min x xs ≤ y.
Proof.
  induction xs as [|z xs IH]; intros y Hy; simpl.
  - apply list_elem_of_singleton in Hy. lia.
  - apply elem_of_cons in Hy as [->|[->|Hy]%elem_of_cons]; [|lia|].
    + pose proof (IH x ltac:(left)). lia.
    + pose proof (IH y ltac:(by right)). lia.
Qed.

Lemma foldr_min_in xs x : foldr Z.min x xs ∈ x :: xs.
Proof.
  induction xs as [|z xs IH]; simpl; [by left|].
  destruct (Z.min_spec z (foldr Z.min x xs)) as [[_ ->]|[_ ->]]; [right; by left|].
  apply elem_of_cons in IH as [->|IH]; [by left|right; by right].
Qed.

Lemma elem_of_timeouts ts x : x ∈ timeouts ts ↔ ∃ h t, ts !! h = Some t ∧ tm_active t = true ∧ x = tm_timeout t.
Proof.
  unfold timeouts. rewrite list_elem_of_fmap. split.
  - intros ([h t] & -> & [Ha Hin]%list_elem_of_filter). apply elem_of_map_to_list in Hin. by exists h, t.
  - intros (h & t & Ht & Ha & ->). exists (h, t). split; [done|]. apply list_elem_of_filter. split; [done|]. by apply elem_of_map_to_list.
Qed.

Lemma heap_min_run l : on_heap heap_min l = Some (hp_min (hs_heap (tl_heap l)), l).
Proof. unfold on_heap, heap_min, zoom. rewrite M_get. simpl. by destruct l. Qed.

(** The root of the heap is the first timer. *)
Lemma min_first l :
  timers_ok l →
  match hp_min (hs_heap (tl_heap l)) with
  | None => active (tl_timers l) = ∅
  | Some h => ∃ t, tl_timers l !! h = Some t ∧ tm_active t = true ∧
      ∀ g u, tl_timers l !! g = Some u → tm_active u = true → less u t = false
  end.
Proof.
  intros Hok. pose proof (heap_min_ok _ (timer_less_le _) (timer_less_trans _) _ _ (to_heap l Hok)) as Hmin.
  destruct (hp_min _) as [h|]; [|done]. destruct Hmin as [(t & Ht & Ha)%elem_of_active Hle]. exists t. split_and!; [done|done|].
  intros g u Hu Hua. specialize (Hle g). unfold timer_less_than, timer_of in Hle. rewrite Ht, Hu in Hle. apply Hle, elem_of_active. by exists u.
Qed.

Lemma less_timeout t u : less u t = false → tm_timeout t ≤ tm_timeout u.
Proof. unfold less. repeat case_bool; try done; lia. Qed.

Lemma next_timeout_ok l : timers_ok l → uv__next_timeout l = Some (wait_for (tl_time l) (timeouts (tl_timers l)), l).
Proof.
  intros Hok. unfold uv__next_timeout. rewrite (bind_Some _ _ _ _ _ (heap_min_run l)). pose proof (min_first l Hok) as Hmin.
  destruct (hp_min _) as [h|].
  - destruct Hmin as (t & Ht & Ha & Hle). rewrite (bind_Some _ _ _ _ _ (timer_run l h t Ht)), M_get.
    assert (tm_timeout t ∈ timeouts (tl_timers l)) as Hin by (apply elem_of_timeouts; by exists h, t).
    assert (wait_for (tl_time l) (timeouts (tl_timers l)) = Z.min (Z.max 0 (tm_timeout t - tl_time l)) INT_MAX) as ->.
    { destruct (timeouts (tl_timers l)) as [|x xs] eqn:E; [by apply not_elem_of_nil in Hin|]. cbn [wait_for]. repeat f_equal.
      pose proof (foldr_min_le xs x _ Hin). pose proof (foldr_min_in xs x) as Hf. rewrite <- E in Hf.
      apply elem_of_timeouts in Hf as (g & u & Hu & Hua & Hx). pose proof (less_timeout t u (Hle g u Hu Hua)). lia. }
    unfold INT_MAX. cbv zeta. repeat case_bool; unfold mret, M_ret; do 2 f_equal; lia.
  - destruct (timeouts (tl_timers l)) as [|x xs] eqn:E; [done|].
    assert (x ∈ timeouts (tl_timers l)) as (h & t & Ht & Ha & _)%elem_of_timeouts by (rewrite E; left).
    assert (h ∈ active (tl_timers l)) as Hin by (apply elem_of_active; by exists t). set_solver.
Qed.

Lemma set_timers_id l : set_timers (tl_timers l) l = l.
Proof. by destruct l. Qed.

Lemma op_run l op :
  timers_ok l → valid_op (tl_timers l) op →
  ∃ r l', do_op op l = Some (r, l') ∧ timers_ok l' ∧ same_clock l l' ∧ spec_op (tl_time l) op (timers_of l) = (r, timers_of l').
Proof.
  intros Hok (Hr & Hh & Hinit). destruct op as [h|h cb timeout repeat|h|h|h repeat|h|h|]; cbn [do_op spec_op timers_of fst snd];
    try (destruct (Hh h eq_refl) as [t Ht]).
  - unfold uv_timer_init. rewrite (bind_Some _ _ _ _ _ (timer_run l h t Ht)). unfold put_timer. rewrite M_modify.
    assert (h ∉ active (tl_timers l)) as Hout by (by apply Hinit).
    assert (tm_active t = false) as Ha by (destruct (tm_active t) eqn:E; [destruct Hout; apply elem_of_active; by exists t|done]).
    eexists _, _. split; [reflexivity|]. split; [|split; [done|]].
    + apply (put_ok l h t (initialised t)); [done|done|by apply (active_same _ _ t)|by left|done|done].
    + unfold timers_of. cbn [tl_counter tl_timers set_timers]. by rewrite (alter_here _ _ _ t Ht).
  - destruct cb; [|by exists UV_EINVAL, l]. destruct Hr as [Hr1 Hr2].
    destruct (timer_start_ok l h t timeout repeat Hok Ht Hr1 Hr2) as (l' & Hrun & Hok' & Hc & Hn & Hts). exists 0, l'.
    split_and!; [done|done|done|]. unfold spec_start, timers_of. simpl. by rewrite Hn, Hts.
  - destruct (timer_stop_ok l h t Hok Ht) as (l' & Hrun & Hok' & Hc & Hn & Hts). exists 0, l'.
    split_and!; [done|done|done|]. unfold timers_of. by rewrite Hn, Hts, (alter_here _ _ _ t Ht).
  - destruct (timer_again_ok l h t Hok Ht) as (l' & r & Hagain). by exists r, l'.
  - unfold uv_timer_set_repeat. rewrite M_assoc, (bind_Some _ _ _ _ _ (timer_run l h t Ht)). unfold put_timer. rewrite M_modify.
    eexists _, _. split; [reflexivity|]. split; [|split; [done|]].
    + apply (put_ok l h t (set_repeat repeat t)); [done|done|by apply (active_same _ _ t)|by right| |done]. exact (to_cb l Hok h t Ht).
    + unfold timers_of. cbn [tl_counter tl_timers set_timers]. by rewrite (alter_here _ _ _ t Ht).
  - unfold uv_timer_get_repeat. rewrite (bind_Some _ _ _ _ _ (timer_run l h t Ht)). exists (tm_repeat t), l. by rewrite Ht.
  - destruct (timer_stop_ok l h t Hok Ht) as (l' & Hrun & Hok' & Hc & Hn & Hts). exists 0, l'.
    unfold uv__timer_close. rewrite M_assoc, (bind_Some _ _ _ _ _ Hrun).
    split_and!; [done|done|done|]. unfold timers_of. by rewrite Hn, Hts, (alter_here _ _ _ t Ht).
  - eexists _, l. by rewrite next_timeout_ok.
Qed.

Lemma ops_run ops : ∀ l,
  timers_ok l → valid_ops (tl_time l) ops (timers_of l) →
  ∃ rs l', do_ops ops l = Some (rs, l') ∧ timers_ok l' ∧ same_clock l l' ∧
    spec_ops (tl_time l) ops (timers_of l) = (rs, timers_of l').
Proof.
  induction ops as [|op ops IH]; intros l Hok Hv; [by exists [], l|]. destruct Hv as [Hv1 Hv2]. cbn [do_ops spec_ops].
  destruct (op_run l op Hok Hv1) as (r & l1 & Hrun1 & Hok1 & [Hc1 Hf1] & Hs1). rewrite (bind_Some _ _ _ _ _ Hrun1), Hs1.
  rewrite Hs1 in Hv2. cbn [snd] in Hv2. rewrite <- Hc1 in Hv2.
  destruct (IH l1 Hok1 Hv2) as (rs & l2 & Hrun2 & Hok2 & [Hc2 Hf2] & Hs2). rewrite (bind_Some _ _ _ _ _ Hrun2), <- Hc1, Hs2.
  exists (r :: rs), l2. split_and!; [done|done|split; congruence|done].
Qed.

(** ** A round of timers *)

Definition due (time : Z) (ts : gmap nat uv_timer_t) : gset nat :=
  dom (filter (λ '(_, t), tm_active t = true ∧ tm_timeout t ≤ time) ts).

Lemma elem_of_due time ts h :
  h ∈ due time ts ↔ ∃ t, ts !! h = Some t ∧ tm_active t = true ∧ tm_timeout t ≤ time.
Proof.
  unfold due. rewrite elem_of_dom. split.
  - intros [t Ht]. apply map_lookup_filter_Some in Ht as [? [? ?]]. by exists t.
  - intros (t & Ht & Ha & Hd). exists t. by apply map_lookup_filter_Some.
Qed.

(** A call of a callback that leaves no timer due at once: no handle is initialised anew and
    no timer is started with timeout 0. *)
Definition calm (op : timer_op) : Prop :=
  match op with TInit _ => False | TStart _ cb timeout _ => cb = true → 1 ≤ timeout | _ => True end.

(** The timer that a call stops or starts. *)
Definition moves (op : timer_op) : option nat :=
  match op with TInit h | TStart h _ _ _ | TStop h | TAgain h | TClose h => Some h | _ => None end.

Definition calm_callbacks (ts : gmap nat uv_timer_t) (cb : nat → list timer_op) : Prop :=
  ∀ h op, op ∈ cb h → calm op ∧ in_range op ∧ ∀ g, handle op = Some g → is_Some (ts !! g).

(** Due timers that are left were due before, at the same place. *)
Definition fewer_due (time : Z) (ts ts' : gmap nat uv_timer_t) : Prop :=
  ∀ h t', ts' !! h = Some t' → tm_active t' = true → tm_timeout t' ≤ time →
  ∃ t, ts !! h = Some t ∧ tm_active t = true ∧ tm_timeout t = tm_timeout t' ∧ tm_start_id t = tm_start_id t'.

#[export] Instance fewer_due_preorder time : PreOrder (fewer_due time).
Proof.
  split; [intros ts h t'; by exists t'|]. intros x y z Hxy Hyz h t Ht Ha Hd.
  destruct (Hyz h t Ht Ha Hd) as (u & Hu & Hua & Hto & Hid). destruct (Hxy h u Hu Hua ltac:(lia)) as (v & Hv & Hva & ? & ?).
  exists v. split_and!; congruence.
Qed.

Lemma fewer_due_put time ts h t u :
  ts !! h = Some t →
  (tm_active u = true → tm_timeout u ≤ time → tm_active t = true ∧ tm_timeout t = tm_timeout u ∧ tm_start_id t = tm_start_id u) →
  fewer_due time ts (<[h := u]> ts).
Proof.
  intros Ht Hu g v. rewrite lookup_insert. case_decide; [subst; intros [= <-] Ha Hd; by exists t; naive_solver|].
  intros Hv Ha Hd. by exists v.
Qed.

Lemma started_later time timeout repeat counter :
  time < W64 - 1 → 1 ≤ timeout → time < tm_timeout (started time timeout repeat counter).
Proof. unfold started, SIZE_MAX. simpl. lia. Qed.

(** One calm call. *)
Lemma calm_op time op a :
  time < W64 - 1 → calm op → in_range op → (∀ h, handle op = Some h → is_Some (a.2 !! h)) →
  (∀ h t, a.2 !! h = Some t → 0 ≤ tm_repeat t) →
  let a' := (spec_op time op a).2 in
  fewer_due time a.2 a'.2 ∧ dom a'.2 = dom a.2 ∧ ∀ h, moves op ≠ Some h → h ∈ due time a.2 → h ∈ due time a'.2.
Proof.
  intros Htime Hc Hr Hh Hpos. destruct a as [n ts]. cbn [fst snd] in *.
  assert (∀ h t u, ts !! h = Some t →
    (tm_active u = true → tm_timeout u ≤ time → tm_active t = true ∧ tm_timeout t = tm_timeout u ∧ tm_start_id t = tm_start_id u) →
    (moves op ≠ Some h → tm_active u = tm_active t ∧ tm_timeout u = tm_timeout t) →
    fewer_due time ts (<[h := u]> ts) ∧ dom (<[h := u]> ts) = dom ts ∧
    ∀ g, moves op ≠ Some g → g ∈ due time ts → g ∈ due time (<[h := u]> ts)) as Hput.
  { intros h t u Ht Hu Hm. split; [by apply (fewer_due_put _ _ _ t)|]. split; [by rewrite dom_insert_lookup_L|].
    intros g Hg (v & Hv & Ha & Hd)%elem_of_due. apply elem_of_due. rewrite lookup_insert. case_decide; [subst|by exists v].
    exists u. destruct (Hm Hg). simplify_eq. split_and!; congruence. }
  assert (∀ h t timeout repeat, ts !! h = Some t → 1 ≤ timeout → moves op = Some h →
    let ts' := <[h := started time timeout repeat n]> ts in
    fewer_due time ts ts' ∧ dom ts' = dom ts ∧ ∀ g, moves op ≠ Some g → g ∈ due time ts → g ∈ due time ts') as Hstart.
  { intros h t timeout repeat Ht H1 Hm. apply (Hput h t); [done| |done]. intros _ Hd.
    pose proof (started_later time timeout repeat n Htime H1). lia. }
  destruct op as [h|h cb timeout repeat|h|h|h repeat|h|h|]; cbn [spec_op snd fst] in *; try done;
    try (destruct (Hh h eq_refl) as [t Ht]); try rewrite (alter_here _ _ _ t Ht).
  - destruct cb; [|done]. by apply (Hstart h t); [|apply Hc|].
  - by apply (Hput h t).
  - rewrite Ht. destruct (negb (tm_cb t)); [done|]. destruct (Z.eqb_spec (tm_repeat t) 0); [done|].
    pose proof (Hpos h t Ht). by apply (Hstart h t); [|lia|].
  - by apply (Hput h t).
  - by apply (Hput h t).
Qed.

(** What calm calls leave of the due timers. *)
Definition calm_step (ops : list timer_op) (l l' : timer_loop) : Prop :=
  timers_ok l' ∧ same_clock l l' ∧ (spec_ops (tl_time l) ops (timers_of l)).2 = timers_of l' ∧
  fewer_due (tl_time l) (tl_timers l) (tl_timers l') ∧ dom (tl_timers l') = dom (tl_timers l) ∧
  ∀ h, Forall (λ op, moves op ≠ Some h) ops → h ∈ due (tl_time l) (tl_timers l) → h ∈ due (tl_time l) (tl_timers l').

Definition calm_in (ts : gmap nat uv_timer_t) (op : timer_op) : Prop :=
  calm op ∧ in_range op ∧ ∀ h, handle op = Some h → is_Some (ts !! h).

Lemma calm_ops_run ops : ∀ l,
  timers_ok l → Forall (calm_in (tl_timers l)) ops → ∃ rs l', do_ops ops l = Some (rs, l') ∧ calm_step ops l l'.
Proof.
  induction ops as [|op ops IH]; intros l Hok Hc; [exists [], l; by split_and!|]. apply Forall_cons in Hc as [(Hc1 & Hr1 & Hh1) Hc].
  cbn [do_ops]. destruct (op_run l op Hok) as (r & l1 & Hrun1 & Hok1 & [Ht1 Hf1] & Hs1).
  { split_and!; [done|done|]. by intros h ->. }
  rewrite (bind_Some _ _ _ _ _ Hrun1). pose proof (to_time l Hok) as Htime.
  destruct (calm_op (tl_time l) op (timers_of l)) as (Hfew & Hdom & Hdue); [lia|done|done|done| |].
  { intros h t Ht. by apply (to_repeat l Hok h t) in Ht as [? _]. }
  rewrite Hs1 in Hfew, Hdom, Hdue. cbn [fst snd timers_of] in Hfew, Hdom, Hdue.
  destruct (IH l1 Hok1) as (rs & l2 & Hrun2 & Hok2 & [Ht2 Hf2] & Hs2 & Hfew2 & Hdom2 & Hdue2).
  { eapply Forall_impl; [exact Hc|]. intros o (? & ? & Ho). split_and!; [done|done|]. intros h Hh. apply elem_of_dom. rewrite Hdom.
    by apply elem_of_dom, Ho. }
  rewrite (bind_Some _ _ _ _ _ Hrun2). exists (r :: rs), l2. split; [done|]. rewrite Ht1 in Hs2, Hfew2, Hdue2.
  split_and!; [done|split; congruence| |by transitivity (tl_timers l1)|congruence|].
  - cbn [spec_ops]. rewrite Hs1. destruct (spec_ops _ _ _) eqn:E. simpl in *. done.
  - intros h [Hm1 Hm2]%Forall_cons Hd. apply Hdue2; [done|]. by apply Hdue.
Qed.

(** A timer fires: it is stopped, and started again when it repeats. *)
Lemma fire_run l h t :
  timers_ok l → tl_timers l !! h = Some t → tm_active t = true →
  ∃ l1 l2 u r, uv_timer_stop h l = Some (0, l1) ∧ uv_timer_again h l1 = Some (r, l2) ∧
    calm_step [TStop h; TAgain h] l l2 ∧ tl_timers l2 !! h = Some u ∧ tm_cb u = true ∧ h ∉ due (tl_time l) (tl_timers l2).
Proof.
  intros Hok Ht Ha. destruct (calm_ops_run [TStop h; TAgain h] l Hok) as (rs & l2 & Hrun & Hstep).
  { repeat (apply Forall_cons; split); [..|by apply Forall_nil]; (split_and!; [done|done|]); intros g [= <-]; by eexists. }
  cbn [do_ops do_op] in Hrun.
  destruct (timer_stop_ok l h t Hok Ht) as (l1 & Hrun1 & Hok1 & [Hc1 _] & Hn1 & Hts1). rewrite (bind_Some _ _ _ _ _ Hrun1) in Hrun.
  assert (tl_timers l1 !! h = Some (set_active false t)) as Ht1 by (by rewrite Hts1, lookup_insert_eq).
  destruct (timer_again_ok l1 h _ Hok1 Ht1) as (l2' & r & Hrun2 & Hok2 & _ & Hs2). rewrite M_assoc, (bind_Some _ _ _ _ _ Hrun2) in Hrun.
  change (Some ([0; r], l2') = Some (rs, l2)) in Hrun. assert (l2' = l2) as -> by congruence.
  pose proof (to_cb l Hok h t Ht Ha) as Hcb. pose proof (to_repeat l Hok h t Ht) as Hrep. pose proof (to_time l Hok) as Htime.
  cbn [spec_op timers_of fst snd] in Hs2. rewrite Ht1 in Hs2. simpl in Hs2. rewrite Hcb in Hs2. cbn [negb] in Hs2.
  exists l1, l2. destruct (Z.eqb_spec (tm_repeat t) 0) as [H0|H0].
  - injection Hs2 as _ _ Hts2. rewrite Hts2 in Ht1. exists (set_active false t), r. split_and!; try done.
    intros (v & Hv & Hva & _)%elem_of_due. rewrite Ht1 in Hv. by simplify_eq.
  - injection Hs2 as _ _ Hts2. assert (tl_timers l2 !! h = Some (started (tl_time l1) (tm_repeat t) (tm_repeat t) (tl_counter l1))) as Hu
      by (by rewrite <- Hts2, lookup_insert_eq). eexists _, r. split_and!; try done.
    intros (v & Hv & _ & Hvd)%elem_of_due. rewrite Hu in Hv. simplify_eq.
    pose proof (started_later (tl_time l1) (tm_repeat t) (tm_repeat t) (tl_counter l1) ltac:(lia) ltac:(lia)). lia.
Qed.

(** The callbacks of a list of timers, in order. *)
Definition spec_round (time : Z) (cb : nat → list timer_op) (fs : list nat) (a : timers) : timers :=
  foldl (λ a h, (spec_ops time (TStop h :: TAgain h :: cb h) a).2) a fs.

Lemma spec_ops_app time ops1 ops2 a : (spec_ops time (ops1 ++ ops2) a).2 = (spec_ops time ops2 (spec_ops time ops1 a).2).2.
Proof.
  revert a. induction ops1 as [|op ops1 IH]; intros a; [done|]. cbn [app spec_ops]. destruct (spec_op time op a) as [r a1].
  specialize (IH a1). destruct (spec_ops time (ops1 ++ ops2) a1), (spec_ops time ops1 a1). done.
Qed.

(** What the callbacks of a round are given. *)
Definition callbacks (cb : nat → list timer_op) (h : nat) : M timer_loop unit := do_ops (cb h);; mret tt.

Record round_ok (cb : nat → list timer_op) (l l' : timer_loop) (fs : list nat) : Prop := {
  ro_timers : timers_ok l';
  ro_time : tl_time l' = tl_time l;
  ro_fired : tl_fired l' = tl_fired l ++ fs;
  ro_spec : timers_of l' = spec_round (tl_time l) cb fs (timers_of l);
  ro_order : StronglySorted (λ g h, timer_less_than (tl_timers l) h g = false) fs;
  ro_once : NoDup fs;
  ro_due : ∀ h, h ∈ fs → h ∈ due (tl_time l) (tl_timers l);
  ro_all : ∀ h, h ∈ due (tl_time l) (tl_timers l) → h ∈ fs ∨ ∃ g op, g ∈ fs ∧ op ∈ cb g ∧ moves op = Some h;
  ro_none : due (tl_time l) (tl_timers l') = ∅;
}.

(** Timers that are left due compare as before. *)
Lemma fewer_due_less time ts ts' a b :
  fewer_due time ts ts' → a ∈ due time ts' → b ∈ due time ts' → timer_less_than ts a b = timer_less_than ts' a b.
Proof.
  intros Hf (t & Ht & Ha & Hd)%elem_of_due (u & Hu & Hua & Hud)%elem_of_due.
  destruct (Hf a t Ht Ha Hd) as (t' & Ht' & _ & E1 & E2). destruct (Hf b u Hu Hua Hud) as (u' & Hu' & _ & E3 & E4).
  unfold timer_less_than, timer_of, less. rewrite Ht, Hu, Ht', Hu'. simpl. by rewrite E1, E2, E3, E4.
Qed.

Lemma fewer_due_sub time ts ts' : fewer_due time ts ts' → due time ts' ⊆ due time ts.
Proof.
  intros Hf h (t & Ht & Ha & Hd)%elem_of_due. destruct (Hf h t Ht Ha Hd) as (u & Hu & Hua & Hto & _).
  apply elem_of_due. exists u. split_and!; [done|done|lia].
Qed.

Lemma sorted_impl {A} (R1 R2 : A → A → Prop) l :
  (∀ a b, a ∈ l → b ∈ l → R1 a b → R2 a b) → StronglySorted R1 l → StronglySorted R2 l.
Proof.
  intros HR. induction 1 as [|a l Hs IH Ha]; constructor.
  - apply IH. intros x y Hx Hy. apply HR; by right.
  - rewrite Forall_forall in Ha |- *. intros x Hx. apply HR; [by left|by right|by apply Ha].
Qed.

(** The first timer of the round, then the others. *)
Lemma round_cons cb l l1 l' h fs :
  tl_time l1 = tl_time l → tl_fired l1 = tl_fired l ++ [h] →
  (spec_ops (tl_time l) (TStop h :: TAgain h :: cb h) (timers_of l)).2 = timers_of l1 →
  fewer_due (tl_time l) (tl_timers l) (tl_timers l1) →
  (∀ g, g ≠ h → Forall (λ op, moves op ≠ Some g) (cb h) → g ∈ due (tl_time l) (tl_timers l) → g ∈ due (tl_time l) (tl_timers l1)) →
  h ∈ due (tl_time l) (tl_timers l) → h ∉ due (tl_time l) (tl_timers l1) →
  (∀ g, g ∈ due (tl_time l) (tl_timers l) → timer_less_than (tl_timers l) g h = false) →
  round_ok cb l1 l' fs → round_ok cb l l' (h :: fs).
Proof.
  intros Htime Hfired Hspec Hfew Hkeep Hh Hh1 Hmin []. rewrite Htime in *. pose proof (fewer_due_sub _ _ _ Hfew) as Hsub. split; try done.
  - rewrite ro_fired0, Hfired, <- (assoc_L (++)). done.
  - unfold spec_round. cbn [foldl]. by rewrite Hspec.
  - constructor.
    + eapply sorted_impl; [|exact ro_order0]. intros a b Ha Hb Hab. cbv beta.
      by rewrite (fewer_due_less (tl_time l) _ (tl_timers l1)); auto.
    + apply Forall_forall. intros g Hg. by apply Hmin, Hsub, ro_due0.
  - constructor; [|done]. intros Hin. by apply Hh1, ro_due0.
  - intros g [->|Hg]%elem_of_cons; [done|]. by apply Hsub, ro_due0.
  - intros g Hg. destruct (decide (g = h)) as [->|Hne]; [left; by left|].
    destruct (decide (Exists (λ op, moves op = Some g) (cb h))) as [(op & Hop & Hm)%Exists_exists|Hno].
    { right. exists h, op. split_and!; [by left|done|done]. }
    destruct (ro_all0 g) as [Hin|(f & op & Hf & Hop & Hm)].
    + apply Hkeep; [done| |done]. by apply Forall_Exists_neg in Hno.
    + left. by right.
    + right. exists f, op. split_and!; [by right|done|done].
Qed.

Lemma round_nil cb l : timers_ok l → due (tl_time l) (tl_timers l) = ∅ → round_ok cb l l [].
Proof.
  intros Hok Hnone. split; try done; rewrite ?app_nil_r; try done; try constructor; try set_solver.
Qed.

Lemma calm_in_dom ts ts' op : dom ts' = dom ts → calm_in ts op → calm_in ts' op.
Proof. intros Hd (? & ? & Hh). split_and!; [done|done|]. intros h Ho. apply elem_of_dom. rewrite Hd. by apply elem_of_dom, Hh. Qed.

(** One timer fires and its callback runs. *)
Lemma round_step cb l h t :
  timers_ok l → Forall (calm_in (tl_timers l)) (cb h) → tl_timers l !! h = Some t → tm_active t = true →
  ∃ l1, (∀ k : M timer_loop unit,
      (uv_timer_stop h;; uv_timer_again h;; t ← timer h; TN_ASSERT (tm_cb t);; modify (add_fired h);; callbacks cb h;; k) l = k l1) ∧
    timers_ok l1 ∧ tl_time l1 = tl_time l ∧ tl_fired l1 = tl_fired l ++ [h] ∧ dom (tl_timers l1) = dom (tl_timers l) ∧
    (spec_ops (tl_time l) (TStop h :: TAgain h :: cb h) (timers_of l)).2 = timers_of l1 ∧
    fewer_due (tl_time l) (tl_timers l) (tl_timers l1) ∧
    (∀ g, g ≠ h → Forall (λ op, moves op ≠ Some g) (cb h) → g ∈ due (tl_time l) (tl_timers l) → g ∈ due (tl_time l) (tl_timers l1)) ∧
    h ∉ due (tl_time l) (tl_timers l1).
Proof.
  intros Hok Hcb Ht Ha. destruct (fire_run l h t Hok Ht Ha) as (l1 & l2 & u & r & Hrun1 & Hrun2 & (Hok2 & [Hc2 Hf2] & Hs2 & Hfew2 & Hdom2 & Hdue2) & Hu & Hucb & Hnd).
  assert (timers_ok (add_fired h l2)) as Hok3 by (destruct Hok2; by split).
  destruct (calm_ops_run (cb h) (add_fired h l2) Hok3) as (rs & l3 & Hrun3 & Hok4 & [Hc4 Hf4] & Hs4 & Hfew4 & Hdom4 & Hdue4).
  { eapply Forall_impl; [exact Hcb|]. intros op. by apply calm_in_dom. }
  cbn [add_fired tl_time tl_timers tl_fired timers_of tl_counter] in *. rewrite Hc2 in *.
  exists l3. split.
  { intros k. rewrite (bind_Some _ _ _ _ _ Hrun1), (bind_Some _ _ _ _ _ Hrun2), (bind_Some _ _ _ _ _ (timer_run l2 h u Hu)), Hucb, M_assert, M_modify.
    unfold callbacks. by rewrite M_assoc, (bind_Some _ _ _ _ _ Hrun3). }
  split_and!; [done|done|congruence|congruence| |by transitivity (tl_timers l2)| |].
  - change (TStop h :: TAgain h :: cb h) with ([TStop h; TAgain h] ++ cb h). by rewrite spec_ops_app, Hs2.
  - intros g Hg Hm Hd. apply Hdue4; [done|]. apply Hdue2; [|done]. repeat constructor; simpl; congruence.
  - intros Hin. by apply Hnd, (fewer_due_sub _ _ _ Hfew4).
Qed.

Lemma round_run cb fuel : ∀ l,
  timers_ok l → (∀ h, Forall (calm_in (tl_timers l)) (cb h)) → (size (due (tl_time l) (tl_timers l)) < fuel)%nat →
  ∃ l' fs, run_timers_loop (callbacks cb) fuel l = Some (tt, l') ∧ round_ok cb l l' fs.
Proof.
  induction fuel as [|fuel IH]; intros l Hok Hcb Hf; [lia|]. cbn [run_timers_loop]. rewrite (bind_Some _ _ _ _ _ (heap_min_run l)).
  pose proof (min_first l Hok) as Hmin. destruct (hp_min _) as [h|].
  2:{ exists l, []. split; [done|]. apply round_nil; [done|]. apply set_eq. intros h. split; [|set_solver].
      intros (t & Ht & Ha & _)%elem_of_due. assert (h ∈ active (tl_timers l)) by (apply elem_of_active; by exists t). set_solver. }
  destruct Hmin as (t & Ht & Ha & Hle). rewrite (bind_Some _ _ _ _ _ (timer_run l h t Ht)), M_get. destruct (Z.ltb_spec (tl_time l) (tm_timeout t)) as [Hd|Hd].
  { exists l, []. split; [done|]. apply round_nil; [done|]. apply set_eq. intros g. split; [|set_solver].
    intros (u & Hu & Hua & Hud)%elem_of_due. pose proof (less_timeout t u (Hle g u Hu Hua)). lia. }
  destruct (round_step cb l h t Hok (Hcb h) Ht Ha) as (l1 & Hrun & Hok1 & Htime & Hfired & Hdom & Hspec & Hfew & Hkeep & Hnd).
  assert (h ∈ due (tl_time l) (tl_timers l)) as Hin by (apply elem_of_due; by exists t).
  rewrite Hrun. destruct (IH l1 Hok1) as (l' & fs & Hrun' & Hround).
  - intros g. eapply Forall_impl; [apply Hcb|]. intros op. by apply calm_in_dom.
  - assert (size (due (tl_time l1) (tl_timers l1)) < size (due (tl_time l) (tl_timers l)))%nat; [|lia].
    apply subset_size. rewrite Htime. split; [by apply fewer_due_sub|]. intros Hsub. by apply Hnd, Hsub.
  - exists l', (h :: fs). split; [done|]. apply (round_cons cb l l1); try done.
    intros g (u & Hu & Hua & _)%elem_of_due. unfold timer_less_than, timer_of. rewrite Ht, Hu. by apply (Hle g).
Qed.

Lemma due_size l : timers_ok l → (size (due (tl_time l) (tl_timers l)) ≤ Z.to_nat (hp_nelts (hs_heap (tl_heap l))))%nat.
Proof.
  intros Hok. destruct (to_heap l Hok) as [-> _]. rewrite Nat2Z.id. apply subseteq_size.
  intros h (t & Ht & Ha & _)%elem_of_due. apply elem_of_active. by exists t.
Qed.

(** ** Theorems *)

(** C25. The timers of a loop refine timers without a heap: every sequence of calls to
    uv_timer_init, start, stop, again, set_repeat, get_repeat, uv__timer_close and
    uv__next_timeout on existing handles is defined and returns what the specification
    returns, in particular uv__next_timeout the time to the earliest active timer, at least 0
    and at most INT_MAX, or -1 when none is active, and leaves the records of the
    specification; the pointer heap stays a heap of exactly the active timers. *)
Theorem timers_refine_map l ops :
  timers_ok l → valid_ops (tl_time l) ops (timers_of l) →
  ∃ rs l', do_ops ops l = Some (rs, l') ∧ timers_ok l' ∧
    spec_ops (tl_time l) ops (timers_of l) = (rs, timers_of l').
Proof. intros Hok Hv. destruct (ops_run ops l Hok Hv) as (rs & l' & ? & ? & _ & ?). by exists rs, l'. Qed.

(** C24. A round of timers ends and is exact: when no callback starts a timer with timeout 0
    (callbacks may stop, start and restart any timer), uv__run_timers returns; it fires due
    timers only, each once, in the order of their timeouts and, for equal timeouts, of their
    starts; every due timer fires unless the callback of one fired in this round stopped or
    restarted it; none is due afterwards; and the timers are left as stopping, restarting
    when repeating, and calling each fired one in that order leaves them. *)
Theorem run_timers_exact l cb :
  timers_ok l → (∀ h, Forall (calm_in (tl_timers l)) (cb h)) →
  ∃ l' fs, uv__run_timers (callbacks cb) l = Some (tt, l') ∧ round_ok cb l l' fs.
Proof.
  intros Hok Hcb. unfold uv__run_timers. rewrite M_get. apply round_run; [done|done|]. pose proof (due_size l Hok). lia.
Qed.

(** The condition on timeouts is needed: when every callback starts its timer again with
    timeout 0, the round never ends. *)
Theorem zero_timeout_never_returns l fuel :
  timers_ok l → due (tl_time l) (tl_timers l) ≠ ∅ →
  run_timers_loop (callbacks (λ h, [TStart h true 0 0])) fuel l = None.
Proof.
  revert l. induction fuel as [|fuel IH]; intros l Hok Hdue; [done|]. cbn [run_timers_loop].
  rewrite (bind_Some _ _ _ _ _ (heap_min_run l)). pose proof (min_first l Hok) as Hmin.
  apply set_choose_L in Hdue as [g (u & Hu & Hua & Hud)%elem_of_due].
  destruct (hp_min _) as [h|]; [|assert (g ∈ active (tl_timers l)) by (apply elem_of_active; by exists u); set_solver].
  destruct Hmin as (t & Ht & Ha & Hle). rewrite (bind_Some _ _ _ _ _ (timer_run l h t Ht)), M_get.
  pose proof (less_timeout t u (Hle g u Hu Hua)). destruct (Z.ltb_spec (tl_time l) (tm_timeout t)); [lia|].
  destruct (fire_run l h t Hok Ht Ha) as (l1 & l2 & v & r & Hrun1 & Hrun2 & (Hok2 & [Hc2 _] & _) & Hv & Hvcb & _).
  rewrite (bind_Some _ _ _ _ _ Hrun1), (bind_Some _ _ _ _ _ Hrun2), (bind_Some _ _ _ _ _ (timer_run l2 h v Hv)), Hvcb, M_assert, M_modify.
  assert (timers_ok (add_fired h l2)) as Hok3 by (destruct Hok2; by split).
  destruct (timer_start_ok (add_fired h l2) h v 0 0 Hok3 Hv ltac:(lia) ltac:(lia)) as (l3 & Hrun3 & Hok4 & [Hc4 _] & _ & Hts).
  assert (callbacks (λ h, [TStart h true 0 0]) h (add_fired h l2) = Some (tt, l3)) as Hcb.
  { unfold callbacks. cbn [do_ops do_op]. by rewrite M_assoc, (bind_Some _ _ _ _ _ Hrun3). }
  rewrite (bind_Some _ _ _ _ _ Hcb). apply (IH l3 Hok4).
  assert (h ∈ due (tl_time l3) (tl_timers l3)) as Hin; [|set_solver]. apply elem_of_due. rewrite Hts, lookup_insert_eq.
  eexists. split; [done|]. split; [done|]. simpl in *. rewrite Hc4. lia.
Qed.

(** ** Witnesses *)

(** A loop with four timers that were initialised. *)
Definition four_timers : timer_loop := {|
  tl_time := 100; tl_counter := 0;
  tl_timers := list_to_map (imap (λ h _, (h, no_timer)) (replicate 4 tt));
  tl_heap := {| hs_nodes := list_to_map (imap (λ h _, (h, {| hn_left := NULL; hn_right := NULL; hn_parent := NULL |})) (replicate 4 tt));
                hs_heap := {| hp_min := NULL; hp_nelts := 0 |} |};
  tl_fired := [] |}.

Lemma four_timers_ok : timers_ok four_timers.
Proof.
  assert (∀ h t, tl_timers four_timers !! h = Some t → t = no_timer) as Hall.
  { intros h t Ht. apply elem_of_list_to_map_2, list_elem_of_In in Ht. simpl in Ht. intuition congruence. }
  split.
  - assert (active (tl_timers four_timers) = ∅) as ->.
    { apply set_eq. intros h. rewrite elem_of_active. split; [|set_solver]. by intros (t & ->%Hall & ?). }
    destruct (heap_init_ok _ (timer_less_le (tl_timers four_timers)) (timer_less_trans _) (tl_heap four_timers)) as (s & Hrun & Hok & _).
    vm_compute in Hrun. injection Hrun as <-. exact Hok.
  - apply (bool_decide_unpack _). vm_compute. exact I.
  - by intros h t ->%Hall.
  - by intros h t ->%Hall.
  - apply (bool_decide_unpack _). vm_compute. exact I.
  - simpl. lia.
Qed.

Definition four_starts : list timer_op :=
  [TInit 0; TStart 0 true 0 0; TStart 1 true 0 3; TNext; TStart 2 true 0 0; TStart 3 true 3 0; TStart 3 false 1 1; TStop 0;
   TAgain 3; TNext; TStart 0 true 0 0; TSetRepeat 2 9; TGetRepeat 2].

Ltac valid_call :=
  split_and!;
  [ simpl; first [exact I|lia]
  | intros ? Hh; first [discriminate Hh|injection Hh as <-; eexists; vm_compute; reflexivity]
  | intros ? Hi; first [discriminate Hi|injection Hi as <-; intros (? & Ht & Ha)%elem_of_active; vm_compute in Ht; injection Ht as <-; discriminate Ha] ].

Lemma four_starts_valid : valid_ops 100 four_starts (timers_of four_timers).
Proof. repeat (apply conj; [valid_call|]). exact I. Qed.

Definition four_started : timer_loop := default four_timers (snd <$> do_ops four_starts four_timers).

Lemma timers_refine_map_witness :
  ∃ l', do_ops four_starts four_timers = Some ([0; 0; 0; 0; 0; 0; -22; 0; 0; 0; 0; 0; 9], l') ∧ timers_ok l'.
Proof.
  destruct (timers_refine_map four_timers four_starts four_timers_ok four_starts_valid) as (rs & l' & Hrun & Hok & Hs).
  exists l'. split; [|exact Hok]. rewrite Hrun. vm_compute in Hrun. injection Hrun as <- _. reflexivity.
Defined.

Lemma four_started_ok : timers_ok four_started.
Proof.
  destruct (ops_run four_starts four_timers four_timers_ok four_starts_valid) as (rs & l' & Hrun & Hok & _).
  unfold four_started. by rewrite Hrun.
Qed.

(** The first timer stops the third and starts the last anew. *)
Definition four_callbacks (h : nat) : list timer_op := match h with 1%nat => [TStop 2; TStart 3 true 7 0; TAgain 3; TNext] | _ => [] end.

Lemma run_timers_exact_witness :
  ∃ l', uv__run_timers (callbacks four_callbacks) four_started = Some (tt, l') ∧ round_ok four_callbacks four_started l' [1; 0]%nat.
Proof.
  destruct (run_timers_exact four_started four_callbacks four_started_ok) as (l' & fs & Hrun & Hok).
  - intros h. unfold four_callbacks. destruct h as [|[|h]]; [apply Forall_nil; exact I| |apply Forall_nil; exact I].
    repeat (apply Forall_cons; split); [..|apply Forall_nil; exact I]; (split_and!; [simpl; first [exact I|lia]|simpl; first [exact I|lia]|]);
      intros g Hg; first [discriminate Hg|injection Hg as <-; eexists; vm_compute; reflexivity].
  - exists l'. split; [exact Hrun|]. assert (fs = [1; 0]%nat) as <-; [|exact Hok].
    pose proof (ro_fired _ _ _ _ Hok) as Hf. vm_compute in Hrun. injection Hrun as <-. symmetry. exact Hf.
Defined.
