(* ===== verification/UvStream.v ===== *)
(** The writing half of libuv's streams: deps/libuv src/unix/stream.c.

    A stream keeps the requests that wait in [write_queue] and those that are done in
    [write_completed_queue]; [uv_write] appends a request and tries to write at once when
    nothing waits, the loop goes on writing when the descriptor is writable, and calls the
    callbacks of what is done.  What the kernel answers to a write is an argument: how many
    bytes it takes, or an error.  A callback may write, shut down and close again. *)
From stdpp Require Import base numbers list option gmap.
From Stdlib Require Import ZArith Lia.
From S2P Require Import Prelude.

Local Open Scope Z_scope.
Local Open Scope c_scope.

(** ** Data *)

Definition UV_EBADF : Z := -9.
Definition UV_ENOMEM : Z := -12.
Definition UV_EPIPE : Z := -32.
Definition UV_ENOTCONN : Z := -107.
Definition UV_ECANCELED : Z := -125.
Definition EAGAIN : Z := 11.
Definition ENOBUFS : Z := 105.

(** [ARRAY_SIZE(req->bufsml)] and [uv__getiovmax()]. *)
Definition BUFSML : nat := 4.
Definition IOV_MAX : nat := 1024.

Record uv_buf_t := { buf_base : Z; buf_length : Z }.

(** [bufs] is [None] when it is NULL. *)
Record uv_write_t := { bufs : option (list uv_buf_t); write_index : nat; error : Z }.

(** The stream with the flags, queues and requests; requests are known by their address.
    [local_queue] is the queue [pq] of a running [uv__write_callbacks].  [s_pollout],
    [s_pollin]: the events the watcher waits for; [s_fed]: it is called in the next round in
    any case; [s_active_reqs]: the requests the loop counts.  The last five are what the
    outside saw: the bytes the kernel took, the writes that were accepted, and the callbacks
    of writes, of shutdowns and of connects. *)
Record uv_stream_t := {
  s_fd : Z;
  s_writable : bool;
  s_shutting : bool;
  s_shut : bool;
  s_closing : bool;
  s_blocking : bool;
  connect_req : bool;
  shutdown_req : bool;
  write_queue_size : Z;
  write_queue : list nat;
  write_completed_queue : list nat;
  local_queue : list nat;
  s_reqs : gmap nat uv_write_t;
  s_pollout : bool;
  s_pollin : bool;
  s_fed : bool;
  s_handle_active : bool;
  s_active_reqs : Z;
  x_sent : list Z;
  x_accepted : list (nat * list Z);
  x_called : list (nat * Z);
  x_shut : list Z;
  x_connected : list Z;
}.

Definition set_queues (q c l : list nat) (s : uv_stream_t) : uv_stream_t :=
  {| s_fd := s_fd s; s_writable := s_writable s; s_shutting := s_shutting s; s_shut := s_shut s;
     s_closing := s_closing s; s_blocking := s_blocking s; connect_req := connect_req s;
     shutdown_req := shutdown_req s; write_queue_size := write_queue_size s; write_queue := q;
     write_completed_queue := c; local_queue := l; s_reqs := s_reqs s; s_pollout := s_pollout s;
     s_pollin := s_pollin s; s_fed := s_fed s; s_handle_active := s_handle_active s; s_active_reqs := s_active_reqs s;
     x_sent := x_sent s; x_accepted := x_accepted s; x_called := x_called s; x_shut := x_shut s;
     x_connected := x_connected s |}.
Definition set_size (x : Z) (s : uv_stream_t) : uv_stream_t :=
  {| s_fd := s_fd s; s_writable := s_writable s; s_shutting := s_shutting s; s_shut := s_shut s;
     s_closing := s_closing s; s_blocking := s_blocking s; connect_req := connect_req s;
     shutdown_req := shutdown_req s; write_queue_size := x; write_queue := write_queue s;
     write_completed_queue := write_completed_queue s; local_queue := local_queue s; s_reqs := s_reqs s;
     s_pollout := s_pollout s; s_pollin := s_pollin s; s_fed := s_fed s; s_handle_active := s_handle_active s;
     s_active_reqs := s_active_reqs s; x_sent := x_sent s; x_accepted := x_accepted s; x_called := x_called s;
     x_shut := x_shut s; x_connected := x_connected s |}.
Definition set_reqs_map (x : gmap nat uv_write_t) (s : uv_stream_t) : uv_stream_t :=
  {| s_fd := s_fd s; s_writable := s_writable s; s_shutting := s_shutting s; s_shut := s_shut s;
     s_closing := s_closing s; s_blocking := s_blocking s; connect_req := connect_req s;
     shutdown_req := shutdown_req s; write_queue_size := write_queue_size s; write_queue := write_queue s;
     write_completed_queue := write_completed_queue s; local_queue := local_queue s; s_reqs := x;
     s_pollout := s_pollout s; s_pollin := s_pollin s; s_fed := s_fed s; s_handle_active := s_handle_active s;
     s_active_reqs := s_active_reqs s; x_sent := x_sent s; x_accepted := x_accepted s; x_called := x_called s;
     x_shut := x_shut s; x_connected := x_connected s |}.
Definition set_poll (out : bool) (fed : bool) (active : bool) (s : uv_stream_t) : uv_stream_t :=
  {| s_fd := s_fd s; s_writable := s_writable s; s_shutting := s_shutting s; s_shut := s_shut s;
     s_closing := s_closing s; s_blocking := s_blocking s; connect_req := connect_req s;
     shutdown_req := shutdown_req s; write_queue_size := write_queue_size s; write_queue := write_queue s;
     write_completed_queue := write_completed_queue s; local_queue := local_queue s; s_reqs := s_reqs s;
     s_pollout := out; s_pollin := s_pollin s; s_fed := fed; s_handle_active := active;
     s_active_reqs := s_active_reqs s; x_sent := x_sent s; x_accepted := x_accepted s; x_called := x_called s;
     x_shut := x_shut s; x_connected := x_connected s |}.
Definition set_active_reqs (x : Z) (s : uv_stream_t) : uv_stream_t :=
  {| s_fd := s_fd s; s_writable := s_writable s; s_shutting := s_shutting s; s_shut := s_shut s;
     s_closing := s_closing s; s_blocking := s_blocking s; connect_req := connect_req s;
     shutdown_req := shutdown_req s; write_queue_size := write_queue_size s; write_queue := write_queue s;
     write_completed_queue := write_completed_queue s; local_queue := local_queue s; s_reqs := s_reqs s;
     s_pollout := s_pollout s; s_pollin := s_pollin s; s_fed := s_fed s; s_handle_active := s_handle_active s;
     s_active_reqs := x; x_sent := x_sent s; x_accepted := x_accepted s; x_called := x_called s; x_shut := x_shut s;
     x_connected := x_connected s |}.
Definition set_sent (x : list Z) (s : uv_stream_t) : uv_stream_t :=
  {| s_fd := s_fd s; s_writable := s_writable s; s_shutting := s_shutting s; s_shut := s_shut s;
     s_closing := s_closing s; s_blocking := s_blocking s; connect_req := connect_req s;
     shutdown_req := shutdown_req s; write_queue_size := write_queue_size s; write_queue := write_queue s;
     write_completed_queue := write_completed_queue s; local_queue := local_queue s; s_reqs := s_reqs s;
     s_pollout := s_pollout s; s_pollin := s_pollin s; s_fed := s_fed s; s_handle_active := s_handle_active s;
     s_active_reqs := s_active_reqs s; x_sent := x; x_accepted := x_accepted s; x_called := x_called s;
     x_shut := x_shut s; x_connected := x_connected s |}.
Definition set_accepted (x : list (nat * list Z)) (s : uv_stream_t) : uv_stream_t :=
  {| s_fd := s_fd s; s_writable := s_writable s; s_shutting := s_shutting s; s_shut := s_shut s;
     s_closing := s_closing s; s_blocking := s_blocking s; connect_req := connect_req s;
     shutdown_req := shutdown_req s; write_queue_size := write_queue_size s; write_queue := write_queue s;
     write_completed_queue := write_completed_queue s; local_queue := local_queue s; s_reqs := s_reqs s;
     s_pollout := s_pollout s; s_pollin := s_pollin s; s_fed := s_fed s; s_handle_active := s_handle_active s;
     s_active_reqs := s_active_reqs s; x_sent := x_sent s; x_accepted := x; x_called := x_called s;
     x_shut := x_shut s; x_connected := x_connected s |}.
Definition set_called (x : list (nat * Z)) (s : uv_stream_t) : uv_stream_t :=
  {| s_fd := s_fd s; s_writable := s_writable s; s_shutting := s_shutting s; s_shut := s_shut s;
     s_closing := s_closing s; s_blocking := s_blocking s; connect_req := connect_req s;
     shutdown_req := shutdown_req s; write_queue_size := write_queue_size s; write_queue := write_queue s;
     write_completed_queue := write_completed_queue s; local_queue := local_queue s; s_reqs := s_reqs s;
     s_pollout := s_pollout s; s_pollin := s_pollin s; s_fed := s_fed s; s_handle_active := s_handle_active s;
     s_active_reqs := s_active_reqs s; x_sent := x_sent s; x_accepted := x_accepted s; x_called := x;
     x_shut := x_shut s; x_connected := x_connected s |}.
Definition set_shutdown (shutting shut req : bool) (x : list Z) (s : uv_stream_t) : uv_stream_t :=
  {| s_fd := s_fd s; s_writable := s_writable s; s_shutting := shutting; s_shut := shut; s_closing := s_closing s;
     s_blocking := s_blocking s; connect_req := connect_req s; shutdown_req := req;
     write_queue_size := write_queue_size s; write_queue := write_queue s;
     write_completed_queue := write_completed_queue s; local_queue := local_queue s; s_reqs := s_reqs s;
     s_pollout := s_pollout s; s_pollin := s_pollin s; s_fed := s_fed s; s_handle_active := s_handle_active s;
     s_active_reqs := s_active_reqs s; x_sent := x_sent s; x_accepted := x_accepted s; x_called := x_called s;
     x_shut := x; x_connected := x_connected s |}.
Definition set_connect (req : bool) (x : list Z) (s : uv_stream_t) : uv_stream_t :=
  {| s_fd := s_fd s; s_writable := s_writable s; s_shutting := s_shutting s; s_shut := s_shut s;
     s_closing := s_closing s; s_blocking := s_blocking s; connect_req := req; shutdown_req := shutdown_req s;
     write_queue_size := write_queue_size s; write_queue := write_queue s;
     write_completed_queue := write_completed_queue s; local_queue := local_queue s; s_reqs := s_reqs s;
     s_pollout := s_pollout s; s_pollin := s_pollin s; s_fed := s_fed s; s_handle_active := s_handle_active s;
     s_active_reqs := s_active_reqs s; x_sent := x_sent s; x_accepted := x_accepted s; x_called := x_called s;
     x_shut := x_shut s; x_connected := x |}.
Definition set_closed  (s : uv_stream_t) : uv_stream_t :=
  {| s_fd := -1; s_writable := false; s_shutting := s_shutting s; s_shut := s_shut s; s_closing := true;
     s_blocking := s_blocking s; connect_req := connect_req s; shutdown_req := shutdown_req s;
     write_queue_size := write_queue_size s; write_queue := write_queue s;
     write_completed_queue := write_completed_queue s; local_queue := local_queue s; s_reqs := s_reqs s;
     s_pollout := false; s_pollin := false; s_fed := false; s_handle_active := false;
     s_active_reqs := s_active_reqs s; x_sent := x_sent s; x_accepted := x_accepted s; x_called := x_called s;
     x_shut := x_shut s; x_connected := x_connected s |}.

(** The answer of the kernel to a write: it takes so many bytes, or as many as there are; or
    an error other than EINTR. *)
Inductive kernel_answer := Wrote (n : nat) | Failed (errno : Z).

Section Stream.
(** What the memory holds: a buffer must not change until its callback. *)
Context (byte_at : Z → Z).

Definition buf_bytes (b : uv_buf_t) : list Z := (λ i, byte_at (buf_base b + i)) <$> seqZ 0 (buf_length b).
Definition bufs_bytes (bs : list uv_buf_t) : list Z := bs ≫= buf_bytes.

Definition uv__count_bufs (bs : list uv_buf_t) : Z := foldr (λ b n, u64 (buf_length b + n)) 0 bs.

Definition get_req (id : nat) : M uv_stream_t uv_write_t := s ← get; lift (s_reqs s !! id).
Definition put_req (id : nat) (r : uv_write_t) : M uv_stream_t unit := modify (λ s, set_reqs_map (<[id := r]> (s_reqs s)) s).

Definition uv__req_register : M uv_stream_t unit := modify (λ s, set_active_reqs (s_active_reqs s + 1) s).
Definition uv__req_unregister : M uv_stream_t unit :=
  s ← get; TN_ASSERT (0 <? s_active_reqs s);; modify (λ s, set_active_reqs (s_active_reqs s - 1) s).

(** The watcher: [uv__io_start] and [uv__io_stop] with POLLOUT, and [uv__io_feed]. *)
Definition uv__io_start_out : M uv_stream_t unit :=
  s ← get; TN_ASSERT (0 <=? s_fd s);; modify (λ s, set_poll true (s_fed s) (s_handle_active s) s).
Definition uv__io_stop_out : M uv_stream_t unit :=
  s ← get; if s_fd s =? -1 then mret tt else TN_ASSERT (0 <=? s_fd s);; modify (λ s, set_poll false (s_fed s) (s_handle_active s) s).
Definition uv__io_feed : M uv_stream_t unit := modify (λ s, set_poll (s_pollout s) true (s_handle_active s) s).
Definition uv__handle_stop : M uv_stream_t unit := modify (λ s, set_poll (s_pollout s) (s_fed s) false s).

Definition uv__write_req_size (id : nat) : M uv_stream_t Z :=
  r ← get_req id;
  bs ← lift (bufs r);
  s ← get;
  let size := uv__count_bufs (drop (write_index r) bs) in
  TN_ASSERT (size <=? write_queue_size s);;
  mret size.

(** The loop of [uv__write_req_update] from buffer [i]; leaving the array is undefined. *)
Fixpoint update_loop (fuel : nat) (bs : list uv_buf_t) (i : nat) (n : Z) : option (list uv_buf_t * nat) :=
  match fuel with
  | O => None
  | S fuel =>
      b ← bs !! i;
      let len := if n <? buf_length b then n else buf_length b in
      let b' := {| buf_base := buf_base b + len; buf_length := u64 (buf_length b - len) |} in
      let bs' := <[i := b']> bs in
      let i' := if buf_length b' =? 0 then S i else i in
      let n' := u64 (n - len) in
      if 0 <? n' then update_loop fuel bs' i' n' else Some (bs', i')
  end.

Definition uv__write_req_update (id : nat) (n : Z) : M uv_stream_t bool :=
  s ← get;
  TN_ASSERT (n <=? write_queue_size s);;
  modify (λ s, set_size (u64 (write_queue_size s - n)) s);;
  r ← get_req id;
  bs ← lift (bufs r);
  u ← lift (update_loop (S (length bs)) bs (write_index r) n);
  put_req id {| bufs := Some u.1; write_index := u.2; error := error r |};;
  mret (Nat.eqb u.2 (length bs)).

Definition uv__write_req_finish (id : nat) : M uv_stream_t unit :=
  modify (λ s, set_queues (filter (.≠ id) (write_queue s)) (write_completed_queue s) (local_queue s) s);;
  r ← get_req id;
  (if error r =? 0 then put_req id {| bufs := None; write_index := write_index r; error := error r |} else mret tt);;
  modify (λ s, set_queues (write_queue s) (write_completed_queue s ++ [id]) (local_queue s) s);;
  uv__io_feed.

(** The label [error] of [uv__write]. *)
Definition write_error (id : nat) (err : Z) : M uv_stream_t unit :=
  r ← get_req id;
  put_req id {| bufs := bufs r; write_index := write_index r; error := err |};;
  uv__write_req_finish id;;
  uv__io_stop_out;;
  s ← get;
  if negb (s_pollin s) then uv__handle_stop else mret tt.

Definition IS_TRANSIENT_WRITE_ERROR (errno : Z) : bool := (errno =? EAGAIN) || (errno =? ENOBUFS).

(** No handle is sent.  A blocking stream tries again with the next answer. *)
Fixpoint uv__write (answers : list kernel_answer) : M uv_stream_t unit :=
  s ← get;
  TN_ASSERT (0 <=? s_fd s);;
  match write_queue s with
  | [] => mret tt
  | id :: _ =>
      r ← get_req id;
      bs ← lift (bufs r);
      let iov := take IOV_MAX (drop (write_index r) bs) in
      match answers with
      | [] => undef
      | a :: answers =>
          let again := if s_blocking s then uv__write answers else uv__io_start_out in
          match a with
          | Wrote k =>
              let data := take k (bufs_bytes iov) in
              modify (λ s, set_sent (x_sent s ++ data) s);;
              done ← uv__write_req_update id (Z.of_nat (length data));
              if done : bool then uv__write_req_finish id else again
          | Failed errno => if IS_TRANSIENT_WRITE_ERROR errno then again else write_error id (- errno)
          end
      end
  end.

(** ** Calls *)

Definition uv_write2 (id : nat) (bs : list uv_buf_t) (acquired : bool) (answers : list kernel_answer) : M uv_stream_t Z :=
  TN_ASSERT (negb (bool_decide (bs = [])));;
  s ← get;
  if s_fd s <? 0 then mret UV_EBADF
  else if negb (s_writable s) then mret UV_EPIPE
  else
    let empty_queue := write_queue_size s =? 0 in
    uv__req_register;;
    if Nat.ltb BUFSML (length bs) && negb acquired then mret UV_ENOMEM
    else
      put_req id {| bufs := Some bs; write_index := 0; error := 0 |};;
      modify (λ s, set_size (u64 (write_queue_size s + uv__count_bufs bs)) s);;
      modify (λ s, set_queues (write_queue s ++ [id]) (write_completed_queue s) (local_queue s) s);;
      modify (λ s, set_accepted (x_accepted s ++ [(id, bufs_bytes bs)]) s);;
      (if connect_req s then mret tt
       else if empty_queue then uv__write answers
       else TN_ASSERT (negb (s_blocking s));; uv__io_start_out);;
      mret 0.

Definition uv_shutdown : M uv_stream_t Z :=
  s ← get;
  if negb (s_writable s) || s_shut s || s_shutting s || s_closing s then mret UV_ENOTCONN
  else
    TN_ASSERT (0 <=? s_fd s);;
    uv__req_register;;
    modify (λ s, set_shutdown true (s_shut s) true (x_shut s) s);;
    uv__io_start_out;;
    mret 0.

(** [uv_close] on a stream: [uv__stream_close]. *)
Definition uv__stream_close : M uv_stream_t unit :=
  s ← get; TN_ASSERT (negb (s_closing s));; modify set_closed.

(** What the program does with a stream, from outside or in a callback. *)
Inductive call := CallWrite (id : nat) (bs : list uv_buf_t) (acquired : bool) (answers : list kernel_answer) | CallShutdown | CallClose.

Definition do_call (c : call) : M uv_stream_t unit :=
  match c with
  | CallWrite id bs acquired answers => uv_write2 id bs acquired answers;; mret tt
  | CallShutdown => uv_shutdown;; mret tt
  | CallClose => uv__stream_close
  end.

(** A request may not be under way, a write has a buffer, and an answer of the kernel for
    the attempt it makes; the sizes fit a [size_t]. *)
Definition under_way (s : uv_stream_t) : list nat := local_queue s ++ write_completed_queue s ++ write_queue s.
Definition valid_answers (answers : list kernel_answer) : bool :=
  negb (bool_decide (answers = [])) && forallb (λ a, match a with Failed errno => 0 <? errno | Wrote _ => true end) answers.
Definition valid_call (s : uv_stream_t) (c : call) : bool :=
  match c with
  | CallWrite id bs _ answers =>
      bool_decide (id ∉ under_way s) && negb (bool_decide (bs = [])) && forallb (λ b, 0 <=? buf_length b) bs &&
      (write_queue_size s + foldr (λ b n, buf_length b + n) 0 bs <? W64) && valid_answers answers
  | CallShutdown => true
  | CallClose => negb (s_closing s)
  end.

(** The callbacks a stream makes. *)
Inductive callback := OnWrite (id : nat) (status : Z) | OnShutdown (status : Z) | OnConnect (status : Z).

Section Loop.
(** What the program does in a callback. *)
Context (react : callback → list call).

Fixpoint do_calls (cs : list call) : M uv_stream_t unit :=
  match cs with
  | [] => mret tt
  | c :: cs => s ← get; (if valid_call s c then do_call c else mret tt);; do_calls cs
  end.

(** The loop of [uv__write_callbacks]: a round takes a request off [pq] and gives back what
    it held; then its callback runs. *)
Definition pop_completed (id : nat) (pq : list nat) : M uv_stream_t Z :=
  modify (λ s, set_queues (write_queue s) (write_completed_queue s) pq s);;
  uv__req_unregister;;
  r ← get_req id;
  (match bufs r with
   | Some bs =>
       size ← uv__write_req_size id;
       modify (λ s, set_size (u64 (write_queue_size s - size)) s);;
       put_req id {| bufs := None; write_index := write_index r; error := error r |}
   | None => mret tt
   end);;
  modify (λ s, set_called (x_called s ++ [(id, error r)]) s);;
  mret (error r).

Fixpoint callbacks_loop (fuel : nat) : M uv_stream_t unit :=
  s ← get;
  match local_queue s with
  | [] => mret tt
  | id :: pq =>
      match fuel with
      | O => undef
      | S fuel => err ← pop_completed id pq; do_calls (react (OnWrite id err));; callbacks_loop fuel
      end
  end.

Definition uv__write_callbacks : M uv_stream_t unit :=
  s ← get;
  match write_completed_queue s with
  | [] => mret tt
  | c => modify (λ s, set_queues (write_queue s) [] c s);; callbacks_loop (length c)
  end.

(** [shutdown_err]: the answer of shutdown(2). *)
Definition uv__drain (shutdown_err : Z) : M uv_stream_t unit :=
  s ← get;
  TN_ASSERT (bool_decide (write_queue s = []));;
  uv__io_stop_out;;
  if s_shutting s && negb (s_closing s) && negb (s_shut s) then
    TN_ASSERT (shutdown_req s);;
    uv__req_unregister;;
    modify (set_shutdown false (s_shut s || (shutdown_err =? 0)) false (x_shut s ++ [shutdown_err]));;
    do_calls (react (OnShutdown shutdown_err))
  else mret tt.

Definition uv__stream_flush_write_queue (err : Z) : M uv_stream_t unit :=
  modify (λ s, set_reqs_map (foldl (λ m id, alter (λ r, {| bufs := bufs r; write_index := write_index r; error := err |}) id m) (s_reqs s) (write_queue s)) s);;
  modify (λ s, set_queues [] (write_completed_queue s ++ write_queue s) (local_queue s) s).

Definition EINPROGRESS : Z := 115.

(** [err]: what the socket reports. *)
Definition uv__stream_connect (err : Z) : M uv_stream_t unit :=
  s ← get;
  TN_ASSERT (connect_req s);;
  if err =? - EINPROGRESS then mret tt
  else
    uv__req_unregister;;
    (if (err <? 0) || bool_decide (write_queue s = []) then uv__io_stop_out else mret tt);;
    modify (λ s, set_connect false (x_connected s ++ [err]) s);;
    do_calls (react (OnConnect err));;
    s ← get;
    if s_fd s =? -1 then mret tt
    else if err <? 0 then uv__stream_flush_write_queue UV_ECANCELED;; uv__write_callbacks
    else mret tt.

(** The part of [uv__stream_io] that writes: the descriptor is writable, or in error, or the
    watcher was fed. *)
Definition uv__stream_io_out (answers : list kernel_answer) (shutdown_err connect_err : Z) : M uv_stream_t unit :=
  modify (λ s, set_poll (s_pollout s) false (s_handle_active s) s);;
  s ← get;
  TN_ASSERT (negb (s_closing s));;
  if connect_req s then uv__stream_connect connect_err
  else
    TN_ASSERT (0 <=? s_fd s);;
    uv__write answers;;
    uv__write_callbacks;;
    s ← get;
    if bool_decide (write_queue s = []) then uv__drain shutdown_err else mret tt.

(** When the loop runs the closing handles. *)
Definition uv__stream_destroy : M uv_stream_t unit :=
  s ← get;
  TN_ASSERT (negb (s_pollout s) && negb (s_pollin s));;
  TN_ASSERT (s_closing s);;
  (if connect_req s then
     uv__req_unregister;;
     modify (λ s, set_connect true (x_connected s ++ [UV_ECANCELED]) s);;
     do_calls (react (OnConnect UV_ECANCELED));;
     modify (λ s, set_connect false (x_connected s) s)
   else mret tt);;
  uv__stream_flush_write_queue UV_ECANCELED;;
  uv__write_callbacks;;
  s ← get;
  (if shutdown_req s then
     uv__req_unregister;;
     modify (set_shutdown (s_shutting s) (s_shut s) true (x_shut s ++ [UV_ECANCELED]));;
     do_calls (react (OnShutdown UV_ECANCELED));;
     modify (λ s, set_shutdown (s_shutting s) (s_shut s) false (x_shut s) s)
   else mret tt);;
  s ← get;
  TN_ASSERT (write_queue_size s =? 0).
(** ** Runs *)

(** What happens to a stream: a call of the program, the loop finds the descriptor
    writable or its watcher fed, the loop runs the closing handles. *)
Inductive act := ActCall (c : call) | ActIo (answers : list kernel_answer) (shutdown_err connect_err : Z) | ActDestroy.

Definition valid_act (s : uv_stream_t) (a : act) : bool :=
  match a with
  | ActCall c => valid_call s c
  | ActIo answers _ _ => negb (s_closing s) && valid_answers answers
  | ActDestroy => s_closing s
  end.

Definition stream_step (a : act) : M uv_stream_t unit :=
  match a with
  | ActCall c => do_call c
  | ActIo answers shutdown_err connect_err => uv__stream_io_out answers shutdown_err connect_err
  | ActDestroy => uv__stream_destroy
  end.

Fixpoint stream_run (acts : list act) : M uv_stream_t unit :=
  match acts with
  | [] => mret tt
  | a :: acts => s ← get; (if valid_act s a then stream_step a else mret tt);; stream_run acts
  end.
End Loop.
End Stream.

(** A stream whose socket is open: connected, or connecting, when it waits to be writable and
    its request is registered. *)
Definition new_stream (fd : Z) (writable connecting reading : bool) (others : Z) : uv_stream_t :=
  {| s_fd := fd; s_writable := writable; s_shutting := false; s_shut := false; s_closing := false; s_blocking := false;
     connect_req := connecting; shutdown_req := false; write_queue_size := 0; write_queue := []; write_completed_queue := [];
     local_queue := []; s_reqs := ∅; s_pollout := connecting; s_pollin := reading; s_fed := false;
     s_handle_active := connecting || reading; s_active_reqs := others + Z.b2z connecting;
     x_sent := []; x_accepted := []; x_called := []; x_shut := []; x_connected := [] |}.
