(* ===== verification/UvStreamRun.v ===== *)
(** What the writing half of a stream guarantees, over every program of calls, every
    reaction of the callbacks and every answer of the kernel. *)
From stdpp Require Import base numbers list option gmap.
From Stdlib Require Import ZArith Lia.
From S2P Require Import Prelude UvStream.

Local Open Scope Z_scope.
Local Open Scope c_scope.

Section Stream.
Context (byte_at : Z → Z).
Abbreviation bytes_of := (bufs_bytes byte_at).

(** ** Buffers *)

Definition bufs_size (bs : list uv_buf_t) : Z := foldr (λ b n, buf_length b + n) 0 bs.
Abbreviation lengths_ok bs := (Forall (λ b, 0 ≤ buf_length b) bs).

Lemma bytes_cons b bs : bytes_of (b :: bs) = buf_bytes byte_at b ++ bytes_of bs.
Proof. done. Qed.

Lemma buf_bytes_length b : 0 ≤ buf_length b → Z.of_nat (length (buf_bytes byte_at b)) = buf_length b.
Proof. intros H. unfold buf_bytes. rewrite length_fmap, length_seqZ. lia. Qed.

Lemma bytes_length bs : lengths_ok bs → Z.of_nat (length (bytes_of bs)) = bufs_size bs.
Proof.
  induction 1 as [|b bs Hb Hbs IH]; [done|]. rewrite bytes_cons, length_app. cbn [bufs_size foldr].
  fold (bufs_size bs). pose proof (buf_bytes_length b Hb). lia.
Qed.

Lemma size_nonneg bs : lengths_ok bs → 0 ≤ bufs_size bs.
Proof. intros H. rewrite <- (bytes_length bs H). lia. Qed.

Lemma count_exact bs : lengths_ok bs → bufs_size bs < W64 → uv__count_bufs bs = bufs_size bs.
Proof.
  induction 1 as [|b bs Hb Hbs IH]; [done|]. intros Hs. cbn [bufs_size foldr uv__count_bufs] in *. fold (bufs_size bs) in *.
  fold (uv__count_bufs bs). pose proof (size_nonneg bs Hbs). rewrite IH by lia. rewrite u64_small; lia.
Qed.

(** Taking bytes off the front of a buffer. *)
Lemma buf_bytes_drop b k :
  0 ≤ k ≤ buf_length b →
  buf_bytes byte_at {| buf_base := buf_base b + k; buf_length := buf_length b - k |} = drop (Z.to_nat k) (buf_bytes byte_at b).
Proof.
  intros Hk. unfold buf_bytes. simpl. apply list_eq. intros i. rewrite lookup_drop, !list_lookup_fmap.
  destruct (decide (Z.of_nat i < buf_length b - k)) as [Hi|Hi].
  - rewrite !lookup_seqZ_lt by lia. simpl. do 2 f_equal. lia.
  - rewrite !lookup_seqZ_ge by lia. done.
Qed.

(** The loop moves over exactly [n] bytes, and stays inside the array. *)
Lemma update_loop_ok fuel : ∀ bs i n,
  lengths_ok bs → (i < length bs)%nat → 0 ≤ n ≤ bufs_size (drop i bs) → bufs_size (drop i bs) < W64 → (length bs - i < fuel)%nat →
  ∃ bs' i', update_loop fuel bs i n = Some (bs', i') ∧ lengths_ok bs' ∧ length bs' = length bs ∧ (i' ≤ length bs)%nat ∧
    bytes_of (drop i' bs') = drop (Z.to_nat n) (bytes_of (drop i bs)).
Proof.
  induction fuel as [|fuel IH]; intros bs i n Hok Hi Hn Hw Hf; [lia|].
  destruct (lookup_lt_is_Some_2 bs i Hi) as [b Hb]. cbn [update_loop]. rewrite Hb. simpl.
  pose proof (Forall_lookup_1 _ _ _ _ Hok Hb) as Hlen. simpl in Hlen.
  pose proof (drop_S bs b i Hb) as Hd. rewrite Hd in *. cbn [bufs_size foldr] in Hn, Hw. fold (bufs_size (drop (S i) bs)) in Hn, Hw.
  assert (lengths_ok (drop (S i) bs)) as Hrest by (by apply Forall_drop). pose proof (size_nonneg _ Hrest) as Hs.
  set (len := if n <? buf_length b then n else buf_length b).
  assert (0 ≤ len ≤ buf_length b ∧ len ≤ n) as Hle by (unfold len; destruct (Z.ltb_spec n (buf_length b)); lia).
  rewrite (u64_small (buf_length b - len)), (u64_small (n - len)) by lia.
  set (b' := {| buf_base := buf_base b + len; buf_length := buf_length b - len |}). set (bs' := <[i := b']> bs).
  assert (lengths_ok bs') as Hok' by (apply Forall_insert; [done|simpl; lia]).
  assert (length bs' = length bs) as Hl' by apply length_insert.
  assert (drop (S i) bs' = drop (S i) bs) as Hd' by (unfold bs'; apply drop_insert_lt; lia).
  assert (drop i bs' = b' :: drop (S i) bs) as Hdi.
  { rewrite <- Hd'. apply drop_S. apply list_lookup_insert_eq. lia. }
  assert (buf_bytes byte_at b' = drop (Z.to_nat len) (buf_bytes byte_at b)) as Hbb by (apply buf_bytes_drop; lia).
  assert (bytes_of (b' :: drop (S i) bs) = drop (Z.to_nat len) (bytes_of (b :: drop (S i) bs))) as Hmove.
  { rewrite !bytes_cons, Hbb, drop_app. f_equal. pose proof (buf_bytes_length b Hlen).
    replace (Z.to_nat len - length (buf_bytes byte_at b))%nat with 0%nat by lia. by rewrite drop_0. }
  destruct (Z.ltb_spec 0 (n - len)) as [Hm|Hm].
  - assert (len = buf_length b) as El by (unfold len in *; destruct (Z.ltb_spec n (buf_length b)); lia).
    rewrite (proj2 (Z.eqb_eq (buf_length b - len) 0)) by lia.
    assert (S i < length bs)%nat as Hsi.
    { destruct (decide (S i < length bs)%nat); [done|]. rewrite drop_ge in Hn by lia. simpl in Hn. lia. }
    destruct (IH bs' (S i) (n - len)) as (bs2 & i2 & Hr & Hok2 & Hl2 & Hi2 & Hby); [done|lia|rewrite Hd'; lia|rewrite Hd'; lia|lia|].
    exists bs2, i2. split; [exact Hr|]. split_and!; [done|lia|lia|]. rewrite Hby, Hd', bytes_cons, drop_app.
    pose proof (buf_bytes_length b Hlen). rewrite (drop_ge (buf_bytes byte_at b)) by lia. simpl. f_equal. lia.
  - assert (Z.to_nat n = Z.to_nat len) as -> by lia. exists bs'. destruct (Z.eqb_spec (buf_length b - len) 0) as [Ez|Ez].
    + exists (S i). split_and!; [done|done|done|lia|]. rewrite Hd', <- Hmove, bytes_cons.
      assert (length (buf_bytes byte_at b') = 0%nat) as E0 by (pose proof (buf_bytes_length b' ltac:(simpl; lia)); simpl in *; lia).
      apply nil_length_inv in E0. by rewrite E0.
    + exists i. split_and!; [done|done|done|lia|]. by rewrite Hdi, Hmove.
Qed.

(** ** Invariant *)

(** An accepted write: its bytes, and those that have left. *)
Record entry := { e_id : nat; e_bytes : list Z; e_part : list Z }.
Definition e_left (e : entry) : Z := Z.of_nat (length (e_bytes e)) - Z.of_nat (length (e_part e)).
Definition left_of (es : list entry) : Z := foldr (λ e n, e_left e + n) 0 es.

(** A request that was reported; one that is done and not yet reported; one that waits. *)
Definition called_ok (e : entry) (k : nat * Z) : Prop :=
  e_id e = k.1 ∧ e_part e `prefix_of` e_bytes e ∧ k.2 ≤ 0 ∧ (k.2 = 0 → e_part e = e_bytes e).
Definition done_ok (m : gmap nat uv_write_t) (e : entry) (id : nat) : Prop :=
  e_id e = id ∧ ∃ r, m !! id = Some r ∧
    ((error r = 0 ∧ bufs r = None ∧ e_part e = e_bytes e) ∨
     (error r < 0 ∧ ∃ bs, bufs r = Some bs ∧ lengths_ok bs ∧ e_part e ++ bytes_of (drop (write_index r) bs) = e_bytes e)).
Definition wait_ok (m : gmap nat uv_write_t) (e : entry) (id : nat) : Prop :=
  e_id e = id ∧ ∃ r bs, m !! id = Some r ∧ error r = 0 ∧ bufs r = Some bs ∧ lengths_ok bs ∧ (write_index r < length bs)%nat ∧
    e_part e ++ bytes_of (drop (write_index r) bs) = e_bytes e.

(** The accepted writes are, in order: those reported, those a running round of callbacks
    still has to report, those done, those that wait; only the first that waits may have
    left in part. *)
Record wr_inv (s : uv_stream_t) (A L C Q : list entry) : Prop := {
  wi_acc : x_accepted s = (λ e, (e_id e, e_bytes e)) <$> (A ++ L ++ C ++ Q);
  wi_sent : x_sent s = (A ++ L ++ C ++ Q) ≫= e_part;
  wi_called : Forall2 called_ok A (x_called s);
  wi_local : Forall2 (done_ok (s_reqs s)) L (local_queue s);
  wi_done : Forall2 (done_ok (s_reqs s)) C (write_completed_queue s);
  wi_wait : Forall2 (wait_ok (s_reqs s)) Q (write_queue s);
  wi_tail : Forall (λ e, e_part e = []) (tail Q);
  wi_nodup : NoDup (under_way s);
  wi_size : write_queue_size s = left_of (L ++ C ++ Q);
  wi_fits : write_queue_size s < W64;
  wi_reqs : Z.of_nat (length (under_way s)) + Z.b2z (connect_req s) + Z.b2z (shutdown_req s) ≤ s_active_reqs s;
  wi_open : s_closing s = false → 0 ≤ s_fd s ∧ s_shutting s = shutdown_req s;
  wi_closed : s_closing s = true → s_fd s = -1 ∧ s_pollout s = false ∧ s_pollin s = false ∧ s_writable s = false;
  wi_blocking : s_blocking s = false;
}.

(** What writing leaves alone. *)
Record wframe (s s' : uv_stream_t) : Prop := {
  fr_fd : s_fd s' = s_fd s;
  fr_writable : s_writable s' = s_writable s;
  fr_shutting : s_shutting s' = s_shutting s;
  fr_shut : s_shut s' = s_shut s;
  fr_closing : s_closing s' = s_closing s;
  fr_blocking : s_blocking s' = s_blocking s;
  fr_connect : connect_req s' = connect_req s;
  fr_shutdown : shutdown_req s' = shutdown_req s;
  fr_local : local_queue s' = local_queue s;
  fr_pollin : s_pollin s' = s_pollin s;
  fr_active : s_active_reqs s' = s_active_reqs s;
  fr_accepted : x_accepted s' = x_accepted s;
  fr_called : x_called s' = x_called s;
}.

(** An open stream with work to do is called by the loop: while it connects, or a request
    waits, it waits to be writable or its watcher is fed; it is fed while a request is done
    and not reported.  Without [q], nothing is said of those that wait. *)
Definition awake (q : bool) (s : uv_stream_t) : Prop :=
  s_closing s = false →
  (connect_req s = true → s_pollout s = true ∧ write_completed_queue s = []) ∧
  (q = true → write_queue s ≠ [] → s_pollout s = true ∨ s_fed s = true) ∧
  (write_completed_queue s ≠ [] → s_fed s = true).

(** What an attempt to write leaves of it. *)
Definition woken (s s' : uv_stream_t) : Prop :=
  s' = s ∧ write_queue s = [] ∨
  write_queue s ≠ [] ∧ (s_fed s' = true ∨ s_pollout s' = true ∧ s_fed s' = s_fed s ∧ write_completed_queue s' = write_completed_queue s).

Lemma left_app es fs : left_of (es ++ fs) = left_of es + left_of fs.
Proof. induction es as [|e es IH]; [done|]. simpl. rewrite IH. lia. Qed.

Lemma done_insert m id r es ids : id ∉ ids → Forall2 (done_ok m) es ids → Forall2 (done_ok (<[id := r]> m)) es ids.
Proof.
  intros Hn H. induction H as [|e i es ids [He (r' & Hr & Hc)] H IH]; constructor.
  - apply not_elem_of_cons in Hn as [Hne _]. split; [done|]. exists r'. rewrite lookup_insert_ne by done. done.
  - apply IH. by apply not_elem_of_cons in Hn as [_ ?].
Qed.
Lemma wait_insert m id r es ids : id ∉ ids → Forall2 (wait_ok m) es ids → Forall2 (wait_ok (<[id := r]> m)) es ids.
Proof.
  intros Hn H. induction H as [|e i es ids [He (r' & bs & Hr & Hc)] H IH]; constructor.
  - apply not_elem_of_cons in Hn as [Hne _]. split; [done|]. exists r', bs. rewrite lookup_insert_ne by done. done.
  - apply IH. by apply not_elem_of_cons in Hn as [_ ?].
Qed.

Lemma parts_none Q : Forall (λ e, e_part e = []) Q → Q ≫= e_part = [].
Proof. induction 1 as [|e Q He _ IH]; [done|]. cbn. rewrite He. exact IH. Qed.

Lemma head_not_below s id rest : NoDup (under_way s) → write_queue s = id :: rest →
  id ∉ local_queue s ∧ id ∉ write_completed_queue s ∧ id ∉ rest ∧ NoDup rest.
Proof.
  unfold under_way. intros Hn Hq. rewrite Hq, !NoDup_app, NoDup_cons in Hn. destruct Hn as (_ & H1 & _ & H2 & H3 & H4). split_and!; [| |done|done].
  - intros Hx. apply (H1 id Hx). rewrite elem_of_app. right. by left.
  - intros Hx. apply (H2 id Hx). by left.
Qed.

(** The head has written [data] and goes on waiting. *)
Lemma inv_progress s s' A L C Q e id rest r data :
  wr_inv s A L C (e :: Q) → write_queue s = id :: rest → wframe s s' →
  s_reqs s' = <[id := r]> (s_reqs s) → write_queue s' = write_queue s → write_completed_queue s' = write_completed_queue s →
  x_sent s' = x_sent s ++ data → write_queue_size s' = write_queue_size s - Z.of_nat (length data) →
  s_pollout s' = true ∨ s_pollout s' = s_pollout s → s_closing s = false →
  let e' := {| e_id := id; e_bytes := e_bytes e; e_part := e_part e ++ data |} in
  wait_ok (s_reqs s') e' id → wr_inv s' A L C (e' :: Q).
Proof.
  intros [] Hq [] Er Eq Ec Es Ez Hp Hcl e' Hw. destruct (head_not_below s id rest wi_nodup0 Hq) as (N1 & N2 & N3 & _).
  rewrite Hq in wi_wait0. apply Forall2_cons in wi_wait0 as [[He _] Hrest].
  assert (left_of (L ++ C ++ e' :: Q) = left_of (L ++ C ++ e :: Q) - Z.of_nat (length data)) as Hl.
  { rewrite !left_app. cbn [left_of foldr]. fold (left_of Q). unfold e', e_left. simpl. rewrite length_app. lia. }
  split; try (rewrite ?fr_accepted0, ?fr_called0, ?fr_local0, ?Ec, ?Eq; done).
  - rewrite fr_accepted0, wi_acc0, !fmap_app. do 3 f_equal. simpl. by rewrite He.
  - rewrite Es, wi_sent0, !bind_app. rewrite <- !app_assoc. do 3 f_equal. cbn. rewrite (parts_none Q) by done. by rewrite !app_nil_r.
  - rewrite fr_local0, Er. by apply done_insert.
  - rewrite Ec, Er. by apply done_insert.
  - rewrite Eq, Hq. constructor; [done|]. rewrite Er. by apply wait_insert.
  - unfold under_way. rewrite fr_local0, Ec, Eq. done.
  - rewrite Ez, Hl. lia.
  - lia.
  - unfold under_way. rewrite fr_local0, Ec, Eq, fr_connect0, fr_shutdown0, fr_active0. done.
  - rewrite fr_closing0, fr_fd0, fr_shutting0, fr_shutdown0. done.
  - rewrite fr_closing0. congruence.
  - congruence.
Qed.

(** The head has written [data] and is done. *)
Lemma inv_finish s s' A L C Q e id rest r data :
  wr_inv s A L C (e :: Q) → write_queue s = id :: rest → wframe s s' →
  s_reqs s' = <[id := r]> (s_reqs s) → write_queue s' = rest → write_completed_queue s' = write_completed_queue s ++ [id] →
  x_sent s' = x_sent s ++ data → write_queue_size s' = write_queue_size s - Z.of_nat (length data) → s_closing s = false →
  let e' := {| e_id := id; e_bytes := e_bytes e; e_part := e_part e ++ data |} in
  done_ok (s_reqs s') e' id → wr_inv s' A L (C ++ [e']) Q.
Proof.
  intros [] Hq [] Er Eq Ec Es Ez Hcl e' Hd. destruct (head_not_below s id rest wi_nodup0 Hq) as (N1 & N2 & N3 & N4).
  rewrite Hq in wi_wait0. apply Forall2_cons in wi_wait0 as [[He _] Hrest].
  assert (under_way s' = under_way s) as Hu by (unfold under_way; by rewrite fr_local0, Ec, Eq, Hq, <- app_assoc).
  assert (left_of (L ++ (C ++ [e']) ++ Q) = left_of (L ++ C ++ e :: Q) - Z.of_nat (length data)) as Hl.
  { rewrite !left_app. cbn [left_of foldr]. fold (left_of Q). unfold e', e_left. simpl. rewrite length_app. lia. }
  split; rewrite ?Hu; try done.
  - rewrite fr_accepted0, wi_acc0, <- !app_assoc, !fmap_app. do 3 f_equal. simpl. by rewrite He.
  - rewrite Es, wi_sent0, !bind_app. rewrite <- !app_assoc. do 3 f_equal. cbn. rewrite (parts_none Q) by done. by rewrite !app_nil_r.
  - by rewrite fr_called0.
  - rewrite fr_local0, Er. by apply done_insert.
  - rewrite Ec. apply Forall2_app; [rewrite Er; by apply done_insert|]. constructor; [done|constructor].
  - rewrite Eq, Er. by apply wait_insert.
  - by apply Forall_tail.
  - rewrite Ez, Hl. lia.
  - lia.
  - rewrite fr_connect0, fr_shutdown0, fr_active0. done.
  - rewrite fr_closing0, fr_fd0, fr_shutting0, fr_shutdown0. done.
  - rewrite fr_closing0. congruence.
  - congruence.
Qed.

Lemma finish_run s id rest r :
  NoDup (under_way s) → write_queue s = id :: rest → s_reqs s !! id = Some r →
  ∃ s', uv__write_req_finish id s = Some (tt, s') ∧ wframe s s' ∧ write_queue s' = rest ∧
    write_completed_queue s' = write_completed_queue s ++ [id] ∧ x_sent s' = x_sent s ∧ write_queue_size s' = write_queue_size s ∧ s_fed s' = true ∧
    s_reqs s' = <[id := if error r =? 0 then {| bufs := None; write_index := write_index r; error := error r |} else r]> (s_reqs s).
Proof.
  intros Hn Hq Hr. destruct (head_not_below s id rest Hn Hq) as (_ & _ & N3 & _).
  assert (filter (.≠ id) (write_queue s) = rest) as Hf.
  { rewrite Hq, filter_cons_False by naive_solver. clear -N3. induction rest as [|x rest IH]; [done|].
    apply not_elem_of_cons in N3 as [? ?]. rewrite filter_cons_True by done. by rewrite IH. }
  unfold uv__write_req_finish, get_req, put_req, uv__io_feed. rewrite M_modify, M_assoc, M_get. cbn [s_reqs set_queues]. rewrite Hr, M_lift.
  destruct (error r =? 0) eqn:Ee.
  - rewrite M_modify, M_modify. eexists. split; [reflexivity|]. simpl. rewrite Hf. split; [by split|]. by split_and!.
  - rewrite M_left_id, M_modify. eexists. split; [reflexivity|]. simpl. rewrite Hf. split; [by split|]. split_and!; try done. by rewrite insert_id.
Qed.

Lemma start_out_run s : 0 ≤ s_fd s → uv__io_start_out s = Some (tt, set_poll true (s_fed s) (s_handle_active s) s).
Proof. intros H. unfold uv__io_start_out. by rewrite M_get, (proj2 (Z.leb_le _ _) H), M_assert. Qed.
Lemma stop_out_run s : 0 ≤ s_fd s → uv__io_stop_out s = Some (tt, set_poll false (s_fed s) (s_handle_active s) s).
Proof. intros H. unfold uv__io_stop_out. by rewrite M_get, (proj2 (Z.eqb_neq _ _)), (proj2 (Z.leb_le _ _) H), M_assert by lia. Qed.

Lemma stop_out_any s A L C Q : wr_inv s A L C Q → uv__io_stop_out s = Some (tt, set_poll false (s_fed s) (s_handle_active s) s).
Proof.
  intros []. destruct (s_closing s); [|apply stop_out_run; by destruct wi_open0]. destruct wi_closed0 as (Hfd & Hpo & _); [done|].
  unfold uv__io_stop_out. rewrite M_get, Hfd. simpl. destruct s; simpl in *. by subst.
Qed.

Lemma wframe_trans s1 s2 s3 : wframe s1 s2 → wframe s2 s3 → wframe s1 s3.
Proof. intros [] []. split; congruence. Qed.

Lemma done_left m es ids : Forall2 (done_ok m) es ids → 0 ≤ left_of es.
Proof.
  induction 1 as [|e id es ids [_ (r & _ & Hc)] _ IH]; [done|]. cbn [left_of foldr]. fold (left_of es).
  assert (0 ≤ e_left e); [|lia]. unfold e_left. destruct Hc as [(_ & _ & ->)|(_ & bs & _ & _ & <-)]; rewrite ?length_app; lia.
Qed.
Lemma wait_left m es ids : Forall2 (wait_ok m) es ids → 0 ≤ left_of es.
Proof.
  induction 1 as [|e id es ids [_ (r & bs & _ & _ & _ & _ & _ & Hb)] _ IH]; [done|]. cbn [left_of foldr]. fold (left_of es).
  assert (0 ≤ e_left e); [|lia]. unfold e_left. rewrite <- Hb, length_app. lia.
Qed.

(** [uv__write_req_update] on the head. *)
Lemma update_run s id r bs n :
  s_reqs s !! id = Some r → bufs r = Some bs → lengths_ok bs → (write_index r < length bs)%nat →
  0 ≤ n ≤ bufs_size (drop (write_index r) bs) → bufs_size (drop (write_index r) bs) ≤ write_queue_size s → write_queue_size s < W64 →
  ∃ bs' i', uv__write_req_update id n s = Some (Nat.eqb i' (length bs'),
      set_reqs_map (<[id := {| bufs := Some bs'; write_index := i'; error := error r |}]> (s_reqs s)) (set_size (write_queue_size s - n) s)) ∧
    lengths_ok bs' ∧ (i' ≤ length bs')%nat ∧ bytes_of (drop i' bs') = drop (Z.to_nat n) (bytes_of (drop (write_index r) bs)).
Proof.
  intros Hr Hbs Hl Hi Hn Hs Hw. destruct (update_loop_ok (S (length bs)) bs (write_index r) n Hl Hi Hn ltac:(lia) ltac:(lia))
    as (bs' & i' & Hrun & Hl' & Hlen & Hi' & Hby). exists bs', i'. split; [|split_and!; [done|lia|done]].
  unfold uv__write_req_update, get_req, put_req. rewrite M_get, (proj2 (Z.leb_le _ _)), M_assert, M_modify, M_assoc, M_get by lia.
  cbn [s_reqs set_size]. rewrite Hr, M_lift, Hbs, M_lift, Hrun, M_lift, M_modify, Hlen. by rewrite u64_small by lia.
Qed.

(** What the kernel takes is the front of what is left. *)
Lemma kernel_data k bs i :
  let data := take k (bytes_of (take IOV_MAX (drop i bs))) in
  ∃ rest, bytes_of (drop i bs) = data ++ rest.
Proof.
  exists (drop k (bytes_of (take IOV_MAX (drop i bs))) ++ bytes_of (drop IOV_MAX (drop i bs))).
  rewrite app_assoc, take_drop. unfold bufs_bytes. rewrite <- bind_app, take_drop. done.
Qed.

(** One attempt to write: the head goes on, or is done. *)
Lemma write_ok s A L C Q answers :
  wr_inv s A L C Q → s_closing s = false → valid_answers answers = true →
  ∃ s' C' Q', uv__write byte_at answers s = Some (tt, s') ∧ wr_inv s' A L C' Q' ∧ wframe s s' ∧ woken s s'.
Proof.
  intros Hi Hcl Hans. pose proof Hi as []. destruct (wi_open0 Hcl) as [Hfd _]. unfold valid_answers in Hans.
  destruct answers as [|a answers]; [done|]. cbn [uv__write]. rewrite M_get, (proj2 (Z.leb_le _ _) Hfd), M_assert.
  destruct Q as [|e Q]; [inversion wi_wait0 as [E|]; subst; exists s, C, []; split_and!; try done; by left|].
  destruct (write_queue s) as [|id rest] eqn:Hq; [by inversion wi_wait0|]. assert (write_queue s ≠ []) as Hqn by (by rewrite Hq). pose proof wi_wait0 as Hw.
  apply Forall2_cons in Hw as [[He (r & bs & Hr & Herr & Hbs & Hlens & Hidx & Hpart)] Hrest].
  unfold get_req. rewrite M_assoc, M_get, Hr, M_lift, Hbs, M_lift, wi_blocking0.
  assert (lengths_ok (drop (write_index r) bs)) as Hlens' by (by apply Forall_drop).
  assert (bufs_size (drop (write_index r) bs) ≤ write_queue_size s) as Hfit.
  { rewrite wi_size0, !left_app. cbn [left_of foldr]. fold (left_of Q). pose proof (done_left _ _ _ wi_local0). pose proof (done_left _ _ _ wi_done0).
    pose proof (wait_left _ _ _ Hrest). rewrite <- (bytes_length _ Hlens'). unfold e_left. rewrite <- Hpart, length_app. lia. }
  destruct a as [k|errno].
  - destruct (kernel_data k bs (write_index r)) as [left Hdata]. set (data := take k (bytes_of (take IOV_MAX (drop (write_index r) bs)))) in *.
    pose proof (bytes_length _ Hlens') as Hbl. rewrite Hdata, length_app in Hbl. rewrite M_modify.
    destruct (update_run (set_sent (x_sent s ++ data) s) id r bs (Z.of_nat (length data))) as (bs' & i' & Hrun & Hl' & Hi' & Hby); try done; [lia|].
    bstep Hrun. rewrite Nat2Z.id, Hdata, drop_app_length in Hby. rewrite Hdata, app_assoc, <- Hby in Hpart.
    set (r1 := {| bufs := Some bs'; write_index := i'; error := error r |}). simpl.
    destruct (Nat.eqb_spec i' (length bs')) as [Ei|Ei].
    + set (s1 := set_reqs_map (<[id := r1]> (s_reqs s)) (set_size (write_queue_size s - Z.of_nat (length data)) (set_sent (x_sent s ++ data) s))).
      destruct (finish_run s1 id rest r1) as (s' & Hfin & Hfr & Eq & Ec & Es & Ez & Ef & Er); try done; [simpl; by rewrite lookup_insert_eq|].
      exists s', (C ++ [{| e_id := id; e_bytes := e_bytes e; e_part := e_part e ++ data |}]), Q. split; [exact Hfin|].
      assert (wframe s s') as Hfr' by (destruct Hfr; by split). split; [|split; [done|by right; auto]].
      simpl in Er. rewrite Herr, insert_insert_eq in Er.
      eapply (inv_finish s s' A L C Q e id rest _ data); try done. rewrite Er. split; [done|].
      eexists. rewrite lookup_insert_eq. split; [done|]. left. split_and!; try done. simpl.
      rewrite <- Hpart, drop_ge by lia. cbn. by rewrite app_nil_r.
    + eexists _, C, ({| e_id := id; e_bytes := e_bytes e; e_part := e_part e ++ data |} :: Q). split; [by apply start_out_run|].
      set (s' := set_poll _ _ _ _). assert (wframe s s') as Hfr by done. split; [|split; [done|by right; auto]].
      eapply (inv_progress s s' A L C Q e id rest r1 data); try done; [by left|]. split; [done|]. exists r1, bs'. simpl. rewrite lookup_insert_eq.
      split_and!; try done. lia.
  - cbn [forallb] in Hans. apply andb_true_iff in Hans as [_ Hans]. apply andb_true_iff in Hans as [Hpos _]. apply Z.ltb_lt in Hpos.
    destruct (IS_TRANSIENT_WRITE_ERROR errno).
    + eexists _, C, (e :: Q). split; [by apply start_out_run|]. split; [|split; [done|by right; auto]]. split; try done; [simpl; by rewrite Hq|simpl; congruence].
    + unfold write_error, get_req, put_req. rewrite M_assoc, M_get, Hr, M_lift, M_modify.
      set (r1 := {| bufs := bufs r; write_index := write_index r; error := - errno |}).
      destruct (finish_run (set_reqs_map (<[id := r1]> (s_reqs s)) s) id rest r1) as (s1 & Hfin & Hfr & Eq & Ec & Es & Ez & Ef & Er); try done; [simpl; by rewrite lookup_insert_eq|].
      bstep Hfin. rewrite (bind_Some _ _ _ _ _ (stop_out_run s1 ltac:(by rewrite (fr_fd _ _ Hfr)))), M_get.
      exists (set_poll false (s_fed s1) (if negb (s_pollin s1) then false else s_handle_active s1) s1),
        (C ++ [{| e_id := id; e_bytes := e_bytes e; e_part := e_part e ++ [] |}]), Q.
      split; [simpl; by destruct (s_pollin s1)|]. simpl in Er. rewrite (proj2 (Z.eqb_neq (- errno) 0)), insert_insert_eq in Er by lia.
      assert (wframe s (set_poll false (s_fed s1) (if negb (s_pollin s1) then false else s_handle_active s1) s1)) as Hfr' by (destruct Hfr; by split).
      split; [|split; [done|by right; auto]]. eapply (inv_finish s _ A L C Q e id rest r1 []); try done; simpl; [by rewrite app_nil_r|rewrite Ez; simpl; lia|].
      rewrite Er. split; [done|]. exists r1. rewrite lookup_insert_eq. split; [done|]. right. split; [simpl; lia|]. exists bs. rewrite app_nil_r. done.
Qed.

(** ** Calls *)

(** What a call leaves alone; a closed stream does not change. *)
Record cframe (s s' : uv_stream_t) : Prop := {
  cf_local : local_queue s' = local_queue s;
  cf_called : x_called s' = x_called s;
  cf_connect : connect_req s' = connect_req s;
  cf_accepted : x_accepted s `prefix_of` x_accepted s';
  cf_closed : s_closing s = true → s' = s;
  cf_awake : ∀ q, awake q s → awake q s';
}.

Lemma cframe_refl s : cframe s s.
Proof. by split. Qed.
Lemma cframe_trans s1 s2 s3 : cframe s1 s2 → cframe s2 s3 → cframe s1 s3.
Proof.
  intros [H1 H2 H3 H4 H5 H6] [K1 K2 K3 K4 K5 K6]. split; [congruence..|by etrans| |eauto]. intros Hc. pose proof (H5 Hc). subst. by apply K5.
Qed.

Definition new_entry (id : nat) (bs : list uv_buf_t) : entry := {| e_id := id; e_bytes := bytes_of bs; e_part := [] |}.

(** A new request joins the queue. *)
Lemma inv_append s s' A L C Q id bs :
  wr_inv s A L C Q → id ∉ under_way s → bs ≠ [] → lengths_ok bs → write_queue_size s + bufs_size bs < W64 → s_closing s = false →
  s_reqs s' = <[id := {| bufs := Some bs; write_index := 0; error := 0 |}]> (s_reqs s) → write_queue s' = write_queue s ++ [id] →
  write_completed_queue s' = write_completed_queue s → local_queue s' = local_queue s → x_sent s' = x_sent s → x_called s' = x_called s →
  write_queue_size s' = write_queue_size s + bufs_size bs → x_accepted s' = x_accepted s ++ [(id, bytes_of bs)] →
  s_active_reqs s' = s_active_reqs s + 1 → connect_req s' = connect_req s → shutdown_req s' = shutdown_req s → s_shutting s' = s_shutting s →
  s_closing s' = s_closing s → s_fd s' = s_fd s → s_blocking s' = s_blocking s → wr_inv s' A L C (Q ++ [new_entry id bs]).
Proof.
  intros [] Hn Hne Hl Hfit Hcl Er Eq Ec El Es Ek Ez Ea Eact Econ Eshd Esht Ecl Efd Ebl.
  assert (id ∉ local_queue s ∧ id ∉ write_completed_queue s ∧ id ∉ write_queue s) as (N1 & N2 & N3).
  { unfold under_way in Hn. rewrite !not_elem_of_app in Hn. tauto. }
  assert (under_way s' = under_way s ++ [id]) as Hu by (unfold under_way; by rewrite El, Ec, Eq, <- !app_assoc).
  split; rewrite ?Hu; try (rewrite ?Er, ?Ek, ?El, ?Ec; by auto using done_insert).
  - rewrite Ea, wi_acc0, !fmap_app, <- !app_assoc. done.
  - rewrite Es, wi_sent0, !bind_app. cbn. by rewrite !app_nil_r.
  - rewrite Er, Eq. apply Forall2_app; [by apply wait_insert|]. constructor; [|constructor]. split; [done|]. eexists _, bs. rewrite lookup_insert_eq.
    split_and!; try done. simpl. destruct bs; [done|simpl; lia].
  - destruct Q as [|e Q]; [done|]. simpl. apply Forall_app. split; [done|]. by constructor.
  - apply NoDup_app. split; [done|]. split; [|apply NoDup_singleton]. intros x Hx Hx'. apply list_elem_of_singleton in Hx' as ->. done.
  - rewrite Ez, wi_size0, !left_app. simpl. unfold e_left. simpl. rewrite (bytes_length bs Hl). lia.
  - lia.
  - rewrite length_app, Econ, Eshd, Eact. simpl. lia.
  - rewrite Ecl, Efd, Esht, Eshd. done.
  - rewrite Ecl. congruence.
  - congruence.
Qed.

Lemma valid_write s id bs acquired answers :
  valid_call s (CallWrite id bs acquired answers) = true →
  id ∉ under_way s ∧ bs ≠ [] ∧ lengths_ok bs ∧ write_queue_size s + bufs_size bs < W64 ∧ valid_answers answers = true.
Proof.
  cbn [valid_call]. rewrite !andb_true_iff, bool_decide_eq_true, negb_true_iff, bool_decide_eq_false, Z.ltb_lt. intros [[[[H1 H2] H3] H4] H5].
  split_and!; try done. apply Forall_forall. intros b Hb. rewrite forallb_forall in H3. apply Z.leb_le, H3. by apply list_elem_of_In.
Qed.

Lemma write2_ok s A L C Q id bs acquired answers :
  wr_inv s A L C Q → valid_call s (CallWrite id bs acquired answers) = true →
  ∃ r s' C' Q', uv_write2 byte_at id bs acquired answers s = Some (r, s') ∧ wr_inv s' A L C' Q' ∧ cframe s s'.
Proof.
  intros Hi Hv. destruct (valid_write s id bs acquired answers Hv) as (Hn & Hne & Hl & Hfit & Hans). pose proof Hi as [].
  unfold uv_write2. rewrite bool_decide_eq_false_2 by done. cbn [negb]. rewrite M_assert, M_get.
  destruct (s_closing s) eqn:Hcl.
  { destruct (wi_closed0 eq_refl) as (Hfd & _). rewrite Hfd. simpl. exists UV_EBADF, s, C, Q. split_and!; try done; apply cframe_refl. }
  destruct (wi_open0 eq_refl) as [Hfd Hsh]. rewrite (proj2 (Z.ltb_ge _ _) Hfd).
  destruct (s_writable s); cbn [negb]; [|exists UV_EPIPE, s, C, Q; split_and!; try done; apply cframe_refl].
  unfold uv__req_register. rewrite M_modify. destruct (_ && _).
  { eexists _, _, C, Q. split; [reflexivity|]. split; [|split; try done; congruence].
    clear -Hi. destruct Hi. split; try done. unfold under_way in *. simpl. lia. }
  unfold put_req. rewrite !M_modify. pose proof (size_nonneg bs Hl) as Hnn. pose proof (wait_left _ _ _ wi_wait0). pose proof (done_left _ _ _ wi_local0). pose proof (done_left _ _ _ wi_done0).
  assert (0 ≤ write_queue_size s) as Hsz by (rewrite wi_size0, !left_app; lia).
  set (s1 := set_accepted _ _).
  assert (wr_inv s1 A L C (Q ++ [new_entry id bs])) as Hi1.
  { apply (inv_append s s1 A L C Q id bs); try done; unfold s1; simpl. rewrite count_exact by (done || lia). rewrite u64_small by lia. done. }
  assert (s_closing s1 = false) as Hcl1 by exact Hcl.
  assert (∀ s2, wframe s1 s2 → (∀ q, awake q s → awake q s2) → cframe s s2) as Hfr.
  { intros s2 [] Haw. split; try done; [rewrite fr_accepted0; simpl; by apply prefix_app_r|congruence]. }
  destruct (connect_req s) eqn:Hcon.
  { rewrite M_left_id. eexists _, s1, C, _. split; [reflexivity|]. split; [done|]. apply Hfr; [done|]. intros q Haw _. destruct (Haw Hcl) as (Ha1 & _ & Ha3).
    destruct (Ha1 Hcon) as [Hpo Hco]. split_and!; [done|by left|done]. }
  destruct (write_queue_size s =? 0).
  - destruct (write_ok s1 A L C _ answers Hi1 Hcl1 Hans) as (s2 & C' & Q' & Hw & Hi2 & Hf2 & Hwk). bstep Hw.
    exists 0, s2, C', Q'. split_and!; try done. apply Hfr; [done|]. intros q Haw _. destruct (Haw Hcl) as (_ & _ & Ha3).
    destruct Hwk as [[-> Hx]|[_ [Hf|(Hpo & Hf & Hco)]]]; [by apply app_nil in Hx as [_ ?]|..].
    + split_and!; [by rewrite (fr_connect _ _ Hf2); simpl; rewrite Hcon|by right|done].
    + split_and!; [by rewrite (fr_connect _ _ Hf2); simpl; rewrite Hcon|by left|]. rewrite Hco, Hf. done.
  - rewrite wi_blocking0. cbn [negb]. rewrite M_assoc, M_assert, (bind_Some _ _ _ _ _ (start_out_run s1 Hfd)).
    eexists _, _, C, _. split; [reflexivity|]. split.
    + destruct Hi1. split; try done. intros Hx. change (s_closing s1 = true) in Hx. congruence.
    + apply Hfr; [done|]. intros q Haw _. destruct (Haw Hcl) as (_ & _ & Ha3). split_and!; [by simpl; rewrite Hcon|by left|done].
Qed.

Lemma shutdown_ok s A L C Q :
  wr_inv s A L C Q → ∃ r s', uv_shutdown s = Some (r, s') ∧ wr_inv s' A L C Q ∧ cframe s s'.
Proof.
  intros Hi. unfold uv_shutdown. rewrite M_get. destruct (negb (s_writable s) || s_shut s || s_shutting s || s_closing s) eqn:E.
  { exists UV_ENOTCONN, s. by split_and!. }
  rewrite !orb_false_iff, negb_false_iff in E. destruct E as [[[Ew Es] Esh] Ecl]. destruct (wi_open _ _ _ _ _ Hi Ecl) as [Hfd Hreq].
  rewrite (proj2 (Z.leb_le _ _) Hfd), M_assert. unfold uv__req_register. rewrite !M_modify. erewrite bind_Some by (by apply start_out_run).
  eexists _, _. split; [reflexivity|]. split.
  - rewrite Esh in Hreq. destruct Hi. split; try done.
    + unfold under_way in *. simpl. rewrite <- Hreq in wi_reqs0. simpl in wi_reqs0. lia.
    + intros Hx. simpl in Hx. congruence.
  - split; try done; [congruence|]. intros q Haw _. destruct (Haw Ecl) as (H1 & _ & H3). split_and!; [naive_solver|by left|done].
Qed.

Lemma stream_close_ok s A L C Q :
  wr_inv s A L C Q → s_closing s = false → ∃ s', uv__stream_close s = Some (tt, s') ∧ wr_inv s' A L C Q ∧ cframe s s'.
Proof.
  intros Hi Hcl. unfold uv__stream_close. rewrite M_get, Hcl. cbn [negb]. rewrite M_assert. eexists. split; [reflexivity|].
  split; [|split; try done; congruence]. destruct Hi. by split.
Qed.

Lemma do_call_ok s A L C Q c :
  wr_inv s A L C Q → valid_call s c = true →
  ∃ s' C' Q', do_call byte_at c s = Some (tt, s') ∧ wr_inv s' A L C' Q' ∧ cframe s s'.
Proof.
  intros Hi Hv. destruct c as [id bs acquired answers| |]; cbn [do_call].
  - destruct (write2_ok s A L C Q id bs acquired answers Hi Hv) as (r & s' & C' & Q' & Hr & Hi' & Hf). bstep Hr. by exists s', C', Q'.
  - destruct (shutdown_ok s A L C Q Hi) as (r & s' & Hr & Hi' & Hf). bstep Hr. by exists s', C, Q.
  - cbn [valid_call] in Hv. apply negb_true_iff in Hv. destruct (stream_close_ok s A L C Q Hi Hv) as (s' & Hr & Hi' & Hf). by exists s', C, Q.
Qed.

Lemma do_calls_ok cs : ∀ s A L C Q,
  wr_inv s A L C Q → ∃ s' C' Q', do_calls byte_at cs s = Some (tt, s') ∧ wr_inv s' A L C' Q' ∧ cframe s s'.
Proof.
  induction cs as [|c cs IH]; intros s A L C Q Hi; cbn [do_calls].
  { exists s, C, Q. by split_and!. }
  rewrite M_get. destruct (valid_call s c) eqn:Hv.
  - destruct (do_call_ok s A L C Q c Hi Hv) as (s1 & C1 & Q1 & Hr & Hi1 & Hf1). bstep Hr.
    destruct (IH s1 A L C1 Q1 Hi1) as (s2 & C2 & Q2 & Hr2 & Hi2 & Hf2). exists s2, C2, Q2. split_and!; try done. by apply (cframe_trans s s1 s2).
  - rewrite M_left_id. by apply (IH s A L C Q).
Qed.

(** ** Callbacks *)

Section Loop.
Context (react : callback → list call).

(** A request is reported: it moves to the reported ones, its size is given back. *)
Lemma inv_report s s' A L C Q e id pq r :
  wr_inv s A (e :: L) C Q → local_queue s = id :: pq → s_reqs s !! id = Some r →
  s_reqs s' = <[id := {| bufs := None; write_index := write_index r; error := error r |}]> (s_reqs s) →
  write_queue s' = write_queue s → write_completed_queue s' = write_completed_queue s → local_queue s' = pq → x_sent s' = x_sent s →
  x_called s' = x_called s ++ [(id, error r)] → write_queue_size s' = write_queue_size s - e_left e → x_accepted s' = x_accepted s →
  s_active_reqs s' = s_active_reqs s - 1 → connect_req s' = connect_req s → shutdown_req s' = shutdown_req s → s_shutting s' = s_shutting s →
  s_closing s' = s_closing s → s_fd s' = s_fd s → s_blocking s' = s_blocking s → s_pollout s' = s_pollout s → s_pollin s' = s_pollin s →
  s_writable s' = s_writable s → wr_inv s' (A ++ [e]) L C Q.
Proof.
  intros [] Hq Hr Er Eq Ec El Es Ek Ez Ea Eact Econ Eshd Esht Ecl Efd Ebl Epo Epi Ewr.
  rewrite Hq in wi_local0. apply Forall2_cons in wi_local0 as [[He (r' & Hr' & Hcase)] Hrest]. assert (r' = r) as -> by congruence.
  assert (under_way s = id :: under_way s') as Hu by (unfold under_way; by rewrite Hq, El, Ec, Eq).
  rewrite Hu in wi_nodup0, wi_reqs0. apply NoDup_cons in wi_nodup0 as [Hn Hnd].
  assert (id ∉ local_queue s' ∧ id ∉ write_completed_queue s' ∧ id ∉ write_queue s') as (N1 & N2 & N3).
  { unfold under_way in Hn. rewrite !not_elem_of_app in Hn. tauto. }
  split; try (rewrite ?Er, ?El, <- ?Ec, <- ?Eq, <- ?El; by auto using done_insert, wait_insert).
  - rewrite Ea, wi_acc0, <- app_assoc. done.
  - rewrite Es, wi_sent0, <- app_assoc. done.
  - rewrite Ek. apply Forall2_app; [done|]. constructor; [|constructor]. split; [done|]. simpl.
    destruct Hcase as [(E1 & _ & E2)|(E1 & bs & _ & _ & E2)]; [rewrite E2; split_and!; [done|lia|done]|].
    split_and!; [rewrite <- E2; by apply prefix_app_r|lia|lia].
  - rewrite Er, El. apply done_insert; [by rewrite El in N1|done].
  - rewrite Er, Ec. apply done_insert; [by rewrite Ec in N2|done].
  - rewrite Er, Eq. apply wait_insert; [by rewrite Eq in N3|done].
  - rewrite Ez, wi_size0. cbn [app left_of foldr]. fold (left_of (L ++ C ++ Q)). lia.
  - rewrite Ez. destruct Hcase as [(_ & _ & E2)|(_ & bs & _ & _ & E2)]; unfold e_left; rewrite <- E2; rewrite ?length_app; lia.
  - rewrite Econ, Eshd, Eact. simpl in wi_reqs0. lia.
  - rewrite Ecl, Efd, Esht, Eshd. done.
  - rewrite Ecl, Efd, Epo, Epi, Ewr. done.
  - congruence.
Qed.

Lemma pop_ok s A L C Q e id pq :
  wr_inv s A (e :: L) C Q → local_queue s = id :: pq →
  ∃ err s', pop_completed id pq s = Some (err, s') ∧ wr_inv s' (A ++ [e]) L C Q ∧ connect_req s' = connect_req s ∧
    s_closing s' = s_closing s ∧ shutdown_req s' = shutdown_req s ∧ local_queue s' = pq ∧ write_queue s' = write_queue s ∧
    write_completed_queue s' = write_completed_queue s ∧ x_accepted s' = x_accepted s ∧ (∀ q, awake q s → awake q s').
Proof.
  intros Hi Hq. pose proof Hi as []. pose proof wi_local0 as Hl. rewrite Hq in Hl. apply Forall2_cons in Hl as [[He (r & Hr & Hcase)] Hrest].
  unfold pop_completed, uv__req_unregister, put_req, uv__write_req_size, get_req. rewrite M_modify, M_assoc, M_get.
  assert (0 < s_active_reqs s) as Hact.
  { assert (under_way s = id :: (pq ++ write_completed_queue s ++ write_queue s)) as Hu by (unfold under_way; by rewrite Hq).
    rewrite Hu in wi_reqs0. simpl in wi_reqs0. destruct (connect_req s), (shutdown_req s); simpl in wi_reqs0; lia. }
  cbn [s_active_reqs set_queues]. rewrite (proj2 (Z.ltb_lt _ _) Hact), M_assoc, M_assert, M_modify, M_assoc, M_get. cbn [s_reqs set_active_reqs set_queues].
  rewrite Hr, M_lift. destruct Hcase as [(E1 & E2 & E3)|(E1 & bs & E2 & E3 & E4)]; rewrite E2.
  - rewrite M_left_id, M_modify. eexists _, _. split; [reflexivity|]. split; [|done].
    eapply (inv_report s _ A L C Q e id pq r); try done; simpl.
    + rewrite insert_id; [done|]. rewrite Hr. f_equal. destruct r as [b i er]; simpl in *. by subst.
    + unfold e_left. rewrite E3. lia.
  - assert (lengths_ok (drop (write_index r) bs)) as Hlens by (by apply Forall_drop).
    assert (bufs_size (drop (write_index r) bs) = e_left e) as Hsz.
    { rewrite <- (bytes_length _ Hlens). unfold e_left. rewrite <- E4, length_app. lia. }
    assert (e_left e ≤ write_queue_size s) as Hfit.
    { rewrite wi_size0. cbn [app left_of foldr]. fold (left_of (L ++ C ++ Q)). rewrite !left_app. pose proof (done_left _ _ _ Hrest).
      pose proof (done_left _ _ _ wi_done0). pose proof (wait_left _ _ _ wi_wait0). lia. }
    pose proof (size_nonneg _ Hlens).
    rewrite !M_assoc, M_get. cbn [s_reqs set_active_reqs set_queues]. rewrite Hr, M_lift, M_assoc, E2, M_lift, M_assoc, M_get, M_assoc.
    cbn [write_queue_size set_active_reqs set_queues]. rewrite count_exact by (done || lia).
    rewrite (proj2 (Z.leb_le _ _)), M_assert, M_left_id, M_assoc, M_modify, M_modify, M_modify by lia. rewrite u64_small by (simpl; lia).
    eexists _, _. split; [reflexivity|]. split; [|done]. eapply (inv_report s _ A L C Q e id pq r); try done; simpl. lia.
Qed.

(** What the callbacks leave: a closed stream stays closed and takes nothing new. *)
Record gframe (s s' : uv_stream_t) : Prop := {
  gf_connect : connect_req s' = connect_req s;
  gf_accepted : x_accepted s `prefix_of` x_accepted s';
  gf_closed : s_closing s = true → s_closing s' = true ∧ write_queue s' = write_queue s ∧
    write_completed_queue s' = write_completed_queue s ∧ shutdown_req s' = shutdown_req s;
  gf_awake : ∀ q, awake q s → awake q s';
}.

Lemma gframe_trans s1 s2 s3 : gframe s1 s2 → gframe s2 s3 → gframe s1 s3.
Proof.
  intros [H1 H2 H3 H4] [K1 K2 K3 K4]. split; [congruence|by etrans| |by auto]. intros Hc. destruct (H3 Hc) as (E1 & E2 & E3 & E4). destruct (K3 E1) as (F1 & F2 & F3 & F4).
  split_and!; congruence.
Qed.
Lemma gframe_calls s s' : cframe s s' → gframe s s'.
Proof. intros []. split; [done|done| |done]. intros Hc. by rewrite (cf_closed0 Hc). Qed.

Lemma callbacks_loop_ok fuel : ∀ s A L C Q,
  wr_inv s A L C Q → (length (local_queue s) ≤ fuel)%nat →
  ∃ s' A' C' Q', callbacks_loop byte_at react fuel s = Some (tt, s') ∧ wr_inv s' A' [] C' Q' ∧ gframe s s'.
Proof.
  induction fuel as [|fuel IH]; intros s A L C Q Hi Hf; cbn [callbacks_loop]; rewrite M_get.
  all: destruct (local_queue s) as [|id pq] eqn:Hq; [|simpl in Hf].
  1,3: pose proof (wi_local _ _ _ _ _ Hi) as Hl; rewrite Hq in Hl; inversion Hl; subst; exists s, A, C, Q; by split_and!.
  { lia. }
  pose proof (wi_local _ _ _ _ _ Hi) as Hl. rewrite Hq in Hl. destruct L as [|e L]; [by inversion Hl|].
  destruct (pop_ok s A L C Q e id pq Hi Hq) as (err & s1 & Hp & Hi1 & E1 & E2 & E3 & E4 & E5 & E6 & E7 & E8). bstep Hp.
  destruct (do_calls_ok (react (OnWrite id err)) s1 (A ++ [e]) L C Q Hi1) as (s2 & C2 & Q2 & Hc & Hi2 & Hf2). bstep Hc.
  destruct (IH s2 (A ++ [e]) L C2 Q2 Hi2) as (s3 & A3 & C3 & Q3 & Hr & Hi3 & Hf3); [rewrite (cf_local _ _ Hf2), E4; lia|].
  exists s3, A3, C3, Q3. split_and!; try done. apply (gframe_trans s s1 s3); [split; [done|by rewrite E7|intros ?; split_and!; congruence|done]|].
  apply (gframe_trans s1 s2 s3); [by apply gframe_calls|done].
Qed.

Lemma callbacks_ok s A C Q :
  wr_inv s A [] C Q →
  ∃ s' A' C' Q', uv__write_callbacks byte_at react s = Some (tt, s') ∧ wr_inv s' A' [] C' Q' ∧ connect_req s' = connect_req s ∧
    x_accepted s `prefix_of` x_accepted s' ∧ (s_closing s = true → s_closing s' = true ∧ write_queue s' = write_queue s ∧
      write_completed_queue s' = [] ∧ shutdown_req s' = shutdown_req s) ∧ (∀ q, awake q (set_queues (write_queue s) [] (local_queue s) s) → awake q s').
Proof.
  intros Hi. unfold uv__write_callbacks. rewrite M_get. destruct (write_completed_queue s) as [|c cs] eqn:Ec.
  { exists s, A, C, Q. split_and!; try done. intros q. unfold awake. simpl. by rewrite Ec. }
  rewrite M_modify. pose proof (wi_local _ _ _ _ _ Hi) as Hl. apply Forall2_nil_inv_l in Hl as E.
  assert (wr_inv (set_queues (write_queue s) [] (c :: cs) s) A C [] Q) as Hi'.
  { destruct Hi. unfold under_way in *. rewrite E, Ec in *. by split. }
  destruct (callbacks_loop_ok (length (c :: cs)) _ A C [] Q Hi') as (s' & A' & C' & Q' & Hr & Hi2 & [G1 G2 G3 G4]); [done|].
  exists s', A', C', Q'. split_and!; try done.
Qed.

(** ** The loop *)

Lemma unregister_run s : 0 < s_active_reqs s → ∀ B (k : unit → M uv_stream_t B),
  (uv__req_unregister ≫= k) s = k tt (set_active_reqs (s_active_reqs s - 1) s).
Proof. intros H B k. unfold uv__req_unregister. by rewrite M_assoc, M_get, (proj2 (Z.ltb_lt _ _) H), M_assoc, M_assert, M_modify. Qed.

Lemma drain_ok s A C shutdown_err :
  wr_inv s A [] C [] →
  ∃ s' C' Q', uv__drain byte_at react shutdown_err s = Some (tt, s') ∧ wr_inv s' A [] C' Q' ∧ x_accepted s `prefix_of` x_accepted s' ∧
    (connect_req s = false → awake true s → awake true s').
Proof.
  intros Hi. pose proof (wi_wait _ _ _ _ _ Hi) as Hq. apply Forall2_nil_inv_l in Hq. unfold uv__drain.
  rewrite M_get, bool_decide_eq_true_2, M_assert, (bind_Some _ _ _ _ _ (stop_out_any _ _ _ _ _ Hi)) by done. set (s1 := set_poll _ _ _ s).
  assert (wr_inv s1 A [] C []) as Hi1 by (destruct Hi; split; try done; naive_solver).
  assert (connect_req s = false → awake true s → awake true s1) as Haw1.
  { intros Hc Haw Hcl. destruct (Haw Hcl) as (_ & _ & H3). split_and!; [simpl; congruence|done|done]. }
  destruct (s_shutting s && negb (s_closing s) && negb (s_shut s)) eqn:E; [|exists s1, C, []; by split_and!].
  rewrite !andb_true_iff, !negb_true_iff in E. destruct E as [[Esh Ecl] _]. destruct (wi_open _ _ _ _ _ Hi Ecl) as [Hfd Hreq].
  rewrite Esh in Hreq. rewrite <- Hreq, M_assert, unregister_run.
  2: { pose proof (wi_reqs _ _ _ _ _ Hi1) as H. change (shutdown_req s1) with (shutdown_req s) in H. rewrite <- Hreq in H. destruct (connect_req s1); simpl in *; lia. }
  rewrite M_modify. set (s2 := set_shutdown _ _ _ _ _).
  assert (wr_inv s2 A [] C []) as Hi2.
  { destruct Hi1. split; try done. unfold under_way in *. simpl in *. rewrite <- Hreq in wi_reqs0. simpl in *. lia. }
  destruct (do_calls_ok (react (OnShutdown shutdown_err)) s2 A [] C [] Hi2) as (s3 & C3 & Q3 & Hr & Hi3 & Hf3).
  exists s3, C3, Q3. split_and!; try done; [exact (cf_accepted _ _ Hf3)|]. intros Hc Haw. apply (cf_awake _ _ Hf3). exact (Haw1 Hc Haw).
Qed.

(** Flushing: every request that waits is done, in error. *)
Lemma flush_lookup (f : uv_write_t → uv_write_t) ids : ∀ (m : gmap nat uv_write_t) (id : nat), NoDup ids →
  foldl (λ m id, alter f id m) m ids !! id = if decide (id ∈ ids) then f <$> m !! id else m !! id.
Proof.
  induction ids as [|i ids IH]; intros m id Hn; [done|]. apply NoDup_cons in Hn as [Hi Hn]. simpl. rewrite IH by done.
  destruct (decide (id = i)) as [->|Hne].
  - rewrite (decide_False (P := i ∈ ids)), decide_True by (done || by left). by rewrite lookup_alter_eq.
  - rewrite lookup_alter_ne by done. apply decide_ext. rewrite elem_of_cons. naive_solver.
Qed.

Lemma done_same m m' es ids : (∀ id, id ∈ ids → m' !! id = m !! id) → Forall2 (done_ok m) es ids → Forall2 (done_ok m') es ids.
Proof.
  intros Hm H. induction H as [|e id es ids [He (r & Hr & Hc)] H IH]; constructor.
  - split; [done|]. exists r. by rewrite Hm by left.
  - apply IH. intros i Hi. apply Hm. by right.
Qed.
Lemma wait_flushed m m' err es ids :
  err < 0 → (∀ id, id ∈ ids → m' !! id = (λ r, {| bufs := bufs r; write_index := write_index r; error := err |}) <$> m !! id) →
  Forall2 (wait_ok m) es ids → Forall2 (done_ok m') es ids.
Proof.
  intros Herr Hm H. induction H as [|e id es ids [He (r & bs & Hr & _ & Hbs & Hl & _ & Hp)] H IH]; constructor.
  - split; [done|]. rewrite (Hm id) by left. rewrite Hr. eexists. split; [done|]. right. split; [done|]. by exists bs.
  - apply IH. intros i Hi. apply Hm. by right.
Qed.

Lemma flush_ok s A C Q err :
  wr_inv s A [] C Q → err < 0 →
  ∃ s', uv__stream_flush_write_queue err s = Some (tt, s') ∧ wr_inv s' A [] (C ++ Q) [] ∧ write_queue s' = [] ∧ x_accepted s' = x_accepted s ∧
    s_closing s' = s_closing s ∧ shutdown_req s' = shutdown_req s ∧ connect_req s' = connect_req s.
Proof.
  intros Hi Herr. eexists. split; [reflexivity|]. split; [|done]. destruct Hi. unfold under_way in *.
  pose proof (Forall2_nil_inv_l _ _ wi_local0) as El. rewrite El in *. simpl in wi_nodup0. pose proof wi_nodup0 as Hn. apply NoDup_app in Hn as (_ & Hdis & Hn).
  split; unfold under_way; simpl; rewrite ?El, ?app_nil_r; try done. apply Forall2_app.
  - eapply done_same, wi_done0. intros id Hid. rewrite flush_lookup by done. rewrite decide_False; [done|]. by apply Hdis.
  - eapply wait_flushed, wi_wait0; [done|]. intros id Hid. rewrite flush_lookup by done. by rewrite decide_True.
Qed.

Lemma stream_connect_ok s A C Q err :
  wr_inv s A [] C Q → connect_req s = true → s_closing s = false →
  ∃ s' A' C' Q', uv__stream_connect byte_at react err s = Some (tt, s') ∧ wr_inv s' A' [] C' Q' ∧ x_accepted s `prefix_of` x_accepted s' ∧
    (awake true s → awake true s').
Proof.
  intros Hi Hc Hcl. unfold uv__stream_connect. rewrite M_get, Hc, M_assert. destruct (err =? - EINPROGRESS); [exists s, A, C, Q; by split_and!|].
  rewrite unregister_run by (pose proof (wi_reqs _ _ _ _ _ Hi) as H; rewrite Hc in H; destruct (shutdown_req s); simpl in H; lia).
  set (s1 := set_active_reqs _ s). set (s2 := if (err <? 0) || bool_decide (write_queue s = []) then set_poll false (s_fed s) (s_handle_active s) s1 else s1).
  assert (((if (err <? 0) || bool_decide (write_queue s = []) then uv__io_stop_out else mret tt) : M uv_stream_t unit) s1 = Some (tt, s2)) as Hst.
  { unfold s2. destruct (_ || _); [|done]. apply (stop_out_run s1). by destruct (wi_open _ _ _ _ _ Hi Hcl). }
  bstep Hst. set (s3 := set_connect _ _ s2).
  assert (wr_inv s3 A [] C Q) as Hi3.
  { destruct Hi. rewrite Hc in wi_reqs0. unfold s3, s2. destruct (_ || _); split; try done; unfold under_way in *; simpl in *; naive_solver lia. }
  assert (x_accepted s3 = x_accepted s) as Ha3 by (unfold s3, s2; by destruct (_ || _)).
  assert (awake true s → awake (negb (err <? 0)) s3) as Haw3.
  { intros Haw _. destruct (Haw Hcl) as (H1 & _ & _). destruct (H1 Hc) as [Hpo Hco]. unfold s3, s2.
    destruct (err <? 0), (bool_decide_reflect (write_queue s = [])); simpl; naive_solver. }
  destruct (do_calls_ok (react (OnConnect err)) s3 A [] C Q Hi3) as (s4 & C4 & Q4 & Hr & Hi4 & Hf4). bstep Hr.
  pose proof (cf_accepted _ _ Hf4) as Hp4. rewrite Ha3 in Hp4. pose proof (λ H, cf_awake _ _ Hf4 _ (Haw3 H)) as Haw4.
  destruct (Z.eqb_spec (s_fd s4) (-1)) as [Hfd|Hfd].
  { exists s4, A, C4, Q4. split_and!; try done. intros _ Hop. destruct (wi_open _ _ _ _ _ Hi4 Hop). lia. }
  destruct (err <? 0); [|by exists s4, A, C4, Q4].
  destruct (flush_ok s4 A C4 Q4 UV_ECANCELED Hi4) as (s5 & Hr5 & Hi5 & Eq5 & Ea & _ & _ & Ec5); [done|]. bstep Hr5.
  destruct (callbacks_ok s5 A _ [] Hi5) as (s6 & A6 & C6 & Q6 & Hr6 & Hi6 & _ & Hp6 & _ & Haw6). exists s6, A6, C6, Q6. split_and!; try done.
  - rewrite Ea in Hp6. by etrans.
  - intros _. apply Haw6. intros _. simpl. rewrite Eq5, Ec5, (cf_connect _ _ Hf4). unfold s3. done.
Qed.

Lemma io_ok s A C Q answers shutdown_err connect_err :
  wr_inv s A [] C Q → s_closing s = false → valid_answers answers = true →
  ∃ s' A' C' Q', uv__stream_io_out byte_at react answers shutdown_err connect_err s = Some (tt, s') ∧ wr_inv s' A' [] C' Q' ∧
    x_accepted s `prefix_of` x_accepted s' ∧ (awake true s → awake true s').
Proof.
  intros Hi Hcl Ha. unfold uv__stream_io_out. rewrite M_modify, M_get. set (s1 := set_poll _ _ _ s).
  assert (wr_inv s1 A [] C Q) as Hi1 by (destruct Hi; by split). change (s_closing s1) with (s_closing s). rewrite Hcl. cbn [negb]. rewrite M_assert.
  destruct (connect_req s1) eqn:Hc.
  { destruct (stream_connect_ok s1 A C Q connect_err Hi1 Hc Hcl) as (s2 & A2 & C2 & Q2 & Hr2 & Hi2 & Hp2 & Haw2). exists s2, A2, C2, Q2. split_and!; try done.
    intros Haw. apply Haw2. intros _. destruct (Haw Hcl) as (H1 & _). destruct (H1 Hc) as [Hpo Hco]. simpl. rewrite Hpo, Hco. naive_solver. }
  destruct (wi_open _ _ _ _ _ Hi1 Hcl) as [Hfd _]. rewrite (proj2 (Z.leb_le _ _) Hfd), M_assert.
  destruct (write_ok s1 A [] C Q answers Hi1 Hcl Ha) as (s2 & C2 & Q2 & Hr2 & Hi2 & Hf2 & Hwk). bstep Hr2.
  destruct (callbacks_ok s2 A C2 Q2 Hi2) as (s3 & A3 & C3 & Q3 & Hr3 & Hi3 & Ec3 & Hp3 & _ & Haw3). bstep Hr3.
  assert (awake true s3) as Haw.
  { apply Haw3. intros _. simpl. rewrite (fr_connect _ _ Hf2), Hc. split_and!; [done| |done]. intros _ Hq.
    destruct Hwk as [[-> Hx]|[_ [Hf|(Hpo & _)]]]; [done|by right|by left]. }
  rewrite (fr_accepted _ _ Hf2) in Hp3. destruct (bool_decide_reflect (write_queue s3 = [])) as [Eq|]; [|by exists s3, A3, C3, Q3].
  pose proof (wi_wait _ _ _ _ _ Hi3) as Hw. rewrite Eq in Hw. apply Forall2_nil_inv_r in Hw as ->.
  destruct (drain_ok s3 A3 C3 shutdown_err Hi3) as (s4 & C4 & Q4 & Hr4 & Hi4 & Hp4 & Haw4). exists s4, A3, C4, Q4.
  split_and!; try done; [by etrans|]. intros _. apply Haw4; [|done]. by rewrite Ec3, (fr_connect _ _ Hf2).
Qed.

(** A closed stream: the calls do nothing. *)
Lemma calls_closed cs s : s_closing s = true → s_fd s = -1 → s_writable s = false → do_calls byte_at cs s = Some (tt, s).
Proof.
  intros Hc Hfd Hw. induction cs as [|c cs IH]; [done|]. cbn [do_calls]. rewrite M_get. destruct (valid_call s c) eqn:Hv; [|by rewrite M_left_id].
  rewrite (bind_Some _ _ _ tt s); [done|]. destruct c as [id bs acquired answers| |]; cbn [do_call].
  - destruct (valid_write s id bs acquired answers Hv) as (_ & Hne & _). unfold uv_write2. rewrite bool_decide_eq_false_2 by done. cbn [negb].
    by rewrite M_assoc, M_assert, M_assoc, M_get, Hfd.
  - unfold uv_shutdown. by rewrite M_assoc, M_get, Hw.
  - cbn [valid_call] in Hv. by rewrite Hc in Hv.
Qed.

(** The two requests that are reported when the stream is destroyed. *)
Lemma destroy_connect s A C Q :
  wr_inv s A [] C Q → s_closing s = true →
  let s1 := if connect_req s then set_connect false (x_connected s ++ [UV_ECANCELED]) (set_active_reqs (s_active_reqs s - 1) s) else s in
  (if connect_req s then
     uv__req_unregister;;
     modify (λ s, set_connect true (x_connected s ++ [UV_ECANCELED]) s);;
     do_calls byte_at (react (OnConnect UV_ECANCELED));;
     modify (λ s, set_connect false (x_connected s) s)
   else mret tt) s = Some (tt, s1) ∧ wr_inv s1 A [] C Q.
Proof.
  intros Hi Hcl. destruct (connect_req s) eqn:Hc; [|done]. pose proof Hi as []. destruct (wi_closed0 Hcl) as (Hfd & _ & _ & Hw).
  rewrite Hc in wi_reqs0. split.
  - rewrite unregister_run, M_modify by (destruct (shutdown_req s); simpl in *; lia). by erewrite bind_Some by (by apply calls_closed).
  - split; try done. unfold under_way in *. simpl in *. lia.
Qed.

Lemma destroy_shutdown s A C Q :
  wr_inv s A [] C Q → s_closing s = true →
  let s1 := if shutdown_req s then set_shutdown (s_shutting s) (s_shut s) false (x_shut s ++ [UV_ECANCELED]) (set_active_reqs (s_active_reqs s - 1) s) else s in
  (if shutdown_req s then
     uv__req_unregister;;
     modify (set_shutdown (s_shutting s) (s_shut s) true (x_shut s ++ [UV_ECANCELED]));;
     do_calls byte_at (react (OnShutdown UV_ECANCELED));;
     modify (λ s, set_shutdown (s_shutting s) (s_shut s) false (x_shut s) s)
   else mret tt) s = Some (tt, s1) ∧ wr_inv s1 A [] C Q.
Proof.
  intros Hi Hcl. destruct (shutdown_req s) eqn:Hc; [|done]. pose proof Hi as []. destruct (wi_closed0 Hcl) as (Hfd & _ & _ & Hw).
  rewrite Hc in wi_reqs0. split.
  - rewrite unregister_run, M_modify by (destruct (connect_req s); simpl in *; lia). by erewrite bind_Some by (by apply calls_closed).
  - split; try done; [unfold under_way in *; simpl in *; lia|simpl; congruence].
Qed.

Lemma destroy_ok s A C Q :
  wr_inv s A [] C Q → s_closing s = true →
  ∃ s' A', uv__stream_destroy byte_at react s = Some (tt, s') ∧ wr_inv s' A' [] [] [] ∧ s_closing s' = true ∧ x_accepted s `prefix_of` x_accepted s' ∧
    connect_req s' = false ∧ shutdown_req s' = false.
Proof.
  intros Hi Hcl. pose proof Hi as []. destruct (wi_closed0 Hcl) as (_ & Hpo & Hpi & _). unfold uv__stream_destroy.
  rewrite M_get, Hpo, Hpi, Hcl, !M_assert. destruct (destroy_connect s A C Q Hi Hcl) as [Hr1 Hi1]. bstep Hr1. set (s1 := if connect_req s then _ else s) in *.
  assert (s_closing s1 = true ∧ connect_req s1 = false ∧ x_accepted s1 = x_accepted s) as (Hcl1 & Hc1 & Ha1) by (unfold s1; by destruct (connect_req s) eqn:?).
  destruct (flush_ok s1 A C Q UV_ECANCELED Hi1) as (s2 & Hr2 & Hi2 & Eq2 & Ea2 & Ecl2 & Esd2 & Ec2); [done|]. bstep Hr2.
  destruct (callbacks_ok s2 A _ [] Hi2) as (s3 & A3 & C3 & Q3 & Hr3 & Hi3 & Ec3 & Hp3 & Hcl3 & _). bstep Hr3.
  rewrite Ecl2, Eq2 in Hcl3. destruct (Hcl3 Hcl1) as (Hcl3' & Eq3 & Edone3 & _).
  pose proof (wi_wait _ _ _ _ _ Hi3) as Hw. rewrite Eq3 in Hw. apply Forall2_nil_inv_r in Hw as ->.
  pose proof (wi_done _ _ _ _ _ Hi3) as Hw. rewrite Edone3 in Hw. apply Forall2_nil_inv_r in Hw as ->.
  destruct (destroy_shutdown s3 A3 [] [] Hi3 Hcl3') as [Hr4 Hi4]. bstep Hr4. set (s4 := if shutdown_req s3 then _ else s3) in *.
  rewrite (wi_size _ _ _ _ _ Hi4). exists s4, A3. split; [done|]. split; [done|].
  assert (s_closing s4 = true ∧ x_accepted s4 = x_accepted s3 ∧ connect_req s4 = connect_req s3 ∧ shutdown_req s4 = false) as (E1 & E2 & E3 & E4)
    by (unfold s4; by destruct (shutdown_req s3) eqn:?).
  split_and!; [done|rewrite E2, <- Ha1, <- Ea2; done|congruence|done].
Qed.
End Loop.
End Stream.
