(* ===== verification/UvStreamSpec.v ===== *)
(** What a program may rely on when it writes to a stream: every run of calls, readiness and
    closing is defined, the bytes leave in the order of the calls, every write is reported
    once and in order, and a stream that waits for nothing owes nothing. *)
From stdpp Require Import base numbers list option gmap.
From Stdlib Require Import ZArith Lia.
From S2P Require Import Prelude UvStream UvStreamRun.

Local Open Scope Z_scope.
Local Open Scope c_scope.

Section Stream.
Context (byte_at : Z → Z) (react : callback → list call).
Abbreviation wr_inv := (wr_inv byte_at).

(** ** Exactness *)

(** [parts]: of each accepted write, the bytes that have left.  What the kernel took is
    these, one after the other; each is the front of what was asked; a byte leaves only
    when no earlier write waits; the reports are of the first writes, in order, and 0 only
    of a write that left whole; the queue size is what is left of those not reported. *)
Record writes_exact (s : uv_stream_t) (parts : list (list Z)) : Prop := {
  we_sent : x_sent s = mjoin parts;
  we_parts : Forall2 (λ p a, p `prefix_of` a.2) parts (x_accepted s);
  we_ids : (x_called s).*1 ++ under_way s = (x_accepted s).*1;
  we_status : ∀ i id st, x_called s !! i = Some (id, st) → st ≤ 0 ∧ (st = 0 → ∃ p, parts !! i = Some p ∧ x_accepted s !! i = Some (id, p));
  we_order : ∀ i j p, (i < j)%nat → parts !! j = Some p → p ≠ [] → (i < length (x_called s) + length (write_completed_queue s))%nat;
  we_size : write_queue_size s = foldr (λ pa n, Z.of_nat (length pa.2.2) - Z.of_nat (length pa.1) + n) 0 (drop (length (x_called s)) (zip parts (x_accepted s)));
}.

Lemma parts_prefix m A C Q called completed waiting :
  Forall2 called_ok A called → Forall2 (done_ok byte_at m) C completed → Forall2 (wait_ok byte_at m) Q waiting →
  Forall (λ e, e_part e `prefix_of` e_bytes e) (A ++ C ++ Q).
Proof.
  intros HA HC HQ. rewrite !Forall_app. split_and!.
  - induction HA as [|e k A called (_ & Hp & _) _ IH]; by constructor.
  - induction HC as [|e id C completed (_ & r & _ & Hc) _ IH]; constructor; [|done].
    destruct Hc as [(_ & _ & E)|(_ & bs & _ & _ & E)]; [by rewrite E|rewrite <- E; by apply prefix_app_r].
  - induction HQ as [|e id Q waiting (_ & r & bs & _ & _ & _ & _ & _ & E) _ IH]; constructor; [rewrite <- E; by apply prefix_app_r|done].
Qed.

Lemma ids_of {B} (P : entry → B → Prop) (f : B → nat) es ks : (∀ e k, P e k → e_id e = f k) → Forall2 P es ks → f <$> ks = e_id <$> es.
Proof. intros Hf H. induction H as [|e k es ks Hk _ IH]; [done|]. rewrite !fmap_cons, IH. by rewrite (Hf e k Hk). Qed.

Lemma left_zip es : left_of es = foldr (λ pa n, Z.of_nat (length pa.2.2) - Z.of_nat (length pa.1) + n) 0 (zip (e_part <$> es) ((λ e, (e_id e, e_bytes e)) <$> es)).
Proof. induction es as [|e es IH]; [done|]. cbn. f_equal. exact IH. Qed.

Lemma inv_exact s A C Q : wr_inv s A [] C Q → writes_exact s (e_part <$> (A ++ C ++ Q)).
Proof.
  intros []. simpl in *. pose proof (Forall2_nil_inv_l _ _ wi_local) as El.
  assert (length (x_called s) = length A) as Hla by (by rewrite (Forall2_length _ _ _ wi_called)).
  assert (length (write_completed_queue s) = length C) as Hlc by (by rewrite (Forall2_length _ _ _ wi_done)).
  split.
  - rewrite wi_sent. clear. induction (A ++ C ++ Q) as [|e es IH]; [done|]. cbn in *. by rewrite IH.
  - rewrite wi_acc, Forall2_fmap. apply Forall_Forall2_diag. by eapply parts_prefix.
  - unfold under_way. rewrite El, wi_acc, <- list_fmap_compose. simpl.
    rewrite (ids_of called_ok fst A (x_called s)); [|by intros ?? [? _]|done].
    rewrite <- (list_fmap_id (write_completed_queue s)), <- (list_fmap_id (write_queue s)).
    rewrite (ids_of (done_ok byte_at (s_reqs s)) id C (write_completed_queue s)); [|by intros ?? [? _]|done].
    rewrite (ids_of (wait_ok byte_at (s_reqs s)) id Q (write_queue s)); [|by intros ?? [? _]|done]. by rewrite <- !fmap_app.
  - intros i id st Hi. destruct (Forall2_lookup_r _ _ _ _ _ wi_called Hi) as (e & He & Hid & _ & Hst & Hz). simpl in *.
    split; [done|]. intros E. exists (e_part e). rewrite wi_acc, !list_lookup_fmap, !lookup_app_l by (by eapply lookup_lt_Some).
    rewrite He. simpl. split; [done|]. by rewrite Hid, Hz.
  - intros i j p Hij Hj Hp. destruct (decide (i < length (x_called s) + length (write_completed_queue s))%nat) as [|Hge]; [done|]. exfalso. apply Hp.
    rewrite list_lookup_fmap, app_assoc, lookup_app_r in Hj by (rewrite length_app; lia). apply fmap_Some in Hj as (e & He & ->).
    rewrite length_app in He. destruct Q as [|e0 Q]; [done|]. destruct (j - (length A + length C))%nat as [|k] eqn:Ek; [lia|].
    simpl in He, wi_tail. by eapply (Forall_lookup_1 _ _ _ _ wi_tail He).
  - rewrite wi_size, left_zip, wi_acc, Hla, !fmap_app. rewrite (zip_with_app _ (e_part <$> A)) by (by rewrite !length_fmap).
    rewrite drop_app_length'; [done|]. rewrite length_zip_with, !length_fmap. lia.
Qed.

(** ** Runs *)

Lemma act_ok s A C Q a :
  wr_inv s A [] C Q → awake true s → valid_act s a = true →
  ∃ s' A' C' Q', stream_step byte_at react a s = Some (tt, s') ∧ wr_inv s' A' [] C' Q' ∧ awake true s' ∧ x_accepted s `prefix_of` x_accepted s'.
Proof.
  intros Hi Haw Hv. destruct a as [c|answers e1 e2|]; cbn [valid_act stream_step] in *.
  - destruct (do_call_ok byte_at s A [] C Q c Hi Hv) as (s' & C' & Q' & Hr & Hi' & Hf). exists s', A, C', Q'.
    split_and!; try done; [by apply (cf_awake _ _ Hf)|by apply cf_accepted].
  - apply andb_true_iff in Hv as [Hc Ha]. apply negb_true_iff in Hc.
    destruct (io_ok byte_at react s A C Q answers e1 e2 Hi Hc Ha) as (s' & A' & C' & Q' & Hr & Hi' & Hp & Haw'). exists s', A', C', Q'. split_and!; try done. by apply Haw'.
  - destruct (destroy_ok byte_at react s A C Q Hi Hv) as (s' & A' & Hr & Hi' & Hcl & Hp & _). exists s', A', [], []. split_and!; try done. intros ?. congruence.
Qed.

Lemma stream_run_ok acts : ∀ s A C Q,
  wr_inv s A [] C Q → awake true s →
  ∃ s' A' C' Q', stream_run byte_at react acts s = Some (tt, s') ∧ wr_inv s' A' [] C' Q' ∧ awake true s' ∧ x_accepted s `prefix_of` x_accepted s'.
Proof.
  induction acts as [|a acts IH]; intros s A C Q Hi Haw; cbn [stream_run]; [by exists s, A, C, Q|]. rewrite M_get.
  destruct (valid_act s a) eqn:Hv; [|rewrite M_left_id; by apply (IH s A C Q)].
  destruct (act_ok s A C Q a Hi Haw Hv) as (s1 & A1 & C1 & Q1 & Hr & Hi1 & Haw1 & Hp1). bstep Hr.
  destruct (IH s1 A1 C1 Q1 Hi1 Haw1) as (s2 & A2 & C2 & Q2 & Hr2 & Hi2 & Haw2 & Hp2). exists s2, A2, C2, Q2. split_and!; try done. by etrans.
Qed.

Lemma new_stream_ok fd writable connecting reading others :
  0 ≤ fd → 0 ≤ others → wr_inv (new_stream fd writable connecting reading others) [] [] [] [].
Proof. intros Hfd Ho. split; try done; simpl; try constructor; try done; destruct connecting; simpl; lia. Qed.

Lemma new_stream_awake fd writable connecting reading others : awake true (new_stream fd writable connecting reading others).
Proof. intros _. simpl. split_and!; [by intros ->|done|done]. Qed.

(** C17. Whatever the program calls, from outside and in the callbacks, whatever the kernel
    answers and however often the loop finds the stream ready, a run from an open socket is
    defined: no assertion fails, no buffer is left.  The bytes the kernel took are those of
    the accepted writes, in order, each without hole; a later write sends only when no
    earlier one waits; each write is reported once, in order, with 0 only when it left whole. *)
Theorem stream_writes_exact acts fd writable connecting reading others :
  0 ≤ fd → 0 ≤ others →
  ∃ s' parts, stream_run byte_at react acts (new_stream fd writable connecting reading others) = Some (tt, s') ∧ writes_exact s' parts.
Proof.
  intros Hfd Ho. destruct (stream_run_ok acts _ [] [] [] (new_stream_ok fd writable connecting reading others Hfd Ho) (new_stream_awake _ _ _ _ _))
    as (s' & A & C & Q & Hr & Hi & _). exists s', (e_part <$> (A ++ C ++ Q)). split; [done|]. by apply inv_exact.
Qed.

Lemma exact_settled s parts : writes_exact s parts → under_way s = [] → (x_called s).*1 = (x_accepted s).*1 ∧ write_queue_size s = 0.
Proof.
  intros [] Hu. rewrite Hu, app_nil_r in we_ids0. split; [done|]. rewrite we_size0, drop_ge; [done|].
  apply (f_equal length) in we_ids0. rewrite !length_fmap in we_ids0. rewrite length_zip_with. lia.
Qed.

(** C18. No write is forgotten.  A connected stream whose watcher neither waits to be
    writable nor is fed has reported every write it accepted and counts no byte; and once
    the loop has destroyed a closed stream the same holds, and neither a connect nor a
    shutdown is left. *)
Theorem stream_owes_nothing acts fd writable connecting reading others s :
  0 ≤ fd → 0 ≤ others → stream_run byte_at react acts (new_stream fd writable connecting reading others) = Some (tt, s) →
  (s_closing s = false → connect_req s = false → s_pollout s = false → s_fed s = false →
     (x_called s).*1 = (x_accepted s).*1 ∧ write_queue_size s = 0) ∧
  (s_closing s = true → ∃ s', stream_step byte_at react ActDestroy s = Some (tt, s') ∧ x_accepted s `prefix_of` x_accepted s' ∧
     (x_called s').*1 = (x_accepted s').*1 ∧ write_queue_size s' = 0 ∧ connect_req s' = false ∧ shutdown_req s' = false).
Proof.
  intros Hfd Ho Hrun. destruct (stream_run_ok acts _ [] [] [] (new_stream_ok fd writable connecting reading others Hfd Ho) (new_stream_awake _ _ _ _ _))
    as (s0 & A & C & Q & Hr & Hi & Haw & _). assert (s0 = s) as -> by congruence. split.
  - intros Hcl Hc Hpo Hf. destruct (Haw Hcl) as (_ & H2 & H3). pose proof (wi_local _ _ _ _ _ _ Hi) as Hl. apply Forall2_nil_inv_l in Hl.
    eapply exact_settled; [by eapply inv_exact|]. unfold under_way. rewrite Hl.
    destruct (write_completed_queue s); [|by rewrite H3 in Hf]. destruct (write_queue s); [done|]. destruct H2; [done|done|congruence..].
  - intros Hcl. destruct (destroy_ok byte_at react s A C Q Hi Hcl) as (s' & A' & Hr' & Hi' & _ & Hp & Hc' & Hs'). exists s'. split; [done|]. split; [done|].
    destruct (exact_settled s' _ (inv_exact _ _ _ _ Hi')) as [H1 H2]; [|done]. unfold under_way.
    by rewrite (Forall2_nil_inv_l _ _ (wi_local _ _ _ _ _ _ Hi')), (Forall2_nil_inv_l _ _ (wi_done _ _ _ _ _ _ Hi')), (Forall2_nil_inv_l _ _ (wi_wait _ _ _ _ _ _ Hi')).
Qed.
End Stream.

(** ** Samples *)

(** Three writes: the kernel takes two bytes of the first; then the rest of it; the second
    fails; its callback closes the stream, and the third is cancelled. *)
Definition sample_bytes (a : Z) : Z := a mod 256.
Definition sample_react (c : callback) : list call :=
  match c with OnWrite 1 0 => [CallWrite 4 [{| buf_base := 40; buf_length := 1 |}] true [Wrote 9]] | OnWrite 2 _ => [CallClose] | _ => [] end.
Definition sample_writes : list act :=
  [ActCall (CallWrite 1 [{| buf_base := 10; buf_length := 2 |}; {| buf_base := 20; buf_length := 2 |}] true [Wrote 3]);
   ActCall (CallWrite 2 [{| buf_base := 30; buf_length := 2 |}] true [Wrote 9]);
   ActCall (CallWrite 3 [{| buf_base := 35; buf_length := 2 |}] true [Wrote 9]);
   ActIo [Wrote 9] 0 0; ActIo [Wrote 1] 0 0; ActIo [Failed 32] 0 0].
Definition sample_stream : uv_stream_t := new_stream 7 true false true 0.
Definition sample_end : option uv_stream_t := snd <$> stream_run sample_bytes sample_react sample_writes sample_stream.

Lemma sample_end_run :
  match sample_end with
  | Some s => x_sent s = [10; 11; 20; 21; 30] ∧ x_called s = [(1%nat, 0); (2%nat, -32)] ∧ write_queue s = [3%nat; 4%nat] ∧
      write_queue_size s = 3 ∧ s_closing s = true
  | None => False
  end.
Proof. vm_compute. done. Qed.

(** The witness of [stream_writes_exact]: the run above. *)
Lemma stream_writes_exact_witness :
  ∃ s' parts, stream_run sample_bytes sample_react sample_writes sample_stream = Some (tt, s') ∧ writes_exact s' parts.
Proof. unfold sample_stream. apply stream_writes_exact; lia. Defined.

Lemma sample_run_ends : ∃ s, stream_run sample_bytes sample_react sample_writes sample_stream = Some (tt, s) ∧ s_closing s = true.
Proof. vm_compute. eexists. split; reflexivity. Qed.

(** The witness of [stream_owes_nothing]: the closed stream is destroyed. *)
Lemma stream_owes_nothing_witness :
  ∃ s s', stream_run sample_bytes sample_react sample_writes sample_stream = Some (tt, s) ∧
    stream_step sample_bytes sample_react ActDestroy s = Some (tt, s') ∧ (x_called s').*1 = (x_accepted s').*1.
Proof.
  destruct sample_run_ends as (s & Hr & Hc).
  destruct (stream_owes_nothing sample_bytes sample_react sample_writes 7 true false true 0 s ltac:(lia) ltac:(lia) Hr) as [_ H].
  destruct (H Hc) as (s' & Hd & _ & Hids & _). exists s, s'. split; [exact Hr|]. split; [exact Hd|exact Hids].
Defined.

(** A shutdown asked for while the stream connects, with nothing to write, is forgotten:
    connecting stops the wait for writability, and nothing calls [uv__drain]. *)
Lemma shutdown_while_connecting_stalls :
  ∃ s', stream_run sample_bytes (λ _, []) [ActCall CallShutdown; ActIo [Wrote 0] 0 0] (new_stream 7 true true false 0) = Some (tt, s') ∧
    shutdown_req s' = true ∧ x_shut s' = [] ∧ x_connected s' = [0] ∧ s_closing s' = false ∧ s_pollout s' = false ∧ s_fed s' = false ∧ s_active_reqs s' = 1.
Proof. eexists. split; [vm_compute; reflexivity|]. by vm_compute. Qed.

(** When the memory for the buffers is refused, the request stays registered: it is not
    queued, never reported, and keeps the loop alive. *)
Lemma write_enomem_keeps_loop byte_at id bs answers s :
  0 ≤ s_fd s → s_writable s = true → (BUFSML < length bs)%nat →
  uv_write2 byte_at id bs false answers s = Some (UV_ENOMEM, set_active_reqs (s_active_reqs s + 1) s).
Proof.
  intros Hfd Hw Hl. unfold uv_write2, uv__req_register. rewrite bool_decide_eq_false_2 by (intros ->; simpl in Hl; lia). cbn [negb].
  rewrite M_assert, M_get, (proj2 (Z.ltb_ge _ _) Hfd), Hw. cbn [negb]. by rewrite M_modify, (proj2 (Nat.ltb_lt _ _) Hl).
Qed.
