(* ===== verification/UvRead.v ===== *)
(** The reading half of libuv's streams: deps/libuv src/unix/stream.c.

    The loop finds a stream readable and [uv__read] asks the program for a buffer, reads
    into it and gives it back with [read_cb], up to 32 times.  In a callback the program may
    start and stop reading and close the stream.  The state has the flags, the watcher and
    what the outside saw: the bytes the kernel handed out and the calls of [alloc_cb] and
    [read_cb].  The length of the buffers and the answers of the kernel are arguments. *)
From stdpp Require Import base numbers list option.
From Stdlib Require Import ZArith Lia.
From S2P Require Import Prelude.

Local Open Scope Z_scope.
Local Open Scope c_scope.

Definition UV_EINVAL : Z := -22.
Definition UV_ENOTCONN : Z := -107.
Definition UV_ENOBUFS : Z := -105.
Definition UV_EOF : Z := -4095.
Definition READ_ROUNDS : nat := 32.

(** What the program saw: it was asked for a buffer, which is known by a number, or it was
    given one back with a code and the bytes in it; at a hang-up no buffer comes along. *)
Inductive event := EvAlloc (k : nat) (len : nat) | EvRead (k : option nat) (nread : Z) (bs : list Z).

(** [r_cb]: [read_cb] and [alloc_cb] are set; [r_reading], [r_eof], [r_partial]: the flags
    UV_HANDLE_READING, READ_EOF and READ_PARTIAL. *)
Record rstream := {
  r_fd : Z;
  r_readable : bool;
  r_closing : bool;
  r_reading : bool;
  r_cb : bool;
  r_eof : bool;
  r_partial : bool;
  r_pollin : bool;
  r_pollout : bool;
  r_active : bool;
  y_kernel : list Z;
  y_events : list event;
}.

Definition set_r_flags (reading cb eof partial : bool) (s : rstream) : rstream :=
  {| r_fd := r_fd s; r_readable := r_readable s; r_closing := r_closing s; r_reading := reading; r_cb := cb; r_eof := eof; r_partial := partial;
     r_pollin := r_pollin s; r_pollout := r_pollout s; r_active := r_active s; y_kernel := y_kernel s; y_events := y_events s |}.
Definition set_r_watch (pollin active : bool) (s : rstream) : rstream :=
  {| r_fd := r_fd s; r_readable := r_readable s; r_closing := r_closing s; r_reading := r_reading s; r_cb := r_cb s; r_eof := r_eof s;
     r_partial := r_partial s; r_pollin := pollin; r_pollout := r_pollout s; r_active := active; y_kernel := y_kernel s; y_events := y_events s |}.
Definition set_r_closed (s : rstream) : rstream :=
  {| r_fd := -1; r_readable := false; r_closing := true; r_reading := r_reading s; r_cb := r_cb s; r_eof := r_eof s; r_partial := r_partial s;
     r_pollin := false; r_pollout := false; r_active := false; y_kernel := y_kernel s; y_events := y_events s |}.
Definition set_r_seen (kernel : list Z) (events : list event) (s : rstream) : rstream :=
  {| r_fd := r_fd s; r_readable := r_readable s; r_closing := r_closing s; r_reading := r_reading s; r_cb := r_cb s; r_eof := r_eof s;
     r_partial := r_partial s; r_pollin := r_pollin s; r_pollout := r_pollout s; r_active := r_active s; y_kernel := kernel; y_events := events |}.
Definition set_r_pollout (x : bool) (s : rstream) : rstream :=
  {| r_fd := r_fd s; r_readable := r_readable s; r_closing := r_closing s; r_reading := r_reading s; r_cb := r_cb s; r_eof := r_eof s;
     r_partial := r_partial s; r_pollin := r_pollin s; r_pollout := x; r_active := r_active s; y_kernel := y_kernel s; y_events := y_events s |}.

Definition see (e : event) : M rstream unit := modify (λ s, set_r_seen (y_kernel s) (y_events s ++ [e]) s).

(** [uv__io_stop] with POLLIN, then [uv__handle_stop] when POLLOUT is not waited for. *)
Definition stop_pollin : M rstream unit :=
  s ← get;
  (if r_fd s =? -1 then mret tt else modify (set_r_watch false (r_active s)));;
  s ← get;
  if negb (r_pollout s) then modify (set_r_watch (r_pollin s) false) else mret tt.

Definition uv_read_start : M rstream Z :=
  s ← get;
  if r_closing s then mret UV_EINVAL
  else if negb (r_readable s) then mret UV_ENOTCONN
  else
    TN_ASSERT (0 <=? r_fd s);;
    modify (set_r_flags true true (r_eof s) (r_partial s));;
    modify (set_r_watch true true);;
    mret 0.

Definition uv_read_stop : M rstream Z :=
  s ← get;
  if negb (r_reading s) then mret 0
  else
    modify (set_r_flags false (r_cb s) (r_eof s) (r_partial s));;
    stop_pollin;;
    modify (λ s, set_r_flags false false (r_eof s) (r_partial s) s);;
    mret 0.

(** [uv_close]: the watcher is closed, then [uv_read_stop]. *)
Definition uv__stream_close : M rstream unit :=
  s ← get;
  TN_ASSERT (negb (r_closing s));;
  modify (set_r_watch false (r_active s));;
  uv_read_stop;;
  modify set_r_closed.

Inductive rcall := RStart | RStop | RClose.

Definition do_rcall (c : rcall) : M rstream unit :=
  match c with
  | RStart => uv_read_start;; mret tt
  | RStop => uv_read_stop;; mret tt
  | RClose => s ← get; if r_closing s then mret tt else uv__stream_close
  end.

Fixpoint do_rcalls (cs : list rcall) : M rstream unit :=
  match cs with [] => mret tt | c :: cs => do_rcall c;; do_rcalls cs end.

(** The answer of read(2): bytes (at least one), nothing yet, the end, or an error. *)
Inductive kernel_read := KBytes (b : Z) (bs : list Z) | KAgain | KEof | KError (err : Z).

Section Read.
(** What the program does in [alloc_cb] and in [read_cb]. *)
Context (on_alloc : nat → list rcall) (on_read : event → list rcall).

(** Calling a NULL [read_cb] is undefined. *)
Definition call_read_cb (k : option nat) (nread : Z) (bs : list Z) : M rstream unit :=
  s ← get; TN_ASSERT (r_cb s);; see (EvRead k nread bs);; do_rcalls (on_read (EvRead k nread bs)).

Definition uv__stream_eof (k : option nat) : M rstream unit :=
  modify (λ s, set_r_flags (r_reading s) (r_cb s) true (r_partial s) s);;
  stop_pollin;;
  call_read_cb k UV_EOF [];;
  modify (λ s, set_r_flags false (r_cb s) (r_eof s) (r_partial s) s).

(** One round of the loop: the result is whether the loop goes on. *)
Definition read_round (k : nat) (len : nat) (answer : kernel_read) : M rstream bool :=
  see (EvAlloc k len);;
  do_rcalls (on_alloc k);;
  if Nat.eqb len 0 then call_read_cb (Some k) UV_ENOBUFS [];; mret false
  else
    s ← get;
    TN_ASSERT (0 <=? r_fd s);;
    match answer with
    | KAgain =>
        (if r_reading s then modify (set_r_watch true (r_active s)) else mret tt);;
        call_read_cb (Some k) 0 [];;
        mret false
    | KError err =>
        call_read_cb (Some k) err [];;
        s ← get;
        (if r_reading s then
           modify (set_r_flags false (r_cb s) (r_eof s) (r_partial s));; stop_pollin
         else mret tt);;
        mret false
    | KEof => uv__stream_eof (Some k);; mret false
    | KBytes b bs =>
        let data := take len (b :: bs) in
        modify (λ s, set_r_seen (y_kernel s ++ data) (y_events s) s);;
        call_read_cb (Some k) (Z.of_nat (length data)) data;;
        if Nat.ltb (length data) len then
          modify (λ s, set_r_flags (r_reading s) (r_cb s) (r_eof s) true s);; mret false
        else mret true
    end.

(** [answers]: for each round the length of the buffer and what the kernel answers; buffers
    are numbered by the calls seen before. *)
Fixpoint read_loop (count : nat) (answers : nat → nat * kernel_read) : M rstream unit :=
  s ← get;
  if r_cb s && r_reading s then
    match count with
    | O => mret tt
    | S count =>
        on ← read_round (length (y_events s)) (answers count).1 (answers count).2;
        if on : bool then read_loop count answers else mret tt
    end
  else mret tt.

Definition uv__read (answers : nat → nat * kernel_read) : M rstream unit :=
  modify (λ s, set_r_flags (r_reading s) (r_cb s) (r_eof s) false s);;
  read_loop READ_ROUNDS answers.

(** The part of [uv__stream_io] that reads; [hup]: POLLHUP is among the events. *)
Definition uv__stream_io_in (hup : bool) (answers : nat → nat * kernel_read) : M rstream unit :=
  s ← get;
  TN_ASSERT (negb (r_closing s));;
  TN_ASSERT (0 <=? r_fd s);;
  uv__read answers;;
  s ← get;
  if r_fd s =? -1 then mret tt
  else if hup && r_reading s && r_partial s && negb (r_eof s) then uv__stream_eof None
  else mret tt.

(** ** Runs *)

(** A call of the program, the stream is readable, or the writing half changes what it
    waits for. *)
Inductive ract := RCall (c : rcall) | RIo (hup : bool) (answers : nat → nat * kernel_read) | RPollout (x : bool).

Definition read_step (a : ract) : M rstream unit :=
  match a with
  | RCall c => do_rcall c
  | RIo hup answers => s ← get; if r_closing s then mret tt else uv__stream_io_in hup answers
  | RPollout x => s ← get; if r_closing s then mret tt else modify (set_r_pollout x)
  end.

Fixpoint read_run (acts : list ract) : M rstream unit :=
  match acts with [] => mret tt | a :: acts => read_step a;; read_run acts end.
End Read.

Definition new_rstream (fd : Z) (readable : bool) : rstream :=
  {| r_fd := fd; r_readable := readable; r_closing := false; r_reading := false; r_cb := false; r_eof := false; r_partial := false;
     r_pollin := false; r_pollout := false; r_active := false; y_kernel := []; y_events := [] |}.

(** ** Specification *)

(** The buffer the program has handed out and not got back, over the events: at most one,
    and only that one is given back. *)
Definition buffer_out (st : option (option nat)) (e : event) : option (option nat) :=
  out ← st;
  match out, e with
  | None, EvAlloc k _ => Some (Some k)
  | Some k, EvRead (Some k') _ _ => if decide (k = k') then Some None else None
  | None, EvRead None _ _ => Some None
  | _, _ => None
  end.
Definition buffers_out (es : list event) : option (option nat) := foldl buffer_out (Some None) es.

Definition delivered (es : list event) : list Z := es ≫= λ e, match e with EvRead _ _ bs => bs | EvAlloc _ _ => [] end.

(** Between two steps: every buffer was given back, each has a number of its own, and the
    bytes given to the program are those the kernel handed out.  A stream that reads has its
    callbacks and is waited for. *)
Record reads_exact (s : rstream) : Prop := {
  re_buffers : buffers_out (y_events s) = Some None;
  re_numbers : ∀ i k len, y_events s !! i = Some (EvAlloc k len) → k = i;
  re_bytes : y_kernel s = delivered (y_events s);
  re_waited : r_reading s = true → r_cb s = true ∧ r_pollin s = true ∧ r_closing s = false;
}.

Record rinv (out : option nat) (s : rstream) : Prop := {
  ri_open : r_closing s = false → 0 ≤ r_fd s;
  ri_closed : r_closing s = true → r_fd s = -1 ∧ r_reading s = false ∧ r_readable s = false;
  ri_cb : r_reading s = true → r_cb s = true;
  ri_bytes : y_kernel s = delivered (y_events s);
  ri_numbers : ∀ i k len, y_events s !! i = Some (EvAlloc k len) → k = i;
  ri_out : buffers_out (y_events s) = Some out;
}.
Definition rwake (s : rstream) : Prop := r_reading s = true → r_pollin s = true.

(** ** Calls *)

Definition same_seen (s s' : rstream) : Prop := y_events s' = y_events s ∧ y_kernel s' = y_kernel s.

Lemma rinv_same out s s' :
  rinv out s → same_seen s s' → (r_closing s' = false → 0 ≤ r_fd s') →
  (r_closing s' = true → r_fd s' = -1 ∧ r_reading s' = false ∧ r_readable s' = false) →
  (r_reading s' = true → r_cb s' = true) → rinv out s'.
Proof. intros [] [E1 E2] H1 H2 H3. split; rewrite ?E1, ?E2; done. Qed.

Lemma stop_pollin_run s :
  ∃ p a, stop_pollin s = Some (tt, set_r_watch p a s) ∧ (r_fd s ≠ -1 → p = false).
Proof.
  unfold stop_pollin. rewrite M_get. destruct (Z.eqb_spec (r_fd s) (-1)) as [E|E].
  - rewrite M_left_id, M_get. destruct (negb (r_pollout s)); [by exists (r_pollin s), false|]. exists (r_pollin s), (r_active s). split; [|done]. by destruct s.
  - rewrite M_modify, M_get. simpl. destruct (negb (r_pollout s)); [by exists false, false|]. by exists false, (r_active s).
Qed.

Lemma read_stop_run s : ∃ s', uv_read_stop s = Some (0, s') ∧ same_seen s s' ∧ r_reading s' = false ∧ r_fd s' = r_fd s ∧ r_closing s' = r_closing s ∧
  r_readable s' = r_readable s.
Proof.
  unfold uv_read_stop. rewrite M_get. destruct (r_reading s) eqn:E; cbn [negb]; [|by exists s].
  rewrite M_modify. destruct (stop_pollin_run (set_r_flags false (r_cb s) (r_eof s) (r_partial s) s)) as (p & a & Hr & _). bstep Hr.
  eexists. split; [reflexivity|]. done.
Qed.

Lemma rcall_ok out s c : rinv out s → ∃ s', do_rcall c s = Some (tt, s') ∧ rinv out s' ∧ same_seen s s' ∧ (rwake s → rwake s').
Proof.
  intros Hi. destruct c; cbn [do_rcall].
  - unfold uv_read_start. rewrite M_assoc, M_get. destruct (r_closing s) eqn:Ec; [by exists s|]. destruct (r_readable s) eqn:Er; cbn [negb]; [|by exists s].
    rewrite M_assoc, (proj2 (Z.leb_le _ _) (ri_open _ _ Hi Ec)), M_assert. eexists. split; [reflexivity|]. split; [|done].
    eapply (rinv_same out s); try done; simpl; [intros _; by apply (ri_open _ _ Hi)|congruence].
  - destruct (read_stop_run s) as (s' & Hr & Hs & E1 & E2 & E3 & E4). bstep Hr. exists s'. split; [done|]. split; [|split; [done|unfold rwake; congruence]].
    eapply (rinv_same out s); try done; rewrite ?E2, ?E3, ?E4, ?E1; [apply Hi|intros Hc; by destruct (ri_closed _ _ Hi Hc) as (? & _ & ?)|done].
  - rewrite M_get. destruct (r_closing s) eqn:Ec; [by exists s|]. unfold uv__stream_close. rewrite M_get, Ec. cbn [negb]. rewrite M_assert, M_modify.
    destruct (read_stop_run (set_r_watch false (r_active s) s)) as (s' & Hr & [Hs1 Hs2] & E1 & _). bstep Hr.
    eexists. split; [reflexivity|]. split; [|split; [by split|unfold rwake; simpl; congruence]]. eapply (rinv_same out s); try done; simpl; congruence.
Qed.

Lemma rcalls_ok out cs : ∀ s, rinv out s → ∃ s', do_rcalls cs s = Some (tt, s') ∧ rinv out s' ∧ same_seen s s' ∧ (rwake s → rwake s').
Proof.
  induction cs as [|c cs IH]; intros s Hi; cbn [do_rcalls]; [by exists s|].
  destruct (rcall_ok out s c Hi) as (s1 & Hr & Hi1 & [E1 E2] & Hw1). bstep Hr. destruct (IH s1 Hi1) as (s2 & Hr2 & Hi2 & [F1 F2] & Hw2).
  exists s2. split_and!; [done|done|split; congruence|auto].
Qed.

(** ** The read loop *)

Section Loop.
Context (on_read : event → list rcall).
Abbreviation no_calls := (λ _ : nat, [] : list rcall).

Lemma buffers_snoc es e : buffers_out (es ++ [e]) = buffer_out (buffers_out es) e.
Proof. unfold buffers_out. by rewrite foldl_app. Qed.
Lemma delivered_snoc es e : delivered (es ++ [e]) = delivered es ++ match e with EvRead _ _ bs => bs | EvAlloc _ _ => [] end.
Proof. unfold delivered. rewrite bind_app. cbn. by rewrite app_nil_r. Qed.
Lemma numbers_snoc es e : (∀ i k len, es !! i = Some (EvAlloc k len) → k = i) → (∀ k len, e = EvAlloc k len → k = length es) →
  ∀ i k len, (es ++ [e]) !! i = Some (EvAlloc k len) → k = i.
Proof.
  intros H1 H2 i k len Hi. apply lookup_app_Some in Hi as [Hi|[Hge Hi]]; [by apply (H1 i k len)|]. apply list_lookup_singleton_Some in Hi as [Hz He].
  specialize (H2 k len He). lia.
Qed.

(** Giving the buffer back with the bytes [bs] that the kernel has just handed out. *)
Lemma call_read_ok out o s nread bs :
  rinv out s → r_cb s = true → buffer_out (Some out) (EvRead o nread bs) = Some None →
  ∃ s', call_read_cb on_read o nread bs (set_r_seen (y_kernel s ++ bs) (y_events s) s) = Some (tt, s') ∧ rinv None s' ∧ (rwake s → rwake s').
Proof.
  intros [] Hcb Ho. unfold call_read_cb, see. rewrite M_get. cbn [r_cb set_r_seen]. rewrite Hcb, M_assert, M_modify.
  set (s1 := set_r_seen _ _ _). assert (rinv None s1) as Hi1.
  { split; simpl; try done.
    - by rewrite delivered_snoc, ri_bytes0.
    - by apply numbers_snoc.
    - by rewrite buffers_snoc, ri_out0. }
  destruct (rcalls_ok None (on_read (EvRead o nread bs)) s1 Hi1) as (s2 & Hr & Hi2 & _ & Hw). exists s2. split_and!; [done|done|]. intros Hx. by apply Hw.
Qed.

Lemma call_read_empty out o s nread :
  rinv out s → r_cb s = true → buffer_out (Some out) (EvRead o nread []) = Some None →
  ∃ s', call_read_cb on_read o nread [] s = Some (tt, s') ∧ rinv None s' ∧ (rwake s → rwake s').
Proof. intros Hi Hcb Ho. pose proof (call_read_ok out o s nread [] Hi Hcb Ho) as H. rewrite app_nil_r in H. by destruct s. Qed.

Lemma rinv_watch out s p a : rinv out s → rinv out (set_r_watch p a s).
Proof. intros []. by split. Qed.

Lemma stream_eof_ok out o s :
  rinv out s → r_cb s = true → buffer_out (Some out) (EvRead o UV_EOF []) = Some None →
  ∃ s', uv__stream_eof on_read o s = Some (tt, s') ∧ rinv None s' ∧ rwake s'.
Proof.
  intros Hi Hcb Ho. unfold uv__stream_eof. rewrite M_modify. set (s1 := set_r_flags _ _ _ _ s).
  assert (rinv out s1) as Hi1 by (eapply (rinv_same out s); try done; apply Hi).
  destruct (stop_pollin_run s1) as (p & a & Hr & _). bstep Hr.
  destruct (call_read_empty out o (set_r_watch p a s1) UV_EOF (rinv_watch _ _ _ _ Hi1) Hcb Ho) as (s2 & Hr2 & Hi2 & _). bstep Hr2.
  eexists. split; [reflexivity|]. split; [|done]. eapply (rinv_same None s2); try done; simpl; [apply Hi2|].
  intros Hc. by destruct (ri_closed _ _ Hi2 Hc) as (? & _ & ?).
Qed.

Lemma given_back k n bs : buffer_out (Some (Some k)) (EvRead (Some k) n bs) = Some None.
Proof. simpl. by rewrite decide_True. Qed.

Lemma read_round_ok s len answer :
  rinv None s → rwake s → r_cb s = true → r_closing s = false →
  ∃ on s', read_round no_calls on_read (length (y_events s)) len answer s = Some (on, s') ∧ rinv None s' ∧ rwake s'.
Proof.
  intros Hi Hw Hcb Hcl. set (k := length (y_events s)). unfold read_round, see. rewrite M_modify. cbn [do_rcalls]. rewrite M_left_id.
  set (s1 := set_r_seen _ _ s). assert (rinv (Some k) s1) as Hi1.
  { destruct Hi. split; simpl; try done.
    - by rewrite delivered_snoc, app_nil_r.
    - apply numbers_snoc; [done|]. by intros ?? [= <- <-].
    - by rewrite buffers_snoc, ri_out0. }
  assert (rwake s1) as Hw1 by done. assert (r_cb s1 = true) as Hcb1 by done.
  destruct (Nat.eqb len 0).
  { destruct (call_read_empty _ _ s1 UV_ENOBUFS Hi1 Hcb1 (given_back _ _ _)) as (s2 & Hr & Hi2 & Hw2). bstep Hr. exists false, s2. split_and!; auto. }
  rewrite M_get, (proj2 (Z.leb_le _ _) (ri_open _ _ Hi1 Hcl)), M_assert. destruct answer as [b bs| | |err].
  - rewrite M_modify. set (data := take len (b :: bs)).
    destruct (call_read_ok _ (Some k) s1 (Z.of_nat (length data)) data Hi1 Hcb1 (given_back _ _ _)) as (s2 & Hr & Hi2 & Hw2). bstep Hr.
    destruct (Nat.ltb _ _); [|exists true, s2; split_and!; auto]. eexists false, _. split; [reflexivity|]. split; [|exact (Hw2 Hw1)].
    eapply (rinv_same None s2); try done; apply Hi2.
  - set (s2 := if r_reading s1 then set_r_watch true (r_active s1) s1 else s1).
    assert (((if r_reading s1 then modify (set_r_watch true (r_active s1)) else mret tt) : M rstream unit) s1 = Some (tt, s2)) as Hr by (unfold s2; by destruct (r_reading s1)).
    bstep Hr. assert (rinv (Some k) s2) as Hi2 by (unfold s2; destruct (r_reading s1); [by apply rinv_watch|done]).
    destruct (call_read_empty _ (Some k) s2 0 Hi2) as (s3 & Hr3 & Hi3 & Hw3); [unfold s2; by destruct (r_reading s1)|apply given_back|]. bstep Hr3.
    exists false, s3. split_and!; [done|done|]. apply Hw3. unfold s2. by destruct (r_reading s1).
  - destruct (stream_eof_ok _ (Some k) s1 Hi1 Hcb1 (given_back _ _ _)) as (s2 & Hr & Hi2 & Hw2). bstep Hr. by exists false, s2.
  - destruct (call_read_empty _ (Some k) s1 err Hi1 Hcb1 (given_back _ _ _)) as (s2 & Hr & Hi2 & Hw2). bstep Hr.
    destruct (r_reading s2) eqn:Er; [|rewrite M_left_id; exists false, s2; split_and!; auto]. rewrite M_assoc, M_modify.
    destruct (stop_pollin_run (set_r_flags false (r_cb s2) (r_eof s2) (r_partial s2) s2)) as (p & a & Hr2 & _). bstep Hr2.
    eexists false, _. split; [reflexivity|]. split; [|done]. eapply (rinv_same None s2); try done; simpl; [apply Hi2|].
    intros Hc. by destruct (ri_closed _ _ Hi2 Hc) as (? & _ & ?).
Qed.

Lemma read_loop_ok count answers : ∀ s, rinv None s → rwake s →
  ∃ s', read_loop no_calls on_read count answers s = Some (tt, s') ∧ rinv None s' ∧ rwake s'.
Proof.
  induction count as [|count IH]; intros s Hi Hw; cbn [read_loop]; rewrite M_get; destruct (r_cb s && r_reading s) eqn:E; try by exists s.
  apply andb_true_iff in E as [Hcb Hrd]. assert (r_closing s = false) as Hcl.
  { destruct (r_closing s) eqn:Ec; [|done]. destruct (ri_closed _ _ Hi Ec) as (_ & ? & _). congruence. }
  destruct (read_round_ok s (answers count).1 (answers count).2 Hi Hw Hcb Hcl) as (on & s1 & Hr & Hi1 & Hw1). bstep Hr.
  destruct on; [by apply IH|by exists s1].
Qed.

Lemma read_step_ok a s : rinv None s → rwake s →
  ∃ s', read_step no_calls on_read a s = Some (tt, s') ∧ rinv None s' ∧ rwake s'.
Proof.
  intros Hi Hw. destruct a as [c|hup answers|x]; cbn [read_step].
  - destruct (rcall_ok None s c Hi) as (s' & Hr & Hi' & _ & Hw'). exists s'. split_and!; auto.
  - rewrite M_get. destruct (r_closing s) eqn:Ec; [by exists s|]. unfold uv__stream_io_in. rewrite M_get, Ec. cbn [negb].
    rewrite M_assert, (proj2 (Z.leb_le _ _) (ri_open _ _ Hi Ec)), M_assert. unfold uv__read. rewrite M_assoc, M_modify. set (s1 := set_r_flags _ _ _ _ s).
    destruct (read_loop_ok READ_ROUNDS answers s1) as (s2 & Hr & Hi2 & Hw2); [eapply (rinv_same None s); try done; apply Hi|done|]. bstep Hr.
    destruct (r_fd s2 =? -1); [by exists s2|]. destruct (hup && r_reading s2 && r_partial s2 && negb (r_eof s2)) eqn:E; [|by exists s2].
    rewrite !andb_true_iff in E. destruct E as [[[_ Hrd] _] _]. by apply (stream_eof_ok None None s2 Hi2 (ri_cb _ _ Hi2 Hrd)).
  - rewrite M_get. destruct (r_closing s) eqn:Ec; [by exists s|]. eexists. split; [reflexivity|]. split; [|done]. by eapply (rinv_same None s); try done; apply Hi.
Qed.

Lemma read_run_ok acts : ∀ s, rinv None s → rwake s → ∃ s', read_run no_calls on_read acts s = Some (tt, s') ∧ rinv None s' ∧ rwake s'.
Proof.
  induction acts as [|a acts IH]; intros s Hi Hw; cbn [read_run]; [by exists s|].
  destruct (read_step_ok a s Hi Hw) as (s1 & Hr & Hi1 & Hw1). bstep Hr. by apply IH.
Qed.

(** C19. Whatever the program calls, from outside and in [read_cb], whatever buffers it
    hands out and whatever the kernel answers, reading is defined: a buffer is given back
    before the next one is asked for, the bytes delivered are those the kernel handed out,
    in order, and a stream that reads has its callbacks and is waited for. *)
Theorem stream_reads_exact acts fd readable :
  0 ≤ fd → ∃ s', read_run no_calls on_read acts (new_rstream fd readable) = Some (tt, s') ∧ reads_exact s'.
Proof.
  intros Hfd. destruct (read_run_ok acts (new_rstream fd readable)) as (s' & Hr & [] & Hw); [by split|done|].
  exists s'. split; [done|]. split; try done. intros Hrd. split_and!; [by apply ri_cb0|by apply Hw|].
  destruct (r_closing s') eqn:Ec; [|done]. destruct (ri_closed0 eq_refl) as (_ & ? & _). congruence.
Qed.
End Loop.

(** Starting to read again in the callback of the end of the stream leaves it polled and not
    reading: [uv__stream_eof] clears the flag after the callback, so that the loop is woken
    for ever and reads nothing. *)
Lemma eof_restart_spins answers :
  let on_read e := match e with EvRead _ n _ => if n =? UV_EOF then [RStart] else [] | _ => [] end in
  ∃ s, read_run (λ _, []) on_read [RCall RStart; RIo false (λ _, (1%nat, KEof))] (new_rstream 7 true) = Some (tt, s) ∧
    r_pollin s = true ∧ r_reading s = false ∧ r_closing s = false ∧ read_step (λ _, []) on_read (RIo false answers) s = Some (tt, s).
Proof. cbv zeta. eexists. split; [vm_compute; reflexivity|]. by split_and!. Qed.

(** Stopping in [alloc_cb] calls a NULL [read_cb]. *)
Lemma stop_in_alloc_undefined :
  read_run (λ _, [RStop]) (λ _, []) [RCall RStart; RIo false (λ _, (1%nat, KAgain))] (new_rstream 7 true) = None.
Proof. vm_compute. reflexivity. Qed.

(** ** Samples *)

(** Two full buffers, a partial one, a hang-up; the program stops at the end. *)
Definition sample_answers (i : nat) : nat * kernel_read :=
  match i with 31%nat => (2%nat, KBytes 1 [2; 3]) | 30%nat => (2%nat, KBytes 3 [4]) | 29%nat => (4%nat, KBytes 5 [6]) | _ => (2%nat, KAgain) end.
Definition sample_reads : list ract := [RCall RStart; RIo true sample_answers].

Lemma sample_reads_run :
  match read_run (λ _, []) (λ _, []) sample_reads (new_rstream 7 true) with
  | Some (_, s) => y_kernel s = [1; 2; 3; 4; 5; 6] ∧ r_eof s = true ∧ r_reading s = false ∧ length (y_events s) = 7%nat
  | None => False
  end.
Proof. vm_compute. done. Qed.

Lemma stream_reads_exact_witness :
  ∃ s', read_run (λ _, []) (λ _, []) sample_reads (new_rstream 7 true) = Some (tt, s') ∧ reads_exact s'.
Proof. apply (stream_reads_exact (λ _, []) sample_reads 7 true). lia. Defined.
