(* ===== verification/UvAccept.v ===== *)
(** Descriptors that arrive on a libuv stream: deps/libuv src/unix/stream.c.

    A listening stream accepts connections ([uv__server_io]); a pipe between processes is
    sent descriptors ([uv__stream_recv_cmsg]).  A descriptor waits in [accepted_fd], further
    ones in [queued_fds], until the program takes them with [uv_accept].  The state has the
    stream, the client streams, the spare descriptor of the loop, and what happened to every
    descriptor.  The answers of the kernel and of the allocator are arguments. *)
From stdpp Require Import base numbers list option gmap sets.
From Stdlib Require Import ZArith Lia.
From S2P Require Import Prelude.

Local Open Scope Z_scope.
Local Open Scope c_scope.

Definition UV_EAGAIN : Z := -11.
Definition UV_ENOMEM : Z := -12.
Definition UV_EBUSY : Z := -16.
Definition UV_ENFILE : Z := -23.
Definition UV_EMFILE : Z := -24.
Definition UV_ECONNABORTED : Z := -103.
Definition UV_EINTR : Z := -4.

(** What became of a descriptor: a client has it, or it was closed. *)
Inductive fate := Given (client : nat) | Closed.

#[global] Instance fate_eq_dec : EqDecision fate.
Proof. solve_decision. Defined.

(** [queued_fds]: its size and the descriptors, NULL when none waits.  [a_clients]: the
    descriptors of the client streams that are open.  [x_got]: every descriptor that arrived,
    in order; [x_out]: those that left, in order, and how. *)
Record server_t := {
  a_fd : Z;
  a_listening : bool;
  a_closing : bool;
  a_pollin : bool;
  accepted_fd : Z;
  queued_fds : ptr (nat * list Z);
  emfile_fd : Z;
  a_clients : gmap nat Z;
  x_got : list Z;
  x_out : list (Z * fate);
}.

Definition set_watch (pollin : bool) (s : server_t) : server_t :=
  {| a_fd := a_fd s; a_listening := a_listening s; a_closing := a_closing s; a_pollin := pollin; accepted_fd := accepted_fd s;
     queued_fds := queued_fds s; emfile_fd := emfile_fd s; a_clients := a_clients s; x_got := x_got s; x_out := x_out s |}.
Definition set_pending (accepted : Z) (queued : ptr (nat * list Z)) (s : server_t) : server_t :=
  {| a_fd := a_fd s; a_listening := a_listening s; a_closing := a_closing s; a_pollin := a_pollin s; accepted_fd := accepted;
     queued_fds := queued; emfile_fd := emfile_fd s; a_clients := a_clients s; x_got := x_got s; x_out := x_out s |}.
Definition set_emfile (fd : Z) (s : server_t) : server_t :=
  {| a_fd := a_fd s; a_listening := a_listening s; a_closing := a_closing s; a_pollin := a_pollin s; accepted_fd := accepted_fd s;
     queued_fds := queued_fds s; emfile_fd := fd; a_clients := a_clients s; x_got := x_got s; x_out := x_out s |}.
Definition set_moved (clients : gmap nat Z) (got : list Z) (out : list (Z * fate)) (s : server_t) : server_t :=
  {| a_fd := a_fd s; a_listening := a_listening s; a_closing := a_closing s; a_pollin := a_pollin s; accepted_fd := accepted_fd s;
     queued_fds := queued_fds s; emfile_fd := emfile_fd s; a_clients := clients; x_got := got; x_out := out |}.
Definition set_closed (s : server_t) : server_t :=
  {| a_fd := -1; a_listening := a_listening s; a_closing := true; a_pollin := false; accepted_fd := accepted_fd s;
     queued_fds := queued_fds s; emfile_fd := emfile_fd s; a_clients := a_clients s; x_got := x_got s; x_out := x_out s |}.

(** The kernel hands out a descriptor; [uv__close] of one. *)
Definition got (fd : Z) : M server_t unit := modify (λ s, set_moved (a_clients s) (x_got s ++ [fd]) (x_out s) s).
Definition uv__close (fd : Z) : M server_t unit := modify (λ s, set_moved (a_clients s) (x_got s) (x_out s ++ [(fd, Closed)]) s).
Fixpoint close_all (fds : list Z) : M server_t unit :=
  match fds with [] => mret tt | fd :: fds => uv__close fd;; close_all fds end.

(** [uv__io_start] and [uv__io_stop] with POLLIN. *)
Definition start_pollin : M server_t unit := s ← get; TN_ASSERT (0 <=? a_fd s);; modify (set_watch true).
Definition stop_pollin : M server_t unit := s ← get; if a_fd s =? -1 then mret tt else modify (set_watch false).

(** [uv__stream_open] of a client: [option_err] is what setting the options of the socket
    answers. *)
Definition uv__stream_open (client : nat) (fd : Z) (option_err : Z) : M server_t Z :=
  s ← get;
  if (match a_clients s !! client with Some old => negb (old =? fd) | None => false end) then mret UV_EBUSY
  else
    TN_ASSERT (0 <=? fd);;
    if negb (option_err =? 0) then mret option_err
    else modify (set_moved (<[client := fd]> (a_clients s)) (x_got s) (x_out s ++ [(fd, Given client)]));; mret 0.

Definition uv_accept (client : nat) (option_err : Z) : M server_t Z :=
  s ← get;
  if accepted_fd s =? -1 then mret UV_EAGAIN
  else
    err ← uv__stream_open client (accepted_fd s) option_err;
    (if negb (err =? 0) then uv__close (accepted_fd s) else mret tt);;
    (match queued_fds s with
     | Some (size, fds) =>
         fd ← lift (head fds);
         let rest := tail fds in
         modify (set_pending fd (if decide (rest = []) then None else Some (size, rest)))
     | None =>
         modify (set_pending (-1) None);;
         if err =? 0 then start_pollin else mret tt
     end);;
    mret err.

(** [memory]: whether the allocator grants the block, when one is needed. *)
Definition uv__stream_queue_fd (memory : bool) (fd : Z) : M server_t Z :=
  s ← get;
  match queued_fds s with
  | None => if memory then modify (set_pending (accepted_fd s) (Some (8%nat, [fd])));; mret 0 else mret UV_ENOMEM
  | Some (size, fds) =>
      if Nat.eqb size (length fds) then
        if memory then modify (set_pending (accepted_fd s) (Some ((size + 8)%nat, fds ++ [fd])));; mret 0 else mret UV_ENOMEM
      else modify (set_pending (accepted_fd s) (Some (size, fds ++ [fd])));; mret 0
  end.

(** The descriptors of a control message, each with the allocator's answer. *)
Fixpoint recv_fds (fds : list (Z * bool)) : M server_t Z :=
  match fds with
  | [] => mret 0
  | (fd, memory) :: rest =>
      s ← get;
      if negb (accepted_fd s =? -1) then
        err ← uv__stream_queue_fd memory fd;
        if negb (err =? 0) then close_all (fd :: rest.*1);; mret err else recv_fds rest
      else modify (set_pending fd (queued_fds s));; recv_fds rest
  end.
Fixpoint all_got (fds : list Z) : M server_t unit :=
  match fds with [] => mret tt | fd :: fds => got fd;; all_got fds end.
Definition uv__stream_recv_cmsg (fds : list (Z * bool)) : M server_t Z := all_got fds.*1;; recv_fds fds.

(** The descriptors that wait are closed with the stream. *)
Definition uv__stream_close : M server_t unit :=
  s ← get;
  TN_ASSERT (negb (a_closing s));;
  modify set_closed;;
  (if negb (accepted_fd s =? -1) then uv__close (accepted_fd s);; modify (λ s, set_pending (-1) (queued_fds s) s) else mret tt);;
  match queued_fds s with
  | Some (_, fds) => close_all fds;; modify (λ s, set_pending (accepted_fd s) None s)
  | None => mret tt
  end.

Inductive scall := SAccept (client : nat) (option_err : Z) | SClose.

Definition do_scall (c : scall) : M server_t unit :=
  match c with
  | SAccept client option_err => uv_accept client option_err;; mret tt
  | SClose => s ← get; if a_closing s then mret tt else uv__stream_close
  end.
Fixpoint do_scalls (cs : list scall) : M server_t unit :=
  match cs with [] => mret tt | c :: cs => do_scall c;; do_scalls cs end.

(** The loop of [uv__emfile_trick] over the answers of [uv__accept]: what ended it, and the
    answers left; the kernel has no more connections after the last one. *)
Fixpoint emfile_loop (answers : list Z) : M server_t (Z * list Z) :=
  match answers with
  | [] => mret (UV_EAGAIN, [])
  | err :: answers =>
      (if 0 <=? err then got err;; uv__close err else mret tt);;
      if (0 <=? err) || (err =? UV_EINTR) then emfile_loop answers else mret (err, answers)
  end.
(** [spare]: the answer to opening the spare descriptor again. *)
Definition uv__emfile_trick (spare : Z) (answers : list Z) : M server_t (Z * list Z) :=
  s ← get;
  if emfile_fd s =? -1 then mret (UV_EMFILE, answers)
  else
    modify (set_emfile (-1));;
    r ← emfile_loop answers;
    (if 0 <=? spare then modify (set_emfile spare) else mret tt);;
    mret r.

Section Server.
(** What the program does in [connection_cb]. *)
Context (on_connection : Z → list scall).

(** The loop of [uv__server_io]; [fuel]: one more than the answers. *)
Fixpoint server_loop (fuel : nat) (spare : Z) (answers : list Z) : M server_t unit :=
  s ← get;
  if a_fd s =? -1 then mret tt
  else
    TN_ASSERT (accepted_fd s =? -1);;
    match fuel, answers with
    | O, _ => undef
    | S _, [] => mret tt
    | S fuel, err :: answers =>
        if err <? 0 then
          if err =? UV_EAGAIN then mret tt
          else if err =? UV_ECONNABORTED then server_loop fuel spare answers
          else if (err =? UV_EMFILE) || (err =? UV_ENFILE) then
            r ← uv__emfile_trick spare answers;
            if r.1 =? UV_EAGAIN then mret tt
            else do_scalls (on_connection r.1);; server_loop fuel spare r.2
          else do_scalls (on_connection err);; server_loop fuel spare answers
        else
          got err;;
          modify (λ s, set_pending err (queued_fds s) s);;
          do_scalls (on_connection 0);;
          s ← get;
          if negb (accepted_fd s =? -1) then stop_pollin else server_loop fuel spare answers
    end.

Definition uv__server_io (spare : Z) (answers : list Z) : M server_t unit :=
  s ← get;
  TN_ASSERT (accepted_fd s =? -1);;
  TN_ASSERT (negb (a_closing s));;
  start_pollin;;
  server_loop (S (length answers)) spare answers.

(** ** Runs *)

(** A call of the program, a listening stream that is waited for is readable, or a pipe
    receives descriptors. *)
Inductive sact := SCall (c : scall) | SIo (spare : Z) (answers : list Z) | SRecv (fds : list (Z * bool)).

Definition server_step (a : sact) : M server_t unit :=
  match a with
  | SCall c => do_scall c
  | SIo spare answers => s ← get; if a_listening s && a_pollin s then uv__server_io spare answers else mret tt
  | SRecv fds => s ← get; if negb (a_listening s) && negb (a_closing s) then uv__stream_recv_cmsg fds;; mret tt else mret tt
  end.
Fixpoint server_run (acts : list sact) : M server_t unit :=
  match acts with [] => mret tt | a :: acts => server_step a;; server_run acts end.
End Server.

(** A stream that has just begun to listen, or a pipe that is open. *)
Definition new_server (fd spare : Z) (listening : bool) : server_t :=
  {| a_fd := fd; a_listening := listening; a_closing := false; a_pollin := listening; accepted_fd := -1; queued_fds := None;
     emfile_fd := spare; a_clients := ∅; x_got := []; x_out := [] |}.

(** ** Specification *)

(** The descriptors that wait for [uv_accept], the first first. *)
Definition pending (s : server_t) : list Z :=
  (if accepted_fd s =? -1 then [] else [accepted_fd s]) ++ (match queued_fds s with Some (_, fds) => fds | None => [] end).
Definition is_given (p : Z * fate) : Prop := p.2 ≠ Closed.
#[global] Instance is_given_dec p : Decision (is_given p).
Proof. unfold is_given. apply _. Defined.
Definition given (out : list (Z * fate)) : list Z := fst <$> filter is_given out.

(** Every descriptor that arrived is given to one client, closed once, or waits; clients get
    them in the order they arrived. *)
Record ledger (got : list Z) (out : list (Z * fate)) (waiting : list Z) : Prop := {
  le_all : got ≡ₚ out.*1 ++ waiting;
  le_order : given out ++ waiting `sublist_of` got;
}.

(** [arriving]: descriptors of a control message that are not queued yet. *)
Record ainv (arriving : list Z) (s : server_t) : Prop := {
  ai_open : a_closing s = false → 0 ≤ a_fd s;
  ai_closed : a_closing s = true → a_fd s = -1 ∧ accepted_fd s = -1 ∧ queued_fds s = None ∧ a_pollin s = false;
  ai_queue : ∀ size fds, queued_fds s = Some (size, fds) → fds ≠ [] ∧ (length fds ≤ size)%nat ∧ accepted_fd s ≠ -1 ∧ a_listening s = false;
  ai_fds : Forall (λ fd, 0 ≤ fd) (pending s ++ arriving);
  ai_ledger : ledger (x_got s) (x_out s) (pending s ++ arriving);
  ai_clients : ∀ c fd, a_clients s !! c = Some fd → (fd, Given c) ∈ x_out s;
}.
(** A listening stream that is waited for has no connection that waits. *)
Definition idle (s : server_t) : Prop := a_listening s = true → a_pollin s = true → accepted_fd s = -1.

(** ** The ledger *)

Lemma given_snoc out p : given (out ++ [p]) = given out ++ (if decide (is_given p) then [p.1] else []).
Proof. unfold given. rewrite filter_app, fmap_app. f_equal. rewrite filter_cons, filter_nil. by destruct (decide _). Qed.

Lemma ledger_got g out w fd : ledger g out w → ledger (g ++ [fd]) out (w ++ [fd]).
Proof. intros []. split; [by rewrite app_assoc, le_all0|]. rewrite app_assoc. by apply sublist_app. Qed.

Lemma ledger_head g out fd w f : ledger g out (fd :: w) → ledger g (out ++ [(fd, f)]) w.
Proof.
  intros []. split; [rewrite le_all0, fmap_app; simpl; by rewrite <- app_assoc|]. rewrite given_snoc. etrans; [|exact le_order0].
  rewrite <- app_assoc. apply sublist_app; [done|]. destruct (decide _); simpl; [done|]. by apply sublist_cons.
Qed.

Lemma ledger_close g out w fd w' : ledger g out (w ++ fd :: w') → ledger g (out ++ [(fd, Closed)]) (w ++ w').
Proof.
  intros []. split.
  - rewrite le_all0, fmap_app, <- app_assoc. simpl. by rewrite <- Permutation_middle.
  - rewrite given_snoc, decide_False, app_nil_r by (by intros []). etrans; [|exact le_order0]. apply sublist_app; [done|]. apply sublist_app; [done|]. by apply sublist_cons.
Qed.

Lemma ledger_close_all g fds : ∀ out w, ledger g out (w ++ fds) → ledger g (out ++ ((λ fd, (fd, Closed)) <$> fds)) w.
Proof.
  induction fds as [|fd fds IH]; intros out w Hl; simpl; [by rewrite app_nil_r in *|].
  apply ledger_close, IH in Hl. by rewrite <- app_assoc in Hl.
Qed.

Lemma close_all_run fds : ∀ s, close_all fds s = Some (tt, set_moved (a_clients s) (x_got s) (x_out s ++ ((λ fd, (fd, Closed)) <$> fds)) s).
Proof.
  induction fds as [|fd fds IH]; intros s; cbn [close_all]; [simpl; rewrite app_nil_r; by destruct s|].
  unfold uv__close. rewrite M_modify, IH. simpl. by rewrite <- app_assoc.
Qed.
Lemma all_got_run fds : ∀ s, all_got fds s = Some (tt, set_moved (a_clients s) (x_got s ++ fds) (x_out s) s).
Proof.
  induction fds as [|fd fds IH]; intros s; cbn [all_got]; [rewrite app_nil_r; by destruct s|]. unfold got. rewrite M_modify, IH. simpl. by rewrite <- app_assoc.
Qed.

(** ** Calls *)

Lemma pending_one fd q s : 0 ≤ fd → pending (set_pending fd q s) = fd :: match q with Some (_, fds) => fds | None => [] end.
Proof. intros H. unfold pending. simpl. by rewrite (proj2 (Z.eqb_neq fd (-1))) by lia. Qed.

Lemma stream_open_run client fd err s : 0 ≤ fd →
  ∃ r s', uv__stream_open client fd err s = Some (r, s') ∧
    (r = 0 ∧ s' = set_moved (<[client := fd]> (a_clients s)) (x_got s) (x_out s ++ [(fd, Given client)]) s ∨ r ≠ 0 ∧ s' = s).
Proof.
  intros Hfd. unfold uv__stream_open. rewrite M_get. destruct (match a_clients s !! client with Some old => _ | None => _ end); [exists UV_EBUSY, s; auto|].
  rewrite (proj2 (Z.leb_le _ _) Hfd), M_assert. destruct (Z.eqb_spec err 0) as [->|He]; cbn [negb]; [|exists err, s; auto].
  rewrite M_modify. eexists 0, _. split; [reflexivity|]. by left.
Qed.

(** The first that waits leaves, and the next one takes its place. *)
Lemma leave_ok s s1 f r :
  ainv [] s → accepted_fd s ≠ -1 →
  s1 = set_moved (a_clients s1) (x_got s) (x_out s ++ [(accepted_fd s, f)]) s →
  (∀ c fd, a_clients s1 !! c = Some fd → (fd, Given c) ∈ x_out s1) →
  ∃ s', (match queued_fds s with
     | Some (size, fds) =>
         fd ← lift (head fds);
         let rest := tail fds in
         modify (set_pending fd (if decide (rest = []) then None else Some (size, rest)))
     | None =>
         modify (set_pending (-1) None);;
         if r =? 0 then start_pollin else mret tt
     end) s1 = Some (tt, s') ∧ ainv [] s' ∧ a_listening s' = a_listening s ∧ (a_listening s = true → accepted_fd s' = -1).
Proof.
  intros Hi Hne E Hcl. pose proof Hi as []. rewrite app_nil_r in *.
  assert (a_closing s = false) as Hop by (destruct (a_closing s); [by destruct ai_closed0 as (_ & ? & _)|done]).
  assert (pending s = accepted_fd s :: match queued_fds s with Some (_, fds) => fds | None => [] end) as Hp
    by (unfold pending; by rewrite (proj2 (Z.eqb_neq _ _) Hne)).
  rewrite Hp in *. apply Forall_cons in ai_fds0 as [Hfd Hrest]. apply (ledger_head _ _ _ _ f) in ai_ledger0.
  assert (a_closing s1 = false ∧ a_fd s1 = a_fd s ∧ x_got s1 = x_got s ∧ x_out s1 = x_out s ++ [(accepted_fd s, f)] ∧ a_listening s1 = a_listening s) as (E1 & E2 & E3 & E4 & E5)
    by (rewrite E; done).
  destruct (queued_fds s) as [[size fds]|] eqn:Eq.
  - destruct (ai_queue0 size fds eq_refl) as (Hn & Hle & _ & Hlis). destruct fds as [|fd fds]; [done|]. cbn [head tail]. rewrite M_lift.
    inversion Hrest as [|?? Hf Hfs]; subst. eexists. split; [reflexivity|].
    assert (pending (set_pending fd (if decide (fds = []) then None else Some (size, fds)) s1) = fd :: fds) as Hp'.
    { rewrite pending_one by done. by destruct (decide (fds = [])) as [->|]. }
    split; [|split; [done|simpl; congruence]]. split; rewrite ?Hp', ?app_nil_r; simpl; rewrite ?E1, ?E2, ?E3, ?E4, ?E5; try done; try (by auto).
    + intros size' fds'. destruct (decide (fds = [])); [done|]. intros [= <- <-]. simpl in Hle. split_and!; [done|lia|lia|done].
    + rewrite <- E4. done.
  - rewrite M_modify. set (s2 := set_pending (-1) None s1).
    assert (∃ p, (if r =? 0 then start_pollin else mret tt) s2 = Some (tt, set_watch p s2)) as [p Hr].
    { destruct (r =? 0); [|exists (a_pollin s2); by destruct s2]. unfold start_pollin. rewrite M_get. simpl. rewrite E2, (proj2 (Z.leb_le _ _) (ai_open0 Hop)), M_assert. by exists true. }
    rewrite Hr. eexists. split; [reflexivity|]. split; [|done]. split; simpl; rewrite ?E1, ?E2, ?E3, ?E4; try done; try (by auto). rewrite <- E4. done.
Qed.

Lemma accept_ok client option_err s : ainv [] s →
  ∃ r s', uv_accept client option_err s = Some (r, s') ∧ ainv [] s' ∧ a_listening s' = a_listening s ∧
    (a_listening s = true ∨ accepted_fd s = -1 → accepted_fd s' = -1).
Proof.
  intros Hi. unfold uv_accept. rewrite M_get. destruct (Z.eqb_spec (accepted_fd s) (-1)) as [E|E]; [by exists UV_EAGAIN, s|].
  assert (0 ≤ accepted_fd s) as Hfd.
  { pose proof (ai_fds _ _ Hi) as H. unfold pending in H. rewrite (proj2 (Z.eqb_neq _ _) E) in H. by inversion H. }
  destruct (stream_open_run client (accepted_fd s) option_err s Hfd) as (r & s1 & Hr & Hcase). bstep Hr.
  assert (∃ f s2, ((if negb (r =? 0) then uv__close (accepted_fd s) else mret tt) : M server_t unit) s1 = Some (tt, s2) ∧
    s2 = set_moved (a_clients s2) (x_got s) (x_out s ++ [(accepted_fd s, f)]) s ∧ (∀ c fd, a_clients s2 !! c = Some fd → (fd, Given c) ∈ x_out s2)) as (f & s2 & Hr2 & Es2 & Hc2).
  { destruct Hcase as [[-> ->]|[Hne ->]].
    - eexists (Given client), _. split; [reflexivity|]. split; [done|]. simpl. intros c fd Hc. apply lookup_insert_Some in Hc as [[-> ->]|[_ Hc]];
        apply elem_of_app; [right; by left|left; by apply (ai_clients _ _ Hi)].
    - rewrite (proj2 (Z.eqb_neq r 0) Hne). eexists Closed, _. split; [reflexivity|]. split; [done|]. simpl. intros c fd Hc. apply elem_of_app. left.
      by apply (ai_clients _ _ Hi). }
  bstep Hr2. destruct (leave_ok s s2 f r Hi E Es2 Hc2) as (s3 & Hr3 & Hi3 & Hl3 & Ha3). bstep Hr3. exists r, s3. split_and!; [done|done|done|]. intros [H|H]; [by apply Ha3|done].
Qed.

Lemma server_close_ok s : ainv [] s → a_closing s = false →
  ∃ s', uv__stream_close s = Some (tt, s') ∧ ainv [] s' ∧ a_listening s' = a_listening s ∧ accepted_fd s' = -1.
Proof.
  intros [] Hcl. unfold uv__stream_close. rewrite M_get, Hcl. cbn [negb]. rewrite M_assert, M_modify. rewrite app_nil_r in *.
  assert (∃ s', ((if negb (accepted_fd s =? -1) then uv__close (accepted_fd s);; modify (λ s, set_pending (-1) (queued_fds s) s) else mret tt) : M server_t unit) (set_closed s) = Some (tt, s') ∧
    s' = set_pending (-1) (queued_fds s) (set_moved (a_clients s) (x_got s) (x_out s') (set_closed s)) ∧
    ledger (x_got s) (x_out s') (match queued_fds s with Some (_, fds) => fds | None => [] end) ∧ (∀ c fd, a_clients s !! c = Some fd → (fd, Given c) ∈ x_out s')) as (s1 & Hr & E & Hl & Hc).
  { unfold pending in ai_ledger0. destruct (Z.eqb_spec (accepted_fd s) (-1)) as [Ea|Ea]; cbn [negb].
    - exists (set_closed s). split; [done|]. split; [unfold set_pending, set_closed; simpl; by rewrite Ea|]. done.
    - eexists. split; [reflexivity|]. split; [done|]. simpl. split; [by apply ledger_head|]. intros c fd H. apply elem_of_app. left. by apply ai_clients0. }
  bstep Hr. destruct (queued_fds s) as [[size fds]|] eqn:Eq.
  - rewrite (bind_Some _ _ _ _ _ (close_all_run fds s1)). eexists. split; [reflexivity|]. rewrite E in *. simpl in *. split; [|done].
    split; simpl; try done; [by apply (ledger_close_all _ fds _ [])|]. intros c fd H. apply elem_of_app. left. by apply Hc.
  - exists s1. rewrite E in *. simpl in *. by split_and!.
Qed.

Lemma scall_ok c s : ainv [] s →
  ∃ s', do_scall c s = Some (tt, s') ∧ ainv [] s' ∧ a_listening s' = a_listening s ∧ (accepted_fd s = -1 → accepted_fd s' = -1) ∧ (idle s → idle s').
Proof.
  intros Hi. destruct c as [client err|]; cbn [do_scall].
  - destruct (accept_ok client err s Hi) as (r & s' & Hr & Hi' & Hl & Ha). bstep Hr. exists s'. split_and!; try done; [by auto|].
    intros _ Hli _. rewrite Hl in Hli. auto.
  - rewrite M_get. destruct (a_closing s) eqn:Ec; [by exists s|]. destruct (server_close_ok s Hi Ec) as (s' & Hr & Hi' & Hl & Ha). exists s'. split_and!; try done. by intros ???.
Qed.

Lemma scalls_ok cs : ∀ s, ainv [] s →
  ∃ s', do_scalls cs s = Some (tt, s') ∧ ainv [] s' ∧ a_listening s' = a_listening s ∧ (accepted_fd s = -1 → accepted_fd s' = -1) ∧ (idle s → idle s').
Proof.
  induction cs as [|c cs IH]; intros s Hi; cbn [do_scalls]; [by exists s|].
  destruct (scall_ok c s Hi) as (s1 & Hr & Hi1 & Hl1 & Ha1 & Hd1). bstep Hr. destruct (IH s1 Hi1) as (s2 & Hr2 & Hi2 & Hl2 & Ha2 & Hd2).
  exists s2. split_and!; [done|done|congruence|auto|auto].
Qed.

(** ** Descriptors sent along *)

Lemma queue_fd_ok memory fd arriving s :
  ainv (fd :: arriving) s → accepted_fd s ≠ -1 → a_listening s = false →
  ∃ r s', uv__stream_queue_fd memory fd s = Some (r, s') ∧ (r = 0 ∧ ainv arriving s' ∧ a_listening s' = false ∧ a_closing s' = a_closing s ∨ r ≠ 0 ∧ s' = s).
Proof.
  intros Hi Hne Hl. pose proof Hi as []. assert (0 ≤ accepted_fd s) as Hfd.
  { unfold pending in ai_fds0. rewrite (proj2 (Z.eqb_neq _ _) Hne) in ai_fds0. by inversion ai_fds0. }
  assert (pending s = accepted_fd s :: match queued_fds s with Some (_, fds) => fds | None => [] end) as Hp
    by (unfold pending; by rewrite (proj2 (Z.eqb_neq _ _) Hne)).
  assert (∀ size fds, (match queued_fds s with Some (_, fds) => fds | None => [] end) ++ [fd] = fds → (length fds ≤ size)%nat →
    ainv arriving (set_pending (accepted_fd s) (Some (size, fds)) s)) as Hq.
  { intros size fds Ef Hle. split; try done.
    - intros Hc. destruct (ai_closed0 Hc) as (_ & ? & _). congruence.
    - simpl. intros ?? [= <- <-]. split_and!; try done. rewrite <- Ef. by destruct (match queued_fds s with Some _ => _ | None => _ end).
    - rewrite pending_one by done. rewrite Hp, <- Ef in *. simpl in *. by rewrite <- app_assoc.
    - rewrite pending_one by done. rewrite Hp, <- Ef in *. simpl in *. by rewrite <- app_assoc. }
  unfold uv__stream_queue_fd. rewrite M_get. destruct (queued_fds s) as [[size fds]|] eqn:Eq.
  - destruct (ai_queue0 size fds eq_refl) as (_ & Hle & _). destruct (Nat.eqb_spec size (length fds)) as [Es|Es].
    + destruct memory; [|by exists UV_ENOMEM, s; auto]. eexists 0, _. split; [reflexivity|]. left. split_and!; [done| |done|done]. apply Hq; [done|]. rewrite length_app. simpl. lia.
    + eexists 0, _. split; [reflexivity|]. left. split_and!; [done| |done|done]. apply Hq; [done|]. rewrite length_app. simpl. lia.
  - destruct memory; [|by exists UV_ENOMEM, s; auto]. eexists 0, _. split; [reflexivity|]. left. split_and!; [done| |done|done]. apply Hq; [done|]. simpl. lia.
Qed.

Lemma recv_fds_ok fds : ∀ s, ainv fds.*1 s → a_listening s = false → a_closing s = false →
  ∃ r s', recv_fds fds s = Some (r, s') ∧ ainv [] s' ∧ a_listening s' = false.
Proof.
  induction fds as [|[fd memory] fds IH]; intros s Hi Hl Hcl; cbn [recv_fds]; [by exists 0, s|]. simpl in Hi. rewrite M_get.
  destruct (Z.eqb_spec (accepted_fd s) (-1)) as [Ea|Ea]; cbn [negb].
  - rewrite M_modify. pose proof Hi as []. assert (queued_fds s = None) as Eq.
    { destruct (queued_fds s) as [[size q]|]; [|done]. by destruct (ai_queue0 size q eq_refl) as (_ & _ & ? & _). }
    assert (pending s = []) as Hp by (unfold pending; by rewrite Ea, Eq). rewrite Hp in *. simpl in ai_fds0. inversion ai_fds0 as [|?? Hfd Hfs]; subst.
    apply IH; [|done|done]. rewrite Eq. split; try done; rewrite ?pending_one by done; try done. simpl. congruence.
  - destruct (queue_fd_ok memory fd fds.*1 s Hi Ea Hl) as (r & s1 & Hr & [(-> & Hi1 & Hl1 & Hc1)|[Hne ->]]); bstep Hr.
    + apply IH; [done|done|congruence].
    + rewrite (proj2 (Z.eqb_neq r 0) Hne). cbn [negb]. rewrite (bind_Some _ _ _ _ _ (close_all_run (fd :: fds.*1) s)). eexists r, _. split; [reflexivity|]. split; [|done].
      pose proof Hi as []. split; try done; simpl.
      * apply Forall_app in ai_fds0 as [? _]. by rewrite app_nil_r.
      * rewrite app_nil_r. by apply (ledger_close_all _ (fd :: fds.*1)).
      * intros c fd' H. apply elem_of_app. left. by apply ai_clients0.
Qed.

Lemma recv_cmsg_ok fds s : ainv [] s → a_listening s = false → a_closing s = false → Forall (λ fd, 0 ≤ fd) fds.*1 →
  ∃ r s', uv__stream_recv_cmsg fds s = Some (r, s') ∧ ainv [] s' ∧ a_listening s' = false.
Proof.
  intros Hi Hl Hcl Hf. unfold uv__stream_recv_cmsg. rewrite (bind_Some _ _ _ _ _ (all_got_run fds.*1 s)). apply recv_fds_ok; [|done|done].
  pose proof Hi as []. rewrite app_nil_r in *. split; try done.
  - by apply Forall_app.
  - simpl. change (pending (set_moved _ _ _ s)) with (pending s). clear -ai_ledger0. destruct ai_ledger0.
    split; [by rewrite le_all0, app_assoc|]. rewrite app_assoc. by apply sublist_app.
Qed.


(** ** Listening *)

(** Changes that leave what waits and what happened alone. *)
Lemma ainv_same s s' :
  ainv [] s → a_fd s' = a_fd s → a_closing s' = a_closing s → a_listening s' = a_listening s → accepted_fd s' = accepted_fd s → queued_fds s' = queued_fds s →
  a_clients s' = a_clients s → x_got s' = x_got s → x_out s' = x_out s → (a_closing s = true → a_pollin s' = false) → ainv [] s'.
Proof.
  intros [] E1 E2 E3 E4 E5 E6 E7 E8 Hp. assert (pending s' = pending s) as E9 by (unfold pending; by rewrite E4, E5).
  split; rewrite ?E1, ?E2, ?E3, ?E4, ?E5, ?E6, ?E7, ?E8, ?E9; try done. intros Hc. destruct (ai_closed0 Hc) as (? & ? & ? & _). split_and!; auto.
Qed.

(** A connection that is accepted and closed at once. *)
Lemma turn_away s fd : ainv [] s → accepted_fd s = -1 → queued_fds s = None →
  ainv [] (set_moved (a_clients s) (x_got s ++ [fd]) (x_out s ++ [(fd, Closed)]) s).
Proof.
  intros [] Ea Eq. assert (pending s = []) as Hp by (unfold pending; by rewrite Ea, Eq). rewrite Hp in *. split; try done; simpl.
  - change (pending (set_moved _ _ _ s)) with (pending s). by rewrite Hp.
  - change (pending (set_moved _ _ _ s)) with (pending s). rewrite Hp. apply ledger_head. by apply (ledger_got _ _ []).
  - intros c fd' H. apply elem_of_app. left. by apply ai_clients0.
Qed.

Record lframe (s s' : server_t) : Prop := {
  lf_accepted : accepted_fd s' = accepted_fd s;
  lf_queued : queued_fds s' = queued_fds s;
  lf_listening : a_listening s' = a_listening s;
}.

Lemma emfile_loop_ok answers : ∀ s, ainv [] s → accepted_fd s = -1 → queued_fds s = None →
  ∃ r s', emfile_loop answers s = Some (r, s') ∧ ainv [] s' ∧ lframe s s' ∧ (length r.2 ≤ length answers)%nat.
Proof.
  induction answers as [|err answers IH]; intros s Hi Ea Eq; cbn [emfile_loop]; [by eexists (_, _), s|].
  set (s1 := if 0 <=? err then set_moved (a_clients s) (x_got s ++ [err]) (x_out s ++ [(err, Closed)]) s else s).
  assert (((if 0 <=? err then got err;; uv__close err else mret tt) : M server_t unit) s = Some (tt, s1)) as Hr by (unfold s1; by destruct (0 <=? err)).
  bstep Hr. assert (ainv [] s1 ∧ lframe s s1) as [Hi1 Hf1] by (unfold s1; destruct (0 <=? err); [split; [by apply turn_away|done]|done]).
  destruct (_ || _); [|eexists (_, _), s1; split_and!; [done|done|done|simpl; lia]].
  destruct (IH s1 Hi1) as (r & s2 & Hr2 & Hi2 & Hf2 & Hle); [by rewrite (lf_accepted _ _ Hf1)|by rewrite (lf_queued _ _ Hf1)|].
  exists r, s2. split_and!; [done|done|destruct Hf1, Hf2; split; congruence|simpl; lia].
Qed.

Lemma emfile_trick_ok spare answers s : ainv [] s → accepted_fd s = -1 → queued_fds s = None →
  ∃ r s', uv__emfile_trick spare answers s = Some (r, s') ∧ ainv [] s' ∧ lframe s s' ∧ (length r.2 ≤ length answers)%nat.
Proof.
  intros Hi Ea Eq. unfold uv__emfile_trick. rewrite M_get. destruct (emfile_fd s =? -1); [by eexists (_, _), s|]. rewrite M_modify.
  destruct (emfile_loop_ok answers (set_emfile (-1) s)) as (r & s1 & Hr & Hi1 & Hf1 & Hle); [by eapply (ainv_same s); try done; apply Hi|done|done|]. bstep Hr.
  destruct (0 <=? spare); [|rewrite M_left_id; exists r, s1; split_and!; try done; destruct Hf1; by split].
  eexists r, _. split; [reflexivity|]. split_and!; [by eapply (ainv_same s1); try done; apply Hi1|destruct Hf1; by split|done].
Qed.

Lemma no_queue s : ainv [] s → accepted_fd s = -1 → queued_fds s = None.
Proof. intros [] Ea. destruct (queued_fds s) as [[size q]|]; [|done]. by destruct (ai_queue0 size q eq_refl) as (_ & _ & ? & _). Qed.

Section Server.
Context (on_connection : Z → list scall).

Lemma server_loop_ok fuel : ∀ spare answers s,
  ainv [] s → accepted_fd s = -1 → a_listening s = true → (length answers < fuel)%nat →
  ∃ s', server_loop on_connection fuel spare answers s = Some (tt, s') ∧ ainv [] s' ∧ idle s' ∧ a_listening s' = true.
Proof.
  induction fuel as [|fuel IH]; intros spare answers s Hi Ea Hl Hf; [lia|]. cbn [server_loop]. rewrite M_get.
  assert (idle s) as Hid by (by intros _). destruct (Z.eqb_spec (a_fd s) (-1)) as [|Hfd]; [by exists s|]. rewrite Ea, Z.eqb_refl, M_assert.
  destruct answers as [|err answers]; [by exists s|]. simpl in Hf.
  assert (∀ code rest s1, ainv [] s1 → lframe s s1 → (length rest ≤ length answers)%nat →
    ∃ s', (do_scalls (on_connection code);; server_loop on_connection fuel spare rest) s1 = Some (tt, s') ∧ ainv [] s' ∧ idle s' ∧ a_listening s' = true) as Htell.
  { intros code rest s1 Hi1 [] Hle. destruct (scalls_ok (on_connection code) s1 Hi1) as (s2 & Hr & Hi2 & Hl2 & Ha2 & _). bstep Hr.
    apply IH; [done|apply Ha2; congruence|congruence|lia]. }
  destruct (Z.ltb_spec err 0) as [Hneg|Hpos].
  - destruct (err =? UV_EAGAIN); [by exists s|]. destruct (err =? UV_ECONNABORTED); [by apply IH; try lia|].
    destruct (_ || _); [|by apply Htell].
    destruct (emfile_trick_ok spare answers s Hi Ea (no_queue s Hi Ea)) as (r & s1 & Hr & Hi1 & Hf1 & Hle). bstep Hr.
    destruct (r.1 =? UV_EAGAIN); [|by apply Htell]. exists s1. destruct Hf1. split_and!; [done|done|intros _ _; congruence|congruence].
  - unfold got. rewrite !M_modify. set (s1 := set_pending err _ _). assert (ainv [] s1) as Hi1.
    { pose proof (no_queue s Hi Ea) as Eq. pose proof Hi as []. assert (pending s = []) as Hp by (unfold pending; by rewrite Ea, Eq). rewrite Hp in *.
      assert (pending s1 = [err]) as Hp1 by (unfold s1; rewrite pending_one by done; simpl; by rewrite Eq).
      split; rewrite ?Hp1; try done; simpl.
      - intros Hc. destruct (ai_closed0 Hc) as (? & _). congruence.
      - intros size fds H. congruence.
      - by constructor.
      - by apply (ledger_got _ _ []). }
    destruct (scalls_ok (on_connection 0) s1 Hi1) as (s2 & Hr & Hi2 & Hl2 & _). bstep Hr.
    destruct (Z.eqb_spec (accepted_fd s2) (-1)) as [Ea2|Ea2]; cbn [negb]; [apply IH; [done|done|by rewrite Hl2|lia]|].
    unfold stop_pollin. rewrite M_get. assert (a_closing s2 = false) as Hc2 by (destruct (a_closing s2) eqn:Ec; [by destruct (ai_closed _ _ Hi2 Ec) as (_ & ? & _)|done]).
    pose proof (ai_open _ _ Hi2 Hc2). rewrite (proj2 (Z.eqb_neq (a_fd s2) (-1))) by lia. eexists. split; [reflexivity|].
    split_and!; [by eapply (ainv_same s2)|by intros _|by rewrite <- Hl in *]. 
Qed.

Definition sact_fine (a : sact) : Prop := match a with SRecv fds => Forall (λ fd, 0 ≤ fd) fds.*1 | _ => True end.

Lemma server_step_ok a s : ainv [] s → idle s → sact_fine a → ∃ s', server_step on_connection a s = Some (tt, s') ∧ ainv [] s' ∧ idle s'.
Proof.
  intros Hi Hid Hf. destruct a as [c|spare answers|fds]; cbn [server_step].
  - destruct (scall_ok c s Hi) as (s' & Hr & Hi' & _ & _ & Hd). exists s'. split_and!; auto.
  - rewrite M_get. destruct (a_listening s) eqn:El, (a_pollin s) eqn:Ep; simpl; try (by exists s). pose proof (Hid El Ep) as Ea.
    unfold uv__server_io. rewrite M_get, Ea, Z.eqb_refl, M_assert. destruct (a_closing s) eqn:Ec; [by destruct (ai_closed _ _ Hi Ec) as (_ & _ & _ & ?); congruence|].
    cbn [negb]. rewrite M_assert. unfold start_pollin. rewrite M_assoc, M_get, M_assoc, (proj2 (Z.leb_le _ _) (ai_open _ _ Hi Ec)), M_assert, M_modify.
    destruct (server_loop_ok (S (length answers)) spare answers (set_watch true s)) as (s' & Hr & Hi' & Hd' & _); [|done|done|lia|by exists s'].
    eapply (ainv_same s); try done. congruence.
  - rewrite M_get. destruct (a_listening s) eqn:El, (a_closing s) eqn:Ec; simpl; try (by exists s).
    destruct (recv_cmsg_ok fds s Hi El Ec Hf) as (r & s' & Hr & Hi' & Hl'). bstep Hr. exists s'. split_and!; [done|done|]. intros H. congruence.
Qed.

Lemma server_run_ok acts : ∀ s, ainv [] s → idle s → Forall sact_fine acts → ∃ s', server_run on_connection acts s = Some (tt, s') ∧ ainv [] s' ∧ idle s'.
Proof.
  induction acts as [|a acts IH]; intros s Hi Hid Hf; cbn [server_run]; [by exists s|]. inversion Hf as [|?? Hf1 Hf2]; subst.
  destruct (server_step_ok a s Hi Hid Hf1) as (s1 & Hr & Hi1 & Hd1). bstep Hr. by apply IH.
Qed.

(** C20. Whatever the program calls, from outside and in [connection_cb], and whatever the
    kernel and the allocator answer, accepting is defined.  Every descriptor that arrived is
    in exactly one place: a client got it, it was closed, or it waits; the clients get them
    in the order they arrived; a client stream holds what it was given; and when the stream
    is closed none waits. *)
Theorem descriptors_accounted acts fd spare listening :
  0 ≤ fd → Forall sact_fine acts →
  ∃ s, server_run on_connection acts (new_server fd spare listening) = Some (tt, s) ∧
    ledger (x_got s) (x_out s) (pending s) ∧ (∀ c fd, a_clients s !! c = Some fd → (fd, Given c) ∈ x_out s) ∧
    (a_closing s = true → x_got s ≡ₚ (x_out s).*1).
Proof.
  intros Hfd Hf. destruct (server_run_ok acts (new_server fd spare listening)) as (s & Hr & Hi & _); [|done|done|].
  { split; try done; simpl; by constructor. }
  exists s. split; [done|]. destruct Hi. rewrite app_nil_r in *. split_and!; [done|done|]. intros Hc. destruct (ai_closed0 Hc) as (_ & Ea & Eq & _).
  destruct ai_ledger0. unfold pending in le_all0. rewrite Ea, Eq, app_nil_r in le_all0. done.
Qed.
End Server.

(** A connection the program takes late into a stream that is in use is closed, and the
    listening stream is not waited for any more: it accepts nothing from then on. *)
Lemma failed_accept_stalls spare answers :
  let on_connection (_ : Z) : list scall := [] in
  ∃ s, server_run on_connection [SIo (-1) [10]; SCall (SAccept 1 0); SIo (-1) [11]; SCall (SAccept 1 0)] (new_server 7 8 true) = Some (tt, s) ∧
    x_out s = [(10, Given 1); (11, Closed)] ∧ a_closing s = false ∧ accepted_fd s = -1 ∧ a_pollin s = false ∧
    server_step on_connection (SIo spare answers) s = Some (tt, s).
Proof. cbv zeta. eexists. split; [vm_compute; reflexivity|]. by split_and!. Qed.

(** ** Samples *)

(** The program accepts in the callback; the process runs out of descriptors once. *)
Definition sample_conn (status : Z) : list scall := if status =? 0 then [SAccept 1 0; SAccept 2 0] else [SAccept 2 0].
Definition sample_acts : list sact := [SIo 8 [10; UV_EMFILE; 11; 12; UV_EAGAIN]; SIo 8 [UV_ECONNABORTED; 13; 14]; SCall SClose].
Definition sample_pipe : list sact := [SRecv [(20, true); (21, true); (22, true)]; SCall (SAccept 5 0); SRecv [(23, true)]; SCall SClose].

Lemma sample_acts_run :
  match server_run sample_conn sample_acts (new_server 7 8 true), server_run sample_conn sample_pipe (new_server 7 8 false) with
  | Some (_, s), Some (_, t) => x_out s = [(10, Given 1); (11, Closed); (12, Closed); (13, Closed); (14, Closed)] ∧
      x_out t = [(20, Given 5); (21, Closed); (22, Closed); (23, Closed)]
  | _, _ => False
  end.
Proof. vm_compute. done. Qed.

Lemma descriptors_accounted_witness :
  ∃ s, server_run sample_conn sample_pipe (new_server 7 8 false) = Some (tt, s) ∧ (a_closing s = true → x_got s ≡ₚ (x_out s).*1).
Proof.
  destruct (descriptors_accounted sample_conn sample_pipe 7 8 false) as (s & Hr & _ & _ & Hc); [lia| |exists s; exact (conj Hr Hc)].
  repeat constructor; simpl; lia.
Defined.
