(* ===== verification/UvAsync.v ===== *)
(** Waking a loop from other threads: deps/libuv src/unix/async.c.

    [uv_async_send] may run in any thread: it reads [pending], swaps it from 0 to 1 and, when
    it was the one to do so, writes to the loop's descriptor.  The loop reads the descriptor
    empty and goes through the handles, swapping each [pending] back and calling the callbacks of
    those that were set.  The operations are cut at each access to shared memory and to the
    descriptor, and any number of threads run them in any order.  Memory is sequentially
    consistent. *)
From stdpp Require Import base numbers list option gmap.
From Stdlib Require Import ZArith Lia.
From S2P Require Import Prelude.

Local Open Scope Z_scope.
Local Open Scope c_scope.

(** ** State *)

(** Where a thread is in [uv_async_send]. *)
Inductive send_pc := AtLoad (h : nat) | AtSwap (h : nat) | AtWrite (h : nat).
Definition pc_handle (p : send_pc) : nat := match p with AtLoad h | AtSwap h | AtWrite h => h end.

(** What happened: a handle was opened, a send took effect, the loop took a send and ran
    the callback if there is one. *)
Inductive happened := Opened (h : nat) | Sent (h : nat) | Taken (h : nat) (ran : bool).

(** [async_fd]: the descriptor, -1 before the first handle; [tokens]: what was written to it
    and not read; [async_handles]: the queue of the loop; [scanning]: the local queue of a
    running [uv__async_io]; [pending], [has_cb]: the members of the open handles. *)
Record async_t := {
  async_fd : Z;
  tokens : Z;
  async_handles : list nat;
  scanning : list nat;
  pending : gmap nat bool;
  has_cb : gmap nat bool;
  senders : gmap nat send_pc;
  x_hist : list happened;
}.

Definition set_fd (fd tk : Z) (s : async_t) : async_t :=
  {| async_fd := fd; tokens := tk; async_handles := async_handles s; scanning := scanning s; pending := pending s; has_cb := has_cb s;
     senders := senders s; x_hist := x_hist s |}.
Definition set_handles (queue scan : list nat) (s : async_t) : async_t :=
  {| async_fd := async_fd s; tokens := tokens s; async_handles := queue; scanning := scan; pending := pending s; has_cb := has_cb s;
     senders := senders s; x_hist := x_hist s |}.
Definition set_pending (p : gmap nat bool) (s : async_t) : async_t :=
  {| async_fd := async_fd s; tokens := tokens s; async_handles := async_handles s; scanning := scanning s; pending := p; has_cb := has_cb s;
     senders := senders s; x_hist := x_hist s |}.
Definition set_cbs (c : gmap nat bool) (s : async_t) : async_t :=
  {| async_fd := async_fd s; tokens := tokens s; async_handles := async_handles s; scanning := scanning s; pending := pending s; has_cb := c;
     senders := senders s; x_hist := x_hist s |}.
Definition set_senders (m : gmap nat send_pc) (s : async_t) : async_t :=
  {| async_fd := async_fd s; tokens := tokens s; async_handles := async_handles s; scanning := scanning s; pending := pending s; has_cb := has_cb s;
     senders := m; x_hist := x_hist s |}.
Definition record (e : happened) (s : async_t) : async_t :=
  {| async_fd := async_fd s; tokens := tokens s; async_handles := async_handles s; scanning := scanning s; pending := pending s; has_cb := has_cb s;
     senders := senders s; x_hist := x_hist s ++ [e] |}.

(** The counter of an eventfd saturates; then the write is refused and may be. *)
Definition TOKENS_MAX : Z := 18446744073709551614.

(** ** Operations *)

(** [start]: the descriptor that [uv__async_start] opens, or its error. *)
Definition uv__async_start (start : Z) : M async_t Z :=
  s ← get;
  if negb (async_fd s =? -1) then mret 0
  else if start <? 0 then mret start
  else modify (set_fd start 0);; mret 0.

Definition uv_async_init (h : nat) (cb : bool) (start : Z) : M async_t Z :=
  err ← uv__async_start start;
  if negb (err =? 0) then mret err
  else
    modify (λ s, set_cbs (<[h := cb]> (has_cb s)) (set_pending (<[h := false]> (pending s)) s));;
    modify (λ s, set_handles (async_handles s ++ [h]) (scanning s) s);;
    modify (record (Opened h));;
    mret 0.

(** The handle leaves the queue it is in, that of the loop or the local one. *)
Definition uv__async_close (h : nat) : M async_t unit :=
  modify (λ s, set_handles (filter (.≠ h) (async_handles s)) (filter (.≠ h) (scanning s)) s);;
  modify (λ s, set_pending (delete h (pending s)) s).

(** [uv_async_send] in thread [t]: the read, the swap, the write. *)
Definition send_begin (t h : nat) : M async_t unit := modify (λ s, set_senders (<[t := AtLoad h]> (senders s)) s).

Definition send_load (t h : nat) : M async_t unit :=
  s ← get;
  p ← lift (pending s !! h);
  if p : bool then modify (λ s, record (Sent h) (set_senders (delete t (senders s)) s))
  else modify (λ s, set_senders (<[t := AtSwap h]> (senders s)) s).

Definition send_swap (t h : nat) : M async_t unit :=
  s ← get;
  p ← lift (pending s !! h);
  modify (record (Sent h));;
  if p : bool then modify (λ s, set_senders (delete t (senders s)) s)
  else
    modify (set_pending (<[h := true]> (pending s)));;
    modify (λ s, set_senders (<[t := AtWrite h]> (senders s)) s).

(** [uv__async_send]. *)
Definition send_write (t : nat) : M async_t unit :=
  s ← get;
  TN_ASSERT (0 <=? async_fd s);;
  modify (λ s, set_fd (async_fd s) (if tokens s <? TOKENS_MAX then tokens s + 1 else tokens s) s);;
  modify (λ s, set_senders (delete t (senders s)) s).

(** [uv__async_io] up to its loop: the descriptor is read empty, the queue moved. *)
Definition async_io_begin : M async_t unit :=
  modify (λ s, set_fd (async_fd s) 0 s);;
  modify (λ s, set_handles [] (async_handles s) s).

(** A round of its loop. *)
Definition async_io_next : M async_t unit :=
  s ← get;
  match scanning s with
  | [] => mret tt
  | h :: q =>
      modify (set_handles (async_handles s ++ [h]) q);;
      p ← lift (pending s !! h);
      if p : bool then
        modify (set_pending (<[h := false]> (pending s)));;
        cb ← lift (has_cb s !! h);
        modify (record (Taken h cb))
      else mret tt
  end.

(** ** Interleavings *)

Inductive aact :=
  | AInit (h : nat) (cb : bool) (start : Z)
  | AClose (h : nat)
  | ABegin (t h : nat)
  | ASend (t : nat)
  | APoll
  | AScan.

(** A handle is opened once at a time, sent to while it is open, and closed when no thread
    is sending to it; a thread is in one call; the loop enters [uv__async_io] when the
    descriptor is readable and it is not in it. *)
Definition enabled (s : async_t) (a : aact) : bool :=
  match a with
  | AInit h _ _ => bool_decide (pending s !! h = None)
  | AClose h => bool_decide (is_Some (pending s !! h)) && bool_decide (map_Forall (λ _ p, pc_handle p ≠ h) (senders s))
  | ABegin t h => bool_decide (senders s !! t = None) && bool_decide (is_Some (pending s !! h))
  | ASend t => bool_decide (is_Some (senders s !! t))
  | APoll => bool_decide (scanning s = []) && (0 <? tokens s)
  | AScan => negb (bool_decide (scanning s = []))
  end.

Definition send_next (t : nat) : M async_t unit :=
  s ← get;
  p ← lift (senders s !! t);
  match p with AtLoad h => send_load t h | AtSwap h => send_swap t h | AtWrite _ => send_write t end.

Definition async_step (a : aact) : M async_t unit :=
  match a with
  | AInit h cb start => uv_async_init h cb start;; mret tt
  | AClose h => uv__async_close h
  | ABegin t h => send_begin t h
  | ASend t => send_next t
  | APoll => async_io_begin
  | AScan => async_io_next
  end.

Fixpoint async_run (acts : list aact) : M async_t unit :=
  match acts with
  | [] => mret tt
  | a :: acts => s ← get; (if enabled s a then async_step a else mret tt);; async_run acts
  end.

Definition async_new : async_t :=
  {| async_fd := -1; tokens := 0; async_handles := []; scanning := []; pending := ∅; has_cb := ∅; senders := ∅; x_hist := [] |}.

(** ** Specification *)

(** Whether the last thing that happened to [h] is a send that was not taken. *)
Definition next_owed (h : nat) (owed : bool) (e : happened) : bool :=
  match e with
  | Opened h' => if decide (h = h') then false else owed
  | Sent h' => if decide (h = h') then true else owed
  | Taken h' _ => if decide (h = h') then false else owed
  end.
Definition owed (h : nat) (hist : list happened) : bool := foldl (next_owed h) false hist.

(** The loop waits and no thread is about to wake it. *)
Definition asleep (s : async_t) : Prop := tokens s = 0 ∧ scanning s = [] ∧ ∀ t h, senders s !! t ≠ Some (AtWrite h).

(** The loop takes only what was sent. *)
Definition takes_sent (hist : list happened) : Prop := ∀ pre h ran post, hist = pre ++ Taken h ran :: post → owed h pre = true.

Record async_ok (s : async_t) : Prop := {
  ao_open : ∀ h, is_Some (pending s !! h) ↔ h ∈ async_handles s ++ scanning s;
  ao_nodup : NoDup (async_handles s ++ scanning s);
  ao_cbs : ∀ h, is_Some (pending s !! h) → is_Some (has_cb s !! h);
  ao_fd : ∀ h, is_Some (pending s !! h) → 0 ≤ async_fd s;
  ao_fd_range : -1 ≤ async_fd s;
  ao_tokens : 0 ≤ tokens s;
  ao_senders : ∀ t p, senders s !! t = Some p → is_Some (pending s !! pc_handle p);
  ao_wake : ∀ h, pending s !! h = Some true → 0 < tokens s ∨ h ∈ scanning s ∨ ∃ t, senders s !! t = Some (AtWrite h);
  ao_hist : ∀ h p, pending s !! h = Some p → owed h (x_hist s) = p;
  ao_taken : takes_sent (x_hist s);
}.

(** ** Lemmas *)

Lemma owed_snoc h hist e : owed h (hist ++ [e]) = next_owed h (owed h hist) e.
Proof. unfold owed. by rewrite foldl_app. Qed.

Lemma takes_snoc hist e : takes_sent hist → (∀ h ran, e = Taken h ran → owed h hist = true) → takes_sent (hist ++ [e]).
Proof.
  intros Ht He pre h ran post E. destruct post as [|e' post] using rev_ind.
  - apply app_inj_tail in E as [<- ->]. by eapply He.
  - rewrite app_comm_cons, app_assoc in E. apply app_inj_tail in E as [-> _]. by eapply Ht.
Qed.

Lemma async_init_ok s h cb start : async_ok s → pending s !! h = None → ∃ r s', uv_async_init h cb start s = Some (r, s') ∧ async_ok s'.
Proof.
  intros Hok Hn. unfold uv_async_init, uv__async_start. rewrite M_assoc, M_get.
  assert (∀ fd tk, 0 ≤ fd → 0 ≤ tk → (async_fd s = fd ∧ tk = tokens s ∨ async_fd s = -1) →
    async_ok (record (Opened h) (set_handles (async_handles s ++ [h]) (scanning s)
      (set_cbs (<[h := cb]> (has_cb s)) (set_pending (<[h := false]> (pending s)) (set_fd fd tk s)))))) as Hnew.
  { intros fd tk Hfd Htk Hsame. destruct Hok. assert (h ∉ async_handles s ++ scanning s) as Hh.
    { intros Hin. apply ao_open0 in Hin as [? ?]. congruence. }
    split; simpl.
    - intros h'. rewrite <- app_assoc. simpl. rewrite lookup_insert_is_Some', !elem_of_app, elem_of_cons. rewrite ao_open0, elem_of_app. naive_solver.
    - rewrite <- app_assoc. simpl. rewrite <- Permutation_middle. by constructor.
    - intros h'. rewrite !lookup_insert_is_Some'. naive_solver.
    - done.
    - lia.
    - done.
    - intros t p Hp. apply lookup_insert_is_Some'. right. by eapply ao_senders0.
    - intros h' Hp. apply lookup_insert_Some in Hp as [[_ ?]|[_ Hp]]; [done|]. destruct Hsame as [[_ ->]|Hfd1]; [by apply ao_wake0|].
      assert (0 ≤ async_fd s); [|lia]. eapply ao_fd0. by eexists.
    - intros h' p Hp. rewrite owed_snoc. simpl. apply lookup_insert_Some in Hp as [[<- <-]|[Hne Hp]]; [by rewrite decide_True|]. rewrite decide_False by done. by apply ao_hist0.
    - apply takes_snoc; [done|]. by intros ?? [=]. }
  destruct (Z.eqb_spec (async_fd s) (-1)) as [E|E]; cbn [negb].
  - destruct (Z.ltb_spec start 0) as [Hs|Hs].
    + rewrite M_left_id, (proj2 (Z.eqb_neq start 0)) by lia. by exists start, s.
    + rewrite M_assoc, M_modify, M_left_id. eexists 0, _. split; [reflexivity|]. apply Hnew; [done|done|by right].
  - rewrite M_left_id. eexists 0, _. split; [reflexivity|].
    assert (set_fd (async_fd s) (tokens s) s = s) as Es by (by destruct s). rewrite <- Es at 1.
    destruct (Hnew (async_fd s) (tokens s)); [destruct Hok; lia|by destruct Hok|by left|]. by split.
Qed.

Lemma async_close_ok s h : async_ok s → is_Some (pending s !! h) → map_Forall (λ _ p, pc_handle p ≠ h) (senders s) →
  ∃ s', uv__async_close h s = Some (tt, s') ∧ async_ok s'.
Proof.
  intros [] Hh Hsend. eexists. split; [reflexivity|]. split; simpl; try done.
  - intros h'. rewrite lookup_delete_is_Some, ao_open0, !elem_of_app, !list_elem_of_filter. naive_solver.
  - rewrite <- filter_app. by apply NoDup_filter.
  - intros h' Hp. apply lookup_delete_is_Some in Hp as [_ Hp]. by apply ao_cbs0.
  - intros h' Hp. apply lookup_delete_is_Some in Hp as [_ Hp]. by eapply ao_fd0.
  - intros t p Hp. apply lookup_delete_is_Some. split; [|by eapply ao_senders0]. intros ->. by apply (Hsend t p Hp).
  - intros h' Hp. apply lookup_delete_Some in Hp as [Hne Hp]. destruct (ao_wake0 h' Hp) as [?|[?|?]]; [by left| |by auto]. right. left. by apply list_elem_of_filter.
  - intros h' p Hp. apply lookup_delete_Some in Hp as [_ Hp]. by apply ao_hist0.
Qed.

(** A thread moves on; only one that leaves its write needs a token. *)
Lemma sender_moves s t m :
  async_ok s → (∀ t' p, m !! t' = Some p → is_Some (pending s !! pc_handle p)) →
  (∀ t' h, t' ≠ t → senders s !! t' = Some (AtWrite h) → m !! t' = Some (AtWrite h)) → (∀ h, senders s !! t = Some (AtWrite h) → 0 < tokens s) →
  async_ok (set_senders m s).
Proof.
  intros [] Hm Hw Ht. split; simpl; try done. intros h Hp. destruct (ao_wake0 h Hp) as [?|[?|[t' Ht']]]; [by auto|by auto|].
  destruct (decide (t' = t)) as [->|Hne]; [left; by eapply Ht|]. right. right. exists t'. by apply Hw.
Qed.

Lemma async_sent_ok s h : async_ok s → pending s !! h = Some true → async_ok (record (Sent h) s).
Proof.
  intros [] Hp. split; simpl; try done.
  - intros h' p Hp'. rewrite owed_snoc. simpl. destruct (decide (h' = h)) as [->|]; [congruence|by apply ao_hist0].
  - apply takes_snoc; [done|]. by intros ?? [=].
Qed.

Lemma begin_ok s t h : async_ok s → senders s !! t = None → is_Some (pending s !! h) → async_ok (set_senders (<[t := AtLoad h]> (senders s)) s).
Proof.
  intros Hok Ht Hh. apply (sender_moves s t); [done| | |by rewrite Ht].
  - intros t' p Hp. apply lookup_insert_Some in Hp as [[_ <-]|[_ Hp]]; [done|]. by eapply (ao_senders _ Hok).
  - intros t' h' Hne Hp. by rewrite lookup_insert_ne.
Qed.

Lemma leave_sender s t : async_ok s → (∀ h, senders s !! t = Some (AtWrite h) → 0 < tokens s) → async_ok (set_senders (delete t (senders s)) s).
Proof.
  intros Hok Ht. apply (sender_moves s t); [done| | |done].
  - intros t' p Hp. apply lookup_delete_Some in Hp as [_ Hp]. by eapply (ao_senders _ Hok).
  - intros t' h' Hne Hp. by rewrite lookup_delete_ne.
Qed.

Lemma send_load_ok s t h : async_ok s → senders s !! t = Some (AtLoad h) → ∃ s', send_load t h s = Some (tt, s') ∧ async_ok s'.
Proof.
  intros Hok Ht. destruct (ao_senders _ Hok t _ Ht) as [p Hp]. simpl in Hp. unfold send_load. rewrite M_get, Hp, M_lift. destruct p.
  - eexists. split; [reflexivity|]. apply async_sent_ok; [|done]. apply leave_sender; [done|]. congruence.
  - eexists. split; [reflexivity|]. apply (sender_moves s t); [done| | |congruence].
    + intros t' p' Hp'. apply lookup_insert_Some in Hp' as [[_ <-]|[_ Hp']]; [by eexists|]. by eapply (ao_senders _ Hok).
    + intros t' h' Hne Hp'. by rewrite lookup_insert_ne.
Qed.

Lemma send_swap_ok s t h : async_ok s → senders s !! t = Some (AtSwap h) → ∃ s', send_swap t h s = Some (tt, s') ∧ async_ok s'.
Proof.
  intros Hok Ht. destruct (ao_senders _ Hok t _ Ht) as [p Hp]. simpl in Hp. unfold send_swap. rewrite M_get, Hp, M_lift, M_modify. destruct p.
  - eexists. split; [reflexivity|]. apply (leave_sender (record (Sent h) s)); [by apply async_sent_ok|]. simpl. congruence.
  - rewrite M_modify. eexists. split; [reflexivity|]. destruct Hok. split; simpl; try done.
    + intros h'. rewrite lookup_insert_is_Some', <- ao_open0. split; [intros [<-|?]; [by eexists|done]|by right].
    + intros h' Hh'. apply ao_cbs0. apply lookup_insert_is_Some' in Hh' as [<-|?]; [by eexists|done].
    + intros h' Hh'. apply lookup_insert_is_Some' in Hh' as [<-|?]; eapply ao_fd0; [by eexists|done].
    + intros t' p' Hp'. apply lookup_insert_is_Some'. apply lookup_insert_Some in Hp' as [[_ <-]|[_ Hp']]; [by left|]. right. by eapply ao_senders0.
    + intros h' Hp'. apply lookup_insert_Some in Hp' as [[<- _]|[Hne Hp']]; [right; right; exists t; by rewrite lookup_insert_eq|].
      destruct (ao_wake0 h' Hp') as [?|[?|[t' Ht']]]; [by auto|by auto|]. right. right. exists t'. rewrite lookup_insert_ne; [done|]. intros ->. congruence.
    + intros h' p' Hp'. rewrite owed_snoc. simpl. apply lookup_insert_Some in Hp' as [[<- <-]|[Hne Hp']]; [by rewrite decide_True|].
      rewrite decide_False by done. by apply ao_hist0.
    + apply takes_snoc; [done|]. by intros ?? [=].
Qed.

Lemma send_write_ok s t h : async_ok s → senders s !! t = Some (AtWrite h) →
  ∃ s', send_write t s = Some (tt, s') ∧ async_ok s' ∧ 0 < tokens s' ∧ senders s' = delete t (senders s) ∧ pending s' = pending s.
Proof.
  intros Hok Ht. pose proof (ao_senders _ Hok t _ Ht) as Hp. simpl in Hp. unfold send_write.
  rewrite M_get, (proj2 (Z.leb_le _ _) (ao_fd _ Hok _ Hp)), M_assert, M_modify. set (s1 := set_fd _ _ s).
  assert (0 < tokens s1) as Htk by (pose proof (ao_tokens _ Hok); simpl; unfold TOKENS_MAX; case_bool; lia).
  eexists. split; [reflexivity|]. split; [|done]. apply (leave_sender s1); [|done]. destruct Hok. split; try done; [simpl in *; lia|by left].
Qed.

Lemma async_poll_ok s : async_ok s → scanning s = [] → ∃ s', async_io_begin s = Some (tt, s') ∧ async_ok s' ∧ tokens s' = 0 ∧ scanning s' = async_handles s ∧
  async_handles s' = [] ∧ senders s' = senders s ∧ pending s' = pending s.
Proof.
  intros [] Hs. eexists. split; [reflexivity|]. split; [|done]. rewrite Hs, app_nil_r in *. split; simpl; try done.
  intros h Hp. right. left. apply ao_open0. by eexists.
Qed.

Lemma async_scan_ok s h q : async_ok s → scanning s = h :: q →
  ∃ s', async_io_next s = Some (tt, s') ∧ async_ok s' ∧ tokens s' = tokens s ∧ scanning s' = q ∧ senders s' = senders s ∧
    (∀ h', is_Some (pending s' !! h') ↔ is_Some (pending s !! h')).
Proof.
  intros Hok Hs. assert (is_Some (pending s !! h)) as [p Hp] by (apply (ao_open _ Hok); rewrite Hs, elem_of_app; right; by left).
  unfold async_io_next. rewrite M_get, Hs, M_modify, Hp, M_lift.
  assert (∀ h', h' ∈ (async_handles s ++ [h]) ++ q ↔ h' ∈ async_handles s ++ scanning s) as Hel by (intros h'; by rewrite Hs, <- app_assoc).
  assert (NoDup ((async_handles s ++ [h]) ++ q)) as Hnd by (rewrite <- app_assoc; pose proof (ao_nodup _ Hok) as H; by rewrite Hs in H).
  destruct p.
  - rewrite M_modify. destruct (ao_cbs _ Hok h) as [cb Hcb]; [by eexists|]. rewrite Hcb, M_lift. eexists. split; [reflexivity|]. destruct Hok.
    assert (∀ h', is_Some (<[h := false]> (pending s) !! h') ↔ is_Some (pending s !! h')) as Hsome.
    { intros h'. rewrite lookup_insert_is_Some'. split; [intros [<-|?]; [by eexists|done]|by right]. }
    split; [|done]. split; simpl; try done.
    + intros h'. by rewrite Hsome, Hel.
    + intros h' Hh'. by apply ao_cbs0, Hsome.
    + intros h' Hh'. eapply ao_fd0. by apply Hsome.
    + intros t p Ht. apply Hsome. by eapply ao_senders0.
    + intros h' Hp'. apply lookup_insert_Some in Hp' as [[_ ?]|[Hne Hp']]; [done|]. destruct (ao_wake0 h' Hp') as [?|[Hin|?]]; [by auto| |by auto].
      rewrite Hs in Hin. right. left. by apply elem_of_cons in Hin as [->|?].
    + intros h' p' Hp'. rewrite owed_snoc. simpl. apply lookup_insert_Some in Hp' as [[<- <-]|[Hne Hp']]; [by rewrite decide_True|].
      rewrite decide_False by done. by apply ao_hist0.
    + apply takes_snoc; [done|]. intros ?? [= <- <-]. by apply ao_hist0.
  - eexists. split; [reflexivity|]. split; [|done]. destruct Hok. split; simpl; try done.
    + intros h'. by rewrite Hel.
    + intros h' Hp'. destruct (ao_wake0 h' Hp') as [?|[Hin|?]]; [by auto| |by auto]. rewrite Hs in Hin. right. left. apply elem_of_cons in Hin as [->|?]; [congruence|done].
Qed.

Lemma async_step_ok s a : async_ok s → enabled s a = true → ∃ s', async_step a s = Some (tt, s') ∧ async_ok s'.
Proof.
  intros Hok He. destruct a as [h cb start|h|t h|t| |]; cbn [enabled async_step] in *; rewrite ?andb_true_iff, ?bool_decide_eq_true, ?negb_true_iff, ?bool_decide_eq_false in He.
  - destruct (async_init_ok s h cb start Hok He) as (r & s' & Hr & Hok'). bstep Hr. by exists s'.
  - destruct He as [H1 H2]. by apply async_close_ok.
  - destruct He as [H1 H2]. eexists. split; [reflexivity|]. by apply begin_ok.
  - destruct He as [p Hp]. unfold send_next. rewrite M_get, Hp, M_lift. destruct p; [by apply send_load_ok|by apply send_swap_ok|].
    destruct (send_write_ok s t h Hok Hp) as (s' & Hr & Hok' & _). by exists s'.
  - destruct He as [H1 _]. destruct (async_poll_ok s Hok H1) as (s' & Hr & Hok' & _). by exists s'.
  - destruct (scanning s) as [|h q] eqn:Es; [done|]. destruct (async_scan_ok s h q Hok Es) as (s' & Hr & Hok' & _). by exists s'.
Qed.

Lemma async_run_ok acts : ∀ s, async_ok s → ∃ s', async_run acts s = Some (tt, s') ∧ async_ok s'.
Proof.
  induction acts as [|a acts IH]; intros s Hok; cbn [async_run]; [by exists s|]. rewrite M_get. destruct (enabled s a) eqn:He; [|rewrite M_left_id; by apply IH].
  destruct (async_step_ok s a Hok He) as (s1 & Hr & Hok1). bstep Hr. by apply IH.
Qed.

Lemma async_run_app l1 l2 s s1 : async_run l1 s = Some (tt, s1) → async_run (l1 ++ l2) s = async_run l2 s1.
Proof.
  revert s. induction l1 as [|a l1 IH]; intros s Hr; cbn [app async_run] in *; [by injection Hr as ->|]. rewrite M_get in *.
  unfold mbind, M_bind in Hr |- *. destruct ((if enabled s a then async_step a else mret tt) s) as [[[] s2]|]; [|done]. by apply IH.
Qed.

Lemma run_one a s s1 : enabled s a = true → async_step a s = Some (tt, s1) → async_run [a] s = Some (tt, s1).
Proof. intros He Hr. cbn [async_run]. rewrite M_get, He. by bstep Hr. Qed.

(** Steps that finish what is under way: threads go on with their calls, the loop runs. *)
Definition settling (a : aact) : bool := match a with ASend _ | APoll | AScan => true | _ => false end.

Lemma finish_write s t h : async_ok s → senders s !! t = Some (AtWrite h) →
  ∃ s', async_run [ASend t] s = Some (tt, s') ∧ async_ok s' ∧ senders s' = delete t (senders s).
Proof.
  intros Hok Ht. destruct (send_write_ok s t h Hok Ht) as (s' & Hr & Hok' & _ & Hs & _). exists s'. split; [|done]. apply run_one; [cbn [enabled]; by rewrite Ht|].
  cbn [async_step]. unfold send_next. by rewrite M_get, Ht, M_lift.
Qed.

(** Three steps at most end a call. *)
Lemma finish_sender s t p : async_ok s → senders s !! t = Some p →
  ∃ n s', async_run (replicate n (ASend t)) s = Some (tt, s') ∧ async_ok s' ∧ senders s' = delete t (senders s).
Proof.
  intros Hok Ht.
  assert (∀ s h, async_ok s → senders s !! t = Some (AtSwap h) → ∃ n s', async_run (replicate n (ASend t)) s = Some (tt, s') ∧ async_ok s' ∧ senders s' = delete t (senders s)) as Hswap.
  { clear. intros s h Hok Ht. destruct (send_swap_ok s t h Hok Ht) as (s1 & Hr & Hok1).
    assert (async_run [ASend t] s = Some (tt, s1)) as Hr1.
    { apply run_one; [cbn [enabled]; by rewrite Ht|]. cbn [async_step]. unfold send_next. by rewrite M_get, Ht, M_lift. }
    destruct (ao_senders _ Hok t _ Ht) as [p Hp]. simpl in Hp. unfold send_swap in Hr. rewrite M_get, Hp, M_lift, M_modify in Hr. destruct p.
    - injection Hr as <-. eexists 1%nat, _. by split_and!.
    - rewrite M_modify in Hr. injection Hr as <-. edestruct finish_write as (s2 & Hr2 & Hok2 & Hs2); [exact Hok1|simpl; apply lookup_insert_eq|].
      exists 2%nat, s2. change (replicate 2 (ASend t)) with ([ASend t] ++ [ASend t]). rewrite (async_run_app [ASend t] [ASend t] _ _ Hr1). split_and!; [done|done|]. rewrite Hs2. simpl. apply delete_insert_eq. }
  destruct p as [h|h|h]; [|by eapply Hswap|destruct (finish_write s t h Hok Ht) as (s' & Hr & ?); by exists 1%nat, s'].
  destruct (send_load_ok s t h Hok Ht) as (s1 & Hr & Hok1). assert (async_run [ASend t] s = Some (tt, s1)) as Hr1.
  { apply run_one; [cbn [enabled]; by rewrite Ht|]. cbn [async_step]. unfold send_next. by rewrite M_get, Ht, M_lift. }
  destruct (ao_senders _ Hok t _ Ht) as [p Hp]. simpl in Hp. unfold send_load in Hr. rewrite M_get, Hp, M_lift in Hr. destruct p.
  - injection Hr as <-. eexists 1%nat, _. by split_and!.
  - injection Hr as <-. edestruct Hswap as (n & s2 & Hr2 & Hok2 & Hs2); [exact Hok1|simpl; apply lookup_insert_eq|].
    exists (S n), s2. change (replicate (S n) (ASend t)) with ([ASend t] ++ replicate n (ASend t)). rewrite (async_run_app [ASend t] (replicate n (ASend t)) _ _ Hr1). split_and!; [done|done|]. rewrite Hs2. simpl. apply delete_insert_eq.
Qed.

Lemma finish_senders n : ∀ s, async_ok s → size (senders s) = n →
  ∃ acts s', forallb settling acts = true ∧ async_run acts s = Some (tt, s') ∧ async_ok s' ∧ senders s' = ∅.
Proof.
  induction n as [|n IH]; intros s Hok Hn; [exists [], s; split_and!; try done; by apply map_size_empty_inv|].
  destruct (map_choose (senders s)) as (t & p & Ht); [intros E; by rewrite E, map_size_empty in Hn|].
  destruct (finish_sender s t p Hok Ht) as (k & s1 & Hr & Hok1 & Hs1).
  destruct (IH s1 Hok1) as (acts & s2 & Ha & Hr2 & Hok2 & Hs2); [rewrite Hs1, map_size_delete_Some by (by eexists); lia|].
  exists (replicate k (ASend t) ++ acts), s2. split_and!; [|by rewrite (async_run_app _ _ _ _ Hr)|done|done].
  rewrite forallb_app, Ha, andb_true_r. clear. induction k; [done|]. done.
Qed.

Lemma finish_scan n : ∀ s, async_ok s → length (scanning s) = n →
  ∃ s', async_run (replicate n AScan) s = Some (tt, s') ∧ async_ok s' ∧ scanning s' = [] ∧ tokens s' = tokens s ∧ senders s' = senders s.
Proof.
  induction n as [|n IH]; intros s Hok Hn; [exists s; split_and!; try done; by apply nil_length_inv|].
  destruct (scanning s) as [|h q] eqn:Es; [done|]. destruct (async_scan_ok s h q Hok Es) as (s1 & Hr & Hok1 & Ht & Hq & Hs & _). simpl in Hn.
  destruct (IH s1 Hok1) as (s2 & Hr2 & Hok2 & Hq2 & Ht2 & Hs2); [rewrite Hq; lia|]. exists s2. change (replicate (S n) AScan) with ([AScan] ++ replicate n AScan).
  rewrite (async_run_app [AScan] (replicate n AScan) s s1); [split_and!; congruence|]. apply run_one; [cbn [enabled]; by rewrite Es|done].
Qed.

Lemma scans_settle n : forallb settling (replicate n AScan) = true.
Proof. induction n; [done|]. done. Qed.

Lemma asleep_taken s : async_ok s → asleep s → ∀ h, is_Some (pending s !! h) → owed h (x_hist s) = false.
Proof.
  intros Hok (Ht & Hs & Hw) h [p Hp]. rewrite (ao_hist _ Hok h p Hp). destruct p; [|done]. exfalso.
  destruct (ao_wake _ Hok h Hp) as [?|[Hin|[t Hx]]]; [lia|by rewrite Hs in Hin; apply not_elem_of_nil in Hin|by apply (Hw t h)].
Qed.

Lemma async_new_ok : async_ok async_new.
Proof.
  split; simpl; try done; try (by intros ? [? ?]); try lia.
  - intros h. rewrite elem_of_nil. split; [by intros [? ?]|done].
  - constructor.
  - intros [|? ?] ??? [=].
Qed.

(** ** Theorems *)

(** C21. No wake-up is lost.  Whatever threads send to whatever handles, interleaved at every
    access with each other and with the loop, the program is defined; the loop runs a callback
    only for a send it has not taken yet; and whenever the loop waits with nothing to read
    and no thread is about to write, every send to an open handle has been taken. *)
Theorem async_no_lost_wakeup acts :
  ∃ s, async_run acts async_new = Some (tt, s) ∧ takes_sent (x_hist s) ∧
    (asleep s → ∀ h, is_Some (pending s !! h) → owed h (x_hist s) = false).
Proof.
  destruct (async_run_ok acts async_new async_new_ok) as (s & Hr & Hok). exists s. split_and!; [done|by apply (ao_taken _ Hok)|by apply asleep_taken].
Qed.

(** Every state can settle: when the threads end their calls and the loop runs, it comes to rest
    with every send taken. *)
Theorem async_settles acts s :
  async_run acts async_new = Some (tt, s) →
  ∃ more s', forallb settling more = true ∧ async_run more s = Some (tt, s') ∧ asleep s' ∧ ∀ h, is_Some (pending s' !! h) → owed h (x_hist s') = false.
Proof.
  intros Hrun. destruct (async_run_ok acts async_new async_new_ok) as (s0 & Hr0 & Hok). assert (s0 = s) as -> by congruence.
  destruct (finish_senders _ s Hok eq_refl) as (l1 & s1 & Ha1 & Hr1 & Hok1 & Hs1).
  destruct (finish_scan _ s1 Hok1 eq_refl) as (s2 & Hr2 & Hok2 & Hq2 & _ & Hs2).
  assert (∃ l3 s3, forallb settling l3 = true ∧ async_run l3 s2 = Some (tt, s3) ∧ async_ok s3 ∧ asleep s3) as (l3 & s3 & Ha3 & Hr3 & Hok3 & Hz).
  { destruct (Z.ltb_spec 0 (tokens s2)) as [Ht|Ht].
    - destruct (async_poll_ok s2 Hok2 Hq2) as (s3 & Hr3 & Hok3 & Ht3 & _ & _ & Hs3 & _).
      destruct (finish_scan _ s3 Hok3 eq_refl) as (s4 & Hr4 & Hok4 & Hq4 & Ht4 & Hs4).
      exists ([APoll] ++ replicate (length (scanning s3)) AScan), s4. split_and!; [cbn; apply scans_settle| |done|].
      + rewrite (async_run_app [APoll] _ s2 s3); [done|]. apply run_one; [cbn [enabled]; rewrite Hq2, (proj2 (Z.ltb_lt _ _) Ht); done|done].
      + split_and!; [congruence|done|]. intros t h. rewrite Hs4, Hs3, Hs2, Hs1. by rewrite lookup_empty.
    - exists [], s2. split_and!; try done. pose proof (ao_tokens _ Hok2). split_and!; [lia|done|]. intros t h. rewrite Hs2, Hs1. by rewrite lookup_empty. }
  exists (l1 ++ replicate (length (scanning s1)) AScan ++ l3), s3. split_and!; [by rewrite !forallb_app, Ha1, scans_settle, Ha3| |done|by apply asleep_taken].
  rewrite (async_run_app _ _ _ _ Hr1). by rewrite (async_run_app _ _ _ _ Hr2).
Qed.

(** ** Samples *)

(** Two threads send to one handle; the second sees it pending. *)
Definition sample_sends : list aact :=
  [AInit 1 true 9; AInit 2 true 9; ABegin 1 1; ABegin 2 1; ASend 1; ASend 2; ASend 1; ASend 2; ABegin 2 1; ASend 2; ASend 1; APoll; AScan].

Lemma sample_sends_run :
  match async_run sample_sends async_new with
  | Some (_, s) => x_hist s = [Opened 1; Opened 2; Sent 1; Sent 1; Sent 1; Taken 1 true] ∧ tokens s = 0 ∧ scanning s = [2%nat]
  | None => False
  end.
Proof. vm_compute. done. Qed.

Lemma async_settles_witness :
  ∃ s more s', async_run sample_sends async_new = Some (tt, s) ∧ async_run more s = Some (tt, s') ∧ asleep s'.
Proof.
  destruct (async_run_ok sample_sends async_new async_new_ok) as (s & Hr & _).
  destruct (async_settles sample_sends s Hr) as (more & s' & _ & Hr' & Hz & _). exists s, more, s'. exact (conj Hr (conj Hr' Hz)).
Defined.
