(* ===== verification/UvPool.v ===== *)
(** The thread pool of libuv: deps/libuv src/threadpool.c.

    The threads of the pool take requests from a global queue, run them and hand them to the loop,
    which reports them.  Slow requests wait in a queue of their own that a message in the global queue
    stands for, and run in half of the threads at most.  A thread is cut where it takes or
    releases a mutex: what it does while it holds one is a step.  The thread of the loop submits,
    cancels and reports; its callbacks are further steps of it. *)
From stdpp Require Import base numbers list option gmap.
From Stdlib Require Import ZArith Lia.
From S2P Require Import Prelude.

Local Open Scope Z_scope.
Local Open Scope c_scope.

(** ** Data *)

Inductive uv__work_kind := UV__WORK_CPU | UV__WORK_FAST_IO | UV__WORK_SLOW_IO.
#[export] Instance uv__work_kind_eq : EqDecision uv__work_kind.
Proof. solve_decision. Defined.

Inductive uv_req_type :=
  | UV_REQ | UV_CONNECT | UV_WRITE | UV_SHUTDOWN | UV_UDP_SEND | UV_FS | UV_WORK | UV_GETADDRINFO | UV_GETNAMEINFO.

(** [w->work]: the function of the caller, [uv__cancelled] or NULL. *)
Inductive work_fn := WorkFn | WorkCancelled | WorkNull.
#[export] Instance work_fn_eq : EqDecision work_fn.
Proof. solve_decision. Defined.

(** [w->done]: that of [uv_queue_work] or that of another caller. *)
Inductive done_fn := DoneQueue | DoneOther.
#[export] Instance done_fn_eq : EqDecision done_fn.
Proof. solve_decision. Defined.

(** [w->wq]: points to itself, into the queue it is in, or into one it was removed from. *)
Inductive wlink := LinkSelf | Linked | LinkStale.
#[export] Instance wlink_eq : EqDecision wlink.
Proof. solve_decision. Defined.

Record uv__work := { work : work_fn; done : done_fn; link : wlink }.

(** The entries of [wq]: a request, [run_slow_work_message], [exit_message]. *)
Inductive qent := QWork (w : nat) | QSlow | QExit.
#[export] Instance qent_eq : EqDecision qent.
Proof. solve_decision. Defined.

(** Where a thread of the pool is: at the start of a round, in [uv_cond_wait], signalled, about to
    call the function, after the call, about to lock again, ended. *)
Inductive wpc := PStart | PWaiting | PWoken | PExec (w : nat) (slow : bool) | PRan (w : nat) (slow : bool) | PBack (slow : bool) | PExited.
#[export] Instance wpc_eq : EqDecision wpc.
Proof. solve_decision. Defined.

(** What happens to requests. *)
Inductive wevent := Submitted (w : nat) | Executed (w : nat) | Cancelled (w : nat) | Reported (w : nat) (err : Z).
Definition event_req (e : wevent) : nat := match e with Submitted w | Executed w | Cancelled w | Reported w _ => w end.

(** [loop_wq], [wq_async]: of the loop, its queue and whether its handle was sent to and not taken
    yet; [done_wq]: the local queue of a running [uv__work_done]; [cancelling]: the request of an
    [uv__work_cancel] between its two halves; [exiting]: [cleanup] was called. *)
Record pool_t := {
  nthreads : Z;
  idle_threads : Z;
  slow_io_work_running : Z;
  wq : list qent;
  slow_io_pending_wq : list nat;
  workers : list wpc;
  reqs : gmap nat uv__work;
  loop_wq : list nat;
  wq_async : bool;
  done_wq : list nat;
  cancelling : option nat;
  active_reqs : Z;
  exiting : bool;
  x_hist : list wevent;
}.

Definition p_nth (x : Z) (s : pool_t) : pool_t :=
  {| nthreads := x; idle_threads := idle_threads s; slow_io_work_running := slow_io_work_running s; wq := wq s;
     slow_io_pending_wq := slow_io_pending_wq s; workers := workers s; reqs := reqs s; loop_wq := loop_wq s; wq_async
     := wq_async s; done_wq := done_wq s; cancelling := cancelling s; active_reqs := active_reqs s; exiting := exiting
     s; x_hist := x_hist s |}.
Definition p_idle (x : Z) (s : pool_t) : pool_t :=
  {| nthreads := nthreads s; idle_threads := x; slow_io_work_running := slow_io_work_running s; wq := wq s;
     slow_io_pending_wq := slow_io_pending_wq s; workers := workers s; reqs := reqs s; loop_wq := loop_wq s; wq_async
     := wq_async s; done_wq := done_wq s; cancelling := cancelling s; active_reqs := active_reqs s; exiting := exiting
     s; x_hist := x_hist s |}.
Definition p_slow (x : Z) (s : pool_t) : pool_t :=
  {| nthreads := nthreads s; idle_threads := idle_threads s; slow_io_work_running := x; wq := wq s; slow_io_pending_wq
     := slow_io_pending_wq s; workers := workers s; reqs := reqs s; loop_wq := loop_wq s; wq_async := wq_async s;
     done_wq := done_wq s; cancelling := cancelling s; active_reqs := active_reqs s; exiting := exiting s; x_hist :=
     x_hist s |}.
Definition p_wq (x : list qent) (s : pool_t) : pool_t :=
  {| nthreads := nthreads s; idle_threads := idle_threads s; slow_io_work_running := slow_io_work_running s; wq := x;
     slow_io_pending_wq := slow_io_pending_wq s; workers := workers s; reqs := reqs s; loop_wq := loop_wq s; wq_async
     := wq_async s; done_wq := done_wq s; cancelling := cancelling s; active_reqs := active_reqs s; exiting := exiting
     s; x_hist := x_hist s |}.
Definition p_pending_wq (x : list nat) (s : pool_t) : pool_t :=
  {| nthreads := nthreads s; idle_threads := idle_threads s; slow_io_work_running := slow_io_work_running s; wq := wq
     s; slow_io_pending_wq := x; workers := workers s; reqs := reqs s; loop_wq := loop_wq s; wq_async := wq_async s;
     done_wq := done_wq s; cancelling := cancelling s; active_reqs := active_reqs s; exiting := exiting s; x_hist :=
     x_hist s |}.
Definition p_workers (x : list wpc) (s : pool_t) : pool_t :=
  {| nthreads := nthreads s; idle_threads := idle_threads s; slow_io_work_running := slow_io_work_running s; wq := wq
     s; slow_io_pending_wq := slow_io_pending_wq s; workers := x; reqs := reqs s; loop_wq := loop_wq s; wq_async :=
     wq_async s; done_wq := done_wq s; cancelling := cancelling s; active_reqs := active_reqs s; exiting := exiting s;
     x_hist := x_hist s |}.
Definition p_reqs (x : gmap nat uv__work) (s : pool_t) : pool_t :=
  {| nthreads := nthreads s; idle_threads := idle_threads s; slow_io_work_running := slow_io_work_running s; wq := wq
     s; slow_io_pending_wq := slow_io_pending_wq s; workers := workers s; reqs := x; loop_wq := loop_wq s; wq_async :=
     wq_async s; done_wq := done_wq s; cancelling := cancelling s; active_reqs := active_reqs s; exiting := exiting s;
     x_hist := x_hist s |}.
Definition p_loop_wq (x : list nat) (s : pool_t) : pool_t :=
  {| nthreads := nthreads s; idle_threads := idle_threads s; slow_io_work_running := slow_io_work_running s; wq := wq
     s; slow_io_pending_wq := slow_io_pending_wq s; workers := workers s; reqs := reqs s; loop_wq := x; wq_async :=
     wq_async s; done_wq := done_wq s; cancelling := cancelling s; active_reqs := active_reqs s; exiting := exiting s;
     x_hist := x_hist s |}.
Definition p_async (x : bool) (s : pool_t) : pool_t :=
  {| nthreads := nthreads s; idle_threads := idle_threads s; slow_io_work_running := slow_io_work_running s; wq := wq
     s; slow_io_pending_wq := slow_io_pending_wq s; workers := workers s; reqs := reqs s; loop_wq := loop_wq s;
     wq_async := x; done_wq := done_wq s; cancelling := cancelling s; active_reqs := active_reqs s; exiting := exiting
     s; x_hist := x_hist s |}.
Definition p_done_wq (x : list nat) (s : pool_t) : pool_t :=
  {| nthreads := nthreads s; idle_threads := idle_threads s; slow_io_work_running := slow_io_work_running s; wq := wq
     s; slow_io_pending_wq := slow_io_pending_wq s; workers := workers s; reqs := reqs s; loop_wq := loop_wq s;
     wq_async := wq_async s; done_wq := x; cancelling := cancelling s; active_reqs := active_reqs s; exiting :=
     exiting s; x_hist := x_hist s |}.
Definition p_cancelling (x : option nat) (s : pool_t) : pool_t :=
  {| nthreads := nthreads s; idle_threads := idle_threads s; slow_io_work_running := slow_io_work_running s; wq := wq
     s; slow_io_pending_wq := slow_io_pending_wq s; workers := workers s; reqs := reqs s; loop_wq := loop_wq s;
     wq_async := wq_async s; done_wq := done_wq s; cancelling := x; active_reqs := active_reqs s; exiting := exiting
     s; x_hist := x_hist s |}.
Definition p_active (x : Z) (s : pool_t) : pool_t :=
  {| nthreads := nthreads s; idle_threads := idle_threads s; slow_io_work_running := slow_io_work_running s; wq := wq
     s; slow_io_pending_wq := slow_io_pending_wq s; workers := workers s; reqs := reqs s; loop_wq := loop_wq s;
     wq_async := wq_async s; done_wq := done_wq s; cancelling := cancelling s; active_reqs := x; exiting := exiting s;
     x_hist := x_hist s |}.
Definition p_exiting (x : bool) (s : pool_t) : pool_t :=
  {| nthreads := nthreads s; idle_threads := idle_threads s; slow_io_work_running := slow_io_work_running s; wq := wq
     s; slow_io_pending_wq := slow_io_pending_wq s; workers := workers s; reqs := reqs s; loop_wq := loop_wq s;
     wq_async := wq_async s; done_wq := done_wq s; cancelling := cancelling s; active_reqs := active_reqs s; exiting
     := x; x_hist := x_hist s |}.
Definition p_hist (x : list wevent) (s : pool_t) : pool_t :=
  {| nthreads := nthreads s; idle_threads := idle_threads s; slow_io_work_running := slow_io_work_running s; wq := wq
     s; slow_io_pending_wq := slow_io_pending_wq s; workers := workers s; reqs := reqs s; loop_wq := loop_wq s;
     wq_async := wq_async s; done_wq := done_wq s; cancelling := cancelling s; active_reqs := active_reqs s; exiting
     := exiting s; x_hist := x |}.

Definition p_worker (t : nat) (pc : wpc) (s : pool_t) : pool_t := p_workers (<[t := pc]> (workers s)) s.
Definition p_req (w : nat) (r : uv__work) (s : pool_t) : pool_t := p_reqs (<[w := r]> (reqs s)) s.
Definition p_event (e : wevent) (s : pool_t) : pool_t := p_hist (x_hist s ++ [e]) s.

Definition set_link (l : wlink) (r : uv__work) : uv__work := {| work := work r; done := done r; link := l |}.
Definition set_work (f : work_fn) (r : uv__work) : uv__work := {| work := f; done := done r; link := link r |}.

Definition UV_EBUSY : Z := -16.
Definition UV_EINVAL : Z := -22.
Definition UV_ECANCELED : Z := -125.
Definition MAX_THREADPOOL_SIZE : Z := 128.
Definition DEFAULT_THREADS : Z := 4.

(** ** The threads of the pool *)

Definition slow_work_thread_threshold (s : pool_t) : Z := u32 (nthreads s + 1) / 2.

(** [uv_cond_signal] wakes one thread that waits, if there is one: [pick] when it waits. *)
Definition to_wake (pick : nat) (ws : list wpc) : option nat :=
  if decide (ws !! pick = Some PWaiting) then Some pick else fst <$> list_find (.= PWaiting) ws.
Definition cond_signal (pick : nat) : M pool_t unit :=
  modify (λ s, match to_wake pick (workers s) with Some t => p_worker t PWoken s | None => s end).

(** [QUEUE_INIT] of a request. *)
Definition queue_init (w : nat) : M pool_t unit :=
  s ← get;
  r ← lift (reqs s !! w);
  modify (p_req w (set_link LinkSelf r)).

(** The condition of the inner loop of [worker]. *)
Definition must_wait (s : pool_t) : bool :=
  match wq s with
  | [] => true
  | [QSlow] => slow_work_thread_threshold s <=? slow_io_work_running s
  | _ => false
  end.

(** [worker] with the mutex locked, from the start of a round to where it unlocks it. *)
Fixpoint worker_loop (fuel : nat) (t pick : nat) : M pool_t unit :=
  match fuel with
  | O => undef
  | S fuel =>
      s ← get;
      if must_wait s then
        modify (p_idle (u32 (idle_threads s + 1)));;
        modify (p_worker t PWaiting)
      else
        match wq s with
        | [] => undef
        | QExit :: _ => cond_signal pick;; modify (p_worker t PExited)
        | QWork w :: q =>
            modify (p_wq q);;
            queue_init w;;
            modify (p_worker t (PExec w false))
        | QSlow :: q =>
            modify (p_wq q);;
            if slow_work_thread_threshold s <=? slow_io_work_running s then
              modify (p_wq (q ++ [QSlow]));;
              worker_loop fuel t pick
            else
              match slow_io_pending_wq s with
              | [] => worker_loop fuel t pick
              | w :: p =>
                  modify (p_slow (u32 (slow_io_work_running s + 1)));;
                  modify (p_pending_wq p);;
                  queue_init w;;
                  (match p with
                   | [] => mret tt
                   | _ =>
                       modify (p_wq (q ++ [QSlow]));;
                       if 0 <? idle_threads s then cond_signal pick else mret tt
                   end);;
                  modify (p_worker t (PExec w true))
              end
        end
  end.

(** The step of thread [t].  [continue] is taken once at most. *)
Definition WORKER_FUEL : nat := 2.
Definition worker_step (t pick : nat) : M pool_t unit :=
  s ← get;
  pc ← lift (workers s !! t);
  match pc with
  | PStart => worker_loop WORKER_FUEL t pick
  | PWoken => modify (p_idle (u32 (idle_threads s - 1)));; modify (p_worker t PStart);; worker_loop WORKER_FUEL t pick
  | PExec w slow =>
      r ← lift (reqs s !! w);
      TN_ASSERT (bool_decide (work r = WorkFn));;
      modify (p_event (Executed w));;
      modify (p_worker t (PRan w slow))
  | PRan w slow =>
      r ← lift (reqs s !! w);
      modify (p_req w (set_link Linked (set_work WorkNull r)));;
      modify (p_loop_wq (loop_wq s ++ [w]));;
      modify (p_async true);;
      modify (p_worker t (PBack slow))
  | PBack slow =>
      (if slow : bool then modify (p_slow (u32 (slow_io_work_running s - 1))) else mret tt);;
      modify (p_worker t PStart);;
      worker_loop WORKER_FUEL t pick
  | PWaiting | PExited => mret tt
  end.

Definition post (q : qent) (kind : uv__work_kind) (pick : nat) : M pool_t unit :=
  (match q with
   | QWork w => s ← get; r ← lift (reqs s !! w); modify (p_req w (set_link Linked r))
   | _ => mret tt
   end);;
  s ← get;
  if decide (kind = UV__WORK_SLOW_IO) then
    match q with
    | QWork w =>
        modify (p_pending_wq (slow_io_pending_wq s ++ [w]));;
        if bool_decide (QSlow ∈ wq s) then mret tt
        else
          modify (p_wq (wq s ++ [QSlow]));;
          if 0 <? idle_threads s then cond_signal pick else mret tt
    | _ => undef
    end
  else
    modify (p_wq (wq s ++ [q]));;
    if 0 <? idle_threads s then cond_signal pick else mret tt.

(** ** The thread of the loop *)

(** [val]: what [atoi] makes of the environment variable, if it is set; [mem]: whether there is
    memory for the array. *)
Definition pool_size (val : option Z) (mem : bool) : Z :=
  let n := match val with Some v => u32 v | None => DEFAULT_THREADS end in
  let n := if n =? 0 then 1 else n in
  let n := if MAX_THREADPOOL_SIZE <? n then MAX_THREADPOOL_SIZE else n in
  if (DEFAULT_THREADS <? n) && negb mem then DEFAULT_THREADS else n.

Definition init_threads (val : option Z) (mem : bool) : pool_t :=
  {| nthreads := pool_size val mem; idle_threads := 0; slow_io_work_running := 0; wq := []; slow_io_pending_wq := [];
     workers := replicate (Z.to_nat (pool_size val mem)) PStart; reqs := ∅; loop_wq := []; wq_async := false; done_wq := [];
     cancelling := None; active_reqs := 0; exiting := false; x_hist := [] |}.

Definition uv__work_submit (w : nat) (kind : uv__work_kind) (d : done_fn) (pick : nat) : M pool_t unit :=
  modify (p_event (Submitted w));;
  modify (p_req w {| work := WorkFn; done := d; link := LinkStale |});;
  post (QWork w) kind pick.

Definition uv_queue_work (w : nat) (work_cb : bool) (pick : nat) : M pool_t Z :=
  if negb work_cb then mret UV_EINVAL
  else
    modify (λ s, p_active (active_reqs s + 1) s);;
    uv__work_submit w UV__WORK_CPU DoneQueue pick;;
    mret 0.

(** [QUEUE_REMOVE] of a request, whose links must be those of the queue it is in. *)
Definition queue_remove (w : nat) : M pool_t unit :=
  s ← get;
  r ← lift (reqs s !! w);
  TN_ASSERT (bool_decide (link r = Linked));;
  modify (λ s, p_wq (filter (.≠ QWork w) (wq s)) s);;
  modify (λ s, p_pending_wq (filter (.≠ w) (slow_io_pending_wq s)) s);;
  modify (λ s, p_loop_wq (filter (.≠ w) (loop_wq s)) s);;
  modify (λ s, p_done_wq (filter (.≠ w) (done_wq s)) s);;
  modify (p_req w (set_link LinkStale r)).

(** [uv__work_cancel] while it holds both mutexes, and what is left of it when it goes on. *)
Definition work_cancel_begin (w : nat) : M pool_t Z :=
  s ← get;
  r ← lift (reqs s !! w);
  let cancelled := negb (bool_decide (link r = LinkSelf)) && negb (bool_decide (work r = WorkNull)) in
  if cancelled then
    queue_remove w;;
    modify (p_event (Cancelled w));;
    modify (p_cancelling (Some w));;
    mret 0
  else mret UV_EBUSY.

Definition work_cancel_end : M pool_t unit :=
  s ← get;
  w ← lift (cancelling s);
  r ← lift (reqs s !! w);
  modify (p_req w (set_link Linked (set_work WorkCancelled r)));;
  modify (p_loop_wq (loop_wq s ++ [w]));;
  modify (p_async true);;
  modify (p_cancelling None).

Definition uv_cancel (type : uv_req_type) (w : nat) : M pool_t Z :=
  match type with
  | UV_FS | UV_GETADDRINFO | UV_GETNAMEINFO | UV_WORK => work_cancel_begin w
  | _ => mret UV_EINVAL
  end.

(** [uv__work_done]: the queue is moved; then requests are reported one after the other. *)
Definition work_done_begin : M pool_t unit :=
  s ← get;
  modify (p_async false);;
  modify (p_done_wq (loop_wq s));;
  modify (p_loop_wq []).

Definition uv__queue_done : M pool_t unit := modify (λ s, p_active (active_reqs s - 1) s).

Definition work_done_next : M pool_t unit :=
  s ← get;
  match done_wq s with
  | [] => mret tt
  | w :: q =>
      r ← lift (reqs s !! w);
      modify (p_done_wq q);;
      modify (p_req w (set_link LinkStale r));;
      modify (p_event (Reported w (if decide (work r = WorkCancelled) then UV_ECANCELED else 0)));;
      if decide (done r = DoneQueue) then uv__queue_done else mret tt
  end.

(** [cleanup]: the message is posted; when every thread was joined the pool is gone. *)
Definition cleanup_begin (pick : nat) : M pool_t unit :=
  s ← get;
  if nthreads s =? 0 then mret tt
  else
    modify (p_exiting true);;
    post QExit UV__WORK_CPU pick.

Definition cleanup_end : M pool_t unit :=
  modify (p_workers []);;
  modify (p_nth 0).

(** ** Interleavings *)

(** [IWorker], [IDoneBegin], [IDoneNext], [ICancelEnd] are what the pool and the loop do by
    themselves; a thread that waits can also wake for no reason. *)
Inductive pact :=
  | ASubmit (w : nat) (kind : uv__work_kind) (pick : nat)
  | AQueueWork (w : nat) (work_cb : bool) (pick : nat)
  | ACancel (type : uv_req_type) (w : nat)
  | ACleanup (pick : nat)
  | ACleanupEnd
  | ASpurious (t : nat)
  | IWorker (t pick : nat)
  | IDoneBegin
  | IDoneNext
  | ICancelEnd.

Definition internal (a : pact) : bool :=
  match a with IWorker _ _ | IDoneBegin | IDoneNext | ICancelEnd => true | _ => false end.

(** The request is not in use. *)
Definition is_free (s : pool_t) (w : nat) : bool :=
  match reqs s !! w with Some r => bool_decide (link r = LinkStale) | None => true end.

(** The thread of the loop is in one call at a time, and in [cleanup] from its call on.  A
    request is submitted when it is not in use, and cancelled after it was submitted but not once
    it was reported as cancelled. *)
Definition loop_free (s : pool_t) : bool := bool_decide (cancelling s = None) && negb (exiting s).
Definition runnable_pc (pc : wpc) : bool := match pc with PWaiting | PExited => false | _ => true end.
Definition enabled (s : pool_t) (a : pact) : bool :=
  match a with
  | ASubmit w _ _ | AQueueWork w _ _ => loop_free s && is_free s w
  | ACancel _ w =>
      loop_free s &&
      match reqs s !! w with
      | Some r => negb (bool_decide (link r = LinkStale) && bool_decide (work r = WorkCancelled))
      | None => false
      end
  | ACleanup _ => loop_free s
  | ACleanupEnd => exiting s && forallb (λ pc, bool_decide (pc = PExited)) (workers s)
  | ASpurious t => bool_decide (workers s !! t = Some PWaiting)
  | IWorker t _ => match workers s !! t with Some pc => runnable_pc pc | None => false end
  | IDoneBegin => loop_free s && wq_async s && bool_decide (done_wq s = [])
  | IDoneNext => loop_free s && negb (bool_decide (done_wq s = []))
  | ICancelEnd => bool_decide (is_Some (cancelling s))
  end.

Definition pool_step (a : pact) : M pool_t unit :=
  match a with
  | ASubmit w kind pick => uv__work_submit w kind DoneOther pick
  | AQueueWork w cb pick => uv_queue_work w cb pick;; mret tt
  | ACancel type w => uv_cancel type w;; mret tt
  | ACleanup pick => cleanup_begin pick
  | ACleanupEnd => cleanup_end
  | ASpurious t => modify (p_worker t PWoken)
  | IWorker t pick => worker_step t pick
  | IDoneBegin => work_done_begin
  | IDoneNext => work_done_next
  | ICancelEnd => work_cancel_end
  end.

Fixpoint pool_run (acts : list pact) : M pool_t unit :=
  match acts with
  | [] => mret tt
  | a :: acts => s ← get; (if enabled s a then pool_step a else mret tt);; pool_run acts
  end.

(** ** Specification *)

(** What a program can see of a request. *)
Inductive rstatus := SFree | SQueued | SRan | SCancelled.
Definition next_status (st : rstatus) (e : wevent) : option rstatus :=
  match st, e with
  | SFree, Submitted _ => Some SQueued
  | SQueued, Executed _ => Some SRan
  | SQueued, Cancelled _ | SCancelled, Cancelled _ => Some SCancelled
  | SRan, Reported _ err => if decide (err = 0) then Some SFree else None
  | SCancelled, Reported _ err => if decide (err = UV_ECANCELED) then Some SFree else None
  | _, _ => None
  end.
Definition req_next (w : nat) (st : option rstatus) (e : wevent) : option rstatus :=
  if decide (event_req e = w) then st ≫= λ st, next_status st e else st.
Definition status (w : nat) (hist : list wevent) : option rstatus := foldl (req_next w) (Some SFree) hist.

Definition pc_slow (pc : wpc) : bool := match pc with PExec _ b | PRan _ b | PBack b => b | _ => false end.
Definition slow_threads (s : pool_t) : nat := length (filter (λ pc, pc_slow pc = true) (workers s)).

(** A sequence of steps of the pool itself, each possible when it comes. *)
Fixpoint pool_internal (acts : list pact) (s : pool_t) : option pool_t :=
  match acts with
  | [] => Some s
  | a :: acts =>
      if internal a && enabled s a then
        match pool_step a s with Some (_, s') => pool_internal acts s' | None => None end
      else None
  end.

(** Nothing is left to do but what the program asks for. *)
Definition at_rest (s : pool_t) : Prop := ∀ a, internal a = true → enabled s a = false.
