(* ===== verification/UvPoolRun.v ===== *)
(** Runs of the thread pool: the invariant of UvPool and what it gives. *)
From stdpp Require Import base numbers list option gmap.
From Stdlib Require Import ZArith Lia.
From S2P Require Import Prelude UvPool.

Local Open Scope Z_scope.
Local Open Scope c_scope.

(** ** Where the requests are *)

Inductive ptag := TQueued | TExec | TRan | TCancelling | TDone.

Definition qwork (e : qent) : option nat := match e with QWork w => Some w | _ => None end.
Definition pc_tag (pc : wpc) : option (nat * ptag) :=
  match pc with PExec w _ => Some (w, TExec) | PRan w _ => Some (w, TRan) | _ => None end.

(** The requests in use and where each is. *)
Definition tagged (s : pool_t) : list (nat * ptag) :=
  ((., TQueued) <$> omap qwork (wq s) ++ slow_io_pending_wq s) ++ omap pc_tag (workers s) ++
  option_list ((., TCancelling) <$> cancelling s) ++ ((., TDone) <$> loop_wq s ++ done_wq s).

Definition tag_ok (tg : ptag) (r : uv__work) (st : option rstatus) : Prop :=
  match tg with
  | TQueued => work r = WorkFn ∧ link r = Linked ∧ st = Some SQueued
  | TExec => work r = WorkFn ∧ link r = LinkSelf ∧ st = Some SQueued
  | TRan => work r = WorkFn ∧ link r = LinkSelf ∧ st = Some SRan
  | TCancelling => link r = LinkStale ∧ st = Some SCancelled
  | TDone => link r = Linked ∧ (work r = WorkNull ∧ st = Some SRan ∨ work r = WorkCancelled ∧ st = Some SCancelled)
  end.

Definition counts_req (m : gmap nat uv__work) (p : nat * ptag) : Prop := done <$> m !! p.1 = Some DoneQueue.
#[local] Instance counts_req_dec m p : Decision (counts_req m p).
Proof. unfold counts_req. apply _. Defined.
Definition active (m : gmap nat uv__work) (l : list (nat * ptag)) : nat := length (filter (counts_req m) l).

(** Each request in use is in one place, and its members and history fit it. *)
Record placed (l : list (nat * ptag)) (m : gmap nat uv__work) (h : list wevent) (n : Z) : Prop := {
  pl_nodup : NoDup l.*1;
  pl_tag : ∀ w tg, (w, tg) ∈ l → ∃ r, m !! w = Some r ∧ tag_ok tg r (status w h);
  pl_free : ∀ w, w ∉ l.*1 → status w h = Some SFree ∧ ∀ r, m !! w = Some r → link r = LinkStale ∧ work r ≠ WorkFn;
  pl_active : n = Z.of_nat (active m l);
}.

Lemma status_app w h h' : status w (h ++ h') = foldl (req_next w) (status w h) h'.
Proof. unfold status. by rewrite foldl_app. Qed.

Lemma status_other w h evs : (∀ e, e ∈ evs → event_req e ≠ w) → status w (h ++ evs) = status w h.
Proof.
  rewrite status_app. generalize (status w h). induction evs as [|e evs IH]; intros st He; simpl; [done|].
  rewrite IH by (intros e' He'; apply He; by right). unfold req_next. by rewrite decide_False by (apply He; by left).
Qed.

#[local] Instance placed_perm : Proper (Permutation ==> eq ==> eq ==> eq ==> impl) placed.
Proof.
  intros l l' Hp m ? <- h ? <- n ? <- []. split.
  - by rewrite <- Hp.
  - intros w tg Hin. rewrite <- Hp in Hin. by apply pl_tag0.
  - intros w Hin. rewrite <- Hp in Hin. by apply pl_free0.
  - unfold active in *. by rewrite <- Hp.
Qed.

Lemma active_other m l w r : w ∉ l.*1 → active (<[w := r]> m) l = active m l.
Proof.
  unfold active. induction l as [|[w' tg] l IH]; intros Hw; [done|]. cbn in Hw. apply not_elem_of_cons in Hw as [Hne Hw].
  assert (counts_req (<[w := r]> m) (w', tg) ↔ counts_req m (w', tg)) as E by (unfold counts_req; simpl; by rewrite lookup_insert_ne).
  rewrite !filter_cons. specialize (IH Hw). destruct (decide (counts_req m (w', tg))) as [H|H].
  - rewrite decide_True by (by apply E). cbn. by rewrite IH.
  - rewrite decide_False by (by rewrite E). done.
Qed.

Lemma active_cons m w tg r l : m !! w = Some r → active m ((w, tg) :: l) = ((if decide (done r = DoneQueue) then 1 else 0) + active m l)%nat.
Proof.
  intros Hm. unfold active. rewrite filter_cons.
  assert (counts_req m (w, tg) ↔ done r = DoneQueue) as E by (unfold counts_req; simpl; rewrite Hm; simpl; split; congruence).
  destruct (decide (done r = DoneQueue)) as [H|H]; [rewrite decide_True by (by apply E)|rewrite decide_False by (by rewrite E)]; done.
Qed.

Lemma placed_at w tg l m h n : placed ((w, tg) :: l) m h n → ∃ r, m !! w = Some r ∧ tag_ok tg r (status w h).
Proof. intros []. apply pl_tag0. by left. Qed.

(** A request changes its place, comes into use, or leaves. *)
Lemma placed_move w tg tg' l m h n r r' evs :
  placed ((w, tg) :: l) m h n → m !! w = Some r → done r' = done r → (∀ e, e ∈ evs → event_req e = w) →
  tag_ok tg' r' (status w (h ++ evs)) → placed ((w, tg') :: l) (<[w := r']> m) (h ++ evs) n.
Proof.
  intros [Hnd Htag Hfree Hact] Hm Hd Hevs Hok. cbn in Hnd. apply NoDup_cons in Hnd as [Hw Hnd].
  assert (∀ w', w' ≠ w → status w' (h ++ evs) = status w' h) as Hst.
  { intros w' Hne. apply status_other. intros e He. rewrite (Hevs e He). done. }
  split.
  - cbn. by constructor.
  - intros w' tg'' Hin. apply elem_of_cons in Hin as [[= -> ->]|Hin].
    + exists r'. by rewrite lookup_insert_eq.
    + assert (w' ≠ w) as Hne by (intros ->; apply Hw, list_elem_of_fmap; by exists (w, tg'')).
      rewrite lookup_insert_ne, Hst by done. apply Htag. by right.
  - intros w' Hin. cbn in Hin. assert (w' ≠ w) as Hne by (intros ->; apply Hin; by left). rewrite lookup_insert_ne, Hst by done. by apply Hfree.
  - rewrite (active_cons _ _ _ r') by apply lookup_insert_eq. rewrite active_other by done. rewrite Hact, (active_cons _ _ _ r) by done. by rewrite Hd.
Qed.

Lemma placed_add w tg l m h n r evs :
  placed l m h n → w ∉ l.*1 → (∀ e, e ∈ evs → event_req e = w) → tag_ok tg r (status w (h ++ evs)) →
  placed ((w, tg) :: l) (<[w := r]> m) (h ++ evs) (n + if decide (done r = DoneQueue) then 1 else 0).
Proof.
  intros [Hnd Htag Hfree Hact] Hw Hevs Hok.
  assert (∀ w', w' ≠ w → status w' (h ++ evs) = status w' h) as Hst.
  { intros w' Hne. apply status_other. intros e He. rewrite (Hevs e He). done. }
  split.
  - cbn. by constructor.
  - intros w' tg'' Hin. apply elem_of_cons in Hin as [[= -> ->]|Hin].
    + exists r. by rewrite lookup_insert_eq.
    + assert (w' ≠ w) as Hne by (intros ->; apply Hw, list_elem_of_fmap; by exists (w, tg'')).
      rewrite lookup_insert_ne, Hst by done. by apply Htag.
  - intros w' Hin. cbn in Hin. assert (w' ≠ w) as Hne by (intros ->; apply Hin; by left).
    rewrite lookup_insert_ne, Hst by done. apply Hfree. intros ?. apply Hin. by right.
  - rewrite (active_cons _ _ _ r) by apply lookup_insert_eq. rewrite active_other by done. case_decide; lia.
Qed.

Lemma placed_remove w tg l m h n r r' evs :
  placed ((w, tg) :: l) m h n → m !! w = Some r → done r' = done r → (∀ e, e ∈ evs → event_req e = w) →
  link r' = LinkStale → work r' ≠ WorkFn → status w (h ++ evs) = Some SFree →
  placed l (<[w := r']> m) (h ++ evs) (n - if decide (done r = DoneQueue) then 1 else 0).
Proof.
  intros [Hnd Htag Hfree Hact] Hm Hd Hevs Hl Hwk Hs. cbn in Hnd. apply NoDup_cons in Hnd as [Hw Hnd].
  assert (∀ w', w' ≠ w → status w' (h ++ evs) = status w' h) as Hst.
  { intros w' Hne. apply status_other. intros e He. rewrite (Hevs e He). done. }
  split.
  - done.
  - intros w' tg'' Hin. assert (w' ≠ w) as Hne by (intros ->; apply Hw, list_elem_of_fmap; by exists (w, tg'')).
    rewrite lookup_insert_ne, Hst by done. apply Htag. by right.
  - intros w' Hin. destruct (decide (w' = w)) as [->|Hne].
    + split; [done|]. intros r''. rewrite lookup_insert_eq. by intros [= <-].
    + rewrite lookup_insert_ne, Hst by done. apply Hfree. cbn. by intros [?|?]%elem_of_cons.
  - rewrite active_other by done. rewrite Hact, (active_cons _ _ _ r) by done. case_decide; lia.
Qed.

(** ** The threads *)

Definition pc_idle (pc : wpc) : bool := match pc with PWaiting | PWoken => true | _ => false end.
Definition n_of (f : wpc → bool) (ws : list wpc) : nat := length (filter (λ pc, f pc = true) ws).
Definition b2n (b : bool) : nat := if b then 1 else 0.

(** What a request and a thread still cost. *)
Definition tag_weight (tg : ptag) : nat := match tg with TQueued => 8 | TExec => 6 | TRan => 5 | TCancelling => 3 | TDone => 1 end.
Definition pc_weight (pc : wpc) : nat := match pc with PExited => 0 | PWaiting | PExec _ _ | PRan _ _ => 1 | PStart | PWoken | PBack _ => 2 end.
Definition tags_weight (l : list (nat * ptag)) : nat := sum_list (tag_weight <$> l.*2).
Definition pcs_weight (ws : list wpc) : nat := sum_list (pc_weight <$> ws).
Definition measure (s : pool_t) : nat := (tags_weight (tagged s) + pcs_weight (workers s) + b2n (wq_async s))%nat.

Record counted (ws : list wpc) (idle slow nth : Z) : Prop := {
  ct_idle : idle = Z.of_nat (n_of pc_idle ws);
  ct_slow : slow = Z.of_nat (n_of pc_slow ws);
  ct_length : nth = Z.of_nat (length ws);
  ct_max : nth ≤ MAX_THREADPOOL_SIZE;
}.

#[local] Instance sum_list_proper : Proper (Permutation ==> eq) sum_list.
Proof. induction 1; simpl; lia. Qed.
#[local] Instance n_of_proper f : Proper (Permutation ==> eq) (n_of f).
Proof. intros ws ws' Hp. unfold n_of. by rewrite Hp. Qed.
#[local] Instance tags_weight_proper : Proper (Permutation ==> eq) tags_weight.
Proof. intros l l' Hp. unfold tags_weight. by rewrite Hp. Qed.
#[local] Instance pcs_weight_proper : Proper (Permutation ==> eq) pcs_weight.
Proof. intros l l' Hp. unfold pcs_weight. by rewrite Hp. Qed.

Lemma n_of_cons f pc ws : n_of f (pc :: ws) = (b2n (f pc) + n_of f ws)%nat.
Proof. unfold n_of. rewrite filter_cons. by destruct (f pc). Qed.

Lemma n_of_le f ws : (n_of f ws ≤ length ws)%nat.
Proof. unfold n_of. apply length_filter. Qed.

Lemma counted_move ws t pc pc' idle slow nth :
  counted ws idle slow nth → ws !! t = Some pc →
  counted (<[t := pc']> ws) (idle - Z.of_nat (b2n (pc_idle pc)) + Z.of_nat (b2n (pc_idle pc'))) (slow - Z.of_nat (b2n (pc_slow pc)) + Z.of_nat (b2n (pc_slow pc'))) nth.
Proof.
  intros [] Hpc. destruct (insert_split _ _ _ Hpc) as (rest & E & E'). split; rewrite ?length_insert; try done.
  - rewrite (E' pc'), n_of_cons. rewrite E, n_of_cons in ct_idle0. lia.
  - rewrite (E' pc'), n_of_cons. rewrite E, n_of_cons in ct_slow0. lia.
Qed.

Lemma counted_range ws idle slow nth : counted ws idle slow nth → 0 ≤ idle ≤ 128 ∧ 0 ≤ slow ≤ 128 ∧ 0 ≤ nth ≤ 128 ∧ (∀ f, Z.of_nat (n_of f ws) ≤ nth).
Proof.
  intros []. pose proof (n_of_le pc_idle ws). pose proof (n_of_le pc_slow ws). unfold MAX_THREADPOOL_SIZE in *.
  split_and!; try lia. intros f. pose proof (n_of_le f ws). lia.
Qed.

Lemma threshold_eq s : 0 ≤ nthreads s ≤ 128 → slow_work_thread_threshold s = (nthreads s + 1) / 2.
Proof. intros H. unfold slow_work_thread_threshold. by rewrite u32_small by lia. Qed.

(** What [uv_cond_signal] does to the threads. *)
Inductive signalled (ws : list wpc) : list wpc → Prop :=
  | sig_one t : ws !! t = Some PWaiting → signalled ws (<[t := PWoken]> ws)
  | sig_none : PWaiting ∉ ws → signalled ws ws.

Lemma p_workers_id s : p_workers (workers s) s = s.
Proof. by destruct s. Qed.

Lemma cond_signal_run pick s : ∃ ws, cond_signal pick s = Some (tt, p_workers ws s) ∧ signalled (workers s) ws.
Proof.
  unfold cond_signal, modify, to_wake. destruct (decide (workers s !! pick = Some PWaiting)) as [E|E].
  - eexists. split; [reflexivity|]. by constructor.
  - destruct (list_find (.= PWaiting) (workers s)) as [[t pc]|] eqn:F; simpl.
    + apply list_find_Some in F as (Ht & -> & _). eexists. split; [reflexivity|]. by constructor.
    + apply list_find_None in F. exists (workers s). rewrite p_workers_id. split; [done|]. constructor 2.
      intros Hin. rewrite Forall_forall in F. by apply (F _ Hin).
Qed.

Lemma insert_tags ws t pc pc' : ws !! t = Some pc → pc_tag pc = pc_tag pc' → omap pc_tag (<[t := pc']> ws) ≡ₚ omap pc_tag ws.
Proof. intros Hpc E. destruct (insert_split _ _ _ Hpc) as (rest & E1 & E2). rewrite (E2 pc'), E1. simpl. by rewrite E. Qed.

Lemma signalled_spec ws ws' : signalled ws ws' →
  omap pc_tag ws' ≡ₚ omap pc_tag ws ∧ (∀ t pc, ws !! t = Some pc → pc ≠ PWaiting → ws' !! t = Some pc) ∧ (pcs_weight ws' ≤ S (pcs_weight ws))%nat ∧
  (PExited ∈ ws' → PExited ∈ ws) ∧ (∀ idle slow nth, counted ws idle slow nth → counted ws' idle slow nth) ∧ (PWaiting ∈ ws' → PWoken ∈ ws').
Proof.
  intros [t Ht|Hn]; [|split_and!; try done; lia]. destruct (insert_split _ _ _ Ht) as (rest & E1 & E2). split_and!.
  - by eapply insert_tags.
  - intros u pc Hu Hpc. rewrite list_lookup_insert_ne; [done|]. intros ->. congruence.
  - rewrite (E2 PWoken), E1. unfold pcs_weight. simpl. lia.
  - rewrite (E2 PWoken), E1. intros [?|?]%elem_of_cons; [done|]. by right.
  - intros idle slow nth Hc. pose proof (counted_move _ _ _ PWoken _ _ _ Hc Ht) as H. simpl in H. destruct H. split; lia.
  - intros _. rewrite (E2 PWoken). by left.
Qed.

(** ** The invariant *)

Definition wakes (s : pool_t) : Prop := PWaiting ∈ workers s → must_wait s = false → ∃ pc, pc ∈ workers s ∧ runnable_pc pc = true.

Record pool_ok (s : pool_t) : Prop := {
  ok_placed : placed (tagged s) (reqs s) (x_hist s) (active_reqs s);
  ok_counted : counted (workers s) (idle_threads s) (slow_io_work_running s) (nthreads s);
  ok_slow : slow_io_work_running s ≤ (nthreads s + 1) / 2;
  ok_size : exiting s = false → 1 ≤ nthreads s;
  ok_nodup : NoDup (wq s);
  ok_pending : slow_io_pending_wq s ≠ [] → QSlow ∈ wq s;
  ok_exit : QExit ∈ wq s ↔ exiting s = true;
  ok_exited : PExited ∈ workers s → exiting s = true;
  ok_wake : wakes s;
  ok_async : loop_wq s ≠ [] → wq_async s = true;
}.

Lemma elem_kept {A} (l : list A) t x y z : l !! t = Some x → z ≠ x → z ∈ l → z ∈ <[t := y]> l.
Proof. intros Hx Hz Hin. destruct (insert_split _ _ _ Hx) as (rest & E & E'). rewrite E' . rewrite E in Hin. apply elem_of_cons in Hin as [?|?]; [done|by right]. Qed.

Lemma elem_inserted {A} (l : list A) t x y z : l !! t = Some x → z ∈ <[t := y]> l → z = y ∨ z ∈ l.
Proof. intros Hx. destruct (insert_split _ _ _ Hx) as (rest & E & E'). rewrite E', E, !elem_of_cons. tauto. Qed.

Lemma elem_new {A} (l : list A) t x y : l !! t = Some x → y ∈ <[t := y]> l.
Proof. intros Hx. destruct (insert_split _ _ _ Hx) as (rest & E & E'). rewrite E'. by left. Qed.

Lemma insert_new_tag ws t pc pc' p : ws !! t = Some pc → pc_tag pc = None → pc_tag pc' = Some p → omap pc_tag (<[t := pc']> ws) ≡ₚ p :: omap pc_tag ws.
Proof. intros Hpc E E'. destruct (insert_split _ _ _ Hpc) as (rest & E1 & E2). rewrite (E2 pc'), E1. simpl. by rewrite E, E'. Qed.

Lemma insert_weight ws t pc pc' : ws !! t = Some pc → (pcs_weight (<[t := pc']> ws) + pc_weight pc = pcs_weight ws + pc_weight pc')%nat.
Proof. intros Hpc. destruct (insert_split _ _ _ Hpc) as (rest & E1 & E2). rewrite (E2 pc'), E1. unfold pcs_weight. simpl. lia. Qed.

Lemma tags_weight_cons p l : tags_weight (p :: l) = (tag_weight p.2 + tags_weight l)%nat.
Proof. done. Qed.

(** A thread that is not waiting keeps the others awake. *)
Lemma runnable_wakes s t pc : workers s !! t = Some pc → runnable_pc pc = true → wakes s.
Proof. intros Ht Hpc _ _. exists pc. split; [by eapply list_elem_of_lookup_2|done]. Qed.

(** A round of a thread: what is left is defined, keeps the invariant and costs less. *)
Definition round_ok (m : M pool_t unit) (s : pool_t) : Prop := ∃ s', m s = Some (tt, s') ∧ pool_ok s' ∧ (measure s' < measure s)%nat.

Section Rounds.
  Context (s : pool_t) (t pick : nat) (Hok : pool_ok s) (Ht : workers s !! t = Some PStart).

Lemma ranges : 0 ≤ idle_threads s ≤ 128 ∧ 0 ≤ slow_io_work_running s ≤ 128 ∧ 0 ≤ nthreads s ≤ 128.
Proof. destruct (counted_range _ _ _ _ (ok_counted _ Hok)) as (? & ? & ? & _). done. Qed.

Lemma wait_ok fuel : must_wait s = true → round_ok (worker_loop (S fuel) t pick) s.
Proof.
  intros Hw. pose proof ranges. eexists. split; [cbn [worker_loop]; rewrite M_get, Hw; reflexivity|].
  assert (tagged (p_worker t PWaiting (p_idle (u32 (idle_threads s + 1)) s)) ≡ₚ tagged s) as Etag.
  { unfold tagged. simpl. by rewrite (insert_tags _ _ _ PWaiting Ht). }
  pose proof (insert_weight _ _ _ PWaiting Ht) as Hwt. destruct Hok. split; [split; try done; simpl|].
  - by rewrite Etag.
  - rewrite u32_small by lia. pose proof (counted_move _ _ _ PWaiting _ _ _ ok_counted0 Ht) as []. simpl in *. split; simpl; lia.
  - intros Hin. apply (elem_inserted _ _ _ _ _ Ht) in Hin as [?|?]; [done|by apply ok_exited0].
  - intros _ Hf. change (must_wait s = false) in Hf. congruence.
  - unfold measure. rewrite Etag. simpl in *. lia.
Qed.

Lemma exit_ok fuel q : wq s = QExit :: q → round_ok (worker_loop (S fuel) t pick) s.
Proof.
  intros Hq. destruct (cond_signal_run pick s) as (ws & Hrun & Hsig). destruct (signalled_spec _ _ Hsig) as (Htags & Hkeep & Hwt & Hex & Hct & Hwk).
  assert (ws !! t = Some PStart) as Ht' by (by apply Hkeep).
  exists (p_worker t PExited (p_workers ws s)). split.
  { cbn [worker_loop]. rewrite M_get. unfold must_wait. rewrite Hq. bstep Hrun. done. }
  assert (tagged (p_worker t PExited (p_workers ws s)) ≡ₚ tagged s) as Etag.
  { unfold tagged. simpl. by rewrite (insert_tags _ _ _ PExited Ht'), Htags. }
  assert (exiting s = true) as Hexit by (apply (ok_exit _ Hok); rewrite Hq; by left).
  pose proof (insert_weight _ _ _ PExited Ht') as Hwt'. destruct Hok. split; [split; try done; simpl|].
  - by rewrite Etag.
  - pose proof (counted_move _ _ _ PExited _ _ _ (Hct _ _ _ ok_counted0) Ht') as []. simpl in *. split; simpl; lia.
  - intros Hin _. simpl in *. apply (elem_inserted _ _ _ _ _ Ht') in Hin as [?|Hin]; [done|]. exists PWoken. split; [|done]. eapply elem_kept; [done|done|]. by apply Hwk.
  - unfold measure. rewrite Etag. simpl in *. lia.
Qed.

Lemma take_ok fuel w q : wq s = QWork w :: q → round_ok (worker_loop (S fuel) t pick) s.
Proof.
  intros Hq. set (l := ((., TQueued) <$> omap qwork q ++ slow_io_pending_wq s) ++ omap pc_tag (workers s) ++
    option_list ((., TCancelling) <$> cancelling s) ++ ((., TDone) <$> loop_wq s ++ done_wq s)).
  assert (tagged s = (w, TQueued) :: l) as Etag by (unfold tagged; by rewrite Hq).
  pose proof (ok_placed _ Hok) as Hpl. rewrite Etag in Hpl. destruct (placed_at _ _ _ _ _ _ Hpl) as (r & Hr & Hwk & Hl & Hst).
  exists (p_worker t (PExec w false) (p_req w (set_link LinkSelf r) (p_wq q s))). split.
  { cbn [worker_loop]. rewrite M_get. unfold must_wait. rewrite Hq. repeat mnext. unfold queue_init. rewrite M_assoc, M_get. simpl. rewrite Hr. done. }
  assert (tagged (p_worker t (PExec w false) (p_req w (set_link LinkSelf r) (p_wq q s))) ≡ₚ (w, TExec) :: l) as Etag'.
  { unfold tagged. simpl. rewrite (insert_new_tag _ _ _ _ (w, TExec) Ht) by done. by rewrite <- app_comm_cons, <- Permutation_middle. }
  pose proof (insert_weight _ _ _ (PExec w false) Ht) as Hwt. destruct Hok. rewrite Hq in *. split; [split; try done; simpl|].
  - rewrite Etag', <- (app_nil_r (x_hist s)). eapply placed_move; [done..|by intros ? ?%elem_of_nil|]. by rewrite app_nil_r.
  - pose proof (counted_move _ _ _ (PExec w false) _ _ _ ok_counted0 Ht) as []. simpl in *. split; simpl; lia.
  - by apply NoDup_cons in ok_nodup0 as [_ ?].
  - intros Hp. apply ok_pending0 in Hp. by apply elem_of_cons in Hp as [?|?].
  - rewrite <- ok_exit0, elem_of_cons. split; [by intros; right|by intros [?|?]].
  - intros Hin. apply (elem_inserted _ _ _ _ _ Ht) in Hin as [?|?]; [done|by apply ok_exited0].
  - apply (runnable_wakes _ t (PExec w false)); [|done]. simpl. apply list_lookup_insert_eq. by eapply lookup_lt_Some.
  - unfold measure. rewrite Etag, Etag', !tags_weight_cons. simpl in *. lia.
Qed.

(** The message of slow work at the head of the queue. *)
Lemma take_slow_ok fuel q w p :
  wq s = QSlow :: q → slow_io_work_running s < slow_work_thread_threshold s → slow_io_pending_wq s = w :: p →
  round_ok (worker_loop (S fuel) t pick) s.
Proof.
  intros Hq Hthr Hp. pose proof ranges as (Hi & Hsl & Hn).
  set (l := ((., TQueued) <$> omap qwork q ++ p) ++ omap pc_tag (workers s) ++
    option_list ((., TCancelling) <$> cancelling s) ++ ((., TDone) <$> loop_wq s ++ done_wq s)).
  assert (tagged s ≡ₚ (w, TQueued) :: l) as Etag.
  { unfold tagged. rewrite Hq, Hp. simpl. unfold l. rewrite !fmap_app. simpl. by rewrite <- Permutation_middle. }
  pose proof (ok_placed _ Hok) as Hpl. rewrite Etag in Hpl. destruct (placed_at _ _ _ _ _ _ Hpl) as (r & Hr & Hwk & Hl & Hst).
  assert (∃ ws, worker_loop (S fuel) t pick s = Some (tt, p_worker t (PExec w true) (p_workers ws (p_wq (if decide (p = []) then q else q ++ [QSlow])
      (p_req w (set_link LinkSelf r) (p_pending_wq p (p_slow (u32 (slow_io_work_running s + 1)) s)))))) ∧
      (signalled (workers s) ws ∨ ws = workers s)) as (ws & Hrun & Hsig).
  { set (s1 := p_req w (set_link LinkSelf r) (p_pending_wq p (p_slow (u32 (slow_io_work_running s + 1)) (p_wq q s)))).
    destruct (cond_signal_run pick (p_wq (q ++ [QSlow]) s1)) as (ws & Hrun & Hsig).
    assert (must_wait s = false) as Hmw.
    { unfold must_wait. rewrite Hq. destruct q; [|done]. by apply Z.leb_gt. }
    exists (if decide (p = []) then workers s else if 0 <? idle_threads s then ws else workers s). split.
    - cbn [worker_loop]. rewrite M_get, Hmw, Hq. repeat mnext. rewrite (proj2 (Z.leb_gt _ _) Hthr), Hp. repeat mnext.
      unfold queue_init. rewrite M_assoc, M_get. simpl. rewrite Hr. rewrite M_assoc, M_lift, M_modify. fold s1. destruct p as [|w' p]; [done|].
      repeat mnext. rewrite M_assoc, M_modify. destruct (0 <? idle_threads s); [|done]. bstep Hrun. done.
    - case_decide; [by right|]. destruct (0 <? idle_threads s); [by left|by right]. }
  assert (omap pc_tag ws ≡ₚ omap pc_tag (workers s) ∧ ws !! t = Some PStart ∧ (pcs_weight ws ≤ S (pcs_weight (workers s)))%nat ∧ (PExited ∈ ws → PExited ∈ workers s) ∧
    counted ws (idle_threads s) (slow_io_work_running s) (nthreads s)) as (Htags & Ht' & Hwt & Hex & Hct).
  { destruct Hsig as [(? & Hkeep & ? & ? & Hct & _)%signalled_spec| ->]; [|by destruct Hok; split_and!; auto with lia].
    split_and!; [done|by apply Hkeep|done|done|]. apply Hct, Hok. }
  eexists. split; [exact Hrun|].
  match goal with |- pool_ok ?x ∧ _ => assert (tagged x ≡ₚ (w, TExec) :: l) as Etag' end.
  { unfold tagged. simpl. rewrite (insert_new_tag _ _ _ _ (w, TExec) Ht') by done. rewrite Htags, <- app_comm_cons, <- Permutation_middle. apply perm_skip.
    unfold l. case_decide; [done|]. by rewrite omap_app, app_nil_r. }
  pose proof (insert_weight _ _ _ (PExec w true) Ht') as Hwt'. rewrite threshold_eq in Hthr by lia. destruct Hok. rewrite Hq, Hp in *. split; [split; try done; simpl|].
  - rewrite Etag', <- (app_nil_r (x_hist s)). eapply placed_move; [done..|by intros ? ?%elem_of_nil|]. by rewrite app_nil_r.
  - rewrite u32_small by lia. pose proof (counted_move _ _ _ (PExec w true) _ _ _ Hct Ht') as []. simpl in *. split; simpl; lia.
  - rewrite u32_small by lia. lia.
  - apply NoDup_cons in ok_nodup0 as [? ?]. case_decide; [done|]. rewrite <- Permutation_cons_append. by constructor.
  - intros Hne. rewrite decide_False by done. apply elem_of_app. right. by left.
  - rewrite <- ok_exit0, elem_of_cons. case_decide; [|rewrite elem_of_app, list_elem_of_singleton]; split; intros; try tauto; naive_solver.
  - intros Hin. apply (elem_inserted _ _ _ _ _ Ht') in Hin as [?|?]; [done|by apply ok_exited0, Hex].
  - apply (runnable_wakes _ t (PExec w true)); [|done]. simpl. apply list_lookup_insert_eq. by eapply lookup_lt_Some.
  - unfold measure. rewrite Etag, Etag', !tags_weight_cons. simpl in *. lia.
Qed.

(** The message goes to the end of the queue, or leaves it when no slow work is left. *)
Lemma requeue_ok q : wq s = QSlow :: q → pool_ok (p_wq (q ++ [QSlow]) s) ∧ measure (p_wq (q ++ [QSlow]) s) = measure s.
Proof.
  intros Hq. assert (tagged (p_wq (q ++ [QSlow]) s) = tagged s) as Etag.
  { unfold tagged. simpl. rewrite Hq, omap_app. simpl. by rewrite app_nil_r. }
  split; [|by unfold measure; rewrite Etag].
  destruct Hok. rewrite Hq in *. split; try done; simpl.
  - by rewrite Etag.
  - by rewrite <- Permutation_cons_append.
  - intros _. apply elem_of_app. right. by left.
  - by rewrite <- Permutation_cons_append.
  - by eapply runnable_wakes.
Qed.

Lemma drop_slow_ok q : wq s = QSlow :: q → slow_io_pending_wq s = [] → pool_ok (p_wq q s) ∧ measure (p_wq q s) = measure s.
Proof.
  intros Hq Hp. assert (tagged (p_wq q s) = tagged s) as Etag by (unfold tagged; simpl; by rewrite Hq).
  split; [|by unfold measure; rewrite Etag].
  destruct Hok. rewrite Hq in *. split; try done; simpl.
  - by rewrite Etag.
  - by apply NoDup_cons in ok_nodup0 as [_ ?].
  - rewrite <- ok_exit0, elem_of_cons. split; [by intros; right|by intros [?|?]].
  - by eapply runnable_wakes.
Qed.

Lemma other_head_ok fuel : head (wq s) ≠ Some QSlow ∨ must_wait s = true → round_ok (worker_loop (S fuel) t pick) s.
Proof.
  intros Hhd. destruct (must_wait s) eqn:Hmw; [by apply wait_ok|]. destruct Hhd as [Hhd|?]; [|done]. destruct (wq s) as [|[w| |] q] eqn:Hq; [|by eapply take_ok|done|by eapply exit_ok].
  unfold must_wait in Hmw. by rewrite Hq in Hmw.
Qed.
End Rounds.

Lemma round_weaken m m' s s' : m s = m' s' → measure s' = measure s → round_ok m' s' → round_ok m s.
Proof. intros E Em (s1 & Hrun & Hok & Hlt). exists s1. rewrite E, <- Em. done. Qed.

Lemma worker_loop_ok s t pick : pool_ok s → workers s !! t = Some PStart → round_ok (worker_loop WORKER_FUEL t pick) s.
Proof.
  intros Hok Ht. destruct (must_wait s) eqn:Hmw; [by apply wait_ok|]. destruct (wq s) as [|[w| |] q] eqn:Hq; try (apply other_head_ok; [done|done|]; left; by rewrite Hq).
  assert (NoDup (QSlow :: q)) as [Hn _]%NoDup_cons by (rewrite <- Hq; apply Hok).
  destruct (Z.leb_spec (slow_work_thread_threshold s) (slow_io_work_running s)) as [Hthr|Hthr].
  - destruct (requeue_ok s t Hok Ht q Hq) as [Hok' Hm]. apply (round_weaken _ (worker_loop 1 t pick) _ (p_wq (q ++ [QSlow]) s)); [|done|].
    + cbn [worker_loop WORKER_FUEL]. rewrite M_get, Hmw, Hq. repeat mnext. by rewrite (proj2 (Z.leb_le _ _) Hthr).
    + apply other_head_ok; [done|done|]. destruct q as [|e q]; [right|left].
      * unfold must_wait. simpl. by apply Z.leb_le.
      * simpl. intros [= ->]. apply Hn. by left.
  - destruct (slow_io_pending_wq s) as [|w p] eqn:Hp; [|by eapply take_slow_ok].
    destruct (drop_slow_ok s t Hok Ht q Hq Hp) as [Hok' Hm]. apply (round_weaken _ (worker_loop 1 t pick) _ (p_wq q s)); [|done|].
    + cbn [worker_loop WORKER_FUEL]. rewrite M_get, Hmw, Hq. repeat mnext. by rewrite (proj2 (Z.leb_gt _ _) Hthr), Hp.
    + apply other_head_ok; [done|done|]. left. destruct q as [|e q]; [done|]. simpl. intros [= ->]. apply Hn. by left.
Qed.

(** Waking up, or coming back from a request, is a round from its start. *)
Lemma restart_ok s t pc idle slow :
  pool_ok s → workers s !! t = Some pc → pc_tag pc = None → runnable_pc pc = true → pc_weight pc = 2%nat →
  idle = idle_threads s - Z.of_nat (b2n (pc_idle pc)) → slow = slow_io_work_running s - Z.of_nat (b2n (pc_slow pc)) →
  pool_ok (p_worker t PStart (p_idle idle (p_slow slow s))) ∧ measure (p_worker t PStart (p_idle idle (p_slow slow s))) = measure s.
Proof.
  intros Hok Ht Htag Hrun Hw -> ->.
  assert (∀ i l, tagged (p_worker t PStart (p_idle i (p_slow l s))) ≡ₚ tagged s) as Etag.
  { intros i l. unfold tagged. simpl. by rewrite (insert_tags _ _ _ PStart Ht). }
  pose proof (insert_weight _ _ _ PStart Ht) as Hwt. split.
  - destruct Hok. split; try done; simpl.
    + by rewrite Etag.
    + pose proof (counted_move _ _ _ PStart _ _ _ ok_counted0 Ht) as []. simpl in *. split; simpl; lia.
    + lia.
    + intros Hin. apply (elem_inserted _ _ _ _ _ Ht) in Hin as [?|?]; [done|by apply ok_exited0].
    + apply (runnable_wakes _ t PStart); [|done]. simpl. apply list_lookup_insert_eq. by eapply lookup_lt_Some.
  - unfold measure. rewrite Etag. simpl in *. lia.
Qed.

(** A thread moves on with its request. *)
Lemma worker_moves_on s t w b tg tg' pc' r' evs l a r :
  pool_ok s → workers s !! t = Some (if tg is TExec then PExec w b else PRan w b) → reqs s !! w = Some r →
  tagged s ≡ₚ (w, tg) :: l →
  let s' := p_worker t pc' (p_async (a || wq_async s) (p_loop_wq (loop_wq s ++ if a then [w] else []) (p_req w r' (p_hist (x_hist s ++ evs) s)))) in
  tagged s' ≡ₚ (w, tg') :: l → done r' = done r → (∀ e, e ∈ evs → event_req e = w) → tag_ok tg' r' (status w (x_hist s ++ evs)) →
  pc_idle pc' = false → pc_slow pc' = b → runnable_pc pc' = true → pool_ok s'.
Proof.
  intros Hok Ht Hr Etag s' Etag' Hd Hev Htok Hi Hs Hrun. unfold s' in *. clear s'.
  assert (pc_idle (if tg is TExec then PExec w b else PRan w b) = false ∧ pc_slow (if tg is TExec then PExec w b else PRan w b) = b) as [Ei Es] by (by destruct tg).
  pose proof (ok_placed _ Hok) as Hpl. rewrite Etag in Hpl. destruct Hok. split; try done; simpl.
  - rewrite Etag'. by eapply placed_move.
  - pose proof (counted_move _ _ _ pc' _ _ _ ok_counted0 Ht) as Hc. rewrite Hi, Hs, Ei, Es in Hc. destruct Hc. split; simpl in *; lia.
  - intros Hin. apply (elem_inserted _ _ _ _ _ Ht) in Hin as [<-|?]; [done|by apply ok_exited0].
  - apply (runnable_wakes _ t pc'); [|done]. simpl. apply list_lookup_insert_eq. by eapply lookup_lt_Some.
  - destruct a; [done|]. rewrite app_nil_r. done.
Qed.

(** The tag of a thread that has a request. *)
Lemma tagged_worker s t pc p : workers s !! t = Some pc → pc_tag pc = Some p →
  ∃ l, tagged s ≡ₚ p :: l ∧ ∀ pc' r h, option_list (pc_tag pc') ++ l ≡ₚ tagged (p_worker t pc' (p_reqs r (p_hist h s))).
Proof.
  intros Ht Hp. destruct (insert_split _ _ _ Ht) as (rest & E1 & E2).
  exists (((., TQueued) <$> omap qwork (wq s) ++ slow_io_pending_wq s) ++ omap pc_tag rest ++
    option_list ((., TCancelling) <$> cancelling s) ++ ((., TDone) <$> loop_wq s ++ done_wq s)). split.
  - unfold tagged. rewrite E1. simpl. rewrite Hp, <- app_comm_cons. by rewrite <- Permutation_middle.
  - intros pc' r h. unfold tagged. simpl. rewrite (E2 pc'). simpl. destruct (pc_tag pc'); simpl; [|done]. by rewrite Permutation_middle.
Qed.

Lemma add_done s pc' t r h w :
  tagged (p_worker t pc' (p_async true (p_loop_wq (loop_wq s ++ [w]) (p_reqs r (p_hist h s))))) ≡ₚ (w, TDone) :: tagged (p_worker t pc' (p_reqs r (p_hist h s))).
Proof.
  unfold tagged. simpl. rewrite !(assoc_L (++)). rewrite !fmap_app. simpl. rewrite <- !(assoc_L (++)). simpl. by rewrite <- !Permutation_middle.
Qed.

Lemma step_exec_ok s t pick w b : pool_ok s → workers s !! t = Some (PExec w b) → round_ok (worker_step t pick) s.
Proof.
  intros Hok Ht. unfold worker_step. destruct (tagged_worker s t _ (w, TExec) Ht eq_refl) as (l & E & E'). pose proof (ok_placed _ Hok) as Hpl. rewrite E in Hpl.
  destruct (placed_at _ _ _ _ _ _ Hpl) as (r & Hr & Hwk & Hl & Hst).
  exists (p_worker t (PRan w b) (p_event (Executed w) s)). split.
  { rewrite M_get, Ht, M_lift, Hr, M_lift. by rewrite bool_decide_true. }
  assert (tagged (p_worker t (PRan w b) (p_event (Executed w) s)) ≡ₚ (w, TRan) :: l) as E1 by (by rewrite <- (E' (PRan w b) (reqs s) (x_hist s ++ [Executed w])); destruct s).
  assert (p_worker t (PRan w b) (p_event (Executed w) s) = p_worker t (PRan w b) (p_async (false || wq_async s) (p_loop_wq (loop_wq s ++ []) (p_req w r (p_hist (x_hist s ++ [Executed w]) s))))) as E2.
  { unfold p_req. simpl. rewrite insert_id by done. rewrite app_nil_r. by destruct s. }
  pose proof (insert_weight _ _ _ (PRan w b) Ht) as Hwt. split.
  - rewrite E2 in E1 |- *. eapply (worker_moves_on _ _ w b TExec TRan); try done.
    + intros e He. by apply list_elem_of_singleton in He as ->.
    + split_and!; [done|done|]. rewrite status_app, Hst. simpl. unfold req_next. by rewrite decide_True.
  - unfold measure. rewrite E1, E, !tags_weight_cons. simpl in *. lia.
Qed.

Lemma step_ran_ok s t pick w b : pool_ok s → workers s !! t = Some (PRan w b) → round_ok (worker_step t pick) s.
Proof.
  intros Hok Ht. unfold worker_step. destruct (tagged_worker s t _ (w, TRan) Ht eq_refl) as (l & E & E'). pose proof (ok_placed _ Hok) as Hpl. rewrite E in Hpl.
  destruct (placed_at _ _ _ _ _ _ Hpl) as (r & Hr & Hwk & Hl & Hst). set (r' := set_link Linked (set_work WorkNull r)).
  set (s' := p_worker t (PBack b) (p_async true (p_loop_wq (loop_wq s ++ [w]) (p_req w r' (p_hist (x_hist s ++ []) s))))). exists s'. split.
  { rewrite M_get, Ht, M_lift, Hr, M_lift. unfold s'. rewrite app_nil_r. by destruct s. }
  assert (tagged s' ≡ₚ (w, TDone) :: l) as E1 by (unfold s', p_req; simpl; rewrite add_done; by rewrite <- (E' (PBack b))).
  pose proof (insert_weight _ _ _ (PBack b) Ht) as Hwt. split.
  - eapply (worker_moves_on _ _ w b TRan TDone _ r' [] l true r); try done.
    + by intros ? ?%elem_of_nil.
    + rewrite app_nil_r. split; [done|]. by left.
  - unfold measure. rewrite E1, E, !tags_weight_cons. simpl in *. destruct (wq_async s); simpl; lia.
Qed.

Lemma worker_step_ok s t pick : pool_ok s → enabled s (IWorker t pick) = true → round_ok (worker_step t pick) s.
Proof.
  intros Hok Hen. pose proof (ranges s Hok) as (Hi & Hsl & _). cbn [enabled] in Hen. destruct (workers s !! t) as [pc|] eqn:Ht; [|done].
  pose proof (counted_move _ _ _ PStart _ _ _ (ok_counted _ Hok) Ht) as Hc.
  unfold worker_step. destruct pc as [| | |w b|w b|b|]; try done.
  - destruct (worker_loop_ok s t pick Hok Ht) as (s' & Hrun & H'). exists s'. rewrite M_get, Ht, M_lift. done.
  - assert (1 ≤ idle_threads s) as Hi1 by (destruct Hc; simpl in *; lia).
    destruct (restart_ok s t PWoken (u32 (idle_threads s - 1)) (slow_io_work_running s)) as [Hok' Hm]; try done; [rewrite u32_small by lia; done|simpl; lia|].
    eapply round_weaken; [|exact Hm|apply (worker_loop_ok _ t pick Hok')].
    + rewrite M_get, Ht, M_lift. repeat mnext. by destruct s.
    + simpl. apply list_lookup_insert_eq. by eapply lookup_lt_Some.
  - destruct (step_exec_ok s t pick w b Hok Ht) as (s' & Hrun & H'). by exists s'.
  - destruct (step_ran_ok s t pick w b Hok Ht) as (s' & Hrun & H'). by exists s'.
  - assert (∃ slow, slow = slow_io_work_running s - Z.of_nat (b2n b) ∧
      ((if b then modify (p_slow (u32 (slow_io_work_running s - 1))) else mret tt) : M pool_t unit) s = Some (tt, p_slow slow s)) as (slow & Es & Hrun).
    { destruct b; eexists; split; [reflexivity| |reflexivity|].
      - simpl. rewrite u32_small; [done|]. destruct Hc. simpl in *. lia.
      - simpl. rewrite Z.sub_0_r. by destruct s. }
    destruct (restart_ok s t (PBack b) (idle_threads s) slow) as [Hok' Hm]; try done; [simpl; lia|].
    eapply round_weaken; [|exact Hm|apply (worker_loop_ok _ t pick Hok')].
    + rewrite M_get, Ht, M_lift. bstep Hrun. by destruct s.
    + simpl. apply list_lookup_insert_eq. by eapply lookup_lt_Some.
Qed.

(** ** The thread of the loop *)

Lemma n_of_zero f ws pc : n_of f ws = 0%nat → pc ∈ ws → f pc = false.
Proof.
  intros H Hin. destruct (list_elem_of_split _ _ Hin) as (l1 & l2 & ->).
  rewrite <- Permutation_middle, n_of_cons in H. destruct (f pc); simpl in H; [lia|done].
Qed.

(** A signal after something was put into the queue. *)
Lemma kick_ok s pick :
  counted (workers s) (idle_threads s) (slow_io_work_running s) (nthreads s) →
  (∀ ws, omap pc_tag ws ≡ₚ omap pc_tag (workers s) → counted ws (idle_threads s) (slow_io_work_running s) (nthreads s) →
    (PExited ∈ ws → PExited ∈ workers s) → wakes (p_workers ws s) → pool_ok (p_workers ws s)) →
  ∃ s', ((if 0 <? idle_threads s then cond_signal pick else mret tt) : M pool_t unit) s = Some (tt, s') ∧ pool_ok s'.
Proof.
  intros Hct Hall. destruct (Z.ltb_spec 0 (idle_threads s)) as [Hi|Hi].
  - destruct (cond_signal_run pick s) as (ws & Hrun & Hsig). destruct (signalled_spec _ _ Hsig) as (Htags & _ & _ & Hex & Hct' & Hwk).
    exists (p_workers ws s). split; [done|]. apply Hall; [done|by apply Hct'|done|]. intros Hin _. exists PWoken. split; [by apply Hwk|done].
  - exists s. split; [done|]. rewrite <- (p_workers_id s). apply Hall; [done|done|done|]. rewrite p_workers_id. intros Hin _.
    assert (pc_idle PWaiting = false); [|done]. eapply n_of_zero; [|done]. destruct Hct. lia.
Qed.

Lemma elem_tagged_queued s w : QWork w ∈ wq s ∨ w ∈ slow_io_pending_wq s → w ∈ (tagged s).*1.
Proof.
  intros H. apply list_elem_of_fmap. exists (w, TQueued). split; [done|]. unfold tagged. apply elem_of_app. left.
  apply list_elem_of_fmap. exists w. split; [done|]. apply elem_of_app. destruct H as [H|H]; [left|by right]. apply list_elem_of_omap. by exists (QWork w).
Qed.

Lemma elem_tagged_inv s w tg : (w, tg) ∈ tagged s →
  match tg with
  | TQueued => QWork w ∈ wq s ∨ w ∈ slow_io_pending_wq s
  | TExec | TRan => (w, tg) ∈ omap pc_tag (workers s)
  | TCancelling => cancelling s = Some w
  | TDone => w ∈ loop_wq s ++ done_wq s
  end.
Proof.
  unfold tagged. rewrite !elem_of_app, !list_elem_of_fmap. intros [(w' & [= -> ->] & H)|[H|[H|(w' & [= -> ->] & H)]]].
  - apply elem_of_app in H as [H|H]; [left|by right]. apply list_elem_of_omap in H as ([w''| |] & H & E); naive_solver.
  - pose proof H as H'. apply list_elem_of_omap in H as (pc & _ & E). destruct pc; simplify_eq/=; done.
  - destruct (cancelling s); simpl in H; [|by apply elem_of_nil in H]. apply list_elem_of_singleton in H. by simplify_eq.
  - done.
Qed.

Lemma free_not_tagged s w : pool_ok s → cancelling s = None → is_free s w = true → w ∉ (tagged s).*1.
Proof.
  intros Hok Hc Hf Hin. apply list_elem_of_fmap in Hin as ([w' tg] & -> & Hin). simpl in *. pose proof (elem_tagged_inv _ _ _ Hin) as Hinv.
  destruct (pl_tag _ _ _ _ (ok_placed _ Hok) _ _ Hin) as (r & Hr & Htok). unfold is_free in Hf. rewrite Hr in Hf. apply bool_decide_eq_true in Hf.
  destruct tg; simpl in *; try (destruct Htok as (? & ?); try congruence; naive_solver congruence).
Qed.

Lemma submit_ok s w kind d pick :
  pool_ok s → w ∉ (tagged s).*1 →
  ∃ s', uv__work_submit w kind d pick (p_active (active_reqs s + if decide (d = DoneQueue) then 1 else 0) s) = Some (tt, s') ∧ pool_ok s'.
Proof.
  intros Hok Hw. set (r := {| work := WorkFn; done := d; link := Linked |}).
  set (s1 := p_req w r (p_event (Submitted w) (p_active (active_reqs s + if decide (d = DoneQueue) then 1 else 0) s))).
  assert (uv__work_submit w kind d pick (p_active (active_reqs s + if decide (d = DoneQueue) then 1 else 0) s) =
    (if decide (kind = UV__WORK_SLOW_IO) then
       modify (p_pending_wq (slow_io_pending_wq s ++ [w]));;
       if bool_decide (QSlow ∈ wq s) then mret tt
       else modify (p_wq (wq s ++ [QSlow]));; if 0 <? idle_threads s then cond_signal pick else mret tt
     else modify (p_wq (wq s ++ [QWork w]));; if 0 <? idle_threads s then cond_signal pick else mret tt) s1) as ->.
  { unfold uv__work_submit, post. rewrite !M_modify, M_assoc, M_get. cbn [reqs p_req p_reqs]. rewrite lookup_insert_eq, M_assoc, M_lift, M_modify, M_get.
    unfold s1, p_req. simpl. rewrite insert_insert_eq. done. }
  assert (∀ l, l ≡ₚ (w, TQueued) :: tagged s → placed l (reqs s1) (x_hist s1) (active_reqs s1)) as Hpl.
  { intros l ->. apply (placed_add w TQueued (tagged s) _ _ _ r [Submitted w]); [apply Hok|done|by intros e ->%list_elem_of_singleton|].
    split_and!; [done|done|]. rewrite status_app. simpl. destruct (pl_free _ _ _ _ (ok_placed _ Hok) w Hw) as [-> _]. unfold req_next. by rewrite decide_True. }
  assert (QWork w ∉ wq s) as Hq by (intros Hin; apply Hw, elem_tagged_queued; by left).
  destruct Hok. destruct (decide (kind = UV__WORK_SLOW_IO)) as [_|_].
  - assert (∀ q ws, omap qwork q = omap qwork (wq s) → omap pc_tag ws ≡ₚ omap pc_tag (workers s) →
      tagged (p_workers ws (p_wq q (p_pending_wq (slow_io_pending_wq s ++ [w]) s1))) ≡ₚ (w, TQueued) :: tagged s) as Etag.
    { intros q ws Eq Ew. unfold tagged. simpl. rewrite Eq, Ew, !fmap_app. simpl. rewrite (assoc_L (++) (_ <$> omap qwork _)), <- (assoc_L (++) _ [_]).
      by rewrite <- app_comm_cons, <- Permutation_middle. }
    rewrite M_modify. destruct (bool_decide_reflect (QSlow ∈ wq s)) as [Hs|Hs].
    + eexists. split; [reflexivity|]. split; try done; simpl. apply Hpl. rewrite <- (Etag (wq s) (workers s)) by done. by destruct s.
    + rewrite M_modify. apply (kick_ok (p_wq (wq s ++ [QSlow]) (p_pending_wq (slow_io_pending_wq s ++ [w]) s1))); [done|]. intros ws Ew Hct Hex Hwk. split; try done; simpl.
      * apply Hpl. rewrite <- (Etag (wq s ++ [QSlow]) ws); [done| |done]. rewrite omap_app. simpl. by rewrite app_nil_r.
      * rewrite <- Permutation_cons_append. by constructor.
      * intros _. apply elem_of_app. right. by left.
      * rewrite elem_of_app, list_elem_of_singleton, <- ok_exit0. naive_solver.
      * intros Hin. by apply ok_exited0, Hex.
  - rewrite M_modify. apply (kick_ok (p_wq (wq s ++ [QWork w]) s1)); [done|]. intros ws Ew Hct Hex Hwk. split; try done; simpl.
    + apply Hpl. unfold tagged. simpl. simpl in Ew. rewrite Ew, omap_app. simpl. rewrite !fmap_app. simpl.
      rewrite <- (assoc_L (++) _ [_]). by rewrite <- !app_comm_cons, <- Permutation_middle.
    + rewrite <- Permutation_cons_append. by constructor.
    + intros Hp. apply elem_of_app. left. by apply ok_pending0.
    + rewrite elem_of_app, list_elem_of_singleton, <- ok_exit0. naive_solver.
    + intros Hin. by apply ok_exited0, Hex.
Qed.

Lemma cleanup_begin_ok s pick : pool_ok s → exiting s = false → ∃ s', cleanup_begin pick s = Some (tt, s') ∧ pool_ok s'.
Proof.
  intros Hok Hex. pose proof (ok_size _ Hok Hex) as Hn. unfold cleanup_begin, post. rewrite M_get, (proj2 (Z.eqb_neq _ _)) by lia.
  rewrite M_modify, M_left_id, M_get, decide_False, M_modify by done. simpl. change (idle_threads s) with (idle_threads (p_wq (wq s ++ [QExit]) (p_exiting true s))).
  destruct Hok. apply kick_ok; [done|]. intros ws Ew Hct Hx Hwk. split; try done; simpl.
  - assert (tagged (p_workers ws (p_wq (wq s ++ [QExit]) (p_exiting true s))) ≡ₚ tagged s) as ->; [|done].
    unfold tagged. simpl. simpl in Ew. rewrite Ew, omap_app. simpl. by rewrite app_nil_r.
  - rewrite <- Permutation_cons_append. constructor; [|done]. rewrite ok_exit0, Hex. done.
  - intros Hp. apply elem_of_app. left. by apply ok_pending0.
  - rewrite elem_of_app, list_elem_of_singleton. naive_solver.
Qed.

Lemma cleanup_end_ok s : pool_ok s → enabled s ACleanupEnd = true → ∃ s', cleanup_end s = Some (tt, s') ∧ pool_ok s'.
Proof.
  intros [] [Hex Hall]%andb_true_iff. eexists. split; [reflexivity|]. rewrite forallb_forall in Hall.
  assert (Forall (.= PExited) (workers s)) as Hall'.
  { apply Forall_forall. intros pc Hin. apply list_elem_of_In, Hall in Hin. by apply bool_decide_eq_true in Hin. }
  assert (omap pc_tag (workers s) = [] ∧ n_of pc_idle (workers s) = 0%nat ∧ n_of pc_slow (workers s) = 0%nat) as (Et & Ei & Es).
  { clear -Hall'. induction Hall' as [|pc ws -> _ (IH1 & IH2 & IH3)]; [done|]. by rewrite !n_of_cons. }
  destruct ok_counted0. rewrite Ei in *. rewrite Es in *. split; try done; simpl.
  - assert (tagged (p_nth 0 (p_workers [] s)) = tagged s) as ->; [|done]. unfold tagged. simpl. by rewrite Et.
  - rewrite ct_slow0. done.
  - congruence.
  - by intros ?%elem_of_nil.
Qed.

Lemma spurious_ok s t : pool_ok s → workers s !! t = Some PWaiting → pool_ok (p_worker t PWoken s).
Proof.
  intros [] Ht. destruct (signalled_spec _ _ (sig_one _ _ Ht)) as (Htags & _ & _ & Hex & Hct & Hwk). split; try done; simpl.
  - assert (tagged (p_worker t PWoken s) ≡ₚ tagged s) as ->; [|done]. unfold tagged. simpl. by rewrite Htags.
  - by apply Hct.
  - intros Hin. by apply ok_exited0, Hex.
  - apply (runnable_wakes _ t PWoken); [|done]. simpl. apply list_lookup_insert_eq. by eapply lookup_lt_Some.
Qed.

(** Removing a request from the queue it is in. *)
Lemma omap_qwork_filter w (q : list qent) : omap qwork (filter (.≠ QWork w) q) = filter (.≠ w) (omap qwork q).
Proof.
  induction q as [|e q IH]; [done|]. rewrite filter_cons. destruct e as [w'| |].
  - destruct (decide (QWork w' ≠ QWork w)) as [H|H]; csimpl; rewrite filter_cons.
    + rewrite decide_True by congruence. by rewrite IH.
    + rewrite decide_False by (intros H'; apply H; congruence). done.
  - rewrite decide_True by done. csimpl. done.
  - rewrite decide_True by done. csimpl. done.
Qed.

Lemma fmap_tag_filter w (tg : ptag) (l : list nat) : (., tg) <$> filter (.≠ w) l = filter (λ p, p.1 ≠ w) ((., tg) <$> l).
Proof.
  induction l as [|w' l IH]; [done|]. rewrite filter_cons. csimpl. rewrite filter_cons. cbn [fst]. destruct (decide (w' ≠ w)); csimpl; by rewrite IH.
Qed.

Lemma filter_all {A} (P : A → Prop) `{!∀ x, Decision (P x)} l : Forall P l → filter P l = l.
Proof. induction 1 as [|x l Hx _ IH]; [done|]. rewrite filter_cons, decide_True by done. by rewrite IH. Qed.

Lemma filter_tagged w tg l : NoDup ((w, tg) :: l).*1 → filter (λ p : nat * ptag, p.1 ≠ w) ((w, tg) :: l) = l.
Proof.
  intros Hnd. cbn in Hnd. apply NoDup_cons in Hnd as [Hw _]. rewrite filter_cons, decide_False by (simpl; tauto). apply filter_all. apply Forall_forall. intros [w' tg'] Hin. simpl. intros ->.
  apply Hw, list_elem_of_fmap. by exists (w, tg').
Qed.

Definition removed (w : nat) (r : uv__work) (s : pool_t) : pool_t :=
  p_cancelling (Some w) (p_event (Cancelled w) (p_req w (set_link LinkStale r)
    (p_done_wq (filter (.≠ w) (done_wq s)) (p_loop_wq (filter (.≠ w) (loop_wq s)) (p_pending_wq (filter (.≠ w) (slow_io_pending_wq s)) (p_wq (filter (.≠ QWork w) (wq s)) s)))))).

Lemma tagged_removed s w r tg : pool_ok s → cancelling s = None → (w, tg) ∈ tagged s → tg = TQueued ∨ tg = TDone →
  ∃ l, tagged s ≡ₚ (w, tg) :: l ∧ tagged (removed w r s) ≡ₚ (w, TCancelling) :: l.
Proof.
  intros Hok Hc Hin Htg. destruct (list_elem_of_split _ _ Hin) as (l1 & l2 & El0). assert (tagged s ≡ₚ (w, tg) :: l1 ++ l2) as El by (by rewrite El0, Permutation_middle). clear El0. set (l := l1 ++ l2) in *. exists l. split; [done|].
  assert (filter (λ p, p.1 ≠ w) (tagged s) ≡ₚ l) as Hf.
  { rewrite El, filter_tagged; [done|]. rewrite <- El. apply (ok_placed _ Hok). }
  assert (filter (λ p, p.1 ≠ w) (omap pc_tag (workers s)) = omap pc_tag (workers s)) as Hws.
  { apply filter_all, Forall_forall. intros [w' tg'] Hin' Hw. simpl in Hw. subst w'.
    assert (tg' = TExec ∨ tg' = TRan) as Htg'.
    { apply list_elem_of_omap in Hin' as (pc & _ & E). destruct pc; simplify_eq/=; tauto. }
    assert ((w, tg') ∈ tagged s) as Hin2 by (unfold tagged; rewrite !elem_of_app; tauto).
    destruct (pl_tag _ _ _ _ (ok_placed _ Hok) _ _ Hin) as (r1 & Hr1 & Hok1), (pl_tag _ _ _ _ (ok_placed _ Hok) _ _ Hin2) as (r2 & Hr2 & Hok2).
    assert (link r1 = Linked) by (destruct Htg as [-> | ->], Hok1; tauto). assert (link r2 = LinkSelf) by (destruct Htg' as [-> | ->], Hok2; tauto). congruence. }
  rewrite <- Hf. unfold tagged, removed. simpl. rewrite Hc. simpl. rewrite !filter_app, Hws, omap_qwork_filter, <- !filter_app, !fmap_tag_filter.
  by rewrite Permutation_middle, Permutation_middle.
Qed.

Lemma cancel_begin_ok s w type :
  pool_ok s → enabled s (ACancel type w) = true → ∃ r s', uv_cancel type w s = Some (r, s') ∧ pool_ok s'.
Proof.
  intros Hok [Hfree Hen]%andb_true_iff. apply andb_true_iff in Hfree as [Hc _]. apply bool_decide_eq_true in Hc. destruct (reqs s !! w) as [r|] eqn:Hr; [|done].
  assert (∃ x s', work_cancel_begin w s = Some (x, s') ∧ pool_ok s') as H; [|by destruct type; eauto].
  unfold work_cancel_begin. rewrite M_get, Hr, M_lift. cbv zeta.
  destruct (negb (bool_decide (link r = LinkSelf)) && negb (bool_decide (work r = WorkNull))) eqn:Hcan; [|by exists UV_EBUSY, s].
  apply andb_true_iff in Hcan as [H1 H2]. apply negb_true_iff, bool_decide_eq_false in H1, H2.
  assert (∃ tg, (w, tg) ∈ tagged s ∧ (tg = TQueued ∨ tg = TDone) ∧ link r = Linked ∧ (status w (x_hist s) = Some SQueued ∨ status w (x_hist s) = Some SCancelled)) as (tg & Hin & Htg & Hl & Hst).
  { destruct (decide (w ∈ (tagged s).*1)) as [Hin|Hin].
    - apply list_elem_of_fmap in Hin as ([w' tg] & -> & Hin). simpl in *. destruct (pl_tag _ _ _ _ (ok_placed _ Hok) _ _ Hin) as (r' & Hr' & Htok).
      assert (r' = r) as -> by congruence. exists tg. pose proof (elem_tagged_inv _ _ _ Hin). destruct tg; simpl in *; naive_solver congruence.
    - destruct (pl_free _ _ _ _ (ok_placed _ Hok) _ Hin) as [_ Hst]. destruct (Hst _ Hr) as [Hl Hwk]. rewrite bool_decide_true in Hen by done.
      destruct (work r) eqn:?; [done|by rewrite bool_decide_true in Hen|done]. }
  destruct (tagged_removed s w r tg Hok Hc Hin Htg) as (l & El & El'). pose proof (ok_placed _ Hok) as Hpl. rewrite El in Hpl.
  exists 0, (removed w r s). split.
  { unfold queue_remove. rewrite M_assoc, M_get, Hr, M_assoc, M_lift, bool_decide_true by done. done. }
  destruct Hok. split; try done; simpl.
  - rewrite El'. eapply placed_move; [done..|by intros e ->%list_elem_of_singleton|]. split; [done|]. rewrite status_app. simpl. unfold req_next. rewrite decide_True by done. by destruct Hst as [-> | ->].
  - by apply NoDup_filter.
  - intros Hp. apply list_elem_of_filter. split; [done|]. apply ok_pending0. intros E. by rewrite E in Hp.
  - rewrite list_elem_of_filter, <- ok_exit0. naive_solver.
  - intros Hin' Hmw. apply ok_wake0; [done|]. apply not_true_is_false. intros Hmt. revert Hmw Hmt. clear. unfold must_wait, slow_work_thread_threshold. simpl.
    destruct (wq s) as [|[?| |] [|? ?]]; simpl; try done. congruence.
  - intros Hne. apply ok_async0. intros E. by rewrite E in Hne.
Qed.

Lemma cancel_end_ok s : pool_ok s → is_Some (cancelling s) → round_ok work_cancel_end s.
Proof.
  intros Hok [w Hc].
  set (l := ((., TQueued) <$> omap qwork (wq s) ++ slow_io_pending_wq s) ++ omap pc_tag (workers s) ++ ((., TDone) <$> loop_wq s ++ done_wq s)).
  assert (tagged s ≡ₚ (w, TCancelling) :: l) as El by (unfold tagged; rewrite Hc; simpl; by rewrite <- !Permutation_middle).
  pose proof (ok_placed _ Hok) as Hpl. rewrite El in Hpl. destruct (placed_at _ _ _ _ _ _ Hpl) as (r & Hr & Hl & Hst).
  set (r' := set_link Linked (set_work WorkCancelled r)).
  set (s' := p_cancelling None (p_async true (p_loop_wq (loop_wq s ++ [w]) (p_req w r' s)))). exists s'. split.
  { unfold work_cancel_end. rewrite M_get, Hc, M_lift, Hr, M_lift. done. }
  assert (tagged s' ≡ₚ (w, TDone) :: l) as El'.
  { unfold tagged. simpl. rewrite <- (assoc_L (++) (loop_wq s)). unfold l. rewrite !fmap_app. csimpl. by rewrite <- !Permutation_middle. }
  split.
  - destruct Hok. split; try done; simpl. rewrite El', <- (app_nil_r (x_hist s)). eapply placed_move; [done..|by intros ? ?%elem_of_nil|]. rewrite app_nil_r. split; [done|]. by right.
  - unfold measure. rewrite El, El', !tags_weight_cons. simpl. destruct (wq_async s); simpl; lia.
Qed.

Lemma done_begin_ok s : pool_ok s → wq_async s = true → done_wq s = [] → round_ok work_done_begin s.
Proof.
  intros Hok Ha Hd. eexists. split; [reflexivity|].
  assert (tagged (p_loop_wq [] (p_done_wq (loop_wq s) (p_async false s))) = tagged s) as E.
  { unfold tagged. simpl. by rewrite Hd, app_nil_r. }
  split; [|unfold measure; rewrite E; simpl; rewrite Ha; simpl; lia]. destruct Hok. split; try done. by rewrite E.
Qed.

Lemma done_next_ok s : pool_ok s → done_wq s ≠ [] → round_ok work_done_next s.
Proof.
  intros Hok Hd. unfold work_done_next. destruct (done_wq s) as [|w q] eqn:Hq; [done|].
  set (l := ((., TQueued) <$> omap qwork (wq s) ++ slow_io_pending_wq s) ++ omap pc_tag (workers s) ++
    option_list ((., TCancelling) <$> cancelling s) ++ ((., TDone) <$> loop_wq s ++ q)).
  assert (tagged s ≡ₚ (w, TDone) :: l) as El.
  { unfold tagged, l. rewrite Hq, !fmap_app. csimpl. by rewrite <- !Permutation_middle. }
  pose proof (ok_placed _ Hok) as Hpl. rewrite El in Hpl. destruct (placed_at _ _ _ _ _ _ Hpl) as (r & Hr & Hl & Hst).
  set (ev := Reported w (if decide (work r = WorkCancelled) then UV_ECANCELED else 0)).
  set (s' := p_active (active_reqs s - if decide (done r = DoneQueue) then 1 else 0) (p_event ev (p_req w (set_link LinkStale r) (p_done_wq q s)))).
  assert (tagged s' = l) as El' by done. exists s'. split; [|split].
  - rewrite M_get, Hq, Hr, M_lift. repeat mnext. destruct (decide (done r = DoneQueue)); [done|]. unfold s', p_active. simpl. by rewrite Z.sub_0_r.
  - destruct Hok. split; try done; simpl. rewrite El'. eapply (placed_remove w TDone _ _ _ _ _ _ [ev]); [done..|by intros e ->%list_elem_of_singleton|done| |].
    + simpl. destruct Hst as [[-> _]|[-> _]]; done.
    + rewrite status_app. simpl. unfold req_next. rewrite decide_True by done. by destruct Hst as [[E ->]|[E ->]]; unfold ev; rewrite E; simpl.
  - unfold measure. rewrite El, El', tags_weight_cons. simpl. lia.
Qed.

(** ** Runs *)

Lemma internal_ok s a : pool_ok s → internal a = true → enabled s a = true → round_ok (pool_step a) s.
Proof.
  intros Hok Ha Hen. destruct a; try done; cbn [pool_step].
  - by apply worker_step_ok.
  - cbn in Hen. apply andb_true_iff in Hen as [[_ Has]%andb_true_iff Hd]. apply bool_decide_eq_true in Hd. by apply done_begin_ok.
  - cbn in Hen. apply andb_true_iff in Hen as [_ Hd]. apply negb_true_iff, bool_decide_eq_false in Hd. by apply done_next_ok.
  - cbn in Hen. apply bool_decide_eq_true in Hen. by apply cancel_end_ok.
Qed.

Lemma loop_free_spec s : loop_free s = true → cancelling s = None ∧ exiting s = false.
Proof. intros [H1 H2]%andb_true_iff. by apply bool_decide_eq_true in H1; apply negb_true_iff in H2. Qed.

Lemma pool_step_ok s a : pool_ok s → enabled s a = true → ∃ s', pool_step a s = Some (tt, s') ∧ pool_ok s'.
Proof.
  intros Hok Hen. destruct (internal a) eqn:Ha; [destruct (internal_ok s a Hok Ha Hen) as (s' & ? & ? & _); by exists s'|].
  destruct a as [w kind pick|w cb pick|type w|pick| |t| | | |]; try done; cbn [pool_step].
  - apply andb_true_iff in Hen as [[Hc _]%loop_free_spec Hf]. destruct (submit_ok s w kind DoneOther pick Hok (free_not_tagged _ _ Hok Hc Hf)) as (s' & Hrun & Hok').
    exists s'. split; [|done]. rewrite <- Hrun. simpl. rewrite Z.add_0_r. by destruct s.
  - apply andb_true_iff in Hen as [[Hc _]%loop_free_spec Hf]. unfold uv_queue_work. destruct cb; [|by exists s]. cbn [negb].
    destruct (submit_ok s w UV__WORK_CPU DoneQueue pick Hok (free_not_tagged _ _ Hok Hc Hf)) as (s' & Hrun & Hok').
    exists s'. split; [|done]. rewrite M_assoc, M_modify, M_assoc. cbn in Hrun. bstep Hrun. done.
  - destruct (cancel_begin_ok s w type Hok Hen) as (r & s' & Hrun & Hok'). exists s'. split; [|done]. bstep Hrun. done.
  - apply loop_free_spec in Hen as [_ Hex]. by apply cleanup_begin_ok.
  - by apply cleanup_end_ok.
  - cbn in Hen. apply bool_decide_eq_true in Hen. eexists. split; [reflexivity|]. by apply spurious_ok.
Qed.

Lemma pool_run_ok acts s : pool_ok s → ∃ s', pool_run acts s = Some (tt, s') ∧ pool_ok s'.
Proof.
  revert s. induction acts as [|a acts IH]; intros s Hok; [by exists s|]. cbn [pool_run]. rewrite M_get. destruct (enabled s a) eqn:Hen.
  - destruct (pool_step_ok s a Hok Hen) as (s1 & Hrun & Hok1). bstep Hrun. by apply IH.
  - rewrite M_left_id. by apply IH.
Qed.

Lemma pool_size_range val mem : 1 ≤ pool_size val mem ≤ 128.
Proof.
  unfold pool_size, MAX_THREADPOOL_SIZE, DEFAULT_THREADS. destruct val as [v|]; [pose proof (u32_range v)|]; destruct mem; simpl; repeat case_bool; repeat case_match; try lia.
Qed.

Lemma init_ok val mem : pool_ok (init_threads val mem).
Proof.
  pose proof (pool_size_range val mem) as Hn. set (n := Z.to_nat (pool_size val mem)).
  assert (omap pc_tag (replicate n PStart) = [] ∧ n_of pc_idle (replicate n PStart) = 0%nat ∧ n_of pc_slow (replicate n PStart) = 0%nat) as (E1 & E2 & E3).
  { generalize n. intros k. induction k as [|k (IH1 & IH2 & IH3)]; [done|]. simpl. by rewrite !n_of_cons. }
  split; try done; simpl.
  - unfold tagged. simpl. fold n. rewrite E1. simpl. split; simpl; [constructor|by intros ?? ?%elem_of_nil| |done].
    intros w _. split; [done|]. intros r. by rewrite lookup_empty.
  - fold n. split; rewrite ?E2, ?E3, ?length_replicate; unfold MAX_THREADPOOL_SIZE; lia.
  - apply Z.div_pos; lia.
  - lia.
  - constructor.
  - split; [by intros ?%elem_of_nil|done].
  - intros Hin. by apply elem_of_replicate in Hin as [? _].
Qed.

Lemma pool_internal_ok more s s' : pool_ok s → pool_internal more s = Some s' → pool_ok s' ∧ (length more + measure s' ≤ measure s)%nat.
Proof.
  revert s. induction more as [|a more IH]; intros s Hok Hrun; [by simplify_eq/=|]. cbn [pool_internal] in Hrun. destruct (internal a && enabled s a) eqn:E; [|done].
  apply andb_true_iff in E as [Ha Hen]. destruct (internal_ok s a Hok Ha Hen) as (s1 & Hs1 & Hok1 & Hlt). rewrite Hs1 in Hrun.
  destruct (IH s1 Hok1 Hrun) as [? ?]. split; [done|]. simpl. lia.
Qed.

(** At rest the threads wait or have ended, and wait only when they must. *)
Lemma rest_threads s : pool_ok s → at_rest s →
  (∀ pc, pc ∈ workers s → pc = PWaiting ∨ pc = PExited) ∧ (PWaiting ∈ workers s → must_wait s = true).
Proof.
  intros Hok Hrest.
  assert (∀ pc, pc ∈ workers s → pc = PWaiting ∨ pc = PExited) as Hws.
  { intros pc Hin. apply list_elem_of_lookup_1 in Hin as [t Ht]. pose proof (Hrest (IWorker t 0) eq_refl) as H. cbn in H. rewrite Ht in H. destruct pc; try done; tauto. }
  split; [done|]. intros Hin. destruct (must_wait s) eqn:Hm; [done|]. destruct (ok_wake _ Hok Hin Hm) as (pc & Hpc & Hr). by destruct (Hws _ Hpc) as [-> | ->].
Qed.

(** A pool that was told to end has. *)
Lemma rest_exited s : pool_ok s → at_rest s → exiting s = true → Forall (.= PExited) (workers s).
Proof.
  intros Hok Hrest Hex. destruct (rest_threads s Hok Hrest) as [Hws Hmw]. apply Forall_forall. intros pc Hpc. destruct (Hws _ Hpc) as [-> |]; [|done].
  specialize (Hmw Hpc). assert (QExit ∈ wq s) as Hq by (by apply (ok_exit _ Hok)). unfold must_wait in Hmw. exfalso. clear -Hmw Hq.
  destruct (wq s) as [|[?| |] [|? ?]]; try done; [by apply elem_of_nil in Hq|]. by apply list_elem_of_singleton in Hq.
Qed.

(** The queue of a pool whose threads all wait is empty. *)
Lemma rest_queue s : pool_ok s → at_rest s → exiting s = false → omap pc_tag (workers s) = [] ∧ wq s = [] ∧ slow_io_pending_wq s = [].
Proof.
  intros Hok Hrest Hex. destruct (rest_threads s Hok Hrest) as [Hws Hmw].
  assert (∀ pc, pc ∈ workers s → pc = PWaiting) as Hwait.
  { intros pc Hin. destruct (Hws _ Hin) as [| ->]; [done|]. apply (ok_exited _ Hok) in Hin. congruence. }
  assert (PWaiting ∈ workers s) as Hin.
  { pose proof (ok_size _ Hok Hex). pose proof (ct_length _ _ _ _ (ok_counted _ Hok)). destruct (workers s) as [|pc ws]; [simpl in *; lia|].
    rewrite (Hwait pc) by (by left). by left. }
  assert (n_of pc_slow (workers s) = 0%nat ∧ omap pc_tag (workers s) = []) as [Hs0 Ht0].
  { clear -Hwait. induction (workers s) as [|pc ws IH]; [done|]. destruct IH as [IH1 IH2]; [intros pc' H; apply Hwait; by right|].
    rewrite n_of_cons, (Hwait pc) by (by left). simpl. done. }
  assert (wq s = []) as Hq.
  { specialize (Hmw Hin). unfold must_wait in Hmw. destruct (counted_range _ _ _ _ (ok_counted _ Hok)) as (_ & _ & Hn & _). rewrite threshold_eq in Hmw by done.
    pose proof (ct_slow _ _ _ _ (ok_counted _ Hok)) as Hcs. rewrite Hs0 in Hcs. pose proof (ok_size _ Hok Hex).
    assert (1 ≤ (nthreads s + 1) / 2) by (apply Z.div_le_lower_bound; lia).
    destruct (wq s) as [|[?| |] [|? ?]]; try done. apply Z.leb_le in Hmw. simpl in Hcs. lia. }
  split_and!; [done|done|]. destruct (slow_io_pending_wq s) eqn:E; [done|]. exfalso.
  assert (QSlow ∈ wq s) as H by (apply (ok_pending _ Hok); by rewrite E). rewrite Hq in H. by apply elem_of_nil in H.
Qed.

(** At rest no request is in use. *)
Lemma rest_tagged s : pool_ok s → at_rest s → exiting s = false → tagged s = [].
Proof.
  intros Hok Hrest Hex. destruct (rest_queue s Hok Hrest Hex) as (Ht & Hq & Hp).
  assert (cancelling s = None) as Hc.
  { pose proof (Hrest ICancelEnd eq_refl) as H. cbn in H. apply bool_decide_eq_false in H. destruct (cancelling s); [|done]. by destruct H; eexists. }
  assert (loop_free s = true) as Hfree by (unfold loop_free; by rewrite Hc, Hex).
  assert (done_wq s = []) as Hd.
  { pose proof (Hrest IDoneNext eq_refl) as H. cbn in H. rewrite Hfree in H. simpl in H. by apply negb_false_iff, bool_decide_eq_true in H. }
  assert (loop_wq s = []) as Hl.
  { pose proof (Hrest IDoneBegin eq_refl) as H. cbn in H. rewrite Hfree, bool_decide_true, andb_true_r in H by done. simpl in H.
    destruct (loop_wq s) eqn:E; [done|]. rewrite (ok_async _ Hok) in H by (by rewrite E). done. }
  unfold tagged. by rewrite Hq, Hp, Ht, Hc, Hl, Hd.
Qed.

(** ** Theorems *)

Lemma in_use_status s w : pool_ok s → w ∈ (tagged s).*1 → ∃ st, status w (x_hist s) = Some st ∧ st ≠ SFree.
Proof.
  intros Hok Hin. apply list_elem_of_fmap in Hin as ([w' tg] & -> & Hin). destruct (pl_tag _ _ _ _ (ok_placed _ Hok) _ _ Hin) as (r & _ & Htok).
  destruct tg; simpl in *; naive_solver.
Qed.

Lemma all_status s w : pool_ok s → is_Some (status w (x_hist s)).
Proof.
  intros Hok. destruct (decide (w ∈ (tagged s).*1)) as [Hin|Hin].
  - destruct (in_use_status _ _ Hok Hin) as (st & -> & _). by eexists.
  - destruct (pl_free _ _ _ _ (ok_placed _ Hok) w Hin) as [-> _]. by eexists.
Qed.

Lemma active_exact s : pool_ok s →
  ∃ l, NoDup l ∧ (∀ w, w ∈ l ↔ done <$> reqs s !! w = Some DoneQueue ∧ status w (x_hist s) ≠ Some SFree) ∧ active_reqs s = Z.of_nat (length l).
Proof.
  intros Hok. exists (filter (counts_req (reqs s)) (tagged s)).*1. split_and!.
  - eapply sublist_NoDup; [apply (pl_nodup _ _ _ _ (ok_placed _ Hok))|]. apply fmap_sublist, sublist_filter.
  - intros w. split.
    + intros Hin. apply list_elem_of_fmap in Hin as ([w' tg] & -> & Hin). apply list_elem_of_filter in Hin as [Hc Hin]. split; [done|]. cbn [fst].
      destruct (in_use_status s w' Hok) as (st & -> & Hne); [by apply list_elem_of_fmap; exists (w', tg)|]. congruence.
    + intros [Hd Hst]. destruct (decide (w ∈ (tagged s).*1)) as [Hin|Hin]; [|by destruct (pl_free _ _ _ _ (ok_placed _ Hok) w Hin)].
      apply list_elem_of_fmap in Hin as ([w' tg] & -> & Hin). apply list_elem_of_fmap. exists (w', tg). split; [done|]. by apply list_elem_of_filter.
  - rewrite length_fmap. apply (pl_active _ _ _ _ (ok_placed _ Hok)).
Qed.

(** C22. Whatever is submitted and cancelled, however the threads of the pool are interleaved with
    the loop, whichever of them a signal wakes and whenever one wakes for no reason, the pool is
    defined.  Every request is run once and then reported once with 0, or cancelled and reported
    once with [UV_ECANCELED], never run; the loop's count is that of the work not yet reported; and
    slow work runs in as many threads as are counted, half of them, rounded up, at most. *)
Theorem pool_exact val mem acts :
  ∃ s, pool_run acts (init_threads val mem) = Some (tt, s) ∧
    (∀ w, is_Some (status w (x_hist s))) ∧
    (∃ l, NoDup l ∧ (∀ w, w ∈ l ↔ done <$> reqs s !! w = Some DoneQueue ∧ status w (x_hist s) ≠ Some SFree) ∧ active_reqs s = Z.of_nat (length l)) ∧
    slow_io_work_running s = Z.of_nat (slow_threads s) ∧ slow_io_work_running s ≤ (nthreads s + 1) / 2.
Proof.
  destruct (pool_run_ok acts _ (init_ok val mem)) as (s & Hrun & Hok). exists s.
  split_and!; [done|intros w; by apply all_status|by apply active_exact|apply (ct_slow _ _ _ _ (ok_counted _ Hok))|apply Hok].
Qed.

(** C23. The pool never stalls.  From any point of any run, what the threads and the loop can do by
    themselves ends, in whatever order they do it; and when nothing is left that they can do, every
    request has been reported and the loop counts none, or, if [cleanup] waits for the threads, all of
    them have ended. *)
Theorem pool_settles val mem acts s more s' :
  pool_run acts (init_threads val mem) = Some (tt, s) → pool_internal more s = Some s' →
  (length more ≤ measure s)%nat ∧
  (at_rest s' → if exiting s' then Forall (.= PExited) (workers s') else active_reqs s' = 0 ∧ ∀ w, status w (x_hist s') = Some SFree).
Proof.
  intros Hrun Hmore. destruct (pool_run_ok acts _ (init_ok val mem)) as (s0 & Hrun0 & Hok). assert (s0 = s) as -> by congruence.
  destruct (pool_internal_ok more s s' Hok Hmore) as [Hok' Hlen]. split; [lia|]. intros Hrest.
  destruct (exiting s') eqn:Hex; [by apply rest_exited|]. pose proof (rest_tagged s' Hok' Hrest Hex) as Hr. pose proof (ok_placed _ Hok') as Hpl. rewrite Hr in Hpl. destruct Hpl. split; [done|]. intros w. by apply pl_free0, not_elem_of_nil.
Qed.

(** ** Samples *)

(** Two threads: slow work runs in one of them while the other takes fast work; a request that
    waits is cancelled. *)
Definition sample_pool : pool_t := init_threads (Some 2) true.
Definition sample_work : list pact :=
  [IWorker 0 0; IWorker 1 0; ASubmit 1 UV__WORK_SLOW_IO 0; ASubmit 2 UV__WORK_SLOW_IO 1; AQueueWork 3 true 1; AQueueWork 4 true 1;
   IWorker 0 1; IWorker 1 0; ACancel UV_FS 2; ACancel UV_FS 1; ICancelEnd].
Definition sample_rest : list pact :=
  [IWorker 1 0; IWorker 1 0; IWorker 1 0; IWorker 1 0; IWorker 1 0; IWorker 1 0; IWorker 0 0; IDoneBegin; IDoneNext; IDoneNext; IDoneNext;
   IWorker 0 0; IWorker 0 0; IDoneBegin; IDoneNext].

Lemma sample_pool_runs :
  match pool_run (sample_work ++ sample_rest) sample_pool with
  | Some (_, s) => x_hist s = [Submitted 1; Submitted 2; Submitted 3; Submitted 4; Cancelled 2; Executed 3; Executed 4; Executed 1;
                               Reported 2 UV_ECANCELED; Reported 3 0; Reported 4 0; Reported 1 0] ∧ workers s = [PWaiting; PWaiting]
  | None => False
  end.
Proof. vm_compute. done. Qed.

(** A request that was cancelled is cancelled again in its own callback: it is removed once more
    through links that are no longer those of a queue. *)
Lemma cancel_in_callback_undefined :
  match pool_run [ASubmit 1 UV__WORK_CPU 0; ACancel UV_WORK 1; ICancelEnd; IDoneBegin; IDoneNext] sample_pool with
  | Some (_, s) => x_hist s = [Submitted 1; Cancelled 1; Reported 1 UV_ECANCELED] ∧ uv_cancel UV_WORK 1 s = None
  | None => False
  end.
Proof. vm_compute. done. Qed.

Lemma sample_settles_run : ∃ s s', pool_run sample_work sample_pool = Some (tt, s) ∧ pool_internal sample_rest s = Some s' ∧ exiting s' = false ∧ at_rest s'.
Proof.
  eexists _, _. split; [vm_compute; reflexivity|]. split; [vm_compute; reflexivity|]. split; [done|].
  intros a Ha. destruct a as [| | | | | |t pick| | |]; try done. by destruct t as [|[|t]].
Qed.

Lemma pool_settles_witness :
  ∃ s s', pool_run sample_work sample_pool = Some (tt, s) ∧ pool_internal sample_rest s = Some s' ∧ (15 ≤ measure s)%nat ∧ ∀ w, status w (x_hist s') = Some SFree.
Proof.
  destruct sample_settles_run as (s & s' & Hrun & Hmore & Hex & Hrest).
  destruct (pool_settles (Some 2) true sample_work s sample_rest s' Hrun Hmore) as [Hlen Hdone].
  specialize (Hdone Hrest). rewrite Hex in Hdone. destruct Hdone as [_ Hall]. exists s, s'. exact (conj Hrun (conj Hmore (conj Hlen Hall))).
Defined.
