(* ===== verification/UvIo.v ===== *)
(** Watching descriptors: deps/libuv src/unix/core.c and src/unix/linux-core.c.

    A watcher says which events of a descriptor it wants; the loop keeps the watchers in an array by
    descriptor, tells epoll about the changes before it waits, and calls the watchers for the events that
    epoll reports.  The callbacks may start, stop and close any watcher in between, so that events
    already reported may be stale.  [uv__io_poll] is cut at [epoll_pwait] and at each callback; the
    calls of a callback are steps of the program. *)
From stdpp Require Import base numbers list option gmap.
From Stdlib Require Import ZArith Lia.
From S2P Require Import Prelude.

Local Open Scope Z_scope.
Local Open Scope c_scope.

(** ** Data *)

Definition POLLIN : Z := 1.
Definition POLLPRI : Z := 2.
Definition POLLOUT : Z := 4.
Definition POLLERR : Z := 8.
Definition POLLHUP : Z := 16.
Definition POLLRDHUP : Z := 8192.
Definition IO_EVENTS : Z := Z.lor (Z.lor POLLIN POLLOUT) (Z.lor POLLRDHUP POLLPRI).
Definition EEXIST : Z := 17.
Definition ENOENT : Z := 2.
Definition INT_MAX : Z := 2147483647.
Definition MAX_EVENTS : Z := 1024.

(** Descriptors are far below what [next_power_of_two] can round up. *)
Definition FD_LIMIT : Z := 1073741824.

Record uv__io_t := { io_fd : Z; io_events : Z; io_pevents : Z }.

(** The entries of [loop->watchers]: NULL, a watcher, and behind the watchers the events of the
    running poll and their number. *)
Inductive went := ENull | EIo (w : nat) | EEvents | ECount (n : Z).
#[export] Instance went_eq : EqDecision went.
Proof. solve_decision. Defined.

(** Outside of [uv__io_poll], in [epoll_pwait], before an event, after the last one. *)
Inductive pphase := PhIdle | PhWait | PhEvents (i : nat) | PhEnd.
#[export] Instance pphase_eq : EqDecision pphase.
Proof. solve_decision. Defined.

(** What happens: epoll reports events, a watcher is called with its wishes and the events, the
    signal watcher is called, a watcher is closed, fed, called because it was fed. *)
Inductive ioev :=
  | Polled (l : list (Z * Z))
  | Called (w : nat) (fd pev ev : Z)
  | CalledSignals
  | Closed (w : nat) (fd : Z)
  | Fed (w : nat)
  | CalledFed (w : nat).

(** [ios]: the watchers in use; [interest]: what epoll watches; [batch]: the events of the running
    poll; [pq]: the local queue of [uv__run_pending]; [in_cb]: a callback is running; the locals
    of [uv__io_poll]. *)
Record io_loop := {
  watchers : list went;
  nwatchers : Z;
  nfds : Z;
  watcher_queue : list nat;
  pending_queue : list nat;
  pq : list nat;
  ios : gmap nat uv__io_t;
  interest : gmap Z Z;
  batch : list (Z * Z);
  phase : pphase;
  in_cb : bool;
  have_signals : bool;
  nevents : Z;
  count : Z;
  timeout : Z;
  real_timeout : Z;
  base : Z;
  time : Z;
  x_hist : list ioev;
}.

Definition l_watchers (x : list went) (s : io_loop) : io_loop :=
  {| watchers := x; nwatchers := nwatchers s; nfds := nfds s; watcher_queue := watcher_queue s; pending_queue :=
     pending_queue s; pq := pq s; ios := ios s; interest := interest s; batch := batch s; phase := phase s; in_cb :=
     in_cb s; have_signals := have_signals s; nevents := nevents s; count := count s; timeout := timeout s;
     real_timeout := real_timeout s; base := base s; time := time s; x_hist := x_hist s |}.
Definition l_nwatchers (x : Z) (s : io_loop) : io_loop :=
  {| watchers := watchers s; nwatchers := x; nfds := nfds s; watcher_queue := watcher_queue s; pending_queue :=
     pending_queue s; pq := pq s; ios := ios s; interest := interest s; batch := batch s; phase := phase s; in_cb :=
     in_cb s; have_signals := have_signals s; nevents := nevents s; count := count s; timeout := timeout s;
     real_timeout := real_timeout s; base := base s; time := time s; x_hist := x_hist s |}.
Definition l_nfds (x : Z) (s : io_loop) : io_loop :=
  {| watchers := watchers s; nwatchers := nwatchers s; nfds := x; watcher_queue := watcher_queue s; pending_queue :=
     pending_queue s; pq := pq s; ios := ios s; interest := interest s; batch := batch s; phase := phase s; in_cb :=
     in_cb s; have_signals := have_signals s; nevents := nevents s; count := count s; timeout := timeout s;
     real_timeout := real_timeout s; base := base s; time := time s; x_hist := x_hist s |}.
Definition l_wqueue (x : list nat) (s : io_loop) : io_loop :=
  {| watchers := watchers s; nwatchers := nwatchers s; nfds := nfds s; watcher_queue := x; pending_queue :=
     pending_queue s; pq := pq s; ios := ios s; interest := interest s; batch := batch s; phase := phase s; in_cb :=
     in_cb s; have_signals := have_signals s; nevents := nevents s; count := count s; timeout := timeout s;
     real_timeout := real_timeout s; base := base s; time := time s; x_hist := x_hist s |}.
Definition l_pqueue (x : list nat) (s : io_loop) : io_loop :=
  {| watchers := watchers s; nwatchers := nwatchers s; nfds := nfds s; watcher_queue := watcher_queue s; pending_queue
     := x; pq := pq s; ios := ios s; interest := interest s; batch := batch s; phase := phase s; in_cb := in_cb s;
     have_signals := have_signals s; nevents := nevents s; count := count s; timeout := timeout s; real_timeout :=
     real_timeout s; base := base s; time := time s; x_hist := x_hist s |}.
Definition l_pq (x : list nat) (s : io_loop) : io_loop :=
  {| watchers := watchers s; nwatchers := nwatchers s; nfds := nfds s; watcher_queue := watcher_queue s; pending_queue
     := pending_queue s; pq := x; ios := ios s; interest := interest s; batch := batch s; phase := phase s; in_cb :=
     in_cb s; have_signals := have_signals s; nevents := nevents s; count := count s; timeout := timeout s;
     real_timeout := real_timeout s; base := base s; time := time s; x_hist := x_hist s |}.
Definition l_ios (x : gmap nat uv__io_t) (s : io_loop) : io_loop :=
  {| watchers := watchers s; nwatchers := nwatchers s; nfds := nfds s; watcher_queue := watcher_queue s; pending_queue
     := pending_queue s; pq := pq s; ios := x; interest := interest s; batch := batch s; phase := phase s; in_cb :=
     in_cb s; have_signals := have_signals s; nevents := nevents s; count := count s; timeout := timeout s;
     real_timeout := real_timeout s; base := base s; time := time s; x_hist := x_hist s |}.
Definition l_interest (x : gmap Z Z) (s : io_loop) : io_loop :=
  {| watchers := watchers s; nwatchers := nwatchers s; nfds := nfds s; watcher_queue := watcher_queue s; pending_queue
     := pending_queue s; pq := pq s; ios := ios s; interest := x; batch := batch s; phase := phase s; in_cb := in_cb
     s; have_signals := have_signals s; nevents := nevents s; count := count s; timeout := timeout s; real_timeout :=
     real_timeout s; base := base s; time := time s; x_hist := x_hist s |}.
Definition l_batch (x : list (Z * Z)) (s : io_loop) : io_loop :=
  {| watchers := watchers s; nwatchers := nwatchers s; nfds := nfds s; watcher_queue := watcher_queue s; pending_queue
     := pending_queue s; pq := pq s; ios := ios s; interest := interest s; batch := x; phase := phase s; in_cb :=
     in_cb s; have_signals := have_signals s; nevents := nevents s; count := count s; timeout := timeout s;
     real_timeout := real_timeout s; base := base s; time := time s; x_hist := x_hist s |}.
Definition l_phase (x : pphase) (s : io_loop) : io_loop :=
  {| watchers := watchers s; nwatchers := nwatchers s; nfds := nfds s; watcher_queue := watcher_queue s; pending_queue
     := pending_queue s; pq := pq s; ios := ios s; interest := interest s; batch := batch s; phase := x; in_cb :=
     in_cb s; have_signals := have_signals s; nevents := nevents s; count := count s; timeout := timeout s;
     real_timeout := real_timeout s; base := base s; time := time s; x_hist := x_hist s |}.
Definition l_in_cb (x : bool) (s : io_loop) : io_loop :=
  {| watchers := watchers s; nwatchers := nwatchers s; nfds := nfds s; watcher_queue := watcher_queue s; pending_queue
     := pending_queue s; pq := pq s; ios := ios s; interest := interest s; batch := batch s; phase := phase s; in_cb
     := x; have_signals := have_signals s; nevents := nevents s; count := count s; timeout := timeout s; real_timeout
     := real_timeout s; base := base s; time := time s; x_hist := x_hist s |}.
Definition l_signals (x : bool) (s : io_loop) : io_loop :=
  {| watchers := watchers s; nwatchers := nwatchers s; nfds := nfds s; watcher_queue := watcher_queue s; pending_queue
     := pending_queue s; pq := pq s; ios := ios s; interest := interest s; batch := batch s; phase := phase s; in_cb
     := in_cb s; have_signals := x; nevents := nevents s; count := count s; timeout := timeout s; real_timeout :=
     real_timeout s; base := base s; time := time s; x_hist := x_hist s |}.
Definition l_nevents (x : Z) (s : io_loop) : io_loop :=
  {| watchers := watchers s; nwatchers := nwatchers s; nfds := nfds s; watcher_queue := watcher_queue s; pending_queue
     := pending_queue s; pq := pq s; ios := ios s; interest := interest s; batch := batch s; phase := phase s; in_cb
     := in_cb s; have_signals := have_signals s; nevents := x; count := count s; timeout := timeout s; real_timeout :=
     real_timeout s; base := base s; time := time s; x_hist := x_hist s |}.
Definition l_count (x : Z) (s : io_loop) : io_loop :=
  {| watchers := watchers s; nwatchers := nwatchers s; nfds := nfds s; watcher_queue := watcher_queue s; pending_queue
     := pending_queue s; pq := pq s; ios := ios s; interest := interest s; batch := batch s; phase := phase s; in_cb
     := in_cb s; have_signals := have_signals s; nevents := nevents s; count := x; timeout := timeout s; real_timeout
     := real_timeout s; base := base s; time := time s; x_hist := x_hist s |}.
Definition l_timeout (x : Z) (s : io_loop) : io_loop :=
  {| watchers := watchers s; nwatchers := nwatchers s; nfds := nfds s; watcher_queue := watcher_queue s; pending_queue
     := pending_queue s; pq := pq s; ios := ios s; interest := interest s; batch := batch s; phase := phase s; in_cb
     := in_cb s; have_signals := have_signals s; nevents := nevents s; count := count s; timeout := x; real_timeout :=
     real_timeout s; base := base s; time := time s; x_hist := x_hist s |}.
Definition l_real (x : Z) (s : io_loop) : io_loop :=
  {| watchers := watchers s; nwatchers := nwatchers s; nfds := nfds s; watcher_queue := watcher_queue s; pending_queue
     := pending_queue s; pq := pq s; ios := ios s; interest := interest s; batch := batch s; phase := phase s; in_cb
     := in_cb s; have_signals := have_signals s; nevents := nevents s; count := count s; timeout := timeout s;
     real_timeout := x; base := base s; time := time s; x_hist := x_hist s |}.
Definition l_base (x : Z) (s : io_loop) : io_loop :=
  {| watchers := watchers s; nwatchers := nwatchers s; nfds := nfds s; watcher_queue := watcher_queue s; pending_queue
     := pending_queue s; pq := pq s; ios := ios s; interest := interest s; batch := batch s; phase := phase s; in_cb
     := in_cb s; have_signals := have_signals s; nevents := nevents s; count := count s; timeout := timeout s;
     real_timeout := real_timeout s; base := x; time := time s; x_hist := x_hist s |}.
Definition l_time (x : Z) (s : io_loop) : io_loop :=
  {| watchers := watchers s; nwatchers := nwatchers s; nfds := nfds s; watcher_queue := watcher_queue s; pending_queue
     := pending_queue s; pq := pq s; ios := ios s; interest := interest s; batch := batch s; phase := phase s; in_cb
     := in_cb s; have_signals := have_signals s; nevents := nevents s; count := count s; timeout := timeout s;
     real_timeout := real_timeout s; base := base s; time := x; x_hist := x_hist s |}.
Definition l_hist (x : list ioev) (s : io_loop) : io_loop :=
  {| watchers := watchers s; nwatchers := nwatchers s; nfds := nfds s; watcher_queue := watcher_queue s; pending_queue
     := pending_queue s; pq := pq s; ios := ios s; interest := interest s; batch := batch s; phase := phase s; in_cb
     := in_cb s; have_signals := have_signals s; nevents := nevents s; count := count s; timeout := timeout s;
     real_timeout := real_timeout s; base := base s; time := time s; x_hist := x |}.

Definition l_io (w : nat) (io : uv__io_t) (s : io_loop) : io_loop := l_ios (<[w := io]> (ios s)) s.
Definition l_event (e : ioev) (s : io_loop) : io_loop := l_hist (x_hist s ++ [e]) s.
Definition l_entry (i : Z) (e : went) (s : io_loop) : io_loop := l_watchers (<[Z.to_nat i := e]> (watchers s)) s.
Definition entry (s : io_loop) (i : Z) : option went := watchers s !! Z.to_nat i.

Definition set_pevents (p : Z) (io : uv__io_t) : uv__io_t := {| io_fd := io_fd io; io_events := io_events io; io_pevents := p |}.
Definition set_events (e : Z) (io : uv__io_t) : uv__io_t := {| io_fd := io_fd io; io_events := e; io_pevents := io_pevents io |}.

(** The watcher of the loop for signals. *)
Definition signal_io : nat := 0.

(** ** Watchers *)

Definition next_power_of_two (val : Z) : Z :=
  let val := u32 (val - 1) in
  let val := Z.lor val (Z.shiftr val 1) in
  let val := Z.lor val (Z.shiftr val 2) in
  let val := Z.lor val (Z.shiftr val 4) in
  let val := Z.lor val (Z.shiftr val 8) in
  let val := Z.lor val (Z.shiftr val 16) in
  u32 (val + 1).

(** The array grows; what stands behind the watchers moves to its new end. *)
Definition maybe_resize (len : Z) : M io_loop unit :=
  s ← get;
  if len <=? nwatchers s then mret tt
  else
    let fake_watcher_list := if decide (watchers s = []) then ENull else default ENull (entry s (nwatchers s)) in
    let fake_watcher_count := if decide (watchers s = []) then ENull else default ENull (entry s (nwatchers s + 1)) in
    let n := u32 (next_power_of_two (u32 (len + 2)) - 2) in
    modify (l_watchers (take (Z.to_nat (nwatchers s)) (watchers s) ++ replicate (Z.to_nat (n - nwatchers s)) ENull ++ [fake_watcher_list; fake_watcher_count]));;
    modify (l_nwatchers n).

Definition uv__io_init (w : nat) (fd : Z) : M io_loop unit :=
  TN_ASSERT (-1 <=? fd);;
  modify (l_io w {| io_fd := fd; io_events := 0; io_pevents := 0 |}).

Definition events_ok (ev : Z) : bool := (Z.ldiff ev IO_EVENTS =? 0) && negb (ev =? 0).

Definition uv__io_start (w : nat) (ev : Z) : M io_loop unit :=
  s ← get;
  io ← lift (ios s !! w);
  TN_ASSERT (events_ok ev);;
  TN_ASSERT ((0 <=? io_fd io) && (io_fd io <? INT_MAX));;
  let io := set_pevents (Z.lor (io_pevents io) ev) io in
  modify (l_io w io);;
  maybe_resize (io_fd io + 1);;
  if io_events io =? io_pevents io then mret tt
  else
    modify (λ s, if decide (w ∈ watcher_queue s) then s else l_wqueue (watcher_queue s ++ [w]) s);;
    s ← get;
    e ← lift (entry s (io_fd io));
    if decide (e = ENull) then
      modify (l_entry (io_fd io) (EIo w));;
      modify (l_nfds (u32 (nfds s + 1)))
    else mret tt.

Definition uv__io_stop (w : nat) (ev : Z) : M io_loop unit :=
  s ← get;
  io ← lift (ios s !! w);
  TN_ASSERT (events_ok ev);;
  if io_fd io =? -1 then mret tt
  else
    TN_ASSERT (0 <=? io_fd io);;
    if nwatchers s <=? io_fd io then mret tt
    else
      let io := set_pevents (Z.ldiff (io_pevents io) ev) io in
      modify (l_io w io);;
      if io_pevents io =? 0 then
        modify (l_wqueue (filter (.≠ w) (watcher_queue s)));;
        e ← lift (entry s (io_fd io));
        if decide (e = ENull) then mret tt
        else
          TN_ASSERT (bool_decide (e = EIo w));;
          TN_ASSERT (0 <? nfds s);;
          modify (l_entry (io_fd io) ENull);;
          modify (l_nfds (nfds s - 1));;
          modify (l_io w (set_events 0 io))
      else if decide (w ∈ watcher_queue s) then mret tt
      else modify (l_wqueue (watcher_queue s ++ [w])).

(** [epoll_ctl]: the error number, or 0. *)
Inductive epoll_op := EPOLL_CTL_ADD | EPOLL_CTL_MOD | EPOLL_CTL_DEL.
Definition epoll_ctl (op : epoll_op) (fd ev : Z) : M io_loop Z :=
  s ← get;
  match op, interest s !! fd with
  | EPOLL_CTL_ADD, None | EPOLL_CTL_MOD, Some _ => modify (l_interest (<[fd := ev]> (interest s)));; mret 0
  | EPOLL_CTL_ADD, Some _ => mret EEXIST
  | EPOLL_CTL_DEL, Some _ => modify (l_interest (delete fd (interest s)));; mret 0
  | _, None => mret ENOENT
  end.

Definition invalidate_event (fd : Z) (pe : Z * Z) : Z * Z := if pe.1 =? fd then (-1, pe.2) else pe.

Definition uv__platform_invalidate_fd (fd : Z) : M io_loop unit :=
  s ← get;
  TN_ASSERT (negb (bool_decide (watchers s = [])));;
  TN_ASSERT (0 <=? fd);;
  events ← lift (entry s (nwatchers s));
  n ← lift (entry s (nwatchers s + 1));
  (match events, n with
   | EEvents, ECount n => modify (l_batch ((invalidate_event fd <$> take (Z.to_nat n) (batch s)) ++ drop (Z.to_nat n) (batch s)))
   | ENull, _ => mret tt
   | _, _ => undef
   end);;
  epoll_ctl EPOLL_CTL_DEL fd 0;;
  mret tt.

(** The watcher is not used again before [uv__io_init]. *)
Definition uv__io_close (w : nat) : M io_loop unit :=
  uv__io_stop w IO_EVENTS;;
  modify (λ s, l_pqueue (filter (.≠ w) (pending_queue s)) (l_pq (filter (.≠ w) (pq s)) s));;
  s ← get;
  io ← lift (ios s !! w);
  (if io_fd io =? -1 then mret tt else uv__platform_invalidate_fd (io_fd io));;
  modify (λ s, l_ios (delete w (ios s)) s);;
  modify (l_event (Closed w (io_fd io))).

Definition uv__io_feed (w : nat) : M io_loop unit :=
  s ← get;
  if decide (w ∈ pending_queue s ++ pq s) then mret tt
  else modify (l_pqueue (pending_queue s ++ [w]));; modify (l_event (Fed w)).

Definition uv__fd_exists (s : io_loop) (fd : Z) : bool :=
  (fd <? nwatchers s) && match entry s fd with Some ENull | None => false | Some _ => true end.

(** [uv__run_pending]: the queue is moved, then the watchers are called one after the other. *)
Definition run_pending_begin : M io_loop unit :=
  s ← get;
  modify (l_pq (pending_queue s));;
  modify (l_pqueue []).
Definition run_pending_next : M io_loop unit :=
  s ← get;
  match pq s with
  | [] => mret tt
  | w :: q => modify (l_pq q);; modify (l_event (CalledFed w))
  end.

(** ** Polling *)

(** A round of the loop that tells epoll of the changes. *)
Definition register_one (w : nat) : M io_loop unit :=
  s ← get;
  io ← lift (ios s !! w);
  TN_ASSERT (negb (io_pevents io =? 0));;
  TN_ASSERT ((0 <=? io_fd io) && (io_fd io <? nwatchers s));;
  err ← epoll_ctl (if io_events io =? 0 then EPOLL_CTL_ADD else EPOLL_CTL_MOD) (io_fd io) (io_pevents io);
  (if err =? 0 then mret tt
   else
     TN_ASSERT (err =? EEXIST);;
     TN_ASSERT (io_events io =? 0);;
     err ← epoll_ctl EPOLL_CTL_MOD (io_fd io) (io_pevents io);
     TN_ASSERT (err =? 0));;
  modify (l_io w (set_events (io_pevents io) io)).

Fixpoint register_all (q : list nat) : M io_loop unit :=
  match q with
  | [] => mret tt
  | w :: q => modify (l_wqueue q);; register_one w;; register_all q
  end.

Definition io_poll_begin (tmo : Z) : M io_loop unit :=
  s ← get;
  if nfds s =? 0 then TN_ASSERT (bool_decide (watcher_queue s = []))
  else
    register_all (watcher_queue s);;
    TN_ASSERT (-1 <=? tmo);;
    modify (l_base (time s));;
    modify (l_count 48);;
    modify (l_real tmo);;
    modify (l_timeout tmo);;
    modify (l_phase PhWait).

Definition to_int (x : Z) : Z := let y := u32 x in if y <? 2147483648 then y else y - 4294967296.

(** The label [update_timeout]. *)
Definition update_timeout : M io_loop unit :=
  s ← get;
  TN_ASSERT (0 <? timeout s);;
  let rt := to_int (u64 (real_timeout s - u64 (time s - base s))) in
  modify (l_real rt);;
  if rt <=? 0 then modify (l_phase PhIdle)
  else modify (l_timeout rt);; modify (l_phase PhWait).

(** What [epoll_pwait] answers, and the time after it. *)
Inductive wait_answer := TimedOut (t : Z) | Interrupted (t : Z) | Events (l : list (Z * Z)) (t : Z).

Definition io_poll_wait (a : wait_answer) : M io_loop unit :=
  match a with
  | TimedOut t =>
      modify (l_time t);;
      s ← get;
      TN_ASSERT (negb (timeout s =? -1));;
      if timeout s =? 0 then modify (l_phase PhIdle) else update_timeout
  | Interrupted t =>
      modify (l_time t);;
      s ← get;
      if timeout s =? -1 then mret tt
      else if timeout s =? 0 then modify (l_phase PhIdle)
      else update_timeout
  | Events l t =>
      modify (l_time t);;
      modify (l_signals false);;
      modify (l_nevents 0);;
      s ← get;
      TN_ASSERT (negb (bool_decide (watchers s = [])));;
      modify (l_entry (nwatchers s) EEvents);;
      modify (l_entry (nwatchers s + 1) (ECount (Z.of_nat (length l))));;
      modify (l_batch l);;
      modify (l_event (Polled l));;
      modify (l_phase (PhEvents 0))
  end.

(** The events a watcher is called with. *)
Definition wanted_events (pev ev : Z) : Z :=
  let ev := Z.land ev (Z.lor pev (Z.lor POLLERR POLLHUP)) in
  if (ev =? POLLERR) || (ev =? POLLHUP) then Z.lor ev (Z.land pev IO_EVENTS) else ev.

(** A round of the loop over the events. *)
Definition io_poll_next (i : nat) : M io_loop unit :=
  modify (l_in_cb false);;
  s ← get;
  if decide (i = length (batch s)) then
    modify (l_phase PhEnd);;
    if have_signals s then modify (l_in_cb true);; modify (l_event CalledSignals) else mret tt
  else
    modify (l_phase (PhEvents (S i)));;
    pe ← lift (batch s !! i);
    if pe.1 =? -1 then mret tt
    else
      TN_ASSERT ((0 <=? pe.1) && (pe.1 <? nwatchers s));;
      e ← lift (entry s pe.1);
      match e with
      | ENull => epoll_ctl EPOLL_CTL_DEL pe.1 0;; mret tt
      | EIo w =>
          io ← lift (ios s !! w);
          let ev := wanted_events (io_pevents io) pe.2 in
          modify (l_batch (<[i := (pe.1, ev)]> (batch s)));;
          if ev =? 0 then mret tt
          else
            modify (l_nevents (nevents s + 1));;
            if decide (w = signal_io) then modify (l_signals true)
            else modify (l_in_cb true);; modify (l_event (Called w pe.1 (io_pevents io) ev))
      | _ => undef
      end.

Definition io_poll_end : M io_loop unit :=
  modify (l_in_cb false);;
  s ← get;
  modify (l_entry (nwatchers s) ENull);;
  modify (l_entry (nwatchers s + 1) ENull);;
  if have_signals s then modify (l_phase PhIdle)
  else if negb (nevents s =? 0) then
    if Z.of_nat (length (batch s)) =? MAX_EVENTS then
      modify (l_count (count s - 1));;
      if negb (count s - 1 =? 0) then modify (l_timeout 0);; modify (l_phase PhWait)
      else modify (l_phase PhIdle)
    else modify (l_phase PhIdle)
  else if timeout s =? 0 then modify (l_phase PhIdle)
  else if timeout s =? -1 then modify (l_phase PhWait)
  else update_timeout.

(** ** Programs *)

Inductive ioact :=
  | AInit (w : nat) (fd : Z)
  | AOpen (w : nat) (fd : Z)
  | AStart (w : nat) (ev : Z)
  | AStop (w : nat) (ev : Z)
  | AClose (w : nat)
  | AFeed (w : nat)
  | APending
  | APendingNext
  | APoll (tmo : Z)
  | AWait (a : wait_answer)
  | ANext
  | AEnd.

(** The program runs outside of the poll and in callbacks. *)
Definition may_call (s : io_loop) : bool := bool_decide (phase s = PhIdle) || in_cb s.

(** A descriptor is watched by one watcher at a time. *)
Definition owns (s : io_loop) (w : nat) (fd : Z) : bool :=
  negb (uv__fd_exists s fd) || bool_decide (entry s fd = Some (EIo w)).

(** What epoll can report: for a descriptor it watches, events it was asked for, or errors. *)
Definition reportable (s : io_loop) (pe : Z * Z) : bool :=
  match interest s !! pe.1 with
  | Some want => (Z.ldiff pe.2 (Z.lor want (Z.lor POLLERR POLLHUP)) =? 0) && negb (pe.2 =? 0)
  | None => false
  end.

(** A watcher is initialised before it is used and has a descriptor before it is started; the
    loop itself watches a descriptor before the first one is closed; epoll does not time out when it
    is to wait without limit, and time does not run backwards. *)
Definition enabled (s : io_loop) (a : ioact) : bool :=
  match a with
  | AInit w fd => may_call s && bool_decide (ios s !! w = None) && (-1 <=? fd) && (fd <? FD_LIMIT)
  | AOpen w fd =>
      may_call s && (0 <=? fd) && (fd <? FD_LIMIT) &&
      match ios s !! w with Some io => io_fd io =? -1 | None => false end
  | AStart w ev =>
      may_call s && events_ok ev && match ios s !! w with Some io => (0 <=? io_fd io) && owns s w (io_fd io) | None => false end
  | AStop w ev =>
      may_call s && events_ok ev && match ios s !! w with Some io => (io_fd io =? -1) || owns s w (io_fd io) | None => false end
  | AClose w =>
      may_call s && match ios s !! w with Some io => (io_fd io =? -1) || owns s w (io_fd io) && (0 <? nwatchers s) | None => false end
  | AFeed w => may_call s && bool_decide (is_Some (ios s !! w))
  | APending => bool_decide (phase s = PhIdle) && bool_decide (pq s = [])
  | APendingNext => bool_decide (phase s = PhIdle) && negb (bool_decide (pq s = []))
  | APoll tmo => bool_decide (phase s = PhIdle) && bool_decide (pq s = []) && (-1 <=? tmo) && (tmo <=? INT_MAX)
  | AWait (TimedOut t) => bool_decide (phase s = PhWait) && negb (timeout s =? -1) && (time s <=? t)
  | AWait (Interrupted t) => bool_decide (phase s = PhWait) && (time s <=? t)
  | AWait (Events l t) =>
      bool_decide (phase s = PhWait) && (time s <=? t) && bool_decide (NoDup l.*1) && forallb (reportable s) l &&
      (Z.of_nat (length l) <=? MAX_EVENTS) && negb (bool_decide (l = []))
  | ANext => match phase s with PhEvents _ => true | _ => false end
  | AEnd => bool_decide (phase s = PhEnd)
  end.

Definition io_step (a : ioact) : M io_loop unit :=
  match a with
  | AInit w fd => uv__io_init w fd
  | AOpen w fd =>
      s ← get;
      io ← lift (ios s !! w);
      modify (l_io w {| io_fd := fd; io_events := io_events io; io_pevents := io_pevents io |})
  | AStart w ev => uv__io_start w ev
  | AStop w ev => uv__io_stop w ev
  | AClose w => uv__io_close w
  | AFeed w => uv__io_feed w
  | APending => run_pending_begin
  | APendingNext => run_pending_next
  | APoll tmo => io_poll_begin tmo
  | AWait a => io_poll_wait a
  | ANext => s ← get; match phase s with PhEvents i => io_poll_next i | _ => undef end
  | AEnd => io_poll_end
  end.

Fixpoint io_run (acts : list ioact) : M io_loop unit :=
  match acts with
  | [] => mret tt
  | a :: acts => s ← get; (if enabled s a then io_step a else mret tt);; io_run acts
  end.

Definition io_new : io_loop :=
  {| watchers := []; nwatchers := 0; nfds := 0; watcher_queue := []; pending_queue := []; pq := []; ios := ∅; interest := ∅; batch := [];
     phase := PhIdle; in_cb := false; have_signals := false; nevents := 0; count := 0; timeout := 0; real_timeout := 0; base := 0; time := 0;
     x_hist := [] |}.

(** ** Specification *)

(** The event of a descriptor that was reported last, and neither delivered nor made stale by a
    close since. *)
Definition next_fresh (fd : Z) (st : option Z) (e : ioev) : option Z :=
  match e with
  | Polled l => snd <$> List.find (λ pe, pe.1 =? fd) l
  | Closed _ fd' | Called _ fd' _ _ => if fd =? fd' then None else st
  | _ => st
  end.
Definition fresh (fd : Z) (hist : list ioev) : option Z := foldl (next_fresh fd) None hist.

(** Whether a watcher was fed and neither called nor closed since. *)
Definition next_fed (w : nat) (st : bool) (e : ioev) : bool :=
  match e with
  | Fed w' => if decide (w = w') then true else st
  | CalledFed w' | Closed w' _ => if decide (w = w') then false else st
  | _ => st
  end.
Definition fed (w : nat) (hist : list ioev) : bool := foldl (next_fed w) false hist.

Definition calls_right (hist : list ioev) : Prop :=
  (∀ pre w fd pev ev post, hist = pre ++ Called w fd pev ev :: post →
     pev ≠ 0 ∧ ev ≠ 0 ∧ Z.ldiff ev (Z.lor pev (Z.lor POLLERR POLLHUP)) = 0 ∧ ∃ e, fresh fd pre = Some e ∧ ev = wanted_events pev e) ∧
  (∀ pre w post, hist = pre ++ CalledFed w :: post → fed w pre = true).

(** What epoll watches is what the started watchers want. *)
Definition interest_exact (s : io_loop) : Prop :=
  ∀ w io, ios s !! w = Some io → io_pevents io ≠ 0 → interest s !! io_fd io = Some (io_pevents io).
