(* ===== verification/UvIoRun.v ===== *)
(** Runs of the watchers: the invariant of UvIo and what it gives. *)
From stdpp Require Import base numbers list option gmap.
From Stdlib Require Import ZArith Lia.
From S2P Require Import Prelude UvIo.

Local Open Scope Z_scope.
Local Open Scope c_scope.

(** ** The invariant *)

Definition is_io (e : went) : Prop := match e with EIo _ => True | _ => False end.
#[local] Instance is_io_dec e : Decision (is_io e).
Proof. destruct e; apply _. Defined.

Definition polling (p : pphase) : bool := match p with PhEvents _ | PhEnd => true | _ => false end.
Definition next_event (p : pphase) (n : nat) : nat := match p with PhEvents i => i | _ => n end.

(** The array and its owners. *)
Record array_ok (ws : list went) (n nf : Z) (m : gmap nat uv__io_t) : Prop := {
  ar_len : ws = [] ∧ n = 0 ∨ Z.of_nat (length ws) = n + 2 ∧ 0 < n ≤ 2147483648;
  ar_entry : ∀ fd, 0 ≤ fd < n → ws !! Z.to_nat fd = Some ENull ∨ ∃ w, ws !! Z.to_nat fd = Some (EIo w);
  ar_own : ∀ fd w, 0 ≤ fd < n → ws !! Z.to_nat fd = Some (EIo w) ↔ ∃ io, m !! w = Some io ∧ io_fd io = fd ∧ io_pevents io ≠ 0;
  ar_nfds : nf = Z.of_nat (length (filter is_io ws));
}.

(** The watchers, what epoll watches and what it is still to be told. *)
Record wishes_ok (n : Z) (m : gmap nat uv__io_t) (it : gmap Z Z) (q : list nat) : Prop := {
  wi_io : ∀ w io, m !! w = Some io → -1 ≤ io_fd io < FD_LIMIT ∧ (io_pevents io ≠ 0 → 0 ≤ io_fd io < n) ∧ Z.ldiff (io_pevents io) IO_EVENTS = 0;
  wi_events : ∀ w io, m !! w = Some io → io_events io ≠ 0 → io_pevents io ≠ 0 ∧ it !! io_fd io = Some (io_events io);
  wi_nodup : NoDup q;
  wi_queued : ∀ w, w ∈ q → ∃ io, m !! w = Some io ∧ io_pevents io ≠ 0;
  wi_dirty : ∀ w io, m !! w = Some io → io_pevents io ≠ 0 → io_events io ≠ io_pevents io → w ∈ q;
  wi_interest : ∀ fd e, it !! fd = Some e → 0 ≤ fd < n;
}.

(** The events of the running poll, from the next one on. *)
Record batch_ok (n : Z) (b : list (Z * Z)) (i : nat) (h : list ioev) : Prop := {
  ba_next : (i ≤ length b)%nat;
  ba_range : ∀ j pe, b !! j = Some pe → pe.1 = -1 ∨ 0 ≤ pe.1 < n;
  ba_once : ∀ j k pe pe', b !! j = Some pe → b !! k = Some pe' → pe.1 = pe'.1 → pe.1 ≠ -1 → j = k;
  ba_fresh : ∀ j pe, (i ≤ j)%nat → b !! j = Some pe → pe.1 ≠ -1 → fresh pe.1 h = Some pe.2;
}.

Record io_ok (s : io_loop) : Prop := {
  ok_array : array_ok (watchers s) (nwatchers s) (nfds s) (ios s);
  ok_wishes : wishes_ok (nwatchers s) (ios s) (interest s) (watcher_queue s);
  ok_fake : watchers s ≠ [] → entry s (nwatchers s) = Some (if polling (phase s) then EEvents else ENull) ∧
    entry s (nwatchers s + 1) = Some (if polling (phase s) then ECount (Z.of_nat (length (batch s))) else ENull);
  ok_started : phase s ≠ PhIdle → watchers s ≠ [];
  ok_batch : polling (phase s) = true → batch_ok (nwatchers s) (batch s) (next_event (phase s) (length (batch s))) (x_hist s);
  ok_cb : in_cb s = true → polling (phase s) = true ∧ 0 < nevents s;
  ok_nevents : 0 ≤ nevents s ∧ (have_signals s = true → 0 < nevents s);
  ok_wait : phase s = PhWait ∨ polling (phase s) = true ∧ nevents s = 0 → timeout s = 0 ∨ watcher_queue s = [];
  ok_timeout : phase s ≠ PhIdle → -1 ≤ timeout s;
  ok_pending : NoDup (pending_queue s ++ pq s) ∧ ∀ w, w ∈ pending_queue s ++ pq s ↔ fed w (x_hist s) = true;
  ok_hist : calls_right (x_hist s);
}.

(** ** Bits *)

Lemma lor_ge a b : 0 ≤ b → a ≤ Z.lor a b.
Proof.
  intros Hb. assert (Z.land a (Z.ldiff b a) = 0) as Hl.
  { apply Z.bits_inj'. intros k Hk. rewrite Z.land_spec, Z.ldiff_spec, Z.bits_0 by done. by destruct (Z.testbit a k), (Z.testbit b k). }
  assert (Z.lor a b = a + Z.ldiff b a) as ->.
  { rewrite Z.add_nocarry_lxor, Z.lxor_lor by done. apply Z.bits_inj'. intros k Hk. rewrite !Z.lor_spec, Z.ldiff_spec by done. by destruct (Z.testbit a k), (Z.testbit b k). }
  assert (0 ≤ Z.ldiff b a) by (apply Z.ldiff_nonneg; by left). lia.
Qed.

Lemma smear_bounds x k : 0 ≤ k → 0 ≤ x < 2 ^ 31 → x ≤ Z.lor x (Z.shiftr x k) < 2 ^ 31.
Proof.
  intros Hk Hx. assert (0 ≤ Z.shiftr x k) as Hs by (apply Z.shiftr_nonneg; lia). split; [by apply lor_ge|].
  apply lor_lt_pow2; [lia|done|lia|]. split; [lia|]. rewrite Z.shiftr_div_pow2 by done. apply Z.div_lt_upper_bound; [lia|]. nia.
Qed.

Lemma next_power_of_two_ge n : 1 ≤ n ≤ 2 ^ 31 → n ≤ next_power_of_two n ≤ 2 ^ 31.
Proof.
  intros Hn. unfold next_power_of_two. rewrite (u32_small (n - 1)) by lia.
  set (x1 := Z.lor (n - 1) (Z.shiftr (n - 1) 1)). set (x2 := Z.lor x1 (Z.shiftr x1 2)). set (x3 := Z.lor x2 (Z.shiftr x2 4)).
  set (x4 := Z.lor x3 (Z.shiftr x3 8)). set (x5 := Z.lor x4 (Z.shiftr x4 16)). cbv zeta.
  pose proof (smear_bounds (n - 1) 1 ltac:(lia) ltac:(lia)) as H1. fold x1 in H1. pose proof (smear_bounds x1 2 ltac:(lia) ltac:(lia)) as H2. fold x2 in H2.
  pose proof (smear_bounds x2 4 ltac:(lia) ltac:(lia)) as H3. fold x3 in H3. pose proof (smear_bounds x3 8 ltac:(lia) ltac:(lia)) as H4. fold x4 in H4.
  pose proof (smear_bounds x4 16 ltac:(lia) ltac:(lia)) as H5. fold x5 in H5. clearbody x5. rewrite u32_small by lia. lia.
Qed.

Lemma ldiff_lor_zero a b m : Z.ldiff a m = 0 → Z.ldiff b m = 0 → Z.ldiff (Z.lor a b) m = 0.
Proof.
  intros Ha Hb. apply Z.bits_inj'. intros k Hk. apply (f_equal (λ x, Z.testbit x k)) in Ha, Hb. revert Ha Hb. rewrite !Z.ldiff_spec, Z.lor_spec, Z.bits_0 by done.
  by destruct (Z.testbit a k), (Z.testbit b k), (Z.testbit m k).
Qed.

Lemma ldiff_ldiff_zero a b m : Z.ldiff a m = 0 → Z.ldiff (Z.ldiff a b) m = 0.
Proof.
  intros Ha. apply Z.bits_inj'. intros k Hk. apply (f_equal (λ x, Z.testbit x k)) in Ha. revert Ha. rewrite !Z.ldiff_spec, Z.bits_0 by done.
  by destruct (Z.testbit a k), (Z.testbit b k), (Z.testbit m k).
Qed.

Lemma wanted_subset pev ev : Z.ldiff (wanted_events pev ev) (Z.lor pev (Z.lor POLLERR POLLHUP)) = 0.
Proof.
  set (m := Z.lor pev (Z.lor POLLERR POLLHUP)). assert (Z.ldiff (Z.land ev m) m = 0) as H1.
  { apply Z.bits_inj'. intros k Hk. rewrite Z.ldiff_spec, Z.land_spec, Z.bits_0 by done. by destruct (Z.testbit ev k), (Z.testbit m k). }
  unfold wanted_events. fold m. cbv zeta. destruct (_ || _); [|done]. apply ldiff_lor_zero; [done|].
  apply Z.bits_inj'. intros k Hk. unfold m. rewrite Z.ldiff_spec, Z.land_spec, Z.lor_spec, Z.bits_0 by done. by destruct (Z.testbit pev k), (Z.testbit IO_EVENTS k).
Qed.

Lemma events_ok_spec ev : events_ok ev = true → Z.ldiff ev IO_EVENTS = 0 ∧ ev ≠ 0.
Proof. intros [H1 H2]%andb_true_iff. apply Z.eqb_eq in H1. apply negb_true_iff, Z.eqb_neq in H2. done. Qed.

(** ** The array *)

Definition io1 (e : went) : Z := if decide (is_io e) then 1 else 0.
Definition n_ios (ws : list went) : Z := Z.of_nat (length (filter is_io ws)).

Lemma n_ios_insert ws i e e' : ws !! i = Some e → n_ios (<[i := e']> ws) = n_ios ws - io1 e + io1 e'.
Proof.
  intros He. destruct (insert_split _ _ _ He) as (rest & E & E'). unfold n_ios, io1. rewrite (E' e'), E, !filter_cons.
  destruct (decide (is_io e)), (decide (is_io e')); simpl; lia.
Qed.

Lemma n_ios_pos ws i w : ws !! i = Some (EIo w) → 0 < n_ios ws.
Proof. intros He. destruct (insert_split _ _ _ He) as (rest & E & _). unfold n_ios. rewrite E, filter_cons, decide_True by done. simpl. lia. Qed.

Lemma n_ios_bound ws : 0 ≤ n_ios ws ≤ Z.of_nat (length ws).
Proof. unfold n_ios. pose proof (length_filter is_io ws). lia. Qed.

Lemma entry_ne (ws : list went) i j e : i ≠ j → 0 ≤ i → 0 ≤ j → <[Z.to_nat i := e]> ws !! Z.to_nat j = ws !! Z.to_nat j.
Proof. intros Hne Hi Hj. apply list_lookup_insert_ne. lia. Qed.

Lemma entry_eq (ws : list went) i e : 0 ≤ i < Z.of_nat (length ws) → <[Z.to_nat i := e]> ws !! Z.to_nat i = Some e.
Proof. intros Hi. apply list_lookup_insert_eq. lia. Qed.

(** Growing the array moves nothing but what stands behind the watchers. *)
Record grown (s : io_loop) (ws : list went) (n : Z) : Prop := {
  gr_more : nwatchers s ≤ n;
  gr_len : Z.of_nat (length ws) = n + 2 ∧ 0 < n ≤ 2147483648;
  gr_old : ∀ fd, 0 ≤ fd < nwatchers s → ws !! Z.to_nat fd = watchers s !! Z.to_nat fd;
  gr_new : ∀ fd, nwatchers s ≤ fd < n → ws !! Z.to_nat fd = Some ENull;
  gr_nios : n_ios ws = n_ios (watchers s);
  gr_fake : ws !! Z.to_nat n = Some (if polling (phase s) then EEvents else ENull) ∧
    ws !! Z.to_nat (n + 1) = Some (if polling (phase s) then ECount (Z.of_nat (length (batch s))) else ENull);
}.

Lemma n_ios_app l l' : n_ios (l ++ l') = n_ios l + n_ios l'.
Proof. unfold n_ios. rewrite filter_app, length_app. lia. Qed.

Lemma n_ios_nulls k : n_ios (replicate k ENull) = 0.
Proof. induction k as [|k IH]; [done|]. simpl. unfold n_ios in *. rewrite filter_cons, decide_False by tauto. done. Qed.

Lemma polling_idle s : io_ok s → watchers s = [] → polling (phase s) = false.
Proof. intros [] Hw. destruct (phase s) eqn:E; try done; by destruct ok_started0. Qed.

Lemma resize_run s len : io_ok s → 1 ≤ len ≤ FD_LIMIT →
  ∃ ws n, (∀ m, maybe_resize len (l_ios m s) = Some (tt, l_nwatchers n (l_watchers ws (l_ios m s)))) ∧ len ≤ n ∧ grown s ws n.
Proof.
  intros Hok Hlen. unfold FD_LIMIT in *. unfold maybe_resize. destruct (Z.leb_spec len (nwatchers s)) as [Hle|Hgt].
  - exists (watchers s), (nwatchers s). assert (watchers s ≠ []) as Hne by (destruct (ok_array _ Hok) as [[[? ?]|[Hl ?]] _ _ _]; [lia|intros E; rewrite E in Hl; simpl in Hl; lia]).
    split_and!; [|done|].
    + intros m. rewrite M_get. simpl. rewrite (proj2 (Z.leb_le _ _) Hle). by destruct s.
    + destruct Hok. destruct ok_array0. split; try done; [by destruct ar_len0 as [[? ?]|?]|intros; lia|by apply ok_fake0].
  - set (fl := if decide (watchers s = []) then ENull else default ENull (entry s (nwatchers s))).
    set (fc := if decide (watchers s = []) then ENull else default ENull (entry s (nwatchers s + 1))).
    set (n := u32 (next_power_of_two (u32 (len + 2)) - 2)).
    assert (len ≤ n ≤ 2147483646) as Hn.
    { unfold n. rewrite (u32_small (len + 2)) by lia. pose proof (next_power_of_two_ge (len + 2) ltac:(lia)). rewrite u32_small by lia. lia. }
    assert (fl = (if polling (phase s) then EEvents else ENull) ∧ fc = (if polling (phase s) then ECount (Z.of_nat (length (batch s))) else ENull)) as [Hfl Hfc].
    { unfold fl, fc. destruct (decide (watchers s = [])) as [E|E]; [by rewrite (polling_idle s Hok E)|]. by destruct (ok_fake _ Hok E) as [-> ->]. }
    set (ws := take (Z.to_nat (nwatchers s)) (watchers s) ++ replicate (Z.to_nat (n - nwatchers s)) ENull ++ [fl; fc]). exists ws, n.
    assert (0 ≤ nwatchers s ∧ length (take (Z.to_nat (nwatchers s)) (watchers s)) = Z.to_nat (nwatchers s)) as [Hnw Htk].
    { rewrite length_take. destruct (ok_array _ Hok) as [[[-> ->]|[? ?]] _ _ _]; [done|lia]. }
    split_and!; [|lia|].
    { intros m. rewrite M_get. simpl. rewrite (proj2 (Z.leb_gt _ _) Hgt). done. }
    split.
    + lia.
    + unfold ws. rewrite !length_app, Htk, length_replicate. simpl. lia.
    + intros fd Hfd. unfold ws. rewrite lookup_app_l by lia. apply lookup_take_lt. lia.
    + intros fd Hfd. unfold ws. rewrite lookup_app_r, lookup_app_l, lookup_replicate_2; rewrite ?length_replicate; lia || done.
    + unfold ws. rewrite !n_ios_app, n_ios_nulls. replace (n_ios [fl; fc]) with 0 by (rewrite Hfl, Hfc; by destruct (polling (phase s))).
      destruct (decide (watchers s = [])) as [E|E]; [by rewrite E, take_nil|]. rewrite <- (take_drop (Z.to_nat (nwatchers s)) (watchers s)) at 2. rewrite n_ios_app.
      replace (n_ios (drop (Z.to_nat (nwatchers s)) (watchers s))) with 0; [lia|]. destruct (ok_array _ Hok) as [[[? ?]|[Hl ?]] _ _ _]; [done|].
      destruct (ok_fake _ Hok E) as [H1 H2]. unfold entry in *. rewrite (drop_S _ _ _ H1). replace (S (Z.to_nat (nwatchers s))) with (Z.to_nat (nwatchers s + 1)) by lia.
      rewrite (drop_S _ _ _ H2), (drop_ge _ (S _)) by lia. by destruct (polling (phase s)).
    + unfold ws. rewrite !lookup_app_r by (rewrite ?length_app, ?Htk, ?length_replicate; lia). rewrite Htk, length_replicate.
      replace (Z.to_nat n - Z.to_nat (nwatchers s) - Z.to_nat (n - nwatchers s))%nat with 0%nat by lia.
      replace (Z.to_nat (n + 1) - Z.to_nat (nwatchers s) - Z.to_nat (n - nwatchers s))%nat with 1%nat by lia. by rewrite Hfl, Hfc.
Qed.

Lemma grown_ok s ws n : io_ok s → grown s ws n → io_ok (l_nwatchers n (l_watchers ws s)).
Proof.
  intros Hok [Hmore Hlen Hold Hnew Hn Hfake]. destruct Hok. destruct ok_array0, ok_wishes0. split; try done; simpl.
  - split; [by right| | |by rewrite ar_nfds0].
    + intros fd Hfd. destruct (Z.lt_ge_cases fd (nwatchers s)); [rewrite Hold by lia; apply ar_entry0; lia|rewrite Hnew by lia; by left].
    + intros fd w Hfd. destruct (Z.lt_ge_cases fd (nwatchers s)); [rewrite Hold by lia; apply ar_own0; lia|]. rewrite Hnew by lia.
      split; [done|]. intros (io & Hio & <- & Hp). destruct (wi_io0 _ _ Hio) as (_ & Hr & _). specialize (Hr Hp). lia.
  - split; try done.
    + intros w io Hio. destruct (wi_io0 _ _ Hio) as (? & Hr & ?). split_and!; try done; try lia; intros Hp; specialize (Hr Hp); lia.
    + intros fd e He. specialize (wi_interest0 _ _ He). lia.
  - intros _ E. rewrite E in Hlen. simpl in Hlen. lia.
  - intros Hp. destruct (ok_batch0 Hp). split; try done. intros j pe Hpe. destruct (ba_range0 j pe Hpe); [by left|right; lia].
Qed.

(** ** Calls of the program *)

(** The watcher is in use but not started. *)
Lemma idle_io_ok s w io :
  io_ok s → -1 ≤ io_fd io < FD_LIMIT → io_pevents io = 0 → io_events io = 0 → (∀ io0, ios s !! w = Some io0 → io_pevents io0 = 0) → io_ok (l_io w io s).
Proof.
  intros [] Hfd Hp He Hold. destruct ok_array0, ok_wishes0. split; try done; simpl.
  - split; try done. intros fd w' Hr. rewrite ar_own0 by done. destruct (decide (w' = w)) as [->|Hne]; [rewrite lookup_insert_eq|by rewrite lookup_insert_ne]. naive_solver.
  - split; try done.
    + intros w' io'. rewrite lookup_insert_Some. intros [[<- <-]|[Hne Hio]]; [rewrite Hp; split_and!; [lia|lia|by intros []|done]|by eapply wi_io0].
    + intros w' io'. rewrite lookup_insert_Some. intros [[<- <-]|[Hne Hio]]; [done|by eapply wi_events0].
    + intros w' Hin. destruct (wi_queued0 _ Hin) as (io' & Hio & Hp'). exists io'. rewrite lookup_insert_ne; [done|]. intros ->. by apply Hp', Hold.
    + intros w' io'. rewrite lookup_insert_Some. intros [[<- <-]|[Hne Hio]]; [done|by eapply wi_dirty0].
Qed.

Lemma io_init_ok s w fd : io_ok s → enabled s (AInit w fd) = true → ∃ s', uv__io_init w fd s = Some (tt, s') ∧ io_ok s'.
Proof.
  intros Hok Hen. cbn in Hen. rewrite !andb_true_iff, bool_decide_eq_true, Z.leb_le, Z.ltb_lt in Hen. destruct Hen as (((_ & Hn) & H1) & H2).
  unfold uv__io_init. rewrite (proj2 (Z.leb_le _ _) H1), M_assert. eexists. split; [reflexivity|]. apply idle_io_ok; try done. intros io0. by rewrite Hn.
Qed.

Lemma open_ok s w fd : io_ok s → enabled s (AOpen w fd) = true → ∃ s', io_step (AOpen w fd) s = Some (tt, s') ∧ io_ok s'.
Proof.
  intros Hok Hen. cbn in Hen. rewrite !andb_true_iff, Z.leb_le, Z.ltb_lt in Hen. destruct Hen as (((_ & H1) & H2) & H3).
  destruct (ios s !! w) as [io|] eqn:Hio; [|done]. apply Z.eqb_eq in H3. cbn [io_step]. rewrite M_get, Hio, M_lift. eexists. split; [reflexivity|].
  assert (io_pevents io = 0) as Hp.
  { destruct (wi_io _ _ _ _ (ok_wishes _ Hok) _ _ Hio) as (_ & Hr & _). destruct (decide (io_pevents io = 0)); [done|]. specialize (Hr n). lia. }
  assert (io_events io = 0) as He.
  { destruct (decide (io_events io = 0)); [done|]. by destruct (wi_events _ _ _ _ (ok_wishes _ Hok) _ _ Hio n). }
  apply idle_io_ok; try done; simpl; [lia|]. intros io0. rewrite Hio. by intros [= <-].
Qed.

Lemma owns_spec s w fd : io_ok s → 0 ≤ fd < nwatchers s → owns s w fd = true → entry s fd = Some ENull ∨ entry s fd = Some (EIo w).
Proof.
  intros Hok Hfd Ho. unfold owns, uv__fd_exists in Ho. rewrite (proj2 (Z.ltb_lt _ _)) in Ho by lia. destruct (ar_entry _ _ _ _ (ok_array _ Hok) fd Hfd) as [H|(w' & H)]; [by left|].
  unfold entry in *. rewrite H in Ho |- *. simpl in Ho. apply bool_decide_eq_true in Ho. by right.
Qed.

Lemma may_call_spec s : io_ok s → may_call s = true → ¬ (phase s = PhWait ∨ polling (phase s) = true ∧ nevents s = 0).
Proof.
  intros Hok [H|H]%orb_true_iff.
  - apply bool_decide_eq_true in H. rewrite H. by intros [?|[? ?]].
  - destruct (ok_cb _ Hok H) as [Hp Hn]. intros [E|[_ ?]]; [by rewrite E in Hp|lia].
Qed.

(** The wishes of the watcher of a descriptor change: it is told to epoll later, or epoll knows. *)
Lemma rewish_ok s w io p q ws nf :
  io_ok s → ios s !! w = Some io → 0 ≤ io_fd io < nwatchers s → p ≠ 0 → Z.ldiff p IO_EVENTS = 0 → may_call s = true →
  entry s (io_fd io) = Some ENull ∧ ws = <[Z.to_nat (io_fd io) := EIo w]> (watchers s) ∧ nf = nfds s + 1 ∨ entry s (io_fd io) = Some (EIo w) ∧ ws = watchers s ∧ nf = nfds s →
  w ∈ watcher_queue s ∧ q = watcher_queue s ∨ w ∉ watcher_queue s ∧ q = watcher_queue s ++ [w] ∨ io_events io = p ∧ q = watcher_queue s →
  io_ok (l_nfds nf (l_watchers ws (l_wqueue q (l_io w (set_pevents p io) s)))).
Proof.
  intros Hok Hio Hfd Hp Hmask Hcall Hws Hq. assert (entry s (io_fd io) = Some (EIo w) ↔ io_pevents io ≠ 0) as Hown.
  { unfold entry. rewrite (ar_own _ _ _ _ (ok_array _ Hok)) by done. rewrite Hio. naive_solver. }
  assert (watchers s ≠ [] ∧ Z.of_nat (length (watchers s)) = nwatchers s + 2) as [Hne Hlen].
  { destruct (ok_array _ Hok) as [[[? ?]|[Hl ?]] _ _ _]; [lia|]. split; [intros E; rewrite E in Hl; simpl in Hl; lia|done]. }
  assert (∀ fd, 0 ≤ fd → fd ≠ io_fd io → ws !! Z.to_nat fd = watchers s !! Z.to_nat fd) as Hother.
  { intros fd H0 Hf. destruct Hws as [(_ & -> & _)|(_ & -> & _)]; [|done]. apply entry_ne; lia. }
  assert (ws !! Z.to_nat (io_fd io) = Some (EIo w)) as Hhere.
  { destruct Hws as [(_ & -> & _)|(He & -> & _)]; [|done]. apply entry_eq. lia. }
  assert (∀ w', w' ∈ q → w' = w ∨ w' ∈ watcher_queue s) as Hq1.
  { intros w' Hin. destruct Hq as [[_ ->]|[[_ ->]|[_ ->]]]; [tauto| |tauto]. apply elem_of_app in Hin as [?|?%list_elem_of_singleton]; tauto. }
  assert (∀ w', w' ∈ watcher_queue s → w' ∈ q) as Hq2.
  { intros w' Hin. destruct Hq as [[_ ->]|[[_ ->]|[_ ->]]]; [done| |done]. apply elem_of_app. by left. }
  pose proof (may_call_spec s Hok Hcall) as Hbusy. destruct Hok. destruct ok_array0, ok_wishes0. split; try done; simpl.
  - split.
    + destruct Hws as [(_ & -> & _)|(_ & -> & _)]; [|done]. rewrite length_insert. right. destruct ar_len0 as [[? ?]|?]; [done|done].
    + intros fd Hr. destruct (decide (fd = io_fd io)) as [->|Hf]; [right; by exists w|]. rewrite Hother by (done || lia). by apply ar_entry0.
    + intros fd w' Hr. destruct (decide (w' = w)) as [->|Hw].
      * rewrite lookup_insert_eq. destruct (decide (fd = io_fd io)) as [->|Hf]; [rewrite Hhere; naive_solver|]. rewrite Hother, ar_own0, Hio by (done || lia). naive_solver.
      * rewrite lookup_insert_ne by done. rewrite <- ar_own0 by done. destruct (decide (fd = io_fd io)) as [->|Hf]; [|by rewrite Hother by (done || lia)]. rewrite Hhere.
        unfold entry in *. split; [congruence|]. destruct Hws as [(He & _ & _)|(He & _ & _)]; rewrite He; congruence.
    + destruct Hws as [(He & -> & ->)|(_ & -> & ->)]; [|done]. fold (n_ios (<[Z.to_nat (io_fd io) := EIo w]> (watchers s))). rewrite (n_ios_insert _ _ ENull) by done.
      unfold n_ios. rewrite <- ar_nfds0. change (io1 ENull) with 0. change (io1 (EIo w)) with 1. lia.
  - split.
    + intros w' io'. rewrite lookup_insert_Some. intros [[<- <-]|[Hne' Hio']]; [|by eapply wi_io0]. simpl. destruct (wi_io0 _ _ Hio) as (? & _ & _). done.
    + intros w' io'. rewrite lookup_insert_Some. intros [[<- <-]|[Hne' Hio']]; [|by eapply wi_events0]. simpl. intros He. split; [done|]. by apply (wi_events0 _ _ Hio).
    + destruct Hq as [[_ ->]|[[? ->]|[_ ->]]]; [done| |done]. rewrite <- Permutation_cons_append. by constructor.
    + intros w' Hin. destruct (decide (w' = w)) as [->|Hw]; [rewrite lookup_insert_eq; by eexists|]. rewrite lookup_insert_ne by done. apply wi_queued0. by destruct (Hq1 _ Hin).
    + intros w' io'. rewrite lookup_insert_Some. intros [[<- <-]|[Hne' Hio']]; [|intros; by eapply Hq2, wi_dirty0].
      simpl. intros _ Hd. destruct Hq as [[Hi ->]|[[? ->]|[? _]]]; [done|apply elem_of_app; right; by left|done].
    + done.
  - intros _. unfold entry. simpl. rewrite !Hother by lia. by apply ok_fake0.
  - intros _ E. by rewrite E in Hhere.
Qed.

Lemma nfds_range s : io_ok s → 0 ≤ nfds s ≤ 2147483650.
Proof.
  intros Hok. pose proof (ok_array _ Hok) as []. pose proof (n_ios_bound (watchers s)). unfold n_ios in *. rewrite <- ar_nfds0 in *.
  destruct ar_len0 as [[E ?]|[? ?]]; [rewrite E in *; simpl in *|]; lia.
Qed.

Lemma l_wqueue_id s : l_wqueue (watcher_queue s) s = s.
Proof. by destruct s. Qed.

Lemma io_start_ok s w ev : io_ok s → enabled s (AStart w ev) = true → ∃ s', uv__io_start w ev s = Some (tt, s') ∧ io_ok s'.
Proof.
  intros Hok Hen. cbn in Hen. rewrite !andb_true_iff in Hen. destruct Hen as [[Hcall Hev] Hio]. destruct (ios s !! w) as [io|] eqn:Hw; [|done].
  apply andb_true_iff in Hio as [Hfd Hown]. apply Z.leb_le in Hfd. destruct (events_ok_spec _ Hev) as [Hmask Hnz].
  destruct (wi_io _ _ _ _ (ok_wishes _ Hok) _ _ Hw) as ([_ Hlim] & Hrange & Hpm).
  destruct (resize_run s (io_fd io + 1) Hok ltac:(unfold FD_LIMIT in *; lia)) as (ws & n & Hres & Hn & Hgrown). pose proof (grown_ok _ _ _ Hok Hgrown) as Hok1.
  set (s1 := l_nwatchers n (l_watchers ws s)) in *. set (p := Z.lor (io_pevents io) ev).
  assert (p ≠ 0) as Hp by (unfold p; rewrite Z.lor_eq_0_iff; lia).
  assert (Z.ldiff p IO_EVENTS = 0) as Hpmask by (by apply ldiff_lor_zero).
  assert (entry s1 (io_fd io) = Some ENull ∨ entry s1 (io_fd io) = Some (EIo w)) as He.
  { unfold entry. simpl. destruct Hgrown. destruct (Z.lt_ge_cases (io_fd io) (nwatchers s)) as [Hl|Hl]; [rewrite gr_old0 by lia; by apply owns_spec|rewrite gr_new0 by lia; by left]. }
  assert (entry s1 (io_fd io) = Some (EIo w) ↔ io_pevents io ≠ 0) as Hself.
  { unfold entry. rewrite (ar_own _ _ _ _ (ok_array _ Hok1)) by (simpl; lia). simpl. rewrite Hw. naive_solver. }
  unfold uv__io_start. rewrite M_get, Hw, M_lift, Hev, M_assert, (proj2 (Z.leb_le _ _) Hfd), (proj2 (Z.ltb_lt _ _)), M_assert by (unfold FD_LIMIT, INT_MAX in *; lia).
  cbv zeta. rewrite M_modify. fold p. cbn [io_fd set_pevents]. change (l_io w (set_pevents p io) s) with (l_ios (<[w:=set_pevents p io]> (ios s)) s). rewrite (bind_Some _ _ _ _ _ (Hres _)). change (l_nwatchers n (l_watchers ws (l_ios (<[w:=set_pevents p io]> (ios s)) s))) with (l_io w (set_pevents p io) s1).
  cbn [io_events io_pevents set_pevents]. destruct (Z.eqb_spec (io_events io) p) as [E|E].
  - eexists. split; [reflexivity|]. assert (entry s1 (io_fd io) = Some (EIo w)) as Hs.
    { apply Hself. destruct (wi_events _ _ _ _ (ok_wishes _ Hok) _ _ Hw); [congruence|done]. }
    apply (rewish_ok s1 w io p (watcher_queue s1) (watchers s1) (nfds s1)); try done; [simpl; lia|by right|by right; right].
  - rewrite M_modify, M_get. set (q := if decide (w ∈ watcher_queue s1) then watcher_queue s1 else watcher_queue s1 ++ [w]).
    assert ((if decide (w ∈ watcher_queue (l_io w (set_pevents p io) s1)) then l_io w (set_pevents p io) s1 else
      l_wqueue (watcher_queue (l_io w (set_pevents p io) s1) ++ [w]) (l_io w (set_pevents p io) s1)) = l_wqueue q (l_io w (set_pevents p io) s1)) as ->.
    { unfold q. simpl. case_decide; [by destruct s|done]. }
    change (entry (l_wqueue q (l_io w (set_pevents p io) s1)) (io_fd io)) with (entry s1 (io_fd io)).
    assert (w ∈ watcher_queue s1 ∧ q = watcher_queue s1 ∨ w ∉ watcher_queue s1 ∧ q = watcher_queue s1 ++ [w] ∨ io_events io = p ∧ q = watcher_queue s1) as Hq by (unfold q; case_decide; tauto).
    pose proof (nfds_range s Hok). destruct He as [He|He]; rewrite He, M_lift.
    + rewrite decide_True by done. eexists. split; [reflexivity|]. simpl. rewrite u32_small by lia.
      apply (rewish_ok s1 w io p q (<[Z.to_nat (io_fd io) := EIo w]> ws) (nfds s1 + 1)); try done; [simpl; lia|by left].
    + rewrite decide_False by done. eexists. split; [reflexivity|]. apply (rewish_ok s1 w io p q (watchers s1) (nfds s1)); try done; [simpl; lia|by right].
Qed.

(** A watcher stops. *)
Lemma unwish_ok s w io ws nf :
  io_ok s → ios s !! w = Some io → 0 ≤ io_fd io < nwatchers s → may_call s = true →
  entry s (io_fd io) = Some ENull ∧ ws = watchers s ∧ nf = nfds s ∨ entry s (io_fd io) = Some (EIo w) ∧ ws = <[Z.to_nat (io_fd io) := ENull]> (watchers s) ∧ nf = nfds s - 1 →
  io_ok (l_nfds nf (l_watchers ws (l_wqueue (filter (.≠ w) (watcher_queue s)) (l_io w {| io_fd := io_fd io; io_events := 0; io_pevents := 0 |} s)))) ∧ ws !! Z.to_nat (io_fd io) = Some ENull.
Proof.
  intros Hok Hio Hfd Hcall Hws.
  assert (watchers s ≠ [] ∧ Z.of_nat (length (watchers s)) = nwatchers s + 2) as [Hne Hlen].
  { destruct (ok_array _ Hok) as [[[? ?]|[Hl ?]] _ _ _]; [lia|]. split; [intros E; rewrite E in Hl; simpl in Hl; lia|done]. }
  assert (∀ fd, 0 ≤ fd → fd ≠ io_fd io → ws !! Z.to_nat fd = watchers s !! Z.to_nat fd) as Hother.
  { intros fd H0 Hf. destruct Hws as [(_ & -> & _)|(_ & -> & _)]; [done|]. apply entry_ne; lia. }
  assert (ws !! Z.to_nat (io_fd io) = Some ENull) as Hhere.
  { destruct Hws as [(He & -> & _)|(_ & -> & _)]; [done|]. apply entry_eq. lia. }
  split; [|done]. pose proof (may_call_spec s Hok Hcall) as Hbusy. destruct Hok. destruct ok_array0, ok_wishes0. split; try done; simpl.
  - split.
    + destruct Hws as [(_ & -> & _)|(_ & -> & _)]; [done|]. rewrite length_insert. right. destruct ar_len0 as [[? ?]|?]; [done|done].
    + intros fd Hr. destruct (decide (fd = io_fd io)) as [->|Hf]; [by left|]. rewrite Hother by (done || lia). by apply ar_entry0.
    + intros fd w' Hr. destruct (decide (w' = w)) as [->|Hw].
      * rewrite lookup_insert_eq. split; [|naive_solver]. destruct (decide (fd = io_fd io)) as [->|Hf]; [by rewrite Hhere|]. rewrite Hother, ar_own0, Hio by (done || lia). naive_solver.
      * rewrite lookup_insert_ne by done. rewrite <- ar_own0 by done. destruct (decide (fd = io_fd io)) as [->|Hf]; [|by rewrite Hother by (done || lia)]. rewrite Hhere.
        unfold entry in *. split; [done|]. destruct Hws as [(He & _ & _)|(He & _ & _)]; rewrite He; congruence.
    + destruct Hws as [(_ & -> & ->)|(He & -> & ->)]; [done|]. fold (n_ios (<[Z.to_nat (io_fd io) := ENull]> (watchers s))). rewrite (n_ios_insert _ _ (EIo w)) by done.
      unfold n_ios. rewrite <- ar_nfds0. change (io1 ENull) with 0. change (io1 (EIo w)) with 1. lia.
  - split; try done.
    + intros w' io'. rewrite lookup_insert_Some. intros [[<- <-]|[Hne' Hio']]; [|by eapply wi_io0]. simpl. destruct (wi_io0 _ _ Hio) as (? & _ & _). split_and!; [lia|lia|by intros []|done].
    + intros w' io'. rewrite lookup_insert_Some. intros [[<- <-]|[Hne' Hio']]; [done|by eapply wi_events0].
    + by apply NoDup_filter.
    + intros w' Hin. apply list_elem_of_filter in Hin as [Hw Hin]. rewrite lookup_insert_ne by done. by apply wi_queued0.
    + intros w' io'. rewrite lookup_insert_Some. intros [[<- <-]|[Hne' Hio']]; [done|]. intros. apply list_elem_of_filter. split; [done|by eapply wi_dirty0].
  - intros _. unfold entry. simpl. rewrite !Hother by lia. by apply ok_fake0.
  - intros _ E. by rewrite E in Hhere.
Qed.

Lemma stop_run s w io ev :
  io_ok s → may_call s = true → events_ok ev = true → ios s !! w = Some io → io_fd io = -1 ∨ owns s w (io_fd io) = true →
  ∃ nf ws q m io', let s' := l_nfds nf (l_watchers ws (l_wqueue q (l_ios m s))) in
    uv__io_stop w ev s = Some (tt, s') ∧ io_ok s' ∧ m !! w = Some io' ∧ io_fd io' = io_fd io ∧
    (ev = IO_EVENTS → io_pevents io' = 0 ∧ (0 ≤ io_fd io < nwatchers s → ws !! Z.to_nat (io_fd io) = Some ENull)).
Proof.
  intros Hok Hcall Hev Hio Hown. destruct (wi_io _ _ _ _ (ok_wishes _ Hok) _ _ Hio) as ([Hfd _] & Hrange & Hmask). unfold uv__io_stop.
  rewrite M_get, Hio, M_lift, Hev, M_assert.
  assert (¬ 0 ≤ io_fd io < nwatchers s → io_pevents io = 0) as Hp0 by (intros H; destruct (decide (io_pevents io = 0)); [done|tauto]).
  destruct (Z.eqb_spec (io_fd io) (-1)) as [E|E].
  { exists (nfds s), (watchers s), (watcher_queue s), (ios s), io. cbv zeta. split_and!; [by destruct s|by destruct s|done|done|]. intros _. split; [apply Hp0; lia|intros; lia]. }
  destruct Hown as [?|Hown]; [done|]. rewrite (proj2 (Z.leb_le 0 _)), M_assert by lia. destruct (Z.leb_spec (nwatchers s) (io_fd io)) as [Hn|Hn].
  { exists (nfds s), (watchers s), (watcher_queue s), (ios s), io. cbv zeta. split_and!; [by destruct s|by destruct s|done|done|]. intros _. split; [apply Hp0; lia|intros; lia]. }
  set (p := Z.ldiff (io_pevents io) ev). cbv zeta. rewrite M_modify. cbn [io_pevents set_pevents io_fd]. pose proof (owns_spec s w (io_fd io) Hok ltac:(lia) Hown) as He.
  assert (entry s (io_fd io) = Some (EIo w) ↔ io_pevents io ≠ 0) as Hself.
  { unfold entry. rewrite (ar_own _ _ _ _ (ok_array _ Hok)) by lia. rewrite Hio. naive_solver. }
  destruct (Z.eqb_spec p 0) as [Hp|Hp].
  - rewrite M_modify. destruct He as [He|He].
    + assert (io_pevents io = 0) as Hpe by (destruct (decide (io_pevents io = 0)); [done|]; apply Hself in n; congruence).
      assert (io_events io = 0) as Hee by (destruct (decide (io_events io = 0)); [done|]; by destruct (wi_events _ _ _ _ (ok_wishes _ Hok) _ _ Hio n)).
      destruct (unwish_ok s w io (watchers s) (nfds s) Hok Hio ltac:(lia) Hcall) as [Hok' Hnull]; [by left|].
      exists (nfds s), (watchers s), (filter (.≠ w) (watcher_queue s)), (<[w := {| io_fd := io_fd io; io_events := 0; io_pevents := 0 |}]> (ios s)), {| io_fd := io_fd io; io_events := 0; io_pevents := 0 |}.
      cbv zeta. split_and!; [|exact Hok'|apply lookup_insert_eq|done|done]. rewrite He, M_lift, decide_True by done. unfold set_pevents. rewrite Hp, Hee. by destruct s.
    + destruct (unwish_ok s w io (<[Z.to_nat (io_fd io) := ENull]> (watchers s)) (nfds s - 1) Hok Hio ltac:(lia) Hcall) as [Hok' Hnull]; [by right|].
      assert (0 < nfds s) as Hnf by (rewrite (ar_nfds _ _ _ _ (ok_array _ Hok)); by apply (n_ios_pos _ _ _ He)).
      eexists _, _, _, (<[w := {| io_fd := io_fd io; io_events := 0; io_pevents := 0 |}]> (ios s)), {| io_fd := io_fd io; io_events := 0; io_pevents := 0 |}.
      cbv zeta. split_and!; [|exact Hok'|apply lookup_insert_eq|done|done].
      rewrite He, M_lift, decide_False, bool_decide_true, M_assert, (proj2 (Z.ltb_lt _ _) Hnf), M_assert by done. unfold set_pevents, set_events. rewrite Hp. rewrite !M_modify. simpl.
      unfold modify, l_io. simpl. rewrite insert_insert_eq. done.
  - assert (io_pevents io ≠ 0) as Hpe by (intros E'; apply Hp; unfold p; by rewrite E', Z.ldiff_0_l). apply Hself in Hpe.
    set (q := if decide (w ∈ watcher_queue s) then watcher_queue s else watcher_queue s ++ [w]).
    exists (nfds s), (watchers s), q, (<[w := set_pevents p io]> (ios s)), (set_pevents p io). cbv zeta. split_and!; [| |apply lookup_insert_eq|done|].
    + unfold q. destruct (decide (w ∈ watcher_queue s)); by destruct s.
    + apply (rewish_ok s w io p q (watchers s) (nfds s)); try done; [lia|by apply ldiff_ldiff_zero|by right|unfold q; case_decide; tauto].
    + intros ->. unfold p in Hp. by rewrite Hmask in Hp.
Qed.

Lemma stop_ok s w ev : io_ok s → enabled s (AStop w ev) = true → ∃ s', uv__io_stop w ev s = Some (tt, s') ∧ io_ok s'.
Proof.
  intros Hok Hen. cbn in Hen. rewrite !andb_true_iff in Hen. destruct Hen as [[Hcall Hev] Hio]. destruct (ios s !! w) as [io|] eqn:Hw; [|done].
  apply orb_true_iff in Hio as Hio'. rewrite Z.eqb_eq in Hio'.
  destruct (stop_run s w io ev Hok Hcall Hev Hw Hio') as (nf & ws & q & m & io' & Hrun & Hok' & _). by eexists.
Qed.

(** ** What was said so far *)

Lemma fresh_snoc fd h e : fresh fd (h ++ [e]) = next_fresh fd (fresh fd h) e.
Proof. unfold fresh. by rewrite foldl_app. Qed.

Lemma fed_snoc w h e : fed w (h ++ [e]) = next_fed w (fed w h) e.
Proof. unfold fed. by rewrite foldl_app. Qed.

Lemma snoc_split {A} (h pre post : list A) x e : h ++ [e] = pre ++ x :: post → (e = x ∧ h = pre) ∨ ∃ post', h = pre ++ x :: post'.
Proof.
  intros E. destruct post as [|e' post _] using rev_ind.
  - apply app_inj_tail in E as [-> ->]. by left.
  - rewrite app_comm_cons, app_assoc in E. apply app_inj_tail in E as [-> _]. right. by exists post.
Qed.

Lemma calls_right_snoc h e :
  calls_right h →
  (∀ w fd pev ev, e = Called w fd pev ev → pev ≠ 0 ∧ ev ≠ 0 ∧ Z.ldiff ev (Z.lor pev (Z.lor POLLERR POLLHUP)) = 0 ∧ ∃ e', fresh fd h = Some e' ∧ ev = wanted_events pev e') →
  (∀ w, e = CalledFed w → fed w h = true) → calls_right (h ++ [e]).
Proof.
  intros [H1 H2] He1 He2. split.
  - intros pre w fd pev ev post [[-> ->]|(post' & E)]%snoc_split; [by eapply He1|by eapply H1].
  - intros pre w post [[-> ->]|(post' & E)]%snoc_split; [by apply He2|by eapply H2].
Qed.

Lemma calls_right_other h e : calls_right h → (∀ w fd pev ev, e ≠ Called w fd pev ev) → (∀ w, e ≠ CalledFed w) → calls_right (h ++ [e]).
Proof. intros H H1 H2. apply calls_right_snoc; [done|intros; by destruct (H1 w fd pev ev)|intros; by destruct (H2 w)]. Qed.

(** ** Feeding and closing *)

Lemma feed_ok s w : io_ok s → ∃ s', uv__io_feed w s = Some (tt, s') ∧ io_ok s'.
Proof.
  intros Hok. unfold uv__io_feed. rewrite M_get. destruct (decide (w ∈ pending_queue s ++ pq s)) as [Hin|Hin]; [by exists s|].
  eexists. split; [reflexivity|]. destruct Hok. destruct ok_pending0 as [Hnd Hfed]. split; try done; simpl.
  - intros Hp. destruct (ok_batch0 Hp). split; try done. intros j pe Hj Hpe Hne. rewrite fresh_snoc. by eapply ba_fresh0.
  - split.
    + rewrite <- (assoc_L (++)). simpl. rewrite <- Permutation_middle. by constructor.
    + intros w'. rewrite fed_snoc. simpl. rewrite <- (assoc_L (++)), !elem_of_app. rewrite list_elem_of_singleton. case_decide; [split; [done|tauto]|]. rewrite <- Hfed, elem_of_app. tauto.
  - by apply calls_right_other.
Qed.

Lemma pending_begin_ok s : io_ok s → pq s = [] → ∃ s', run_pending_begin s = Some (tt, s') ∧ io_ok s'.
Proof.
  intros Hok Hq. eexists. split; [reflexivity|]. destruct Hok. split; try done; simpl. rewrite Hq, app_nil_r in *. done.
Qed.

Lemma pending_next_ok s : io_ok s → ∃ s', run_pending_next s = Some (tt, s') ∧ io_ok s'.
Proof.
  intros Hok. unfold run_pending_next. rewrite M_get. destruct (pq s) as [|w q] eqn:Hq; [by exists s|]. eexists. split; [reflexivity|].
  destruct Hok. rewrite Hq in *. destruct ok_pending0 as [Hnd Hfed]. rewrite <- Permutation_middle in Hnd. apply NoDup_cons in Hnd as [Hw Hnd]. split; try done; simpl.
  - intros Hp. destruct (ok_batch0 Hp). split; try done. intros j pe Hj Hpe Hne. rewrite fresh_snoc. by eapply ba_fresh0.
  - split; [done|]. intros w'. rewrite fed_snoc. simpl. case_decide as E; [subst; split; [tauto|done]|]. rewrite <- Hfed, !elem_of_app, elem_of_cons. tauto.
  - apply calls_right_snoc; [done|done|]. intros w' [= <-]. apply Hfed. rewrite elem_of_app, elem_of_cons. tauto.
Qed.

Lemma batch_invalidate n b i h w fd : 0 ≤ fd → batch_ok n b i h → batch_ok n (invalidate_event fd <$> b) i (h ++ [Closed w fd]).
Proof.
  intros Hfd []. assert (∀ j pe, (invalidate_event fd <$> b) !! j = Some pe → pe.1 ≠ -1 → b !! j = Some pe ∧ pe.1 ≠ fd) as Hback.
  { intros j pe Hpe Hne. rewrite list_lookup_fmap in Hpe. destruct (b !! j) as [pe0|]; [|done]. simpl in Hpe. unfold invalidate_event in Hpe.
    destruct (Z.eqb_spec pe0.1 fd); simplify_eq/=; done. }
  split.
  - by rewrite length_fmap.
  - intros j pe Hpe. destruct (decide (pe.1 = -1)) as [|Hne]; [by left|]. destruct (Hback _ _ Hpe Hne) as [? _]. by eapply ba_range0.
  - intros j k pe pe' Hj Hk E Hne. destruct (Hback _ _ Hj Hne) as [? _], (Hback _ _ Hk ltac:(congruence)) as [? _]. by eapply ba_once0.
  - intros j pe Hj Hpe Hne. destruct (Hback _ _ Hpe Hne) as [Hpe' Hf]. rewrite fresh_snoc. simpl. destruct (Z.eqb_spec pe.1 fd); [done|]. by eapply ba_fresh0.
Qed.

Lemma batch_other n b i h e : batch_ok n b i h → (∀ fd, next_fresh fd (fresh fd h) e = fresh fd h) → batch_ok n b i (h ++ [e]).
Proof. intros [] He. split; try done. intros j pe Hj Hpe Hne. rewrite fresh_snoc, He. by eapply ba_fresh0. Qed.

Definition closed_state (w : nat) (fd : Z) (b : list (Z * Z)) (it : gmap Z Z) (s : io_loop) : io_loop :=
  l_event (Closed w fd) (l_ios (delete w (ios s)) (l_interest it (l_batch b (l_pqueue (filter (.≠ w) (pending_queue s)) (l_pq (filter (.≠ w) (pq s)) s))))).

Lemma close_final s w io b it :
  io_ok s → ios s !! w = Some io → io_pevents io = 0 → (0 ≤ io_fd io < nwatchers s → entry s (io_fd io) = Some ENull) →
  io_fd io = -1 ∧ b = batch s ∧ it = interest s ∨
  0 ≤ io_fd io ∧ b = (if polling (phase s) then invalidate_event (io_fd io) <$> batch s else batch s) ∧ it = delete (io_fd io) (interest s) →
  io_ok (closed_state w (io_fd io) b it s).
Proof.
  intros Hok Hio Hp Hnull Hbit.
  assert (∀ w' io', ios s !! w' = Some io' → io_events io' ≠ 0 → it !! io_fd io' = Some (io_events io')) as Hit.
  { intros w' io' Hio' He. destruct (wi_events _ _ _ _ (ok_wishes _ Hok) _ _ Hio' He) as [Hp' Hi]. destruct Hbit as [(_ & _ & ->)|(_ & _ & ->)]; [done|].
    rewrite lookup_delete_ne; [done|]. intros E. destruct (wi_io _ _ _ _ (ok_wishes _ Hok) _ _ Hio') as (_ & Hr & _). specialize (Hr Hp').
    assert (entry s (io_fd io') = Some (EIo w')) as He' by (unfold entry; apply (ar_own _ _ _ _ (ok_array _ Hok)); [done|by exists io']).
    rewrite <- E in He', Hr. rewrite (Hnull Hr) in He'. done. }
  assert (length b = length (batch s)) as Hlen by (destruct Hbit as [(_ & -> & _)|(_ & -> & _)]; [done|]; destruct (polling (phase s)); by rewrite ?length_fmap).
  assert (∀ fd e, it !! fd = Some e → interest s !! fd = Some e) as Hit2.
  { destruct Hbit as [(_ & _ & ->)|(_ & _ & ->)]; [done|]. intros fd e He. by apply lookup_delete_Some in He as [_ ?]. }
  destruct Hok. destruct ok_array0, ok_wishes0. split; try done; simpl.
  - split; try done. intros fd w' Hr. rewrite ar_own0 by done. split; intros (io' & Hio' & E & Hp'); exists io'.
    + rewrite lookup_delete_ne; [done|]. intros <-. congruence.
    + by apply lookup_delete_Some in Hio' as [_ ?].
  - split; try done.
    + intros w' io' Hio'. apply lookup_delete_Some in Hio' as [_ Hio']. by eapply wi_io0.
    + intros w' io' Hio' He. apply lookup_delete_Some in Hio' as [_ Hio']. split; [by eapply wi_events0|by eapply Hit].
    + intros w' Hin. destruct (wi_queued0 _ Hin) as (io' & Hio' & Hp'). exists io'. rewrite lookup_delete_ne; [done|]. intros <-. congruence.
    + intros w' io' Hio'. apply lookup_delete_Some in Hio' as [_ Hio']. by eapply wi_dirty0.
    + intros fd e He. by eapply wi_interest0, Hit2.
  - by rewrite Hlen.
  - intros Hpoll. rewrite Hlen. specialize (ok_batch0 Hpoll). destruct Hbit as [(E & -> & _)|(H0 & -> & _)].
    + destruct ok_batch0. split; try done. intros j pe Hj Hpe Hne. rewrite fresh_snoc. simpl. rewrite E, (proj2 (Z.eqb_neq _ _) Hne). by eapply ba_fresh0.
    + rewrite Hpoll. by apply batch_invalidate.
  - destruct ok_pending0 as [Hnd Hfed]. rewrite <- filter_app. split; [by apply NoDup_filter|]. intros w'. rewrite list_elem_of_filter, fed_snoc, Hfed. simpl. case_decide; [split; [tauto|done]|tauto].
  - by apply calls_right_other.
Qed.

Lemma epoll_del s fd : ∃ r, epoll_ctl EPOLL_CTL_DEL fd 0 s = Some (r, l_interest (delete fd (interest s)) s).
Proof.
  unfold epoll_ctl. rewrite M_get. destruct (interest s !! fd) eqn:E; eexists; [reflexivity|]. rewrite delete_id by done. by destruct s.
Qed.

Lemma invalidate_run s s1 fd :
  io_ok s → 0 < nwatchers s → 0 ≤ fd → watchers s1 = watchers s → nwatchers s1 = nwatchers s → batch s1 = batch s →
  uv__platform_invalidate_fd fd s1 = Some (tt, l_interest (delete fd (interest s1)) (l_batch (if polling (phase s) then invalidate_event fd <$> batch s else batch s) s1)).
Proof.
  intros Hok Hn Hfd Ew En Eb. assert (watchers s ≠ []) as Hne by (destruct (ok_array _ Hok) as [[[? ?]|[Hl ?]] _ _ _]; [lia|intros E; rewrite E in Hl; simpl in Hl; lia]).
  destruct (ok_fake _ Hok Hne) as [H1 H2]. unfold uv__platform_invalidate_fd. rewrite M_get. unfold entry in *. rewrite Ew, En, bool_decide_false, M_assert, (proj2 (Z.leb_le _ _) Hfd), M_assert, H1, H2, !M_lift by done.
  destruct (polling (phase s)).
  - rewrite Eb, Nat2Z.id, firstn_all, drop_all, app_nil_r, M_modify. destruct (epoll_del (l_batch (invalidate_event fd <$> batch s) s1) fd) as (r & Hr). bstep Hr. done.
  - rewrite M_left_id. destruct (epoll_del s1 fd) as (r & Hr). bstep Hr. rewrite <- Eb. by destruct s1.
Qed.

Lemma io_close_ok s w : io_ok s → enabled s (AClose w) = true → ∃ s', uv__io_close w s = Some (tt, s') ∧ io_ok s'.
Proof.
  intros Hok Hen. cbn in Hen. rewrite !andb_true_iff in Hen. destruct Hen as [Hcall Hio]. destruct (ios s !! w) as [io|] eqn:Hw; [|done].
  rewrite orb_true_iff, andb_true_iff, Z.eqb_eq, Z.ltb_lt in Hio.
  destruct (stop_run s w io IO_EVENTS Hok Hcall eq_refl Hw ltac:(tauto)) as (nf & ws & q & m & io' & Hrun & Hok1 & Hio' & Efd & Hstop). destruct (Hstop eq_refl) as [Hp Hnull].
  set (s1 := l_nfds nf (l_watchers ws (l_wqueue q (l_ios m s)))) in *. unfold uv__io_close. rewrite (bind_Some _ _ _ _ _ Hrun), M_modify, M_get. simpl. rewrite Hio', M_lift.
  destruct (wi_io _ _ _ _ (ok_wishes _ Hok1) _ _ Hio') as ([Hfd _] & _ & _). destruct (Z.eqb_spec (io_fd io') (-1)) as [E|E].
  - rewrite M_left_id. exists (closed_state w (io_fd io') (batch s1) (interest s1) s1). split; [by destruct s|]. eapply (close_final s1); try done; [simpl; lia|]. by left.
  - assert (0 < nwatchers s) as Hn by (destruct Hio as [?|[_ ?]]; [congruence|done]).
    match goal with |- ∃ _, (uv__platform_invalidate_fd _ ≫= _) ?x = _ ∧ _ => rewrite (bind_Some _ _ _ _ _ (invalidate_run s1 x (io_fd io') Hok1 Hn ltac:(lia) eq_refl eq_refl eq_refl)) end.
    eexists. split; [reflexivity|]. eapply (close_final s1 w io'); try done; [|right; split; [lia|done]]. intros Hr. unfold entry. simpl in *. rewrite Efd in *. by apply Hnull.
Qed.

(** ** Polling *)

Lemma register_one_ok s w q : io_ok s → watcher_queue s = w :: q →
  ∃ m it, register_one w (l_wqueue q s) = Some (tt, l_ios m (l_interest it (l_wqueue q s))) ∧ io_ok (l_ios m (l_interest it (l_wqueue q s))).
Proof.
  intros Hok Hq. destruct (wi_queued _ _ _ _ (ok_wishes _ Hok) w ltac:(rewrite Hq; by left)) as (io & Hio & Hp).
  destruct (wi_io _ _ _ _ (ok_wishes _ Hok) _ _ Hio) as (Hlim & Hr & Hmask). specialize (Hr Hp).
  set (io' := set_events (io_pevents io) io). exists (<[w := io']> (ios s)), (<[io_fd io := io_pevents io]> (interest s)). split.
  - unfold register_one. rewrite M_get. simpl. rewrite Hio, M_lift, (proj2 (Z.eqb_neq _ _) Hp), M_assert, (proj2 (Z.leb_le _ _)), (proj2 (Z.ltb_lt _ _)), M_assert by lia.
    destruct (Z.eqb_spec (io_events io) 0) as [He|He].
    + unfold epoll_ctl. rewrite M_assoc, M_get. simpl. destruct (interest s !! io_fd io) eqn:Hi; [|done]. rewrite M_left_id. mrun. rewrite Hi. done.
    + unfold epoll_ctl. rewrite M_assoc, M_get. simpl. destruct (wi_events _ _ _ _ (ok_wishes _ Hok) _ _ Hio He) as [_ ->]. done.
  - assert (∀ w' io', ios s !! w' = Some io' → io_fd io' = io_fd io → io_pevents io' ≠ 0 → w' = w) as Huniq.
    { intros w' io1 Hio1 E Hp1. assert (entry s (io_fd io) = Some (EIo w')) by (apply (ar_own _ _ _ _ (ok_array _ Hok)); [done|by exists io1]).
      assert (entry s (io_fd io) = Some (EIo w)) by (apply (ar_own _ _ _ _ (ok_array _ Hok)); [done|by exists io]). congruence. }
    destruct Hok. rewrite Hq in *. destruct ok_array0, ok_wishes0. apply NoDup_cons in wi_nodup0 as [Hw Hnd]. split; try done; simpl.
    + split; try done. intros fd w' Hfd. rewrite ar_own0 by done. destruct (decide (w' = w)) as [->|Hne]; [rewrite lookup_insert_eq, Hio|by rewrite lookup_insert_ne].
      split; intros (io1 & [= <-] & ? & ?); by eexists.
    + split; try done.
      * intros w' io1. rewrite lookup_insert_Some. intros [[<- <-]|[Hne Hio1]]; [done|by eapply wi_io0].
      * intros w' io1. rewrite lookup_insert_Some. intros [[<- <-]|[Hne Hio1]] He; [split; [done|apply lookup_insert_eq]|].
        destruct (wi_events0 _ _ Hio1 He) as [Hp1 Hi]. split; [done|]. rewrite lookup_insert_ne; [done|]. intros E. by destruct Hne; symmetry; eapply Huniq.
      * intros w' Hin. destruct (wi_queued0 w' ltac:(by right)) as (io1 & Hio1 & Hp1). exists io1. rewrite lookup_insert_ne; [done|]. by intros ->.
      * intros w' io1. rewrite lookup_insert_Some. intros [[<- <-]|[Hne Hio1]]; [done|]. intros H1 H2. by destruct (elem_of_cons q w' w) as [[?|?] _]; [by eapply wi_dirty0|congruence|].
      * intros fd e. rewrite lookup_insert_Some. intros [[<- <-]|[Hne Hi]]; [done|by eapply wi_interest0].
    + intros H. destruct (ok_wait0 H); [by left|done].
Qed.

Lemma register_all_ok q s : io_ok s → watcher_queue s = q →
  ∃ m it, register_all q s = Some (tt, l_ios m (l_interest it (l_wqueue [] s))) ∧ io_ok (l_ios m (l_interest it (l_wqueue [] s))).
Proof.
  revert s. induction q as [|w q IH]; intros s Hok Hq.
  - exists (ios s), (interest s). assert (l_ios (ios s) (l_interest (interest s) (l_wqueue [] s)) = s) as -> by (destruct s; simpl in *; by subst). done.
  - destruct (register_one_ok s w q Hok Hq) as (m & it & Hrun & Hok1). cbn [register_all]. rewrite M_modify, (bind_Some _ _ _ _ _ Hrun).
    destruct (IH _ Hok1 eq_refl) as (m' & it' & Hrun' & Hok'). exists m', it'. rewrite Hrun'. split; [done|]. exact Hok'.
Qed.

(** The invariant does not read the clock and the count. *)
Lemma clock_ok s t rt b c : io_ok s → io_ok (l_time t (l_real rt (l_base b (l_count c s)))).
Proof. by intros []. Qed.

Lemma io_idle_ok s : io_ok s → polling (phase s) = false → io_ok (l_phase PhIdle s).
Proof.
  intros [] Hp. rewrite Hp in *. split; try done; simpl. by intros [?|[? ?]].
Qed.

Lemma waiting_ok s t : io_ok s → polling (phase s) = false → watchers s ≠ [] → -1 ≤ t → t = 0 ∨ watcher_queue s = [] → io_ok (l_phase PhWait (l_timeout t s)).
Proof. intros [] Hp Hne Ht Hq. rewrite Hp in *. by split. Qed.

Lemma poll_begin_ok s tmo : io_ok s → enabled s (APoll tmo) = true → ∃ s', io_poll_begin tmo s = Some (tt, s') ∧ io_ok s'.
Proof.
  intros Hok Hen. cbn in Hen. rewrite !andb_true_iff, !bool_decide_eq_true, !Z.leb_le in Hen. destruct Hen as (((Hph & _) & Ht) & _). unfold io_poll_begin. rewrite M_get.
  destruct (Z.eqb_spec (nfds s) 0) as [Hn|Hn].
  - assert (watcher_queue s = []) as ->; [|by exists s]. destruct (watcher_queue s) as [|w q] eqn:Hq; [done|]. exfalso.
    destruct (wi_queued _ _ _ _ (ok_wishes _ Hok) w ltac:(rewrite Hq; by left)) as (io & Hio & Hp). destruct (wi_io _ _ _ _ (ok_wishes _ Hok) _ _ Hio) as (_ & Hr & _).
    assert (entry s (io_fd io) = Some (EIo w)) as He by (apply (ar_own _ _ _ _ (ok_array _ Hok)); [by apply Hr|by exists io]).
    pose proof (n_ios_pos _ _ _ He). rewrite (ar_nfds _ _ _ _ (ok_array _ Hok)) in Hn. unfold n_ios in *. lia.
  - assert (watchers s ≠ []) as Hne. { intros E. apply Hn. rewrite (ar_nfds _ _ _ _ (ok_array _ Hok)), E. done. }
    destruct (register_all_ok _ s Hok eq_refl) as (m & it & Hrun & Hok1). rewrite (bind_Some _ _ _ _ _ Hrun), (proj2 (Z.leb_le _ _) Ht), M_assert, !M_modify. eexists. split; [reflexivity|].
    set (s1 := l_ios m (l_interest it (l_wqueue [] s))) in *.
    change (io_ok (l_phase PhWait (l_timeout tmo (l_time (time s1) (l_real tmo (l_base (time s) (l_count 48 s1))))))).
    apply waiting_ok; [by apply clock_ok|simpl; by rewrite Hph|done|done|by right].
Qed.

Lemma update_timeout_ok s : io_ok s → polling (phase s) = false → watchers s ≠ [] → watcher_queue s = [] → 0 < timeout s → ∃ s', update_timeout s = Some (tt, s') ∧ io_ok s'.
Proof.
  intros Hok Hp Hne Hq Ht. unfold update_timeout. rewrite M_get, (proj2 (Z.ltb_lt _ _) Ht), M_assert, M_modify. set (rt := to_int _).
  pose proof (clock_ok s (time s) rt (base s) (count s) Hok) as Hok1. assert (l_time (time s) (l_real rt (l_base (base s) (l_count (count s) s))) = l_real rt s) as E by (by destruct s). rewrite E in Hok1.
  destruct (Z.leb_spec rt 0); eexists; (split; [reflexivity|]); [by apply io_idle_ok|]. apply waiting_ok; try done; [lia|by right].
Qed.

(** The entries behind the watchers change. *)
Lemma refake_ok ws n nf m e1 e2 f1 f2 : 0 < n →
  array_ok ws n nf m → ws !! Z.to_nat n = Some f1 → ws !! Z.to_nat (n + 1) = Some f2 → io1 f1 = 0 → io1 f2 = 0 → io1 e1 = 0 → io1 e2 = 0 →
  array_ok (<[Z.to_nat (n + 1) := e2]> (<[Z.to_nat n := e1]> ws)) n nf m.
Proof.
  intros Hn [] H1 H2 Hf1 Hf2 He1 He2. assert (∀ fd, 0 ≤ fd < n → <[Z.to_nat (n + 1) := e2]> (<[Z.to_nat n := e1]> ws) !! Z.to_nat fd = ws !! Z.to_nat fd) as Hsame.
  { intros fd Hfd. rewrite !entry_ne by lia. done. }
  split.
  - right. rewrite !length_insert. destruct ar_len0 as [[? ?]|?]; [lia|done].
  - intros fd Hfd. rewrite Hsame by done. by apply ar_entry0.
  - intros fd w Hfd. rewrite Hsame by done. by apply ar_own0.
  - fold (n_ios (<[Z.to_nat (n + 1) := e2]> (<[Z.to_nat n := e1]> ws))). rewrite (n_ios_insert _ _ f2), (n_ios_insert _ _ f1) by (rewrite ?entry_ne by lia; done).
    unfold n_ios. lia.
Qed.

Lemma find_report (l : list (Z * Z)) j pe : NoDup l.*1 → l !! j = Some pe → snd <$> List.find (λ p, p.1 =? pe.1) l = Some pe.2.
Proof.
  revert j. induction l as [|p l IH]; intros j Hnd Hj; [done|]. cbn in Hnd. apply NoDup_cons in Hnd as [Hp Hnd]. simpl. destruct j as [|j]; simpl in Hj.
  - simplify_eq. by rewrite Z.eqb_refl.
  - destruct (Z.eqb_spec p.1 pe.1) as [E|E]; [|by eapply IH]. destruct Hp. rewrite E. apply list_elem_of_fmap. exists pe. split; [done|]. by eapply list_elem_of_lookup_2.
Qed.

Lemma unpolled_cb s : io_ok s → polling (phase s) = false → in_cb s = false.
Proof. intros Hok Hp. destruct (in_cb s) eqn:E; [|done]. destruct (ok_cb _ Hok E). congruence. Qed.

Lemma array_size s : io_ok s → watchers s ≠ [] → Z.of_nat (length (watchers s)) = nwatchers s + 2 ∧ 0 < nwatchers s.
Proof. intros Hok Hne. destruct (ok_array _ Hok) as [[[? _]|[? ?]] _ _ _]; [done|lia]. Qed.

Lemma wait_events_ok s l t : io_ok s → enabled s (AWait (Events l t)) = true → ∃ s', io_poll_wait (Events l t) s = Some (tt, s') ∧ io_ok s'.
Proof.
  intros Hok Hen. cbn in Hen. rewrite !andb_true_iff, !bool_decide_eq_true, forallb_forall in Hen. destruct Hen as (((((Hph & _) & Hnd) & Hrep) & _) & _).
  assert (polling (phase s) = false) as Hpoll by (by rewrite Hph). assert (watchers s ≠ []) as Hne by (apply (ok_started _ Hok); by rewrite Hph).
  destruct (array_size s Hok Hne) as [Hlen Hn]. pose proof (unpolled_cb s Hok Hpoll) as Hcb. destruct (ok_fake _ Hok Hne) as [Hf1 Hf2]. rewrite Hpoll in Hf1, Hf2.
  cbn [io_poll_wait]. rewrite !M_modify, M_get. simpl. rewrite bool_decide_false, M_assert by done. eexists. split; [reflexivity|].
  destruct Hok. split; try done; simpl.
  - eapply refake_ok; done.
  - intros _. unfold entry. simpl. rewrite entry_ne, !entry_eq by (rewrite ?length_insert; lia). done.
  - intros _ E. apply (f_equal length) in E. rewrite !length_insert in E. simpl in E. lia.
  - intros _. split.
    + lia.
    + intros j pe Hj. right. apply list_elem_of_lookup_2, list_elem_of_In, Hrep in Hj. unfold reportable in Hj. destruct (interest s !! pe.1) eqn:E; [|done]. by eapply wi_interest.
    + intros j k pe pe' Hj Hk E _. apply (NoDup_lookup l.*1 j k pe.1); [done|by rewrite list_lookup_fmap, Hj|by rewrite list_lookup_fmap, Hk, E].
    + intros j pe _ Hj _. rewrite fresh_snoc. simpl. by eapply find_report.
  - congruence.
  - intros _. apply ok_wait0. by left.
  - intros _. apply ok_timeout0. by rewrite Hph.
  - destruct ok_pending0 as [? Hfed]. split; [done|]. intros w. by rewrite fed_snoc.
  - by apply calls_right_other.
Qed.

Lemma io_wait_ok s a : io_ok s → enabled s (AWait a) = true → ∃ s', io_poll_wait a s = Some (tt, s') ∧ io_ok s'.
Proof.
  intros Hok Hen. destruct a as [t|t|l t]; [| |by apply wait_events_ok].
  - cbn in Hen. rewrite !andb_true_iff, bool_decide_eq_true, negb_true_iff in Hen. destruct Hen as ((Hph & Ht) & _). pose proof (clock_ok s t (real_timeout s) (base s) (count s) Hok) as Hok1.
    assert (l_time t (l_real (real_timeout s) (l_base (base s) (l_count (count s) s))) = l_time t s) as E by (by destruct s). rewrite E in Hok1.
    cbn [io_poll_wait]. rewrite M_modify, M_get. cbn [timeout l_time]. rewrite Ht, M_assert. apply Z.eqb_neq in Ht. pose proof (ok_timeout _ Hok ltac:(by rewrite Hph)).
    destruct (Z.eqb_spec (timeout s) 0) as [E0|E0].
    + eexists. split; [reflexivity|]. apply io_idle_ok; [done|]. simpl. by rewrite Hph.
    + apply update_timeout_ok; [done|simpl; by rewrite Hph|apply (ok_started _ Hok); by rewrite Hph| |simpl; lia]. destruct (ok_wait _ Hok); [by left|done|done].
  - cbn in Hen. rewrite !andb_true_iff, bool_decide_eq_true in Hen. destruct Hen as (Hph & _). pose proof (clock_ok s t (real_timeout s) (base s) (count s) Hok) as Hok1.
    assert (l_time t (l_real (real_timeout s) (l_base (base s) (l_count (count s) s))) = l_time t s) as E by (by destruct s). rewrite E in Hok1.
    cbn [io_poll_wait]. rewrite M_modify, M_get. cbn [timeout l_time]. pose proof (ok_timeout _ Hok ltac:(by rewrite Hph)).
    destruct (Z.eqb_spec (timeout s) (-1)) as [E1|E1]; [by eexists|]. destruct (Z.eqb_spec (timeout s) 0) as [E0|E0].
    + eexists. split; [reflexivity|]. apply io_idle_ok; [done|]. simpl. by rewrite Hph.
    + apply update_timeout_ok; [done|simpl; by rewrite Hph|apply (ok_started _ Hok); by rewrite Hph| |simpl; lia]. destruct (ok_wait _ Hok); [by left|done|done].
Qed.

(** Passing an event. *)
Lemma batch_pass n b i h pe ev : batch_ok n b i h → b !! i = Some pe → batch_ok n (<[i := (pe.1, ev)]> b) (S i) h.
Proof.
  intros [] Hi. assert (∀ j p, <[i := (pe.1, ev)]> b !! j = Some p → ∃ p', b !! j = Some p' ∧ p.1 = p'.1 ∧ (j ≠ i → p = p')) as Hback.
  { intros j p Hj. apply list_lookup_insert_Some in Hj as [(<- & <- & _)|[Hne Hj]]; [by exists pe|by exists p]. }
  split.
  - rewrite length_insert. by eapply lookup_lt_Some.
  - intros j p Hj. destruct (Hback _ _ Hj) as (p' & Hj' & -> & _). by eapply ba_range0.
  - intros j k p q Hj Hk E Hne. destruct (Hback _ _ Hj) as (p' & Hj' & E1 & _), (Hback _ _ Hk) as (q' & Hk' & E2 & _). eapply ba_once0; [done|done|congruence|congruence].
  - intros j p Hj Hp Hne. destruct (Hback _ _ Hp) as (p' & Hp' & _ & E). rewrite (E ltac:(lia)) in *. apply (ba_fresh0 j); [lia|done|done].
Qed.

Lemma batch_called n b i h pe w p ev : batch_ok n b (S i) h → b !! i = Some pe → batch_ok n b (S i) (h ++ [Called w pe.1 p ev]).
Proof.
  intros [] Hi. split; try done. intros j q Hj Hq Hne. rewrite fresh_snoc. simpl. destruct (Z.eqb_spec q.1 pe.1) as [E|E]; [|by eapply ba_fresh0].
  assert (j = i) by (by eapply ba_once0). lia.
Qed.

(** A round of the loop over the events, from its effects. *)
Lemma step_event_ok s i cb sg ne b h it :
  io_ok s → phase s = PhEvents i → batch_ok (nwatchers s) b (S i) h → length b = length (batch s) → wishes_ok (nwatchers s) (ios s) it (watcher_queue s) →
  nevents s ≤ ne → (cb = true → 0 < ne) → (sg = true → 0 < ne) → (∀ w, fed w h = fed w (x_hist s)) → calls_right h →
  io_ok (l_phase (PhEvents (S i)) (l_in_cb cb (l_signals sg (l_nevents ne (l_batch b (l_hist h (l_interest it s))))))).
Proof.
  intros Hok Hph Hb Hlen Hw Hne Hcb Hsg Hfed Hh. pose proof (ok_nevents _ Hok) as [Hn0 _]. destruct Hok. rewrite Hph in *. split; try done; simpl.
  - by rewrite Hlen.
  - intros _. by apply ok_started0.
  - intros Hc. split; [done|by apply Hcb].
  - split; [lia|done].
  - intros [?|[_ H]]; [done|]. apply ok_wait0. right. split; [done|lia].
  - intros _. by apply ok_timeout0.
  - destruct ok_pending0 as [? Hf]. split; [done|]. intros w. by rewrite Hfed.
Qed.

(** Nothing changes but that the event is passed. *)
Lemma skip_event_ok s i pe it :
  io_ok s → phase s = PhEvents i → batch s !! i = Some pe → wishes_ok (nwatchers s) (ios s) it (watcher_queue s) → io_ok (l_phase (PhEvents (S i)) (l_interest it (l_in_cb false s))).
Proof.
  intros Hok Hph Hpe Hw. pose proof (ok_batch _ Hok) as Hb. rewrite Hph in Hb. specialize (Hb eq_refl). pose proof (ok_nevents _ Hok) as [H1 H2].
  assert (batch_ok (nwatchers s) (batch s) (S i) (x_hist s)) as Hb'.
  { pose proof (batch_pass _ _ _ _ _ pe.2 Hb Hpe) as H. rewrite list_insert_id in H; [done|]. by destruct pe. }
  pose proof (step_event_ok s i false (have_signals s) (nevents s) (batch s) (x_hist s) it Hok Hph Hb' eq_refl Hw ltac:(lia) ltac:(done) H2 ltac:(done) (ok_hist _ Hok)) as H.
  by destruct s.
Qed.

Lemma next_end_ok s i : io_ok s → phase s = PhEvents i → i = length (batch s) → ∃ s', io_poll_next i s = Some (tt, s') ∧ io_ok s'.
Proof.
  intros Hok Hph Hi. unfold io_poll_next. rewrite M_modify, M_get. simpl. rewrite decide_True by done. rewrite M_modify.
  assert (∀ cb h, (cb = true → have_signals s = true) → h = x_hist s ∨ h = x_hist s ++ [CalledSignals] → io_ok (l_hist h (l_in_cb cb (l_phase PhEnd s)))) as H.
  { intros cb h Hcb Hh. pose proof (ok_nevents _ Hok) as [Hn0 Hsg]. destruct Hok. rewrite Hph in *. specialize (ok_batch0 eq_refl). simpl in ok_batch0. rewrite Hi in ok_batch0.
    split; try done; simpl.
    - intros _. by apply ok_started0.
    - intros _. destruct Hh as [-> | ->]; [done|]. by apply batch_other.
    - intros Hc. split; [done|by apply Hsg, Hcb].
    - intros [?|[_ H]]; [done|]. apply ok_wait0. by right.
    - intros _. by apply ok_timeout0.
    - destruct Hh as [-> | ->]; [done|]. destruct ok_pending0 as [? Hf]. split; [done|]. intros w. by rewrite fed_snoc.
    - destruct Hh as [-> | ->]; [done|]. by apply calls_right_other. }
  destruct (have_signals s) eqn:Hs.
  - rewrite M_modify. eexists. split; [reflexivity|]. apply (H true (x_hist s ++ [CalledSignals])); [done|by right].
  - eexists. split; [reflexivity|]. specialize (H false (x_hist s) ltac:(done) ltac:(by left)). by destruct s.
Qed.

Lemma next_ok s i : io_ok s → phase s = PhEvents i → ∃ s', io_poll_next i s = Some (tt, s') ∧ io_ok s'.
Proof.
  intros Hok Hph. destruct (decide (i = length (batch s))) as [Hi|Hi]; [by apply next_end_ok|]. pose proof (ok_batch _ Hok) as Hb. rewrite Hph in Hb. specialize (Hb eq_refl).
  assert (is_Some (batch s !! i)) as [pe Hpe] by (apply lookup_lt_is_Some; pose proof (ba_next _ _ _ _ Hb); simpl in *; lia).
  unfold io_poll_next. rewrite M_modify, M_get. simpl. rewrite decide_False, M_modify, Hpe, M_lift by done.
  destruct (Z.eqb_spec pe.1 (-1)) as [E|E].
  { eexists. split; [reflexivity|]. pose proof (skip_event_ok s i pe (interest s) Hok Hph Hpe (ok_wishes _ Hok)). by destruct s. }
  destruct (ba_range _ _ _ _ Hb _ _ Hpe) as [?|Hr]; [done|]. rewrite (proj2 (Z.leb_le _ _)), (proj2 (Z.ltb_lt _ _)), M_assert by lia.
  unfold entry. simpl. destruct (ar_entry _ _ _ _ (ok_array _ Hok) _ Hr) as [He|(w & He)]; rewrite He, M_lift.
  - destruct (epoll_del (l_phase (PhEvents (S i)) (l_in_cb false s)) pe.1) as (r & Hdel). rewrite (bind_Some _ _ _ _ _ Hdel). eexists. split; [reflexivity|].
    pose proof (skip_event_ok s i pe (delete pe.1 (interest s)) Hok Hph Hpe) as H. simpl. destruct H as [? ? ? ? ? ? ? ? ? ? ?]; [|by split].
    destruct (ok_wishes _ Hok). split; try done; [|intros fd e Hd; apply lookup_delete_Some in Hd as [_ Hd]; by eapply wi_interest0].
    intros w io Hio Hev. destruct (wi_events0 _ _ Hio Hev) as [Hp Hi']. split; [done|]. rewrite lookup_delete_ne; [done|]. intros Efd.
    assert (watchers s !! Z.to_nat pe.1 = Some (EIo w)); [|congruence]. apply (ar_own _ _ _ _ (ok_array _ Hok)); [done|by exists io].
  - destruct (proj1 (ar_own _ _ _ _ (ok_array _ Hok) _ w Hr) He) as (io & Hio & Hfd & Hp). rewrite Hio, M_lift. cbv zeta. set (ev := wanted_events (io_pevents io) pe.2).
    rewrite M_modify. pose proof (batch_pass _ _ _ _ _ ev Hb Hpe) as Hb'. set (b := <[i := (pe.1, ev)]> (batch s)) in *. assert (length b = length (batch s)) as Hlen by apply length_insert.
    pose proof (ok_nevents _ Hok) as [Hn Hsg].
    destruct (Z.eqb_spec ev 0) as [Hev|Hev].
    { eexists. split; [reflexivity|]. pose proof (step_event_ok s i false (have_signals s) (nevents s) b (x_hist s) (interest s) Hok Hph Hb' Hlen (ok_wishes _ Hok) ltac:(lia) ltac:(done) Hsg ltac:(done) (ok_hist _ Hok)). by destruct s. }
    rewrite M_modify. destruct (decide (w = signal_io)) as [Hw|Hw].
    + eexists. split; [reflexivity|].
      pose proof (step_event_ok s i false true (nevents s + 1) b (x_hist s) (interest s) Hok Hph Hb' Hlen (ok_wishes _ Hok) ltac:(lia) ltac:(done) ltac:(lia) ltac:(done) (ok_hist _ Hok)). by destruct s.
    + rewrite M_modify. eexists. split; [reflexivity|].
      assert (batch_ok (nwatchers s) b (S i) (x_hist s ++ [Called w pe.1 (io_pevents io) ev])) as Hb2.
      { apply (batch_called _ _ _ _ (pe.1, ev)); [done|]. apply list_lookup_insert_eq. by eapply lookup_lt_Some. }
      assert (calls_right (x_hist s ++ [Called w pe.1 (io_pevents io) ev])) as Hh.
      { apply calls_right_snoc; [apply Hok| |done]. intros w' fd' pev' ev' [= <- <- <- <-]. split_and!; [done|done|apply wanted_subset|]. exists pe.2. split; [|done]. apply (ba_fresh _ _ _ _ Hb i); [simpl; lia|done|done]. }
      pose proof (step_event_ok s i true (have_signals s) (nevents s + 1) b _ (interest s) Hok Hph Hb2 Hlen (ok_wishes _ Hok) ltac:(lia) ltac:(lia) ltac:(lia) ltac:(intros w'; by rewrite fed_snoc) Hh). by destruct s.
Qed.

Lemma end_ok s : io_ok s → phase s = PhEnd → ∃ s', io_poll_end s = Some (tt, s') ∧ io_ok s'.
Proof.
  intros Hok Hph. assert (watchers s ≠ []) as Hne by (apply (ok_started _ Hok); by rewrite Hph). destruct (array_size s Hok Hne) as [Hlen Hn].
  set (s1 := l_entry (nwatchers s + 1) ENull (l_entry (nwatchers s) ENull (l_in_cb false s))).
  assert (io_ok (l_phase PhIdle s1)) as Hok1.
  { destruct (ok_fake _ Hok Hne) as [Hf1 Hf2]. rewrite Hph in Hf1, Hf2. destruct Hok. split; try done; simpl.
    - by eapply refake_ok.
    - intros _. unfold entry. simpl. rewrite entry_ne, !entry_eq by (rewrite ?length_insert; lia). done.
    - by intros [?|[? ?]]. }
  assert (watchers s1 ≠ []) as Hne1 by (unfold s1; simpl; intros E; apply (f_equal length) in E; rewrite !length_insert in E; simpl in E; lia).
  assert (∀ t c, -1 ≤ t → t = 0 ∨ watcher_queue s = [] → io_ok (l_phase PhWait (l_timeout t (l_count c s1)))) as Hwait.
  { intros t c Ht Hq. pose proof (clock_ok _ (time s) (real_timeout s) (base s) c Hok1) as Hok2. exact (waiting_ok _ t Hok2 eq_refl Hne1 Ht Hq). }
  unfold io_poll_end. rewrite M_modify, M_get, !M_modify. change (nwatchers (l_in_cb false s)) with (nwatchers s). fold s1. change (have_signals (l_in_cb false s)) with (have_signals s). destruct (have_signals s); [by eexists|].
  cbn [nevents timeout count batch l_in_cb]. destruct (Z.eqb_spec (nevents s) 0) as [Hev|Hev]; cbn [negb].
  - assert (timeout s = 0 ∨ watcher_queue s = []) as Hq by (apply (ok_wait _ Hok); rewrite Hph; by right). pose proof (ok_timeout _ Hok ltac:(by rewrite Hph)) as Ht.
    destruct (Z.eqb_spec (timeout s) 0) as [H0|H0]; [by eexists|]. destruct Hq as [?|Hq]; [done|]. destruct (Z.eqb_spec (timeout s) (-1)) as [H1|H1].
    + eexists. split; [reflexivity|]. pose proof (Hwait (timeout s) (count s) Ht ltac:(by right)). by destruct s.
    + destruct (update_timeout_ok (l_phase PhIdle s1) Hok1 eq_refl Hne1 Hq ltac:(simpl; lia)) as (s' & Hrun & Hok'). exists s'. split; [|done]. rewrite <- Hrun. unfold update_timeout. rewrite !M_get.
      cbn [timeout real_timeout time base l_phase]. rewrite (proj2 (Z.ltb_lt 0 (timeout s1))) by (simpl; lia). rewrite !M_assert. cbv zeta. rewrite !M_modify. cbn [timeout real_timeout time base l_phase]. by destruct (_ <=? 0).
  - destruct (_ =? MAX_EVENTS); [|by eexists]. rewrite M_modify. destruct (negb (count s - 1 =? 0)); eexists; (split; [reflexivity|]).
    + apply Hwait; [lia|by left].
    + exact (clock_ok _ (time s) (real_timeout s) (base s) (count s - 1) Hok1).
Qed.

(** ** Runs *)

Lemma io_step_ok s a : io_ok s → enabled s a = true → ∃ s', io_step a s = Some (tt, s') ∧ io_ok s'.
Proof.
  intros Hok Hen. destruct a as [w fd|w fd|w ev|w ev|w|w| | |tmo|a| |]; cbn [io_step].
  - by apply io_init_ok.
  - by apply open_ok.
  - by apply io_start_ok.
  - by apply stop_ok.
  - by apply io_close_ok.
  - by apply feed_ok.
  - cbn in Hen. apply andb_true_iff in Hen as [_ Hq]. apply bool_decide_eq_true in Hq. by apply pending_begin_ok.
  - by apply pending_next_ok.
  - by apply poll_begin_ok.
  - by apply io_wait_ok.
  - cbn in Hen. rewrite M_get. destruct (phase s) eqn:Hph; try done. by apply next_ok.
  - cbn in Hen. apply bool_decide_eq_true in Hen. by apply end_ok.
Qed.

Lemma io_run_ok acts s : io_ok s → ∃ s', io_run acts s = Some (tt, s') ∧ io_ok s'.
Proof.
  revert s. induction acts as [|a acts IH]; intros s Hok; [by exists s|]. cbn [io_run]. rewrite M_get. destruct (enabled s a) eqn:Hen.
  - destruct (io_step_ok s a Hok Hen) as (s1 & Hrun & Hok1). bstep Hrun. by apply IH.
  - rewrite M_left_id. by apply IH.
Qed.

Lemma io_new_ok : io_ok io_new.
Proof.
  split; try done; simpl.
  - split; [by left|intros; lia|intros; lia|done].
  - split; try done; [constructor|by intros ? ?%elem_of_nil].
  - by left.
  - split; [constructor|]. intros w. split; [by intros ?%elem_of_nil|done].
  - split; [intros [|? ?]; done|intros [|? ?]; done].
Qed.

(** ** Theorems *)

(** C16. Whatever the program calls, from outside and in callbacks, and whatever epoll reports, the
    watchers of a loop are defined, no assertion fails.  A watcher is called only while it wants
    events, with some of those it wants or an error, for a report about its descriptor that is of the
    running poll, was not delivered before and is not older than a close of the descriptor; fed
    watchers are called once.  Whenever the loop blocks, epoll watches every descriptor for exactly what its
    watcher wants. *)
Theorem watchers_exact acts :
  ∃ s, io_run acts io_new = Some (tt, s) ∧ calls_right (x_hist s) ∧ (phase s = PhWait → timeout s ≠ 0 → interest_exact s).
Proof.
  destruct (io_run_ok acts io_new io_new_ok) as (s & Hrun & Hok). exists s. split_and!; [done|apply Hok|]. intros Hph Ht w io Hio Hp.
  destruct (ok_wait _ Hok) as [?|Hq]; [by left|done|]. destruct (decide (io_events io = io_pevents io)) as [E|E].
  - rewrite <- E. apply (wi_events _ _ _ _ (ok_wishes _ Hok) _ _ Hio). congruence.
  - pose proof (wi_dirty _ _ _ _ (ok_wishes _ Hok) _ _ Hio Hp E) as Hin. rewrite Hq in Hin. by apply elem_of_nil in Hin.
Qed.

(** ** Samples *)

(** Descriptor 5 is reported with 4, whose callback closes the watcher of 5 and opens another on the
    same number: the report is not delivered to it. *)
Definition sample_stale : list ioact :=
  [AInit 1 4; AStart 1 POLLIN; AInit 2 5; AStart 2 POLLIN; APoll (-1); AWait (Events [(4, POLLIN); (5, POLLIN)] 10); ANext;
   AClose 2; AInit 3 5; AStart 3 (Z.lor POLLIN POLLOUT); ANext; ANext; AEnd; APoll (-1)].

Lemma sample_stale_run :
  match io_run sample_stale io_new with
  | Some (_, s) => x_hist s = [Polled [(4, POLLIN); (5, POLLIN)]; Called 1 4 POLLIN POLLIN; Closed 2 5] ∧
      interest s !! 5 = Some (Z.lor POLLIN POLLOUT) ∧ phase s = PhWait ∧ nfds s = 2
  | None => False
  end.
Proof. vm_compute. done. Qed.

(** The time spent is taken off the limit from its start at each interruption: with a limit of 100 the
    poll returns at 70. *)
Lemma poll_returns_early :
  match io_run [AInit 1 4; AStart 1 POLLIN; APoll 100; AWait (Interrupted 40); AWait (Interrupted 70)] io_new with
  | Some (_, s) => phase s = PhIdle ∧ time s - base s = 70 ∧ timeout s = 60
  | None => False
  end.
Proof. vm_compute. done. Qed.
