(* ===== verification/UvLoop.v ===== *)
(** The event loop of libuv as far as a loop's life depends on it: which handles it
    holds, which are active, which are closing, when [uv_run] goes on and when
    [uv_loop_close] succeeds (src/uv-common.c, src/uv-common.h and src/unix/core.c of
    libuv).  The handles are those of the TCP service, its four own and its clients'; the
    stand-alone echo server has a listener, a timer and clients too, and an async handle for
    its stop; the file log has a timer only. *)
From stdpp Require Import base numbers list option.
From Stdlib Require Import ZArith Lia.
From S2P Require Import Prelude.

Local Open Scope Z_scope.

Definition UV_EBUSY : Z := -16.

Inductive uv_handle := Listener | AcceptTimer | Prep | Check | Client (c : nat) | Async.

#[global] Instance uv_handle_eq_dec : EqDecision uv_handle.
Proof. solve_decision. Defined.

(** The handles of the loop's queue, those that are started, those whose close is due,
    those that are closed, and the clients of the write requests under way. *)
Record loop_t := {
  handle_queue : list uv_handle;
  active_handles : list uv_handle;
  closing_handles : list uv_handle;
  closed_handles : list uv_handle;
  active_reqs : list nat;
}.

Definition empty_loop : loop_t :=
  {| handle_queue := []; active_handles := []; closing_handles := []; closed_handles := [];
     active_reqs := [] |}.

Definition uv__handle_init (h : uv_handle) (l : loop_t) : loop_t :=
  {| handle_queue := handle_queue l ++ [h]; active_handles := active_handles l;
     closing_handles := closing_handles l; closed_handles := closed_handles l;
     active_reqs := active_reqs l |}.

Definition uv__handle_start (h : uv_handle) (l : loop_t) : loop_t :=
  {| handle_queue := handle_queue l;
     active_handles := if decide (h ∈ active_handles l) then active_handles l
                       else active_handles l ++ [h];
     closing_handles := closing_handles l; closed_handles := closed_handles l;
     active_reqs := active_reqs l |}.

Definition uv_is_closing (h : uv_handle) (l : loop_t) : bool :=
  bool_decide (h ∈ closing_handles l) || bool_decide (h ∈ closed_handles l).

(** The handle is stopped and put in front of the closing handles. *)
Definition uv_close (h : uv_handle) : M loop_t unit :=
  l ← get;
  TN_ASSERT (negb (uv_is_closing h l));;
  put {| handle_queue := handle_queue l; active_handles := filter (.≠ h) (active_handles l);
         closing_handles := h :: closing_handles l; closed_handles := closed_handles l;
         active_reqs := active_reqs l |}.

(** The write requests of a closed client are cancelled. *)
Definition uv__finish_close (h : uv_handle) (l : loop_t) : loop_t :=
  {| handle_queue := filter (.≠ h) (handle_queue l); active_handles := active_handles l;
     closing_handles := closing_handles l; closed_handles := closed_handles l ++ [h];
     active_reqs := filter (λ c, Client c ≠ h) (active_reqs l) |}.

Definition uv__run_closing_handles : M loop_t unit :=
  modify (λ l,
    foldl (λ l h, uv__finish_close h l)
      {| handle_queue := handle_queue l; active_handles := active_handles l;
         closing_handles := []; closed_handles := closed_handles l;
         active_reqs := active_reqs l |} (closing_handles l)).

Definition uv__loop_alive (l : loop_t) : bool :=
  negb (bool_decide (active_handles l = [])) || negb (bool_decide (active_reqs l = []))
  || negb (bool_decide (closing_handles l = [])).

(** One turn of the loop of [uv_run]: timers, prepare callbacks, polling, closing; the
    check callbacks of the service do nothing. *)
Definition uv_turn (run_timers run_prepare io_poll : M loop_t unit) : M loop_t unit :=
  run_timers;; run_prepare;; io_poll;; uv__run_closing_handles.

(** The code, and the loop; a loop that closes is given back to the system. *)
Definition uv_loop_close (l : loop_t) : Z :=
  if negb (bool_decide (active_reqs l = [])) then UV_EBUSY
  else if negb (bool_decide (handle_queue l = [])) then UV_EBUSY
  else 0.

Fixpoint walk_list (walk_cb : uv_handle → M loop_t unit) (hs : list uv_handle) : M loop_t unit :=
  match hs with
  | [] => mret tt
  | h :: hs => walk_cb h;; walk_list walk_cb hs
  end.

(** Moving the handles to a local queue and back leaves their order. *)
Definition uv_walk (walk_cb : uv_handle → M loop_t unit) : M loop_t unit :=
  l ← get; walk_list walk_cb (handle_queue l).

(** ** Lemmas *)

(** A handle is at most one of active, closing and closed, each handle of the queue is
    not closed, and the closing ones are in the queue. *)
Record loop_ok (l : loop_t) : Prop := {
  lo_active : ∀ h, h ∈ active_handles l → h ∈ handle_queue l ∧ uv_is_closing h l = false;
  lo_closing : ∀ h, h ∈ closing_handles l → h ∈ handle_queue l ∧ h ∉ closed_handles l;
  lo_queue : ∀ h, h ∈ handle_queue l → h ∉ closed_handles l;
}.

Lemma is_closing_false h l :
  uv_is_closing h l = false ↔ h ∉ closing_handles l ∧ h ∉ closed_handles l.
Proof.
  unfold uv_is_closing. rewrite orb_false_iff, !bool_decide_eq_false. done.
Qed.

Lemma uv_close_run h l :
  uv_is_closing h l = false →
  uv_close h l = Some (tt,
    {| handle_queue := handle_queue l; active_handles := filter (.≠ h) (active_handles l);
       closing_handles := h :: closing_handles l; closed_handles := closed_handles l;
       active_reqs := active_reqs l |}).
Proof. intros H. unfold uv_close. repeat mnext. by rewrite H. Qed.

(** What finishing the close of the handles [hs] leaves. *)
Lemma finish_closes hs l :
  let l' := foldl (λ l h, uv__finish_close h l) l hs in
  handle_queue l' = filter (.∉ hs) (handle_queue l) ∧ active_handles l' = active_handles l ∧
  closing_handles l' = closing_handles l ∧ closed_handles l' = closed_handles l ++ hs ∧
  active_reqs l' = filter (λ c, Client c ∉ hs) (active_reqs l).
Proof.
  revert l. induction hs as [|h hs IH]; intros l; simpl.
  - rewrite app_nil_r.
    assert (Hf : ∀ {A} (P : A → Prop) `{!∀ x, Decision (P x)} (xs : list A),
      (∀ x, P x) → filter P xs = xs).
    { intros A P HP xs Hall. induction xs as [|x xs IHx]; [done|].
      by rewrite filter_cons_True, IHx. }
    rewrite !Hf; [done|intros x; apply not_elem_of_nil..].
  - destruct (IH (uv__finish_close h l)) as (E1 & E2 & E3 & E4 & E5).
    rewrite E1, E2, E3, E4, E5. simpl. rewrite <- app_assoc. split; [|split; [|split; [|split]]]; try done.
    + rewrite list_filter_filter. apply list_filter_iff. intros x.
      rewrite not_elem_of_cons. tauto.
    + rewrite list_filter_filter. apply list_filter_iff. intros x.
      rewrite not_elem_of_cons. tauto.
Qed.

Lemma run_closing_run l :
  ∃ l', uv__run_closing_handles l = Some (tt, l') ∧
    handle_queue l' = filter (.∉ closing_handles l) (handle_queue l) ∧
    active_handles l' = active_handles l ∧ closing_handles l' = [] ∧
    closed_handles l' = closed_handles l ++ closing_handles l ∧
    active_reqs l' = filter (λ c, Client c ∉ closing_handles l) (active_reqs l).
Proof.
  eexists. split; [reflexivity|].
  destruct (finish_closes (closing_handles l)
    {| handle_queue := handle_queue l; active_handles := active_handles l;
       closing_handles := []; closed_handles := closed_handles l;
       active_reqs := active_reqs l |}) as (E1 & E2 & E3 & E4 & E5).
  rewrite E1, E2, E3, E4, E5. done.
Qed.

Lemma loop_dead l :
  uv__loop_alive l = false ↔ active_handles l = [] ∧ active_reqs l = [] ∧ closing_handles l = [].
Proof.
  unfold uv__loop_alive. rewrite !orb_false_iff, !negb_false_iff, !bool_decide_eq_true. tauto.
Qed.
