(* ===== verification/ServiceLife.v ===== *)
(** The life cycle of the TCP service: tcp_service_start, tcp_service_stop and the IO
    thread of src/tcp_service.c, with on_timer_cb, on_walk_cb of
    src/tcp_service_internal.c, and the start and stop of src/unity/tcpeen_unity.c.

    The main thread and the IO thread share only the service's state word here; the two
    threads are interleaved at its loads and stores.  The IO thread goes through the
    set-up of its loop, the test of the state, the store of [TCP_SERVICE_STARTED], the
    turns of [uv_run], and the closing of the loop.  What libuv and the network answer
    are arguments of the steps. *)
From stdpp Require Import base numbers list option.
From Stdlib Require Import ZArith Lia.
From S2P Require Import Prelude Inet Endpoint Service UvLoop.

Local Open Scope Z_scope.

(** ** Data *)

(** Where the IO thread is: not launched, launched, with its listener up, past the test
    of the state, in [uv_run], after it, returned. *)
Inductive io_phase := IoNone | IoSetup | IoListening | IoStarting | IoRunning | IoClosing | IoDone.
Inductive main_phase := MainIdle | MainJoin.

#[global] Instance io_phase_eq_dec : EqDecision io_phase.
Proof. solve_decision. Defined.
#[global] Instance main_phase_eq_dec : EqDecision main_phase.
Proof. solve_decision. Defined.

(** The blocks the IO thread acquires. *)
Inductive io_block := BLoop | BTcp | BTimer | BPrep | BCheck | BSignal.
#[global] Instance io_block_eq_dec : EqDecision io_block.
Proof. solve_decision. Defined.

(** [lf_exit] is the last [ret] of the IO thread, [lf_lost] the loops that were released
    without having been closed. *)
Record life := {
  lf_state : Z;
  lf_host : tn_endpoint_t;
  lf_main : main_phase;
  lf_io : io_phase;
  lf_loop : loop_t;
  lf_blocks : list io_block;
  lf_exit : Z;
  lf_lost : list loop_t;
}.

Definition set_lf_state (x : Z) (s : life) : life :=
  {| lf_state := x; lf_host := lf_host s; lf_main := lf_main s; lf_io := lf_io s;
     lf_loop := lf_loop s; lf_blocks := lf_blocks s; lf_exit := lf_exit s; lf_lost := lf_lost s |}.
Definition set_lf_host (x : tn_endpoint_t) (s : life) : life :=
  {| lf_state := lf_state s; lf_host := x; lf_main := lf_main s; lf_io := lf_io s;
     lf_loop := lf_loop s; lf_blocks := lf_blocks s; lf_exit := lf_exit s; lf_lost := lf_lost s |}.
Definition set_lf_main (x : main_phase) (s : life) : life :=
  {| lf_state := lf_state s; lf_host := lf_host s; lf_main := x; lf_io := lf_io s;
     lf_loop := lf_loop s; lf_blocks := lf_blocks s; lf_exit := lf_exit s; lf_lost := lf_lost s |}.
Definition set_lf_io (x : io_phase) (s : life) : life :=
  {| lf_state := lf_state s; lf_host := lf_host s; lf_main := lf_main s; lf_io := x;
     lf_loop := lf_loop s; lf_blocks := lf_blocks s; lf_exit := lf_exit s; lf_lost := lf_lost s |}.
Definition set_lf_loop (x : loop_t) (s : life) : life :=
  {| lf_state := lf_state s; lf_host := lf_host s; lf_main := lf_main s; lf_io := lf_io s;
     lf_loop := x; lf_blocks := lf_blocks s; lf_exit := lf_exit s; lf_lost := lf_lost s |}.
Definition set_lf_blocks (x : list io_block) (s : life) : life :=
  {| lf_state := lf_state s; lf_host := lf_host s; lf_main := lf_main s; lf_io := lf_io s;
     lf_loop := lf_loop s; lf_blocks := x; lf_exit := lf_exit s; lf_lost := lf_lost s |}.
Definition set_lf_exit (code : Z) (lost : list loop_t) (s : life) : life :=
  {| lf_state := lf_state s; lf_host := lf_host s; lf_main := lf_main s; lf_io := lf_io s;
     lf_loop := lf_loop s; lf_blocks := lf_blocks s; lf_exit := code; lf_lost := lost |}.

Definition on_loop {A} (m : M loop_t A) : M life A := zoom lf_loop set_lf_loop m.

(** ** The main thread *)

(** [launch] is the code of [tn_thread_launch], which starts the IO thread. *)
Definition tcp_service_start (if_nametoindex : list Z → Z) (ipstr : ptr (list Z)) (port : Z)
    (launch : Z) : M life Z :=
  s ← get;
  let state := lf_state s in
  if negb (state =? TCP_SERVICE_NEW) && negb (state =? TCP_SERVICE_STOPPED) then mret TN_ERROR
  else
    modify (set_lf_state TCP_SERVICE_STARTING);;
    r ← zoom lf_host set_lf_host (tn_endpoint_set if_nametoindex ipstr port);
    if negb (r =? 0) then mret TN_ERROR
    else
      s ← get;
      g ← lift (tn_endpoint_get_string (lf_host s) 255);
      if negb (g.1 =? 0) then mret TN_ERROR
      else if negb (launch =? 0) then mret TN_ERROR
      else modify (set_lf_io IoSetup);; mret TN_SUCCESS.

(** [tcp_service_stop] up to the join: [None] when the call goes on to wait. *)
Definition tcp_service_stop_begin : M life (option Z) :=
  s ← get;
  let state := lf_state s in
  if (state =? TCP_SERVICE_STOPPING) || (state =? TCP_SERVICE_STOPPED) then mret (Some TN_ERROR)
  else
    modify (set_lf_state TCP_SERVICE_STOPPING);;
    modify (set_lf_main MainJoin);;
    mret None.

(** [tcp_service_stop] once the thread is joined. *)
Definition tcp_service_stop_end : M life Z :=
  modify (set_lf_io IoNone);;
  modify (set_lf_main MainIdle);;
  modify (set_lf_state TCP_SERVICE_STOPPED);;
  mret TN_SUCCESS.

Definition tcp_service_stop_signal : M life Z :=
  s ← get;
  let state := lf_state s in
  if (state =? TCP_SERVICE_STOPPING) || (state =? TCP_SERVICE_STOPPED) then mret TN_ERROR
  else modify (set_lf_state TCP_SERVICE_STOPPING);; mret TN_SUCCESS.

(** The plug-in's start and stop; [priv] tells whether the service was set up. *)
Definition tcpeen_service_start (if_nametoindex : list Z → Z) (priv : bool) (ipstr : ptr (list Z)) (port launch : Z) : M life Z :=
  if negb priv then mret TN_ERROR
  else
    r ← tcp_service_start if_nametoindex ipstr port launch;
    if negb (r =? 0) then mret TN_ERROR else mret TN_SUCCESS.
Definition tcpeen_service_stop_begin (priv : bool) : M life (option Z) :=
  if negb priv then mret (Some TN_ERROR)
  else
    r ← tcp_service_stop_begin;
    mret (match r with Some code => Some (if negb (code =? 0) then TN_ERROR else TN_SUCCESS) | None => None end).
Definition tcpeen_service_stop_end : M life Z :=
  r ← tcp_service_stop_end;
  if negb (r =? 0) then mret TN_ERROR else mret TN_SUCCESS.

Definition SIGINT : Z := 2.

(** No signal handle is started: the calls that would are commented out. *)
Definition on_sigint_cb (signum : Z) : M life unit :=
  if negb (signum =? SIGINT) then mret tt
  else r ← tcp_service_stop_signal; mret tt.

(** ** The IO thread *)

(** The calls of [tcp_service_io_thread] whose answers its guards test, in order. *)
Inductive io_call :=
  | AcqLoop | AcqTcp | AcqTimer | AcqPrep | AcqCheck | AcqSignal
  | LoopInit | TimerInit | TimerStart | PrepInit | PrepStart | CheckInit | CheckStart
  | TcpInit | TcpNodelay | TcpBind | TcpListen.

Definition io_calls : list io_call :=
  [AcqLoop; AcqTcp; AcqTimer; AcqPrep; AcqCheck; AcqSignal;
   LoopInit; TimerInit; TimerStart; PrepInit; PrepStart; CheckInit; CheckStart;
   TcpInit; TcpNodelay; TcpBind; TcpListen].

(** What a successful call does. *)
Definition io_effect (c : io_call) (s : life) : life :=
  match c with
  | AcqLoop => set_lf_blocks (lf_blocks s ++ [BLoop]) s
  | AcqTcp => set_lf_blocks (lf_blocks s ++ [BTcp]) s
  | AcqTimer => set_lf_blocks (lf_blocks s ++ [BTimer]) s
  | AcqPrep => set_lf_blocks (lf_blocks s ++ [BPrep]) s
  | AcqCheck => set_lf_blocks (lf_blocks s ++ [BCheck]) s
  | AcqSignal => set_lf_blocks (lf_blocks s ++ [BSignal]) s
  | LoopInit => set_lf_loop empty_loop s
  | TimerInit => set_lf_loop (uv__handle_init AcceptTimer (lf_loop s)) s
  | TimerStart => set_lf_loop (uv__handle_start AcceptTimer (lf_loop s)) s
  | PrepInit => set_lf_loop (uv__handle_init Prep (lf_loop s)) s
  | PrepStart => set_lf_loop (uv__handle_start Prep (lf_loop s)) s
  | CheckInit => set_lf_loop (uv__handle_init Check (lf_loop s)) s
  | CheckStart => set_lf_loop (uv__handle_start Check (lf_loop s)) s
  | TcpInit => set_lf_loop (uv__handle_init Listener (lf_loop s)) s
  | TcpNodelay | TcpBind => s
  | TcpListen => set_lf_loop (uv__handle_start Listener (lf_loop s)) s
  end.

(** The chain of guards: the code of the first call that fails, or 0, and the calls that
    succeeded. *)
Fixpoint io_guards (answer : io_call → Z) (cs : list io_call) : M life Z :=
  match cs with
  | [] => mret 0
  | c :: cs =>
      if answer c =? 0 then modify (io_effect c);; io_guards answer cs else mret (answer c)
  end.

(** The [cleanup] label: every block but the signal's is released; a loop that was set up
    and not closed is lost. *)
Definition io_cleanup (ret : Z) (closed : bool) : M life unit :=
  modify (λ s, set_lf_exit ret (lf_lost s ++ if closed then [] else [lf_loop s]) s);;
  modify (λ s, set_lf_blocks (filter (.= BSignal) (lf_blocks s)) s);;
  modify (set_lf_io IoDone).

(** Whether [uv_loop_init] was reached and succeeded. *)
Definition loop_is_init (answer : io_call → Z) : bool :=
  forallb (λ c, answer c =? 0) [AcqLoop; AcqTcp; AcqTimer; AcqPrep; AcqCheck; AcqSignal; LoopInit].

Definition io_setup (answer : io_call → Z) : M life unit :=
  ret ← io_guards answer io_calls;
  if negb (ret =? 0) then io_cleanup ret (negb (loop_is_init answer))
  else modify (set_lf_io IoListening).

(** The load of the state, and the store. *)
Definition io_check : M life unit :=
  s ← get;
  modify (set_lf_io (if lf_state s =? TCP_SERVICE_STARTING then IoStarting else IoClosing)).
Definition io_store : M life unit :=
  modify (set_lf_state TCP_SERVICE_STARTED);;
  modify (set_lf_io IoRunning).

Definition close_unless_closing (h : uv_handle) : M loop_t unit :=
  l ← get; if uv_is_closing h l then mret tt else uv_close h.

Definition on_timer_cb (state : Z) : M loop_t unit :=
  if state =? TCP_SERVICE_STARTED then mret tt
  else
    close_unless_closing Listener;;
    close_unless_closing AcceptTimer;;
    close_unless_closing Prep;;
    close_unless_closing Check.

(** What polling finds: a connection, accepted or refused by [on_connection_cb]; a client
    that leaves or is closed for an error; a finished write. *)
Inductive poll_event := PAccept (c : nat) (ok : bool) | PLeave (c : nat) | PWritten (c : nat).

Definition on_poll (e : poll_event) : M loop_t unit :=
  l ← get;
  match e with
  | PAccept c ok =>
      if bool_decide (Listener ∈ active_handles l) && bool_decide (Client c ∉ handle_queue l)
         && bool_decide (Client c ∉ closed_handles l) then
        modify (uv__handle_init (Client c));;
        if ok then modify (uv__handle_start (Client c)) else uv_close (Client c)
      else mret tt
  | PLeave c => if decide (Client c ∈ active_handles l) then uv_close (Client c) else mret tt
  | PWritten c =>
      put {| handle_queue := handle_queue l; active_handles := active_handles l;
             closing_handles := closing_handles l; closed_handles := closed_handles l;
             active_reqs := match list_find (.= c) (active_reqs l) with
                            | Some (i, _) => delete i (active_reqs l)
                            | None => active_reqs l
                            end |}
  end.

Fixpoint io_polls (es : list poll_event) : M loop_t unit :=
  match es with [] => mret tt | e :: es => on_poll e;; io_polls es end.

(** A turn: whether the timer is due, the clients the prepare callback writes to, and
    what polling finds. *)
Record turn := { timer_due : bool; writes : list nat; polled : list poll_event }.

Definition run_timers (state : Z) (t : turn) : M loop_t unit :=
  l ← get;
  if timer_due t && bool_decide (AcceptTimer ∈ active_handles l) then on_timer_cb state
  else mret tt.

Definition run_prepare (t : turn) : M loop_t unit :=
  modify (λ l,
    if decide (Prep ∈ active_handles l) then
      {| handle_queue := handle_queue l; active_handles := active_handles l;
         closing_handles := closing_handles l; closed_handles := closed_handles l;
         active_reqs := active_reqs l ++ filter (λ c, Client c ∈ active_handles l) (writes t) |}
    else l).

(** A turn of [uv_run] and the test whether there is another. *)
Definition io_turn (t : turn) : M life unit :=
  s ← get;
  on_loop (uv_turn (run_timers (lf_state s) t) (run_prepare t) (io_polls (polled t)));;
  s ← get;
  if uv__loop_alive (lf_loop s) then mret tt else modify (set_lf_io IoClosing).

Definition on_walk_cb (h : uv_handle) : M loop_t unit := close_unless_closing h.

Definition io_close : M life unit :=
  s ← get;
  if uv_loop_close (lf_loop s) =? 0 then io_cleanup TN_SUCCESS true
  else
    on_loop (uv_walk on_walk_cb);;
    s ← get;
    let ret := uv_loop_close (lf_loop s) in
    if negb (ret =? 0) then io_cleanup ret false else io_cleanup TN_SUCCESS true.

(** ** The two threads together *)

Inductive lact :=
  | AStart (ipstr : list Z) (port launch : Z)
  | AStop
  | AJoined
  | ASignal
  | AIoSetup (answer : io_call → Z)
  | AIoCheck
  | AIoStore
  | AIoTurn (t : turn)
  | AIoClose.

Section Threads.
Context (if_nametoindex : list Z → Z).

Definition exec_lact (a : lact) : M life unit :=
  match a with
  | AStart ip port launch => tcp_service_start if_nametoindex (Some ip) port launch;; mret tt
  | AStop => tcp_service_stop_begin;; mret tt
  | AJoined => tcp_service_stop_end;; mret tt
  | ASignal => tcp_service_stop_signal;; mret tt
  | AIoSetup answer => io_setup answer
  | AIoCheck => io_check
  | AIoStore => io_store
  | AIoTurn t => io_turn t
  | AIoClose => io_close
  end.

(** The calls of the main thread are made while it does not wait; the join returns when
    there is no thread or it has returned; the IO thread takes its steps in order. *)
Definition lenabled (a : lact) (s : life) : Prop :=
  match a with
  | AStart _ _ _ | AStop | ASignal => lf_main s = MainIdle
  | AJoined => lf_main s = MainJoin ∧ (lf_io s = IoNone ∨ lf_io s = IoDone)
  | AIoSetup _ => lf_io s = IoSetup
  | AIoCheck => lf_io s = IoListening
  | AIoStore => lf_io s = IoStarting
  | AIoTurn _ => lf_io s = IoRunning
  | AIoClose => lf_io s = IoClosing
  end.

Inductive lruns : life → list lact → life → Prop :=
  | lruns_nil s : lruns s [] s
  | lruns_cons s a s1 acts s2 :
      lenabled a s → exec_lact a s = Some (tt, s1) → lruns s1 acts s2 →
      lruns s (a :: acts) s2.
End Threads.

(** A service that was set up. *)
Definition new_life : life :=
  {| lf_state := TCP_SERVICE_NEW; lf_host := zero_endpoint; lf_main := MainIdle; lf_io := IoNone;
     lf_loop := empty_loop; lf_blocks := []; lf_exit := 0; lf_lost := [] |}.

(** ** The loop during a turn *)

Definition service_handles : list uv_handle := [Listener; AcceptTimer; Prep; Check].

(** Every handle of the queue is active or closing, and the write requests are those of
    clients of the queue. *)
Record turn_ok (l : loop_t) : Prop := {
  to_loop : loop_ok l;
  to_cover : ∀ h, h ∈ handle_queue l → h ∈ active_handles l ∨ h ∈ closing_handles l;
  to_reqs : ∀ c, c ∈ active_reqs l → Client c ∈ handle_queue l;
}.

Definition closed_over (h : uv_handle) (l : loop_t) : loop_t :=
  {| handle_queue := handle_queue l; active_handles := filter (.≠ h) (active_handles l);
     closing_handles := h :: closing_handles l; closed_handles := closed_handles l;
     active_reqs := active_reqs l |}.

Lemma closed_over_ok h l :
  turn_ok l → h ∈ handle_queue l → uv_is_closing h l = false → turn_ok (closed_over h l).
Proof.
  intros [[Ha Hc Hq] Hcov Hr] Hh Hnc. apply is_closing_false in Hnc as [Hn1 Hn2].
  split; [split|..]; simpl.
  - intros x [Hne Hx]%list_elem_of_filter. destruct (Ha x Hx) as [Hxq Hxc]. split; [done|].
    apply is_closing_false in Hxc as [? ?]. apply is_closing_false. simpl.
    rewrite not_elem_of_cons. done.
  - intros x [->|Hx]%elem_of_cons; [done|by apply Hc].
  - done.
  - intros x Hx. destruct (decide (x = h)) as [->|Hne]; [right; left|].
    destruct (Hcov x Hx) as [Hax|Hcx]; [left; by apply list_elem_of_filter|right; by right].
  - done.
Qed.

Lemma active_close_run h l :
  turn_ok l → h ∈ active_handles l →
  uv_close h l = Some (tt, closed_over h l) ∧ turn_ok (closed_over h l).
Proof.
  intros Hok Hh. destruct (lo_active _ (to_loop _ Hok) h Hh) as [Hq Hnc].
  split; [by apply uv_close_run|by apply closed_over_ok].
Qed.

(** What a poll event keeps. *)
Record polls (l l' : loop_t) : Prop := {
  po_ok : turn_ok l';
  po_service : ∀ h, (∀ c, h ≠ Client c) → h ∈ active_handles l' ↔ h ∈ active_handles l;
  po_closing : ∀ h, h ∈ closing_handles l → h ∈ closing_handles l';
  po_own : ∀ h, (∀ c, h ≠ Client c) → h ∈ closing_handles l' → h ∈ closing_handles l;
  po_closed : closed_handles l' = closed_handles l;
  po_no_listener : Listener ∉ active_handles l →
    ∀ h, h ∈ active_handles l' → h ∈ active_handles l;
}.

Lemma polls_refl l : turn_ok l → polls l l.
Proof. by split. Qed.

Lemma polls_trans l1 l2 l3 : polls l1 l2 → polls l2 l3 → polls l1 l3.
Proof.
  intros [Ha1 Ha2 Ha3 Ha3' Ha4 Ha5] [Hb1 Hb2 Hb3 Hb3' Hb4 Hb5]. split; [done|..].
  - intros h Hh. rewrite Hb2, Ha2; done.
  - auto.
  - auto.
  - congruence.
  - intros Hl h Hh. apply Ha5; [done|]. apply Hb5; [|done].
    by rewrite Ha2.
Qed.

Lemma client_not_service c : Client c ∉ service_handles.
Proof. unfold service_handles. rewrite !not_elem_of_cons. split_and!; try done. apply not_elem_of_nil. Qed.

Lemma service_not_client h : h ∈ service_handles → ∀ c, h ≠ Client c.
Proof. intros Hh c ->. by apply client_not_service in Hh. Qed.

Lemma polls_close c l :
  turn_ok l → Client c ∈ active_handles l → polls l (closed_over (Client c) l).
Proof.
  intros Hok Hc. split; [by apply active_close_run|..]; simpl.
  - intros h Hh. rewrite list_elem_of_filter. split; [by intros [_ ?]|]. intros Ha. by split.
  - intros h Hh. by right.
  - intros h Hh [->|Hx]%elem_of_cons; [by destruct (Hh c)|done].
  - done.
  - by intros _ h [_ Hh]%list_elem_of_filter.
Qed.

Definition accepted (c : nat) (l : loop_t) : loop_t :=
  uv__handle_start (Client c) (uv__handle_init (Client c) l).

Lemma polls_accept c l :
  turn_ok l → Listener ∈ active_handles l →
  Client c ∉ handle_queue l → Client c ∉ closed_handles l → polls l (accepted c l).
Proof.
  intros [[Ha Hc Hq] Hcov Hr] Hlis Hnq Hncl.
  assert (Hna : Client c ∉ active_handles l) by (intros H; by destruct (Ha _ H)).
  assert (Hncg : Client c ∉ closing_handles l) by (intros H; by destruct (Hc _ H)).
  assert (Eact : active_handles (accepted c l) = active_handles l ++ [Client c]).
  { unfold accepted. simpl. by rewrite decide_False. }
  split; [split; [split|..]|..]; rewrite ?Eact; simpl.
  - intros h [Hh|Hh]%elem_of_app.
    + destruct (Ha h Hh). split; [apply elem_of_app; by left|done].
    + apply list_elem_of_singleton in Hh as ->. split; [apply elem_of_app; right; by left|].
      apply is_closing_false. done.
  - intros h Hh. destruct (Hc h Hh). split; [apply elem_of_app; by left|done].
  - intros h [Hh|Hh]%elem_of_app; [by apply Hq|]. by apply list_elem_of_singleton in Hh as ->.
  - intros h [Hh|Hh]%elem_of_app.
    + destruct (Hcov h Hh); [left; apply elem_of_app; by left|by right].
    + left. apply elem_of_app. by right.
  - intros x Hx. apply elem_of_app. left. by apply Hr.
  - intros h Hh. rewrite elem_of_app, list_elem_of_singleton. split; [|by left].
    intros [? | ->]; [done|]. by destruct (Hh c).
  - done.
  - done.
  - done.
  - done.
Qed.

Lemma polls_refuse c l :
  turn_ok l → Listener ∈ active_handles l →
  Client c ∉ handle_queue l → Client c ∉ closed_handles l →
  ∃ l', uv_close (Client c) (uv__handle_init (Client c) l) = Some (tt, l') ∧ polls l l'.
Proof.
  intros [[Ha Hc Hq] Hcov Hr] Hlis Hnq Hncl.
  assert (Hna : Client c ∉ active_handles l) by (intros H; by destruct (Ha _ H)).
  assert (Hncg : Client c ∉ closing_handles l) by (intros H; by destruct (Hc _ H)).
  eexists. split; [apply uv_close_run; apply is_closing_false; done|].
  assert (Eact : filter (.≠ Client c) (active_handles l) = active_handles l).
  { clear -Hna. induction (active_handles l) as [|h t IH]; [done|].
    apply not_elem_of_cons in Hna as [H1 H2]. rewrite filter_cons_True by done. by rewrite IH. }
  split; [split; [split|..]|..]; simpl; rewrite ?Eact.
  - intros h Hh. destruct (Ha h Hh) as [H1 H2]. split; [apply elem_of_app; by left|].
    apply is_closing_false in H2 as [? ?]. apply is_closing_false. simpl.
    rewrite not_elem_of_cons. split; [split; [|done]|done]. by intros ->.
  - intros h [->|Hh]%elem_of_cons; [split; [apply elem_of_app; right; by left|done]|].
    destruct (Hc h Hh). split; [apply elem_of_app; by left|done].
  - intros h [Hh|Hh]%elem_of_app; [by apply Hq|]. by apply list_elem_of_singleton in Hh as ->.
  - intros h [Hh|Hh]%elem_of_app.
    + destruct (Hcov h Hh); [by left|right; by right].
    + apply list_elem_of_singleton in Hh as ->. right. by left.
  - intros x Hx. apply elem_of_app. left. by apply Hr.
  - done.
  - intros h Hh. by right.
  - intros h Hh [->|Hx]%elem_of_cons; [by destruct (Hh c)|done].
  - done.
  - done.
Qed.

(** A poll event is defined and keeps the loop in order; a client stays active unless it
    is the one that leaves. *)
Lemma on_poll_run e l :
  turn_ok l →
  ∃ l', on_poll e l = Some (tt, l') ∧ polls l l' ∧
    (∀ c, e ≠ PLeave c → Client c ∈ active_handles l → Client c ∈ active_handles l') ∧
    (∀ c, e = PLeave c → Client c ∉ active_handles l').
Proof.
  intros Hok. destruct e as [c ok|c|c]; unfold on_poll; repeat mnext.
  - destruct (bool_decide (Listener ∈ active_handles l)) eqn:E1; simpl.
    2: { exists l. split; [done|]. split; [by apply polls_refl|done]. }
    destruct (bool_decide (Client c ∉ handle_queue l)) eqn:E2; simpl.
    2: { exists l. split; [done|]. split; [by apply polls_refl|done]. }
    destruct (bool_decide (Client c ∉ closed_handles l)) eqn:E3; simpl.
    2: { exists l. split; [done|]. split; [by apply polls_refl|done]. }
    apply bool_decide_eq_true in E1, E2, E3. repeat mnext. destruct ok.
    + exists (accepted c l). split; [done|]. split; [by apply polls_accept|]. split; [|done].
      intros c' _ Hc'. unfold accepted. simpl. destruct (decide _); [done|].
      apply elem_of_app. by left.
    + destruct (polls_refuse c l Hok E1 E2 E3) as (l' & Hr & Hp). exists l'. split; [done|].
      split; [done|]. split; [|done]. intros c' _ Hc'.
      assert (c' ≠ c).
      { intros ->. apply E2. by apply (lo_active _ (to_loop _ Hok)). }
      rewrite uv_close_run in Hr.
      * injection Hr as <-. simpl. apply list_elem_of_filter. split; [congruence|done].
      * apply is_closing_false. split; [|done]. intros Hcl.
        by apply (lo_closing _ (to_loop _ Hok)) in Hcl as [? _].
  - destruct (decide (Client c ∈ active_handles l)) as [Hc|Hc].
    + destruct (active_close_run (Client c) l Hok Hc) as [Hr _]. eexists. split; [exact Hr|].
      split; [by apply polls_close|]. split.
      * intros c' Hne Hc'. simpl. apply list_elem_of_filter. split; [congruence|done].
      * intros c' E. injection E as ->. simpl. rewrite list_elem_of_filter. naive_solver.
    + exists l. split; [done|]. split; [by apply polls_refl|]. split; [done|].
      intros c' E. by injection E as ->.
  - eexists. split; [reflexivity|]. split; [|done].
    destruct Hok as [[Ha Hc Hq] Hcov Hr]. split; [split; [by split|done|]|done|done|done|done|done].
    simpl. intros c' Hc'. apply Hr. destruct (list_find (.= c) (active_reqs l)) as [[i x]|]; [|done].
    eapply (elem_of_submseteq _ _ c' Hc'), sublist_submseteq, sublist_delete.
Qed.

Lemma io_polls_run es l :
  turn_ok l →
  ∃ l', io_polls es l = Some (tt, l') ∧ polls l l' ∧
    (∀ c, PLeave c ∉ es → Client c ∈ active_handles l → Client c ∈ active_handles l') ∧
    (Listener ∉ active_handles l → ∀ c, PLeave c ∈ es → Client c ∉ active_handles l').
Proof.
  revert l. induction es as [|e es IH]; intros l Hok.
  { exists l. split; [done|]. split; [by apply polls_refl|]. split; [done|].
    by intros _ c Hc%elem_of_nil. }
  destruct (on_poll_run e l Hok) as (l1 & Hr1 & Hp1 & Hk1 & Hl1).
  destruct (IH l1 (po_ok _ _ Hp1)) as (l2 & Hr2 & Hp2 & Hk2 & Hl2).
  exists l2. cbn [io_polls]. split; [by bstep Hr1|]. split; [by eapply polls_trans|]. split.
  - intros c [Hne Hn]%not_elem_of_cons Hc. apply Hk2; [done|]. apply Hk1; [congruence|done].
  - intros Hlis c [E|Hc]%elem_of_cons Ha.
    + apply (Hl1 c (eq_sym E)). apply (po_no_listener _ _ Hp2); [|done].
      by rewrite (po_service _ _ Hp1).
    + revert Ha. apply Hl2; [|done]. by rewrite (po_service _ _ Hp1).
Qed.

(** The loop has the service's four handles active; or they are closed. *)
Definition up (l : loop_t) : Prop := ∀ h, h ∈ service_handles → h ∈ active_handles l.
Definition down (l : loop_t) : Prop :=
  ∀ h, h ∈ service_handles → h ∉ active_handles l ∧ h ∈ closed_handles l.

Lemma close_unless_closing_run h l :
  turn_ok l → h ∈ active_handles l →
  close_unless_closing h l = Some (tt, closed_over h l) ∧ turn_ok (closed_over h l).
Proof.
  intros Hok Hh. destruct (active_close_run h l Hok Hh) as [Hr Hok'].
  destruct (lo_active _ (to_loop _ Hok) h Hh) as [_ Hnc].
  unfold close_unless_closing. repeat mnext. by rewrite Hnc.
Qed.

Lemma closed_over_active h h' l :
  h ∈ active_handles l → h ≠ h' → h ∈ active_handles (closed_over h' l).
Proof. intros. simpl. by apply list_elem_of_filter. Qed.

Lemma on_timer_run state l :
  turn_ok l → up l → state ≠ TCP_SERVICE_STARTED →
  ∃ l', on_timer_cb state l = Some (tt, l') ∧ turn_ok l' ∧
    handle_queue l' = handle_queue l ∧ closed_handles l' = closed_handles l ∧
    (∀ h, h ∈ active_handles l' ↔ h ∈ active_handles l ∧ h ∉ service_handles) ∧
    (∀ h, h ∈ closing_handles l' ↔ h ∈ service_handles ∨ h ∈ closing_handles l) ∧
    active_reqs l' = active_reqs l.
Proof.
  intros Hok Hup Hst. unfold on_timer_cb. rewrite (proj2 (Z.eqb_neq _ _)) by done.
  assert (Hin : Listener ∈ active_handles l ∧ AcceptTimer ∈ active_handles l ∧
    Prep ∈ active_handles l ∧ Check ∈ active_handles l).
  { split_and!; apply Hup; unfold service_handles; rewrite !elem_of_cons; tauto. }
  destruct Hin as (H1 & H2 & H3 & H4).
  destruct (close_unless_closing_run Listener l Hok H1) as [R1 O1].
  destruct (close_unless_closing_run AcceptTimer _ O1
    (closed_over_active AcceptTimer Listener l H2 ltac:(done))) as [R2 O2].
  destruct (close_unless_closing_run Prep _ O2) as [R3 O3];
    [by repeat apply closed_over_active|].
  destruct (close_unless_closing_run Check _ O3) as [R4 O4];
    [by repeat apply closed_over_active|].
  eexists. split; [bstep R1; bstep R2; bstep R3; exact R4|]. split; [exact O4|].
  simpl. unfold service_handles. split_and!; try done.
  - intros h. rewrite !list_elem_of_filter, !not_elem_of_cons. split; [|tauto].
    intros (?&?&?&?&?). split_and!; try done. apply not_elem_of_nil.
  - intros h. rewrite !elem_of_cons, elem_of_nil. tauto.
Qed.

Lemma run_prepare_run t l :
  turn_ok l →
  ∃ l', run_prepare t l = Some (tt, l') ∧ turn_ok l' ∧ handle_queue l' = handle_queue l ∧
    active_handles l' = active_handles l ∧ closing_handles l' = closing_handles l ∧
    closed_handles l' = closed_handles l ∧ (Prep ∉ active_handles l → active_reqs l' = active_reqs l).
Proof.
  intros Hok. unfold run_prepare. eexists. split; [reflexivity|].
  destruct (decide (Prep ∈ active_handles l)) as [Hp|Hp]; [|done].
  split; [|simpl; by split_and!]. destruct Hok as [[Ha Hc Hq] Hcov Hr].
  split; [by split|done|]. simpl. intros c [Hc'|Hc']%elem_of_app; [by apply Hr|].
  apply list_elem_of_filter in Hc' as [Hc' _]. by apply Ha.
Qed.

(** The close phase. *)
Lemma run_closing_ok l :
  turn_ok l →
  ∃ l', uv__run_closing_handles l = Some (tt, l') ∧ turn_ok l' ∧ closing_handles l' = [] ∧
    active_handles l' = active_handles l ∧
    closed_handles l' = closed_handles l ++ closing_handles l.
Proof.
  intros [[Ha Hc Hq] Hcov Hr]. destruct (run_closing_run l) as (l' & Hrun & E1 & E2 & E3 & E4 & E5).
  exists l'. split; [done|]. split; [|done].
  split; [split|..]; rewrite ?E1, ?E2, ?E3, ?E5.
  - intros h Hh. destruct (Ha h Hh) as [Hhq Hhc]. apply is_closing_false in Hhc as [Hn1 Hn2].
    split; [by apply list_elem_of_filter|]. apply is_closing_false. rewrite E3, E4.
    split; [apply not_elem_of_nil|]. by rewrite not_elem_of_app.
  - by intros h Hh%elem_of_nil.
  - intros h [Hn Hh]%list_elem_of_filter. rewrite E4, not_elem_of_app. split; [by apply Hq|done].
  - intros h [Hn Hh]%list_elem_of_filter. destruct (Hcov h Hh); [by left|done].
  - intros c [Hn Hc']%list_elem_of_filter. apply list_elem_of_filter. split; [done|by apply Hr].
Qed.

(** A turn. *)
Definition closes (state : Z) (t : turn) : bool := timer_due t && negb (state =? TCP_SERVICE_STARTED).

Lemma turn_run state t l :
  turn_ok l → closing_handles l = [] → (up l ∨ down l) →
  ∃ l', uv_turn (run_timers state t) (run_prepare t) (io_polls (polled t)) l = Some (tt, l') ∧
    turn_ok l' ∧ closing_handles l' = [] ∧
    (down l → down l') ∧
    (up l → if closes state t then down l' else up l') ∧
    (∀ c, PLeave c ∉ polled t → Client c ∈ active_handles l → Client c ∈ active_handles l') ∧
    (down l ∨ closes state t = true →
     (∀ h, h ∈ active_handles l' → h ∈ active_handles l) ∧
     ∀ c, PLeave c ∈ polled t → Client c ∉ active_handles l').
Proof.
  intros Hok Hcl Hud.
  (* the timer *)
  assert (Htimer : ∃ l1, run_timers state t l = Some (tt, l1) ∧ turn_ok l1 ∧
    closed_handles l1 = closed_handles l ∧
    (∀ h, h ∉ service_handles → h ∈ active_handles l1 ↔ h ∈ active_handles l) ∧
    (down l → ∀ h, h ∈ service_handles → h ∉ active_handles l1) ∧
    (up l → if closes state t
            then ∀ h, h ∈ service_handles → h ∉ active_handles l1 ∧ h ∈ closing_handles l1
            else up l1)).
  { assert (Hdn0 : down l → ∀ h, h ∈ service_handles → h ∉ active_handles l)
      by (intros Hdn h Hh; by apply Hdn).
    unfold run_timers, closes. repeat mnext. destruct Hud as [Hup|Hdown].
    - rewrite (bool_decide_true (AcceptTimer ∈ _))
        by (apply Hup; unfold service_handles; rewrite !elem_of_cons; tauto).
      rewrite andb_true_r. destruct (timer_due t); [|by exists l; split_and!].
      destruct (Z.eqb_spec state TCP_SERVICE_STARTED) as [->|Hne]; simpl.
      + exists l. split; [done|]. by split_and!.
      + destruct (on_timer_run state l Hok Hup Hne) as (l1 & Hr & Hok1 & _ & Ecl & Hact & Hcls & _).
        exists l1. split; [done|]. split; [done|]. split; [done|]. split; [|split].
        * intros h Hh. rewrite Hact. tauto.
        * intros _ h Hh. rewrite Hact. tauto.
        * intros _ h Hh. rewrite Hact, Hcls. tauto.
    - rewrite (bool_decide_false (AcceptTimer ∈ _)).
      2: { apply Hdown. unfold service_handles. rewrite !elem_of_cons. tauto. }
      rewrite andb_false_r. exists l. split_and!; try done.
      intros Hup. assert (Hlis : Listener ∈ service_handles) by (by left).
      destruct (Hdown _ Hlis) as [Hn _]. exfalso. apply Hn. by apply Hup. }
  destruct Htimer as (l1 & Hr1 & Hok1 & Ecl1 & Hcli1 & Hdn1 & Hup1).
  destruct (run_prepare_run t l1 Hok1) as (l2 & Hr2 & Hok2 & _ & Eact2 & Ecg2 & Ecl2 & _).
  destruct (io_polls_run (polled t) l2 Hok2) as (l3 & Hr3 & Hp3 & Hstay & Hleave).
  destruct (run_closing_ok l3 (po_ok _ _ Hp3)) as (l4 & Hr4 & Hok4 & Ecg4 & Eact4 & Ecl4).
  exists l4. split; [unfold uv_turn; bstep Hr1; bstep Hr2; bstep Hr3; exact Hr4|].
  split; [done|]. split; [done|].
  assert (Hserv : ∀ h, h ∈ service_handles → h ∈ active_handles l4 ↔ h ∈ active_handles l1).
  { intros h Hh. rewrite Eact4, (po_service _ _ Hp3) by (by apply service_not_client). by rewrite Eact2. }
  assert (Hclosed : ∀ h, h ∈ closed_handles l4 ↔ h ∈ closed_handles l ∨ h ∈ closing_handles l3).
  { intros h. by rewrite Ecl4, elem_of_app, (po_closed _ _ Hp3), Ecl2, Ecl1. }
  assert (Hdown' : (∀ h, h ∈ service_handles → h ∉ active_handles l1 ∧
    (h ∈ closing_handles l1 ∨ h ∈ closed_handles l)) → down l4).
  { intros H h Hh. destruct (H h Hh) as [Hna Hor]. rewrite Hserv, Hclosed by done. split; [done|].
    destruct Hor as [Hc|Hc]; [right|by left]. apply (po_closing _ _ Hp3). by rewrite Ecg2. }
  split; [|split; [|split]].
  - intros Hdn. apply Hdown'. intros h Hh. split; [by apply Hdn1|]. right. by apply Hdn.
  - intros Hup. specialize (Hup1 Hup). destruct (closes state t).
    + apply Hdown'. intros h Hh. destruct (Hup1 h Hh). split; [done|by left].
    + intros h Hh. rewrite Hserv by done. by apply Hup1.
  - intros c Hnl Hc. rewrite Eact4. apply Hstay; [done|]. rewrite Eact2. apply Hcli1; [apply client_not_service|done].
  - intros Hclosing.
    assert (Hno : ∀ h, h ∈ service_handles → h ∉ active_handles l1).
    { destruct Hclosing as [Hdn|Hc]; [by apply Hdn1|]. intros h Hh.
      destruct Hud as [Hup|Hdn]; [|by apply Hdn1]. specialize (Hup1 Hup). rewrite Hc in Hup1.
      by apply Hup1. }
    assert (Hlis : Listener ∉ active_handles l2) by (rewrite Eact2; apply Hno; by left).
    split.
    + intros h Hh. rewrite Eact4 in Hh. apply (po_no_listener _ _ Hp3 Hlis) in Hh.
      rewrite Eact2 in Hh. destruct (decide (h ∈ service_handles)) as [Hs|Hs]; [|by apply Hcli1].
      by destruct (Hno h Hs).
    + intros c Hc. rewrite Eact4. by apply Hleave.
Qed.
