(* ===== verification/LifeRun.v ===== *)
(** What holds of every interleaving of the main thread and the IO thread over the life
    cycle of the TCP service, when a stop completes, and when it never does. *)
From stdpp Require Import base numbers list option strings.
From Stdlib Require Import ZArith Lia.
From S2P Require Import Prelude Inet Endpoint Service UvLoop ServiceLife.

Local Open Scope Z_scope.

(** ** The invariant *)

Definition loop_inv (s : life) : Prop :=
  match lf_io s with
  | IoListening | IoStarting => turn_ok (lf_loop s) ∧ closing_handles (lf_loop s) = [] ∧ up (lf_loop s)
  | IoRunning =>
      turn_ok (lf_loop s) ∧ closing_handles (lf_loop s) = [] ∧ (up (lf_loop s) ∨ down (lf_loop s))
  | IoClosing =>
      turn_ok (lf_loop s) ∧ closing_handles (lf_loop s) = [] ∧
      (up (lf_loop s) ∨ uv__loop_alive (lf_loop s) = false)
  | _ => True
  end.

Record life_inv (s : life) : Prop := {
  li_state : lf_state s ∈ [TCP_SERVICE_NEW; TCP_SERVICE_STARTING; TCP_SERVICE_STARTED;
                           TCP_SERVICE_STOPPING; TCP_SERVICE_STOPPED];
  li_idle : lf_state s = TCP_SERVICE_NEW ∨ lf_state s = TCP_SERVICE_STOPPED →
    lf_io s = IoNone ∧ lf_main s = MainIdle;
  li_started : lf_state s = TCP_SERVICE_STARTED → lf_io s = IoRunning ∧ up (lf_loop s);
  li_starting : lf_state s = TCP_SERVICE_STARTING → lf_main s = MainIdle;
  li_loop : loop_inv s;
}.

Lemma new_life_inv : life_inv new_life.
Proof. split; try done. by left. Qed.

Lemma up_alive l : up l → uv__loop_alive l = true.
Proof.
  intros Hup. destruct (uv__loop_alive l) eqn:E; [done|]. apply loop_dead in E as [E _].
  assert (H : Listener ∈ active_handles l) by (apply Hup; by left).
  rewrite E in H. by apply elem_of_nil in H.
Qed.

(** The loop the guards of the IO thread set up. *)
Definition listening_loop : loop_t :=
  {| handle_queue := [AcceptTimer; Prep; Check; Listener];
     active_handles := [AcceptTimer; Prep; Check; Listener];
     closing_handles := []; closed_handles := []; active_reqs := [] |}.

Lemma listening_ok : turn_ok listening_loop ∧ up listening_loop.
Proof.
  split.
  - split; [split|..]; simpl.
    + intros h Hh. split; [done|]. by apply is_closing_false; split; apply not_elem_of_nil.
    + by intros h Hh%elem_of_nil.
    + intros h _. apply not_elem_of_nil.
    + intros h Hh. by left.
    + by intros c Hc%elem_of_nil.
  - intros h. unfold service_handles. simpl. rewrite !elem_of_cons. tauto.
Qed.

Lemma io_guards_run answer cs s :
  ∃ s', io_guards answer cs s = Some (default 0 (head (filter (.≠ 0) (answer <$> cs))), s') ∧
    lf_state s' = lf_state s ∧ lf_main s' = lf_main s ∧ lf_io s' = lf_io s ∧
    (Forall (λ c, answer c = 0) cs → s' = foldl (λ s c, io_effect c s) s cs).
Proof.
  revert s. induction cs as [|c cs IH]; intros s; [by exists s|].
  cbn [io_guards]. rewrite fmap_cons. destruct (Z.eqb_spec (answer c) 0) as [E|E].
  - rewrite filter_cons_False by lia. repeat mnext.
    destruct (IH (io_effect c s)) as (s' & Hr & H1 & H2 & H3 & H4). exists s'. split; [exact Hr|].
    rewrite H1, H2, H3. split_and!; [by destruct c..|].
    intros Hall. apply H4. by inversion Hall.
  - rewrite filter_cons_True by done. exists s. split; [done|]. split_and!; try done.
    intros Hall. by inversion Hall.
Qed.

Lemma io_guards_ok answer s :
  Forall (λ c, answer c = 0) io_calls →
  ∃ s', io_guards answer io_calls s = Some (0, s') ∧ lf_loop s' = listening_loop ∧
    lf_blocks s' = lf_blocks s ++ [BLoop; BTcp; BTimer; BPrep; BCheck; BSignal] ∧
    lf_exit s' = lf_exit s ∧ lf_lost s' = lf_lost s ∧ lf_host s' = lf_host s.
Proof.
  intros Hall. destruct (io_guards_run answer io_calls s) as (s' & Hr & _ & _ & _ & Hs).
  exists s'. rewrite (Hs Hall). split.
  - rewrite Hr, (Hs Hall). do 2 f_equal.
    assert (E : filter (.≠ 0) (answer <$> io_calls) = []); [|by rewrite E].
    clear -Hall. induction Hall as [|c cs Hc _ IH]; [done|].
    rewrite fmap_cons, filter_cons_False; [done|]. intros H. by apply H.
  - simpl. split; [done|]. split; [by rewrite <- !app_assoc|]. done.
Qed.

Lemma head_filter_zero answer cs :
  default 0 (head (filter (.≠ 0) (answer <$> cs))) = 0 → Forall (λ c : io_call, answer c = 0) cs.
Proof.
  induction cs as [|c cs IH]; [constructor|]. rewrite fmap_cons.
  destruct (decide (answer c ≠ 0)) as [Hne|Heq].
  - rewrite filter_cons_True by done. by intros E.
  - rewrite filter_cons_False by done. intros E. constructor; [lia|by apply IH].
Qed.

(** ** The steps keep the invariant *)

Section Steps.
Context (if_nametoindex : list Z → Z).

Lemma start_step s ip port launch :
  life_inv s → lf_main s = MainIdle →
  ∃ s', exec_lact if_nametoindex (AStart ip port launch) s = Some (tt, s') ∧ life_inv s'.
Proof.
  intros Hinv Hmain. cbn [exec_lact]. unfold tcp_service_start. rewrite M_assoc. repeat mnext.
  destruct (negb (lf_state s =? TCP_SERVICE_NEW) && negb (lf_state s =? TCP_SERVICE_STOPPED)) eqn:E.
  { by exists s. }
  assert (Hidle : lf_io s = IoNone).
  { apply (li_idle _ Hinv). destruct (Z.eqb_spec (lf_state s) TCP_SERVICE_NEW); [by left|].
    destruct (Z.eqb_spec (lf_state s) TCP_SERVICE_STOPPED); [by right|done]. }
  assert (Hkeep : ∀ s', lf_state s' = TCP_SERVICE_STARTING → lf_main s' = MainIdle →
    lf_io s' = IoNone ∨ lf_io s' = IoSetup → life_inv s').
  { intros s' H1 H2 H3. split; rewrite ?H1; try done.
    - by right; left.
    - by intros [?|?].
    - unfold loop_inv. by destruct H3 as [-> | ->]. }
  rewrite M_assoc. repeat mnext. rewrite M_assoc.
  destruct (endpoint_set_run if_nametoindex ip port (lf_host s)) as (r & e & He & Hok).
  zstep He (set_lf_state TCP_SERVICE_STARTING s).
  destruct (r =? 0); cbn [negb].
  2: { repeat mnext. eexists. split; [reflexivity|]. apply Hkeep; [done|done|by left]. }
  rewrite M_assoc. repeat mnext.
  destruct (get_string_run e 255 Hok ltac:(lia)) as (txt & Hg & _).
  cbn [lf_host set_lf_host]. rewrite Hg. rewrite M_assoc. repeat mnext.
  match goal with |- context [if negb (?x =? 0) then _ else _] => destruct (x =? 0) end; cbn [negb].
  2: { eexists. split; [reflexivity|]. apply Hkeep; [done|done|by left]. }
  destruct (launch =? 0); cbn [negb].
  2: { eexists. split; [reflexivity|]. apply Hkeep; [done|done|by left]. }
  eexists. split; [reflexivity|]. apply Hkeep; [done|done|by right].
Qed.

Lemma stop_step s :
  life_inv s → lf_main s = MainIdle →
  ∃ s', exec_lact if_nametoindex AStop s = Some (tt, s') ∧ life_inv s'.
Proof.
  intros Hinv Hmain. cbn [exec_lact]. unfold tcp_service_stop_begin. rewrite M_assoc. repeat mnext.
  destruct ((lf_state s =? TCP_SERVICE_STOPPING) || (lf_state s =? TCP_SERVICE_STOPPED)).
  { by exists s. }
  eexists. split; [reflexivity|]. split; try done; simpl.
  - do 3 right. by left.
  - by intros [?|?].
  - pose proof (li_loop _ Hinv) as Hl. exact Hl.
Qed.

Lemma signal_step s :
  life_inv s → lf_main s = MainIdle →
  ∃ s', exec_lact if_nametoindex ASignal s = Some (tt, s') ∧ life_inv s'.
Proof.
  intros Hinv Hmain. cbn [exec_lact]. unfold tcp_service_stop_signal. rewrite M_assoc. repeat mnext.
  destruct ((lf_state s =? TCP_SERVICE_STOPPING) || (lf_state s =? TCP_SERVICE_STOPPED)).
  { by exists s. }
  eexists. split; [reflexivity|]. split; try done; simpl.
  - do 3 right. by left.
  - by intros [?|?].
  - exact (li_loop _ Hinv).
Qed.

Lemma joined_step s :
  ∃ s', exec_lact if_nametoindex AJoined s = Some (tt, s') ∧ life_inv s'.
Proof.
  eexists. split; [reflexivity|]. split; try done; simpl.
  do 4 right. by left.
Qed.

Lemma cleanup_step ret closed s :
  life_inv s → lf_io s ≠ IoNone → lf_state s ≠ TCP_SERVICE_STARTED →
  ∃ s', io_cleanup ret closed s = Some (tt, s') ∧ life_inv s' ∧ lf_io s' = IoDone ∧
    lf_state s' = lf_state s ∧ lf_main s' = lf_main s ∧ lf_exit s' = ret ∧
    lf_lost s' = lf_lost s ++ (if closed then [] else [lf_loop s]) ∧
    lf_blocks s' = filter (.= BSignal) (lf_blocks s).
Proof.
  intros Hinv Hio Hst. eexists. split; [reflexivity|]. split; [|done].
  split; simpl; try apply Hinv; try done.
  intros H. by destruct (li_idle _ Hinv H).
Qed.

Lemma setup_step s answer :
  life_inv s → lf_io s = IoSetup →
  ∃ s', exec_lact if_nametoindex (AIoSetup answer) s = Some (tt, s') ∧ life_inv s'.
Proof.
  intros Hinv Hio. cbn [exec_lact]. unfold io_setup.
  assert (Hst : lf_state s ≠ TCP_SERVICE_STARTED).
  { intros E. apply (li_started _ Hinv) in E as [E _]. congruence. }
  assert (Hni : ¬ (lf_state s = TCP_SERVICE_NEW ∨ lf_state s = TCP_SERVICE_STOPPED)).
  { intros E. apply (li_idle _ Hinv) in E as [E _]. congruence. }
  destruct (io_guards_run answer io_calls s) as (s1 & Hr & E1 & E2 & E3 & Hs1). bstep Hr.
  assert (Hinv1 : life_inv s1).
  { split; rewrite ?E1, ?E2, ?E3; try apply Hinv; try done. unfold loop_inv. by rewrite E3, Hio. }
  destruct (Z.eqb_spec (default 0 (head (filter (.≠ 0) (answer <$> io_calls)))) 0) as [E|E]; cbn [negb].
  - apply head_filter_zero in E. destruct (io_guards_ok answer s E) as (s2 & Hr2 & Hl & _).
    rewrite Hr in Hr2. injection Hr2 as _ <-.
    eexists. split; [reflexivity|]. split; simpl; rewrite ?E1, ?E2; try apply Hinv; try done.
    unfold loop_inv. simpl. rewrite Hl. destruct listening_ok. done.
  - destruct (cleanup_step (default 0 (head (filter (.≠ 0) (answer <$> io_calls))))
      (negb (loop_is_init answer)) s1 Hinv1) as (s2 & Hr2 & Hinv2 & _); [by rewrite E3, Hio|by rewrite E1|].
    by exists s2.
Qed.

Lemma check_step s :
  life_inv s → lf_io s = IoListening →
  ∃ s', exec_lact if_nametoindex AIoCheck s = Some (tt, s') ∧ life_inv s'.
Proof.
  intros Hinv Hio. pose proof (li_loop _ Hinv) as Hl. unfold loop_inv in Hl. rewrite Hio in Hl.
  eexists. split; [reflexivity|]. split; simpl; try apply Hinv.
  - intros E. apply (li_idle _ Hinv) in E as [E _]. congruence.
  - intros E. apply (li_started _ Hinv) in E as [E _]. congruence.
  - unfold loop_inv. simpl. destruct Hl as (H1 & H2 & H3). destruct (_ =? _); [done|].
    split_and!; try done. by left.
Qed.

Lemma store_step s :
  life_inv s → lf_io s = IoStarting →
  ∃ s', exec_lact if_nametoindex AIoStore s = Some (tt, s') ∧ life_inv s'.
Proof.
  intros Hinv Hio. pose proof (li_loop _ Hinv) as Hl. unfold loop_inv in Hl. rewrite Hio in Hl.
  destruct Hl as (H1 & H2 & H3). eexists. split; [reflexivity|]. split; simpl; try done.
  - by do 2 right; left.
  - by intros [?|?].
  - unfold loop_inv. simpl. split_and!; try done. by left.
Qed.

Lemma turn_step s t :
  life_inv s → lf_io s = IoRunning →
  ∃ s' l', exec_lact if_nametoindex (AIoTurn t) s = Some (tt, s') ∧ life_inv s' ∧
    uv_turn (run_timers (lf_state s) t) (run_prepare t) (io_polls (polled t)) (lf_loop s) = Some (tt, l') ∧
    s' = set_lf_io (if uv__loop_alive l' then IoRunning else IoClosing) (set_lf_loop l' s).
Proof.
  intros Hinv Hio. pose proof (li_loop _ Hinv) as Hl. unfold loop_inv in Hl. rewrite Hio in Hl.
  destruct Hl as (H1 & H2 & H3).
  destruct (turn_run (lf_state s) t (lf_loop s) H1 H2 H3) as (l' & Hr & Hok' & Hcl' & Hdn & Hup & _).
  set (s1 := set_lf_loop l' s).
  assert (Hs1 : set_lf_io IoRunning s1 = s1) by (unfold s1, set_lf_io; by rewrite <- Hio).
  exists (set_lf_io (if uv__loop_alive l' then IoRunning else IoClosing) s1), l'.
  split; [|split; [|done]].
  - cbn [exec_lact]. unfold io_turn, on_loop. repeat mnext. zstep Hr s.
    change (lf_loop (set_lf_loop l' s)) with l'. fold s1.
    destruct (uv__loop_alive l'); [|done]. by rewrite Hs1.
  - assert (Hud : up l' ∨ down l').
    { destruct H3 as [Hu|Hd]; [specialize (Hup Hu); destruct (closes _ _); [by right|by left]|].
      right. by apply Hdn. }
    assert (Hst : lf_state s = TCP_SERVICE_STARTED → up l').
    { intros E. apply (li_started _ Hinv) in E as H. destruct H as [_ Hu]. specialize (Hup Hu).
      unfold closes in Hup. rewrite E, andb_false_r in Hup. exact Hup. }
    split; simpl; try apply Hinv.
    + intros E. apply (li_idle _ Hinv) in E as [E _]. congruence.
    + intros E. specialize (Hst E). by rewrite (up_alive _ Hst).
    + unfold loop_inv. simpl. destruct (uv__loop_alive l') eqn:Ealive; [done|].
      split_and!; try done. by right.
Qed.

(** Walking over the handles of the loop closes those that are not closing. *)
Lemma walk_run hs l :
  turn_ok l → (∀ h, h ∈ hs → h ∈ handle_queue l) →
  ∃ l', walk_list on_walk_cb hs l = Some (tt, l') ∧ turn_ok l' ∧
    handle_queue l' = handle_queue l ∧ active_reqs l' = active_reqs l.
Proof.
  revert l. induction hs as [|h hs IH]; intros l Hok Hin; [by exists l|].
  assert (Hcb : on_walk_cb h l = Some (tt, if uv_is_closing h l then l else closed_over h l)).
  { unfold on_walk_cb, close_unless_closing. repeat mnext.
    destruct (uv_is_closing h l) eqn:E; [done|by apply uv_close_run]. }
  assert (Hh : h ∈ handle_queue l) by (apply Hin; by left).
  assert (Hrest : ∀ x, x ∈ hs → x ∈ handle_queue l) by (intros x Hx; apply Hin; by right).
  cbn [walk_list]. bstep Hcb. destruct (uv_is_closing h l) eqn:E; [by apply IH|].
  by apply (IH (closed_over h l)); [apply closed_over_ok|].
Qed.

Lemma loop_close_dead l :
  turn_ok l → uv__loop_alive l = false → uv_loop_close l = 0.
Proof.
  intros Hok (Ea & Er & Ec)%loop_dead. unfold uv_loop_close.
  rewrite bool_decide_true by done. simpl.
  assert (Eq : handle_queue l = []).
  { destruct (handle_queue l) as [|h q] eqn:Eq; [done|]. exfalso.
    assert (Hh : h ∈ handle_queue l) by (rewrite Eq; by left).
    destruct (to_cover _ Hok h Hh) as [Hx|Hx]; [rewrite Ea in Hx|rewrite Ec in Hx]; by apply elem_of_nil in Hx. }
  by rewrite bool_decide_true.
Qed.

Lemma loop_close_busy l : (∃ h, h ∈ handle_queue l) → uv_loop_close l = UV_EBUSY.
Proof.
  intros [h Hh]. unfold uv_loop_close. destruct (bool_decide (active_reqs l = [])); [|done]. simpl.
  rewrite bool_decide_false; [done|]. intros E. rewrite E in Hh. by apply elem_of_nil in Hh.
Qed.

Lemma close_step s :
  life_inv s → lf_io s = IoClosing →
  ∃ s', exec_lact if_nametoindex AIoClose s = Some (tt, s') ∧ life_inv s' ∧
    lf_io s' = IoDone ∧ lf_state s' = lf_state s ∧ lf_main s' = lf_main s ∧
    lf_blocks s' = filter (.= BSignal) (lf_blocks s) ∧
    if uv__loop_alive (lf_loop s) then lf_exit s' = UV_EBUSY ∧ ∃ l, lf_lost s' = lf_lost s ++ [l]
    else lf_exit s' = 0 ∧ lf_lost s' = lf_lost s.
Proof.
  intros Hinv Hio. pose proof (li_loop _ Hinv) as Hl. unfold loop_inv in Hl. rewrite Hio in Hl.
  destruct Hl as (Hok & Hcl & Hud).
  assert (Hst : lf_state s ≠ TCP_SERVICE_STARTED).
  { intros E. apply (li_started _ Hinv) in E as [E _]. congruence. }
  cbn [exec_lact]. unfold io_close. repeat mnext.
  destruct (uv__loop_alive (lf_loop s)) eqn:Ealive.
  - destruct Hud as [Hup|?]; [|done].
    assert (Hlis : Listener ∈ handle_queue (lf_loop s)).
    { apply (lo_active _ (to_loop _ Hok)). apply Hup. by left. }
    rewrite (loop_close_busy (lf_loop s)) by (by eexists). change (UV_EBUSY =? 0) with false. cbv iota.
    destruct (walk_run (handle_queue (lf_loop s)) (lf_loop s) Hok) as (l' & Hr & Hok' & E1 & E2); [done|].
    assert (Hw : uv_walk on_walk_cb (lf_loop s) = Some (tt, l')) by exact Hr.
    unfold on_loop. zstep Hw s. change (lf_loop (set_lf_loop l' s)) with l'.
    rewrite (loop_close_busy l') by (exists Listener; by rewrite E1).
    change (UV_EBUSY =? 0) with false. cbn [negb].
    eexists. split; [reflexivity|]. split; [|simpl; split_and!; try done; by eexists].
    split; simpl; try apply Hinv; try done.
    intros E. apply (li_idle _ Hinv) in E as [E _]. congruence.
  - rewrite (loop_close_dead _ Hok Ealive). simpl.
    destruct (cleanup_step TN_SUCCESS true s Hinv) as (s' & Hr & Hinv' & H1 & H2 & H3 & H4 & H5 & H6);
      [by rewrite Hio|done|].
    exists s'. rewrite app_nil_r in H5. split; [exact Hr|]. split_and!; done.
Qed.

Lemma step_inv a s :
  life_inv s → lenabled a s → ∃ s', exec_lact if_nametoindex a s = Some (tt, s') ∧ life_inv s'.
Proof.
  intros Hinv Hen. destruct a; simpl in Hen.
  - by apply start_step.
  - by apply stop_step.
  - apply joined_step.
  - by apply signal_step.
  - by apply setup_step.
  - by apply check_step.
  - by apply store_step.
  - destruct (turn_step s t Hinv Hen) as (s' & l' & Hr & Hi & _). by exists s'.
  - destruct (close_step s Hinv Hen) as (s' & Hr & Hi & _). by exists s'.
Qed.

Lemma lruns_inv s acts s' : lruns if_nametoindex s acts s' → life_inv s → life_inv s'.
Proof.
  induction 1 as [|s a s1 acts s2 Hen Hr _ IH]; [done|]. intros Hinv. apply IH.
  destruct (step_inv a s Hinv Hen) as (s1' & Hr' & Hi). rewrite Hr in Hr'. by injection Hr' as <-.
Qed.

Lemma start_refused s ip port launch :
  life_inv s → lf_io s ≠ IoNone →
  exec_lact if_nametoindex (AStart ip port launch) s = Some (tt, s).
Proof.
  intros Hinv Hio. cbn [exec_lact]. unfold tcp_service_start. rewrite M_assoc. repeat mnext.
  destruct (Z.eqb_spec (lf_state s) TCP_SERVICE_NEW) as [E|E].
  { by destruct (li_idle _ Hinv (or_introl E)). }
  destruct (Z.eqb_spec (lf_state s) TCP_SERVICE_STOPPED) as [E'|E'].
  { by destruct (li_idle _ Hinv (or_intror E')). }
  done.
Qed.
End Steps.

(** ** Theorems *)

(** C7. The life cycle of the service, over every interleaving of start, stop and
    stop-signal calls with the steps of the IO thread and any answers of libuv and the
    network: every step is defined (no handle is closed twice); the state is one of the
    five; a new or stopped service has no IO thread, so that no start ever launches a
    second one; and a started service has its IO thread in the loop with the listener
    active. *)
Theorem service_lifecycle if_nametoindex acts s :
  lruns if_nametoindex new_life acts s →
  (∀ a, lenabled a s → ∃ s', exec_lact if_nametoindex a s = Some (tt, s')) ∧
  lf_state s ∈ [TCP_SERVICE_NEW; TCP_SERVICE_STARTING; TCP_SERVICE_STARTED;
                TCP_SERVICE_STOPPING; TCP_SERVICE_STOPPED] ∧
  (lf_state s = TCP_SERVICE_NEW ∨ lf_state s = TCP_SERVICE_STOPPED →
    lf_io s = IoNone ∧ lf_main s = MainIdle) ∧
  (lf_io s ≠ IoNone → ∀ ip port launch,
    exec_lact if_nametoindex (AStart ip port launch) s = Some (tt, s)) ∧
  (lf_state s = TCP_SERVICE_STARTED → lf_io s = IoRunning ∧ Listener ∈ active_handles (lf_loop s)).
Proof.
  intros Hrun. pose proof (lruns_inv _ _ _ _ Hrun new_life_inv) as Hinv. split_and!.
  - intros a Hen. destruct (step_inv if_nametoindex a s Hinv Hen) as (s' & Hr & _). by exists s'.
  - apply Hinv.
  - apply Hinv.
  - intros Hio ip port launch. by apply start_refused.
  - intros E. destruct (li_started _ Hinv E) as [Hio Hup]. split; [done|]. apply Hup. by left.
Qed.

(** The service has no async handle. *)
Definition no_async (l : loop_t) : Prop := Async ∉ active_handles l.

Lemma no_async_start h l : h ≠ Async → no_async l → no_async (uv__handle_start h l).
Proof.
  unfold no_async. intros Hh Hl. simpl. destruct (decide _); [done|]. rewrite elem_of_app, list_elem_of_singleton. intros [?|?]; [done|congruence].
Qed.

Lemma no_async_close h : stable no_async (uv_close h).
Proof.
  unfold uv_close. stable_auto. apply stable_put. unfold no_async in *. simpl. rewrite list_elem_of_filter. tauto.
Qed.

Lemma no_async_closing : stable no_async uv__run_closing_handles.
Proof.
  intros l [] l' Hl Hr. destruct (run_closing_run l) as (l1 & Hr1 & _ & Ea & _). rewrite Hr in Hr1. injection Hr1 as <-.
  unfold no_async. by rewrite Ea.
Qed.

#[local] Hint Resolve no_async_close no_async_closing : stable.

Lemma no_async_unless h : stable no_async (close_unless_closing h).
Proof. unfold close_unless_closing. stable_auto. Qed.
#[local] Hint Resolve no_async_unless : stable.

Lemma no_async_polls es : stable no_async (io_polls es).
Proof.
  induction es as [|e es IH]; cbn [io_polls]; [apply stable_ret|]. apply stable_bind; [|done]. unfold on_poll. stable_auto.
  - apply stable_modify. done.
  - apply stable_modify. intros l Hl. by apply no_async_start.
  - by apply stable_put.
Qed.

Lemma no_async_turn state t : stable no_async (uv_turn (run_timers state t) (run_prepare t) (io_polls (polled t))).
Proof.
  unfold uv_turn, run_timers, run_prepare, on_timer_cb. stable_auto; try apply no_async_polls.
  apply stable_modify. intros l Hl. by destruct (decide _).
Qed.

Lemma no_async_walk : stable no_async (uv_walk on_walk_cb).
Proof.
  unfold uv_walk. apply stable_get_bind. intros l _. generalize (handle_queue l) as hs. intros hs.
  induction hs as [|h hs IH]; cbn [walk_list]; [apply stable_ret|]. apply stable_bind; [|done]. unfold on_walk_cb. stable_auto.
Qed.

Lemma no_async_exec if_nametoindex a : stable (λ s, no_async (lf_loop s)) (exec_lact if_nametoindex a).
Proof.
  assert (∀ f, (∀ s, lf_loop (f s) = lf_loop s) → stable (λ s, no_async (lf_loop s)) (modify f)) as Hmod.
  { intros f Hf. apply stable_modify. intros s Hs. by rewrite Hf. }
  assert (∀ ret closed, stable (λ s, no_async (lf_loop s)) (io_cleanup ret closed)) as Hclean.
  { intros ret closed. unfold io_cleanup. stable_auto; by apply Hmod. }
  assert (∀ answer cs, stable (λ s, no_async (lf_loop s)) (io_guards answer cs)) as Hguards.
  { intros answer cs. induction cs as [|c cs IH]; cbn [io_guards]; [apply stable_ret|]. stable_auto.
    apply stable_modify. intros s Hs. destruct c; try done; try apply not_elem_of_nil; by apply no_async_start. }
  destruct a; cbn [exec_lact]; unfold tcp_service_start, tcp_service_stop_begin, tcp_service_stop_end, tcp_service_stop_signal,
    io_setup, io_check, io_store, io_turn, io_close, on_loop; stable_auto; try apply Hclean; try apply Hguards; try (by apply Hmod).
  - apply (stable_zoom _ (λ _, True)); [done|done|apply stable_true].
  - apply (stable_zoom _ no_async); [done|done|apply no_async_turn].
  - apply (stable_zoom _ no_async); [done|done|apply no_async_walk].
Qed.

Lemma lruns_no_async if_nametoindex acts s : lruns if_nametoindex new_life acts s → no_async (lf_loop s).
Proof.
  assert (no_async (lf_loop new_life)) as H0 by apply not_elem_of_nil. revert H0. generalize new_life as s0. intros s0 H0 Hr.
  induction Hr as [|s a s1 acts s2 _ Hx _ IH]; [done|]. apply IH. by apply (no_async_exec if_nametoindex a s tt s1).
Qed.

(** C32. A stop completes: when the main thread waits for an IO thread that runs its loop
    and the state is [TCP_SERVICE_STOPPING], a turn of the loop in which the timer is due
    and the connected clients leave ends the loop, the loop closes cleanly, and the
    service is stopped. *)
Theorem stop_completes if_nametoindex acts s t :
  lruns if_nametoindex new_life acts s →
  lf_main s = MainJoin → lf_io s = IoRunning → lf_state s = TCP_SERVICE_STOPPING →
  timer_due t = true →
  (∀ c, Client c ∈ active_handles (lf_loop s) → PLeave c ∈ polled t) →
  ∃ s', lruns if_nametoindex s [AIoTurn t; AIoClose; AJoined] s' ∧
    lf_state s' = TCP_SERVICE_STOPPED ∧ lf_main s' = MainIdle ∧ lf_io s' = IoNone ∧
    lf_exit s' = 0 ∧ lf_lost s' = lf_lost s.
Proof.
  intros Hrun Hmain Hio Hst Hdue Hleave. pose proof (lruns_inv _ _ _ _ Hrun new_life_inv) as Hinv.
  destruct (turn_step if_nametoindex s t Hinv Hio) as (s1 & l1 & Hr1 & Hinv1 & Hturn & Es1).
  pose proof (li_loop _ Hinv) as Hl. unfold loop_inv in Hl. rewrite Hio in Hl.
  destruct Hl as (Hok & Hcl & Hud).
  destruct (turn_run (lf_state s) t (lf_loop s) Hok Hcl Hud)
    as (l1' & Hr & Hok1 & Hcl1 & Hdn & Hup & _ & Hclosing).
  rewrite Hturn in Hr. injection Hr as <-.
  assert (Hc : closes (lf_state s) t = true) by (unfold closes; by rewrite Hdue, Hst).
  assert (Hdown1 : down l1).
  { destruct Hud as [Hu|Hd]; [|by apply Hdn]. specialize (Hup Hu). by rewrite Hc in Hup. }
  destruct (Hclosing (or_intror Hc)) as [Hsub Hgone].
  assert (Hact : active_handles l1 = []).
  { destruct (active_handles l1) as [|h hs] eqn:E; [done|]. exfalso.
    assert (Hh : h ∈ active_handles l1) by (rewrite E; by left).
    destruct h as [| | | |c|];
      [..|by apply (Hgone c); [apply Hleave, Hsub; by rewrite <- E|rewrite <- E]|
       by apply (lruns_no_async _ _ _ Hrun), Hsub; rewrite <- E].
    all: eapply Hdown1; [|exact Hh]; unfold service_handles; rewrite !elem_of_cons; tauto. }
  assert (Hdead : uv__loop_alive l1 = false).
  { apply loop_dead. split_and!; try done. destruct (active_reqs l1) as [|c cs] eqn:E; [done|].
    exfalso. assert (Hc1 : c ∈ active_reqs l1) by (rewrite E; by left).
    apply (to_reqs _ Hok1) in Hc1. destruct (to_cover _ Hok1 _ Hc1) as [H|H].
    - rewrite Hact in H. by apply elem_of_nil in H.
    - rewrite Hcl1 in H. by apply elem_of_nil in H. }
  rewrite Hdead in Es1. subst s1.
  destruct (close_step if_nametoindex _ Hinv1 eq_refl)
    as (s2 & Hr2 & Hinv2 & Hio2 & Hst2 & Hmain2 & _ & Hexit).
  change (lf_loop (set_lf_io IoClosing (set_lf_loop l1 s))) with l1 in Hexit.
  rewrite Hdead in Hexit. destruct Hexit as [He Hlost].
  eexists. split.
  { eapply lruns_cons; [exact Hio|exact Hr1|]. eapply lruns_cons; [done|exact Hr2|].
    eapply lruns_cons; [split; [by rewrite Hmain2|by right]|reflexivity|]. apply lruns_nil. }
  simpl. by split_and!.
Qed.

(** C8. A stop can wait for ever.  When the stop comes between the IO thread's test of
    the state and its store, the store overwrites [TCP_SERVICE_STOPPING] with
    [TCP_SERVICE_STARTED]: the timer never closes the listener, the loop never ends, and
    whatever happens from then on, the main thread never returns from
    [tcp_service_stop]. *)
Theorem stop_race_never_returns if_nametoindex acts s s' acts' :
  lruns if_nametoindex new_life acts s → lf_main s = MainJoin → lf_io s = IoStarting →
  lruns if_nametoindex s (AIoStore :: acts') s' →
  lf_main s' = MainJoin ∧ lf_state s' = TCP_SERVICE_STARTED ∧ lf_io s' = IoRunning.
Proof.
  intros Hrun Hmain Hio Hrun'. pose proof (lruns_inv _ _ _ _ Hrun new_life_inv) as Hinv.
  inversion Hrun' as [|? ? s1 ? ? _ Hstore Hrest]; subst. clear Hrun'.
  destruct (store_step if_nametoindex s Hinv Hio) as (s1' & Hr1 & Hinv1).
  rewrite Hstore in Hr1. injection Hr1 as <-. injection Hstore as Es1.
  assert (H1 : lf_main s1 = MainJoin ∧ lf_state s1 = TCP_SERVICE_STARTED ∧ lf_io s1 = IoRunning)
    by (rewrite <- Es1; done).
  clear Es1 Hinv Hrun Hmain Hio.
  induction Hrest as [|s1 a s2 acts' s3 Hen Hr _ IH]; [done|].
  destruct H1 as (Hm & Hs & Hi).
  assert (Hturn : ∃ t, a = AIoTurn t).
  { destruct a as [?? ?| | | |?| | |t|]; simpl in Hen; try congruence.
    - destruct Hen as [_ [?|?]]; congruence.
    - by exists t. }
  destruct Hturn as [t ->]. destruct (turn_step if_nametoindex s1 t Hinv1 Hi)
    as (s2' & l' & Hr' & Hinv2 & _ & Es2).
  rewrite Hr in Hr'. injection Hr' as <-. apply IH; [exact Hinv2|].
  assert (Hst2 : lf_state s2 = TCP_SERVICE_STARTED) by (rewrite Es2; exact Hs).
  destruct (li_started _ Hinv2 Hst2) as [Hio2 _]. split; [by rewrite Es2|done].
Qed.

(** A stop waits for the clients: while the IO thread is in its loop and a client is
    connected, the loop goes on and a waiting stop keeps waiting for as long as the client
    does not leave; nothing in the service closes it. *)
Theorem stop_waits_for_clients if_nametoindex acts s c acts' s' :
  lruns if_nametoindex new_life acts s → lf_io s = IoRunning →
  Client c ∈ active_handles (lf_loop s) →
  Forall (λ a, match a with AIoTurn t => PLeave c ∉ polled t | _ => True end) acts' →
  lruns if_nametoindex s acts' s' →
  lf_io s' = IoRunning ∧ Client c ∈ active_handles (lf_loop s') ∧
  (lf_main s = MainJoin → lf_main s' = MainJoin).
Proof.
  intros Hrun Hio Hc Hstay Hrun'. pose proof (lruns_inv _ _ _ _ Hrun new_life_inv) as Hinv. clear Hrun.
  induction Hrun' as [|s a s1 acts' s2 Hen Hr Hrest IH]; [done|].
  inversion Hstay as [|? ? Ha Hstay']; subst.
  destruct (step_inv if_nametoindex a s Hinv Hen) as (s1' & Hr' & Hinv1).
  rewrite Hr in Hr'. injection Hr' as <-.
  assert (H1 : lf_io s1 = IoRunning ∧ Client c ∈ active_handles (lf_loop s1) ∧
    (lf_main s = MainJoin → lf_main s1 = MainJoin)).
  { destruct a as [ip port launch| | | |?| | |t|]; simpl in Hen; try congruence.
    - rewrite start_refused in Hr by (done || congruence). by injection Hr as <-.
    - cbn [exec_lact] in Hr. unfold tcp_service_stop_begin in Hr. rewrite M_assoc in Hr.
      revert Hr. repeat mnext. destruct (_ || _); intros Hr; injection Hr as <-; done.
    - destruct Hen as [_ [?|?]]; congruence.
    - cbn [exec_lact] in Hr. unfold tcp_service_stop_signal in Hr. rewrite M_assoc in Hr.
      revert Hr. repeat mnext. destruct (_ || _); intros Hr; injection Hr as <-; done.
    - destruct (turn_step if_nametoindex s t Hinv Hio) as (s1' & l' & Hr' & _ & Hturn & Es1).
      rewrite Hr in Hr'. injection Hr' as <-.
      pose proof (li_loop _ Hinv) as Hl. unfold loop_inv in Hl. rewrite Hio in Hl.
      destruct Hl as (Hok & Hcl & Hud).
      destruct (turn_run (lf_state s) t (lf_loop s) Hok Hcl Hud)
        as (l1' & Hrt & _ & _ & _ & _ & Hkeep & _).
      rewrite Hturn in Hrt. injection Hrt as <-.
      assert (Hc' : Client c ∈ active_handles l') by (by apply Hkeep).
      assert (Halive : uv__loop_alive l' = true).
      { destruct (uv__loop_alive l') eqn:E; [done|]. apply loop_dead in E as [E _].
        rewrite E in Hc'. by apply elem_of_nil in Hc'. }
      rewrite Es1, Halive. done. }
  destruct H1 as (Hio1 & Hc1 & Hm1).
  destruct (IH Hio1 Hc1 Hstay' Hinv1) as (R1 & R2 & R3). split_and!; [done|done|auto].
Qed.

(** A stop that comes before the IO thread has tested the state skips the loop: its
    handles are still open, closing the loop fails, the walk over the handles only asks
    for their close, closing the loop fails again, and the thread returns with [UV_EBUSY]
    and releases a loop that was never closed. *)
Theorem early_stop_loses_loop if_nametoindex acts s :
  lruns if_nametoindex new_life acts s → lf_main s = MainJoin → lf_io s = IoListening →
  ∃ s' l, lruns if_nametoindex s [AIoCheck; AIoClose; AJoined] s' ∧
    lf_state s' = TCP_SERVICE_STOPPED ∧ lf_exit s' = UV_EBUSY ∧ lf_lost s' = lf_lost s ++ [l].
Proof.
  intros Hrun Hmain Hio. pose proof (lruns_inv _ _ _ _ Hrun new_life_inv) as Hinv.
  assert (Hst : lf_state s ≠ TCP_SERVICE_STARTING).
  { intros E. apply (li_starting _ Hinv) in E. congruence. }
  pose proof (li_loop _ Hinv) as Hl. unfold loop_inv in Hl. rewrite Hio in Hl.
  destruct Hl as (_ & _ & Hup).
  destruct (check_step if_nametoindex s Hinv Hio) as (s1 & Hr1 & Hinv1).
  assert (Es1 : s1 = set_lf_io IoClosing s).
  { cbn [exec_lact] in Hr1. unfold io_check in Hr1. revert Hr1. repeat mnext.
    rewrite (proj2 (Z.eqb_neq _ _)) by done. intros H. by injection H. }
  subst s1. destruct (close_step if_nametoindex _ Hinv1 eq_refl)
    as (s2 & Hr2 & _ & Hio2 & _ & Hmain2 & _ & Hexit).
  change (lf_loop (set_lf_io IoClosing s)) with (lf_loop s) in Hexit.
  rewrite (up_alive _ Hup) in Hexit. destruct Hexit as [He [l Hlost]].
  eexists _, l. split.
  { eapply lruns_cons; [exact Hio|exact Hr1|]. eapply lruns_cons; [done|exact Hr2|].
    eapply lruns_cons; [split; [by rewrite Hmain2|by right]|reflexivity|]. apply lruns_nil. }
  simpl. done.
Qed.

(** ** Runs that are computed *)

#[global] Instance lenabled_dec a s : Decision (lenabled a s).
Proof. destruct a; simpl; apply _. Defined.

Fixpoint lexec (if_nametoindex : list Z → Z) (acts : list lact) (s : life) : option life :=
  match acts with
  | [] => Some s
  | a :: acts =>
      if decide (lenabled a s) then
        match exec_lact if_nametoindex a s with
        | Some (_, s1) => lexec if_nametoindex acts s1
        | None => None
        end
      else None
  end.

Lemma lexec_runs if_nametoindex acts s s' :
  lexec if_nametoindex acts s = Some s' → lruns if_nametoindex s acts s'.
Proof.
  revert s. induction acts as [|a acts IH]; intros s; simpl.
  - intros [= <-]. apply lruns_nil.
  - destruct (decide (lenabled a s)) as [Hen|]; [|done].
    destruct (exec_lact if_nametoindex a s) as [[[] s1]|] eqn:E; [|done].
    intros H. by eapply lruns_cons; [..|apply IH].
Qed.

Definition start_local : lact := AStart (str "127.0.0.1"%string) 80 0.
Definition all_ok : lact := AIoSetup (λ _, 0).
Definition no_interface : list Z → Z := λ _, 0.
(** A turn in which client 7 connects, and one in which the timer fires and it leaves. *)
Definition connect_turn : turn := {| timer_due := true; writes := []; polled := [PAccept 7 true] |}.
Definition leave_turn : turn := {| timer_due := true; writes := [7%nat]; polled := [PLeave 7] |}.

(** The service with client 7 connected, while a stop waits. *)
Definition stopping_life : life :=
  default new_life (lexec no_interface
    [start_local; all_ok; AIoCheck; AIoStore; AIoTurn connect_turn; AStop] new_life).

Lemma stopping_runs :
  lruns no_interface new_life
    [start_local; all_ok; AIoCheck; AIoStore; AIoTurn connect_turn; AStop] stopping_life.
Proof. apply lexec_runs. vm_compute. reflexivity. Qed.

Lemma stopping_client c :
  Client c ∈ active_handles (lf_loop stopping_life) → c = 7%nat.
Proof.
  change (active_handles (lf_loop stopping_life)) with [AcceptTimer; Prep; Check; Listener; Client 7].
  rewrite !elem_of_cons, elem_of_nil. naive_solver.
Qed.

Lemma service_lifecycle_witness :
  (∃ s', exec_lact no_interface (AIoTurn leave_turn) stopping_life = Some (tt, s')) ∧
  exec_lact no_interface start_local stopping_life = Some (tt, stopping_life).
Proof.
  destruct (service_lifecycle no_interface _ _ stopping_runs) as (H1 & _ & _ & H2 & _).
  split; [exact (H1 (AIoTurn leave_turn) eq_refl)|apply H2; discriminate].
Defined.

Lemma stop_completes_witness :
  ∃ s', lruns no_interface stopping_life [AIoTurn leave_turn; AIoClose; AJoined] s' ∧
    lf_state s' = TCP_SERVICE_STOPPED.
Proof.
  destruct (stop_completes no_interface _ _ leave_turn stopping_runs eq_refl eq_refl eq_refl eq_refl)
    as (s' & Hr & Hs & _).
  - intros c Hc. rewrite (stopping_client c Hc). left.
  - exists s'. split; [exact Hr|exact Hs].
Defined.

Definition racing_life : life :=
  default new_life (lexec no_interface [start_local; all_ok; AIoCheck; AStop] new_life).

Lemma stop_race_never_returns_witness :
  ∃ s', lruns no_interface racing_life [AIoStore; AIoTurn leave_turn; AIoTurn leave_turn] s' ∧
    lf_main s' = MainJoin ∧ lf_state s' = TCP_SERVICE_STARTED.
Proof.
  assert (H1 : lruns no_interface new_life [start_local; all_ok; AIoCheck; AStop] racing_life)
    by (apply lexec_runs; vm_compute; reflexivity).
  assert (H2 : lruns no_interface racing_life [AIoStore; AIoTurn leave_turn; AIoTurn leave_turn]
    (default new_life (lexec no_interface [AIoStore; AIoTurn leave_turn; AIoTurn leave_turn] racing_life)))
    by (apply lexec_runs; vm_compute; reflexivity).
  eexists. split; [exact H2|].
  destruct (stop_race_never_returns no_interface _ _ _ _ H1 eq_refl eq_refl H2) as (Hm & Hs & _).
  split; [exact Hm|exact Hs].
Defined.

Lemma stop_waits_for_clients_witness :
  ∃ s', lruns no_interface stopping_life [AIoTurn connect_turn; AIoTurn connect_turn] s' ∧
    lf_main s' = MainJoin.
Proof.
  assert (H2 : lruns no_interface stopping_life [AIoTurn connect_turn; AIoTurn connect_turn]
    (default new_life (lexec no_interface [AIoTurn connect_turn; AIoTurn connect_turn] stopping_life)))
    by (apply lexec_runs; vm_compute; reflexivity).
  eexists. split; [exact H2|].
  refine (proj2 (proj2 (stop_waits_for_clients no_interface _ _ 7 _ _ stopping_runs eq_refl _ _ H2)) eq_refl).
  - change (active_handles (lf_loop stopping_life)) with [AcceptTimer; Prep; Check; Listener; Client 7].
    do 4 right. left.
  - repeat constructor; vm_compute; intros H; inversion H as [|? ? ? H']; inversion H'.
Defined.

Lemma early_stop_loses_loop_witness :
  ∃ s s' l, lruns no_interface new_life [start_local; all_ok; AStop] s ∧
    lruns no_interface s [AIoCheck; AIoClose; AJoined] s' ∧ lf_exit s' = UV_EBUSY ∧ lf_lost s' = [l].
Proof.
  assert (H1 : lruns no_interface new_life [start_local; all_ok; AStop]
    (default new_life (lexec no_interface [start_local; all_ok; AStop] new_life)))
    by (apply lexec_runs; vm_compute; reflexivity).
  destruct (early_stop_loses_loop no_interface _ _ H1 eq_refl eq_refl) as (s' & l & Hr & _ & He & Hl).
  eexists _, s', l. split; [exact H1|]. split; [exact Hr|]. split; [exact He|exact Hl].
Defined.
