(* ===== verification/EchoServ.v ===== *)
(** The stand-alone echo server: src/tcpserv/tcpserv.c.

    The callbacks of the server over the blocks they own: what arrives on a connection is
    read into a fresh block, and the same block is handed to libuv to be written back.  An
    address that is used after its release, or released twice, has no defined result.  What
    libuv knows of a client (its flags and the bytes it delivered and transmitted) is part
    of the state; its answers are arguments. *)
From stdpp Require Import base numbers list option gmap.
From Stdlib Require Import ZArith Lia.
From S2P Require Import Prelude.

Local Open Scope Z_scope.
Local Open Scope c_scope.

Module Echo.

(** ** State *)

(** A write that libuv has accepted: a [tcp_write_req_t] and its stream. *)
Record write_t := {
  w_req : nat;
  w_handle : nat;
  w_base : nat;
  w_len : Z;
}.

(** A client as libuv sees it; [h_in] was delivered to the server, [h_out] was transmitted,
    [h_failed]: a write was reported with an error. *)
Record handle_t := {
  h_closing : bool;
  h_reading : bool;
  h_in : list Z;
  h_out : list Z;
  h_failed : bool;
}.

(** The counters, the blocks in use with their bytes, and libuv. *)
Record serv := {
  send_msgs : Z;
  send_bytes : Z;
  recv_msgs : Z;
  recv_bytes : Z;
  heap : gmap nat (list Z);
  handles : gmap nat handle_t;
  writes : list write_t;
}.

Definition set_heap (x : gmap nat (list Z)) (s : serv) : serv :=
  {| send_msgs := send_msgs s; send_bytes := send_bytes s; recv_msgs := recv_msgs s; recv_bytes := recv_bytes s;
     heap := x; handles := handles s; writes := writes s |}.
Definition set_handles (x : gmap nat handle_t) (s : serv) : serv :=
  {| send_msgs := send_msgs s; send_bytes := send_bytes s; recv_msgs := recv_msgs s; recv_bytes := recv_bytes s;
     heap := heap s; handles := x; writes := writes s |}.
Definition set_writes (x : list write_t) (s : serv) : serv :=
  {| send_msgs := send_msgs s; send_bytes := send_bytes s; recv_msgs := recv_msgs s; recv_bytes := recv_bytes s;
     heap := heap s; handles := handles s; writes := x |}.
Definition sent_one (n : Z) (s : serv) : serv :=
  {| send_msgs := u64 (send_msgs s + 1); send_bytes := u64 (send_bytes s + n); recv_msgs := recv_msgs s;
     recv_bytes := recv_bytes s; heap := heap s; handles := handles s; writes := writes s |}.
Definition received_one (n : Z) (s : serv) : serv :=
  {| send_msgs := send_msgs s; send_bytes := send_bytes s; recv_msgs := u64 (recv_msgs s + 1);
     recv_bytes := u64 (recv_bytes s + n); heap := heap s; handles := handles s; writes := writes s |}.

Definition set_h_closing (h : handle_t) : handle_t :=
  {| h_closing := true; h_reading := false; h_in := h_in h; h_out := h_out h; h_failed := h_failed h |}.
Definition set_h_reading (h : handle_t) : handle_t :=
  {| h_closing := h_closing h; h_reading := true; h_in := h_in h; h_out := h_out h; h_failed := h_failed h |}.
Definition h_deliver (bs : list Z) (h : handle_t) : handle_t :=
  {| h_closing := h_closing h; h_reading := h_reading h; h_in := h_in h ++ bs; h_out := h_out h; h_failed := h_failed h |}.
Definition h_report (status : Z) (bs : list Z) (h : handle_t) : handle_t :=
  if status =? 0 then
    {| h_closing := h_closing h; h_reading := h_reading h; h_in := h_in h; h_out := h_out h ++ bs; h_failed := h_failed h |}
  else {| h_closing := h_closing h; h_reading := h_reading h; h_in := h_in h; h_out := h_out h; h_failed := true |}.

Definition no_serv : serv :=
  {| send_msgs := 0; send_bytes := 0; recv_msgs := 0; recv_bytes := 0; heap := ∅; handles := ∅; writes := [] |}.

(** ** Memory and handles *)

Definition acquire (p : nat) (bs : list Z) : M serv unit := modify (λ s, set_heap (<[p := bs]> (heap s)) s).
(** [TN_MEM_RELEASE] and [free]: NULL is allowed, a block that is not in use is not. *)
Definition release (p : ptr nat) : M serv unit :=
  match p with
  | None => mret tt
  | Some p => s ← get; lift (heap s !! p);; modify (λ s, set_heap (delete p (heap s)) s)
  end.

Definition on_handle (h : nat) (f : handle_t → handle_t) : M serv unit :=
  s ← get; x ← lift (handles s !! h); put (set_handles (<[h := f x]> (handles s)) s).
Definition uv_is_closing (h : nat) : M serv bool := s ← get; x ← lift (handles s !! h); mret (h_closing x).
(** [uv_close] asserts that the handle is not being closed. *)
Definition uv_close (h : nat) : M serv unit :=
  c ← uv_is_closing h; TN_ASSERT (negb c);; on_handle h set_h_closing.

(** ** Callbacks *)

Definition free_write_req (req : write_t) : M serv unit := release (Some (w_base req));; release (Some (w_req req)).

(** [answer] is the allocator's: an address and what the block holds. *)
Definition on_recv_alloc_cb (suggested_size : Z) (answer : option (nat * list Z)) : M serv (ptr nat * Z) :=
  match answer with
  | None => mret (NULL, suggested_size)
  | Some (p, bs) => acquire p bs;; mret (Some p, suggested_size)
  end.

Definition on_close_cb (handle : nat) : M serv unit := release (Some handle).

Definition on_send_cb (req : write_t) (status : Z) : M serv unit :=
  (if negb (status =? 0) then mret tt else modify (sent_one (w_len req)));;
  free_write_req req.

(** The label [close] of [on_recv_cb], up to [cleanup]. *)
Definition close_client (handle : nat) : M serv unit :=
  c ← uv_is_closing handle; if negb c then uv_close handle else mret tt.

(** [req] and [write] are the answers to the allocation of the request and to [uv_write],
    which takes the request when it succeeds. *)
Definition on_recv_cb (handle : nat) (nread : Z) (base : ptr nat) (req : ptr nat) (write : Z) : M serv unit :=
  if nread <? 0 then close_client handle;; release base;; release NULL
  else if nread =? 0 then release base;; release NULL
  else
    modify (received_one nread);;
    match req with
    | None => close_client handle;; release base;; release NULL
    | Some r =>
        acquire r [];;
        p ← lift base;
        if negb (write =? 0) then close_client handle;; release base;; release (Some r)
        else modify (λ s, set_writes (writes s ++ [{| w_req := r; w_handle := handle; w_base := p; w_len := nread |}]) s)
    end.

Definition new_handle : handle_t :=
  {| h_closing := false; h_reading := false; h_in := []; h_out := []; h_failed := false |}.

(** [client] is the answer of malloc; [uv_tcp_init] makes the handle known to libuv. *)
Definition on_connection_cb (status : Z) (client : ptr nat) (accept read_start : Z) : M serv unit :=
  if status <? 0 then mret tt
  else
    match client with
    | None => mret tt
    | Some c =>
        acquire c [];;
        modify (λ s, set_handles (<[c := new_handle]> (handles s)) s);;
        if negb (accept =? 0) then close_client c
        else if negb (read_start =? 0) then close_client c
        else on_handle c set_h_reading
    end.

(** ** Steps of libuv *)

(** What the kernel answers to a read. *)
Inductive answer := GotBytes (bs : list Z) | GotAgain | GotEof | GotError (err : Z).

Definition UV_ENOBUFS : Z := -105.
Definition UV_EOF : Z := -4095.

(** A read of a stream ([uv__read]): a block, the system call, the callback. *)
Definition stream_read (h : nat) (block : option (nat * list Z)) (a : answer) (req : ptr nat) (write : Z) : M serv unit :=
  b ← on_recv_alloc_cb (64 * 1024) block;
  match b.1, block with
  | Some p, Some (_, fill) =>
      match a with
      | GotBytes bs =>
          modify (λ s, set_heap (<[p := bs ++ drop (length bs) fill]> (heap s)) s);;
          on_handle h (h_deliver bs);;
          on_recv_cb h (Z.of_nat (length bs)) (Some p) req write
      | GotAgain => on_recv_cb h 0 (Some p) req write
      | GotEof => on_recv_cb h UV_EOF (Some p) req write
      | GotError err => on_recv_cb h err (Some p) req write
      end
  | _, _ => on_recv_cb h UV_ENOBUFS NULL req write
  end.

(** The [i]th accepted write is done: libuv has read the bytes from the block. *)
Definition uv_write_done (i : nat) (status : Z) : M serv unit :=
  s ← get;
  w ← lift (writes s !! i);
  bs ← lift (heap s !! w_base w);
  modify (λ s, set_writes (delete i (writes s)) s);;
  on_handle (w_handle w) (h_report status (take (Z.to_nat (w_len w)) bs));;
  on_send_cb w status.

(** A close is done: the handle is unknown to libuv before its callback. *)
Definition uv_close_done (h : nat) : M serv unit :=
  modify (λ s, set_handles (delete h (handles s)) s);; on_close_cb h.

Inductive act :=
  | EConnect (status : Z) (client : ptr nat) (accept read_start : Z)
  | ERead (h : nat) (block : option (nat * list Z)) (a : answer) (req : ptr nat) (write : Z)
  | ESent (i : nat) (status : Z)
  | EClosed (h : nat).

Definition exec (x : act) : M serv unit :=
  match x with
  | EConnect status client accept read_start => on_connection_cb status client accept read_start
  | ERead h block a req write => stream_read h block a req write
  | ESent i status => uv_write_done i status
  | EClosed h => uv_close_done h
  end.

(** What malloc and libuv promise: fresh blocks of the size asked for; a stream is read
    while reading is on and it is not being closed; its writes are reported in order; a close
    is reported when no write is left. *)
Definition enabled (s : serv) (x : act) : Prop :=
  match x with
  | EConnect _ client _ _ => ∀ p, client = Some p → heap s !! p = None
  | ERead h block a req _ =>
      (∃ x, handles s !! h = Some x ∧ h_reading x = true ∧ h_closing x = false) ∧
      (∀ p fill, block = Some (p, fill) → heap s !! p = None ∧ Z.of_nat (length fill) = 65536) ∧
      (∀ r, req = Some r → heap s !! r = None ∧ ∀ p fill, block = Some (p, fill) → r ≠ p) ∧
      match a with
      | GotBytes bs => bs ≠ [] ∧ Z.of_nat (length bs) ≤ 65536
      | GotError err => err < 0
      | _ => True
      end
  | ESent i _ => ∃ w, writes s !! i = Some w ∧ ∀ j w', (j < i)%nat → writes s !! j = Some w' → w_handle w' ≠ w_handle w
  | EClosed h => (∃ x, handles s !! h = Some x ∧ h_closing x = true) ∧ ∀ w, w ∈ writes s → w_handle w ≠ h
  end.

Inductive runs : serv → list act → serv → Prop :=
  | runs_nil s : runs s [] s
  | runs_cons s x s1 l s2 : enabled s x → exec x s = Some (tt, s1) → runs s1 l s2 → runs s (x :: l) s2.

(** ** Invariant *)

(** The blocks of the accepted writes. *)
Definition wblocks (ws : list write_t) : list nat := ws ≫= (λ w, [w_req w; w_base w]).

(** The bytes of a client that are still to be transmitted. *)
Definition wbytes (m : gmap nat (list Z)) (w : write_t) : list Z := take (Z.to_nat (w_len w)) (default [] (m !! w_base w)).
Definition pend (m : gmap nat (list Z)) (ws : list write_t) (h : nat) : list Z :=
  filter (λ w, w_handle w = h) ws ≫= wbytes m.

Definition in_step (out_pend : list Z) (x : handle_t) : Prop :=
  h_failed x = false → if h_closing x then h_out x ++ out_pend `prefix_of` h_in x else h_out x ++ out_pend = h_in x.

Record serv_ok (s : serv) : Prop := {
  so_nodup : NoDup (wblocks (writes s));
  so_blocks : ∀ p, is_Some (heap s !! p) ↔ is_Some (handles s !! p) ∨ p ∈ wblocks (writes s);
  so_apart : ∀ p, p ∈ wblocks (writes s) → handles s !! p = None;
  so_writes : ∀ w, w ∈ writes s → is_Some (handles s !! w_handle w);
  so_echo : ∀ h x, handles s !! h = Some x → in_step (pend (heap s) (writes s) h) x;
}.

(** ** Lemmas *)

Lemma elem_of_wblocks p ws : p ∈ wblocks ws ↔ ∃ w, w ∈ ws ∧ (p = w_req w ∨ p = w_base w).
Proof.
  unfold wblocks. rewrite list_elem_of_bind. split.
  - intros (w & Hp & Hw). exists w. split; [done|]. by rewrite !elem_of_cons, elem_of_nil in Hp; destruct Hp as [|[|[]]]; auto.
  - intros (w & Hw & Hp). exists w. split; [|done]. rewrite !elem_of_cons. tauto.
Qed.

Lemma base_in_wblocks w ws : w ∈ ws → w_base w ∈ wblocks ws.
Proof. intros Hw. apply elem_of_wblocks. by eauto. Qed.

(** Blocks that hold no data to be sent do not matter. *)
Lemma pend_heap m m' ws h : (∀ w, w ∈ ws → m' !! w_base w = m !! w_base w) → pend m' ws h = pend m ws h.
Proof.
  intros Hm. unfold pend. induction ws as [|w ws IH]; [done|]. rewrite !filter_cons.
  assert (∀ w, w ∈ ws → m' !! w_base w = m !! w_base w) as Hm' by (intros w' Hw'; apply Hm; by right).
  case_decide; csimpl; rewrite IH by done; [|done]. f_equal. unfold wbytes. by rewrite (Hm w (list_elem_of_here _ _)).
Qed.

Lemma pend_app m ws1 ws2 h : pend m (ws1 ++ ws2) h = pend m ws1 h ++ pend m ws2 h.
Proof. unfold pend. by rewrite filter_app, bind_app. Qed.

Lemma pend_none m ws h : (∀ w, w ∈ ws → w_handle w ≠ h) → pend m ws h = [].
Proof.
  intros Hw. unfold pend. induction ws as [|w ws IH]; [done|]. rewrite filter_cons_False; [|apply Hw; by left].
  apply IH. intros w' Hw'. apply Hw. by right.
Qed.

Lemma pend_one m w h : pend m [w] h = if decide (w_handle w = h) then wbytes m w else [].
Proof. unfold pend. rewrite filter_cons, filter_nil. case_decide; csimpl; [by rewrite app_nil_r|done]. Qed.

(** Closing a client that is open. *)
Lemma close_client_run s h x :
  handles s !! h = Some x → h_closing x = false →
  close_client h s = Some (tt, set_handles (<[h := set_h_closing x]> (handles s)) s).
Proof.
  intros Hh Hc. unfold close_client, uv_close, uv_is_closing, on_handle.
  rewrite M_assoc, M_get, M_assoc, Hh, M_lift, M_left_id, Hc. cbn [negb].
  by rewrite M_assoc, M_get, M_assoc, Hh, M_lift, M_left_id, Hc, M_assert, M_get, Hh, M_lift.
Qed.

(** Returning a block that was just acquired. *)
Lemma release_block s p bs : heap s !! p = Some bs → release (Some p) s = Some (tt, set_heap (delete p (heap s)) s).
Proof. intros Hp. unfold release. by rewrite M_get, Hp, M_lift. Qed.

Lemma release_fresh s p bs :
  heap s !! p = None → release (Some p) (set_heap (<[p := bs]> (heap s)) s) = Some (tt, s).
Proof.
  intros Hp. rewrite (release_block _ _ bs) by (simpl; apply lookup_insert_eq). simpl. rewrite delete_insert_id by done. by destruct s.
Qed.

(** The clean-up of a read that goes wrong. *)
Lemma abandon s h x p bs :
  handles s !! h = Some x → h_closing x = false → heap s !! p = None →
  (close_client h;; release (Some p);; release NULL) (set_heap (<[p := bs]> (heap s)) s) =
    Some (tt, set_handles (<[h := set_h_closing x]> (handles s)) s).
Proof.
  intros Hh Hc Hp. rewrite (bind_Some _ _ _ _ _ (close_client_run (set_heap _ s) h x Hh Hc)).
  set (s' := set_handles (<[h := set_h_closing x]> (handles s)) s).
  change (set_handles _ (set_heap _ s)) with (set_heap (<[p := bs]> (heap s')) s').
  by rewrite (bind_Some _ _ _ _ _ (release_fresh s' p bs Hp)).
Qed.

Lemma abandon_request s h x p r bs :
  handles s !! h = Some x → h_closing x = false → heap s !! p = None → heap s !! r = None → r ≠ p →
  (close_client h;; release (Some p);; release (Some r)) (set_heap (<[r := []]> (<[p := bs]> (heap s))) s) =
    Some (tt, set_handles (<[h := set_h_closing x]> (handles s)) s).
Proof.
  intros Hh Hc Hp Hr Hrp. rewrite (bind_Some _ _ _ _ _ (close_client_run (set_heap _ s) h x Hh Hc)).
  set (s' := set_handles (<[h := set_h_closing x]> (handles s)) s). rewrite insert_insert_ne by done.
  set (s1 := set_heap (<[r := []]> (heap s')) s').
  change (set_handles _ (set_heap _ s)) with (set_heap (<[p := bs]> (heap s1)) s1).
  assert (heap s1 !! p = None) as Hp1 by (simpl; by rewrite lookup_insert_ne).
  rewrite (bind_Some _ _ _ _ _ (release_fresh s1 p bs Hp1)). by apply release_fresh.
Qed.

(** The invariant does not look at the counters. *)
Lemma serv_ok_same s s' :
  serv_ok s → heap s' = heap s → handles s' = handles s → writes s' = writes s → serv_ok s'.
Proof. intros [] H1 H2 H3. split; rewrite ?H1, ?H2, ?H3; done. Qed.

(** One client changes. *)
Lemma serv_ok_handle s h x x' :
  serv_ok s → handles s !! h = Some x → in_step (pend (heap s) (writes s) h) x' →
  serv_ok (set_handles (<[h := x']> (handles s)) s).
Proof.
  intros [] Hh Hx'. assert (∀ p, is_Some (<[h := x']> (handles s) !! p) ↔ is_Some (handles s !! p)) as Hdom.
  { intros p. rewrite lookup_insert. case_decide as Hp; [subst p; rewrite Hh; split; by eexists|done]. }
  split; simpl.
  - done.
  - intros p. by rewrite Hdom, so_blocks0.
  - intros p Hp. apply so_apart0 in Hp. rewrite lookup_insert. case_decide as E; [by subst p; rewrite Hh in Hp|done].
  - intros w Hw. by apply Hdom, so_writes0.
  - intros h' y Hy. rewrite lookup_insert in Hy. case_decide as E; [|by apply so_echo0]. subst h'. by injection Hy as <-.
Qed.

(** Closing keeps the bytes in step. *)
Lemma in_step_close q x bs : h_closing x = false → in_step q x → in_step q (set_h_closing (h_deliver bs x)).
Proof.
  intros Hc Hx Hf. simpl in *. specialize (Hx Hf). rewrite Hc in Hx. rewrite Hx. by apply prefix_app_r.
Qed.

Lemma in_step_close' q x : h_closing x = false → in_step q x → in_step q (set_h_closing x).
Proof. intros Hc Hx Hf. simpl in *. specialize (Hx Hf). rewrite Hc in Hx. by rewrite Hx. Qed.

(** A write is accepted: the two blocks now belong to it. *)
Lemma echo_accepted s h x p r bs fill :
  serv_ok s → handles s !! h = Some x → h_closing x = false → heap s !! p = None → heap s !! r = None → r ≠ p →
  (length bs ≤ length fill)%nat →
  let w := {| w_req := r; w_handle := h; w_base := p; w_len := Z.of_nat (length bs) |} in
  serv_ok (set_writes (writes s ++ [w]) (set_handles (<[h := h_deliver bs x]> (handles s))
    (set_heap (<[r := []]> (<[p := bs ++ drop (length bs) fill]> (heap s))) s))).
Proof.
  intros Hok Hh Hc Hp Hr Hrp Hlen w. pose proof Hok as [].
  assert (p ∉ wblocks (writes s) ∧ handles s !! p = None) as [Hpw Hph].
  { destruct (handles s !! p) eqn:E; [exfalso|split; [intros Hin|done]];
      (assert (is_Some (heap s !! p)) as [? Hx]; [apply so_blocks0; auto|by rewrite Hp in Hx]). }
  assert (r ∉ wblocks (writes s) ∧ handles s !! r = None) as [Hrw Hrh].
  { destruct (handles s !! r) eqn:E; [exfalso|split; [intros Hin|done]];
      (assert (is_Some (heap s !! r)) as [? Hx]; [apply so_blocks0; auto|by rewrite Hr in Hx]). }
  assert (wblocks (writes s ++ [w]) = wblocks (writes s) ++ [r; p]) as Hwb.
  { unfold wblocks. by rewrite bind_app. }
  assert (∀ q, is_Some (<[h := h_deliver bs x]> (handles s) !! q) ↔ is_Some (handles s !! q)) as Hdom.
  { intros q. rewrite lookup_insert. case_decide as E; [subst q; rewrite Hh; split; by eexists|done]. }
  split; simpl; rewrite ?Hwb.
  - apply NoDup_app. split_and!; [done| |].
    + intros q Hq. rewrite !elem_of_cons, elem_of_nil. intros [->|[->|[]]]; tauto.
    + apply NoDup_cons. split; [by rewrite list_elem_of_singleton|apply NoDup_singleton].
  - intros q. rewrite Hdom, elem_of_app, !elem_of_cons, elem_of_nil, !lookup_insert.
    destruct (decide (r = q)) as [->|]; [split; [tauto|by eexists]|].
    destruct (decide (p = q)) as [->|]; [split; [tauto|by eexists]|].
    rewrite so_blocks0. split; [tauto|]. intros [?|[?|[?|[?|[]]]]]; [tauto|tauto|congruence|congruence].
  - intros q. rewrite elem_of_app, !elem_of_cons, elem_of_nil, lookup_insert. intros Hq.
    assert (handles s !! q = None) as Hn by (destruct Hq as [Hq|[->|[->|[]]]]; auto).
    case_decide as E; [by subst q; rewrite Hh in Hn|done].
  - intros w' Hw'. apply Hdom. apply elem_of_app in Hw' as [Hw'|Hw']; [by apply so_writes0|].
    apply list_elem_of_singleton in Hw' as ->. simpl. rewrite Hh. by eexists.
  - intros h' y Hy. set (m' := <[r := []]> _).
    assert (pend m' (writes s) h' = pend (heap s) (writes s) h') as Hold.
    { apply pend_heap. intros w' Hw'%base_in_wblocks. unfold m'.
      rewrite !lookup_insert_ne; [done|by intros ->|by intros ->]. }
    rewrite pend_app, Hold, pend_one. simpl.
    assert (wbytes m' w = bs) as Hnew.
    { unfold wbytes, m'. simpl. rewrite lookup_insert_ne, lookup_insert_eq by done. simpl.
      rewrite Nat2Z.id. by rewrite take_app_length. }
    rewrite Hnew. rewrite lookup_insert in Hy. case_decide as E; [|rewrite app_nil_r; by apply so_echo0].
    subst h'. injection Hy as <-. intros Hf. simpl in *. specialize (so_echo0 h x Hh Hf). rewrite Hc in *.
    by rewrite app_assoc, so_echo0.
Qed.

Lemma read_ok s h block a req write :
  serv_ok s → enabled s (ERead h block a req write) →
  ∃ s', exec (ERead h block a req write) s = Some (tt, s') ∧ serv_ok s'.
Proof.
  intros Hok ((x & Hh & _ & Hc) & Hblock & Hreq & Ha). cbn [exec]. unfold stream_read.
  pose proof (so_echo _ Hok h x Hh) as Hin.
  destruct block as [[p fill]|].
  2:{ unfold on_recv_alloc_cb. rewrite M_left_id. simpl. unfold on_recv_cb. cbn [Z.ltb Z.compare UV_ENOBUFS].
      rewrite (bind_Some _ _ _ _ _ (close_client_run s h x Hh Hc)). eexists. split; [reflexivity|].
      by eapply serv_ok_handle; [..|apply in_step_close']. }
  destruct (Hblock p fill eq_refl) as [Hp Hfill]. unfold on_recv_alloc_cb, acquire.
  rewrite M_assoc, M_modify, M_left_id. cbn [fst].
  assert (∀ nread, nread < 0 → ∃ s', on_recv_cb h nread (Some p) req write (set_heap (<[p := fill]> (heap s)) s) = Some (tt, s') ∧
    serv_ok s') as Herr.
  { intros nread Hn. unfold on_recv_cb. rewrite (proj2 (Z.ltb_lt _ _) Hn), (abandon s h x p fill Hh Hc Hp).
    eexists. split; [reflexivity|]. by eapply serv_ok_handle; [..|apply in_step_close']. }
  destruct a as [bs| | |err]; [|..|by apply Herr].
  2:{ unfold on_recv_cb. cbn [Z.ltb Z.compare Z.eqb]. rewrite (bind_Some _ _ _ _ _ (release_fresh s p fill Hp)). by exists s. }
  2:{ by apply Herr. }
  destruct Ha as [Hne Hmax]. rewrite M_modify. cbn [heap set_heap]. rewrite insert_insert_eq. set (data := bs ++ drop (length bs) fill).
  unfold on_handle. rewrite M_assoc, M_get, M_assoc. cbn [handles set_heap]. rewrite Hh, M_lift, M_put.
  set (s1 := set_handles (<[h := h_deliver bs x]> (handles s)) (received_one (Z.of_nat (length bs)) s)).
  unfold on_recv_cb. assert (0 < Z.of_nat (length bs)) by (destruct bs; [done|simpl; lia]).
  rewrite (proj2 (Z.ltb_ge _ 0)), (proj2 (Z.eqb_neq _ 0)) by lia. rewrite M_modify.
  change (received_one _ (set_handles _ _)) with (set_heap (<[p := data]> (heap s1)) s1).
  assert (handles s1 !! h = Some (h_deliver bs x)) as Hh1 by apply lookup_insert_eq.
  assert (serv_ok (set_handles (<[h := set_h_closing (h_deliver bs x)]> (handles s1)) s1)) as Hclosed.
  { apply (serv_ok_same (set_handles (<[h := set_h_closing (h_deliver bs x)]> (handles s)) s)); try done.
    - by eapply serv_ok_handle; [..|apply in_step_close].
    - simpl. by rewrite insert_insert_eq. }
  destruct req as [r|].
  2:{ rewrite (abandon s1 h (h_deliver bs x) p data Hh1 Hc Hp). by eexists. }
  destruct (Hreq r eq_refl) as [Hr Hrp]. specialize (Hrp p fill eq_refl).
  unfold acquire. rewrite M_modify, M_lift. cbv beta. destruct (negb (write =? 0)).
  - change (set_heap (<[r := []]> _) _) with (set_heap (<[r := []]> (<[p := data]> (heap s1))) s1).
    rewrite (abandon_request s1 h (h_deliver bs x) p r data Hh1 Hc Hp Hr Hrp). by eexists.
  - eexists. split; [reflexivity|]. simpl.
    eapply serv_ok_same; [exact (echo_accepted s h x p r bs fill Hok Hh Hc Hp Hr Hrp ltac:(lia))|done..].
Qed.

Lemma h_report_closing status bs x : h_closing (h_report status bs x) = h_closing x.
Proof. unfold h_report. by destruct (_ =? _). Qed.

(** The first pending write of a client is done. *)
Lemma in_step_report q status bs x : in_step (bs ++ q) x → in_step q (h_report status bs x).
Proof.
  intros Hx Hf. unfold h_report in *. destruct (status =? 0); simpl in *; [|done].
  specialize (Hx Hf). by rewrite <- app_assoc.
Qed.

(** A write in the list and what is left without it. *)
Lemma sent_ok s i w bs status n m :
  serv_ok s → writes s !! i = Some w → (∀ j w', (j < i)%nat → writes s !! j = Some w' → w_handle w' ≠ w_handle w) →
  heap s !! w_base w = Some bs → handles s !! w_handle w = Some n → m = delete (w_req w) (delete (w_base w) (heap s)) →
  serv_ok (set_heap m (set_handles (<[w_handle w := h_report status (take (Z.to_nat (w_len w)) bs) n]> (handles s))
    (set_writes (delete i (writes s)) s))).
Proof.
  intros Hok Hw Hfirst Hb Hn ->. pose proof Hok as []. pose proof (take_drop_middle _ _ _ Hw) as Hsplit.
  rewrite delete_take_drop. set (l1 := take i (writes s)) in *. set (l2 := drop (S i) (writes s)) in *.
  assert (∀ w', w' ∈ l1 → w_handle w' ≠ w_handle w) as Hl1.
  { intros w' (j & Hj)%list_elem_of_lookup. unfold l1 in Hj. apply lookup_take_Some in Hj as [Hj Hlt]. by eapply Hfirst. }
  assert (wblocks (writes s) ≡ₚ w_req w :: w_base w :: wblocks (l1 ++ l2)) as Hperm.
  { rewrite <- Hsplit. unfold wblocks. rewrite !bind_app. simpl. apply Permutation_trans with
      (([w_req w; w_base w] ++ (l2 ≫= λ w, [w_req w; w_base w])) ++ (l1 ≫= λ w, [w_req w; w_base w])); [apply Permutation_app_comm|].
    simpl. do 2 f_equiv. apply Permutation_app_comm. }
  pose proof so_nodup0 as Hnd. rewrite Hperm in Hnd. apply NoDup_cons in Hnd as [Hr Hnd]. apply NoDup_cons in Hnd as [Hbn Hnd].
  assert (∀ p, p ∈ wblocks (l1 ++ l2) → p ≠ w_req w ∧ p ≠ w_base w) as Hother.
  { intros p Hp. split; intros ->; [apply Hr; by right|done]. }
  assert (∀ p, p ∈ wblocks (l1 ++ l2) → p ∈ wblocks (writes s)) as Hsub by (intros p Hp; rewrite Hperm; by do 2 right).
  assert (handles s !! w_req w = None ∧ handles s !! w_base w = None) as [Hrh Hbh].
  { split; apply so_apart0; rewrite Hperm; [by left|right; by left]. }
  assert (∀ q, is_Some (<[w_handle w := h_report status (take (Z.to_nat (w_len w)) bs) n]> (handles s) !! q) ↔ is_Some (handles s !! q)) as Hdom.
  { intros q. rewrite lookup_insert. case_decide as E; [subst q; rewrite Hn; split; by eexists|done]. }
  split; simpl.
  - done.
  - intros p. rewrite Hdom, !lookup_delete. case_decide as E1; [subst p|case_decide as E2; [subst p|]].
    + rewrite Hrh. split; [by intros []|]. intros [[]|Hp%Hother]; [done|tauto].
    + rewrite Hbh. split; [by intros []|]. intros [[]|Hp%Hother]; [done|tauto].
    + rewrite so_blocks0, Hperm, !elem_of_cons. split; [|tauto]. intros [?|[?|[?|?]]]; [tauto|congruence|congruence|tauto].
  - intros p Hp. apply Hsub, so_apart0 in Hp. rewrite lookup_insert. case_decide as E; [by subst p; rewrite Hn in Hp|done].
  - intros w' Hw'. apply Hdom, so_writes0. rewrite <- Hsplit. apply elem_of_app in Hw' as [?|?]; apply elem_of_app; [by left|right; by right].
  - intros h y Hy.
    assert (pend (delete (w_req w) (delete (w_base w) (heap s))) (l1 ++ l2) h = pend (heap s) (l1 ++ l2) h) as ->.
    { apply pend_heap. intros w' Hw'%base_in_wblocks%Hother. by rewrite !lookup_delete_ne by (intros E; destruct Hw'; congruence). }
    rewrite lookup_insert in Hy. case_decide as E.
    + injection Hy as <-. subst h. apply in_step_report. rewrite pend_app, (pend_none _ _ _ Hl1). simpl.
      specialize (so_echo0 _ _ Hn). rewrite <- Hsplit in so_echo0.
      change (l1 ++ w :: l2) with (l1 ++ [w] ++ l2) in so_echo0.
      rewrite !pend_app, (pend_none _ _ _ Hl1), pend_one, decide_True in so_echo0 by done. simpl in so_echo0.
      unfold wbytes in so_echo0. by rewrite Hb in so_echo0.
    + specialize (so_echo0 _ _ Hy). rewrite <- Hsplit in so_echo0. change (l1 ++ w :: l2) with (l1 ++ [w] ++ l2) in so_echo0.
      rewrite !pend_app, pend_one, decide_False in so_echo0 by done. simpl in so_echo0. by rewrite pend_app.
Qed.

Lemma write_done_ok s i status :
  serv_ok s → enabled s (ESent i status) → ∃ s', exec (ESent i status) s = Some (tt, s') ∧ serv_ok s'.
Proof.
  intros Hok (w & Hw & Hfirst). pose proof Hok as []. apply list_elem_of_lookup_2 in Hw as Hin.
  destruct (so_writes0 w Hin) as [n Hn].
  assert (is_Some (heap s !! w_base w)) as [bs Hb] by (apply so_blocks0; right; by apply base_in_wblocks).
  assert (is_Some (heap s !! w_req w)) as [rq Hr] by (apply so_blocks0; right; apply elem_of_wblocks; eauto).
  assert (w_req w ≠ w_base w) as Hne.
  { apply list_elem_of_split in Hin as (l1 & l2 & E). rewrite E in so_nodup0. unfold wblocks in so_nodup0.
    rewrite bind_app in so_nodup0. apply NoDup_app in so_nodup0 as (_ & _ & Hnd). simpl in Hnd.
    apply NoDup_cons in Hnd as [Hnd _]. intros E'. apply Hnd. rewrite E'. by left. }
  pose proof (sent_ok s i w bs status n _ Hok Hw Hfirst Hb Hn eq_refl) as Hok'.
  cbn [exec]. unfold uv_write_done. rewrite M_get, Hw, M_lift, Hb, M_lift, M_modify. unfold on_handle.
  rewrite M_assoc, M_get, M_assoc. cbn [handles set_writes]. rewrite Hn, M_lift, M_put. unfold on_send_cb.
  set (s1 := set_handles _ _) in *.
  assert (∃ s2, (if negb (status =? 0) then mret tt else modify (sent_one (w_len w))) s1 = Some (tt, s2) ∧
    heap s2 = heap s1 ∧ handles s2 = handles s1 ∧ writes s2 = writes s1) as (s2 & Hc & H1 & H2 & H3).
  { destruct (negb _); by eexists. }
  rewrite (bind_Some _ _ _ _ _ Hc). unfold free_write_req.
  assert (heap s2 !! w_base w = Some bs) as Hb2 by (by rewrite H1).
  rewrite (bind_Some _ _ _ _ _ (release_block s2 _ bs Hb2)).
  rewrite (release_block _ _ rq) by (simpl; rewrite H1, lookup_delete_ne; done).
  eexists. split; [reflexivity|]. eapply serv_ok_same; [exact Hok'|simpl; by rewrite H1|simpl; by rewrite H2|simpl; by rewrite H3].
Qed.

Lemma close_done_ok s h :
  serv_ok s → enabled s (EClosed h) → ∃ s', exec (EClosed h) s = Some (tt, s') ∧ serv_ok s'.
Proof.
  intros Hok [(x & Hx & Hc) Hno]. pose proof Hok as [].
  assert (is_Some (heap s !! h)) as [bs Hb] by (apply so_blocks0; left; by rewrite Hx).
  assert (h ∉ wblocks (writes s)) as Hw by (intros Hin%so_apart0; by rewrite Hx in Hin).
  cbn [exec]. unfold uv_close_done, on_close_cb. rewrite M_modify.
  rewrite (release_block _ _ bs) by done. eexists. split; [reflexivity|]. split; simpl.
  - done.
  - intros p. rewrite !lookup_delete. case_decide as E; [subst p|apply so_blocks0].
    split; [by intros []|]. intros [[]|]; done.
  - intros p Hp. rewrite lookup_delete. case_decide; [done|by apply so_apart0].
  - intros w Hin. rewrite lookup_delete_ne by (intros E; by apply (Hno w Hin)). by apply so_writes0.
  - intros h' y Hy. rewrite lookup_delete in Hy. case_decide as E; [done|].
    rewrite (pend_heap (heap s)); [by apply so_echo0|]. intros w Hin%base_in_wblocks. by rewrite lookup_delete_ne by (by intros ->).
Qed.

(** A new client, open or already being closed. *)
Lemma new_client_ok s c x :
  serv_ok s → heap s !! c = None → h_in x = [] → h_out x = [] →
  serv_ok (set_handles (<[c := x]> (handles s)) (set_heap (<[c := []]> (heap s)) s)).
Proof.
  intros Hok Hc Hi Ho. pose proof Hok as [].
  assert (c ∉ wblocks (writes s)) as Hw.
  { intros Hin. assert (is_Some (heap s !! c)) as [? E]; [apply so_blocks0; by right|by rewrite Hc in E]. }
  assert (handles s !! c = None) as Hh.
  { destruct (handles s !! c) eqn:E; [|done]. assert (is_Some (heap s !! c)) as [? E']; [apply so_blocks0; left; by rewrite E|by rewrite Hc in E']. }
  assert (∀ h, pend (<[c := []]> (heap s)) (writes s) h = pend (heap s) (writes s) h) as Hp.
  { intros h. apply pend_heap. intros w Hin%base_in_wblocks. by rewrite lookup_insert_ne by (by intros ->). }
  split; simpl.
  - done.
  - intros p. rewrite !lookup_insert. case_decide as E; [|apply so_blocks0]. split; [left|]; by eexists.
  - intros p Hp'. rewrite lookup_insert_ne by (by intros ->). by apply so_apart0.
  - intros w Hin. rewrite lookup_insert. case_decide; [by eexists|by apply so_writes0].
  - intros h y Hy. rewrite Hp. rewrite lookup_insert in Hy. case_decide as E; [|by apply so_echo0]. subst h. injection Hy as <-.
    assert (pend (heap s) (writes s) c = []) as ->.
    { apply pend_none. intros w Hin E. destruct (so_writes0 w Hin) as [? E']. by rewrite E, Hh in E'. }
    intros _. rewrite Hi, Ho. by destruct (h_closing x).
Qed.

Lemma connect_ok s status client accept read_start :
  serv_ok s → enabled s (EConnect status client accept read_start) →
  ∃ s', exec (EConnect status client accept read_start) s = Some (tt, s') ∧ serv_ok s'.
Proof.
  intros Hok Hen. cbn [exec]. unfold on_connection_cb. destruct (status <? 0); [by exists s|].
  destruct client as [c|]; [|by exists s]. specialize (Hen c eq_refl). unfold acquire. rewrite !M_modify. cbv beta.
  set (s1 := set_handles _ _).
  assert (handles s1 !! c = Some new_handle) as Hc by apply lookup_insert_eq.
  assert (∃ s', close_client c s1 = Some (tt, s') ∧ serv_ok s') as Hclose.
  { rewrite (close_client_run s1 c new_handle Hc eq_refl). eexists. split; [reflexivity|].
    eapply serv_ok_same; [exact (new_client_ok s c (set_h_closing new_handle) Hok Hen eq_refl eq_refl)|done| |done].
    simpl. by rewrite insert_insert_eq. }
  destruct (negb _); [done|]. destruct (negb _); [done|]. unfold on_handle. rewrite M_get, Hc, M_lift.
  eexists. split; [reflexivity|].
  eapply serv_ok_same; [exact (new_client_ok s c (set_h_reading new_handle) Hok Hen eq_refl eq_refl)|done| |done].
  simpl. by rewrite insert_insert_eq.
Qed.

Lemma exec_ok s x : serv_ok s → enabled s x → ∃ s', exec x s = Some (tt, s') ∧ serv_ok s'.
Proof. destruct x; [apply connect_ok|apply read_ok|apply write_done_ok|apply close_done_ok]. Qed.

Lemma no_serv_ok : serv_ok no_serv.
Proof.
  split; simpl.
  - apply NoDup_nil_2.
  - intros p. rewrite !lookup_empty. split; [by intros []|]. intros [[]|Hp]; [done|by apply elem_of_nil in Hp].
  - intros p Hp. by apply elem_of_nil in Hp.
  - intros w Hw. by apply elem_of_nil in Hw.
  - intros h x Hx. by rewrite lookup_empty in Hx.
Qed.

Lemma runs_ok s l s' : serv_ok s → runs s l s' → serv_ok s'.
Proof.
  intros Hok Hr. induction Hr as [|s x s1 l s2 Hen Hx _ IH]; [done|]. apply IH.
  destruct (exec_ok s x Hok Hen) as (s1' & Hx' & Hok'). rewrite Hx in Hx'. by injection Hx' as <-.
Qed.

(** ** Theorem *)

(** C15. The echo server echoes, and keeps its memory in order.  From the start, after any
    run of connections, reads, finished writes and closes, whatever malloc and libuv answer,
    every next callback is defined, so that no block is used after its release or released
    twice; as long as no write of a client was reported as failed, the bytes transmitted to it
    and those of its accepted writes are the bytes it sent, in order (all of them while it is
    open, the first ones when it is being closed); and when no client is left, no block is. *)
Theorem echo_exact l s :
  runs no_serv l s →
  (∀ x, enabled s x → is_Some (exec x s)) ∧
  (∀ h x, handles s !! h = Some x → h_failed x = false →
    if h_closing x then h_out x ++ pend (heap s) (writes s) h `prefix_of` h_in x
    else h_out x ++ pend (heap s) (writes s) h = h_in x) ∧
  (handles s = ∅ → heap s = ∅ ∧ writes s = []).
Proof.
  intros Hr. pose proof (runs_ok _ _ _ no_serv_ok Hr) as Hok. split_and!.
  - intros x Hen. destruct (exec_ok s x Hok Hen) as (s' & -> & _). by eexists.
  - intros h x Hx Hf. by apply (so_echo _ Hok h x Hx).
  - intros Hnone. pose proof Hok as []. assert (writes s = []) as Hw.
    { destruct (writes s) as [|w ws] eqn:E; [done|]. destruct (so_writes0 w (list_elem_of_here _ _)) as [? Hx].
      by rewrite Hnone, lookup_empty in Hx. }
    split; [|done]. apply map_empty. intros p. apply eq_None_not_Some. intros Hp. apply so_blocks0 in Hp as [[? Hp]|Hp].
    + by rewrite Hnone, lookup_empty in Hp.
    + rewrite Hw in Hp. by apply elem_of_nil in Hp.
Qed.

(** ** Sample *)

(** A client connects and sends two messages; the first comes back. *)
Definition echo_script (page : list Z) : list act :=
  [EConnect 0 (Some 1%nat) 0 0;
   ERead 1 (Some (2%nat, page)) (GotBytes [104; 105]) (Some 3%nat) 0;
   ERead 1 (Some (4%nat, page)) (GotBytes [33]) (Some 5%nat) 0;
   ESent 0 0].

Lemma script_runs page : Z.of_nat (length page) = 65536 →
  ∃ s x, runs no_serv (echo_script page) s ∧ handles s !! 1%nat = Some x ∧ h_failed x = false ∧ h_closing x = false ∧
    h_in x = [104; 105; 33] ∧ h_out x = [104; 105].
Proof.
  intros Hp. eexists _, _. split.
  { eapply runs_cons; [|vm_compute; reflexivity|]; [intros p [= <-]; reflexivity|].
    eapply runs_cons; [|vm_compute; reflexivity|].
    { split_and!; [by eexists|intros p fill [= <- <-]; done| |done|done]. intros r [= <-]. split; [done|by intros p fill [= <- _]]. }
    eapply runs_cons; [|vm_compute; reflexivity|].
    { split_and!; [by eexists|intros p fill [= <- <-]; done| |done|done]. intros r [= <-]. split; [done|by intros p fill [= <- _]]. }
    eapply runs_cons; [|vm_compute; reflexivity|apply runs_nil].
    eexists. split; [reflexivity|]. intros j w Hj. lia. }
  split; [reflexivity|done].
Qed.

Lemma echo_exact_witness :
  ∃ s, runs no_serv (echo_script (replicate (Z.to_nat 65536) 0)) s ∧ pend (heap s) (writes s) 1 = [33].
Proof.
  destruct (script_runs (replicate (Z.to_nat 65536) 0)) as (s & x & Hr & Hh & Hf & Hc & Hi & Ho).
  - by rewrite length_replicate.
  - exists s. split; [exact Hr|]. destruct (echo_exact _ s Hr) as (_ & Hecho & _). specialize (Hecho 1%nat x Hh Hf).
    rewrite Hc, Ho, Hi in Hecho. exact (app_inv_head [104; 105] _ [33] Hecho).
Defined.

End Echo.
