(* ===== verification/EchoCtl.v ===== *)
(** The control of the stand-alone echo server: start, stop and the thread of
    src/tcpserv/tcpserv.c around the callbacks of EchoServ.

    The main thread and the thread of the loop share the globals of the file.  They are
    interleaved between the turns of [uv_run]; what libuv, the system and the network
    answer are arguments of the steps.  The sizes of the two blocks that are requested
    with the size of another type are parameters, so that the rest of the code can be
    followed past them. *)
From stdpp Require Import base numbers list option strings.
From Stdlib Require Import ZArith Lia.
From S2P Require Import Prelude Inet UvLoop ServiceLife LifeRun.

Local Open Scope Z_scope.
Local Open Scope c_scope.

(** ** Data *)

Definition UV_UNKNOWN : Z := -4094.
Definition UV_ENOMEM : Z := -12.

(** Sizes on a 64-bit Linux. *)
Definition sizeof_uv_tcp_t : Z := 248.
Definition sizeof_uv_udp_t : Z := 216.
Definition sizeof_uv_async_t : Z := 128.
Definition sizeof_pointer : Z := 8.

(** A global pointer to a block: NULL, to a block in use, to a block that was released. *)
Inductive cptr := CNull | CLive | CFreed.

(** The thread: not created, created, in [uv_run], after it, returned. *)
Inductive ec_phase := EcNone | EcSetup | EcRunning | EcClosing | EcDone.

(** The globals; the loop; whether the async handle was sent and not yet noticed; the
    thread; whether the main thread waits for it; the loops released without a close. *)
Record ctl := {
  uvu_closing : bool;
  uvu_thread_priv : cptr;
  uvu_loop : cptr;
  uvu_tcp_server : cptr;
  uvu_accept_timer : cptr;
  ec_loop : loop_t;
  ec_pending : bool;
  ec_io : ec_phase;
  ec_join : bool;
  ec_lost : nat;
}.

Definition set_ec_closing (x : bool) (s : ctl) : ctl :=
  {| uvu_closing := x; uvu_thread_priv := uvu_thread_priv s; uvu_loop := uvu_loop s;
     uvu_tcp_server := uvu_tcp_server s; uvu_accept_timer := uvu_accept_timer s; ec_loop := ec_loop s;
     ec_pending := ec_pending s; ec_io := ec_io s; ec_join := ec_join s; ec_lost := ec_lost s |}.
Definition set_ec_priv (x : cptr) (s : ctl) : ctl :=
  {| uvu_closing := uvu_closing s; uvu_thread_priv := x; uvu_loop := uvu_loop s;
     uvu_tcp_server := uvu_tcp_server s; uvu_accept_timer := uvu_accept_timer s; ec_loop := ec_loop s;
     ec_pending := ec_pending s; ec_io := ec_io s; ec_join := ec_join s; ec_lost := ec_lost s |}.
Definition set_ec_loop_ptr (x : cptr) (s : ctl) : ctl :=
  {| uvu_closing := uvu_closing s; uvu_thread_priv := uvu_thread_priv s; uvu_loop := x;
     uvu_tcp_server := uvu_tcp_server s; uvu_accept_timer := uvu_accept_timer s; ec_loop := ec_loop s;
     ec_pending := ec_pending s; ec_io := ec_io s; ec_join := ec_join s; ec_lost := ec_lost s |}.
Definition set_ec_tcp_ptr (x : cptr) (s : ctl) : ctl :=
  {| uvu_closing := uvu_closing s; uvu_thread_priv := uvu_thread_priv s; uvu_loop := uvu_loop s;
     uvu_tcp_server := x; uvu_accept_timer := uvu_accept_timer s; ec_loop := ec_loop s;
     ec_pending := ec_pending s; ec_io := ec_io s; ec_join := ec_join s; ec_lost := ec_lost s |}.
Definition set_ec_timer_ptr (x : cptr) (s : ctl) : ctl :=
  {| uvu_closing := uvu_closing s; uvu_thread_priv := uvu_thread_priv s; uvu_loop := uvu_loop s;
     uvu_tcp_server := uvu_tcp_server s; uvu_accept_timer := x; ec_loop := ec_loop s;
     ec_pending := ec_pending s; ec_io := ec_io s; ec_join := ec_join s; ec_lost := ec_lost s |}.
Definition set_ec_loop (x : loop_t) (s : ctl) : ctl :=
  {| uvu_closing := uvu_closing s; uvu_thread_priv := uvu_thread_priv s; uvu_loop := uvu_loop s;
     uvu_tcp_server := uvu_tcp_server s; uvu_accept_timer := uvu_accept_timer s; ec_loop := x;
     ec_pending := ec_pending s; ec_io := ec_io s; ec_join := ec_join s; ec_lost := ec_lost s |}.
Definition set_ec_pending (x : bool) (s : ctl) : ctl :=
  {| uvu_closing := uvu_closing s; uvu_thread_priv := uvu_thread_priv s; uvu_loop := uvu_loop s;
     uvu_tcp_server := uvu_tcp_server s; uvu_accept_timer := uvu_accept_timer s; ec_loop := ec_loop s;
     ec_pending := x; ec_io := ec_io s; ec_join := ec_join s; ec_lost := ec_lost s |}.
Definition set_ec_io (x : ec_phase) (s : ctl) : ctl :=
  {| uvu_closing := uvu_closing s; uvu_thread_priv := uvu_thread_priv s; uvu_loop := uvu_loop s;
     uvu_tcp_server := uvu_tcp_server s; uvu_accept_timer := uvu_accept_timer s; ec_loop := ec_loop s;
     ec_pending := ec_pending s; ec_io := x; ec_join := ec_join s; ec_lost := ec_lost s |}.
Definition set_ec_join (x : bool) (s : ctl) : ctl :=
  {| uvu_closing := uvu_closing s; uvu_thread_priv := uvu_thread_priv s; uvu_loop := uvu_loop s;
     uvu_tcp_server := uvu_tcp_server s; uvu_accept_timer := uvu_accept_timer s; ec_loop := ec_loop s;
     ec_pending := ec_pending s; ec_io := ec_io s; ec_join := x; ec_lost := ec_lost s |}.
Definition set_ec_lost (x : nat) (s : ctl) : ctl :=
  {| uvu_closing := uvu_closing s; uvu_thread_priv := uvu_thread_priv s; uvu_loop := uvu_loop s;
     uvu_tcp_server := uvu_tcp_server s; uvu_accept_timer := uvu_accept_timer s; ec_loop := ec_loop s;
     ec_pending := ec_pending s; ec_io := ec_io s; ec_join := ec_join s; ec_lost := x |}.

Definition on_ec_loop {A} (f : M loop_t A) : M ctl A := zoom ec_loop set_ec_loop f.

(** [TN_MEM_RELEASE] of a global that is tested first. *)
Definition release_global (get_ptr : ctl → cptr) (set_ptr : cptr → ctl → ctl) : M ctl unit :=
  s ← get;
  match get_ptr s with CNull => mret tt | CLive => modify (set_ptr CFreed) | CFreed => undef end.

Section Control.
Context (if_nametoindex : list Z → Z) (tcp_block async_block : Z).

(** ** The main thread *)

(** [acquired] and [create]: the answers of the allocator and of [uv_thread_create].  One
    of the two functions sets the family, so that the last branch is not reached. *)
Definition uvu_server_start (ipstr : list Z) (port : Z) (acquired : bool) (create : Z) : M ctl Z :=
  modify (set_ec_closing false);;
  s ← get;
  match uvu_thread_priv s with
  | CLive | CFreed => mret UV_UNKNOWN
  | CNull =>
      if negb acquired then mret UV_ENOMEM
      else
        modify (set_ec_priv CLive);;
        let ip6 := (uv_ip6_addr if_nametoindex ipstr port).1 in
        let ip4 := (uv_ip4_addr ipstr port).1 in
        if negb (ip6 =? 0) && negb (ip4 =? 0) then mret ip4
        else if negb (create =? 0) then mret create
        else modify (set_ec_io EcSetup);; mret 0
  end.

(** Up to the join: [None] when the call goes on to wait.  The handle is put into the block
    that was acquired for it, the loop is used through the global. *)
Definition uvu_server_stop_begin (acquired : bool) : M ctl (option Z) :=
  s ← get;
  if uvu_closing s then mret (Some (-1))
  else
    TN_ASSERT acquired;;
    TN_ASSERT (sizeof_uv_async_t <=? async_block);;
    TN_ASSERT (match uvu_loop s with CLive => true | _ => false end);;
    on_ec_loop (modify (λ l, uv__handle_start Async (uv__handle_init Async l)));;
    modify (set_ec_pending true);;
    modify (set_ec_join true);;
    mret None.

(** Once the thread is joined. *)
Definition uvu_server_stop_end : M ctl Z :=
  modify (set_ec_io EcNone);;
  modify (set_ec_join false);;
  release_global uvu_thread_priv set_ec_priv;;
  mret 0.

(** ** The thread *)

Definition timer_cb : M ctl unit :=
  s ← get;
  if uvu_closing s then on_ec_loop (close_unless_closing Listener);; on_ec_loop (close_unless_closing AcceptTimer)
  else mret tt.

Definition async_cb : M ctl unit := on_ec_loop (uv_close Async);; modify (set_ec_closing true).

Definition shutdown_walk_cb (h : uv_handle) : M loop_t unit := close_unless_closing h.

Definition uvu_server_run_cleanup : M ctl unit :=
  release_global uvu_accept_timer set_ec_timer_ptr;;
  release_global uvu_tcp_server set_ec_tcp_ptr;;
  release_global uvu_loop set_ec_loop_ptr.

(** The calls of [uvu_server_run] up to [uv_run], in order, named as those of the service. *)
Definition run_calls : list io_call :=
  [AcqLoop; AcqTcp; AcqTimer; LoopInit; TimerInit; TimerStart; TcpInit; TcpNodelay; TcpBind; TcpListen].

(** What a successful call does; [uv_tcp_init] fills the block of the server. *)
Definition run_effect (c : io_call) : M ctl unit :=
  match c with
  | AcqLoop => modify (set_ec_loop_ptr CLive)
  | AcqTcp => modify (set_ec_tcp_ptr CLive)
  | AcqTimer => modify (set_ec_timer_ptr CLive)
  | LoopInit => modify (set_ec_loop empty_loop)
  | TimerInit => on_ec_loop (modify (uv__handle_init AcceptTimer))
  | TimerStart => on_ec_loop (modify (uv__handle_start AcceptTimer))
  | TcpInit => TN_ASSERT (sizeof_uv_tcp_t <=? tcp_block);; on_ec_loop (modify (uv__handle_init Listener))
  | TcpListen => on_ec_loop (modify (uv__handle_start Listener))
  | _ => mret tt
  end.

(** The label [error] and the end. *)
Definition run_exit (lost : bool) : M ctl unit :=
  modify (λ s, set_ec_lost (if lost then S (ec_lost s) else ec_lost s) s);;
  uvu_server_run_cleanup;;
  modify (set_ec_io EcDone).

(** The chain of tests; [init]: the loop was set up. *)
Fixpoint run_guards (answer : io_call → Z) (init : bool) (cs : list io_call) : M ctl unit :=
  match cs with
  | [] => modify (set_ec_io EcRunning)
  | c :: cs =>
      if answer c =? 0 then
        run_effect c;;
        run_guards answer (match c with LoopInit => true | _ => init end) cs
      else run_exit init
  end.

Definition uvu_server_run (answer : io_call → Z) : M ctl unit :=
  modify (set_ec_loop_ptr CNull);; modify (set_ec_tcp_ptr CNull);; modify (set_ec_timer_ptr CNull);;
  run_guards answer false run_calls.

(** What polling finds: the async handle; a connection or a client that leaves; bytes from a
    client, which are written back. *)
Inductive ec_event := EAsync | EPoll (e : poll_event) | EEcho (c : nat).

Definition on_ec_event (e : ec_event) : M ctl unit :=
  s ← get;
  match e with
  | EAsync =>
      if ec_pending s && bool_decide (Async ∈ active_handles (ec_loop s)) then modify (set_ec_pending false);; async_cb
      else mret tt
  | EPoll e => on_ec_loop (on_poll e)
  | EEcho c =>
      on_ec_loop (modify (λ l,
        if decide (Client c ∈ active_handles l) then
          {| handle_queue := handle_queue l; active_handles := active_handles l; closing_handles := closing_handles l;
             closed_handles := closed_handles l; active_reqs := active_reqs l ++ [c] |}
        else l))
  end.

Fixpoint ec_polls (es : list ec_event) : M ctl unit :=
  match es with [] => mret tt | e :: es => on_ec_event e;; ec_polls es end.

(** A turn of [uv_run] and the test whether there is another. *)
Definition ec_turn (due : bool) (es : list ec_event) : M ctl unit :=
  s ← get;
  (if due && bool_decide (AcceptTimer ∈ active_handles (ec_loop s)) then timer_cb else mret tt);;
  ec_polls es;;
  on_ec_loop uv__run_closing_handles;;
  s ← get;
  if uv__loop_alive (ec_loop s) then mret tt else modify (set_ec_io EcClosing).

Definition ec_close : M ctl unit :=
  s ← get;
  if uv_loop_close (ec_loop s) =? 0 then run_exit false
  else
    on_ec_loop (uv_walk shutdown_walk_cb);;
    s ← get;
    run_exit (negb (uv_loop_close (ec_loop s) =? 0)).

(** ** The two threads together *)

Inductive ec_act :=
  | CStart (ipstr : list Z) (port : Z) (acquired : bool) (create : Z)
  | CStop (acquired : bool)
  | CJoined
  | CRun (answer : io_call → Z)
  | CTurn (due : bool) (es : list ec_event)
  | CClose.

Definition exec_ec (x : ec_act) : M ctl unit :=
  match x with
  | CStart ip port acquired create => uvu_server_start ip port acquired create;; mret tt
  | CStop acquired => uvu_server_stop_begin acquired;; mret tt
  | CJoined => uvu_server_stop_end;; mret tt
  | CRun answer => uvu_server_run answer
  | CTurn due es => ec_turn due es
  | CClose => ec_close
  end.

(** The main thread calls while it does not wait; the join returns when the thread has; the
    thread takes its steps in order. *)
Definition ec_enabled (s : ctl) (x : ec_act) : Prop :=
  match x with
  | CStart _ _ _ _ | CStop _ => ec_join s = false
  | CJoined => ec_join s = true ∧ ec_io s = EcDone
  | CRun _ => ec_io s = EcSetup
  | CTurn _ _ => ec_io s = EcRunning
  | CClose => ec_io s = EcClosing
  end.

(** A stop is only called while the loop runs, and gets its block. *)
Definition ec_safe (s : ctl) (x : ec_act) : Prop :=
  match x with CStop acquired => acquired = true ∧ ec_io s = EcRunning | _ => True end.

Inductive ec_runs : ctl → list ec_act → ctl → Prop :=
  | ec_nil s : ec_runs s [] s
  | ec_cons s x s1 xs s2 : ec_enabled s x → ec_safe s x → exec_ec x s = Some (tt, s1) → ec_runs s1 xs s2 → ec_runs s (x :: xs) s2.

(** ** Invariant *)

Definition gone (h : uv_handle) (l : loop_t) : Prop := h ∉ active_handles l ∧ uv_is_closing h l = true.

(** During a turn: the listener and the timer are up or gone together, and up unless the
    closing was noticed; the async handle does not exist, waits, or is gone with the closing
    noticed. *)
Record mid (s : ctl) : Prop := {
  mi_turn : turn_ok (ec_loop s);
  mi_own : (Listener ∈ active_handles (ec_loop s) ∧ AcceptTimer ∈ active_handles (ec_loop s)) ∨
           (gone Listener (ec_loop s) ∧ gone AcceptTimer (ec_loop s));
  mi_open : uvu_closing s = false → AcceptTimer ∈ active_handles (ec_loop s);
  mi_none : ec_join s = false → Async ∉ active_handles (ec_loop s) ∧ uv_is_closing Async (ec_loop s) = false ∧ uvu_closing s = false;
  mi_async : ec_join s = true → (uvu_closing s = false ∧ ec_pending s = true ∧ Async ∈ active_handles (ec_loop s)) ∨ (uvu_closing s = true ∧ gone Async (ec_loop s));
  mi_kinds : ∀ h, h ∈ active_handles (ec_loop s) → h = Listener ∨ h = AcceptTimer ∨ h = Async ∨ ∃ c, h = Client c;
}.

(** What the loop leaves alone. *)
Record same_ctl (s s' : ctl) : Prop := {
  sc_priv : uvu_thread_priv s' = uvu_thread_priv s;
  sc_loop : uvu_loop s' = uvu_loop s;
  sc_tcp : uvu_tcp_server s' = uvu_tcp_server s;
  sc_timer : uvu_accept_timer s' = uvu_accept_timer s;
  sc_io : ec_io s' = ec_io s;
  sc_join : ec_join s' = ec_join s;
  sc_lost : ec_lost s' = ec_lost s;
}.

Lemma same_ctl_refl s : same_ctl s s.
Proof. done. Qed.
Lemma same_ctl_trans s1 s2 s3 : same_ctl s1 s2 → same_ctl s2 s3 → same_ctl s1 s3.
Proof. intros [] []. split; congruence. Qed.

Lemma gone_polls h l l' : (∀ c, h ≠ Client c) → polls l l' → gone h l → gone h l'.
Proof.
  intros Hh Hp [Hna Hc]. split; [by rewrite (po_service _ _ Hp)|]. unfold uv_is_closing in *.
  rewrite orb_true_iff, !bool_decide_eq_true in *. rewrite (po_closed _ _ Hp). destruct Hc; [left|by right]. by apply (po_closing _ _ Hp).
Qed.

Lemma open_polls h l l' : (∀ c, h ≠ Client c) → polls l l' → uv_is_closing h l = false → uv_is_closing h l' = false.
Proof.
  intros Hh Hp [Hn1 Hn2]%is_closing_false. apply is_closing_false. rewrite (po_closed _ _ Hp). split; [|done].
  intros Hx. by apply Hn1, (po_own _ _ Hp).
Qed.

Lemma mid_polls s l' :
  mid s → polls (ec_loop s) l' → mid (set_ec_loop l' s).
Proof.
  intros [] Hp. split; simpl; [by apply Hp|..].
  - rewrite !(po_service _ _ Hp) by done. destruct mi_own0 as [?|[? ?]]; [by left|right]. split; by apply (gone_polls _ (ec_loop s)).
  - rewrite (po_service _ _ Hp) by done. done.
  - intros Hj. destruct (mi_none0 Hj) as (H1 & H2 & H3). rewrite (po_service _ _ Hp) by done. split_and!; try done. by apply (open_polls _ (ec_loop s)).
  - intros Hj. rewrite (po_service _ _ Hp) by done. destruct (mi_async0 Hj) as [?|[? ?]]; [by left|right]. split; [done|]. by apply (gone_polls _ (ec_loop s)).
  - intros h Hh. assert ((∃ c, h = Client c) ∨ ∀ c, h ≠ Client c) as [[c ->]|Hn] by (destruct h; eauto); [eauto 6|].
    apply mi_kinds0. by apply (po_service _ _ Hp).
Qed.

Lemma gone_closed h l : gone h (closed_over h l).
Proof.
  split; simpl; [rewrite list_elem_of_filter; tauto|]. unfold uv_is_closing. simpl. by rewrite bool_decide_eq_true_2 by (by left).
Qed.
Lemma gone_over g h l : gone g l → gone g (closed_over h l).
Proof.
  intros [Hn Hc]. split; simpl; [rewrite list_elem_of_filter; tauto|]. unfold uv_is_closing in *. simpl.
  rewrite orb_true_iff, !bool_decide_eq_true in *. destruct Hc; [left; by right|by right].
Qed.
Lemma gone_unless h l : gone h l → close_unless_closing h l = Some (tt, l).
Proof. intros [_ Hc]. unfold close_unless_closing. by rewrite M_get, Hc. Qed.

Lemma ec_zoom {A} (f : M loop_t A) s a l : f (ec_loop s) = Some (a, l) → on_ec_loop f s = Some (a, set_ec_loop l s).
Proof. intros H. unfold on_ec_loop, zoom. by rewrite H. Qed.

Lemma set_loop_id s : set_ec_loop (ec_loop s) s = s.
Proof. by destruct s. Qed.

(** The timer: nothing, or the listener and the timer go. *)
Lemma timer_ok s :
  mid s →
  ∃ l, timer_cb s = Some (tt, set_ec_loop l s) ∧ mid (set_ec_loop l s) ∧
    (uvu_closing s = true → gone Listener l ∧ gone AcceptTimer l) ∧ (∀ h, h ∈ active_handles l → h ∈ active_handles (ec_loop s)) ∧
    (∀ c, Client c ∈ active_handles (ec_loop s) → Client c ∈ active_handles l) ∧
    (Async ∈ active_handles (ec_loop s) → Async ∈ active_handles l).
Proof.
  intros Hm. unfold timer_cb. rewrite M_get. destruct (uvu_closing s) eqn:Ecl.
  2: { exists (ec_loop s). rewrite set_loop_id. split_and!; try done. }
  destruct (mi_own s Hm) as [[Hl Ht]|[Gl Gt]].
  2: { exists (ec_loop s). rewrite set_loop_id. split_and!; try done. bstep (ec_zoom _ s _ _ (gone_unless _ _ Gl)).
       rewrite set_loop_id. rewrite (ec_zoom _ s _ _ (gone_unless _ _ Gt)). by rewrite set_loop_id. }
  destruct (close_unless_closing_run Listener _ (mi_turn s Hm) Hl) as [R1 O1].
  destruct (close_unless_closing_run AcceptTimer _ O1 (closed_over_active AcceptTimer Listener _ Ht ltac:(done))) as [R2 O2].
  set (l2 := closed_over AcceptTimer (closed_over Listener (ec_loop s))) in *.
  assert (gone Listener l2) as Gl by apply gone_over, gone_closed. assert (gone AcceptTimer l2) as Gt by apply gone_closed.
  assert (∀ h, h ≠ Listener → h ≠ AcceptTimer → h ∈ active_handles l2 ↔ h ∈ active_handles (ec_loop s)) as Hact.
  { intros h H1 H2. simpl. rewrite !list_elem_of_filter. tauto. }
  assert (∀ h, h ≠ Listener → h ≠ AcceptTimer → uv_is_closing h l2 = uv_is_closing h (ec_loop s)) as Hcl.
  { intros h H1 H2. unfold uv_is_closing. simpl. f_equal. apply bool_decide_ext. rewrite !elem_of_cons. tauto. }
  assert (∀ h, h ∈ active_handles l2 → h ∈ active_handles (ec_loop s)) as Hsub.
  { intros h. simpl. rewrite !list_elem_of_filter. tauto. }
  exists l2. split; [bstep (ec_zoom _ s _ _ R1); by rewrite (ec_zoom _ (set_ec_loop _ s) _ _ R2)|]. split_and!; try done; [|by intros c Hc; apply Hact|by intros Ha; apply Hact].
  split; cbn [set_ec_loop ec_loop ec_join ec_pending uvu_closing]; [done|by right|by rewrite Ecl|..].
  - intros Hj. destruct (mi_none s Hm Hj) as (_ & _ & ?). congruence.
  - intros Hj. unfold gone. rewrite Hact, Hcl by done. by apply (mi_async s Hm).
  - intros h Hh. by apply (mi_kinds s Hm), Hsub.
Qed.

Definition leaves (e : ec_event) : option nat := match e with EPoll (PLeave c) => Some c | _ => None end.

(** A poll event. *)
Lemma ec_event_ok e s :
  mid s →
  ∃ s', on_ec_event e s = Some (tt, s') ∧ mid s' ∧ same_ctl s s' ∧
    (∀ c, leaves e ≠ Some c → Client c ∈ active_handles (ec_loop s) → Client c ∈ active_handles (ec_loop s')) ∧
    (∀ c, leaves e = Some c → Client c ∉ active_handles (ec_loop s')) ∧
    (Listener ∉ active_handles (ec_loop s) → ∀ h, h ∈ active_handles (ec_loop s') → h ∈ active_handles (ec_loop s)) ∧
    (gone Listener (ec_loop s) → gone Listener (ec_loop s')) ∧ (gone AcceptTimer (ec_loop s) → gone AcceptTimer (ec_loop s')) ∧
    (gone Async (ec_loop s) → gone Async (ec_loop s')) ∧ (uvu_closing s = true → uvu_closing s' = true) ∧
    (e = EAsync → ec_join s = true → uvu_closing s' = true ∧ gone Async (ec_loop s')).
Proof.
  intros Hm. unfold on_ec_event. rewrite M_get. destruct e as [|e|c].
  - destruct (ec_pending s) eqn:Ep; [destruct (bool_decide _) eqn:Ea|]; simpl.
    + apply bool_decide_eq_true in Ea. rewrite M_modify. unfold async_cb.
      destruct (active_close_run Async _ (mi_turn s Hm) Ea) as [R1 O1].
      bstep (ec_zoom (uv_close Async) (set_ec_pending false s) _ _ R1). eexists. split; [reflexivity|].
      assert (∀ h, h ≠ Async → h ∈ active_handles (closed_over Async (ec_loop s)) ↔ h ∈ active_handles (ec_loop s)) as Hact.
      { intros h Hh. simpl. rewrite list_elem_of_filter. tauto. }
      assert (ec_join s = true) as Hj.
      { destruct (ec_join s) eqn:E; [done|]. by destruct (mi_none s Hm E). }
      split; [|split_and!; try done].
      * split; cbn [set_ec_closing set_ec_loop set_ec_pending ec_loop ec_join ec_pending uvu_closing].
        -- done.
        -- rewrite !Hact by done. destruct (mi_own s Hm) as [?|[? ?]]; [by left|right; split; by apply gone_over].
        -- done.
        -- congruence.
        -- intros _. right. split; [done|apply gone_closed].
        -- intros h Hh. apply (mi_kinds s Hm). simpl in Hh. by apply list_elem_of_filter in Hh as [_ ?].
      * intros c _ Hc. by apply Hact.
      * intros _ h Hh. simpl in Hh. by apply list_elem_of_filter in Hh as [_ ?].
      * intros G. by apply gone_over.
      * intros G. by apply gone_over.
      * intros G. by apply gone_over.
      * intros _ _. split; [done|apply gone_closed].
    + exists s. apply bool_decide_eq_false in Ea. split_and!; try done. intros _ Hj. by destruct (mi_async s Hm Hj) as [(_ & _ & ?)|?].
    + exists s. split_and!; try done. intros _ Hj. destruct (mi_async s Hm Hj) as [(_ & ? & _)|?]; [congruence|done].
  - destruct (on_poll_run e _ (mi_turn s Hm)) as (l' & Hr & Hp & Hstay & Hleave). exists (set_ec_loop l' s).
    split; [by apply ec_zoom|]. split; [by apply mid_polls|]. split; [done|].
    split; [intros c Hc; apply Hstay; intros ->; by apply Hc|].
    split; [intros c Hc; destruct e; simpl in Hc; [discriminate Hc| |discriminate Hc]; injection Hc as ->; by apply Hleave|].
    split; [by apply (po_no_listener _ _ Hp)|]. split_and!; try done; intros G; by apply (gone_polls _ (ec_loop s)).
  - eexists. split; [reflexivity|]. simpl. destruct (decide (Client c ∈ active_handles (ec_loop s))) as [Hc|Hc].
    2: { rewrite set_loop_id. by split_and!. }
    split; [|by split_and!]. destruct Hm as [[[? ? ?] ? ?] ? ? ? ? ?]. split; try done. split; try done. simpl.
    intros d [?|Hd]%elem_of_app; [auto|]. apply list_elem_of_singleton in Hd as ->. by apply lo_active.
Qed.

Lemma ec_polls_ok es s :
  mid s →
  ∃ s', ec_polls es s = Some (tt, s') ∧ mid s' ∧ same_ctl s s' ∧
    (∀ c, Forall (λ e, leaves e ≠ Some c) es → Client c ∈ active_handles (ec_loop s) → Client c ∈ active_handles (ec_loop s')) ∧
    (Listener ∉ active_handles (ec_loop s) →
      (∀ h, h ∈ active_handles (ec_loop s') → h ∈ active_handles (ec_loop s)) ∧
      ∀ c, Exists (λ e, leaves e = Some c) es → Client c ∉ active_handles (ec_loop s')) ∧
    (gone Listener (ec_loop s) → gone Listener (ec_loop s')) ∧ (gone AcceptTimer (ec_loop s) → gone AcceptTimer (ec_loop s')) ∧
    (gone Async (ec_loop s) → gone Async (ec_loop s')) ∧ (uvu_closing s = true → uvu_closing s' = true) ∧
    (EAsync ∈ es → ec_join s = true → uvu_closing s' = true ∧ gone Async (ec_loop s')).
Proof.
  revert s. induction es as [|e es IH]; intros s Hm.
  { exists s. split_and!; try done; [|by intros ?%elem_of_nil]. intros _. split; [done|]. intros c. by rewrite Exists_nil. }
  destruct (ec_event_ok e s Hm) as (s1 & Hr1 & Hm1 & Hs1 & Hk1 & Hl1 & Hn1 & G1 & G2 & G3 & C1 & A1).
  destruct (IH s1 Hm1) as (s2 & Hr2 & Hm2 & Hs2 & Hk2 & Hl2 & G4 & G5 & G6 & C2 & A2).
  exists s2. cbn [ec_polls]. split; [by bstep Hr1|]. split; [done|]. split; [by apply (same_ctl_trans s s1 s2)|]. split_and!; try (by auto).
  - intros c Hall Hc. inversion Hall; subst. auto.
  - intros HL. assert (Listener ∉ active_handles (ec_loop s1)) as HL1 by (intros H; by apply HL, Hn1). destruct (Hl2 HL1) as [Hsub Hgone].
    split; [by auto|]. intros c. rewrite Exists_cons. intros [He|He]; [|by apply Hgone]. intros Hc. by apply (Hl1 c He), Hsub.
  - intros [<-|He]%elem_of_cons Hj; [destruct (A1 eq_refl Hj); auto|]. apply A2; [done|]. by rewrite (sc_join _ _ Hs1).
Qed.

Lemma mid_closed s :
  mid s →
  ∃ l', uv__run_closing_handles (ec_loop s) = Some (tt, l') ∧ mid (set_ec_loop l' s) ∧ closing_handles l' = [] ∧
    active_handles l' = active_handles (ec_loop s) ∧ (∀ h, uv_is_closing h l' = uv_is_closing h (ec_loop s)).
Proof.
  intros Hm. destruct (run_closing_ok _ (mi_turn s Hm)) as (l' & Hr & Hok & Ecl & Ea & Ed). exists l'.
  assert (∀ h, uv_is_closing h l' = uv_is_closing h (ec_loop s)) as Hc.
  { intros h. unfold uv_is_closing. rewrite Ecl, Ed. rewrite (bool_decide_eq_false_2 (h ∈ [])) by apply not_elem_of_nil. simpl.
    rewrite orb_comm. rewrite <- bool_decide_or. apply bool_decide_ext. by rewrite elem_of_app. }
  split; [done|]. split; [|done]. destruct Hm. split; simpl; unfold gone; rewrite ?Ea, ?Hc; done.
Qed.

Definition running (s : ctl) : Prop := mid s ∧ closing_handles (ec_loop s) = [].

(** A turn of the loop. *)
Lemma ec_turn_ok due es s :
  running s → ec_io s = EcRunning →
  ∃ s1, ec_turn due es s = Some (tt, if uv__loop_alive (ec_loop s1) then s1 else set_ec_io EcClosing s1) ∧ running s1 ∧ same_ctl s s1 ∧
    (∀ c, Forall (λ e, leaves e ≠ Some c) es → Client c ∈ active_handles (ec_loop s) → Client c ∈ active_handles (ec_loop s1)) ∧
    (gone Async (ec_loop s) → gone Async (ec_loop s1)) ∧ (uvu_closing s = true → uvu_closing s1 = true) ∧
    (EAsync ∈ es → ec_join s = true → uvu_closing s1 = true ∧ gone Async (ec_loop s1)) ∧
    (due = true → uvu_closing s = true →
      (∀ h, h ∈ active_handles (ec_loop s1) → h ∈ active_handles (ec_loop s)) ∧ gone Listener (ec_loop s1) ∧ gone AcceptTimer (ec_loop s1) ∧
      ∀ c, Exists (λ e, leaves e = Some c) es → Client c ∉ active_handles (ec_loop s1)).
Proof.
  intros [Hm Hcl] Hio. unfold ec_turn. rewrite M_get.
  assert (∃ l1, (if due && bool_decide (AcceptTimer ∈ active_handles (ec_loop s)) then timer_cb else mret tt) s = Some (tt, set_ec_loop l1 s) ∧
    mid (set_ec_loop l1 s) ∧ (∀ h, h ∈ active_handles l1 → h ∈ active_handles (ec_loop s)) ∧
    (∀ c, Client c ∈ active_handles (ec_loop s) → Client c ∈ active_handles l1) ∧ (gone Async (ec_loop s) → gone Async l1) ∧
    (due = true → uvu_closing s = true → gone Listener l1 ∧ gone AcceptTimer l1)) as (l1 & Hr1 & Hm1 & Hsub1 & Hcl1 & Ga1 & Hdue1).
  { destruct due; [destruct (bool_decide _) eqn:Eb|].
    - destruct (timer_ok s Hm) as (l & Hr & Hm' & Hg & Hsub & Hk & Ha). exists l. split_and!; try done.
      intros [Hna Hc]. destruct (mi_async _ Hm') as [(_ & _ & Hx)|[_ ?]]; [|by destruct Hna; apply Hsub|done]. simpl.
      destruct (ec_join s) eqn:Ej; [done|]. destruct (mi_none s Hm Ej) as (_ & ? & _). congruence.
    - exists (ec_loop s). rewrite set_loop_id. split_and!; try done. intros _ Huc. apply bool_decide_eq_false in Eb.
      by destruct (mi_own s Hm) as [[_ ?]|?].
    - exists (ec_loop s). rewrite set_loop_id. by split_and!. }
  bstep Hr1. destruct (ec_polls_ok es (set_ec_loop l1 s) Hm1) as (s2 & Hr2 & Hm2 & Hs2 & Hk2 & Hl2 & G4 & G5 & G6 & C2 & A2). bstep Hr2.
  destruct (mid_closed s2 Hm2) as (l3 & Hr3 & Hm3 & Ecl3 & Ea3 & Hc3). bstep (ec_zoom _ s2 _ _ Hr3).
  assert (∀ h, gone h (ec_loop s2) → gone h l3) as G3 by (intros h [? ?]; split; [by rewrite Ea3|by rewrite Hc3]).
  exists (set_ec_loop l3 s2). split; [simpl; by destruct (uv__loop_alive l3)|]. split; [done|].
  split; [destruct Hs2; by split|]. simpl. rewrite Ea3. split_and!; try (by auto).
  - intros He Hj. destruct (A2 He Hj). auto.
  - intros Hd Hc. destruct (Hdue1 Hd Hc) as [GL GT]. destruct (Hl2 (proj1 GL)) as [Hsub Hgone]. split_and!; auto.
Qed.

(** ** Steps *)

Record ec_ok (s : ctl) : Prop := {
  eo_running : ec_io s = EcRunning → running s;
  eo_closing : ec_io s = EcClosing → turn_ok (ec_loop s) ∧ uv__loop_alive (ec_loop s) = false;
  eo_ptrs : ec_io s = EcRunning ∨ ec_io s = EcClosing → uvu_loop s = CLive ∧ uvu_tcp_server s = CLive ∧ uvu_accept_timer s = CLive;
  eo_priv : ec_io s ≠ EcNone → uvu_thread_priv s = CLive;
  eo_join : ec_join s = true → ec_io s = EcRunning ∨ ec_io s = EcClosing ∨ ec_io s = EcDone;
}.

Lemma ec_start_ok s ip port acquired create :
  ec_ok s → ec_join s = false →
  ∃ r s', uvu_server_start ip port acquired create s = Some (r, s') ∧ ec_ok s' ∧ uvu_closing s' = false ∧
    let s0 := set_ec_closing false s in
    ((s' = s0 ∧ (uvu_thread_priv s ≠ CNull → r = UV_UNKNOWN)) ∨
     uvu_thread_priv s = CNull ∧ (s' = set_ec_priv CLive s0 ∨ s' = set_ec_io EcSetup (set_ec_priv CLive s0))).
Proof.
  intros Hok Hj. unfold uvu_server_start. rewrite M_modify, M_get.
  assert (ec_ok (set_ec_closing false s)) as Hok0.
  { destruct Hok. split; simpl; try done. intros Hio. destruct (eo_running0 Hio) as [Hm Hc]. split; [|done].
    destruct (mi_none s Hm Hj) as (_ & _ & Huc). destruct Hm. split; simpl; try done; try (intros ?; congruence); intros _; [by apply mi_open0|by destruct (mi_none0 Hj) as (? & ? & _)]. }
  change (uvu_thread_priv (set_ec_closing false s)) with (uvu_thread_priv s).
  destruct (uvu_thread_priv s) eqn:Ep; [|eexists _, _; split_and!; [reflexivity|done|done|by left]..].
  assert (ec_io s = EcNone) as Hio.
  { destruct (ec_io s) eqn:E; [done|..]; exfalso; assert (uvu_thread_priv s = CLive) by (apply (eo_priv s Hok); congruence); congruence. }
  assert (∀ b, ec_ok (if b : bool then set_ec_io EcSetup (set_ec_priv CLive (set_ec_closing false s)) else set_ec_priv CLive (set_ec_closing false s))) as Hb.
  { intros b. destruct b; split; simpl; rewrite ?Hio, ?Hj; try done; intros [?|?]; done. }
  destruct acquired; cbn [negb]; [|eexists _, _; split_and!; [reflexivity|done|done|by left]].
  rewrite M_modify. destruct (_ && _); [eexists _, _; split_and!; [reflexivity|apply (Hb false)|done|right; split; [done|by left]]|].
  destruct (create =? 0); cbn [negb]; [eexists _, _; split_and!; [reflexivity|apply (Hb true)|done|right; split; [done|by right]]|].
  eexists _, _. split_and!; [reflexivity|apply (Hb false)|done|right; split; [done|by left]].
Qed.

Definition asked (s : ctl) : ctl :=
  set_ec_join true (set_ec_pending true (set_ec_loop (uv__handle_start Async (uv__handle_init Async (ec_loop s))) s)).

Lemma ec_stop_ok s :
  sizeof_uv_async_t ≤ async_block → ec_ok s → ec_join s = false → ec_io s = EcRunning →
  uvu_server_stop_begin true s = Some (None, asked s) ∧ ec_ok (asked s).
Proof.
  intros Hsz Hok Hj Hio. destruct (eo_running s Hok Hio) as [Hm Hc]. destruct (mi_none s Hm Hj) as (Hna & Hnc & Huc).
  destruct (eo_ptrs s Hok (or_introl Hio)) as (Hl & Hp1 & Hp2). split.
  { unfold uvu_server_stop_begin. rewrite M_get, Huc, M_assert, (proj2 (Z.leb_le _ _) Hsz), M_assert, Hl, M_assert. reflexivity. }
  assert (active_handles (ec_loop (asked s)) = active_handles (ec_loop s) ++ [Async]) as Ea by (simpl; by rewrite decide_False).
  apply is_closing_false in Hnc as [Hn1 Hn2].
  assert (∀ h, h ≠ Async → h ∈ active_handles (ec_loop (asked s)) ↔ h ∈ active_handles (ec_loop s)) as Hact.
  { intros h Hh. rewrite Ea, elem_of_app, list_elem_of_singleton. tauto. }
  split; try done; [|simpl; congruence|by apply (eo_priv s Hok)|by left]. intros _. split; [|done]. destruct Hm as [[[Ha Hcg Hq] Hcov Hr] Hown Hop _ _ Hk].
  split.
  - split; [split|..].
    + intros h. rewrite Ea, elem_of_app, list_elem_of_singleton. intros [Hh| ->]; [destruct (Ha h Hh); split; [simpl; rewrite elem_of_app; by left|done]|].
      split; [simpl; rewrite elem_of_app; right; by left|by apply is_closing_false].
    + intros h Hh. destruct (Hcg h Hh). split; [simpl; rewrite elem_of_app; by left|done].
    + intros h. simpl. rewrite elem_of_app, list_elem_of_singleton. intros [Hh| ->]; [by apply Hq|done].
    + intros h Hh. simpl in Hh. rewrite elem_of_app, list_elem_of_singleton in Hh. destruct Hh as [Hh| ->].
      * destruct (Hcov h Hh); [left; rewrite Ea, elem_of_app; by left|by right].
      * left. rewrite Ea, elem_of_app. right. by left.
    + intros c Hc'. simpl. rewrite elem_of_app. left. by apply Hr.
  - unfold gone. rewrite !Hact by done. exact Hown.
  - rewrite Hact by done. exact Hop.
  - done.
  - intros _. left. split; [done|]. split; [done|]. rewrite Ea, elem_of_app. right. by left.
  - intros h Hh. rewrite Ea, elem_of_app, list_elem_of_singleton in Hh. destruct Hh as [Hh| ->]; [by apply Hk|tauto].
Qed.

Lemma run_exit_ok s lost :
  uvu_accept_timer s ≠ CFreed → uvu_tcp_server s ≠ CFreed → uvu_loop s ≠ CFreed → uvu_thread_priv s = CLive →
  ∃ s', run_exit lost s = Some (tt, s') ∧ ec_ok s' ∧ ec_io s' = EcDone ∧ ec_join s' = ec_join s ∧ uvu_closing s' = uvu_closing s ∧
    ec_lost s' = (if lost then S (ec_lost s) else ec_lost s) ∧ (uvu_loop s = CLive → uvu_loop s' = CFreed) ∧ uvu_thread_priv s' = CLive.
Proof.
  intros H1 H2 H3 Hp. unfold run_exit, uvu_server_run_cleanup, release_global. rewrite M_modify, M_assoc, M_assoc, M_get.
  destruct s as [uc up ul ut ua lo pe io jo lt]; simpl in *. subst up.
  destruct ua, ut, ul; try done; (eexists; split; [reflexivity|]); (split; [split; simpl; try done; [by intros [?|?]|by right; right]|by split_and!]).
Qed.

Definition served (s : ctl) : ctl :=
  {| uvu_closing := uvu_closing s; uvu_thread_priv := uvu_thread_priv s; uvu_loop := CLive; uvu_tcp_server := CLive; uvu_accept_timer := CLive;
     ec_loop := {| handle_queue := [AcceptTimer; Listener]; active_handles := [AcceptTimer; Listener]; closing_handles := []; closed_handles := []; active_reqs := [] |};
     ec_pending := ec_pending s; ec_io := EcRunning; ec_join := ec_join s; ec_lost := ec_lost s |}.

Lemma guards_step answer init c cs s s1 :
  answer c =? 0 = true → run_effect c s = Some (tt, s1) →
  run_guards answer init (c :: cs) s = run_guards answer (match c with LoopInit => true | _ => init end) cs s1.
Proof. intros Ha Hr. cbn [run_guards]. rewrite Ha. by rewrite (bind_Some _ _ _ _ _ Hr). Qed.
Lemma guards_fail answer init c cs s : answer c =? 0 = false → run_guards answer init (c :: cs) s = run_exit init s.
Proof. intros Ha. cbn [run_guards]. by rewrite Ha. Qed.

(** The set-up of the thread: it serves when every call succeeds, and ends otherwise. *)
Lemma ec_run_ok s answer :
  sizeof_uv_tcp_t ≤ tcp_block → uvu_thread_priv s = CLive →
  ∃ s', uvu_server_run answer s = Some (tt, s') ∧
    if forallb (λ c, answer c =? 0) run_calls then s' = served s else ec_ok s' ∧ ec_io s' = EcDone ∧ ec_join s' = ec_join s.
Proof.
  intros Hsz Hp. unfold uvu_server_run, run_calls. rewrite !M_modify.
  assert (∀ s1 lost, uvu_accept_timer s1 ≠ CFreed → uvu_tcp_server s1 ≠ CFreed → uvu_loop s1 ≠ CFreed → uvu_thread_priv s1 = CLive →
    ec_join s1 = ec_join s → ∃ s', run_exit lost s1 = Some (tt, s') ∧ ec_ok s' ∧ ec_io s' = EcDone ∧ ec_join s' = ec_join s) as Hexit.
  { intros s1 lost H1 H2 H3 H4 H5. destruct (run_exit_ok s1 lost H1 H2 H3 H4) as (s' & Hr & Hok & Hd & Hj & _). exists s'. split_and!; try done. congruence. }
  cbn [forallb].
  repeat match goal with
    | |- context [run_guards answer ?i (?c :: ?cs) ?s0] =>
        destruct (answer c =? 0) eqn:?; cbn [andb];
        [erewrite (guards_step answer i c cs s0) by (done || (cbn [run_effect]; rewrite ?(proj2 (Z.leb_le _ _) Hsz), ?M_assert; reflexivity))
        |rewrite (guards_fail answer i c cs s0) by done; by apply Hexit]
    end.
  eexists. split; [reflexivity|]. unfold served. destruct s; reflexivity.
Qed.

Lemma served_ok s : uvu_thread_priv s = CLive → ec_join s = false → uvu_closing s = false → ec_ok (served s).
Proof.
  intros Hp Hj Hc. split; simpl; try done; [|congruence]. intros _. split; [|done]. split; simpl; try done.
  - split; [split|..]; simpl.
    + intros h Hh. split; [done|]. by apply is_closing_false; split; apply not_elem_of_nil.
    + by intros h Hh%elem_of_nil.
    + intros h _. apply not_elem_of_nil.
    + intros h Hh. by left.
    + by intros c Hx%elem_of_nil.
  - left. rewrite !elem_of_cons. tauto.
  - intros _. by left.
  - intros _. split; [|done]. rewrite !not_elem_of_cons. split_and!; try done. apply not_elem_of_nil.
  - congruence.
  - intros h. rewrite !elem_of_cons, elem_of_nil. tauto.
Qed.

Context (Htcp : sizeof_uv_tcp_t ≤ tcp_block) (Hasync : sizeof_uv_async_t ≤ async_block).

(** [uvu_closing] is clear until a stop is noticed. *)
Record ec_inv (s : ctl) : Prop := {
  ei_ok : ec_ok s;
  ei_setup : ec_io s = EcSetup → uvu_closing s = false ∧ ec_join s = false;
  ei_first : ec_io s = EcNone → uvu_thread_priv s ≠ CFreed → uvu_closing s = false ∧ ec_join s = false;
  ei_freed : uvu_thread_priv s = CFreed → uvu_loop s = CFreed ∧ ec_join s = false;
  ei_done : ec_io s = EcDone → ec_join s = true → uvu_loop s = CFreed;
}.

Lemma ec_step s x :
  ec_inv s → ec_enabled s x → ec_safe s x → ∃ s', exec_ec x s = Some (tt, s') ∧ ec_inv s'.
Proof.
  intros [Hok Hsetup Hfirst Hfreed Hdone] Hen Hsafe. destruct x as [ip port acquired create|acquired| |answer|due es|]; simpl in Hen, Hsafe; cbn [exec_ec].
  - destruct (ec_start_ok s ip port acquired create Hok Hen) as (r & s' & Hr & Hok' & Hc' & Hcase). bstep Hr. exists s'. split; [done|].
    destruct Hcase as [[-> _]|[Hp [-> | ->]]]; split; simpl in *; try done; try congruence.
  - destruct Hsafe as [-> Hio]. destruct (ec_stop_ok s Hasync Hok Hen Hio) as [Hr Hok']. bstep Hr. eexists. split; [reflexivity|].
    assert (uvu_thread_priv s = CLive) as Hp by (apply (eo_priv s Hok); congruence). split; simpl; try done; congruence.
  - destruct Hen as [Hj Hio]. assert (uvu_thread_priv s = CLive) as Hp by (apply (eo_priv s Hok); congruence).
    unfold uvu_server_stop_end, release_global. rewrite M_assoc, M_modify, M_assoc, M_modify, M_assoc, M_assoc, M_get. simpl. rewrite Hp.
    eexists. split; [reflexivity|]. split; simpl; try done; [|by intros _; split; [apply Hdone|]]. split; simpl; try done; by intros [?|?].
  - destruct (Hsetup Hen) as [Hc Hj]. assert (uvu_thread_priv s = CLive) as Hp by (apply (eo_priv s Hok); congruence).
    destruct (ec_run_ok s answer Htcp Hp) as (s' & Hr & Hs'). exists s'. split; [done|]. destruct (forallb _ _).
    + subst s'. split; simpl; try done; [by apply served_ok|congruence].
    + destruct Hs' as (Hok' & Hd & Hj'). assert (uvu_thread_priv s' = CLive) as Hp' by (apply (eo_priv s' Hok'); congruence).
      split; try done; congruence.
  - destruct (ec_turn_ok due es s (eo_running s Hok Hen) Hen) as (s1 & Hr & Hrun & [] & _). eexists. split; [exact Hr|].
    assert (uvu_thread_priv s = CLive) as Hp by (apply (eo_priv s Hok); congruence). destruct (eo_ptrs s Hok (or_introl Hen)) as (? & ? & ?).
    destruct (uv__loop_alive (ec_loop s1)) eqn:Ea; split; simpl; try congruence; split; simpl; try congruence; try (split_and!; congruence).
    + intros _. split_and!; congruence.
    + intros _. left. congruence.
    + intros _. split; [apply Hrun|done].
    + intros _. split_and!; congruence.
    + intros _. right. by left.
  - destruct (eo_closing s Hok Hen) as [Hto Hdead]. unfold ec_close. rewrite M_get, (loop_close_dead _ Hto Hdead). change (0 =? 0) with true. cbv iota.
    assert (uvu_thread_priv s = CLive) as Hp by (apply (eo_priv s Hok); congruence). destruct (eo_ptrs s Hok (or_intror Hen)) as (P1 & P2 & P3).
    destruct (run_exit_ok s false) as (s' & Hr & Hok' & Hd & Hj & _ & _ & Hl & Hp'); [congruence..|]. exists s'. split; [done|]. split; try done; try congruence. by intros _ _; apply Hl.
Qed.

Definition new_ctl : ctl :=
  {| uvu_closing := false; uvu_thread_priv := CNull; uvu_loop := CNull; uvu_tcp_server := CNull; uvu_accept_timer := CNull;
     ec_loop := empty_loop; ec_pending := false; ec_io := EcNone; ec_join := false; ec_lost := 0 |}.

Lemma new_ctl_inv : ec_inv new_ctl.
Proof. split; try done. split; try done. by intros [?|?]. Qed.

Lemma ec_runs_inv s xs s' : ec_runs s xs s' → ec_inv s → ec_inv s'.
Proof.
  intros Hr. induction Hr as [|s x s1 xs s2 Hen Hsafe Hx Hr IH]; [done|]. intros Hi. apply IH.
  destruct (ec_step s x Hi Hen Hsafe) as (s' & Hs & Hi'). by simplify_eq.
Qed.

(** The loop ends when everything in it is gone. *)
Lemma ec_dead l : turn_ok l → closing_handles l = [] → active_handles l = [] → uv__loop_alive l = false.
Proof.
  intros Hok Hc Ha. apply loop_dead. split_and!; try done. destruct (active_reqs l) as [|c cs] eqn:E; [done|]. exfalso.
  assert (c ∈ active_reqs l) as Hx by (rewrite E; by left). apply (to_reqs _ Hok) in Hx.
  destruct (to_cover _ Hok _ Hx) as [H|H]; [rewrite Ha in H|rewrite Hc in H]; by apply elem_of_nil in H.
Qed.

Lemma last_turn s es :
  running s → ec_io s = EcRunning → ec_join s = true → uvu_closing s = true →
  (∀ c, Client c ∈ active_handles (ec_loop s) → Exists (λ e, leaves e = Some c) es) →
  ∃ s1, ec_turn true es s = Some (tt, set_ec_io EcClosing s1) ∧ running s1 ∧ same_ctl s s1 ∧ uv__loop_alive (ec_loop s1) = false.
Proof.
  intros Hrun Hio Hj Hc Hall. destruct (ec_turn_ok true es s Hrun Hio) as (s1 & Hr & Hrun1 & Hs1 & _ & GA & _ & _ & Hdue).
  destruct (Hdue eq_refl Hc) as (Hsub & GL & GT & Hgone). exists s1.
  assert (gone Async (ec_loop s1)) as GA1.
  { apply GA. destruct (mi_async s (proj1 Hrun) Hj) as [[? _]|[_ ?]]; [congruence|done]. }
  assert (active_handles (ec_loop s1) = []) as Hact.
  { destruct (active_handles (ec_loop s1)) as [|h hs] eqn:E; [done|]. exfalso. assert (h ∈ active_handles (ec_loop s1)) as Hh by (rewrite E; by left).
    rewrite <- E in Hsub, Hgone. clear E. destruct (mi_kinds s (proj1 Hrun) h (Hsub h Hh)) as [->|[->|[->|[c ->]]]]; [by apply GL|by apply GT|by apply GA1|].
    by apply (Hgone c); [apply Hall, Hsub|]. }
  assert (uv__loop_alive (ec_loop s1) = false) as Hd by (apply ec_dead; [apply Hrun1|apply Hrun1|done]).
  split_and!; try done. by rewrite Hr, Hd.
Qed.

(** While a client is connected the loop goes on. *)
Lemma client_stays s xs s' c :
  ec_inv s → ec_io s = EcRunning → Client c ∈ active_handles (ec_loop s) →
  Forall (λ x, match x with CTurn _ es => Forall (λ e, leaves e ≠ Some c) es | _ => True end) xs → ec_runs s xs s' →
  ec_io s' = EcRunning ∧ (ec_join s = true → ec_join s' = true).
Proof.
  intros Hi Hio Hc Hall Hr. induction Hr as [|s x s1 xs s2 Hen Hsafe Hx Hr IH]; [done|]. inversion Hall as [|? ? Hx' Hrest]; subst.
  destruct (ec_step s x Hi Hen Hsafe) as (s' & Hs & Hi'). simplify_eq. destruct Hi as [Hok _ _ _ _].
  assert (ec_io s1 = EcRunning ∧ Client c ∈ active_handles (ec_loop s1) ∧ (ec_join s = true → ec_join s1 = true)) as (H1 & H2 & H3).
  { destruct x as [ip port acquired create|acquired| |answer|due es|]; simpl in Hen, Hsafe; cbn [exec_ec] in Hx; try congruence.
    - destruct (ec_start_ok s ip port acquired create Hok Hen) as (r & s' & Hr1 & _ & _ & Hcase). rewrite (bind_Some _ _ _ _ _ Hr1) in Hx.
      assert (uvu_thread_priv s = CLive) as Hp by (apply (eo_priv s Hok); congruence). destruct Hcase as [[-> _]|[? _]]; [|congruence].
      injection Hx as <-. done.
    - destruct Hsafe as [-> _]. destruct (ec_stop_ok s Hasync Hok Hen Hio) as [Hr1 _]. rewrite (bind_Some _ _ _ _ _ Hr1) in Hx. injection Hx as <-.
      split_and!; try done. simpl. destruct (decide _); [done|]. rewrite elem_of_app. by left.
    - destruct Hen. congruence.
    - destruct (ec_turn_ok due es s (eo_running s Hok Hio) Hio) as (s1' & Hr1 & Hrun & [] & Hk & _). rewrite Hr1 in Hx.
      assert (Client c ∈ active_handles (ec_loop s1')) as Hc' by (by apply Hk).
      assert (uv__loop_alive (ec_loop s1') = true) as Ha.
      { destruct (uv__loop_alive (ec_loop s1')) eqn:E; [done|]. apply loop_dead in E as [E _]. rewrite E in Hc'. by apply elem_of_nil in Hc'. }
      rewrite Ha in Hx. injection Hx as <-. split_and!; congruence. }
  destruct (IH Hi' H1 H2 Hrest). split; [done|]. auto.
Qed.
End Control.

(** ** Theorems *)

(** With blocks as large as the handles, a start, any turns and a stop during the loop are
    defined.  A waiting stop is noticed in the turn that polls its handle; once it is, a turn in
    which the timer is due and the clients leave ends the loop, which closes cleanly, and the
    stop returns.  While a client stays the stop waits. *)
Theorem echo_stop_completes if_nametoindex tcp_block async_block xs s :
  sizeof_uv_tcp_t ≤ tcp_block → sizeof_uv_async_t ≤ async_block →
  ec_runs if_nametoindex tcp_block async_block new_ctl xs s → ec_io s = EcRunning → ec_join s = true →
  (∀ due es, EAsync ∈ es → ∃ s1, ec_turn due es s = Some (tt, s1) ∧ uvu_closing s1 = true) ∧
  (∀ es, uvu_closing s = true → (∀ c, Client c ∈ active_handles (ec_loop s) → Exists (λ e, leaves e = Some c) es) →
   ∃ s', ec_runs if_nametoindex tcp_block async_block s [CTurn true es; CClose; CJoined] s' ∧
     ec_io s' = EcNone ∧ ec_join s' = false ∧ ec_lost s' = ec_lost s) ∧
  ∀ c ys s', Client c ∈ active_handles (ec_loop s) →
    Forall (λ x, match x with CTurn _ es => Forall (λ e, leaves e ≠ Some c) es | _ => True end) ys →
    ec_runs if_nametoindex tcp_block async_block s ys s' → ec_io s' = EcRunning ∧ ec_join s' = true.
Proof.
  intros Ht Ha Hr Hio Hj. pose proof (ec_runs_inv _ _ _ Ht Ha _ _ _ Hr (new_ctl_inv)) as Hi. pose proof (eo_running s (ei_ok s Hi) Hio) as Hrun.
  split; [|split].
  - intros due es He. destruct (ec_turn_ok due es s Hrun Hio) as (s1 & Hx & _ & _ & _ & _ & _ & Hn & _). destruct (Hn He Hj) as [Hc _].
    eexists. split; [exact Hx|]. by destruct (uv__loop_alive _).
  - intros es Hc Hall. destruct (last_turn s es Hrun Hio Hj Hc Hall) as (s1 & Hx & Hrun1 & Hs1 & Hdead).
    pose proof Hs1 as [E1 E2 E3 E4 E5 E6 E7]. destruct (eo_ptrs s (ei_ok s Hi) (or_introl Hio)) as (P1 & P2 & P3).
    assert (uvu_thread_priv s = CLive) as Hp by (apply (eo_priv s (ei_ok s Hi)); congruence).
    assert (∃ s2, ec_close (set_ec_io EcClosing s1) = Some (tt, s2) ∧ ec_io s2 = EcDone ∧ ec_join s2 = true ∧ ec_lost s2 = ec_lost s ∧ uvu_thread_priv s2 = CLive)
      as (s2 & Hx2 & Hd & Hj2 & Hl2 & Hp2).
    { unfold ec_close. rewrite M_get. change (ec_loop (set_ec_io EcClosing s1)) with (ec_loop s1).
      rewrite (loop_close_dead _ (mi_turn _ (proj1 Hrun1)) Hdead). change (0 =? 0) with true. cbv iota.
      destruct (run_exit_ok (set_ec_io EcClosing s1) false) as (s2 & Hx2 & _ & Hd & Hj2 & _ & Hl2 & _ & Hp2); [simpl; congruence..|].
      exists s2. split_and!; try done; [rewrite Hj2; simpl; congruence|rewrite Hl2; simpl; congruence]. }
    eexists. split.
    + eapply ec_cons; [exact Hio|done|exact Hx|]. eapply ec_cons; [reflexivity|done|exact Hx2|].
      eapply ec_cons; [by split|done| |apply ec_nil]. cbn [exec_ec]. unfold uvu_server_stop_end, release_global.
      rewrite M_assoc, M_modify, M_assoc, M_modify, M_assoc, M_assoc, M_get. simpl. rewrite Hp2. reflexivity.
    + by simpl.
  - intros c ys s' Hc Hall Hr'. destruct (client_stays _ _ _ Ht Ha s ys s' c Hi Hio Hc Hall Hr') as [H1 H2]. by split; [|apply H2].
Qed.

(** A server that was stopped cannot be started again: the pointer to its private block is
    not cleared.  The refused start clears the mark of the stop, so that the next stop uses the
    loop that was released. *)
Theorem echo_restart_refused if_nametoindex tcp_block async_block xs s ip port acquired create :
  sizeof_uv_tcp_t ≤ tcp_block → sizeof_uv_async_t ≤ async_block →
  ec_runs if_nametoindex tcp_block async_block new_ctl xs s → uvu_thread_priv s = CFreed →
  ∃ s1, uvu_server_start if_nametoindex ip port acquired create s = Some (UV_UNKNOWN, s1) ∧
    ∀ answer, uvu_server_stop_begin async_block answer s1 = None.
Proof.
  intros Ht Ha Hr Hp. pose proof (ec_runs_inv _ _ _ Ht Ha _ _ _ Hr (new_ctl_inv)) as Hi. destruct (ei_freed s Hi Hp) as [Hl Hj].
  exists (set_ec_closing false s). split; [unfold uvu_server_start; rewrite M_modify, M_get; simpl; by rewrite Hp|].
  intros answer. unfold uvu_server_stop_begin. rewrite M_get. simpl. rewrite Hl. destruct answer, (_ <=? async_block); reflexivity.
Qed.

(** The blocks the code asks for are too small: the thread fills a TCP handle into a block of
    the size of a UDP handle, and a stop an async handle into one of the size of a pointer. *)
Theorem echo_blocks_overrun answer acquired s :
  ((∀ c, answer c = 0) → uvu_server_run sizeof_uv_udp_t answer s = None) ∧
  (uvu_closing s = false → uvu_server_stop_begin sizeof_pointer acquired s = None).
Proof.
  split.
  - intros Hall. unfold uvu_server_run, run_calls. rewrite !M_modify.
    do 6 (erewrite guards_step by first [apply Z.eqb_eq, Hall|reflexivity]).
    cbn [run_guards]. rewrite Hall. reflexivity.
  - intros Hc. unfold uvu_server_stop_begin. rewrite M_get, Hc. destruct acquired; reflexivity.
Qed.

(** ** An executed run *)

Definition echo_acts : list ec_act :=
  [CStart (str "0.0.0.0"%string) 7777 true 0; CRun (λ _, 0); CTurn true [EPoll (PAccept 7 true)]; CStop true; CTurn true [EEcho 7; EAsync]].

Fixpoint exec_ec_all (xs : list ec_act) : M ctl unit :=
  match xs with [] => mret tt | x :: xs => exec_ec no_interface 248 128 x;; exec_ec_all xs end.

Definition stopping_server : ctl := match exec_ec_all echo_acts new_ctl with Some (_, s) => s | None => new_ctl end.

Lemma stopping_server_runs : ec_runs no_interface 248 128 new_ctl echo_acts stopping_server.
Proof. repeat (eapply ec_cons; [done|done|vm_compute; reflexivity|]). vm_compute. apply ec_nil. Qed.

Lemma stopping_server_facts :
  ec_io stopping_server = EcRunning ∧ ec_join stopping_server = true ∧ uvu_closing stopping_server = true ∧
  active_handles (ec_loop stopping_server) = [AcceptTimer; Listener; Client 7] ∧ ec_lost stopping_server = 0%nat.
Proof. vm_compute. by split_and!. Qed.

Lemma leaving_all c : Client c ∈ [AcceptTimer; Listener; Client 7] → Exists (λ e, leaves e = Some c) [EPoll (PLeave 7)].
Proof. rewrite !elem_of_cons, elem_of_nil. intros [?|[?|[Hc|?]]]; try done. injection Hc as ->. by left. Qed.

Lemma echo_stop_completes_witness :
  ∃ s', ec_runs no_interface 248 128 stopping_server [CTurn true [EPoll (PLeave 7)]; CClose; CJoined] s' ∧ ec_io s' = EcNone ∧ ec_lost s' = 0%nat.
Proof.
  destruct stopping_server_facts as (Hio & Hj & Hc & Ha & Hl).
  destruct (echo_stop_completes no_interface 248 128 echo_acts stopping_server) as (_ & H & _);
    [discriminate|discriminate|exact stopping_server_runs|exact Hio|exact Hj|].
  destruct (H [EPoll (PLeave 7)] Hc) as (s' & Hr & H1 & _ & H2).
  - intros c Hin. apply leaving_all. rewrite <- Ha. exact Hin.
  - exists s'. split; [exact Hr|]. split; [exact H1|]. rewrite H2. exact Hl.
Defined.
