(* ===== verification/LoadGen.v ===== *)
(** The load generator: src/tcplg/tcplg.c.

    One timer drives many client connections through the phases of [on_tick_cb]: connect,
    transmit, disconnect and shut down.  The globals of the program are one record.  The
    connections share the context; each has memory and libuv handles of its own, as no
    block and no handle is shared between connections.  The answers of the clock, of the
    allocator and of libuv are arguments of a tick.  The text written to the terminal is
    left out. *)
From stdpp Require Import base numbers list option gmap.
From Stdlib Require Import ZArith Lia.
From S2P Require Import Prelude ByteBuf Buffer BufferPool Inet Endpoint Channel Time Connection SplitChar CmdArgs.

Local Open Scope Z_scope.
Local Open Scope c_scope.

(** ** Globals *)

Record client := {
  cl_conn : tcp_conn_t;
  cl_mem : mem;
  cl_uv : conn_uv;
}.

Record lg_t := {
  g_appstate : Z;
  start_ticks : Z;
  current_ticks : Z;
  elapsed_ms : Z;
  elapsed_since_io : Z;
  last_recv_msgs : Z;
  g_tcp_conns : list client;
  g_tcp_ctx : tcp_ctx_t;
  tty_closing : bool;
  timer_closing : bool;
}.

(** What is fixed before the timer starts. *)
Record lg_config := {
  lg_host : list Z;
  lg_port : Z;
  lg_message : list Z;
  transmit_ticks : Z;
  transmit_time_ms : Z;
}.

Definition g_max_connections_per_timer : Z := 1000.

Definition set_appstate (x : Z) (g : lg_t) : lg_t :=
  {| g_appstate := x; start_ticks := start_ticks g; current_ticks := current_ticks g; elapsed_ms := elapsed_ms g;
     elapsed_since_io := elapsed_since_io g; last_recv_msgs := last_recv_msgs g; g_tcp_conns := g_tcp_conns g;
     g_tcp_ctx := g_tcp_ctx g; tty_closing := tty_closing g; timer_closing := timer_closing g |}.
Definition set_ticks (start current : Z) (g : lg_t) : lg_t :=
  {| g_appstate := g_appstate g; start_ticks := start; current_ticks := current; elapsed_ms := elapsed_ms g;
     elapsed_since_io := elapsed_since_io g; last_recv_msgs := last_recv_msgs g; g_tcp_conns := g_tcp_conns g;
     g_tcp_ctx := g_tcp_ctx g; tty_closing := tty_closing g; timer_closing := timer_closing g |}.
Definition set_elapsed (ms since_io : Z) (g : lg_t) : lg_t :=
  {| g_appstate := g_appstate g; start_ticks := start_ticks g; current_ticks := current_ticks g; elapsed_ms := ms;
     elapsed_since_io := since_io; last_recv_msgs := last_recv_msgs g; g_tcp_conns := g_tcp_conns g;
     g_tcp_ctx := g_tcp_ctx g; tty_closing := tty_closing g; timer_closing := timer_closing g |}.
Definition set_last_recv (x : Z) (g : lg_t) : lg_t :=
  {| g_appstate := g_appstate g; start_ticks := start_ticks g; current_ticks := current_ticks g; elapsed_ms := elapsed_ms g;
     elapsed_since_io := elapsed_since_io g; last_recv_msgs := x; g_tcp_conns := g_tcp_conns g;
     g_tcp_ctx := g_tcp_ctx g; tty_closing := tty_closing g; timer_closing := timer_closing g |}.
Definition set_conns (cs : list client) (ctx : tcp_ctx_t) (g : lg_t) : lg_t :=
  {| g_appstate := g_appstate g; start_ticks := start_ticks g; current_ticks := current_ticks g; elapsed_ms := elapsed_ms g;
     elapsed_since_io := elapsed_since_io g; last_recv_msgs := last_recv_msgs g; g_tcp_conns := cs;
     g_tcp_ctx := ctx; tty_closing := tty_closing g; timer_closing := timer_closing g |}.
Definition set_closing (tty timer : bool) (g : lg_t) : lg_t :=
  {| g_appstate := g_appstate g; start_ticks := start_ticks g; current_ticks := current_ticks g; elapsed_ms := elapsed_ms g;
     elapsed_since_io := elapsed_since_io g; last_recv_msgs := last_recv_msgs g; g_tcp_conns := g_tcp_conns g;
     g_tcp_ctx := g_tcp_ctx g; tty_closing := tty; timer_closing := timer |}.

(** A call on [g_tcp_conns[i]]. *)
Definition world_of (c : client) (ctx : tcp_ctx_t) : cworld :=
  {| conn := cl_conn c; cxt := ctx; cmem := cl_mem c; cuv := cl_uv c |}.
Definition client_of (w : cworld) : client := {| cl_conn := conn w; cl_mem := cmem w; cl_uv := cuv w |}.

Definition on_conn {A} (i : nat) (f : M cworld A) : M lg_t A := λ g,
  match g_tcp_conns g !! i with
  | None => None
  | Some c =>
      match f (world_of c (g_tcp_ctx g)) with
      | None => None
      | Some (a, w) => Some (a, set_conns (<[i := client_of w]> (g_tcp_conns g)) (cxt w) g)
      end
  end.

Definition get_state (i : nat) : M lg_t Z :=
  g ← get; c ← lift (g_tcp_conns g !! i); mret (cn_state (cl_conn c)).

(** ** The timer callback *)

(** What the system answers during a tick: the clock (twice), and per connection the
    attempt to connect and the attempt to send. *)
Record tick_env := {
  te_first : option (Z * Z);
  te_now : option (Z * Z);
  te_connect : nat → connect_env;
  te_write : nat → write_env;
}.

Section Generator.
Context `{Host} (if_nametoindex : list Z → Z) (cfg : lg_config).

Definition num_conns (g : lg_t) : Z := Z.of_nat (length (g_tcp_conns g)).
Definition conns_max (g : lg_t) : Z :=
  if g_max_connections_per_timer <? num_conns g then g_max_connections_per_timer else num_conns g.

(** Phase 1: the loop from connection [i] on; [conns_made] and [connected] are its locals. *)
Fixpoint connect_loop (env : tick_env) (n i : nat) (max conns_made connected : Z) : M lg_t Z :=
  match n with
  | O => mret connected
  | S n =>
      state ← get_state i;
      if state =? CS_CONNECTING then connect_loop env n (S i) max conns_made connected
      else if state =? CS_CONNECTED then connect_loop env n (S i) max conns_made (connected + 1)
      else if state =? CS_DISCONNECTING then connect_loop env n (S i) max conns_made connected
      else if max <=? conns_made then connect_loop env n (S i) max conns_made connected
      else
        on_conn i (tcp_connect_begin if_nametoindex (te_connect env i) (Some (lg_host cfg)) (lg_port cfg));;
        connect_loop env n (S i) max (conns_made + 1) connected
  end.

Definition phase_connect (env : tick_env) : M lg_t unit :=
  g ← get;
  connected ← connect_loop env (length (g_tcp_conns g)) 0 (conns_max g) 0 0;
  if num_conns g <=? connected then
    modify (λ g, set_elapsed 0 (elapsed_since_io g) g);;
    modify (λ g, set_appstate (g_appstate g + 1) g)
  else mret tt.

(** Phase 2: every connected connection sends, until [done_send].  The reconnect of the
    others is commented out in the source. *)
Fixpoint send_loop (env : tick_env) (n i : nat) (done_send : bool) : M lg_t unit :=
  match n with
  | O => mret tt
  | S n =>
      state ← get_state i;
      let do_send := state =? CS_CONNECTED in
      (if done_send then mret tt
       else if do_send then
         on_conn i (w ← get;
                    tcp_write_begin (te_write env i) (cn_tcp_handle (conn w)) (Some (SrcBytes (lg_message cfg)))
                      (Z.of_nat (length (lg_message cfg))))
       else mret tt);;
      send_loop env n (S i) done_send
  end.

Definition phase_transmit (env : tick_env) : M lg_t unit :=
  g ← get;
  let done_send := transmit_time_ms cfg <? elapsed_ms g in
  send_loop env (length (g_tcp_conns g)) 0 done_send;;
  g ← get;
  let recv_msgs := tr_recv_msgs (cx_traffic (g_tcp_ctx g)) in
  (if negb (last_recv_msgs g =? recv_msgs) then
     modify (λ g, set_last_recv recv_msgs (set_elapsed (elapsed_ms g) 0 g))
   else mret tt);;
  g ← get;
  if done_send && (6000 <? elapsed_since_io g) then
    modify (λ g, set_elapsed 0 (elapsed_since_io g) g);;
    modify (λ g, set_appstate (g_appstate g + 1) g)
  else mret tt.

Fixpoint disconnect_loop (n i : nat) : M lg_t unit :=
  match n with
  | O => mret tt
  | S n => on_conn i tcp_conn_disconnect;; disconnect_loop n (S i)
  end.

(** The totals over the connections, in 64 bits. *)
Definition latency_sum (cs : list client) : Z :=
  fold_left (λ t c, u64 (t + st_latency_total (cn_stats (cl_conn c)))) cs 0.
Definition msgs_sum (cs : list client) : Z :=
  fold_left (λ t c, u64 (t + tr_recv_msgs (st_traffic (cn_stats (cl_conn c))))) cs 0.

Definition latency_worst (cs : list client) : Z :=
  fold_left (λ t c, if t <? st_latency_max (cn_stats (cl_conn c)) then st_latency_max (cn_stats (cl_conn c)) else t) cs 0.

(** Phase 3, with the worst and the average latency it prints; a division by 0 has no
    defined behaviour. *)
Definition phase_disconnect : M lg_t (Z * Z) :=
  g ← get;
  disconnect_loop (length (g_tcp_conns g)) 0;;
  modify (λ g, set_elapsed 0 (elapsed_since_io g) g);;
  modify (λ g, set_appstate (g_appstate g + 1) g);;
  g ← get;
  TN_ASSERT (negb (msgs_sum (g_tcp_conns g) =? 0));;
  mret (latency_worst (g_tcp_conns g), latency_sum (g_tcp_conns g) / msgs_sum (g_tcp_conns g)).

(** [uv_close] of a handle that is not being closed. *)
Definition close_tty : M lg_t unit :=
  g ← get; TN_ASSERT (negb (tty_closing g));; modify (set_closing true (timer_closing g)).
Definition close_timer : M lg_t unit :=
  g ← get; TN_ASSERT (negb (timer_closing g));; modify (set_closing (tty_closing g) true).

(** What a tick does in a phase. *)
Definition on_phase (env : tick_env) (phase : Z) : M lg_t unit :=
  if phase =? 0 then modify (λ g, set_appstate (g_appstate g + 1) g)
  else if phase =? 1 then phase_connect env
  else if phase =? 2 then phase_transmit env
  else if phase =? 3 then phase_disconnect;; mret tt
  else if phase =? 4 then modify (λ g, set_appstate (g_appstate g + 1) g);; close_tty
  else if phase =? 5 then modify (λ g, set_appstate (g_appstate g + 1) g);; close_timer
  else mret tt.

Definition on_tick_cb (env : tick_env) : M lg_t unit :=
  g ← get;
  (if start_ticks g =? 0 then
     t ← lift (tn_tstamp (te_first env)); modify (λ g, set_ticks t (current_ticks g) g)
   else mret tt);;
  now ← lift (tn_tstamp (te_now env));
  modify (λ g, set_ticks (start_ticks g) now g);;
  g ← get;
  let tick_diff := u64 (current_ticks g - start_ticks g) in
  if tick_diff <? transmit_ticks cfg then mret tt
  else
    modify (λ g, set_ticks (current_ticks g) (current_ticks g) g);;
    tick_diff_ms ← lift (tn_tstamp_convert tick_diff TN_TSTAMP_NS TN_TSTAMP_MS);
    modify (λ g, set_elapsed (u64 (elapsed_ms g + tick_diff_ms)) (u64 (elapsed_since_io g + tick_diff_ms)) g);;
    on_phase env (g_appstate g).

(** ** Set-up (main) *)

(** [AWS_TIMESTAMP_NANOS / rate] in [int], stored as 64 bits. *)
Definition ticks_of_rate (rate : Z) : Z :=
  if rate =? 0 then 0 else u64 (Z.quot AWS_TIMESTAMP_NANOS rate).

(** What main derives from the parsed arguments; [lg_message] is the [msglen] bytes that are
    sent. *)
Definition config_of (a : cmdline_args_t) : option lg_config :=
  message ← ca_message a;
  time_ms ← tn_tstamp_convert (u64 (ca_time a)) TN_TSTAMP_S TN_TSTAMP_MS;
  Some {| lg_host := c_string (ca_host a); lg_port := ca_port a; lg_message := take (Z.to_nat (ca_msglen a)) message;
          transmit_ticks := ticks_of_rate (ca_rate a); transmit_time_ms := time_ms |}.

(** The connections, one [tcp_conn_init] after the other on zeroed objects; each [init] is
    the allocator's answers for one connection.  [None]: the loop ended with an error. *)
Fixpoint init_conns (ctx : tcp_ctx_t) (inits : list (option (Z * list Z) * option tn_buffer_t)) :
    option (option (list client)) :=
  match inits with
  | [] => Some (Some [])
  | (area, object) :: inits =>
      r ← tcp_conn_init area object
            {| conn := set_cn_ctx (Some tt) zero_conn; cxt := ctx; cmem := ∅;
               cuv := {| cu_data := ∅; cu_closing := []; cu_connecting := []; cu_writes := [] |} |};
      if negb (r.1 =? 0) then Some None
      else
        rest ← init_conns ctx inits;
        Some (match rest with Some cs => Some (client_of r.2 :: cs) | None => None end)
  end.

Definition lg_start (ctx : tcp_ctx_t) (cs : list client) : lg_t :=
  {| g_appstate := 0; start_ticks := 0; current_ticks := 0; elapsed_ms := 0; elapsed_since_io := 0;
     last_recv_msgs := 0; g_tcp_conns := cs; g_tcp_ctx := ctx; tty_closing := false; timer_closing := false |}.
End Generator.

(** [tcp_get_conns] of src/tcp_connection.c: the codes of [tcp_conn_init] are ignored, a
    context that could not be made is an assertion failure in it. *)
Fixpoint get_conns_loop (ctx : tcp_ctx_t) (inits : list (option (Z * list Z) * option tn_buffer_t)) :
    option (list client) :=
  match inits with
  | [] => Some []
  | (area, object) :: inits =>
      r ← tcp_conn_init area object
            {| conn := set_cn_ctx (Some tt) zero_conn; cxt := ctx; cmem := ∅;
               cuv := {| cu_data := ∅; cu_closing := []; cu_connecting := []; cu_writes := [] |} |};
      rest ← get_conns_loop ctx inits;
      Some ({| cl_conn := set_cn_state CS_DISCONNECTED (set_cn_write_err 2 (set_cn_read_err 1 (conn r.2)));
               cl_mem := cmem r.2; cl_uv := cuv r.2 |} :: rest)
  end.
Definition tcp_get_conns (got_ctx got_config : bool) (inits : list (option (Z * list Z) * option tn_buffer_t)) :
    option (list client) :=
  match (tcp_context_new got_ctx got_config).1, inits with
  | None, [] => Some []
  | None, _ => None
  | Some ctx, _ => get_conns_loop ctx inits
  end.
