(* ===== verification/LoadRun.v ===== *)
(** Runs of the load generator: the timer's ticks and the callbacks of its connections, in
    any order, whatever the system answers. *)
From stdpp Require Import base numbers list option gmap.
From Stdlib Require Import ZArith Lia.
From S2P Require Import Prelude ByteBuf Buffer BufferPool Inet Endpoint Channel Time Connection ConnStream ConnLife SplitChar CmdArgs LoadGen.

Local Open Scope Z_scope.
Local Open Scope c_scope.

(** ** Steps *)

Inductive gact := GTick (env : tick_env) | GCall (i : nat) (x : cact).

Section Run.
Context `{Host} (if_nametoindex : list Z → Z) (cfg : lg_config) (areas : nat → Z).

Definition exec_gact (a : gact) : M lg_t unit :=
  match a with
  | GTick env => on_tick_cb if_nametoindex cfg env
  | GCall i x => on_conn i (exec_cact if_nametoindex x);; mret tt
  end.

(** What the system answers to the calls of a tick is what it may answer to each of them
    (the calls of different connections do not share memory or handles); the clock can be
    read and the timer fires until it is closed.  A callback is one that libuv owes the
    connection. *)
Definition genabled (g : lg_t) (a : gact) : Prop :=
  match a with
  | GTick env =>
      timer_closing g = false ∧ is_Some (te_first env) ∧ is_Some (te_now env) ∧ lg_message cfg ≠ [] ∧
      ∀ i c, g_tcp_conns g !! i = Some c →
        cenabled (areas i) (world_of c (g_tcp_ctx g))
          (CConnect (te_connect env i) (Some (lg_host cfg)) (lg_port cfg)) ∧
        cenabled (areas i) (world_of c (g_tcp_ctx g)) (CWrite (te_write env i) (SrcBytes (lg_message cfg)) (lg_message cfg))
  | GCall i x => is_callback x = true ∧
      ∃ c, g_tcp_conns g !! i = Some c ∧ cenabled (areas i) (world_of c (g_tcp_ctx g)) x
  end.

(** The tick that ends in the division: phase 3 is due and no message was received. *)
Definition divides_by_zero (g : lg_t) (a : gact) : Prop :=
  match a with
  | GTick _ => g_appstate g = 3 ∧ msgs_sum (g_tcp_conns g) = 0
  | GCall _ _ => False
  end.

Inductive gruns : lg_t → list gact → lg_t → Prop :=
  | gruns_nil g : gruns g [] g
  | gruns_cons g a g1 l g2 :
      genabled g a → exec_gact a g = Some (tt, g1) → gruns g1 l g2 → gruns g (a :: l) g2.

(** ** Invariant *)

Definition all_life (g : lg_t) : Prop :=
  ∀ i c, g_tcp_conns g !! i = Some c → life (areas i) (world_of c (g_tcp_ctx g)).

Definition was_connected (s : Z) : Prop := s = CS_CONNECTED ∨ s = CS_DISCONNECTING ∨ s = CS_DISCONNECTED.
Definition is_leaving (s : Z) : Prop := s = CS_DISCONNECTING ∨ s = CS_DISCONNECTED.
Definition all_states (P : Z → Prop) (g : lg_t) : Prop :=
  ∀ i c, g_tcp_conns g !! i = Some c → P (cn_state (cl_conn c)).

Record lg_ok (g : lg_t) : Prop := {
  go_life : all_life g;
  go_phase : 0 ≤ g_appstate g ≤ 6;
  go_connected : 2 ≤ g_appstate g → all_states was_connected g;
  go_leaving : 4 ≤ g_appstate g → all_states is_leaving g;
  go_tty : tty_closing g = bool_decide (5 ≤ g_appstate g);
  go_timer : timer_closing g = bool_decide (6 ≤ g_appstate g);
}.

(** How far a connection is on its way out. *)
Definition later (s s' : Z) : Prop :=
  (was_connected s → was_connected s') ∧ (is_leaving s → is_leaving s').
Definition states_later (cs cs' : list client) : Prop :=
  Forall2 (λ c c', later (cn_state (cl_conn c)) (cn_state (cl_conn c'))) cs cs'.

(** ** Calls on one connection *)

Lemma later_refl s : later s s.
Proof. by split. Qed.

Lemma later_trans s1 s2 s3 : later s1 s2 → later s2 s3 → later s1 s3.
Proof. unfold later. tauto. Qed.

Lemma moves_later s s' : moves s s' → later s s'.
Proof.
  unfold moves, later, was_connected, is_leaving. intros [-> |[[Hs Hs']|[-> ->]]]; [done| |tauto].
  split; [tauto|]. by intros [-> | ->]; destruct Hs.
Qed.

Lemma states_later_refl cs : states_later cs cs.
Proof. unfold states_later. induction cs; constructor; [apply later_refl|done]. Qed.

Lemma states_later_trans cs1 cs2 cs3 : states_later cs1 cs2 → states_later cs2 cs3 → states_later cs1 cs3.
Proof.
  unfold states_later. intros H1 H2. eapply Forall2_trans; [|exact H1|exact H2]. simpl. intros x y z Hx Hy. by apply (later_trans _ _ _ Hx Hy).
Qed.

Lemma states_later_insert cs i c c' :
  cs !! i = Some c → later (cn_state (cl_conn c)) (cn_state (cl_conn c')) → states_later cs (<[i := c']> cs).
Proof.
  intros Hc Hl. rewrite <- (list_insert_id cs i c Hc) at 1. by apply Forall2_insert; [apply states_later_refl|].
Qed.

Lemma later_all (P : Z → Prop) cs cs' i c' :
  (∀ s s', later s s' → P s → P s') → states_later cs cs' →
  (∀ i c, cs !! i = Some c → P (cn_state (cl_conn c))) → cs' !! i = Some c' → P (cn_state (cl_conn c')).
Proof.
  intros HP Hl Hall Hi. destruct (Forall2_lookup_r _ _ _ _ _ Hl Hi) as (c & Hc & Hlt). eapply HP; [exact Hlt|by eapply Hall].
Qed.

(** Only these members count. *)
Lemma lg_ok_same g g' :
  lg_ok g → g_appstate g' = g_appstate g → g_tcp_conns g' = g_tcp_conns g → g_tcp_ctx g' = g_tcp_ctx g →
  tty_closing g' = tty_closing g → timer_closing g' = timer_closing g → lg_ok g'.
Proof.
  intros [] H1 H2 H3 H4 H5. split; unfold all_life, all_states in *; rewrite ?H1, ?H2, ?H3, ?H4, ?H5; done.
Qed.

(** The connections have moved on and keep their invariants. *)
Lemma lg_ok_conns g cs ctx :
  lg_ok g → all_life (set_conns cs ctx g) → states_later (g_tcp_conns g) cs → lg_ok (set_conns cs ctx g).
Proof.
  intros [] Hall Hl. split; simpl; try done.
  - intros H2 i c Hi. eapply (later_all was_connected); [by intros ?? []|exact Hl|by apply go_connected0|exact Hi].
  - intros H4 i c Hi. eapply (later_all is_leaving); [by intros ?? []|exact Hl|by apply go_leaving0|exact Hi].
Qed.

Lemma world_client w ctx : world_of (client_of w) ctx = set_cxt ctx w.
Proof. by destruct w. Qed.

(** The invariant of a connection looks at the context only for its loop. *)
Lemma life_ctx a c ctx ctx' :
  life a (world_of c ctx) → is_Some (tcp_context_get_loop (Some ctx')) → life a (world_of c ctx').
Proof. intros [] Hl. by split. Qed.

Lemma life_loop a w : life a w → is_Some (tcp_context_get_loop (Some (cxt w))).
Proof. by intros []. Qed.

(** A call that keeps the invariant of its connection keeps that of all. *)
Lemma on_conn_run {A} g i c (f : M cworld A) a w :
  all_life g → g_tcp_conns g !! i = Some c → f (world_of c (g_tcp_ctx g)) = Some (a, w) → life (areas i) w →
  let g' := set_conns (<[i := client_of w]> (g_tcp_conns g)) (cxt w) g in
  on_conn i f g = Some (a, g') ∧ all_life g'.
Proof.
  intros Hall Hc Hf Hw g'. unfold on_conn. rewrite Hc, Hf. split; [done|]. intros j c' Hj. simpl in Hj.
  apply lookup_lt_Some in Hc as Hlt. destruct (decide (i = j)) as [<-|Hne].
  - rewrite list_lookup_insert_eq in Hj by done. injection Hj as <-. simpl. rewrite world_client. by destruct w.
  - rewrite list_lookup_insert_ne in Hj by done. simpl. eapply life_ctx; [by apply Hall|by eapply life_loop].
Qed.

(** A callback. *)
Lemma callback_step g i x :
  lg_ok g → genabled g (GCall i x) →
  ∃ g', exec_gact (GCall i x) g = Some (tt, g') ∧ lg_ok g'.
Proof.
  intros Hok [Hcb (c & Hc & Hen)]. pose proof (go_life _ Hok) as Hall.
  destruct (cact_moves if_nametoindex (areas i) _ x (Hall i c Hc) Hen) as (code & w & Hx & Hw & Hmv).
  destruct (on_conn_run g i c _ _ _ Hall Hc Hx Hw) as [Hrun Hall'].
  eexists. simpl. rewrite (bind_Some _ _ _ _ _ Hrun). split; [reflexivity|]. apply lg_ok_conns; [done|done|].
  eapply states_later_insert; [exact Hc|]. apply moves_later. by destruct x.
Qed.

(** ** The loops of a tick *)

Definition from (i : nat) (g : lg_t) (P : nat → client → Prop) : Prop :=
  ∀ j c, (i ≤ j)%nat → g_tcp_conns g !! j = Some c → P j c.

Lemma from_next i g c' ctx P :
  from i g P → from (S i) (set_conns (<[i := c']> (g_tcp_conns g)) ctx g) P.
Proof. intros HP j c Hj Hc. simpl in Hc. rewrite list_lookup_insert_ne in Hc by lia. apply HP; [lia|done]. Qed.

Lemma get_state_run i g c : g_tcp_conns g !! i = Some c → get_state i g = Some (cn_state (cl_conn c), g).
Proof. intros Hc. unfold get_state. rewrite M_get. rewrite Hc, M_lift. done. Qed.

Lemma client_at i n g : (i + S n)%nat = length (g_tcp_conns g) → ∃ c, g_tcp_conns g !! i = Some c.
Proof. intros Hn. apply lookup_lt_is_Some. lia. Qed.

Definition may_connect (env : tick_env) (j : nat) (c : client) : Prop :=
  ∀ ctx, cenabled (areas j) (world_of c ctx) (CConnect (te_connect env j) (Some (lg_host cfg)) (lg_port cfg)).
Definition may_write (env : tick_env) (j : nat) (c : client) : Prop :=
  ∀ ctx, cenabled (areas j) (world_of c ctx) (CWrite (te_write env j) (SrcBytes (lg_message cfg)) (lg_message cfg)).

Lemma write_any_ctx env j c ctx :
  cenabled (areas j) (world_of c ctx) (CWrite (te_write env j) (SrcBytes (lg_message cfg)) (lg_message cfg)) →
  may_write env j c.
Proof.
  intros [Hne [Hb|(p & fill & [] & Hap)]] ctx'; (split; [done|]); [by left|right]. exists p, fill. by split; [split|].
Qed.

(** The count reaches the number of connections only when all are connected, and then
    nothing has been done. *)
Lemma connect_loop_run env max n : ∀ i made connected g,
  (i + n)%nat = length (g_tcp_conns g) → all_life g → from i g (may_connect env) →
  ∃ r cs ctx, connect_loop if_nametoindex cfg env n i max made connected g = Some (r, set_conns cs ctx g) ∧
    all_life (set_conns cs ctx g) ∧ length cs = length (g_tcp_conns g) ∧
    r ≤ connected + Z.of_nat n ∧
    (r = connected + Z.of_nat n → cs = g_tcp_conns g ∧ from i g (λ _ c, cn_state (cl_conn c) = CS_CONNECTED)).
Proof.
  induction n as [|n IH]; intros i made connected g Hn Hall Hen.
  { exists connected, (g_tcp_conns g), (g_tcp_ctx g). split_and!; [by destruct g|done|done|lia|].
    intros _. split; [done|]. intros j c Hj Hc%lookup_lt_Some. lia. }
  destruct (client_at i n g Hn) as [c Hc]. cbn [connect_loop]. rewrite (bind_Some _ _ _ _ _ (get_state_run i g c Hc)).
  assert (from (S i) g (may_connect env)) as Hen' by (intros j c' Hj; apply Hen; lia).
  assert (∀ made connected', connected' ≤ connected + 1 → (connected' = connected + 1 → cn_state (cl_conn c) = CS_CONNECTED) →
    ∃ r cs ctx, connect_loop if_nametoindex cfg env n (S i) max made connected' g = Some (r, set_conns cs ctx g) ∧
      all_life (set_conns cs ctx g) ∧ length cs = length (g_tcp_conns g) ∧
      r ≤ connected + Z.of_nat (S n) ∧ (r = connected + Z.of_nat (S n) → cs = g_tcp_conns g ∧
        from i g (λ _ c, cn_state (cl_conn c) = CS_CONNECTED))) as Hskip.
  { intros made' connected' Hle Hup. destruct (IH (S i) made' connected' g) as (r & cs & ctx & Hrun & Hl & Hlen & Hr & Heq);
      [lia|done|done|]. exists r, cs, ctx. split_and!; [done|done|done|lia|]. intros Hfull. destruct Heq as [-> Hst]; [lia|].
    split; [done|]. intros j c' Hj Hc'. destruct (decide (j = i)) as [->|Hne]; [|apply (Hst j c'); [lia|done]].
    rewrite Hc in Hc'. injection Hc' as <-. apply Hup. lia. }
  destruct (_ =? CS_CONNECTING); [apply Hskip; [lia|intros ?; exfalso; lia]|].
  destruct (Z.eqb_spec (cn_state (cl_conn c)) CS_CONNECTED) as [Hst|_]; [apply Hskip; [lia|intros _; exact Hst]|].
  destruct (_ =? CS_DISCONNECTING); [apply Hskip; [lia|intros ?; exfalso; lia]|]. destruct (max <=? made); [apply Hskip; [lia|intros ?; exfalso; lia]|].
  pose proof (Hen i c ltac:(lia) Hc (g_tcp_ctx g)) as Hci.
  destruct (connect_life if_nametoindex (areas i) _ _ _ _ (Hall i c Hc) Hci) as (code & w & Hx & Hw & _).
  destruct (on_conn_run g i c _ _ _ Hall Hc Hx Hw) as [Hrun Hall']. cbn [exec_cact] in Hrun.
  rewrite (bind_Some _ _ _ _ _ Hrun). set (g1 := set_conns _ _ g) in *.
  destruct (IH (S i) (made + 1) connected g1) as (r & cs & ctx & Hrun' & Hl & Hlen & Hr & _).
  { simpl. rewrite length_insert. lia. }
  { done. }
  { by apply from_next. }
  exists r, cs, ctx. split_and!; [done|done| |lia|lia]. rewrite Hlen. simpl. by rewrite length_insert.
Qed.

(** One message per connected connection. *)
Lemma send_loop_run env d n : ∀ i g,
  (i + n)%nat = length (g_tcp_conns g) → all_life g → from i g (may_write env) →
  ∃ cs ctx, send_loop cfg env n i d g = Some (tt, set_conns cs ctx g) ∧ all_life (set_conns cs ctx g) ∧
    states_later (g_tcp_conns g) cs.
Proof.
  induction n as [|n IH]; intros i g Hn Hall Hen.
  { exists (g_tcp_conns g), (g_tcp_ctx g). split_and!; [by destruct g|done|apply states_later_refl]. }
  destruct (client_at i n g Hn) as [c Hc]. cbn [send_loop]. rewrite (bind_Some _ _ _ _ _ (get_state_run i g c Hc)). cbv zeta.
  assert (∃ cs ctx, send_loop cfg env n (S i) d g = Some (tt, set_conns cs ctx g) ∧ all_life (set_conns cs ctx g) ∧
    states_later (g_tcp_conns g) cs) as Hskip.
  { apply IH; [lia|done|]. intros j c' Hj. apply Hen. lia. }
  destruct d; [exact Hskip|]. destruct (_ =? CS_CONNECTED); [|exact Hskip].
  destruct (write_life if_nametoindex (areas i) (world_of c (g_tcp_ctx g)) (te_write env i) (SrcBytes (lg_message cfg)) (lg_message cfg)
    (Hall i c Hc) (Hen i c ltac:(lia) Hc (g_tcp_ctx g))) as (w & Hx & Hw & Hmv).
  assert ((w0 ← get; tcp_write_begin (te_write env i) (cn_tcp_handle (conn w0)) (Some (SrcBytes (lg_message cfg)))
    (Z.of_nat (length (lg_message cfg)))) (world_of c (g_tcp_ctx g)) = Some (tt, w)) as Hwr.
  { revert Hx. cbn [exec_cact]. rewrite !M_get. unfold mbind, M_bind.
    destruct (tcp_write_begin _ _ _ _ _) as [[[] w']|]; [|done]. by intros [= <-]. }
  destruct (on_conn_run g i c _ _ _ Hall Hc Hwr Hw) as [Hrun Hall'].
  rewrite (bind_Some _ _ _ _ _ Hrun). set (g1 := set_conns _ _ g) in *.
  destruct (IH (S i) g1) as (cs & ctx & Hrun' & Hl & Hst).
  { simpl. rewrite length_insert. lia. }
  { done. }
  { by apply from_next. }
  exists cs, ctx. split_and!; [done|done|]. eapply states_later_trans; [|exact Hst].
  eapply states_later_insert; [exact Hc|by apply moves_later].
Qed.

(** The members of the statistics that the report reads. *)
Definition same_stats (c c' : client) : Prop := cn_stats (cl_conn c') = cn_stats (cl_conn c).

Lemma disconnect_stats w w' : tcp_conn_disconnect w = Some (tt, w') → cn_stats (conn w') = cn_stats (conn w).
Proof.
  unfold tcp_conn_disconnect. rewrite M_get. cbv zeta. destruct (_ || _); [by intros [= <-]|].
  destruct (cn_tcp_handle (conn w)) as [h|]; [|by intros [= <-]].
  destruct (cu_data (cuv w) !! h) as [b|]; [rewrite M_lift|done]. destruct (negb _); [|by intros [= <-]].
  by intros [= <-].
Qed.

Lemma disconnect_loop_run n : ∀ i g,
  (i + n)%nat = length (g_tcp_conns g) → all_life g →
  ∃ cs ctx, disconnect_loop n i g = Some (tt, set_conns cs ctx g) ∧ all_life (set_conns cs ctx g) ∧
    states_later (g_tcp_conns g) cs ∧ Forall2 same_stats (g_tcp_conns g) cs ∧
    (∀ j c, cs !! j = Some c → (i ≤ j)%nat → cn_state (cl_conn c) ≠ CS_CONNECTING ∧ cn_state (cl_conn c) ≠ CS_CONNECTED) ∧
    (∀ j, (j < i)%nat → cs !! j = g_tcp_conns g !! j).
Proof.
  induction n as [|n IH]; intros i g Hn Hall.
  { exists (g_tcp_conns g), (g_tcp_ctx g). split_and!; [by destruct g|done|apply states_later_refl|by apply Forall_Forall2_diag, Forall_true| |done].
    intros j c Hc%lookup_lt_Some Hj. lia. }
  destruct (client_at i n g Hn) as [c Hc]. cbn [disconnect_loop].
  destruct (disconnect_life (areas i) (world_of c (g_tcp_ctx g)) (Hall i c Hc)) as (w & Hx & Hw & Hst & _).
  destruct (on_conn_run g i c _ _ _ Hall Hc Hx Hw) as [Hrun Hall'].
  rewrite (bind_Some _ _ _ _ _ Hrun). set (g1 := set_conns _ _ g) in *.
  destruct (IH (S i) g1) as (cs & ctx & Hrun' & Hl & Hlt & Hss & Hdown & Hkeep).
  { simpl. rewrite length_insert. lia. }
  { done. }
  apply lookup_lt_Some in Hc as Hi. exists cs, ctx. split_and!; [done|done| | | |].
  - eapply states_later_trans; [|exact Hlt]. eapply states_later_insert; [exact Hc|]. apply moves_later. simpl.
    rewrite Hst. apply disconnect_moves.
  - assert (Forall2 same_stats (g_tcp_conns g) (g_tcp_conns g1)) as H1.
    { rewrite <- (list_insert_id _ _ _ Hc) at 1. apply Forall2_insert; [by apply Forall_Forall2_diag, Forall_true|].
      apply (disconnect_stats _ _ Hx). }
    eapply Forall2_trans; [|exact H1|exact Hss]. intros x y z Hxy Hyz. unfold same_stats in *. by rewrite Hyz.
  - intros j c' Hc' Hj. destruct (decide (j = i)) as [->|Hne]; [|by apply (Hdown j c' Hc'); lia].
    rewrite (Hkeep i) in Hc' by lia. simpl in Hc'. rewrite list_lookup_insert_eq in Hc' by done. injection Hc' as <-. simpl.
    rewrite Hst. case_decide as Hup; [done|]. simpl in *. tauto.
  - intros j Hj. rewrite (Hkeep j) by lia. simpl. by rewrite list_lookup_insert_ne by lia.
Qed.

Lemma same_stats_msgs cs cs' : Forall2 same_stats cs cs' → msgs_sum cs' = msgs_sum cs.
Proof.
  unfold msgs_sum. generalize 0. intros t Hs. revert t. induction Hs as [|c c' cs cs' Hc _ IH]; intros t; [done|].
  simpl. rewrite IH. by rewrite Hc.
Qed.

(** ** Ticks *)

(** A tick stops when it is early, or does what its phase asks for. *)
Lemma tick_run env g first now :
  tn_tstamp (te_first env) = Some first → tn_tstamp (te_now env) = Some now →
  on_tick_cb if_nametoindex cfg env g =
    let start := if start_ticks g =? 0 then first else start_ticks g in
    let ms := u64 (now - start) / 1000000 in
    if u64 (now - start) <? transmit_ticks cfg then Some (tt, set_ticks start now g)
    else on_phase if_nametoindex cfg env (g_appstate g)
      (set_elapsed (u64 (elapsed_ms g + ms)) (u64 (elapsed_since_io g + ms)) (set_ticks now now g)).
Proof.
  intros H1 H2. unfold on_tick_cb. rewrite M_get, H1, H2. cbv zeta.
  set (start := if start_ticks g =? 0 then first else start_ticks g).
  assert ((if start_ticks g =? 0 then t ← lift (Some first); modify (λ g, set_ticks t (current_ticks g) g) else mret tt) g =
    Some (tt, set_ticks start (current_ticks g) g)) as Hs.
  { unfold start. destruct (start_ticks g =? 0); [done|]. by destruct g. }
  rewrite (bind_Some _ _ _ _ _ Hs), M_lift, M_modify, M_get. cbn [current_ticks start_ticks set_ticks g_appstate].
  destruct (_ <? _); [done|]. rewrite M_modify. change (tn_tstamp_convert _ _ _) with (Some (u64 (now - start) / 1000000)).
  by rewrite M_lift, M_modify.
Qed.

Lemma stamp_Some clock : is_Some clock → ∃ t, tn_tstamp clock = Some t.
Proof. intros [[s ns] ->]. by eexists. Qed.

Lemma lg_ok_later g x :
  lg_ok g → x = g_appstate g + 1 → 0 ≤ g_appstate g < 4 →
  (g_appstate g = 1 → all_states was_connected g) → (g_appstate g = 3 → all_states is_leaving g) →
  lg_ok (set_appstate x g).
Proof.
  intros [] -> Hr H1 H3. split; simpl; try done; [lia| | | |].
  - intros H2 i c Hc. destruct (decide (g_appstate g = 1)); [by eapply H1|]. apply (go_connected0 ltac:(lia) i c Hc).
  - intros H4 i c Hc. assert (g_appstate g = 3) as Hp by lia. by eapply (H3 Hp).
  - rewrite go_tty0. by rewrite !bool_decide_eq_false_2 by lia.
  - rewrite go_timer0. by rewrite !bool_decide_eq_false_2 by lia.
Qed.

Lemma phase_connect_ok env g :
  lg_ok g → g_appstate g = 1 → from 0 g (may_connect env) →
  ∃ g', phase_connect if_nametoindex cfg env g = Some (tt, g') ∧ lg_ok g'.
Proof.
  intros Hok Hph Hen. unfold phase_connect. rewrite M_get.
  destruct (connect_loop_run env (conns_max g) (length (g_tcp_conns g)) 0 0 0 g) as (r & cs & ctx & Hrun & Hl & Hlen & Hr & Hfull);
    [done|apply Hok|done|].
  rewrite (bind_Some _ _ _ _ _ Hrun). assert (lg_ok (set_conns cs ctx g)) as Hok1.
  { destruct Hok. split; simpl; try done; intros; lia. }
  unfold num_conns. destruct (Z.leb_spec (Z.of_nat (length (g_tcp_conns g))) r); [|by eexists].
  destruct Hfull as [-> Hup]; [lia|]. rewrite M_modify. eexists. split; [reflexivity|].
  apply lg_ok_later; [by eapply lg_ok_same|done|simpl; lia| |simpl; lia].
  intros _ i c Hc. left. apply (Hup i c); [lia|done].
Qed.

Lemma phase_transmit_ok env g :
  lg_ok g → g_appstate g = 2 → from 0 g (may_write env) →
  ∃ g', phase_transmit cfg env g = Some (tt, g') ∧ lg_ok g'.
Proof.
  intros Hok Hph Hen. unfold phase_transmit. rewrite M_get. cbv zeta.
  destruct (send_loop_run env (transmit_time_ms cfg <? elapsed_ms g) (length (g_tcp_conns g)) 0 g) as (cs & ctx & Hrun & Hl & Hst);
    [done|apply Hok|done|].
  rewrite (bind_Some _ _ _ _ _ Hrun), M_get. pose proof (lg_ok_conns g cs ctx Hok Hl Hst) as Hok1. set (g1 := set_conns cs ctx g) in *.
  assert (∃ g2, (if negb (last_recv_msgs g1 =? tr_recv_msgs (cx_traffic (g_tcp_ctx g1))) then
     modify (λ g, set_last_recv (tr_recv_msgs (cx_traffic (g_tcp_ctx g1))) (set_elapsed (elapsed_ms g) 0 g)) else mret tt) g1 = Some (tt, g2) ∧
    lg_ok g2 ∧ g_appstate g2 = 2) as (g2 & Hmsg & Hok2 & Hph2).
  { destruct (negb _); eexists; (split; [reflexivity|]); split; try done. by eapply lg_ok_same. }
  rewrite (bind_Some _ _ _ _ _ Hmsg), M_get. destruct (_ && _); [|by eexists]. rewrite M_modify. eexists. split; [reflexivity|].
  apply lg_ok_later; [by eapply lg_ok_same|done|simpl; lia|simpl; lia|simpl; lia].
Qed.

(** A connection that has left the program's hands, after phase 3. *)
Lemma left_leaving s : was_connected s → s ≠ CS_CONNECTING ∧ s ≠ CS_CONNECTED → is_leaving s.
Proof. unfold was_connected, is_leaving. tauto. Qed.

Lemma phase_disconnect_ok g :
  lg_ok g → g_appstate g = 3 → msgs_sum (g_tcp_conns g) ≠ 0 →
  ∃ avg g', phase_disconnect g = Some (avg, g') ∧ lg_ok g' ∧ g_appstate g' = 4 ∧
    msgs_sum (g_tcp_conns g') = msgs_sum (g_tcp_conns g) ∧ start_ticks g' = start_ticks g.
Proof.
  intros Hok Hph Hm. unfold phase_disconnect. rewrite M_get.
  destruct (disconnect_loop_run (length (g_tcp_conns g)) 0 g) as (cs & ctx & Hrun & Hl & Hst & Hss & Hdown & _); [done|apply Hok|].
  rewrite (bind_Some _ _ _ _ _ Hrun), M_modify, M_modify, M_get. cbn [g_tcp_conns set_appstate set_elapsed set_conns].
  rewrite (same_stats_msgs _ _ Hss), (proj2 (Z.eqb_neq _ _) Hm). cbn [negb]. rewrite M_assert.
  eexists _, _. split; [reflexivity|]. split; [|split_and!; simpl; [lia|by apply same_stats_msgs|done]].
  pose proof (lg_ok_conns g cs ctx Hok Hl Hst) as Hok1.
  apply lg_ok_later; [by eapply lg_ok_same|done|simpl; lia|simpl; lia|].
  intros _ i c Hc. apply left_leaving; [|apply (Hdown i c Hc); lia].
  apply (go_connected _ Hok1 ltac:(simpl; lia) i c Hc).
Qed.

(** Phases 4 and 5 close a handle each, once. *)
Lemma close_tty_ok g :
  lg_ok g → g_appstate g = 4 →
  ∃ g', (modify (λ g, set_appstate (g_appstate g + 1) g);; close_tty) g = Some (tt, g') ∧ lg_ok g' ∧
    g_appstate g' = 5 ∧ g_tcp_conns g' = g_tcp_conns g ∧ start_ticks g' = start_ticks g.
Proof.
  intros [] Hp. rewrite bool_decide_eq_false_2 in go_tty0 by lia. rewrite bool_decide_eq_false_2 in go_timer0 by lia.
  rewrite M_modify. unfold close_tty. rewrite M_get. cbn [tty_closing set_appstate]. rewrite go_tty0. cbn [negb]. rewrite M_assert.
  eexists. split; [reflexivity|]. split; [|split_and!; simpl; [lia|done..]].
  split; simpl; try done; [lia|intros _; apply go_connected0; lia|intros _; apply go_leaving0; lia|by rewrite Hp|by rewrite Hp, go_timer0].
Qed.

Lemma close_timer_ok g :
  lg_ok g → g_appstate g = 5 →
  ∃ g', (modify (λ g, set_appstate (g_appstate g + 1) g);; close_timer) g = Some (tt, g') ∧ lg_ok g' ∧
    g_appstate g' = 6 ∧ g_tcp_conns g' = g_tcp_conns g.
Proof.
  intros [] Hp. rewrite bool_decide_eq_true_2 in go_tty0 by lia. rewrite bool_decide_eq_false_2 in go_timer0 by lia.
  rewrite M_modify. unfold close_timer. rewrite M_get. cbn [timer_closing set_appstate]. rewrite go_timer0. cbn [negb]. rewrite M_assert.
  eexists. split; [reflexivity|]. split; [|split_and!; simpl; [lia|done]].
  split; simpl; try done; [lia|intros _; apply go_connected0; lia|intros _; apply go_leaving0; lia|by rewrite Hp, go_tty0|by rewrite Hp].
Qed.

Lemma tick_step g env :
  lg_ok g → genabled g (GTick env) → ¬ divides_by_zero g (GTick env) →
  ∃ g', exec_gact (GTick env) g = Some (tt, g') ∧ lg_ok g'.
Proof.
  intros Hok (Htm & (first & Hf)%stamp_Some & (now & Hn)%stamp_Some & Hne & Hen) Hdz. simpl in Hdz.
  cbn [exec_gact]. rewrite (tick_run env g first now Hf Hn). cbv zeta. destruct (_ <? _); [eexists; split; [done|by eapply lg_ok_same]|].
  set (g1 := set_elapsed _ _ _). assert (lg_ok g1) as Hok1 by (by eapply lg_ok_same).
  pose proof (go_phase _ Hok) as Hr. unfold on_phase.
  assert (∀ x, g_appstate g = x → g_appstate g1 = x) as Hg1 by done.
  destruct (Z.eqb_spec (g_appstate g) 0) as [Hp|_].
  { eexists. split; [reflexivity|]. apply lg_ok_later; rewrite ?(Hg1 _ Hp); [done|done|lia..]. }
  destruct (Z.eqb_spec (g_appstate g) 1) as [Hp|_].
  { apply phase_connect_ok; [done|done|]. intros j c _ Hc ctx. apply (Hen j c Hc). }
  destruct (Z.eqb_spec (g_appstate g) 2) as [Hp|_].
  { apply phase_transmit_ok; [done|done|]. intros j c _ Hc. eapply write_any_ctx. apply (Hen j c Hc). }
  destruct (Z.eqb_spec (g_appstate g) 3) as [Hp|_].
  { destruct (phase_disconnect_ok g1 Hok1 Hp) as (avg & g' & Hrun & Hok' & _); [by intros Hm; apply Hdz|].
    exists g'. by rewrite (bind_Some _ _ _ _ _ Hrun). }
  destruct (Z.eqb_spec (g_appstate g) 4) as [Hp|_].
  { destruct (close_tty_ok g1 Hok1 Hp) as (g' & Hrun & ? & _). by exists g'. }
  destruct (Z.eqb_spec (g_appstate g) 5) as [Hp|_]; [|by eexists].
  destruct (close_timer_ok g1 Hok1 Hp) as (g' & Hrun & ? & _). by exists g'.
Qed.

Lemma gact_step g a :
  lg_ok g → genabled g a → ¬ divides_by_zero g a → ∃ g', exec_gact a g = Some (tt, g') ∧ lg_ok g'.
Proof. destruct a as [env|i x]; [apply tick_step|]. intros Hok Hen _. by apply callback_step. Qed.

(** The division ends the program. *)
Lemma tick_divides g env first now :
  lg_ok g → g_appstate g = 3 → msgs_sum (g_tcp_conns g) = 0 →
  tn_tstamp (te_first env) = Some first → tn_tstamp (te_now env) = Some now →
  transmit_ticks cfg ≤ u64 (now - (if start_ticks g =? 0 then first else start_ticks g)) →
  on_tick_cb if_nametoindex cfg env g = None.
Proof.
  intros Hok Hp Hm Hf Hn Hdue. rewrite (tick_run env g first now Hf Hn). cbv zeta.
  rewrite (proj2 (Z.ltb_ge _ _) Hdue). set (g1 := set_elapsed _ _ _). unfold on_phase. rewrite Hp. cbn [Z.eqb Pos.eqb].
  unfold phase_disconnect. rewrite M_assoc, M_get, M_assoc.
  destruct (disconnect_loop_run (length (g_tcp_conns g1)) 0 g1) as (cs & ctx & Hrun & _ & _ & Hss & _); [done|apply Hok|].
  rewrite (bind_Some _ _ _ _ _ Hrun), M_assoc, M_modify, M_assoc, M_modify, M_assoc, M_get.
  cbn [g_tcp_conns set_appstate set_elapsed set_conns]. rewrite (same_stats_msgs _ _ Hss). simpl. by rewrite Hm.
Qed.

Lemma gruns_ok g l g' : lg_ok g → gruns g l g' → lg_ok g'.
Proof.
  intros Hok Hr. induction Hr as [|g a g1 l g2 Hen Hx _ IH]; [done|]. apply IH.
  destruct a as [env|i x].
  - destruct (decide (g_appstate g = 3 ∧ msgs_sum (g_tcp_conns g) = 0)) as [[Hp Hm]|Hdz].
    2:{ destruct (tick_step g env Hok Hen Hdz) as (g' & Hx' & Hok'). rewrite Hx in Hx'. by injection Hx' as <-. }
    destruct Hen as (_ & (first & Hf)%stamp_Some & (now & Hn)%stamp_Some & _).
    destruct (Z.ltb_spec (u64 (now - (if start_ticks g =? 0 then first else start_ticks g))) (transmit_ticks cfg)) as [Hlt|Hge].
    + cbn [exec_gact] in Hx. rewrite (tick_run env g first now Hf Hn) in Hx. cbv zeta in Hx.
      rewrite (proj2 (Z.ltb_lt _ _) Hlt) in Hx. injection Hx as <-. by eapply lg_ok_same.
    + cbn [exec_gact] in Hx. by rewrite (tick_divides g env first now Hok Hp Hm Hf Hn Hge) in Hx.
  - destruct (callback_step g i x Hok Hen) as (g' & Hx' & Hok'). rewrite Hx in Hx'. by injection Hx' as <-.
Qed.

(** ** Set-up *)

Definition init_ok (i : nat) (init : option (Z * list Z) * option tn_buffer_t) : Prop :=
  ∃ fill obj, init = (Some (areas i, fill), Some obj) ∧ Z.of_nat (length fill) = AREA ∧ 0 < areas i ∧ areas i + AREA < W64.

Lemma init_conns_run ctx inits : ∀ k,
  is_Some (tcp_context_get_loop (Some ctx)) →
  (∀ i init, inits !! i = Some init → init_ok (k + i) init) →
  ∃ cs, init_conns ctx inits = Some (Some cs) ∧ length cs = length inits ∧
    ∀ i c, cs !! i = Some c → life (areas (k + i)) (world_of c ctx).
Proof.
  induction inits as [|init inits IH]; intros k Hloop Hin.
  { exists []. by split_and!. }
  destruct (Hin 0%nat init eq_refl) as (fill & obj & -> & Hfl & Ha & Hw). rewrite Nat.add_0_r in *.
  cbn [init_conns]. set (w := {| conn := _; cxt := ctx; cmem := _; cuv := _ |}).
  destruct (conn_init_run (areas k) w fill obj eq_refl Hfl Ha Hw) as (w0 & b & Hrun & Hx & Hc & Hst & Hh & _ & Hu & Hcx).
  rewrite Hrun. cbn [mbind option_bind fst snd]. change (negb (TN_SUCCESS =? 0)) with false. cbv iota.
  destruct (IH (S k) Hloop) as (cs & Hrest & Hlen & Hl).
  { intros i init Hi. rewrite Nat.add_succ_comm. by apply Hin. }
  rewrite Hrest. simpl. eexists. split; [reflexivity|]. split; [simpl; by rewrite Hlen|].
  intros [|i] c Hc'; simpl in Hc'; [injection Hc' as <-|rewrite <- Nat.add_succ_comm; by apply Hl].
  rewrite Nat.add_0_r, world_client. destruct w0 as [cn0 cx0 m0 u0]. simpl in *. subst cx0.
  split; simpl; rewrite ?Hu, ?Hst, ?Hh; simpl; try done; [by eauto|listed|by intros []|by left|by left].
Qed.

Lemma start_ok ctx inits :
  is_Some (tcp_context_get_loop (Some ctx)) → (∀ i init, inits !! i = Some init → init_ok i init) →
  ∃ cs, init_conns ctx inits = Some (Some cs) ∧ length cs = length inits ∧ lg_ok (lg_start ctx cs).
Proof.
  intros Hloop Hin. destruct (init_conns_run ctx inits 0 Hloop Hin) as (cs & Hrun & Hlen & Hl).
  exists cs. split_and!; [done|done|]. split; simpl; try done; lia.
Qed.

(** ** The end of a run *)

(** Nothing is pending on a connection. *)
Definition quiet (c : client) : Prop :=
  cn_state (cl_conn c) = CS_DISCONNECTED ∧ cu_connecting (cl_uv c) = [] ∧ cu_writes (cl_uv c) = [] ∧ cu_closing (cl_uv c) = [].

(** The callbacks of one connection, as a run of the program. *)
Lemma crun_lift i w xs w' : crun if_nametoindex (areas i) w xs w' → ∀ g c,
  forallb is_callback xs = true → g_tcp_conns g !! i = Some c → world_of c (g_tcp_ctx g) = w →
  ∃ cs ctx, gruns g (GCall i <$> xs) (set_conns cs ctx g) ∧ cs !! i = Some (client_of w') ∧
    length cs = length (g_tcp_conns g) ∧ ∀ j, j ≠ i → cs !! j = g_tcp_conns g !! j.
Proof.
  induction 1 as [w|w x code w1 xs w2 Hen Hx _ IH]; intros g c Hcb Hc Hw.
  { exists (g_tcp_conns g), (g_tcp_ctx g). subst w. split_and!; [destruct g; apply gruns_nil|by destruct c|done|done]. }
  simpl in Hcb. apply andb_true_iff in Hcb as [Hcb1 Hcb2]. subst w. apply lookup_lt_Some in Hc as Hlt.
  set (g1 := set_conns (<[i := client_of w1]> (g_tcp_conns g)) (cxt w1) g).
  assert (exec_gact (GCall i x) g = Some (tt, g1)) as Hstep.
  { cbn [exec_gact]. unfold on_conn, mbind, M_bind. by rewrite Hc, Hx. }
  destruct (IH g1 (client_of w1) Hcb2) as (cs & ctx & Hr & Hi & Hlen & Hj).
  { simpl. by rewrite list_lookup_insert_eq. }
  { by destruct w1. }
  exists cs, ctx. split; [eapply gruns_cons; [|exact Hstep|exact Hr]|].
  { split; [done|]. by exists c. }
  split; [done|]. split; [rewrite Hlen; simpl; by rewrite length_insert|].
  intros j Hne. rewrite (Hj j Hne). simpl. by rewrite list_lookup_insert_ne.
Qed.

Lemma gruns_app g1 l1 g2 l2 g3 : gruns g1 l1 g2 → gruns g2 l2 g3 → gruns g1 (l1 ++ l2) g3.
Proof. induction 1; [done|]. intros Hr. simpl. eapply gruns_cons; [done|done|by auto]. Qed.

(** The callbacks that are due, connection after connection. *)
Lemma drain_conns n : ∀ i g,
  lg_ok g → 4 ≤ g_appstate g → (i + n)%nat = length (g_tcp_conns g) →
  (∀ j c, (j < i)%nat → g_tcp_conns g !! j = Some c → quiet c) →
  ∃ l cs ctx, gruns g l (set_conns cs ctx g) ∧ length cs = length (g_tcp_conns g) ∧ Forall quiet cs.
Proof.
  induction n as [|n IH]; intros i g Hok Hph Hn Hq.
  { exists [], (g_tcp_conns g), (g_tcp_ctx g). split_and!; [destruct g; apply gruns_nil|done|].
    apply Forall_lookup. intros j c Hc. apply (Hq j c); [|done]. apply lookup_lt_Some in Hc. lia. }
  destruct (client_at i n g Hn) as [c Hc]. pose proof (go_life _ Hok i c Hc) as Hl.
  destruct (go_leaving _ Hok Hph i c Hc) as [Hst|Hst].
  - destruct (drain if_nametoindex (areas i) _ _ Hl Hst eq_refl) as (xs & w' & Hr & _ & Hst' & _ & Hdue & Hcl & Hcb).
    destruct (crun_lift i _ xs w' Hr g c Hcb Hc eq_refl) as (cs & ctx & Hrun & Hi & Hlen & Hj).
    destruct (IH (S i) (set_conns cs ctx g)) as (l & cs' & ctx' & Hrun' & Hlen' & Hall).
    + by eapply gruns_ok.
    + done.
    + simpl. lia.
    + intros j cj Hji Hcj. simpl in Hcj. destruct (decide (j = i)) as [->|Hne].
      * rewrite Hi in Hcj. injection Hcj as <-. unfold due in Hdue. unfold quiet. simpl.
        destruct (cu_connecting (cuv w')); [|done]. by destruct (cu_writes (cuv w')).
      * rewrite (Hj j Hne) in Hcj. apply (Hq j cj); [lia|done].
    + exists ((GCall i <$> xs) ++ l), cs', ctx'. split_and!; [by eapply gruns_app|simpl in Hlen'; lia|done].
  - apply (IH (S i)); [done|done|lia|]. intros j cj Hji Hcj. destruct (decide (j = i)) as [->|Hne].
    + rewrite Hc in Hcj. injection Hcj as <-. destruct (life_down _ _ Hl (or_intror Hst)) as (? & ? & ?). by split_and!.
    + apply (Hq j cj); [lia|done].
Qed.

(** A tick that is due: the clock shows [transmit_ticks] more than at the last one. *)
Definition clock_at (t : Z) : option (Z * Z) := Some (t / 1000000000, t mod 1000000000).
Definition tick_at (t : Z) : tick_env :=
  {| te_first := Some (0, 0); te_now := clock_at t;
     te_connect := λ _, {| ce_handle := None; ce_tcp_init := 0; ce_nodelay := 0; ce_bind := 0; ce_request := false; ce_connect := 0 |};
     te_write := λ _, {| we_ticks := 0; we_block := None; we_req := false; we_write := 0 |} |}.
Definition due_tick (g : lg_t) : tick_env := tick_at (u64 (start_ticks g + transmit_ticks cfg)).

Lemma clock_at_stamp t : 0 ≤ t < W64 → tn_tstamp (clock_at t) = Some t.
Proof.
  intros Ht. unfold clock_at, tn_tstamp, aws_sys_clock_get_ticks, u64. cbn [snd]. f_equal.
  pose proof (Z.div_mod t 1000000000 ltac:(lia)). pose proof (Z.mod_pos_bound t 1000000000 ltac:(lia)).
  pose proof (Z.div_pos t 1000000000 ltac:(lia) ltac:(lia)).
  rewrite (Z.mod_small (t / 1000000000 * 1000000000)) by lia. rewrite Z.mod_small; lia.
Qed.

Lemma due_tick_run g :
  0 ≤ transmit_ticks cfg < W64 →
  ∃ g1, on_tick_cb if_nametoindex cfg (due_tick g) g = on_phase if_nametoindex cfg (due_tick g) (g_appstate g) g1 ∧
    g_appstate g1 = g_appstate g ∧ g_tcp_conns g1 = g_tcp_conns g ∧ g_tcp_ctx g1 = g_tcp_ctx g ∧
    tty_closing g1 = tty_closing g ∧ timer_closing g1 = timer_closing g.
Proof.
  intros Htt. set (now := u64 (start_ticks g + transmit_ticks cfg)).
  assert (0 ≤ now < W64) as Hnow by apply u64_range. eexists.
  rewrite (tick_run (due_tick g) g 0 now eq_refl (clock_at_stamp now Hnow)). cbv zeta.
  assert ((if start_ticks g =? 0 then 0 else start_ticks g) = start_ticks g) as ->.
  { by destruct (Z.eqb_spec (start_ticks g) 0). }
  assert (u64 (now - start_ticks g) = transmit_ticks cfg) as ->.
  { unfold now, u64. rewrite Zminus_mod_idemp_l, Z.add_simpl_l. by apply Z.mod_small. }
  rewrite Z.ltb_irrefl. by split.
Qed.

(** In the phases of the shut-down a due tick is enabled and moves on. *)
Lemma due_tick_moves g :
  lg_ok g → 0 ≤ transmit_ticks cfg < W64 → lg_message cfg ≠ [] → 3 ≤ g_appstate g < 6 →
  (g_appstate g = 3 → msgs_sum (g_tcp_conns g) ≠ 0) →
  ∃ g', gruns g [GTick (due_tick g)] g' ∧ lg_ok g' ∧ g_appstate g' = g_appstate g + 1.
Proof.
  intros Hok Htt Hmsg Hph Hm.
  assert (genabled g (GTick (due_tick g))) as Hen.
  { split_and!; [rewrite (go_timer _ Hok), bool_decide_eq_false_2; [done|lia]|by eexists|by eexists|done|].
    intros i c _. split; [by split|]. split; [done|by left]. }
  destruct (due_tick_run g Htt) as (g1 & Hrun & H1 & H2 & H3 & H4 & H5).
  assert (lg_ok g1) as Hok1 by (by eapply lg_ok_same).
  assert (∃ g', on_phase if_nametoindex cfg (due_tick g) (g_appstate g) g1 = Some (tt, g') ∧ lg_ok g' ∧
    g_appstate g' = g_appstate g + 1) as (g' & Hg' & Hok' & Hp').
  { unfold on_phase. rewrite (proj2 (Z.eqb_neq _ 0)), (proj2 (Z.eqb_neq _ 1)), (proj2 (Z.eqb_neq _ 2)) by lia.
    destruct (Z.eqb_spec (g_appstate g) 3) as [Hp|N3].
    { destruct (phase_disconnect_ok g1 Hok1) as (avg & g' & Hd & ? & ? & _); [lia|rewrite H2; by apply Hm|].
      exists g'. rewrite (bind_Some _ _ _ _ _ Hd). split_and!; [done|done|lia]. }
    destruct (Z.eqb_spec (g_appstate g) 4) as [Hp|N4].
    { destruct (close_tty_ok g1 Hok1) as (g' & Hd & ? & ? & _); [lia|]. exists g'. split_and!; [done|done|lia]. }
    destruct (Z.eqb_spec (g_appstate g) 5) as [Hp|N5]; [|lia].
    destruct (close_timer_ok g1 Hok1) as (g' & Hd & ? & ? & _); [lia|]. exists g'. split_and!; [done|done|lia]. }
  exists g'. split_and!; [|done|done]. eapply gruns_cons; [exact Hen|by rewrite <- Hg', <- Hrun|apply gruns_nil].
Qed.

Lemma due_ticks n : ∀ g, lg_ok g → 0 ≤ transmit_ticks cfg < W64 → lg_message cfg ≠ [] → g_appstate g = 6 - Z.of_nat n →
  3 ≤ g_appstate g → (g_appstate g = 3 → msgs_sum (g_tcp_conns g) ≠ 0) →
  ∃ l g', gruns g l g' ∧ length l = n ∧ lg_ok g' ∧ g_appstate g' = 6.
Proof.
  induction n as [|n IH]; intros g Hok Htt Hmsg Hn Hp Hm.
  { exists [], g. split_and!; [apply gruns_nil|done|done|lia]. }
  destruct (due_tick_moves g Hok Htt Hmsg) as (g1 & Hr & Hok1 & Hp1); [lia|done|].
  destruct (IH g1) as (l & g' & Hr' & Hlen & ?); [done|done|done|lia|lia|lia|].
  exists ([GTick (due_tick g)] ++ l), g'. split_and!; [by eapply gruns_app|simpl; by rewrite Hlen|tauto|tauto].
Qed.
End Run.

(** Arguments that are accepted give a message and a period. *)
Lemma config_ok `{Host} m frame parsed a cfg :
  parse_tcploadgen_args m frame parsed = Some (0, a) → config_of a = Some cfg →
  0 ≤ transmit_ticks cfg < W64 ∧ lg_message cfg ≠ [].
Proof.
  intros Hargs Hcfg. destruct (accepted_range m frame parsed a Hargs) as (_ & _ & _ & Hl & (msg & Hm & Hlen) & _).
  unfold config_of in Hcfg. rewrite Hm in Hcfg. cbn [mbind option_bind] in Hcfg.
  apply option.bind_Some in Hcfg as (ms & _ & [= <-]). simpl. split.
  - unfold ticks_of_rate. destruct (_ =? _); [lia|apply u64_range].
  - intros E. apply (f_equal length) in E. rewrite length_take in E. simpl in E.
    destruct msg; [by rewrite Hlen in Hl|]. simpl in *. lia.
Qed.

(** ** Theorems *)


(** A run in which no message was received ends in a division by zero: whenever phase
    3 is reached and the received messages add up to 0, the tick that is due computes the average
    latency over no messages. *)
Theorem no_messages_divide_by_zero `{Host} if_nametoindex cfg areas g env first now :
  lg_ok areas g → g_appstate g = 3 → msgs_sum (g_tcp_conns g) = 0 →
  tn_tstamp (te_first env) = Some first → tn_tstamp (te_now env) = Some now →
  transmit_ticks cfg ≤ u64 (now - (if start_ticks g =? 0 then first else start_ticks g)) →
  on_tick_cb if_nametoindex cfg env g = None.
Proof. apply tick_divides. Qed.


(** ** Samples *)

Definition sample_cfg : lg_config :=
  {| lg_host := any_address; lg_port := 7777; lg_message := [104; 105]; transmit_ticks := 1000000; transmit_time_ms := 10000 |}.

Definition received (n : Z) : conn_stats :=
  set_st_traffic {| tr_recv_msgs := n; tr_recv_bytes := 0; tr_send_msgs := 0; tr_send_bytes := 0 |} zero_stats.

(** One connection that is being closed, in phase 3, with [n] messages received. *)
Lemma sample_generator n :
  0 ≤ n < W64 → ∃ g, lg_ok (λ _, 16777216) g ∧ g_appstate g = 3 ∧ msgs_sum (g_tcp_conns g) = n ∧ start_ticks g = 0.
Proof.
  intros Hn. destruct leaving_conn as (w & Hl & Hst & _).
  set (w1 := set_conn (set_cn_stats (received n) (conn w)) w).
  assert (life 16777216 w1) as Hl1 by (apply (life_same _ w); try done; apply Hl).
  exists (set_appstate 3 (lg_start (cxt w) [client_of w1])). split_and!; [|done|by simpl; apply Z.mod_small|done].
  assert (∀ P : Z → Prop, P CS_DISCONNECTING → all_states P (set_appstate 3 (lg_start (cxt w) [client_of w1]))) as Hall.
  { intros P HP [|i] c Hc; [|done]. injection Hc as <-. simpl. by rewrite Hst. }
  split; [|done| | |done|done].
  - intros [|i] c Hc; [|done]. injection Hc as <-. exact Hl1.
  - intros _. apply Hall. by right; left.
  - intros _. apply Hall. by left.
Qed.


Lemma no_messages_divide_by_zero_witness :
  ∃ g, g_appstate g = 3 ∧
    @on_tick_cb little_host (λ _, 0) sample_cfg (tick_at 1000000) g = None.
Proof.
  destruct (sample_generator 0 ltac:(lia)) as (g & Hok & Hp & Hm & Hs). exists g. split; [exact Hp|].
  apply (@no_messages_divide_by_zero little_host (λ _, 0) sample_cfg (λ _, 16777216) g (tick_at 1000000) 0 1000000 Hok Hp Hm).
  - reflexivity.
  - reflexivity.
  - rewrite Hs. vm_compute. discriminate.
Defined.

