(* ===== verification/LoadMain.v ===== *)
(** The entry point of the load generator: [main] of src/tcplg/tcplg.c.

    Set-up acquires the loop, the context and the connections, opens the terminal, parses
    the arguments and starts the timer; every failure jumps to the label [cleanup].  Then
    the loop runs (LoadRun) and [main] closes it.  The state is what the program holds: its
    blocks, the handles of its own in the loop, and the globals.  The answers of the
    allocator and of libuv are arguments; a block that is released is held, or the call is
    undefined. *)
From stdpp Require Import base numbers list option gmap.
From Stdlib Require Import ZArith Lia.
From S2P Require Import Prelude ByteBuf Buffer BufferPool Inet Endpoint Channel Time Connection ConnStream ConnLife SplitChar CmdArgs LoadGen LoadRun UvLoop.

Local Open Scope Z_scope.
Local Open Scope c_scope.

(** ** State *)

(** The blocks main holds: its own, and the two that [tcp_conn_init] acquires for
    connection [i]. *)
Inductive main_block := BlkLoop | BlkCtx (b : ctx_block) | BlkConns | BlkArea (i : nat) | BlkObject (i : nat).

#[global] Instance ctx_block_eq_dec : EqDecision ctx_block.
Proof. solve_decision. Defined.
#[global] Instance main_block_eq_dec : EqDecision main_block.
Proof. solve_decision. Defined.

(** [m_loop]: [g_loop] is set; [m_open]: the loop is initialised and not closed; [m_tty],
    [m_timer]: the handle is initialised; [m_setmode]: [tty_setmode_success]; [m_resets]: the
    calls of [uv_tty_reset_mode]; [m_clients]: the connections initialised so far. *)
Record main_t := {
  m_blocks : list main_block;
  m_loop : bool;
  m_open : bool;
  m_ctx : ptr tcp_ctx_t;
  m_conns : bool;
  m_tty : bool;
  m_timer : bool;
  m_setmode : bool;
  m_resets : nat;
  m_clients : list client;
}.

Definition main_zero : main_t :=
  {| m_blocks := []; m_loop := false; m_open := false; m_ctx := NULL; m_conns := false; m_tty := false;
     m_timer := false; m_setmode := false; m_resets := 0; m_clients := [] |}.

Definition set_m_blocks (x : list main_block) (s : main_t) : main_t :=
  {| m_blocks := x; m_loop := m_loop s; m_open := m_open s; m_ctx := m_ctx s; m_conns := m_conns s; m_tty := m_tty s;
     m_timer := m_timer s; m_setmode := m_setmode s; m_resets := m_resets s; m_clients := m_clients s |}.
Definition set_m_loop (loop open : bool) (s : main_t) : main_t :=
  {| m_blocks := m_blocks s; m_loop := loop; m_open := open; m_ctx := m_ctx s; m_conns := m_conns s; m_tty := m_tty s;
     m_timer := m_timer s; m_setmode := m_setmode s; m_resets := m_resets s; m_clients := m_clients s |}.
Definition set_m_ctx (x : ptr tcp_ctx_t) (s : main_t) : main_t :=
  {| m_blocks := m_blocks s; m_loop := m_loop s; m_open := m_open s; m_ctx := x; m_conns := m_conns s; m_tty := m_tty s;
     m_timer := m_timer s; m_setmode := m_setmode s; m_resets := m_resets s; m_clients := m_clients s |}.
Definition set_m_conns (x : bool) (cs : list client) (s : main_t) : main_t :=
  {| m_blocks := m_blocks s; m_loop := m_loop s; m_open := m_open s; m_ctx := m_ctx s; m_conns := x; m_tty := m_tty s;
     m_timer := m_timer s; m_setmode := m_setmode s; m_resets := m_resets s; m_clients := cs |}.
Definition set_m_term (tty timer setmode : bool) (resets : nat) (s : main_t) : main_t :=
  {| m_blocks := m_blocks s; m_loop := m_loop s; m_open := m_open s; m_ctx := m_ctx s; m_conns := m_conns s; m_tty := tty;
     m_timer := timer; m_setmode := setmode; m_resets := resets; m_clients := m_clients s |}.

(** ** Memory *)

Definition main_acquire (b : main_block) (granted : bool) : M main_t bool :=
  if granted then modify (λ s, set_m_blocks (b :: m_blocks s) s);; mret true else mret false.

Fixpoint remove_block (b : main_block) (bs : list main_block) : option (list main_block) :=
  match bs with
  | [] => None
  | b' :: bs => if decide (b = b') then Some bs else cons b' <$> remove_block b bs
  end.

(** Releasing what is not held is undefined. *)
Definition main_release (b : main_block) : M main_t unit :=
  s ← get; bs ← lift (remove_block b (m_blocks s)); modify (set_m_blocks bs).

(** ** Set-up and clean-up *)

Definition init_answer : Type := option (Z * list Z) * option tn_buffer_t.

Record main_env := {
  me_loop : bool;
  me_loop_init : Z;
  me_ctx : bool;
  me_config : bool;
  me_tty_init : Z;
  me_conns : bool;
  me_init : nat → init_answer;
  me_timer_init : Z;
  me_timer_start : Z;
}.

Fixpoint release_all (bs : list ctx_block) : M main_t unit :=
  match bs with [] => mret tt | b :: bs => main_release (BlkCtx b);; release_all bs end.

(** The label [cleanup]; [TN_MEM_RELEASE] of NULL does nothing. *)
Definition main_cleanup : M main_t Z :=
  s ← get;
  (if m_setmode s then modify (set_m_term (m_tty s) (m_timer s) true (S (m_resets s))) else mret tt);;
  (if m_conns s then main_release BlkConns else mret tt);;
  release_all (tcp_context_delete (Some (m_ctx s)));;
  (if m_loop s then main_release BlkLoop else mret tt);;
  mret 0.

(** [tcp_context_new]: two blocks; the first is given back when the second is refused. *)
Definition main_context (got_ctx got_config : bool) : M main_t unit :=
  main_acquire (BlkCtx BlockCtx) got_ctx;;
  (if got_ctx then main_acquire (BlkCtx BlockConfig) got_config else mret false);;
  let r := tcp_context_new got_ctx got_config in
  release_all r.2;;
  modify (set_m_ctx r.1).

(** One [tcp_conn_init] on a zeroed connection. *)
Definition main_conn (i : nat) (init : init_answer) : M main_t Z :=
  s ← get;
  ctx ← lift (m_ctx s);
  r ← lift (tcp_conn_init init.1 init.2
              {| conn := set_cn_ctx (Some tt) zero_conn; cxt := ctx; cmem := ∅;
                 cuv := {| cu_data := ∅; cu_closing := []; cu_connecting := []; cu_writes := [] |} |});
  area ← main_acquire (BlkArea i) (bool_decide (is_Some init.1));
  (if area : bool then main_acquire (BlkObject i) (bool_decide (is_Some init.2)) else mret false);;
  (if r.1 =? 0 then modify (λ s, set_m_conns true (m_clients s ++ [client_of r.2]) s) else mret tt);;
  mret r.1.

Fixpoint main_conns (init : nat → init_answer) (n i : nat) : M main_t bool :=
  match n with
  | O => mret true
  | S n => ret ← main_conn i (init i); if negb (ret =? 0) then mret false else main_conns init n (S i)
  end.

(** [main] up to [uv_run]; the result is whether the loop is run, otherwise the exit code
    was reached. *)
Definition main_begin `{Host} (m : mem) (frame : Z) (parsed : cmdline_args_t) (env : main_env) : M main_t (option lg_config) :=
  got ← main_acquire BlkLoop (me_loop env);
  TN_ASSERT got;;
  modify (set_m_loop true false);;
  if negb (me_loop_init env =? 0) then main_cleanup;; mret None
  else
    modify (set_m_loop true true);;
    main_context (me_ctx env) (me_config env);;
    s ← get;
    match m_ctx s with
    | None => main_cleanup;; mret None
    | Some _ =>
        let r := tcp_context_set_config (m_ctx s) (Some (Some tt)) in
        modify (set_m_ctx r.2);;
        if negb (r.1 =? 0) then main_cleanup;; mret None
        else
          modify (set_m_term (me_tty_init env =? 0) false true 0);;
          a ← lift (parse_tcploadgen_args m frame parsed);
          if a.1 <? 0 then main_cleanup;; mret None
          else
            cfg ← lift (config_of a.2);
            got ← main_acquire BlkConns (me_conns env);
            if negb got then main_cleanup;; mret None
            else
              modify (set_m_conns true []);;
              ok ← main_conns (me_init env) (Z.to_nat (ca_clients a.2)) 0;
              if negb ok then main_cleanup;; mret None
              else if negb (me_timer_init env =? 0) then main_cleanup;; mret None
              else
                s ← get;
                modify (set_m_term (m_tty s) true true 0);;
                if negb (me_timer_start env =? 0) then main_cleanup;; mret None
                else mret (Some cfg)
    end.

(** The globals of the running program. *)
Definition main_globals (s : main_t) : option lg_t :=
  ctx ← m_ctx s; Some (lg_start ctx (m_clients s)).

(** A step of the loop: closing a terminal that was never initialised is undefined. *)
Definition main_turn `{Host} (if_nametoindex : list Z → Z) (cfg : lg_config) (s : main_t) (a : gact) : M lg_t unit :=
  g ← get;
  exec_gact if_nametoindex cfg a;;
  g' ← get;
  TN_ASSERT (m_tty s || eqb (tty_closing g) (tty_closing g')).

Definition shutdown_walk_cb (h : uv_handle) : M loop_t unit :=
  l ← get; if negb (uv_is_closing h l) then uv_close h else mret tt.

(** After [uv_run]: the codes of the two calls of [uv_loop_close]. *)
Definition main_end (closed closed_after_walk : Z) : M main_t Z :=
  (if closed =? 0 then modify (set_m_loop true false)
   else if closed_after_walk =? 0 then modify (set_m_loop true false)
   else mret tt);;
  main_cleanup.

(** ** Lemmas *)

Definition is_conn_block (b : main_block) : bool := match b with BlkArea _ | BlkObject _ => true | _ => false end.
Abbreviation all_conn l := (Forall (λ b, is_conn_block b = true) l).

(** The blocks of the connections [i], ..., [i + n - 1], on top of [bs]. *)
Fixpoint conn_blocks (n i : nat) (bs : list main_block) : list main_block :=
  match n with O => bs | S n => conn_blocks n (S i) (BlkObject i :: BlkArea i :: bs) end.

(** The blocks of main's own that the globals point to. *)
Definition own_blocks (s : main_t) : list main_block :=
  (if m_conns s then [BlkConns] else []) ++ (BlkCtx <$> tcp_context_delete (Some (m_ctx s))) ++ (if m_loop s then [BlkLoop] else []).

Lemma remove_block_app b l r : b ∉ l → remove_block b (l ++ b :: r) = Some (l ++ r).
Proof.
  induction l as [|x l IH]; intros Hn; simpl; [by rewrite decide_True|]. apply not_elem_of_cons in Hn as [Hne Hn].
  rewrite decide_False by done. by rewrite IH.
Qed.

Lemma own_not_conn b l : is_conn_block b = false → all_conn l → b ∉ l.
Proof. intros Hb Hl Hin. pose proof (proj1 (Forall_forall _ _) Hl b Hin) as H. simpl in H. congruence. Qed.

Lemma main_release_run b l r s : is_conn_block b = false → all_conn l → m_blocks s = l ++ b :: r →
  main_release b s = Some (tt, set_m_blocks (l ++ r) s).
Proof. intros Hb Hl Hs. unfold main_release. by rewrite M_get, Hs, remove_block_app, M_lift by (by apply own_not_conn). Qed.

Lemma release_all_run bs : ∀ l r s, all_conn l → m_blocks s = l ++ (BlkCtx <$> bs) ++ r →
  release_all bs s = Some (tt, set_m_blocks (l ++ r) s).
Proof.
  induction bs as [|b bs IH]; intros l r s Hl Hs; cbn [release_all].
  - simpl in Hs. rewrite <- Hs. by destruct s.
  - rewrite (bind_Some _ _ _ _ _ (main_release_run (BlkCtx b) l _ s ltac:(done) Hl Hs)). by rewrite (IH l r) by done.
Qed.

Lemma main_cleanup_run s l : all_conn l → m_blocks s = l ++ own_blocks s →
  ∃ s', main_cleanup s = Some (0, s') ∧ m_blocks s' = l ∧ m_resets s' = (if m_setmode s then S (m_resets s) else m_resets s).
Proof.
  intros Hl Hs. unfold main_cleanup, own_blocks in *. rewrite M_get.
  set (s1 := if m_setmode s then set_m_term (m_tty s) (m_timer s) true (S (m_resets s)) s else s).
  assert (((if m_setmode s then modify (set_m_term (m_tty s) (m_timer s) true (S (m_resets s))) else mret tt) : M main_t unit) s = Some (tt, s1)) as H1
    by (unfold s1; by destruct (m_setmode s)).
  bstep H1. assert (m_blocks s1 = m_blocks s) as Hb1 by (unfold s1; by destruct (m_setmode s)). rewrite <- Hb1 in Hs.
  set (r := (BlkCtx <$> tcp_context_delete (Some (m_ctx s))) ++ (if m_loop s then [BlkLoop] else [])) in *.
  assert (((if m_conns s then main_release BlkConns else mret tt) : M main_t unit) s1 = Some (tt, set_m_blocks (l ++ r) s1)) as H2.
  { destruct (m_conns s); [by apply main_release_run|]. simpl in Hs. rewrite <- Hs. by destruct s1. }
  bstep H2. rewrite (bind_Some _ _ _ _ _ (release_all_run _ l (if m_loop s then [BlkLoop] else []) (set_m_blocks (l ++ r) s1) Hl eq_refl)).
  exists (set_m_blocks l s1). split; [|split; [done|unfold s1; by destruct (m_setmode s)]].
  destruct (m_loop s); [|simpl; by rewrite app_nil_r].
  erewrite bind_Some by (by apply main_release_run). by rewrite app_nil_r.
Qed.

Lemma main_acquire_run b granted s : main_acquire b granted s = Some (granted, if granted then set_m_blocks (b :: m_blocks s) s else s).
Proof. by destruct granted. Qed.

(** The allocator's answers for a connection: a refusal, or blocks as large as asked for. *)
Definition init_fine (areas : nat → Z) (i : nat) (init : init_answer) : Prop := init.1 = None ∨ init.2 = None ∨ init_ok areas i init.

Abbreviation fresh_world ctx :=
  ({| conn := set_cn_ctx (Some tt) zero_conn; cxt := ctx; cmem := ∅; cuv := {| cu_data := ∅; cu_closing := []; cu_connecting := []; cu_writes := [] |} |}).

Lemma conn_answer areas i init ctx : init_fine areas i init →
  ∃ r w, tcp_conn_init init.1 init.2 (fresh_world ctx) = Some (r, w) ∧ (r = 0 → is_Some init.1 ∧ is_Some init.2 ∧ init_ok areas i init).
Proof.
  intros [E|[E|(fill & obj & -> & Hf & Ha & Hw)]].
  - destruct init as [a o]. simpl in E. subst a. by eexists TN_ERROR, _.
  - destruct init as [[[p bs]|] o]; simpl in E; subst o; by eexists TN_ERROR, _.
  - destruct (conn_init_run (areas i) (fresh_world ctx) fill obj eq_refl Hf Ha Hw) as (w0 & b & Hrun & _).
    exists TN_SUCCESS, w0. simpl. split; [done|]. intros _. split_and!; try done. by exists fill, obj.
Qed.

Record main_same (s s' : main_t) : Prop := {
  ms_ctx : m_ctx s' = m_ctx s;
  ms_conns : m_conns s' = m_conns s;
  ms_loop : m_loop s' = m_loop s;
  ms_open : m_open s' = m_open s;
  ms_tty : m_tty s' = m_tty s;
  ms_setmode : m_setmode s' = m_setmode s;
  ms_resets : m_resets s' = m_resets s;
}.

Lemma main_same_trans s1 s2 s3 : main_same s1 s2 → main_same s2 s3 → main_same s1 s3.
Proof. intros [] []. split; congruence. Qed.

Lemma same_own s s' : main_same s s' → own_blocks s' = own_blocks s.
Proof. intros []. unfold own_blocks. by rewrite ms_ctx0, ms_conns0, ms_loop0. Qed.

Lemma main_conn_run areas i init s ctx :
  m_ctx s = Some ctx → m_conns s = true → init_fine areas i init →
  ∃ ret s' l, main_conn i init s = Some (ret, s') ∧ main_same s s' ∧ m_blocks s' = l ++ m_blocks s ∧ all_conn l ∧
    (ret = 0 → l = [BlkObject i; BlkArea i] ∧ init_ok areas i init ∧
       ∃ w, tcp_conn_init init.1 init.2 (fresh_world ctx) = Some (0, w) ∧ m_clients s' = m_clients s ++ [client_of w]).
Proof.
  intros Hctx Hc Hf. destruct (conn_answer areas i init ctx Hf) as (ret & w & Hrun & Hok).
  unfold main_conn. rewrite M_get, Hctx, M_lift, Hrun, M_lift, (bind_Some _ _ _ _ _ (main_acquire_run _ _ _)). cbn [fst snd].
  destruct (bool_decide_reflect (is_Some init.1)) as [H1|H1].
  - rewrite (bind_Some _ _ _ _ _ (main_acquire_run _ _ _)). destruct (bool_decide_reflect (is_Some init.2)) as [H2|H2].
    + destruct (Z.eqb_spec ret 0) as [->|Hr].
      * eexists 0, _, [BlkObject i; BlkArea i]. split; [reflexivity|]. split; [by split|]. split_and!; [done|by repeat constructor|].
        intros _. destruct (Hok eq_refl) as (_ & _ & Hi). split_and!; [done|done|]. by exists w.
      * eexists ret, _, [BlkObject i; BlkArea i]. split; [reflexivity|]. split; [by split|]. split_and!; [done|by repeat constructor|done].
    + destruct (Z.eqb_spec ret 0) as [->|Hr]; [by destruct (Hok eq_refl) as (_ & ? & _)|].
      eexists ret, _, [BlkArea i]. split; [reflexivity|]. split; [by split|]. split_and!; [done|by repeat constructor|done].
  - destruct (Z.eqb_spec ret 0) as [->|Hr]; [by destruct (Hok eq_refl) as (? & _)|].
    eexists ret, s, []. split; [reflexivity|]. split; [by split|]. split_and!; [done|by constructor|done].
Qed.

Lemma main_conns_run areas init ctx n : ∀ i s,
  m_ctx s = Some ctx → m_conns s = true → (∀ j, init_fine areas j (init j)) →
  ∃ ok s' l, main_conns init n i s = Some (ok, s') ∧ main_same s s' ∧ m_blocks s' = l ++ m_blocks s ∧ all_conn l ∧
    (ok = true → conn_blocks n i (m_blocks s) = l ++ m_blocks s ∧ (∀ j, (i ≤ j < i + n)%nat → init_ok areas j (init j)) ∧
       ∃ cs, init_conns ctx (init <$> seq i n) = Some (Some cs) ∧ m_clients s' = m_clients s ++ cs).
Proof.
  induction n as [|n IH]; intros i s Hctx Hc Hf; cbn [main_conns].
  { exists true, s, []. split_and!; [done|by split|done|by constructor|]. intros _. split_and!; [done|intros; lia|]. exists []. by rewrite app_nil_r. }
  destruct (main_conn_run areas i (init i) s ctx Hctx Hc (Hf i)) as (ret & s1 & l1 & Hrun & Hs1 & Hb1 & Hl1 & Hok). bstep Hrun.
  destruct (Z.eqb_spec ret 0) as [->|Hr]; cbn [negb].
  2: { exists false, s1, l1. by split_and!. }
  destruct (Hok eq_refl) as (-> & Hi & w & Hw & Hcl).
  destruct (IH (S i) s1) as (ok & s2 & l2 & Hrun2 & Hs2 & Hb2 & Hl2 & Hok2); [by rewrite (ms_ctx _ _ Hs1)|by rewrite (ms_conns _ _ Hs1)|done|].
  exists ok, s2, (l2 ++ [BlkObject i; BlkArea i]). split_and!; [done|by eapply main_same_trans|by rewrite Hb2, Hb1, <- app_assoc|by apply Forall_app|].
  intros Ho. destruct (Hok2 Ho) as (Hcb & Hj & cs & Hcs & Hcl2). cbn [conn_blocks]. simpl in Hb1. rewrite <- Hb1, Hcb, Hb1, <- app_assoc. split_and!; [done| |].
  - intros j Hij. destruct (decide (j = i)) as [->|]; [done|]. apply Hj. lia.
  - exists (client_of w :: cs). split; [|rewrite Hcl2, Hcl, <- app_assoc; done].
    cbn [seq fmap list_fmap init_conns]. destruct (init i) as [a o]. simpl in Hw. rewrite Hw. simpl. cbn in Hcs. by rewrite Hcs.
Qed.

Lemma context_run got_ctx got_config s :
  m_blocks s = own_blocks s → m_ctx s = NULL → m_conns s = false → m_loop s = true →
  ∃ s', main_context got_ctx got_config s = Some (tt, s') ∧ m_blocks s' = own_blocks s' ∧ m_conns s' = false ∧ m_loop s' = true ∧
    m_setmode s' = m_setmode s ∧ m_open s' = m_open s ∧ m_ctx s' = (tcp_context_new got_ctx got_config).1.
Proof.
  intros Hb Hctx Hc Hl. unfold main_context. assert (m_blocks s = [BlkLoop]) as Hb' by (rewrite Hb; unfold own_blocks; by rewrite Hc, Hctx, Hl).
  rewrite (bind_Some _ _ _ _ _ (main_acquire_run _ _ _)). destruct got_ctx.
  - rewrite (bind_Some _ _ _ _ _ (main_acquire_run _ _ _)). destruct got_config.
    + eexists. split; [reflexivity|]. unfold own_blocks. simpl. by rewrite Hb', Hc, Hl.
    + cbn [tcp_context_new negb fst snd]. erewrite bind_Some by (eapply (release_all_run _ [] (m_blocks s)); [constructor|reflexivity]).
      eexists. split; [reflexivity|]. unfold own_blocks. simpl. by rewrite Hb', Hc, Hl.
  - eexists. split; [reflexivity|]. unfold own_blocks. simpl. by rewrite Hb', Hc, Hl.
Qed.

Lemma conn_blocks_app n : ∀ i bs r, conn_blocks n i (bs ++ r) = conn_blocks n i bs ++ r.
Proof. induction n as [|n IH]; intros i bs r; [done|]. simpl. by rewrite <- IH. Qed.

Lemma parse_code `{Host} m frame parsed r a : parse_tcploadgen_args m frame parsed = Some (r, a) → r = 0 ∨ r = -1.
Proof.
  unfold parse_tcploadgen_args. cbv zeta. destruct (ca_message _); [|intros [= <- _]; by right].
  destruct (_ <=? 0); [intros [= <- _]; by right|]. destruct (ca_server _); [|intros [= <- _]; by right].
  destruct (parse_server _ _ _) as [[[??]|]|]; simpl; [|intros [= <- _]; by right|done].
  destruct (_ && _); intros [= <- _]; auto.
Qed.

Lemma config_defined `{Host} m frame parsed a : parse_tcploadgen_args m frame parsed = Some (0, a) → ∃ cfg, config_of a = Some cfg.
Proof.
  intros Hp. destruct (accepted_range m frame parsed a Hp) as (_ & _ & _ & _ & (msg & Hm & _) & _). unfold config_of. rewrite Hm.
  by eexists.
Qed.

(** What the set-up leaves when the loop is to run. *)
Record main_ready (areas : nat → Z) (n : nat) (s : main_t) (g : lg_t) : Prop := {
  mr_globals : main_globals s = Some g;
  mr_ok : lg_ok areas g;
  mr_conns : length (g_tcp_conns g) = n;
  mr_blocks : m_blocks s = conn_blocks n 0 [] ++ own_blocks s;
  mr_leaked : all_conn (conn_blocks n 0 []);
  mr_loop : m_loop s = true;
  mr_setmode : m_setmode s = true;
  mr_resets : m_resets s = 0%nat;
}.

Lemma cleanup_ends s l : all_conn l → m_blocks s = l ++ own_blocks s → ∀ A (x : A),
  ∃ s', (main_cleanup;; mret x) s = Some (x, s') ∧ m_blocks s' = l.
Proof. intros Hl Hb A x. destruct (main_cleanup_run s l Hl Hb) as (s' & Hr & Hb' & _). exists s'. split; [|done]. by rewrite (bind_Some _ _ _ _ _ Hr). Qed.

(** From the parsed arguments on: the connections and the timer. *)
Lemma setup_conns `{Host} areas env ctx n s (cfg : lg_config) :
  m_ctx s = Some ctx → is_Some (tcp_context_get_loop (Some ctx)) → m_blocks s = own_blocks s → m_conns s = true → m_loop s = true → m_clients s = [] →
  m_setmode s = true → m_resets s = 0%nat → (∀ j, init_fine areas j (me_init env j)) →
  ∃ running s', (ok ← main_conns (me_init env) n 0;
      if negb ok then main_cleanup;; mret None
      else if negb (me_timer_init env =? 0) then main_cleanup;; mret None
      else
        s ← get;
        modify (set_m_term (m_tty s) true true 0);;
        if negb (me_timer_start env =? 0) then main_cleanup;; mret None
        else mret (Some cfg)) s = Some (running, s') ∧
    match running with
    | None => all_conn (m_blocks s')
    | Some cfg' => cfg' = cfg ∧ m_tty s' = m_tty s ∧ ∃ g, main_ready areas n s' g
    end.
Proof.
  intros Hctx Hloop Hb Hc Hlp Hcl Hsm Hrs Hf.
  destruct (main_conns_run areas (me_init env) ctx n 0 s Hctx Hc Hf) as (ok & s1 & l & Hrun & Hs & Hb1 & Hl & Hok). bstep Hrun.
  rewrite Hb, <- (same_own _ _ Hs) in Hb1. assert (∃ s', (main_cleanup;; mret (None : option lg_config)) s1 = Some (None, s') ∧ m_blocks s' = l) as (s0 & Hr0 & Hb0)
    by (by apply cleanup_ends).
  destruct ok; cbn [negb]; [|exists None, s0; by rewrite Hb0].
  destruct (negb (me_timer_init env =? 0)); [exists None, s0; by rewrite Hb0|]. rewrite M_get, M_modify.
  set (s2 := set_m_term _ _ _ _ s1). assert (own_blocks s2 = own_blocks s1) as Ho by done.
  destruct (negb (me_timer_start env =? 0)).
  { destruct (cleanup_ends s2 l Hl Hb1 _ (None : option lg_config)) as (s3 & Hr3 & Hb3). exists None, s3. by rewrite Hb3. }
  exists (Some cfg), s2. split; [done|]. destruct (Hok eq_refl) as (Hcb & Hin & cs & Hcs & Hcls). split; [done|]. split; [exact (ms_tty _ _ Hs)|].
  destruct (start_ok areas ctx (me_init env <$> seq 0 n) Hloop) as (cs' & Hcs' & Hlen & Hlg).
  { intros i init Hi. apply list_lookup_fmap_Some in Hi as (j & -> & Hj). apply lookup_seq in Hj as [-> Hj]. apply Hin. lia. }
  assert (cs' = cs) as -> by congruence. rewrite length_fmap, length_seq in Hlen.
  assert (l = conn_blocks n 0 []) as El.
  { rewrite <- (app_nil_l (m_blocks s)) in Hcb at 1. rewrite conn_blocks_app in Hcb. by apply app_inv_tail in Hcb. }
  exists (lg_start ctx cs). split; try done.
  - unfold main_globals. simpl. rewrite (ms_ctx _ _ Hs), Hctx, Hcls, Hcl. done.
  - by rewrite Ho, <- El.
  - by rewrite <- El.
  - simpl. by rewrite (ms_loop _ _ Hs).
Qed.

Lemma main_end_run areas n s g c1 c2 : main_ready areas n s g →
  ∃ s', main_end c1 c2 s = Some (0, s') ∧ m_blocks s' = conn_blocks n 0 [] ∧ m_resets s' = 1%nat.
Proof.
  intros [Hg _ _ Hb Hl Hlp Hsm Hrs]. unfold main_end. set (s1 := if (c1 =? 0) || (c2 =? 0) then set_m_loop true false s else s).
  assert (((if c1 =? 0 then modify (set_m_loop true false) else if c2 =? 0 then modify (set_m_loop true false) else mret tt) : M main_t unit) s
    = Some (tt, s1)) as Hr by (unfold s1; by destruct (c1 =? 0), (c2 =? 0)).
  bstep Hr. destruct (main_cleanup_run s1 (conn_blocks n 0 [])) as (s' & Hr' & Hb' & Hrs'); [done| |exists s'; split_and!; [done|done|]].
  - unfold s1. destruct (_ || _); [|done]. simpl. rewrite Hb. unfold own_blocks. simpl. by rewrite Hlp.
  - rewrite Hrs'. unfold s1. destruct (_ || _); simpl; by rewrite Hsm, Hrs.
Qed.

(** ** Theorems *)

(** The first part of [main], up to the arguments. *)
Lemma context_loop got_ctx got_config ctx :
  (tcp_context_new got_ctx got_config).1 = Some ctx →
  ∃ ctx', tcp_context_set_config (Some ctx) (Some (Some tt)) = (0, Some ctx') ∧ is_Some (tcp_context_get_loop (Some ctx')) ∧
    tcp_context_delete (Some (Some ctx')) = tcp_context_delete (Some (Some ctx)).
Proof. destruct got_ctx, got_config; simpl; intros [= <-]. eexists. by split_and!. Qed.

Lemma main_begin_run `{Host} m frame parsed r a areas env :
  parse_tcploadgen_args m frame parsed = Some (r, a) → me_loop env = true → (∀ j, init_fine areas j (me_init env j)) →
  ∃ running s, main_begin m frame parsed env main_zero = Some (running, s) ∧
    match running with
    | None => all_conn (m_blocks s)
    | Some cfg => r = 0 ∧ config_of a = Some cfg ∧ m_tty s = (me_tty_init env =? 0) ∧ ∃ g, main_ready areas (Z.to_nat (ca_clients a)) s g
    end.
Proof.
  intros Hp Hl Hf. unfold main_begin. rewrite Hl, (bind_Some _ _ _ _ _ (main_acquire_run _ _ _)), M_assert, M_modify.
  destruct (negb (me_loop_init env =? 0)).
  { edestruct (cleanup_ends (set_m_loop true false (set_m_blocks [BlkLoop] main_zero)) []) as (s' & Hr & Hb); [constructor|done|].
    exists None, s'. split; [exact Hr|]. rewrite Hb. constructor. }
  rewrite M_modify. set (s0 := set_m_loop true true _).
  destruct (context_run (me_ctx env) (me_config env) s0) as (s1 & Hr1 & Hb1 & Hc1 & Hl1 & Hsm1 & _ & Hctx1); [done..|]. bstep Hr1.
  destruct (m_ctx s1) as [ctx|] eqn:Ec.
  2: { destruct (cleanup_ends s1 [] ltac:(constructor) Hb1 _ (None : option lg_config)) as (s' & Hr & Hb). exists None, s'. rewrite Hb. by split. }
  destruct (context_loop _ _ ctx (eq_sym Hctx1)) as (ctx' & Hset & Hloop & Hdel). rewrite Hset. cbn [fst snd]. rewrite M_modify. cbn [negb Z.eqb]. rewrite M_modify, Hp, M_lift.
  cbn [fst snd]. set (s2 := set_m_term _ _ _ _ _). assert (m_blocks s2 = own_blocks s2) as Hb2.
  { unfold own_blocks. change (m_ctx s2) with (Some ctx'). rewrite Hdel. change (m_blocks s2) with (m_blocks s1). rewrite Hb1. unfold own_blocks. by rewrite Ec. }
  destruct (Z.ltb_spec r 0) as [Hneg|Hnn].
  { destruct (cleanup_ends s2 [] ltac:(constructor) Hb2 _ (None : option lg_config)) as (s' & Hr & Hb). exists None, s'. rewrite Hb. by split. }
  destruct (parse_code m frame parsed r a Hp) as [->|]; [|lia]. destruct (config_defined m frame parsed a Hp) as [cfg Hcfg].
  rewrite Hcfg, M_lift, (bind_Some _ _ _ _ _ (main_acquire_run _ _ _)). destruct (me_conns env); cbn [negb].
  2: { destruct (cleanup_ends s2 [] ltac:(constructor) Hb2 _ (None : option lg_config)) as (s' & Hr & Hb). exists None, s'. rewrite Hb. by split. }
  rewrite M_modify. set (s3 := set_m_conns _ _ _).
  destruct (setup_conns areas env ctx' (Z.to_nat (ca_clients a)) s3 cfg) as (running & s' & Hr & Hout); try done.
  { change (m_blocks s3) with (BlkConns :: m_blocks s2). rewrite Hb2. unfold own_blocks. change (m_conns s2) with (m_conns s1). by rewrite Hc1. }
  exists running, s'. split; [exact Hr|]. destruct running as [cfg'|]; [|done]. destruct Hout as (-> & Ht & g & Hg). split_and!; try done. by exists g.
Qed.


(** When the standard output is not a terminal, a pipe or a socket, [uv_tty_init] fails,
    and [main] goes on: in phase 4 the tick that is due closes a handle that was never
    initialised. *)
Lemma main_without_terminal_aborts `{Host} if_nametoindex cfg areas s g env first now :
  m_tty s = false → lg_ok areas g → g_appstate g = 4 →
  tn_tstamp (te_first env) = Some first → tn_tstamp (te_now env) = Some now →
  transmit_ticks cfg ≤ u64 (now - (if start_ticks g =? 0 then first else start_ticks g)) →
  main_turn if_nametoindex cfg s (GTick env) g = None.
Proof.
  intros Ht Hok Hp Hf Hn Hd. unfold main_turn. rewrite M_get. pose proof (go_tty _ _ Hok) as Hc. rewrite Hp in Hc. simpl in Hc.
  set (g1 := set_elapsed (u64 (elapsed_ms g + u64 (now - (if start_ticks g =? 0 then first else start_ticks g)) / 1000000))
      (u64 (elapsed_since_io g + u64 (now - (if start_ticks g =? 0 then first else start_ticks g)) / 1000000)) (set_ticks now now g)).
  destruct (close_tty_ok areas g1) as (g2 & Hr & Hok2 & Hp2 & _); [by eapply lg_ok_same|done|].
  assert (exec_gact if_nametoindex cfg (GTick env) g = Some (tt, g2)) as Hstep.
  { cbn [exec_gact]. rewrite (tick_run if_nametoindex cfg env g first now Hf Hn). cbv zeta. rewrite (proj2 (Z.ltb_ge _ _) Hd), Hp. exact Hr. }
  bstep Hstep. rewrite Ht, Hc, (go_tty _ _ Hok2), Hp2. done.
Qed.

(** Without memory for the loop the first call of libuv is made on NULL. *)
Lemma main_without_memory_undefined `{Host} m frame parsed env : me_loop env = false → main_begin m frame parsed env main_zero = None.
Proof. intros E. unfold main_begin. by rewrite E. Qed.

(** Walking the loop closes its handles, but they stay in the loop until it runs again: when
    the first [uv_loop_close] is refused for a handle, the second one is too. *)
Lemma walk_keeps_queue hs : ∀ l, ∃ l', walk_list shutdown_walk_cb hs l = Some (tt, l') ∧ handle_queue l' = handle_queue l.
Proof.
  induction hs as [|h hs IH]; intros l; cbn [walk_list]; [by exists l|].
  assert (∃ l1, shutdown_walk_cb h l = Some (tt, l1) ∧ handle_queue l1 = handle_queue l) as (l1 & Hr & <-); [|bstep Hr; apply IH].
  unfold shutdown_walk_cb. rewrite M_get. destruct (uv_is_closing h l) eqn:E; cbn [negb]; [by exists l|]. rewrite (uv_close_run h l E). by eexists.
Qed.
Lemma walked_loop_stays_busy l : handle_queue l ≠ [] →
  ∃ l', uv_walk shutdown_walk_cb l = Some (tt, l') ∧ uv_loop_close l' = UV_EBUSY.
Proof.
  intros Hq. unfold uv_walk. rewrite M_get. destruct (walk_keeps_queue (handle_queue l) l) as (l' & Hr & Hl). exists l'. split; [done|].
  unfold uv_loop_close. rewrite Hl, (bool_decide_eq_false_2 (handle_queue l = [])) by done. by destruct (negb _).
Qed.

(** ** Samples *)

Definition sample_main_parsed : cmdline_args_t :=
  {| ca_clients := 1; ca_rate := 10; ca_prefix := 24; ca_time := 1; ca_msglen := 0; ca_message := Some [65; 66];
     ca_server := Some (50, sample_server); ca_host := replicate 255 0; ca_port := 0 |}.
Definition sample_main_env : main_env :=
  {| me_loop := true; me_loop_init := 0; me_ctx := true; me_config := true; me_tty_init := 0; me_conns := true;
     me_init := λ _, (Some (16777216, replicate (Z.to_nat AREA) 0), Some sample_buffer); me_timer_init := 0; me_timer_start := 0 |}.

(** The loop runs, and when the connection is refused its memory it does not. *)
Lemma sample_main_runs :
  match @main_begin little (args_mem sample_server (replicate 32 9)) 200 sample_main_parsed sample_main_env main_zero with
  | Some (Some _, s) => m_blocks s = [BlkObject 0; BlkArea 0; BlkConns; BlkCtx BlockConfig; BlkCtx BlockCtx; BlkLoop]
  | _ => False
  end ∧
  match @main_begin little (args_mem sample_server (replicate 32 9)) 200 sample_main_parsed
          {| me_loop := true; me_loop_init := 0; me_ctx := true; me_config := true; me_tty_init := 0; me_conns := true;
             me_init := λ _, (Some (16777216, []), None); me_timer_init := 0; me_timer_start := 0 |} main_zero with
  | Some (None, s) => m_blocks s = [BlkArea 0]
  | _ => False
  end.
Proof. split; vm_compute; reflexivity. Qed.

Lemma sample_main_parses : ∃ a, @parse_tcploadgen_args little (args_mem sample_server (replicate 32 9)) 200 sample_main_parsed = Some (0, a).
Proof. eexists. vm_compute. reflexivity. Qed.

