(* ===== verification/Sniff.v ===== *)
(** The packet sniffer: src/sniff/sniff.c.

    libpcap is a parameter: the codes of its calls are arguments, a capture round is the
    code of [pcap_dispatch] and the packets it hands to [countme].  What is printed is a list
    of strings for [ifprint], and a list of messages for [main].  A path that uses a NULL
    pointer or a filter that was never written is undefined. *)
From stdpp Require Import base numbers list option.
From Stdlib Require Import ZArith Lia String DecimalString DecimalZ.
From stdpp Require Import list.
From S2P Require Import Prelude.

Local Open Scope Z_scope.
Local Open Scope c_scope.

(** ["%d"] *)
Definition dec (x : Z) : string := NilZero.string_of_int (Z.to_int x).

(** ** Interfaces (ifprint) *)

Definition PCAP_IF_LOOPBACK : Z := 1.
Definition PCAP_IF_UP : Z := 2.
Definition PCAP_IF_RUNNING : Z := 4.
Definition PCAP_IF_WIRELESS : Z := 8.
Definition PCAP_IF_CONNECTION_STATUS : Z := 48.
Definition PCAP_IF_CONNECTION_STATUS_UNKNOWN : Z := 0.
Definition PCAP_IF_CONNECTION_STATUS_CONNECTED : Z := 16.
Definition PCAP_IF_CONNECTION_STATUS_DISCONNECTED : Z := 32.
Definition PCAP_IF_CONNECTION_STATUS_NOT_APPLICABLE : Z := 48.
Definition AF_INET : Z := 2.
Definition AF_INET6 : Z := 10.

(** A socket address: the family and the bytes of the address. *)
Record if_sockaddr := { sa_family : Z; sa_bytes : list Z }.
Record pcap_addr_t := {
  pa_addr : ptr if_sockaddr;
  pa_netmask : ptr if_sockaddr;
  pa_broadaddr : ptr if_sockaddr;
  pa_dstaddr : ptr if_sockaddr;
}.
Record pcap_if_t := {
  if_name : string;
  if_description : ptr string;
  if_flags : Z;
  if_addresses : list pcap_addr_t;
}.

Definition flag_set (flags bit : Z) : bool := negb (Z.land flags bit =? 0).

(** One [if (d->flags & bit) { printf("%sTEXT", sep); sep = ", "; }]. *)
Definition print_flag (flags bit : Z) (text : string) (st : string * string) : string * string :=
  if flag_set flags bit then ((st.1 ++ st.2 ++ text)%string, ", "%string) else st.

Definition wireless_status (status : Z) : string :=
  if status =? PCAP_IF_CONNECTION_STATUS_UNKNOWN then " (association status unknown)"
  else if status =? PCAP_IF_CONNECTION_STATUS_CONNECTED then " (associated)"
  else if status =? PCAP_IF_CONNECTION_STATUS_DISCONNECTED then " (not associated)"
  else "".
Definition wired_status (status : Z) : string :=
  if status =? PCAP_IF_CONNECTION_STATUS_UNKNOWN then " (connection status unknown)"
  else if status =? PCAP_IF_CONNECTION_STATUS_CONNECTED then " (connected)"
  else if status =? PCAP_IF_CONNECTION_STATUS_DISCONNECTED then " (disconnected)"
  else "".

(** The text after ["\tFlags: "]. *)
Definition print_flags (flags : Z) : string :=
  let st := print_flag flags PCAP_IF_UP "UP" (""%string, ""%string) in
  let st := print_flag flags PCAP_IF_RUNNING "RUNNING" st in
  let st := print_flag flags PCAP_IF_LOOPBACK "LOOPBACK" st in
  let status := Z.land flags PCAP_IF_CONNECTION_STATUS in
  if flag_set flags PCAP_IF_WIRELESS then (st.1 ++ st.2 ++ "WIRELESS" ++ wireless_status status)%string
  else (st.1 ++ wired_status status)%string.

Section Print.
(** [inet_ntop] of the system: the text of an address. *)
Context (inet_ntop : Z → list Z → string).

Definition print_member (family : Z) (label : string) (a : ptr if_sockaddr) : list string :=
  match a with Some s => [("		" ++ label ++ ": " ++ inet_ntop family (sa_bytes s))%string] | None => [] end.

Definition print_members (family : Z) (a : pcap_addr_t) : list string :=
  print_member family "Address" (pa_addr a) ++ print_member family "Netmask" (pa_netmask a) ++
  print_member family "Broadcast Address" (pa_broadaddr a) ++ print_member family "Destination Address" (pa_dstaddr a).

(** One address: the lines, and the status after it. *)
Definition print_addr (a : pcap_addr_t) (status : Z) : list string * Z :=
  match pa_addr a with
  | None => (["	Warning: a->addr is NULL, skipping this address."%string], 0)
  | Some s =>
      if sa_family s =? AF_INET then ("	Address Family: AF_INET"%string :: print_members AF_INET a, status)
      else if sa_family s =? AF_INET6 then ("	Address Family: AF_INET6"%string :: print_members AF_INET6 a, status)
      else ([("	Address Family: Unknown (" ++ dec (sa_family s) ++ ")")%string], status)
  end.

Fixpoint print_addrs (addrs : list pcap_addr_t) (status : Z) : list string * Z :=
  match addrs with
  | [] => ([], status)
  | a :: addrs =>
      let r := print_addr a status in
      let rs := print_addrs addrs r.2 in
      (r.1 ++ rs.1, rs.2)
  end.

(** The lines, and the result. *)
Definition ifprint (d : pcap_if_t) : list string * Z :=
  let r := print_addrs (if_addresses d) 1 in
  ([if_name d] ++ (match if_description d with Some t => [("	Description: " ++ t)%string] | None => [] end) ++
   [("	Flags: " ++ print_flags (if_flags d))%string] ++ r.1 ++ [""%string], r.2).
End Print.

(** ** Addresses (iptos) *)

Definition IPTOSBUFFERS : Z := 12.
(** The size of one buffer. *)
Definition IPTOS_SIZE : Z := 3 * 4 + 3 + 1.

(** The static variables; [which] is the index of the last buffer used. *)
Record iptos_t := { ip_output : list string; ip_which : Z }.

(** [in_bytes]: the four bytes of the argument in memory.  Writing past a buffer is
    undefined.  The result is the index of the buffer. *)
Definition iptos (in_bytes : Z * Z * Z * Z) : M iptos_t nat :=
  let '(p0, p1, p2, p3) := in_bytes in
  s ← get;
  let which := if ip_which s + 1 =? IPTOSBUFFERS then 0 else ip_which s + 1 in
  let text := (dec p0 ++ "." ++ dec p1 ++ "." ++ dec p2 ++ "." ++ dec p3)%string in
  TN_ASSERT (Z.of_nat (String.length text) <? IPTOS_SIZE);;
  lift (ip_output s !! Z.to_nat which);;
  put {| ip_output := <[Z.to_nat which := text]> (ip_output s); ip_which := which |};;
  mret (Z.to_nat which).

(** ** Error text (pcap_statustostr) *)

(** [snprintf(ebuf, sizeof ebuf, ...)] with 15 + 10 + 1 bytes. *)
Definition pcap_statustostr (errnum : Z) : string :=
  if errnum =? 1 then "Generic warning"
  else if errnum =? 3 then "That type of time stamp is not supported by that device"
  else if errnum =? 2 then "That device doesn't support promiscuous mode"
  else if errnum =? -1 then "Generic error"
  else if errnum =? -2 then "Loop terminated by pcap_breakloop"
  else if errnum =? -3 then "The pcap_t has not been activated"
  else if errnum =? -4 then "The setting can't be changed after the pcap_t is activated"
  else if errnum =? -5 then "No such device exists"
  else if errnum =? -6 then "That device doesn't support monitor mode"
  else if errnum =? -7 then "That operation is supported only in monitor mode"
  else if errnum =? -8 then "You don't have permission to capture on that device"
  else if errnum =? -9 then "That device is not up"
  else if errnum =? -10 then "That device doesn't support setting the time stamp type"
  else if errnum =? -11 then "You don't have permission to capture in promiscuous mode on that device"
  else if errnum =? -12 then "That device doesn't support that time stamp precision"
  else String.substring 0 25 ("Unknown error: " ++ dec errnum)%string.

(** ** The capture (main) *)

(** What libpcap answers before the loop; [se_devices] are the names of the devices found. *)
Record sniff_env := {
  se_findalldevs : Z;
  se_devices : list string;
  se_create : bool;
  se_snaplen : Z;
  se_timeout : Z;
  se_activate : Z;
  se_lookupnet : Z;
  se_compile : Z;
  se_setfilter : Z;
  se_setnonblock : Z;
}.

(** What [main] logs and prints. *)
Inductive sn_out :=
  | LogError (call : string) (device : string) (code : Z)
  | LogWarning (call : string) (device : string) (code : Z)
  | Listening (device : string)
  | Packets (seen counted : Z)
  | Newline
  | LoopError.

Definition log_if (failed : bool) (o : sn_out) : list sn_out := if failed then [o] else [].

(** The first device; without one, as after a failed [pcap_findalldevs], the list is NULL
    and its name is read all the same. *)
Definition find_device (env : sniff_env) : option string :=
  if se_findalldevs env =? -1 then None else head (se_devices env).

(** Up to the loop: what is printed, and whether the filter was written.  An activated
    capture reads the filter it is given. *)
Definition sniff_setup (env : sniff_env) : option (list sn_out * bool) :=
  device ← find_device env;
  if negb (se_create env) then None
  else if (se_compile env <? 0) && (0 <=? se_activate env) then None
  else
    Some (log_if (negb (se_snaplen env =? 0)) (LogError "pcap_set_snaplen" device (se_snaplen env)) ++
      log_if (negb (se_timeout env =? 0)) (LogError "pcap_set_timeout" device (se_timeout env)) ++
      (if se_activate env <? 0 then [LogError "pcap_activate" device (se_activate env)]
       else if 0 <? se_activate env then [LogWarning "pcap_activate" device (se_activate env)] else []) ++
      log_if (se_lookupnet env <? 0) (LogWarning "pcap_lookupnet" device (se_lookupnet env)) ++
      log_if (se_compile env <? 0) (LogError "pcap_compile" device (se_compile env)) ++
      log_if (se_setfilter env <? 0) (LogError "pcap_setfilter" device (se_setfilter env)) ++
      log_if (se_setnonblock env =? -1) (LogError "pcap_setnonblock" device (se_setnonblock env)) ++
      [Listening device], negb (se_compile env <? 0)).

(** The callback; the counter is an [int]. *)
Definition countme {P} (counter : option Z) (packet : P) : option Z :=
  c ← counter; if c + 1 <=? 2147483647 then Some (c + 1) else None.

(** A round: the code of [pcap_dispatch] and the packets it handed to [countme]. *)
Definition round (P : Type) : Type := Z * list P.

(** The loop: the code that ended it, if one did, and what was printed. *)
Fixpoint sniff_loop {P} (rounds : list (round P)) : option (option Z * list sn_out) :=
  match rounds with
  | [] => Some (None, [])
  | (status, packets) :: rounds =>
      packet_count ← foldl countme (Some 0) packets;
      if status <? 0 then Some (Some status, [])
      else
        r ← sniff_loop rounds;
        Some (r.1, (if negb (status =? 0) then [Packets status packet_count] else []) ++ r.2)
  end.

(** The whole program: [None] in the result while the loop still runs, otherwise the exit
    code. *)
Definition sniff_main {P} (env : sniff_env) (rounds : list (round P)) : option (option Z * list sn_out) :=
  s ← sniff_setup env;
  r ← sniff_loop rounds;
  match r.1 with
  | None => Some (None, s.1 ++ r.2)
  | Some status =>
      if negb s.2 then None
      else Some (Some (if status =? -1 then 1 else 0),
                 s.1 ++ r.2 ++ log_if (status =? -2) Newline ++ log_if (status =? -1) LoopError)
  end.

(** ** Lemmas *)

Lemma countme_all {P} (ps : list P) : ∀ c, 0 ≤ c → c + Z.of_nat (length ps) ≤ 2147483647 →
  foldl countme (Some c) ps = Some (c + Z.of_nat (length ps)).
Proof.
  induction ps as [|p ps IH]; intros c Hc Hle; cbn [foldl length]; [f_equal; lia|]. cbn [length] in Hle.
  unfold countme at 2. simpl. rewrite (proj2 (Z.leb_le _ _)) by lia. rewrite IH by lia. f_equal. lia.
Qed.

(** What is printed for rounds that went well. *)
Definition reports {P} (rounds : list (round P)) : list sn_out :=
  rounds ≫= λ r, if r.1 =? 0 then [] else [Packets r.1 (Z.of_nat (length r.2))].

Abbreviation countable rounds := (Forall (λ r, Z.of_nat (length r.2) ≤ 2147483647) rounds).

Lemma sniff_loop_app {P} (pre rest : list (round P)) :
  Forall (λ r, 0 ≤ r.1) pre → countable pre →
  sniff_loop (pre ++ rest) = r ← sniff_loop rest; Some (r.1, reports pre ++ r.2).
Proof.
  induction pre as [|[st ps] pre IH]; intros Hp Hc; cbn [app sniff_loop].
  { by destruct (sniff_loop rest) as [[? ?]|]. }
  inversion Hp as [|?? H1 H2]; inversion Hc as [|?? H3 H4]; subst. simpl in *. rewrite countme_all by lia. cbn [mbind option_bind].
  rewrite (proj2 (Z.ltb_ge st 0)) by done. rewrite IH by done. destruct (sniff_loop rest) as [[o out]|]; [|done]. cbn. do 2 f_equal.
  rewrite <- app_assoc. by destruct (st =? 0).
Qed.

(** The flags of an interface that are set, in the order they are printed. *)
Definition flag_names (flags : Z) : list string :=
  (λ p, p.2) <$> filter (λ p, flag_set flags p.1 = true)
    [(PCAP_IF_UP, "UP"%string); (PCAP_IF_RUNNING, "RUNNING"%string); (PCAP_IF_LOOPBACK, "LOOPBACK"%string); (PCAP_IF_WIRELESS, "WIRELESS"%string)].

Lemma print_flags_joined flags :
  let status := Z.land flags PCAP_IF_CONNECTION_STATUS in
  print_flags flags = (String.concat ", " (flag_names flags) ++
    (if flag_set flags PCAP_IF_WIRELESS then wireless_status status else wired_status status))%string.
Proof.
  unfold print_flags, print_flag, flag_names. cbv zeta. set (st := Z.land flags PCAP_IF_CONNECTION_STATUS).
  rewrite !filter_cons, filter_nil. cbn [fst].
  destruct (flag_set flags PCAP_IF_UP), (flag_set flags PCAP_IF_RUNNING), (flag_set flags PCAP_IF_LOOPBACK), (flag_set flags PCAP_IF_WIRELESS); reflexivity.
Qed.

Lemma print_addrs_status ntop addrs : ∀ status,
  (print_addrs ntop addrs status).2 = if forallb (λ a, bool_decide (is_Some (pa_addr a))) addrs then status else 0.
Proof.
  induction addrs as [|a addrs IH]; intros status; [done|]. simpl. rewrite IH. unfold print_addr.
  destruct (pa_addr a) as [s|]; simpl; [|by destruct (forallb _ _)]. repeat case_bool; done.
Qed.

(** The ring of [iptos]. *)
Record iptos_ok (s : iptos_t) : Prop := {
  io_len : Z.of_nat (List.length (ip_output s)) = IPTOSBUFFERS;
  io_which : 0 ≤ ip_which s < IPTOSBUFFERS;
}.
Definition is_quad (q : Z * Z * Z * Z) : Prop :=
  let '(p0, p1, p2, p3) := q in 0 ≤ p0 < 256 ∧ 0 ≤ p1 < 256 ∧ 0 ≤ p2 < 256 ∧ 0 ≤ p3 < 256.
Definition quad_text (q : Z * Z * Z * Z) : string :=
  let '(p0, p1, p2, p3) := q in (dec p0 ++ "." ++ dec p1 ++ "." ++ dec p2 ++ "." ++ dec p3)%string.

(** The calls after which buffer [i] is used again. *)
Definition calls_left (s : iptos_t) (i : nat) : Z :=
  if ip_which s <? Z.of_nat i then Z.of_nat i - ip_which s - 1 else Z.of_nat i - ip_which s + 11.

Fixpoint iptos_calls (qs : list (Z * Z * Z * Z)) : M iptos_t unit :=
  match qs with [] => mret tt | q :: qs => iptos q;; iptos_calls qs end.

Lemma dec_byte_check : forallb (λ b, (String.length (dec b) <=? 3)%nat) (seqZ 0 256) = true.
Proof. vm_compute. reflexivity. Qed.
Lemma dec_byte b : 0 ≤ b < 256 → (String.length (dec b) ≤ 3)%nat.
Proof.
  intros Hb. pose proof dec_byte_check as H. rewrite forallb_forall in H. apply Nat.leb_le, H, list_elem_of_In, elem_of_seqZ. lia.
Qed.
Lemma string_length_app (a b : string) : String.length (a ++ b) = (String.length a + String.length b)%nat.
Proof. induction a as [|c a IH]; [done|]. simpl. by rewrite IH. Qed.

Lemma iptos_run q s : iptos_ok s → is_quad q →
  ∃ i s', iptos q s = Some (i, s') ∧ iptos_ok s' ∧ ip_output s' = <[i := quad_text q]> (ip_output s) ∧ calls_left s i = 0 ∧ calls_left s' i = 11 ∧
    (i < List.length (ip_output s))%nat ∧ ∀ j, 0 < calls_left s j → (j < List.length (ip_output s))%nat → j ≠ i ∧ calls_left s' j = calls_left s j - 1.
Proof.
  destruct q as [[[p0 p1] p2] p3]. intros [Hl Hw] (H0 & H1 & H2 & H3). unfold iptos. rewrite M_get. cbn [quad_text].
  set (text := (dec p0 ++ "." ++ dec p1 ++ "." ++ dec p2 ++ "." ++ dec p3)%string).
  assert (Z.of_nat (String.length text) < IPTOS_SIZE) as Ht.
  { unfold text. rewrite !string_length_app. simpl. pose proof (dec_byte p0 H0). pose proof (dec_byte p1 H1). pose proof (dec_byte p2 H2). pose proof (dec_byte p3 H3).
    unfold IPTOS_SIZE. lia. }
  rewrite (proj2 (Z.ltb_lt _ _) Ht), M_assert. set (which := if ip_which s + 1 =? IPTOSBUFFERS then 0 else ip_which s + 1).
  assert (0 ≤ which < IPTOSBUFFERS ∧ (ip_which s + 1 = which ∨ ip_which s = 11 ∧ which = 0)) as [Hwh Hcase].
  { unfold which, IPTOSBUFFERS in *. destruct (Z.eqb_spec (ip_which s + 1) 12); lia. }
  unfold IPTOSBUFFERS in *. destruct (lookup_lt_is_Some_2 (ip_output s) (Z.to_nat which)) as [old Hold]; [lia|]. rewrite Hold, M_lift, M_put.
  eexists _, _. split; [reflexivity|]. split; [split; simpl; [by rewrite length_insert|done]|]. split; [done|].
  unfold calls_left. simpl. rewrite Z2Nat.id by lia. split_and!; [repeat case_bool; lia|repeat case_bool; lia|lia|].
  intros j Hj Hjl. repeat case_bool; lia.
Qed.

Lemma iptos_calls_keep qs : ∀ s i, iptos_ok s → Forall is_quad qs → (i < List.length (ip_output s))%nat → Z.of_nat (List.length qs) ≤ calls_left s i →
  ∃ s', iptos_calls qs s = Some (tt, s') ∧ iptos_ok s' ∧ ip_output s' !! i = ip_output s !! i.
Proof.
  induction qs as [|q qs IH]; intros s i Hs Hq Hi Hn; cbn [iptos_calls]; [by exists s|]. inversion Hq as [|?? Hq1 Hq2]; subst. simpl in Hn.
  destruct (iptos_run q s Hs Hq1) as (k & s1 & Hr & Hs1 & Ho & _ & _ & Hk & Hj). bstep Hr. destruct (Hj i) as [Hne Hc]; [lia|done|].
  destruct (IH s1 i Hs1 Hq2) as (s2 & Hr2 & Hs2 & Ho2); [rewrite Ho, length_insert; lia|lia|]. exists s2. split_and!; [done|done|].
  rewrite Ho2, Ho. apply list_lookup_insert_ne. congruence.
Qed.

(** ** Theorems *)

(** Every buffer of [iptos] holds the dotted form of its argument, never overruns, and stays
    as it is for the next eleven calls. *)
Theorem iptos_result_stays q qs s :
  iptos_ok s → is_quad q → Forall is_quad qs → (List.length qs ≤ 11)%nat →
  ∃ i s1 s2, iptos q s = Some (i, s1) ∧ iptos_calls qs s1 = Some (tt, s2) ∧ ip_output s2 !! i = Some (quad_text q).
Proof.
  intros Hs Hq Hqs Hn. destruct (iptos_run q s Hs Hq) as (i & s1 & Hr & Hs1 & Ho & _ & Hc & Hi & _).
  destruct (iptos_calls_keep qs s1 i Hs1 Hqs) as (s2 & Hr2 & _ & Ho2); [by rewrite Ho, length_insert|lia|].
  exists i, s1, s2. split_and!; [done|done|]. rewrite Ho2, Ho. by apply list_lookup_insert_eq.
Qed.

(** What is printed of an interface: its flags are the names of the set ones joined with
    commas and the state of the link, and the result is 1 exactly when no address is NULL. *)
Theorem ifprint_reports ntop d :
  ∃ lines, ifprint ntop d =
    ([if_name d] ++ (match if_description d with Some t => [("	Description: " ++ t)%string] | None => [] end) ++
     [("	Flags: " ++ String.concat ", " (flag_names (if_flags d)) ++
       (if flag_set (if_flags d) PCAP_IF_WIRELESS then wireless_status (Z.land (if_flags d) PCAP_IF_CONNECTION_STATUS)
        else wired_status (Z.land (if_flags d) PCAP_IF_CONNECTION_STATUS)))%string] ++ lines,
     if forallb (λ a, bool_decide (is_Some (pa_addr a))) (if_addresses d) then 1 else 0).
Proof. eexists. unfold ifprint. rewrite print_addrs_status, print_flags_joined. done. Qed.

(** C37. The capture counts what it sees.  Once the set-up found a device and wrote a filter,
    each round that saw packets reports its own number of them, counted afresh; the program
    runs on until [pcap_dispatch] answers with an error, and then exits with 1 for an error
    of the capture and with 0 for every other code. *)
Theorem sniff_counts_rounds {P} env out (pre : list (round P)) st ps rest :
  sniff_setup env = Some (out, true) → Forall (λ r, 0 ≤ r.1) pre → countable (pre ++ [(st, ps)]) → st < 0 →
  sniff_main env pre = Some (None, out ++ reports pre) ∧
  sniff_main env (pre ++ (st, ps) :: rest) =
    Some (Some (if st =? -1 then 1 else 0), out ++ reports pre ++ log_if (st =? -2) Newline ++ log_if (st =? -1) LoopError).
Proof.
  intros Hs Hp Hc Hst. apply Forall_app in Hc as [Hc Hc1]. inversion Hc1 as [|?? Hps _]; subst. simpl in Hps. unfold sniff_main. rewrite Hs. cbn [mbind option_bind].
  split.
  - rewrite <- (app_nil_r pre) at 1. rewrite sniff_loop_app by done. cbn. by rewrite app_nil_r.
  - rewrite sniff_loop_app by done. cbn [sniff_loop]. rewrite countme_all by lia. cbn [mbind option_bind]. rewrite (proj2 (Z.ltb_lt _ _) Hst). cbn. by rewrite app_nil_r.
Qed.

(** A capture that cannot be activated, as without permission, ends in undefined behaviour:
    libpcap does not compile a filter for it, the loop ends at once, and the filter, which was
    never written, is freed. *)
Theorem sniff_unactivated_undefined {P} env (ps : list P) rest :
  is_Some (find_device env) → se_create env = true → se_activate env < 0 → se_compile env < 0 → Z.of_nat (List.length ps) ≤ 2147483647 →
  (∃ out, sniff_setup env = Some (out, false)) ∧ sniff_main env ((-3, ps) :: rest) = None.
Proof.
  intros [d Hd] Hc Ha Hk Hps. assert (∃ out, sniff_setup env = Some (out, false)) as [out Hs].
  { unfold sniff_setup. rewrite Hd, Hc. cbn [mbind option_bind negb]. rewrite (proj2 (Z.ltb_lt _ _) Hk), (proj2 (Z.leb_gt _ _) Ha). cbn. by eexists. }
  split; [by exists out|]. unfold sniff_main. rewrite Hs. cbn [mbind option_bind sniff_loop]. rewrite countme_all by lia. done.
Qed.

(** Without a device, or when the capture cannot be created, a NULL pointer is used. *)
Lemma sniff_no_device_undefined {P} env (rounds : list (round P)) :
  se_findalldevs env = -1 ∨ se_devices env = [] ∨ se_create env = false → sniff_main env rounds = None.
Proof.
  unfold sniff_main, sniff_setup, find_device. intros [-> | [-> | ->]]; [done|by destruct (se_findalldevs env =? -1)|].
  by destruct (se_findalldevs env =? -1), (se_devices env).
Qed.

(** The longest error numbers lose their last digit. *)
Lemma statustostr_truncates : pcap_statustostr (-2147483648) = "Unknown error: -214748364"%string ∧ pcap_statustostr 2147483647 = "Unknown error: 2147483647"%string.
Proof. split; vm_compute; reflexivity. Qed.

(** ** Samples *)

Definition sample_sniff : sniff_env :=
  {| se_findalldevs := 0; se_devices := ["eth0"%string; "lo"%string]; se_create := true; se_snaplen := 0; se_timeout := 0; se_activate := 2;
     se_lookupnet := 0; se_compile := 0; se_setfilter := 0; se_setnonblock := 0 |}.

Lemma sniff_counts_rounds_witness :
  sniff_main sample_sniff [(2, [7; 8]%nat); (0, []); (1, [9]%nat); (-2, [])] =
    Some (Some 0, [LogWarning "pcap_activate" "eth0" 2; Listening "eth0"; Packets 2 2; Packets 1 1; Newline]).
Proof.
  exact (proj2 (sniff_counts_rounds sample_sniff [LogWarning "pcap_activate" "eth0" 2; Listening "eth0"]
    [(2, [7; 8]%nat); (0, []); (1, [9]%nat)] (-2) [] [] ltac:(reflexivity) ltac:(repeat constructor; simpl; lia) ltac:(repeat constructor; simpl; lia) ltac:(lia))).
Defined.

Lemma iptos_result_stays_witness :
  ∃ i s1 s2, iptos (192, 168, 0, 1) {| ip_output := replicate 12 ""%string; ip_which := 0 |} = Some (i, s1) ∧
    iptos_calls (replicate 11 (10, 0, 0, 255)) s1 = Some (tt, s2) ∧ ip_output s2 !! i = Some "192.168.0.1"%string.
Proof.
  apply (iptos_result_stays (192, 168, 0, 1) (replicate 11 (10, 0, 0, 255)) {| ip_output := replicate 12 ""%string; ip_which := 0 |}).
  - split; [reflexivity|simpl; unfold IPTOSBUFFERS; lia].
  - simpl. lia.
  - apply Forall_replicate. simpl. lia.
  - simpl. lia.
Defined.
