(* ===== verification/UnityServ.v ===== *)
(** The echo server on the TCP service: src/tcpserv/tcpserv_unity.c, and the plug-in
    src/unity/tcpeen_unity.c.

    The server's main thread takes the events of the service, sends the bytes of each read
    event back to its client and returns the events.  Each of its calls is one step; the
    callbacks of the IO thread come in between in any order.  The plug-in exports the calls
    of the service, on one service, behind checks of their arguments. *)
From stdpp Require Import base numbers list option gmap.
From Stdlib Require Import ZArith Lia.
From S2P Require Import Prelude QueueSpsc ByteBuf Buffer BufferPool ListPtr Inet Endpoint Event Channel Service.
From S2P Require Import ServiceWrite ServiceRead ServiceRun ServiceSetup.

Local Open Scope Z_scope.
Local Open Scope c_scope.

(** ** The server *)

Definition handle_client_read (evt_read : nat) : M tcp_service_t Z :=
  s ← get;
  ev ← lift (tn_events (events s) !! evt_read);
  r ← on_channels (tcp_channel_list_get (client_id ev));
  if negb (r.1 =? 0) then mret TN_EVENT_NOCHAN
  else
    channel ← lift r.2;
    b ← lift (match body ev with BRead _ _ (Some b) => b | _ => None end);
    on_read_pool (on_buffer b tn_buffer_read_reset);;
    p ← on_read_pool (on_buffer b tn_buffer_read_ptr);
    n ← on_read_pool (on_buffer b tn_buffer_read_length);
    tcp_service_send channel (SrcPtr p) n.

(** Where the main thread is: before it takes events, or at one of those it has taken. *)
Inductive main_pc := MAcquire | MEvents (eidx : nat) (evt_count : Z).

(** The next call of the loop in [main]; the result of [handle_client_read] with its event,
    when that was the call. *)
Definition main_step (pc : main_pc) : M tcp_service_t (main_pc * option (nat * Z)) :=
  match pc with
  | MAcquire => r ← tcp_service_events_acquire; mret (MEvents 0 r.2, None)
  | MEvents eidx evt_count =>
      if Z.of_nat eidx <? evt_count then
        s ← get;
        o ← lift (event_updates s !! eidx);
        e ← lift o;
        ev ← lift (tn_events (events s) !! e);
        if ev_type ev =? TN_EVENT_CLIENT_READ then
          ret ← handle_client_read e;
          mret (MEvents (S eidx) evt_count, Some (e, ret))
        else mret (MEvents (S eidx) evt_count, None)
      else
        tcp_service_events_release;;
        mret (MAcquire, None)
  end.

(** ** The plug-in *)

Definition priv_or_error {A} (err : A) (k : M tcp_service_t A) : M tcp_service_t A :=
  s ← get; match sv_priv s with None => mret err | Some _ => k end.

(** [max_clients] has no effect. *)
Definition tcpeen_service_setup (acq : service_acquire) (rd wr max_clients : Z) : M tcp_service_t Z :=
  TN_GUARD tcp_service_setup acq rd wr THEN mret TN_SUCCESS.

Definition tcpeen_service_cleanup : M tcp_service_t Z :=
  priv_or_error TN_ERROR (tcp_service_cleanup;; mret TN_SUCCESS).

(** Whether the out pointers are given; the code and the out count. *)
Definition tcpeen_service_events_acquire (out_evt_ptr_arr out_evt_count : bool) : M tcp_service_t (Z * option Z) :=
  priv_or_error (TN_ERROR, None) (
    if negb out_evt_ptr_arr then mret (TN_ERROR, None)
    else if negb out_evt_count then mret (TN_ERROR, None)
    else
      r ← tcp_service_events_acquire;
      mret (if r.1 =? 0 then TN_SUCCESS else TN_ERROR, Some r.2)).

Definition tcpeen_service_events_release : M tcp_service_t Z :=
  priv_or_error TN_ERROR (TN_GUARD tcp_service_events_release THEN mret TN_SUCCESS).

Definition tcpeen_service_send (client_id buffer length : Z) : M tcp_service_t Z :=
  priv_or_error TN_ERROR (
    if buffer =? 0 then mret TN_ERROR
    else if length =? 0 then mret TN_ERROR
    else
      r ← on_channels (tcp_channel_list_get client_id);
      if negb (r.1 =? 0) then mret TN_ERROR
      else
        channel ← lift r.2;
        TN_GUARD tcp_service_send channel (SrcPtr buffer) length THEN mret TN_SUCCESS).

(** ** Nothing reads from the buffers of the service *)

Definition whole_pool (p : tn_buffer_pool_t) : Prop := Forall whole (tn_buffers p).

Abbreviation kept := (stable whole_buffers).
Abbreviation pool_kept := (stable (λ pm : plstate, whole_pool pm.1)).
Abbreviation buffer_kept := (stable (λ bm : bstate, whole bm.1)).

Lemma on_buffer_kept {A} i (f : M bstate A) : buffer_kept f → pool_kept (on_buffer i f).
Proof.
  intros Hf [p m] a [p' m'] Hp H. unfold on_buffer in H. simpl in *. destruct (tn_buffers p !! i) as [b|] eqn:Hb; [|done].
  destruct (f (b, m)) as [[x [b' m'']]|] eqn:E; [|done]. injection H as _ <- _. apply Forall_insert; [done|].
  exact (Hf (b, m) _ _ (Forall_lookup_1 _ _ _ _ Hp Hb) E).
Qed.

Lemma read_reset_kept : buffer_kept tn_buffer_read_reset.
Proof. by apply stable_modify. Qed.
Lemma reset_kept : buffer_kept tn_buffer_reset.
Proof. intros [b m] a s' _ [= _ <-]. done. Qed.
Lemma add_length_kept n : buffer_kept (tn_buffer_add_length n).
Proof.
  unfold tn_buffer_add_length. apply stable_get_bind. intros [b m] _. cbn [fst].
  destruct (_ <? _); [by auto with stable|]. intros [b1 m1] a s' Hw [= _ <-]. unfold whole in *. simpl in *. by rewrite Hw.
Qed.
#[local] Hint Resolve read_reset_kept reset_kept add_length_kept : stable.
Lemma write_ptr_kept : buffer_kept tn_buffer_write_ptr.
Proof. apply stable_gets. Qed.
Lemma remaining_kept : buffer_kept tn_buffer_remaining.
Proof. apply stable_gets. Qed.
Lemma read_ptr_kept : buffer_kept tn_buffer_read_ptr.
Proof. apply stable_gets. Qed.
Lemma read_length_kept : buffer_kept tn_buffer_read_length.
Proof. apply stable_gets. Qed.
#[local] Hint Resolve on_buffer_kept write_ptr_kept remaining_kept read_ptr_kept read_length_kept : stable.

Lemma on_free_kept {A} (f : M (tn_queue_spsc_t nat) A) : pool_kept (on_free f).
Proof. apply (stable_zoom _ (λ _, True)); [done|done|apply stable_true]. Qed.
#[local] Hint Resolve on_free_kept : stable.
Lemma modify_inuse_kept f g : pool_kept (modify_pool (λ p, set_inuse (f p) (g p) p)).
Proof. by apply stable_modify. Qed.
#[local] Hint Resolve modify_inuse_kept : stable.
Lemma pool_push_kept b : pool_kept (tn_buffer_pool_push b).
Proof. unfold tn_buffer_pool_push. stable_auto. Qed.
Lemma pop_back_kept : pool_kept tn_buffer_pool_pop_back.
Proof. unfold tn_buffer_pool_pop_back. stable_auto. Qed.
#[local] Hint Resolve pool_push_kept pop_back_kept : stable.

(** The calls of the service on its members. *)
Lemma on_read_pool_kept {A} (f : M plstate A) : pool_kept f → kept (on_read_pool f).
Proof. intros Hf. apply (stable_zoom _ (λ pm : plstate, whole_pool pm.1)); [done|by intros s t _ Ht|exact Hf]. Qed.
Lemma on_write_pool_kept {A} (f : M plstate A) : kept (on_write_pool f).
Proof. apply (stable_zoom _ (λ _, True)); [done|done|apply stable_true]. Qed.
Lemma on_channels_kept {A} (f : M tcp_channel_list_t A) : kept (on_channels f).
Proof. apply (stable_zoom _ (λ _, True)); [done|done|apply stable_true]. Qed.
Lemma on_events_kept {A} (f : M tn_event_list_t A) : kept (on_events f).
Proof. apply (stable_zoom _ (λ _, True)); [done|done|apply stable_true]. Qed.
Lemma on_wfree_kept {A} (f : M (tn_queue_spsc_t nat) A) : kept (on_wfree f).
Proof. apply (stable_zoom _ (λ _, True)); [done|done|apply stable_true]. Qed.
Lemma on_wready_kept {A} (f : M (tn_queue_spsc_t nat) A) : kept (on_wready f).
Proof. apply (stable_zoom _ (λ _, True)); [done|done|apply stable_true]. Qed.
Lemma modify_uv_kept f : kept (modify_uv f).
Proof. by apply stable_modify. Qed.
Lemma modify_stats_kept f : kept (modify_stats f).
Proof. by apply stable_modify. Qed.
Lemma get_req_kept i : kept (get_req i).
Proof. unfold get_req. stable_auto. Qed.
Lemma get_channel_kept i : kept (get_channel i).
Proof. unfold get_channel. stable_auto. Qed.
Lemma update_req_kept i f : kept (update_req i f).
Proof. unfold update_req. stable_auto. by apply stable_put. Qed.
#[local] Hint Resolve on_read_pool_kept on_write_pool_kept on_channels_kept on_events_kept on_wfree_kept on_wready_kept
  modify_uv_kept modify_stats_kept get_req_kept get_channel_kept update_req_kept : stable.

Lemma send_kept c src n : kept (tcp_service_send c src n).
Proof. unfold tcp_service_send. stable_auto. Qed.

Lemma prep_loop_kept uv_write fuel : kept (prep_loop uv_write fuel).
Proof. induction fuel as [|fuel IH]; cbn [prep_loop]; stable_auto. Qed.

Lemma release_loop_kept n : ∀ i, kept (release_loop n i).
Proof. induction n as [|n IH]; intros i; cbn [release_loop]; stable_auto. Qed.
#[local] Hint Resolve send_kept prep_loop_kept release_loop_kept : stable.

Lemma wact_kept x : kept (exec_wact x).
Proof. destruct x; cbn [exec_wact]; unfold on_prep_cb, on_send_cb; stable_auto. Qed.

Lemma recv_cb_kept h n b : kept (on_recv_cb h n b).
Proof. unfold on_recv_cb, recv_cleanup. stable_auto. Qed.
Lemma recv_alloc_kept h : kept (on_recv_alloc_cb h).
Proof. unfold on_recv_alloc_cb. stable_auto. Qed.
#[local] Hint Resolve recv_cb_kept recv_alloc_kept : stable.
Lemma uv_read_kept h answer : kept (uv__read h answer).
Proof. unfold uv__read. stable_auto. by apply stable_put. Qed.
Lemma connection_kept env status : kept (on_connection_cb env status).
Proof. unfold on_connection_cb, connection_opened, connection_cleanup. stable_auto. Qed.
Lemma acquire_kept : kept tcp_service_events_acquire.
Proof. unfold tcp_service_events_acquire. stable_auto; by apply stable_modify. Qed.
#[local] Hint Resolve uv_read_kept connection_kept acquire_kept : stable.

Lemma ract_kept x : kept (exec_ract x).
Proof.
  destruct x as [| |h []| |]; cbn [exec_ract]; unfold on_close_channel_cb, on_close_handle_cb, tcp_service_events_release; stable_auto.
Qed.

Lemma reach_whole rd wr s0 s h r : fresh_service rd wr s0 → reach s0 s h r → whole_buffers s.
Proof. intros []. induction 1; [done|by eapply wact_kept|by eapply ract_kept]. Qed.

(** ** What the main thread is told *)

(** The messages of the read events. *)
Definition read_messages (ns : list note) : list message :=
  omap (λ n, match n with NRead id bs => Some (Z.to_nat id, bs) | _ => None end) ns.

Lemma read_messages_app l1 l2 : read_messages (l1 ++ l2) = read_messages l1 ++ read_messages l2.
Proof. apply omap_app. Qed.

(** A read event carries some bytes of a client whose channel was opened. *)
Definition note_ok (s : tcp_service_t) (n : note) : Prop :=
  match n with
  | NRead id bs => 0 ≤ id ∧ bs ≠ [] ∧ Forall is_byte bs ∧
      ∃ ch, client_map (channel_list s) !! Z.to_nat id = Some ch ∧ service ch = Some tt
  | _ => True
  end.

Record heard_ok (s : tcp_service_t) (r : rhistory) : Prop := {
  ho_told : Forall (note_ok s) (told r);
  ho_arrived : ∀ c, Forall is_byte (bytes_of (arrived r) c);
  ho_inhand : Forall (λ x, x.2 ∈ told r) (inhand r);
}.

Section Told.
Context (rd wr : Z).

Lemma note_ok_frame s s' n : read_frame s s' → note_ok s n → note_ok s' n.
Proof.
  intros Hfr. destruct n as [| |id bs]; [done|done|]. intros (? & ? & ? & ch & Hch & Hsv). simpl. split_and!; [done|done|done|].
  by apply (rf_opened _ _ Hfr _ ch).
Qed.

(** The events that a callback publishes. *)
Lemma new_notes_ready s o s' o' add :
  read_inv rd s o → read_inv rd s' o' → o_ready o' = o_ready o ++ add → new_notes s s' = notes s' add.
Proof. intros Hi Hi' Hr. unfold new_notes. by rewrite (ready_of rd s o Hi), (ready_of rd s' o' Hi'), Hr, drop_app_length. Qed.

Lemma no_new_notes s o s' o' :
  read_inv rd s o → read_inv rd s' o' → o_ready o' = o_ready o → Forall (note_ok s') (new_notes s s').
Proof.
  intros Hi Hi' Hr. rewrite (new_notes_ready s o s' o' []); [by apply Forall_nil|done|done|by rewrite app_nil_r].
Qed.

Lemma one_new_note s o s' o' e n :
  read_inv rd s o → read_inv rd s' o' → o_ready o' = o_ready o ++ [e] → event_note s' e = Some n → note_ok s' n →
  Forall (note_ok s') (new_notes s s').
Proof.
  intros Hi Hi' Hr Hn Hok. rewrite (new_notes_ready s o s' o' [e]) by done. unfold notes. cbn. rewrite Hn. by apply Forall_singleton.
Qed.

Lemma then_0 {A} (f : M tcp_service_t A) s a s1 code s' :
  f s = Some (a, s1) → (f;; mret 0) s = Some (code, s') → code = 0 ∧ s' = s1.
Proof. intros Hf. rewrite (bind_Some _ _ _ _ _ Hf). unfold mret, M_ret. by intros [= <- <-]. Qed.

Lemma kernel_bytes s hd answer : answer_ok answer → Forall is_byte (kernel_data s hd answer).
Proof.
  intros Hans. unfold kernel_data. destruct answer as [bs| | |], (on_recv_alloc_cb hd s) as [[[? ?] ?]|]; try done. apply Forall_take, Hans.
Qed.

Lemma io_notes s h o x code s' :
  rgood rd s h o → heard_ok s h → renabled s h x → exec_ract x s = Some (code, s') → x ≠ RAcquire → x ≠ RRelease →
  Forall (note_ok s') (new_notes s s').
Proof.
  intros Hg Hok Hen Hrun Hx1 Hx2. pose proof (rg_inv _ _ _ _ Hg) as Hi. destruct x as [env status|hd answer|hd cb| |]; try done.
  - destruct Hen as (Hfresh & Hok1 & Hok2).
    destruct (on_connection_run rd s o env status Hi Hfresh Hok1 Hok2) as (s1 & Hrun1 & Hcase).
    apply (then_0 _ _ _ _ _ _ Hrun1) in Hrun as [_ ->].
    destruct Hcase as [[]|(o' & hd & c & Hh & [])]; [by apply (no_new_notes s o s1 o)|].
    destruct ac_event as [Hr|(e & l & r & Hr & Hnote)]; [by apply (no_new_notes s o s1 o')|by eapply (one_new_note s o s1 o' e)].
  - destruct Hen as ([c Hc] & _ & Hans). destruct (uv_read_run rd s o hd c answer Hi Hc Hans) as (s1 & o' & Hrun1 & Hcase).
    apply (then_0 _ _ _ _ _ _ Hrun1) in Hrun as [_ ->].
    destruct Hcase as [(Hne & Hi' & Hfr & _ & _ & _ & _ & _ & _ & u & Hu & Hev)|(_ & [] & _)];
      [|destruct un_pool as [a ->]; by apply (no_new_notes s o s1 (set_pool a o))].
    destruct (o_free o) as [|e f]; [destruct Hev as (_ & ? & _); by apply (no_new_notes s o s1 o')|]. destruct Hev as (_ & Hready & _ & Hnote).
    apply (one_new_note s o s1 o' e _ Hi Hi' Hready Hnote). simpl. rewrite Nat2Z.id. split_and!; [lia| | |].
    + by intros [_ ?]%app_eq_nil.
    + apply Forall_app. split; [|by apply kernel_bytes]. pose proof (ho_arrived _ _ Hok c) as Ha. rewrite (rg_bytes _ _ _ _ Hg hd c Hc), Hu in Ha.
      by apply Forall_app in Ha as [_ ?].
    + destruct (ri_handles _ _ _ Hi hd c Hc) as (_ & ch & Hch & _ & Hsv). by apply (rf_opened _ _ Hfr c ch).
  - destruct (inv_close_done rd s o hd Hi) as (Hi1 & Hfr1 & Hni). simpl in Hen, Hrun. destruct cb; rewrite M_modify_uv in Hrun.
    + destruct (ri_closing _ _ _ Hi hd Hen) as [c Hc].
      destruct (close_channel_run rd (set_uv (uv_close_done hd (uv s)) s) o hd c Hi1 Hc Hni) as (s1 & o' & Hrun1 & []).
      apply (then_0 _ _ _ _ _ _ Hrun1) in Hrun as [_ ->].
      destruct (o_free o) as [|e f]; [destruct cl_event as [? _]; by apply (no_new_notes s o s1 o')|]. destruct cl_event as (Hr & _ & Hnote).
      by eapply (one_new_note s o s1 o' e).
    + pose proof (inv_release rd _ o hd Hi1 Hni) as Hi2. injection Hrun as _ <-. by apply (no_new_notes s o _ o).
Qed.

(** The bytes that arrived are bytes. *)
Lemma arrived_bytes s h x s' c :
  (∀ c, Forall is_byte (bytes_of (arrived h) c)) → renabled s h x → Forall is_byte (bytes_of (arrived (record_ract s x s' h)) c).
Proof.
  intros Ha Hen. destruct x as [env status|hd answer| | |]; simpl; try done.
  - unfold restart. destruct (_ ← ae_handle env; _) as [d|]; [|done]. unfold bytes_of. rewrite lookup_insert. case_decide; [done|apply Ha].
  - destruct (channel_of s hd) as [d|]; [|done]. rewrite bytes_of_add. case_decide; [|done]. subst. apply Forall_app. split; [done|].
    apply kernel_bytes, Hen.
Qed.

Lemma reach_heard s0 s h r : fresh_service rd wr s0 → reach s0 s h r → heard_ok s r.
Proof.
  intros Hf. induction 1 as [|s h r x code s' Hr IH Hen Hrun|s h r x code s' Hr IH Hen Hrun].
  - split; simpl; [by apply Forall_nil|intros c; by apply Forall_nil|by apply Forall_nil].
  - destruct (reach_good rd wr s0 s h r Hf Hr) as [Hw _ _].
    destruct (wact_frame wr s h x Hw Hen) as (code' & s1 & Hrun' & Hfr). simplify_eq. destruct IH. split; [|done|done].
    eapply Forall_impl; [exact ho_told0|]. intros [| |id bs]; [done|done|]. intros (? & ? & ? & ch & ?). simpl. split_and!; [done|done|done|].
    exists ch. by rewrite (wf_channels _ _ Hfr).
  - destruct (reach_good rd wr s0 s h r Hf Hr) as [_ [o Hg] _].
    destruct (ract_good rd s r o x Hg Hen) as (code' & s1 & o' & Hrun' & _ & Hfr). simplify_eq.
    assert (Forall (note_ok s') (told r)) as Htold.
    { eapply Forall_impl; [apply IH|]. intros n. by apply note_ok_frame. }
    pose proof (λ c, arrived_bytes s r x s' c (ho_arrived _ _ IH) Hen) as Harr. pose proof (ho_inhand _ _ IH) as Hin.
    assert (Forall (λ y, y.2 ∈ told r ++ new_notes s s') (inhand r)) as Hin'.
    { eapply Forall_impl; [exact Hin|]. intros y Hy. set_solver. }
    split; [| |]; destruct x; try done; simpl.
    all: try (apply Forall_app; split; [done|]; by eapply io_notes).
    all: try by apply Forall_nil.
    apply Forall_forall. intros [e n] Hn. apply list_elem_of_omap in Hn as (e' & He' & Hn).
    rewrite (rg_told _ _ _ _ Hg). apply elem_of_app. right. destruct (event_note s e') as [n'|] eqn:E; [|done]. cbn in Hn. simplify_eq.
    apply list_elem_of_omap. exists e. split; [|done]. rewrite <- (ready_of rd s o (rg_inv _ _ _ _ Hg)).
    rewrite <- (take_drop (Z.to_nat (buffer_count s)) (ready_list s)). set_solver.
Qed.
End Told.

(** ** Runs of the server *)

(** What the server did with a read event: the message and the result of sending it back. *)
Definition echo_entry (s : tcp_service_t) (res : option (nat * Z)) : list (message * Z) :=
  match res with
  | Some (e, code) => match event_note s e with Some (NRead id bs) => [((Z.to_nat id, bs), code)] | _ => [] end
  | None => []
  end.

(** The main thread and the IO thread, interleaved at their calls. *)
Inductive areach (s0 : tcp_service_t) : tcp_service_t → main_pc → list (message * Z) → Prop :=
  | areach_start : areach s0 s0 MAcquire []
  | areach_write s pc log x code s' :
      areach s0 s pc log → (∀ c src n, x ≠ ASend c src n) → enabled s x → exec_wact x s = Some (code, s') →
      areach s0 s' pc log
  | areach_read s pc log x code s' :
      areach s0 s pc log → (∀ r, renabled s r x) → exec_ract x s = Some (code, s') → areach s0 s' pc log
  | areach_main s pc log pc' res s' :
      areach s0 s pc log → main_step pc s = Some ((pc', res), s') → areach s0 s' pc' (log ++ echo_entry s res).

(** The events that were taken and not yet looked at. *)
Definition unseen_notes (pc : main_pc) (r : rhistory) : list note :=
  match pc with MAcquire => [] | MEvents i _ => (drop i (inhand r)).*2 end.

Definition at_pc (pc : main_pc) (r : rhistory) : Prop :=
  match pc with
  | MAcquire => busy r = false
  | MEvents i n => busy r = true ∧ n = Z.of_nat (length (inhand r))
  end.

Definition echoed (log : list (message * Z)) : list message := (filter (λ x, x.2 = TN_SUCCESS) log).*1.
Definition send_code (code : Z) : Prop := code = TN_SUCCESS ∨ code = TN_SEND_NOREQ ∨ code = TN_SEND_NOBUF.

Record app_good (s0 s : tcp_service_t) (pc : main_pc) (log : list (message * Z)) (h : history) (r : rhistory) : Prop := {
  ag_reach : reach s0 s h r;
  ag_pc : at_pc pc r;
  ag_seen : read_messages (heard r) = log.*1 ++ read_messages (unseen_notes pc r);
  ag_taken : taken h = echoed log;
  ag_codes : Forall (λ x, send_code x.2) log;
}.

Section App.
Context (rd wr : Z) (s0 : tcp_service_t) (Hfresh : fresh_service rd wr s0).

Lemma acquire_app s log h r :
  app_good s0 s MAcquire log h r →
  ∃ pc' s', main_step MAcquire s = Some ((pc', None), s') ∧ ∃ r', app_good s0 s' pc' log h r'.
Proof.
  intros [Hr Hpc Hseen Htk Hcd]. destruct (reach_good rd wr s0 s h r Hfresh Hr) as [_ [o Hg] _].
  pose proof Hg as [Hi (_ & _ & Hheld) Hsome _ _]. simpl in Hpc. rewrite Hpc in Hheld.
  destruct (acquire_run rd s o Hi Hheld) as (code & s' & Hrun & _ & Hi' & _).
  eexists _, s'. split; [simpl; by bstep Hrun|]. exists (record_ract s RAcquire s' r).
  assert (exec_ract RAcquire s = Some (code, s')) as Hex by (simpl; by bstep Hrun).
  set (l := take (Z.to_nat (buffer_count s)) (o_ready o)) in *.
  assert (Forall (λ e, is_Some (event_note s e)) l) as Hl by (by apply Forall_take).
  split; [by eapply reach_read| | |done|done].
  - simpl. rewrite (ready_of rd s o Hi). split; [done|]. rewrite <- (length_fmap fst), inhand_fst by done. done.
  - simpl. rewrite (ready_of rd s o Hi), read_messages_app, Hseen, drop_0. simpl. rewrite app_nil_r. f_equal. f_equal.
    fold l. clear -Hl. unfold notes. induction Hl as [|e l [n Hn] _ IH]; [done|]. cbn. rewrite Hn. cbn. by rewrite IH.
Qed.

Lemma release_app s log h r i n :
  app_good s0 s (MEvents i n) log h r → n ≤ Z.of_nat i →
  ∃ s', main_step (MEvents i n) s = Some ((MAcquire, None), s') ∧ ∃ r', app_good s0 s' MAcquire log h r'.
Proof.
  intros [Hr [Hb Hn] Hseen Htk Hcd] Hi. destruct (reach_good rd wr s0 s h r Hfresh Hr) as [_ [o Hg] _].
  destruct (release_step rd s r o Hg Hb) as (s' & o' & Hrun & _). exists s'.
  cbn [main_step]. rewrite (proj2 (Z.ltb_ge _ _)) by lia. split; [simpl in Hrun; by bstep Hrun|].
  exists (record_ract s RRelease s' r). split; [by eapply reach_read|done| |done|done].
  simpl. rewrite Hseen. simpl. rewrite drop_ge by lia. done.
Qed.

(** A taken event, as the main thread finds it. *)
Lemma event_at s h r i n :
  reach s0 s h r → at_pc (MEvents i n) r → Z.of_nat i < n →
  ∃ e nt ev, inhand r !! i = Some (e, nt) ∧ event_updates s !! i = Some (Some e) ∧ event_note s e = Some nt ∧
    tn_events (events s) !! e = Some ev ∧ note_ok s nt ∧
    if ev_type ev =? TN_EVENT_CLIENT_READ
    then ∃ b bf bs, body ev = BRead (Some (cur_ptr (pos bf))) (Some (cur_len (pos bf))) (Some (Some b)) ∧
      tn_buffers (pool_read s) !! b = Some bf ∧ whole bf ∧ mem_load (sv_mem s) (cur_ptr (pos bf)) (cur_len (pos bf)) = Some bs ∧
      nt = NRead (client_id ev) bs
    else read_messages [nt] = [].
Proof.
  intros Hr [Hb Hn] Hi. destruct (reach_good rd wr s0 s h r Hfresh Hr) as [_ [o Hg] _]. pose proof Hg as [Hinv (Hh1 & Hh2 & Hh3) _ _ _].
  rewrite Hb in Hh3. destruct Hh3 as [_ Hup]. destruct (lookup_lt_is_Some_2 (inhand r) i ltac:(lia)) as [[e nt] Hin].
  pose proof (Forall_lookup_1 _ _ _ _ Hh2 Hin) as Hnote. simpl in Hnote.
  assert (o_held o !! i = Some e) as Hheld by (by rewrite <- Hh1, list_lookup_fmap, Hin).
  assert (e ∈ o_ready o ++ o_held o) as He by (apply elem_of_app; right; by eapply list_elem_of_lookup_2).
  destruct (ri_ok _ _ _ Hinv e He) as (ev & Hev & Hread & Hback). exists e, nt, ev. split_and!; try done.
  - assert ((Some <$> o_held o) !! i = Some (Some e)) as Hs by (by rewrite list_lookup_fmap, Hheld).
    rewrite <- Hup in Hs. by apply lookup_take_Some in Hs as [? _].
  - pose proof (reach_heard rd wr s0 s h r Hfresh Hr) as Hho. pose proof (Forall_lookup_1 _ _ _ _ (ho_inhand _ _ Hho) Hin) as Htold.
    exact (proj1 (Forall_forall _ _) (ho_told _ _ Hho) _ Htold).
  - unfold event_note in Hnote. rewrite Hev in Hnote. cbn in Hnote. destruct (Z.eqb_spec (ev_type ev) TN_EVENT_CLIENT_READ) as [Ht|Ht].
    + destruct (Hread Ht) as (b & bf & Hbody & Hbf). rewrite Hbody in Hnote.
      destruct (mem_load _ _ _) as [bs|] eqn:Hld; [|done]. injection Hnote as <-. exists b, bf, bs. split_and!; try done.
      exact (Forall_lookup_1 _ _ _ _ (reach_whole rd wr s0 s h r Hfresh Hr) Hbf).
    + destruct (body ev) as [| |l rr| |p q b] eqn:Hbody; try (by simplify_eq); [destruct l, rr; by simplify_eq|].
      by destruct Ht; eapply Hback.
Qed.

(** A call that leaves its buffer as it is. *)
Lemma same_buffer_run {A} s b bf (f : M bstate A) a :
  tn_buffers (pool_read s) !! b = Some bf → f (bf, sv_mem s) = Some (a, (bf, sv_mem s)) → on_read_pool (on_buffer b f) s = Some (a, s).
Proof.
  intros Hbf Hf. unfold on_read_pool, zoom, on_buffer. simpl. rewrite Hbf, Hf. rewrite list_insert_id by done. by destruct s as [? ? ? ? [] ? ? ? ? ? ? ? ? ? ? ?].
Qed.

(** The bytes of a read event go back as they are. *)
Lemma handle_read_run s h r e ev b bf bs :
  reach s0 s h r → tn_events (events s) !! e = Some ev → note_ok s (NRead (client_id ev) bs) →
  body ev = BRead (Some (cur_ptr (pos bf))) (Some (cur_len (pos bf))) (Some (Some b)) → tn_buffers (pool_read s) !! b = Some bf → whole bf →
  handle_client_read e s = tcp_service_send (Z.to_nat (client_id ev)) (SrcPtr (cur_ptr (pos bf))) (cur_len (pos bf)) s.
Proof.
  intros Hr Hev (Hid & _ & _ & ch & Hch & _) Hbody Hbf Hw. destruct (reach_good rd wr s0 s h r Hfresh Hr) as [_ [o Hg] _].
  unfold handle_client_read. rewrite M_get, Hev, M_lift.
  assert (on_channels (tcp_channel_list_get (client_id ev)) s = Some ((TN_SUCCESS, Some (Z.to_nat (client_id ev))), s)) as Hget.
  { apply lookup_lt_Some in Hch. pose proof (cr_map _ _ (ri_channels _ _ _ (rg_inv _ _ _ _ Hg))) as Hmap.
    unfold on_channels, zoom, tcp_channel_list_get. rewrite M_get, (proj2 (Z.leb_gt _ _)) by lia. unfold mret, M_ret. by destruct s. }
  bstep Hget. rewrite Hbody, M_lift.
  assert (tn_buffer_read_reset (bf, sv_mem s) = Some (tt, (bf, sv_mem s))) as Hreset.
  { unfold tn_buffer_read_reset, modify_buffer, modify. simpl. unfold whole in Hw. rewrite <- Hw. by destruct bf. }
  bstep (same_buffer_run s b bf _ _ Hbf Hreset). bstep (same_buffer_run s b bf tn_buffer_read_ptr _ Hbf eq_refl).
  by bstep (same_buffer_run s b bf tn_buffer_read_length _ Hbf eq_refl).
Qed.

Lemma send_code_run s h c src n :
  wgood wr s h → enabled s (ASend c src n) → ∃ code s', tcp_service_send c src n s = Some (code, s') ∧ send_code code.
Proof.
  intros [(a & free & ready & Hi) _ _ _] (Hn & (ch & Hch & Hsv) & bs & Hrd & Hlen & Hby).
  destruct (send_run wr _ s a free ready c ch src n bs Hi Hch Hsv Hn ltac:(done) Hby)
    as (code & s' & a' & free' & ready' & Hrun & _ & _ & _ & _ & Hsent). exists code, s'. split; [done|]. unfold sent, send_code in *.
  destruct free; [naive_solver|]. destruct (a_free a); [naive_solver|]. case_decide; naive_solver.
Qed.

Lemma echoed_app l1 l2 : echoed (l1 ++ l2) = echoed l1 ++ echoed l2.
Proof. unfold echoed. by rewrite filter_app, fmap_app. Qed.

Lemma event_app s log h r i n :
  app_good s0 s (MEvents i n) log h r → Z.of_nat i < n →
  ∃ res s', main_step (MEvents i n) s = Some ((MEvents (S i) n, res), s') ∧
    ∃ h', app_good s0 s' (MEvents (S i) n) (log ++ echo_entry s res) h' r.
Proof.
  intros [Hr Hpc Hseen Htk Hcd] Hi. destruct (event_at s h r i n Hr Hpc Hi) as (e & nt & ev & Hin & Hup & Hnote & Hev & Hok & Hcase).
  cbn [main_step]. rewrite (proj2 (Z.ltb_lt _ _)) by lia. rewrite M_get, Hup, !M_lift, Hev, M_lift.
  assert (unseen_notes (MEvents i n) r = nt :: unseen_notes (MEvents (S i) n) r) as Hun by (simpl; by rewrite (drop_S _ _ _ Hin)).
  rewrite Hun in Hseen. change (nt :: ?l) with ([nt] ++ l) in Hseen. rewrite read_messages_app in Hseen.
  destruct (ev_type ev =? TN_EVENT_CLIENT_READ).
  - destruct Hcase as (b & bf & bs & Hbody & Hbf & Hw & Hld & ->). pose proof Hok as (Hid & Hne & Hby & ch & Hch & Hsv).
    set (c := Z.to_nat (client_id ev)) in *. set (x := ASend c (SrcPtr (cur_ptr (pos bf))) (cur_len (pos bf))).
    destruct (reach_good rd wr s0 s h r Hfresh Hr) as [Hwg [o Hg] _].
    assert (enabled s x) as Hen.
    { destruct (rep_lookup rd _ _ _ b bf (ri_pool _ _ _ (rg_inv _ _ _ _ Hg)) Hbf) as (_ & _ & _ & _ & _ & _ & [[] _ _ _]).
      pose proof (length_mem_load _ _ _ _ bwf_pos_len Hld) as Hlen. assert (length bs ≠ 0%nat) by (by destruct bs).
      split; [lia|]. split; [by exists ch|]. by exists bs. }
    destruct (send_code_run s h _ _ _ Hwg Hen) as (code & s' & Hrun & Hcode).
    assert (handle_client_read e s = Some (code, s')) as Hrun' by (by rewrite (handle_read_run s h r e ev b bf bs)).
    exists (Some (e, code)), s'. split; [by bstep Hrun'|]. exists (record_wact s x code h). unfold echo_entry. rewrite Hnote. fold c.
    split; [by eapply reach_write|done| | |].
    + rewrite fmap_app, <- (assoc_L (++)). exact Hseen.
    + rewrite echoed_app. simpl. rewrite Hld. destruct (Z.eqb_spec code 0) as [->|Hz]; simpl; rewrite Htk; [done|].
      unfold echoed at 3. rewrite filter_cons_False, app_nil_r by done. done.
    + apply Forall_app. split; [done|]. by apply Forall_singleton.
  - exists None, s. split; [done|]. exists h. simpl. rewrite app_nil_r. split; try done. by rewrite Hcase in Hseen.
Qed.

Lemma main_app s pc log h r :
  app_good s0 s pc log h r →
  ∃ pc' res s', main_step pc s = Some ((pc', res), s') ∧ ∃ h' r', app_good s0 s' pc' (log ++ echo_entry s res) h' r'.
Proof.
  intros Hg. destruct pc as [|i n].
  - destruct (acquire_app s log h r Hg) as (pc' & s' & Hrun & r' & Hg'). exists pc', None, s'. split; [done|]. exists h, r'.
    simpl. by rewrite app_nil_r.
  - destruct (Z.lt_ge_cases (Z.of_nat i) n) as [Hi|Hi].
    + destruct (event_app s log h r i n Hg Hi) as (res & s' & Hrun & h' & Hg'). by exists (MEvents (S i) n), res, s'; eauto.
    + destruct (release_app s log h r i n Hg Hi) as (s' & Hrun & r' & Hg'). exists MAcquire, None, s'. split; [done|]. exists h, r'.
      simpl. by rewrite app_nil_r.
Qed.

(** A callback of the IO thread. *)
Lemma write_app s pc log h r x code s' :
  app_good s0 s pc log h r → (∀ c src n, x ≠ ASend c src n) → enabled s x → exec_wact x s = Some (code, s') →
  app_good s0 s' pc log (record_wact s x code h) r.
Proof.
  intros [Hr Hpc Hseen Htk Hcd] Hx Hen Hrun. split; [by eapply reach_write|done|done| |done].
  destruct x as [c src n| |]; [by destruct (Hx c src n)|done|done].
Qed.

Lemma read_app s pc log h r x code s' :
  app_good s0 s pc log h r → (∀ r, renabled s r x) → exec_ract x s = Some (code, s') →
  app_good s0 s' pc log h (record_ract s x s' r).
Proof.
  intros [Hr Hpc Hseen Htk Hcd] Hen Hrun. split; [by eapply reach_read| | |done|done].
  all: destruct x as [| | | |]; [by destruct pc|by destruct pc|by destruct pc| |].
  all: try by specialize (Hen {| told := []; heard := []; inhand := []; busy := true; arrived := ∅; shown := ∅ |}).
  all: by specialize (Hen {| told := []; heard := []; inhand := []; busy := false; arrived := ∅; shown := ∅ |}).
Qed.

Lemma areach_good s pc log : areach s0 s pc log → ∃ h r, app_good s0 s pc log h r.
Proof.
  induction 1 as [|s pc log x code s' _ (h & r & Hg) Hx Hen Hrun|s pc log x code s' _ (h & r & Hg) Hen Hrun|s pc log pc' res s' _ (h & r & Hg) Hrun].
  - eexists _, _. split; [apply reach_start|done|done|done|by apply Forall_nil].
  - eexists _, _. by eapply write_app.
  - eexists _, _. by eapply read_app.
  - destruct (main_app s pc log h r Hg) as (pc1 & res1 & s1 & Hrun1 & Hg1). rewrite Hrun in Hrun1. by simplify_eq.
Qed.
End App.

(** ** Theorems *)

(** C14. The echo server on the service echoes exactly.  From a service that was set up, after
    any interleaving of the server's calls with the callbacks of the IO thread, whatever the
    system answers, the next call of the server is defined; the read events it has taken are,
    in order, those it has tried to send back and those it has yet to look at; each attempt
    succeeded or was refused because no request or no buffer was free; and the messages the
    service accepted for sending are exactly those of the successful attempts, in order, with
    the bytes of the event, for the client of the event.  The run is one of the service, so
    that what is shown of those applies. *)
Theorem unity_server_echoes rd wr s0 s pc log :
  fresh_service rd wr s0 → areach s0 s pc log →
  is_Some (main_step pc s) ∧
  ∃ h r, reach s0 s h r ∧
    read_messages (heard r) = log.*1 ++ read_messages (unseen_notes pc r) ∧
    Forall (λ x, send_code x.2) log ∧
    taken h = echoed log.
Proof.
  intros Hf Ha. destruct (areach_good rd wr s0 Hf s pc log Ha) as (h & r & Hg).
  destruct (main_app rd wr s0 Hf s pc log h r Hg) as (pc' & res & s' & Hrun & _). split; [by eexists|].
  destruct Hg. by exists h, r.
Qed.

(** The plug-in's send on every branch: without a service, a buffer, a length or a client of
    that number it changes nothing and fails; otherwise it is a send of the service, all of
    whose errors become [TN_ERROR]. *)
Lemma tcpeen_send_cases s h r rd wr s0 client_id buffer length :
  fresh_service rd wr s0 → reach s0 s h r → 0 ≤ client_id →
  tcpeen_service_send client_id buffer length s =
    match sv_priv s with
    | Some _ =>
        if (buffer =? 0) || (length =? 0) || (clients_max (channel_list s) <=? client_id) then Some (TN_ERROR, s)
        else (TN_GUARD tcp_service_send (Z.to_nat client_id) (SrcPtr buffer) length THEN mret TN_SUCCESS) s
    | None => Some (TN_ERROR, s)
    end.
Proof.
  intros Hf Hr Hid. unfold tcpeen_service_send, priv_or_error. rewrite M_get. destruct (sv_priv s); [|done].
  destruct (buffer =? 0); [done|]. destruct (length =? 0); [done|]. cbn [orb].
  assert (on_channels (tcp_channel_list_get client_id) s =
    Some (if clients_max (channel_list s) <=? client_id then (TN_ERROR, NULL) else (TN_SUCCESS, Some (Z.to_nat client_id)), s)) as Hget
    by (unfold on_channels, zoom, tcp_channel_list_get; rewrite M_get; unfold mret, M_ret; by destruct s).
  bstep Hget. by destruct (_ <=? _).
Qed.

(** ** An executed run *)

Inductive astep := AWrite (x : wact) | ARead (x : ract) | AMain.

Definition io_wact (x : wact) : bool := match x with ASend _ _ _ => false | _ => true end.
Definition io_ract (x : ract) : bool := match x with RAcquire | RRelease => false | _ => true end.

Fixpoint run_app (xs : list astep) (s : tcp_service_t) (pc : main_pc) (log : list (message * Z)) :
    option (tcp_service_t * main_pc * list (message * Z)) :=
  match xs with
  | [] => Some (s, pc, log)
  | AWrite x :: xs => if io_wact x && enabledb s x then '(code, s') ← exec_wact x s; run_app xs s' pc log else None
  | ARead x :: xs => if io_ract x && renabledb s no_rhistory x then '(code, s') ← exec_ract x s; run_app xs s' pc log else None
  | AMain :: xs => '(pr, s') ← main_step pc s; run_app xs s' pr.1 (log ++ echo_entry s pr.2)
  end.

Lemma run_app_reach xs : ∀ s0 s pc log s' pc' log',
  areach s0 s pc log → run_app xs s pc log = Some (s', pc', log') → areach s0 s' pc' log'.
Proof.
  induction xs as [|[x|x|] xs IH]; intros s0 s pc log s' pc' log' Ha Hx; simpl in Hx; [by simplify_eq|..].
  - destruct (io_wact x) eqn:Hio; [|done]. destruct (enabledb s x) eqn:He; [|done]. apply option.bind_Some in Hx as ([code s1] & Hrun & Hx).
    eapply IH; [|exact Hx]. eapply areach_write; [done| |by apply enabledb_sound|done]. by intros c src n ->.
  - destruct (io_ract x) eqn:Hio; [|done]. destruct (renabledb s no_rhistory x) eqn:He; [|done].
    apply option.bind_Some in Hx as ([code s1] & Hrun & Hx). eapply IH; [|exact Hx]. eapply areach_read; [done| |done].
    apply renabledb_sound in He. by destruct x.
  - apply option.bind_Some in Hx as ([[pc1 res] s1] & Hrun & Hx). eapply IH; [|exact Hx]. by eapply areach_main.
Qed.

(** Two clients; one sends twice, the other leaves; the callbacks come between the calls. *)
Definition echo_run : list astep :=
  [ARead (RConnect (client 5 161) 0); ARead (RConnect (client 6 162) 0); ARead (RRead 5 (ReadBytes [1; 2; 3])); AMain; AMain;
   ARead (RRead 6 (ReadBytes [9])); AMain; ARead (RRead 5 (ReadBytes [4])); AMain; AMain; AWrite (APrep (λ _, 0)); ARead (RRead 6 ReadEof); AMain; AMain].

Lemma echo_run_ends :
  ∃ s pc, run_app echo_run small_service MAcquire [] = Some (s, pc, [((1%nat, [1; 2; 3]), 0); ((0%nat, [9]), 0)]).
Proof.
  assert (snd <$> run_app echo_run small_service MAcquire [] = Some [((1%nat, [1; 2; 3]), 0); ((0%nat, [9]), 0)]) as Hlog
    by (vm_compute; reflexivity).
  destruct (run_app echo_run small_service MAcquire []) as [[[s pc] log]|]; [|discriminate]. simpl in Hlog. injection Hlog as ->. by exists s, pc.
Qed.

Lemma unity_server_echoes_witness :
  ∃ s pc, run_app echo_run small_service MAcquire [] = Some (s, pc, [((1%nat, [1; 2; 3]), 0); ((0%nat, [9]), 0)]) ∧
    is_Some (main_step pc s) ∧ ∃ h r, reach small_service s h r ∧ taken h = [(1%nat, [1; 2; 3]); (0%nat, [9])].
Proof.
  destruct echo_run_ends as (s & pc & Hrun). exists s, pc.
  destruct (unity_server_echoes 64 128 small_service s pc _ small_fresh
    (run_app_reach _ _ _ _ _ _ _ _ (areach_start small_service) Hrun)) as (Hdef & h & r & Hr & _ & _ & Htaken).
  split; [exact Hrun|]. split; [exact Hdef|]. exists h, r. split; [exact Hr|exact Htaken].
Defined.
