(* ===== verification/Log.v ===== *)
(** The log: src/log.c.

    A message is its level and its text; a FILE is the number of the [fopen] that made it.
    The mutex is the one the set-up installs, and locking it twice or before it is
    initialised is undefined.  [le_fopen k] says whether the [k]th [fopen] succeeds.  The
    registrations with [atexit] are part of the state; [exit] runs the last first, those made
    meanwhile included. *)
From stdpp Require Import base numbers list option gmap sets.
From Stdlib Require Import ZArith Lia.
From S2P Require Import Prelude.

Local Open Scope Z_scope.
Local Open Scope c_scope.

(** ** State *)

Definition TN_LOG_LEVEL_TRACE : Z := 0.
Definition TN_LOG_LEVEL_FATAL : Z := 5.

Inductive text := Started | Completed | Text (n : nat).
Abbreviation line := (Z * text)%type.

Record tn_log_t := {
  lx_udata : bool;
  lx_lock : bool;
  lx_fp : ptr nat;
  lx_level : Z;
  lx_quiet : Z;
  lx_color : Z;
}.

(** [pthread_mutex_t]: not usable, unlocked or locked. *)
Inductive mutex := MNone | MUnlocked | MLocked.

Record log_state := {
  tn_log_mtx : mutex;
  tn_log_fp : ptr nat;
  tn_log_ready : bool;
  tn_log_ctx : tn_log_t;
  lg_opened : nat;
  lg_files : gmap nat (list line);
  lg_closed : gset nat;
  lg_stderr : list line;
  lg_atexit : nat;
}.

Definition zero_ctx : tn_log_t :=
  {| lx_udata := false; lx_lock := false; lx_fp := NULL; lx_level := 0; lx_quiet := 0; lx_color := 0 |}.
Definition zero_log : log_state :=
  {| tn_log_mtx := MNone; tn_log_fp := NULL; tn_log_ready := false; tn_log_ctx := zero_ctx; lg_opened := 0;
     lg_files := ∅; lg_closed := ∅; lg_stderr := []; lg_atexit := 0 |}.

Definition set_mtx x s := {| tn_log_mtx := x; tn_log_fp := tn_log_fp s; tn_log_ready := tn_log_ready s; tn_log_ctx := tn_log_ctx s;
  lg_opened := lg_opened s; lg_files := lg_files s; lg_closed := lg_closed s; lg_stderr := lg_stderr s; lg_atexit := lg_atexit s |}.
Definition set_log_fp x s := {| tn_log_mtx := tn_log_mtx s; tn_log_fp := x; tn_log_ready := tn_log_ready s; tn_log_ctx := tn_log_ctx s;
  lg_opened := lg_opened s; lg_files := lg_files s; lg_closed := lg_closed s; lg_stderr := lg_stderr s; lg_atexit := lg_atexit s |}.
Definition set_ready x s := {| tn_log_mtx := tn_log_mtx s; tn_log_fp := tn_log_fp s; tn_log_ready := x; tn_log_ctx := tn_log_ctx s;
  lg_opened := lg_opened s; lg_files := lg_files s; lg_closed := lg_closed s; lg_stderr := lg_stderr s; lg_atexit := lg_atexit s |}.
Definition set_ctx x s := {| tn_log_mtx := tn_log_mtx s; tn_log_fp := tn_log_fp s; tn_log_ready := tn_log_ready s; tn_log_ctx := x;
  lg_opened := lg_opened s; lg_files := lg_files s; lg_closed := lg_closed s; lg_stderr := lg_stderr s; lg_atexit := lg_atexit s |}.
Definition set_disk n fs cl s := {| tn_log_mtx := tn_log_mtx s; tn_log_fp := tn_log_fp s; tn_log_ready := tn_log_ready s; tn_log_ctx := tn_log_ctx s;
  lg_opened := n; lg_files := fs; lg_closed := cl; lg_stderr := lg_stderr s; lg_atexit := lg_atexit s |}.
Definition set_stderr x s := {| tn_log_mtx := tn_log_mtx s; tn_log_fp := tn_log_fp s; tn_log_ready := tn_log_ready s; tn_log_ctx := tn_log_ctx s;
  lg_opened := lg_opened s; lg_files := lg_files s; lg_closed := lg_closed s; lg_stderr := x; lg_atexit := lg_atexit s |}.
Definition set_atexit x s := {| tn_log_mtx := tn_log_mtx s; tn_log_fp := tn_log_fp s; tn_log_ready := tn_log_ready s; tn_log_ctx := tn_log_ctx s;
  lg_opened := lg_opened s; lg_files := lg_files s; lg_closed := lg_closed s; lg_stderr := lg_stderr s; lg_atexit := x |}.

Definition modify_ctx (f : tn_log_t → tn_log_t) : M log_state unit := modify (λ s, set_ctx (f (tn_log_ctx s)) s).

(** ** The system *)

Definition aws_mutex_init : M log_state unit := modify (set_mtx MUnlocked).
Definition aws_mutex_clean_up : M log_state unit :=
  s ← get; match tn_log_mtx s with MUnlocked => put (set_mtx MNone s) | _ => undef end.
Definition aws_mutex_lock : M log_state unit :=
  s ← get; match tn_log_mtx s with MUnlocked => put (set_mtx MLocked s) | _ => undef end.
Definition aws_mutex_unlock : M log_state unit :=
  s ← get; match tn_log_mtx s with MLocked => put (set_mtx MUnlocked s) | _ => undef end.

Definition fopen (ok : nat → bool) : M log_state (ptr nat) :=
  s ← get;
  let k := lg_opened s in
  if ok k then put (set_disk (S k) (<[k := []]> (lg_files s)) (lg_closed s) s);; mret (Some k)
  else put (set_disk (S k) (lg_files s) (lg_closed s) s);; mret NULL.
(** Using a closed FILE is undefined. *)
Definition fprintf (fp : nat) (l : line) : M log_state unit :=
  s ← get;
  if bool_decide (fp ∈ lg_closed s) then undef
  else ls ← lift (lg_files s !! fp); put (set_disk (lg_opened s) (<[fp := ls ++ [l]]> (lg_files s)) (lg_closed s) s).
Definition fclose (fp : nat) : M log_state unit :=
  s ← get;
  if bool_decide (fp ∈ lg_closed s) then undef else put (set_disk (lg_opened s) (lg_files s) ({[fp]} ∪ lg_closed s) s).

(** ** Operations *)

Definition tn_log_lock_impl (udata : bool) (lock : bool) : M log_state unit :=
  if udata then if lock then aws_mutex_lock else aws_mutex_unlock else undef.

Definition tn_log_color (enable : Z) : M log_state unit :=
  modify_ctx (λ c, {| lx_udata := lx_udata c; lx_lock := lx_lock c; lx_fp := lx_fp c; lx_level := lx_level c; lx_quiet := lx_quiet c; lx_color := enable |}).
Definition tn_log_set_udata (udata : bool) : M log_state unit :=
  modify_ctx (λ c, {| lx_udata := udata; lx_lock := lx_lock c; lx_fp := lx_fp c; lx_level := lx_level c; lx_quiet := lx_quiet c; lx_color := lx_color c |}).
Definition tn_log_set_lock (fn : bool) : M log_state unit :=
  modify_ctx (λ c, {| lx_udata := lx_udata c; lx_lock := fn; lx_fp := lx_fp c; lx_level := lx_level c; lx_quiet := lx_quiet c; lx_color := lx_color c |}).
Definition tn_log_set_fp (fp : ptr nat) : M log_state unit :=
  modify_ctx (λ c, {| lx_udata := lx_udata c; lx_lock := lx_lock c; lx_fp := fp; lx_level := lx_level c; lx_quiet := lx_quiet c; lx_color := lx_color c |}).
Definition tn_log_set_level (level : Z) : M log_state unit :=
  modify_ctx (λ c, {| lx_udata := lx_udata c; lx_lock := lx_lock c; lx_fp := lx_fp c; lx_level := level; lx_quiet := lx_quiet c; lx_color := lx_color c |}).
Definition tn_log_set_quiet (enable : Z) : M log_state unit :=
  modify_ctx (λ c, {| lx_udata := lx_udata c; lx_lock := lx_lock c; lx_fp := lx_fp c; lx_level := lx_level c;
                      lx_quiet := if negb (enable =? 0) then 1 else 0; lx_color := lx_color c |}).

Definition tn_log_lock : M log_state unit :=
  s ← get; if lx_lock (tn_log_ctx s) then tn_log_lock_impl (lx_udata (tn_log_ctx s)) true else mret tt.
Definition tn_log_unlock : M log_state unit :=
  s ← get; if lx_lock (tn_log_ctx s) then tn_log_lock_impl (lx_udata (tn_log_ctx s)) false else mret tt.

(** [level_names[level]] and [level_colors[level]]. *)
Definition level_in_range (level : Z) : bool := (TN_LOG_LEVEL_TRACE <=? level) && (level <=? TN_LOG_LEVEL_FATAL).

(** [tn_log_log] once the log is set up. *)
Definition log_write (level : Z) (msg : text) : M log_state unit :=
  s ← get;
  if level <? lx_level (tn_log_ctx s) then mret tt
  else
    tn_log_lock;;
    s ← get;
    (if lx_quiet (tn_log_ctx s) =? 0 then
       TN_ASSERT (level_in_range level);;
       modify (λ s, set_stderr (lg_stderr s ++ [(level, msg)]) s)
     else mret tt);;
    (match lx_fp (tn_log_ctx s) with
     | Some fp => TN_ASSERT (level_in_range level);; fprintf fp (level, msg)
     | None => mret tt
     end);;
    tn_log_unlock.

Section Env.
Context (le_fopen : nat → bool).

(** [trace] is the message that the set-up logs. *)
Definition log_setup_with (trace : M log_state unit) : M log_state unit :=
  s ← get;
  if tn_log_ready s then mret tt
  else
    modify (set_ready true);;
    modify (set_ctx zero_ctx);;
    tn_log_color 1;;
    aws_mutex_init;;
    tn_log_set_udata true;;
    tn_log_set_lock true;;
    fp ← fopen le_fopen;
    modify (set_log_fp fp);;
    (match fp with Some _ => tn_log_set_fp fp | None => mret tt end);;
    trace;;
    modify (λ s, set_atexit (S (lg_atexit s)) s).

(** The set-up logs, and logging sets up: the fuel is the depth of the calls. *)
Fixpoint log_call (fuel : nat) (level : Z) (msg : text) : M log_state unit :=
  match fuel with
  | O => undef
  | S fuel =>
      s ← get;
      (if tn_log_ready s then mret tt else log_setup_with (log_call fuel TN_LOG_LEVEL_TRACE Started));;
      log_write level msg
  end.

Definition tn_log_log (level : Z) (msg : text) : M log_state unit := log_call 2 level msg.
Definition tn_log_setup : M log_state unit := log_setup_with (tn_log_log TN_LOG_LEVEL_TRACE Started).

Definition tn_log_cleanup : M log_state unit :=
  tn_log_log TN_LOG_LEVEL_TRACE Completed;;
  s ← get;
  if negb (tn_log_ready s) then mret tt
  else
    modify (set_ready false);;
    aws_mutex_clean_up;;
    s ← get;
    match tn_log_fp s with Some fp => fclose fp | None => mret tt end.

(** [exit]: one registered function after the other. *)
Fixpoint exit_loop (fuel : nat) : M log_state unit :=
  match fuel with
  | O => undef
  | S fuel =>
      s ← get;
      match lg_atexit s with
      | O => mret tt
      | S n => put (set_atexit n s);; tn_log_cleanup;; exit_loop fuel
      end
  end.
End Env.

(** ** Specification: what is written, without mutex and set-up *)

Inductive log_op :=
  | LLog (level : Z) (msg : text)
  | LSetup
  | LCleanup
  | LLevel (level : Z)
  | LQuiet (enable : Z)
  | LColor (enable : Z)
  | LOpen.

Record log_spec := {
  sp_ready : bool;
  sp_level : Z;
  sp_quiet : bool;
  sp_file : option nat;
  sp_own : option nat;
  sp_opened : nat;
  sp_files : gmap nat (list line);
  sp_stderr : list line;
}.

Definition spec_write (level : Z) (msg : text) (a : log_spec) : log_spec :=
  if level <? sp_level a then a
  else {| sp_ready := sp_ready a; sp_level := sp_level a; sp_quiet := sp_quiet a; sp_file := sp_file a; sp_own := sp_own a; sp_opened := sp_opened a;
          sp_files := match sp_file a with Some f => alter (λ ls, ls ++ [(level, msg)]) f (sp_files a) | None => sp_files a end;
          sp_stderr := if sp_quiet a then sp_stderr a else sp_stderr a ++ [(level, msg)] |}.

(** A file is opened and becomes the log's. *)
Definition spec_open (ok : bool) (own : bool) (a : log_spec) : log_spec :=
  let f := if ok then Some (sp_opened a) else None in
  {| sp_ready := sp_ready a; sp_level := sp_level a; sp_quiet := sp_quiet a; sp_file := f; sp_own := if own then f else sp_own a;
     sp_opened := S (sp_opened a); sp_files := if ok then <[sp_opened a := []]> (sp_files a) else sp_files a; sp_stderr := sp_stderr a |}.

Definition spec_set (ready : bool) (level : Z) (quiet : bool) (a : log_spec) : log_spec :=
  {| sp_ready := ready; sp_level := level; sp_quiet := quiet; sp_file := sp_file a; sp_own := sp_own a; sp_opened := sp_opened a;
     sp_files := sp_files a; sp_stderr := sp_stderr a |}.

(** The settings are lost in a set-up. *)
Definition spec_setup (ok : nat → bool) (a : log_spec) : log_spec :=
  if sp_ready a then a else spec_write TN_LOG_LEVEL_TRACE Started (spec_open (ok (sp_opened a)) true (spec_set true 0 false a)).

Definition spec_log (ok : nat → bool) (op : log_op) (a : log_spec) : log_spec :=
  match op with
  | LLog level msg => spec_write level msg (spec_setup ok a)
  | LSetup => spec_setup ok a
  | LCleanup => let a := spec_write TN_LOG_LEVEL_TRACE Completed (spec_setup ok a) in spec_set false (sp_level a) (sp_quiet a) a
  | LLevel level => spec_set (sp_ready a) level (sp_quiet a) a
  | LQuiet enable => spec_set (sp_ready a) (sp_level a) (negb (enable =? 0)) a
  | LColor _ => a
  | LOpen => spec_open true false a
  end.

Definition do_log (ok : nat → bool) (op : log_op) : M log_state unit :=
  match op with
  | LLog level msg => tn_log_log ok level msg
  | LSetup => tn_log_setup ok
  | LCleanup => tn_log_cleanup ok
  | LLevel level => tn_log_set_level level
  | LQuiet enable => tn_log_set_quiet enable
  | LColor enable => tn_log_color enable
  | LOpen => fp ← fopen (λ _, true); tn_log_set_fp fp
  end.

Fixpoint do_logs (ok : nat → bool) (ops : list log_op) : M log_state unit :=
  match ops with [] => mret tt | op :: ops => do_log ok op;; do_logs ok ops end.

(** The levels of the messages are those of [tn_log_level_t]. *)
Definition valid_log (op : log_op) : Prop := match op with LLog level _ => TN_LOG_LEVEL_TRACE ≤ level ≤ TN_LOG_LEVEL_FATAL | _ => True end.

Definition log_view (s : log_state) : log_spec :=
  {| sp_ready := tn_log_ready s; sp_level := lx_level (tn_log_ctx s); sp_quiet := negb (lx_quiet (tn_log_ctx s) =? 0);
     sp_file := lx_fp (tn_log_ctx s); sp_own := tn_log_fp s; sp_opened := lg_opened s; sp_files := lg_files s; sp_stderr := lg_stderr s |}.

(** ** Invariant *)

Definition usable (s : log_state) (fp : ptr nat) : Prop := ∀ f, fp = Some f → is_Some (lg_files s !! f) ∧ f ∉ lg_closed s.

Record log_ok (s : log_state) : Prop := {
  lo_ready : tn_log_ready s = true →
    tn_log_mtx s = MUnlocked ∧ lx_lock (tn_log_ctx s) = true ∧ lx_udata (tn_log_ctx s) = true ∧
    usable s (lx_fp (tn_log_ctx s)) ∧ usable s (tn_log_fp s);
  lo_opened : ∀ f, (lg_opened s ≤ f)%nat → lg_files s !! f = None ∧ f ∉ lg_closed s;
}.

Section Facts.
Context (ok : nat → bool).

Lemma range_ok level : TN_LOG_LEVEL_TRACE ≤ level ≤ TN_LOG_LEVEL_FATAL → level_in_range level = true.
Proof. intros H. unfold level_in_range. lia. Qed.

(** A message goes where the settings say, under the lock. *)
Lemma log_write_run s level msg :
  tn_log_ready s = true → log_ok s → TN_LOG_LEVEL_TRACE ≤ level ≤ TN_LOG_LEVEL_FATAL →
  ∃ s', log_write level msg s = Some (tt, s') ∧ log_ok s' ∧ log_view s' = spec_write level msg (log_view s) ∧
    lg_atexit s' = lg_atexit s ∧ tn_log_ready s' = true.
Proof.
  intros Hr [Hready Hop] Hl. destruct (Hready Hr) as (Hm & Hlk & Hud & Hu1 & Hu2). destruct s as [mtx lfp rdy [ud lk fp lv qu co] n fs cl er at'].
  simpl in *. subst. unfold log_write, spec_write. rewrite M_get. cbn [tn_log_ctx lx_level log_view sp_level].
  destruct (level <? lv) eqn:Hlt; [eexists; split; [reflexivity|]; by split_and!|].
  unfold tn_log_lock, tn_log_unlock, tn_log_lock_impl, aws_mutex_lock, aws_mutex_unlock, fprintf. rewrite (range_ok level Hl).
  destruct fp as [f|].
  2:{ destruct (qu =? 0) eqn:Hq; (eexists; split; [mrun; rewrite Hq; reflexivity|]); unfold log_view; simpl; rewrite Hq; by split_and!. }
  destruct (Hu1 f eq_refl) as [[ls Hls] Hcl]. simpl in Hls, Hcl. unfold log_view. simpl. rewrite (alter_here _ f fs ls Hls).
  assert (∀ er, log_ok {| tn_log_mtx := MUnlocked; tn_log_fp := lfp; tn_log_ready := true;
    tn_log_ctx := {| lx_udata := true; lx_lock := true; lx_fp := Some f; lx_level := lv; lx_quiet := qu; lx_color := co |};
    lg_opened := n; lg_files := <[f := ls ++ [(level, msg)]]> fs; lg_closed := cl; lg_stderr := er; lg_atexit := at' |}) as Hok'.
  { intros er'. assert (∀ g, is_Some (fs !! g) → is_Some (<[f := ls ++ [(level, msg)]]> fs !! g)) as Hdom
      by (intros g Hg; rewrite lookup_insert; by case_decide).
    split; simpl; [|intros g Hg].
    - intros _. split_and!; try done; intros g Hg; [destruct (Hu1 g Hg)|destruct (Hu2 g Hg)]; auto.
    - destruct (Hop g Hg) as [Hn ?]. split; [|done]. rewrite lookup_insert_ne; [done|]. intros ->. congruence. }
  destruct (qu =? 0) eqn:Hq; (eexists; split; [mrun; rewrite Hq; simpl; rewrite bool_decide_eq_false_2 by done; rewrite Hls; reflexivity|]);
    simpl; rewrite ?Hq; split_and!; try done; apply Hok'.
Qed.

(** The set-up leaves a usable log with its own file. *)
Lemma log_setup_run s :
  log_ok s →
  ∃ s', log_setup_with ok (log_call ok 1 TN_LOG_LEVEL_TRACE Started) s = Some (tt, s') ∧ log_ok s' ∧ tn_log_ready s' = true ∧
    log_view s' = spec_setup ok (log_view s) ∧ lg_atexit s' = if tn_log_ready s then lg_atexit s else S (lg_atexit s).
Proof.
  intros Hok. pose proof Hok as [_ Hop]. unfold log_setup_with. rewrite M_get. destruct (tn_log_ready s) eqn:Hr.
  { exists s. unfold spec_setup, log_view. simpl. by rewrite Hr. }
  destruct s as [mtx lfp rdy ctx n fs cl er at']. simpl in Hr, Hop. subst rdy. clear Hok.
  set (fp := if ok n then Some n else NULL). set (s1 := {| tn_log_mtx := MUnlocked; tn_log_fp := fp; tn_log_ready := true;
    tn_log_ctx := {| lx_udata := true; lx_lock := true; lx_fp := fp; lx_level := 0; lx_quiet := 0; lx_color := 1 |};
    lg_opened := S n; lg_files := if ok n then <[n := []]> fs else fs; lg_closed := cl; lg_stderr := er; lg_atexit := at' |}).
  assert (log_ok s1) as Hok1.
  { split; simpl; [|intros g Hg].
    - intros _. assert (usable s1 fp) as Hu; [|done]. intros g Hg. unfold fp in Hg. simpl. destruct (ok n); [|done].
      injection Hg as <-. rewrite lookup_insert_eq. split; [by eexists|]. by apply Hop.
    - destruct (Hop g ltac:(lia)) as [? ?]. split; [|done]. destruct (ok n); [|done]. by rewrite lookup_insert_ne by lia. }
  destruct (log_write_run s1 TN_LOG_LEVEL_TRACE Started eq_refl Hok1 ltac:(done)) as (s2 & Hrun & Hok2 & Hv & Ha & Hr2).
  exists (set_atexit (S (lg_atexit s2)) s2). split.
  { transitivity ((log_call ok 1 TN_LOG_LEVEL_TRACE Started;; modify (λ s, set_atexit (S (lg_atexit s)) s)) s1).
    - unfold tn_log_color, aws_mutex_init, tn_log_set_udata, tn_log_set_lock, modify_ctx, fopen. rewrite !M_modify, M_assoc, M_get.
      cbn [lg_opened set_ctx set_mtx set_ready tn_log_ctx set_disk]. unfold s1, fp. by destruct (ok n).
    - assert (log_call ok 1 TN_LOG_LEVEL_TRACE Started s1 = Some (tt, s2)) as Hcall by exact Hrun.
      by rewrite (bind_Some _ _ _ _ _ Hcall). }
  split; [by destruct Hok2|]. split; [done|]. split; [|simpl; by rewrite Ha].
  change (log_view (set_atexit (S (lg_atexit s2)) s2)) with (log_view s2). rewrite Hv. unfold spec_setup, log_view, spec_open, spec_set. simpl.
  unfold fp. by destruct (ok n).
Qed.

Definition exits (s : log_state) : nat := if tn_log_ready s then lg_atexit s else S (lg_atexit s).

Lemma log_run s level msg :
  log_ok s → TN_LOG_LEVEL_TRACE ≤ level ≤ TN_LOG_LEVEL_FATAL →
  ∃ s', tn_log_log ok level msg s = Some (tt, s') ∧ log_ok s' ∧ tn_log_ready s' = true ∧
    log_view s' = spec_write level msg (spec_setup ok (log_view s)) ∧ lg_atexit s' = exits s.
Proof.
  intros Hok Hl. destruct (log_setup_run s Hok) as (s1 & Hrun1 & Hok1 & Hr1 & Hv1 & Ha1).
  destruct (log_write_run s1 level msg Hr1 Hok1 Hl) as (s2 & Hrun2 & Hok2 & Hv2 & Ha2 & Hr2).
  exists s2. split_and!; [|done|done|congruence|unfold exits; congruence].
  unfold tn_log_log. cbn [log_call]. rewrite M_get. destruct (tn_log_ready s) eqn:Hr.
  - rewrite M_left_id. assert (s1 = s) as <-; [|done].
    unfold log_setup_with in Hrun1. rewrite M_get, Hr in Hrun1. unfold mret, M_ret in Hrun1. by injection Hrun1.
  - by rewrite (bind_Some _ _ _ _ _ Hrun1).
Qed.

Lemma setup_run_log s :
  log_ok s → ∃ s', tn_log_setup ok s = Some (tt, s') ∧ log_ok s' ∧ tn_log_ready s' = true ∧
    log_view s' = spec_setup ok (log_view s) ∧ lg_atexit s' = exits s.
Proof.
  intros Hok. destruct (log_setup_run s Hok) as (s1 & Hrun1 & Hok1 & Hr1 & Hv1 & Ha1). exists s1. split_and!; try done.
  rewrite <- Hrun1. unfold tn_log_setup, log_setup_with. rewrite !M_get. destruct (tn_log_ready s); [done|].
  unfold tn_log_color, aws_mutex_init, tn_log_set_udata, tn_log_set_lock, modify_ctx, fopen. rewrite !M_modify, !M_assoc, !M_get.
  cbn [lg_opened set_ctx set_mtx set_ready tn_log_ctx set_disk]. by destruct (ok (lg_opened s)).
Qed.

Lemma cleanup_run_log s :
  log_ok s → ∃ s', tn_log_cleanup ok s = Some (tt, s') ∧ log_ok s' ∧ tn_log_ready s' = false ∧
    log_view s' = spec_log ok LCleanup (log_view s) ∧ lg_atexit s' = exits s.
Proof.
  intros Hok. destruct (log_run s TN_LOG_LEVEL_TRACE Completed Hok ltac:(done)) as (s1 & Hrun & [Hready Hop] & Hr & Hv & Ha).
  destruct (Hready Hr) as (Hm & _ & _ & _ & Hu). unfold tn_log_cleanup. rewrite (bind_Some _ _ _ _ _ Hrun), M_get, Hr. cbn [negb].
  rewrite M_modify. unfold aws_mutex_clean_up, fclose. rewrite M_assoc, M_get. cbn [tn_log_mtx set_ready]. rewrite Hm, M_put, M_get.
  cbn [tn_log_fp set_ready set_mtx]. cbn [spec_log]. rewrite <- Hv. destruct (tn_log_fp s1) as [f|] eqn:Hf.
  - destruct (Hu f eq_refl) as [Hlive Hcl]. rewrite M_get. cbn [lg_closed set_ready set_mtx]. rewrite bool_decide_eq_false_2 by done.
    eexists. split; [reflexivity|]. split; [|unfold log_view; simpl; by rewrite Hf]. split; [done|]. simpl. intros g Hg. destruct (Hop g Hg) as [Hn ?]. split; [done|].
    destruct (decide (g = f)) as [->|]; [rewrite Hn in Hlive; by destruct Hlive|set_solver].
  - eexists. split; [reflexivity|]. split; [|unfold log_view; simpl; by rewrite Hf]. by split.
Qed.

(** Settings change nothing else. *)
Lemma ctx_ok s c :
  log_ok s → lx_lock c = lx_lock (tn_log_ctx s) → lx_udata c = lx_udata (tn_log_ctx s) → lx_fp c = lx_fp (tn_log_ctx s) → log_ok (set_ctx c s).
Proof. intros [Hready Hop] H1 H2 H3. split; simpl; [|done]. rewrite H1, H2, H3. exact Hready. Qed.

(** The registrations after a call. *)
Definition exits_after (op : log_op) (s : log_state) : nat :=
  match op with LLog _ _ | LSetup | LCleanup => exits s | _ => lg_atexit s end.

Lemma log_op_run s op :
  log_ok s → valid_log op → ∃ s', do_log ok op s = Some (tt, s') ∧ log_ok s' ∧ log_view s' = spec_log ok op (log_view s) ∧
    lg_atexit s' = exits_after op s.
Proof.
  intros Hok Hv. destruct op as [level msg| | |level|enable|enable|]; cbn [do_log spec_log exits_after].
  - destruct (log_run s level msg Hok Hv) as (s' & ? & ? & _ & ? & ?). by exists s'.
  - destruct (setup_run_log s Hok) as (s' & ? & ? & _ & ? & ?). by exists s'.
  - destruct (cleanup_run_log s Hok) as (s' & ? & ? & _ & ? & ?). by exists s'.
  - eexists. split; [reflexivity|]. by split; [apply ctx_ok|].
  - eexists. split; [reflexivity|]. split; [by apply ctx_ok|]. split; [|done]. unfold log_view, spec_set. simpl. by destruct (enable =? 0).
  - eexists. split; [reflexivity|]. by split; [apply ctx_ok|].
  - eexists. split; [reflexivity|]. split; [|done]. destruct Hok as [Hready Hop]. destruct (Hop (lg_opened s) ltac:(lia)) as [Hn Hc]. split; simpl.
    + intros Hr. destruct (Hready Hr) as (? & ? & ? & _ & Hu). split_and!; try done.
      * intros f [= <-]. simpl. rewrite lookup_insert_eq. split; [by eexists|done].
      * intros f Hf. destruct (Hu f Hf) as [? ?]. simpl. rewrite lookup_insert. split; [by case_decide|done].
    + intros f Hf. rewrite lookup_insert_ne by lia. apply Hop. lia.
Qed.

Fixpoint spec_logs (ops : list log_op) (a : log_spec) : log_spec :=
  match ops with [] => a | op :: ops => spec_logs ops (spec_log ok op a) end.

Lemma logs_run ops : ∀ s,
  log_ok s → Forall valid_log ops → ∃ s', do_logs ok ops s = Some (tt, s') ∧ log_ok s' ∧ log_view s' = spec_logs ops (log_view s).
Proof.
  induction ops as [|op ops IH]; intros s Hok Hv; [by exists s|]. apply Forall_cons in Hv as [Hv1 Hv2]. cbn [do_logs spec_logs].
  destruct (log_op_run s op Hok Hv1) as (s1 & Hrun & Hok1 & Hs1 & _). rewrite (bind_Some _ _ _ _ _ Hrun), <- Hs1. by apply IH.
Qed.

Lemma zero_log_ok : log_ok zero_log.
Proof. split; [done|]. intros f _. split; [apply lookup_empty|set_solver]. Qed.

(** ** The end of the program *)

Definition is_cleanup (op : log_op) : bool := match op with LCleanup => true | _ => false end.
Definition cleanups (ops : list log_op) : nat := length (filter is_cleanup ops).

Lemma no_cleanups ops : cleanups ops = 0%nat ↔ LCleanup ∉ ops.
Proof.
  unfold cleanups. rewrite length_zero_iff_nil. split.
  - intros Hnil Hin. assert (LCleanup ∈ filter is_cleanup ops) as Hf by (by apply list_elem_of_filter). rewrite Hnil in Hf. by apply not_elem_of_nil in Hf.
  - intros Hni. apply elem_of_nil_inv. intros op [Hop Hin]%list_elem_of_filter. by destruct op.
Qed.

Lemma spec_write_ready level msg a : sp_ready (spec_write level msg a) = sp_ready a.
Proof. unfold spec_write. by destruct (_ <? _). Qed.

Lemma spec_setup_ready a : sp_ready (spec_setup ok a) = true.
Proof. unfold spec_setup. destruct (sp_ready a) eqn:E; [done|]. by rewrite spec_write_ready. Qed.

(** Each clean-up leaves one registration too many. *)
Lemma exits_op s s' op :
  log_view s' = spec_log ok op (log_view s) → lg_atexit s' = exits_after op s → exits s' = (cleanups [op] + exits s)%nat.
Proof.
  intros Hv Ha. apply (f_equal sp_ready) in Hv. unfold exits. destruct op; simpl in *; rewrite ?spec_write_ready, ?spec_setup_ready in Hv;
    rewrite Hv, Ha; try done.
Qed.

Lemma exits_logs ops : ∀ s s',
  log_ok s → Forall valid_log ops → do_logs ok ops s = Some (tt, s') → log_ok s' ∧ exits s' = (cleanups ops + exits s)%nat.
Proof.
  induction ops as [|op ops IH]; intros s s' Hok Hv Hrun; [unfold do_logs, mret, M_ret in Hrun; by simplify_eq|].
  apply Forall_cons in Hv as [Hv1 Hv2]. cbn [do_logs] in Hrun. destruct (log_op_run s op Hok Hv1) as (s1 & Hrun1 & Hok1 & Hs1 & Ha1).
  rewrite (bind_Some _ _ _ _ _ Hrun1) in Hrun. destruct (IH s1 s' Hok1 Hv2 Hrun) as [Hok' He]. split; [done|].
  rewrite He, (exits_op s s1 op Hs1 Ha1). unfold cleanups. rewrite !filter_cons. destruct op; simpl; lia.
Qed.

Lemma atexit_ok s n : log_ok s → log_ok (set_atexit n s).
Proof. intros []. by split. Qed.

Lemma exit_step s n fuel :
  log_ok s → lg_atexit s = S n →
  ∃ s', exit_loop ok (S fuel) s = exit_loop ok fuel s' ∧ log_ok s' ∧ tn_log_ready s' = false ∧ lg_atexit s' = if tn_log_ready s then n else S n.
Proof.
  intros Hok Hn. destruct (cleanup_run_log (set_atexit n s) (atexit_ok s n Hok)) as (s' & Hrun & Hok' & Hr & _ & Ha).
  exists s'. cbn [exit_loop]. rewrite M_get, Hn, M_put, (bind_Some _ _ _ _ _ Hrun). done.
Qed.

Lemma exit_loops fuel : ∀ s n, log_ok s → tn_log_ready s = false → lg_atexit s = S n → exit_loop ok fuel s = None.
Proof.
  induction fuel as [|fuel IH]; intros s n Hok Hr Hn; [done|]. destruct (exit_step s n fuel Hok Hn) as (s' & -> & Hok' & Hr' & Ha').
  rewrite Hr in Ha'. by apply (IH s' n).
Qed.

Lemma exit_ends s : log_ok s → (1 ≤ exits s)%nat → (exits s = 1%nat ↔ ∃ fuel s', exit_loop ok fuel s = Some (tt, s')).
Proof.
  intros Hok. unfold exits. destruct (lg_atexit s) as [|n] eqn:Hn.
  - destruct (tn_log_ready s); [lia|]. intros _. split; [|done]. intros _. exists 1%nat, s. cbn [exit_loop]. by rewrite M_get, Hn.
  - intros _. split.
    + intros He. destruct (tn_log_ready s) eqn:Hr; [|done]. injection He as ->. destruct (exit_step s 0 1 Hok Hn) as (s' & Hrun & Hok' & Hr' & Ha').
      rewrite Hr in Ha'. exists 2%nat, s'. rewrite Hrun. cbn [exit_loop]. by rewrite M_get, Ha'.
    + intros (fuel & s' & Hrun). destruct fuel as [|fuel]; [done|]. destruct (exit_step s n fuel Hok Hn) as (s1 & Hrun1 & Hok1 & Hr1 & Ha1).
      rewrite Hrun1 in Hrun. destruct (tn_log_ready s); [destruct n as [|n]; [done|]|]; by rewrite (exit_loops fuel s1 n) in Hrun.
Qed.
End Facts.

(** ** Theorems *)


(** A program that has called [tn_log_cleanup] never exits: the function is registered
    again by each message after a clean-up, its own included, so that [exit] runs it without
    end; and a program that has not called it exits. *)
Theorem exit_ends_without_cleanup ok ops s :
  Forall valid_log ops → do_logs ok ops zero_log = Some (tt, s) →
  (∃ fuel s', exit_loop ok fuel s = Some (tt, s')) ↔ LCleanup ∉ ops.
Proof.
  intros Hv Hrun. destruct (exits_logs ok ops zero_log s zero_log_ok Hv Hrun) as [Hok He]. change (exits zero_log) with 1%nat in He.
  rewrite <- (exit_ends ok s Hok) by lia. rewrite <- no_cleanups. lia.
Qed.

(** ** Witnesses *)

(** The level set before the first message is lost; later settings hold. *)
Definition log_run_ops : list log_op :=
  [LLevel 4; LLog 1 (Text 1); LLevel 3; LLog 2 (Text 2); LLog 4 (Text 3); LQuiet 1; LOpen; LLog 5 (Text 4); LCleanup; LLog 0 (Text 5)].

Lemma log_ops_valid : Forall valid_log log_run_ops.
Proof. repeat (apply Forall_cons; split; [simpl; unfold TN_LOG_LEVEL_TRACE, TN_LOG_LEVEL_FATAL; first [exact I|lia]|]). apply Forall_nil. exact I. Qed.


Lemma exit_ends_without_cleanup_witness :
  ∃ s, do_logs (λ _, true) log_run_ops zero_log = Some (tt, s) ∧ ¬ ∃ fuel s', exit_loop (λ _, true) fuel s = Some (tt, s').
Proof.
  destruct (logs_run (λ _, true) log_run_ops zero_log zero_log_ok log_ops_valid) as (s & Hrun & _). exists s. split; [exact Hrun|].
  intros Hex. apply (exit_ends_without_cleanup (λ _, true) log_run_ops s log_ops_valid Hrun) in Hex. apply Hex.
  unfold log_run_ops. do 8 right. left.
Defined.
