(* ===== verification/Platform.v ===== *)
(** The wrappers around the system: threads (src/thread.c over deps/aws-c-common
    posix/thread.c), the size of libuv's thread pool, allocators (src/allocator.c),
    identifiers (src/uuid.c) and system information (src/system.c). *)
From stdpp Require Import base numbers list option gmap sets.
From Stdlib Require Import ZArith Lia.
From S2P Require Import Prelude Inet CmdArgs Time.

Local Open Scope Z_scope.
Local Open Scope c_scope.

(** ** Threads *)

Module Thread.

Definition AWS_THREAD_NOT_CREATED : Z := 1.
Definition AWS_THREAD_JOINABLE : Z := 2.
Definition AWS_THREAD_JOIN_COMPLETED : Z := 3.
Definition EPERM : Z := 1.
Definition ESRCH : Z := 3.
Definition EAGAIN : Z := 11.
Definition ENOMEM : Z := 12.
Definition EINVAL : Z := 22.
Definition EDEADLK : Z := 35.
Definition AWS_OP_SUCCESS : Z := 0.
Definition AWS_OP_ERR : Z := -1.

Record tn_thread_t := { detach_state : Z; thread_id : nat }.

(** The handles by address; the threads that were created and neither joined nor detached;
    the number of the next thread; the blocks that hand a function over to a thread and were
    not released. *)
Record threads := {
  th_handles : gmap nat tn_thread_t;
  th_live : gset nat;
  th_next : nat;
  th_wrappers : nat;
}.

Definition set_handle (h : nat) (t : tn_thread_t) (s : threads) : threads :=
  {| th_handles := <[h := t]> (th_handles s); th_live := th_live s; th_next := th_next s; th_wrappers := th_wrappers s |}.
Definition set_live (l : gset nat) (s : threads) : threads :=
  {| th_handles := th_handles s; th_live := l; th_next := th_next s; th_wrappers := th_wrappers s |}.

(** The answers of the system to a launch: of [pthread_attr_init], of the allocator and of
    [pthread_create]. *)
Record launch_env := { le_attr : Z; le_wrapper : bool; le_create : Z }.

(** A thread that was created releases its wrapper. *)
Definition pthread_create (h : nat) (code : Z) : M threads Z :=
  s ← get;
  t ← lift (th_handles s !! h);
  if code =? 0 then
    put {| th_handles := <[h := {| detach_state := detach_state t; thread_id := th_next s |}]> (th_handles s);
           th_live := {[th_next s]} ∪ th_live s; th_next := S (th_next s); th_wrappers := th_wrappers s |};;
    mret 0
  else
    put {| th_handles := th_handles s; th_live := th_live s; th_next := th_next s; th_wrappers := S (th_wrappers s) |};;
    mret code.
(** Joining or detaching a thread twice is undefined. *)
Definition pthread_join (id : nat) (code : Z) : M threads Z :=
  s ← get;
  TN_ASSERT (bool_decide (id ∈ th_live s));;
  if code =? 0 then put (set_live (th_live s ∖ {[id]}) s);; mret 0 else mret code.
Definition pthread_detach (id : nat) : M threads unit :=
  s ← get;
  TN_ASSERT (bool_decide (id ∈ th_live s));;
  put (set_live (th_live s ∖ {[id]}) s).

Definition aws_thread_init (h : nat) : M threads Z :=
  s ← get;
  lift (th_handles s !! h);;
  put (set_handle h {| detach_state := AWS_THREAD_NOT_CREATED; thread_id := 0 |} s);;
  mret AWS_OP_SUCCESS.

(** The label [cleanup] of [aws_thread_launch]. *)
Definition launch_result (attr_return : Z) (allocation_failed : bool) : Z :=
  if attr_return =? EINVAL then AWS_OP_ERR
  else if attr_return =? EAGAIN then AWS_OP_ERR
  else if attr_return =? EPERM then AWS_OP_ERR
  else if allocation_failed || (attr_return =? ENOMEM) then AWS_OP_ERR
  else AWS_OP_SUCCESS.

(** With the default options: a stack size of 0. *)
Definition aws_thread_launch (h : nat) (env : launch_env) : M threads Z :=
  if negb (le_attr env =? 0) then mret (launch_result (le_attr env) false)
  else if negb (le_wrapper env) then mret (launch_result 0 true)
  else
    attr_return ← pthread_create h (le_create env);
    if negb (attr_return =? 0) then mret (launch_result attr_return false)
    else
      s ← get;
      t ← lift (th_handles s !! h);
      put (set_handle h {| detach_state := AWS_THREAD_JOINABLE; thread_id := thread_id t |} s);;
      mret (launch_result attr_return false).

(** [code] is the answer of [pthread_join]. *)
Definition aws_thread_join (h : nat) (code : Z) : M threads Z :=
  s ← get;
  t ← lift (th_handles s !! h);
  if detach_state t =? AWS_THREAD_JOINABLE then
    err_no ← pthread_join (thread_id t) code;
    if (err_no =? EINVAL) || (err_no =? ESRCH) || (err_no =? EDEADLK) then mret AWS_OP_ERR
    else
      s ← get;
      put (set_handle h {| detach_state := AWS_THREAD_JOIN_COMPLETED; thread_id := thread_id t |} s);;
      mret AWS_OP_SUCCESS
  else mret AWS_OP_SUCCESS.

Definition aws_thread_clean_up (h : nat) : M threads unit :=
  s ← get;
  t ← lift (th_handles s !! h);
  if detach_state t =? AWS_THREAD_JOINABLE then pthread_detach (thread_id t) else mret tt.

Definition tn_thread_setup (h : nat) : M threads Z := aws_thread_init h.
Definition tn_thread_launch (h : nat) (env : launch_env) : M threads Z := tn_thread_setup h;; aws_thread_launch h env.
Definition tn_thread_get_state (h : nat) : M threads Z := s ← get; t ← lift (th_handles s !! h); mret (detach_state t).
Definition tn_thread_get_id (h : nat) : M threads nat := s ← get; t ← lift (th_handles s !! h); mret (thread_id t).
Definition tn_thread_join (h : nat) (code : Z) : M threads Z := aws_thread_join h code.
Definition tn_thread_cleanup (h : nat) : M threads unit := aws_thread_clean_up h.

(** ** Programs *)

Inductive thread_op := OLaunch (h : nat) (env : launch_env) | OJoin (h : nat) (code : Z) | OCleanup (h : nat).

Definition do_op (op : thread_op) : M threads Z :=
  match op with
  | OLaunch h env => tn_thread_launch h env
  | OJoin h code => tn_thread_join h code
  | OCleanup h => tn_thread_cleanup h;; mret 0
  end.

(** The specification: which thread a handle stands for. *)
Abbreviation owners := (gmap nat nat).

(** A handle is launched when it stands for no thread, and joined or cleaned up any time
    before or after but only once a thread was detached through it. *)
Abbreviation spent := (gset nat).

Definition valid_op (s : threads) (o : owners) (d : spent) (op : thread_op) : Prop :=
  match op with
  | OLaunch h _ => is_Some (th_handles s !! h) ∧ o !! h = None
  | OJoin h code => is_Some (th_handles s !! h) ∧ (h ∉ d) ∧ (code = 0 ∨ code = EINVAL ∨ code = ESRCH ∨ code = EDEADLK)
  | OCleanup h => is_Some (th_handles s !! h) ∧ h ∉ d
  end.

Definition next_owners (s s' : threads) (o : owners) (op : thread_op) : owners :=
  match op with
  | OLaunch h _ => if decide (th_next s = th_next s') then o else <[h := th_next s]> o
  | OJoin h code => if code =? 0 then delete h o else o
  | OCleanup h => delete h o
  end.
Definition next_spent (o : owners) (d : spent) (op : thread_op) : spent :=
  match op with
  | OLaunch h _ => d ∖ {[h]}
  | OJoin _ _ => d
  | OCleanup h => if decide (is_Some (o !! h)) then {[h]} ∪ d else d
  end.

Inductive runs : threads → owners → spent → threads → owners → spent → Prop :=
  | runs_nil s o d : runs s o d s o d
  | runs_snoc s o d s1 o1 d1 op r s2 :
      runs s o d s1 o1 d1 → valid_op s1 o1 d1 op → do_op op s1 = Some (r, s2) →
      runs s o d s2 (next_owners s1 s2 o1 op) (next_spent o1 d1 op).

Record threads_ok (s : threads) (o : owners) (d : spent) : Prop := {
  tk_state : ∀ h t, th_handles s !! h = Some t → h ∉ d →
    (detach_state t = AWS_THREAD_JOINABLE ↔ o !! h = Some (thread_id t)) ∧ (o !! h = None ∨ o !! h = Some (thread_id t));
  tk_spent : ∀ h, h ∈ d → o !! h = None;
  tk_live : ∀ id, id ∈ th_live s ↔ ∃ h, o !! h = Some id;
  tk_once : ∀ g h id, o !! g = Some id → o !! h = Some id → g = h;
  tk_next : ∀ h id, o !! h = Some id → (id < th_next s)%nat;
  tk_dom : ∀ h id, o !! h = Some id → is_Some (th_handles s !! h);
}.

(** A handle that stands for no thread, fresh. *)
Lemma ok_fresh s o d h w :
  threads_ok s o d → o !! h = None →
  threads_ok {| th_handles := <[h := {| detach_state := AWS_THREAD_NOT_CREATED; thread_id := 0 |}]> (th_handles s); th_live := th_live s;
    th_next := th_next s; th_wrappers := w |} o (d ∖ {[h]}).
Proof.
  intros [] Hno. split; simpl; try done.
  - intros g t. rewrite lookup_insert. case_decide; [intros [= <-] _; subst; rewrite Hno; split; [by split|by left]|].
    intros Hg Hd. apply tk_state0; [done|set_solver].
  - intros g Hg. apply tk_spent0. set_solver.
  - intros g id Hg. rewrite lookup_insert. case_decide; [by eexists|by eapply tk_dom0].
Qed.

Lemma ok_started s o d h w :
  threads_ok s o d → o !! h = None →
  threads_ok {| th_handles := <[h := {| detach_state := AWS_THREAD_JOINABLE; thread_id := th_next s |}]> (th_handles s);
    th_live := {[th_next s]} ∪ th_live s; th_next := S (th_next s); th_wrappers := w |} (<[h := th_next s]> o) (d ∖ {[h]}).
Proof.
  intros [] Hno. split; simpl.
  - intros g t. rewrite lookup_insert. case_decide; [intros [= <-] _; subst; rewrite lookup_insert_eq; split; [by split|by right]|].
    intros Hg Hd. rewrite lookup_insert_ne by done. apply tk_state0; [done|set_solver].
  - intros g Hg. rewrite lookup_insert_ne by set_solver. apply tk_spent0. set_solver.
  - intros id. rewrite elem_of_union, elem_of_singleton, tk_live0. split.
    + intros [->|[g Hg]]; [exists h; by rewrite lookup_insert_eq|exists g]. rewrite lookup_insert_ne; [done|]. intros ->. congruence.
    + intros [g Hg]. rewrite lookup_insert in Hg. case_decide; [left; congruence|right; by exists g].
  - intros g g' id. rewrite !lookup_insert. repeat case_decide; intros Hg Hg'; subst; simplify_eq; try done;
      [apply tk_next0 in Hg'; lia|apply tk_next0 in Hg; lia|by eapply tk_once0].
  - intros g id. rewrite lookup_insert. case_decide; [intros [= <-]; lia|]. intros Hg. apply tk_next0 in Hg. lia.
  - intros g id. rewrite !lookup_insert. case_decide; [by eexists|]. apply tk_dom0.
Qed.

Lemma launch_run s o d h env :
  threads_ok s o d → valid_op s o d (OLaunch h env) →
  ∃ r s', do_op (OLaunch h env) s = Some (r, s') ∧
    threads_ok s' (next_owners s s' o (OLaunch h env)) (next_spent o d (OLaunch h env)).
Proof.
  intros Hok [[t Ht] Hno]. cbn [do_op next_spent next_owners]. unfold tn_thread_launch, tn_thread_setup.
  set (s1 := set_handle h {| detach_state := AWS_THREAD_NOT_CREATED; thread_id := 0 |} s).
  assert (aws_thread_init h s = Some (AWS_OP_SUCCESS, s1)) as Hinit by (unfold aws_thread_init; by rewrite M_get, Ht, M_lift, M_put).
  rewrite (bind_Some _ _ _ _ _ Hinit). unfold aws_thread_launch.
  assert (∀ w, threads_ok {| th_handles := th_handles s1; th_live := th_live s; th_next := th_next s; th_wrappers := w |}
    (if decide (th_next s = th_next s) then o else <[h := th_next s]> o) (d ∖ {[h]})) as Hfail.
  { intros w. rewrite decide_True by done. by apply ok_fresh. }
  destruct (le_attr env =? 0); cbn [negb]; [|eexists _, _; split; [reflexivity|]; apply Hfail].
  destruct (le_wrapper env); cbn [negb]; [|eexists _, _; split; [reflexivity|]; apply Hfail].
  unfold pthread_create. rewrite M_assoc, M_get, M_assoc. cbn [th_handles s1 set_handle]. rewrite lookup_insert_eq, M_lift.
  destruct (le_create env =? 0) eqn:Hc.
  - rewrite M_assoc, M_put, M_left_id. change (negb (0 =? 0)) with false. cbv iota. rewrite M_get. cbn [th_handles]. rewrite lookup_insert_eq, M_lift, M_put.
    eexists _, _. split; [reflexivity|]. change (th_next s1) with (th_next s). cbn [th_next set_handle]. change (th_next s1) with (th_next s). rewrite decide_False by lia.
    unfold s1, set_handle. cbn [th_handles th_live th_next th_wrappers thread_id]. rewrite !insert_insert_eq. by apply ok_started.
  - rewrite M_assoc, M_put, M_left_id, Hc. cbn [negb]. eexists _, _. split; [reflexivity|]. apply Hfail.
Qed.

(** A handle lets its thread go: joined or detached. *)
Lemma ok_gone s o d d' h t hs :
  threads_ok s o d → th_handles s !! h = Some t → o !! h = Some (thread_id t) → d ⊆ d' → d' ⊆ {[h]} ∪ d →
  (∀ g, g ≠ h → hs !! g = th_handles s !! g) → is_Some (hs !! h) → (h ∈ d' ∨ ∃ t', hs !! h = Some t' ∧ detach_state t' ≠ AWS_THREAD_JOINABLE) →
  threads_ok {| th_handles := hs; th_live := th_live s ∖ {[thread_id t]}; th_next := th_next s; th_wrappers := th_wrappers s |} (delete h o) d'.
Proof.
  intros [] Ht Ho Hd1 Hd2 Hhs Hlive Hst. split; simpl.
  - intros g u Hg Hnd. destruct (decide (g = h)) as [->|Hne].
    + rewrite lookup_delete_eq. destruct Hst as [?|(t' & Ht' & Hns)]; [done|]. simplify_eq. split; [|by left]. by split.
    + rewrite lookup_delete_ne by done. rewrite Hhs in Hg by done. apply tk_state0; [done|set_solver].
  - intros g Hg. destruct (decide (g = h)) as [->|Hne]; [apply lookup_delete_eq|]. rewrite lookup_delete_ne by done. apply tk_spent0. set_solver.
  - intros id. rewrite elem_of_difference, elem_of_singleton, tk_live0. split.
    + intros [[g Hg] Hne]. exists g. rewrite lookup_delete_ne; [done|]. intros <-. congruence.
    + intros [g [Hne Hg]%lookup_delete_Some]. split; [by exists g|]. intros ->. by apply Hne, (tk_once0 h g (thread_id t)).
  - intros g g' id [_ Hg]%lookup_delete_Some [_ Hg']%lookup_delete_Some. by eapply tk_once0.
  - intros g id [_ Hg]%lookup_delete_Some. by eapply tk_next0.
  - intros g id [Hne Hg]%lookup_delete_Some. rewrite Hhs by done. by eapply tk_dom0.
Qed.

Lemma join_run s o d h code :
  threads_ok s o d → valid_op s o d (OJoin h code) →
  ∃ r s', do_op (OJoin h code) s = Some (r, s') ∧ threads_ok s' (next_owners s s' o (OJoin h code)) (next_spent o d (OJoin h code)).
Proof.
  intros Hok ([t Ht] & Hd & Hcode). destruct (tk_state _ _ _ Hok h t Ht Hd) as [Hst Hor]. cbn [do_op next_owners next_spent].
  unfold tn_thread_join, aws_thread_join. rewrite M_get, Ht, M_lift. destruct (Z.eqb_spec (detach_state t) AWS_THREAD_JOINABLE) as [Hj|Hj].
  - assert (thread_id t ∈ th_live s) as Hlive by (apply (tk_live _ _ _ Hok); exists h; by apply Hst).
    unfold pthread_join. rewrite M_assoc, M_get, M_assoc, bool_decide_eq_true_2, M_assert by done.
    destruct Hcode as [->|[->|[->| ->]]]; [|by eexists _, _..].
    eexists _, _. split; [reflexivity|]. apply (ok_gone s o d d h t); try done; [by apply Hst|set_solver|..].
    + intros g Hg. by rewrite lookup_insert_ne.
    + rewrite lookup_insert_eq. by eexists.
    + right. rewrite lookup_insert_eq. by eexists.
  - assert (o !! h = None) as Hn by (destruct Hor as [|Hs]; [done|by destruct Hj; apply Hst]).
    eexists _, s. split; [reflexivity|]. destruct (code =? 0); [|done]. by rewrite delete_id.
Qed.

Lemma cleanup_run s o d h :
  threads_ok s o d → valid_op s o d (OCleanup h) →
  ∃ r s', do_op (OCleanup h) s = Some (r, s') ∧ threads_ok s' (next_owners s s' o (OCleanup h)) (next_spent o d (OCleanup h)).
Proof.
  intros Hok ([t Ht] & Hd). destruct (tk_state _ _ _ Hok h t Ht Hd) as [Hst Hor]. cbn [do_op next_owners next_spent].
  unfold tn_thread_cleanup, aws_thread_clean_up. rewrite M_assoc, M_get, Ht, M_assoc, M_lift.
  destruct (Z.eqb_spec (detach_state t) AWS_THREAD_JOINABLE) as [Hj|Hj].
  - assert (thread_id t ∈ th_live s) as Hlive by (apply (tk_live _ _ _ Hok); exists h; by apply Hst).
    unfold pthread_detach. rewrite M_assoc, M_get, M_assoc, bool_decide_eq_true_2, M_assert by done.
    eexists _, _. split; [reflexivity|]. rewrite decide_True by (eexists; by apply Hst).
    apply (ok_gone s o d ({[h]} ∪ d) h t); try done; [by apply Hst|set_solver|left; set_solver].
  - assert (o !! h = None) as Hn by (destruct Hor as [|Hs]; [done|by destruct Hj; apply Hst]).
    eexists _, s. split; [reflexivity|]. rewrite delete_id by done. rewrite decide_False; [done|]. rewrite Hn. by intros [].
Qed.

Lemma op_ok s o d op :
  threads_ok s o d → valid_op s o d op →
  ∃ r s', do_op op s = Some (r, s') ∧ threads_ok s' (next_owners s s' o op) (next_spent o d op).
Proof. intros Hok Hv. destruct op; [by apply launch_run|by apply join_run|by apply cleanup_run]. Qed.

(** Handles before any launch. *)
Definition no_threads (hs : gset nat) : threads :=
  {| th_handles := gset_to_gmap {| detach_state := 0; thread_id := 0 |} hs; th_live := ∅; th_next := 0; th_wrappers := 0 |}.

Lemma no_threads_ok hs : threads_ok (no_threads hs) ∅ ∅.
Proof.
  split; simpl; try done.
  - intros h t Ht _. apply lookup_gset_to_gmap_Some in Ht as [_ <-]. split; [by rewrite lookup_empty|by left].
  - intros id. split; [set_solver|]. by intros [h Hh].
Qed.

Lemma thread_runs_ok hs s o d : runs (no_threads hs) ∅ ∅ s o d → threads_ok s o d.
Proof.
  remember (no_threads hs) as s0 eqn:E0. remember (∅ : owners) as o0 eqn:E1. remember (∅ : spent) as d0 eqn:E2.
  induction 1 as [|s o d s1 o1 d1 op r s2 Hr IH Hv Hrun]; subst; [apply no_threads_ok|].
  destruct (op_ok s1 o1 d1 op (IH eq_refl eq_refl eq_refl) Hv) as (r' & s' & Hrun' & Hok'). by simplify_eq.
Qed.

(** C36. No thread is lost or joined twice.  In any program that launches a handle only when
    it stands for no running thread and does not use a handle between its detaching and the
    next launch, whatever the system answers, every call is defined: no thread is joined or
    detached twice; and the threads that run unjoined are exactly those of the handles in the
    state JOINABLE, one each. *)
Theorem threads_accounted hs s o d :
  runs (no_threads hs) ∅ ∅ s o d →
  (∀ op, valid_op s o d op → is_Some (do_op op s)) ∧
  (∀ id, id ∈ th_live s ↔ ∃ h t, th_handles s !! h = Some t ∧ h ∉ d ∧ detach_state t = AWS_THREAD_JOINABLE ∧ thread_id t = id) ∧
  ∀ g h t u, th_handles s !! g = Some t → th_handles s !! h = Some u → g ∉ d → h ∉ d →
    detach_state t = AWS_THREAD_JOINABLE → detach_state u = AWS_THREAD_JOINABLE → thread_id t = thread_id u → g = h.
Proof.
  intros Hr. pose proof (thread_runs_ok hs s o d Hr) as Hok. split; [|split].
  - intros op Hv. destruct (op_ok s o d op Hok Hv) as (r & s' & -> & _). by eexists.
  - intros id. rewrite (tk_live _ _ _ Hok). split.
    + intros [h Hh]. destruct (tk_dom _ _ _ Hok h id Hh) as [t Ht]. assert (h ∉ d) as Hd by (intros Hd; by rewrite (tk_spent _ _ _ Hok h Hd) in Hh).
      destruct (tk_state _ _ _ Hok h t Ht Hd) as [Hst Hor]. exists h, t. destruct Hor as [Hor|Hor]; [congruence|]. split_and!; [done|done|by apply Hst|congruence].
    + intros (h & t & Ht & Hd & Hj & <-). exists h. by apply (tk_state _ _ _ Hok h t Ht Hd).
  - intros g h t u Ht Hu Hg Hh Hjt Hju Heq. apply (tk_once _ _ _ Hok g h (thread_id t)).
    + by apply (tk_state _ _ _ Hok g t Ht Hg).
    + rewrite Heq. by apply (tk_state _ _ _ Hok h u Hu Hh).
Qed.

(** The condition on launches is needed: a second launch of a handle forgets the thread of
    the first, which stays unjoined. *)
Lemma relaunch_loses s o d h id env :
  threads_ok s o d → o !! h = Some id → le_attr env = 0 → le_wrapper env = true → le_create env = 0 →
  ∃ s', do_op (OLaunch h env) s = Some (0, s') ∧ id ∈ th_live s' ∧
    ∀ g t, th_handles s' !! g = Some t → g ∉ d → detach_state t = AWS_THREAD_JOINABLE → thread_id t ≠ id.
Proof.
  intros Hok Ho Ha Hw Hc. destruct (tk_dom _ _ _ Hok h id Ho) as [t Ht]. pose proof (tk_next _ _ _ Hok h id Ho) as Hlt.
  eexists. split.
  { cbn [do_op]. unfold tn_thread_launch, tn_thread_setup, aws_thread_init, aws_thread_launch, pthread_create. rewrite Ha, Hw, Hc.
    mrun. rewrite Ht. mrun. rewrite lookup_insert_eq. mrun. rewrite lookup_insert_eq. reflexivity. }
  simpl. split.
  - apply elem_of_union. right. apply (tk_live _ _ _ Hok). by exists h.
  - intros g u Hg Hd Hj Hid. rewrite !insert_insert_eq, lookup_insert in Hg. case_decide as E.
    + injection Hg as <-. simpl in Hid. lia.
    + apply (tk_state _ _ _ Hok g u Hg Hd) in Hj. apply E. rewrite Hid in Hj. by apply (tk_once _ _ _ Hok h g id).
Qed.

(** ** An executed run *)

Definition validb (s : threads) (o : owners) (d : spent) (op : thread_op) : bool :=
  match op with
  | OLaunch h _ => bool_decide (is_Some (th_handles s !! h)) && bool_decide (o !! h = None)
  | OJoin h code => bool_decide (is_Some (th_handles s !! h)) && bool_decide (h ∉ d) &&
      ((code =? 0) || (code =? EINVAL) || (code =? ESRCH) || (code =? EDEADLK))
  | OCleanup h => bool_decide (is_Some (th_handles s !! h)) && bool_decide (h ∉ d)
  end.

Lemma validb_sound s o d op : validb s o d op = true → valid_op s o d op.
Proof.
  destruct op; simpl; rewrite ?andb_true_iff, ?orb_true_iff, ?Z.eqb_eq, ?bool_decide_eq_true; [done| |done].
  intros [[? ?] ?]. split_and!; [done|done|]. tauto.
Qed.

Fixpoint run_ops (ops : list thread_op) (s : threads) (o : owners) (d : spent) : option (threads * owners * spent) :=
  match ops with
  | [] => Some (s, o, d)
  | op :: ops =>
      if validb s o d op then '(r, s') ← do_op op s; run_ops ops s' (next_owners s s' o op) (next_spent o d op) else None
  end.

Lemma run_ops_sound ops : ∀ s0 o0 d0 s o d s' o' d',
  runs s0 o0 d0 s o d → run_ops ops s o d = Some (s', o', d') → runs s0 o0 d0 s' o' d'.
Proof.
  induction ops as [|op ops IH]; intros s0 o0 d0 s o d s' o' d' Hr Hx; simpl in Hx; [by simplify_eq|].
  destruct (validb s o d op) eqn:Hv; [|done]. apply option.bind_Some in Hx as ([r s1] & Hrun & Hx).
  eapply IH; [|exact Hx]. eapply runs_snoc; [done|by apply validb_sound|done].
Qed.

Definition granted : launch_env := {| le_attr := 0; le_wrapper := true; le_create := 0 |}.
Definition refused : launch_env := {| le_attr := 0; le_wrapper := true; le_create := EAGAIN |}.
Definition thread_program : list thread_op :=
  [OLaunch 7 granted; OJoin 7 EDEADLK; OJoin 7 0; OJoin 7 0; OCleanup 7; OLaunch 8 granted; OLaunch 7 refused; OJoin 7 0; OLaunch 7 granted; OCleanup 8].

Lemma thread_program_ends :
  ∃ s o d, run_ops thread_program (no_threads {[7; 8]}%nat) ∅ ∅ = Some (s, o, d) ∧ th_live s = {[2%nat]} ∧ d = {[8%nat]}.
Proof.
  destruct (run_ops thread_program (no_threads {[7; 8]}%nat) ∅ ∅) as [[[s o] d]|] eqn:E; vm_compute in E; [|discriminate].
  exists s, o, d. split; [done|]. injection E as <- _ <-. split; vm_compute; reflexivity.
Qed.

Lemma threads_accounted_witness :
  ∃ s o d, runs (no_threads {[7; 8]}%nat) ∅ ∅ s o d ∧ is_Some (do_op (OJoin 7 0) s) ∧
    ∃ h t, th_handles s !! h = Some t ∧ h ∉ d ∧ detach_state t = AWS_THREAD_JOINABLE ∧ thread_id t = 2%nat.
Proof.
  destruct thread_program_ends as (s & o & d & Hrun & Hlive & Hd). exists s, o, d.
  pose proof (run_ops_sound _ _ _ _ _ _ _ _ _ _ (runs_nil _ _ _) Hrun) as Hr.
  destruct (threads_accounted {[7; 8]}%nat s o d Hr) as (Hdef & Hacc & _). split; [exact Hr|].
  assert (∃ h t, th_handles s !! h = Some t ∧ h ∉ d ∧ detach_state t = AWS_THREAD_JOINABLE ∧ thread_id t = 2%nat) as Hex
    by (apply Hacc; rewrite Hlive; apply elem_of_singleton; reflexivity).
  split; [|exact Hex]. apply Hdef. simpl. split; [|split; [rewrite Hd; apply not_elem_of_singleton; discriminate|left; reflexivity]].
  clear -Hrun. assert (bool_decide (is_Some (th_handles s !! 7%nat)) = true) as Hb; [|apply bool_decide_eq_true in Hb; exact Hb].
  vm_compute in Hrun. injection Hrun as <- _ _. vm_compute. reflexivity.
Defined.
End Thread.

(** ** Sleeping *)

(** A conversion to a signed 64-bit integer. *)
Definition s64 (x : Z) : Z := let y := u64 x in if y <? 2 ^ 63 then y else y - W64.
Lemma s64_small x : 0 ≤ x < 2 ^ 63 → s64 x = x.
Proof. intros Hx. unfold s64. rewrite u64_small by lia. destruct (Z.ltb_spec x (2 ^ 63)); lia. Qed.

(** What [nanosleep] is called with: [tv_sec] and [tv_nsec], of 64 signed bits. *)
Definition aws_thread_current_sleep (nanos : Z) : option (Z * Z) :=
  r ← aws_timestamp_convert nanos AWS_TIMESTAMP_NANOS AWS_TIMESTAMP_SECS true;
  Some (s64 r.1, s64 (default 0 r.2)).
Definition tn_thread_sleep (ns : Z) : option (Z * Z) := aws_thread_current_sleep ns.

(** The time asked for is a well-formed one, and the one that was given: no value of 64 bits
    is cut off. *)
Lemma sleep_exact ns :
  0 ≤ ns < W64 →
  ∃ tv_sec tv_nsec, tn_thread_sleep ns = Some (tv_sec, tv_nsec) ∧ 0 ≤ tv_sec ∧ 0 ≤ tv_nsec < 1000000000 ∧
    tv_sec * 1000000000 + tv_nsec = ns.
Proof.
  intros Hns. unfold tn_thread_sleep, aws_thread_current_sleep, AWS_TIMESTAMP_NANOS, AWS_TIMESTAMP_SECS. simpl.
  pose proof (Z.mod_pos_bound ns 1000000000 ltac:(lia)). pose proof (Z.div_mod ns 1000000000 ltac:(lia)).
  assert (0 ≤ ns / 1000000000 < 2 ^ 63) by (split; [apply Z.div_pos; lia|apply Z.div_lt_upper_bound; lia]).
  change (1000000000 / 1) with 1000000000. rewrite (s64_small (ns / 1000000000)), (s64_small (ns mod 1000000000)) by lia. eexists _, _. split; [reflexivity|]. lia.
Qed.

(** ** Mutexes *)

Module Mutex.
Import Thread.

Definition EBUSY : Z := 16.

(** A mutex of type NORMAL: not initialised, free, or held by a thread. *)
Inductive mutex := Raw | Free | Held (t : nat).

(** The errors are told apart by [aws_last_error] only. *)
Definition aws_private_convert_and_raise_error_code (error_code : Z) : Z :=
  if error_code =? 0 then AWS_OP_SUCCESS else AWS_OP_ERR.

(** The calls of a thread; [None]: the call waits.  A mutex that is not initialised may not
    be used, a mutex may only be unlocked by the thread that holds it, and one that is held
    may not be destroyed. *)
Definition pthread_mutex_lock (t : nat) : M mutex (option Z) :=
  m ← get; match m with Raw => undef | Free => put (Held t);; mret (Some 0) | Held _ => mret None end.
Definition pthread_mutex_trylock (t : nat) : M mutex Z :=
  m ← get; match m with Raw => undef | Free => put (Held t);; mret 0 | Held _ => mret EBUSY end.
Definition pthread_mutex_unlock (t : nat) : M mutex Z :=
  m ← get; match m with Held u => TN_ASSERT (bool_decide (t = u));; put Free;; mret 0 | _ => undef end.
Definition pthread_mutex_destroy : M mutex unit :=
  m ← get; match m with Free => put Raw | _ => undef end.

(** [attr], [settype] and [init]: the answers of the system. *)
Definition aws_mutex_init (attr settype init : Z) : M mutex Z :=
  if attr =? 0 then
    if negb (settype =? 0) then mret (aws_private_convert_and_raise_error_code settype)
    else if negb (init =? 0) then mret (aws_private_convert_and_raise_error_code init)
    else put Free;; mret AWS_OP_SUCCESS
  else mret (aws_private_convert_and_raise_error_code attr).
Definition aws_mutex_clean_up : M mutex unit := pthread_mutex_destroy.
Definition aws_mutex_lock (t : nat) : M mutex (option Z) :=
  r ← pthread_mutex_lock t; mret (aws_private_convert_and_raise_error_code <$> r).
Definition aws_mutex_try_lock (t : nat) : M mutex Z :=
  r ← pthread_mutex_trylock t; mret (aws_private_convert_and_raise_error_code r).
Definition aws_mutex_unlock (t : nat) : M mutex Z :=
  r ← pthread_mutex_unlock t; mret (aws_private_convert_and_raise_error_code r).

Definition tn_mutex_setup (attr settype init : Z) : M mutex Z := aws_mutex_init attr settype init.
Definition tn_mutex_lock (t : nat) : M mutex (option Z) := aws_mutex_lock t.
Definition tn_mutex_unlock (t : nat) : M mutex Z := aws_mutex_unlock t.
Definition tn_mutex_cleanup : M mutex unit := aws_mutex_clean_up.

(** Threads that enter and leave: how many sections each has before it, and whether it is
    inside one.  A thread moves by the call that returns next. *)
Record thread := { inside : bool; sections : nat }.

Definition thread_move (t : nat) (x : thread) : M mutex (option thread) :=
  if inside x then tn_mutex_unlock t;; mret (Some {| inside := false; sections := sections x |})
  else match sections x with
       | O => mret None
       | S n => r ← tn_mutex_lock t;
                mret (match r with Some _ => Some {| inside := true; sections := n |} | None => None end)
       end.

(** The system: one thread moves, [None] when the move is undefined. *)
Definition system_move (t : nat) (s : mutex * list thread) : option (mutex * list thread) :=
  x ← s.2 !! t;
  '(r, m) ← thread_move t x s.1;
  Some (m, match r with Some y => <[t := y]> s.2 | None => s.2 end).

Inductive moves : mutex * list thread → mutex * list thread → Prop :=
  | moves_refl s : moves s s
  | moves_step s s1 t s2 : moves s s1 → system_move t s1 = Some s2 → moves s s2.

Definition mutex_ok (s : mutex * list thread) : Prop :=
  s.1 ≠ Raw ∧ (∀ t, s.1 = Held t → (t < length s.2)%nat) ∧ ∀ t x, s.2 !! t = Some x → inside x = true ↔ s.1 = Held t.

Lemma thread_move_ok t x m xs :
  mutex_ok (m, xs) → xs !! t = Some x →
  ∃ s', system_move t (m, xs) = Some s' ∧ mutex_ok s' ∧
    (s' ≠ (m, xs) ↔ inside x = true ∨ (m = Free ∧ sections x ≠ 0%nat)).
Proof.
  intros (Hraw & Hrange & Hin) Hx. simpl in *. unfold system_move. cbn [snd fst]. rewrite Hx. simpl. unfold thread_move.
  pose proof (lookup_lt_Some _ _ _ Hx) as Hlt. pose proof (Hin t x Hx) as Ht. destruct x as [[] n]; simpl in *.
  - destruct Ht as [Ht _]. rewrite Ht by done. unfold tn_mutex_unlock, aws_mutex_unlock, pthread_mutex_unlock. mrun.
    rewrite bool_decide_eq_true_2 by done. simpl. eexists. split; [reflexivity|]. split; [split_and!; [done|done|]|].
    + simpl. intros u y Hu. rewrite list_lookup_insert_Some in Hu. destruct Hu as [(<- & <- & _)|[Hne Hu]]; [by simpl|].
      pose proof (Hin u y Hu) as Hy. rewrite Ht in Hy by done. split; [|done]. intros Hi. apply Hy in Hi. congruence.
    + split; [by left|]. intros _ E. by apply (f_equal fst) in E.
  - destruct n as [|n].
    { simpl. eexists. split; [reflexivity|]. split; [by split|]. split; [done|]. intros [?|[_ ?]]; done. }
    unfold tn_mutex_lock, aws_mutex_lock, pthread_mutex_lock. mrun. destruct m as [| |u]; [done| |].
    + simpl. eexists. split; [reflexivity|]. split; [split_and!; [done|intros u [= <-]; simpl; by rewrite length_insert|]|].
      * simpl. intros u y Hu. rewrite list_lookup_insert_Some in Hu. destruct Hu as [(<- & <- & _)|[Hne Hu]]; [by simpl|].
        rewrite (Hin u y Hu). split; congruence.
      * split; [by right|]. intros _ E. by apply (f_equal fst) in E.
    + simpl. eexists. split; [reflexivity|]. split; [by split|]. split; [done|]. intros [?|[? _]]; done.
Qed.

(** Threads that each lock and unlock in turn: no call is undefined, at most one is inside a
    section, and the system only comes to rest when every thread is done, with the mutex free
    to be cleaned up. *)
Lemma mutex_excludes xs s :
  Forall (λ x, inside x = false) xs → moves (Free, xs) s →
  (∀ t, (t < length s.2)%nat → is_Some (system_move t s)) ∧
  (∀ t u x y, s.2 !! t = Some x → s.2 !! u = Some y → inside x = true → inside y = true → t = u) ∧
  ((∀ t, (t < length s.2)%nat → system_move t s = Some s) →
   Forall (λ x, inside x = false ∧ sections x = 0%nat) s.2 ∧ tn_mutex_cleanup s.1 = Some (tt, Raw)).
Proof.
  intros Hxs Hm.
  assert (mutex_ok s ∧ length s.2 = length xs) as [Hok Hlen].
  { remember (Free, xs) as s0 eqn:E0. induction Hm as [s|s s1 t s2 Hm IH Hs]; subst.
    - split; [split_and!; [done|done|]|done]. simpl. intros t x Hx. by rewrite (proj1 (Forall_lookup _ _) Hxs t x Hx).
    - destruct (IH eq_refl) as [Hok1 Hlen1]. destruct s1 as [m1 xs1].
      assert (∃ x, xs1 !! t = Some x) as [x Hx] by (unfold system_move in Hs; simpl in Hs; destruct (xs1 !! t); [by eexists|done]).
      destruct (thread_move_ok t x m1 xs1 Hok1 Hx) as (s' & Hs' & Hok' & _). simplify_eq. split; [done|].
      unfold system_move in Hs. cbn [fst snd] in *. rewrite Hx in Hs. simpl in Hs. apply option.bind_Some in Hs as ([r m] & _ & [= <-]).
      simpl. destruct r; by rewrite ?length_insert. }
  destruct s as [m ys]. cbn [fst snd] in *. split; [|split].
  - intros t Ht. destruct (lookup_lt_is_Some_2 ys t Ht) as [x Hx]. destruct (thread_move_ok t x m ys Hok Hx) as (s' & -> & _). by eexists.
  - intros t u x y Hx Hy Hi Hj. apply (proj2 (proj2 Hok) t x Hx) in Hi. apply (proj2 (proj2 Hok) u y Hy) in Hj. simpl in *. congruence.
  - intros Hrest.
    assert (∀ t x, ys !! t = Some x → ¬ (inside x = true ∨ (m = Free ∧ sections x ≠ 0%nat))) as Hno.
    { intros t x Hx Hor. destruct (thread_move_ok t x m ys Hok Hx) as (s' & Hs' & _ & Hiff). apply Hiff in Hor.
      rewrite (Hrest t) in Hs' by (by eapply lookup_lt_Some). by simplify_eq. }
    assert (m = Free) as ->.
    { destruct Hok as (Hraw & Hrange & Hin). destruct m as [| |t]; [done|done|]. destruct (lookup_lt_is_Some_2 ys t (Hrange t eq_refl)) as [x Hx].
      destruct (Hno t x Hx). left. by apply (Hin t x Hx). }
    split; [|done]. apply Forall_lookup. intros t x Hx. specialize (Hno t x Hx). destruct (inside x), (sections x); naive_solver.
Qed.
End Mutex.

(** ** The thread pool *)

Definition TN_WORKERS_MAX : Z := 128.
Definition UV_ENOENT : Z := -2.
Definition UV_ENOBUFS : Z := -105.

(** The value of the environment variable; the buffer as the string in it. *)
Definition uv_os_getenv (var : option (list Z)) (size : Z) : Z * list Z :=
  match var with
  | None => (UV_ENOENT, [])
  | Some v => if size <=? Z.of_nat (length v) then (UV_ENOBUFS, []) else (0, v)
  end.

Definition tn_thread_workers (UV_THREADPOOL_SIZE : option (list Z)) : Z :=
  let '(code, buf) := uv_os_getenv UV_THREADPOOL_SIZE 255 in
  if negb (code =? 0) then 4
  else
    let rv := atoi buf in
    if rv <=? 0 then 4 else u32 rv.

(** [setenv]: the answer of the system.  The result and the variable. *)
Definition tn_thread_set_workers (setenv : Z) (count : Z) (UV_THREADPOOL_SIZE : option (list Z)) : Z * option (list Z) :=
  if count =? 0 then (TN_ERROR, UV_THREADPOOL_SIZE)
  else if TN_WORKERS_MAX <? count then (TN_ERROR, UV_THREADPOOL_SIZE)
  else
    let buf := take 254 (fmt_u count) in
    if negb (setenv =? 0) then (TN_ERROR, UV_THREADPOOL_SIZE) else (TN_SUCCESS, Some buf).

Lemma worker_counts : forallb (λ n, tn_thread_workers (Some (take 254 (fmt_u n))) =? n) (seqZ 1 128) = true.
Proof. vm_compute. reflexivity. Qed.

(** The number of workers that was set is the one that is found; a number outside 1 to 128 is
    refused. *)
Lemma workers_round_trip setenv count var :
  0 ≤ count →
  let '(code, var') := tn_thread_set_workers setenv count var in
  if (1 <=? count) && (count <=? TN_WORKERS_MAX) && (setenv =? 0)
  then code = TN_SUCCESS ∧ tn_thread_workers var' = count
  else code = TN_ERROR ∧ var' = var.
Proof.
  intros Hc. unfold tn_thread_set_workers, TN_WORKERS_MAX. destruct (Z.eqb_spec count 0) as [->|Hz]; [done|].
  destruct (Z.ltb_spec 128 count) as [H|H].
  { by rewrite (proj2 (Z.leb_gt count 128)), andb_false_r by lia. }
  rewrite (proj2 (Z.leb_le 1 count)), (proj2 (Z.leb_le count 128)) by lia. cbn [andb].
  destruct (setenv =? 0); cbn [negb]; [|done]. split; [done|].
  pose proof worker_counts as Hall. rewrite forallb_forall in Hall. specialize (Hall count).
  rewrite <- list_elem_of_In, elem_of_seqZ in Hall. apply Z.eqb_eq, Hall. lia.
Qed.

(** ** Allocators *)

Module Alloc.

(** The functions an allocator can point to: the defaults, or the caller's by a number. *)
Inductive fn := Default | User (n : nat).

Record tn_allocator_t := {
  acquire_fn : ptr fn;
  release_fn : ptr fn;
  release_ptr_fn : ptr fn;
  config : option Z;
}.

(** The blocks that are allocated, and the calls that went to functions of the caller. *)
Record world := { w_blocks : gset Z; w_calls : list nat }.
Definition set_blocks (b : gset Z) (w : world) : world := {| w_blocks := b; w_calls := w_calls w |}.

(** [malloc] answers with a fresh address or NULL; [free] of anything else is undefined. *)
Definition malloc (answer : Z) : M world Z :=
  w ← get;
  if answer =? 0 then mret 0
  else TN_ASSERT (bool_decide (answer ∉ w_blocks w));; put (set_blocks ({[answer]} ∪ w_blocks w) w);; mret answer.
Definition free (p : Z) : M world unit :=
  w ← get; TN_ASSERT (bool_decide (p ∈ w_blocks w));; put (set_blocks (w_blocks w ∖ {[p]}) w).

Definition tn_aws_default_acquire (answer : Z) : M world Z := malloc answer.
Definition tn_aws_default_release (p : Z) : M world unit := if p =? 0 then mret tt else free p.

Definition tn_allocator_default_acquire (answer : Z) : M world Z :=
  mem ← tn_aws_default_acquire answer; if mem =? 0 then mret 0 else mret mem.
Definition tn_allocator_default_release (p : Z) : M world unit := if p =? 0 then mret tt else tn_aws_default_release p.
(** The pointer that [ptr] points to, before and after; [None]: [ptr] is NULL. *)
Definition tn_allocator_default_release_ptr (p : option Z) : M world (option Z) :=
  match p with
  | None => mret None
  | Some q => if q =? 0 then mret (Some q) else tn_aws_default_release q;; mret (Some 0)
  end.

Definition tn_default_allocator : tn_allocator_t :=
  {| acquire_fn := Some Default; release_fn := Some Default; release_ptr_fn := Some Default; config := None |}.

Definition tn_allocator_setup (allocator : option tn_allocator_t) (cfg : option Z) (acquire release : ptr fn) : Z * option tn_allocator_t :=
  match allocator with
  | None => (TN_ERROR, None)
  | Some a =>
      (TN_SUCCESS,
       Some {| acquire_fn := match acquire with Some f => Some f | None => Some Default end;
               release_fn := match release with Some f => Some f | None => Some Default end;
               release_ptr_fn := release_ptr_fn a;
               config := match cfg with Some c => Some c | None => config a end |})
  end.

Definition tn_allocator_cleanup (a : option tn_allocator_t) : Z := TN_SUCCESS.

(** A new allocator is a block whose members are not set. *)
Definition tn_allocator_new (answer : Z) : M world Z :=
  allocator ← tn_aws_default_acquire answer; if allocator =? 0 then mret 0 else mret allocator.
Definition tn_allocator_delete (ptr_allocator : option Z) : M world (option Z) :=
  match ptr_allocator with
  | None => mret None
  | Some p => if p =? 0 then mret (Some p) else tn_aws_default_release p;; mret (Some 0)
  end.

Definition user_call (n : nat) : M world unit := modify (λ w, {| w_blocks := w_blocks w; w_calls := w_calls w ++ [n] |}).

(** [answer] is that of [malloc], or of the caller's function. *)
Definition tn_allocator_acquire (a : option tn_allocator_t) (answer : Z) : M world Z :=
  match a with
  | None => mret 0
  | Some a =>
      match acquire_fn a with
      | None => mret 0
      | Some Default => tn_allocator_default_acquire answer
      | Some (User n) => user_call n;; mret answer
      end
  end.

Definition tn_allocator_release (a : option tn_allocator_t) (p : Z) : M world unit :=
  match a with
  | None => mret tt
  | Some a =>
      match release_fn a with
      | None => mret tt
      | Some Default => tn_allocator_default_release p
      | Some (User n) => user_call n
      end
  end.

(** The check is of [release_fn], the call of [release_ptr_fn]. *)
Definition tn_allocator_release_ptr (a : option tn_allocator_t) (p : option Z) : M world (option Z) :=
  match a with
  | None => mret p
  | Some a =>
      match release_fn a with
      | None => mret p
      | Some _ =>
          match release_ptr_fn a with
          | None => undef
          | Some Default => tn_allocator_default_release_ptr p
          | Some (User n) => user_call n;; mret p
          end
      end
  end.

(** What the library gets from the default allocator it gives back: a block is fresh, and
    after [TN_MEM_RELEASE] or [TN_MEM_RELEASE_PTR] the blocks are those from before; NULL may
    be released. *)
Lemma default_round_trip w answer :
  answer ∉ w_blocks w →
  ∃ w1, tn_allocator_acquire (Some tn_default_allocator) answer w = Some (answer, w1) ∧
    w_blocks w1 = (if answer =? 0 then ∅ else {[answer]}) ∪ w_blocks w ∧
    tn_allocator_release (Some tn_default_allocator) answer w1 = Some (tt, w) ∧
    tn_allocator_release_ptr (Some tn_default_allocator) (Some answer) w1 = Some (Some 0, w).
Proof.
  intros Ha. cbn [tn_allocator_acquire tn_default_allocator acquire_fn tn_allocator_release release_fn tn_allocator_release_ptr release_ptr_fn].
  unfold tn_allocator_default_acquire, tn_aws_default_acquire, malloc, tn_allocator_default_release, tn_allocator_default_release_ptr, tn_aws_default_release, free.
  mrun. destruct (Z.eqb_spec answer 0) as [->|Hz].
  - exists w. simpl. split_and!; try done. by rewrite (left_id_L ∅ (∪)).
  - rewrite bool_decide_eq_true_2 by done. simpl. eexists. rewrite (proj2 (Z.eqb_neq answer 0)) by done. split; [reflexivity|]. simpl.
    rewrite bool_decide_eq_true_2 by set_solver.
    assert (({[answer]} ∪ w_blocks w) ∖ {[answer]} = w_blocks w) as Hd by set_solver.
    split; [done|]. unfold set_blocks. simpl. rewrite Hd. by destruct w.
Qed.

(** An allocator that was set up on fresh memory cannot release through a pointer. *)
Lemma setup_release_ptr_undefined a cfg acquire release p w :
  release_ptr_fn a = NULL →
  tn_allocator_release_ptr (tn_allocator_setup (Some a) cfg acquire release).2 p w = None.
Proof. intros Ha. simpl. destruct release; by rewrite Ha. Qed.
End Alloc.

(** ** Identifiers *)

Module Uuid.

(** 16 bytes. *)
Record tn_uuid_t := { uuid_data : list Z }.

Definition aws_uuid_equals (a b : tn_uuid_t) : bool := bool_decide (uuid_data a = uuid_data b).

(** A new identifier is a block of the default allocator. *)
Definition tn_uuid_new (answer : Z) : M Alloc.world Z := Alloc.tn_allocator_acquire (Some Alloc.tn_default_allocator) answer.
Definition tn_uuid_delete (ptr_uuid : option Z) : M Alloc.world (option Z) :=
  Alloc.tn_allocator_release_ptr (Some Alloc.tn_default_allocator) ptr_uuid.

(** [random]: the bytes of the system, or its error. *)
Definition tn_uuid_generate (random : Z + list Z) (uuid : option tn_uuid_t) : Z * option tn_uuid_t :=
  match uuid with
  | None => (TN_ERROR, None)
  | Some u => match random with inr bs => (0, Some {| uuid_data := bs |}) | inl ret => (ret, Some u) end
  end.

Definition tn_uuid_clear (uuid : option tn_uuid_t) : Z * option tn_uuid_t :=
  match uuid with None => (TN_ERROR, None) | Some _ => (TN_SUCCESS, Some {| uuid_data := replicate 16 0 |}) end.

Definition tn_uuid_compare (uuid1 uuid2 : option tn_uuid_t) : Z :=
  match uuid1, uuid2 with
  | None, None => TN_SUCCESS
  | None, Some _ | Some _, None => TN_ERROR
  | Some a, Some b => if aws_uuid_equals a b then 1 else 0
  end.

(** Two identifiers compare as TN_SUCCESS exactly when they differ, or when there are none. *)
Lemma compare_inverted a b :
  tn_uuid_compare a b = TN_SUCCESS ↔
    match a, b with Some a, Some b => uuid_data a ≠ uuid_data b | None, None => True | _, _ => False end.
Proof. destruct a, b; simpl; try done. unfold aws_uuid_equals. case_bool_decide; by split. Qed.
End Uuid.

(** ** System information *)

Module System.

Record tn_system_priv_t := { cpu_info : bool; cpu_count : Z }.
(** [sys_priv]: the member, [None] when it was never set; the blocks that are allocated. *)
Record tn_system_t := { sys_priv : option (ptr tn_system_priv_t); sys_blocks : Z }.

(** [acquired] and [info]: the answers of the allocator and of [uv_cpu_info] (its result and
    the count). *)
Definition tn_system_setup (acquired : bool) (info : Z * Z) (s : tn_system_t) : Z * tn_system_t :=
  if negb acquired then (TN_ERROR, s)
  else if negb (info.1 =? 0) then (TN_ERROR, {| sys_priv := Some (Some {| cpu_info := false; cpu_count := 0 |}); sys_blocks := sys_blocks s + 1 |})
  else (TN_SUCCESS, {| sys_priv := Some (Some {| cpu_info := true; cpu_count := u32 info.2 |}); sys_blocks := sys_blocks s + 2 |}).

(** NULL is dereferenced when there is no private part; the pointer is left as it is. *)
Definition tn_system_cleanup : M tn_system_t unit :=
  s ← get;
  o ← lift (sys_priv s);
  p ← lift o;
  put {| sys_priv := sys_priv s; sys_blocks := sys_blocks s - (if cpu_info p then 2 else 1) |}.

Definition tn_system_cpu_count : M tn_system_t Z :=
  s ← get; o ← lift (sys_priv s); p ← lift o; mret (cpu_count p).

(** After a set-up that got its memory, the clean-up returns all of it, whatever
    [uv_cpu_info] answered; the count is the one it gave, or 0. *)
Lemma system_round_trip info s :
  0 ≤ info.2 < 2 ^ 31 →
  let '(code, s1) := tn_system_setup true info s in
  (code = TN_SUCCESS ↔ info.1 = 0) ∧
  tn_system_cpu_count s1 = Some (if info.1 =? 0 then info.2 else 0, s1) ∧
  ∃ s2, tn_system_cleanup s1 = Some (tt, s2) ∧ sys_blocks s2 = sys_blocks s.
Proof.
  intros Hn. unfold tn_system_setup. cbn [negb]. destruct (Z.eqb_spec info.1 0) as [E|E]; cbn [negb].
  - split; [done|]. rewrite u32_small by lia. split; [done|]. eexists. split; [reflexivity|]. simpl. lia.
  - split; [by split|]. split; [done|]. eexists. split; [reflexivity|]. simpl. lia.
Qed.
End System.
