(* ===== verification/Fslog.v ===== *)
(** The file log: src/fslog.c, include/tn/fslog.h.

    The main thread sets the log up and cleans it up; the thread it launches prepares a
    loop with a timer, opens the file and runs the loop, which completes the file requests
    and calls their callbacks.  The two threads are interleaved at the loads and stores of
    the log's state word.  The buffer the file is read into comes from the pool of
    src/buffer_pool.c; the open descriptors and what remains to be read from each are part
    of the state. *)
From stdpp Require Import base numbers list option gmap.
From Stdlib Require Import ZArith Lia.
From S2P Require Import Prelude QueueSpsc ByteBuf Buffer BufferPool Service ServiceSetup UvLoop.

Local Open Scope Z_scope.
Local Open Scope c_scope.

(** ** Data *)

Definition TN_FSLOG_STATE_NEW : Z := 0.
Definition TN_FSLOG_STATE_STARTING : Z := 1.
Definition TN_FSLOG_STATE_STARTED : Z := 2.
Definition TN_FSLOG_STATE_STOPPING : Z := 3.
Definition TN_FSLOG_STATE_STOPPED : Z := 4.
Definition TN_FSLOG_STATE_ERROR : Z := 5.

Definition TN_FSLOG_TYPE_READ : Z := 1.
Definition TN_FSLOG_TYPE_WRITE : Z := 2.

Definition UV_EBADF : Z := -9.
Definition UV_ENOMEM : Z := -12.

(** The file request under way. *)
Inductive fs_req := FsOpen | FsRead (fd base len : Z).

(** Where the thread is: not launched, launched, with its timer started, past the test of
    the state, in [uv_run], after it, returned; and whether the main thread waits for it. *)
Inductive fl_phase := FlNone | FlSetup | FlReady | FlStarting | FlRunning | FlClosing | FlDone.
Inductive fl_wait := FlIdle | FlJoin.

(** [tn_fslog_t] with its private part: [fl_priv] tells whether [priv] is set, [fl_open] is
    the result of the open request; the loop; the request under way; the open descriptors
    with the bytes not read yet; the two threads; the loops released without a close. *)
Record fslog := {
  fl_priv : bool;
  fl_type : Z;
  fl_state : Z;
  fl_buffer : ptr nat;
  fl_pool : tn_buffer_pool_t;
  fl_mem : mem;
  fl_open : Z;
  fl_loop : loop_t;
  fl_req : option fs_req;
  fl_fds : gmap Z (list Z);
  fl_io : fl_phase;
  fl_main : fl_wait;
  fl_lost : nat;
}.

Definition set_fl_priv (x : bool) (s : fslog) : fslog :=
  {| fl_priv := x; fl_type := fl_type s; fl_state := fl_state s; fl_buffer := fl_buffer s;
     fl_pool := fl_pool s; fl_mem := fl_mem s; fl_open := fl_open s; fl_loop := fl_loop s; fl_req := fl_req s;
     fl_fds := fl_fds s; fl_io := fl_io s; fl_main := fl_main s; fl_lost := fl_lost s |}.
Definition set_fl_state (x : Z) (s : fslog) : fslog :=
  {| fl_priv := fl_priv s; fl_type := fl_type s; fl_state := x; fl_buffer := fl_buffer s; fl_pool := fl_pool s;
     fl_mem := fl_mem s; fl_open := fl_open s; fl_loop := fl_loop s; fl_req := fl_req s; fl_fds := fl_fds s;
     fl_io := fl_io s; fl_main := fl_main s; fl_lost := fl_lost s |}.
Definition set_fl_buffer (x : ptr nat) (s : fslog) : fslog :=
  {| fl_priv := fl_priv s; fl_type := fl_type s; fl_state := fl_state s; fl_buffer := x; fl_pool := fl_pool s;
     fl_mem := fl_mem s; fl_open := fl_open s; fl_loop := fl_loop s; fl_req := fl_req s; fl_fds := fl_fds s;
     fl_io := fl_io s; fl_main := fl_main s; fl_lost := fl_lost s |}.
Definition set_fl_open (x : Z) (s : fslog) : fslog :=
  {| fl_priv := fl_priv s; fl_type := fl_type s; fl_state := fl_state s; fl_buffer := fl_buffer s;
     fl_pool := fl_pool s; fl_mem := fl_mem s; fl_open := x; fl_loop := fl_loop s; fl_req := fl_req s;
     fl_fds := fl_fds s; fl_io := fl_io s; fl_main := fl_main s; fl_lost := fl_lost s |}.
Definition set_fl_loop (x : loop_t) (s : fslog) : fslog :=
  {| fl_priv := fl_priv s; fl_type := fl_type s; fl_state := fl_state s; fl_buffer := fl_buffer s;
     fl_pool := fl_pool s; fl_mem := fl_mem s; fl_open := fl_open s; fl_loop := x; fl_req := fl_req s;
     fl_fds := fl_fds s; fl_io := fl_io s; fl_main := fl_main s; fl_lost := fl_lost s |}.
Definition set_fl_req (x : option fs_req) (s : fslog) : fslog :=
  {| fl_priv := fl_priv s; fl_type := fl_type s; fl_state := fl_state s; fl_buffer := fl_buffer s;
     fl_pool := fl_pool s; fl_mem := fl_mem s; fl_open := fl_open s; fl_loop := fl_loop s; fl_req := x;
     fl_fds := fl_fds s; fl_io := fl_io s; fl_main := fl_main s; fl_lost := fl_lost s |}.
Definition set_fl_fds (x : gmap Z (list Z)) (s : fslog) : fslog :=
  {| fl_priv := fl_priv s; fl_type := fl_type s; fl_state := fl_state s; fl_buffer := fl_buffer s;
     fl_pool := fl_pool s; fl_mem := fl_mem s; fl_open := fl_open s; fl_loop := fl_loop s; fl_req := fl_req s;
     fl_fds := x; fl_io := fl_io s; fl_main := fl_main s; fl_lost := fl_lost s |}.
Definition set_fl_io (x : fl_phase) (s : fslog) : fslog :=
  {| fl_priv := fl_priv s; fl_type := fl_type s; fl_state := fl_state s; fl_buffer := fl_buffer s;
     fl_pool := fl_pool s; fl_mem := fl_mem s; fl_open := fl_open s; fl_loop := fl_loop s; fl_req := fl_req s;
     fl_fds := fl_fds s; fl_io := x; fl_main := fl_main s; fl_lost := fl_lost s |}.
Definition set_fl_main (x : fl_wait) (s : fslog) : fslog :=
  {| fl_priv := fl_priv s; fl_type := fl_type s; fl_state := fl_state s; fl_buffer := fl_buffer s;
     fl_pool := fl_pool s; fl_mem := fl_mem s; fl_open := fl_open s; fl_loop := fl_loop s; fl_req := fl_req s;
     fl_fds := fl_fds s; fl_io := fl_io s; fl_main := x; fl_lost := fl_lost s |}.
Definition set_fl_lost (x : nat) (s : fslog) : fslog :=
  {| fl_priv := fl_priv s; fl_type := fl_type s; fl_state := fl_state s; fl_buffer := fl_buffer s;
     fl_pool := fl_pool s; fl_mem := fl_mem s; fl_open := fl_open s; fl_loop := fl_loop s; fl_req := fl_req s;
     fl_fds := fl_fds s; fl_io := fl_io s; fl_main := fl_main s; fl_lost := x |}.
Definition set_fl_pool (x : plstate) (s : fslog) : fslog :=
  {| fl_priv := fl_priv s; fl_type := fl_type s; fl_state := fl_state s; fl_buffer := fl_buffer s;
     fl_pool := x.1; fl_mem := x.2; fl_open := fl_open s; fl_loop := fl_loop s; fl_req := fl_req s;
     fl_fds := fl_fds s; fl_io := fl_io s; fl_main := fl_main s; fl_lost := fl_lost s |}.

(** A call on [&fslog->pool]. *)
Definition fl_on_pool {A} (f : M plstate A) : M fslog A := zoom (λ s, (fl_pool s, fl_mem s)) set_fl_pool f.
Definition fl_on_loop {A} (f : M loop_t A) : M fslog A := zoom fl_loop set_fl_loop f.

(** The number of requests the loop waits for. *)
Definition set_reqs (n : nat) (l : loop_t) : loop_t :=
  {| handle_queue := handle_queue l; active_handles := active_handles l; closing_handles := closing_handles l;
     closed_handles := closed_handles l; active_reqs := replicate n 0%nat |}.

(** ** libuv *)

(** A request is handed to the thread pool, or refused with a code. *)
Definition uv_fs_submit (submit : Z) (r : fs_req) : M fslog Z :=
  if submit =? 0 then
    modify (set_fl_req (Some r));; fl_on_loop (modify (set_reqs 1));; mret 0
  else mret submit.

(** A synchronous close: the descriptor is gone whatever is reported. *)
Definition uv_fs_close (report fd : Z) : M fslog Z :=
  s ← get;
  match fl_fds s !! fd with
  | None => mret UV_EBADF
  | Some _ => modify (set_fl_fds (delete fd (fl_fds s)));; mret report
  end.

(** What the system answers a request: an error, or for an open the descriptor and what the
    file holds, for a read how many bytes at most (one more than [an_short]); then whether
    the next request is accepted and what a close reports. *)
Record fs_answer := { an_error : Z; an_fd : Z; an_bytes : list Z; an_short : nat; an_submit : Z; an_close : Z }.

(** The work of a request; its result. *)
Definition fs_work (r : fs_req) (a : fs_answer) : M fslog Z :=
  if an_error a <? 0 then mret (an_error a)
  else
    s ← get;
    match r with
    | FsOpen => modify (set_fl_fds (<[an_fd a := an_bytes a]> (fl_fds s)));; mret (an_fd a)
    | FsRead fd base len =>
        match fl_fds s !! fd with
        | None => mret UV_EBADF
        | Some rest =>
            let data := take (S (an_short a)) (take (Z.to_nat len) rest) in
            m ← lift (mem_store (fl_mem s) base data);
            modify (set_fl_pool (fl_pool s, m));;
            modify (set_fl_fds (<[fd := drop (length data) rest]> (fl_fds s)));;
            mret (Z.of_nat (length data))
        end
    end.

(** ** The thread's callbacks *)

Definition tn_fslog_set_state (state : Z) : M fslog unit := modify (set_fl_state state).
Definition tn_fslog_get_state : M fslog Z := gets fl_state.

(** Nothing submits a write. *)
Definition on_write (result : Z) : M fslog unit :=
  if result <? 0 then tn_fslog_set_state TN_FSLOG_STATE_ERROR else mret tt.

Section Log.
Context (self : Z).

(** [uv_buf_init] and [uv_fs_read] at the end of both callbacks: the read goes to the
    buffer's write position, for as many bytes as a block has. *)
Definition start_read (submit fd : Z) : M fslog Z :=
  s ← get;
  b ← lift (fl_buffer s);
  base ← fl_on_pool (on_buffer b tn_buffer_write_ptr);
  s ← get;
  len ← fl_on_pool (on_buffer b (tn_buffer_capacity (λ p, if p =? self then Some (block_size (fl_pool s)) else None)));
  uv_fs_submit submit (FsRead fd base len).

(** The descriptor of the next read is the result of the last one. *)
Definition on_fslog_read_cb (result : Z) (a : fs_answer) : M fslog unit :=
  if result <? 0 then tn_fslog_set_state TN_FSLOG_STATE_ERROR
  else if result =? 0 then
    s ← get;
    r ← uv_fs_close (an_close a) (fl_open s);
    if negb (r =? 0) then tn_fslog_set_state TN_FSLOG_STATE_ERROR else mret tt
  else start_read (an_submit a) result;; mret tt.

Definition on_fslog_open_cb (result : Z) (a : fs_answer) : M fslog unit :=
  if 0 <=? result then
    s ← get;
    if fl_type s =? TN_FSLOG_TYPE_READ then
      ok ← (match fl_buffer s with
            | Some _ => mret true
            | None => r ← fl_on_pool tn_buffer_pool_pop_back; modify (set_fl_buffer r.2);; mret (r.1 =? 0)
            end);
      if negb ok then mret tt else start_read (an_submit a) result;; mret tt
    else mret tt
  else tn_fslog_set_state TN_FSLOG_STATE_ERROR.

Definition on_fslog_timer_cb : M fslog unit := mret tt.

Definition on_fslog_walk_cb (h : uv_handle) : M loop_t unit :=
  l ← get; if uv_is_closing h l then mret tt else uv_close h.

(** ** The thread *)

(** The answers the set-up meets; the codes are those of [uv_loop_init], [uv_timer_init] and
    [uv_timer_start]. *)
Record fl_env := {
  fe_priv : bool;
  fe_pool : pool_acquire;
  fe_loop : bool;
  fe_loop_init : Z;
  fe_timer : bool;
  fe_timer_init : Z;
  fe_timer_start : Z;
}.

(** The label [cleanup].  [released]: a pool set-up that failed has released what it got
    already, and releases an allocation twice here.  [lost]: the loop was set up and is not
    closed. *)
Definition fl_cleanup (ret : Z) (released lost : bool) : M fslog unit :=
  (if negb (ret =? TN_SUCCESS) then tn_fslog_set_state TN_FSLOG_STATE_ERROR else mret tt);;
  s ← get;
  TN_ASSERT (negb (released && negb (allocation (fl_pool s) =? 0)));;
  fl_on_pool tn_buffer_pool_cleanup;;
  modify (λ s, set_fl_lost (if lost then S (fl_lost s) else fl_lost s) s);;
  modify (set_fl_io FlDone).

(** Up to the test of the state.  When there is no memory for the private part the label
    uses a variable that was not assigned.  A timer that got no memory leaves [ret] as the
    set-up of the loop left it, 0. *)
Definition fl_thread_sized (mc mr : Z) (env : fl_env) : M fslog unit :=
  if negb (fe_priv env) then undef
  else
    modify (set_fl_priv true);;
    r ← fl_on_pool (tn_buffer_pool_setup (fe_pool env) self mc mr);
    if negb (r =? 0) then fl_cleanup UV_ENOMEM true false
    else if negb (fe_loop env) then fl_cleanup UV_ENOMEM false false
    else if negb (fe_loop_init env =? 0) then fl_cleanup (fe_loop_init env) false false
    else
      modify (set_fl_loop empty_loop);;
      if negb (fe_timer env) then fl_cleanup 0 false true
      else if negb (fe_timer_init env =? 0) then fl_cleanup (fe_timer_init env) false true
      else
        fl_on_loop (modify (uv__handle_init AcceptTimer));;
        if negb (fe_timer_start env =? 0) then fl_cleanup (fe_timer_start env) false true
        else
          fl_on_loop (modify (uv__handle_start AcceptTimer));;
          modify (set_fl_io FlReady).
Definition fl_thread_setup : fl_env → M fslog unit := fl_thread_sized TN_SERVICE_MAX_CLIENTS TN_SERVICE_MAX_READ.

Definition fl_thread_check : M fslog unit :=
  state ← tn_fslog_get_state;
  modify (set_fl_io (if state =? TN_FSLOG_STATE_STARTING then FlStarting else FlClosing)).

(** For a type that is neither of the two the flags were not assigned.  A refused open
    leaves [ret] as it is, 0. *)
Definition fl_thread_open (submit : Z) : M fslog unit :=
  tn_fslog_set_state TN_FSLOG_STATE_STARTED;;
  s ← get;
  TN_ASSERT ((fl_type s =? TN_FSLOG_TYPE_READ) || (fl_type s =? TN_FSLOG_TYPE_WRITE));;
  r ← uv_fs_submit submit FsOpen;
  if negb (r =? 0) then fl_cleanup 0 false true else modify (set_fl_io FlRunning).

(** A request that is done: its result is stored and its callback called. *)
Definition fs_done (a : fs_answer) : M fslog unit :=
  s ← get;
  match fl_req s with
  | None => mret tt
  | Some r =>
      result ← fs_work r a;
      modify (set_fl_req None);; fl_on_loop (modify (set_reqs 0));;
      match r with
      | FsOpen => modify (set_fl_open result);; on_fslog_open_cb result a
      | FsRead _ _ _ => on_fslog_read_cb result a
      end
  end.

(** A turn of [uv_run]: the timer when it is due, then a request when one is done. *)
Definition fl_thread_turn (due : bool) (done : option fs_answer) : M fslog unit :=
  (if due then on_fslog_timer_cb else mret tt);;
  (match done with Some a => fs_done a | None => mret tt end);;
  fl_on_loop uv__run_closing_handles;;
  s ← get;
  if uv__loop_alive (fl_loop s) then mret tt else modify (set_fl_io FlClosing).

Definition fl_thread_close : M fslog unit :=
  s ← get;
  if uv_loop_close (fl_loop s) =? 0 then fl_cleanup TN_SUCCESS false false
  else
    fl_on_loop (uv_walk on_fslog_walk_cb);;
    s ← get;
    let ret := uv_loop_close (fl_loop s) in
    if negb (ret =? 0) then fl_cleanup ret false true else fl_cleanup TN_SUCCESS false false.

(** ** The main thread *)

(** The object is cleared first; the descriptors and the memory are not part of it. *)
Definition tn_fslog_setup (type launch : Z) : M fslog Z :=
  modify (λ s,
    {| fl_priv := false; fl_type := 0; fl_state := TN_FSLOG_STATE_NEW; fl_buffer := NULL; fl_pool := blank_pool; fl_mem := fl_mem s;
       fl_open := 0; fl_loop := empty_loop; fl_req := None; fl_fds := fl_fds s; fl_io := fl_io s; fl_main := fl_main s; fl_lost := fl_lost s |});;
  state ← tn_fslog_get_state;
  if negb (state =? TN_FSLOG_STATE_NEW) && negb (state =? TN_FSLOG_STATE_STOPPED) then mret TN_ERROR
  else
    modify (λ s,
      {| fl_priv := fl_priv s; fl_type := type; fl_state := fl_state s; fl_buffer := NULL; fl_pool := fl_pool s; fl_mem := fl_mem s;
         fl_open := fl_open s; fl_loop := fl_loop s; fl_req := fl_req s; fl_fds := fl_fds s; fl_io := FlNone; fl_main := fl_main s; fl_lost := fl_lost s |});;
    tn_fslog_set_state TN_FSLOG_STATE_STARTING;;
    if negb (launch =? 0) then mret TN_ERROR else modify (set_fl_io FlSetup);; mret TN_SUCCESS.

(** Up to the join: [false] when the call returns at once.  And once the thread is joined. *)
Definition tn_fslog_cleanup_begin : M fslog bool :=
  state ← tn_fslog_get_state;
  if negb (state =? TN_FSLOG_STATE_STARTING) && negb (state =? TN_FSLOG_STATE_STARTED) then mret false
  else tn_fslog_set_state TN_FSLOG_STATE_STOPPING;; modify (set_fl_main FlJoin);; mret true.
Definition tn_fslog_cleanup_end : M fslog unit :=
  modify (set_fl_io FlNone);; modify (set_fl_main FlIdle);; tn_fslog_set_state TN_FSLOG_STATE_STOPPED.

(** Unfinished: the calls test their argument only. *)
Definition tn_fslog_open : M fslog Z := s ← get; TN_ASSERT (fl_priv s);; mret TN_SUCCESS.
Definition tn_fslog_close : M fslog Z := s ← get; TN_ASSERT (fl_priv s);; mret TN_SUCCESS.
Definition tn_fslog_read : M fslog Z := s ← get; TN_ASSERT (fl_priv s && (fl_type s =? TN_FSLOG_TYPE_READ));; mret TN_SUCCESS.
Definition tn_fslog_write : M fslog Z := s ← get; TN_ASSERT (fl_priv s && (fl_type s =? TN_FSLOG_TYPE_WRITE));; mret TN_SUCCESS.

(** ** The two threads together *)

Inductive fl_act :=
  | ASetup (type launch : Z)
  | ACleanup
  | AJoined
  | AThread (env : fl_env)
  | ACheck
  | AOpen (submit : Z)
  | ATurn (due : bool) (done : option fs_answer)
  | AClose.

Context (mc mr : Z).

Definition exec_fl (x : fl_act) : M fslog unit :=
  match x with
  | ASetup type launch => tn_fslog_setup type launch;; mret tt
  | ACleanup => tn_fslog_cleanup_begin;; mret tt
  | AJoined => tn_fslog_cleanup_end
  | AThread env => fl_thread_sized mc mr env
  | ACheck => fl_thread_check
  | AOpen submit => fl_thread_open submit
  | ATurn due done => fl_thread_turn due done
  | AClose => fl_thread_close
  end.

(** The answer to an open is a descriptor that is not in use. *)
Definition answer_ok (s : fslog) (a : fs_answer) : Prop :=
  an_error a < 0 ∨ (0 ≤ an_fd a ∧ fl_fds s !! an_fd a = None).

(** The main thread calls while it does not wait, sets up for reading or writing while no
    thread is under way, and its join returns when the thread has returned or was never
    launched; the thread takes its steps in order, and the allocator grants its private part
    and its pool. *)
Definition fl_enabled (s : fslog) (x : fl_act) : Prop :=
  match x with
  | ASetup type _ => fl_main s = FlIdle ∧ (fl_io s = FlNone ∨ fl_io s = FlDone) ∧ (type = TN_FSLOG_TYPE_READ ∨ type = TN_FSLOG_TYPE_WRITE)
  | ACleanup => fl_main s = FlIdle
  | AJoined => fl_main s = FlJoin ∧ (fl_io s = FlNone ∨ fl_io s = FlDone)
  | AThread env => fl_io s = FlSetup ∧ fe_priv env = true ∧ granted (fe_pool env) (fl_mem s) mc mr
  | ACheck => fl_io s = FlReady
  | AOpen _ => fl_io s = FlStarting
  | ATurn _ done => fl_io s = FlRunning ∧ match done with Some a => answer_ok s a | None => True end
  | AClose => fl_io s = FlClosing
  end.

Inductive fl_runs : fslog → list fl_act → fslog → Prop :=
  | fl_nil s : fl_runs s [] s
  | fl_cons s x s1 xs s2 :
      fl_enabled s x → exec_fl x s = Some (tt, s1) → fl_runs s1 xs s2 → fl_runs s (x :: xs) s2.

(** ** Invariant *)

Definition timer_loop (n : nat) : loop_t :=
  {| handle_queue := [AcceptTimer]; active_handles := [AcceptTimer]; closing_handles := []; closed_handles := [];
     active_reqs := replicate n 0%nat |}.

Definition working (p : fl_phase) : Prop := p = FlReady ∨ p = FlStarting ∨ p = FlRunning ∨ p = FlClosing.

(** The pool is in order; the buffer is one of its blocks, empty. *)
Definition pool_ready (s : fslog) : Prop :=
  ∃ a, pool_rep self (fl_pool s) (fl_mem s) a ∧
    match fl_buffer s with
    | Some b => a_streams a !! b = Some ([], block_size (fl_pool s))
    | None => a_free a ≠ []
    end.

(** A read under way goes to the block of the log's buffer. *)
Definition read_ok (s : fslog) (r : fs_req) : Prop :=
  match r with
  | FsOpen => True
  | FsRead _ base len =>
      ∃ b bf, fl_buffer s = Some b ∧ tn_buffers (fl_pool s) !! b = Some bf ∧ base = buf_buffer (buf bf) ∧ len = block_size (fl_pool s)
  end.

Record fl_ok (s : fslog) : Prop := {
  fo_loop : working (fl_io s) → fl_loop s = timer_loop (if fl_req s then 1 else 0);
  fo_pool : working (fl_io s) → pool_ready s;
  fo_req : working (fl_io s) → ∀ r, fl_req s = Some r → read_ok s r;
  fo_idle : fl_io s = FlReady ∨ fl_io s = FlStarting ∨ fl_io s = FlClosing → fl_req s = None;
  fo_new : fl_io s = FlSetup → fl_req s = None ∧ fl_buffer s = NULL;
  fo_type : fl_io s ≠ FlNone → fl_type s = TN_FSLOG_TYPE_READ ∨ fl_type s = TN_FSLOG_TYPE_WRITE;
}.

(** The buffer's block, and what [start_read] asks for. *)
Lemma start_read_run s submit fd b :
  pool_ready s → fl_buffer s = Some b →
  ∃ bf, tn_buffers (fl_pool s) !! b = Some bf ∧
    start_read submit fd s = Some (submit, if submit =? 0 then
      set_fl_loop (set_reqs 1 (fl_loop s)) (set_fl_req (Some (FsRead fd (buf_buffer (buf bf)) (block_size (fl_pool s)))) s) else s).
Proof.
  intros (a & Hp & Hs) Eb. rewrite Eb in Hs.
  destruct (Forall2_lookup_r _ _ _ _ _ (pr_streams _ _ _ _ Hp) Hs) as (bf & Hbf & Hu & Hroom & _). exists bf. split; [done|].
  destruct (rep_lookup self _ _ _ b bf Hp Hbf) as (_ & _ & _ & _ & _ & _ & [Hwf _ Hcap Hpool]). pose proof Hwf as [].
  assert (∀ {A} (f : tn_buffer_t * mem → A) , fl_on_pool (on_buffer b (gets f)) s = Some (f (bf, fl_mem s), s)) as Hgets.
  { intros A f. unfold fl_on_pool, zoom, on_buffer, gets. simpl. rewrite Hbf, list_insert_id by done. by destruct s as [? ? ? ? []]. }
  unfold start_read. rewrite M_get, Eb, M_lift. unfold tn_buffer_write_ptr. bstep (Hgets _ (λ x, u64 (buf_buffer (buf x.1) + buf_len (buf x.1)))).
  assert (∀ g, g self = Some (block_size (fl_pool s)) → fl_on_pool (on_buffer b (tn_buffer_capacity g)) s = Some (block_size (fl_pool s), s)) as Hcapr.
  { intros g Hg. unfold fl_on_pool, zoom, on_buffer, tn_buffer_capacity. simpl. rewrite Hbf. mrun. rewrite Hpool. mrun. rewrite Hg.
    simpl. rewrite list_insert_id by done. by destruct s as [? ? ? ? []]. }
  rewrite (bind_Some _ _ _ _ _ (Hcapr (λ p, if p =? self then Some (block_size (fl_pool s)) else None) ltac:(simpl; by rewrite Z.eqb_refl))). simpl.
  unfold room in Hroom. simpl in Hroom. replace (buf_len (buf bf)) with 0 by lia. rewrite Z.add_0_r, u64_small by lia.
  unfold uv_fs_submit. destruct (Z.eqb_spec submit 0) as [->|]; done.
Qed.

(** What a completed request leaves alone. *)
Record same_threads (s s' : fslog) : Prop := {
  st_io : fl_io s' = fl_io s;
  st_main : fl_main s' = fl_main s;
  st_type : fl_type s' = fl_type s;
}.

(** A read that the thread starts keeps the invariant. *)
Lemma start_read_ok s submit fd b :
  fl_io s = FlRunning → fl_type s = TN_FSLOG_TYPE_READ ∨ fl_type s = TN_FSLOG_TYPE_WRITE → pool_ready s →
  fl_buffer s = Some b → fl_req s = None → fl_loop s = timer_loop 0 →
  ∃ s' bf, start_read submit fd s = Some (submit, s') ∧ fl_ok s' ∧ same_threads s s' ∧ fl_fds s' = fl_fds s ∧ fl_state s' = fl_state s ∧
    fl_open s' = fl_open s ∧ fl_pool s' = fl_pool s ∧ fl_mem s' = fl_mem s ∧ fl_buffer s' = Some b ∧ tn_buffers (fl_pool s) !! b = Some bf ∧
    fl_req s' = (if submit =? 0 then Some (FsRead fd (buf_buffer (buf bf)) (block_size (fl_pool s))) else None).
Proof.
  intros Hio Hty Hp Hb Hreq Hl. destruct (start_read_run s submit fd b Hp Hb) as (bf & Hbf & Hrun). rewrite Hrun. eexists _, bf.
  split; [reflexivity|]. destruct (submit =? 0); [|split_and!; try done; split; try done; [by rewrite Hreq|by rewrite Hreq|by rewrite Hio]].
  split_and!; try done. split; simpl; try done.
  - intros _. by rewrite Hl.
  - intros _ r [= <-]. exists b, bf. done.
  - rewrite Hio. intros [?|[?|?]]; done.
  - by rewrite Hio.
Qed.

Lemma open_cb_ok s result a :
  fl_io s = FlRunning → fl_type s = TN_FSLOG_TYPE_READ ∨ fl_type s = TN_FSLOG_TYPE_WRITE → pool_ready s →
  fl_req s = None → fl_loop s = timer_loop 0 →
  ∃ s', on_fslog_open_cb result a s = Some (tt, s') ∧ fl_ok s' ∧ same_threads s s' ∧ fl_fds s' = fl_fds s ∧ fl_open s' = fl_open s ∧
    (0 ≤ result → fl_type s = TN_FSLOG_TYPE_READ → an_submit a = 0 →
     ∃ b bf, fl_buffer s' = Some b ∧ tn_buffers (fl_pool s') !! b = Some bf ∧
       fl_req s' = Some (FsRead result (buf_buffer (buf bf)) (block_size (fl_pool s')))).
Proof.
  intros Hio Hty Hp Hreq Hl. unfold on_fslog_open_cb. destruct (Z.leb_spec 0 result) as [Hr|Hr].
  2: { eexists. split; [reflexivity|]. split_and!; try done; [|lia]. split; simpl; try done; by rewrite ?Hreq, ?Hio. }
  rewrite M_get. destruct (Z.eqb_spec (fl_type s) TN_FSLOG_TYPE_READ) as [Ht|Ht].
  2: { eexists. split; [reflexivity|]. split_and!; try done. split; simpl; try done; by rewrite ?Hreq, ?Hio. }
  destruct (fl_buffer s) as [b|] eqn:Eb.
  - rewrite M_left_id. cbn [negb]. destruct (start_read_ok s (an_submit a) result b) as (s' & bf & Hs & Hok & Hth & Hf & _ & Ho & Epo & _ & Eb' & Hbf & Hq); try done.
    bstep Hs. exists s'. split; [done|]. split_and!; try done. intros _ _ E. rewrite E in Hq. exists b, bf. by rewrite Epo.
  - destruct Hp as (st & Hp & Hs). rewrite Eb in Hs. destruct (pool_pop_back_run self _ _ st Hp) as (r & p' & Hpop & Hgeo & _ & Hspec & Hp').
    destruct st as [[|b free] strs]; [done|]. simpl in Hspec. injection Hspec as <-.
    set (s1 := set_fl_buffer (Some b) (set_fl_pool (p', fl_mem s) s)).
    assert ((r ← fl_on_pool tn_buffer_pool_pop_back; modify (set_fl_buffer r.2);; mret (r.1 =? 0)) s = Some (true, s1)) as Hget.
    { unfold fl_on_pool. rewrite (bind_Some _ _ _ _ _ (zoom_Some _ _ _ s _ _ Hpop)). reflexivity. }
    rewrite (bind_Some _ _ _ _ _ Hget). cbn [negb].
    destruct Hgeo as (_ & _ & Hbs). simpl in Hp'.
    assert (pool_ready s1) as Hp1.
    { eexists. split; [exact Hp'|]. simpl. rewrite Hbs, list_lookup_insert_eq; [done|]. pose proof (pr_range _ _ _ _ Hp) as Hrg.
      simpl in Hrg. apply Forall_cons in Hrg as [Hlt _]. pose proof (Forall2_length _ _ _ (pr_streams _ _ _ _ Hp)) as Hlen. simpl in Hlen. by rewrite <- Hlen. }
    destruct (start_read_ok s1 (an_submit a) result b) as (s' & bf & Hsr & Hok & Hth & Hf & _ & Ho & Epo & _ & Eb' & Hbf & Hq); try done.
    bstep Hsr. exists s'. split; [done|]. destruct Hth. split_and!; try done. intros _ _ E. rewrite E in Hq. exists b, bf. by rewrite Epo.
Qed.

(** The kernel stores what it read into the buffer's block: the pool does not notice. *)
Lemma store_ready s b bf data :
  pool_ready s → fl_buffer s = Some b → tn_buffers (fl_pool s) !! b = Some bf → Z.of_nat (length data) ≤ block_size (fl_pool s) →
  ∃ m, mem_store (fl_mem s) (buf_buffer (buf bf)) data = Some m ∧ pool_ready (set_fl_pool (fl_pool s, m) s) ∧
    mem_load m (buf_buffer (buf bf)) (Z.of_nat (length data)) = Some data.
Proof.
  intros (a & Hp & Hs) Eb Hbf Hlen. rewrite Eb in Hs.
  destruct (rep_lookup self _ _ _ b bf Hp Hbf) as (u & k & Hst & Hu & Hk & Hby & [Hwf Ha Hcap Hpool]).
  rewrite Hs in Hst. injection Hst as <- <-. pose proof Hwf as []. unfold room in Hk.
  destruct (mem_store_effect (fl_mem s) (buf_buffer (buf bf)) data) as (m & Hm & Hld & Hout & Hal).
  { intros x Hx. apply bwf_alloc. lia. }
  exists m. split; [done|]. split; [|done].
  assert (local_step bf (fl_mem s) bf m) as Hl.
  { split; try done; [split; try done; by apply Hal|]. intros x Hx. apply Hout. lia. }
  assert (unread (bf, m) = Some []) as Hu'.
  { unfold unread. simpl. by replace (cur_len (pos bf)) with 0 by lia. }
  pose proof (rep_update self _ _ _ b bf bf m [] (room bf) Hp Hbf Hl Hu' eq_refl ltac:(done)) as Hp'.
  exists {| a_free := a_free a; a_streams := <[b := ([], room bf)]> (a_streams a) |}. simpl. rewrite Eb. split.
  - rewrite list_insert_id in Hp' by done. by destruct (fl_pool s).
  - rewrite list_lookup_insert_eq by (by eapply lookup_lt_Some). unfold room. do 2 f_equal. lia.
Qed.

(** The bytes a read takes. *)
Definition chunk (a : fs_answer) (len : Z) (rest : list Z) : list Z := take (S (an_short a)) (take (Z.to_nat len) rest).

Lemma chunk_length a len rest : 0 ≤ len → Z.of_nat (length (chunk a len rest)) ≤ len.
Proof. intros Hl. unfold chunk. rewrite !length_take. lia. Qed.

(** A read: it fails and takes nothing, or its bytes go to the block. *)
Lemma work_read_run s a fd base len :
  fl_ok s → fl_io s = FlRunning → fl_req s = Some (FsRead fd base len) →
  ∃ result p m f, fs_work (FsRead fd base len) a s = Some (result, set_fl_fds f (set_fl_pool (p, m) s)) ∧
    pool_ready (set_fl_pool (p, m) s) ∧ p = fl_pool s ∧
    ((result < 0 ∧ f = fl_fds s ∧ (an_error a < 0 ∨ fl_fds s !! fd = None)) ∨
     ∃ rest, 0 ≤ an_error a ∧ fl_fds s !! fd = Some rest ∧ result = Z.of_nat (length (chunk a len rest)) ∧
       f = <[fd := drop (length (chunk a len rest)) rest]> (fl_fds s) ∧ mem_load m base result = Some (chunk a len rest)).
Proof.
  intros Hok Hio Hreq. assert (working (fl_io s)) as Hw by (rewrite Hio; unfold working; tauto).
  pose proof (fo_pool s Hok Hw) as Hp. destruct (fo_req s Hok Hw _ Hreq) as (b & bf & Hb & Hbf & -> & ->).
  assert (set_fl_fds (fl_fds s) (set_fl_pool (fl_pool s, fl_mem s) s) = s) as Hid by (by destruct s).
  assert (set_fl_pool (fl_pool s, fl_mem s) s = s) as Hid' by (by destruct s).
  unfold fs_work. destruct (Z.ltb_spec (an_error a) 0) as [He|He].
  { exists (an_error a), (fl_pool s), (fl_mem s), (fl_fds s). rewrite Hid, Hid'. split_and!; try done. left. split_and!; [done|done|by left]. }
  rewrite M_get. destruct (fl_fds s !! fd) as [rest|] eqn:Ef.
  2: { exists UV_EBADF, (fl_pool s), (fl_mem s), (fl_fds s). rewrite Hid, Hid'. split_and!; try done. left. split_and!; [done|done|by right]. }
  fold (chunk a (block_size (fl_pool s)) rest).
  destruct (store_ready s b bf (chunk a (block_size (fl_pool s)) rest)) as (m & Hm & Hpr & Hld); try done.
  { apply chunk_length. destruct Hp as (st & Hp & _). pose proof (ps_size _ _ _ (pr_shape _ _ _ _ Hp)). lia. }
  rewrite Hm, M_lift. eexists _, (fl_pool s), m, _. split; [reflexivity|]. split_and!; try done. right. by exists rest.
Qed.

(** The callback of a read: an error is recorded; at the end the file is closed; otherwise
    the next read is of the descriptor whose number is the count of bytes. *)
Lemma read_cb_ok s result a b bf :
  fl_io s = FlRunning → fl_type s = TN_FSLOG_TYPE_READ ∨ fl_type s = TN_FSLOG_TYPE_WRITE → pool_ready s → fl_buffer s = Some b →
  tn_buffers (fl_pool s) !! b = Some bf → fl_req s = None → fl_loop s = timer_loop 0 →
  ∃ s', on_fslog_read_cb result a s = Some (tt, s') ∧ fl_ok s' ∧ same_threads s s' ∧ fl_open s' = fl_open s ∧
    (result < 0 → fl_state s' = TN_FSLOG_STATE_ERROR ∧ fl_req s' = None ∧ fl_fds s' = fl_fds s) ∧
    (result = 0 → fl_req s' = None ∧ fl_fds s' = delete (fl_open s) (fl_fds s)) ∧
    (0 < result → fl_state s' = fl_state s ∧ fl_fds s' = fl_fds s ∧ fl_mem s' = fl_mem s ∧ fl_pool s' = fl_pool s ∧
      fl_req s' = (if an_submit a =? 0 then Some (FsRead result (buf_buffer (buf bf)) (block_size (fl_pool s))) else None)).
Proof.
  intros Hio Hty Hp Hb Hbf Hreq Hl. unfold on_fslog_read_cb.
  assert (∀ st f, fl_ok (set_fl_state st (set_fl_fds f s))) as Hok.
  { intros st f. split; simpl; try done; by rewrite ?Hreq, ?Hio. }
  assert (∀ st, set_fl_state st (set_fl_fds (fl_fds s) s) = set_fl_state st s) as Hid by (by destruct s).
  destruct (Z.ltb_spec result 0) as [Hn|Hn].
  { eexists. split; [reflexivity|]. rewrite <- Hid. split_and!; try done; lia. }
  destruct (Z.eqb_spec result 0) as [->|Hz].
  - rewrite M_get. unfold uv_fs_close. rewrite M_assoc, M_get. destruct (fl_fds s !! fl_open s) as [rest|] eqn:Ef.
    + rewrite M_assoc, M_modify, M_left_id. specialize (Hok (if an_close a =? 0 then fl_state s else TN_FSLOG_STATE_ERROR) (delete (fl_open s) (fl_fds s))).
      eexists (set_fl_state _ (set_fl_fds (delete (fl_open s) (fl_fds s)) s)). split; [|split; [exact Hok|split_and!; try done; lia]].
      destruct (an_close a =? 0); [by destruct s|done].
    + rewrite M_left_id. cbn [negb]. eexists. split; [reflexivity|]. rewrite <- Hid. split_and!; try done; try lia. intros _. split; [done|].
      simpl. by rewrite delete_id.
  - destruct (start_read_ok s (an_submit a) result b) as (s' & bf' & Hs & Hok' & Hth & Hf & Hst & Ho & Epo & Em & Eb' & Hbf' & Hq); try done.
    simplify_eq. bstep Hs. exists s'. split; [done|]. split_and!; try done; lia.
Qed.

(** A request that completes: every outcome is defined. *)
Lemma fs_done_ok s a :
  fl_ok s → fl_io s = FlRunning → answer_ok s a → ∃ s', fs_done a s = Some (tt, s') ∧ fl_ok s' ∧ same_threads s s'.
Proof.
  intros Hok Hio Ha. assert (working (fl_io s)) as Hw by (rewrite Hio; unfold working; tauto).
  pose proof (fo_type s Hok ltac:(by rewrite Hio)) as Hty. pose proof (fo_loop s Hok Hw) as Hl.
  unfold fs_done. rewrite M_get. destruct (fl_req s) as [r|] eqn:Er; [|exists s; split; [done|split; [done|by split]]].
  destruct r as [|fd base len].
  - assert (∃ result f, fs_work FsOpen a s = Some (result, set_fl_fds f s)) as (result & f & Hwk).
    { unfold fs_work. destruct (an_error a <? 0); [exists (an_error a), (fl_fds s); by destruct s|]. by eexists _, _. }
    bstep Hwk. destruct (open_cb_ok (set_fl_open result (set_fl_loop (set_reqs 0 (fl_loop s)) (set_fl_req None (set_fl_fds f s)))) result a)
      as (s' & Hrun & Hok' & Hth & _); try done; [by apply (fo_pool s Hok)|simpl; by rewrite Hl|].
    exists s'. split; [exact Hrun|]. destruct Hth. by split_and!.
  - destruct (work_read_run s a fd base len Hok Hio Er) as (result & p & m & f & Hwk & Hpr & -> & _). bstep Hwk.
    destruct (fo_req s Hok Hw _ Er) as (b & bf & Hb & Hbf & _).
    destruct (read_cb_ok (set_fl_loop (set_reqs 0 (fl_loop s)) (set_fl_req None (set_fl_fds f (set_fl_pool (fl_pool s, m) s)))) result a b bf)
      as (s' & Hrun & Hok' & Hth & _); try done; [simpl; by rewrite Hl|].
    exists s'. split; [exact Hrun|]. destruct Hth. by split_and!.
Qed.

(** ** Steps *)

Lemma not_working s : fl_io s = FlNone ∨ fl_io s = FlSetup ∨ fl_io s = FlDone → ¬ working (fl_io s).
Proof. unfold working. intros [H|[H|H]]; rewrite H; intros [?|[?|[?|?]]]; done. Qed.

Lemma idle_ok s :
  fl_io s = FlNone ∨ fl_io s = FlSetup ∨ fl_io s = FlDone →
  (fl_io s ≠ FlNone → fl_type s = TN_FSLOG_TYPE_READ ∨ fl_type s = TN_FSLOG_TYPE_WRITE) →
  (fl_io s = FlSetup → fl_req s = None ∧ fl_buffer s = NULL) → fl_ok s.
Proof.
  intros Hio Hty Hnew. pose proof (not_working s Hio) as Hn. split; try done. intros H. destruct Hn. unfold working. tauto.
Qed.

Lemma cleanup_ok s ret lost :
  fl_type s = TN_FSLOG_TYPE_READ ∨ fl_type s = TN_FSLOG_TYPE_WRITE →
  ∃ s', fl_cleanup ret false lost s = Some (tt, s') ∧ fl_ok s' ∧ fl_io s' = FlDone ∧ fl_main s' = fl_main s ∧
    fl_state s' = (if ret =? 0 then fl_state s else TN_FSLOG_STATE_ERROR).
Proof.
  intros Hty. unfold fl_cleanup, tn_fslog_set_state, TN_SUCCESS.
  destruct (ret =? 0); cbn [negb]; (eexists; split; [reflexivity|]); (split; [apply idle_ok; [right; by right|by intros _|done]|]); done.
Qed.

Lemma thread_ok s env :
  fl_ok s → fl_enabled s (AThread env) →
  ∃ s', fl_thread_sized mc mr env s = Some (tt, s') ∧ fl_ok s' ∧ (fl_io s' = FlReady ∨ fl_io s' = FlDone) ∧ fl_main s' = fl_main s.
Proof.
  intros Hok (Hio & Hpriv & Hg). pose proof (fo_type s Hok ltac:(by rewrite Hio)) as Hty. unfold fl_thread_sized. rewrite Hpriv. cbn [negb].
  rewrite M_modify. destruct (pool_setup_run self (fe_pool env) mc mr (fl_pool s) (fl_mem s) Hg) as (p & Hset & _ & _ & _ & _ & Hp).
  set (s0 := set_fl_priv true s).
  assert (fl_on_pool (tn_buffer_pool_setup (fe_pool env) self mc mr) s0 = Some (TN_SUCCESS, set_fl_pool (p, fl_mem s) s0)) as Hset'
    by (unfold fl_on_pool; exact (zoom_Some _ _ _ s0 _ _ Hset)).
  rewrite (bind_Some _ _ _ _ _ Hset'). change (negb (TN_SUCCESS =? 0)) with false. cbv iota. unfold fl_on_loop.
  set (s1 := set_fl_pool (p, fl_mem s) s0).
  assert (∀ s2 ret lost, fl_type s2 = fl_type s → fl_main s2 = fl_main s →
    ∃ s', fl_cleanup ret false lost s2 = Some (tt, s') ∧ fl_ok s' ∧ (fl_io s' = FlReady ∨ fl_io s' = FlDone) ∧ fl_main s' = fl_main s) as Hout.
  { intros s2 ret lost Et Em. destruct (cleanup_ok s2 ret lost) as (s' & Hs & Hok' & Hd & Hm & _); [by rewrite Et|].
    exists s'. split_and!; try done; [by right|congruence]. }
  repeat match goal with
  | |- context [negb ?c] => destruct c; cbn [negb]; [|by apply Hout]
  | |- context [modify ?f ≫= ?k] => rewrite M_modify
  | |- context [zoom fl_loop set_fl_loop (modify ?f) ≫= ?k] => rewrite (bind_Some _ _ _ _ _ (zoom_Some _ _ _ _ _ _ eq_refl))
  end.
  eexists. split; [reflexivity|]. split_and!; try done; [|by left].
  destruct (fo_new s Hok Hio) as [Hq Hb]. split; simpl; try done.
  - intros _. by rewrite Hq.
  - intros _. exists (fresh_streams mc mr). split; [done|]. simpl. rewrite Hb. pose proof (gr_count _ _ _ _ Hg).
    destruct (Z.to_nat mc) eqn:E; [lia|done].
  - intros _ r. by rewrite Hq.
Qed.

(** A turn finds the timer active: [uv_run] goes on. *)
Lemma fl_turn_run s due done s1 :
  fl_ok s1 → fl_io s1 = FlRunning → (match done with Some a => fs_done a | None => mret tt end) s = Some (tt, s1) →
  fl_thread_turn due done s = Some (tt, s1).
Proof.
  intros Hok Hio Hdone. unfold fl_thread_turn, on_fslog_timer_cb. assert ((if due then mret tt else mret tt : M fslog unit) s = Some (tt, s)) as Ht by (by destruct due).
  bstep Ht. bstep Hdone. assert (fl_loop s1 = timer_loop (if fl_req s1 then 1 else 0)) as Hl by (apply (fo_loop s1 Hok); rewrite Hio; unfold working; tauto).
  assert (fl_on_loop uv__run_closing_handles s1 = Some (tt, s1)) as Hcl.
  { unfold fl_on_loop, zoom. rewrite Hl. destruct (fl_req s1); cbn; unfold set_fl_loop; rewrite <- ?Hl; destruct s1; simpl in *; by subst. }
  bstep Hcl. by rewrite Hl.
Qed.

Lemma close_ok s :
  fl_ok s → fl_io s = FlClosing → ∃ s', fl_thread_close s = Some (tt, s') ∧ fl_ok s' ∧ fl_io s' = FlDone ∧ fl_main s' = fl_main s ∧
    fl_state s' = TN_FSLOG_STATE_ERROR.
Proof.
  intros Hok Hio. pose proof (fo_type s Hok ltac:(by rewrite Hio)) as Hty.
  assert (fl_loop s = timer_loop 0) as Hl.
  { rewrite (fo_loop s Hok) by (rewrite Hio; unfold working; tauto). by rewrite (fo_idle s Hok) by tauto. }
  unfold fl_thread_close. rewrite M_get, Hl. change (uv_loop_close (timer_loop 0) =? 0) with false. cbv iota.
  set (l := {| handle_queue := [AcceptTimer]; active_handles := []; closing_handles := [AcceptTimer]; closed_handles := []; active_reqs := [] |}).
  assert (fl_on_loop (uv_walk on_fslog_walk_cb) s = Some (tt, set_fl_loop l s)) as Hwalk by (unfold fl_on_loop, zoom; by rewrite Hl).
  bstep Hwalk. change (uv_loop_close (fl_loop (set_fl_loop l s))) with UV_EBUSY. change (negb (UV_EBUSY =? 0)) with true. cbv iota.
  destruct (cleanup_ok (set_fl_loop l s) UV_EBUSY true Hty) as (s' & Hs & Hok' & Hd & Hm & Hst). by exists s'.
Qed.

Lemma fl_step s x :
  fl_ok s → fl_enabled s x →
  ∃ s', exec_fl x s = Some (tt, s') ∧ fl_ok s' ∧
    (fl_io s = FlRunning → fl_io s' = FlRunning ∧ (fl_main s = FlJoin → fl_main s' = FlJoin)).
Proof.
  intros Hok Hen. destruct x as [type launch| | |env| |submit|due done|]; simpl in Hen; cbn [exec_fl].
  - destruct Hen as (Hm & Hio & Hty). unfold tn_fslog_setup, tn_fslog_set_state, tn_fslog_get_state. mrun.
    destruct (launch =? 0); cbn [negb]; (eexists; split; [reflexivity|]); (split; [apply idle_ok; simpl; tauto|]); intros E; rewrite E in Hio; by destruct Hio.
  - unfold tn_fslog_cleanup_begin, tn_fslog_get_state, tn_fslog_set_state. mrun. destruct Hok.
    destruct (negb (fl_state s =? TN_FSLOG_STATE_STARTING) && negb (fl_state s =? TN_FSLOG_STATE_STARTED));
      (eexists; split; [reflexivity|]); (split; [by split|]); by rewrite Hen.
  - destruct Hen as [Hm Hio]. eexists. split; [reflexivity|]. split; [apply idle_ok; simpl; [by left|done|done]|].
    intros E. rewrite E in Hio. by destruct Hio.
  - destruct (thread_ok s env Hok Hen) as (s' & Hs & Hok' & _). exists s'. split_and!; try done. intros E. destruct Hen as [Hio _]. congruence.
  - unfold fl_thread_check, tn_fslog_get_state. mrun. eexists. split; [reflexivity|]. split; [|by rewrite Hen]. pose proof Hok as [Hl Hp Hr Hi _ Ht].
    rewrite Hen in *. assert (working FlReady) as Hw by (by left). specialize (Hl Hw). specialize (Hp Hw). specialize (Hr Hw). specialize (Hi ltac:(by left)).
    destruct (fl_state s =? TN_FSLOG_STATE_STARTING); split; simpl; try done; intros _; by apply Ht.
  - unfold fl_thread_open, tn_fslog_set_state. pose proof (fo_type s Hok ltac:(by rewrite Hen)) as Hty. mrun.
    assert ((fl_type s =? TN_FSLOG_TYPE_READ) || (fl_type s =? TN_FSLOG_TYPE_WRITE) = true) as -> by (by destruct Hty as [-> | ->]). mrun.
    unfold uv_fs_submit. assert (working (fl_io s)) as Hw by (rewrite Hen; unfold working; tauto). pose proof (fo_loop s Hok Hw) as Hl.
    rewrite (fo_idle s Hok ltac:(tauto)) in Hl. pose proof (fo_pool s Hok Hw) as Hp. destruct (Z.eqb_spec submit 0) as [->|Hz].
    + eexists. split; [reflexivity|]. split; [|by rewrite Hen]. split; simpl; try done; [intros _; by rewrite Hl|by intros _ r [= <-]|by intros [?|[?|?]]].
    + mrun. rewrite (proj2 (Z.eqb_neq submit 0)) by done. cbn [negb].
      destruct (cleanup_ok (set_fl_state TN_FSLOG_STATE_STARTED s) 0 true Hty) as (s' & Hs & Hok' & _). exists s'. split_and!; try done. congruence.
  - destruct Hen as [Hio Ha]. assert (∃ s1, (match done with Some a => fs_done a | None => mret tt end) s = Some (tt, s1) ∧ fl_ok s1 ∧ same_threads s s1)
      as (s1 & Hd & Hok1 & [Ei Em _]).
    { destruct done as [a|]; [by apply fs_done_ok|]. exists s. by split_and!. }
    exists s1. split; [apply fl_turn_run; [done|congruence|done]|]. split_and!; try done. intros _. split; congruence.
  - destruct (close_ok s Hok Hen) as (s' & Hs & Hok' & _). exists s'. split_and!; try done. congruence.
Qed.

Lemma fl_runs_ok s xs s' : fl_ok s → fl_runs s xs s' → fl_ok s'.
Proof.
  intros Hok Hr. induction Hr as [|s x s1 xs s2 Hen Hx Hr IH]; [done|]. apply IH.
  destruct (fl_step s x Hok Hen) as (s' & Hs & Hok' & _). by simplify_eq.
Qed.

(** A read that gets bytes, and one that gets none. *)
Lemma read_turn s due a fd base len rest :
  fl_ok s → fl_io s = FlRunning → fl_req s = Some (FsRead fd base len) → fl_fds s !! fd = Some rest → rest ≠ [] →
  0 ≤ an_error a → an_submit a = 0 →
  let n := Z.of_nat (length (chunk a len rest)) in
  ∃ s', exec_fl (ATurn due (Some a)) s = Some (tt, s') ∧ fl_ok s' ∧ fl_io s' = FlRunning ∧ fl_state s' = fl_state s ∧ 0 < n ∧
    fl_req s' = Some (FsRead n base len) ∧ fl_fds s' = <[fd := drop (Z.to_nat n) rest]> (fl_fds s) ∧
    mem_load (fl_mem s') base n = Some (chunk a len rest).
Proof.
  intros Hok Hio Hq Hf Hne He Hsub n. assert (working (fl_io s)) as Hw by (rewrite Hio; unfold working; tauto).
  destruct (work_read_run s a fd base len Hok Hio Hq) as (result & p & m & f & Hwk & Hpr & -> & Hcase).
  destruct Hcase as [(_ & _ & [?|?])|(rest' & _ & Hf' & Hres & Hff & Hld)]; [lia|congruence|]. assert (rest' = rest) as -> by congruence. fold n in Hres.
  destruct (fo_req s Hok Hw _ Hq) as (b & bf & Hb & Hbf & Ebase & Elen).
  assert (0 < n) as Hn.
  { pose proof (fo_pool s Hok Hw) as (st & Hp & _). pose proof (ps_size _ _ _ (pr_shape _ _ _ _ Hp)) as Hsz. rewrite <- Elen in Hsz.
    unfold n, chunk. rewrite !length_take. destruct rest; [done|]. cbn [length]. lia. }
  set (s1 := set_fl_loop (set_reqs 0 (fl_loop s)) (set_fl_req None (set_fl_fds f (set_fl_pool (fl_pool s, m) s)))).
  destruct (read_cb_ok s1 result a b bf) as (s' & Hrun & Hok' & [Ei Em Et] & _ & _ & _ & Hpos); try done.
  { by apply (fo_type s Hok); rewrite Hio. }
  { simpl. by rewrite (fo_loop s Hok Hw). }
  destruct Hpos as (E1 & E2 & E3 & E4 & E5); [lia|]. rewrite Hsub in E5. simpl in E5.
  exists s'. assert (fl_io s' = FlRunning) as Hio' by (by rewrite Ei). split.
  { cbn [exec_fl]. apply fl_turn_run; [done|done|]. unfold fs_done. rewrite M_get, Hq. bstep Hwk. exact Hrun. }
  split_and!; try done.
  - by rewrite E5, Hres, Ebase, Elen.
  - rewrite E2. simpl. rewrite Hff. unfold n. by rewrite Nat2Z.id.
  - rewrite E3. simpl. by rewrite <- Hres.
Qed.

Lemma bad_turn s due a fd base len :
  fl_ok s → fl_io s = FlRunning → fl_req s = Some (FsRead fd base len) → fl_fds s !! fd = None →
  ∃ s', exec_fl (ATurn due (Some a)) s = Some (tt, s') ∧ fl_ok s' ∧ fl_io s' = FlRunning ∧ fl_state s' = TN_FSLOG_STATE_ERROR ∧
    fl_req s' = None ∧ fl_fds s' = fl_fds s.
Proof.
  intros Hok Hio Hq Hf. assert (working (fl_io s)) as Hw by (rewrite Hio; unfold working; tauto).
  destruct (work_read_run s a fd base len Hok Hio Hq) as (result & p & m & f & Hwk & Hpr & -> & Hcase).
  destruct Hcase as [(Hneg & Hff & _)|(rest' & _ & Hf' & _)]; [|congruence].
  destruct (fo_req s Hok Hw _ Hq) as (b & bf & Hb & Hbf & Ebase & Elen).
  set (s1 := set_fl_loop (set_reqs 0 (fl_loop s)) (set_fl_req None (set_fl_fds f (set_fl_pool (fl_pool s, m) s)))).
  destruct (read_cb_ok s1 result a b bf) as (s' & Hrun & Hok' & [Ei Em Et] & _ & Herr & _); try done.
  { by apply (fo_type s Hok); rewrite Hio. }
  { simpl. by rewrite (fo_loop s Hok Hw). }
  destruct (Herr Hneg) as (E1 & E2 & E3). exists s'. assert (fl_io s' = FlRunning) as Hio' by (by rewrite Ei). split.
  { cbn [exec_fl]. apply fl_turn_run; [done|done|]. unfold fs_done. rewrite M_get, Hq. bstep Hwk. exact Hrun. }
  split_and!; try done. by rewrite E3.
Qed.

(** After an error nothing is read or closed any more. *)
Lemma quiet_runs s xs s' :
  fl_ok s → fl_io s = FlRunning → fl_req s = None → fl_state s = TN_FSLOG_STATE_ERROR → fl_runs s xs s' →
  fl_io s' = FlRunning ∧ fl_state s' = TN_FSLOG_STATE_ERROR ∧ fl_fds s' = fl_fds s.
Proof.
  intros Hok Hio Hq Hst Hr. induction Hr as [|s x s1 xs s2 Hen Hx Hr IH]; [done|].
  destruct (fl_step s x Hok Hen) as (s' & Hs & Hok' & _). simplify_eq.
  assert (fl_io s1 = FlRunning ∧ fl_req s1 = None ∧ fl_state s1 = TN_FSLOG_STATE_ERROR ∧ fl_fds s1 = fl_fds s) as (E1 & E2 & E3 & E4).
  { destruct x as [type launch| | |env| |submit|due done|]; simpl in Hen; rewrite ?Hio in Hen; try discriminate Hen;
      try (by destruct Hen as (_ & [?|?] & _)); try (by destruct Hen as [_ [?|?]]); try (by destruct Hen).
    - cbn [exec_fl] in Hx. unfold tn_fslog_cleanup_begin, tn_fslog_get_state in Hx. rewrite M_assoc, M_gets, Hst in Hx. cbn in Hx. injection Hx as <-. done.
    - cbn [exec_fl] in Hx. rewrite (fl_turn_run s due done s) in Hx; [by simplify_eq|done|done|]. destruct done; [|done]. unfold fs_done. by rewrite M_get, Hq. }
  rewrite <- E4. by apply IH.
Qed.
End Log.

(** ** Theorems *)

(** An object that was not set up. *)
Definition fresh_fslog (m : mem) (fds : gmap Z (list Z)) : fslog :=
  {| fl_priv := false; fl_type := 0; fl_state := 0; fl_buffer := NULL; fl_pool := blank_pool; fl_mem := m; fl_open := 0; fl_loop := empty_loop;
     fl_req := None; fl_fds := fds; fl_io := FlNone; fl_main := FlIdle; fl_lost := 0 |}.

Lemma fresh_runs_ok self mc mr m fds xs s : fl_runs self mc mr (fresh_fslog m fds) xs s → fl_ok self s.
Proof. apply fl_runs_ok. by apply idle_ok; [left| |]. Qed.

(** As long as the allocator grants the private part and the pool, no step of the two threads
    is undefined; but once the thread is in [uv_run] it stays there whatever happens, since
    nothing closes its timer: [tn_fslog_cleanup], when it has begun to wait, never returns. *)
Theorem fslog_cleanup_never_returns self mc mr m fds xs s :
  fl_runs self mc mr (fresh_fslog m fds) xs s →
  (∀ x, fl_enabled mc mr s x → is_Some (exec_fl self mc mr x s)) ∧
  (fl_io s = FlRunning → ∀ ys s', fl_runs self mc mr s ys s' →
   fl_io s' = FlRunning ∧ (fl_main s = FlJoin → fl_main s' = FlJoin ∧ ¬ fl_enabled mc mr s' AJoined)).
Proof.
  intros Hr. pose proof (fresh_runs_ok self mc mr m fds xs s Hr) as Hok. split.
  - intros x Hx. destruct (fl_step self mc mr s x Hok Hx) as (s' & -> & _). by eexists.
  - intros Hio ys s' Hr'. clear Hr. assert (fl_io s' = FlRunning ∧ (fl_main s = FlJoin → fl_main s' = FlJoin)) as [H1 H2].
    { induction Hr' as [|s x s1 ys s2 Hen Hx Hr' IH]; [done|]. destruct (fl_step self mc mr s x Hok Hen) as (s' & Hs & Hok' & Hst). simplify_eq.
      destruct (Hst Hio) as [E1 E2]. destruct (IH Hok' E1) as [E3 E4]. split; [done|]. intros Hm. by apply E4, E2. }
    split; [done|]. intros Hm. split; [by apply H2|]. simpl. rewrite H1. by intros [_ [?|?]].
Qed.

(** The file is read once.  When a read of the file got [n] bytes, the next read is of the
    descriptor [n]; if that is not open, the log goes into the error state, and whatever
    happens then the thread runs on with the rest of the file unread and the file open. *)
Theorem fslog_reads_once self mc mr m fds xs s fd base len rest a a' due due' :
  fl_runs self mc mr (fresh_fslog m fds) xs s → fl_io s = FlRunning → fl_req s = Some (FsRead fd base len) →
  fl_fds s !! fd = Some rest → rest ≠ [] → 0 ≤ an_error a → an_submit a = 0 →
  let n := Z.of_nat (length (chunk a len rest)) in
  fl_fds s !! n = None →
  ∃ s1 s2, exec_fl self mc mr (ATurn due (Some a)) s = Some (tt, s1) ∧ mem_load (fl_mem s1) base n = Some (chunk a len rest) ∧
    exec_fl self mc mr (ATurn due' (Some a')) s1 = Some (tt, s2) ∧
    ∀ ys s', fl_runs self mc mr s2 ys s' →
      fl_io s' = FlRunning ∧ fl_state s' = TN_FSLOG_STATE_ERROR ∧ fl_fds s' !! fd = Some (drop (Z.to_nat n) rest).
Proof.
  intros Hr Hio Hq Hf Hne He Hsub n Hn. pose proof (fresh_runs_ok self mc mr m fds xs s Hr) as Hok.
  destruct (read_turn self mc mr s due a fd base len rest) as (s1 & Hx1 & Hok1 & Hio1 & _ & Hpos & Hq1 & Hf1 & Hld); try done. fold n in Hq1, Hf1, Hld.
  assert (fl_fds s1 !! n = None) as Hn1 by (rewrite Hf1, lookup_insert_ne; [done|congruence]).
  destruct (bad_turn self mc mr s1 due' a' n base len) as (s2 & Hx2 & Hok2 & Hio2 & Hst2 & Hq2 & Hf2); try done.
  exists s1, s2. split_and!; try done. intros ys s' Hys. destruct (quiet_runs self mc mr s2 ys s' Hok2 Hio2 Hq2 Hst2 Hys) as (E1 & E2 & E3).
  split_and!; try done. by rewrite E3, Hf2, Hf1, lookup_insert_eq.
Qed.

(** ** An executed run *)

(** A log over three blocks of four bytes that reads a file of six, opened as descriptor 7. *)
Definition sample_env : fl_env :=
  {| fe_priv := true; fe_pool := sample_pool_acquire; fe_loop := true; fe_loop_init := 0; fe_timer := true; fe_timer_init := 0; fe_timer_start := 0 |}.
Definition sample_file : list Z := [72; 101; 108; 108; 111; 33].
Definition opened : fs_answer := {| an_error := 0; an_fd := 7; an_bytes := sample_file; an_short := 100; an_submit := 0; an_close := 0 |}.
Definition reading_acts : list fl_act := [ASetup TN_FSLOG_TYPE_READ 0; AThread sample_env; ACheck; AOpen 0; ATurn true (Some opened)].

Fixpoint exec_fl_all (self mc mr : Z) (xs : list fl_act) : M fslog unit :=
  match xs with [] => mret tt | x :: xs => exec_fl self mc mr x;; exec_fl_all self mc mr xs end.

Definition reading_log : fslog :=
  match exec_fl_all 64 3 4 reading_acts (fresh_fslog sample_mem ∅) with Some (_, s) => s | None => fresh_fslog ∅ ∅ end.

Lemma reading_runs : fl_runs 64 3 4 (fresh_fslog sample_mem ∅) reading_acts reading_log.
Proof.
  unfold reading_log.
  eapply fl_cons; [split_and!; [done|by left|by left]|vm_compute; reflexivity|].
  eapply fl_cons; [split_and!; [done|done|exact sample_granted]|vm_compute; reflexivity|].
  eapply fl_cons; [done|vm_compute; reflexivity|].
  eapply fl_cons; [done|vm_compute; reflexivity|].
  eapply fl_cons; [split; [done|right; split; [done|reflexivity]]|vm_compute; reflexivity|].
  vm_compute. apply fl_nil.
Qed.

Lemma reading_facts :
  fl_io reading_log = FlRunning ∧ (∃ base, fl_req reading_log = Some (FsRead 7 base 4)) ∧ fl_fds reading_log !! 7 = Some sample_file ∧
  fl_fds reading_log !! 4 = None.
Proof. vm_compute. split_and!; try reflexivity. by eexists. Qed.

Lemma fslog_cleanup_never_returns_witness :
  (∃ s, fl_runs 64 3 4 reading_log [ACleanup] s ∧ fl_main s = FlJoin) ∧
  ∀ ys s', fl_runs 64 3 4 reading_log ys s' → fl_io s' = FlRunning.
Proof.
  split.
  - eexists. split; [eapply fl_cons; [reflexivity|vm_compute; reflexivity|apply fl_nil]|]. reflexivity.
  - intros ys s' Hr. destruct (fslog_cleanup_never_returns 64 3 4 sample_mem ∅ reading_acts reading_log reading_runs) as [_ H].
    apply (H (proj1 reading_facts) ys s' Hr).
Defined.

Lemma fslog_reads_once_witness :
  ∃ s1 s2, exec_fl 64 3 4 (ATurn false (Some opened)) reading_log = Some (tt, s1) ∧
    exec_fl 64 3 4 (ATurn true (Some opened)) s1 = Some (tt, s2) ∧
    ∀ ys s', fl_runs 64 3 4 s2 ys s' → fl_state s' = TN_FSLOG_STATE_ERROR ∧ fl_fds s' !! 7 = Some [111; 33].
Proof.
  destruct reading_facts as (Hio & [base Hq] & Hf & Hn).
  destruct (fslog_reads_once 64 3 4 sample_mem ∅ reading_acts reading_log 7 base 4 sample_file opened opened false true reading_runs Hio Hq Hf)
    as (s1 & s2 & H1 & _ & H2 & Hq2); [discriminate|discriminate|reflexivity|exact Hn|].
  exists s1, s2. split; [exact H1|]. split; [exact H2|]. intros ys s' Hr. destruct (Hq2 ys s' Hr) as (_ & E1 & E2). split; [exact E1|exact E2].
Defined.
